(* ===== verification/_CoqProject ===== *)
-Q . S2P
Prelude.v
AvlSpec.v
StateMonad.v
Avl.v
AvlTree.v
AvlBalance.v
AvlList.v
AvlRemove.v
AvlRefine.v
AvlExample.v
AvlApi.v
AvlInsert.v
AvlDelete.v
AvlLookup.v
Rfc5444Values.v
Netaddr.v
NetaddrAcl.v
Bitmap256.v
ReaderParse.v
ReaderSchedule.v
ReaderMatch.v
Reader.v
ReaderAddress.v
ReaderTable.v
TlvCode.v
WriterTlv.v
MprSelection.v
Timer.v
ValidityTimer.v
DuplicateSet.v
NhdpDb.v
NhdpDomain.v
NhdpTlv.v
NhdpHandlers.v
NhdpStore.v
NhdpConsistent.v
NhdpPartners.v
NhdpRemove.v
NhdpUnlink.v
NhdpNeighbor.v
NhdpAdd.v
NhdpMove.v
NhdpOriginator.v
NhdpMetrics.v
NhdpStatus.v
NhdpHistory.v
NhdpDatabase.v
MprFlooding.v
MprRouting.v
RoutingSet.v
OsRouting.v
TcDatabase.v
TcInvariant.v
TcNets.v
TcFacts.v
TcRemove.v
TcRefine.v
TcOperations.v
TcReader.v
TcFrame.v
TcAnnounce.v
TcMessage.v
TcPacket.v
Dijkstra.v
DijkstraRun.v
RoutingUpdate.v
RoutingCheapest.v
RoutingKernel.v
RoutingRound.v
RoutingScenarios.v
RoutingTrigger.v
