(* ===== verification/Prelude.v ===== *)
(** * OONF, verified

    A verification library for the core of OONF, the routing daemon olsrd2: the
    OLSRv2 protocol (RFC 7181), the neighborhood discovery NHDP (RFC 6130) below
    it, the RFC 5444 packet format, and the containers and timers they are built
    on. This file is the root of the library; it also holds the vocabulary that
    all parts share (machine integers, undefined behaviour, list lemmas, tactics).

    ** The program

    A packet arrives at [rfc5444_reader_handle_packet]
    (src/src/librfc5444/rfc5444_reader.c). The reader parses messages, TLV blocks
    and address blocks and calls back the consumers that are registered. The TC
    reader (src/src/olsrv2/olsrv2/olsrv2_reader.c) is one; it asks the duplicate
    set (src/src/base/oonf_duplicate_set.c) whether a message is new, and writes
    into the topology database (src/src/olsrv2/olsrv2/olsrv2_tc.c). NHDP
    (src/src/nhdp/nhdp) keeps links, neighbors and two-hop neighbors; from them
    the MPR plugin (src/src/nhdp/mpr) selects the relays. A change of either
    database triggers the routing module
    (src/src/olsrv2/olsrv2/olsrv2_routing.c): Dijkstra over the topology database,
    comparison with the routes already set, and a queue of requests to the kernel
    (src/src/base/os_linux/os_routing_linux.c). All databases are AVL trees
    (src/src/libcommon/avl.c) whose objects expire by timers
    (src/src/base/oonf_timer.c).

    ** The files

    In the order of their dependencies; every name of a function, type or field of
    the code is kept.

    - Prelude, AvlSpec, StateMonad: the vocabulary. [outcome] is a computation of
      C: a value or an undefined operation. [AvlSpec] is the sorted list that a
      tree promises to be; the components above use it in place of the tree.
      [StateMonad] passes a memory along and reasons about it ([wp]), and has the
      loops of list.h and avl.h, which reload their successors from memory.
    - Avl, AvlTree, AvlBalance, AvlList, AvlRemove, AvlRefine, AvlExample, AvlApi,
      AvlInsert, AvlDelete, AvlLookup: avl.c and avl.h on a memory of nodes, every
      load and store of the code, refined to the list of AvlSpec.
    - Rfc5444Values: rfc5444.c, interval times, metrics, sequence numbers.
    - Netaddr, NetaddrAcl, Bitmap256: netaddr.c (binary part), netaddr_acl.c,
      bitmap256.c.
    - ReaderParse, ReaderSchedule, ReaderMatch, Reader, ReaderAddress:
      rfc5444_reader.c; parsing over a buffer of octets, the merge of TLVs with
      the descriptions of a consumer, messages and packets with their consumers,
      and the assembly of compressed addresses. ReaderTable: the TLVs of a block as
      the consumers of TC and HELLO messages see them, one list per description.
    - TlvCode, WriterTlv: the octets that RFC 5444 gives a TLV, which the reader
      reads back, and rfc5444_tlv_writer.c, which writes them.
    - MprSelection, MprFlooding, MprRouting: selection-rfc7181.c and
      neighbor-graph.c, then neighbor-graph-flooding.c, neighbor-graph-routing.c
      and mpr.c, on the records of NhdpDb.
    - Timer, ValidityTimer: oonf_timer.c on oonf_clock.c, and timers as other
      components embed them.
    - DuplicateSet: oonf_duplicate_set.c.
    - NhdpDb: the records of nhdp_db.h that MPR selection and routing read.
      NhdpDomain, NhdpTlv, NhdpHandlers: nhdp_domain.c, the domains with their
      metrics and MPR algorithms and the TLVs for all domains.
    - NhdpStore, NhdpConsistent, NhdpPartners, NhdpRemove, NhdpUnlink,
      NhdpNeighbor, NhdpAdd, NhdpMove, NhdpOriginator, NhdpMetrics, NhdpStatus,
      NhdpHistory, NhdpDatabase: nhdp_db.c with the metrics of nhdp_domain.c and
      the flooding flags of nhdp_interfaces.c, on a memory of neighbors, links and
      their addresses that point to each other. NhdpStore has the records and the
      operations, NhdpConsistent the invariant; the files after it show it
      for one group of operations each, NhdpHistory for every sequence of calls;
      NhdpDatabase holds the theorems.
    - RoutingSet, Dijkstra, DijkstraRun, RoutingUpdate, RoutingCheapest,
      RoutingKernel, RoutingRound, RoutingScenarios, RoutingTrigger:
      olsrv2_routing.c; the entries of a domain, one Dijkstra run, the whole
      update, what it computes, what the kernel is told, what the update of all
      changed domains does to them and to the others, and when it runs. OsRouting: the netlink
      messages of os_routing_linux.c.
    - TcDatabase, TcInvariant, TcNets, TcFacts, TcRemove, TcRefine, TcOperations:
      olsrv2_tc.c on a memory of objects that point to each other, with an
      invariant, the facts that the database shows, and every operation as a
      change of these facts.
    - TcReader, TcFrame, TcAnnounce, TcMessage, TcPacket: olsrv2_reader.c with the
      decisions of olsrv2.c to process and to forward, composed with the database,
      the duplicate sets and the packet parser. TcFrame says what is shown of a
      router and what a message of another one leaves as it is.

    ** State and operations

    An object of C is a record with the fields of the code. Where code shares or
    frees objects (trees, TLVs, timers, topology and NHDP objects), a memory maps
    addresses ([positive] or [nat]) to records, [NULL] is [None], [free] deletes
    the entry, and a load or store through another address is undefined behaviour,
    so that a theorem that a function ends with a value also says that it touches
    nothing freed. Elsewhere a record is passed by value. Memory allocation is a
    parameter, a function that answers an address or failure; where a fresh
    address matters this is a hypothesis about it. Integers are [Z] with the
    wrap-around of their C type written out. Random numbers, the consumers of the
    RFC 5444 reader, the callbacks of timers, the filters of routes, the text form of addresses
    and the answers of the kernel are parameters as well, with the documented
    promises of each as named hypotheses and a concrete instance in the witness of
    every theorem that needs them. Events that inform listeners are kept as a
    list where a component depends on them.

    ** What is shown

    - Packets: for every octet sequence, allocation failure and callback the
      reader ends and frees what it allocated, or it meets one of three operations
      without defined result, which have constructors of their own in [ub] so
      that no other access can hide behind them (Reader, ReaderParse); a message
      is forwarded exactly if the conditions of the code hold (Reader); compressed
      addresses and the TLVs of a description are found exactly (ReaderAddress,
      ReaderMatch). The TLVs that a writer adds, reserves and sets in a header
      come back from the reader as they were (WriterTlv).
    - Containers: insertion, removal, lookup and iteration of trees refine the
      sorted list, the trees stay balanced, searches are logarithmic (AvlInsert,
      AvlDelete, AvlApi, AvlLookup).
    - Timers: the invariant of the scheduler, deadlines on the grid of timeslices
      within the jitter and one slice, and a walk that fires everything due (Timer).
    - Duplicate detection refines a window over unbounded sequence numbers and
      accepts no number twice (DuplicateSet).
    - The topology database is consistent after every history of calls, and each
      call is a change of the facts it shows (TcOperations); a TC message replaces
      what its originator said before, with all metrics and distances, and leaves
      what other routers said (TcMessage). Calls have to respect [op_ok], which the
      TC reader does not for self edges and validity times of zero.
    - The neighbor database is consistent after every history of calls; each
      removal removes what it names and nothing else; lookups, status of links,
      counters of symmetric links, originators and metrics are what RFC 6130 and
      RFC 7181 ask of them, with the exceptions that are named (NhdpDatabase).
      What is written into the MPR and willingness TLVs is what the neighbor
      reads (NhdpTlv).
    - MPR selection ends, keeps the distance to every two-hop address at its least
      value, and its flags reach the links and neighbors (MprSelection,
      MprFlooding, MprRouting).
    - Routing: a run finds shortest paths (DijkstraRun), the routing set then shows
      the cheapest route of all runs and of those that NHDP offers
      (RoutingCheapest), the kernel is told of every change once and in an order
      that keeps gateways reachable (RoutingKernel), a change is never forgotten and
      the pending update runs Dijkstra for exactly the changed domains
      (RoutingTrigger), and the
      netlink message reads back as the route (OsRouting).
    - Value encodings are inverse to each other and round in the direction they
      promise (Rfc5444Values); prefixes and access lists decide by their bits
      (Netaddr, NetaddrAcl).
    - Examples in Netaddr, ReaderParse, ReaderAddress, MprRouting, NhdpTlv,
      NhdpHandlers, TcOperations, TcPacket and RoutingScenarios evaluate the model
      on inputs on which the code does something else than its documentation says.

    ** Bounds and fuel

    Recursion that is not structural has fuel, and it is shown that it does not
    run out. Walks in an AVL tree get one step more than there are nodes in
    memory ([with_fuel]); a removal recurses at most once, into a leaf. The TLV
    and message loops of the reader get one step per octet of the buffer, each
    iteration consumes at least one; the merge of a TLV block gets the number of
    TLVs and descriptions, each step advances in one of the two; the chain of TLVs
    that a consumer reads has at most as many links as TLVs. The loops over lists
    and trees of objects get the length of the list at the start, none of their
    bodies adds to it. Dijkstra gets one round per target: a target leaves the
    queue once. MPR selection gets one round per candidate. The timer walk needs more
    steps than timers are due: callbacks start timers for later only. Prefix and encoding loops are bounded by the 128
    bits and 16 exponents of their formats.

    ** Not modelled

    Text (string.c, autobuf.c, json.c, isonumber.c, rfc5444_print.c, the text part
    of netaddr.c, telnet, http, viewers) and the configuration library are
    formatting and parsing for users. Sockets, the event loop, interfaces and the
    kernel queries of os_linux are system calls. nl80211.h is a copy of a header
    of the kernel. DLEP, the layer 2 database and the plugins around the core do
    not take part in routing; the debug output of the modelled files is left out.
    Of the core itself: the RFC 5444 writer is modelled for the TLVs of headers
    only, its search for a good division of the addresses into blocks and
    fragments is not; the NHDP message reader and writer are calls of the database
    and of these libraries, in an order that their consumers fix; the originator
    and attached network sets of OLSRv2 are plain tables, of which routing uses
    the lookups; TC messages are read and forwarded but not generated. *)

From Stdlib Require Import ZArith Lia Sorted.
From stdpp Require Import base list numbers option gmap sorting.

Local Open Scope Z_scope.

(** * Machine integers

    A C integer is a [Z]; the wrap-around of each width is written out where
    the code stores a value into a variable of that width. *)

Definition wrap (w : Z) (z : Z) : Z := z `mod` 2 ^ w.

Definition u8 (z : Z) : Z := wrap 8 z.
Definition u16 (z : Z) : Z := wrap 16 z.
Definition u32 (z : Z) : Z := wrap 32 z.
Definition u64 (z : Z) : Z := wrap 64 z.

(** Conversion to a signed type of width [w] (two's complement). *)
Definition swrap (w : Z) (z : Z) : Z :=
  let r := wrap w z in if r <? 2 ^ (w - 1) then r else r - 2 ^ w.

Definition s32 (z : Z) : Z := swrap 32 z.
Definition s64 (z : Z) : Z := swrap 64 z.

Declare Scope cint_scope.
Delimit Scope cint_scope with cint.
Notation "x .& y" := (Z.land x y) (at level 40, left associativity) : cint_scope.
Notation "x .| y" := (Z.lor x y) (at level 50, left associativity) : cint_scope.
Notation "x .<< y" := (Z.shiftl x y) (at level 40, left associativity) : cint_scope.
Notation "x .>> y" := (Z.shiftr x y) (at level 40, left associativity) : cint_scope.

Definition is_u8 (z : Z) : Prop := 0 <= z < 256.

#[export] Instance is_u8_dec z : Decision (is_u8 z).
Proof. unfold is_u8. apply _. Defined.

Definition is_u16 (z : Z) : Prop := 0 <= z < 65536.

#[export] Instance is_u16_dec z : Decision (is_u16 z).
Proof. unfold is_u16. apply _. Defined.

Create HintDb cint discriminated.

Lemma wrap_range w z : 0 <= w -> 0 <= wrap w z < 2 ^ w.
Proof. intros. apply Z.mod_pos_bound. lia. Qed.

Lemma wrap_small w z : 0 <= z < 2 ^ w -> wrap w z = z.
Proof. apply Z.mod_small. Qed.

Lemma u8_range z : 0 <= u8 z < 256.
Proof. apply (wrap_range 8). lia. Qed.
Lemma u16_range z : 0 <= u16 z < 65536.
Proof. apply (wrap_range 16). lia. Qed.
Lemma u32_range z : 0 <= u32 z < 4294967296.
Proof. apply (wrap_range 32). lia. Qed.
Lemma u64_range z : 0 <= u64 z < 18446744073709551616.
Proof. apply (wrap_range 64). lia. Qed.

Lemma u8_small z : 0 <= z < 256 -> u8 z = z.
Proof. apply (wrap_small 8). Qed.
Lemma u16_small z : 0 <= z < 65536 -> u16 z = z.
Proof. apply (wrap_small 16). Qed.
Lemma u32_small z : 0 <= z < 4294967296 -> u32 z = z.
Proof. apply (wrap_small 32). Qed.
Lemma u64_small z : 0 <= z < 18446744073709551616 -> u64 z = z.
Proof. apply (wrap_small 64). Qed.

#[export] Hint Resolve u8_range u16_range u32_range u64_range : cint.
#[export] Hint Rewrite u8_small u16_small u32_small u64_small using lia : cint.

(** Removes every wrap-around whose argument is in range. *)
Ltac cint_simpl := autorewrite with cint in *.

(** Range facts of every wrapped value of the goal and the context. *)
Ltac cint_ranges :=
  repeat match goal with
  | |- context [u8 ?z] => lazymatch goal with
      | _ : 0 <= u8 z < 256 |- _ => fail | _ => pose proof (u8_range z) end
  | H : context [u8 ?z] |- _ => lazymatch goal with
      | _ : 0 <= u8 z < 256 |- _ => fail | _ => pose proof (u8_range z) end
  | |- context [u16 ?z] => lazymatch goal with
      | _ : 0 <= u16 z < 65536 |- _ => fail | _ => pose proof (u16_range z) end
  | H : context [u16 ?z] |- _ => lazymatch goal with
      | _ : 0 <= u16 z < 65536 |- _ => fail | _ => pose proof (u16_range z) end
  end.
Ltac clia := cint_ranges; lia.

(** Masks and shifts as arithmetic. *)
Lemma land_mask x n : 0 <= n -> Z.land x (2 ^ n - 1) = x `mod` 2 ^ n.
Proof. intros. rewrite <- Z.land_ones by done. f_equal. rewrite Z.ones_equiv. lia. Qed.

Lemma shiftr_div x n : 0 <= n -> Z.shiftr x n = x `div` 2 ^ n.
Proof. intros. by apply Z.shiftr_div_pow2. Qed.

Lemma shiftl_mul x n : 0 <= n -> Z.shiftl x n = x * 2 ^ n.
Proof. intros. by apply Z.shiftl_mul_pow2. Qed.

(** * Undefined behaviour

    A C operation with no defined result makes the whole computation
    [Undef]; every other result is [Def].  [Assert_failed] is an assertion that
    ends the program.  [Out_of_fuel] is no behaviour of the
    code: a loop of the model ran longer than its fuel, and a theorem that some
    computation is [Def] shows that this does not happen.  [UB_prefix_length]
    and [UB_address_octets] are the read and the write of two lines of the
    reader of packets, which a theorem about the reader can so tell from every
    other read and write ([at_site]). *)

Inductive ub := UB_read | UB_write | UB_div_zero | UB_null | UB_prefix_length | UB_address_octets | Assert_failed | Out_of_fuel.

Inductive outcome (A : Type) := Def (a : A) | Undef (u : ub).
Arguments Def {A} a.
Arguments Undef {A} u.

#[export] Instance outcome_ret : MRet outcome := fun A a => Def a.
#[export] Instance outcome_bind : MBind outcome := fun A B k m =>
  match m with Def a => k a | Undef u => Undef u end.

(** An operation whose undefined behaviour has a name of its own. *)
Definition at_site {A} (u : ub) (o : outcome A) : outcome A := match o with Def a => Def a | Undef _ => Undef u end.

Definition is_def {A} (o : outcome A) : Prop := exists a, o = Def a.

Lemma bind_Def {A B} (k : A -> outcome B) m b :
  (m ≫= k) = Def b -> exists a, m = Def a /\ k a = Def b.
Proof. destruct m; simpl; [eauto | done]. Qed.

(** Splits every hypothesis [m ≫= k = Def b] into its steps. *)
Ltac inv_bind :=
  repeat match goal with
  | H : (_ ≫= _) = Def _ |- _ =>
      let a := fresh "v" in let E := fresh "E" in
      apply bind_Def in H as (a & E & H); simpl in H
  | H : Def _ = Def _ |- _ => injection H as H; subst
  | H : mret _ = Def _ |- _ => unfold mret, outcome_ret in H
  | H : Undef _ = Def _ |- _ => discriminate H
  end.

(** A computation with one of the undefined behaviours [us] or a result in
    [P]. *)
Definition safe {A} (us : list ub) (P : A -> Prop) (o : outcome A) : Prop :=
  match o with Def a => P a | Undef u => u ∈ us end.

Lemma safe_bind {A B} us (P : A -> Prop) (Q : B -> Prop) m k :
  safe us P m -> (forall a, P a -> safe us Q (k a)) -> safe us Q (m ≫= k).
Proof. destruct m; simpl; auto. Qed.

Lemma safe_mono {A} us us' (P Q : A -> Prop) o :
  safe us P o -> us ⊆ us' -> (forall a, P a -> Q a) -> safe us' Q o.
Proof. destruct o; simpl; auto. Qed.

(** * Byte memory

    A received buffer is a list of octets; a pointer into it is an offset,
    which may run past the end (the code computes such pointers before it
    compares them with the end of the buffer).  Only reading there is
    undefined. *)

Notation bytes := (list Z).

Definition blen (b : bytes) : Z := Z.of_nat (length b).

Definition rd (b : bytes) (p : Z) : outcome Z :=
  if p <? 0 then Undef UB_read
  else match b !! Z.to_nat p with Some x => Def x | None => Undef UB_read end.

(** [memcpy] source: [n] octets from [p]; copying nothing reads nothing. *)
Definition rd_n (b : bytes) (p n : Z) : outcome bytes :=
  if n <=? 0 then Def []
  else if (p <? 0) || (blen b <? p + n) then Undef UB_read
  else Def (take (Z.to_nat n) (drop (Z.to_nat p) b)).

(** [memcpy] destination: overwrite a fixed array at [p]. *)
Definition wr_n (a : bytes) (p : Z) (src : bytes) : outcome bytes :=
  if blen src =? 0 then Def a
  else if (p <? 0) || (blen a <? p + blen src) then Undef UB_write
  else Def (take (Z.to_nat p) a ++ src ++ drop (Z.to_nat (p + blen src)) a).

Lemma rd_inside b p : 0 <= p < blen b -> exists x, rd b p = Def x /\ b !! Z.to_nat p = Some x.
Proof.
  unfold rd, blen. intros H. destruct (Z.ltb_spec p 0); [lia|].
  destruct (lookup_lt_is_Some_2 b (Z.to_nat p)) as [x Hx]; [lia|].
  exists x. by rewrite Hx.
Qed.

Lemma rd_at b p x : 0 <= p -> b !! Z.to_nat p = Some x -> rd b p = Def x.
Proof. unfold rd. intros Hp ->. by destruct (Z.ltb_spec p 0); [lia|]. Qed.

Lemma rd_Def b p x : rd b p = Def x -> 0 <= p < blen b /\ b !! Z.to_nat p = Some x.
Proof.
  unfold rd, blen. destruct (Z.ltb_spec p 0); [done|].
  destruct (b !! Z.to_nat p) eqn:E; [|done]. intros [= ->].
  apply lookup_lt_Some in E as ?. split; [lia|done].
Qed.

Lemma rd_n_inside b p n : 0 <= p -> 0 <= n -> p + n <= blen b ->
  exists l, rd_n b p n = Def l /\ blen l = n.
Proof.
  unfold rd_n, blen. intros. destruct (Z.leb_spec n 0); [exists []; simpl; split; [done|lia]|].
  destruct (Z.ltb_spec p 0); [lia|]. destruct (Z.ltb_spec (Z.of_nat (length b)) (p + n)); [lia|].
  eexists. split; [done|]. rewrite length_take, length_drop. lia.
Qed.

Lemma wr_n_inside a p src : 0 <= p -> p + blen src <= blen a ->
  exists a', wr_n a p src = Def a' /\ blen a' = blen a.
Proof.
  unfold wr_n, blen. intros. destruct (Z.eqb_spec (Z.of_nat (length src)) 0); [by eexists|].
  destruct (Z.ltb_spec p 0); [lia|].
  destruct (Z.ltb_spec (Z.of_nat (length a)) (p + Z.of_nat (length src))); [lia|].
  eexists. split; [done|]. rewrite !length_app, length_take, length_drop. lia.
Qed.

(** All octets of a buffer are octets. *)
Definition octets (b : bytes) : Prop := Forall is_u8 b.

Lemma rd_octet b p x : octets b -> rd b p = Def x -> is_u8 x.
Proof.
  intros Hb [_ H]%rd_Def. unfold octets in Hb. rewrite Forall_forall in Hb.
  apply Hb. by apply list_elem_of_lookup_2 in H.
Qed.

(** * Finite enumeration *)

Lemma forallb_seqZ (P : Z -> bool) m n :
  forallb P (seqZ m n) = true -> forall z, m <= z < m + n -> P z = true.
Proof.
  rewrite forallb_forall. intros H z Hz. apply H.
  rewrite <- list_elem_of_In. by apply elem_of_seqZ.
Qed.

(** Proves [forall z, m <= z < m + n -> P z] for a boolean [P] by evaluation. *)
Ltac enumerate_Z m n :=
  lazymatch goal with
  | |- forall z, _ -> @?P z = true => apply (forallb_seqZ P m n); vm_compute; reflexivity
  end.

(** Closes a closed decidable goal by evaluation. *)
Ltac ground :=
  solve [vm_compute; repeat match goal with |- _ /\ _ => split end;
         first [reflexivity | discriminate | (intros ?; discriminate)]].

(** * Octets and their bits *)

Lemma octet_testbit_high x k : is_u8 x -> 8 <= k -> Z.testbit x k = false.
Proof.
  intros Hx Hk. rewrite <- (Z.mod_small x (2 ^ 8)) by (unfold is_u8 in Hx; lia).
  by apply Z.mod_pow2_bits_high.
Qed.

Lemma octet_bits_eq x y : is_u8 x -> is_u8 y ->
  (forall k, 0 <= k < 8 -> Z.testbit x k = Z.testbit y k) -> x = y.
Proof.
  intros Hx Hy H. apply Z.bits_inj'. intros k Hk.
  destruct (Z.lt_ge_cases k 8); [by apply H|by rewrite !octet_testbit_high].
Qed.

(** The leading [r] bits of two octets agree iff the shifted octets do. *)
Lemma octet_shiftr_eq x y r : is_u8 x -> is_u8 y -> 0 <= r <= 8 ->
  Z.shiftr x (8 - r) = Z.shiftr y (8 - r) <->
  (forall j, 0 <= j < r -> Z.testbit x (7 - j) = Z.testbit y (7 - j)).
Proof.
  intros Hx Hy Hr. split.
  - intros E j Hj. replace (7 - j) with ((r - 1 - j) + (8 - r)) by lia.
    rewrite <- !Z.shiftr_spec by lia. by rewrite E.
  - intros H. apply Z.bits_inj'. intros k Hk. rewrite !Z.shiftr_spec by lia.
    destruct (Z.lt_ge_cases (k + (8 - r)) 8); [|by rewrite !octet_testbit_high by (done || lia)].
    replace (k + (8 - r)) with (7 - (r - 1 - k)) by lia. apply H. lia.
Qed.

(** Bits of [x & m] for a mask of ones. *)
Lemma testbit_ones r k : 0 <= r -> 0 <= k -> Z.testbit (2 ^ r - 1) k = (k <? r).
Proof.
  intros. replace (2 ^ r - 1) with (Z.ones r) by (rewrite Z.ones_equiv; lia).
  destruct (Z.ltb_spec k r); [apply Z.ones_spec_low; lia|apply Z.ones_spec_high; lia].
Qed.

(** A single bit. *)
Lemma land_pow2 w n : 0 <= n -> negb (Z.land w (2 ^ n) =? 0) = Z.testbit w n.
Proof.
  intros Hn. destruct (Z.testbit w n) eqn:E.
  - apply negb_true_iff, Z.eqb_neq. intros H0. assert (Z.testbit (Z.land w (2 ^ n)) n = false) as H1 by (by rewrite H0, Z.bits_0).
    rewrite Z.land_spec, E, Z.pow2_bits_true in H1; done.
  - apply negb_false_iff, Z.eqb_eq. apply Z.bits_inj'. intros k Hk. rewrite Z.land_spec, Z.bits_0.
    destruct (Z.eq_dec n k) as [<-|]; [by rewrite E|]. by rewrite Z.pow2_bits_false, andb_false_r.
Qed.

Lemma octet_of_bits z : (forall k, 8 <= k -> Z.testbit z k = false) -> is_u8 z.
Proof.
  intros H. assert (z = z mod 2 ^ 8) as ->; [|apply Z.mod_pos_bound; lia].
  apply Z.bits_inj'. intros k Hk. destruct (Z.lt_ge_cases k 8).
  - by rewrite Z.mod_pow2_bits_low.
  - rewrite Z.mod_pow2_bits_high by lia. by apply H.
Qed.

Lemma octet_land x y : is_u8 x -> is_u8 (Z.land x y).
Proof. intros. apply octet_of_bits. intros. by rewrite Z.land_spec, octet_testbit_high. Qed.

Lemma octet_lor x y : is_u8 x -> is_u8 y -> is_u8 (Z.lor x y).
Proof. intros. apply octet_of_bits. intros. by rewrite Z.lor_spec, !octet_testbit_high. Qed.

(** Two octets in network byte order. *)
Lemma octet_word hi lo : is_u8 hi -> is_u8 lo -> Z.lor (u16 (Z.shiftl hi 8)) lo = 256 * hi + lo.
Proof.
  intros Hhi Hlo. rewrite u16_small by (rewrite shiftl_mul by lia; unfold is_u8 in *; lia).
  rewrite <- Z.add_nocarry_lor; [rewrite shiftl_mul by lia; lia|].
  apply Z.bits_inj'. intros k Hk. rewrite Z.land_spec, Z.bits_0, Z.shiftl_spec by done.
  destruct (Z.lt_ge_cases k 8).
  - by rewrite Z.testbit_neg_r by lia.
  - by rewrite (octet_testbit_high lo), andb_false_r.
Qed.

#[export] Hint Resolve octet_land octet_lor : cint.

(** * Lists *)

Lemma filter_all {A} (P : A -> Prop) `{!forall x, Decision (P x)} (l : list A) : Forall P l -> filter P l = l.
Proof. induction 1 as [|x l Hx _ IH]; [done|]. by rewrite filter_cons_True, IH. Qed.

Lemma filter_none {A} {P : A -> Prop} `{!forall x, Decision (P x)} (l : list A) : Forall (fun x => ~ P x) l -> filter P l = [].
Proof. induction 1 as [|x l Hx _ IH]; [done|]. by rewrite filter_cons_False. Qed.

Lemma StronglySorted_lookup_lt {A} (R : A -> A -> Prop) l i j a b : StronglySorted R l ->
  l !! i = Some a -> l !! j = Some b -> (i < j)%nat -> R a b.
Proof.
  intros Hs. revert i j. induction Hs as [|x l Hs IH Hx]; intros i j Hi Hj Hlt; [done|].
  destruct j as [|j]; [lia|]. destruct i as [|i]; simpl in *.
  - injection Hi as ->. by eapply Forall_lookup_1 in Hj.
  - eapply (IH i j); [done|done|lia].
Qed.

Lemma filter_ne_id {A} `{EqDecision A} (a : A) (l : list A) : a ∉ l -> filter (fun x => x <> a) l = l.
Proof. intros H. apply filter_all. rewrite Forall_forall. by intros x Hx ->. Qed.

Lemma filter_ext_in {A} (P Q : A -> Prop) `{!forall x, Decision (P x), !forall x, Decision (Q x)} (l : list A) :
  (forall x, x ∈ l -> P x <-> Q x) -> filter P l = filter Q l.
Proof.
  induction l as [|x l IH]; intros HPQ; [done|]. rewrite !filter_cons.
  rewrite IH by (intros; apply HPQ; by right). specialize (HPQ x ltac:(by left)).
  destruct (decide (P x)), (decide (Q x)); tauto.
Qed.
