(* ===== verification/AvlSpec.v ===== *)
(** What the rest of the code relies on from an [avl_tree] (src/libcommon/avl.c):
    its linked list of nodes in key order, and what insertion, lookup and
    removal do to that list. The components that keep a tree use this list in
    place of the tree; AvlApi, AvlInsert, AvlDelete and AvlLookup prove that the
    code of avl.c implements it. *)

From Stdlib Require Import ZArith Lia Sorted.
From stdpp Require Import base list numbers option sorting.
From S2P Require Import Prelude.

Local Open Scope Z_scope.

(** The contract of a comparator handed to [avl_init]. *)
Class Comparator {K : Type} (cmp : K -> K -> Z) : Prop := {
  cmp_refl x : cmp x x = 0;
  cmp_flip x y : cmp x y < 0 <-> 0 < cmp y x;
  cmp_trans x y z : cmp x y <= 0 -> cmp y z <= 0 -> cmp x z <= 0;
}.

Section comparator.
Context {K : Type} (cmp : K -> K -> Z) `{!Comparator cmp}.

Lemma cmp_eq_sym x y : cmp x y = 0 -> cmp y x = 0.
Proof.
  intros. destruct (Z.lt_trichotomy (cmp y x) 0) as [H1|[H1|H1]]; [|done|].
  - apply cmp_flip in H1. lia.
  - apply cmp_flip in H1. lia.
Qed.

Lemma cmp_le_total x y : cmp x y <= 0 \/ cmp y x <= 0.
Proof.
  destruct (Z.le_gt_cases (cmp x y) 0) as [|H]; [by left|right].
  apply cmp_flip in H. lia.
Qed.

Lemma cmp_lt_trans_l x y z : cmp x y < 0 -> cmp y z <= 0 -> cmp x z < 0.
Proof.
  intros H1 H2. assert (cmp x z <= 0) by (eapply cmp_trans; [|exact H2]; lia).
  destruct (Z.eq_dec (cmp x z) 0) as [E|]; [|lia].
  apply cmp_eq_sym in E. assert (cmp y x <= 0) by (eapply cmp_trans; [exact H2|lia]).
  apply cmp_flip in H1. lia.
Qed.

Lemma cmp_lt_trans_r x y z : cmp x y <= 0 -> cmp y z < 0 -> cmp x z < 0.
Proof.
  intros H1 H2. assert (cmp x z <= 0) by (eapply cmp_trans; [exact H1|lia]).
  destruct (Z.eq_dec (cmp x z) 0) as [E|]; [|lia].
  apply cmp_eq_sym in E. assert (cmp z y <= 0) by (eapply cmp_trans; [|exact H1]; lia).
  apply cmp_flip in H2. lia.
Qed.
End comparator.

(** * The node list of a tree *)
Section tree_list.
Context {A K : Type} (key : A -> K) (cmp : K -> K -> Z).

Definition key_le (x y : A) : Prop := cmp (key x) (key y) <= 0.
Definition key_lt (x y : A) : Prop := cmp (key x) (key y) < 0.

(** [avl_insert] with [allow_dups]: the tree search ends at the first node
    of a run of equal keys, and a duplicate is linked directly behind that
    node, in front of the duplicates inserted before it. *)
Fixpoint tree_insert_dup (x : A) (l : list A) : list A :=
  match l with
  | [] => [x]
  | y :: l' =>
      let d := cmp (key x) (key y) in
      if d <? 0 then x :: y :: l'
      else if d =? 0 then y :: x :: l'
      else y :: tree_insert_dup x l'
  end.

(** [avl_insert] without [allow_dups]: [None] is the result -1. *)
Fixpoint tree_insert (x : A) (l : list A) : option (list A) :=
  match l with
  | [] => Some [x]
  | y :: l' =>
      let d := cmp (key x) (key y) in
      if d <? 0 then Some (x :: y :: l')
      else if d =? 0 then None
      else cons y <$> tree_insert x l'
  end.

(** [avl_find]. *)
Fixpoint tree_find (k : K) (l : list A) : option A :=
  match l with
  | [] => None
  | y :: l' =>
      let d := cmp k (key y) in
      if d <? 0 then None else if d =? 0 then Some y else tree_find k l'
  end.

Definition tree_sorted : list A -> Prop := StronglySorted key_le.

Lemma tree_insert_dup_perm x l : tree_insert_dup x l ≡ₚ x :: l.
Proof.
  induction l as [|y l IH]; simpl; [done|].
  destruct (_ <? 0); [done|]. destruct (_ =? 0); [constructor|].
  rewrite IH. constructor.
Qed.

Lemma tree_insert_dup_length x l : length (tree_insert_dup x l) = S (length l).
Proof. by rewrite tree_insert_dup_perm. Qed.

Context `{!Comparator cmp}.

#[local] Instance key_le_trans : Transitive key_le.
Proof. intros x y z. apply cmp_trans. Qed.

Lemma tree_insert_dup_sorted x l : tree_sorted l -> tree_sorted (tree_insert_dup x l).
Proof.
  induction l as [|y l IH]; intros Hs; simpl; [repeat constructor|].
  inversion Hs as [|? ? Hl Hy]; subst.
  destruct (Z.ltb_spec (cmp (key x) (key y)) 0) as [H|H].
  { constructor; [done|]. constructor; [unfold key_le; lia|].
    eapply Forall_impl; [exact Hy|]. intros z Hz. eapply (key_le_trans x y z); [unfold key_le; lia|done]. }
  destruct (Z.eqb_spec (cmp (key x) (key y)) 0) as [H0|H0].
  { constructor.
    - constructor; [done|]. eapply Forall_impl; [exact Hy|].
      intros z Hz. apply (key_le_trans x y z); [unfold key_le; lia|done].
    - constructor; [|done]. unfold key_le. by rewrite (cmp_eq_sym cmp). }
  constructor; [by apply IH|]. rewrite Forall_forall in Hy |- *. intros z Hz.
  rewrite tree_insert_dup_perm, elem_of_cons in Hz. destruct Hz as [->|Hz]; [|by apply Hy].
  unfold key_le. assert (0 < cmp (key x) (key y)) as H1 by lia. apply cmp_flip in H1. lia.
Qed.

(** Insertion keeps the elements with other keys in their order. *)
Lemma tree_insert_dup_filter x l (P : A -> Prop) `{!forall a, Decision (P a)} :
  ~ P x -> filter P (tree_insert_dup x l) = filter P l.
Proof.
  intros Hx. induction l as [|y l IH]; simpl.
  { by rewrite filter_cons_False. }
  destruct (_ <? 0); [by rewrite (filter_cons_False P x)|].
  destruct (_ =? 0).
  { rewrite !filter_cons. destruct (decide (P y)); by rewrite (decide_False (P := P x)). }
  rewrite !filter_cons. destruct (decide (P y)); by rewrite IH.
Qed.
(** ** Trees without duplicates *)

Definition tree_strict : list A -> Prop := StronglySorted key_lt.

Lemma tree_find_sound k l y : tree_find k l = Some y -> y ∈ l /\ cmp k (key y) = 0.
Proof.
  induction l as [|z l IH]; simpl; [done|]. destruct (_ <? 0); [done|].
  destruct (Z.eqb_spec (cmp k (key z)) 0); [intros [= <-]; split; [by left|done]|].
  intros [? ?]%IH. split; [by right|done].
Qed.

Lemma tree_find_complete k l y : tree_strict l -> y ∈ l -> cmp k (key y) = 0 -> tree_find k l = Some y.
Proof.
  induction l as [|z l IH]; intros Hs Hy Hk; [by apply elem_of_nil in Hy|].
  inversion Hs as [|? ? Hl Hz]; subst. simpl. apply elem_of_cons in Hy as [->|Hy].
  { by rewrite Hk. }
  rewrite Forall_forall in Hz. specialize (Hz y Hy). unfold key_lt in Hz.
  assert (cmp (key z) k < 0) as Hzk.
  { eapply (cmp_lt_trans_l cmp); [exact Hz|]. rewrite (cmp_eq_sym cmp); [lia|done]. }
  apply cmp_flip in Hzk. destruct (Z.ltb_spec (cmp k (key z)) 0), (Z.eqb_spec (cmp k (key z)) 0); try lia.
  by apply IH.
Qed.

(** Lookup in a tree without duplicates depends on its nodes only. *)
Lemma tree_find_spec k l o : tree_strict l ->
  tree_find k l = o <->
  match o with Some y => y ∈ l /\ cmp k (key y) = 0 | None => forall y, y ∈ l -> cmp k (key y) <> 0 end.
Proof.
  intros Hs. split.
  - intros <-. destruct (tree_find k l) as [y|] eqn:E; [by apply tree_find_sound|].
    intros y Hy Hk. rewrite (tree_find_complete k l y) in E; done.
  - destruct o as [y|].
    + intros [? ?]. by apply tree_find_complete.
    + intros H. destruct (tree_find k l) as [y|] eqn:E; [|done].
      apply tree_find_sound in E as [Hy Hk]. by destruct (H y Hy).
Qed.

Lemma tree_insert_new x l : tree_find (key x) l = None -> exists l', tree_insert x l = Some l' /\ l' ≡ₚ x :: l.
Proof.
  induction l as [|y l IH]; simpl; [by eexists|]. destruct (_ <? 0); [by eexists|].
  destruct (_ =? 0); [done|]. intros (l' & -> & Hp)%IH. eexists. split; [done|].
  rewrite Hp. constructor.
Qed.

Lemma tree_insert_strict x l l' : tree_strict l -> tree_insert x l = Some l' -> tree_strict l'.
Proof.
  revert l'. induction l as [|y l IH]; intros l' Hs; simpl.
  { intros [= <-]. repeat constructor. }
  inversion Hs as [|? ? Hl Hy]; subst. destruct (Z.ltb_spec (cmp (key x) (key y)) 0) as [H|H].
  { intros [= <-]. constructor; [done|]. constructor; [done|]. eapply Forall_impl; [exact Hy|].
    intros z Hz. unfold key_lt in *. eapply (cmp_lt_trans_l cmp); [exact H|lia]. }
  destruct (Z.eqb_spec (cmp (key x) (key y)) 0); [done|].
  destruct (tree_insert x l) as [l1|] eqn:E; [|done]. intros [= <-]. constructor; [by apply IH|].
  assert (key_lt y x) as Hyx by (apply cmp_flip; lia).
  assert (forall z, z ∈ l1 -> z = x \/ z ∈ l) as Hin.
  { clear IH Hs Hl Hy. revert l1 E. induction l as [|w l IH]; simpl; intros l1.
    - intros [= <-] z Hz%list_elem_of_singleton. by left.
    - destruct (_ <? 0); [intros [= <-] z; rewrite !elem_of_cons; tauto|]. destruct (_ =? 0); [done|].
      destruct (tree_insert x l) as [l2|]; [|done]. intros [= <-] z. rewrite !elem_of_cons.
      intros [?|Hz]; [tauto|]. destruct (IH l2 eq_refl z Hz); tauto. }
  rewrite Forall_forall in Hy |- *. intros z [->|Hz]%Hin; [done|by apply Hy].
Qed.

Lemma tree_strict_filter l (P : A -> Prop) `{!forall a, Decision (P a)} : tree_strict l -> tree_strict (filter P l).
Proof.
  induction 1 as [|y l Hl IH Hy]; [constructor|]. rewrite filter_cons. destruct (decide (P y)); [|done].
  constructor; [done|]. rewrite Forall_forall in Hy |- *. intros z [_ Hz]%list_elem_of_filter. by apply Hy.
Qed.

Lemma tree_strict_map f l : (forall a, a ∈ l -> key (f a) = key a) -> tree_strict l -> tree_strict (map f l).
Proof.
  intros Hf Hs. induction Hs as [|y l Hl IH Hy]; simpl; [constructor|]. constructor.
  - apply IH. intros a Ha. apply Hf. by right.
  - rewrite Forall_map, Forall_forall. rewrite Forall_forall in Hy. intros z Hz. specialize (Hy z Hz).
    unfold key_lt in *. rewrite (Hf y), (Hf z); [done|by right|by left].
Qed.

(** A new largest key goes to the end. *)
Lemma tree_insert_last x l : Forall (fun y => key_lt y x) l -> tree_insert x l = Some (l ++ [x]).
Proof.
  induction 1 as [|y l Hy _ IH]; simpl; [done|]. unfold key_lt in Hy. apply cmp_flip in Hy.
  destruct (Z.ltb_spec (cmp (key x) (key y)) 0); [lia|]. destruct (Z.eqb_spec (cmp (key x) (key y)) 0); [lia|].
  by rewrite IH.
Qed.

Lemma tree_find_none k l : Forall (fun y => cmp k (key y) <> 0) l -> tree_find k l = None.
Proof.
  induction 1 as [|y l Hy _ IH]; simpl; [done|]. destruct (_ <? 0); [done|].
  by destruct (Z.eqb_spec (cmp k (key y)) 0).
Qed.

(** Keys are unique. *)
Lemma tree_strict_inj l x y : tree_strict l -> x ∈ l -> y ∈ l -> cmp (key x) (key y) = 0 -> x = y.
Proof.
  intros Hs Hx Hy Hk. apply (tree_find_complete (key x) l) in Hk; [|done..].
  rewrite (tree_find_complete (key x) l x) in Hk; [congruence|done|done|apply cmp_refl].
Qed.

Lemma tree_insert_elem x l l' z : tree_insert x l = Some l' -> z ∈ l' <-> z = x \/ z ∈ l.
Proof.
  revert l'. induction l as [|w l IH]; simpl; intros l'.
  - intros [= <-]. rewrite list_elem_of_singleton. rewrite elem_of_nil. tauto.
  - destruct (_ <? 0); [intros [= <-]; rewrite !elem_of_cons; tauto|]. destruct (_ =? 0); [done|].
    destruct (tree_insert x l) as [l2|]; [|done]. intros [= <-]. rewrite !elem_of_cons, (IH l2 eq_refl). tauto.
Qed.

(** Insertion of a new key, with or without duplicates allowed. *)
Lemma tree_insert_dup_new x l : tree_find (key x) l = None -> tree_insert x l = Some (tree_insert_dup x l).
Proof.
  induction l as [|y l IH]; simpl; [done|]. destruct (_ <? 0); [done|].
  destruct (_ =? 0); [done|]. by intros ->%IH.
Qed.

(** A second element with the same key. *)
Lemma tree_insert_known x y l : tree_strict l -> y ∈ l -> cmp (key x) (key y) = 0 -> tree_insert x l = None.
Proof.
  induction l as [|z l IH]; intros Hs Hy Hk; [by apply elem_of_nil in Hy|].
  inversion Hs as [|? ? Hl Hz]; subst. simpl. apply elem_of_cons in Hy as [->|Hy].
  - rewrite Hk. by destruct (Z.ltb_spec 0 0); [lia|].
  - rewrite Forall_forall in Hz. specialize (Hz y Hy). unfold key_lt in Hz.
    assert (cmp (key z) (key x) < 0) as Hzx.
    { eapply (cmp_lt_trans_l cmp); [exact Hz|]. pose proof (cmp_eq_sym cmp _ _ Hk). lia. }
    apply cmp_flip in Hzx. destruct (Z.ltb_spec (cmp (key x) (key z)) 0); [lia|].
    destruct (Z.eqb_spec (cmp (key x) (key z)) 0); [lia|]. by rewrite IH.
Qed.
End tree_list.

(** A strict tree depends on the keys of its nodes only. *)
Lemma tree_strict_key_ext {A K} (key key' : A -> K) (cmp : K -> K -> Z) l :
  (forall a, a ∈ l -> key' a = key a) -> tree_strict key cmp l -> tree_strict key' cmp l.
Proof.
  intros Hk Hs. induction Hs as [|y l Hl IH Hy]; [constructor|]. constructor.
  - apply IH. intros a Ha. apply Hk. by right.
  - rewrite Forall_forall in Hy |- *. intros z Hz. specialize (Hy z Hz). unfold key_lt in *.
    rewrite (Hk y) by left. rewrite (Hk z) by (by right). done.
Qed.

Lemma tree_strict_nodup {A K} (key : A -> K) (cmp : K -> K -> Z) `{!Comparator cmp} l : tree_strict key cmp l -> NoDup l.
Proof.
  induction 1 as [|y l Hl IH Hy]; [constructor|]. constructor; [|done]. intros Hin.
  rewrite Forall_forall in Hy. specialize (Hy y Hin). unfold key_lt in Hy. rewrite cmp_refl in Hy. lia.
Qed.

#[export] Hint Resolve tree_insert_dup_sorted : cint.
