(* ===== verification/StateMonad.v ===== *)
(** Code that works on a global state: computations with undefined behaviour
    that pass a state along, the loops of the lists over it, and how to reason
    about both. *)

From Stdlib Require Import ZArith Lia Sorted.
From stdpp Require Import base list numbers option gmap sets.
From S2P Require Import Prelude AvlSpec.

(** * Computations *)

Definition state_M (St A : Type) : Type := St -> outcome (A * St).

Section monad.
Context {St : Type}.

Definition ret {A} (a : A) : state_M St A := fun s => Def (a, s).
Definition bind {A B} (m : state_M St A) (f : A -> state_M St B) : state_M St B := fun s =>
  match m s with Def (a, s') => f a s' | Undef u => Undef u end.
Definition undef {A} (u : ub) : state_M St A := fun _ => Undef u.
Definition get : state_M St St := fun s => Def (s, s).
Definition modify (f : St -> St) : state_M St unit := fun s => Def (tt, f s).

(** [*p] for a pointer into one of the memories of the state: reading freed
    memory or an address of no object is undefined. *)
Definition load {V} (mem : St -> gmap positive V) (p : positive) : state_M St V := fun s =>
  match mem s !! p with Some v => Def (v, s) | None => Undef UB_read end.
End monad.

Declare Scope state_scope.
Delimit Scope state_scope with state.
Notation "x <~ m ;; f" := (bind m (fun x => f)) (at level 100, m at next level, right associativity) : state_scope.
Notation "m ;;; f" := (bind m (fun _ => f)) (at level 100, right associativity) : state_scope.
Local Open Scope state_scope.

(** * Objects and their trees *)

Notation ptr := positive.

(** The events of a memory class. *)
Inductive object_event := OONF_OBJECT_ADDED | OONF_OBJECT_REMOVED | OONF_OBJECT_CHANGED.

(** [avl_insert] into a tree without duplicates, whose result is ignored: a known
    key changes nothing. *)
Definition inserted {K} (key : ptr -> K) (cmp : K -> K -> Z) (x : ptr) (l : list ptr) : list ptr :=
  default l (tree_insert key cmp x l).

(** [avl_remove] and [list_remove]: a node that is in no tree has list pointers
    that are NULL. *)
Definition removed (x : ptr) (l : list ptr) : outcome (list ptr) :=
  if decide (x ∈ l) then Def (filter (fun y => y <> x) l) else Undef UB_null.

(** * Loops over a list that is part of the state *)

(** The element behind [p] in the list. *)
Fixpoint next_in (p : positive) (l : list positive) : outcome (option positive) :=
  match l with
  | [] => Undef UB_read
  | x :: l => if decide (x = p) then Def (head l) else next_in p l
  end.

Section loops.
Context {St : Type}.

Definition lift {A} (o : outcome A) : state_M St A := fun s => match o with Def a => Def (a, s) | Undef u => Undef u end.

(** [avl_for_each_element_safe]: the next element is known before the body runs.
    [fuel] is the length of the list when the loop starts. *)
Fixpoint safe_loop (fuel : nat) (list_of : state_M St (list positive)) (body : positive -> state_M St unit) (element : option positive) : state_M St unit :=
  match element with
  | None => ret tt
  | Some p =>
      match fuel with
      | O => undef Out_of_fuel
      | S fuel =>
          l <~ list_of ;;
          nxt <~ lift (next_in p l) ;;
          body p ;;;
          safe_loop fuel list_of body nxt
      end
  end.

Definition for_each_safe (list_of : state_M St (list positive)) (body : positive -> state_M St unit) : state_M St unit :=
  l <~ list_of ;; safe_loop (length l) list_of body (head l).

(** [avl_for_each_element]: the next element is looked up after the body. *)
Fixpoint plain_loop (fuel : nat) (list_of : state_M St (list positive)) (body : positive -> state_M St unit) (element : option positive) : state_M St unit :=
  match element with
  | None => ret tt
  | Some p =>
      match fuel with
      | O => undef Out_of_fuel
      | S fuel =>
          body p ;;;
          l <~ list_of ;;
          nxt <~ lift (next_in p l) ;;
          plain_loop fuel list_of body nxt
      end
  end.

Definition for_each (list_of : state_M St (list positive)) (body : positive -> state_M St unit) : state_M St unit :=
  l <~ list_of ;; plain_loop (length l) list_of body (head l).
End loops.

(** * Weakest preconditions

    [wp m s Q]: run in [s], [m] has a result, and [Q] holds of it. *)

Definition wp {St A} (m : state_M St A) (s : St) (Q : A -> St -> Prop) : Prop :=
  match m s with Def (a, s') => Q a s' | Undef _ => False end.

Section wp.
Context {St : Type}.
Implicit Types s : St.

Lemma wp_seq {A B} (m : state_M St A) (f : A -> state_M St B) s Q :
  wp m s (fun a s' => wp (f a) s' Q) -> wp (bind m f) s Q.
Proof. unfold wp, bind. by destruct (m s) as [[a s']|]. Qed.

Lemma wp_assoc {A B C} (m : state_M St A) (f : A -> state_M St B) (g : B -> state_M St C) s Q :
  wp (bind (bind m f) g) s Q -> wp (bind m (fun x => bind (f x) g)) s Q.
Proof. unfold wp, bind. by destruct (m s) as [[a s']|]. Qed.

Lemma wp_return {A} (a : A) s (Q : A -> St -> Prop) : Q a s -> wp (ret a) s Q.
Proof. done. Qed.

Lemma wp_get s (Q : St -> St -> Prop) : Q s s -> wp get s Q.
Proof. done. Qed.

Lemma wp_modify f s (Q : unit -> St -> Prop) : Q tt (f s) -> wp (modify f) s Q.
Proof. done. Qed.

Lemma wp_read {V} (mem : St -> gmap positive V) p v s (Q : V -> St -> Prop) : mem s !! p = Some v -> Q v s -> wp (load mem p) s Q.
Proof. unfold wp, load. by intros ->. Qed.

Lemma wp_lift {A} (o : outcome A) a s (Q : A -> St -> Prop) : o = Def a -> Q a s -> wp (lift o) s Q.
Proof. by intros ->. Qed.

Lemma wp_weaken {A} (m : state_M St A) s (P Q : A -> St -> Prop) :
  wp m s P -> (forall a s', P a s' -> Q a s') -> wp m s Q.
Proof. unfold wp. destruct (m s) as [[a s']|]; eauto. Qed.

Lemma wp_run {A} (m : state_M St A) s Q : wp m s Q -> exists a s', m s = Def (a, s') /\ Q a s'.
Proof. unfold wp. destruct (m s) as [[a s']|]; [eauto|done]. Qed.

Lemma wp_eq {A} (m : state_M St A) s a s' (Q : A -> St -> Prop) : m s = Def (a, s') -> Q a s' -> wp m s Q.
Proof. unfold wp. by intros ->. Qed.

Lemma next_in_app p pre l : NoDup (pre ++ p :: l) -> next_in p (pre ++ p :: l) = Def (head l).
Proof.
  induction pre as [|x pre IH]; simpl; intros Hn; [by rewrite decide_True|].
  apply NoDup_cons in Hn as [Hx Hn]. rewrite decide_False; [by apply IH|].
  intros ->. apply Hx. rewrite elem_of_app. right. left.
Qed.

(** The loop whose body may remove the current element: [I rest] holds when the
    elements [rest] are still to come. *)
Lemma for_each_safe_wp (I : list positive -> St -> Prop) list_of body s Q l :
  list_of s = Def (l, s) -> I l s ->
  (forall p rest s1, I (p :: rest) s1 ->
    (exists pre, list_of s1 = Def (pre ++ p :: rest, s1) /\ NoDup (pre ++ p :: rest)) /\
    wp (body p) s1 (fun _ s2 => I rest s2)) ->
  (forall s1, I [] s1 -> Q tt s1) -> wp (for_each_safe list_of body) s Q.
Proof.
  intros Hl HI Hbody HQ. unfold for_each_safe. apply wp_seq. eapply wp_eq; [exact Hl|]. clear Hl.
  revert s HI. induction l as [|p l IH]; intros s HI; simpl; [by apply wp_return, HQ|].
  destruct (Hbody p l s HI) as [(pre & Hget & Hn) Hb].
  apply wp_seq. eapply wp_eq; [exact Hget|]. apply wp_seq. eapply wp_lift; [by apply next_in_app|].
  apply wp_seq. eapply wp_weaken; [exact Hb|]. intros [] s2 HI2. by apply IH.
Qed.

(** The loop whose body leaves its element in the list. *)
Lemma for_each_wp (I : list positive -> St -> Prop) list_of body s Q l :
  list_of s = Def (l, s) -> I l s ->
  (forall p rest s1, I (p :: rest) s1 ->
    wp (body p) s1 (fun _ s2 => I rest s2 /\ exists pre, list_of s2 = Def (pre ++ p :: rest, s2) /\ NoDup (pre ++ p :: rest))) ->
  (forall s1, I [] s1 -> Q tt s1) -> wp (for_each list_of body) s Q.
Proof.
  intros Hl HI Hbody HQ. unfold for_each. apply wp_seq. eapply wp_eq; [exact Hl|]. clear Hl.
  revert s HI. induction l as [|p l IH]; intros s HI; simpl; [by apply wp_return, HQ|].
  apply wp_seq. eapply wp_weaken; [by apply Hbody|]. intros [] s2 (HI2 & pre & Hget & Hn).
  apply wp_seq. eapply wp_eq; [exact Hget|]. apply wp_seq. eapply wp_lift; [by apply next_in_app|].
  by apply IH.
Qed.
End wp.

(** One primitive; [wp_steps] stops where a lemma is needed. *)
Ltac wp_step :=
  lazymatch goal with
  | |- wp (bind _ _) _ _ => apply wp_seq
  | |- wp (ret _) _ _ => apply wp_return
  | |- wp get _ _ => apply wp_get
  | |- wp (modify _) _ _ => apply wp_modify
  | |- wp (load _ _) _ _ => eapply wp_read; [first [eassumption | reflexivity]|]
  end.
Ltac wp_steps := repeat wp_step.

(** * Insertion into trees and removal *)
Section inserted.
Context {K : Type} (key : ptr -> K) (cmp : K -> K -> Z) `{!Comparator cmp}.

Lemma inserted_spec x l : tree_strict key cmp l -> (forall y, y ∈ l -> cmp (key x) (key y) <> 0%Z) ->
  tree_strict key cmp (inserted key cmp x l) /\ forall z, z ∈ inserted key cmp x l <-> z = x \/ z ∈ l.
Proof.
  intros Hs Hx. assert (tree_find key cmp (key x) l = None) as Hf.
  { apply (tree_find_spec key cmp (key x) l None); done. }
  destruct (tree_insert_new key cmp x l Hf) as (l' & E & _). unfold inserted. rewrite E. simpl. split.
  - by eapply tree_insert_strict.
  - intros z. by apply (tree_insert_elem key cmp x l l').
Qed.

Lemma inserted_ext key' x l : (forall y, y ∈ x :: l -> key' y = key y) -> inserted key' cmp x l = inserted key cmp x l.
Proof.
  intros Hk. unfold inserted. f_equal. revert Hk. induction l as [|y l IH]; intros Hk; simpl; [done|].
  rewrite (Hk x), (Hk y) by (rewrite !elem_of_cons; tauto). rewrite IH; [done|].
  intros z Hz. apply Hk. rewrite !elem_of_cons in *. tauto.
Qed.
End inserted.

Lemma removed_in (x : ptr) l : x ∈ l -> removed x l = Def (filter (fun y => y <> x) l).
Proof. intros. unfold removed. by rewrite decide_True. Qed.

Lemma elem_of_filter_ne (x y : ptr) (l : list ptr) : y ∈ filter (fun z => z <> x) l <-> y <> x /\ y ∈ l.
Proof. by rewrite list_elem_of_filter. Qed.
