(* ===== verification/Avl.v ===== *)
(** The balanced trees of src/libcommon/avl.c in memory: nodes with pointers to
    their parent, children and neighbors in the list of src/libcommon/list.h,
    and every operation as the sequence of loads and stores of the code. *)

From Stdlib Require Import ZArith Lia.
From stdpp Require Import base list numbers option gmap.
From S2P Require Import Prelude AvlSpec.

Local Open Scope Z_scope.

(** A node is named by its address. *)
Notation ptr := positive.

(** A pointer to a [struct list_entity] points to the head of the tree's list
    or to the [list] member of a node; NULL is [None]. *)
Inductive entity := Head | Entity (p : ptr).

#[export] Instance entity_eq_dec : EqDecision entity.
Proof. solve_decision. Defined.

Record list_entity := { next : option entity; prev : option entity }.

Record avl_node (K : Type) := {
  node_list : list_entity;
  parent : option ptr;
  left : option ptr;
  right : option ptr;
  node_key : K;
  balance : Z;
  follower : bool;
}.
Arguments node_list {K}. Arguments parent {K}. Arguments left {K}. Arguments right {K}.
Arguments node_key {K}. Arguments balance {K}. Arguments follower {K}.

(** The comparator is a parameter of the operations below. *)
Record avl_tree := {
  list_head : list_entity;
  root : option ptr;
  count : Z;
  allow_dups : bool;
}.

(** One tree and the memory its nodes live in. *)
Record avl_state (K : Type) := { tree : avl_tree; mem : gmap ptr (avl_node K) }.
Arguments tree {K}. Arguments mem {K}.

(** * Stateful computations *)

Definition avl_M (K A : Type) : Type := avl_state K -> outcome (A * avl_state K).

Definition ret {K A} (a : A) : avl_M K A := fun s => Def (a, s).
Definition bind {K A B} (m : avl_M K A) (f : A -> avl_M K B) : avl_M K B := fun s =>
  match m s with Def (a, s') => f a s' | Undef u => Undef u end.
Definition undef {K A} (u : ub) : avl_M K A := fun _ => Undef u.

Declare Scope avl_scope.
Delimit Scope avl_scope with avl.
Notation "x <~ m ;; f" := (bind m (fun x => f)) (at level 100, m at next level, right associativity) : avl_scope.
Notation "m ;;; f" := (bind m (fun _ => f)) (at level 100, right associativity) : avl_scope.
Local Open Scope avl_scope.

Section access.
Context {K : Type}.

(** [*p]: reading through NULL or through a pointer to no node is undefined. *)
Definition load (p : ptr) : avl_M K (avl_node K) := fun s =>
  match mem s !! p with Some n => Def (n, s) | None => Undef UB_read end.
Definition store (p : ptr) (f : avl_node K -> avl_node K) : avl_M K unit := fun s =>
  match mem s !! p with
  | Some n => Def (tt, {| tree := tree s; mem := <[p := f n]> (mem s) |})
  | None => Undef UB_write
  end.
Definition deref (o : option ptr) : avl_M K ptr :=
  match o with Some p => ret p | None => undef UB_null end.
Definition get_tree : avl_M K avl_tree := fun s => Def (tree s, s).
Definition put_tree (f : avl_tree -> avl_tree) : avl_M K unit := fun s =>
  Def (tt, {| tree := f (tree s); mem := mem s |}).

Definition with_list (l : list_entity) (n : avl_node K) : avl_node K :=
  {| node_list := l; parent := parent n; left := left n; right := right n;
     node_key := node_key n; balance := balance n; follower := follower n |}.
Definition with_parent (o : option ptr) (n : avl_node K) : avl_node K :=
  {| node_list := node_list n; parent := o; left := left n; right := right n;
     node_key := node_key n; balance := balance n; follower := follower n |}.
Definition with_left (o : option ptr) (n : avl_node K) : avl_node K :=
  {| node_list := node_list n; parent := parent n; left := o; right := right n;
     node_key := node_key n; balance := balance n; follower := follower n |}.
Definition with_right (o : option ptr) (n : avl_node K) : avl_node K :=
  {| node_list := node_list n; parent := parent n; left := left n; right := o;
     node_key := node_key n; balance := balance n; follower := follower n |}.
Definition with_balance (b : Z) (n : avl_node K) : avl_node K :=
  {| node_list := node_list n; parent := parent n; left := left n; right := right n;
     node_key := node_key n; balance := b; follower := follower n |}.
Definition with_follower (b : bool) (n : avl_node K) : avl_node K :=
  {| node_list := node_list n; parent := parent n; left := left n; right := right n;
     node_key := node_key n; balance := balance n; follower := b |}.

Definition with_head (l : list_entity) (t : avl_tree) : avl_tree :=
  {| list_head := l; root := root t; count := count t; allow_dups := allow_dups t |}.
Definition with_root (o : option ptr) (t : avl_tree) : avl_tree :=
  {| list_head := list_head t; root := o; count := count t; allow_dups := allow_dups t |}.
Definition with_count (c : Z) (t : avl_tree) : avl_tree :=
  {| list_head := list_head t; root := root t; count := c; allow_dups := allow_dups t |}.

Definition set_parent (p : ptr) (o : option ptr) := store p (with_parent o).
Definition set_left (p : ptr) (o : option ptr) := store p (with_left o).
Definition set_right (p : ptr) (o : option ptr) := store p (with_right o).
(** [balance] is a [signed char]. *)
Definition set_balance (p : ptr) (b : Z) := store p (with_balance (swrap 8 b)).
Definition set_follower (p : ptr) (b : bool) := store p (with_follower b).
Definition set_root (o : option ptr) := put_tree (with_root o).
Definition set_count (c : Z) := put_tree (with_count (u32 c)).

(** * Lists *)

Definition load_entity (e : option entity) : avl_M K list_entity :=
  match e with
  | Some Head => t <~ get_tree ;; ret (list_head t)
  | Some (Entity p) => n <~ load p ;; ret (node_list n)
  | None => undef UB_null
  end.
Definition store_entity (e : option entity) (f : list_entity -> list_entity) : avl_M K unit :=
  match e with
  | Some Head => put_tree (fun t => with_head (f (list_head t)) t)
  | Some (Entity p) => store p (fun n => with_list (f (node_list n)) n)
  | None => undef UB_null
  end.
Definition set_next (e : option entity) (o : option entity) :=
  store_entity e (fun l => {| next := o; prev := prev l |}).
Definition set_prev (e : option entity) (o : option entity) :=
  store_entity e (fun l => {| next := next l; prev := o |}).

(** The node an entity of the list belongs to; the list head is no node. *)
Definition container_of (e : option entity) : avl_M K ptr :=
  match e with Some (Entity p) => ret p | _ => undef UB_read end.

Definition list_init_head : avl_M K unit :=
  put_tree (with_head {| next := Some Head; prev := Some Head |}).

Definition list_init_node (p : ptr) : avl_M K unit :=
  store p (with_list {| next := None; prev := None |}).

Definition __list_add (prv nxt new : option entity) : avl_M K unit :=
  set_next new nxt ;;; set_prev new prv ;;; set_prev nxt new ;;; set_next prv new.

Definition list_add_head (new : ptr) : avl_M K unit :=
  h <~ load_entity (Some Head) ;; __list_add (Some Head) (next h) (Some (Entity new)).

Definition list_add_before (before new : ptr) : avl_M K unit :=
  b <~ load before ;; __list_add (prev (node_list b)) (Some (Entity before)) (Some (Entity new)).

Definition list_add_after (after new : ptr) : avl_M K unit :=
  a <~ load after ;; __list_add (Some (Entity after)) (next (node_list a)) (Some (Entity new)).

Definition __list_remove (prv nxt : option entity) : avl_M K unit :=
  set_next prv nxt ;;; set_prev nxt prv.

Definition list_remove (p : ptr) : avl_M K unit :=
  n <~ load p ;; __list_remove (prev (node_list n)) (next (node_list n)) ;;; list_init_node p.

Definition list_is_first (p : ptr) : avl_M K bool :=
  t <~ get_tree ;; ret (bool_decide (next (list_head t) = Some (Entity p))).

Definition list_is_last (p : ptr) : avl_M K bool :=
  t <~ get_tree ;; ret (bool_decide (prev (list_head t) = Some (Entity p))).

Definition list_is_node_added (l : list_entity) : bool :=
  bool_decide (next l <> None) && bool_decide (prev l <> None).

(** * Inlines of avl.h *)

Definition avl_is_first (t : avl_tree) (p : ptr) : bool := bool_decide (next (list_head t) = Some (Entity p)).
Definition avl_is_last (t : avl_tree) (p : ptr) : bool := bool_decide (prev (list_head t) = Some (Entity p)).
Definition avl_is_empty (t : avl_tree) : bool := count t =? 0.
Definition avl_is_node_added (n : avl_node K) : bool := list_is_node_added (node_list n).
End access.

(** * Rotations and rebalancing *)
Section balance.
Context {K : Type}.
Notation M := (avl_M K).

(** The pointer to [old], in its parent [above_] or in the tree, becomes [new]:
    the code has this block in the rotations and in the removal of a node. *)
Definition relink (above_ : option ptr) (old : ptr) (new : option ptr) : M unit :=
  match above_ with
  | None => set_root new
  | Some q => p <~ load q ;; if bool_decide (left p = Some old) then set_left q new else set_right q new
  end.

(** A child, if there is one, gets a new parent. *)
Definition reparent (child : option ptr) (parent_ : ptr) : M unit :=
  match child with Some c => set_parent c (Some parent_) | None => ret tt end.

Definition _avl_rotate_right (node : ptr) : M unit :=
  n <~ load node ;;
  left_ <~ deref (left n) ;;
  let parent_ := parent n in
  set_parent left_ parent_ ;;;
  set_parent node (Some left_) ;;;
  relink parent_ node (Some left_) ;;;
  l <~ load left_ ;;
  set_left node (right l) ;;;
  set_right left_ (Some node) ;;;
  n <~ load node ;;
  reparent (left n) node ;;;
  n <~ load node ;;
  set_balance node (balance n + 1) ;;;
  l <~ load left_ ;;
  (if balance l <? 0 then
     n <~ load node ;; set_balance node (balance n - balance l)
   else ret tt) ;;;
  set_balance left_ (balance l + 1) ;;;
  n <~ load node ;;
  if 0 <? balance n then
    l <~ load left_ ;; set_balance left_ (balance l + balance n)
  else ret tt.

Definition _avl_rotate_left (node : ptr) : M unit :=
  n <~ load node ;;
  right_ <~ deref (right n) ;;
  let parent_ := parent n in
  set_parent right_ parent_ ;;;
  set_parent node (Some right_) ;;;
  relink parent_ node (Some right_) ;;;
  r <~ load right_ ;;
  set_right node (left r) ;;;
  set_left right_ (Some node) ;;;
  n <~ load node ;;
  reparent (right n) node ;;;
  n <~ load node ;;
  set_balance node (balance n - 1) ;;;
  r <~ load right_ ;;
  (if 0 <? balance r then
     n <~ load node ;; set_balance node (balance n - balance r)
   else ret tt) ;;;
  set_balance right_ (balance r - 1) ;;;
  n <~ load node ;;
  if balance n <? 0 then
    r <~ load right_ ;; set_balance right_ (balance r + balance n)
  else ret tt.

(** [node->parent->parent] after a rotation around [node]. *)
Definition grandparent (node : ptr) : M ptr :=
  n <~ load node ;; p <~ deref (parent n) ;; pn <~ load p ;; deref (parent pn).

(** The recursion goes up: the fuel bounds the depth of the node. *)
Fixpoint _post_insert (fuel : nat) (node : ptr) : M unit :=
  match fuel with
  | O => undef Out_of_fuel
  | S fuel =>
    n <~ load node ;;
    match parent n with
    | None => ret tt
    | Some parent_ =>
      p <~ load parent_ ;;
      if bool_decide (left p = Some node) then
        set_balance parent_ (balance p - 1) ;;;
        p <~ load parent_ ;;
        if balance p =? 0 then ret tt
        else if balance p =? -1 then _post_insert fuel parent_
        else if balance n =? -1 then _avl_rotate_right parent_
        else _avl_rotate_left node ;;; g <~ grandparent node ;; _avl_rotate_right g
      else
        set_balance parent_ (balance p + 1) ;;;
        p <~ load parent_ ;;
        if balance p =? 0 then ret tt
        else if balance p =? 1 then _post_insert fuel parent_
        else if balance n =? 1 then _avl_rotate_left parent_
        else _avl_rotate_right node ;;; g <~ grandparent node ;; _avl_rotate_left g
    end
  end.

(** The last part of every case of [_avl_post_remove] and of the removal of a
    leaf: the side the node is on is two levels lower than the other one. [up]
    is the recursive call. *)
Definition _avl_left_too_low (up : ptr -> M unit) (parent_ : ptr) : M unit :=
  p <~ load parent_ ;;
  r <~ deref (right p) ;;
  rn <~ load r ;;
  if balance rn =? 0 then _avl_rotate_left parent_
  else if balance rn =? 1 then
    _avl_rotate_left parent_ ;;;
    p <~ load parent_ ;; g <~ deref (parent p) ;; up g
  else
    _avl_rotate_right r ;;;
    _avl_rotate_left parent_ ;;;
    p <~ load parent_ ;; g <~ deref (parent p) ;; up g.

Definition _avl_right_too_low (up : ptr -> M unit) (parent_ : ptr) : M unit :=
  p <~ load parent_ ;;
  l <~ deref (left p) ;;
  ln <~ load l ;;
  if balance ln =? 0 then _avl_rotate_right parent_
  else if balance ln =? -1 then
    _avl_rotate_right parent_ ;;;
    p <~ load parent_ ;; g <~ deref (parent p) ;; up g
  else
    _avl_rotate_left l ;;;
    _avl_rotate_right parent_ ;;;
    p <~ load parent_ ;; g <~ deref (parent p) ;; up g.

Fixpoint _avl_post_remove (fuel : nat) (node : ptr) : M unit :=
  match fuel with
  | O => undef Out_of_fuel
  | S fuel =>
    n <~ load node ;;
    match parent n with
    | None => ret tt
    | Some parent_ =>
      p <~ load parent_ ;;
      if bool_decide (left p = Some node) then
        set_balance parent_ (balance p + 1) ;;;
        p <~ load parent_ ;;
        if balance p =? 0 then _avl_post_remove fuel parent_
        else if balance p =? 1 then ret tt
        else _avl_left_too_low (_avl_post_remove fuel) parent_
      else
        set_balance parent_ (balance p - 1) ;;;
        p <~ load parent_ ;;
        if balance p =? 0 then _avl_post_remove fuel parent_
        else if balance p =? -1 then ret tt
        else _avl_right_too_low (_avl_post_remove fuel) parent_
    end
  end.

(** The loop goes down to the left. *)
Fixpoint _avl_local_min (fuel : nat) (node : ptr) : M ptr :=
  match fuel with
  | O => undef Out_of_fuel
  | S fuel =>
    n <~ load node ;;
    match left n with None => ret node | Some l => _avl_local_min fuel l end
  end.

(** A node with one child: the child takes its place. *)
Definition _avl_replace_by_child (fuel : nat) (node child : ptr) (parent_ : option ptr) : M unit :=
  match parent_ with
  | None => set_root (Some child) ;;; set_parent child None
  | Some parent_ =>
      set_parent child (Some parent_) ;;;
      relink (Some parent_) node (Some child) ;;;
      _avl_post_remove fuel child
  end.

(** A leaf. *)
Definition _avl_remove_leaf (fuel : nat) (node : ptr) (parent_ : option ptr) : M unit :=
  match parent_ with
  | None => set_root None
  | Some parent_ =>
      p <~ load parent_ ;;
      if bool_decide (left p = Some node) then
        set_left parent_ None ;;;
        set_balance parent_ (balance p + 1) ;;;
        p <~ load parent_ ;;
        if balance p =? 1 then ret tt
        else if balance p =? 0 then _avl_post_remove fuel parent_
        else _avl_left_too_low (_avl_post_remove fuel) parent_
      else
        set_right parent_ None ;;;
        set_balance parent_ (balance p - 1) ;;;
        p <~ load parent_ ;;
        if balance p =? -1 then ret tt
        else if balance p =? 0 then _avl_post_remove fuel parent_
        else _avl_right_too_low (_avl_post_remove fuel) parent_
  end.

(** [fuel] bounds the walks in the tree, [depth] the recursion of the worker:
    the smallest node of a right subtree has no left child. *)
Fixpoint _avl_remove_worker (depth fuel : nat) (node : ptr) : M unit :=
  match depth with
  | O => undef Out_of_fuel
  | S depth =>
    n <~ load node ;;
    match left n, right n with
    | None, None => _avl_remove_leaf fuel node (parent n)
    | None, Some r => _avl_replace_by_child fuel node r (parent n)
    | Some l, None => _avl_replace_by_child fuel node l (parent n)
    | Some _, Some r =>
        min <~ _avl_local_min fuel r ;;
        _avl_remove_worker depth fuel min ;;;
        n <~ load node ;;
        let parent_ := parent n in
        set_balance min (balance n) ;;;
        set_parent min parent_ ;;;
        set_left min (left n) ;;;
        set_right min (right n) ;;;
        m <~ load min ;;
        reparent (left m) min ;;;
        reparent (right m) min ;;;
        relink parent_ node (Some min)
    end
  end.

Definition _avl_insert_before (pos_node node : ptr) : M unit :=
  list_add_before pos_node node ;;; t <~ get_tree ;; set_count (count t + 1).

Definition _avl_insert_after (pos_node node : ptr) : M unit :=
  list_add_after pos_node node ;;; t <~ get_tree ;; set_count (count t + 1).

Definition _avl_remove (node : ptr) : M unit :=
  list_remove node ;;; t <~ get_tree ;; set_count (count t - 1).

(** [follower] nodes behind [last]. *)
Fixpoint _avl_find_last (fuel : nat) (last : ptr) : M ptr :=
  match fuel with
  | O => undef Out_of_fuel
  | S fuel =>
    b <~ list_is_last last ;;
    if (b : bool) then ret last
    else
      l <~ load last ;;
      next_ <~ container_of (next (node_list l)) ;;
      n <~ load next_ ;;
      if negb (follower n) then ret last else _avl_find_last fuel next_
  end.
End balance.

(** * The operations *)
Section operations.
Context {K : Type} (comp : K -> K -> Z).
Notation M := (avl_M K).

(** No walk in the tree or along its list visits more nodes than there are. *)
Definition with_fuel {A} (f : nat -> M A) : M A := fun s => f (S (size (mem s))) s.

(** [avl_init] and [AVL_STATIC_INIT]. *)
Definition avl_init (allow_dups_ : bool) : avl_tree := {|
  list_head := {| next := Some Head; prev := Some Head |};
  root := None; count := 0; allow_dups := allow_dups_;
|}.

(** The result and the content of [*cmp_result]. *)
Fixpoint _avl_find_rec (fuel : nat) (node : ptr) (key : K) : M (ptr * Z) :=
  match fuel with
  | O => undef Out_of_fuel
  | S fuel =>
    n <~ load node ;;
    let diff := comp key (node_key n) in
    if diff <? 0 then
      match left n with Some l => _avl_find_rec fuel l key | None => ret (node, diff) end
    else if 0 <? diff then
      match right n with Some r => _avl_find_rec fuel r key | None => ret (node, diff) end
    else ret (node, diff)
  end.

Definition avl_find (key : K) : M (option ptr) := with_fuel (fun fuel =>
  t <~ get_tree ;;
  match root t with
  | None => ret None
  | Some r =>
      res <~ _avl_find_rec fuel r key ;;
      ret (if snd res =? 0 then Some (fst res) else None)
  end).

(** The first loop of [avl_find_lessequal]; [None] is its [return NULL]. *)
Fixpoint find_le_left (fuel : nat) (key : K) (node : ptr) (diff : Z) : M (option (ptr * Z)) :=
  match fuel with
  | O => undef Out_of_fuel
  | S fuel =>
    if diff <? 0 then
      b <~ list_is_first node ;;
      if (b : bool) then ret None
      else
        l <~ load node ;;
        node <~ container_of (prev (node_list l)) ;;
        n <~ load node ;;
        find_le_left fuel key node (comp key (node_key n))
    else ret (Some (node, diff))
  end.

Fixpoint find_le_right (fuel : nat) (key : K) (node next_ : ptr) (diff : Z) : M ptr :=
  match fuel with
  | O => undef Out_of_fuel
  | S fuel =>
    if 0 <=? diff then
      let node := next_ in
      b <~ list_is_last node ;;
      if (b : bool) then ret node
      else
        l <~ load node ;;
        next_ <~ container_of (next (node_list l)) ;;
        n <~ load next_ ;;
        find_le_right fuel key node next_ (comp key (node_key n))
    else ret node
  end.

Definition avl_find_lessequal (key : K) : M (option ptr) := with_fuel (fun fuel =>
  t <~ get_tree ;;
  match root t with
  | None => ret None
  | Some r =>
      res <~ _avl_find_rec fuel r key ;;
      res <~ find_le_left fuel key (fst res) (snd res) ;;
      match res with
      | None => ret None
      | Some (node, diff) => node <~ find_le_right (S fuel) key node node diff ;; ret (Some node)
      end
  end).

Fixpoint find_ge_right (fuel : nat) (key : K) (node : ptr) (diff : Z) : M (option (ptr * Z)) :=
  match fuel with
  | O => undef Out_of_fuel
  | S fuel =>
    if 0 <? diff then
      b <~ list_is_last node ;;
      if (b : bool) then ret None
      else
        l <~ load node ;;
        node <~ container_of (next (node_list l)) ;;
        n <~ load node ;;
        find_ge_right fuel key node (comp key (node_key n))
    else ret (Some (node, diff))
  end.

Fixpoint find_ge_left (fuel : nat) (key : K) (node next_ : ptr) (diff : Z) : M ptr :=
  match fuel with
  | O => undef Out_of_fuel
  | S fuel =>
    if diff <=? 0 then
      let node := next_ in
      b <~ list_is_first node ;;
      if (b : bool) then ret node
      else
        l <~ load node ;;
        next_ <~ container_of (prev (node_list l)) ;;
        n <~ load next_ ;;
        find_ge_left fuel key node next_ (comp key (node_key n))
    else ret node
  end.

Definition avl_find_greaterequal (key : K) : M (option ptr) := with_fuel (fun fuel =>
  t <~ get_tree ;;
  match root t with
  | None => ret None
  | Some r =>
      res <~ _avl_find_rec fuel r key ;;
      res <~ find_ge_right fuel key (fst res) (snd res) ;;
      match res with
      | None => ret None
      | Some (node, diff) => node <~ find_ge_left (S fuel) key node node diff ;; ret (Some node)
      end
  end).

Definition avl_insert (new : ptr) : M Z := with_fuel (fun fuel =>
  set_parent new None ;;;
  set_left new None ;;;
  set_right new None ;;;
  set_balance new 0 ;;;
  set_follower new false ;;;
  t <~ get_tree ;;
  match root t with
  | None => list_add_head new ;;; set_root (Some new) ;;; set_count 1 ;;; ret 0
  | Some r =>
      nn <~ load new ;;
      res <~ _avl_find_rec fuel r (node_key nn) ;;
      let node := fst res in
      nd <~ load node ;;
      let diff := comp (node_key nn) (node_key nd) in
      if diff =? 0 then
        if negb (allow_dups t) then ret (-1)
        else set_follower new true ;;; _avl_insert_after node new ;;; ret 0
      else
        set_parent new (Some node) ;;;
        if balance nd =? 1 then
          _avl_insert_before node new ;;; set_balance node 0 ;;; set_left node (Some new) ;;; ret 0
        else if balance nd =? -1 then
          last <~ _avl_find_last fuel node ;;
          _avl_insert_after last new ;;; set_balance node 0 ;;; set_right node (Some new) ;;; ret 0
        else if diff <? 0 then
          _avl_insert_before node new ;;;
          set_balance node (-1) ;;; set_left node (Some new) ;;; _post_insert fuel node ;;; ret 0
        else
          last <~ _avl_find_last fuel node ;;
          _avl_insert_after last new ;;;
          set_balance node 1 ;;; set_right node (Some new) ;;; _post_insert fuel node ;;; ret 0
  end).

(** The follower behind [node], if there is one; the test of [avl_remove]. *)
Definition next_follower (node : ptr) : M (option ptr) :=
  t <~ get_tree ;;
  b <~ list_is_last node ;;
  if allow_dups t && negb (b : bool) then
    n <~ load node ;;
    next_ <~ container_of (next (node_list n)) ;;
    f <~ load next_ ;;
    ret (if follower f then Some next_ else None)
  else ret None.

Definition avl_remove (node : ptr) : M unit := with_fuel (fun fuel =>
  n <~ load node ;;
  (if negb (follower n) then
     nf <~ next_follower node ;;
     match nf with
     | Some next_ =>
         set_follower next_ false ;;;
         set_balance next_ (balance n) ;;;
         set_parent next_ (parent n) ;;;
         set_left next_ (left n) ;;;
         set_right next_ (right n) ;;;
         relink (parent n) node (Some next_) ;;;
         reparent (left n) next_ ;;;
         reparent (right n) next_
     | None => _avl_remove_worker 2 fuel node
     end
   else ret tt) ;;;
  _avl_remove node).

(** * Loops over a tree

    The loops compare [element->list.prev] with the last entity of the list, so
    they stop when [element] is the head; [body] stands for their body. *)

Fixpoint avl_for_each_element {A} (fuel : nat) (body : A -> ptr -> M A) (acc : A) (e : option entity) : M A :=
  match fuel with
  | O => undef Out_of_fuel
  | S fuel =>
    l <~ load_entity e ;;
    t <~ get_tree ;;
    if bool_decide (prev l = prev (list_head t)) then ret acc
    else
      p <~ container_of e ;;
      acc <~ body acc p ;;
      l <~ load_entity e ;;
      avl_for_each_element fuel body acc (next l)
  end.

Fixpoint avl_for_each_element_safe {A} (fuel : nat) (body : A -> ptr -> M A) (acc : A) (e nxt : option entity) : M A :=
  match fuel with
  | O => undef Out_of_fuel
  | S fuel =>
    l <~ load_entity e ;;
    t <~ get_tree ;;
    if bool_decide (prev l = prev (list_head t)) then ret acc
    else
      p <~ container_of e ;;
      acc <~ body acc p ;;
      l <~ load_entity nxt ;;
      avl_for_each_element_safe fuel body acc nxt (next l)
  end.

Fixpoint remove_all_loop {A} (fuel : nat) (body : A -> ptr -> M A) (acc : A) (e nxt : option entity) : M A :=
  match fuel with
  | O => undef Out_of_fuel
  | S fuel =>
    t <~ get_tree ;;
    if 0 <? count t then
      p <~ container_of e ;;
      acc <~ body acc p ;;
      l <~ load_entity nxt ;;
      t <~ get_tree ;;
      set_count (count t - 1) ;;;
      remove_all_loop fuel body acc nxt (next l)
    else ret acc
  end.

Definition avl_remove_all_elements {A} (fuel : nat) (body : A -> ptr -> M A) (acc : A) : M A :=
  t <~ get_tree ;;
  let e := next (list_head t) in
  l <~ load_entity e ;;
  list_init_head ;;;
  set_root None ;;;
  remove_all_loop fuel body acc e (next l).

(** The nodes with a key: [e] is NULL, the head or a node. *)
Fixpoint with_key_loop {A} (fuel : nat) (body : A -> ptr -> M A) (start : option ptr) (acc : A) (e : option entity) : M A :=
  match fuel with
  | O => undef Out_of_fuel
  | S fuel =>
    match e with
    | Some (Entity p) =>
        n <~ load p ;;
        if bool_decide (Some p = start) || follower n then
          acc <~ body acc p ;;
          n <~ load p ;;
          with_key_loop fuel body start acc (next (node_list n))
        else ret acc
    | _ => ret acc
    end
  end.

Definition avl_for_each_elements_with_key {A} (fuel : nat) (body : A -> ptr -> M A) (acc : A) (key : K) : M A :=
  start <~ avl_find key ;; with_key_loop fuel body start acc (Entity <$> start).
End operations.

(** An example: keys 1 .. 9 and a duplicate, then removals. *)
Definition example_node (k : Z) : avl_node Z := {|
  node_list := {| next := None; prev := None |}; parent := None; left := None; right := None;
  node_key := k; balance := 0; follower := false;
|}.

Definition example_state (keys : list Z) : avl_state Z := {|
  tree := avl_init true;
  mem := list_to_map (imap (fun i k => (Pos.of_succ_nat i, example_node k)) keys);
|}.

Definition example_run (ins del : list ptr) : avl_M Z (list ptr) :=
  foldr (fun p m => avl_insert Z.sub p ;;; m)
    (foldr (fun p m => avl_remove p ;;; m)
       (t <~ get_tree ;; avl_for_each_element 100 (fun acc p => ret (acc ++ [p])) [] (next (list_head t))) del) ins.

Example example_order :
  fst <$> match example_run [3; 1; 2; 4; 5; 6; 7; 8; 9; 10]%positive [4; 7]%positive (example_state [5; 3; 8; 3; 1; 9; 7; 2; 8; 8]) with
          | Def (l, s) => Some (l, s) | Undef _ => None end
  = Some [5; 8; 2; 1; 3; 10; 9; 6]%positive.
Proof. vm_compute. reflexivity. Qed.
