(* ===== verification/AvlTree.v ===== *)
(** The rotations and the rebalancing of src/libcommon/avl.c on the shape of a
    tree: what memory looks like when it holds a balanced tree, and that every
    walk back to the root keeps the nodes in order and the tree balanced. *)

From Stdlib Require Import ZArith Lia.
From stdpp Require Import base list numbers option gmap sets.
From S2P Require Import Prelude AvlSpec Avl.

Local Open Scope Z_scope.
Local Open Scope avl_scope.

(** * Reasoning about computations

    [wp m s Q]: run in [s], [m] has a result, and [Q] holds of it. *)

Definition wp {K A} (m : avl_M K A) (s : avl_state K) (Q : A -> avl_state K -> Prop) : Prop :=
  match m s with Def (a, s') => Q a s' | Undef _ => False end.

Section wp.
Context {K : Type}.
Implicit Types s : avl_state K.

Definition upd s (p : ptr) (n : avl_node K) : avl_state K := {| tree := tree s; mem := <[p := n]> (mem s) |}.
Definition upd_tree s (t : avl_tree) : avl_state K := {| tree := t; mem := mem s |}.

Lemma wp_bind {A B} (m : avl_M K A) (f : A -> avl_M K B) s Q :
  wp m s (fun a s' => wp (f a) s' Q) -> wp (bind m f) s Q.
Proof. unfold wp, bind. by destruct (m s) as [[a s']|]. Qed.

Lemma wp_ret {A} (a : A) s Q : Q a s -> wp (ret a) s Q.
Proof. done. Qed.

Lemma wp_load p n s (Q : avl_node K -> avl_state K -> Prop) : mem s !! p = Some n -> Q n s -> wp (load p) s Q.
Proof. unfold wp, load. by intros ->. Qed.

Lemma wp_store p n f s (Q : unit -> avl_state K -> Prop) :
  mem s !! p = Some n -> Q tt (upd s p (f n)) -> wp (store p f) s Q.
Proof. unfold wp, store, upd. by intros ->. Qed.

Lemma wp_deref p s (Q : ptr -> avl_state K -> Prop) : Q p s -> wp (deref (Some p)) s Q.
Proof. done. Qed.

Lemma wp_get_tree s (Q : avl_tree -> avl_state K -> Prop) : Q (tree s) s -> wp get_tree s Q.
Proof. done. Qed.

Lemma wp_put_tree f s (Q : unit -> avl_state K -> Prop) : Q tt (upd_tree s (f (tree s))) -> wp (put_tree f) s Q.
Proof. done. Qed.

Lemma wp_mono {A} (m : avl_M K A) s (P Q : A -> avl_state K -> Prop) :
  wp m s P -> (forall a s', P a s' -> Q a s') -> wp m s Q.
Proof. unfold wp. destruct (m s) as [[a s']|]; eauto. Qed.

Lemma wp_Def {A} (m : avl_M K A) s Q : wp m s Q -> exists a s', m s = Def (a, s') /\ Q a s'.
Proof. unfold wp. destruct (m s) as [[a s']|]; [eauto|done]. Qed.
End wp.

(** Looks a node up in updated memory. *)
Ltac lk :=
  lazymatch goal with |- mem ?s !! _ = _ => try unfold s | _ => idtac end;
  cbn [mem tree upd upd_tree]; repeat first [rewrite lookup_insert_eq | rewrite lookup_insert_ne by congruence];
  first [eassumption | reflexivity].

(** One load, store or other primitive. *)
Ltac wp_step :=
  lazymatch goal with
  | |- wp (bind _ _) _ _ => apply wp_bind
  | |- wp (ret _) _ _ => apply wp_ret
  | |- wp (load _) _ _ => eapply wp_load; [lk|]
  | |- wp (store _ _) _ _ => eapply wp_store; [lk|]
  | |- wp (set_parent _ _) _ _ => eapply wp_store; [lk|]
  | |- wp (set_left _ _) _ _ => eapply wp_store; [lk|]
  | |- wp (set_right _ _) _ _ => eapply wp_store; [lk|]
  | |- wp (set_balance _ _) _ _ => eapply wp_store; [lk|]
  | |- wp (set_follower _ _) _ _ => eapply wp_store; [lk|]
  | |- wp (deref (Some _)) _ _ => apply wp_deref
  | |- wp (container_of (Some (Entity _))) _ _ => apply wp_ret
  | |- wp get_tree _ _ => apply wp_get_tree
  | |- wp (put_tree _) _ _ => apply wp_put_tree
  | |- wp (set_root _) _ _ => apply wp_put_tree
  | |- wp (set_count _) _ _ => apply wp_put_tree
  end; cbn [left right parent balance node_list node_key follower with_left with_right with_parent with_balance with_list with_follower].

(** * Shapes *)

Inductive shape := E | T (l : shape) (p : ptr) (b : Z) (r : shape).

Fixpoint nodes (t : shape) : list ptr :=
  match t with E => [] | T l p _ r => nodes l ++ p :: nodes r end.

Definition root_of (t : shape) : option ptr := match t with E => None | T _ p _ _ => Some p end.

(** One step of the way from a subtree up to the root: the subtree is the left
    or the right child of [p]. *)
Inductive frame := FL (p : ptr) (b : Z) (r : shape) | FR (l : shape) (p : ptr) (b : Z).
Notation context := (list frame).

Definition frame_ptr (f : frame) : ptr := match f with FL p _ _ => p | FR _ p _ => p end.
Definition above (c : context) : option ptr := frame_ptr <$> head c.

Definition fill (f : frame) (t : shape) : shape :=
  match f with FL p b r => T t p b r | FR l p b => T l p b t end.
Fixpoint plug (c : context) (t : shape) : shape :=
  match c with [] => t | f :: c => plug c (fill f t) end.

(** The nodes in front of the subtree and behind it. *)
Fixpoint pre (c : context) : list ptr :=
  match c with [] => [] | FL _ _ _ :: c => pre c | FR l p _ :: c => pre c ++ nodes l ++ [p] end.
Fixpoint post (c : context) : list ptr :=
  match c with [] => [] | FL p _ r :: c => p :: nodes r ++ post c | FR _ _ _ :: c => post c end.

Lemma nodes_plug c t : nodes (plug c t) = pre c ++ nodes t ++ post c.
Proof.
  revert t. induction c as [|[p b r|l p b] c IH]; intros t; simpl; [by rewrite app_nil_r|..]; rewrite IH; simpl.
  - by rewrite <- app_assoc.
  - by rewrite <- !app_assoc.
Qed.

Lemma plug_app c d t : plug (c ++ d) t = plug d (plug c t).
Proof. revert t. induction c as [|f c IH]; intros t; simpl; [done|apply IH]. Qed.

(** Every node has a place. *)
Lemma nodes_focus t p : p ∈ nodes t -> exists c l b r, t = plug c (T l p b r).
Proof.
  induction t as [|l IHl q b r IHr]; simpl; [by intros ?%elem_of_nil|].
  rewrite elem_of_app, elem_of_cons. intros [(c & l' & b' & r' & ->)%IHl|[->|(c & l' & b' & r' & ->)%IHr]].
  - exists (c ++ [FL q b r]), l', b', r'. by rewrite plug_app.
  - by exists [], l, b, r.
  - exists (c ++ [FR l q b]), l', b', r'. by rewrite plug_app.
Qed.

(** ** Balance *)

(** [balanced t h]: a tree of height [h] whose balances are the differences of
    the heights of the subtrees, -1, 0 or 1. *)
Inductive balanced : shape -> Z -> Prop :=
| balanced_E : balanced E 0
| balanced_T l p b r hl hr : balanced l hl -> balanced r hr -> b = hr - hl -> -1 <= b <= 1 ->
    balanced (T l p b r) (1 + Z.max hl hr).

(** A context in which subtrees of height [h] are balanced. *)
Inductive balanced_ctx : context -> Z -> Prop :=
| balanced_top h : balanced_ctx [] h
| balanced_FL p b r c h hr : balanced r hr -> b = hr - h -> -1 <= b <= 1 ->
    balanced_ctx c (1 + Z.max h hr) -> balanced_ctx (FL p b r :: c) h
| balanced_FR l p b c h hl : balanced l hl -> b = h - hl -> -1 <= b <= 1 ->
    balanced_ctx c (1 + Z.max hl h) -> balanced_ctx (FR l p b :: c) h.

Lemma balanced_plug c t h : balanced_ctx c h -> balanced t h -> exists h', balanced (plug c t) h'.
Proof.
  intros Hc. revert t. induction Hc as [h|p b r c h hr Hr -> Hb Hc IH|l p b c h hl Hl -> Hb Hc IH]; intros t Ht; simpl; [eauto|..].
  - apply IH. by constructor.
  - apply IH. by constructor.
Qed.

Lemma balanced_unplug c t h' : balanced (plug c t) h' -> exists h, balanced t h /\ balanced_ctx c h.
Proof.
  revert t. induction c as [|[p b r|l p b] c IH]; intros t; simpl; [eexists; split; [done|constructor]|..].
  - intros (h & Ht & Hc)%IH. inversion Ht; subst. eexists. split; [done|]. by econstructor.
  - intros (h & Ht & Hc)%IH. inversion Ht; subst. eexists. split; [done|]. by econstructor.
Qed.

(** The number of nodes on the longest way down. *)
Fixpoint depth (t : shape) : nat :=
  match t with E => 0 | T l _ _ r => S (Nat.max (depth l) (depth r)) end.

Lemma depth_nodes t : (depth t <= length (nodes t))%nat.
Proof. induction t as [|l IHl p b r IHr]; simpl; [done|]. rewrite length_app. simpl. lia. Qed.

Lemma balanced_depth t h : balanced t h -> h = Z.of_nat (depth t).
Proof. induction 1 as [|l p b r hl hr Hl IHl Hr IHr _ _]; [done|]. cbn [depth]. lia. Qed.

(** A balanced tree is not much higher than the best one. *)
Lemma balanced_size t h : balanced t h -> 2 ^ h <= (Z.of_nat (length (nodes t)) + 1) ^ 2.
Proof.
  induction 1 as [|l p b r hl hr Hl IHl Hr IHr Eb Hb]; [done|].
  assert (0 <= hl /\ 0 <= hr) as [H1 H2] by (apply balanced_depth in Hl, Hr; lia).
  cbn [nodes]. rewrite length_app. cbn [length].
  set (a := Z.of_nat (length (nodes l)) + 1) in *. set (b' := Z.of_nat (length (nodes r)) + 1) in *.
  assert (Z.of_nat (length (nodes l) + S (length (nodes r))) + 1 = a + b') as -> by lia.
  assert (0 < a /\ 0 < b') as [Ha Hb'] by lia. set (m := Z.max hl hr) in *.
  assert (exists x, 0 <= x /\ 2 ^ (1 + m) <= 4 * x /\ x <= a ^ 2 /\ x <= b' ^ 2 /\ (2 * x <= a ^ 2 \/ 2 * x <= b' ^ 2 \/ m = 0)) as (x & Hx0 & Hx & Hxa & Hxb & Hx2).
  { destruct (Z.eq_dec m 0) as [Em|Em].
    - exists 1. rewrite Em. change (2 ^ (1 + 0)) with 2. nia.
    - exists (2 ^ (m - 1)). assert (2 ^ (1 + m) = 4 * 2 ^ (m - 1)) as -> by (replace (1 + m) with (2 + (m - 1)) by lia; rewrite Z.pow_add_r by lia; done).
      assert (2 ^ m = 2 * 2 ^ (m - 1)) as E2 by (replace m with (1 + (m - 1)) at 1 by lia; by rewrite Z.pow_add_r by lia).
      assert (0 < 2 ^ (m - 1)) by (apply Z.pow_pos_nonneg; lia).
      assert (2 ^ (m - 1) <= 2 ^ hl /\ 2 ^ (m - 1) <= 2 ^ hr) as [? ?] by (split; apply Z.pow_le_mono_r; lia).
      repeat split; try lia. destruct (Z.max_spec hl hr) as [[_ E]|[_ E]]; fold m in E; rewrite <- E in *; [right; left|left]; lia. }
  destruct Hx2 as [Hx2|[Hx2|Em]].
  - nia.
  - nia.
  - rewrite Em in *. change (2 ^ (1 + 0)) with 2 in *. nia.
Qed.

Lemma balanced_height t h : balanced t h -> 0 <= h.
Proof. induction 1; lia. Qed.

(** * Trees in memory *)
Section memory.
Context {K : Type}.
Implicit Types (s : avl_state K) (m : gmap ptr (avl_node K)).

(** The node [p] with the tree fields. *)
Definition cell m (p : ptr) (par l r : option ptr) (b : Z) : Prop :=
  exists n, m !! p = Some n /\ parent n = par /\ left n = l /\ right n = r /\ balance n = b.

Fixpoint rep m (par : option ptr) (t : shape) : Prop :=
  match t with
  | E => True
  | T l p b r => cell m p par (root_of l) (root_of r) b /\ rep m (Some p) l /\ rep m (Some p) r
  end.

(** The path above a subtree whose root is [x]. *)
Fixpoint rep_ctx m (rt : option ptr) (c : context) (x : option ptr) : Prop :=
  match c with
  | [] => rt = x
  | FL p b r :: c => cell m p (above c) x (root_of r) b /\ rep m (Some p) r /\ rep_ctx m rt c (Some p)
  | FR l p b :: c => cell m p (above c) (root_of l) x b /\ rep m (Some p) l /\ rep_ctx m rt c (Some p)
  end.

(** Memory holds the tree [t]. *)
Definition holds s (t : shape) : Prop :=
  root (tree s) = root_of t /\ rep (mem s) None t /\ NoDup (nodes t).

Lemma rep_plug m rt c t :
  rt = root_of (plug c t) /\ rep m None (plug c t) <-> rep_ctx m rt c (root_of t) /\ rep m (above c) t.
Proof.
  revert t. induction c as [|f c IH]; intros t; simpl; [done|]. rewrite IH.
  destruct f as [p b r|l p b]; simpl; tauto.
Qed.

Lemma rep_frame m m' par t : rep m par t -> (forall p, p ∈ nodes t -> m' !! p = m !! p) -> rep m' par t.
Proof.
  revert par. induction t as [|l IHl p b r IHr]; intros par; simpl; [done|]. intros (Hp & Hl & Hr) H.
  split; [|split].
  - destruct Hp as (n & Hn & ?). exists n. rewrite H; [done|]. rewrite elem_of_app, elem_of_cons. tauto.
  - apply IHl; [done|]. intros q Hq. apply H. rewrite elem_of_app. tauto.
  - apply IHr; [done|]. intros q Hq. apply H. rewrite elem_of_app, elem_of_cons. tauto.
Qed.

Lemma rep_ctx_frame m m' rt c x : rep_ctx m rt c x ->
  (forall p, p ∈ pre c ++ post c -> m' !! p = m !! p) -> rep_ctx m' rt c x.
Proof.
  revert x. induction c as [|[p b r|l p b] c IH]; intros x; simpl; [done|..]; intros (Hp & Hr & Hc) H.
  - split; [|split].
    + destruct Hp as (n & Hn & ?). exists n. rewrite H; [done|]. set_solver.
    + eapply rep_frame; [done|]. intros q Hq. apply H. set_solver.
    + apply IH; [done|]. intros q Hq. apply H. set_solver.
  - split; [|split].
    + destruct Hp as (n & Hn & ?). exists n. rewrite H; [done|]. set_solver.
    + eapply rep_frame; [done|]. intros q Hq. apply H. set_solver.
    + apply IH; [done|]. intros q Hq. apply H. set_solver.
Qed.

Lemma rep_in m par t p : rep m par t -> p ∈ nodes t -> exists n, m !! p = Some n.
Proof.
  revert par. induction t as [|l IHl q b r IHr]; intros par; simpl; [by intros _ ?%elem_of_nil|].
  intros ((n & Hn & _) & Hl & Hr). rewrite elem_of_app, elem_of_cons. intros [?|[->|?]]; eauto.
Qed.

(** What the work on the tree leaves alone: the list, the keys and all nodes
    outside [X]. *)
Record kept s s' (X : list ptr) : Prop := {
  kept_head : list_head (tree s') = list_head (tree s);
  kept_count : count (tree s') = count (tree s);
  kept_dups : allow_dups (tree s') = allow_dups (tree s);
  kept_node p n : mem s !! p = Some n -> exists n', mem s' !! p = Some n' /\
    node_list n' = node_list n /\ node_key n' = node_key n /\ follower n' = follower n;
  kept_none p : mem s !! p = None -> mem s' !! p = None;
  kept_out p : p ∉ X -> mem s' !! p = mem s !! p;
}.

Lemma kept_refl s X : kept s s X.
Proof. split; eauto. Qed.

Lemma kept_trans s1 s2 s3 X Y : kept s1 s2 X -> kept s2 s3 Y -> Y ⊆ X -> kept s1 s3 X.
Proof.
  intros [A1 A2 A3 A4 A5 A6] [B1 B2 B3 B4 B5 B6] HXY. split; [congruence..|intros p n Hn|auto|].
  - destruct (A4 p n Hn) as (n' & Hn' & ? & ? & ?). destruct (B4 p n' Hn') as (n'' & ? & ? & ? & ?).
    exists n''. repeat split; congruence.
  - intros p Hp. rewrite B6, A6; [done|done|]. intros H. apply Hp. by apply HXY.
Qed.

Lemma kept_mono s s' X Y : kept s s' X -> X ⊆ Y -> kept s s' Y.
Proof. intros H ?. eapply kept_trans; [apply (kept_refl s Y)|done..]. Qed.

Lemma kept_upd s p n n' X : mem s !! p = Some n -> p ∈ X ->
  node_list n' = node_list n -> node_key n' = node_key n -> follower n' = follower n -> kept s (upd s p n') X.
Proof.
  intros Hp HX H1 H2 H3. split; simpl; [done..|intros q m Hq|intros q Hq|intros q Hq].
  - destruct (decide (p = q)) as [<-|].
    + rewrite lookup_insert_eq. exists n'. split; [done|]. rewrite Hp in Hq. by injection Hq as <-.
    + rewrite lookup_insert_ne by done. eauto.
  - rewrite lookup_insert_ne; [done|congruence].
  - rewrite lookup_insert_ne; [done|congruence].
Qed.

Lemma kept_diff s s' X : list_head (tree s') = list_head (tree s) -> count (tree s') = count (tree s) ->
  allow_dups (tree s') = allow_dups (tree s) ->
  (forall p, p ∈ X -> exists n n', mem s !! p = Some n /\ mem s' !! p = Some n' /\
     node_list n' = node_list n /\ node_key n' = node_key n /\ follower n' = follower n) ->
  (forall p, p ∉ X -> mem s' !! p = mem s !! p) -> kept s s' X.
Proof.
  intros H1 H2 H3 HX Hout. split; [done..|intros p n Hn|intros p Hn|done].
  - destruct (decide (p ∈ X)) as [Hp|Hp]; [|exists n; by rewrite Hout].
    destruct (HX p Hp) as (m & n' & Hm & Hn' & ?). exists n'. split; [done|]. rewrite Hn in Hm. by injection Hm as <-.
  - destruct (decide (p ∈ X)) as [Hp|Hp]; [|by rewrite Hout].
    destruct (HX p Hp) as (m & n' & Hm & _). congruence.
Qed.

Lemma kept_root s o X : kept s (upd_tree s (with_root o (tree s))) X.
Proof. split; simpl; eauto. Qed.

(** The nodes a step writes and all others. *)
Lemma nodup_split (l ps rest : list ptr) : NoDup l -> ps ++ rest ≡ₚ l ->
  NoDup ps /\ forall z, z ∈ rest -> z ∉ ps.
Proof. intros Hl Hp. rewrite <- Hp, NoDup_app in Hl. destruct Hl as (? & H & ?). split; [done|]. intros z Hz Hz'. by apply (H z). Qed.
End memory.

Ltac distinct H :=
  rewrite ?NoDup_cons, ?elem_of_cons, ?elem_of_nil in H;
  repeat match type of H with _ /\ _ => let H1 := fresh "D" in destruct H as [H1 H] end;
  repeat match goal with D : ~ (_ \/ _) |- _ => apply Decidable.not_or in D as [? D] end.

(** [m' !! z = m !! z] for a node that is not written. *)
Ltac unwritten Hout :=
  let z := fresh "z" in let Hz := fresh "Hz" in let Hz' := fresh "Hz" in
  intros z Hz; cbn [mem tree upd upd_tree];
  assert (Hz' := Hout z ltac:(revert Hz; clear; rewrite ?elem_of_app, ?elem_of_cons; tauto));
  rewrite ?elem_of_cons in Hz';
  repeat rewrite lookup_insert_ne by (intros ->; tauto); try done.

Ltac app_norm := repeat progress (rewrite <- ?app_assoc; simpl).

Section rotations.
Context {K : Type}.
Implicit Types (s : avl_state K) (m : gmap ptr (avl_node K)).

Lemma root_not_in (t : shape) p : p ∉ nodes t -> root_of t <> Some p.
Proof. destruct t; simpl; [done|]. intros H [= ->]. apply H. rewrite elem_of_app, elem_of_cons. tauto. Qed.

Lemma above_in c p : above c = Some p -> p ∈ pre c ++ post c.
Proof.
  destruct c as [|[q b r|l q b] c]; simpl; [done|..]; intros [= <-]; rewrite !elem_of_app, ?elem_of_cons; tauto.
Qed.

Lemma relink_wp s c old new (Q : unit -> avl_state K -> Prop) :
  rep_ctx (mem s) (root (tree s)) c (Some old) -> NoDup (pre c ++ post c) -> old ∉ pre c ++ post c ->
  (forall s', rep_ctx (mem s') (root (tree s')) c new -> kept s s' (pre c ++ post c) ->
     (forall z, above c <> Some z -> mem s' !! z = mem s !! z) -> Q tt s') ->
  wp (relink (above c) old new) s Q.
Proof.
  intros Hc Hnd Hold HQ. destruct c as [|[p b r|l p b] c]; simpl in *.
  - apply wp_put_tree, HQ; simpl; [done|apply kept_root|done].
  - destruct Hc as ((n & Hp & E1 & E2 & E3 & E4) & Hr & Hc). repeat wp_step.
    rewrite bool_decide_true by congruence. repeat wp_step.
    destruct (nodup_split _ [p] (pre c ++ nodes r ++ post c) Hnd) as [_ Hout]; [solve_Permutation|].
    apply HQ; [split; [|split]|eapply kept_upd; [done|set_solver|done..]|].
    + eexists. split; [lk|done].
    + eapply rep_frame; [done|]. unwritten Hout.
    + eapply rep_ctx_frame; [done|]. unwritten Hout.
    + intros z Hz. unfold above in Hz. simpl in *. by rewrite lookup_insert_ne by congruence.
  - destruct Hc as ((n & Hp & E1 & E2 & E3 & E4) & Hl & Hc). repeat wp_step.
    rewrite bool_decide_false by (rewrite E2; apply root_not_in; set_solver). repeat wp_step.
    destruct (nodup_split _ [p] (pre c ++ nodes l ++ post c) Hnd) as [_ Hout]; [solve_Permutation|].
    apply HQ; [split; [|split]|eapply kept_upd; [done|set_solver|done..]|].
    + eexists. split; [lk|done].
    + eapply rep_frame; [done|]. unwritten Hout.
    + eapply rep_ctx_frame; [done|]. unwritten Hout.
    + intros z Hz. unfold above in Hz. simpl in *. by rewrite lookup_insert_ne by congruence.
Qed.
Lemma reparent_wp s par t q (Q : unit -> avl_state K -> Prop) :
  rep (mem s) par t -> NoDup (nodes t) ->
  (forall s', rep (mem s') (Some q) t -> kept s s' (nodes t) -> tree s' = tree s ->
     (forall z, z ∉ nodes t -> mem s' !! z = mem s !! z) -> Q tt s') ->
  wp (reparent (root_of t) q) s Q.
Proof.
  intros Ht Hnd HQ. destruct t as [|l p b r]; simpl in *; [apply HQ; [done|apply kept_refl|done..]|].
  destruct Ht as ((n & Hp & E1 & E2 & E3 & E4) & Hl & Hr).
  destruct (nodup_split _ [p] (nodes l ++ nodes r) Hnd) as [_ Hout]; [solve_Permutation|].
  repeat wp_step. apply HQ; [split; [|split]|eapply kept_upd; [done|set_solver|done..]|done|].
  - eexists. split; [lk|done].
  - eapply rep_frame; [done|]. unwritten Hout.
  - eapply rep_frame; [done|]. unwritten Hout.
  - intros z Hz. simpl. rewrite lookup_insert_ne; [done|]. intros ->. apply Hz. set_solver.
Qed.

(** ** Rotations

    Both rotations are one computation with a side as parameter: [d] is the
    side of the child that moves up. *)

Inductive side := L | R.
Definition opp (d : side) : side := match d with L => R | R => L end.
Definition child (d : side) : avl_node K -> option ptr := match d with L => left | R => right end.
Definition with_child (d : side) : option ptr -> avl_node K -> avl_node K :=
  match d with L => with_left | R => with_right end.
Definition inc (d : side) (b : Z) : Z := match d with L => b + 1 | R => b - 1 end.
Definition neg (d : side) (b : Z) : bool := match d with L => b <? 0 | R => 0 <? b end.

Definition node_of (d : side) (near : shape) (p : ptr) (b : Z) (far : shape) : shape :=
  match d with L => T near p b far | R => T far p b near end.

Definition rotate (d : side) (node : ptr) : avl_M K unit :=
  n <~ load node ;;
  x <~ deref (child d n) ;;
  set_parent x (parent n) ;;;
  set_parent node (Some x) ;;;
  relink (parent n) node (Some x) ;;;
  l <~ load x ;;
  store node (with_child d (child (opp d) l)) ;;;
  store x (with_child (opp d) (Some node)) ;;;
  n <~ load node ;;
  reparent (child d n) node ;;;
  n <~ load node ;;
  set_balance node (inc d (balance n)) ;;;
  l <~ load x ;;
  (if neg d (balance l) then
     n <~ load node ;; set_balance node (balance n - balance l)
   else ret tt) ;;;
  set_balance x (inc d (balance l)) ;;;
  n <~ load node ;;
  if neg (opp d) (balance n) then
    l <~ load x ;; set_balance x (balance l + balance n)
  else ret tt.

Lemma rotate_right_eq y : _avl_rotate_right (K := K) y = rotate L y.
Proof. done. Qed.
Lemma rotate_left_eq y : _avl_rotate_left (K := K) y = rotate R y.
Proof. done. Qed.

(** The balances that a rotation computes for the node that moves down and the
    one that moves up. *)
Definition low (d : side) (bx by_ : Z) : Z :=
  let n := swrap 8 (inc d by_) in if neg d bx then swrap 8 (n - bx) else n.
Definition high (d : side) (bx by_ : Z) : Z :=
  let l := swrap 8 (inc d bx) in if neg (opp d) (low d bx by_) then swrap 8 (l + low d bx by_) else l.

Definition dcell (d : side) m (p : ptr) (par near far : option ptr) (b : Z) : Prop :=
  exists n, m !! p = Some n /\ parent n = par /\ child d n = near /\ child (opp d) n = far /\ balance n = b.

Lemma rep_node_of d m par l p b r : rep m par (node_of d l p b r) <->
  dcell d m p par (root_of l) (root_of r) b /\ rep m (Some p) l /\ rep m (Some p) r.
Proof. destruct d; simpl; unfold dcell, cell; simpl; naive_solver. Qed.

Lemma root_of_node d l p b r : root_of (node_of d l p b r) = Some p.
Proof. by destruct d. Qed.

Lemma nodes_node_of d l p b r : nodes (node_of d l p b r) ≡ₚ p :: nodes l ++ nodes r.
Proof. destruct d; simpl; solve_Permutation. Qed.

Lemma nodes_rotate d a x bx b y by_ r bx' by' :
  nodes (node_of d a x bx' (node_of (d) b y by' r)) = nodes (node_of d (node_of d a x bx b) y by_ r).
Proof. destruct d; simpl; by app_norm. Qed.

(** Memory after the link from above has been moved from [y] to [x]. *)
Record turned s (d : side) c a x bx b y by_ r : Prop := {
  turned_nodup : NoDup (pre c ++ post c ++ x :: y :: nodes a ++ nodes b ++ nodes r);
  turned_ctx : rep_ctx (mem s) (root (tree s)) c (Some x);
  turned_x : dcell d (mem s) x (above c) (root_of a) (root_of b) bx;
  turned_y : dcell d (mem s) y (Some x) (Some x) (root_of r) by_;
  turned_a : rep (mem s) (Some x) a;
  turned_b : rep (mem s) (Some x) b;
  turned_r : rep (mem s) (Some y) r;
}.
(** The subtrees of a rotation and the nodes that it writes. *)
Lemma turned_apart c (x y : ptr) (a b r : shape) :
  NoDup (pre c ++ post c ++ x :: y :: nodes a ++ nodes b ++ nodes r) ->
  x <> y /\ NoDup (pre c ++ post c) /\ NoDup (nodes b) /\
  (forall z, z ∈ pre c ++ post c -> z <> x /\ z <> y /\ z ∉ nodes b) /\
  (forall z, z ∈ nodes a ++ nodes r -> z <> x /\ z <> y /\ above c <> Some z /\ z ∉ nodes b) /\
  (forall z, z ∈ nodes b -> z <> x /\ z <> y /\ above c <> Some z) /\
  above c <> Some x /\ above c <> Some y.
Proof.
  intros H. set (C := pre c ++ post c).
  destruct (nodup_split _ ([x; y] ++ C) (nodes a ++ nodes b ++ nodes r) H) as [H1 Ho]; [unfold C; solve_Permutation|].
  destruct (nodup_split _ (nodes b) (C ++ x :: y :: nodes a ++ nodes r) H) as [Hb Hbo]; [unfold C; solve_Permutation|].
  apply NoDup_app in H1 as (Hxy & HxyC & HC).
  assert (forall z, z ∈ nodes a ++ nodes b ++ nodes r -> z <> x /\ z <> y /\ above c <> Some z) as Hz.
  { intros z Hz. pose proof (Ho z Hz) as Hz'. rewrite elem_of_app, !elem_of_cons, elem_of_nil in Hz'.
    repeat split; [intros ->; tauto..|]. intros Hab%above_in. by apply Hz'; right. }
  assert (forall z, z ∈ C ++ x :: y :: nodes a ++ nodes r <-> z ∈ C \/ z = x \/ z = y \/ z ∈ nodes a ++ nodes r) as Hin.
  { intros z. by rewrite elem_of_app, !elem_of_cons. }
  split; [|split; [done|split; [done|split; [|split; [|split; [|split]]]]]].
  - intros ->. apply NoDup_cons in Hxy as [Hxy _]. apply Hxy. left.
  - intros z Hzc. repeat split; [intros ->; apply (HxyC x); [left|done]|intros ->; apply (HxyC y); [right; left|done]|].
    apply Hbo, Hin. tauto.
  - intros z Hz1. destruct (Hz z) as (? & ? & ?); [revert Hz1; rewrite !elem_of_app; tauto|].
    repeat split; [done..|]. apply Hbo, Hin. tauto.
  - intros z Hz1. apply Hz. rewrite !elem_of_app. tauto.
  - intros Hab%above_in. apply (HxyC x); [left|done].
  - intros Hab%above_in. apply (HxyC y); [right; left|done].
Qed.

Lemma turn_wp s d c a x bx b y by_ r k (Q : unit -> avl_state K -> Prop) :
  NoDup (pre c ++ post c ++ x :: y :: nodes a ++ nodes b ++ nodes r) ->
  rep_ctx (mem s) (root (tree s)) c (Some y) ->
  dcell d (mem s) y (above c) (Some x) (root_of r) by_ ->
  dcell d (mem s) x (Some y) (root_of a) (root_of b) bx ->
  rep (mem s) (Some x) a -> rep (mem s) (Some x) b -> rep (mem s) (Some y) r ->
  (forall s1, turned s1 d c a x bx b y by_ r -> kept s s1 ([x; y] ++ pre c ++ post c) -> wp k s1 Q) ->
  wp (set_parent x (above c) ;;; set_parent y (Some x) ;;; relink (above c) y (Some x) ;;; k) s Q.
Proof.
  intros Hnd Hc (ny & Hy & Ey1 & Ey2 & Ey3 & Ey4) (nx & Hx & Ex1 & Ex2 & Ex3 & Ex4) Ha Hb Hr Hk.
  pose proof (turned_apart c x y a b r Hnd) as (Hxy & HC & _ & HzC & Hzar & Hzb & Hax & Hay).
  repeat wp_step.
  set (s0 := upd (upd s x (with_parent (above c) nx)) y (with_parent (Some x) ny)).
  assert (kept s s0 [x; y]) as Hk0.
  { eapply (kept_trans _ (upd s x (with_parent (above c) nx)) _ _ [x; y]); [eapply kept_upd; [exact Hx|left|done..]| |done].
    eapply kept_upd; [lk|right; left|done..]. }
  apply (relink_wp s0 c y (Some x)).
  { eapply rep_ctx_frame; [exact Hc|]. intros z Hz. destruct (HzC z Hz) as (? & ? & _). lk. }
  { done. }
  { intros H. by destruct (HzC y H) as (_ & ? & _). }
  intros s1 Hc1 Hk1 Ho1.
  assert (forall z, z <> x -> z <> y -> above c <> Some z -> mem s1 !! z = mem s !! z) as Ho.
  { intros z ? ? ?. rewrite Ho1 by done. lk. }
  apply Hk.
  - split; [done..| | | | |].
    + exists (with_parent (above c) nx). rewrite Ho1 by done. split; [lk|by destruct d].
    + exists (with_parent (Some x) ny). rewrite Ho1 by done. split; [lk|by destruct d].
    + eapply rep_frame; [exact Ha|]. intros z Hz. apply Ho; apply Hzar; rewrite elem_of_app; tauto.
    + eapply rep_frame; [exact Hb|]. intros z Hz. apply Ho; by apply Hzb.
    + eapply rep_frame; [exact Hr|]. intros z Hz. apply Ho; apply Hzar; rewrite elem_of_app; tauto.
  - eapply kept_trans; [eapply kept_mono; [exact Hk0|]|exact Hk1|]; intros z Hz; rewrite elem_of_app; tauto.
Qed.
(** What the second half of a rotation leaves, given the two nodes. *)
Lemma turned_holds s sf d c a x bx b y by_ r bx' by' :
  turned s d c a x bx b y by_ r -> root (tree sf) = root (tree s) ->
  dcell d (mem sf) x (above c) (root_of a) (Some y) bx' ->
  dcell d (mem sf) y (Some x) (root_of b) (root_of r) by' ->
  rep (mem sf) (Some y) b ->
  (forall z, z <> x -> z <> y -> z ∉ nodes b -> mem sf !! z = mem s !! z) ->
  holds sf (plug c (node_of d a x bx' (node_of d b y by' r))).
Proof.
  intros [Hnd Hc _ _ Ha _ Hr] Ht Hx Hy Hb Ho.
  pose proof (turned_apart c x y a b r Hnd) as (_ & _ & _ & HzC & Hzar & _).
  set (t := node_of d a x bx' (node_of d b y by' r)).
  assert (rep_ctx (mem sf) (root (tree sf)) c (root_of t) /\ rep (mem sf) (above c) t) as H.
  { unfold t. rewrite root_of_node, rep_node_of, root_of_node, rep_node_of, Ht. split.
    - eapply rep_ctx_frame; [exact Hc|]. intros z Hz. destruct (HzC z Hz) as (? & ? & ?). by apply Ho.
    - split; [done|]. split; [|split; [done|split; [done|]]].
      + eapply rep_frame; [exact Ha|]. intros z Hz.
        destruct (Hzar z) as (? & ? & _ & ?); [rewrite elem_of_app; tauto|]. by apply Ho.
      + eapply rep_frame; [exact Hr|]. intros z Hz.
        destruct (Hzar z) as (? & ? & _ & ?); [rewrite elem_of_app; tauto|]. by apply Ho. }
  apply rep_plug in H as [? ?]. split; [done|split; [done|]].
  rewrite nodes_plug. unfold t. rewrite !nodes_node_of.
  eapply (nodup_split _ _ [] Hnd). rewrite app_nil_r. solve_Permutation.
Qed.

Lemma turned_rest_wp s d c a x bx b y by_ r (Q : unit -> avl_state K -> Prop) :
  turned s d c a x bx b y by_ r ->
  (forall sf, holds sf (plug c (node_of d a x (high d bx by_) (node_of d b y (low d bx by_) r))) ->
     kept s sf ([x; y] ++ nodes b) -> Q tt sf) ->
  wp (l <~ load x ;;
      store y (with_child d (child (opp d) l)) ;;;
      store x (with_child (opp d) (Some y)) ;;;
      n <~ load y ;;
      reparent (child d n) y ;;;
      n <~ load y ;;
      set_balance y (inc d (balance n)) ;;;
      l <~ load x ;;
      (if neg d (balance l) then n <~ load y ;; set_balance y (balance n - balance l) else ret tt) ;;;
      set_balance x (inc d (balance l)) ;;;
      n <~ load y ;;
      if neg (opp d) (balance n) then l <~ load x ;; set_balance x (balance l + balance n) else ret tt) s Q.
Proof.
  intros HT HQ. pose proof HT as [Hnd _ (nx & Hx & Ex1 & Ex2 & Ex3 & Ex4) (ny & Hy & Ey1 & Ey2 & Ey3 & Ey4) _ Hb _].
  pose proof (turned_apart c x y a b r Hnd) as (Hxy & _ & Hndb & _ & _ & Hzb & _).
  repeat wp_step. rewrite Ex3.
  replace (child d (with_child d (root_of b) ny)) with (root_of b) by (by destruct d).
  apply (reparent_wp _ (Some x) b y); [|done|].
  { eapply rep_frame; [exact Hb|]. intros z Hz. destruct (Hzb z Hz) as (? & ? & _). lk. }
  intros s2 Hb2 Hk2 Ht2 Ho2.
  assert (mem s2 !! x = Some (with_child (opp d) (Some y) nx)) as Hx2 by (rewrite Ho2; [lk|intros H; by destruct (Hzb x H)]).
  assert (mem s2 !! y = Some (with_child d (root_of b) ny)) as Hy2.
  { rewrite Ho2; [lk|intros H; by destruct (Hzb y H) as (_ & ? & _)]. }
  assert (forall sf, mem sf !! x = Some (with_balance (high d bx by_) (with_child (opp d) (Some y) nx)) ->
    mem sf !! y = Some (with_balance (low d bx by_) (with_child d (root_of b) ny)) -> tree sf = tree s ->
    (forall z, z <> x -> z <> y -> mem sf !! z = mem s2 !! z) -> Q tt sf) as HQf.
  { intros sf Hxf Hyf Htf Hof. apply HQ.
    - eapply turned_holds; [exact HT|by rewrite Htf|..].
      + eexists. split; [exact Hxf|by destruct d].
      + eexists. split; [exact Hyf|by destruct d].
      + eapply rep_frame; [exact Hb2|]. intros z Hz. apply Hof; by apply Hzb.
      + intros z ? ? ?. rewrite Hof, Ho2 by done. lk.
    - apply kept_diff; [by rewrite Htf..| |].
      + intros z Hz.
        destruct (decide (z = x)) as [->|]; [eexists _, _; split; [exact Hx|split; [exact Hxf|by destruct d]]|].
        destruct (decide (z = y)) as [->|]; [eexists _, _; split; [exact Hy|split; [exact Hyf|by destruct d]]|].
        destruct (rep_in (mem s) (Some x) b z Hb) as [m Hm]; [set_solver|].
        destruct (kept_node _ _ _ Hk2 z m) as (n' & Hn' & ?); [lk|]. exists m, n'. by rewrite Hof.
      + intros z Hz. assert (z <> x /\ z <> y /\ z ∉ nodes b) as (? & ? & ?) by set_solver.
        rewrite Hof, Ho2 by done. lk. }
  assert (balance (with_child d (root_of b) ny) = by_ /\ balance (with_child (opp d) (Some y) nx) = bx) as [Eby Ebx] by (by destruct d).
  clear HQ. repeat wp_step. rewrite Eby, Ebx. unfold high, low in HQf.
  destruct (neg d bx); repeat wp_step; [set (bn := swrap 8 (swrap 8 (inc d by_) - bx)) in *|set (bn := swrap 8 (inc d by_)) in *];
    destruct (neg (opp d) bn); repeat wp_step.
  all: apply HQf; [lk|lk|done|]; intros z ? ?; lk.
Qed.
Lemma rotate_wp s d c a x bx b y by_ r (Q : unit -> avl_state K -> Prop) :
  holds s (plug c (node_of d (node_of d a x bx b) y by_ r)) ->
  (forall sf, holds sf (plug c (node_of d a x (high d bx by_) (node_of d b y (low d bx by_) r))) ->
     kept s sf (nodes (plug c (node_of d (node_of d a x bx b) y by_ r))) -> Q tt sf) ->
  wp (rotate d y) s Q.
Proof.
  intros (Hrt & Hrep & Hnd) HQ. set (X := nodes (plug c (node_of d (node_of d a x bx b) y by_ r))) in *.
  assert (X ≡ₚ pre c ++ post c ++ x :: y :: nodes a ++ nodes b ++ nodes r) as HX.
  { unfold X. rewrite nodes_plug, !nodes_node_of. solve_Permutation. }
  destruct (proj1 (rep_plug _ _ _ _) (conj Hrt Hrep)) as [Hc Ht].
  rewrite root_of_node in Hc. rewrite !rep_node_of, root_of_node in Ht. destruct Ht as (Hy & (Hx & Ha & Hb) & Hr).
  unfold rotate. pose proof Hy as (ny & Eny & E1 & E2 & _).
  do 2 wp_step. rewrite E2. do 2 wp_step. rewrite E1.
  eapply (turn_wp s d c a x bx b y by_ r); [by rewrite <- HX|done..|]. intros s1 HT Hk1.
  eapply turned_rest_wp; [exact HT|]. intros sf Hf Hkf. apply HQ; [done|].
  eapply kept_trans; [eapply kept_mono; [exact Hk1|]|exact Hkf|].
  all: intros z; rewrite HX, ?elem_of_app, ?elem_of_cons, ?elem_of_nil, ?elem_of_app; tauto.
Qed.
(** ** Single nodes *)

Lemma holds_node s c l p b r : holds s (plug c (T l p b r)) ->
  exists n, mem s !! p = Some n /\ parent n = above c /\ left n = root_of l /\ right n = root_of r /\ balance n = b.
Proof.
  intros (Hrt & Hrep & _). destruct (proj1 (rep_plug _ _ _ _) (conj Hrt Hrep)) as [_ (Hp & _)]. exact Hp.
Qed.

(** A node gets new children or a new balance. *)
Lemma holds_upd s c l p b r n n' l' b' r' :
  holds s (plug c (T l p b r)) -> mem s !! p = Some n ->
  parent n' = parent n -> left n' = root_of l' -> right n' = root_of r' -> balance n' = b' ->
  rep (mem s) (Some p) l' -> rep (mem s) (Some p) r' -> NoDup (nodes (plug c (T l' p b' r'))) ->
  holds (upd s p n') (plug c (T l' p b' r')).
Proof.
  intros (Hrt & Hrep & _) Hn E1 E2 E3 E4 Hl Hr Hnd.
  destruct (proj1 (rep_plug _ _ _ _) (conj Hrt Hrep)) as [Hc ((m & Hm & Em & _) & _)].
  rewrite Hn in Hm. injection Hm as <-.
  pose proof Hnd as H. rewrite nodes_plug in H. simpl in H.
  destruct (nodup_split _ [p] (pre c ++ post c ++ nodes l' ++ nodes r') H) as [_ Hout]; [solve_Permutation|].
  assert (rep_ctx (mem (upd s p n')) (root (tree (upd s p n'))) c (Some p) /\
          rep (mem (upd s p n')) (above c) (T l' p b' r')) as H2.
  { split; [|split; [|split]].
    - eapply rep_ctx_frame; [exact Hc|]. unwritten Hout.
    - exists n'. split; [lk|]. repeat split; congruence.
    - eapply rep_frame; [exact Hl|]. unwritten Hout.
    - eapply rep_frame; [exact Hr|]. unwritten Hout. }
  apply (rep_plug _ _ c (T l' p b' r')) in H2 as [? ?]. by split.
Qed.

Lemma holds_balance s c l p b r n b' : holds s (plug c (T l p b r)) -> mem s !! p = Some n ->
  holds (upd s p (with_balance b' n)) (plug c (T l p b' r)).
Proof.
  intros H Hn. destruct (holds_node s c l p b r H) as (m & Hm & E1 & E2 & E3 & E4).
  rewrite Hn in Hm. injection Hm as <-. pose proof H as (Hrt & Hrep & Hnd).
  destruct (proj1 (rep_plug _ _ _ _) (conj Hrt Hrep)) as [_ (_ & Hl & Hr)].
  eapply holds_upd; [exact H|exact Hn|done..|]. revert Hnd. by rewrite !nodes_plug.
Qed.

(** ** Contexts seen from one side *)

Definition frame_of (d : side) (p : ptr) (b : Z) (far : shape) : frame :=
  match d with L => FL p b far | R => FR far p b end.
Definition sg (d : side) : Z := match d with L => 1 | R => -1 end.

Lemma frame_cases f : exists d p b far, f = frame_of d p b far.
Proof. destruct f as [p b far|far p b]; [exists L|exists R]; by exists p, b, far. Qed.

Lemma plug_frame_of d p b far c t : plug (frame_of d p b far :: c) t = plug c (node_of d t p b far).
Proof. by destruct d. Qed.

Lemma node_of_opp d l p b r : node_of (opp d) l p b r = node_of d r p b l.
Proof. by destruct d. Qed.

Lemma opp_opp d : opp (opp d) = d.
Proof. by destruct d. Qed.

Lemma balanced_node_of d l p b r h : balanced (node_of d l p b r) h <->
  exists hl hr, balanced l hl /\ balanced r hr /\ b = sg d * (hr - hl) /\ -1 <= b <= 1 /\ h = 1 + Z.max hl hr.
Proof.
  split.
  - destruct d; simpl; inversion 1; subst; eexists _, _; (split; [eassumption|split; [eassumption|]]); lia.
  - intros (hl & hr & Hl & Hr & -> & Hb & ->). unfold sg in *; destruct d; cbn [node_of].
    + constructor; [done..|lia|lia].
    + rewrite Z.max_comm. constructor; [done..|lia|lia].
Qed.

Lemma balanced_ctx_frame_of d p b far c h : balanced_ctx (frame_of d p b far :: c) h <->
  exists hf, balanced far hf /\ b = sg d * (hf - h) /\ -1 <= b <= 1 /\ balanced_ctx c (1 + Z.max h hf).
Proof.
  split.
  - destruct d; simpl; inversion 1; subst; eexists; (split; [eassumption|]); (split; [lia|]); (split; [lia|]); [done|].
    by rewrite Z.max_comm.
  - intros (hf & Hf & -> & Hb & Hc). unfold sg in *; destruct d; cbn [frame_of].
    + eapply balanced_FL; [exact Hf|lia|lia|done].
    + rewrite Z.max_comm in Hc. eapply balanced_FR; [exact Hf|lia|lia|done].
Qed.

Lemma node_shape d t : t <> E -> exists l p b r, t = node_of d l p b r.
Proof. destruct t as [|l p b r]; [done|]. intros _. destruct d; [exists l, p, b, r|exists r, p, b, l]; done. Qed.
End rotations.
