(* ===== verification/AvlBalance.v ===== *)
(** The way back to the root after an insertion or a removal
    (src/libcommon/avl.c): [_post_insert] and [_avl_post_remove] end, keep the
    nodes in order and make the tree balanced again. *)

From Stdlib Require Import ZArith Lia.
From stdpp Require Import base list numbers option gmap sets.
From S2P Require Import Prelude AvlSpec Avl AvlTree.

Local Open Scope Z_scope.
Local Open Scope avl_scope.

(** The nodes of two shapes of the same subtrees. *)
Ltac shapes d := destruct d; simpl; app_norm.

Section rebalance.
Context {K : Type}.
Implicit Types (s : avl_state K).

(** From [s], which holds a tree with the nodes of [t], to [sf] with a balanced
    tree of the same nodes. *)
Definition rebuilt s (t : shape) (sf : avl_state K) : Prop :=
  exists t' h', holds sf t' /\ balanced t' h' /\ nodes t' = nodes t /\ kept s sf (nodes t).

Lemma rebuilt_after s s1 t t1 sf : kept s s1 (nodes t) -> nodes t1 = nodes t -> rebuilt s1 t1 sf -> rebuilt s t sf.
Proof.
  intros Hk E (t' & h' & Ht & Hb & En & Hk'). exists t', h'. rewrite E in *.
  split; [done|split; [done|split; [done|]]]. eapply kept_trans; [exact Hk|exact Hk'|done].
Qed.

Lemma nodes_plug_ext c t t' : nodes t = nodes t' -> nodes (plug c t) = nodes (plug c t').
Proof. intros E. by rewrite !nodes_plug, E. Qed.

Lemma nodes_plug_sub c t t' : nodes t = nodes t' -> nodes (plug c t) ⊆ nodes (plug c t').
Proof. intros E. by rewrite (nodes_plug_ext c t t'). Qed.

(** The first half of a double rotation around [q]: its child [x] is turned the
    other way first. *)
Lemma rotate_child_wp s d c a x bx b1 y by_ b2 q bq far (Q : unit -> avl_state K -> Prop) :
  holds s (plug c (node_of d (node_of d a x bx (node_of d b1 y by_ b2)) q bq far)) ->
  (forall s1, holds s1 (plug c (node_of d (node_of d (node_of d a x (low (opp d) by_ bx) b1) y (high (opp d) by_ bx) b2) q bq far)) ->
     kept s s1 (nodes (plug c (node_of d (node_of d a x bx (node_of d b1 y by_ b2)) q bq far))) -> Q tt s1) ->
  wp (rotate (opp d) x) s Q.
Proof.
  set (t := plug c _). intros Hs HQ.
  assert (t = plug (frame_of d q bq far :: c) (node_of (opp d) (node_of (opp d) b2 y by_ b1) x bx a)) as Et.
  { by rewrite plug_frame_of, !node_of_opp. }
  rewrite Et in Hs. eapply rotate_wp; [exact Hs|]. intros s1 H1 Hk1. rewrite <- Et in Hk1.
  rewrite plug_frame_of, !node_of_opp in H1. by apply HQ.
Qed.

(** ** Insertion *)

(** One level of [_post_insert], for a [node] on side [d]. *)
Definition grow (d : side) (up : ptr -> avl_M K unit) (n : avl_node K) (node parent_ : ptr) (p : avl_node K) : avl_M K unit :=
  set_balance parent_ (inc (opp d) (balance p)) ;;;
  p <~ load parent_ ;;
  if balance p =? 0 then ret tt
  else if balance p =? - sg d then up parent_
  else if balance n =? - sg d then rotate d parent_
  else rotate (opp d) node ;;; g <~ grandparent node ;; rotate d g.

Lemma post_insert_S fuel node : _post_insert (K := K) (S fuel) node =
  (n <~ load node ;;
   match parent n with
   | None => ret tt
   | Some parent_ =>
       p <~ load parent_ ;;
       if bool_decide (left p = Some node) then grow L (_post_insert fuel) n node parent_ p
       else grow R (_post_insert fuel) n node parent_ p
   end).
Proof. done. Qed.

Lemma inc_opp d b : inc (opp d) b = b - sg d.
Proof. destruct d; simpl; lia. Qed.
Lemma inc_sg d b : inc d b = b + sg d.
Proof. destruct d; simpl; lia. Qed.
Lemma sg_cases d : sg d = 1 \/ sg d = -1.
Proof. destruct d; auto. Qed.

Lemma nodes_rot c d a x bx b y by_ r bx' by' :
  nodes (plug c (node_of d a x bx' (node_of d b y by' r))) = nodes (plug c (node_of d (node_of d a x bx b) y by_ r)).
Proof. apply nodes_plug_ext, nodes_rotate. Qed.

Lemma dnode s d c l p b r : holds s (plug c (node_of d l p b r)) ->
  exists n, mem s !! p = Some n /\ parent n = above c /\ child d n = root_of l /\ child (opp d) n = root_of r /\ balance n = b.
Proof. intros H. destruct d; apply holds_node in H as (n & ? & ? & ? & ? & ?); exists n; done. Qed.

Lemma dbalance s d c l p b r n b' : holds s (plug c (node_of d l p b r)) -> mem s !! p = Some n ->
  holds (upd s p (with_balance b' n)) (plug c (node_of d l p b' r)).
Proof. destruct d; apply holds_balance. Qed.

Lemma above_frame_of d p b far c : above (frame_of d p b far :: c) = Some p.
Proof. by destruct d. Qed.

Lemma mk_balanced d l p b r hl hr h : balanced l hl -> balanced r hr -> b = sg d * (hr - hl) -> -1 <= b <= 1 ->
  h = 1 + Z.max hl hr -> balanced (node_of d l p b r) h.
Proof. intros. apply balanced_node_of. by exists hl, hr. Qed.

Lemma p_in_plug d c l p b r : p ∈ nodes (plug c (node_of d l p b r)).
Proof. rewrite nodes_plug, nodes_node_of, !elem_of_app, elem_of_cons. tauto. Qed.

Lemma nodes_balance d c l p b b' r : nodes (plug c (node_of d l p b r)) = nodes (plug c (node_of d l p b' r)).
Proof. apply nodes_plug_ext. by destruct d. Qed.

Lemma swrap8_small z : -128 <= z < 128 -> swrap 8 z = z.
Proof.
  intros Hz. unfold swrap, wrap. change (2 ^ 8) with 256. change (2 ^ (8 - 1)) with 128.
  destruct (Z.lt_ge_cases z 0).
  - replace (z mod 256) with (z + 256) by (rewrite <- (Z.mod_small (z + 256) 256) by lia;
      rewrite <- Z.add_mod_idemp_r by lia; by rewrite Z.mod_same, Z.add_0_r by lia).
    destruct (Z.ltb_spec (z + 256) 128); lia.
  - rewrite Z.mod_small by lia. destruct (Z.ltb_spec z 128); lia.
Qed.

(** The balances after a rotation. *)
Lemma single_balance d : high d (- sg d) (-2 * sg d) = 0 /\ low d (- sg d) (-2 * sg d) = 0.
Proof. by destruct d. Qed.

Lemma double_balance d by_ h1 h2 : by_ = sg d * (h2 - h1) -> -1 <= by_ <= 1 ->
  low (opp d) by_ (sg d) = sg d * (h1 - Z.max h1 h2) /\
  high d (high (opp d) by_ (sg d)) (-2 * sg d) = 0 /\
  low d (high (opp d) by_ (sg d)) (-2 * sg d) = sg d * (Z.max h1 h2 - h2).
Proof.
  intros E Hb. assert (by_ = -1 \/ by_ = 0 \/ by_ = 1) as [-> | [-> | ->]] by lia; destruct d; cbn [sg] in *;
    (split; [|split]); vm_compute (low _ _ _); vm_compute (high _ _ _); lia.
Qed.

(** The second half of a double rotation. *)
Lemma double_wp s d c a x b1 y by_ b2 q far h (Q : unit -> avl_state K -> Prop) :
  let t := plug c (node_of d (node_of d (node_of d a x (low (opp d) by_ (sg d)) b1) y (high (opp d) by_ (sg d)) b2)
                     q (-2 * sg d) far) in
  holds s t -> balanced a h -> balanced (node_of d b1 y by_ b2) (h + 1) -> balanced far h ->
  (forall sf t' nq, holds sf (plug c t') -> root_of t' = Some y -> balanced t' (h + 2) ->
     nodes (plug c t') = nodes t -> kept s sf (nodes t) -> mem sf !! q = Some nq -> parent nq = Some y -> Q tt sf) ->
  wp (rotate d q) s Q.
Proof.
  intros t Hs Ha Hb Hf HQ. apply balanced_node_of in Hb as (h1 & h2 & H1 & H2 & Eb & Hb & Eh).
  destruct (double_balance d by_ h1 h2 Eb Hb) as (E1 & E2 & E3).
  eapply rotate_wp; [exact Hs|]. intros sf Hsf Hk. rewrite E1, E2, E3 in Hsf.
  pose proof (sg_cases d) as Hsg. assert (Z.max h1 h2 = h) as Em by lia. rewrite Em in Hsf.
  destruct (dnode sf d (frame_of (opp d) y 0 (node_of d a x (sg d * (h1 - h)) b1) :: c) b2 q (sg d * (h - h2)) far) as (nq & Hq & Eq & _).
  { by rewrite plug_frame_of, node_of_opp. }
  rewrite above_frame_of in Eq.
  eapply HQ; [exact Hsf|apply root_of_node| |apply nodes_plug_ext; by shapes d|exact Hk|exact Hq|exact Eq].
  eapply (mk_balanced d _ y 0 _ (h + 1) (h + 1)); [| |lia..].
  - eapply (mk_balanced d a x _ b1 h h1); [done..|lia| |lia]. destruct Hsg as [E|E]; rewrite E in *; lia.
  - eapply (mk_balanced d b2 q _ far h2 h); [done..|lia| |lia]. destruct Hsg as [E|E]; rewrite E in *; lia.
Qed.

(** The subtree of [node] has become higher, from [h] to [h + 1]. *)
Lemma grow_wp s d c q bq far l p b r h up n p0 (Q : unit -> avl_state K -> Prop) :
  let t := plug c (node_of d (node_of d l p b r) q bq far) in
  holds s t -> balanced (node_of d l p b r) (h + 1) -> b <> 0 -> balanced_ctx (frame_of d q bq far :: c) h ->
  mem s !! p = Some n -> mem s !! q = Some p0 ->
  (forall s1 b' h', let t1 := plug c (node_of d (node_of d l p b r) q b' far) in
     holds s1 t1 -> balanced (node_of d (node_of d l p b r) q b' far) (h' + 1) -> b' <> 0 -> balanced_ctx c h' ->
     kept s s1 (nodes t) -> wp (up q) s1 Q) ->
  (forall sf, rebuilt s t sf -> Q tt sf) ->
  wp (grow d up n p q p0) s Q.
Proof.
  intros t Hs Hb Hb0 Hc Hp Hq Hup HQ. unfold grow.
  destruct (dnode s d c _ q bq far Hs) as (n1 & Hn1 & _ & _ & _ & E4). rewrite Hq in Hn1. injection Hn1 as <-.
  apply balanced_ctx_frame_of in Hc as (hf & Hf & Ebq & Hbq & Hc).
  pose proof (sg_cases d) as Hsg.
  assert (swrap 8 (inc (opp d) bq) = bq - sg d) as Ew by (rewrite inc_opp; apply swrap8_small; lia).
  wp_step. wp_step. rewrite E4, Ew. set (s1 := upd s q (with_balance (bq - sg d) p0)).
  assert (holds s1 (plug c (node_of d (node_of d l p b r) q (bq - sg d) far))) as H1 by (by eapply dbalance).
  assert (kept s s1 (nodes t)) as Hk1 by (eapply kept_upd; [exact Hq|apply p_in_plug|done..]).
  do 2 wp_step.
  assert (balance n = b) as En.
  { assert (t = plug (frame_of d q bq far :: c) (node_of d l p b r)) as Et by (by rewrite plug_frame_of).
    rewrite Et in Hs. destruct (dnode s d _ _ p b r Hs) as (n1 & Hn1 & _ & _ & _ & <-). congruence. }
  rewrite En. clear Hs Hq Hp E4 Ew En.
  destruct (Z.eqb_spec (bq - sg d) 0) as [E0|E0].
  { wp_step. apply HQ. rewrite E0 in H1.
    destruct (balanced_plug c (node_of d (node_of d l p b r) q 0 far) (1 + Z.max h hf)) as [h' Hh']; [done| |].
    { eapply mk_balanced; [exact Hb|exact Hf|lia..]. }
    exists (plug c (node_of d (node_of d l p b r) q 0 far)), h'.
    split; [done|split; [done|split; [apply nodes_balance|done]]]. }
  destruct (Z.eqb_spec (bq - sg d) (- sg d)) as [E1|E1].
  { eapply (Hup s1 _ (h + 1)); [exact H1| |lia| |done].
    - eapply mk_balanced; [exact Hb|exact Hf|lia..].
    - replace (h + 1) with (1 + Z.max h hf) by lia. done. }
  assert (bq - sg d = -2 * sg d) as EB by lia. rewrite EB in H1. assert (hf = h - 1) as -> by lia.
  pose proof (balanced_height _ _ Hf). apply balanced_node_of in Hb as (hl & hr & Hl & Hr & Eb & Hb & Eh).
  destruct (Z.eqb_spec b (- sg d)) as [E2|E2].
  { assert (hl = h /\ hr = h - 1) as [-> ->] by lia. clear Eb. subst b. eapply rotate_wp; [exact H1|]. intros sf Hsf Hksf. destruct (single_balance d) as [Ea Eb']. rewrite Ea, Eb' in Hsf. apply HQ.
    assert (exists h', balanced (plug c (node_of d l p 0 (node_of d r q 0 far))) h') as [h' Hh'].
    { eapply balanced_plug; [exact Hc|]. eapply mk_balanced; [exact Hl|eapply (mk_balanced d r q 0 far _ _ h); [exact Hr|exact Hf|lia..]|lia..]. }
    eexists _, h'. split; [exact Hsf|split; [done|split; [apply nodes_rot|]]].
    eapply kept_trans; [exact Hk1|exact Hksf|]. unfold t. by rewrite (nodes_balance d c _ q _ bq). }
  assert (b = sg d /\ hl = h - 1 /\ hr = h) as (-> & -> & ->).
  { clear - Hsg Eb Hb Hb0 E2 Eh. destruct Hsg as [E|E]; rewrite E in *; lia. }
  clear Eb E2.
  destruct (node_shape d r) as (b1 & y & by_ & b2 & ->); [intros ->; inversion Hr; lia|].
  eapply wp_bind, rotate_child_wp; [exact H1|]. intros s2 H2 Hk2.
  destruct (dnode s2 d (frame_of d y (high (opp d) by_ (sg d)) b2 :: frame_of d q (-2 * sg d) far :: c) l p
              (low (opp d) by_ (sg d)) b1) as (n2 & Hn2 & E1' & _); [by rewrite !plug_frame_of|].
  destruct (dnode s2 d (frame_of d q (-2 * sg d) far :: c) (node_of d l p (low (opp d) by_ (sg d)) b1) y
              (high (opp d) by_ (sg d)) b2) as (n3 & Hn3 & E2' & _); [by rewrite plug_frame_of|].
  rewrite !above_frame_of in *. unfold grandparent. do 3 wp_step. rewrite E1'. do 4 wp_step. rewrite E2'. wp_step.
  eapply double_wp; [exact H2|exact Hl|by replace (h - 1 + 1) with h by lia|exact Hf|].
  intros sf t' _ Hsf _ Ht' En Hkf _ _. apply HQ.
  destruct (balanced_plug c t' (h - 1 + 2)) as [h' Hh']; [by replace (h - 1 + 2) with (1 + Z.max h (h - 1)) by lia|done|].
  assert (nodes (plug c t') = nodes t) as Et.
  { rewrite En. apply nodes_plug_ext. by shapes d. }
  eexists _, h'. split; [exact Hsf|split; [done|split; [done|]]].
  eapply kept_trans; [exact Hk1|eapply kept_trans; [exact Hk2|exact Hkf|]|]; apply nodes_plug_sub; by shapes d.
Qed.

Lemma near_not_far c d t q b far z : NoDup (nodes (plug c (node_of d t q b far))) -> z ∈ nodes t -> z ∉ nodes far.
Proof.
  intros H Hz. destruct (nodup_split _ (nodes far) (nodes t ++ q :: pre c ++ post c) H) as [_ Ho].
  - rewrite nodes_plug, nodes_node_of. solve_Permutation.
  - apply Ho. rewrite elem_of_app. tauto.
Qed.

(** The walk ends at the root, with fuel for every node above. *)
Lemma post_insert_wp c fuel s l p b r h (Q : unit -> avl_state K -> Prop) :
  let t := plug c (T l p b r) in
  holds s t -> balanced (T l p b r) (h + 1) -> b <> 0 -> balanced_ctx c h -> (length c < fuel)%nat ->
  (forall sf, rebuilt s t sf -> Q tt sf) -> wp (_post_insert fuel p) s Q.
Proof.
  revert fuel s l p b r h Q. induction c as [|f c IH]; intros fuel s l p b r h Q t Hs Hb Hb0 Hc Hf HQ.
  all: destruct fuel as [|fuel]; [simpl in Hf; lia|]; rewrite post_insert_S.
  all: destruct (holds_node s _ l p b r Hs) as (n & Hn & E1 & _).
  { do 2 wp_step. rewrite E1. simpl. apply wp_ret, HQ. exists t, (h + 1).
    split; [done|split; [done|split; [done|apply kept_refl]]]. }
  destruct (frame_cases f) as (d & q & bq & far & ->). rewrite above_frame_of in E1.
  do 2 wp_step. rewrite E1.
  assert (t = plug c (node_of d (T l p b r) q bq far)) as Et by apply plug_frame_of. rewrite Et in Hs.
  destruct (dnode s d c _ q bq far Hs) as (n1 & Hn1 & _ & E2 & E3 & _). do 2 wp_step.
  assert (exists l' r', T l p b r = node_of d l' p b r') as (l' & r' & ET) by (destruct d; by eexists _, _).
  assert (wp (grow d (_post_insert fuel) n p q n1) s Q) as Hg.
  { rewrite ET in *. eapply (grow_wp s d c q bq far l' p b r' h); [done..| |by rewrite <- Et].
    intros s1 b' h' t1 H1 Hb1 Hb' Hc' Hk. unfold t1 in H1.
    assert (exists l1 r1, node_of d (node_of d l' p b r') q b' far = T l1 q b' r1) as (l1 & r1 & E1') by (destruct d; by eexists _, _).
    rewrite E1' in *. eapply (IH fuel s1 l1 q b' r1 h'); [done..|simpl in Hf; lia|].
    intros sf Hsf. apply HQ. eapply rebuilt_after; [by rewrite Et; exact Hk| |exact Hsf].
    rewrite Et, <- E1'. apply nodes_balance. }
  assert (p ∉ nodes far) as Hpf.
  { destruct Hs as (_ & _ & Hnd). eapply near_not_far; [exact Hnd|]. simpl. rewrite elem_of_app, elem_of_cons. tauto. }
  destruct d; cbn [child opp root_of] in E2, E3.
  - by rewrite bool_decide_true.
  - rewrite bool_decide_false; [done|]. rewrite E3. by apply root_not_in.
Qed.
(** ** Removal *)

(** The blocks of [_avl_post_remove] for both sides. *)
Definition too_low (d : side) (up : ptr -> avl_M K unit) (parent_ : ptr) : avl_M K unit :=
  p <~ load parent_ ;;
  r <~ deref (child (opp d) p) ;;
  rn <~ load r ;;
  if balance rn =? 0 then rotate (opp d) parent_
  else if balance rn =? sg d then
    rotate (opp d) parent_ ;;;
    p <~ load parent_ ;; g <~ deref (parent p) ;; up g
  else
    rotate d r ;;;
    rotate (opp d) parent_ ;;;
    p <~ load parent_ ;; g <~ deref (parent p) ;; up g.

Definition shrink (d : side) (up : ptr -> avl_M K unit) (parent_ : ptr) (p : avl_node K) : avl_M K unit :=
  set_balance parent_ (inc d (balance p)) ;;;
  p <~ load parent_ ;;
  if balance p =? 0 then up parent_
  else if balance p =? sg d then ret tt
  else too_low d up parent_.

Lemma left_too_low_eq up q : _avl_left_too_low (K := K) up q = too_low L up q.
Proof. done. Qed.
Lemma right_too_low_eq up q : _avl_right_too_low (K := K) up q = too_low R up q.
Proof. done. Qed.

Lemma post_remove_S fuel node : _avl_post_remove (K := K) (S fuel) node =
  (n <~ load node ;;
   match parent n with
   | None => ret tt
   | Some parent_ =>
       p <~ load parent_ ;;
       if bool_decide (left p = Some node) then shrink L (_avl_post_remove fuel) parent_ p
       else shrink R (_avl_post_remove fuel) parent_ p
   end).
Proof. done. Qed.

Lemma even_balance d : high d 0 (-2 * sg d) = sg d /\ low d 0 (-2 * sg d) = - sg d.
Proof. by destruct d. Qed.

Lemma sg_opp d : sg (opp d) = - sg d.
Proof. by destruct d. Qed.

(** Side [d] of [q] has height [h], the other one [h + 2]. *)
Lemma too_low_wp s d c t q far h up (Q : unit -> avl_state K -> Prop) :
  let t0 := plug c (node_of d t q (2 * sg d) far) in
  holds s t0 -> balanced t h -> balanced far (h + 2) -> balanced_ctx c (h + 3) ->
  (forall s1 t1 g, holds s1 (plug c t1) -> root_of t1 = Some g -> balanced t1 (h + 2) ->
     nodes (plug c t1) = nodes t0 -> kept s s1 (nodes t0) -> wp (up g) s1 Q) ->
  (forall sf, rebuilt s t0 sf -> Q tt sf) ->
  wp (too_low d up q) s Q.
Proof.
  intros t0 Hs Ht Hf Hc Hup HQ. unfold too_low. set (e := opp d) in *.
  pose proof (balanced_height _ _ Ht) as Hh. pose proof (sg_cases e) as Hsg.
  assert (sg d = - sg e /\ d = opp e) as [Esg Ed] by (unfold e; by destruct d).
  destruct (node_shape e far) as (a & x & bx & b & ->); [intros ->; inversion Hf; lia|].
  assert (t0 = plug c (node_of e (node_of e a x bx b) q (-2 * sg e) t)) as Et.
  { unfold t0. rewrite Ed, node_of_opp. do 2 f_equal. rewrite sg_opp. lia. }
  destruct (dnode s d c _ q _ _ Hs) as (n & Hn & _ & _ & E2 & _). rewrite root_of_node in E2.
  destruct (dnode s e (frame_of e q (-2 * sg e) t :: c) a x bx b) as (nx & Hnx & _ & _ & _ & E3).
  { by rewrite plug_frame_of, <- Et. }
  do 2 wp_step. fold e in E2. rewrite E2. do 4 wp_step. rewrite E3. clear E3.
  apply balanced_node_of in Hf as (ha & hb & Ha & Hb & Eb & Hb1 & Eh).
  rewrite Et in Hs. 
  destruct (Z.eqb_spec bx 0) as [E0|E0].
  { assert (ha = h + 1 /\ hb = h + 1) as [-> ->] by (destruct Hsg as [E|E]; rewrite E in *; lia). clear Eb. subst bx.
    eapply rotate_wp; [exact Hs|]. intros sf Hsf Hk. destruct (even_balance e) as [Ea Eb']. rewrite Ea, Eb' in Hsf.
    apply HQ. edestruct (balanced_plug c) as [h' Hh']; [exact Hc| |eexists _, h'; split; [exact Hsf|split; [exact Hh'|split]]].
    - eapply mk_balanced; [exact Ha|eapply (mk_balanced e b q _ t _ _ (h + 2)); [exact Hb|exact Ht|lia..]|lia..].
    - rewrite Et. apply nodes_rot.
    - by rewrite Et. }
  destruct (Z.eqb_spec bx (sg d)) as [E1|E1].
  { assert (bx = - sg e /\ ha = h + 1 /\ hb = h) as (-> & -> & ->) by (destruct Hsg as [E|E]; rewrite E in *; lia).
    eapply wp_bind, rotate_wp; [exact Hs|]. intros sf Hsf Hk. destruct (single_balance e) as [Ea Eb']. rewrite Ea, Eb' in Hsf.
    destruct (dnode sf e (frame_of (opp e) x 0 a :: c) b q 0 t) as (nq & Hnq & Eq & _).
    { by rewrite plug_frame_of, node_of_opp. }
    rewrite above_frame_of in Eq. do 2 wp_step. rewrite Eq. do 2 wp_step.
    eapply Hup; [exact Hsf|apply root_of_node| |rewrite Et; apply nodes_rot|by rewrite Et].
    eapply mk_balanced; [exact Ha|eapply (mk_balanced e b q _ t _ _ (h + 1)); [exact Hb|exact Ht|lia..]|lia..]. }
  assert (bx = sg e /\ ha = h /\ hb = h + 1) as (-> & -> & ->) by (destruct Hsg as [E|E]; rewrite E in *; lia).
  destruct (node_shape e b) as (b1 & y & by_ & b2 & ->); [intros ->; inversion Hb; lia|].
  rewrite Ed. eapply wp_bind, rotate_child_wp; [exact Hs|]. intros s1 H1 Hk1.
  eapply wp_bind, double_wp; [exact H1|done..|]. intros sf t' nq Hsf Hr Ht' En Hk2 Hnq Eq.
  do 2 wp_step. rewrite Eq. do 2 wp_step. rewrite <- Ed in *.
  assert (nodes (plug c t') = nodes t0) as En'.
  { rewrite En, Et. apply nodes_plug_ext. by shapes e. }
  eapply Hup; [exact Hsf|exact Hr|exact Ht'|exact En'|].
  eapply kept_trans; [rewrite Et; exact Hk1|exact Hk2|]. rewrite <- En, En'. done.
Qed.
(** After side [d] of [q] has become lower, from [h + 1] to [h]. *)
Lemma shrunk_wp s d c t q far b hf h up (Q : unit -> avl_state K -> Prop) :
  let t0 := plug c (node_of d t q b far) in
  holds s t0 -> balanced t h -> balanced far hf -> b = sg d * (hf - h) -> h <= hf <= h + 2 ->
  balanced_ctx c (1 + Z.max (h + 1) hf) ->
  (forall s1 t1 g h1, holds s1 (plug c t1) -> root_of t1 = Some g -> balanced t1 h1 -> balanced_ctx c (h1 + 1) ->
     nodes (plug c t1) = nodes t0 -> kept s s1 (nodes t0) -> wp (up g) s1 Q) ->
  (forall sf, rebuilt s t0 sf -> Q tt sf) ->
  wp (if b =? 0 then up q else if b =? sg d then ret tt else too_low d up q) s Q.
Proof.
  intros t0 Hs Ht Hf Eb Hh Hc Hup HQ. pose proof (sg_cases d) as Hsg.
  destruct (Z.eqb_spec b 0) as [E0|E0].
  { assert (hf = h) as -> by (destruct Hsg as [E|E]; rewrite E in *; lia).
    eapply (Hup s _ q (1 + h)); [exact Hs|apply root_of_node| | |done|apply kept_refl].
    - eapply mk_balanced; [exact Ht|exact Hf|lia..].
    - by replace (1 + h + 1) with (1 + Z.max (h + 1) h) by lia. }
  destruct (Z.eqb_spec b (sg d)) as [E1|E1].
  { assert (hf = h + 1) as -> by (destruct Hsg as [E|E]; rewrite E in *; lia).
    wp_step. apply HQ. edestruct (balanced_plug c) as [h' Hh']; [exact Hc| |exists t0, h'].
    - eapply mk_balanced; [exact Ht|exact Hf|exact Eb|lia..].
    - split; [done|split; [done|split; [done|apply kept_refl]]]. }
  assert (hf = h + 2 /\ b = 2 * sg d) as [-> ->] by (destruct Hsg as [E|E]; rewrite E in *; lia).
  eapply too_low_wp; [exact Hs|exact Ht|exact Hf| | |exact HQ].
  - by replace (h + 3) with (1 + Z.max (h + 1) (h + 2)) by lia.
  - intros s1 t1 g H1 Hg Hb1. apply (Hup s1 t1 g (h + 2)); [done|done|done|].
    by replace (h + 2 + 1) with (1 + Z.max (h + 1) (h + 2)) by lia.
Qed.

Lemma set_balance_wp s d c t q b far n b' k (Q : unit -> avl_state K -> Prop) :
  holds s (plug c (node_of d t q b far)) -> mem s !! q = Some n -> -128 <= b' < 128 ->
  (forall s1 n1, holds s1 (plug c (node_of d t q b' far)) -> mem s1 !! q = Some n1 -> balance n1 = b' ->
     kept s s1 (nodes (plug c (node_of d t q b far))) -> wp (k n1) s1 Q) ->
  wp (set_balance q b' ;;; p <~ load q ;; k p) s Q.
Proof.
  intros Hs Hn Hb Hk. wp_step. wp_step. rewrite (swrap8_small b') by done. do 2 wp_step. apply Hk.
  - by eapply dbalance.
  - lk.
  - done.
  - eapply kept_upd; [exact Hn|apply p_in_plug|done..].
Qed.

(** The walk of [_avl_post_remove] ends at the root, too. *)
Lemma post_remove_wp c fuel s t p h (Q : unit -> avl_state K -> Prop) :
  holds s (plug c t) -> root_of t = Some p -> balanced t h -> balanced_ctx c (h + 1) -> (length c < fuel)%nat ->
  (forall sf, rebuilt s (plug c t) sf -> Q tt sf) -> wp (_avl_post_remove fuel p) s Q.
Proof.
  revert fuel s t p h Q. induction c as [|f c IH]; intros fuel s t p h Q Hs Hp Hb Hc Hf HQ.
  all: destruct fuel as [|fuel]; [simpl in Hf; lia|]; rewrite post_remove_S.
  all: destruct t as [|l p' b r]; [done|]; injection Hp as ->.
  all: destruct (holds_node s _ l p b r Hs) as (n & Hn & E1 & _).
  { do 2 wp_step. rewrite E1. simpl. apply wp_ret, HQ. exists (T l p b r), h.
    split; [done|split; [done|split; [done|apply kept_refl]]]. }
  destruct (frame_cases f) as (d & q & bq & far & ->). rewrite above_frame_of in E1.
  do 2 wp_step. rewrite E1. rewrite plug_frame_of in Hs, HQ.
  destruct (dnode s d c _ q bq far Hs) as (nq & Hnq & _ & E2 & E3 & E4). do 2 wp_step.
  apply balanced_ctx_frame_of in Hc as (hf & Hfar & Ebq & Hbq & Hc). pose proof (sg_cases d) as Hsg.
  assert (wp (shrink d (_avl_post_remove fuel) q nq) s Q) as Hg.
  { unfold shrink. rewrite E4, inc_sg. eapply set_balance_wp; [exact Hs|exact Hnq|lia|]. intros s1 n1 H1 Hn1 En1 Hk1. rewrite En1.
    eapply shrunk_wp; [exact H1|exact Hb|exact Hfar|lia| |exact Hc| |].
    - destruct Hsg as [E|E]; rewrite E in *; lia.
    - intros s2 t2 g h2 H2 Hg Hb2 Hc2 En2 Hk2. eapply IH; [exact H2|exact Hg|exact Hb2|exact Hc2|simpl in Hf; lia|].
      intros sf Hsf. apply HQ. eapply rebuilt_after; [exact Hk1|apply nodes_balance|].
      eapply rebuilt_after; [exact Hk2|exact En2|exact Hsf].
    - intros sf Hsf. apply HQ. eapply rebuilt_after; [exact Hk1|apply nodes_balance|exact Hsf]. }
  destruct d; cbn [child opp root_of] in E2, E3.
  - by rewrite bool_decide_true.
  - rewrite bool_decide_false; [done|]. rewrite E3. apply root_not_in.
    destruct Hs as (_ & _ & Hnd). eapply near_not_far; [exact Hnd|]. simpl. rewrite elem_of_app, elem_of_cons. tauto.
Qed.
End rebalance.
