(* ===== verification/AvlList.v ===== *)
(** The list through the nodes of a tree (src/libcommon/list.h as used by
    src/libcommon/avl.c): a ring of [next] and [prev] pointers, and what adding
    and removing a node does to it. *)

From Stdlib Require Import ZArith Lia.
From stdpp Require Import base list numbers option gmap sets.
From S2P Require Import Prelude AvlSpec Avl AvlTree.

Local Open Scope Z_scope.
Local Open Scope avl_scope.

(** * Rings *)

(** [es] follows [a]. *)
Fixpoint linked (nx pv : entity -> option entity) (a : entity) (es : list entity) : Prop :=
  match es with [] => True | b :: es' => nx a = Some b /\ pv b = Some a /\ linked nx pv b es' end.

(** All members of [a :: es] but the last one. *)
Fixpoint sources (a : entity) (es : list entity) : list entity :=
  match es with [] => [] | b :: es' => a :: sources b es' end.

Lemma list_last_cons {A} (b : A) es a : List.last (b :: es) a = List.last es b.
Proof.
  destruct es as [|c es]; [done|]. revert b c. induction es as [|d es IH]; intros b c; [done|].
  change (List.last (d :: es) a = List.last (d :: es) b). destruct es as [|e es]; [done|]. exact (IH b d).
Qed.

Lemma linked_app nx pv a es1 es2 :
  linked nx pv a (es1 ++ es2) <-> linked nx pv a es1 /\ linked nx pv (List.last es1 a) es2.
Proof.
  revert a. induction es1 as [|b es1 IH]; intros a; [simpl; tauto|]. cbn [linked app]. rewrite IH, list_last_cons. tauto.
Qed.

Lemma linked_ext nx pv nx' pv' a es : linked nx pv a es ->
  (forall x, x ∈ sources a es -> nx' x = nx x) -> (forall x, x ∈ es -> pv' x = pv x) -> linked nx' pv' a es.
Proof.
  revert a. induction es as [|b es IH]; intros a; [done|]. intros (H1 & H2 & H3) Hn Hp. split; [|split].
  - rewrite Hn; [done|left].
  - rewrite Hp; [done|left].
  - apply IH; [done|intros x Hx; apply Hn; by right|intros x Hx; apply Hp; by right].
Qed.

Lemma sources_snoc a es b : sources a (es ++ [b]) = a :: es.
Proof. revert a. induction es as [|c es IH]; intros a; simpl; [done|]. by rewrite IH. Qed.

Lemma sources_in a es x : x ∈ sources a es -> x ∈ a :: es.
Proof. revert a. induction es as [|b es IH]; intros a; simpl; [by intros ?%elem_of_nil|]. rewrite elem_of_cons. intros [->|H%IH]; [left|by right]. Qed.

(** The last member is no source when there is no other one like it. *)
Lemma sources_last a es x : NoDup (a :: es) -> x ∈ sources a es -> x <> List.last es a.
Proof.
  revert a. induction es as [|b es IH]; intros a Hnd; [by intros ?%elem_of_nil|]. cbn [sources].
  apply NoDup_cons in Hnd as [Ha Hnd]. rewrite list_last_cons, elem_of_cons. intros [->|Hx]; [|by apply IH].
  intros ->. apply Ha. clear. revert b. induction es as [|c es IH]; intros b; [left|]. rewrite list_last_cons. right. apply IH.
Qed.

Lemma list_last_in {A} (es : list A) a : List.last es a ∈ a :: es.
Proof. revert a. induction es as [|c es IH]; intros a; [left|]. rewrite list_last_cons. right. apply IH. Qed.

(** The ring of the head and the nodes [xs]. *)
Definition ring (nx pv : entity -> option entity) (xs : list ptr) : Prop :=
  linked nx pv Head (map Entity xs ++ [Head]).

(** The neighbors of the gap between [xs1] and [xs2]. *)
Definition before (xs1 : list ptr) : entity := List.last (map Entity xs1) Head.
Definition after (xs2 : list ptr) : entity := match xs2 with [] => Head | p :: _ => Entity p end.

Lemma after_eq xs2 : map Entity xs2 ++ [Head] = after xs2 :: match xs2 with [] => [] | _ :: xs => map Entity xs ++ [Head] end.
Proof. by destruct xs2. Qed.

Lemma before_in xs1 : before xs1 = Head \/ exists p, before xs1 = Entity p /\ p ∈ xs1.
Proof.
  unfold before. pose proof (list_last_in (map Entity xs1) Head) as H. rewrite elem_of_cons in H.
  destruct H as [->|H]; [by left|right]. apply list_elem_of_fmap in H as (p & -> & Hp). by exists p.
Qed.

Lemma ring_gap nx pv xs1 xs2 : ring nx pv (xs1 ++ xs2) <->
  linked nx pv Head (map Entity xs1) /\ nx (before xs1) = Some (after xs2) /\ pv (after xs2) = Some (before xs1) /\
  linked nx pv (after xs2) (match xs2 with [] => [] | _ :: xs => map Entity xs ++ [Head] end).
Proof.
  unfold ring. rewrite map_app, <- app_assoc, linked_app. fold (before xs1). rewrite (after_eq xs2). cbn [linked]. tauto.
Qed.

Lemma entity_in (p : ptr) xs : Entity p ∈ map Entity xs <-> p ∈ xs.
Proof. rewrite list_elem_of_fmap. split; [by intros (q & [= ->] & ?)|]. intros. by exists p. Qed.

Lemma head_not_in xs : Head ∉ map Entity xs.
Proof. rewrite list_elem_of_fmap. by intros (q & ? & _). Qed.

(** The two parts of a ring around a gap do not change when only the links
    across the gap do. *)
Lemma gap_ext nx pv nx' pv' xs1 xs2 : NoDup (xs1 ++ xs2) ->
  (forall x, x <> before xs1 -> (x = Head \/ exists p, x = Entity p /\ p ∈ xs1 ++ xs2) -> nx' x = nx x) ->
  (forall x, x <> after xs2 -> (x = Head \/ exists p, x = Entity p /\ p ∈ xs1 ++ xs2) -> pv' x = pv x) ->
  linked nx pv Head (map Entity xs1) ->
  linked nx pv (after xs2) (match xs2 with [] => [] | _ :: xs => map Entity xs ++ [Head] end) ->
  linked nx' pv' Head (map Entity xs1) /\
  linked nx' pv' (after xs2) (match xs2 with [] => [] | _ :: xs => map Entity xs ++ [Head] end).
Proof.
  intros Hnd Hn Hp H1 H2. apply NoDup_app in Hnd as (Hnd1 & Hdis & Hnd2). split.
  - eapply linked_ext; [exact H1|intros x Hx; apply Hn|intros x Hx; apply Hp].
    + apply sources_last; [|done]. apply NoDup_cons. split; [apply head_not_in|]. apply NoDup_fmap; [|done]. by intros ? ? [=].
    + apply sources_in in Hx. rewrite elem_of_cons in Hx. destruct Hx as [->|Hx]; [by left|right].
      apply list_elem_of_fmap in Hx as (p & -> & Hp'). exists p. rewrite elem_of_app. tauto.
    + apply list_elem_of_fmap in Hx as (p & -> & Hp'). destruct xs2 as [|q xs2]; simpl; [done|]. intros [= ->].
      apply (Hdis q); [done|left].
    + apply list_elem_of_fmap in Hx as (p & -> & Hp'). right. exists p. rewrite elem_of_app. tauto.
  - destruct xs2 as [|q xs2]; [done|]. cbn [after] in *.
    eapply linked_ext; [exact H2|intros x Hx; apply Hn|intros x Hx; apply Hp].
    + rewrite sources_snoc in Hx. change (Entity q :: map Entity xs2) with (map Entity (q :: xs2)) in Hx.
      apply list_elem_of_fmap in Hx as (p & -> & Hp'). intros E. destruct (before_in xs1) as [E'|(p' & E' & Hp'')]; rewrite E' in E; [done|].
      injection E as ->. by apply (Hdis p').
    + rewrite sources_snoc in Hx. change (Entity q :: map Entity xs2) with (map Entity (q :: xs2)) in Hx.
      apply list_elem_of_fmap in Hx as (p & -> & Hp'). right. exists p. rewrite elem_of_app. tauto.
    + rewrite elem_of_app in Hx. destruct Hx as [Hx|Hx%list_elem_of_singleton]; [|by rewrite Hx].
      apply list_elem_of_fmap in Hx as (p & -> & Hp'). intros [= ->]. by apply NoDup_cons in Hnd2 as [? _].
    + rewrite elem_of_app in Hx. destruct Hx as [Hx|Hx%list_elem_of_singleton]; [|by left].
      apply list_elem_of_fmap in Hx as (p & -> & Hp'). right. exists p. rewrite elem_of_app, elem_of_cons. tauto.
Qed.

Lemma ring_insert nx pv nx' pv' xs1 xs2 new : ring nx pv (xs1 ++ xs2) -> NoDup (xs1 ++ xs2) -> new ∉ xs1 ++ xs2 ->
  (forall x, nx' x = if decide (x = before xs1) then Some (Entity new) else if decide (x = Entity new) then Some (after xs2) else nx x) ->
  (forall x, pv' x = if decide (x = after xs2) then Some (Entity new) else if decide (x = Entity new) then Some (before xs1) else pv x) ->
  ring nx' pv' (xs1 ++ new :: xs2).
Proof.
  intros Hr Hnd Hnew Hn Hp. apply ring_gap in Hr as (H1 & _ & _ & H2).
  assert (before xs1 <> Entity new) as Hb.
  { destruct (before_in xs1) as [->|(p & -> & ?)]; [done|]. intros [= ->]. apply Hnew. rewrite elem_of_app. tauto. }
  assert (after xs2 <> Entity new) as Ha.
  { destruct xs2 as [|q xs2]; [done|]. intros [= ->]. apply Hnew. rewrite elem_of_app, elem_of_cons. tauto. }
  assert (forall x, (x = Head \/ exists p, x = Entity p /\ p ∈ xs1 ++ xs2) -> x <> Entity new) as Hx.
  { intros x [->|(p & -> & ?)]; [done|]. by intros [= ->]. }
  destruct (gap_ext nx pv nx' pv' xs1 xs2 Hnd) as [H1' H2']; [| |exact H1|exact H2|].
  { intros x Hx1 Hx2. rewrite Hn. rewrite !decide_False; [done|by apply Hx|done]. }
  { intros x Hx1 Hx2. rewrite Hp. rewrite !decide_False; [done|by apply Hx|done]. }
  apply ring_gap. cbn [after]. split; [done|]. rewrite (Hn (before xs1)), (Hp (Entity new)).
  rewrite decide_True, decide_False, decide_True by done. split; [done|split; [done|]].
  rewrite after_eq. cbn [linked]. rewrite (Hn (Entity new)), (Hp (after xs2)).
  rewrite decide_False, decide_True, decide_True by done. done.
Qed.

Lemma ring_remove nx pv nx' pv' xs1 xs2 p : ring nx pv (xs1 ++ p :: xs2) -> NoDup (xs1 ++ p :: xs2) ->
  (forall x, x <> Entity p -> nx' x = if decide (x = before xs1) then Some (after xs2) else nx x) ->
  (forall x, x <> Entity p -> pv' x = if decide (x = after xs2) then Some (before xs1) else pv x) ->
  ring nx' pv' (xs1 ++ xs2).
Proof.
  intros Hr Hnd Hn Hp. apply ring_gap in Hr as (H1 & _ & _ & H2). cbn [after] in H2. rewrite after_eq in H2.
  destruct H2 as (_ & _ & H2).
  destruct (nodup_split _ [p] (xs1 ++ xs2) Hnd) as [_ Hout]; [solve_Permutation|].
  assert (NoDup (xs1 ++ xs2)) as Hnd'.
  { destruct (nodup_split _ (xs1 ++ xs2) [p] Hnd) as [? _]; [solve_Permutation|done]. }
  assert (forall x, (x = Head \/ exists p, x = Entity p /\ p ∈ xs1 ++ xs2) -> x <> Entity p) as Hx.
  { intros x [->|(q & -> & Hq)]; [done|]. intros [= ->]. apply (Hout p Hq). left. }
  destruct (gap_ext nx pv nx' pv' xs1 xs2 Hnd') as [H1' H2']; [| |exact H1|exact H2|].
  { intros x Hx1 Hx2. by rewrite Hn, decide_False by (done || by apply Hx). }
  { intros x Hx1 Hx2. by rewrite Hp, decide_False by (done || by apply Hx). }
  apply ring_gap. split; [done|]. rewrite Hn, Hp.
  - by rewrite !decide_True by done.
  - apply Hx. destruct xs2 as [|q xs2]; [by left|]. right. exists q. rewrite elem_of_app, elem_of_cons. tauto.
  - apply Hx. destruct (before_in xs1) as [->|(q & -> & ?)]; [by left|]. right. exists q. rewrite elem_of_app. tauto.
Qed.

(** * The operations of list.h *)
Section list_ops.
Context {K : Type}.
Implicit Types (s : avl_state K).

Definition links s (e : entity) : option list_entity :=
  match e with Head => Some (list_head (tree s)) | Entity p => node_list <$> mem s !! p end.
Definition nx s (e : entity) : option entity := links s e ≫= next.
Definition pv s (e : entity) : option entity := links s e ≫= prev.

(** What the work on the list leaves alone: everything but the links. *)
Record relinked s s' : Prop := {
  relinked_root : root (tree s') = root (tree s);
  relinked_count : count (tree s') = count (tree s);
  relinked_dups : allow_dups (tree s') = allow_dups (tree s);
  relinked_node p n : mem s !! p = Some n -> exists l, mem s' !! p = Some (with_list l n);
  relinked_none p : mem s !! p = None -> mem s' !! p = None;
}.

Lemma relinked_refl s : relinked s s.
Proof. split; try done. intros p n Hn. exists (node_list n). by destruct n. Qed.

Lemma relinked_trans s1 s2 s3 : relinked s1 s2 -> relinked s2 s3 -> relinked s1 s3.
Proof.
  intros [A1 A2 A3 A4 A5] [B1 B2 B3 B4 B5]. split; [congruence..|intros p n Hn|auto].
  destruct (A4 p n Hn) as [l Hl]. destruct (B4 p _ Hl) as [l' Hl']. by exists l'.
Qed.

Lemma store_entity_wp s e l f (Q : unit -> avl_state K -> Prop) : links s e = Some l ->
  (forall s', relinked s s' -> (forall x, links s' x = if decide (x = e) then Some (f l) else links s x) -> Q tt s') ->
  wp (store_entity (Some e) f) s Q.
Proof.
  intros Hl HQ. destruct e as [|p]; simpl in Hl |- *.
  - injection Hl as <-. apply wp_put_tree, HQ.
    + split; try done. intros p n Hn. exists (node_list n). by destruct n.
    + intros [|q]; [by rewrite decide_True|by rewrite decide_False].
  - apply fmap_Some in Hl as (n & Hn & ->). eapply wp_store; [exact Hn|]. apply HQ.
    + split; try done; simpl; [intros q m Hq|intros q Hq].
      * destruct (decide (p = q)) as [<-|Hpq]; [rewrite lookup_insert_eq|rewrite lookup_insert_ne by done].
        -- rewrite Hn in Hq. injection Hq as <-. by eexists.
        -- exists (node_list m). by destruct m.
      * rewrite lookup_insert_ne; [done|congruence].
    + intros [|q]; [by rewrite decide_False|]. simpl. destruct (decide (Entity q = Entity p)) as [[= ->]|Hqp].
      * by rewrite lookup_insert_eq.
      * rewrite lookup_insert_ne; [done|congruence].
Qed.

(** The effect of an update of one link on both directions. *)
Lemma set_next_wp s e o (Q : unit -> avl_state K -> Prop) : is_Some (links s e) ->
  (forall s', relinked s s' -> (forall x, is_Some (links s x) -> is_Some (links s' x)) ->
     (forall x, nx s' x = if decide (x = e) then o else nx s x) -> (forall x, pv s' x = pv s x) -> Q tt s') ->
  wp (set_next (Some e) o) s Q.
Proof.
  intros [l Hl] HQ. eapply store_entity_wp; [exact Hl|]. intros s' Hr Hx. apply HQ; [done|intros x|intros x|intros x]; unfold nx, pv; rewrite Hx.
  - destruct (decide (x = e)); [by eexists|done].
  - by destruct (decide (x = e)).
  - destruct (decide (x = e)) as [->|]; [by rewrite Hl|done].
Qed.

Lemma set_prev_wp s e o (Q : unit -> avl_state K -> Prop) : is_Some (links s e) ->
  (forall s', relinked s s' -> (forall x, is_Some (links s x) -> is_Some (links s' x)) ->
     (forall x, nx s' x = nx s x) -> (forall x, pv s' x = if decide (x = e) then o else pv s x) -> Q tt s') ->
  wp (set_prev (Some e) o) s Q.
Proof.
  intros [l Hl] HQ. eapply store_entity_wp; [exact Hl|]. intros s' Hr Hx. apply HQ; [done|intros x|intros x|intros x]; unfold nx, pv; rewrite Hx.
  - destruct (decide (x = e)); [by eexists|done].
  - destruct (decide (x = e)) as [->|]; [by rewrite Hl|done].
  - by destruct (decide (x = e)).
Qed.

Lemma list_add_wp s a b e (Q : unit -> avl_state K -> Prop) :
  is_Some (links s a) -> is_Some (links s b) -> is_Some (links s e) -> e <> a -> e <> b ->
  (forall s', relinked s s' ->
     (forall x, nx s' x = if decide (x = a) then Some e else if decide (x = e) then Some b else nx s x) ->
     (forall x, pv s' x = if decide (x = b) then Some e else if decide (x = e) then Some a else pv s x) -> Q tt s') ->
  wp (__list_add (Some a) (Some b) (Some e)) s Q.
Proof.
  intros Ha Hb He Hea Heb HQ. unfold __list_add.
  apply wp_bind, set_next_wp; [done|]. intros s1 R1 D1 N1 P1.
  apply wp_bind, set_prev_wp; [auto|]. intros s2 R2 D2 N2 P2.
  apply wp_bind, set_prev_wp; [auto|]. intros s3 R3 D3 N3 P3.
  apply set_next_wp; [auto|]. intros s4 R4 D4 N4 P4. apply HQ.
  - by eapply relinked_trans; [|eapply relinked_trans; [|eapply relinked_trans; [|exact R4]]].
  - intros x. rewrite N4, N3, N2, N1. by destruct (decide (x = a)), (decide (x = e)).
  - intros x. rewrite P4, P3, P2, P1. by destruct (decide (x = b)), (decide (x = e)).
Qed.

(** The list of a tree. *)
Definition lists s (xs : list ptr) : Prop :=
  ring (nx s) (pv s) xs /\ NoDup xs /\ (forall p, p ∈ xs -> is_Some (mem s !! p)).

Lemma lists_links s xs e : lists s xs -> e = Head \/ (exists p, e = Entity p /\ p ∈ xs) -> is_Some (links s e).
Proof. intros (_ & _ & H) [->|(p & -> & Hp)]; [by eexists|]. simpl. by apply fmap_is_Some, H. Qed.

Lemma relinked_dom s s' p : relinked s s' -> is_Some (mem s !! p) -> is_Some (mem s' !! p).
Proof. intros H [n Hn]. destruct (relinked_node _ _ H p n Hn) as [l ->]. by eexists. Qed.

Lemma before_cases xs1 xs2 : before xs1 = Head \/ exists p, before xs1 = Entity p /\ p ∈ xs1 ++ xs2.
Proof. destruct (before_in xs1) as [|(p & ? & ?)]; [by left|right]. exists p. rewrite elem_of_app. tauto. Qed.

Lemma after_cases xs1 xs2 : after xs2 = Head \/ exists p, after xs2 = Entity p /\ p ∈ xs1 ++ xs2.
Proof. destruct xs2 as [|p xs2]; [by left|right]. exists p. rewrite elem_of_app, elem_of_cons. tauto. Qed.

(** Adding a node in a gap of the list. *)
Lemma gap_add_wp s xs1 xs2 new (Q : unit -> avl_state K -> Prop) :
  lists s (xs1 ++ xs2) -> new ∉ xs1 ++ xs2 -> is_Some (mem s !! new) ->
  (forall s', lists s' (xs1 ++ new :: xs2) -> relinked s s' -> Q tt s') ->
  wp (__list_add (Some (before xs1)) (Some (after xs2)) (Some (Entity new))) s Q.
Proof.
  intros Hl Hnew Hm HQ. pose proof Hl as (Hr & Hnd & Hd).
  pose proof (before_cases xs1 xs2) as Hb. pose proof (after_cases xs1 xs2) as Ha.
  apply list_add_wp.
  - by eapply lists_links.
  - by eapply lists_links.
  - simpl. by apply fmap_is_Some.
  - destruct Hb as [->|(p & -> & ?)]; [done|by intros [= ->]].
  - destruct Ha as [->|(p & -> & ?)]; [done|by intros [= ->]].
  - intros s' R N P. apply HQ; [split; [|split]|done].
    + by eapply ring_insert.
    + rewrite <- Permutation_middle. by apply NoDup_cons.
    + intros p Hp. eapply relinked_dom; [done|]. rewrite elem_of_app, elem_of_cons in Hp.
      destruct (decide (p = new)) as [->|]; [done|]. apply Hd. rewrite elem_of_app. tauto.
Qed.

Lemma lists_gap s xs1 xs2 : lists s (xs1 ++ xs2) -> nx s (before xs1) = Some (after xs2) /\ pv s (after xs2) = Some (before xs1).
Proof. intros (H & _). apply ring_gap in H. tauto. Qed.

Lemma before_snoc xs p : before (xs ++ [p]) = Entity p.
Proof. unfold before. rewrite map_app. apply List.last_last. Qed.

Lemma links_mem s p n : mem s !! p = Some n -> nx s (Entity p) = next (node_list n) /\ pv s (Entity p) = prev (node_list n).
Proof. unfold nx, pv. simpl. by intros ->. Qed.

Lemma list_add_before_wp s xs1 p xs2 new (Q : unit -> avl_state K -> Prop) :
  lists s (xs1 ++ p :: xs2) -> new ∉ xs1 ++ p :: xs2 -> is_Some (mem s !! new) ->
  (forall s', lists s' (xs1 ++ new :: p :: xs2) -> relinked s s' -> Q tt s') ->
  wp (list_add_before p new) s Q.
Proof.
  intros Hl Hnew Hm HQ. pose proof Hl as (_ & _ & Hd). destruct (Hd p) as [n Hn]; [rewrite elem_of_app, elem_of_cons; tauto|].
  unfold list_add_before. do 2 wp_step. destruct (lists_gap s xs1 (p :: xs2) Hl) as [_ E].
  destruct (links_mem s p n Hn) as [_ E']. cbn [after] in E. rewrite E' in E. rewrite E.
  by apply (gap_add_wp s xs1 (p :: xs2) new).
Qed.

Lemma list_add_after_wp s xs1 p xs2 new (Q : unit -> avl_state K -> Prop) :
  lists s (xs1 ++ p :: xs2) -> new ∉ xs1 ++ p :: xs2 -> is_Some (mem s !! new) ->
  (forall s', lists s' (xs1 ++ p :: new :: xs2) -> relinked s s' -> Q tt s') ->
  wp (list_add_after p new) s Q.
Proof.
  intros Hl Hnew Hm HQ. pose proof Hl as (_ & _ & Hd). destruct (Hd p) as [n Hn]; [rewrite elem_of_app, elem_of_cons; tauto|].
  unfold list_add_after. do 2 wp_step.
  assert (forall l, xs1 ++ p :: l = (xs1 ++ [p]) ++ l) as E0 by (intros l; by rewrite <- app_assoc).
  rewrite (E0 xs2) in Hl, Hnew. destruct (lists_gap s (xs1 ++ [p]) xs2 Hl) as [E _].
  rewrite before_snoc in E. destruct (links_mem s p n Hn) as [E' _]. rewrite E' in E. rewrite E.
  rewrite <- (before_snoc xs1 p). apply (gap_add_wp s (xs1 ++ [p]) xs2 new); [done..|]. intros s'. rewrite <- (E0 (new :: xs2)). apply HQ.
Qed.

Lemma list_add_head_wp s xs new (Q : unit -> avl_state K -> Prop) :
  lists s xs -> new ∉ xs -> is_Some (mem s !! new) ->
  (forall s', lists s' (new :: xs) -> relinked s s' -> Q tt s') -> wp (list_add_head new) s Q.
Proof.
  intros Hl Hnew Hm HQ. unfold list_add_head, load_entity. do 4 wp_step.
  destruct (lists_gap s [] xs Hl) as [E _]. unfold nx in E. simpl in E. rewrite E.
  by apply (gap_add_wp s [] xs new).
Qed.

Lemma list_remove_wp s xs1 p xs2 (Q : unit -> avl_state K -> Prop) :
  lists s (xs1 ++ p :: xs2) ->
  (forall s', lists s' (xs1 ++ xs2) -> relinked s s' ->
     links s' (Entity p) = Some {| next := None; prev := None |} -> Q tt s') ->
  wp (list_remove p) s Q.
Proof.
  intros Hl HQ. pose proof Hl as (Hr & Hnd & Hd).
  destruct (Hd p) as [n Hn]; [rewrite elem_of_app, elem_of_cons; tauto|].
  destruct (lists_gap s xs1 (p :: xs2) Hl) as [_ E1].
  assert (xs1 ++ p :: xs2 = (xs1 ++ [p]) ++ xs2) as E0 by (by rewrite <- app_assoc).
  pose proof Hl as Hl'. rewrite E0 in Hl'. destruct (lists_gap s (xs1 ++ [p]) xs2 Hl') as [E2 _].
  rewrite before_snoc in E2. destruct (links_mem s p n Hn) as [E3 E4]. cbn [after] in E1. rewrite E4 in E1. rewrite E3 in E2.
  destruct (nodup_split _ [p] (xs1 ++ xs2) Hnd) as [_ Hout]; [solve_Permutation|].
  assert (forall e, e = Head \/ (exists q, e = Entity q /\ q ∈ xs1 ++ xs2) -> is_Some (links s e) /\ e <> Entity p) as He.
  { intros e He. split.
    - eapply lists_links; [exact Hl|]. destruct He as [->|(q & -> & Hq)]; [by left|right]. exists q.
      split; [done|]. revert Hq. rewrite !elem_of_app, elem_of_cons. tauto.
    - destruct He as [->|(q & -> & Hq)]; [done|]. intros [= ->]. apply (Hout p Hq). left. }
  destruct (He _ (before_cases xs1 xs2)) as [Hb1 Hb2]. destruct (He _ (after_cases xs1 xs2)) as [Ha1 Ha2].
  unfold list_remove, __list_remove. do 2 wp_step. rewrite E1, E2. apply wp_bind.
  apply wp_bind, set_next_wp; [done|]. intros s1 R1 D1 N1 P1.
  apply set_prev_wp; [auto|]. intros s2 R2 D2 N2 P2.
  assert (links s2 (Entity p) <> None) as Hp2 by (apply not_eq_None_Some, D2, D1; simpl; rewrite Hn; by eexists).
  unfold list_init_node. simpl in Hp2. destruct (mem s2 !! p) as [n2|] eqn:Hn2; [|done].
  eapply (store_entity_wp s2 (Entity p) (node_list n2) (fun _ => {| next := None; prev := None |})); [by simpl; rewrite Hn2|].
  intros s3 R3 L3. apply HQ.
  - split; [|split].
    + eapply ring_remove; [exact Hr|exact Hnd|..]; intros x Hx.
      * unfold nx at 1. rewrite L3, decide_False by done. fold (nx s2 x). by rewrite N2, N1.
      * unfold pv at 1. rewrite L3, decide_False by done. fold (pv s2 x). by rewrite P2, P1.
    + destruct (nodup_split _ (xs1 ++ xs2) [p] Hnd) as [? _]; [solve_Permutation|done].
    + intros q Hq. eapply relinked_dom; [|apply Hd; revert Hq; rewrite !elem_of_app, elem_of_cons; tauto].
      by eapply relinked_trans; [|eapply relinked_trans].
  - by eapply relinked_trans; [|eapply relinked_trans].
  - by rewrite L3, decide_True.
Qed.
End list_ops.
