(* ===== verification/AvlRemove.v ===== *)
(** Taking a node out of a tree (src/libcommon/avl.c): [_avl_remove_worker] for
    leaves, nodes with one child and nodes with two children, and the exchange
    of a node for another one in its place. *)

From Stdlib Require Import ZArith Lia.
From stdpp Require Import base list numbers option gmap sets.
From S2P Require Import Prelude AvlSpec Avl AvlTree AvlBalance.

Local Open Scope Z_scope.
Local Open Scope avl_scope.

Section remove.
Context {K : Type}.
Implicit Types (s : avl_state K).

(** From [s] to [sf] with a balanced tree of the nodes [l]; only nodes of [X]
    are written. *)
Definition results s (X l : list ptr) (sf : avl_state K) : Prop :=
  exists t' h', holds sf t' /\ balanced t' h' /\ nodes t' = l /\ kept s sf X.

Lemma results_after s s1 X Y l sf : kept s s1 X -> Y ⊆ X -> results s1 Y l sf -> results s X l sf.
Proof.
  intros Hk HY (t' & h' & Ht & Hb & En & Hk'). exists t', h'. split; [done|split; [done|split; [done|]]].
  by eapply kept_trans.
Qed.

Lemma rebuilt_results s t sf : rebuilt s t sf -> results s (nodes t) (nodes t) sf.
Proof. done. Qed.

Lemma holds_child s d c t q b far n t' :
  holds s (plug c (node_of d t q b far)) -> mem s !! q = Some n -> rep (mem s) (Some q) t' ->
  NoDup (nodes (plug c (node_of d t' q b far))) ->
  holds (upd s q (with_child d (root_of t') n)) (plug c (node_of d t' q b far)).
Proof.
  intros Hs Hn Ht Hnd. pose proof Hs as (Hrt & Hrep & _).
  destruct (proj1 (rep_plug _ _ _ _) (conj Hrt Hrep)) as [_ Hq]. apply rep_node_of in Hq as (_ & _ & Hfar).
  destruct (dnode s d c t q b far Hs) as (m & Hm & E1 & E2 & E3 & E4). rewrite Hn in Hm. injection Hm as <-.
  destruct d; simpl in *; eapply holds_upd; done.
Qed.

Lemma nodes_plug_incl c t t' : nodes t ⊆ nodes t' -> nodes (plug c t) ⊆ nodes (plug c t').
Proof. rewrite !nodes_plug. intros H z. rewrite !elem_of_app. specialize (H z). tauto. Qed.

Definition leaf (d : side) (fuel : nat) (q : ptr) (p : avl_node K) : avl_M K unit :=
  store q (with_child d None) ;;; set_balance q (inc d (balance p)) ;;;
  p <~ load q ;;
  if balance p =? sg d then ret tt
  else if balance p =? 0 then _avl_post_remove fuel q
  else too_low d (_avl_post_remove fuel) q.

Lemma remove_leaf_S fuel (node : ptr) q : _avl_remove_leaf (K := K) fuel node (Some q) =
  (p <~ load q ;; if bool_decide (left p = Some node) then leaf L fuel q p else leaf R fuel q p).
Proof. done. Qed.

(** Behind a change of the height of one side, the walk up. *)
Lemma shrunk_up_wp s d c t q far b hf h fuel (Q : unit -> avl_state K -> Prop) :
  let t0 := plug c (node_of d t q b far) in
  holds s t0 -> balanced t h -> balanced far hf -> b = sg d * (hf - h) -> h <= hf <= h + 2 ->
  balanced_ctx c (1 + Z.max (h + 1) hf) -> (length c < fuel)%nat ->
  (forall sf, rebuilt s t0 sf -> Q tt sf) ->
  wp (if b =? 0 then _avl_post_remove fuel q else if b =? sg d then ret tt else too_low d (_avl_post_remove fuel) q) s Q.
Proof.
  intros t0 Hs Ht Hf Eb Hh Hc Hfuel HQ. eapply shrunk_wp; [done..| |exact HQ].
  intros s1 t1 g h1 H1 Hg Hb1 Hc1 En Hk1. eapply post_remove_wp; [exact H1|exact Hg|exact Hb1|exact Hc1|exact Hfuel|].
  intros sf Hsf. apply HQ. by eapply rebuilt_after.
Qed.

Lemma remove_leaf_wp s c p b fuel (Q : unit -> avl_state K -> Prop) :
  let t := plug c (T E p b E) in
  holds s t -> balanced_ctx c 1 -> (length c <= fuel)%nat ->
  (forall sf, results s (nodes t) (pre c ++ post c) sf -> Q tt sf) ->
  wp (_avl_remove_leaf fuel p (above c)) s Q.
Proof.
  intros t Hs Hc Hfuel HQ. pose proof Hs as (_ & _ & Hnd).
  destruct c as [|f c].
  { apply wp_put_tree, HQ. exists E, 0. split; [split; [done|split; [done|constructor]]|].
    split; [constructor|split; [done|apply kept_root]]. }
  destruct (frame_cases f) as (d & q & bq & far & ->). rewrite above_frame_of, remove_leaf_S.
  assert (t = plug c (node_of d (T E p b E) q bq far)) as Et by apply plug_frame_of. rewrite Et in Hs, Hnd.
  apply balanced_ctx_frame_of in Hc as (hf & Hf & Ebq & Hbq & Hc). pose proof (sg_cases d) as Hsg.
  destruct (dnode s d c _ q bq far Hs) as (n & Hn & _ & E2 & E3 & E4). do 2 wp_step.
  assert (NoDup (nodes (plug c (node_of d E q bq far)))) as HndE.
  { eapply (nodup_split _ _ [p] Hnd). rewrite !nodes_plug, !nodes_node_of. simpl. solve_Permutation. }
  assert (wp (leaf d fuel q n) s Q) as Hl.
  { unfold leaf. wp_step. eapply wp_store; [exact Hn|].
    pose proof (holds_child s d c _ q bq far n E Hs Hn I HndE) as H1. cbn [root_of] in H1.
    set (s1 := upd s q (with_child d None n)) in *.
    replace (balance n) with bq by done. rewrite inc_sg.
    eapply set_balance_wp; [exact H1|lk|lia|]. intros s2 n2 H2 Hn2 En2 Hk2. rewrite En2.
    assert (wp (if bq + sg d =? 0 then _avl_post_remove fuel q
                else if bq + sg d =? sg d then ret tt else too_low d (_avl_post_remove fuel) q) s2 Q) as Hw.
    { eapply shrunk_up_wp; [exact H2|constructor|exact Hf| | |exact Hc|simpl in Hfuel; lia|].
      - lia.
      - destruct Hsg as [E|E]; rewrite E in *; lia.
      - intros sf (t' & h' & Ht' & Hb' & En' & Hk'). apply HQ.
        assert (pre (frame_of d q bq far :: c) ++ post (frame_of d q bq far :: c) = nodes t') as ->.
        { rewrite En', (nodes_balance d c E q _ bq), <- plug_frame_of, nodes_plug. done. }
        assert (forall b', nodes (plug c (node_of d E q b' far)) ⊆ nodes t) as Hin.
        { intros b'. rewrite Et. apply nodes_plug_incl. rewrite !nodes_node_of. simpl. set_solver. }
        eapply (results_after s s1 _ (nodes t)); [|done|].
        + eapply kept_upd; [exact Hn|rewrite Et; apply p_in_plug|by destruct d..].
        + eapply results_after; [eapply kept_mono; [exact Hk2|apply Hin]|apply Hin|by exists t', h']. }
    destruct (Z.eqb_spec (bq + sg d) 0) as [E0|E0]; [|exact Hw].
    destruct (Z.eqb_spec (bq + sg d) (sg d)); [lia|exact Hw]. }
  destruct d; cbn [child opp root_of] in E2, E3.
  - by rewrite bool_decide_true.
  - rewrite bool_decide_false; [done|]. rewrite E3. apply root_not_in. eapply near_not_far; [exact Hnd|left].
Qed.
(** The parts of a tree around the node [p]. *)
Lemma apart d c t p b r : NoDup (nodes (plug c (node_of d t p b r))) ->
  NoDup (pre c ++ post c) /\ NoDup (nodes t) /\ NoDup (nodes r) /\ p ∉ pre c ++ post c /\ p ∉ nodes t /\ p ∉ nodes r /\
  (forall z, z ∈ nodes t -> z ∉ pre c ++ post c /\ z ∉ nodes r) /\ (forall z, z ∈ nodes r -> z ∉ pre c ++ post c).
Proof.
  intros H. set (C := pre c ++ post c).
  assert (nodes (plug c (node_of d t p b r)) ≡ₚ C ++ p :: nodes t ++ nodes r) as HP.
  { rewrite nodes_plug, nodes_node_of. unfold C. solve_Permutation. }
  rewrite HP in H. apply NoDup_app in H as (H1 & H2 & H3). apply NoDup_cons in H3 as [H3 H4]. apply NoDup_app in H4 as (H4 & H5 & H6).
  rewrite elem_of_app in H3. repeat split; try done; try tauto.
  - intros Hp. apply (H2 p Hp). left.
  - intros Hz'. apply (H2 z Hz'). right. rewrite elem_of_app. tauto.
  - by apply H5.
  - intros z Hz Hz'. apply (H2 z Hz'). right. rewrite elem_of_app. tauto.
Qed.

Lemma holds_intro s c t : rep_ctx (mem s) (root (tree s)) c (root_of t) -> rep (mem s) (above c) t ->
  NoDup (pre c ++ nodes t ++ post c) -> holds s (plug c t).
Proof. intros H1 H2 H3. destruct (proj2 (rep_plug _ _ c t) (conj H1 H2)) as [? ?]. split; [done|split; [done|by rewrite nodes_plug]]. Qed.

Lemma replace_by_child_wp s d c t1 ch p b fuel (Q : unit -> avl_state K -> Prop) :
  let t := plug c (node_of d t1 p b E) in
  holds s t -> root_of t1 = Some ch -> balanced t1 1 -> balanced_ctx c 2 -> (length c < fuel)%nat ->
  (forall sf, results s (nodes t) (pre c ++ nodes t1 ++ post c) sf -> Q tt sf) ->
  wp (_avl_replace_by_child fuel p ch (above c)) s Q.
Proof.
  intros t Hs Hch Hb Hc Hfuel HQ. pose proof Hs as (Hrt & Hrep & Hnd).
  destruct (proj1 (rep_plug _ _ _ _) (conj Hrt Hrep)) as [Hctx Ht]. rewrite root_of_node in Hctx.
  apply rep_node_of in Ht as (_ & Ht1 & _).
  destruct (apart d c t1 p b E Hnd) as (HC & Hnt1 & _ & HpC & _ & _ & Hzt & _).
  assert (nodes t1 ⊆ nodes t /\ pre c ++ post c ⊆ nodes t) as [HX1 HX2].
  { unfold t. rewrite nodes_plug. split; intros z; rewrite !elem_of_app, nodes_node_of, elem_of_cons, elem_of_app; tauto. }
  assert (NoDup (pre c ++ nodes t1 ++ post c)) as Hnd'.
  { eapply (nodup_split _ _ [p] Hnd). unfold t. rewrite nodes_plug, nodes_node_of. simpl. solve_Permutation. }
  unfold _avl_replace_by_child. destruct (above c) as [q|] eqn:Eq.
  - (* set_parent child *)
    apply wp_bind. change (set_parent ch (Some q)) with (reparent (K := K) (Some ch) q). rewrite <- Hch.
    eapply reparent_wp; [exact Ht1|done|]. intros s1 H1 Hk1 Et1 Ho1.
    apply wp_bind. rewrite <- Eq. eapply (relink_wp s1 c p (root_of t1)).
    { rewrite Et1. eapply rep_ctx_frame; [exact Hctx|]. intros z Hz. apply Ho1. intros Hz'. by destruct (Hzt z Hz'). }
    { done. }
    { done. }
    intros s2 H2 Hk2 Ho2.
    assert (holds s2 (plug c t1)) as Hs2.
    { apply holds_intro; [done| |done]. rewrite Eq. eapply rep_frame; [exact H1|].
      intros z Hz. apply Ho2. intros Hz'%above_in. by destruct (Hzt z Hz). }
    eapply post_remove_wp; [exact Hs2|exact Hch|exact Hb|exact Hc|exact Hfuel|]. intros sf Hsf%rebuilt_results. apply HQ.
    rewrite nodes_plug in Hsf. eapply results_after; [|reflexivity|eapply results_after; [| |exact Hsf]].
    + eapply kept_mono; [exact Hk1|done].
    + eapply kept_mono; [exact Hk2|done].
    + intros z. rewrite elem_of_app, elem_of_app. intros [?|[?|?]]; [|by apply HX1|]; apply HX2; rewrite elem_of_app; tauto.
  - destruct c as [|f c]; [|done]. simpl in *. rewrite app_nil_r in *.
    destruct t1 as [|l1 p1 b1 r1]; [done|]. injection Hch as ->. destruct Ht1 as ((n & Hn & E1 & E2 & E3 & E4) & Hl & Hr).
    repeat wp_step. apply HQ. exists (T l1 ch b1 r1), 1. split; [split; [done|split; [|done]]|split; [done|split; [done|]]].
    + simpl in Hnt1. destruct (nodup_split _ [ch] (nodes l1 ++ nodes r1) Hnt1) as [_ Hout]; [solve_Permutation|].
      split; [eexists; split; [lk|done]|split; eapply rep_frame; try done; unwritten Hout].
    + eapply kept_trans; [apply kept_root|eapply (kept_upd _ _ _ _ (nodes (T l1 ch b1 r1))); [exact Hn| |done..]|done]. simpl. rewrite elem_of_app. right. left.
Qed.
(** ** One node for another

    [m] takes the place of another node: its fields are set, then the parent
    and the children are changed, in any order. *)
Record parts s c (x : option ptr) (pl : option ptr) (l : shape) (pr : option ptr) (r : shape) (m : ptr) (b : Z) : Prop := {
  parts_ctx : rep_ctx (mem s) (root (tree s)) c x;
  parts_left : rep (mem s) pl l;
  parts_right : rep (mem s) pr r;
  parts_node : cell (mem s) m (above c) (root_of l) (root_of r) b;
}.

Lemma cell_frame (m m' : gmap ptr (avl_node K)) p par l r b : cell m p par l r b -> m' !! p = m !! p -> cell m' p par l r b.
Proof. intros (n & Hn & ?) E. exists n. by rewrite E. Qed.

Section exchange.
Context (c : context) (l : shape) (m : ptr) (b : Z) (r : shape).
Context (Hnd : NoDup (nodes (plug c (T l m b r)))).
Notation X := (nodes (plug c (T l m b r))).

Lemma parts_in : nodes l ⊆ X /\ nodes r ⊆ X /\ pre c ++ post c ⊆ X /\ m ∈ X.
Proof.
  rewrite nodes_plug. simpl. repeat split; try intros z; rewrite ?elem_of_app, ?elem_of_cons; rewrite ?elem_of_app, ?elem_of_cons; tauto.
Qed.

Lemma relink_parts_wp s p pl pr (Q : unit -> avl_state K -> Prop) :
  parts s c (Some p) pl l pr r m b -> p ∉ pre c ++ post c ->
  (forall s', parts s' c (Some m) pl l pr r m b -> kept s s' X -> Q tt s') -> wp (relink (above c) p (Some m)) s Q.
Proof.
  intros [H1 H2 H3 H4] Hp HQ. destruct (apart L c l m b r Hnd) as (HC & _ & _ & HmC & _ & _ & Hzl & Hzr).
  destruct parts_in as (_ & _ & HX & _).
  eapply relink_wp; [exact H1|done|done|]. intros s' H1' Hk Ho. apply HQ; [split|by eapply kept_mono].
  - done.
  - eapply rep_frame; [exact H2|]. intros z Hz. apply Ho. intros Hz'%above_in. by destruct (Hzl z Hz).
  - eapply rep_frame; [exact H3|]. intros z Hz. apply Ho. intros Hz'%above_in. by destruct (Hzr z Hz).
  - eapply cell_frame; [exact H4|]. apply Ho. by intros Hz'%above_in.
Qed.

Lemma reparent_left_wp s x pl pr (Q : unit -> avl_state K -> Prop) :
  parts s c x pl l pr r m b ->
  (forall s', parts s' c x (Some m) l pr r m b -> kept s s' X -> Q tt s') -> wp (reparent (root_of l) m) s Q.
Proof.
  intros [H1 H2 H3 H4] HQ. destruct (apart L c l m b r Hnd) as (_ & Hl & _ & _ & Hml & _ & Hzl & Hzr).
  destruct parts_in as (HX & _).
  eapply reparent_wp; [exact H2|done|]. intros s' H2' Hk Et Ho. apply HQ; [split|by eapply kept_mono].
  - rewrite Et. eapply rep_ctx_frame; [exact H1|]. intros z Hz. apply Ho. intros Hz'. by destruct (Hzl z Hz').
  - done.
  - eapply rep_frame; [exact H3|]. intros z Hz. apply Ho. intros Hz'. by destruct (Hzl z Hz').
  - eapply cell_frame; [exact H4|]. by apply Ho.
Qed.

Lemma reparent_right_wp s x pl pr (Q : unit -> avl_state K -> Prop) :
  parts s c x pl l pr r m b ->
  (forall s', parts s' c x pl l (Some m) r m b -> kept s s' X -> Q tt s') -> wp (reparent (root_of r) m) s Q.
Proof.
  intros [H1 H2 H3 H4] HQ. destruct (apart L c l m b r Hnd) as (_ & _ & Hr & _ & _ & Hmr & Hzl & Hzr).
  destruct parts_in as (_ & HX & _).
  eapply reparent_wp; [exact H3|done|]. intros s' H3' Hk Et Ho. apply HQ; [split|by eapply kept_mono].
  - rewrite Et. eapply rep_ctx_frame; [exact H1|]. intros z Hz. apply Ho. intros Hz'. by destruct (Hzr z Hz').
  - eapply rep_frame; [exact H2|]. intros z Hz. apply Ho. intros Hz'. by destruct (Hzl z Hz).
  - done.
  - eapply cell_frame; [exact H4|]. by apply Ho.
Qed.

Lemma parts_holds s : parts s c (Some m) (Some m) l (Some m) r m b -> holds s (plug c (T l m b r)).
Proof.
  intros [H1 H2 H3 H4]. apply holds_intro; [done|by split|]. revert Hnd. by rewrite nodes_plug.
Qed.
End exchange.

(** The tree with [p], and the fields of [p] in [m]. *)
Lemma parts_start s s' c l p b r m : holds s (plug c (T l p b r)) -> m ∉ nodes (plug c (T l p b r)) ->
  root (tree s') = root (tree s) -> (forall z, z <> m -> mem s' !! z = mem s !! z) ->
  cell (mem s') m (above c) (root_of l) (root_of r) b ->
  parts s' c (Some p) (Some p) l (Some p) r m b.
Proof.
  intros (Hrt & Hrep & _) Hm Et Ho Hc. destruct (proj1 (rep_plug _ _ _ _) (conj Hrt Hrep)) as [H1 (_ & H2 & H3)].
  assert (forall z, z ∈ nodes (plug c (T l p b r)) -> mem s' !! z = mem s !! z) as H.
  { intros z Hz. apply Ho. by intros ->. }
  rewrite nodes_plug in H. cbn [nodes] in H. split.
  - rewrite Et. eapply rep_ctx_frame; [exact H1|]. intros z Hz. apply H. revert Hz. rewrite !elem_of_app. tauto.
  - eapply rep_frame; [exact H2|]. intros z Hz. apply H. rewrite !elem_of_app. tauto.
  - eapply rep_frame; [exact H3|]. intros z Hz. apply H. rewrite !elem_of_app, elem_of_cons. tauto.
  - done.
Qed.

Lemma nodes_exchange c l p b r m : m ∉ nodes (plug c (T l p b r)) -> NoDup (nodes (plug c (T l p b r))) ->
  NoDup (nodes (plug c (T l m b r))) /\ p ∉ pre c ++ post c.
Proof.
  intros Hm Hnd. destruct (apart L c l p b r Hnd) as (_ & _ & _ & Hp & _). split; [|done].
  assert (forall q, nodes (plug c (T l q b r)) ≡ₚ q :: pre c ++ post c ++ nodes l ++ nodes r) as HP.
  { intros q. rewrite nodes_plug. simpl. solve_Permutation. }
  rewrite HP in *. apply NoDup_cons in Hnd as [_ Hnd]. apply NoDup_cons. split; [|done].
  intros H. apply Hm. by right.
Qed.

(** ** The worker *)

Lemma balanced_height_E t : balanced t 0 -> t = E.
Proof. inversion 1 as [|? ? ? ? hl hr Hl Hr]; subst; [done|]. apply balanced_height in Hl, Hr. lia. Qed.

(** Nodes with at most one child. *)
Lemma worker_simple_wp s c l p b r h depth fuel (Q : unit -> avl_state K -> Prop) :
  let t := plug c (T l p b r) in
  holds s t -> balanced (T l p b r) h -> balanced_ctx c h -> l = E \/ r = E -> (length c < fuel)%nat ->
  (forall sf, results s (nodes t) (pre c ++ nodes l ++ nodes r ++ post c) sf -> Q tt sf) ->
  wp (_avl_remove_worker (S depth) fuel p) s Q.
Proof.
  intros t Hs Hb Hc Hlr Hfuel HQ. destruct (holds_node s c l p b r Hs) as (n & Hn & E1 & E2 & E3 & E4).
  inversion Hb as [|? ? ? ? hl hr Hl Hr Eb Hb1]; subst. pose proof (balanced_height _ _ Hl). pose proof (balanced_height _ _ Hr).
  cbn [_avl_remove_worker]. do 2 wp_step. rewrite E1, E2, E3.
  destruct l as [|ll pl bl rl]; [destruct r as [|lr pr br rr]|]; cbn [root_of].
  - inversion Hl; inversion Hr; subst. eapply remove_leaf_wp; [exact Hs|exact Hc|lia|exact HQ].
  - inversion Hl; subst. assert (hr = 1) as ->.
    { destruct (Z.eq_dec hr 0) as [->|]; [by apply balanced_height_E in Hr|lia]. }
    eapply (replace_by_child_wp s R c (T lr pr br rr)); [exact Hs|done|exact Hr|exact Hc|exact Hfuel|exact HQ].
  - destruct Hlr as [?| ->]; [done|]. inversion Hr; subst. cbn [root_of]. assert (hl = 1) as ->.
    { destruct (Z.eq_dec hl 0) as [->|]; [by apply balanced_height_E in Hl|lia]. }
    eapply (replace_by_child_wp s L c (T ll pl bl rl)); [exact Hs|done|exact Hl|exact Hc|exact Hfuel|exact HQ].
Qed.

Lemma local_min_wp t fuel s c x (Q : ptr -> avl_state K -> Prop) :
  holds s (plug c t) -> root_of t = Some x -> (length (nodes t) <= fuel)%nat ->
  (forall cm m bm rm, t = plug cm (T E m bm rm) -> pre cm = [] -> Q m s) ->
  wp (_avl_local_min fuel x) s Q.
Proof.
  revert fuel c x Q. induction t as [|l IH p b r _]; intros fuel c x Q Hs Hx Hf HQ; [done|]. injection Hx as ->.
  destruct fuel as [|fuel]; [simpl in Hf; rewrite length_app in Hf; simpl in Hf; lia|]. cbn [_avl_local_min].
  destruct (holds_node s c l x b r Hs) as (n & Hn & _ & E2 & _). do 2 wp_step. rewrite E2.
  destruct l as [|ll pl bl rl]; cbn [root_of].
  - apply wp_ret. exact (HQ [] x b r eq_refl eq_refl).
  - eapply (IH fuel (FL x b r :: c)); [exact Hs|done| |].
    + cbn [nodes] in *. rewrite !length_app in *. cbn [length] in *. lia.
    + intros cm m bm rm E' Hpre. apply (HQ (cm ++ [FL x b r]) m bm rm).
      * rewrite plug_app. by rewrite <- E'.
      * clear -Hpre. induction cm as [|[q bq rq|lq q bq] cm IH]; simpl in *; [done|by apply IH|]. by destruct (pre cm), (nodes lq).
Qed.

Lemma length_pre_post c : (length c <= length (pre c ++ post c))%nat.
Proof.
  rewrite length_app. induction c as [|[q b r|l q b] c IH]; simpl; [lia|..]; rewrite ?length_app; simpl; lia.
Qed.

Lemma pre_app c d : pre (c ++ d) = pre d ++ pre c.
Proof. induction c as [|[q b r|l q b] c IH]; simpl; [by rewrite app_nil_r|done|]. by rewrite IH, <- app_assoc. Qed.
Lemma post_app c d : post (c ++ d) = post c ++ post d.
Proof. induction c as [|[q b r|l q b] c IH]; simpl; [done| |done]. by rewrite IH, <- app_assoc. Qed.

(** The second half of the removal of a node with two children. *)
Definition take_place (p m : ptr) : avl_M K unit :=
  n <~ load p ;;
  let parent_ := parent n in
  set_balance m (balance n) ;;;
  set_parent m parent_ ;;;
  set_left m (left n) ;;;
  set_right m (right n) ;;;
  mn <~ load m ;;
  reparent (left mn) m ;;;
  reparent (right mn) m ;;;
  relink parent_ p (Some m).

Lemma take_place_wp s c l p b r m n0 (Q : unit -> avl_state K -> Prop) :
  holds s (plug c (T l p b r)) -> m ∉ nodes (plug c (T l p b r)) -> mem s !! m = Some n0 -> -1 <= b <= 1 ->
  (forall sf, holds sf (plug c (T l m b r)) -> kept s sf (nodes (plug c (T l m b r))) -> Q tt sf) ->
  wp (take_place p m) s Q.
Proof.
  intros Hs Hm Hn0 Hb HQ. destruct (holds_node s c l p b r Hs) as (n & Hn & E1 & E2 & E3 & E4).
  pose proof Hs as (_ & _ & Hnd0). destruct (nodes_exchange c l p b r m Hm Hnd0) as [Hnd Hp].
  unfold take_place. do 11 wp_step. do 2 wp_step. cbn [left right with_left with_right]. rewrite E1, E2, E3, E4, swrap8_small by lia.
  match goal with |- wp _ ?s1 _ => set (s' := s1) end.
  assert (parts s' c (Some p) (Some p) l (Some p) r m b) as HP.
  { eapply parts_start; [exact Hs|exact Hm|done| |].
    - intros z Hz. lk.
    - eexists. split; [lk|done]. }
  assert (kept s s' (nodes (plug c (T l m b r)))) as Hk.
  { eapply (kept_mono _ _ [m]); [apply kept_diff; [done..| |]|].
    - intros z ->%list_elem_of_singleton. eexists n0, _. split; [exact Hn0|split; [lk|done]].
    - intros z Hz. rewrite list_elem_of_singleton in Hz. lk.
    - intros z ->%list_elem_of_singleton. apply (parts_in c l m b r). }
  eapply reparent_left_wp; [exact Hnd|exact HP|]. intros s1 HP1 Hk1. wp_step.
  eapply reparent_right_wp; [exact Hnd|exact HP1|]. intros s2 HP2 Hk2.
  eapply relink_parts_wp; [exact Hnd|exact HP2|exact Hp|]. intros s3 HP3 Hk3. apply HQ.
  - eapply parts_holds; [exact Hnd|exact HP3].
  - eapply kept_trans; [exact Hk|eapply kept_trans; [exact Hk1|eapply kept_trans; [exact Hk2|exact Hk3|done]|done]|done].
Qed.

(** Another node in the place of [p], on lists. *)
Lemma replace_in_list (A B A' B' : list ptr) (p m : ptr) :
  NoDup (A ++ p :: B) -> A ++ p :: B = A' ++ p :: B' -> A ++ m :: B = A' ++ m :: B'.
Proof.
  set (f := fun z => if decide (z = p) then m else z).
  assert (forall A B, NoDup (A ++ p :: B) -> A ++ m :: B = map f (A ++ p :: B)) as Hf.
  { intros A0 B0 Hnd. destruct (nodup_split _ [p] (A0 ++ B0) Hnd) as [_ Ho]; [solve_Permutation|].
    assert (forall l, l ⊆ A0 ++ B0 -> map f l = l) as Hid.
    { intros l Hl. rewrite <- (map_id l) at 2. apply map_ext_in. intros z Hz. unfold f. rewrite decide_False; [done|].
      intros ->. apply (Ho p); [|left]. apply Hl. by apply list_elem_of_In. }
    rewrite map_app. simpl. rewrite !Hid by set_solver. unfold f. by rewrite decide_True. }
  intros Hnd E. rewrite (Hf A B Hnd), E, <- Hf; [done|]. by rewrite <- E.
Qed.

Lemma nodes_rename c l p m b r A B : NoDup (nodes (plug c (T l p b r))) -> nodes (plug c (T l p b r)) = A ++ p :: B ->
  nodes (plug c (T l m b r)) = A ++ m :: B.
Proof.
  assert (forall q, nodes (plug c (T l q b r)) = (pre c ++ nodes l) ++ q :: nodes r ++ post c) as E.
  { intros q. rewrite nodes_plug. by app_norm. }
  rewrite !E. apply replace_in_list.
Qed.

Lemma balanced_rename c l p m b r h : balanced (plug c (T l p b r)) h -> exists h', balanced (plug c (T l m b r)) h'.
Proof.
  intros H. apply balanced_unplug in H as (h1 & H1 & Hc). inversion H1; subst. eapply balanced_plug; [exact Hc|]. by constructor.
Qed.

Lemma balanced_node_range c l p b r h : balanced (plug c (T l p b r)) h -> -1 <= b <= 1.
Proof. intros H. apply balanced_unplug in H as (h1 & H1 & _). by inversion H1; subst. Qed.

Lemma worker_wp s c l p b r h fuel (Q : unit -> avl_state K -> Prop) :
  let t := plug c (T l p b r) in
  holds s t -> balanced t h -> (length (nodes t) < fuel)%nat ->
  (forall sf, results s (nodes t) (pre c ++ nodes l ++ nodes r ++ post c) sf -> Q tt sf) ->
  wp (_avl_remove_worker 2 fuel p) s Q.
Proof.
  intros t Hs Hb Hfuel HQ. pose proof (balanced_unplug c _ _ Hb) as (h1 & Hb1 & Hc).
  assert (length (pre c ++ post c) < length (nodes t))%nat as Hlen.
  { unfold t. rewrite nodes_plug. simpl. rewrite !length_app. simpl. lia. }
  pose proof (length_pre_post c) as Hcl.
  assert ((l = E \/ r = E) \/ (l <> E /\ r <> E)) as [Hlr|[Hl0 Hr0]] by (destruct l, r; auto).
  { eapply worker_simple_wp; [exact Hs|exact Hb1|exact Hc|exact Hlr|lia|exact HQ]. }
  destruct (holds_node s c l p b r Hs) as (n & Hn & E1 & E2 & E3 & E4).
  destruct l as [|ll pl bl rl]; [done|]. destruct r as [|lr x br rr]; [done|]. set (l := T ll pl bl rl) in *. set (r := T lr x br rr) in *.
  change (_avl_remove_worker 2 fuel p) with
    (n <~ load p ;; match left n, right n with
                    | None, None => _avl_remove_leaf fuel p (parent n)
                    | None, Some r => _avl_replace_by_child fuel p r (parent n)
                    | Some l, None => _avl_replace_by_child fuel p l (parent n)
                    | Some _, Some r => min <~ _avl_local_min fuel r ;; _avl_remove_worker 1 fuel min ;;; take_place p min
                    end).
  do 2 wp_step. rewrite E2, E3. cbn [root_of l r]. fold l r. apply wp_bind.
  assert (plug c (T l p b r) = plug (FR l p b :: c) r) as Er by done.
  eapply (local_min_wp r fuel s (FR l p b :: c)); [by rewrite <- Er|done| |].
  { unfold t in Hfuel. rewrite nodes_plug in Hfuel. cbn [nodes] in Hfuel. rewrite !length_app in Hfuel. cbn [length] in Hfuel. lia. }
  intros cm m bm rm Em Hpre. apply wp_bind.
  set (cc := cm ++ FR l p b :: c).
  assert (t = plug cc (T E m bm rm)) as Et by (unfold t, cc; rewrite plug_app, <- Em; done).
  pose proof Hs as (_ & _ & Hnd). rewrite Et in Hs, Hb. destruct (balanced_unplug _ _ _ Hb) as (h2 & Hb2 & Hc2).
  eapply worker_simple_wp; [exact Hs|exact Hb2|exact Hc2|by left| |].
  { pose proof (length_pre_post cc). rewrite Et, nodes_plug in Hfuel. cbn [nodes] in Hfuel. rewrite !length_app in *. cbn [length app] in *. lia. }
  intros s1 (t1 & h3 & Hs1 & Hb3 & En & Hk1). rewrite <- Et in Hk1.
  assert (nodes t1 = (pre c ++ nodes l) ++ p :: nodes rm ++ post cm ++ post c) as En1.
  { rewrite En. unfold cc. rewrite pre_app, post_app, Hpre. simpl. by rewrite app_nil_r, <- !app_assoc. }
  assert (nodes t = pre c ++ nodes l ++ p :: m :: nodes rm ++ post cm ++ post c) as Ent.
  { rewrite Et, nodes_plug. unfold cc. rewrite pre_app, post_app, Hpre. simpl. by rewrite app_nil_r, <- !app_assoc. }
  assert (nodes t ≡ₚ m :: nodes t1) as HP by (rewrite Ent, En1; solve_Permutation).
  assert (m ∉ nodes t1 /\ NoDup (nodes t1)) as [Hm Hnd1] by (rewrite HP in Hnd; by apply NoDup_cons in Hnd).
  destruct (nodes_focus t1 p) as (c2 & l2 & b2 & r2 & Ef); [rewrite En1, elem_of_app; right; left|]. rewrite Ef in *.
  destruct Hs1 as (? & ? & ?).
  destruct (rep_in (mem s) None t m) as [n0 Hn0]; [rewrite Et; apply Hs|rewrite HP; left|].
  destruct (kept_node _ _ _ Hk1 m n0 Hn0) as (n1 & Hn1 & _).
  eapply take_place_wp; [done|exact Hm|exact Hn1|by eapply balanced_node_range|]. intros sf Hsf Hkf. apply HQ.
  assert (nodes (plug c2 (T l2 m b2 r2)) = pre c ++ nodes l ++ nodes r ++ post c) as Enf.
  { rewrite (nodes_rename c2 l2 p m b2 r2 _ _ Hnd1 En1), Em, nodes_plug, Hpre. by app_norm. }
  destruct (balanced_rename _ _ _ m _ _ _ Hb3) as [h4 Hb4].
  eexists _, h4. split; [exact Hsf|split; [exact Hb4|split; [exact Enf|]]].
  eapply kept_trans; [exact Hk1|exact Hkf|]. rewrite Enf, Ent, Em, nodes_plug, Hpre. clear. intros z. simpl.
  rewrite ?elem_of_app, ?elem_of_cons, ?elem_of_app; simpl; rewrite ?elem_of_cons, ?elem_of_app. tauto.
Qed.
End remove.
