(* ===== verification/AvlRefine.v ===== *)
(** The trees of src/libcommon/avl.c against their specification: a tree in
    memory stands for the sorted list of AvlSpec, and every operation does to it
    what the operation of AvlSpec does to the list. *)

From Stdlib Require Import ZArith Lia Sorted.
From stdpp Require Import base list numbers option gmap sets.
From S2P Require Import Prelude AvlSpec Avl AvlTree AvlBalance AvlList AvlRemove.

Local Open Scope Z_scope.
Local Open Scope avl_scope.

(** * Runs of equal keys *)
Section runs.
Context {K : Type} (comp : K -> K -> Z) `{!Comparator comp}.
Notation elem := (ptr * K)%type.
Implicit Types (l : list elem) (F : ptr -> bool).

(** Followers have the key of the node in front of them, the other nodes have
    a greater one. *)
Fixpoint runs F (o : option K) l : Prop :=
  match l with
  | [] => True
  | (p, k) :: l' =>
      match o with None => F p = false | Some k0 => if F p then comp k0 k = 0 else comp k0 k < 0 end /\
      runs F (Some k) l'
  end.

Definition last_key (o : option K) l : option K := foldl (fun _ e => Some e.2) o l.

Lemma runs_app F o l1 l2 : runs F o (l1 ++ l2) <-> runs F o l1 /\ runs F (last_key o l1) l2.
Proof. revert o. induction l1 as [|[p k] l1 IH]; intros o; simpl; [tauto|]. rewrite IH. tauto. Qed.

Lemma runs_ext F F' o l : (forall p k, (p, k) ∈ l -> F' p = F p) -> runs F o l -> runs F' o l.
Proof.
  revert o. induction l as [|[p k] l IH]; intros o HF; simpl; [done|]. intros [H1 H2].
  rewrite (HF p k) by left. split; [done|]. apply IH; [|done]. intros q j Hq. apply (HF q j). by right.
Qed.

Lemma runs_key F k0 k1 l : comp k0 k1 = 0 -> runs F (Some k0) l -> runs F (Some k1) l.
Proof.
  intros E. destruct l as [|[p k] l]; simpl; [done|]. intros [H1 H2]. split; [|done]. pose proof (cmp_eq_sym comp _ _ E) as E'.
  destruct (F p).
  - assert (comp k1 k <= 0) by (eapply cmp_trans; [|exact (Z.eq_le_incl _ _ H1)]; lia).
    assert (comp k k1 <= 0) by (eapply cmp_trans; [|exact (Z.eq_le_incl _ _ E)]; rewrite (cmp_eq_sym comp _ _ H1); lia).
    destruct (Z.eq_dec (comp k1 k) 0); [done|]. assert (comp k1 k < 0) as H3%cmp_flip by lia. lia.
  - eapply (cmp_lt_trans_r comp); [|exact H1]. lia.
Qed.

(** The nodes that are in the tree. *)
Definition leaders F l : list elem := filter (fun e => F e.1 = false) l.

(** What holds of the leaders holds of the keys of all nodes. *)
Lemma runs_forall F (P : K -> Prop) o l : (forall k0 k1, comp k0 k1 = 0 -> P k0 -> P k1) ->
  runs F o l -> (forall k0, o = Some k0 -> P k0) -> Forall (fun e => P e.2) (leaders F l) -> Forall (fun e => P e.2) l.
Proof.
  intros HP. revert o. induction l as [|[p k] l IH]; intros o; [constructor|]. intros [H1 H2] Ho Hl.
  unfold leaders in Hl. rewrite filter_cons in Hl. cbn [fst] in Hl. destruct (F p) eqn:EF.
  - rewrite decide_False in Hl by done.
    assert (P k) as Hk by (destruct o as [k0|]; [|done]; by eapply HP; [|apply Ho]).
    constructor; [done|]. apply (IH (Some k)); [done| |done]. by intros ? [= <-].
  - rewrite decide_True in Hl by done. apply Forall_cons in Hl as [Hk Hl].
    constructor; [done|]. apply (IH (Some k)); [done| |done]. by intros ? [= <-].
Qed.

Lemma comp_pos_eq k k0 k1 : comp k0 k1 = 0 -> 0 < comp k k0 -> 0 < comp k k1.
Proof.
  intros E H%cmp_flip. apply cmp_flip. eapply (cmp_lt_trans_r comp); [|exact H]. rewrite (cmp_eq_sym comp _ _ E). lia.
Qed.
Lemma comp_neg_eq k k0 k1 : comp k0 k1 = 0 -> comp k k0 < 0 -> comp k k1 < 0.
Proof. intros E H. eapply (cmp_lt_trans_l comp); [exact H|lia]. Qed.
Lemma comp_zero_eq k k0 k1 : comp k k0 = 0 -> 0 < comp k0 k1 <-> 0 < comp k k1.
Proof.
  intros E. pose proof (cmp_eq_sym comp _ _ E) as E'. split; intros H%cmp_flip; apply cmp_flip.
  - eapply (cmp_lt_trans_l comp); [exact H|lia].
  - eapply (cmp_lt_trans_l comp); [exact H|lia].
Qed.

(** Runs are sorted, the leaders strictly. *)
Lemma runs_lower F k0 l : runs F (Some k0) l -> Forall (fun e => comp k0 e.2 <= 0) l.
Proof.
  revert k0. induction l as [|[p k] l IH]; intros k0; [constructor|]. intros [H1 H2].
  assert (comp k0 k <= 0) by (destruct (F p); lia). constructor; [done|].
  eapply Forall_impl; [apply (IH _ H2)|]. intros e He. by eapply cmp_trans.
Qed.

Lemma runs_sorted F o l : runs F o l -> tree_sorted snd comp l.
Proof.
  revert o. induction l as [|[p k] l IH]; intros o; [constructor|]. intros [H1 H2].
  constructor; [by eapply IH|]. apply runs_lower in H2. exact H2.
Qed.

Lemma leaders_sorted F o l : runs F o l ->
  StronglySorted (fun e1 e2 => comp e1.2 e2.2 < 0) (leaders F l) /\
  (forall k0, o = Some k0 -> Forall (fun e => comp k0 e.2 < 0) (leaders F l)).
Proof.
  revert o. induction l as [|[p k] l IH]; intros o; [split; [constructor|intros; constructor]|]. intros [H1 H2].
  destruct (IH _ H2) as [IH1 IH2]. specialize (IH2 k eq_refl).
  unfold leaders in *. rewrite filter_cons. cbn [fst]. destruct (F p) eqn:EF.
  - rewrite decide_False by done. split; [done|]. intros k0 ->.
    eapply Forall_impl; [exact IH2|]. intros e He. eapply (cmp_lt_trans_r comp); [|exact He]. lia.
  - rewrite decide_True by done. split; [by constructor|]. intros k0 ->. constructor; [done|].
    eapply Forall_impl; [exact IH2|]. intros e He. eapply (cmp_lt_trans_r comp); [|exact He]. lia.
Qed.

(** A place among the leaders is a place in the list. *)
Lemma leaders_split F l a e b : leaders F l = a ++ e :: b ->
  exists l1 l2, l = l1 ++ e :: l2 /\ leaders F l1 = a /\ leaders F l2 = b /\ F e.1 = false.
Proof.
  revert a. induction l as [|x l IH]; intros a; [by destruct a|]. unfold leaders in *. rewrite filter_cons.
  destruct (decide (F x.1 = false)) as [Hx|Hx].
  - destruct a as [|y a]; simpl; intros [= -> E].
    + by exists [], l.
    + destruct (IH a E) as (l1 & l2 & -> & E1 & E2 & E3). exists (y :: l1), l2.
      rewrite filter_cons_True by done. by rewrite E1.
  - intros E. destruct (IH a E) as (l1 & l2 & -> & E1 & E2 & E3). exists (x :: l1), l2.
    by rewrite filter_cons_False by done.
Qed.

(** The followers behind a node. *)
Lemma split_followers F k0 l : runs F (Some k0) l -> exists fs l3, l = fs ++ l3 /\ leaders F l3 = leaders F l /\
  Forall (fun e => F e.1 = true /\ comp k0 e.2 = 0) fs /\ match l3 with [] => True | e :: _ => F e.1 = false end.
Proof.
  revert k0. induction l as [|[p k] l IH]; intros k0; [by exists [], []|]. intros [H1 H2]. destruct (F p) eqn:EF.
  - destruct (IH _ H2) as (fs & l3 & -> & E & Hfs & H3). exists ((p, k) :: fs), l3. split; [done|]. split; [|split; [|done]].
    + unfold leaders in *. by rewrite filter_cons_False by (simpl; congruence).
    + constructor; [done|]. eapply Forall_impl; [exact Hfs|]. intros e [He1 He2]. split; [done|].
      assert (comp k0 e.2 <= 0) by (eapply cmp_trans; [exact (Z.eq_le_incl _ _ H1)|lia]).
      destruct (Z.eq_dec (comp k0 e.2) 0); [done|]. exfalso.
      assert (comp k e.2 < 0); [|lia]. eapply (cmp_lt_trans_r comp k k0); [rewrite (cmp_eq_sym comp _ _ H1); lia|lia].
  - exists [], ((p, k) :: l). split; [done|]. split; [done|split; [constructor|done]].
Qed.

(** Insertion in the list of AvlSpec, at a known place. *)
Lemma insert_skip (x : elem) l1 l2 : Forall (fun e => 0 < comp x.2 e.2) l1 ->
  tree_insert_dup snd comp x (l1 ++ l2) = l1 ++ tree_insert_dup snd comp x l2.
Proof.
  induction 1 as [|e l1 He _ IH]; simpl; [done|].
  destruct (Z.ltb_spec (comp x.2 e.2) 0); [lia|]. destruct (Z.eqb_spec (comp x.2 e.2) 0); [lia|]. by rewrite IH.
Qed.

Lemma insert_skip_option (x : elem) l1 l2 : Forall (fun e => 0 < comp x.2 e.2) l1 ->
  tree_insert snd comp x (l1 ++ l2) = (fun l => l1 ++ l) <$> tree_insert snd comp x l2.
Proof.
  induction 1 as [|e l1 He _ IH]; simpl; [by destruct (tree_insert snd comp x l2)|].
  destruct (Z.ltb_spec (comp x.2 e.2) 0); [lia|]. destruct (Z.eqb_spec (comp x.2 e.2) 0); [lia|].
  rewrite IH. by destruct (tree_insert snd comp x l2).
Qed.

Lemma insert_here (x : elem) l : match l with [] => True | e :: _ => comp x.2 e.2 < 0 end ->
  tree_insert_dup snd comp x l = x :: l /\ tree_insert snd comp x l = Some (x :: l).
Proof. destruct l as [|e l]; simpl; [done|]. intros H. by destruct (Z.ltb_spec (comp x.2 e.2) 0); [|lia]. Qed.

Lemma find_skip k l1 l2 : Forall (fun e : elem => 0 < comp k e.2) l1 ->
  tree_find snd comp k (l1 ++ l2) = tree_find snd comp k l2.
Proof.
  induction 1 as [|e l1 He _ IH]; simpl; [done|].
  destruct (Z.ltb_spec (comp k e.2) 0); [lia|]. destruct (Z.eqb_spec (comp k e.2) 0); [lia|]. done.
Qed.
End runs.

(** * What a tree in memory stands for *)
Section invariant.
Context {K : Type} (comp : K -> K -> Z) `{!Comparator comp}.
Notation elem := (ptr * K)%type.
Implicit Types (s : avl_state K).

Definition is_follower s (p : ptr) : bool := match mem s !! p with Some n => follower n | None => false end.

Definition has_key s (e : elem) : Prop := exists n, mem s !! e.1 = Some n /\ node_key n = e.2.

(** The elements [l], in the order of the list. *)
Record avl_holds s (l : list elem) : Prop := {
  holds_tree : exists t h, holds s t /\ balanced t h /\ nodes t = (leaders (is_follower s) l).*1;
  holds_list : lists s l.*1;
  holds_keys : Forall (has_key s) l;
  holds_runs : runs comp (is_follower s) None l;
  holds_count : count (tree s) = u32 (Z.of_nat (length l));
  holds_dups : allow_dups (tree s) = false -> Forall (fun e => is_follower s e.1 = false) l;
}.

(** Keys and followers stay. *)
Definition same_data s s' (P : ptr -> Prop) : Prop :=
  forall p n, P p -> mem s !! p = Some n -> exists n', mem s' !! p = Some n' /\ node_key n' = node_key n /\ follower n' = follower n.

Lemma kept_data s s' X P : kept s s' X -> same_data s s' P.
Proof. intros H p n _ Hn. destruct (kept_node _ _ _ H p n Hn) as (n' & ? & _ & ? & ?). by exists n'. Qed.

Lemma relinked_data s s' P : relinked s s' -> same_data s s' P.
Proof. intros H p n _ Hn. destruct (relinked_node _ _ H p n Hn) as [l Hl]. by exists (with_list l n). Qed.

Lemma same_data_trans s1 s2 s3 P : same_data s1 s2 P -> same_data s2 s3 P -> same_data s1 s3 P.
Proof.
  intros H1 H2 p n Hp Hn. destruct (H1 p n Hp Hn) as (n' & Hn' & ? & ?). destruct (H2 p n' Hp Hn') as (n'' & ? & ? & ?).
  exists n''. repeat split; congruence.
Qed.

Lemma same_data_follower s s' P p : same_data s s' P -> P p -> is_Some (mem s !! p) -> is_follower s' p = is_follower s p.
Proof. intros H Hp [n Hn]. destruct (H p n Hp Hn) as (n' & Hn' & _ & E). unfold is_follower. by rewrite Hn, Hn'. Qed.

Lemma same_data_key s s' (P : ptr -> Prop) e : same_data s s' P -> P e.1 -> has_key s e -> has_key s' e.
Proof. intros H Hp (n & Hn & E). destruct (H _ n Hp Hn) as (n' & Hn' & E' & _). exists n'. split; [done|congruence]. Qed.

(** Trees do not depend on the list, lists not on the tree. *)
Lemma cell_relinked s s' p par cl cr b : relinked s s' -> cell (mem s) p par cl cr b -> cell (mem s') p par cl cr b.
Proof. intros H (n & Hn & ?). destruct (relinked_node _ _ H p n Hn) as [ls Hl]. by exists (with_list ls n). Qed.

Lemma rep_relinked s s' par t : relinked s s' -> rep (mem s) par t -> rep (mem s') par t.
Proof.
  intros H. revert par. induction t as [|l IHl p b r IHr]; intros par; simpl; [done|]. intros (H1 & H2 & H3).
  split; [by eapply cell_relinked|auto].
Qed.

Lemma holds_relinked s s' t : relinked s s' -> holds s t -> holds s' t.
Proof. intros H (H1 & H2 & H3). split; [by rewrite (relinked_root _ _ H)|split; [by eapply rep_relinked|done]]. Qed.

Lemma kept_links s s' X e : kept s s' X -> links s' e = links s e.
Proof.
  intros H. destruct e as [|p]; simpl; [by rewrite (kept_head _ _ _ H)|].
  destruct (mem s !! p) as [n|] eqn:E; simpl.
  - destruct (kept_node _ _ _ H p n E) as (n' & -> & E' & _). by rewrite <- E'.
  - by rewrite (kept_none _ _ _ H p E).
Qed.

Lemma ring_ext nx1 pv1 nx2 pv2 xs : (forall x, nx2 x = nx1 x) -> (forall x, pv2 x = pv1 x) -> ring nx1 pv1 xs -> ring nx2 pv2 xs.
Proof. intros H1 H2 H. eapply linked_ext; [exact H|auto|auto]. Qed.

Lemma lists_kept s s' X xs : kept s s' X -> lists s xs -> lists s' xs.
Proof.
  intros H (H1 & H2 & H3). split; [|split; [done|]].
  - eapply ring_ext; [..|exact H1]; intros x; unfold nx, pv; by rewrite (kept_links s s' X x H).
  - intros p Hp. destruct (H3 p Hp) as [n Hn]. destruct (kept_node _ _ _ H p n Hn) as (n' & -> & _). by eexists.
Qed.

(** A write to a node outside that keeps its links. *)
Lemma lists_upd s p n n' xs : mem s !! p = Some n -> node_list n' = node_list n -> lists s xs -> lists (upd s p n') xs.
Proof.
  intros Hn E (H1 & H2 & H3).
  assert (forall e, links (upd s p n') e = links s e) as He.
  { intros [|q]; [done|]. simpl. destruct (decide (p = q)) as [<-|]; [|by rewrite lookup_insert_ne].
    rewrite lookup_insert_eq, Hn. simpl. by rewrite E. }
  split; [|split; [done|]].
  - eapply ring_ext; [..|exact H1]; intros x; unfold nx, pv; by rewrite He.
  - intros q Hq. simpl. destruct (decide (p = q)) as [<-|]; [by rewrite lookup_insert_eq|by rewrite lookup_insert_ne; [apply H3|]].
Qed.

Lemma holds_outside s p n' t : holds s t -> p ∉ nodes t -> holds (upd s p n') t.
Proof.
  intros (H1 & H2 & H3) Hp. split; [done|split; [|done]]. eapply rep_frame; [exact H2|]. intros z Hz. simpl.
  rewrite lookup_insert_ne; [done|]. by intros ->.
Qed.

(** No list is longer than memory. *)
Lemma lists_length s xs : lists s xs -> (length xs <= size (mem s))%nat.
Proof.
  intros (_ & Hnd & Hd). rewrite <- size_dom. erewrite <- (size_list_to_set (C := gset ptr) xs) by done.
  apply subseteq_size. intros p Hp. apply elem_of_list_to_set in Hp. apply elem_of_dom. by apply Hd.
Qed.

Lemma leaders_length s (l : list elem) : (length (leaders (is_follower s) l).*1 <= length l.*1)%nat.
Proof. rewrite !length_fmap. apply length_filter. Qed.

Lemma leaders_in s (l : list elem) e : e ∈ leaders (is_follower s) l -> e ∈ l.
Proof. intros [_ H]%list_elem_of_filter. done. Qed.

Lemma keys_det s (l : list elem) p k n : Forall (has_key s) l -> (p, k) ∈ l -> mem s !! p = Some n -> node_key n = k.
Proof. intros H Hp Hn. rewrite Forall_forall in H. destruct (H _ Hp) as (m & Hm & E). simpl in *. congruence. Qed.

(** ** Search *)

Notation key_lt s := (fun p q => exists n m, mem s !! p = Some n /\ mem s !! q = Some m /\ comp (node_key n) (node_key m) < 0).

(** [_avl_find_rec] ends where the key is or would be: everything in front of
    the place is smaller, everything behind it greater. *)
Definition found s (t : shape) (key : K) (p : ptr) (diff : Z) : Prop :=
  exists c l b r n, t = plug c (T l p b r) /\ mem s !! p = Some n /\ diff = comp key (node_key n) /\
    (diff < 0 -> l = E) /\ (0 < diff -> r = E) /\
    (forall q m, q ∈ pre c -> mem s !! q = Some m -> 0 < comp key (node_key m)) /\
    (forall q m, q ∈ post c -> mem s !! q = Some m -> comp key (node_key m) < 0).

Lemma sorted_app_lt (R : ptr -> ptr -> Prop) (a : list ptr) p b : StronglySorted R (a ++ p :: b) ->
  (forall q, q ∈ a -> R q p) /\ (forall q, q ∈ b -> R p q).
Proof.
  induction a as [|x a IH]; simpl; inversion 1 as [|? ? H1 H2]; subst.
  - split; [by intros q ?%elem_of_nil|]. by rewrite Forall_forall in H2.
  - destruct (IH H1) as [IH1 IH2]. split; [|done]. intros q [->|Hq]%elem_of_cons; [|by apply IH1].
    rewrite Forall_forall in H2. apply H2. rewrite elem_of_app. right. left.
Qed.

Lemma find_rec_wp t fuel s c x key (Q : ptr * Z -> avl_state K -> Prop) :
  holds s (plug c t) -> root_of t = Some x -> (depth t <= fuel)%nat ->
  StronglySorted (key_lt s) (nodes (plug c t)) ->
  (forall q m, q ∈ pre c -> mem s !! q = Some m -> 0 < comp key (node_key m)) ->
  (forall q m, q ∈ post c -> mem s !! q = Some m -> comp key (node_key m) < 0) ->
  (forall p diff, found s (plug c t) key p diff -> Q (p, diff) s) ->
  wp (_avl_find_rec comp fuel x key) s Q.
Proof.
  revert fuel c x. induction t as [|l IHl p b r IHr]; intros fuel c x Hs Hx Hf Hsort Hpre Hpost HQ; [done|]. injection Hx as ->.
  destruct fuel as [|fuel]; [simpl in Hf; lia|]. cbn [_avl_find_rec].
  destruct (holds_node s c l x b r Hs) as (n & Hn & _ & E2 & E3 & _). do 2 wp_step. rewrite E2, E3.
  assert (depth l <= fuel /\ depth r <= fuel)%nat as [Hfl Hfr] by (cbn [depth] in Hf; lia).
  pose proof Hsort as Hsort'. rewrite nodes_plug in Hsort'. cbn [nodes] in Hsort'. rewrite <- app_assoc, app_assoc in Hsort'. simpl in Hsort'.
  destruct (sorted_app_lt _ _ _ _ Hsort') as [Hlow Hhigh].
  assert (forall d, (d < 0 -> l = E) -> (0 < d -> r = E) -> d = comp key (node_key n) -> wp (ret (x, d)) s Q) as Hret.
  { intros d H1 H2 H3. apply wp_ret, HQ. exists c, l, b, r, n. repeat split; done. }
  destruct (Z.ltb_spec (comp key (node_key n)) 0) as [Hd|Hd].
  { destruct l as [|ll pl bl rl] eqn:El; cbn [root_of]; [apply Hret; [done|lia|done]|]. rewrite <- El in *.
    apply (IHl fuel (FL x b r :: c)); [done|by rewrite El|done|done|done| |done].
    intros q m Hq Hm. simpl in Hq. rewrite elem_of_cons, elem_of_app in Hq. destruct Hq as [->|[Hq|Hq]]; [congruence| |by eapply Hpost].
    destruct (Hhigh q) as (n' & m' & Hn' & Hm' & H); [rewrite elem_of_app; tauto|]. rewrite Hn in Hn'. rewrite Hm in Hm'.
    injection Hn' as <-. injection Hm' as <-. eapply (cmp_lt_trans_r comp); [|exact H]. lia. }
  destruct (Z.ltb_spec 0 (comp key (node_key n))) as [Hd2|Hd2]; [|apply Hret; [lia|lia|done]].
  destruct r as [|lr pr br rr] eqn:Er; cbn [root_of]; [apply Hret; [lia|done|done]|]. rewrite <- Er in *.
  apply (IHr fuel (FR l x b :: c)); [done|by rewrite Er|done|done| |done|done].
  intros q m Hq Hm. simpl in Hq. rewrite !elem_of_app, list_elem_of_singleton in Hq. destruct Hq as [Hq|[Hq| ->]]; [by eapply Hpre| |congruence].
  destruct (Hlow q) as (n' & m' & Hn' & Hm' & H); [rewrite elem_of_app; tauto|]. rewrite Hn in Hm'. rewrite Hm in Hn'.
  injection Hn' as <-. injection Hm' as <-. apply cmp_flip. eapply (cmp_lt_trans_l comp); [exact H|]. apply cmp_flip in Hd2. lia.
Qed.

(** The place in the list: [l1] is smaller, and so is [l2] greater as far as it
    is not equal to [p]. *)
Record place s (l : list elem) (key : K) (t : shape) (p : ptr) (diff : Z) (l1 : list elem) (kp : K) (l2 : list elem)
    (c : context) (sl : shape) (b : Z) (sr : shape) : Prop := {
  place_list : l = l1 ++ (p, kp) :: l2;
  place_diff : diff = comp key kp;
  place_leader : is_follower s p = false;
  place_tree : t = plug c (T sl p b sr);
  place_before : (leaders (is_follower s) l1).*1 = pre c ++ nodes sl;
  place_after : (leaders (is_follower s) l2).*1 = nodes sr ++ post c;
  place_left : diff < 0 -> sl = E;
  place_right : 0 < diff -> sr = E;
  place_smaller : Forall (fun e => 0 < comp key e.2) l1;
  place_greater : Forall (fun e => comp key e.2 < 0) (leaders (is_follower s) l2);
}.

Lemma sorted_app_elem (R : elem -> elem -> Prop) a e b : StronglySorted R (a ++ e :: b) ->
  Forall (fun x => R x e) a /\ Forall (R e) b.
Proof.
  induction a as [|x a IH]; simpl; inversion 1 as [|? ? H1 H2]; subst; [done|].
  destruct (IH H1) as [IH1 IH2]. split; [|done]. constructor; [|done].
  rewrite Forall_forall in H2. apply H2. rewrite elem_of_app. right. left.
Qed.

Lemma found_place s l key t p diff : avl_holds s l -> nodes t = (leaders (is_follower s) l).*1 -> found s t key p diff ->
  exists l1 kp l2 c sl b sr, place s l key t p diff l1 kp l2 c sl b sr.
Proof.
  intros H En (c & sl & b & sr & n & Et & Hn & Ed & Hsl & Hsr & Hpre & Hpost).
  assert (exists la kp lb, leaders (is_follower s) l = la ++ (p, kp) :: lb /\ la.*1 = pre c ++ nodes sl /\ lb.*1 = nodes sr ++ post c)
    as (la & kp & lb & El & Ea & Eb).
  { rewrite Et, nodes_plug in En. cbn [nodes] in En. rewrite <- app_assoc, app_assoc in En. symmetry in En.
    apply fmap_app_inv in En as (la & lb & Ea & Eb & ->). symmetry in Eb. destruct lb as [|[q kp] lb]; [done|].
    injection Eb as -> Eb. by exists la, kp, lb. }
  destruct (leaders_split _ _ _ _ _ El) as (l1 & l2 & -> & E1 & E2 & Hp). simpl in Hp.
  assert (node_key n = kp) as Ek by (eapply keys_det; [apply H| |exact Hn]; rewrite elem_of_app; right; left).
  rewrite Ek in Ed. pose proof (leaders_sorted comp _ _ _ (holds_runs _ _ H)) as [Hs _]. rewrite El in Hs.
  destruct (sorted_app_elem _ _ _ _ Hs) as [Hlow Hhigh]. cbn [snd] in Hlow, Hhigh.
  exists l1, kp, l2, c, sl, b, sr. split; try done; [by rewrite E1|by rewrite E2| |].
  - eapply (runs_forall comp (is_follower s) (fun k => 0 < comp key k) None);
      [intros ? ?; by apply comp_pos_eq| |done|].
    { pose proof (holds_runs _ _ H) as Hr. apply runs_app in Hr. tauto. }
    rewrite E1.
    destruct (Z.lt_ge_cases diff 0) as [Hd|Hd].
    + rewrite (Hsl Hd) in Ea. simpl in Ea. rewrite app_nil_r in Ea. apply Forall_forall. intros [q k] Hq.
      assert ((q, k) ∈ l1) as Hq' by (rewrite <- E1 in Hq; by eapply leaders_in).
      pose proof (holds_keys _ _ H) as Hk. rewrite Forall_forall in Hk. destruct (Hk (q, k)) as (m & Hm & Em).
      { rewrite elem_of_app. by left. }
      simpl in Em |- *. rewrite <- Em. apply (Hpre q); [|done]. rewrite <- Ea. apply list_elem_of_fmap. by exists (q, k).
    + eapply Forall_impl; [exact Hlow|]. intros e He. simpl. apply cmp_flip.
      eapply (cmp_lt_trans_l comp); [exact He|]. destruct (Z.eq_dec (comp key kp) 0) as [E0|E0].
      * rewrite (cmp_eq_sym comp _ _ E0). lia.
      * assert (comp kp key < 0); [apply cmp_flip; lia|lia].
  - rewrite E2. destruct (Z.lt_ge_cases 0 diff) as [Hd|Hd].
    + rewrite (Hsr Hd) in Eb. simpl in Eb. apply Forall_forall. intros [q k] Hq.
      assert ((q, k) ∈ l2) as Hq' by (rewrite <- E2 in Hq; by eapply leaders_in).
      pose proof (holds_keys _ _ H) as Hk. rewrite Forall_forall in Hk. destruct (Hk (q, k)) as (m & Hm & Em).
      { rewrite elem_of_app. right. by right. }
      simpl in Em |- *. rewrite <- Em. apply (Hpost q); [|done]. rewrite <- Eb. apply list_elem_of_fmap. by exists (q, k).
    + eapply Forall_impl; [exact Hhigh|]. intros e He. simpl. eapply (cmp_lt_trans_r comp); [|exact He]. lia.
Qed.
End invariant.

Arguments place_list {K comp s l key t p diff l1 kp l2 c sl b sr} _.
Arguments place_diff {K comp s l key t p diff l1 kp l2 c sl b sr} _.
Arguments place_leader {K comp s l key t p diff l1 kp l2 c sl b sr} _.
Arguments place_tree {K comp s l key t p diff l1 kp l2 c sl b sr} _.
Arguments place_before {K comp s l key t p diff l1 kp l2 c sl b sr} _.
Arguments place_after {K comp s l key t p diff l1 kp l2 c sl b sr} _.
Arguments place_left {K comp s l key t p diff l1 kp l2 c sl b sr} _.
Arguments place_right {K comp s l key t p diff l1 kp l2 c sl b sr} _.
Arguments place_smaller {K comp s l key t p diff l1 kp l2 c sl b sr} _.
Arguments place_greater {K comp s l key t p diff l1 kp l2 c sl b sr} _.
Arguments holds_tree {K comp s l} _.
Arguments holds_list {K comp s l} _.
Arguments holds_keys {K comp s l} _.
Arguments holds_runs {K comp s l} _.
Arguments holds_count {K comp s l} _.
Arguments holds_dups {K comp s l} _.
