(* ===== verification/AvlExample.v ===== *)
(** Concrete trees of src/libcommon/avl.c: an empty one, and one with a
    duplicate key that [avl_insert] builds. *)

From Stdlib Require Import ZArith Lia.
From stdpp Require Import base list numbers option gmap sets.
From S2P Require Import Prelude AvlSpec Avl AvlTree AvlBalance AvlList AvlRemove AvlRefine.

Local Open Scope Z_scope.
Local Open Scope avl_scope.

#[export] Instance sub_comparator : Comparator Z.sub.
Proof. split; intros; lia. Qed.

(** [avl_init] makes an empty tree, whatever memory holds. *)
Lemma avl_holds_init {K} (comp : K -> K -> Z) dups (m : gmap ptr (avl_node K)) :
  avl_holds comp {| tree := avl_init dups; mem := m |} [].
Proof.
  split; try done.
  - exists AvlTree.E, 0. split; [|by split; [constructor|]]. split; [done|split; [done|constructor]].
  - split; [by repeat split|]. split; [constructor|]. intros p Hp. by apply elem_of_nil in Hp.
Qed.

(** Nodes 1 to 5 with the keys 5, 3, 8, 3 and 1: node 4 is a follower of node 2;
    node 6 with the key 7 is not in the tree. *)
Definition example_keys : list Z := [5; 3; 8; 3; 1; 7].

Definition example_tree : avl_state Z := Eval vm_compute in
  match example_run [1; 2; 3; 4; 5]%positive [] (example_state example_keys) with
  | Def (_, s) => s
  | Undef _ => example_state []
  end.

Definition example_list : list (ptr * Z) := 
  [(5%positive, 1); (2%positive, 3); (4%positive, 3); (1%positive, 5); (3%positive, 8)].

Definition example_shape : shape :=
  T (T (T AvlTree.E 5 0 AvlTree.E) 2 (-1) AvlTree.E) 1 (-1) (T AvlTree.E 3 0 AvlTree.E).

Lemma example_shape_balanced : balanced example_shape 3.
Proof.
  change 3 with (1 + Z.max (1 + Z.max (1 + Z.max 0 0) 0) (1 + Z.max 0 0)).
  repeat first [apply balanced_E | apply balanced_T]; cbn; lia.
Qed.

Lemma example_holds : avl_holds Z.sub example_tree example_list.
Proof.
  split.
  - exists example_shape, 3. split; [|split; [apply example_shape_balanced|vm_compute; reflexivity]].
    split; [reflexivity|split]; [|apply (bool_decide_unpack _); vm_compute; exact I].
    vm_compute. repeat split; eexists; repeat split.
  - split; [vm_compute; repeat split|]. split; [apply (bool_decide_unpack _); vm_compute; exact I|].
    apply Forall_forall. repeat (constructor; [vm_compute; eexists; reflexivity|]). constructor.
  - repeat (constructor; [vm_compute; eexists; split; reflexivity|]). constructor.
  - vm_compute. repeat split.
  - reflexivity.
  - discriminate.
Qed.
