(* ===== verification/AvlApi.v ===== *)
(** The operations of src/libcommon/avl.c on a tree in memory, each against the
    operation of AvlSpec on the list that the tree stands for. *)

From Stdlib Require Import ZArith Lia Sorted.
From stdpp Require Import base list numbers option gmap sets.
From S2P Require Import Prelude AvlSpec Avl AvlTree AvlBalance AvlList AvlRemove AvlRefine AvlExample.

Local Open Scope Z_scope.
Local Open Scope avl_scope.

Section api.
Context {K : Type} (comp : K -> K -> Z) `{!Comparator comp}.
Notation elem := (ptr * K)%type.
Implicit Types (s : avl_state K) (l : list elem).
Notation avl_holds := (avl_holds comp).

Lemma wp_with_fuel {A} (f : nat -> avl_M K A) s Q : wp (f (S (size (mem s)))) s Q -> wp (with_fuel f) s Q.
Proof. done. Qed.

(** ** Search *)

Lemma leaders_sorted_ptr s l : avl_holds s l ->
  StronglySorted (fun p q => exists n m, mem s !! p = Some n /\ mem s !! q = Some m /\ comp (node_key n) (node_key m) < 0)
    (leaders (is_follower s) l).*1.
Proof.
  intros H. pose proof (holds_keys H) as Hk. rewrite Forall_forall in Hk.
  destruct (leaders_sorted comp _ _ _ (holds_runs H)) as [Hs _].
  assert (forall e, e ∈ leaders (is_follower s) l -> e ∈ l) as Hin by (intros e; apply leaders_in).
  induction Hs as [|e a Hs IH He]; simpl; [constructor|]. constructor.
  - apply IH. intros e' He'. apply Hin. by right.
  - rewrite Forall_fmap, Forall_forall. rewrite Forall_forall in He. intros e' He'. specialize (He e' He').
    destruct (Hk e) as (n & Hn & En); [apply Hin; left|]. destruct (Hk e') as (m & Hm & Em); [apply Hin; by right|].
    exists n, m. simpl. rewrite En, Em. done.
Qed.

Lemma leaders_nil s l : avl_holds s l -> leaders (is_follower s) l = [] -> l = [].
Proof.
  intros H. pose proof (holds_runs H) as Hr. destruct l as [|[p k] l]; [done|]. destruct Hr as [Hp _].
  unfold leaders. by rewrite filter_cons_True.
Qed.

Lemma fuel_enough s l : avl_holds s l -> (length l <= size (mem s) /\ length (leaders (is_follower s) l).*1 <= size (mem s))%nat.
Proof.
  intros H. pose proof (lists_length _ _ (holds_list H)) as H1. pose proof (leaders_length s l) as H2.
  rewrite !length_fmap in *. lia.
Qed.

(** The first step of every operation: an empty tree, or the place of the key. *)
Lemma search_wp s l key r fuel (Q : ptr * Z -> avl_state K -> Prop) :
  avl_holds s l -> root (tree s) = Some r ->
  (forall t h, balanced t h -> nodes t = (leaders (is_follower s) l).*1 -> (depth t <= fuel)%nat) ->
  (forall t h p diff l1 kp l2 c sl b sr, holds s t -> balanced t h -> nodes t = (leaders (is_follower s) l).*1 ->
     place comp s l key t p diff l1 kp l2 c sl b sr -> Q (p, diff) s) ->
  wp (_avl_find_rec comp fuel r key) s Q.
Proof.
  intros H Hr Hf HQ. destruct (holds_tree H) as (t & h & Ht & Hb & En).
  eapply (find_rec_wp comp t _ s [] r); [exact Ht|by destruct Ht as [<- _]|by eapply Hf| |..].
  - simpl. rewrite En. by apply leaders_sorted_ptr.
  - by intros q m ?%elem_of_nil.
  - by intros q m ?%elem_of_nil.
  - intros p diff Hfound. destruct (found_place comp s l key t p diff H En Hfound) as (l1 & kp & l2 & c & sl & b & sr & HP).
    by eapply HQ.
Qed.

(** As much fuel as there are elements is enough for the search. *)
Lemma fuel_depth s l fuel : (length l <= fuel)%nat ->
  forall t h, balanced t h -> nodes t = (leaders (is_follower s) l).*1 -> (depth t <= fuel)%nat.
Proof.
  intros Hf t h _ En. pose proof (depth_nodes t) as Hd. rewrite En in Hd. pose proof (leaders_length s l) as Hl.
  rewrite !length_fmap in *. lia.
Qed.

Lemma root_none s l : avl_holds s l -> root (tree s) = None -> l = [].
Proof.
  intros H Hr. destruct (holds_tree H) as (t & h & (Hrt & _) & _ & En). apply (leaders_nil s); [done|].
  rewrite Hr in Hrt. destruct t; [|done]. simpl in En. symmetry in En. by apply fmap_nil_inv in En.
Qed.

(** Behind the place: followers of [p] and then greater keys. *)
Lemma place_behind s l key t p diff l1 kp l2 c sl b sr : avl_holds s l -> place comp s l key t p diff l1 kp l2 c sl b sr ->
  exists fs l3, l2 = fs ++ l3 /\ leaders (is_follower s) l3 = leaders (is_follower s) l2 /\
    Forall (fun e => is_follower s e.1 = true /\ comp kp e.2 = 0) fs /\
    match l3 with [] => True | e :: _ => is_follower s e.1 = false /\ comp key e.2 < 0 end.
Proof.
  intros H HP. pose proof (holds_runs H) as Hr. rewrite (place_list HP) in Hr.
  apply runs_app in Hr as [_ [_ Hr]]. destruct (split_followers comp _ _ _ Hr) as (fs & l3 & -> & E & Hfs & H3).
  exists fs, l3. split; [done|split; [done|split; [done|]]]. destruct l3 as [|e l3]; [done|]. split; [done|].
  pose proof (place_greater HP) as Hg. rewrite <- E in Hg. unfold leaders in Hg.
  rewrite filter_cons_True in Hg by done. by apply Forall_cons in Hg as [? _].
Qed.

Lemma followers_beyond key kp (fs : list elem) (F : ptr -> bool) : 0 < comp key kp ->
  Forall (fun e => F e.1 = true /\ comp kp e.2 = 0) fs -> Forall (fun e => 0 < comp key e.2) fs.
Proof. intros H Hf. eapply Forall_impl; [exact Hf|]. intros e [_ He]. by eapply (comp_pos_eq comp). Qed.

(** [avl_find]: in every tree in memory the search ends and returns the node
    that the specification of AvlSpec finds in the sorted list, or NULL; it
    changes nothing. *)
Theorem avl_find_refines s l key : avl_holds s l ->
  avl_find comp key s = Def (fst <$> tree_find snd comp key l, s).
Proof.
  intros H. cut (wp (avl_find comp key) s (fun o s' => o = fst <$> tree_find snd comp key l /\ s' = s)).
  { intros (o & s' & -> & -> & ->)%wp_Def. done. }
  apply wp_with_fuel.
  do 2 wp_step. destruct (root (tree s)) as [r|] eqn:Er.
  2: { apply wp_ret. by rewrite (root_none s l H Er). }
  apply wp_bind. pose proof (fuel_enough s l H). eapply search_wp; [exact H|exact Er|apply fuel_depth; lia|].
  intros t h p diff l1 kp l2 c sl b sr _ _ _ HP. apply wp_ret. split; [|done]. cbn [fst snd].
  rewrite (place_list HP), find_skip by apply HP. cbn [tree_find snd].
  rewrite (place_diff HP).
  destruct (Z.ltb_spec (comp key kp) 0) as [Hd|Hd]; [by destruct (Z.eqb_spec (comp key kp) 0); [lia|]|].
  destruct (Z.eqb_spec (comp key kp) 0) as [Hd0|Hd0]; [done|].
  destruct (place_behind _ _ _ _ _ _ _ _ _ _ _ _ _ H HP) as (fs & l3 & -> & _ & Hfs & H3).
  rewrite find_skip by (eapply followers_beyond; [|exact Hfs]; lia).
  destruct l3 as [|e l3]; [done|]. simpl. by destruct (Z.ltb_spec (comp key e.2) 0); [|lia].
Qed.
(** ** Insertion *)

Lemma upd_outside_data s p n' (P : ptr -> Prop) : ~ P p -> same_data s (upd s p n') P.
Proof.
  intros Hp q n Hq Hn. exists n. simpl. rewrite lookup_insert_ne; [done|]. by intros ->.
Qed.

(** What holds of the old elements in the new state. *)
Lemma data_followers s sf l : same_data s sf (fun p => p ∈ l.*1) -> Forall (has_key s) l ->
  (forall p k, (p, k) ∈ l -> is_follower sf p = is_follower s p) /\ Forall (has_key sf) l.
Proof.
  intros Hd Hk. rewrite Forall_forall in Hk. split.
  - intros p k Hp. destruct (Hk _ Hp) as (n & Hn & _). eapply (same_data_follower s sf); [exact Hd| |by eexists].
    apply list_elem_of_fmap. by exists (p, k).
  - apply Forall_forall. intros e He. eapply (same_data_key s sf); [exact Hd| |by apply Hk].
    apply list_elem_of_fmap. by exists e.
Qed.

Lemma leaders_ext F F' l : (forall p k, (p, k) ∈ l -> F' p = F p) -> leaders F' l = leaders F l.
Proof. intros H. apply filter_ext_in. intros [p k] Hp. simpl. by rewrite (H p k Hp). Qed.

Lemma runs_head F o k l : runs comp F o l ->
  match l with [] => True | e :: _ => if F e.1 then comp k e.2 = 0 else comp k e.2 < 0 end -> runs comp F (Some k) l.
Proof. destruct l as [|[p j] l]; simpl; [done|]. intros [_ ?] ?. done. Qed.

(** A tree that is as before outside of its nodes [l] holds them still. *)
Lemma avl_holds_outside s l p n n' : avl_holds s l -> p ∉ l.*1 -> mem s !! p = Some n -> node_list n' = node_list n ->
  avl_holds (upd s p n') l.
Proof.
  intros H Hp Hn E. destruct (data_followers s (upd s p n') l) as [HF HK]; [by apply upd_outside_data|apply H|].
  destruct H as [(t & h & Ht & Hb & En) Hl Hk Hr Hc Hd]. split.
  - exists t, h. rewrite (leaders_ext _ _ l HF), <- En. split; [|done]. apply holds_outside; [done|].
    rewrite En. intros Hp'. apply Hp. apply list_elem_of_fmap in Hp' as (e & -> & He). apply list_elem_of_fmap.
    exists e. split; [done|]. by eapply leaders_in.
  - by eapply lists_upd.
  - done.
  - by eapply runs_ext.
  - done.
  - intros Hd'. specialize (Hd Hd'). rewrite Forall_forall in Hd |- *. intros [q k] Hq. simpl. rewrite (HF q k Hq). by apply (Hd (q, k)).
Qed.

(** A new element in the gap between [l1] and [l2]. *)
Lemma insert_holds s sf l1 l2 new k n' f t h :
  avl_holds s (l1 ++ l2) -> same_data s sf (fun p => p ∈ (l1 ++ l2).*1) ->
  mem sf !! new = Some n' -> node_key n' = k -> follower n' = f ->
  lists sf (l1.*1 ++ new :: l2.*1) -> allow_dups (tree sf) = allow_dups (tree s) -> count (tree sf) = u32 (count (tree s) + 1) ->
  (if f then allow_dups (tree s) = true else True) ->
  match last_key None l1 with None => f = false | Some k0 => if f then comp k0 k = 0 else comp k0 k < 0 end ->
  match l2 with [] => True | e :: _ => if is_follower s e.1 then comp k e.2 = 0 else comp k e.2 < 0 end ->
  holds sf t -> balanced t h ->
  nodes t = (leaders (is_follower s) l1).*1 ++ (if f then [] else [new]) ++ (leaders (is_follower s) l2).*1 ->
  avl_holds sf (l1 ++ (new, k) :: l2).
Proof.
  intros H Hd Hn' Ek Ef Hl Ed Ec Hf Hlow Hhigh Ht Hb En.
  destruct (data_followers s sf (l1 ++ l2) Hd (holds_keys H)) as [HF HK].
  assert (is_follower sf new = f) as Efn by (unfold is_follower; by rewrite Hn').
  pose proof (holds_runs H) as Hr. apply runs_app in Hr as [Hr1 Hr2].
  assert (forall p k, (p, k) ∈ l1 -> is_follower sf p = is_follower s p) as HF1 by (intros p j Hp; apply (HF p j); rewrite elem_of_app; tauto).
  assert (forall p k, (p, k) ∈ l2 -> is_follower sf p = is_follower s p) as HF2 by (intros p j Hp; apply (HF p j); rewrite elem_of_app; tauto).
  split.
  - exists t, h. split; [done|split; [done|]]. rewrite En. unfold leaders at 3. rewrite filter_app, filter_cons. cbn [fst].
    fold (leaders (is_follower sf) l1). fold (leaders (is_follower sf) l2). rewrite (leaders_ext _ _ _ HF1), (leaders_ext _ _ _ HF2), Efn.
    destruct f; [rewrite decide_False by done|rewrite decide_True by done]; by rewrite fmap_app.
  - by rewrite fmap_app.
  - apply Forall_app in HK as [HK1 HK2]. apply Forall_app. split; [done|]. constructor; [by exists n'|done].
  - apply runs_app. split; [by eapply runs_ext|]. simpl. split.
    + rewrite Efn. by destruct (last_key None l1).
    + eapply runs_ext; [exact HF2|]. eapply runs_head; [exact Hr2|exact Hhigh].
  - rewrite Ec, (holds_count H), !length_app. simpl length. unfold u32, wrap. rewrite Zplus_mod_idemp_l. f_equal. lia.
  - intros Ha. rewrite Ed in Ha. pose proof (holds_dups H Ha) as Hfd. rewrite Forall_app in Hfd. destruct Hfd as [Hd1 Hd2].
    rewrite Forall_forall in Hd1, Hd2. apply Forall_app. split; [|constructor].
    + apply Forall_forall. intros [q j] Hq. simpl. rewrite (HF1 q j Hq). by apply (Hd1 (q, j)).
    + simpl. rewrite Efn. destruct f; [congruence|done].
    + apply Forall_forall. intros [q j] Hq. simpl. rewrite (HF2 q j Hq). by apply (Hd2 (q, j)).
Qed.
(** ** Steps along the list *)

Lemma head_links s xs : lists s xs -> prev (list_head (tree s)) = Some (before xs) /\ next (list_head (tree s)) = Some (after xs).
Proof.
  intros H. split.
  - assert (lists s (xs ++ [])) as H' by (by rewrite app_nil_r). by destruct (lists_gap s xs [] H') as [_ E].
  - by destruct (lists_gap s [] xs H) as [E _].
Qed.

Lemma is_last_wp s xs1 p xs2 (Q : bool -> avl_state K -> Prop) :
  lists s (xs1 ++ p :: xs2) -> Q (bool_decide (xs2 = [])) s -> wp (list_is_last p) s Q.
Proof.
  intros H HQ. unfold list_is_last. do 3 wp_step. destruct (head_links s _ H) as [-> _].
  assert (bool_decide (Some (before (xs1 ++ p :: xs2)) = Some (Entity p)) = bool_decide (xs2 = [])) as ->; [|done].
  apply bool_decide_ext. split; [|intros ->; by rewrite before_snoc].
  destruct xs2 as [|q xs _] using rev_ind; [done|].
  replace (xs1 ++ p :: xs ++ [q]) with ((xs1 ++ p :: xs) ++ [q]) by (by rewrite <- app_assoc).
  rewrite before_snoc. intros [= ->]. destruct H as (_ & Hnd & _). exfalso.
  destruct (nodup_split _ [p] (xs1 ++ xs ++ [p]) Hnd) as [_ Ho]; [solve_Permutation|].
  apply (Ho p); [rewrite !elem_of_app; right; right; left|left].
Qed.

Lemma is_first_wp s xs1 p xs2 (Q : bool -> avl_state K -> Prop) :
  lists s (xs1 ++ p :: xs2) -> Q (bool_decide (xs1 = [])) s -> wp (list_is_first p) s Q.
Proof.
  intros H HQ. unfold list_is_first. do 3 wp_step. destruct (head_links s _ H) as [_ ->].
  assert (bool_decide (Some (after (xs1 ++ p :: xs2)) = Some (Entity p)) = bool_decide (xs1 = [])) as ->; [|done].
  apply bool_decide_ext. destruct xs1 as [|q xs1]; [done|]. split; [|done]. cbn [app after]. intros [= ->].
  destruct H as (_ & Hnd & _). simpl in Hnd. apply NoDup_cons in Hnd as [Hq _]. exfalso. apply Hq. rewrite elem_of_app. right. left.
Qed.

Lemma next_of s xs1 p xs2 n : lists s (xs1 ++ p :: xs2) -> mem s !! p = Some n -> next (node_list n) = Some (after xs2).
Proof.
  intros H Hn. assert (xs1 ++ p :: xs2 = (xs1 ++ [p]) ++ xs2) as E by (by rewrite <- app_assoc). rewrite E in H.
  destruct (lists_gap s _ _ H) as [E' _]. rewrite before_snoc in E'. unfold nx in E'. simpl in E'. by rewrite Hn in E'.
Qed.

Lemma prev_of s xs1 p xs2 n : lists s (xs1 ++ p :: xs2) -> mem s !! p = Some n -> prev (node_list n) = Some (before xs1).
Proof.
  intros H Hn. destruct (lists_gap s xs1 (p :: xs2) H) as [_ E']. unfold pv in E'. simpl in E'. by rewrite Hn in E'.
Qed.

Lemma member s xs p : lists s xs -> p ∈ xs -> exists n, mem s !! p = Some n.
Proof. intros (_ & _ & H) Hp. by destruct (H p Hp) as [n ?]; exists n. Qed.

(** [_avl_find_last]: the last follower of [p]. *)
Lemma find_last_wp s fs xs1 p xs3 fuel (Q : ptr -> avl_state K -> Prop) :
  lists s (xs1 ++ p :: fs ++ xs3) -> Forall (fun q => is_follower s q = true) fs ->
  match xs3 with [] => True | q :: _ => is_follower s q = false end -> (length fs < fuel)%nat ->
  Q (List.last fs p) s -> wp (_avl_find_last fuel p) s Q.
Proof.
  revert xs1 p fuel. induction fs as [|f fs IH]; intros xs1 p fuel Hl Hfs H3 Hfuel HQ.
  all: destruct fuel as [|fuel]; [simpl in Hfuel; lia|]; cbn [_avl_find_last].
  all: wp_step; eapply is_last_wp; [exact Hl|].
  all: destruct (member s _ p Hl) as [n Hn]; [rewrite elem_of_app; right; left|].
  - destruct xs3 as [|q xs3]; [by rewrite bool_decide_true|]. rewrite bool_decide_false by done.
    do 2 wp_step. rewrite (next_of s xs1 p _ n Hl Hn). cbn [after app].
    destruct (member s _ q Hl) as [m Hm]; [rewrite elem_of_app; right; right; left|].
    do 4 wp_step. unfold is_follower in H3. rewrite Hm in H3. by rewrite H3.
  - rewrite bool_decide_false by done. do 2 wp_step. rewrite (next_of s xs1 p _ n Hl Hn). cbn [after app].
    destruct (member s _ f Hl) as [m Hm]; [rewrite elem_of_app; right; right; left|].
    do 4 wp_step. apply Forall_cons in Hfs as [Hf Hfs]. pose proof Hf as Hf'. unfold is_follower in Hf'. rewrite Hm in Hf'. rewrite Hf'. simpl.
    eapply (IH (xs1 ++ [p])); [by rewrite <- app_assoc|exact Hfs|exact H3|simpl in Hfuel; lia|].
    by rewrite list_last_cons in HQ.
Qed.
End api.

Lemma avl_find_refines_witness :
  avl_find Z.sub 3 example_tree = Def (Some 2%positive, example_tree) /\
  avl_find Z.sub 4 example_tree = Def (None, example_tree).
Proof.
  split; [rewrite (avl_find_refines Z.sub _ _ 3 example_holds)|rewrite (avl_find_refines Z.sub _ _ 4 example_holds)]; reflexivity.
Defined.
