(* ===== verification/AvlInsert.v ===== *)
(** [avl_insert] of src/libcommon/avl.c: the new node becomes a leaf or a
    follower, and the list and the tree of the result are those of AvlSpec. *)

From Stdlib Require Import ZArith Lia Sorted.
From stdpp Require Import base list numbers option gmap sets.
From S2P Require Import Prelude AvlSpec Avl AvlTree AvlBalance AvlList AvlRemove AvlRefine AvlExample AvlApi.

Local Open Scope Z_scope.
Local Open Scope avl_scope.

(** ** A new leaf *)
Section attach.
Context {K : Type}.
Implicit Types (s : avl_state K).

Definition fresh_leaf s (new p : ptr) : Prop :=
  exists n, mem s !! new = Some n /\ parent n = Some p /\ left n = None /\ right n = None /\ balance n = 0.

Lemma attach_holds s d c p b b' far n new :
  holds s (plug c (node_of d E p b far)) -> mem s !! p = Some n -> -128 <= b' < 128 ->
  fresh_leaf s new p -> new ∉ nodes (plug c (node_of d E p b far)) ->
  let s2 := upd (upd s p (with_balance b' n)) p (with_child d (Some new) (with_balance b' n)) in
  holds s2 (plug c (node_of d (T E new 0 E) p b' far)) /\ kept s s2 [p].
Proof.
  intros Hs Hn Hb' (nn & Hnn & E1 & E2 & E3 & E4) Hnew s2. pose proof Hs as (_ & _ & Hnd).
  assert (new <> p) as Hnp by (intros ->; apply Hnew, p_in_plug).
  pose proof (dbalance s d c E p b far n b' Hs Hn) as H1. split.
  - eapply (holds_child _ d c E p b' far (with_balance b' n) (T E new 0 E)); [exact H1|lk| |].
    + split; [|done]. exists nn. split; [lk|done].
    + assert (nodes (plug c (node_of d (T E new 0 E) p b' far)) ≡ₚ new :: nodes (plug c (node_of d E p b far))) as ->.
      { rewrite !nodes_plug, !nodes_node_of. simpl. solve_Permutation. }
      by apply NoDup_cons.
  - eapply (kept_trans _ (upd s p (with_balance b' n)) _ [p]); [eapply kept_upd; [exact Hn|left|done..]|eapply (kept_upd _ _ _ _ [p]); [lk|left|by destruct d..]|done].
Qed.

(** The tree of the result: [new] next to [p], and all nodes but [new] keep
    their links, keys and flags. *)
Definition attached s (d : side) c p far new (sf : avl_state K) : Prop :=
  exists t h, holds sf t /\ balanced t h /\ nodes t = nodes (plug c (node_of d (T E new 0 E) p 0 far)) /\
    kept s sf (new :: nodes (plug c (node_of d E p 0 far))).

Lemma nodes_attach d c p b b' far new : nodes (plug c (node_of d (T E new 0 E) p b far)) ≡ₚ new :: nodes (plug c (node_of d E p b' far)).
Proof. rewrite !nodes_plug, !nodes_node_of. simpl. solve_Permutation. Qed.

(** The other side is higher: nothing else changes. *)
Lemma attach_even_wp s d c p far h new (Q : Z -> avl_state K -> Prop) :
  holds s (plug c (node_of d E p (sg d) far)) -> balanced (node_of d E p (sg d) far) h -> balanced_ctx c h ->
  fresh_leaf s new p -> new ∉ nodes (plug c (node_of d E p (sg d) far)) ->
  (forall sf, attached s d c p far new sf -> Q 0 sf) ->
  wp (set_balance p 0 ;;; store p (with_child d (Some new)) ;;; ret 0) s Q.
Proof.
  intros Hs Hb Hc Hf Hnew HQ. destruct (dnode s d c E p _ far Hs) as (n & Hn & _).
  destruct (attach_holds s d c p _ 0 far n new Hs Hn) as [H1 Hk]; [lia|done|done|].
  do 4 wp_step. apply wp_ret, HQ.
  apply balanced_node_of in Hb as (hl & hr & Hl & Hr & Eb & Hb & ->). inversion Hl; subst.
  assert (hr = 1) as -> by (pose proof (sg_cases d) as [E|E]; rewrite E in *; lia).
  destruct (balanced_plug c (node_of d (T E new 0 E) p 0 far) (1 + Z.max 0 1)) as [h' Hh']; [done| |].
  { eapply (mk_balanced d _ p 0 far 1 1); [|exact Hr|lia..]. apply (balanced_T E new 0 E 0 0); [constructor|constructor|lia|lia]. }
  eexists _, h'. split; [exact H1|split; [exact Hh'|split; [done|]]].
  eapply kept_mono; [exact Hk|]. intros z ->%list_elem_of_singleton. right. apply p_in_plug.
Qed.

(** Both sides were empty: the subtree is higher, and the way up is rebalanced. *)
Lemma attach_odd_wp s d c p far h fuel new (Q : Z -> avl_state K -> Prop) :
  holds s (plug c (node_of d E p 0 far)) -> balanced (node_of d E p 0 far) h -> balanced_ctx c h ->
  fresh_leaf s new p -> new ∉ nodes (plug c (node_of d E p 0 far)) -> (length c < fuel)%nat ->
  (forall sf, attached s d c p far new sf -> Q 0 sf) ->
  wp (set_balance p (- sg d) ;;; store p (with_child d (Some new)) ;;; _post_insert fuel p ;;; ret 0) s Q.
Proof.
  intros Hs Hb Hc Hf Hnew Hfuel HQ. destruct (dnode s d c E p _ far Hs) as (n & Hn & _).
  pose proof (sg_cases d) as Hsg.
  destruct (attach_holds s d c p _ (- sg d) far n new Hs Hn) as [H1 Hk]; [lia|done|done|].
  apply balanced_node_of in Hb as (hl & hr & Hl & Hr & Eb & Hb & ->). inversion Hl; subst.
  assert (hr = 0) as -> by (destruct Hsg as [E|E]; rewrite E in *; lia).
  do 4 wp_step. rewrite swrap8_small by lia. apply wp_bind.
  set (s2 := upd _ _ _) in *.
  assert (exists l0 r0, node_of d (T E new 0 E) p (- sg d) far = T l0 p (- sg d) r0) as (l0 & r0 & ET) by (destruct d; by eexists _, _).
  rewrite ET in H1. eapply (post_insert_wp c fuel s2 l0 p (- sg d) r0 1); [exact H1| |lia|exact Hc|exact Hfuel|].
  - rewrite <- ET. eapply (mk_balanced d _ p _ far 1 0); [|exact Hr|lia..].
    apply (balanced_T E new 0 E 0 0); [constructor|constructor|lia|lia].
  - intros sf (t' & h' & Ht' & Hb' & En & Hk'). apply wp_ret, HQ. rewrite <- ET in *.
    exists t', h'. split; [done|split; [done|split; [by rewrite En; apply nodes_balance|]]].
    eapply kept_trans; [eapply kept_mono; [exact Hk|]|exact Hk'|].
    + intros z ->%list_elem_of_singleton. right. apply p_in_plug.
    + intros z. by rewrite nodes_attach.
Qed.
End attach.

(** ** The operation *)
Section insert.
Context {K : Type} (comp : K -> K -> Z) `{!Comparator comp}.
Notation elem := (ptr * K)%type.
Implicit Types (s : avl_state K) (l : list elem).
Notation avl_holds := (avl_holds comp).

(** The state behind the work on the list: [new] has its parent, its links and
    its key, and the tree does not know it yet. *)
Record listed s sL (new : ptr) (par : option ptr) (k : K) (f : bool) (xs : list ptr) : Prop := {
  listed_holds t : holds s t -> new ∉ nodes t -> holds sL t;
  listed_new : exists n, mem sL !! new = Some n /\ parent n = par /\ left n = None /\ right n = None /\ balance n = 0 /\
    node_key n = k /\ follower n = f;
  listed_lists : lists sL xs;
  listed_data : same_data s sL (fun p => p <> new);
  listed_count : count (tree sL) = u32 (count (tree s) + 1);
  listed_dups : allow_dups (tree sL) = allow_dups (tree s);
  listed_dom p n : mem s !! p = Some n -> exists n', mem sL !! p = Some n';
}.

Lemma listed_intro s s1 new n xs par k f :
  mem s !! new = Some n -> parent n = par -> left n = None -> right n = None -> balance n = 0 -> node_key n = k -> follower n = f ->
  relinked s s1 -> lists s1 xs ->
  listed s (upd_tree s1 (with_count (u32 (count (tree s1) + 1)) (tree s1))) new par k f xs.
Proof.
  intros Hn E1 E2 E3 E4 E5 E6 HR HL. split.
  - intros t Ht _. exact (holds_relinked s s1 t HR Ht).
  - destruct (relinked_node _ _ HR new n Hn) as [ls Hl]. by exists (with_list ls n).
  - exact HL.
  - exact (relinked_data s s1 _ HR).
  - simpl. by rewrite (relinked_count _ _ HR).
  - simpl. apply (relinked_dups _ _ HR).
  - intros p m Hm. destruct (relinked_node _ _ HR p m Hm) as [ls Hl]. by eexists.
Qed.

Lemma insert_before_wp s xs1 p xs2 new n k f (Q : unit -> avl_state K -> Prop) :
  lists s (xs1 ++ p :: xs2) -> new ∉ xs1 ++ p :: xs2 ->
  mem s !! new = Some n -> left n = None -> right n = None -> balance n = 0 -> node_key n = k -> follower n = f ->
  (forall sL, listed s sL new (parent n) k f (xs1 ++ new :: p :: xs2) -> Q tt sL) ->
  wp (_avl_insert_before p new) s Q.
Proof.
  intros Hl Hnew Hn E2 E3 E4 E5 E6 HQ. unfold _avl_insert_before. apply wp_bind.
  eapply list_add_before_wp; [exact Hl|exact Hnew|by eexists|]. intros s1 H1 HR. do 3 wp_step. apply HQ. by eapply listed_intro.
Qed.

Lemma insert_after_wp s xs1 p xs2 new n k f (Q : unit -> avl_state K -> Prop) :
  lists s (xs1 ++ p :: xs2) -> new ∉ xs1 ++ p :: xs2 ->
  mem s !! new = Some n -> left n = None -> right n = None -> balance n = 0 -> node_key n = k -> follower n = f ->
  (forall sL, listed s sL new (parent n) k f (xs1 ++ p :: new :: xs2) -> Q tt sL) ->
  wp (_avl_insert_after p new) s Q.
Proof.
  intros Hl Hnew Hn E2 E3 E4 E5 E6 HQ. unfold _avl_insert_after. apply wp_bind.
  eapply list_add_after_wp; [exact Hl|exact Hnew|by eexists|]. intros s1 H1 HR. do 3 wp_step. apply HQ. by eapply listed_intro.
Qed.

(** The element [x] in a gap of the list whose neighbors fit. *)
Definition fits s (x : elem) l1 l2 : Prop :=
  Forall (fun e => 0 < comp x.2 e.2) l1 /\
  match l2 with [] => True | e :: _ => is_follower s e.1 = false /\ comp x.2 e.2 < 0 end.

Lemma fits_result s x l1 l2 : fits s x l1 l2 ->
  tree_insert_dup snd comp x (l1 ++ l2) = l1 ++ x :: l2 /\ tree_insert snd comp x (l1 ++ l2) = Some (l1 ++ x :: l2).
Proof.
  intros [H1 H2]. rewrite insert_skip, insert_skip_option by done.
  destruct (insert_here comp x l2) as [-> ->]; [destruct l2; [done|by destruct H2]|done].
Qed.

(** A new leaf in such a gap. *)
Lemma leaf_done s sL sf l1 l2 new k d c p b far : avl_holds s (l1 ++ l2) -> fits s (new, k) l1 l2 -> new ∉ (l1 ++ l2).*1 ->
  listed s sL new (Some p) k false (l1.*1 ++ new :: l2.*1) -> attached sL d c p far new sf ->
  nodes (plug c (node_of d (T E new 0 E) p b far)) = (leaders (is_follower s) l1).*1 ++ new :: (leaders (is_follower s) l2).*1 ->
  avl_holds sf (l1 ++ (new, k) :: l2).
Proof.
  intros H [Hf1 Hf2] Hnew HL (t & h & Ht & Hb & En & Hk) En'.
  destruct (listed_new _ _ _ _ _ _ _ HL) as (n & Hn & _ & _ & _ & _ & Ek & Ef).
  destruct (kept_node _ _ _ Hk new n Hn) as (n' & Hn' & _ & Ek' & Ef').
  eapply (insert_holds comp s sf l1 l2 new k n' false t h); try done.
  - eapply same_data_trans; [|eapply kept_data; exact Hk]. intros q m Hq Hm.
    apply (listed_data _ _ _ _ _ _ _ HL q m); [|done]. by intros ->.
  - congruence.
  - congruence.
  - eapply lists_kept; [exact Hk|apply HL].
  - rewrite (kept_dups _ _ _ Hk). apply HL.
  - rewrite (kept_count _ _ _ Hk). apply HL.
  - destruct l1 as [|e l1 _] using rev_ind; [done|]. unfold last_key. rewrite foldl_app. simpl.
    apply Forall_app in Hf1 as [_ Hf1]. apply Forall_cons in Hf1 as [Hf1 _]. by apply cmp_flip.
  - destruct l2 as [|e l2]; [done|]. destruct Hf2 as [-> ?]. done.
  - rewrite En. etransitivity; [|exact En']. apply nodes_balance.
Qed.

(** What [avl_insert] promises for the new element [x]. *)
Definition insert_post s l (x : elem) (r : Z) (s' : avl_state K) : Prop :=
  allow_dups (tree s') = allow_dups (tree s) /\
  if allow_dups (tree s) then r = 0 /\ avl_holds s' (tree_insert_dup snd comp x l)
  else match tree_insert snd comp x l with
       | Some l' => r = 0 /\ avl_holds s' l'
       | None => r = -1 /\ avl_holds s' l
       end.

Lemma post_gap s s' x l1 l2 : fits s x l1 l2 -> allow_dups (tree s') = allow_dups (tree s) ->
  avl_holds s' (l1 ++ x :: l2) -> insert_post s (l1 ++ l2) x 0 s'.
Proof.
  intros Hf Ed H. destruct (fits_result s x l1 l2 Hf) as [E1 E2]. split; [done|]. rewrite E1, E2. by destruct (allow_dups (tree s)).
Qed.

Lemma listed_leaf s sL new p k f xs : listed s sL new (Some p) k f xs -> fresh_leaf sL new p.
Proof. intros H. destruct (listed_new _ _ _ _ _ _ _ H) as (n & Hn & E1 & E2 & E3 & E4 & _). by exists n. Qed.

Lemma attached_dups s sL sf new p k f xs d c q far : listed s sL new p k f xs -> attached sL d c q far new sf ->
  allow_dups (tree sf) = allow_dups (tree s).
Proof. intros H (t & h & _ & _ & _ & Hk). rewrite (kept_dups _ _ _ Hk). apply H. Qed.

(** The new key is smaller than the one at the place. *)
Lemma insert_left_wp s l new n key t h p diff l1 kp l2 c sl b sr fuel (Q : Z -> avl_state K -> Prop) :
  avl_holds s l -> new ∉ l.*1 -> mem s !! new = Some n -> parent n = Some p -> left n = None -> right n = None -> balance n = 0 ->
  node_key n = key -> follower n = false ->
  holds s t -> balanced t h -> nodes t = (leaders (is_follower s) l).*1 -> place comp s l key t p diff l1 kp l2 c sl b sr ->
  diff < 0 -> (length (nodes t) < fuel)%nat -> (forall sf, insert_post s l (new, key) 0 sf -> Q 0 sf) ->
  wp (if b =? 1 then _avl_insert_before p new ;;; set_balance p 0 ;;; set_left p (Some new) ;;; ret 0
      else _avl_insert_before p new ;;; set_balance p (-1) ;;; set_left p (Some new) ;;; _post_insert fuel p ;;; ret 0) s Q /\ b <> -1.
Proof.
  intros H Hnew Hn E1 E2 E3 E4 E5 E6 Ht Hb En HP Hd Hfuel HQ. pose proof (place_tree HP) as Et. rewrite (place_left HP Hd) in *.
  pose proof (place_list HP) as El. pose proof (holds_list H) as Hl. rewrite El, fmap_app in Hl, Hnew. cbn [fmap list_fmap fst] in Hl, Hnew.
  rewrite Et in Hb. destruct (balanced_unplug _ _ _ Hb) as (h1 & Hb1 & Hc).
  change (T E p b sr) with (node_of L E p b sr) in *.
  assert (new ∉ nodes t) as Hnt.
  { rewrite En. intros Hin%list_elem_of_fmap. destruct Hin as (e & -> & He%leaders_in). apply Hnew.
    rewrite El in He. change (e.1 ∈ l1.*1 ++ ((p, kp) :: l2).*1). rewrite <- fmap_app. apply list_elem_of_fmap. by exists e. }
  assert (forall sL sf, listed s sL new (Some p) key false (l1.*1 ++ new :: p :: l2.*1) -> attached sL L c p sr new sf -> Q 0 sf) as Hdone.
  { intros sL sf HL HA. apply HQ. rewrite El in *.
    assert (fits s (new, key) l1 ((p, kp) :: l2)) as Hf.
    { split; [apply HP|]. split; [apply HP|]. simpl. rewrite <- (place_diff HP). done. }
    apply post_gap; [done|by eapply attached_dups|].
    eapply (leaf_done s sL sf l1 ((p, kp) :: l2) new key L c p 0 sr); [done|done|by rewrite fmap_app|done|done|].
    unfold leaders at 2. rewrite filter_cons_True by apply HP. fold (leaders (is_follower s) l2). cbn [fmap list_fmap fst].
    rewrite (place_before HP), (place_after HP), (place_left HP Hd), nodes_plug. simpl. by rewrite app_nil_r. }
  inversion Hb1 as [|? ? ? ? hl hr Hl0 Hr Eb Hb2]; subst. inversion Hl0; subst. pose proof (balanced_height _ _ Hr).
  split; [|lia].
  destruct (Z.eqb_spec (hr - 0) 1) as [E0|E0].
  - assert (hr = 1) as -> by lia. apply wp_bind. eapply insert_before_wp; [exact Hl|exact Hnew|exact Hn|done..|]. intros sL HL. rewrite E1 in HL.
    eapply (attach_even_wp sL L c p sr); [by apply (listed_holds _ _ _ _ _ _ _ HL)|exact Hb1|exact Hc|by eapply listed_leaf|done|].
    intros sf. by apply Hdone.
  - assert (hr = 0) as -> by lia. apply wp_bind. eapply insert_before_wp; [exact Hl|exact Hnew|exact Hn|done..|]. intros sL HL. rewrite E1 in HL.
    eapply (attach_odd_wp sL L c p sr); [by apply (listed_holds _ _ _ _ _ _ _ HL)|exact Hb1|exact Hc|by eapply listed_leaf|done| |].
    + pose proof (length_pre_post c). rewrite nodes_plug, length_app, length_app in Hfuel. rewrite length_app in *. lia.
    + intros sf. by apply Hdone.
Qed.
Lemma last_split (xs : list ptr) d : xs <> [] -> exists ys, xs = ys ++ [List.last xs d].
Proof. intros H. exists (removelast xs). by apply app_removelast_last. Qed.

(** The new key is greater: it goes behind the followers of the place. *)
Lemma insert_right_wp s l new n key t h p diff l1 kp l2 c sl b sr fuel (Q : Z -> avl_state K -> Prop) :
  avl_holds s l -> new ∉ l.*1 -> mem s !! new = Some n -> parent n = Some p -> left n = None -> right n = None -> balance n = 0 ->
  node_key n = key -> follower n = false ->
  holds s t -> balanced t h -> nodes t = (leaders (is_follower s) l).*1 -> place comp s l key t p diff l1 kp l2 c sl b sr ->
  0 < diff -> (length l < fuel)%nat -> (forall sf, insert_post s l (new, key) 0 sf -> Q 0 sf) ->
  wp (if b =? -1 then last <~ _avl_find_last fuel p ;; _avl_insert_after last new ;;; set_balance p 0 ;;; set_right p (Some new) ;;; ret 0
      else last <~ _avl_find_last fuel p ;; _avl_insert_after last new ;;;
           set_balance p 1 ;;; set_right p (Some new) ;;; _post_insert fuel p ;;; ret 0) s Q /\ b <> 1.
Proof.
  intros H Hnew Hn E1 E2 E3 E4 E5 E6 Ht Hb En HP Hd Hfuel HQ. pose proof (place_tree HP) as Et. rewrite (place_right HP Hd) in Et.
  pose proof (place_list HP) as El. destruct (place_behind comp s l key t p diff l1 kp l2 c sl b sr H HP) as (fs & l3 & E23 & Elead & Hfs & H3).
  pose proof (holds_list H) as Hl. rewrite El, E23, fmap_app in Hl. cbn [fmap list_fmap fst] in Hl.
  fold (fmap (M := list) (fst (A := ptr) (B := K))) in Hl. rewrite fmap_app in Hl.
  assert (length (nodes t) < fuel /\ length fs.*1 < fuel)%nat as [Hfuel1 Hfuel2].
  { rewrite En. split; [pose proof (leaders_length s l); rewrite !length_fmap in *; lia|].
    rewrite length_fmap. rewrite El, E23, length_app in Hfuel. simpl in Hfuel. rewrite length_app in Hfuel. lia. }
  rewrite Et in Hb. destruct (balanced_unplug _ _ _ Hb) as (h1 & Hb1 & Hc).
  change (T sl p b E) with (node_of R E p b sl) in *.
  assert (new ∉ nodes t) as Hnt.
  { rewrite En. intros Hin%list_elem_of_fmap. destruct Hin as (e & -> & He%leaders_in). apply Hnew. apply list_elem_of_fmap. by exists e. }
  set (g := l1 ++ (p, kp) :: fs). assert (l = g ++ l3) as Eg by (rewrite El, E23; unfold g; by rewrite <- app_assoc).
  assert (g.*1 = l1.*1 ++ p :: fs.*1) as Eg1 by (unfold g; by rewrite fmap_app).
  assert (forall sL sf, listed s sL new (Some p) key false (g.*1 ++ new :: l3.*1) -> attached sL R c p sl new sf -> Q 0 sf) as Hdone.
  { intros sL sf HL HA. apply HQ.
    assert (fits s (new, key) g l3) as Hf.
    { split; [|destruct l3; [done|exact H3]]. unfold g. apply Forall_app. split; [apply HP|]. simpl.
      constructor; [simpl; rewrite <- (place_diff HP); done|]. eapply (followers_beyond comp key kp); [|exact Hfs]. by rewrite <- (place_diff HP). }
    rewrite Eg in *. apply post_gap; [done|by eapply attached_dups|].
    eapply (leaf_done s sL sf g l3 new key R c p 0 sl); [done|done|done|done|done|].
    rewrite Elead, (place_after HP), (place_right HP Hd), nodes_plug. unfold g, leaders at 1.
    rewrite filter_app, filter_cons_True by apply HP. fold (leaders (is_follower s) l1).
    rewrite (filter_none (fs : list elem)).
    - rewrite fmap_app, (place_before HP). simpl. by app_norm.
    - eapply Forall_impl; [exact Hfs|]. intros e [He _]. by rewrite He. }
  assert (forall k, (forall last, List.last fs.*1 p = last -> wp (_avl_insert_after last new ;;; k) s Q) ->
            wp (last <~ _avl_find_last fuel p ;; _avl_insert_after last new ;;; k) s Q) as Hlast.
  { intros k Hk. apply wp_bind. eapply find_last_wp; [exact Hl| | |exact Hfuel2|by apply Hk].
    - rewrite Forall_fmap. eapply Forall_impl; [exact Hfs|]. by intros e [? _].
    - destruct l3 as [|e l3]; [done|]. apply H3. }
  assert (forall k, (forall sL, listed s sL new (Some p) key false (g.*1 ++ new :: l3.*1) -> wp k sL Q) ->
            wp (last <~ _avl_find_last fuel p ;; _avl_insert_after last new ;;; k) s Q) as Hins.
  { intros k Hk. apply Hlast. intros last Elast. apply wp_bind.
    destruct (last_split (p :: fs.*1) p) as [gs Egs]; [done|]. rewrite list_last_cons, Elast in Egs.
    assert (forall xs, (l1.*1 ++ gs) ++ last :: xs = g.*1 ++ xs) as Exs.
    { intros xs. rewrite Eg1, <- !app_assoc. f_equal. rewrite Egs. by rewrite <- app_assoc. }
    assert (l.*1 = g.*1 ++ l3.*1) as El3 by (by rewrite Eg, fmap_app).
    eapply (insert_after_wp s (l1.*1 ++ gs) last l3.*1 new n).
    - rewrite Exs, <- El3. apply H.
    - by rewrite Exs, <- El3.
    - exact Hn.
    - done.
    - done.
    - done.
    - exact E5.
    - exact E6.
    - intros sL HL. apply Hk. rewrite E1, Exs in HL. exact HL. }
  inversion Hb1 as [|? ? ? ? hl hr Hl0 Hr Eb Hb2]; subst. inversion Hr; subst. pose proof (balanced_height _ _ Hl0).
  split; [|lia].
  destruct (Z.eqb_spec (0 - hl) (-1)) as [E0|E0].
  - assert (hl = 1) as -> by lia. apply Hins. intros sL HL.
    eapply (attach_even_wp sL R c p sl); [by apply (listed_holds _ _ _ _ _ _ _ HL)|exact Hb1|exact Hc|by eapply listed_leaf|done|].
    intros sf. by apply Hdone.
  - assert (hl = 0) as -> by lia. apply Hins. intros sL HL.
    eapply (attach_odd_wp sL R c p sl); [by apply (listed_holds _ _ _ _ _ _ _ HL)|exact Hb1|exact Hc|by eapply listed_leaf|done| |].
    + pose proof (length_pre_post c). rewrite nodes_plug, length_app, length_app in Hfuel1. rewrite length_app in *. lia.
    + intros sf. by apply Hdone.
Qed.
(** A follower goes directly behind the node with its key. *)
Lemma insert_follower_wp s l new n key t h p diff l1 kp l2 c sl b sr (Q : Z -> avl_state K -> Prop) :
  avl_holds s l -> new ∉ l.*1 -> mem s !! new = Some n -> left n = None -> right n = None -> balance n = 0 -> node_key n = key ->
  allow_dups (tree s) = true ->
  holds s t -> balanced t h -> nodes t = (leaders (is_follower s) l).*1 -> place comp s l key t p diff l1 kp l2 c sl b sr ->
  diff = 0 -> (forall sf, insert_post s l (new, key) 0 sf -> Q 0 sf) ->
  wp (set_follower new true ;;; _avl_insert_after p new ;;; ret 0) s Q.
Proof.
  intros H Hnew Hn E2 E3 E4 E5 Hd Ht Hb En HP E0 HQ. rewrite (place_diff HP) in E0. pose proof (place_list HP) as El.
  wp_step. eapply wp_store; [exact Hn|]. set (s1 := upd s new (with_follower true n)).
  assert (avl_holds s1 l) as H1 by (by eapply avl_holds_outside).
  assert (lists s1 (l1.*1 ++ p :: l2.*1)) as Hl1 by (pose proof (holds_list H1) as Hl; rewrite El, fmap_app in Hl; exact Hl).
  apply wp_bind. eapply (insert_after_wp s1 _ p _ new (with_follower true n) key true); [exact Hl1| |lk|done..|].
  { rewrite El, fmap_app in Hnew. exact Hnew. }
  intros sL HL. apply wp_ret, HQ. split; [rewrite (listed_dups _ _ _ _ _ _ _ HL); done|]. rewrite Hd. split; [done|].
  rewrite El, insert_skip by apply HP. cbn [tree_insert_dup snd]. rewrite E0. cbn [Z.ltb Z.eqb Z.compare].
  destruct (listed_new _ _ _ _ _ _ _ HL) as (n' & Hn' & _ & _ & _ & _ & Ek & Ef).
  assert (l1 ++ (p, kp) :: (new, key) :: l2 = (l1 ++ [(p, kp)]) ++ (new, key) :: l2) as -> by (by rewrite <- app_assoc).
  assert (l = (l1 ++ [(p, kp)]) ++ l2) as El' by (by rewrite El, <- app_assoc).
  assert (holds sL t) as HtL.
  { apply (listed_holds _ _ _ _ _ _ _ HL); [apply holds_outside; [done|]|]; rewrite En; intros Hin%list_elem_of_fmap;
      destruct Hin as (e & -> & He%leaders_in); apply Hnew, list_elem_of_fmap; by exists e. }
  assert (is_follower s1 p = false) as Hp1.
  { unfold is_follower, s1. simpl. rewrite lookup_insert_ne; [apply (place_leader HP)|]. intros ->. apply Hnew.
    rewrite El, fmap_app, elem_of_app. right. left. }
  assert (forall l0, (forall e, e ∈ l0 -> e ∈ l) -> leaders (is_follower s1) l0 = leaders (is_follower s) l0) as Hlead.
  { intros l0 Hin. apply leaders_ext. intros q k Hq. unfold is_follower, s1. simpl. rewrite lookup_insert_ne; [done|].
    intros ->. apply Hnew, list_elem_of_fmap. exists (q, k). split; [done|by apply Hin]. }
  rewrite El' in H1.
  eapply (insert_holds comp s1 sL (l1 ++ [(p, kp)]) l2 new key n' true t h); [exact H1| |exact Hn'|exact Ek|exact Ef| | | |done|..].
  - intros q m Hq Hm. apply (listed_data _ _ _ _ _ _ _ HL q m); [|done]. intros ->. by rewrite <- El' in Hq.
  - rewrite fmap_app, <- app_assoc. apply HL.
  - apply HL.
  - apply HL.
  - unfold last_key. rewrite foldl_app. simpl. by apply (cmp_eq_sym comp).
  - pose proof (holds_runs H1) as Hr. apply runs_app in Hr as [_ Hr]. unfold last_key in Hr. rewrite foldl_app in Hr. simpl in Hr.
    pose proof (runs_key comp _ _ key _ (cmp_eq_sym comp _ _ E0) Hr) as Hr'. destruct l2 as [|[q k2] l2]; [done|]. apply Hr'.
  - done.
  - exact Hb.
  - rewrite En, El', !Hlead; [|intros e He; rewrite El', elem_of_app; tauto..].
    unfold leaders. by rewrite filter_app, fmap_app.
Qed.

Lemma insert_empty_wp s new n (Q : Z -> avl_state K -> Prop) : avl_holds s [] -> mem s !! new = Some n ->
  parent n = None -> left n = None -> right n = None -> balance n = 0 -> follower n = false ->
  (forall sf, insert_post s [] (new, node_key n) 0 sf -> Q 0 sf) ->
  wp (list_add_head new ;;; set_root (Some new) ;;; set_count 1 ;;; ret 0) s Q.
Proof.
  intros H Hn E1 E2 E3 E4 E5 HQ. apply wp_bind.
  eapply list_add_head_wp; [exact (holds_list H)|by intros ?%elem_of_nil|by eexists|]. intros s1 H1 HR.
  do 4 wp_step. apply wp_ret, HQ. destruct (relinked_node _ _ HR new n Hn) as [ls Hl].
  match goal with |- insert_post _ _ _ _ ?s => set (sf := s) end.
  assert (avl_holds sf [(new, node_key n)]) as Hf.
  { assert (is_follower sf new = false) as Ef by (unfold is_follower, sf; simpl; by rewrite Hl). split.
    - exists (T E new 0 E), 1. split; [split; [done|split; [|]]|split].
      + split; [|done]. exists (with_list ls n). done.
      + apply NoDup_singleton.
      + apply (balanced_T E new 0 E 0 0); [constructor|constructor|lia|lia].
      + unfold leaders. by rewrite filter_cons_True.
    - exact H1.
    - constructor; [|constructor]. exists (with_list ls n). done.
    - done.
    - done.
    - intros _. by constructor. }
  split; [simpl; apply (relinked_dups _ _ HR)|]. by destruct (allow_dups (tree s)).
Qed.

Lemma place_ext s1 s2 l key t p diff l1 kp l2 c sl b sr : (forall q, is_follower s2 q = is_follower s1 q) ->
  place comp s1 l key t p diff l1 kp l2 c sl b sr -> place comp s2 l key t p diff l1 kp l2 c sl b sr.
Proof.
  intros HF []. assert (forall l0 : list elem, leaders (is_follower s2) l0 = leaders (is_follower s1) l0) as HL by (intros; by apply leaders_ext).
  split; try done; rewrite ?HF, ?HL; done.
Qed.

(** C4: [avl_insert]: for every tree in memory and every node that is not in it
    the insertion ends, without any access outside of the nodes, with a balanced
    tree that stands for the list in which AvlSpec inserts the new element: among
    equal keys directly behind the first node when the tree allows duplicates, and
    otherwise the result -1 and the old list when the key is there. *)
Theorem avl_insert_refines s l new n : avl_holds s l -> new ∉ l.*1 -> mem s !! new = Some n ->
  exists r s', avl_insert comp new s = Def (r, s') /\ insert_post s l (new, node_key n) r s'.
Proof.
  intros H Hnew Hn. apply wp_Def, wp_with_fuel. set (fuel := S (size (mem s))).
  pose proof (fuel_enough comp s l H) as [Hfl Hfn].
  do 10 wp_step. set (s1 := upd _ _ _).
  assert (avl_holds s1 l) as H1.
  { unfold s1. do 5 (eapply avl_holds_outside; [|exact Hnew|lk|done]). exact H. }
  do 2 wp_step. change (tree s1) with (tree s).
  assert (forall r s', insert_post s1 l (new, node_key n) r s' -> insert_post s l (new, node_key n) r s') as Hpost by done.
  destruct (root (tree s)) as [r|] eqn:Er.
  2: { assert (l = []) as -> by (by apply (root_none comp s)). by eapply (insert_empty_wp s1 new); [exact H1|lk|..]. }
  do 3 wp_step. eapply (search_wp comp); [exact H1|done|apply fuel_depth; lia|].
  intros t h p diff l1 kp l2 c sl b sr Ht Hb En HP.
  destruct (holds_node s1 c sl p b sr) as (nd & Hnd & _ & _ & _ & Ebal); [by rewrite <- (place_tree HP)|].
  assert (node_key nd = kp) as Ek.
  { eapply keys_det; [apply (holds_keys H1)| |exact Hnd]. rewrite (place_list HP), elem_of_app. right. left. }
  do 2 wp_step. cbn [fst]. rewrite Ek, Ebal, <- (place_diff HP).
  destruct (Z.eqb_spec diff 0) as [E0|E0].
  { destruct (allow_dups (tree s)) eqn:Ed; cbn [negb].
    - by eapply (insert_follower_wp s1); [exact H1|exact Hnew|lk|try done..].
    - apply wp_ret. split; [done|]. rewrite Ed. rewrite (place_list HP), insert_skip_option by apply HP. cbn [tree_insert fmap option_fmap option_map snd].
      pose proof (place_diff HP) as E1. rewrite E0 in E1. rewrite <- E1. cbn. split; [done|]. by rewrite <- (place_list HP). }
  wp_step. eapply wp_store; [lk|]. set (s2 := upd s1 _ _).
  assert (avl_holds s2 l) as H2 by (eapply avl_holds_outside; [exact H1|exact Hnew|lk|done]).
  assert (forall q, is_follower s2 q = is_follower s1 q) as HF.
  { intros q. unfold is_follower, s2, s1. simpl. destruct (decide (new = q)) as [<-|]; [by rewrite !lookup_insert_eq|by rewrite !lookup_insert_ne]. }
  assert (place comp s2 l (node_key n) t p diff l1 kp l2 c sl b sr) as HP2 by (by eapply place_ext).
  assert (nodes t = (leaders (is_follower s2) l).*1) as En2 by (rewrite (leaders_ext (is_follower s1)); [done|by intros]).
  assert (holds s2 t) as Ht2.
  { apply holds_outside; [done|]. rewrite En. intros Hin%list_elem_of_fmap. destruct Hin as (e & -> & He%leaders_in).
    apply Hnew, list_elem_of_fmap. by exists e. }
  assert (length (nodes t) < fuel)%nat as Hft.
  { rewrite En. pose proof (leaders_length s1 l). rewrite !length_fmap in *. lia. }
  destruct (Z.ltb_spec diff 0) as [Hd|Hd].
  - edestruct (insert_left_wp s2 l new) with (Q := insert_post s l (new, node_key n)) as [Hw Hb1]; [exact H2|exact Hnew|lk|done..|].
    destruct (b =? 1); [exact Hw|]. by destruct (Z.eqb_spec b (-1)).
  - edestruct (insert_right_wp s2 l new) with (Q := insert_post s l (new, node_key n)) (fuel := fuel) as [Hw Hb1];
      [exact H2|exact Hnew|lk|done..|lia|lia|done|].
    destruct (Z.eqb_spec b 1); [done|]. destruct (b =? -1); exact Hw.
Qed.
End insert.

Lemma avl_insert_refines_witness :
  exists s', avl_insert Z.sub 6 example_tree = Def (0, s') /\
    avl_holds Z.sub s' [(5%positive, 1); (2%positive, 3); (4%positive, 3); (1%positive, 5); (6%positive, 7); (3%positive, 8)].
Proof.
  destruct (avl_insert_refines Z.sub example_tree example_list 6 (example_node 7) example_holds) as (r & s' & E & _ & -> & H).
  - apply (bool_decide_unpack _); vm_compute; exact I.
  - reflexivity.
  - exists s'. split; [exact E|exact H].
Defined.
