(* ===== verification/AvlDelete.v ===== *)
(** [avl_remove] of src/libcommon/avl.c: a follower leaves the list, a node of
    the tree hands its place to its first follower or is taken out. *)

From Stdlib Require Import ZArith Lia Sorted.
From stdpp Require Import base list numbers option gmap sets.
From S2P Require Import Prelude AvlSpec Avl AvlTree AvlBalance AvlList AvlRemove AvlRefine AvlExample AvlApi.

Local Open Scope Z_scope.
Local Open Scope avl_scope.

Section delete.
Context {K : Type} (comp : K -> K -> Z) `{!Comparator comp}.
Notation elem := (ptr * K)%type.
Implicit Types (s : avl_state K) (l : list elem).
Notation avl_holds := (avl_holds comp).

(** The follower [q] takes over the place of [p]. *)
Definition take_over (p q : ptr) (n : avl_node K) : avl_M K unit :=
  set_balance q (balance n) ;;;
  set_parent q (parent n) ;;;
  set_left q (left n) ;;;
  set_right q (right n) ;;;
  relink (parent n) p (Some q) ;;;
  reparent (left n) q ;;;
  reparent (right n) q.

Lemma take_over_wp s c t1 p b t2 q n nq (Q : unit -> avl_state K -> Prop) :
  holds s (plug c (T t1 p b t2)) -> q ∉ nodes (plug c (T t1 p b t2)) -> mem s !! q = Some nq -> -1 <= b <= 1 ->
  mem s !! p = Some n ->
  (forall sf, holds sf (plug c (T t1 q b t2)) -> kept s sf (nodes (plug c (T t1 q b t2))) -> Q tt sf) ->
  wp (take_over p q n) s Q.
Proof.
  intros Hs Hq Hnq Hb Hn HQ. destruct (holds_node s c t1 p b t2 Hs) as (n' & Hn' & E1 & E2 & E3 & E4).
  rewrite Hn in Hn'. injection Hn' as <-.
  pose proof Hs as (_ & _ & Hnd0). destruct (nodes_exchange c t1 p b t2 q Hq Hnd0) as [Hnd Hp].
  unfold take_over. do 8 wp_step. wp_step. rewrite E1, E2, E3, E4, swrap8_small by lia.
  match goal with |- wp _ ?s1 _ => set (s' := s1) end.
  assert (parts s' c (Some p) (Some p) t1 (Some p) t2 q b) as HP.
  { eapply parts_start; [exact Hs|exact Hq|done| |].
    - intros z Hz. lk.
    - eexists. split; [lk|done]. }
  assert (kept s s' (nodes (plug c (T t1 q b t2)))) as Hk.
  { eapply (kept_mono _ _ [q]); [apply kept_diff; [done..| |]|].
    - intros z ->%list_elem_of_singleton. eexists nq, _. split; [exact Hnq|split; [lk|done]].
    - intros z Hz. rewrite list_elem_of_singleton in Hz. lk.
    - intros z ->%list_elem_of_singleton. apply (parts_in c t1 q b t2). }
  eapply relink_parts_wp; [exact Hnd|exact HP|exact Hp|]. intros s1 HP1 Hk1. wp_step.
  eapply reparent_left_wp; [exact Hnd|exact HP1|]. intros s2 HP2 Hk2.
  eapply reparent_right_wp; [exact Hnd|exact HP2|]. intros s3 HP3 Hk3. apply HQ.
  - eapply parts_holds; [exact Hnd|exact HP3].
  - eapply kept_trans; [exact Hk|eapply kept_trans; [exact Hk1|eapply kept_trans; [exact Hk2|exact Hk3|done]|done]|done].
Qed.

(** The list without [p]. *)
Lemma remove_in_list (A B A' B' : list ptr) p : NoDup (A ++ p :: B) -> A ++ p :: B = A' ++ p :: B' -> A ++ B = A' ++ B'.
Proof.
  assert (forall A B, NoDup (A ++ p :: B) -> A ++ B = filter (fun z => z <> p) (A ++ p :: B)) as Hf.
  { intros A0 B0 Hnd. destruct (nodup_split _ [p] (A0 ++ B0) Hnd) as [_ Ho]; [solve_Permutation|].
    rewrite filter_app, filter_cons_False by tauto. rewrite <- filter_app, filter_ne_id; [done|].
    intros Hp. apply (Ho p Hp). left. }
  intros Hnd E. rewrite (Hf A B Hnd), E, <- Hf; [done|]. by rewrite <- E.
Qed.

(** The last step: [p] leaves the list of the state [sT]. *)
Lemma unlink_wp s sT l1 p k l2 (Q : unit -> avl_state K -> Prop) :
  avl_holds s (l1 ++ (p, k) :: l2) -> lists sT (l1 ++ (p, k) :: l2).*1 ->
  count (tree sT) = count (tree s) -> allow_dups (tree sT) = allow_dups (tree s) ->
  Forall (has_key sT) (l1 ++ l2) -> runs comp (is_follower sT) None (l1 ++ l2) ->
  (exists t h, holds sT t /\ balanced t h /\ nodes t = (leaders (is_follower sT) (l1 ++ l2)).*1) ->
  (allow_dups (tree s) = false -> Forall (fun e => is_follower sT e.1 = false) (l1 ++ l2)) ->
  (forall sf, avl_holds sf (l1 ++ l2) -> allow_dups (tree sf) = allow_dups (tree s) ->
     (exists n, mem sf !! p = Some n /\ avl_is_node_added n = false) -> Q tt sf) ->
  wp (_avl_remove p) sT Q.
Proof.
  intros H Hl Hc Hd Hk Hr (t & h & Ht & Hb & En) Hdf HQ. rewrite fmap_app in Hl. cbn [fmap list_fmap fst] in Hl.
  unfold _avl_remove. apply wp_bind. eapply list_remove_wp; [exact Hl|]. intros s1 H1 HR Hp. do 3 wp_step.
  set (sf := upd_tree _ _).
  assert (forall q, is_follower sf q = is_follower sT q) as HF.
  { intros q. unfold is_follower, sf. simpl. destruct (mem sT !! q) as [n|] eqn:E.
    - destruct (relinked_node _ _ HR q n E) as [ls Hls]. by rewrite Hls.
    - by rewrite (relinked_none _ _ HR q E). }
  assert (forall l0 : list elem, leaders (is_follower sf) l0 = leaders (is_follower sT) l0) as HL by (intros; by apply leaders_ext).
  apply HQ.
  - split.
    + exists t, h. rewrite HL. split; [exact (holds_relinked sT s1 t HR Ht)|done].
    + by rewrite fmap_app.
    + rewrite Forall_forall in Hk |- *. intros e He. destruct (Hk e He) as (n & Hn & E).
      destruct (relinked_node _ _ HR _ n Hn) as [ls Hls]. by exists (with_list ls n).
    + eapply runs_ext; [|exact Hr]. intros; by rewrite HF.
    + simpl. rewrite (relinked_count _ _ HR), Hc, (holds_count H), !length_app. simpl length.
      unfold u32, wrap. rewrite Zminus_mod_idemp_l. f_equal. lia.
    + simpl. rewrite (relinked_dups _ _ HR), Hd. intros Hd'. specialize (Hdf Hd').
      eapply Forall_impl; [exact Hdf|]. intros e He. by rewrite HF.
  - simpl. by rewrite (relinked_dups _ _ HR).
  - simpl in Hp |- *. destruct (mem s1 !! p) as [n|]; [|done]. injection Hp as Hp. exists n. split; [done|].
    unfold avl_is_node_added. by rewrite Hp.
Qed.
(** ** The three cases *)

(** What has to hold in the state in which [p] leaves the list. *)
Record ready s sT l1 l2 : Prop := {
  ready_count : count (tree sT) = count (tree s);
  ready_dups : allow_dups (tree sT) = allow_dups (tree s);
  ready_keys : Forall (has_key sT) (l1 ++ l2);
  ready_runs : runs comp (is_follower sT) None (l1 ++ l2);
  ready_tree : exists t h, holds sT t /\ balanced t h /\ nodes t = (leaders (is_follower sT) (l1 ++ l2)).*1;
  ready_follower : allow_dups (tree s) = false -> Forall (fun e => is_follower sT e.1 = false) (l1 ++ l2);
}.

Lemma last_cases (l : list elem) : l = [] \/ exists l' e, l = l' ++ [e].
Proof. destruct l as [|e l _] using rev_ind; [by left|right; by exists l, e]. Qed.

(** Two runs without the node between them. *)
Lemma runs_join F F' l1 p k l2 : runs comp F None (l1 ++ (p, k) :: l2) -> (forall q j, (q, j) ∈ l1 -> F' q = F q) ->
  runs comp F' (Some k) l2 ->
  (F p = true \/ match l2 with [] => True | e :: _ => F' e.1 = false end) ->
  runs comp F' None (l1 ++ l2).
Proof.
  intros Hr HF H2 Hc. apply runs_app in Hr as [Hr1 [Hp _]]. apply runs_app. split; [by eapply runs_ext|].
  destruct Hc as [Hc|Hc].
  - rewrite Hc in Hp. destruct (last_key None l1) as [k0|]; [|done]. apply (runs_key comp F' k k0); [by apply (cmp_eq_sym comp)|exact H2].
  - destruct l2 as [|[q kq] l2]; [done|]. simpl in Hc, H2 |- *. rewrite Hc in H2 |- *. destruct H2 as [H2 H3]. split; [|done].
    destruct (last_key None l1) as [k0|]; [|done]. eapply (cmp_lt_trans_r comp); [|exact H2]. destruct (F p); lia.
Qed.

Lemma elem_fst (l : list elem) p k : (p, k) ∈ l -> p ∈ l.*1.
Proof. intros. apply list_elem_of_fmap. by exists (p, k). Qed.

Lemma leaders_app F (a b : list elem) : leaders F (a ++ b) = leaders F a ++ leaders F b.
Proof. apply filter_app. Qed.

Lemma leaders_cons F p (k : K) l : leaders F ((p, k) :: l) = if F p then leaders F l else (p, k) :: leaders F l.
Proof.
  unfold leaders. rewrite filter_cons. simpl. destruct (F p); [by rewrite decide_False|by rewrite decide_True].
Qed.

Lemma sub_forall {P : elem -> Prop} l1 e l2 : Forall P (l1 ++ e :: l2) -> Forall P (l1 ++ l2).
Proof. rewrite !Forall_app, Forall_cons. tauto. Qed.

(** A follower. *)
Lemma follower_ready s l1 p k l2 : avl_holds s (l1 ++ (p, k) :: l2) -> is_follower s p = true -> ready s s l1 l2.
Proof.
  intros H Hp. pose proof (holds_runs H) as Hr. split; [done|done| | | |].
  - eapply sub_forall, (holds_keys H).
  - eapply runs_join; [exact Hr|done| |by left]. apply runs_app in Hr as [_ [_ Hr]]. done.
  - destruct (holds_tree H) as (t & h & Ht & Hb & En). exists t, h. split; [done|split; [done|]].
    by rewrite En, !leaders_app, leaders_cons, Hp.
  - intros Hd. eapply sub_forall, (holds_dups H Hd).
Qed.

(** The place of a leader in the tree. *)
Lemma leader_place s l1 p k l2 t : avl_holds s (l1 ++ (p, k) :: l2) -> is_follower s p = false ->
  holds s t -> nodes t = (leaders (is_follower s) (l1 ++ (p, k) :: l2)).*1 ->
  exists c t1 b t2, t = plug c (T t1 p b t2) /\
    nodes t = (leaders (is_follower s) l1).*1 ++ p :: (leaders (is_follower s) l2).*1.
Proof.
  intros H Hp Ht En. rewrite leaders_app, leaders_cons, Hp, fmap_app in En. cbn [fmap list_fmap fst] in En.
  destruct (nodes_focus t p) as (c & t1 & b & t2 & Et); [rewrite En, elem_of_app; right; left|]. by exists c, t1, b, t2.
Qed.

(** A leader without followers. *)
Lemma worker_ready s l1 p k l2 (Q : unit -> avl_state K -> Prop) :
  avl_holds s (l1 ++ (p, k) :: l2) -> is_follower s p = false ->
  match l2 with [] => True | e :: _ => is_follower s e.1 = false end ->
  (forall sT, ready s sT l1 l2 -> lists sT (l1 ++ (p, k) :: l2).*1 -> Q tt sT) ->
  wp (_avl_remove_worker 2 (S (size (mem s))) p) s Q.
Proof.
  intros H Hp H2 HQ. destruct (holds_tree H) as (t & h & Ht & Hb & En).
  destruct (leader_place s l1 p k l2 t H Hp Ht En) as (c & t1 & b & t2 & Et & En').
  pose proof Ht as (_ & _ & Hnd). destruct (fuel_enough comp s _ H) as [_ Hfuel]. rewrite <- En in Hfuel. rewrite Et in Ht, Hb, Hfuel.
  eapply worker_wp; [exact Ht|exact Hb|lia|]. intros sT (t' & h' & Ht' & Hb' & En'' & Hk). apply HQ.
  - destruct (data_followers s sT (l1 ++ (p, k) :: l2)) as [HF HK]; [by eapply kept_data|apply H|].
    assert (forall q j, (q, j) ∈ l1 ++ l2 -> is_follower sT q = is_follower s q) as HF'.
    { intros q j Hq. apply (HF q j). revert Hq. rewrite !elem_of_app, elem_of_cons. tauto. }
    split; [apply (kept_count _ _ _ Hk)|apply (kept_dups _ _ _ Hk)|by eapply sub_forall| | |].
    + pose proof (holds_runs H) as Hr. eapply runs_join; [exact Hr|intros q j Hq; apply (HF' q j); rewrite elem_of_app; tauto| |right].
      * apply runs_app in Hr as [_ [_ Hr]]. eapply runs_ext; [|exact Hr]. intros q j Hq. apply (HF' q j). rewrite elem_of_app. tauto.
      * destruct l2 as [|[q j] l2]; [done|]. simpl in H2 |- *. rewrite (HF' q j); [done|]. rewrite elem_of_app. right. left.
    + exists t', h'. split; [done|split; [done|]]. rewrite En'', (leaders_ext _ _ _ HF'), leaders_app, fmap_app.
      rewrite app_assoc. eapply (remove_in_list _ _ _ _ p); [|rewrite <- En', Et, nodes_plug; by app_norm].
      revert Hnd. rewrite Et, nodes_plug. by app_norm.
    + intros Hd. pose proof (sub_forall _ _ _ (holds_dups H Hd)) as Hf. rewrite Forall_forall in Hf |- *.
      intros [q j] Hq. simpl. rewrite (HF' q j Hq). by apply (Hf (q, j)).
  - eapply lists_kept; [exact Hk|apply H].
Qed.
(** A leader with a follower, which becomes the leader. *)
Lemma promote_ready s l1 p k q kq l2 n (Q : unit -> avl_state K -> Prop) :
  avl_holds s (l1 ++ (p, k) :: (q, kq) :: l2) -> is_follower s p = false -> is_follower s q = true -> mem s !! p = Some n ->
  (forall sT, ready s sT l1 ((q, kq) :: l2) -> lists sT (l1 ++ (p, k) :: (q, kq) :: l2).*1 -> Q tt sT) ->
  wp (set_follower q false ;;; take_over p q n) s Q.
Proof.
  intros H Hp Hq Hn HQ. set (l := l1 ++ (p, k) :: (q, kq) :: l2) in *. destruct (holds_tree H) as (t & h & Ht & Hb & En).
  destruct (leader_place s l1 p k _ t H Hp Ht En) as (c & t1 & b & t2 & Et & En').
  rewrite leaders_cons, Hq in En'. pose proof Ht as (_ & _ & Hnd).
  assert (q ∈ l.*1) as Hql by (unfold l; rewrite fmap_app, elem_of_app; right; right; left).
  destruct (member s _ q (holds_list H) Hql) as [nq Hnq].
  destruct (holds_list H) as (_ & Hndl & _).
  assert (q <> p /\ q ∉ l1.*1 /\ q ∉ l2.*1) as (Hqp & Hq1 & Hq2).
  { unfold l in Hndl. rewrite fmap_app in Hndl. destruct (nodup_split _ [q] (l1.*1 ++ p :: l2.*1) Hndl) as [_ Ho]; [simpl; solve_Permutation|].
    repeat split; intros Hx; [apply (Ho p); [rewrite elem_of_app; right; left|rewrite Hx; left]|..]; (apply (Ho q); [|left]);
      rewrite elem_of_app, ?elem_of_cons; tauto. }
  wp_step. eapply wp_store; [exact Hnq|]. set (s1 := upd s q (with_follower false nq)).
  assert (q ∉ nodes t) as Hqt.
  { rewrite En'. rewrite elem_of_app, elem_of_cons. intros [Hx|[Hx|Hx]]; [|done|];
      apply list_elem_of_fmap in Hx as (e & -> & He%leaders_in); [apply Hq1|apply Hq2]; apply list_elem_of_fmap; by exists e. }
  assert (holds s1 t) as Ht1 by (by apply holds_outside).
  pose proof Et as Et'. rewrite Et in Ht1, Hqt, Hb.
  eapply take_over_wp; [exact Ht1|exact Hqt|lk|by eapply balanced_node_range|lk|]. intros sT HtT Hk.
  assert (forall z, is_follower sT z = if decide (z = q) then false else is_follower s z) as HFz.
  { intros z. unfold is_follower. destruct (mem s1 !! z) as [m|] eqn:Em.
    - destruct (kept_node _ _ _ Hk z m Em) as (m' & -> & _ & _ & ->). unfold s1 in Em. simpl in Em.
      destruct (decide (z = q)) as [->|]; [rewrite lookup_insert_eq in Em; by injection Em as <-|].
      rewrite lookup_insert_ne in Em by done. by rewrite Em.
    - rewrite (kept_none _ _ _ Hk z Em). destruct (decide (z = q)) as [->|]; [done|]. unfold s1 in Em. simpl in Em.
      rewrite lookup_insert_ne in Em by done. by rewrite Em. }
  assert (forall l0 : list elem, q ∉ l0.*1 -> forall z j, (z, j) ∈ l0 -> is_follower sT z = is_follower s z) as HF0.
  { intros l0 Hq0 z j Hz. rewrite HFz, decide_False; [done|]. intros ->. apply Hq0. by eapply elem_fst. }
  assert (same_data s1 sT (fun _ => True)) as Hd1 by (by eapply kept_data).
  apply HQ.
  - split; [apply (kept_count _ _ _ Hk)|apply (kept_dups _ _ _ Hk)| | | |].
    + eapply sub_forall. pose proof (holds_keys H) as HK. rewrite Forall_forall in HK |- *. intros e He.
      eapply (same_data_key s1); [exact Hd1|done|]. destruct (HK e He) as (m & Hm & E). unfold has_key, s1. simpl.
      destruct (decide (q = e.1)) as [Eq|]; [|rewrite lookup_insert_ne by done; by exists m].
      rewrite <- Eq in *. rewrite lookup_insert_eq. eexists. split; [done|]. simpl. congruence.
    + pose proof (holds_runs H) as Hr. apply runs_app in Hr as [Hr1 [Hr2 [Hr3 Hr4]]]. rewrite Hp in Hr2. rewrite Hq in Hr3.
      apply runs_app. split; [eapply runs_ext; [|exact Hr1]; by apply HF0|]. split.
      * rewrite HFz, decide_True by done. destruct (last_key None l1) as [k0|]; [|done].
        eapply (cmp_lt_trans_l comp); [exact Hr2|lia].
      * eapply runs_ext; [|exact Hr4]. by apply HF0.
    + destruct (balanced_rename _ _ _ q _ _ _ Hb) as [h' Hb']. exists (plug c (T t1 q b t2)), h'. split; [done|split; [done|]].
      rewrite leaders_app, leaders_cons, HFz, decide_True, fmap_app by done. cbn [fmap list_fmap fst].
      rewrite (leaders_ext _ _ l1 (HF0 l1 Hq1)), (leaders_ext _ _ l2 (HF0 l2 Hq2)).
      rewrite Et' in Hnd, En'. exact (nodes_rename c t1 p q b t2 _ _ Hnd En').
    + intros Hd. pose proof (holds_dups H Hd) as Hf. rewrite Forall_forall in Hf. specialize (Hf (q, kq)). simpl in Hf. rewrite Hf in Hq; [done|].
      unfold l. rewrite elem_of_app. right. right. left.
  - eapply lists_kept; [exact Hk|]. eapply lists_upd; [exact Hnq|done|apply H].
Qed.

(** The test for a follower behind [p]. *)
Lemma next_follower_wp s l1 p k l2 (Q : option ptr -> avl_state K -> Prop) :
  avl_holds s (l1 ++ (p, k) :: l2) ->
  Q (match l2 with [] => None | e :: _ => if is_follower s e.1 then Some e.1 else None end) s ->
  wp (next_follower p) s Q.
Proof.
  intros H HQ. pose proof (holds_list H) as Hl. rewrite fmap_app in Hl. cbn [fmap list_fmap fst] in Hl.
  unfold next_follower. do 3 wp_step. eapply is_last_wp; [exact Hl|].
  destruct (allow_dups (tree s)) eqn:Ed; cbn [andb].
  - destruct l2 as [|[q kq] l2]; [rewrite bool_decide_true by done; apply wp_ret, HQ|]. rewrite bool_decide_false by done. cbn [negb].
    destruct (member s _ p Hl) as [n Hn]; [rewrite elem_of_app; right; left|].
    destruct (member s _ q Hl) as [m Hm]; [rewrite elem_of_app; right; right; left|].
    do 2 wp_step. rewrite (next_of s _ p _ n Hl Hn). simpl after. do 4 wp_step. apply wp_ret.
    simpl in HQ. unfold is_follower in HQ. rewrite Hm in HQ. exact HQ.
  - apply wp_ret. pose proof (holds_dups H Ed) as Hf. destruct l2 as [|[q kq] l2]; [done|].
    rewrite Forall_app, Forall_cons, Forall_cons in Hf. destruct Hf as (_ & _ & Hf & _). simpl in Hf, HQ. by rewrite Hf in HQ.
Qed.

(** C5: [avl_remove]: for every tree in memory and every node of it the removal
    ends, without any access outside of the nodes, with a balanced tree of the
    other elements in their order; the removed node is in no tree any more. *)
Theorem avl_remove_refines s l p : avl_holds s l -> p ∈ l.*1 ->
  exists s', avl_remove p s = Def (tt, s') /\
    avl_holds s' (filter (fun e => e.1 <> p) l) /\ allow_dups (tree s') = allow_dups (tree s) /\
    exists n, mem s' !! p = Some n /\ avl_is_node_added n = false.
Proof.
  intros H Hp. cut (wp (avl_remove p) s (fun _ s' => avl_holds s' (filter (fun e => e.1 <> p) l) /\
    allow_dups (tree s') = allow_dups (tree s) /\ exists n, mem s' !! p = Some n /\ avl_is_node_added n = false)).
  { intros ([] & s' & E & ?)%wp_Def. by exists s'. }
  apply list_elem_of_fmap in Hp as ([p' k] & -> & Hp). simpl. apply list_elem_of_split in Hp as (l1 & l2 & ->).
  assert (filter (fun e => e.1 <> p') (l1 ++ (p', k) :: l2) = l1 ++ l2) as ->.
  { destruct (holds_list H) as (_ & Hnd & _). rewrite fmap_app in Hnd. cbn [fmap list_fmap fst] in Hnd.
    destruct (nodup_split _ [p'] (l1.*1 ++ l2.*1) Hnd) as [_ Ho]; [solve_Permutation|].
    rewrite filter_app, filter_cons_False by (simpl; tauto). rewrite <- filter_app. apply filter_all.
    apply Forall_forall. intros e He Ee. apply (Ho e.1); [|rewrite Ee; left]. rewrite <- fmap_app. apply list_elem_of_fmap. by exists e. }
  destruct (member s _ p' (holds_list H)) as [n Hn]; [rewrite fmap_app, elem_of_app; right; left|].
  assert (is_follower s p' = follower n) as EF by (unfold is_follower; by rewrite Hn).
  assert (forall sT, ready s sT l1 l2 -> lists sT (l1 ++ (p', k) :: l2).*1 -> wp (_avl_remove p') sT (fun _ s' => avl_holds s' (l1 ++ l2) /\
    allow_dups (tree s') = allow_dups (tree s) /\ exists n, mem s' !! p' = Some n /\ avl_is_node_added n = false)) as Hfin.
  { intros sT [] HL. eapply unlink_wp; [exact H|exact HL|done..|]. done. }
  apply wp_with_fuel. do 2 wp_step. apply wp_bind. rewrite <- EF. destruct (is_follower s p') eqn:Ep; cbn [negb].
  - apply wp_ret, Hfin; [by apply (follower_ready s l1 p' k)|apply H].
  - apply wp_bind. eapply next_follower_wp; [exact H|]. destruct l2 as [|[q kq] l2].
    + eapply worker_ready; [exact H|done|done|exact Hfin].
    + cbn [fst]. destruct (is_follower s q) eqn:Eq.
      * eapply promote_ready; [exact H|done|done|exact Hn|exact Hfin].
      * eapply worker_ready; [exact H|done|done|exact Hfin].
Qed.
End delete.

Lemma avl_remove_refines_witness :
  exists s', avl_remove 2 example_tree = Def (tt, s') /\
    avl_holds Z.sub s' [(5%positive, 1); (4%positive, 3); (1%positive, 5); (3%positive, 8)].
Proof.
  destruct (avl_remove_refines Z.sub example_tree example_list 2 example_holds) as (s' & E & H & _).
  - apply (bool_decide_unpack _); vm_compute; exact I.
  - exists s'. split; [exact E|exact H].
Defined.
