(* ===== verification/AvlLookup.v ===== *)
(** The other lookups of src/libcommon/avl.c and the loops of avl.h: the nearest
    nodes below and above a key, the walk over all nodes, and the number of
    comparisons of a search. *)

From Stdlib Require Import ZArith Lia Sorted.
From stdpp Require Import base list numbers option gmap sets.
From S2P Require Import Prelude AvlSpec Avl AvlTree AvlBalance AvlList AvlRemove AvlRefine AvlExample AvlApi.

Local Open Scope Z_scope.
Local Open Scope avl_scope.

Section lookup.
Context {K : Type} (comp : K -> K -> Z) `{!Comparator comp}.
Notation elem := (ptr * K)%type.
Implicit Types (s : avl_state K) (l : list elem).
Notation avl_holds := (avl_holds comp).

(** ** Specification *)

(** The last element with a key less or equal, the first one with a key greater
    or equal. *)
Definition spec_lessequal (key : K) l : option elem := last (filter (fun e => 0 <= comp key e.2) l).
Definition spec_greaterequal (key : K) l : option elem := head (filter (fun e => comp key e.2 <= 0) l).

(** A sorted list is cut by a key. *)
Lemma sorted_cut key l : tree_sorted snd comp l -> exists a b, l = a ++ b /\
  Forall (fun e => 0 <= comp key e.2) a /\ Forall (fun e => comp key e.2 < 0) b.
Proof.
  induction 1 as [|e l Hs IH He]; [by exists [], []|]. destruct IH as (a & b & -> & Ha & Hb).
  destruct (Z.le_gt_cases 0 (comp key e.2)) as [H|H]; [exists (e :: a), b; by repeat constructor|].
  exists [], (e :: a ++ b). split; [done|split; [done|]]. constructor; [lia|].
  eapply Forall_impl; [exact He|]. intros e' He'. eapply (cmp_lt_trans_l comp); [|exact He']. lia.
Qed.

Lemma sorted_cut_ge key l : tree_sorted snd comp l -> exists a b, l = a ++ b /\
  Forall (fun e => 0 < comp key e.2) a /\ Forall (fun e => comp key e.2 <= 0) b.
Proof.
  induction 1 as [|e l Hs IH He]; [by exists [], []|]. destruct IH as (a & b & -> & Ha & Hb).
  destruct (Z.lt_ge_cases 0 (comp key e.2)) as [H|H]; [exists (e :: a), b; by repeat constructor|].
  exists [], (e :: a ++ b). split; [done|split; [done|]]. constructor; [lia|].
  eapply Forall_impl; [exact He|]. intros e' He'. eapply (cmp_trans (cmp := comp)); [|exact He']. lia.
Qed.

Lemma spec_lessequal_cut key a b : Forall (fun e : elem => 0 <= comp key e.2) a -> Forall (fun e : elem => comp key e.2 < 0) b ->
  spec_lessequal key (a ++ b) = last a.
Proof.
  intros Ha Hb. unfold spec_lessequal. rewrite filter_app, (filter_all _ a), (filter_none b), app_nil_r; [done| |done].
  eapply Forall_impl; [exact Hb|]. intros e He. simpl in *. lia.
Qed.

Lemma spec_greaterequal_cut key a b : Forall (fun e : elem => 0 < comp key e.2) a -> Forall (fun e : elem => comp key e.2 <= 0) b ->
  spec_greaterequal key (a ++ b) = head b.
Proof.
  intros Ha Hb. unfold spec_greaterequal. rewrite filter_app, (filter_none a), (filter_all _ b); [done|done|].
  eapply Forall_impl; [exact Ha|]. intros e He. simpl in *. lia.
Qed.

(** ** The loops of the two lookups *)

Lemma key_of s l p k n : avl_holds s l -> (p, k) ∈ l -> mem s !! p = Some n -> node_key n = k.
Proof. intros H. apply keys_det, (holds_keys H). Qed.

Lemma find_le_right_wp s b a p k l1 key fuel (Q : ptr -> avl_state K -> Prop) :
  avl_holds s (l1 ++ (p, k) :: a ++ b) -> 0 <= comp key k ->
  Forall (fun e : elem => 0 <= comp key e.2) a -> Forall (fun e : elem => comp key e.2 < 0) b -> (S (length a) < fuel)%nat ->
  Q (List.last a.*1 p) s -> forall p0, wp (find_le_right comp fuel key p0 p (comp key k)) s Q.
Proof.
  revert l1 p k fuel. induction a as [|[q j] a IH]; intros l1 p k fuel H Hk Ha Hb Hf HQ p0.
  all: destruct fuel as [|fuel]; [simpl in Hf; lia|]; cbn [find_le_right]; destruct (Z.leb_spec 0 (comp key k)); [|lia].
  all: pose proof (holds_list H) as Hl; rewrite fmap_app in Hl; cbn [fmap list_fmap fst app] in Hl.
  all: destruct (member s _ p Hl) as [n Hn]; [rewrite elem_of_app; right; left|].
  all: wp_step; eapply is_last_wp; [exact Hl|].
  - destruct b as [|[q j] b]; [rewrite bool_decide_true by done; by apply wp_ret|]. rewrite bool_decide_false by done.
    destruct (member s _ q Hl) as [m Hm]; [rewrite elem_of_app; right; right; left|].
    do 2 wp_step. rewrite (next_of s _ p _ n Hl Hn). simpl after. do 4 wp_step.
    rewrite (key_of s _ q j m H); [|rewrite elem_of_app; right; right; left|done].
    destruct fuel as [|fuel]; [simpl in Hf; lia|]. cbn [find_le_right]. apply Forall_cons in Hb as [Hb _]. simpl in Hb.
    destruct (Z.leb_spec 0 (comp key j)); [lia|]. by apply wp_ret.
  - rewrite bool_decide_false by done. destruct (member s _ q Hl) as [m Hm]; [rewrite elem_of_app; right; right; left|].
    do 2 wp_step. rewrite (next_of s _ p _ n Hl Hn). simpl after. do 4 wp_step.
    rewrite (key_of s _ q j m H); [|rewrite elem_of_app; right; right; left|done].
    apply Forall_cons in Ha as [Hj Ha]. apply (IH (l1 ++ [(p, k)])); [by rewrite <- app_assoc|done|done|done|simpl in Hf; lia|].
    cbn [fmap list_fmap fst] in HQ. by rewrite list_last_cons in HQ.
Qed.

(** From an element behind the cut back to the last one in front of it. *)
Lemma find_le_left_wp s l1 p k l2 key fuel (Q : option (ptr * Z) -> avl_state K -> Prop) :
  avl_holds s (l1 ++ (p, k) :: l2) -> (length l1 < fuel)%nat ->
  (0 <= comp key k -> Q (Some (p, comp key k)) s) ->
  (comp key k < 0 -> Forall (fun e : elem => comp key e.2 < 0) l1 -> Q None s) ->
  (forall a q j b, comp key k < 0 -> l1 = a ++ (q, j) :: b -> 0 <= comp key j -> Forall (fun e : elem => comp key e.2 < 0) b ->
     Q (Some (q, comp key j)) s) ->
  wp (find_le_left comp fuel key p (comp key k)) s Q.
Proof.
  revert p k l2 fuel. induction l1 as [|[q j] l1 IH] using rev_ind; intros p k l2 fuel H Hf H1 H2 H3.
  all: destruct fuel as [|fuel]; [rewrite ?length_app in Hf; simpl in Hf; lia|]; cbn [find_le_left].
  all: destruct (Z.ltb_spec (comp key k) 0) as [Hk|Hk]; [|by apply wp_ret, H1].
  all: pose proof (holds_list H) as Hl; rewrite fmap_app in Hl; cbn [fmap list_fmap fst] in Hl.
  all: wp_step; eapply is_first_wp; [exact Hl|].
  - rewrite bool_decide_true by done. by apply wp_ret, H2.
  - rewrite bool_decide_false; [|rewrite fmap_app; by destruct (l1.*1)].
    destruct (member s _ p Hl) as [n Hn]; [rewrite elem_of_app; right; left|].
    destruct (member s _ q Hl) as [m Hm]; [rewrite fmap_app, !elem_of_app; left; right; left|].
    do 2 wp_step. rewrite (prev_of s _ p _ n Hl Hn), fmap_app. cbn [fmap list_fmap fst]. rewrite before_snoc. do 4 wp_step.
    rewrite (key_of s _ q j m H); [|rewrite !elem_of_app; left; right; left|done].
    eapply (IH q j ((p, k) :: l2)); [by rewrite <- app_assoc in H|rewrite length_app in Hf; simpl in Hf; lia| | |].
    + intros Hj. eapply (H3 l1 q j []); done.
    + intros Hj Hl1. apply H2; [done|]. apply Forall_app. split; [done|]. by constructor.
    + intros a q' j' b Hj -> Hj' Hb. eapply (H3 a q' j' (b ++ [(q, j)])); [done|by rewrite <- app_assoc|done|].
      apply Forall_app. split; [done|]. by constructor.
Qed.

Lemma last_List_last {A} (l : list A) e d : last (e :: l) = Some (List.last (e :: l) d).
Proof. revert e. induction l as [|x l IH]; intros e; [done|]. change (last (x :: l) = Some (List.last (x :: l) d)). apply IH. Qed.

Lemma List_last_fmap (l : list elem) e : (List.last (e :: l) e).1 = List.last l.*1 e.1.
Proof.
  rewrite list_last_cons. generalize e at 1 2. intros d. revert d. induction l as [|x l IH]; intros d; [done|].
  rewrite fmap_cons, !list_last_cons. apply IH.
Qed.

Lemma lessequal_split key l1 p k l2 : tree_sorted snd comp (l1 ++ (p, k) :: l2) -> 0 <= comp key k ->
  exists a b, l2 = a ++ b /\ Forall (fun e : elem => 0 <= comp key e.2) a /\ Forall (fun e : elem => comp key e.2 < 0) b /\
    spec_lessequal key (l1 ++ (p, k) :: l2) = Some (List.last ((p, k) :: a) (p, k)).
Proof.
  intros Hs Hk. assert (Forall (fun e : elem => 0 <= comp key e.2) l1) as H1.
  { apply Forall_forall. intros e He. destruct (sorted_app_elem _ _ _ _ Hs) as [Hlow _]. rewrite Forall_forall in Hlow.
    specialize (Hlow e He). unfold key_le in Hlow. simpl in Hlow.
    destruct (Z.le_gt_cases 0 (comp key e.2)); [done|]. assert (comp key k < 0) by (eapply (cmp_lt_trans_l comp); [|exact Hlow]; lia). lia. }
  assert (tree_sorted snd comp l2) as Hs2.
  { clear -Hs. induction l1 as [|e l1 IH]; simpl in Hs; inversion Hs; subst; auto. }
  destruct (sorted_cut key l2 Hs2) as (a & b & -> & Ha & Hb). exists a, b. split; [done|split; [done|split; [done|]]].
  replace (l1 ++ (p, k) :: a ++ b) with ((l1 ++ (p, k) :: a) ++ b) by (by rewrite <- app_assoc).
  rewrite spec_lessequal_cut; [|apply Forall_app; split; [done|by constructor]|done].
  rewrite last_app_cons. apply last_List_last.
Qed.
(** [avl_find_lessequal]: the walk down, the walk back along the list and the
    walk forward end at the last element with a key less or equal, or with NULL
    when there is none. *)
Theorem avl_find_lessequal_refines s l key : avl_holds s l ->
  avl_find_lessequal comp key s = Def (fst <$> spec_lessequal key l, s).
Proof.
  intros H. cut (wp (avl_find_lessequal comp key) s (fun o s' => o = fst <$> spec_lessequal key l /\ s' = s)).
  { intros (o & s' & -> & -> & ->)%wp_Def. done. }
  apply wp_with_fuel. pose proof (fuel_enough comp s l H) as [Hf _]. do 2 wp_step.
  destruct (root (tree s)) as [r|] eqn:Er; [|apply wp_ret; by rewrite (root_none comp s l H Er)].
  apply wp_bind. eapply (search_wp comp); [exact H|exact Er|apply fuel_depth; lia|].
  intros t h p diff l1 kp l2 c sl b sr _ _ _ HP. cbn [fst snd]. rewrite (place_diff HP). pose proof (place_list HP) as El.
  pose proof (runs_sorted comp _ _ _ (holds_runs H)) as Hs. clear HP. subst l.
  assert (forall a q j b', l1 ++ (p, kp) :: l2 = a ++ (q, j) :: b' -> 0 <= comp key j ->
    wp (node <~ find_le_right comp (S (S (size (mem s)))) key q q (comp key j) ;; ret (Some node)) s
       (fun o s' => o = fst <$> spec_lessequal key (l1 ++ (p, kp) :: l2) /\ s' = s)) as Hright.
  { intros a q j b' E Hj. rewrite E in *. destruct (lessequal_split key a q j b' Hs Hj) as (a' & b'' & -> & Ha & Hb & Espec).
    apply wp_bind. eapply find_le_right_wp; [exact H|exact Hj|exact Ha|exact Hb| |].
    - rewrite length_app in Hf. simpl in Hf. rewrite length_app in Hf. lia.
    - apply wp_ret. split; [|done]. rewrite Espec. cbn [fmap option_fmap option_map]. by rewrite List_last_fmap. }
  apply wp_bind. eapply find_le_left_wp; [exact H|rewrite length_app in Hf; lia| | |].
  - intros Hk. eapply Hright; done.
  - intros Hk Hl1. apply wp_ret. split; [|done].
    assert (Forall (fun e : elem => comp key e.2 < 0) (l1 ++ (p, kp) :: l2)) as Hall.
    { apply Forall_app. split; [done|]. constructor; [done|]. destruct (sorted_app_elem _ _ _ _ Hs) as [_ Hhigh].
      eapply Forall_impl; [exact Hhigh|]. intros e He. eapply (cmp_lt_trans_l comp); [exact Hk|exact He]. }
    pose proof (spec_lessequal_cut key [] _ (Forall_nil_2 _) Hall) as E. simpl in E. by rewrite E.
  - intros a q j b' _ -> Hj _. eapply (Hright a q j (b' ++ (p, kp) :: l2)); [by rewrite <- app_assoc|done].
Qed.
(** *** Upwards *)

Lemma find_ge_left_wp s a l1 p k l2 key fuel (Q : ptr -> avl_state K -> Prop) :
  avl_holds s (l1 ++ a ++ (p, k) :: l2) -> comp key k <= 0 ->
  Forall (fun e : elem => comp key e.2 <= 0) a -> Forall (fun e : elem => 0 < comp key e.2) l1 -> (S (length a) < fuel)%nat ->
  Q (match a with [] => p | e :: _ => e.1 end) s -> forall p0, wp (find_ge_left comp fuel key p0 p (comp key k)) s Q.
Proof.
  revert p k l2 fuel. induction a as [|[q j] a IH] using rev_ind; intros p k l2 fuel H Hk Ha Hb Hf HQ p0.
  all: destruct fuel as [|fuel]; [rewrite ?length_app in Hf; simpl in Hf; lia|]; cbn [find_ge_left]; destruct (Z.leb_spec (comp key k) 0); [|lia].
  all: rewrite app_assoc in H; pose proof (holds_list H) as Hl; rewrite fmap_app in Hl; cbn [fmap list_fmap fst] in Hl.
  all: destruct (member s _ p Hl) as [n Hn]; [rewrite elem_of_app; right; left|].
  all: wp_step; eapply is_first_wp; [exact Hl|].
  - destruct l1 as [|[q j] l1 _] using rev_ind; [rewrite bool_decide_true by done; by apply wp_ret|].
    rewrite app_nil_r in *. rewrite bool_decide_false; [|rewrite fmap_app; by destruct (l1.*1)].
    destruct (member s _ q Hl) as [m Hm]; [rewrite fmap_app, !elem_of_app; left; right; left|].
    do 2 wp_step. rewrite (prev_of s _ p _ n Hl Hn), fmap_app. cbn [fmap list_fmap fst]. rewrite before_snoc. do 4 wp_step.
    rewrite (key_of s _ q j m H); [|rewrite !elem_of_app; left; right; left|done].
    destruct fuel as [|fuel]; [simpl in Hf; lia|]. cbn [find_ge_left]. apply Forall_app in Hb as [_ Hb]. apply Forall_cons in Hb as [Hb _]. simpl in Hb.
    destruct (Z.leb_spec (comp key j) 0); [lia|]. by apply wp_ret.
  - rewrite bool_decide_false; [|rewrite !fmap_app; by destruct (l1.*1), (a.*1)].
    destruct (member s _ q Hl) as [m Hm]; [rewrite !fmap_app, !elem_of_app; left; right; right; left|].
    do 2 wp_step. rewrite (prev_of s _ p _ n Hl Hn), !fmap_app. cbn [fmap list_fmap fst]. rewrite app_assoc, before_snoc. do 4 wp_step.
    rewrite (key_of s _ q j m H); [|rewrite !elem_of_app; left; right; right; left|done].
    apply Forall_app in Ha as [Ha Hj]. apply Forall_cons in Hj as [Hj _].
    apply (IH q j ((p, k) :: l2)); [by rewrite <- !app_assoc in H|done|done|done|rewrite length_app in Hf; simpl in Hf; lia|].
    destruct a as [|e a]; exact HQ.
Qed.

Lemma find_ge_right_wp s l2 l1 p k key fuel (Q : option (ptr * Z) -> avl_state K -> Prop) :
  avl_holds s (l1 ++ (p, k) :: l2) -> (length l2 < fuel)%nat ->
  (comp key k <= 0 -> Q (Some (p, comp key k)) s) ->
  (0 < comp key k -> Forall (fun e : elem => 0 < comp key e.2) l2 -> Q None s) ->
  (forall a q j b, 0 < comp key k -> l2 = a ++ (q, j) :: b -> comp key j <= 0 -> Q (Some (q, comp key j)) s) ->
  wp (find_ge_right comp fuel key p (comp key k)) s Q.
Proof.
  revert l1 p k fuel. induction l2 as [|[q j] l2 IH]; intros l1 p k fuel H Hf H1 H2 H3.
  all: destruct fuel as [|fuel]; [simpl in Hf; lia|]; cbn [find_ge_right].
  all: destruct (Z.ltb_spec 0 (comp key k)) as [Hk|Hk]; [|by apply wp_ret, H1].
  all: pose proof (holds_list H) as Hl; rewrite fmap_app in Hl; cbn [fmap list_fmap fst] in Hl.
  all: wp_step; eapply is_last_wp; [exact Hl|].
  - rewrite bool_decide_true by done. by apply wp_ret, H2.
  - rewrite bool_decide_false by done.
    destruct (member s _ p Hl) as [n Hn]; [rewrite elem_of_app; right; left|].
    destruct (member s _ q Hl) as [m Hm]; [rewrite elem_of_app; right; right; left|].
    do 2 wp_step. rewrite (next_of s _ p _ n Hl Hn). simpl after. do 4 wp_step.
    rewrite (key_of s _ q j m H); [|rewrite !elem_of_app; right; right; left|done].
    eapply (IH (l1 ++ [(p, k)])); [by rewrite <- app_assoc|simpl in Hf; lia| | |].
    + intros Hj. by eapply (H3 [] q j l2).
    + intros Hj Hl2. apply H2; [done|]. by constructor.
    + intros a q' j' b Hj -> Hj'. by eapply (H3 ((q, j) :: a) q' j' b).
Qed.

Lemma greaterequal_split key l1 p k l2 : tree_sorted snd comp (l1 ++ (p, k) :: l2) -> comp key k <= 0 ->
  exists b a, l1 = b ++ a /\ Forall (fun e : elem => comp key e.2 <= 0) a /\ Forall (fun e : elem => 0 < comp key e.2) b /\ spec_greaterequal key (l1 ++ (p, k) :: l2) = head (a ++ [(p, k)]).
Proof.
  intros Hs Hk. assert (Forall (fun e : elem => comp key e.2 <= 0) l2) as H2.
  { destruct (sorted_app_elem _ _ _ _ Hs) as [_ Hhigh]. eapply Forall_impl; [exact Hhigh|]. intros e He. by eapply (cmp_trans (cmp := comp)). }
  assert (tree_sorted snd comp l1) as Hs1.
  { clear -Hs. induction l1 as [|e l1 IH]; [constructor|]. simpl in Hs. inversion Hs as [|? ? H1 H2]; subst. constructor; [exact (IH H1)|].
    by apply Forall_app in H2 as [? _]. }
  destruct (sorted_cut_ge key l1 Hs1) as (b & a & -> & Hb & Ha). exists b, a. split; [done|split; [done|split; [done|]]].
  rewrite <- app_assoc. rewrite spec_greaterequal_cut; [by destruct a|done|]. apply Forall_app. split; [done|by constructor].
Qed.

(** [avl_find_greaterequal]: the first element with a key greater or equal, or
    NULL when there is none. *)
Theorem avl_find_greaterequal_refines s l key : avl_holds s l ->
  avl_find_greaterequal comp key s = Def (fst <$> spec_greaterequal key l, s).
Proof.
  intros H. cut (wp (avl_find_greaterequal comp key) s (fun o s' => o = fst <$> spec_greaterequal key l /\ s' = s)).
  { intros (o & s' & -> & -> & ->)%wp_Def. done. }
  apply wp_with_fuel. pose proof (fuel_enough comp s l H) as [Hf _]. do 2 wp_step.
  destruct (root (tree s)) as [r|] eqn:Er; [|apply wp_ret; by rewrite (root_none comp s l H Er)].
  apply wp_bind. eapply (search_wp comp); [exact H|exact Er|apply fuel_depth; lia|].
  intros t h p diff l1 kp l2 c sl b sr _ _ _ HP. cbn [fst snd]. rewrite (place_diff HP). pose proof (place_list HP) as El.
  pose proof (runs_sorted comp _ _ _ (holds_runs H)) as Hs. pose proof (place_smaller HP) as Hsmall. clear HP. subst l.
  assert (forall a q j b', l1 ++ (p, kp) :: l2 = a ++ (q, j) :: b' -> comp key j <= 0 ->
    wp (node <~ find_ge_left comp (S (S (size (mem s)))) key q q (comp key j) ;; ret (Some node)) s
       (fun o s' => o = fst <$> spec_greaterequal key (l1 ++ (p, kp) :: l2) /\ s' = s)) as Hleft.
  { intros a q j b' E Hj. rewrite E in *. destruct (greaterequal_split key a q j b' Hs Hj) as (b'' & a' & -> & Ha & Hb & Espec).
    apply wp_bind. rewrite <- app_assoc in H. eapply find_ge_left_wp; [exact H|exact Hj|exact Ha|exact Hb| |].
    - rewrite !length_app in Hf. simpl in Hf. lia.
    - apply wp_ret. split; [|done]. rewrite Espec. by destruct a'. }
  apply wp_bind. eapply find_ge_right_wp; [exact H|rewrite length_app in Hf; simpl in Hf; lia| | |].
  - intros Hk. eapply Hleft; done.
  - intros Hk Hl2. apply wp_ret. split; [|done].
    assert (Forall (fun e : elem => 0 < comp key e.2) (l1 ++ (p, kp) :: l2)) as Hall.
    { apply Forall_app. split; [exact Hsmall|by constructor]. }
    pose proof (spec_greaterequal_cut key _ [] Hall (Forall_nil_2 _)) as E. rewrite app_nil_r in E. by rewrite E.
  - intros a q j b' _ -> Hj. eapply (Hleft (l1 ++ (p, kp) :: a) q j b'); [by rewrite <- app_assoc|done].
Qed.

(** ** The number of comparisons *)

Lemma last_split_before xs1 (p : ptr) xs2 : exists q, q ∈ p :: xs2 /\ before (xs1 ++ p :: xs2) = Entity q.
Proof.
  destruct xs2 as [|q xs2 _] using rev_ind.
  - exists p. split; [left|apply before_snoc].
  - exists q. split; [right; rewrite elem_of_app; right; left|].
    replace (xs1 ++ p :: xs2 ++ [q]) with ((xs1 ++ p :: xs2) ++ [q]) by (by rewrite <- app_assoc). apply before_snoc.
Qed.

(** C25: a search visits at most [2 * log2 (n + 1)] of the [n] nodes of a tree:
    with that much fuel, which counts the calls of the comparator, the recursion
    of [_avl_find_rec] ends. *)
Theorem avl_search_logarithmic s l key r fuel : avl_holds s l -> root (tree s) = Some r ->
  (Z.of_nat (length l) + 1) ^ 2 < 2 ^ (Z.of_nat fuel + 1) ->
  exists res, _avl_find_rec comp fuel r key s = Def (res, s).
Proof.
  intros H Hr Hf. cut (wp (_avl_find_rec comp fuel r key) s (fun _ s' => s' = s)).
  { intros (res & s' & E & ->)%wp_Def. by exists res. }
  eapply (search_wp comp); [exact H|exact Hr| |done].
  intros t h Hb En. pose proof (balanced_size t h Hb) as Hsz. rewrite (balanced_depth t h Hb) in Hsz.
  assert (length (nodes t) <= length l)%nat as Hl.
  { rewrite En. pose proof (leaders_length s l). rewrite !length_fmap in *. lia. }
  assert (2 ^ Z.of_nat (depth t) < 2 ^ (Z.of_nat fuel + 1)) as Hp by nia.
  apply Z.pow_lt_mono_r_iff in Hp; lia.
Qed.

(** ** Loops *)

(** [avl_for_each_element] visits every element once, in the order of the list,
    when its body leaves the tree alone. *)
Theorem avl_for_each_element_visits {A} s l (body : A -> ptr -> avl_M K A) (f : A -> ptr -> A) acc fuel :
  avl_holds s l -> (forall a p, p ∈ l.*1 -> body a p s = Def (f a p, s)) -> (length l < fuel)%nat ->
  avl_for_each_element fuel body acc (next (list_head (tree s))) s = Def (foldl f acc l.*1, s).
Proof.
  intros H Hbody Hf. pose proof (holds_list H) as Hl. destruct (head_links s _ Hl) as [Eprev Enext].
  cut (forall xs1 xs2 acc fuel, l.*1 = xs1 ++ xs2 -> (length xs2 < fuel)%nat ->
    avl_for_each_element fuel body acc (Some (after xs2)) s = Def (foldl f acc xs2, s)).
  { intros Hc. rewrite Enext. apply (Hc [] _); [done|]. by rewrite length_fmap. }
  clear acc fuel Hf. intros xs1 xs2. revert xs1. induction xs2 as [|p xs2 IH]; intros xs1 acc fuel E Hf.
  all: destruct fuel as [|fuel]; [simpl in Hf; lia|]; cbn [avl_for_each_element after].
  - cbv [bind load_entity get_tree ret]. by rewrite bool_decide_true.
  - rewrite E in Hl. destruct (member s _ p Hl) as [n Hn]; [rewrite elem_of_app; right; left|].
    assert (load_entity (Some (Entity p)) s = Def (node_list n, s)) as Eload by (unfold load_entity, bind, load, ret; by rewrite Hn).
    unfold bind at 1. rewrite Eload. unfold bind at 1. cbn [get_tree].
    rewrite bool_decide_false.
    + unfold bind at 1. cbn [container_of ret]. unfold bind at 1. rewrite Hbody by (rewrite E, elem_of_app; right; left).
      unfold bind at 1. rewrite Eload, (next_of s _ p _ n Hl Hn). simpl foldl. apply (IH (xs1 ++ [p])); [by rewrite <- app_assoc|simpl in Hf; lia].
    + rewrite (prev_of s _ p _ n Hl Hn), Eprev. intros [= Eb]. destruct Hl as (_ & Hnd & _). rewrite E in Eb.
      destruct (last_split_before xs1 p xs2) as (q & Hq & Eq). rewrite Eq in Eb.
      destruct (before_in xs1) as [E'|(q' & E' & Hq')]; rewrite E' in Eb; [done|]. injection Eb as ->.
      apply NoDup_app in Hnd as (_ & Hnd & _). by apply (Hnd q).
Qed.
End lookup.

Lemma avl_find_lessequal_refines_witness :
  avl_find_lessequal Z.sub 4 example_tree = Def (Some 4%positive, example_tree) /\
  avl_find_lessequal Z.sub 0 example_tree = Def (None, example_tree).
Proof.
  split; [rewrite (avl_find_lessequal_refines Z.sub _ _ 4 example_holds)|rewrite (avl_find_lessequal_refines Z.sub _ _ 0 example_holds)]; reflexivity.
Defined.

Lemma avl_find_greaterequal_refines_witness :
  avl_find_greaterequal Z.sub 2 example_tree = Def (Some 2%positive, example_tree) /\
  avl_find_greaterequal Z.sub 9 example_tree = Def (None, example_tree).
Proof.
  split; [rewrite (avl_find_greaterequal_refines Z.sub _ _ 2 example_holds)|rewrite (avl_find_greaterequal_refines Z.sub _ _ 9 example_holds)]; reflexivity.
Defined.

Lemma avl_search_logarithmic_witness : exists res, _avl_find_rec Z.sub 5 1 7 example_tree = Def (res, example_tree).
Proof. apply (avl_search_logarithmic Z.sub _ _ 7 1 5 example_holds); vm_compute; reflexivity. Defined.

Lemma avl_for_each_element_visits_witness :
  avl_for_each_element 6 (fun acc p => ret (acc ++ [p])) [] (Some (Entity 5)) example_tree =
  Def ([5; 2; 4; 1; 3]%positive, example_tree).
Proof.
  apply (avl_for_each_element_visits Z.sub example_tree example_list _ (fun acc p => acc ++ [p]) [] 6 example_holds); [done|cbn; lia].
Defined.
