(* ===== verification/Rfc5444Values.v ===== *)
(** The value encodings of src/librfc5444/rfc5444.c: RFC 5497 interval times,
    RFC 7181 link metrics and RFC 5444 sequence numbers. *)

From Stdlib Require Import ZArith Lia.
From stdpp Require Import base list numbers option.
From S2P Require Import Prelude.

Local Open Scope Z_scope.
Local Open Scope cint_scope.

Definition RFC5497_TIMETLV_MAX : Z := 0xdac00000.
Definition RFC5497_TIMETLV_MIN : Z := 1.
Definition RFC7181_METRIC_MAX : Z := 0xffff00.
Definition RFC7181_METRIC_MIN : Z := 1.
Definition RFC7181_METRIC_INFINITE : Z := 0xffffff.
Definition RFC7181_METRIC_INFINITE_PATH : Z := 0xffffffff.
Definition UINT64_MAX : Z := 0xffffffffffffffff.

(** ** Definitions *)

(** The loop [for (i = 1; i < vector_length; i += 2)]; the counter is the
    number of iterations left. *)
Fixpoint timetlv_scan (vector : bytes) (hopcount i : Z) (fuel : nat) : outcome Z :=
  match fuel with
  | O => rd vector (i - 1)
  | S fuel =>
      if i <? blen vector then
        h ← rd vector i;
        if hopcount <=? h then rd vector (i - 1)
        else timetlv_scan vector hopcount (i + 2) fuel
      else rd vector (i - 1)
  end.

Definition rfc5497_timetlv_get_from_vector (vector : bytes) (hopcount : Z) : outcome Z :=
  if Z.land (blen vector) 1 =? 0 then Def 255
  else timetlv_scan vector hopcount 1 (length vector).

(** Both encoders halve with rounding up until a limit is reached:
    [while (decoded > limit) { n++; decoded++; decoded >>= 1; }]. *)
Fixpoint halve_up (wd wn : Z -> Z) (limit : Z) (fuel : nat) (decoded n : Z) : Z * Z :=
  match fuel with
  | O => (decoded, n)
  | S fuel =>
      if limit <? decoded
      then halve_up wd wn limit fuel (wd (decoded + 1) .>> 1) (wn (n + 1))
      else (decoded, n)
  end.

(** [while (decoded < 1000) { b--; decoded <<= 1; }] *)
Fixpoint double_up (fuel : nat) (decoded b : Z) : Z * Z :=
  match fuel with
  | O => (decoded, b)
  | S fuel =>
      if decoded <? 1000 then double_up fuel (u64 (decoded .<< 1)) (u32 (b - 1))
      else (decoded, b)
  end.

(** 64 rounds: the argument is a [uint64_t]. *)
Definition rfc5497_timetlv_encode (decoded : Z) : Z :=
  if decoded <? RFC5497_TIMETLV_MIN then 0
  else if RFC5497_TIMETLV_MAX <? decoded then 255
  else
    let '(d, b) :=
      if 1000 <=? decoded then halve_up u64 u32 1875 64 decoded 10
      else double_up 64 decoded 10 in
    let a := u32 (u64 (u64 (d - 1000) + 124) / 125) in
    u8 (u32 (a + u32 (b .<< 3))).

Definition rfc5497_timetlv_decode (encoded : Z) : Z :=
  if encoded =? 0 then 0
  else if encoded =? 255 then UINT64_MAX
  else
    let a := encoded .& 7 in
    let b := encoded .>> 3 in
    if b <=? 10 then u64 (1000 + 125 * a) .>> (10 - b)
    else u64 ((1000 + 125 * a) .<< (b - 10)).

(** [struct rfc7181_metric_field]: the two octets [b[0]], [b[1]]. *)
Record rfc7181_metric_field := { mf_b0 : Z; mf_b1 : Z }.

(** [None] is the result -1 (the field is left untouched). *)
Definition rfc7181_metric_encode (decoded : Z) : option rfc7181_metric_field :=
  if (decoded <? RFC7181_METRIC_MIN) || (RFC7181_METRIC_INFINITE <=? decoded) then None
  else if RFC7181_METRIC_MAX <? decoded then Some {| mf_b0 := 0x0f; mf_b1 := 0xff |}
  else
    let '(d, a) := halve_up u32 u8 512 32 (u32 (decoded + 256)) 0 in
    Some {| mf_b0 := a; mf_b1 := u8 (d - 257) |}.

Definition rfc7181_metric_decode (encoded : rfc7181_metric_field) : Z :=
  let exponent := mf_b0 encoded .& 15 in
  u32 (((257 + mf_b1 encoded) .<< exponent) - 256).

Definition rfc5444_seqno_difference (seqno1 seqno2 : Z) : Z :=
  let diff := seqno1 - seqno2 in
  if 1 .<< 15 <? diff then diff - (1 .<< 16)
  else if diff <? - (1 .<< 15) then diff + (1 .<< 16)
  else diff.

Definition rfc5444_seqno_is_larger (s1 s2 : Z) : bool :=
  ((s2 <? s1) && (s1 - s2 <? 1 .<< 15)) || ((s1 <? s2) && (1 .<< 15 <? s2 - s1)).

Definition rfc5444_seqno_is_smaller (s1 s2 : Z) : bool :=
  negb (s1 =? s2) && negb (rfc5444_seqno_is_larger s1 s2).

(** Link metric flags share the first octet with the exponent. *)
Definition rfc7181_metric_has_flag (metric : rfc7181_metric_field) (flag : Z) : bool :=
  negb (mf_b0 metric .& u8 flag =? 0).

Definition rfc7181_metric_set_flag (metric : rfc7181_metric_field) (flag : Z) : rfc7181_metric_field :=
  {| mf_b0 := mf_b0 metric .| u8 flag; mf_b1 := mf_b1 metric |}.

Definition rfc7181_metric_reset_flag (metric : rfc7181_metric_field) (flag : Z) : rfc7181_metric_field :=
  {| mf_b0 := u8 (mf_b0 metric .& Z.lnot (u8 flag)); mf_b1 := mf_b1 metric |}.

(** ** The loops *)

Lemma halve_up_spec wd wn limit fuel d n :
  (forall z, 0 <= z <= d + 1 -> wd z = z) ->
  (forall z, 0 <= z <= n + Z.of_nat fuel -> wn z = z) ->
  0 <= n -> 1 <= limit -> 1 <= d <= limit * 2 ^ Z.of_nat fuel ->
  exists k d', halve_up wd wn limit fuel d n = (d', n + k) /\
    0 <= k <= Z.of_nat fuel /\ d' <= limit /\
    (d' - 1) * 2 ^ k < d <= d' * 2 ^ k /\
    (k = 0 \/ (1 <= k /\ limit * 2 ^ (k - 1) < d)).
Proof.
  revert d n. induction fuel as [|fuel IH]; intros d n Hwd Hwn Hn Hl Hd; cbn [halve_up].
  { exists 0, d. change (2 ^ Z.of_nat 0) with 1 in Hd. change (2 ^ 0) with 1.
    split; [f_equal; lia|]. lia. }
  rewrite Nat2Z.inj_succ, Z.pow_succ_r in Hd by lia.
  destruct (Z.ltb_spec limit d) as [H|H]; cycle 1.
  { exists 0, d. change (2 ^ 0) with 1. split; [f_equal; lia|]. lia. }
  rewrite Hwd, Hwn, shiftr_div by lia. change (2 ^ 1) with 2.
  pose proof (Z.div_mod (d + 1) 2 ltac:(lia)). pose proof (Z.mod_pos_bound (d + 1) 2 ltac:(lia)).
  destruct (IH ((d + 1) `div` 2) (n + 1)) as (k & d' & E & Hk & Hd' & Hb & Hm); try lia.
  { intros z Hz. apply Hwd. lia. }
  { intros z Hz. apply Hwn. lia. }
  exists (k + 1), d'. rewrite E, Z.pow_add_r by lia. change (2 ^ 1) with 2.
  split; [f_equal; lia|]. split; [lia|]. split; [done|].
  split; [nia|]. right. split; [lia|]. replace (k + 1 - 1) with k by lia.
  destruct (Z.eq_dec k 0) as [->|Hk0]; [change (2 ^ 0) with 1; lia|].
  destruct Hm as [|[_ Hm]]; [lia|].
  replace (2 ^ k) with (2 * 2 ^ (k - 1)) by (rewrite <- Z.pow_succ_r by lia; f_equal; lia).
  lia.
Qed.

Definition code_of (m : rfc7181_metric_field) : Z := 256 * mf_b0 m + mf_b1 m.

Definition metric_field_wf (m : rfc7181_metric_field) : Prop :=
  0 <= mf_b0 m < 16 /\ 0 <= mf_b1 m < 256.

#[export] Instance metric_field_wf_dec m : Decision (metric_field_wf m).
Proof. unfold metric_field_wf. apply _. Defined.

Lemma timetlv_decode_step c : 0 <= c < 255 ->
  rfc5497_timetlv_decode c <= rfc5497_timetlv_decode (c + 1).
Proof.
  intros H. apply Z.leb_le. revert c H.
  enumerate_Z 0 255.
Qed.

Lemma timetlv_decode_mono c1 c2 : 0 <= c1 <= c2 -> c2 <= 255 ->
  rfc5497_timetlv_decode c1 <= rfc5497_timetlv_decode c2.
Proof.
  intros H1 H2. replace c2 with (c1 + Z.of_nat (Z.to_nat (c2 - c1))) by lia.
  assert (c1 + Z.of_nat (Z.to_nat (c2 - c1)) <= 255) as Hb by lia.
  induction (Z.to_nat (c2 - c1)) as [|n IH]; [rewrite Z.add_0_r; lia|].
  rewrite Nat2Z.inj_succ in Hb |- *.
  etrans; [apply IH; lia|]. replace (c1 + Z.succ (Z.of_nat n)) with (c1 + Z.of_nat n + 1) by lia.
  apply timetlv_decode_step. lia.
Qed.

(** Codes of at least 80 stand for times of at least a second and decode by a
    left shift. *)
Lemma timetlv_decode_large a k : 0 <= a < 8 -> 0 <= k <= 21 -> a + 8 * (10 + k) < 255 ->
  rfc5497_timetlv_decode (a + 8 * (10 + k)) = (1000 + 125 * a) * 2 ^ k.
Proof.
  intros Ha Hk Hc. unfold rfc5497_timetlv_decode.
  destruct (Z.eqb_spec (a + 8 * (10 + k)) 0); [lia|].
  destruct (Z.eqb_spec (a + 8 * (10 + k)) 255); [lia|].
  change 7 with (2 ^ 3 - 1). rewrite land_mask, shiftr_div by lia. change (2 ^ 3) with 8.
  replace ((a + 8 * (10 + k)) `mod` 8) with a by (rewrite Z.mul_comm, Z_mod_plus_full, Z.mod_small; lia).
  replace ((a + 8 * (10 + k)) `div` 8) with (10 + k)
    by (rewrite Z.mul_comm, Z.div_add, Z.div_small by lia; lia).
  assert (0 < 2 ^ k <= 2 ^ 21) by (split; [lia|apply Z.pow_le_mono_r; lia]).
  change (2 ^ 21) with 2097152 in *.
  destruct (Z.leb_spec (10 + k) 10).
  - replace k with 0 by lia. rewrite shiftr_div by lia. change (2 ^ (10 - (10 + 0))) with 1.
    change (2 ^ 0) with 1. rewrite Z.div_1_r, u64_small by lia. lia.
  - rewrite shiftl_mul by lia. replace (10 + k - 10) with k by lia. apply u64_small. nia.
Qed.

Lemma timetlv_encode_small t : 1 <= t < 1000 ->
  1 <= rfc5497_timetlv_encode t <= 254 /\
  rfc5497_timetlv_decode (rfc5497_timetlv_encode t - 1) < t
    <= rfc5497_timetlv_decode (rfc5497_timetlv_encode t).
Proof.
  intros H. cut ((1 <=? rfc5497_timetlv_encode t) && (rfc5497_timetlv_encode t <=? 254)
    && (rfc5497_timetlv_decode (rfc5497_timetlv_encode t - 1) <? t)
    && (t <=? rfc5497_timetlv_decode (rfc5497_timetlv_encode t)) = true); [lia|].
  revert t H. enumerate_Z 1 999.
Qed.

Lemma timetlv_encode_large t : 1000 <= t <= RFC5497_TIMETLV_MAX ->
  1 <= rfc5497_timetlv_encode t <= 254 /\
  rfc5497_timetlv_decode (rfc5497_timetlv_encode t - 1) < t
    <= rfc5497_timetlv_decode (rfc5497_timetlv_encode t).
Proof.
  intros Ht. unfold RFC5497_TIMETLV_MAX in Ht.
  destruct (halve_up_spec u64 u32 1875 64 t 10) as (k & d & E & Hk & Hd & Hb & Hm); try lia.
  { intros. apply u64_small. lia. }
  { intros. apply u32_small. lia. }
  assert (0 < 2 ^ k) by lia.
  assert (k <= 21).
  { destruct (Z.le_gt_cases k 21); [done|exfalso]. destruct Hm as [?|[_ Hm]]; [lia|].
    assert (2 ^ 21 <= 2 ^ (k - 1)) by (apply Z.pow_le_mono_r; lia).
    change (2 ^ 21) with 2097152 in *. lia. }
  assert (876 <= d).
  { destruct Hm as [->|[Hk1 Hm]]; [change (2 ^ 0) with 1 in *; lia|].
    replace (2 ^ k) with (2 * 2 ^ (k - 1)) in Hb by (rewrite <- Z.pow_succ_r by lia; f_equal; lia).
    nia. }
  pose proof (Z.div_mod (d - 876) 125 ltac:(lia)). pose proof (Z.mod_pos_bound (d - 876) 125 ltac:(lia)).
  assert (exists a, rfc5497_timetlv_encode t = u8 (u32 (a + u32 ((10 + k) .<< 3))) /\
    a = (d - 876) / 125) as (a & Ea & Ha).
  { exists ((d - 876) / 125). split; [|done]. unfold rfc5497_timetlv_encode, RFC5497_TIMETLV_MIN, RFC5497_TIMETLV_MAX.
    destruct (Z.ltb_spec t 1); [lia|]. destruct (Z.ltb_spec 0xdac00000 t); [lia|].
    destruct (Z.leb_spec 1000 t); [|lia]. rewrite E.
    assert (u64 (u64 (d - 1000) + 124) = d - 876) as ->.
    { unfold u64, wrap. rewrite Zplus_mod_idemp_l, Z.mod_small; lia. }
    do 3 f_equal. apply u32_small. lia. }
  rewrite <- Ha in *. rewrite shiftl_mul in Ea by lia. change (2 ^ 3) with 8 in Ea.
  rewrite (u32_small ((10 + k) * 8)), u32_small in Ea by lia.
  assert (a + 8 * (10 + k) < 255) as Hc.
  { destruct (Z.eq_dec k 21) as [->|]; [|lia]. change (2 ^ 21) with 2097152 in *. lia. }
  rewrite u8_small in Ea by lia. rewrite Ea. replace (a + (10 + k) * 8) with (a + 8 * (10 + k)) by lia.
  split; [lia|]. rewrite timetlv_decode_large by lia.
  split; [|nia].
  destruct (Z.eq_dec a 0) as [->|Ha0]; cycle 1.
  { replace (a + 8 * (10 + k) - 1) with ((a - 1) + 8 * (10 + k)) by lia.
    rewrite timetlv_decode_large by lia. nia. }
  destruct (Z.eq_dec k 0) as [->|Hk0].
  { change (rfc5497_timetlv_decode (0 + 8 * (10 + 0) - 1)) with 937. lia. }
  replace (0 + 8 * (10 + k) - 1) with (7 + 8 * (10 + (k - 1))) by lia.
  rewrite timetlv_decode_large by lia. lia.
Qed.

Lemma metric_decode_eq m : metric_field_wf m ->
  rfc7181_metric_decode m = (257 + mf_b1 m) * 2 ^ mf_b0 m - 256.
Proof.
  intros [H0 H1]. unfold rfc7181_metric_decode.
  change 15 with (2 ^ 4 - 1). rewrite land_mask by lia. change (2 ^ 4) with 16.
  rewrite Z.mod_small, shiftl_mul by lia. apply u32_small.
  assert (2 ^ 0 <= 2 ^ mf_b0 m <= 2 ^ 15) by (split; apply Z.pow_le_mono_r; lia).
  change (2 ^ 0) with 1 in *. change (2 ^ 15) with 32768 in *. nia.
Qed.

(** The decoder is strictly increasing in the 12-bit code. *)
Lemma metric_decode_lt m1 m2 : metric_field_wf m1 -> metric_field_wf m2 ->
  code_of m1 < code_of m2 -> rfc7181_metric_decode m1 < rfc7181_metric_decode m2.
Proof.
  intros H1 H2 Hc. rewrite !metric_decode_eq by done. unfold metric_field_wf, code_of in *.
  destruct (Z.eq_dec (mf_b0 m1) (mf_b0 m2)) as [E|Hne].
  { rewrite E in *. assert (0 < 2 ^ mf_b0 m2) by lia. nia. }
  assert (2 * 2 ^ mf_b0 m1 <= 2 ^ mf_b0 m2).
  { rewrite <- Z.pow_succ_r by lia. apply Z.pow_le_mono_r; lia. }
  assert (0 < 2 ^ mf_b0 m1) by lia. nia.
Qed.

Lemma code_of_inj m1 m2 : metric_field_wf m1 -> metric_field_wf m2 ->
  code_of m1 = code_of m2 -> m1 = m2.
Proof.
  destruct m1, m2. unfold metric_field_wf, code_of. simpl. intros. f_equal; lia.
Qed.

Lemma code_of_pred m : metric_field_wf m -> 0 < code_of m ->
  exists p, metric_field_wf p /\ code_of p = code_of m - 1.
Proof.
  intros Hwf Hc. exists {| mf_b0 := (code_of m - 1) / 256; mf_b1 := (code_of m - 1) mod 256 |}.
  unfold metric_field_wf, code_of in *. simpl. Z.to_euclidean_division_equations. lia.
Qed.

Lemma code_of_nonneg m : metric_field_wf m -> 0 <= code_of m.
Proof. unfold metric_field_wf, code_of. lia. Qed.

Lemma metric_encode_bounds d : RFC7181_METRIC_MIN <= d <= RFC7181_METRIC_MAX ->
  exists m, rfc7181_metric_encode d = Some m /\ metric_field_wf m /\
    d <= rfc7181_metric_decode m /\
    (forall m', metric_field_wf m' -> code_of m' = code_of m - 1 -> rfc7181_metric_decode m' < d).
Proof.
  unfold RFC7181_METRIC_MIN, RFC7181_METRIC_MAX. intros Hd. unfold rfc7181_metric_encode.
  unfold RFC7181_METRIC_MIN, RFC7181_METRIC_MAX, RFC7181_METRIC_INFINITE.
  destruct (Z.ltb_spec d 1); [lia|]. destruct (Z.leb_spec 0xffffff d); [lia|].
  destruct (Z.ltb_spec 0xffff00 d); [lia|]. cbn [orb]. rewrite (u32_small (d + 256)) by lia.
  destruct (halve_up_spec u32 u8 512 32 (d + 256) 0) as (k & e & E & Hk & He & Hb & Hm); try lia.
  { intros. apply u32_small. lia. }
  { intros. apply u8_small. lia. }
  assert (k <= 15).
  { destruct (Z.le_gt_cases k 15); [done|exfalso]. destruct Hm as [?|[_ Hm]]; [lia|].
    assert (2 ^ 15 <= 2 ^ (k - 1)) by (apply Z.pow_le_mono_r; lia).
    change (2 ^ 15) with 32768 in *. lia. }
  assert (0 < 2 ^ k) by lia.
  assert (257 <= e).
  { destruct Hm as [->|[Hk1 Hm]]; [change (2 ^ 0) with 1 in *; lia|].
    replace (2 ^ k) with (2 * 2 ^ (k - 1)) in Hb by (rewrite <- Z.pow_succ_r by lia; f_equal; lia).
    nia. }
  rewrite Z.add_0_l in E. rewrite E. eexists. split; [done|]. rewrite u8_small by lia.
  assert (metric_field_wf {| mf_b0 := k; mf_b1 := e - 257 |}) as Hwf
    by (unfold metric_field_wf; simpl; lia).
  split; [done|]. rewrite metric_decode_eq by done. simpl.
  replace (257 + (e - 257)) with e by lia. split; [lia|].
  intros [a b] Hwf' Hc. rewrite metric_decode_eq by done.
  clear E. unfold metric_field_wf, code_of in *. simpl in *.
  destruct (Z.eq_dec e 257) as [->|]; cycle 1.
  { assert (a = k) as -> by lia. assert (b = e - 258) as -> by lia. nia. }
  assert (a = k - 1) as -> by lia. assert (b = 255) as -> by lia. lia.
Qed.

(** ** Properties *)

(** C37: for every time the format can express, the encoder returns the
    smallest code whose decoded time is not shorter: a validity or interval
    time is never advertised shorter than configured, and no smaller code
    would do. *)
Theorem timetlv_encode_tight t : RFC5497_TIMETLV_MIN <= t <= RFC5497_TIMETLV_MAX ->
  t <= rfc5497_timetlv_decode (rfc5497_timetlv_encode t) /\
  1 <= rfc5497_timetlv_encode t <= 254 /\
  (forall c, 0 <= c < rfc5497_timetlv_encode t -> rfc5497_timetlv_decode c < t).
Proof.
  intros Ht. unfold RFC5497_TIMETLV_MIN in Ht.
  assert (1 <= rfc5497_timetlv_encode t <= 254 /\
    rfc5497_timetlv_decode (rfc5497_timetlv_encode t - 1) < t
    <= rfc5497_timetlv_decode (rfc5497_timetlv_encode t)) as (Hc & Hlo & Hhi).
  { destruct (Z.lt_ge_cases t 1000); [apply timetlv_encode_small|apply timetlv_encode_large]; lia. }
  split; [done|]. split; [done|]. intros c Hcc.
  eapply Z.le_lt_trans; [|exact Hlo]. apply timetlv_decode_mono; lia.
Qed.

Lemma timetlv_encode_tight_witness :
  2000 <= rfc5497_timetlv_decode (rfc5497_timetlv_encode 2000) /\
  1 <= rfc5497_timetlv_encode 2000 <= 254 /\
  (forall c, 0 <= c < rfc5497_timetlv_encode 2000 -> rfc5497_timetlv_decode c < 2000).
Proof. apply (timetlv_encode_tight 2000). ground. Defined.

(** a link metric in the valid range is encoded (never refused) to a
    12-bit field, and the field is the smallest one that does not understate
    the metric. *)
Theorem metric_encode_tight d : RFC7181_METRIC_MIN <= d <= RFC7181_METRIC_MAX ->
  exists m, rfc7181_metric_encode d = Some m /\ metric_field_wf m /\
    d <= rfc7181_metric_decode m /\
    (forall m', metric_field_wf m' -> code_of m' < code_of m -> rfc7181_metric_decode m' < d).
Proof.
  intros Hd. destruct (metric_encode_bounds d Hd) as (m & E & Hwf & Hle & Hpred).
  exists m. do 3 (split; [done|]). intros m' Hwf' Hc.
  pose proof (code_of_nonneg m' Hwf').
  destruct (code_of_pred m Hwf) as (p & Hpwf & Hp); [lia|].
  specialize (Hpred p Hpwf Hp).
  destruct (Z.eq_dec (code_of m') (code_of p)) as [Heq|Hne].
  { by rewrite (code_of_inj m' p). }
  etrans; [|exact Hpred]. apply metric_decode_lt; [done..|lia].
Qed.

Lemma metric_encode_tight_witness :
  exists m, rfc7181_metric_encode 1000 = Some m /\ metric_field_wf m /\
    1000 <= rfc7181_metric_decode m /\
    (forall m', metric_field_wf m' -> code_of m' < code_of m -> rfc7181_metric_decode m' < 1000).
Proof. apply (metric_encode_tight 1000). ground. Defined.

(** decoding a metric field and encoding the value again gives the same
    field, for every field the format has. *)
Theorem metric_roundtrip m : metric_field_wf m ->
  rfc7181_metric_encode (rfc7181_metric_decode m) = Some m.
Proof.
  intros Hwf. assert (RFC7181_METRIC_MIN <= rfc7181_metric_decode m <= RFC7181_METRIC_MAX) as Hr.
  { unfold RFC7181_METRIC_MIN, RFC7181_METRIC_MAX. rewrite metric_decode_eq by done.
    unfold metric_field_wf in Hwf.
    assert (2 ^ 0 <= 2 ^ mf_b0 m <= 2 ^ 15) by (split; apply Z.pow_le_mono_r; lia).
    change (2 ^ 0) with 1 in *. change (2 ^ 15) with 32768 in *. nia. }
  destruct (metric_encode_bounds _ Hr) as (m' & E & Hwf' & Hle & Hpred). rewrite E. f_equal.
  pose proof (code_of_nonneg m Hwf).
  destruct (Z.lt_trichotomy (code_of m') (code_of m)) as [Hlt|[Heq|Hlt]].
  - pose proof (metric_decode_lt _ _ Hwf' Hwf Hlt). lia.
  - by apply code_of_inj.
  - exfalso. destruct (code_of_pred m' Hwf') as (p & Hpwf & Hp); [lia|].
    specialize (Hpred p Hpwf Hp).
    destruct (Z.eq_dec (code_of m) (code_of p)) as [Heq|Hne].
    + rewrite (code_of_inj m p) in Hpred by done. lia.
    + pose proof (metric_decode_lt _ _ Hwf Hpwf ltac:(lia)). lia.
Qed.

Lemma metric_roundtrip_witness :
  rfc7181_metric_encode (rfc7181_metric_decode {| mf_b0 := 7; mf_b1 := 42 |})
  = Some {| mf_b0 := 7; mf_b1 := 42 |}.
Proof. apply metric_roundtrip. ground. Defined.

Lemma seqno_larger_iff s1 s2 : is_u16 s1 -> is_u16 s2 ->
  rfc5444_seqno_is_larger s1 s2 = true <-> 1 <= u16 (s1 - s2) <= 32767.
Proof.
  unfold is_u16, rfc5444_seqno_is_larger, u16, wrap. intros H1 H2.
  change (1 .<< 15) with 32768. change (2 ^ 16) with 65536.
  rewrite orb_true_iff, !andb_true_iff, !Z.ltb_lt. Z.to_euclidean_division_equations. lia.
Qed.

Lemma seqno_difference_eq s1 s2 : is_u16 s1 -> is_u16 s2 ->
  u16 (rfc5444_seqno_difference s1 s2) = u16 (s1 - s2) /\
  -32768 <= rfc5444_seqno_difference s1 s2 <= 32768.
Proof.
  unfold is_u16, rfc5444_seqno_difference, u16, wrap. intros H1 H2.
  change (1 .<< 15) with 32768. change (1 .<< 16) with 65536. change (2 ^ 16) with 65536.
  change (Z.opp 32768) with (-32768).
  destruct (Z.ltb_spec 32768 (s1 - s2)); [|destruct (Z.ltb_spec (s1 - s2) (-32768))];
    Z.to_euclidean_division_equations; lia.
Qed.

(** on 16-bit sequence numbers "larger" is exactly "ahead by 1 to 32767
    modulo 2^16", it agrees with the signed difference, and larger/smaller are
    opposite except at the antipode (distance 32768), where each of the two
    numbers counts as smaller than the other. *)
Theorem seqno_order s1 s2 : is_u16 s1 -> is_u16 s2 ->
  (rfc5444_seqno_is_larger s1 s2 = true <-> 1 <= u16 (s1 - s2) <= 32767) /\
  (rfc5444_seqno_is_larger s1 s2 = true <-> 1 <= rfc5444_seqno_difference s1 s2 <= 32767) /\
  (rfc5444_seqno_is_larger s1 s2 = true -> rfc5444_seqno_is_smaller s2 s1 = true) /\
  (rfc5444_seqno_is_smaller s1 s2 = true /\ rfc5444_seqno_is_smaller s2 s1 = true
    <-> u16 (s1 - s2) = 32768).
Proof.
  intros H1 H2. pose proof (seqno_larger_iff s1 s2 H1 H2) as HL.
  pose proof (seqno_larger_iff s2 s1 H2 H1) as HL'.
  destruct (seqno_difference_eq s1 s2 H1 H2) as [HD HB].
  assert (u16 (s2 - s1) = u16 (- u16 (s1 - s2))) as Hneg.
  { unfold u16, wrap. rewrite <- Z.sub_0_l, Zminus_mod_idemp_r. f_equal. lia. }
  unfold rfc5444_seqno_is_smaller.
  rewrite !andb_true_iff, !negb_true_iff, <- !not_true_iff_false, HL, HL', !Z.eqb_eq.
  unfold is_u16, u16, wrap in *. change (2 ^ 16) with 65536 in *.
  Z.to_euclidean_division_equations. repeat split; lia.
Qed.

Lemma seqno_order_witness :
  (rfc5444_seqno_is_larger 3 65530 = true <-> 1 <= u16 (3 - 65530) <= 32767) /\
  (rfc5444_seqno_is_larger 3 65530 = true <-> 1 <= rfc5444_seqno_difference 3 65530 <= 32767) /\
  (rfc5444_seqno_is_larger 3 65530 = true -> rfc5444_seqno_is_smaller 65530 3 = true) /\
  (rfc5444_seqno_is_smaller 3 65530 = true /\ rfc5444_seqno_is_smaller 65530 3 = true
    <-> u16 (3 - 65530) = 32768).
Proof. apply (seqno_order 3 65530); ground. Defined.

(** A hop-count dependent time vector (RFC 5497, section 5): pairs of a value
    and the largest hop count it is valid for, then the value for the rest. *)
Definition time_vector (pairs : list (Z * Z)) (last : Z) : bytes :=
  concat (map (fun p => [p.1; p.2]) pairs) ++ [last].

Definition time_vector_lookup (pairs : list (Z * Z)) (last hopcount : Z) : Z :=
  match list_find (fun p => hopcount <= p.2) pairs with
  | Some (_, p) => p.1
  | None => last
  end.

Lemma timetlv_scan_spec (pre : bytes) pairs last hopcount fuel :
  (length pairs <= fuel)%nat ->
  timetlv_scan (pre ++ time_vector pairs last) hopcount (blen pre + 1) fuel
  = Def (time_vector_lookup pairs last hopcount).
Proof.
  revert pre fuel. induction pairs as [|[v h] pairs IH]; intros pre fuel Hf.
  - unfold time_vector, time_vector_lookup. simpl.
    assert (rd (pre ++ [last]) (blen pre + 1 - 1) = Def last) as Hr.
    { apply rd_at; [unfold blen; lia|]. replace (Z.to_nat (blen pre + 1 - 1)) with (length pre) by (unfold blen; lia).
      apply list_lookup_middle. done. }
    destruct fuel as [|fuel]; simpl; [done|]. unfold blen. rewrite length_app. simpl.
    destruct (Z.ltb_spec (Z.of_nat (length pre) + 1) (Z.of_nat (length pre + 1))); [lia|]. done.
  - destruct fuel as [|fuel]; [simpl in Hf; lia|]. cbn [timetlv_scan].
    change (time_vector ((v, h) :: pairs) last) with (v :: h :: time_vector pairs last).
    rewrite (proj2 (Z.ltb_lt _ _)) by (unfold blen; rewrite length_app; simpl; lia).
    rewrite (rd_at _ (blen pre + 1) h); cycle 1.
    { unfold blen; lia. }
    { replace (Z.to_nat (blen pre + 1)) with (length pre + 1)%nat by (unfold blen; lia).
      by rewrite lookup_app_r, Nat.add_comm, Nat.add_sub by lia. }
    cbn [mbind outcome_bind].
    unfold time_vector_lookup. cbn [list_find]. cbn [snd].
    destruct (Z.leb_spec hopcount h) as [Hh|Hh].
    + rewrite decide_True by done. apply rd_at; [unfold blen; lia|].
      replace (Z.to_nat (blen pre + 1 - 1)) with (length pre) by (unfold blen; lia).
      by apply list_lookup_middle.
    + rewrite decide_False by (simpl; lia).
      specialize (IH (pre ++ [v; h]) fuel ltac:(simpl in Hf; lia)).
      rewrite <- app_assoc in IH. simpl in IH.
      replace (blen (pre ++ [v; h]) + 1) with (blen pre + 1 + 2) in IH
        by (unfold blen; rewrite length_app; simpl; lia).
      rewrite IH. unfold time_vector_lookup. by destruct (list_find _ pairs) as [[? ?]|].
Qed.

(** looking up a hop count in a well-formed time vector returns the value
    of the first entry that covers it, else the last value; a vector of even
    length is answered with 255 (infinite).  Nothing outside the vector is
    read in either case. *)
Theorem timetlv_vector_lookup pairs last hopcount :
  rfc5497_timetlv_get_from_vector (time_vector pairs last) hopcount
    = Def (time_vector_lookup pairs last hopcount) /\
  (forall vector, Nat.even (length vector) = true ->
    rfc5497_timetlv_get_from_vector vector hopcount = Def 255).
Proof.
  assert (forall l : bytes, Z.land (blen l) 1 = if Nat.even (length l) then 0 else 1) as Hpar.
  { intros l. unfold blen. change 1 with (2 ^ 1 - 1) at 1. rewrite land_mask by lia.
    change (2 ^ 1) with 2. destruct (Nat.even (length l)) eqn:E.
    - apply Nat.even_spec in E as [k ->]. Z.to_euclidean_division_equations. lia.
    - assert (Nat.odd (length l) = true) as [k ->]%Nat.odd_spec by (unfold Nat.odd; by rewrite E).
      Z.to_euclidean_division_equations. lia. }
  split.
  - unfold rfc5497_timetlv_get_from_vector. rewrite Hpar.
    assert (length (time_vector pairs last) = 2 * length pairs + 1)%nat as Hlen.
    { unfold time_vector. rewrite length_app. simpl.
      induction pairs as [|? pairs IH]; simpl in *; lia. }
    replace (Nat.even (length (time_vector pairs last))) with false
      by (rewrite Hlen, Nat.even_add, Nat.even_mul; done).
    apply (timetlv_scan_spec []). lia.
  - intros vector Hv. unfold rfc5497_timetlv_get_from_vector. by rewrite Hpar, Hv.
Qed.
