(* ===== verification/Netaddr.v ===== *)
(** Network addresses and prefixes: the binary part of
    src/libcommon/netaddr.c and of its header. *)

From Stdlib Require Import ZArith Lia.
From stdpp Require Import base list numbers option countable.
From S2P Require Import Prelude AvlSpec.

Local Open Scope Z_scope.
Local Open Scope cint_scope.

(** Address families.  The first three are the Linux values; OONF numbers its
    own families behind the system's [AF_MAX]. *)
Definition AF_UNSPEC : Z := 0.
Definition AF_INET : Z := 2.
Definition AF_INET6 : Z := 10.
Definition AF_MAX : Z := 46.
Definition AF_MAC48 : Z := AF_MAX + 1.
Definition AF_EUI64 : Z := AF_MAX + 2.
Definition AF_UUID : Z := AF_MAX + 3.

Definition NETADDR_MAX_LENGTH : Z := 16.

(** [struct netaddr] *)
Record netaddr := { na_addr : bytes; na_type : Z; na_prefix_len : Z }.

#[export] Instance netaddr_eq_dec : EqDecision netaddr.
Proof. solve_decision. Defined.

#[export] Instance netaddr_countable : Countable netaddr :=
  inj_countable' (fun a => (na_addr a, na_type a, na_prefix_len a))
    (fun t => {| na_addr := t.1.1; na_type := t.1.2; na_prefix_len := t.2 |}) ltac:(by intros []).

Definition netaddr_wf (a : netaddr) : Prop :=
  length (na_addr a) = 16%nat /\ octets (na_addr a) /\ is_u8 (na_type a) /\ is_u8 (na_prefix_len a).

#[export] Instance netaddr_wf_dec a : Decision (netaddr_wf a).
Proof. unfold netaddr_wf, octets. apply _. Defined.

Definition zeros (n : nat) : bytes := replicate n 0.

Definition NETADDR_UNSPEC : netaddr :=
  {| na_addr := zeros 16; na_type := AF_UNSPEC; na_prefix_len := 0 |}.

(** ** Definitions *)

Definition netaddr_get_af_maxprefix (af_type : Z) : Z :=
  if af_type =? AF_INET then 32
  else if af_type =? AF_INET6 then 128
  else if af_type =? AF_MAC48 then 48
  else if af_type =? AF_EUI64 then 64
  else 0.

Definition netaddr_get_maxprefix (addr : netaddr) : Z := netaddr_get_af_maxprefix (na_type addr).

Definition netaddr_is_unspec (addr : netaddr) : bool := na_type addr =? AF_UNSPEC.

Definition netaddr_is_host (addr : netaddr) : bool :=
  netaddr_get_maxprefix addr =? na_prefix_len addr.

(** [binary] is read from offset [p] of a buffer. *)
Definition netaddr_from_binary_prefix (buf : bytes) (p len addr_type prefix_len : Z)
    : outcome (netaddr * Z) :=
  let '(type, len) :=
    if negb (addr_type =? 0) then (addr_type, len)
    else if len =? 4 then (AF_INET, len)
    else if len =? 6 then (AF_MAC48, len)
    else if len =? 8 then (AF_EUI64, len)
    else if len =? 16 then (AF_INET6, len)
    else (AF_UNSPEC, if 16 <? len then 16 else len) in
  let prefix_len := if prefix_len =? 255 then u8 (len .<< 3) else prefix_len in
  src ← rd_n buf p len;
  addr ← wr_n (zeros 16) 0 src;
  Def ({| na_addr := addr; na_type := type; na_prefix_len := prefix_len |},
       if type =? AF_UNSPEC then -1 else 0).

Definition netaddr_from_binary (buf : bytes) (p len addr_type : Z) : outcome (netaddr * Z) :=
  netaddr_from_binary_prefix buf p len addr_type 255.

(** [None] is the result -1, otherwise the octets written to the buffer. *)
Definition netaddr_to_binary (src : netaddr) (len : Z) : option bytes :=
  let addr_len := netaddr_get_maxprefix src .>> 3 in
  if (addr_len =? 0) || (len <? addr_len) then None
  else Some (take (Z.to_nat addr_len) (na_addr src)).

(** The octets at the given index: [a[i] = x] and [a[i]]. *)
Definition aset (a : bytes) (i x : Z) : bytes := <[Z.to_nat i := x]> a.
Definition aget (a : bytes) (i : Z) : Z := a !!! Z.to_nat i.

Definition netaddr_create_host_bin (netmask : netaddr) (number : bytes) : outcome (netaddr * Z) :=
  let num_length := blen number in
  let maxp := netaddr_get_maxprefix netmask in
  let host addr := {| na_addr := addr; na_type := na_type netmask; na_prefix_len := maxp |} in
  let plen := na_prefix_len netmask in
  if maxp =? 0 then Def (host (na_addr netmask), -1)
  else if (maxp =? plen) || (num_length =? 0) then Def (host (na_addr netmask), 0)
  else
    let host_part_length := u8 (Z.quot (maxp - plen + 7) 8) in
    let '(addr, host_index, number_index) :=
      if num_length <? host_part_length then (na_addr netmask, maxp / 8 - num_length, 0)
      else
        let host_index := plen / 8 in
        let number_index := num_length - host_part_length in
        if negb (plen .& 7 =? 0) then
          let mask := 255 .>> (plen .& 7) in
          let addr := aset (na_addr netmask) host_index
                        (aget (na_addr netmask) host_index .& Z.lnot mask) in
          let addr := aset addr host_index
                        (aget addr host_index .| (aget number number_index .& mask)) in
          (addr, host_index + 1, number_index + 1)
        else (na_addr netmask, host_index, number_index) in
    src ← rd_n number number_index (num_length - number_index);
    addr ← wr_n addr host_index src;
    Def (host addr, 0).

Definition netaddr_create_host (netmask host_number : netaddr) : outcome (netaddr * Z) :=
  netaddr_create_host_bin netmask
    (take (Z.to_nat (netaddr_get_maxprefix host_number / 8)) (na_addr host_number)).

(** The loop of [netaddr_create_prefix]; the [255] case advances [len] on its
    own, before the loop does. *)
Fixpoint create_prefix_loop (fuel : nat) (prefix host netmask : bytes) (truncate : bool)
    (prefix_len len maxlen : Z) : bytes * Z * Z :=
  match fuel with
  | O => (prefix, prefix_len, 0)
  | S fuel =>
      if maxlen <=? len then (prefix, prefix_len, 0)
      else
        let prefix := if truncate then aset prefix len (aget host len .& aget netmask len)
                      else prefix in
        let m := aget netmask len in
        let stop n := (prefix, u8 (prefix_len + n), 0) in
        if m =? 255 then
          create_prefix_loop fuel prefix host netmask truncate (u8 (prefix_len + 8)) (len + 1 + 1) maxlen
        else if m =? 254 then stop 7
        else if m =? 252 then stop 6
        else if m =? 248 then stop 5
        else if m =? 240 then stop 4
        else if m =? 224 then stop 3
        else if m =? 192 then stop 2
        else if m =? 128 then stop 1
        else if m =? 0 then stop 0
        else (prefix, prefix_len, -1)
  end.

(** [prefix0] is the previous content of the target's address. *)
Definition netaddr_create_prefix (prefix0 : bytes) (host netmask : netaddr) (truncate : bool)
    : option netaddr * Z :=
  if negb (na_type host =? na_type netmask) || (na_type host =? AF_UNSPEC) then (None, -1)
  else
    let maxlen := netaddr_get_af_maxprefix (na_type host) / 8 in
    let start := if truncate then prefix0 else na_addr host in
    let '(addr, plen, r) :=
      create_prefix_loop 17 start (na_addr host) (na_addr netmask) truncate 0 0 maxlen in
    (Some {| na_addr := addr; na_type := na_type host; na_prefix_len := plen |}, r).

Definition TRUNCATE_MASK : bytes := [0; 0x80; 0xc0; 0xe0; 0xf0; 0xf8; 0xfc; 0xfe].

(** [dst] and [src] are different objects; the caller may also pass the same
    one, [netaddr_truncate_inplace]. *)
Definition truncate_tail (dst src : bytes) (byte_prefix bit_prefix : Z) : outcome bytes :=
  '(dst, byte_prefix) ←
    (if negb (bit_prefix =? 0) then
       if byte_prefix <? 16 then
         Def (aset dst byte_prefix (aget src byte_prefix .& aget TRUNCATE_MASK bit_prefix), byte_prefix + 1)
       else Undef UB_write
     else Def (dst, byte_prefix));
  if byte_prefix <? 16 then wr_n dst byte_prefix (zeros (Z.to_nat (16 - byte_prefix)))
  else Def dst.

Definition netaddr_truncate (dst src : netaddr) : outcome netaddr :=
  let byte_prefix := na_prefix_len src / 8 in
  let bit_prefix := na_prefix_len src .& 7 in
  head ← rd_n (na_addr src) 0 byte_prefix;
  addr ← wr_n (na_addr dst) 0 head;
  addr ← truncate_tail addr (na_addr src) byte_prefix bit_prefix;
  Def {| na_addr := addr; na_type := na_type src; na_prefix_len := na_prefix_len src |}.

Definition netaddr_truncate_inplace (a : netaddr) : outcome netaddr :=
  let byte_prefix := na_prefix_len a / 8 in
  let bit_prefix := na_prefix_len a .& 7 in
  addr ← truncate_tail (na_addr a) (na_addr a) byte_prefix bit_prefix;
  Def {| na_addr := addr; na_type := na_type a; na_prefix_len := na_prefix_len a |}.

(** [memcmp]: the sign of the first difference.  The code always compares
    objects of one size; a shorter list is ordered first. *)
Fixpoint memcmp (a b : bytes) : Z :=
  match a, b with
  | x :: a, y :: b => if x <? y then -1 else if y <? x then 1 else memcmp a b
  | [], [] => 0
  | [], _ => -1
  | _, [] => 1
  end.

(** The comparison covers the 18 octets of the structure in their order. *)
Definition netaddr_octets (a : netaddr) : bytes := na_addr a ++ [na_type a; na_prefix_len a].
Definition netaddr_cmp (a1 a2 : netaddr) : Z := memcmp (netaddr_octets a1) (netaddr_octets a2).
Definition avl_comp_netaddr := netaddr_cmp.

Definition _binary_is_in_subnet (subnet : netaddr) (bin : bytes) : outcome bool :=
  let byte_length := na_prefix_len subnet / 8 in
  let bit_length := na_prefix_len subnet mod 8 in
  a ← rd_n (na_addr subnet) 0 byte_length;
  b ← rd_n bin 0 byte_length;
  if negb (memcmp a b =? 0) then Def false
  else if negb (bit_length =? 0) then
    x ← rd (na_addr subnet) byte_length;
    y ← rd bin byte_length;
    Def (x .>> (8 - bit_length) =? y .>> (8 - bit_length))
  else Def true.

Definition netaddr_is_in_subnet (subnet addr : netaddr) : outcome bool :=
  if negb (na_type subnet =? na_type addr) then Def false
  else _binary_is_in_subnet subnet (na_addr addr).

Definition netaddr_binary_is_in_subnet (subnet : netaddr) (bin : bytes) (len af_family : Z) : outcome bool :=
  if negb (na_type subnet =? af_family) || negb (netaddr_get_maxprefix subnet =? len * 8)
  then Def false
  else _binary_is_in_subnet subnet bin.

Definition netaddr_isequal_binary (addr : netaddr) (bin : bytes) (len af prefix_len : Z) : outcome bool :=
  if negb (na_type addr =? af) || negb (na_prefix_len addr =? prefix_len) then Def false
  else
    let addr_len := netaddr_get_maxprefix addr .>> 3 in
    if negb (addr_len =? len) then Def false
    else
      a ← rd_n (na_addr addr) 0 addr_len;
      b ← rd_n bin 0 addr_len;
      Def (memcmp a b =? 0).

Definition netaddr_is_mac48_multicast (addr : netaddr) : bool :=
  (na_type addr =? AF_MAC48) && (aget (na_addr addr) 0 .& 1 =? 1).

Definition netaddr_embed_ipv4_compatible (src : netaddr) : netaddr :=
  {| na_addr := zeros 12 ++ take 4 (na_addr src); na_type := AF_INET6;
     na_prefix_len := u8 (na_prefix_len src + 96) |}.

Definition netaddr_extract_ipv4_compatible (src : netaddr) : netaddr :=
  {| na_addr := take 4 (drop 12 (na_addr src)) ++ zeros 12; na_type := AF_INET;
     na_prefix_len := u8 (na_prefix_len src - 96) |}.

Definition netaddr_get_stateless_ipv6 (template mac : netaddr) : netaddr :=
  let m i := aget (na_addr mac) i in
  {| na_addr := take 8 (na_addr template) ++
       [Z.lxor (m 0) 0x02; m 1; m 2; 0xff; 0xfe; m 3; m 4; m 5];
     na_type := AF_INET6; na_prefix_len := 128 |}.

(** ** Octets, bits and comparison *)

(** Bit [i] of an address, counted from the most significant one. *)
Definition abit (a : bytes) (i : Z) : bool := Z.testbit (aget a (i / 8)) (7 - i mod 8).

Lemma abit_split a q r : 0 <= r < 8 -> abit a (8 * q + r) = Z.testbit (aget a q) (7 - r).
Proof.
  intros. unfold abit. replace ((8 * q + r) / 8) with q by (Z.to_euclidean_division_equations; lia).
  by replace ((8 * q + r) mod 8) with r by (Z.to_euclidean_division_equations; lia).
Qed.

Lemma aget_lookup a i x : 0 <= i -> a !! Z.to_nat i = Some x -> aget a i = x.
Proof. intros _ H. unfold aget. by apply list_lookup_total_correct. Qed.

Lemma aget_inside a i : 0 <= i < blen a -> a !! Z.to_nat i = Some (aget a i).
Proof.
  unfold blen. intros H. destruct (lookup_lt_is_Some_2 a (Z.to_nat i)) as [x Hx]; [lia|].
  by rewrite Hx, (aget_lookup a i x) by (done || lia).
Qed.

Lemma aget_octet a i : octets a -> 0 <= i < blen a -> is_u8 (aget a i).
Proof. intros Ha Hi. eapply Forall_lookup_1; [exact Ha|by apply aget_inside]. Qed.

Lemma aget_app_l a b i : 0 <= i < blen a -> aget (a ++ b) i = aget a i.
Proof.
  intros Hi. apply aget_lookup; [lia|]. rewrite lookup_app_l by (unfold blen in Hi; lia).
  by apply aget_inside.
Qed.

Lemma aget_app_r a b i : blen a <= i < blen a + blen b -> aget (a ++ b) i = aget b (i - blen a).
Proof.
  intros Hi. unfold blen in *. apply aget_lookup; [lia|]. rewrite lookup_app_r by lia.
  replace (Z.to_nat i - length a)%nat with (Z.to_nat (i - Z.of_nat (length a))) by lia.
  apply aget_inside. unfold blen. lia.
Qed.

Lemma aget_take a n i : 0 <= i < n -> i < blen a -> aget (take (Z.to_nat n) a) i = aget a i.
Proof.
  intros Hi Ha. apply aget_lookup; [lia|]. rewrite lookup_take_lt by lia. apply aget_inside. lia.
Qed.

Lemma aget_drop a n i : 0 <= n -> 0 <= i -> n + i < blen a ->
  aget (drop (Z.to_nat n) a) i = aget a (n + i).
Proof.
  intros Hn Hi Ha. apply aget_lookup; [lia|]. rewrite lookup_drop.
  replace (Z.to_nat n + Z.to_nat i)%nat with (Z.to_nat (n + i)) by lia. apply aget_inside. lia.
Qed.

Lemma aget_aset a i j x : 0 <= i < blen a -> 0 <= j ->
  aget (aset a i x) j = if j =? i then x else aget a j.
Proof.
  unfold aget, aset, blen. intros Hi Hj. destruct (Z.eqb_spec j i) as [->|Hne].
  - apply list_lookup_total_insert_eq. lia.
  - apply list_lookup_total_insert_ne. lia.
Qed.

Lemma blen_aset a i x : blen (aset a i x) = blen a.
Proof. unfold blen, aset. by rewrite length_insert. Qed.

Lemma octets_aset a i x : octets a -> is_u8 x -> octets (aset a i x).
Proof. intros. by apply Forall_insert. Qed.

Lemma octets_ext a b : length a = length b ->
  (forall i, 0 <= i < blen a -> aget a i = aget b i) -> a = b.
Proof.
  intros Hlen H. apply list_eq_same_length with (length a); [done|done|].
  intros i x y Hi Hx Hy. specialize (H (Z.of_nat i)). unfold blen in H.
  rewrite (aget_lookup a _ x), (aget_lookup b _ y) in H by (rewrite ?Nat2Z.id; done || lia).
  apply H. lia.
Qed.

Lemma memcmp_refl a : memcmp a a = 0.
Proof. induction a as [|x a IH]; simpl; [done|]. by rewrite Z.ltb_irrefl. Qed.

Lemma memcmp_eq a b : memcmp a b = 0 <-> a = b.
Proof.
  split; [|intros ->; apply memcmp_refl].
  revert b. induction a as [|x a IH]; intros [|y b]; simpl in *; try done.
  destruct (Z.ltb_spec x y); [done|]. destruct (Z.ltb_spec y x); [done|].
  intros. f_equal; [lia|by apply IH].
Qed.

Lemma memcmp_flip a b : memcmp b a = - memcmp a b.
Proof.
  revert b. induction a as [|x a IH]; intros [|y b]; simpl in *; try done.
  destruct (Z.ltb_spec x y), (Z.ltb_spec y x); try lia. apply IH.
Qed.

Lemma memcmp_trans a b c : memcmp a b <= 0 -> memcmp b c <= 0 -> memcmp a c <= 0.
Proof.
  revert b c. induction a as [|x a IH]; intros [|y b] [|z c]; simpl in *; try lia.
  destruct (Z.ltb_spec x y), (Z.ltb_spec y x), (Z.ltb_spec y z), (Z.ltb_spec z y),
    (Z.ltb_spec x z), (Z.ltb_spec z x); try lia. apply IH.
Qed.

#[export] Instance netaddr_cmp_comparator : Comparator netaddr_cmp.
Proof.
  unfold netaddr_cmp. split.
  - intros. apply memcmp_refl.
  - intros x y. rewrite (memcmp_flip (netaddr_octets y)). lia.
  - intros x y z. apply memcmp_trans.
Qed.

Lemma take_eq_aget a b n : 0 <= n <= blen a -> n <= blen b ->
  take (Z.to_nat n) a = take (Z.to_nat n) b <-> (forall i, 0 <= i < n -> aget a i = aget b i).
Proof.
  intros Ha Hb. split.
  - intros E i Hi. rewrite <- (aget_take a n), <- (aget_take b n) by lia. by rewrite E.
  - intros H. apply octets_ext; unfold blen in *; rewrite ?length_take; [lia|].
    intros i Hi. rewrite !aget_take by (unfold blen; lia). apply H. lia.
Qed.

(** Two addresses share their first [8 * q + r] bits iff they share [q] octets
    and the leading [r] bits of the next one. *)
Lemma prefix_bits_split a b q r : octets a -> octets b ->
  0 <= q -> 0 <= r < 8 -> 8 * q + r <= 8 * blen a -> 8 * q + r <= 8 * blen b ->
  (forall i, 0 <= i < 8 * q + r -> abit a i = abit b i) <->
  (forall i, 0 <= i < q -> aget a i = aget b i) /\
  (r = 0 \/ aget a q .>> (8 - r) = aget b q .>> (8 - r)).
Proof.
  intros Ha Hb Hq Hr La Lb. split.
  - intros H. split.
    + intros i Hi. apply octet_bits_eq; [apply aget_octet; [done|lia]..|].
      intros k Hk. specialize (H (8 * i + (7 - k)) ltac:(lia)).
      rewrite !abit_split in H by lia. by replace (7 - (7 - k)) with k in H by lia.
    + destruct (Z.eq_dec r 0) as [|Hr0]; [by left|right].
      apply octet_shiftr_eq; [apply aget_octet; [done|lia]..|lia|].
      intros j Hj. rewrite <- !abit_split by lia. apply H. lia.
  - intros [H1 H2] i Hi.
    replace i with (8 * (i / 8) + i mod 8) by (Z.to_euclidean_division_equations; lia).
    rewrite !abit_split by (Z.to_euclidean_division_equations; lia).
    destruct (Z.lt_ge_cases (i / 8) q) as [Hlt|Hge].
    { rewrite H1; [done|]. Z.to_euclidean_division_equations; lia. }
    assert (i / 8 = q /\ i mod 8 < r) as [-> Hm] by (Z.to_euclidean_division_equations; lia).
    pose proof (Z.mod_pos_bound i 8 ltac:(lia)).
    destruct H2 as [|H2]; [lia|].
    rewrite octet_shiftr_eq in H2; [|apply aget_octet; [done|lia]..|lia].
    apply H2. lia.
Qed.

Lemma rd_n_prefix a n : 0 <= n <= blen a -> rd_n a 0 n = Def (take (Z.to_nat n) a).
Proof.
  intros Hn. unfold rd_n. destruct (Z.leb_spec n 0); [by replace n with 0 by lia|].
  rewrite Z.ltb_irrefl, Z.add_0_l. cbn [orb].
  by destruct (Z.ltb_spec (blen a) n); [lia|].
Qed.

Lemma rd_aget a i : 0 <= i < blen a -> rd a i = Def (aget a i).
Proof. intros. apply rd_at; [lia|]. by apply aget_inside. Qed.

Lemma binary_is_in_subnet_spec subnet bin :
  netaddr_wf subnet -> octets bin -> length bin = 16%nat -> na_prefix_len subnet <= 128 ->
  exists b, _binary_is_in_subnet subnet bin = Def b /\
    (b = true <-> forall i, 0 <= i < na_prefix_len subnet -> abit (na_addr subnet) i = abit bin i).
Proof.
  intros (La & Oa & _ & Hp) Ob Lb Hmax. unfold is_u8 in Hp. unfold _binary_is_in_subnet.
  set (p := na_prefix_len subnet) in *. set (a := na_addr subnet) in *.
  assert (blen a = 16 /\ blen bin = 16) as [Ba Bb] by (unfold blen; lia).
  pose proof (Z.div_mod p 8 ltac:(lia)). pose proof (Z.mod_pos_bound p 8 ltac:(lia)).
  pose proof (prefix_bits_split a bin (p / 8) (p mod 8) Oa Ob ltac:(lia) ltac:(lia) ltac:(lia) ltac:(lia)) as HS.
  replace (8 * (p / 8) + p mod 8) with p in HS by lia. setoid_rewrite HS. clear HS.
  pose proof (take_eq_aget a bin (p / 8) ltac:(lia) ltac:(lia)) as HT.
  setoid_rewrite <- HT. clear HT.
  rewrite !rd_n_prefix by lia. simpl.
  destruct (Z.eqb_spec (memcmp (take (Z.to_nat (p / 8)) a) (take (Z.to_nat (p / 8)) bin)) 0) as [E|E];
    rewrite memcmp_eq in E; simpl; [|exists false; split; [done|]; split; [done|tauto]].
  destruct (Z.eqb_spec (p mod 8) 0); simpl; [exists true; split; [done|]; split; [by intros; auto|done]|].
  rewrite !rd_aget by lia. simpl. eexists. split; [done|]. rewrite Z.eqb_eq. tauto.
Qed.

Lemma octets_take a n : octets a -> octets (take n a).
Proof. apply Forall_take. Qed.
Lemma octets_drop a n : octets a -> octets (drop n a).
Proof. apply Forall_drop. Qed.
Lemma octets_app a b : octets a -> octets b -> octets (a ++ b).
Proof. intros. by apply Forall_app. Qed.
Lemma octets_zeros n : octets (zeros n).
Proof. apply Forall_replicate. unfold is_u8. lia. Qed.
Lemma blen_zeros n : blen (zeros n) = Z.of_nat n.
Proof. unfold blen, zeros. by rewrite length_replicate. Qed.
Lemma aget_zeros n i : 0 <= i < Z.of_nat n -> aget (zeros n) i = 0.
Proof. intros. apply aget_lookup; [lia|]. apply lookup_replicate_2. lia. Qed.

#[export] Hint Resolve octets_take octets_drop octets_app octets_zeros octets_aset : cint.

(** Reading back what [wr_n] wrote. *)
Lemma wr_n_spec a p src : 0 <= p -> p + blen src <= blen a -> octets a -> octets src ->
  exists a', wr_n a p src = Def a' /\ blen a' = blen a /\ octets a' /\
    forall i, 0 <= i < blen a ->
      aget a' i = if (p <=? i) && (i <? p + blen src) then aget src (i - p) else aget a i.
Proof.
  intros Hp Hfit Oa Os. unfold wr_n.
  pose proof (Zle_0_nat (length src)). fold (blen src) in *.
  destruct (Z.eqb_spec (blen src) 0) as [E|E].
  { exists a. repeat split; [done..|]. intros i Hi.
    destruct (Z.leb_spec p i), (Z.ltb_spec i (p + blen src)); simpl; (done || lia). }
  destruct (Z.ltb_spec p 0); [lia|]. destruct (Z.ltb_spec (blen a) (p + blen src)); [lia|]. simpl.
  eexists. split; [done|].
  assert (blen (take (Z.to_nat p) a) = p) as Bt by (unfold blen in *; rewrite length_take; lia).
  assert (blen (drop (Z.to_nat (p + blen src)) a) = blen a - (p + blen src)) as Bd
    by (unfold blen in *; rewrite length_drop; lia).
  assert (forall x y : bytes, blen (x ++ y) = blen x + blen y) as Bapp
    by (intros; unfold blen; rewrite length_app; lia).
  split; [rewrite !Bapp; lia|]. split; [auto with cint|].
  intros i Hi. destruct (Z.leb_spec p i) as [Hpi|Hpi]; cycle 1.
  { simpl. rewrite aget_app_l by lia. apply aget_take; lia. }
  rewrite aget_app_r by (rewrite Bapp; lia). rewrite Bt.
  destruct (Z.ltb_spec i (p + blen src)); simpl; [by rewrite aget_app_l by lia|].
  rewrite aget_app_r by lia. rewrite aget_drop by lia. f_equal. lia.
Qed.

Lemma land7 p : p .& 7 = p mod 8.
Proof. change 7 with (2 ^ 3 - 1). by rewrite land_mask by lia. Qed.

Lemma truncate_mask_octet x r : is_u8 x -> 0 <= r < 8 ->
  is_u8 (x .& aget TRUNCATE_MASK r) /\
  forall j, 0 <= j < 8 -> Z.testbit (x .& aget TRUNCATE_MASK r) (7 - j) =
    if j <? r then Z.testbit x (7 - j) else false.
Proof.
  intros Hx Hr.
  assert (forall k, 0 <= k < 8 -> Z.testbit (aget TRUNCATE_MASK r) k = (8 - r <=? k)) as Hm.
  { intros k Hk.
    assert (r = 0 \/ r = 1 \/ r = 2 \/ r = 3 \/ r = 4 \/ r = 5 \/ r = 6 \/ r = 7) as Hr8 by lia.
    assert (k = 0 \/ k = 1 \/ k = 2 \/ k = 3 \/ k = 4 \/ k = 5 \/ k = 6 \/ k = 7) as Hk8 by lia.
    destruct_or!; subst; reflexivity. }
  split; [by apply octet_land|].
  intros j Hj. rewrite Z.land_spec, Hm by lia.
  destruct (Z.leb_spec (8 - r) (7 - j)), (Z.ltb_spec j r); rewrite ?andb_true_r, ?andb_false_r; (done || lia).
Qed.

Lemma truncate_tail_spec dst src p :
  length dst = 16%nat -> length src = 16%nat -> octets dst -> octets src -> 0 <= p <= 128 ->
  (forall i, 0 <= i < p / 8 -> aget dst i = aget src i) ->
  exists d, truncate_tail dst src (p / 8) (p .& 7) = Def d /\ length d = 16%nat /\ octets d /\
    forall i, 0 <= i < 128 -> abit d i = if i <? p then abit src i else false.
Proof.
  intros Ld Ls Od Os Hp Heq. unfold truncate_tail. rewrite land7.
  assert (blen dst = 16 /\ blen src = 16) as [Bd Bs] by (unfold blen; lia).
  pose proof (Z.div_mod p 8 ltac:(lia)). pose proof (Z.mod_pos_bound p 8 ltac:(lia)).
  set (q := p / 8) in *. set (r := p mod 8) in *.
  assert (exists d1 q1, (if negb (r =? 0) then
      if q <? 16 then Def (aset dst q (aget src q .& aget TRUNCATE_MASK r), q + 1) else Undef UB_write
      else Def (dst, q)) = Def (d1, q1) /\ blen d1 = 16 /\ octets d1 /\ q <= q1 <= 16 /\
      (forall i, 0 <= i < 8 * q1 -> abit d1 i = if i <? p then abit src i else false) /\ p <= 8 * q1)
    as (d1 & q1 & -> & B1 & O1 & Hq1 & Hbits & Hpq).
  { destruct (Z.eqb_spec r 0) as [E|E]; simpl.
    - exists dst, q. repeat split; try done; try lia. intros i Hi.
      destruct (Z.ltb_spec i p); [|lia]. unfold abit. rewrite Heq; [done|].
      Z.to_euclidean_division_equations; lia.
    - destruct (Z.ltb_spec q 16); [|lia].
      destruct (truncate_mask_octet (aget src q) r) as [Hu Hb]; [apply aget_octet; [done|lia]|lia|].
      eexists _, _. split; [done|]. rewrite blen_aset. repeat split; try done; try lia.
      + by apply octets_aset.
      + intros i Hi. replace i with (8 * (i / 8) + i mod 8) at 1 3 by (Z.to_euclidean_division_equations; lia).
        pose proof (Z.mod_pos_bound i 8 ltac:(lia)). pose proof (Z.div_mod i 8 ltac:(lia)).
        rewrite !abit_split, aget_aset by lia.
        destruct (Z.eqb_spec (i / 8) q) as [E2|E2].
        * rewrite Hb by lia. rewrite E2. destruct (Z.ltb_spec (i mod 8) r), (Z.ltb_spec i p); (done || lia).
        * rewrite Heq by lia. destruct (Z.ltb_spec i p); [done|lia]. }
  simpl. destruct (Z.ltb_spec q1 16).
  - destruct (wr_n_spec d1 q1 (zeros (Z.to_nat (16 - q1)))) as (d & E & B & O & Hd);
      [lia|rewrite blen_zeros; lia|done|apply octets_zeros|].
    exists d. split; [done|]. split; [unfold blen in *; lia|]. split; [done|].
    intros i Hi. unfold abit. rewrite Hd by (Z.to_euclidean_division_equations; lia).
    rewrite blen_zeros. pose proof (Z.div_mod i 8 ltac:(lia)). pose proof (Z.mod_pos_bound i 8 ltac:(lia)).
    destruct (Z.leb_spec q1 (i / 8)); simpl.
    + destruct (Z.ltb_spec (i / 8) (q1 + Z.of_nat (Z.to_nat (16 - q1)))); [|lia].
      rewrite aget_zeros by lia. rewrite Z.testbit_0_l. destruct (Z.ltb_spec i p); [lia|done].
    + apply Hbits. lia.
  - exists d1. split; [done|]. split; [unfold blen in *; lia|]. split; [done|].
    intros i Hi. apply Hbits. lia.
Qed.

(** ** Properties *)

(** a netaddr is inside a prefix exactly when the families agree and the
    leading [prefix_len] bits agree (whole octets and the odd bits); no octet
    outside the two addresses is read. *)
Theorem is_in_subnet_bits subnet addr :
  netaddr_wf subnet -> netaddr_wf addr -> na_prefix_len subnet <= 128 ->
  exists b, netaddr_is_in_subnet subnet addr = Def b /\
    (b = true <-> na_type subnet = na_type addr /\
      forall i, 0 <= i < na_prefix_len subnet -> abit (na_addr subnet) i = abit (na_addr addr) i).
Proof.
  intros Hs Ha Hp. unfold netaddr_is_in_subnet.
  destruct (Z.eqb_spec (na_type subnet) (na_type addr)) as [E|E]; simpl.
  - destruct Ha as (La & Oa & _).
    destruct (binary_is_in_subnet_spec subnet (na_addr addr)) as (b & Eb & Hb); [done..|].
    exists b. split; [done|]. rewrite Hb. tauto.
  - exists false. split; [done|]. split; [done|tauto].
Qed.

Definition addr4 (a b c d plen : Z) : netaddr :=
  {| na_addr := [a; b; c; d] ++ zeros 12; na_type := AF_INET; na_prefix_len := plen |}.

Ltac wf_ground := split; [reflexivity|split; [repeat constructor; unfold is_u8; lia|
  unfold is_u8; simpl; unfold AF_INET; lia]].

Lemma is_in_subnet_bits_witness :
  exists b, netaddr_is_in_subnet (addr4 10 1 16 0 20) (addr4 10 1 31 7 32) = Def b /\
    (b = true <-> na_type (addr4 10 1 16 0 20) = na_type (addr4 10 1 31 7 32) /\
      forall i, 0 <= i < 20 -> abit (na_addr (addr4 10 1 16 0 20)) i = abit (na_addr (addr4 10 1 31 7 32)) i).
Proof. apply (is_in_subnet_bits (addr4 10 1 16 0 20)); [wf_ground|wf_ground|simpl; lia]. Defined.

(** truncating a prefix keeps its type, its length and its leading
    [prefix_len] bits and clears every later bit, whether the target is a
    different object (whatever it contained) or the source itself. *)
Theorem truncate_bits dst src :
  netaddr_wf src -> netaddr_wf dst -> na_prefix_len src <= 128 ->
  exists a, netaddr_truncate dst src = Def a /\ netaddr_truncate_inplace src = Def a /\
    netaddr_wf a /\ na_type a = na_type src /\ na_prefix_len a = na_prefix_len src /\
    forall i, 0 <= i < 128 ->
      abit (na_addr a) i = if i <? na_prefix_len src then abit (na_addr src) i else false.
Proof.
  intros (Ls & Os & Ht & Hp) (Ld & Od & _) Hmax. unfold is_u8 in Hp.
  unfold netaddr_truncate, netaddr_truncate_inplace. set (p := na_prefix_len src) in *.
  assert (blen (na_addr src) = 16 /\ blen (na_addr dst) = 16) as [Bs Bd] by (unfold blen; lia).
  pose proof (Z.div_mod p 8 ltac:(lia)). pose proof (Z.mod_pos_bound p 8 ltac:(lia)).
  rewrite rd_n_prefix by lia. simpl.
  assert (blen (take (Z.to_nat (p / 8)) (na_addr src)) = p / 8) as Bt
    by (unfold blen in *; rewrite length_take; lia).
  destruct (wr_n_spec (na_addr dst) 0 (take (Z.to_nat (p / 8)) (na_addr src))) as (d0 & E0 & B0 & O0 & Hd0);
    [lia|lia|done|auto with cint|]. rewrite E0. simpl.
  destruct (truncate_tail_spec d0 (na_addr src) p) as (d & E & L & O & Hb); [unfold blen in *; lia|done..|lia| |].
  { intros i Hi. rewrite Hd0 by lia. rewrite Bt.
    destruct (Z.leb_spec 0 i), (Z.ltb_spec i (0 + p / 8)); try lia. simpl.
    rewrite aget_take by lia. f_equal. lia. }
  destruct (truncate_tail_spec (na_addr src) (na_addr src) p) as (d' & E' & L' & O' & Hb');
    [done..|lia|done|].
  rewrite E, E'. simpl. assert (d' = d) as ->.
  { apply octets_ext; [lia|]. intros i Hi. assert (blen d' = 16 /\ blen d = 16) as [] by (unfold blen; lia).
    apply octet_bits_eq; [apply aget_octet; [done|lia]..|]. intros k Hk.
    replace k with (7 - (7 - k)) by lia. rewrite <- !abit_split by lia.
    rewrite Hb, Hb' by lia. done. }
  eexists. split; [done|]. split; [done|]. simpl. repeat split; try done; unfold is_u8 in *; simpl; lia.
Qed.

Lemma truncate_bits_witness :
  exists a, netaddr_truncate NETADDR_UNSPEC (addr4 10 1 31 7 20) = Def a /\
    netaddr_truncate_inplace (addr4 10 1 31 7 20) = Def a /\
    netaddr_wf a /\ na_type a = AF_INET /\ na_prefix_len a = 20 /\
    forall i, 0 <= i < 128 ->
      abit (na_addr a) i = if i <? 20 then abit (na_addr (addr4 10 1 31 7 20)) i else false.
Proof.
  apply (truncate_bits NETADDR_UNSPEC (addr4 10 1 31 7 20)); [wf_ground| |simpl; lia].
  split; [reflexivity|split; [apply octets_zeros|unfold is_u8; simpl; unfold AF_UNSPEC; lia]].
Defined.

Lemma maxprefix_cases t : netaddr_get_af_maxprefix t = 0 \/
  (exists M, netaddr_get_af_maxprefix t = 8 * M /\ (M = 4 \/ M = 6 \/ M = 8 \/ M = 16)).
Proof.
  unfold netaddr_get_af_maxprefix.
  repeat case_match; first [left; reflexivity|right; first
    [exists 4; lia|exists 6; lia|exists 8; lia|exists 16; lia]].
Qed.

(** The octet that holds both network and host bits. *)
Lemma mixed_octet x y r : is_u8 x -> is_u8 y -> 0 <= r < 8 ->
  is_u8 ((x .& Z.lnot (255 .>> r)) .| (y .& (255 .>> r))) /\
  forall j, 0 <= j < 8 -> Z.testbit ((x .& Z.lnot (255 .>> r)) .| (y .& (255 .>> r))) (7 - j) =
    if j <? r then Z.testbit x (7 - j) else Z.testbit y (7 - j).
Proof.
  intros Hx Hy Hr. split; [auto with cint|]. intros j Hj.
  rewrite Z.lor_spec, !Z.land_spec, Z.lnot_spec, Z.shiftr_spec by lia.
  change 255 with (2 ^ 8 - 1). rewrite testbit_ones by lia.
  destruct (Z.ltb_spec (7 - j + r) 8), (Z.ltb_spec j r); try lia; simpl;
    rewrite ?andb_true_r, ?andb_false_r, ?orb_false_r; done.
Qed.

(** Bit [i] of the host address built from [netmask] and [number]. *)
Definition host_bit (netmask : netaddr) (number : bytes) (i : Z) : bool :=
  let skip := netaddr_get_maxprefix netmask - 8 * blen number in
  if (i <? na_prefix_len netmask) || (i <? skip) then abit (na_addr netmask) i
  else abit number (i - skip).

Definition host_built (netmask : netaddr) (number : bytes) (h : netaddr) : Prop :=
  netaddr_wf h /\ na_type h = na_type netmask /\
  na_prefix_len h = netaddr_get_maxprefix netmask /\
  forall i, 0 <= i < netaddr_get_maxprefix netmask -> abit (na_addr h) i = host_bit netmask number i.

Lemma div_mod8 i : i = 8 * (i / 8) + i mod 8 /\ 0 <= i mod 8 < 8.
Proof. Z.to_euclidean_division_equations. lia. Qed.

(** The final [memcpy]: octets from [hi] on come from [number]. *)
Lemma copy_number (addr number : bytes) M hi ni :
  length addr = 16%nat -> octets addr -> octets number -> M <= 16 ->
  0 <= hi -> 0 <= ni -> hi - ni = M - blen number -> ni <= blen number ->
  exists a, (src ← rd_n number ni (blen number - ni); wr_n addr hi src) = Def a /\
    length a = 16%nat /\ octets a /\
    forall j, 0 <= j < 16 -> aget a j =
      if (hi <=? j) && (j <? M) then aget number (j - (M - blen number)) else aget addr j.
Proof.
  intros La Oa On HM Hhi Hni Hd Hn. assert (blen addr = 16) as Ba by (unfold blen; lia).
  assert (exists src, rd_n number ni (blen number - ni) = Def src /\ octets src /\ blen src = blen number - ni /\
    forall k, 0 <= k < blen number - ni -> aget src k = aget number (ni + k)) as (src & -> & Os & Bs & Hs).
  { unfold rd_n. destruct (Z.leb_spec (blen number - ni) 0).
    - exists []. split; [done|]. split; [by apply Forall_nil|].
      split; [unfold blen at 1; simpl; lia|intros; lia].
    - destruct (Z.ltb_spec ni 0); [lia|]. destruct (Z.ltb_spec (blen number) (ni + (blen number - ni))); [lia|].
      eexists. split; [done|]. split; [auto with cint|]. split.
      + unfold blen in *. rewrite length_take, length_drop. lia.
      + intros k Hk. rewrite aget_take, aget_drop; [done|lia..|unfold blen in *; rewrite length_drop; lia]. }
  simpl. destruct (wr_n_spec addr hi src) as (a & E & B & O & Ha); [lia|lia|done|done|].
  exists a. split; [done|]. split; [unfold blen in *; lia|]. split; [done|].
  intros j Hj. rewrite Ha by lia. rewrite Bs.
  replace (hi + (blen number - ni)) with M by lia.
  destruct (Z.leb_spec hi j), (Z.ltb_spec j M); simpl; try done.
  rewrite Hs by lia. f_equal. lia.
Qed.

Section create_host.
Context (netmask : netaddr) (number : bytes) (M : Z).
Context (Hwf : netaddr_wf netmask) (On : octets number).
Context (Emax : netaddr_get_maxprefix netmask = 8 * M) (HM : 0 < M <= 16).
Context (Hp : 0 <= na_prefix_len netmask <= 8 * M).

Let p := na_prefix_len netmask.
Let host addr :=
  {| na_addr := addr; na_type := na_type netmask; na_prefix_len := netaddr_get_maxprefix netmask |}.

Lemma host_bit_low i : i < p \/ i < 8 * M - 8 * blen number ->
  host_bit netmask number i = abit (na_addr netmask) i.
Proof.
  intros Hc. unfold host_bit. rewrite Emax. fold p.
  destruct (Z.ltb_spec i p), (Z.ltb_spec i (8 * M - 8 * blen number)); simpl; (done || lia).
Qed.

Lemma host_bit_high i : p <= i -> 8 * M - 8 * blen number <= i ->
  host_bit netmask number i = abit number (i - (8 * M - 8 * blen number)).
Proof.
  intros H1 H2. unfold host_bit. rewrite Emax. fold p.
  destruct (Z.ltb_spec i p), (Z.ltb_spec i (8 * M - 8 * blen number)); simpl; (done || lia).
Qed.

(** An address whose first [hi] octets are right and whose other octets are
    the last ones of [number]. *)
Lemma host_built_from a hi :
  M - blen number <= hi -> p <= 8 * hi -> length a = 16%nat -> octets a ->
  (forall j, hi <= j < M -> aget a j = aget number (j - (M - blen number))) ->
  (forall i, 0 <= i < 8 * hi -> abit a i = host_bit netmask number i) ->
  host_built netmask number (host a).
Proof.
  intros H1 H2 La Oa Hcopy Hlow. split; [|split; [done|split; [done|]]].
  { destruct Hwf as (_ & _ & Ht & _). unfold netaddr_wf, host. simpl. rewrite Emax.
    unfold is_u8 in *. repeat split; simpl; (done || lia). }
  simpl. intros i Hi. destruct (Z.lt_ge_cases i (8 * hi)) as [Hlt|Hge]; [apply Hlow; lia|].
  destruct (div_mod8 i) as [Di Mi]. rewrite host_bit_high by lia. rewrite Di at 1.
  rewrite abit_split, Hcopy by lia.
  replace (i - (8 * M - 8 * blen number)) with (8 * (i / 8 - (M - blen number)) + i mod 8) by lia.
  by rewrite abit_split by lia.
Qed.

Lemma copy_built addr hi ni :
  length addr = 16%nat -> octets addr -> 0 <= hi -> 0 <= ni <= blen number ->
  hi - ni = M - blen number -> p <= 8 * hi ->
  (forall i, 0 <= i < 8 * hi -> abit addr i = host_bit netmask number i) ->
  exists h, (src ← rd_n number ni (blen number - ni);
             a ← wr_n addr hi src; Def (host a, 0)) = Def (h, 0) /\ host_built netmask number h.
Proof.
  intros La Oa Hhi Hni Hd Hph Hlow.
  destruct (copy_number addr number M hi ni) as (a & Ec & La' & Oa' & Hc); [done..|lia|lia|lia|lia|lia|].
  apply bind_Def in Ec as (src & -> & Ew). simpl. rewrite Ew. simpl.
  eexists. split; [done|]. apply (host_built_from a hi); [lia|lia|done|done| |].
  - intros j Hj. rewrite Hc by lia.
    destruct (Z.leb_spec hi j), (Z.ltb_spec j M); simpl; (done || lia).
  - intros i Hi. destruct (Z.lt_ge_cases i 128) as [Hi'|Hi'].
    + destruct (div_mod8 i). rewrite <- Hlow by lia. unfold abit. rewrite Hc by lia.
      by destruct (Z.leb_spec hi (i / 8)); [lia|].
    + rewrite <- Hlow by lia. destruct (div_mod8 i). unfold abit, aget.
      rewrite !list_lookup_total_alt, !lookup_ge_None_2 by lia. done.
Qed.

(** The octet at the prefix boundary carries bits of both. *)
Lemma boundary_bits : M - p / 8 <= blen number -> p mod 8 <> 0 ->
  let x := aget (na_addr netmask) (p / 8) in
  let y := aget number (blen number - (M - p / 8)) in
  let addr := aset (na_addr netmask) (p / 8)
    ((x .& Z.lnot (255 .>> (p mod 8))) .| (y .& (255 .>> (p mod 8)))) in
  octets addr /\
  forall i, 0 <= i < 8 * (p / 8 + 1) -> abit addr i = host_bit netmask number i.
Proof.
  intros Hs Hr x y addr. destruct Hwf as (La & Oa & _). destruct (div_mod8 p) as [Dp Mp]. fold p in Hp.
  assert (blen (na_addr netmask) = 16) as Ba by (unfold blen; lia).
  destruct (mixed_octet x y (p mod 8)) as [Hm8 Hmb]; [apply aget_octet; (done || lia)..|lia|].
  split; [by apply octets_aset|]. intros i Hi. destruct (div_mod8 i) as [Di Mi].
  rewrite Di at 1. rewrite abit_split by lia. unfold addr. rewrite aget_aset by lia.
  destruct (Z.eqb_spec (i / 8) (p / 8)) as [Eq|Eq].
  - rewrite Hmb by lia. destruct (Z.ltb_spec (i mod 8) (p mod 8)).
    + rewrite host_bit_low by lia. unfold abit, x. by rewrite Eq.
    + rewrite host_bit_high by lia.
      replace (i - (8 * M - 8 * blen number)) with (8 * (blen number - (M - p / 8)) + i mod 8) by lia.
      by rewrite abit_split by lia.
  - rewrite host_bit_low by lia. done.
Qed.
End create_host.

Lemma aset_aset a i x y : aset (aset a i x) i y = aset a i y.
Proof. apply list_insert_insert_eq. Qed.

(** a host address built from a prefix and a host number has the family's
    full prefix length, the prefix's leading bits and, right-aligned behind
    them, the host number's low bits; a shorter number replaces only the last
    octets, a longer one is cut.  Nothing is read or written out of bounds. *)
Theorem create_host_bits netmask number :
  netaddr_wf netmask -> octets number ->
  na_prefix_len netmask <= netaddr_get_maxprefix netmask -> netaddr_get_maxprefix netmask <> 0 ->
  exists h, netaddr_create_host_bin netmask number = Def (h, 0) /\ host_built netmask number h.
Proof.
  intros Hwf On Hp Hmax. pose proof Hwf as (La & Oa & Ht & Hp8). unfold is_u8 in Hp8.
  destruct (maxprefix_cases (na_type netmask)) as [E|(M & E & HM)]; [done|].
  fold (netaddr_get_maxprefix netmask) in E. assert (0 < M <= 16) by lia.
  assert (blen (na_addr netmask) = 16) as Ba by (unfold blen; lia).
  pose proof (Zle_0_nat (length number)) as Hn. fold (blen number) in Hn.
  destruct (div_mod8 (na_prefix_len netmask)) as [Dp Mp].
  unfold netaddr_create_host_bin. destruct (Z.eqb_spec (netaddr_get_maxprefix netmask) 0); [done|].
  destruct (Z.eqb_spec (netaddr_get_maxprefix netmask) (na_prefix_len netmask)); cbn [orb];
    [|destruct (Z.eqb_spec (blen number) 0)].
  1,2: eexists; split; [done|]; apply (host_built_from netmask number M) with M; try done; try lia;
    intros; symmetry; apply (host_bit_low _ _ M); (done || lia).
  rewrite E, Z.quot_div_nonneg by lia.
  assert ((8 * M - na_prefix_len netmask + 7) / 8 = M - na_prefix_len netmask / 8) as ->
    by (Z.to_euclidean_division_equations; lia).
  rewrite u8_small by lia. replace (8 * M / 8) with M by (Z.to_euclidean_division_equations; lia).
  rewrite land7, <- E. destruct (Z.ltb_spec (blen number) (M - na_prefix_len netmask / 8)).
    apply (copy_built netmask number M); try done; try lia.
    intros; symmetry; apply (host_bit_low _ _ M); (done || lia).
  - destruct (Z.eqb_spec (na_prefix_len netmask mod 8) 0); cbn [negb].
    + apply (copy_built netmask number M); try done; try lia.
      intros; symmetry; apply (host_bit_low _ _ M); (done || lia).
    + rewrite aget_aset, Z.eqb_refl, aset_aset by lia.
      destruct (boundary_bits netmask number M) as [Ob Hb]; try done; try lia.
      apply (copy_built netmask number M); try done; try lia.
      by rewrite <- La; apply length_insert.
Qed.

Lemma create_host_bits_witness :
  exists h, netaddr_create_host_bin (addr4 10 1 16 0 20) [192; 168; 77; 5] = Def (h, 0) /\
    host_built (addr4 10 1 16 0 20) [192; 168; 77; 5] h.
Proof.
  apply (create_host_bits (addr4 10 1 16 0 20)); [wf_ground| |vm_compute; discriminate..].
  repeat constructor; unfold is_u8; lia.
Defined.

Lemma take_app_exact (a b : bytes) n : length a = n -> take n (a ++ b) = a.
Proof. intros <-. apply take_app_length. Qed.

(** reading the octets of an IPv4, MAC-48, EUI-64 or IPv6 address with an
    autodetected family and a maximal prefix, and writing the address back,
    gives the same octets; any other length is refused with an unspecified
    address (and longer input is cut to 16 octets, never overrunning it). *)
Theorem binary_roundtrip (b : bytes) : octets b ->
  (In (blen b) [4; 6; 8; 16] ->
    exists a, netaddr_from_binary b 0 (blen b) 0 = Def (a, 0) /\ netaddr_wf a /\
      netaddr_is_host a = true /\
      forall len, blen b <= len -> netaddr_to_binary a len = Some b) /\
  (~ In (blen b) [4; 6; 8; 16] ->
    exists a, netaddr_from_binary b 0 (blen b) 0 = Def (a, -1) /\ netaddr_is_unspec a = true /\
      length (na_addr a) = 16%nat).
Proof.
  intros Ob. unfold netaddr_from_binary, netaddr_from_binary_prefix.
  assert (forall n, 0 <= n <= 16 -> n <= blen b -> exists a', wr_n (zeros 16) 0 (take (Z.to_nat n) b) = Def a' /\
    a' = take (Z.to_nat n) b ++ zeros (16 - Z.to_nat n)) as Hw.
  { intros n Hn Hb. unfold wr_n, blen in *. rewrite length_take.
    replace (Init.Nat.min (Z.to_nat n) (length b)) with (Z.to_nat n) by lia.
    destruct (Z.eqb_spec (Z.of_nat (Z.to_nat n)) 0) as [E0|E0].
    { assert (n = 0) as -> by lia. eexists. split; [done|]. done. }
    unfold zeros at 1. rewrite length_replicate.
    destruct (Z.ltb_spec (Z.of_nat 16) (0 + Z.of_nat (Z.to_nat n))); [lia|].
    eexists. split; [done|]. simpl. f_equal. unfold zeros. rewrite drop_replicate. f_equal. lia. }
  pose proof (Zle_0_nat (length b)) as Hnn. fold (blen b) in Hnn. change (0 =? 0) with true. cbn [negb].
  split; intros Hin; cbn [In] in Hin.
  - assert (exists t M, (if blen b =? 4 then (AF_INET, blen b) else if blen b =? 6 then (AF_MAC48, blen b)
      else if blen b =? 8 then (AF_EUI64, blen b) else if blen b =? 16 then (AF_INET6, blen b)
      else (AF_UNSPEC, if 16 <? blen b then 16 else blen b)) = (t, M) /\ M = blen b /\ M <= 16 /\
      netaddr_get_af_maxprefix t = 8 * M /\ 0 < M /\ t <> 0 /\ is_u8 t) as (t & M & -> & -> & HM & Et & H0 & Ht & Ht8).
    { destruct Hin as [E|[E|[E|[E|[]]]]]; rewrite <- E; eexists _, _;
        (split; [reflexivity|]; repeat split; (done || unfold AF_INET, AF_MAC48, AF_EUI64, AF_INET6, AF_MAX; lia)). }
    rewrite Z.eqb_refl, rd_n_prefix by lia. simpl.
    destruct (Hw (blen b)) as (a' & -> & ->); [lia..|]. simpl.
    replace (take (Z.to_nat (blen b)) b) with b by (unfold blen; by rewrite Nat2Z.id, firstn_all).
    destruct (Z.eqb_spec t AF_UNSPEC); [done|].
    rewrite shiftl_mul, u8_small by (change (2 ^ 3) with 8; lia). change (2 ^ 3) with 8.
    eexists. split; [done|]. unfold netaddr_is_host, netaddr_to_binary, netaddr_get_maxprefix. simpl.
    rewrite Et, shiftr_div by lia. change (2 ^ 3) with 8.
    replace (8 * blen b / 8) with (blen b) by (Z.to_euclidean_division_equations; lia).
    split; [|split; [apply Z.eqb_eq; lia|]].
    + repeat split; simpl; [rewrite length_app; unfold zeros, blen in *; rewrite length_replicate; lia
        |auto with cint|unfold is_u8 in *; lia..].
    + intros len Hlen. destruct (Z.eqb_spec (blen b) 0), (Z.ltb_spec len (blen b)); simpl; try lia.
      by rewrite take_app_exact by (unfold blen; lia).
  - destruct (Z.eqb_spec (blen b) 4), (Z.eqb_spec (blen b) 6), (Z.eqb_spec (blen b) 8),
      (Z.eqb_spec (blen b) 16); try (exfalso; apply Hin; lia).
    set (M := if 16 <? blen b then 16 else blen b).
    assert (0 <= M <= 16 /\ M <= blen b) as [HM1 HM2] by (unfold M; destruct (Z.ltb_spec 16 (blen b)); lia).
    rewrite Z.eqb_refl, rd_n_prefix by lia. simpl.
    destruct (Hw M) as (a' & -> & ->); [lia..|]. simpl. eexists. split; [done|]. split; [done|].
    simpl. rewrite length_app, length_take. unfold zeros, blen in *. rewrite length_replicate. lia.
Qed.

Lemma binary_roundtrip_witness :
  In (blen [192; 168; 0; 1]) [4; 6; 8; 16] /\
  (In (blen [192; 168; 0; 1]) [4; 6; 8; 16] ->
    exists a, netaddr_from_binary [192; 168; 0; 1] 0 (blen [192; 168; 0; 1]) 0 = Def (a, 0) /\ netaddr_wf a /\
      netaddr_is_host a = true /\
      forall len, blen [192; 168; 0; 1] <= len -> netaddr_to_binary a len = Some [192; 168; 0; 1]) /\
  (~ In (blen [192; 168; 0; 1]) [4; 6; 8; 16] ->
    exists a, netaddr_from_binary [192; 168; 0; 1] 0 (blen [192; 168; 0; 1]) 0 = Def (a, -1) /\
      netaddr_is_unspec a = true /\ length (na_addr a) = 16%nat).
Proof.
  split; [by left|]. apply (binary_roundtrip [192; 168; 0; 1]).
  repeat constructor; unfold is_u8; lia.
Defined.

(** The IPv4 netmask of length [p]. *)
Definition mask4 (p : Z) : bytes :=
  let m := 2 ^ 32 - 2 ^ (32 - p) in
  [m / 2 ^ 24; m / 2 ^ 16 mod 256; m / 2 ^ 8 mod 256; m mod 256] ++ zeros 12.

(** The length [netaddr_create_prefix] computes from the IPv4 netmask of length
    [p]. *)
Definition prefix_of_mask4 (p : Z) : option Z :=
  na_prefix_len <$> (netaddr_create_prefix (zeros 16) (addr4 10 1 2 3 32)
    {| na_addr := mask4 p; na_type := AF_INET; na_prefix_len := 32 |} true).1.

(** [netaddr_create_prefix] accepts every well-formed IPv4 netmask, but the
    prefix length it computes is right only up to /8: each octet 255 makes the
    loop skip the octet behind it, so longer masks come out short (/24 as /16,
    /32 as /16). *)
Theorem create_prefix_mask4 p : 0 <= p <= 32 ->
  exists q, prefix_of_mask4 p = Some q /\ q <= p /\ (q = p <-> p <= 8) /\
    (p = 24 -> q = 16) /\ (p = 32 -> q = 16).
Proof.
  intros Hp.
  assert (match prefix_of_mask4 p with
    | Some q => (q <=? p) && eqb (q =? p) (p <=? 8) && implb (p =? 24) (q =? 16) && implb (p =? 32) (q =? 16)
    | None => false end = true) as Hb.
  { assert (0 <= p < 0 + 33) as Hp' by lia. clear Hp. revert p Hp'.
    enumerate_Z 0 33. }
  destruct (prefix_of_mask4 p) as [q|]; [|done]. exists q. split; [done|].
  rewrite !andb_true_iff, eqb_true_iff, !implb_true_iff in Hb.
  destruct Hb as [[[H1 H2] H3] H4]. lia.
Qed.

Lemma create_prefix_mask4_witness :
  exists q, prefix_of_mask4 24 = Some q /\ q <= 24 /\ (q = 24 <-> 24 <= 8) /\
    (24 = 24 -> q = 16) /\ (24 = 32 -> q = 16).
Proof. apply (create_prefix_mask4 24). lia. Defined.
