(* ===== verification/NetaddrAcl.v ===== *)
(** Access control lists of addresses: src/libcommon/netaddr_acl.c. *)

From Stdlib Require Import ZArith Lia Ascii String.
From stdpp Require Import base list numbers option sets.
From S2P Require Import Prelude Netaddr.

Local Open Scope Z_scope.
Local Open Scope cint_scope.

(** The two arrays with their lengths are lists. *)
Record netaddr_acl := {
  accept : list netaddr;
  reject : list netaddr;
  reject_first : bool;
  accept_default : bool;
}.

(** [netaddr_acl_add] and [netaddr_acl_remove]: all zero *)
Definition netaddr_acl_add : netaddr_acl :=
  {| accept := []; reject := []; reject_first := false; accept_default := false |}.
Definition netaddr_acl_remove (acl : netaddr_acl) : netaddr_acl := netaddr_acl_add.

Fixpoint _is_in_array (array : list netaddr) (addr : netaddr) : outcome bool :=
  match array with
  | [] => Def false
  | a :: array => b ← netaddr_is_in_subnet a addr; if b : bool then Def true else _is_in_array array addr
  end.

Definition netaddr_acl_check_accept (acl : netaddr_acl) (addr : netaddr) : outcome bool :=
  r ← (if reject_first acl then _is_in_array (reject acl) addr else Def false);
  if r : bool then Def false
  else
    a ← _is_in_array (accept acl) addr;
    if a : bool then Def true
    else
      r ← (if negb (reject_first acl) then _is_in_array (reject acl) addr else Def false);
      if r : bool then Def false else Def (accept_default acl).

(** ** Control words *)

Definition tolower (c : ascii) : ascii :=
  let n := N_of_ascii c in if ((65 <=? n) && (n <=? 90))%N then ascii_of_N (n + 32) else c.
Fixpoint lower (s : string) : string :=
  match s with EmptyString => EmptyString | String c s => String (tolower c) (lower s) end.
(** [strcasecmp(a, b) == 0] *)
Definition strcaseeq (a b : string) : bool := String.eqb (lower a) (lower b).

Definition ACL_FIRST_REJECT : string := "first_reject".
Definition ACL_FIRST_ACCEPT : string := "first_accept".
Definition ACL_DEFAULT_ACCEPT : string := "default_accept".
Definition ACL_DEFAULT_REJECT : string := "default_reject".

(** The ACL and the result. *)
Definition netaddr_acl_handle_keywords (acl : netaddr_acl) (cmd : string) : netaddr_acl * Z :=
  let set_default b := {| accept := accept acl; reject := reject acl; reject_first := reject_first acl; accept_default := b |} in
  let set_first b := {| accept := accept acl; reject := reject acl; reject_first := b; accept_default := accept_default acl |} in
  if strcaseeq cmd ACL_DEFAULT_ACCEPT then (set_default true, 0)
  else if strcaseeq cmd ACL_DEFAULT_REJECT then (set_default false, 0)
  else if strcaseeq cmd ACL_FIRST_ACCEPT then (set_first false, 0)
  else if strcaseeq cmd ACL_FIRST_REJECT then (set_first true, 0)
  else (acl, -1).

(** [ptr == '-'] and so on: the first character of a C string *)
Definition first_char (s : string) : option ascii := match s with EmptyString => None | String c _ => Some c end.
Definition tail (s : string) : string := match s with EmptyString => EmptyString | String _ s => s end.

(** [netaddr_acl_from_strarray], with [netaddr_from_string] as an argument and
    memory for every array: [from_string] answers [None] for its error. *)
Section from_strarray.
Context (netaddr_from_string : string -> option netaddr).

Fixpoint read_strings (value : list string) (acl : netaddr_acl) : option netaddr_acl :=
  match value with
  | [] => Some acl
  | ptr :: value =>
      let '(acl', r) := netaddr_acl_handle_keywords acl ptr in
      if r =? 0 then read_strings value acl'
      else
        let signed := bool_decide (first_char ptr = Some "-"%char) || bool_decide (first_char ptr = Some "+"%char) in
        match netaddr_from_string (if signed then tail ptr else ptr) with
        | None => None
        | Some addr =>
            read_strings value
              (if bool_decide (first_char ptr = Some "-"%char)
               then {| accept := accept acl; reject := reject acl ++ [addr]; reject_first := reject_first acl; accept_default := accept_default acl |}
               else {| accept := accept acl ++ [addr]; reject := reject acl; reject_first := reject_first acl; accept_default := accept_default acl |})
        end
  end.

(** The first pass over the strings counts them, and applies the control words
    to the cleared ACL once before. *)
Definition count_strings (value : list string) (acl : netaddr_acl) : netaddr_acl :=
  foldl (fun acl ptr => (netaddr_acl_handle_keywords acl ptr).1) acl value.

Definition netaddr_acl_from_strarray (acl : netaddr_acl) (value : list string) : netaddr_acl * Z :=
  match read_strings value (count_strings value (netaddr_acl_remove acl)) with
  | Some acl => (acl, 0)
  | None => (netaddr_acl_remove acl, -1)
  end.
End from_strarray.

(** ** What a check means *)

(** [addr] matches a prefix of the list. *)
Definition in_list (l : list netaddr) (addr : netaddr) : Prop := exists a, a ∈ l /\ netaddr_is_in_subnet a addr = Def true.

Lemma is_in_array_spec l addr : (forall a, a ∈ l -> is_def (netaddr_is_in_subnet a addr)) ->
  exists b, _is_in_array l addr = Def b /\ (b = true <-> in_list l addr).
Proof.
  induction l as [|a l IH]; intros Hl; simpl.
  { exists false. split; [done|]. split; [done|]. by intros (a & ?%elem_of_nil & _). }
  destruct (Hl a) as [b Hb]; [by left|]. rewrite Hb. simpl. destruct b.
  - exists true. split; [done|]. split; [|done]. intros _. exists a. split; [by left|done].
  - destruct IH as (b & -> & Hs); [intros; apply Hl; by right|]. exists b. split; [done|]. rewrite Hs. split.
    + intros (a' & Ha & E). exists a'. split; [by right|done].
    + intros (a' & [->|Ha]%elem_of_cons & E); [congruence|]. by exists a'.
Qed.

(** An access control list decides as configured: the list to look at
    first wins for an address that is in both lists, an address in one list
    follows this list, and the default answers for all others. *)
Theorem acl_check_accept_spec acl addr :
  (forall a, a ∈ accept acl ++ reject acl -> is_def (netaddr_is_in_subnet a addr)) ->
  exists b, netaddr_acl_check_accept acl addr = Def b /\
    (in_list (accept acl) addr -> in_list (reject acl) addr -> b = negb (reject_first acl)) /\
    (in_list (accept acl) addr -> ~ in_list (reject acl) addr -> b = true) /\
    (~ in_list (accept acl) addr -> in_list (reject acl) addr -> b = false) /\
    (~ in_list (accept acl) addr -> ~ in_list (reject acl) addr -> b = accept_default acl).
Proof.
  intros H. destruct (is_in_array_spec (accept acl) addr) as (ba & Ea & Ha); [intros; apply H, elem_of_app; by left|].
  destruct (is_in_array_spec (reject acl) addr) as (br & Er & Hr); [intros; apply H, elem_of_app; by right|].
  unfold netaddr_acl_check_accept. rewrite Ea, Er.
  destruct (reject_first acl), br, ba; simpl; eexists; (split; [done|]); naive_solver.
Qed.

Definition ex_prefix (n len : Z) : netaddr := {| na_addr := [10; n; 0; 0] ++ zeros 12; na_type := AF_INET; na_prefix_len := len |}.

Lemma acl_check_accept_spec_witness :
  let acl := {| accept := [ex_prefix 0 8]; reject := [ex_prefix 1 16]; reject_first := true; accept_default := false |} in
  exists b, netaddr_acl_check_accept acl (ex_prefix 1 32) = Def b /\ b = false.
Proof.
  intros acl. destruct (acl_check_accept_spec acl (ex_prefix 1 32)) as (b & E & H & _).
  - intros a Ha. simpl in Ha. set_unfold in Ha. destruct Ha as [->|[->|[]]]; eexists; vm_compute; reflexivity.
  - exists b. split; [exact E|]. apply H; [exists (ex_prefix 0 8)|exists (ex_prefix 1 16)]; (split; [by left|done]).
Defined.

Example ex_acl_words : netaddr_acl_from_strarray (fun s => if String.eqb s "10.0.0.0/8" then Some (ex_prefix 0 8) else None)
  netaddr_acl_add ["-10.0.0.0/8"; "Default_Accept"]%string =
  ({| accept := []; reject := [ex_prefix 0 8]; reject_first := false; accept_default := true |}, 0).
Proof. vm_compute. reflexivity. Qed.
