(* ===== verification/Bitmap256.v ===== *)
(** The 256 bit set of src/libcommon/bitmap256.c and its header, used for the
    domains and link statistics of OLSRv2 and for the signals of DLEP. *)

From Stdlib Require Import ZArith Lia.
From stdpp Require Import base list numbers option.
From S2P Require Import Prelude.

Local Open Scope Z_scope.
Local Open Scope cint_scope.

(** [uint64_t b[256 / sizeof(uint64_t) / 8]]: four words. *)
Record bitmap256 := { b : list Z }.

Definition bitmap256_words : nat := Z.to_nat (256 / 8 / 8).

Definition bitmap256_wf (map : bitmap256) : Prop :=
  length (b map) = bitmap256_words /\ Forall (fun w => 0 <= w < 2 ^ 64) (b map).

Definition bitmap256_empty : bitmap256 := {| b := replicate bitmap256_words 0 |}.

(** [map->b[bit >> 6]] *)
Definition bitmap256_word (map : bitmap256) (bit : Z) : Z := b map !!! Z.to_nat (bit .>> 6).
Definition bitmap256_put (map : bitmap256) (bit w : Z) : bitmap256 :=
  {| b := <[Z.to_nat (bit .>> 6) := w]> (b map) |}.

Definition bitmap256_get (map : bitmap256) (bit : Z) : bool :=
  negb (bitmap256_word map bit .& u64 (1 .<< (bit .& 63)) =? 0).

Definition bitmap256_set (map : bitmap256) (bit : Z) : bitmap256 :=
  bitmap256_put map bit (bitmap256_word map bit .| u64 (1 .<< (bit .& 63))).

Definition bitmap256_reset (map : bitmap256) (bit : Z) : bitmap256 :=
  bitmap256_put map bit (bitmap256_word map bit .& u64 (Z.lnot (u64 (1 .<< (bit .& 63))))).

(** The loop over the words of both maps. *)
Fixpoint words_subset (set subset : list Z) : bool :=
  match set, subset with
  | x :: set, y :: subset => if negb (x =? x .| y) then false else words_subset set subset
  | _, _ => true
  end.

Definition bitmap256_is_subset (set subset : bitmap256) : bool := words_subset (b set) (b subset).

(** ** Bits *)

Lemma bit_index bit : is_u8 bit -> 0 <= bit .>> 6 < 4 /\ 0 <= bit .& 63 < 64 /\ bit = 64 * (bit .>> 6) + (bit .& 63).
Proof.
  intros Hb. change 63 with (2 ^ 6 - 1). rewrite land_mask, shiftr_div by lia. unfold is_u8 in Hb.
  change (2 ^ 6) with 64. Z.to_euclidean_division_equations; lia.
Qed.

Lemma bit_mask n : 0 <= n < 64 -> u64 (1 .<< n) = 2 ^ n.
Proof.
  intros Hn. rewrite Z.shiftl_1_l. apply u64_small. split; [by apply Z.pow_nonneg|].
  change 18446744073709551616 with (2 ^ 64). apply Z.pow_lt_mono_r; lia.
Qed.

Lemma get_testbit map bit : is_u8 bit -> bitmap256_get map bit = Z.testbit (bitmap256_word map bit) (bit .& 63).
Proof. intros (_ & Hb & _)%bit_index. unfold bitmap256_get. rewrite bit_mask, land_pow2 by lia. done. Qed.

Lemma word_range map bit : bitmap256_wf map -> is_u8 bit -> 0 <= bitmap256_word map bit < 2 ^ 64 /\
  b map !! Z.to_nat (bit .>> 6) = Some (bitmap256_word map bit).
Proof.
  intros [Hl Hw] (Hi & _)%bit_index. unfold bitmap256_words in Hl. change (Z.to_nat (256 / 8 / 8)) with 4%nat in Hl.
  destruct (lookup_lt_is_Some_2 (b map) (Z.to_nat (bit .>> 6))) as [w E]; [lia|].
  unfold bitmap256_word. rewrite (list_lookup_total_correct _ _ _ E). split; [|done].
  exact (Forall_lookup_1 _ _ _ _ Hw E).
Qed.

(** Bits of a 64 bit value end at 63. *)
Lemma u64_of_bits z : 0 <= z -> (forall k, 64 <= k -> Z.testbit z k = false) -> 0 <= z < 2 ^ 64.
Proof.
  intros Hz H. assert (z = z mod 2 ^ 64) as ->; [|apply Z.mod_pos_bound; lia].
  apply Z.bits_inj'. intros k Hk. destruct (Z.lt_ge_cases k 64).
  - by rewrite Z.mod_pow2_bits_low.
  - rewrite Z.mod_pow2_bits_high by lia. by apply H.
Qed.

Lemma u64_high z k : 0 <= z < 2 ^ 64 -> 64 <= k -> Z.testbit z k = false.
Proof. intros Hz Hk. rewrite <- (Z.mod_small z (2 ^ 64)) by lia. by apply Z.mod_pow2_bits_high. Qed.

Lemma put_spec map bit w : bitmap256_wf map -> is_u8 bit -> 0 <= w < 2 ^ 64 ->
  bitmap256_wf (bitmap256_put map bit w) /\
  forall bit', is_u8 bit' -> bitmap256_word (bitmap256_put map bit w) bit' =
    if bit' .>> 6 =? bit .>> 6 then w else bitmap256_word map bit'.
Proof.
  intros Hwf Hb Hw. pose proof (bit_index bit Hb) as (Hi & _). pose proof (word_range map bit Hwf Hb) as [_ E].
  destruct Hwf as [Hl Hf]. split.
  - split; simpl; [by rewrite length_insert|by apply Forall_insert].
  - intros bit' (Hi' & _)%bit_index. unfold bitmap256_word. simpl. destruct (Z.eqb_spec (bit' .>> 6) (bit .>> 6)) as [->|Hne].
    + apply list_lookup_total_insert_eq. by apply lookup_lt_Some in E.
    + apply list_lookup_total_insert_ne. lia.
Qed.

(** Two bits of the same word with the same position are the same bit. *)
Lemma same_bit bit bit' : is_u8 bit -> is_u8 bit' ->
  (bit' =? bit) = (bit' .>> 6 =? bit .>> 6) && ((bit' .& 63) =? (bit .& 63)).
Proof.
  intros (_ & _ & E)%bit_index (_ & _ & E')%bit_index.
  destruct (Z.eqb_spec (bit' .>> 6) (bit .>> 6)), (Z.eqb_spec (bit' .& 63) (bit .& 63)), (Z.eqb_spec bit' bit);
    subst; try done; try lia; exfalso; congruence.
Qed.

(** setting (clearing) a bit makes it present (absent) and leaves the
    other 255 bits alone. *)
Theorem bitmap256_set_reset map bit : bitmap256_wf map -> is_u8 bit ->
  bitmap256_wf (bitmap256_set map bit) /\ bitmap256_wf (bitmap256_reset map bit) /\
  forall bit', is_u8 bit' ->
    bitmap256_get (bitmap256_set map bit) bit' = (bit' =? bit) || bitmap256_get map bit' /\
    bitmap256_get (bitmap256_reset map bit) bit' = negb (bit' =? bit) && bitmap256_get map bit'.
Proof.
  intros Hwf Hb. pose proof (word_range map bit Hwf Hb) as [Hw _]. pose proof (bit_index bit Hb) as (_ & Hr & _).
  unfold bitmap256_set, bitmap256_reset. rewrite bit_mask by lia. set (m := bit .& 63) in *.
  assert (0 <= 2 ^ m < 2 ^ 64) as Hm by (split; [by apply Z.pow_nonneg|apply Z.pow_lt_mono_r; lia]).
  destruct (put_spec map bit (bitmap256_word map bit .| 2 ^ m)) as [Hw1 Hp1]; [done|done| |].
  { apply u64_of_bits; [apply Z.lor_nonneg; lia|]. intros. by rewrite Z.lor_spec, !u64_high. }
  destruct (put_spec map bit (bitmap256_word map bit .& u64 (Z.lnot (2 ^ m)))) as [Hw2 Hp2]; [done|done| |].
  { apply u64_of_bits; [apply Z.land_nonneg; lia|]. intros. by rewrite Z.land_spec, u64_high. }
  split; [done|]. split; [done|]. intros bit' Hb'. pose proof (bit_index bit' Hb') as (_ & Hr' & _).
  rewrite !get_testbit, Hp1, Hp2, (same_bit bit bit') by done. fold m.
  destruct (Z.eqb_spec (bit' .>> 6) (bit .>> 6)) as [E|]; simpl; [|done].
  assert (bitmap256_word map bit' = bitmap256_word map bit) as -> by (unfold bitmap256_word; by rewrite E).
  rewrite Z.lor_spec, Z.land_spec. unfold u64, wrap. rewrite Z.mod_pow2_bits_low, Z.lnot_spec by lia.
  rewrite Z.pow2_bits_eqb by lia. rewrite (Z.eqb_sym (bit' .& 63)).
  split; [apply orb_comm|apply andb_comm].
Qed.

Lemma bitmap256_set_reset_witness :
  bitmap256_wf (bitmap256_set bitmap256_empty 77) /\ bitmap256_wf (bitmap256_reset bitmap256_empty 77) /\
  forall bit', is_u8 bit' ->
    bitmap256_get (bitmap256_set bitmap256_empty 77) bit' = (bit' =? 77) || bitmap256_get bitmap256_empty bit' /\
    bitmap256_get (bitmap256_reset bitmap256_empty 77) bit' = negb (bit' =? 77) && bitmap256_get bitmap256_empty bit'.
Proof.
  apply (bitmap256_set_reset bitmap256_empty 77); [|unfold is_u8; lia].
  split; [done|]. repeat constructor; lia.
Defined.

(** the subset test compares the two sets bit by bit. *)
Theorem bitmap256_subset_spec set subset : bitmap256_wf set -> bitmap256_wf subset ->
  bitmap256_is_subset set subset = true <->
  forall bit, is_u8 bit -> bitmap256_get subset bit = true -> bitmap256_get set bit = true.
Proof.
  intros Hs Ht.
  assert (bitmap256_is_subset set subset = true <->
    forall i x y, b set !! i = Some x -> b subset !! i = Some y -> x .| y = x) as ->.
  { unfold bitmap256_is_subset. destruct Hs as [Hs _], Ht as [Ht _]. assert (length (b set) = length (b subset)) as El by lia.
    revert El. generalize (b set) (b subset). clear. induction l as [|x l IH]; intros [|y l'] El; try done.
    simpl. injection El as El. destruct (Z.eqb_spec x (x .| y)); simpl.
    - rewrite IH by done. split; [|intros H i; apply (H (S i))].
      intros H [|i] x' y'; simpl; [intros [= <-] [= <-]; done|apply H].
    - split; [done|]. intros H. specialize (H 0%nat x y eq_refl eq_refl). congruence. }
  split.
  - intros H bit Hb. rewrite !get_testbit by done.
    destruct (word_range set bit Hs Hb) as [_ E1], (word_range subset bit Ht Hb) as [_ E2].
    rewrite <- (H _ _ _ E1 E2), Z.lor_spec. intros ->. apply orb_true_r.
  - intros H i x y Ex Ey. apply lookup_lt_Some in Ex as Hi. destruct Hs as [Hl Hf].
    change bitmap256_words with 4%nat in Hl. pose proof (Forall_lookup_1 _ _ _ _ Hf Ex) as Hx.
    pose proof (Forall_lookup_1 _ _ _ _ (proj2 Ht) Ey) as Hy. cbv beta in Hx, Hy.
    apply Z.bits_inj'. intros k Hk. rewrite Z.lor_spec. destruct (Z.testbit y k) eqn:Eb; [|by rewrite orb_false_r].
    destruct (Z.lt_ge_cases k 64); [|by rewrite u64_high in Eb by lia].
    set (bit := 64 * Z.of_nat i + k). assert (is_u8 bit) as Hb by (unfold is_u8, bit; lia).
    pose proof (bit_index bit Hb) as (? & ? & Ebit). assert (bit .>> 6 = Z.of_nat i /\ bit .& 63 = k) as [E1 E2].
    { assert (64 * Z.of_nat i + k = 64 * (bit .>> 6) + (bit .& 63)) as Ek by exact Ebit.
      clearbody bit. lia. }
    specialize (H bit Hb). rewrite !get_testbit in H by done. unfold bitmap256_word in H.
    rewrite E1, E2, Nat2Z.id, (list_lookup_total_correct _ _ _ Ex), (list_lookup_total_correct _ _ _ Ey) in H.
    rewrite orb_true_r. symmetry. by apply H.
Qed.

Lemma bitmap256_subset_spec_witness :
  bitmap256_is_subset (bitmap256_set bitmap256_empty 200) bitmap256_empty = true <->
  forall bit, is_u8 bit -> bitmap256_get bitmap256_empty bit = true ->
    bitmap256_get (bitmap256_set bitmap256_empty 200) bit = true.
Proof.
  apply bitmap256_subset_spec; (split; [done|]); repeat constructor; (discriminate || reflexivity).
Defined.
