(* ===== verification/ReaderParse.v ===== *)
(** The parsing half of src/librfc5444/rfc5444_reader.c: the byte cursor, TLVs,
    TLV blocks and address blocks of a received RFC 5444 packet. *)

From Stdlib Require Import ZArith Lia Sorted.
From stdpp Require Import base list numbers option gmap sets.
From S2P Require Import Prelude AvlSpec Netaddr Bitmap256.

Local Open Scope Z_scope.
Local Open Scope cint_scope.

(** [enum rfc5444_result]; callbacks and comparisons use the numbers. *)
Notation rfc5444_result := Z (only parsing).
Definition RFC5444_DROP_PACKET : Z := 5.
Definition RFC5444_DROP_MESSAGE : Z := 4.
Definition RFC5444_DROP_MSG_BUT_FORWARD : Z := 3.
Definition RFC5444_DROP_ADDRESS : Z := 2.
Definition RFC5444_DROP_TLV : Z := 1.
Definition RFC5444_OKAY : Z := 0.
Definition RFC5444_UNSUPPORTED_VERSION : Z := -1.
Definition RFC5444_END_OF_BUFFER : Z := -2.
Definition RFC5444_BAD_TLV_IDXFLAGS : Z := -3.
Definition RFC5444_BAD_TLV_VALUEFLAGS : Z := -4.
Definition RFC5444_BAD_TLV_LENGTH : Z := -5.
Definition RFC5444_OUT_OF_MEMORY : Z := -6.
Definition RFC5444_EMPTY_ADDRBLOCK : Z := -7.
Definition RFC5444_BAD_MSG_TAILFLAGS : Z := -8.
Definition RFC5444_BAD_MSG_PREFIXFLAGS : Z := -9.
Definition RFC5444_TOO_LARGE : Z := -16.
Definition RFC5444_BAD_ADDR_HEAD_LENGTH : Z := -18.
Definition RFC5444_BAD_ADDR_TAIL_LENGTH : Z := -19.
Definition RFC5444_BAD_TLV_INDEX : Z := -20.

Definition RFC5444_MAX_ADDRLEN : Z := 16.
Definition RFC5444_ADDR_FLAG_HEAD : Z := 0x80.
Definition RFC5444_ADDR_FLAG_FULLTAIL : Z := 0x40.
Definition RFC5444_ADDR_FLAG_ZEROTAIL : Z := 0x20.
Definition RFC5444_ADDR_FLAG_SINGLEPLEN : Z := 0x10.
Definition RFC5444_ADDR_FLAG_MULTIPLEN : Z := 0x08.
Definition RFC5444_TLV_FLAG_TYPEEXT : Z := 0x80.
Definition RFC5444_TLV_FLAG_SINGLE_IDX : Z := 0x40.
Definition RFC5444_TLV_FLAG_MULTI_IDX : Z := 0x20.
Definition RFC5444_TLV_FLAG_VALUE : Z := 0x10.
Definition RFC5444_TLV_FLAG_EXTVALUE : Z := 0x08.
Definition RFC5444_TLV_FLAG_MULTIVALUE : Z := 0x04.

(** [struct rfc5444_reader_tlvblock_entry]; [tlv_id] is its address, pointers
    into the packet are offsets and [None] is NULL. *)
Record tlvblock_entry := {
  tlv_id : nat;
  type : Z;
  flags : Z;
  type_ext : Z;
  length_ : Z;
  single_value : option Z;
  index1 : Z;
  index2 : Z;
  next_entry : option nat;
  _order : Z;
  _value : option Z;
  _multivalue_tlv : bool;
  int_drop_tlv : bitmap256;
}.

(** [memset(&entry, 0, sizeof(entry))] *)
Definition clear_entry : tlvblock_entry :=
  {| tlv_id := 0; type := 0; flags := 0; type_ext := 0; length_ := 0; single_value := None;
     index1 := 0; index2 := 0; next_entry := None; _order := 0; _value := None;
     _multivalue_tlv := false; int_drop_tlv := bitmap256_empty |}.

(** [struct rfc5444_reader_addrblock_entry] *)
Record addrblock_entry := {
  tlvblock : list tlvblock_entry;
  num_addr : Z;
  mid_start : Z;
  mid_len : Z;
  prefixes : option Z;
  mid_src : Z;
  addr_octets : bytes;
  prefixlen : Z;
  addr_block_ptr : Z;
  addr_block_size : Z;
  addr_tlv_size : Z;
  dropAddr : bitmap256;
}.

(** ** The cursor

    [( *ptr, *error )]; [end_] is the first offset behind the data. *)
Notation cursor := (Z * Z)%type.

Definition _rfc5444_get_u8 (buf : bytes) (end_ : Z) (s : cursor) : outcome (Z * cursor) :=
  let '(ptr, error) := s in
  if negb (error =? RFC5444_OKAY) then Def (0, s)
  else if end_ <=? ptr then Def (0, (ptr, RFC5444_END_OF_BUFFER))
  else x ← rd buf ptr; Def (x, (ptr + 1, error)).

(** The two calls are operands of one expression; compilers evaluate them from
    left to right here, as network byte order needs. *)
Definition _rfc5444_get_u16 (buf : bytes) (end_ : Z) (s : cursor) : outcome (Z * cursor) :=
  '(hi, s) ← _rfc5444_get_u8 buf end_ s;
  '(lo, s) ← _rfc5444_get_u8 buf end_ s;
  Def (u16 (hi .<< 8) .| lo, s).

(** ** Memory

    The n-th allocation succeeds or not; the parser's objects that are
    currently allocated are counted. *)
Record heap := { calls : nat; tlv_live : Z; addr_live : Z }.

Section parser.
Context (malloc_ok : nat -> bool).

Definition malloc_tlvblock_entry (h : heap) : option nat * heap :=
  if malloc_ok (calls h)
  then (Some (calls h), {| calls := S (calls h); tlv_live := tlv_live h + 1; addr_live := addr_live h |})
  else (None, {| calls := S (calls h); tlv_live := tlv_live h; addr_live := addr_live h |}).

Definition malloc_addrblock_entry (h : heap) : bool * heap :=
  if malloc_ok (calls h)
  then (true, {| calls := S (calls h); tlv_live := tlv_live h; addr_live := addr_live h + 1 |})
  else (false, {| calls := S (calls h); tlv_live := tlv_live h; addr_live := addr_live h |}).

Definition free_addrblock_entry (h : heap) : heap :=
  {| calls := calls h; tlv_live := tlv_live h; addr_live := addr_live h - 1 |}.

(** Every element of the block is freed once. *)
Definition _free_tlvblock (entries : list tlvblock_entry) (h : heap) : heap :=
  {| calls := calls h; tlv_live := tlv_live h - Z.of_nat (length entries); addr_live := addr_live h |}.

(** ** TLVs *)

Definition _calc_tlvblock_intorder (type type_ext : Z) : Z := u16 (type .<< 8) .| type_ext.

(** The part of [_parse_tlv] behind the value: [entry] has its header fields,
    [*ptr] is at the value. *)
Definition parse_tlv_value (entry : tlvblock_entry) (ptr eob result : Z)
    : outcome (rfc5444_result * tlvblock_entry * Z) :=
  if eob <? ptr + length_ entry then Def (RFC5444_END_OF_BUFFER, entry, eob)
  else if negb (result =? RFC5444_OKAY) then Def (result, entry, eob)
  else
    let with_value value multi single len :=
      {| tlv_id := tlv_id entry; type := type entry; flags := flags entry; type_ext := type_ext entry;
         length_ := len; single_value := single; index1 := index1 entry; index2 := index2 entry;
         next_entry := next_entry entry; _order := _order entry; _value := value;
         _multivalue_tlv := multi; int_drop_tlv := int_drop_tlv entry |} in
    if length_ entry =? 0 then
      Def (RFC5444_OKAY, with_value None (_multivalue_tlv entry) (single_value entry) 0, ptr)
    else
      let value := Some ptr in
      let next := ptr + length_ entry in
      let count := u8 (index2 entry - index1 entry + 1) in
      let multi := if count =? 1 then false else _multivalue_tlv entry in
      if negb multi then Def (RFC5444_OKAY, with_value value multi value (length_ entry), next)
      else if count =? 0 then Undef UB_div_zero
      else if negb (length_ entry mod count =? 0) then
        Def (RFC5444_BAD_TLV_LENGTH, with_value value multi (single_value entry) (length_ entry), next)
      else Def (RFC5444_OKAY, with_value value multi (single_value entry) (length_ entry / count), next).

(** [entry] is the static buffer with what the TLV before left in it. *)
Definition _parse_tlv (buf : bytes) (entry : tlvblock_entry) (ptr eob addr_count : Z)
    : outcome (rfc5444_result * tlvblock_entry * Z) :=
  '(type, s) ← _rfc5444_get_u8 buf eob (ptr, RFC5444_OKAY);
  '(flags, s) ← _rfc5444_get_u8 buf eob s;
  '(type_ext, s) ← (if negb (flags .& RFC5444_TLV_FLAG_TYPEEXT =? 0)
                    then _rfc5444_get_u8 buf eob s else Def (0, s));
  let order := _calc_tlvblock_intorder type type_ext in
  let header index1 index2 length_ multi :=
    {| tlv_id := tlv_id entry; type := type; flags := flags; type_ext := type_ext; length_ := length_;
       single_value := single_value entry; index1 := index1; index2 := index2; next_entry := next_entry entry;
       _order := order; _value := _value entry; _multivalue_tlv := multi; int_drop_tlv := int_drop_tlv entry |} in
  let masked := flags .& (RFC5444_TLV_FLAG_SINGLE_IDX .| RFC5444_TLV_FLAG_MULTI_IDX) in
  let stay i1 i2 := header i1 i2 (length_ entry) (_multivalue_tlv entry) in
  '(indices, s) ←
    (if masked =? 0 then Def (Some (0, u8 (addr_count - 1)), s)
     else if masked =? RFC5444_TLV_FLAG_SINGLE_IDX then
       '(i, s) ← _rfc5444_get_u8 buf eob s; Def (Some (i, i), s)
     else if masked =? RFC5444_TLV_FLAG_MULTI_IDX then
       '(i1, s) ← _rfc5444_get_u8 buf eob s;
       '(i2, s) ← _rfc5444_get_u8 buf eob s; Def (Some (i1, i2), s)
     else Def (None, s));
  match indices with
  | None => Def (RFC5444_BAD_TLV_IDXFLAGS, stay (index1 entry) (index2 entry), eob)
  | Some (i1, i2) =>
      if (0 <? addr_count) && ((addr_count <=? i1) || (addr_count <=? i2))
      then Def (RFC5444_BAD_TLV_INDEX, stay i1 i2, eob)
      else
        let masked := flags .& (RFC5444_TLV_FLAG_VALUE .| RFC5444_TLV_FLAG_EXTVALUE) in
        '(len, s) ←
          (if masked =? 0 then Def (Some 0, s)
           else if masked =? RFC5444_TLV_FLAG_VALUE then
             '(n, s) ← _rfc5444_get_u8 buf eob s; Def (Some n, s)
           else if masked =? RFC5444_TLV_FLAG_EXTVALUE .| RFC5444_TLV_FLAG_VALUE then
             '(n, s) ← _rfc5444_get_u16 buf eob s; Def (Some n, s)
           else Def (None, s));
        match len with
        | None => Def (RFC5444_BAD_TLV_VALUEFLAGS, stay i1 i2, eob)
        | Some len =>
            let multi := negb (flags .& RFC5444_TLV_FLAG_MULTIVALUE =? 0) in
            parse_tlv_value (header i1 i2 len multi) s.1 eob s.2
        end
  end.

(** ** TLV blocks *)

Definition avl_comp_uint16 (k1 k2 : Z) : Z := if k2 <? k1 then 1 else if k1 <? k2 then -1 else 0.

Definition with_id (id : nat) (e : tlvblock_entry) : tlvblock_entry :=
  {| tlv_id := id; type := type e; flags := flags e; type_ext := type_ext e; length_ := length_ e;
     single_value := single_value e; index1 := index1 e; index2 := index2 e; next_entry := next_entry e;
     _order := _order e; _value := _value e; _multivalue_tlv := _multivalue_tlv e;
     int_drop_tlv := int_drop_tlv e |}.

(** [while ( *ptr < end)]: the result, the tree, the position and the memory. *)
Fixpoint parse_tlvs (fuel : nat) (buf : bytes) (entry : tlvblock_entry) (block : list tlvblock_entry)
    (ptr end_ eob addr_count : Z) (h : heap) : outcome (rfc5444_result * list tlvblock_entry * Z * heap) :=
  if end_ <=? ptr then Def (RFC5444_OKAY, block, ptr, h)
  else
    match fuel with
    | O => Undef Out_of_fuel
    | S fuel =>
        '(result, entry, ptr) ← _parse_tlv buf entry ptr eob addr_count;
        if negb (result =? RFC5444_OKAY) then Def (result, block, ptr, h)
        else
          let '(tlv1, h) := malloc_tlvblock_entry h in
          match tlv1 with
          | None => Def (RFC5444_OUT_OF_MEMORY, block, ptr, h)
          | Some id =>
              let block := tree_insert_dup _order avl_comp_uint16 (with_id id entry) block in
              parse_tlvs fuel buf entry block ptr end_ eob addr_count h
          end
    end.

(** The block starts empty.  Every TLV takes at least two octets, so the
    distance to [end_] is fuel enough. *)
Definition _parse_tlvblock (buf : bytes) (ptr eob addr_count : Z) (h : heap)
    : outcome (rfc5444_result * list tlvblock_entry * Z * heap) :=
  let start := ptr + 2 in
  '(len, s) ← _rfc5444_get_u16 buf eob (ptr, RFC5444_OKAY);
  let '(ptr, result) := s in
  let end_ := start + len in
  '(result, block, ptr, h) ←
    (if eob <? end_ then Def (RFC5444_END_OF_BUFFER, [], ptr, h)
     else parse_tlvs (Z.to_nat (end_ - ptr)) buf clear_entry [] ptr end_ eob addr_count h);
  if negb (result =? RFC5444_OKAY) then Def (result, [], eob, _free_tlvblock block h)
  else Def (result, block, ptr, h).

(** ** Address blocks *)

(** A cleared entry that starts at [ptr]. *)
Definition clear_addrblock (ptr : Z) : addrblock_entry :=
  {| tlvblock := []; num_addr := 0; mid_start := 0; mid_len := 0; prefixes := None; mid_src := 0;
     addr_octets := zeros 16; prefixlen := 0; addr_block_ptr := ptr; addr_block_size := 0;
     addr_tlv_size := 0; dropAddr := bitmap256_empty |}.

(** Head: the error, or its length, the addresses with the head in it and the
    position behind it. *)
Definition parse_addr_head (buf : bytes) (flags addr_len : Z) (s : cursor) (eob : Z)
    : outcome (rfc5444_result * Z * bytes * cursor) :=
  if negb (flags .& RFC5444_ADDR_FLAG_HEAD =? 0) then
    '(mid_start, s) ← _rfc5444_get_u8 buf eob s;
    if (mid_start <? 1) || (RFC5444_MAX_ADDRLEN <=? mid_start) || (addr_len <=? mid_start)
    then Def (RFC5444_BAD_ADDR_HEAD_LENGTH, mid_start, zeros 16, s)
    else if eob <? s.1 + mid_start then Def (RFC5444_END_OF_BUFFER, mid_start, zeros 16, s)
    else
      src ← rd_n buf s.1 mid_start;
      addr ← wr_n (zeros 16) 0 src;
      Def (RFC5444_OKAY, mid_start, addr, (s.1 + mid_start, s.2))
  else Def (RFC5444_OKAY, 0, zeros 16, s).

(** Tail: the error, or what it takes off [mid_len]. *)
Definition parse_addr_tail (buf : bytes) (flags addr_len : Z) (addr : bytes) (s : cursor) (eob : Z)
    : outcome (rfc5444_result * Z * bytes * cursor) :=
  let masked := flags .& (RFC5444_ADDR_FLAG_FULLTAIL .| RFC5444_ADDR_FLAG_ZEROTAIL) in
  if masked =? RFC5444_ADDR_FLAG_ZEROTAIL then
    '(n, s) ← _rfc5444_get_u8 buf eob s; Def (RFC5444_OKAY, n, addr, s)
  else if masked =? RFC5444_ADDR_FLAG_FULLTAIL then
    '(tail_len, s) ← _rfc5444_get_u8 buf eob s;
    if (tail_len <? 1) || (RFC5444_MAX_ADDRLEN <=? tail_len) || (addr_len <=? tail_len)
    then Def (RFC5444_BAD_ADDR_TAIL_LENGTH, 0, addr, s)
    else if eob <? s.1 + tail_len then Def (RFC5444_END_OF_BUFFER, 0, addr, s)
    else
      src ← rd_n buf s.1 tail_len;
      addr ← wr_n addr (addr_len - tail_len) src;
      Def (RFC5444_OKAY, tail_len, addr, (s.1 + tail_len, s.2))
  else if negb (masked =? 0) then Def (RFC5444_BAD_MSG_TAILFLAGS, 0, addr, s)
  else Def (RFC5444_OKAY, 0, addr, s).

(** Prefix lengths: the error, or the single length and the list of lengths. *)
Definition parse_addr_prefix (buf : bytes) (flags addr_len num_addr : Z) (s : cursor)
    : outcome (rfc5444_result * Z * option Z * cursor) :=
  let masked := flags .& (RFC5444_ADDR_FLAG_SINGLEPLEN .| RFC5444_ADDR_FLAG_MULTIPLEN) in
  if masked =? 0 then Def (RFC5444_OKAY, u8 (addr_len * 8), None, s)
  else if masked =? RFC5444_ADDR_FLAG_SINGLEPLEN then
    n ← at_site UB_prefix_length (rd buf s.1); Def (RFC5444_OKAY, n, None, (s.1 + 1, s.2))
  else if masked =? RFC5444_ADDR_FLAG_MULTIPLEN then
    Def (RFC5444_OKAY, 0, Some s.1, (s.1 + num_addr, s.2))
  else Def (RFC5444_BAD_MSG_PREFIXFLAGS, 0, None, s).

(** On an error the entry is freed by the caller, so that only the error and
    the position matter. *)
Definition _parse_addrblock (buf : bytes) (ptr eob addr_len : Z)
    : outcome (rfc5444_result * addrblock_entry * Z) :=
  let start := ptr in
  let err r s := Def (r, clear_addrblock start, s.1) in
  '(num_addr, s) ← _rfc5444_get_u8 buf eob (ptr, RFC5444_OKAY);
  if num_addr =? 0 then err RFC5444_EMPTY_ADDRBLOCK s
  else
    '(flags, s) ← _rfc5444_get_u8 buf eob s;
    '(r, mid_start, addr, s) ← parse_addr_head buf flags addr_len s eob;
    if negb (r =? RFC5444_OKAY) then err r s
    else
      let mid_len := u8 (addr_len - mid_start) in
      '(r, tail, addr, s) ← parse_addr_tail buf flags addr_len addr s eob;
      if negb (r =? RFC5444_OKAY) then err r s
      else
        let mid_len := u8 (mid_len - tail) in
        let mid_src := s.1 in
        let s := (s.1 + mid_len * num_addr, s.2) in
        if eob <? s.1 then err RFC5444_END_OF_BUFFER s
        else
          '(r, prefixlen, prefixes, s) ← parse_addr_prefix buf flags addr_len num_addr s;
          if negb (r =? RFC5444_OKAY) then err r s
          else if eob <? s.1 then err RFC5444_END_OF_BUFFER s
          else
            Def (s.2, {| tlvblock := []; num_addr := num_addr; mid_start := mid_start; mid_len := mid_len;
              prefixes := prefixes; mid_src := mid_src; addr_octets := addr; prefixlen := prefixlen;
              addr_block_ptr := start; addr_block_size := s.1 - start; addr_tlv_size := 0;
              dropAddr := bitmap256_empty |}, s.1).
End parser.

#[export] Instance avl_comp_uint16_comparator : Comparator avl_comp_uint16.
Proof.
  unfold avl_comp_uint16. split; intros *;
    repeat match goal with |- context [?a <? ?b] => destruct (Z.ltb_spec a b) end; lia.
Qed.

(** ** What the cursor does *)

(** From [s] to [s'] in at most [n] octets below [end_]; without an error
    exactly [n]. *)
Definition advances (end_ n : Z) (s s' : cursor) : Prop :=
  s.1 <= s'.1 <= s.1 + n /\ (s'.1 <= end_ \/ s'.1 = s.1) /\
  (s'.2 = RFC5444_OKAY -> s.2 = RFC5444_OKAY /\ s'.1 = s.1 + n) /\
  (s.2 <= 0 -> s'.2 <= 0).

Lemma advances_refl end_ s : advances end_ 0 s s.
Proof. unfold advances. lia. Qed.

Lemma advances_trans end_ n1 n2 s1 s2 s3 :
  advances end_ n1 s1 s2 -> advances end_ n2 s2 s3 -> advances end_ (n1 + n2) s1 s3.
Proof. unfold advances. lia. Qed.

(** An octet that was read without an error. *)
Lemma get_u8_read buf end_ s x s' : _rfc5444_get_u8 buf end_ s = Def (x, s') -> s'.2 = RFC5444_OKAY -> rd buf s.1 = Def x.
Proof.
  destruct s as [ptr error]. unfold _rfc5444_get_u8. destruct (Z.eqb_spec error RFC5444_OKAY) as [->|He]; simpl.
  - destruct (end_ <=? ptr); [by intros [= <- <-]|]. destruct (rd buf ptr) as [y|]; [|done]. simpl. by intros [= <- <-].
  - intros [= <- <-] E. by destruct He.
Qed.

Section cursor_lemmas.
Context (buf : bytes) (end_ : Z) (Hbuf : octets buf) (Hend : end_ <= blen buf).

Lemma get_u8_spec s : 0 <= s.1 -> exists x s', _rfc5444_get_u8 buf end_ s = Def (x, s') /\
  is_u8 x /\ advances end_ 1 s s'.
Proof.
  destruct s as [ptr error]. simpl. intros Hp. unfold _rfc5444_get_u8, advances, is_u8.
  destruct (Z.eqb_spec error RFC5444_OKAY) as [->|He]; simpl.
  - destruct (Z.leb_spec end_ ptr).
    + eexists _, _. split; [done|]. unfold RFC5444_END_OF_BUFFER, RFC5444_OKAY in *. simpl. lia.
    + destruct (rd_inside buf ptr) as (x & E & _); [lia|]. rewrite E. simpl. eexists _, _. split; [done|].
      pose proof (rd_octet _ _ _ Hbuf E) as Hx. unfold is_u8 in Hx. simpl. lia.
  - eexists _, _. split; [done|]. simpl. lia.
Qed.

Lemma get_u16_spec s : 0 <= s.1 -> exists x s', _rfc5444_get_u16 buf end_ s = Def (x, s') /\
  0 <= x < 65536 /\ advances end_ 2 s s'.
Proof.
  intros Hp. unfold _rfc5444_get_u16.
  destruct (get_u8_spec s Hp) as (hi & s1 & -> & Hhi & H1). simpl.
  assert (0 <= s1.1) as Hp1 by (unfold advances in H1; lia).
  destruct (get_u8_spec s1 Hp1) as (lo & s2 & -> & Hlo & H2). simpl. eexists _, _. split; [done|].
  split; [|exact (advances_trans _ 1 1 _ _ _ H1 H2)].
  rewrite octet_word by done. unfold is_u8 in *. lia.
Qed.
End cursor_lemmas.

(** ** TLVs stay inside the buffer *)

(** A parsed TLV: its fields are octets, the indices are inside the address
    block (if there is one), its values lie in the buffer. *)
Record tlv_ok (eob addr_count : Z) (e : tlvblock_entry) : Prop := {
  tlv_type : is_u8 (type e) /\ is_u8 (type_ext e) /\ is_u8 (flags e);
  tlv_order : _order e = 256 * type e + type_ext e;
  tlv_index : is_u8 (index1 e) /\ is_u8 (index2 e) /\
    (0 < addr_count -> index1 e < addr_count /\ index2 e < addr_count);
  tlv_length : 0 <= length_ e < 65536;
  tlv_empty : length_ e = 0 -> _value e = None;
  tlv_value : 0 < length_ e -> exists v, _value e = Some v /\ 0 <= v /\
    if _multivalue_tlv e
    then let count := u8 (index2 e - index1 e + 1) in 1 < count /\ v + length_ e * count <= eob
    else single_value e = Some v /\ v + length_ e <= eob;
}.

Lemma order_eq t x : is_u8 t -> is_u8 x -> _calc_tlvblock_intorder t x = 256 * t + x.
Proof. apply octet_word. Qed.

(** What is known when the header fields are read and [ptr] is at the value. *)
Record header_ok (addr_count : Z) (e : tlvblock_entry) : Prop := {
  hdr_type : is_u8 (type e) /\ is_u8 (type_ext e) /\ is_u8 (flags e);
  hdr_order : _order e = 256 * type e + type_ext e;
  hdr_index : is_u8 (index1 e) /\ is_u8 (index2 e) /\
    (0 < addr_count -> index1 e < addr_count /\ index2 e < addr_count);
  hdr_length : 0 <= length_ e < 65536;
}.

(** A multi-value TLV at [ptr] for no address at all: without an index in a
    block without addresses, or the number of addresses from the first to the
    last index is 0 in eight bits. *)
Definition empty_multivalue (buf : bytes) (ptr addr_count : Z) : Prop :=
  exists fl, rd buf (ptr + 1) = Def fl /\ fl .& RFC5444_TLV_FLAG_MULTIVALUE <> 0 /\
    let indexed := fl .& (RFC5444_TLV_FLAG_SINGLE_IDX .| RFC5444_TLV_FLAG_MULTI_IDX) in
    let p := if fl .& RFC5444_TLV_FLAG_TYPEEXT =? 0 then ptr + 2 else ptr + 3 in
    (indexed = 0 /\ addr_count = 0 \/
     indexed = RFC5444_TLV_FLAG_MULTI_IDX /\ exists i1 i2, rd buf p = Def i1 /\ rd buf (p + 1) = Def i2 /\ u8 (i2 - i1 + 1) = 0).

(** The outcome of [_parse_tlv] that started at [ptr]; [stuck] is what a
    division by zero tells. *)
Definition parsed_tlv (stuck : Prop) (ptr eob addr_count : Z) (o : outcome (rfc5444_result * tlvblock_entry * Z)) : Prop :=
  o = Undef UB_div_zero /\ stuck \/
  exists r e p, o = Def (r, e, p) /\ r <= 0 /\
    (r = RFC5444_OKAY -> ptr + 2 <= p <= eob /\ tlv_ok eob addr_count e).

Lemma parse_tlv_value_spec (stuck : Prop) e start ptr eob addr_count result : header_ok addr_count e ->
  0 <= ptr -> result <= 0 -> (result = RFC5444_OKAY -> start + 2 <= ptr) ->
  (result = RFC5444_OKAY -> _multivalue_tlv e = true -> u8 (index2 e - index1 e + 1) = 0 -> stuck) ->
  parsed_tlv stuck start eob addr_count (parse_tlv_value e ptr eob result).
Proof.
  intros [Ht Ho Hi Hl] Hp Hr Hstart Hstuck. unfold parse_tlv_value, parsed_tlv, RFC5444_OKAY in *.
  destruct (Z.ltb_spec eob (ptr + length_ e)) as [|Hfit]; [right; eexists _, _, _; split; [done|]; done|].
  destruct (Z.eqb_spec result 0) as [->|]; cbn [negb]; [|right; eexists _, _, _; split; [done|]; done].
  specialize (Hstart eq_refl). specialize (Hstuck eq_refl).
  destruct (Z.eqb_spec (length_ e) 0) as [E0|E0].
  { right. eexists _, _, _. split; [done|]. split; [done|]. intros _. split; [lia|].
    split; simpl; try done; lia. }
  set (count := u8 _). pose proof (u8_range (index2 e - index1 e + 1)) as Hc. fold count in Hc.
  destruct (Z.eqb_spec count 1) as [E1|E1]; simpl.
  { right. eexists _, _, _. split; [done|]. split; [done|]. intros _. split; [lia|].
    split; simpl; try done. intros _. exists ptr. by split_and!. }
  destruct (_multivalue_tlv e) eqn:Em; simpl.
  - destruct (Z.eqb_spec count 0) as [Ec|Ec]; [left; split; [done|by apply Hstuck]|]. right.
    destruct (Z.eqb_spec (length_ e mod count) 0) as [Emod|Emod]; simpl;
      [|eexists _, _, _; split; [done|]; done].
    eexists _, _, _. split; [done|]. split; [done|]. intros _. split; [lia|].
    apply Z.mod_divide in Emod as [q Eq]; [|lia]. assert (length_ e / count = q) as Ediv by (rewrite Eq; apply Z.div_mul; lia).
    split; simpl; rewrite ?Ediv, ?Em; try done; [nia|intros ->; lia|].
    intros _. exists ptr. fold count. split_and!; [done|lia..].
  - right. eexists _, _, _. split; [done|]. split; [done|]. intros _. split; [lia|].
    split; simpl; rewrite ?Em; try done. intros _. exists ptr. by split_and!.
Qed.

(** Advancing by some amount, however many optional fields there are. *)
Definition moves (end_ : Z) (s s' : cursor) : Prop := exists n, 0 <= n /\ advances end_ n s s'.

Lemma moves_refl end_ s : moves end_ s s.
Proof. exists 0. split; [lia|apply advances_refl]. Qed.

Lemma advances_moves end_ n s s' : 0 <= n -> advances end_ n s s' -> moves end_ s s'.
Proof. by exists n. Qed.

Lemma moves_trans end_ s1 s2 s3 : moves end_ s1 s2 -> moves end_ s2 s3 -> moves end_ s1 s3.
Proof. intros (n1 & ? & ?) (n2 & ? & ?). exists (n1 + n2). split; [lia|by eapply advances_trans]. Qed.

Lemma moves_nonneg end_ s s' : 0 <= s.1 -> moves end_ s s' -> 0 <= s'.1.
Proof. intros ? (n & ? & ?). unfold advances in *. lia. Qed.

Section tlv_proofs.
Context (buf : bytes) (Hbuf : octets buf) (eob : Z) (Heob : eob <= blen buf).

Lemma parse_tlv_spec e ptr addr_count : 0 <= ptr -> is_u8 addr_count ->
  parsed_tlv (empty_multivalue buf ptr addr_count) ptr eob addr_count (_parse_tlv buf e ptr eob addr_count).
Proof.
  intros Hp Hcount. unfold _parse_tlv.
  destruct (get_u8_spec buf eob Hbuf Heob (ptr, RFC5444_OKAY)) as (t & s1 & -> & Ht & H1); [done|]. simpl.
  destruct (get_u8_spec buf eob Hbuf Heob s1) as (fl & s2 & E2 & Hfl & H2); [unfold advances in H1; simpl in *; lia|]. rewrite E2. simpl.
  assert (s2.2 = RFC5444_OKAY -> rd buf (ptr + 1) = Def fl) as Rfl.
  { intros Hok. rewrite <- (get_u8_read _ _ _ _ _ E2 Hok). f_equal. unfold advances in H1, H2. simpl in H1. lia. }
  pose proof (advances_trans _ _ _ _ _ _ H1 H2) as H12. simpl in H12. clear H1 H2.
  assert (0 <= s2.1) as Hp2 by (unfold advances in H12; simpl in *; lia).
  match goal with |- context [(if ?c then _rfc5444_get_u8 buf eob s2 else Def (0, s2))] =>
    assert (exists x s3, (if c then _rfc5444_get_u8 buf eob s2 else Def (0, s2)) = Def (x, s3) /\ is_u8 x /\ moves eob s2 s3 /\
      (s3.2 = RFC5444_OKAY -> s3.1 = if fl .& RFC5444_TLV_FLAG_TYPEEXT =? 0 then s2.1 else s2.1 + 1))
      as (x & s3 & -> & Hx & H3 & P3) end.
  { destruct (fl .& RFC5444_TLV_FLAG_TYPEEXT =? 0); simpl; [exists 0, s2; split; [done|]; split; [unfold is_u8; lia|split; [apply moves_refl|done]]|].
    destruct (get_u8_spec buf eob Hbuf Heob s2 Hp2) as (x & s3 & E & ? & Ha). exists x, s3. split; [done|]. split; [done|].
    split; [by eapply advances_moves; [|done]; lia|]. intros Hok. unfold advances in Ha. lia. }
  simpl. pose proof (moves_nonneg _ _ _ Hp2 H3) as Hp3.
  set (indexed := fl .& (RFC5444_TLV_FLAG_SINGLE_IDX .| RFC5444_TLV_FLAG_MULTI_IDX)).
  match goal with |- parsed_tlv _ _ _ _ (?m ≫= _) =>
    assert (exists o s4, m = Def (o, s4) /\ moves eob s3 s4 /\
      match o with Some (i1, i2) => is_u8 i1 /\ is_u8 i2 /\ (s4.2 = RFC5444_OKAY -> u8 (i2 - i1 + 1) = 0 ->
        indexed = 0 /\ addr_count = 0 \/ indexed = RFC5444_TLV_FLAG_MULTI_IDX /\ rd buf s3.1 = Def i1 /\ rd buf (s3.1 + 1) = Def i2)
      | None => True end) as (o & s4 & -> & H4 & Ho) end.
  { destruct (Z.eqb_spec indexed 0) as [Ei|_]; [|destruct (indexed =? RFC5444_TLV_FLAG_SINGLE_IDX); [|destruct (Z.eqb_spec indexed RFC5444_TLV_FLAG_MULTI_IDX) as [Ei|_]]].
    - eexists _, _. split; [done|]. split; [apply moves_refl|]. split; [unfold is_u8; lia|split; [apply u8_range|]].
      intros _ Hz. left. split; [done|]. unfold is_u8 in Hcount. unfold u8, wrap in Hz. Z.to_euclidean_division_equations; lia.
    - destruct (get_u8_spec buf eob Hbuf Heob s3 Hp3) as (i & s4 & -> & ? & ?). simpl. eexists _, _. split; [done|].
      split; [by eapply advances_moves; [|done]; lia|]. split; [done|]. split; [done|]. intros _. by rewrite Z.sub_diag.
    - destruct (get_u8_spec buf eob Hbuf Heob s3 Hp3) as (i & s4 & E4 & ? & Ha). rewrite E4. simpl.
      assert (0 <= s4.1) as Hp4 by (unfold advances in Ha; lia).
      destruct (get_u8_spec buf eob Hbuf Heob s4 Hp4) as (j & s5 & E5 & ? & Hb). rewrite E5. simpl. eexists _, _. split; [done|].
      split; [eapply (advances_moves _ 2); [lia|exact (advances_trans _ 1 1 _ _ _ Ha Hb)]|]. split; [done|]. split; [done|].
      intros Hok _. right. unfold advances in Ha, Hb. split; [done|]. split; [eapply get_u8_read; [exact E4|lia]|].
      rewrite <- (get_u8_read _ _ _ _ _ E5 Hok). f_equal. lia.
    - eexists _, _. split; [done|]. split; [apply moves_refl|done]. }
  simpl. pose proof (moves_nonneg _ _ _ Hp3 H4) as Hp4.
  destruct o as [[i1 i2]|]; [|right; eexists _, _, _; split; [done|]; done].
  destruct (_ && _) eqn:Ei; [right; eexists _, _, _; split; [done|]; done|].
  match goal with |- parsed_tlv _ _ _ _ (?m ≫= _) =>
    assert (exists o s5, m = Def (o, s5) /\ moves eob s4 s5 /\
      match o with Some n => 0 <= n < 65536 | None => True end) as (o & s5 & -> & H5 & Hn) end.
  { clear P3 Ho. repeat case_match.
    - eexists _, _. split; [done|]. split; [apply moves_refl|lia].
    - destruct (get_u8_spec buf eob Hbuf Heob s4 Hp4) as (i & s5 & -> & Hi & ?). simpl. eexists _, _. split; [done|].
      split; [by eapply advances_moves; [|done]; lia|unfold is_u8 in Hi; lia].
    - destruct (get_u16_spec buf eob Hbuf Heob s4 Hp4) as (i & s5 & -> & ? & ?). simpl. eexists _, _. split; [done|].
      split; [by eapply advances_moves; [|done]; lia|done].
    - eexists _, _. split; [done|]. split; [apply moves_refl|done]. }
  simpl. destruct o as [n|]; [|right; eexists _, _, _; split; [done|]; done].
  pose proof (moves_trans _ _ _ _ (moves_trans _ _ _ _ H3 H4) H5) as (k & Hk & Hadv).
  pose proof (advances_trans _ _ _ _ _ _ H12 Hadv) as Hall. unfold advances, RFC5444_OKAY in Hall. simpl in Hall.
  destruct Ho as (Hi1 & Hi2 & Hrange). apply parse_tlv_value_spec; [|lia|lia|unfold RFC5444_OKAY; lia|].
  2: { unfold moves, advances, RFC5444_OKAY in H3, H4, H5. simpl. intros Hok Hm Hz. destruct H3 as (? & _ & H3), H4 as (? & _ & H4), H5 as (? & _ & H5).
    unfold RFC5444_OKAY in *. specialize (Rfl ltac:(lia)). specialize (P3 ltac:(lia)). exists fl. split; [done|].
    split; [by apply negb_true_iff, Z.eqb_neq in Hm|]. fold indexed. cbv zeta. replace (if _ =? 0 then ptr + 2 else ptr + 3) with (s3.1).
    - destruct (Hrange ltac:(lia) Hz) as [?|(? & ? & ?)]; [by left|right]. split; [done|]. by exists i1, i2.
    - rewrite P3. unfold advances, RFC5444_OKAY in H12. simpl in H12. destruct (_ =? 0); lia. }
  split; simpl; try done; [by apply order_eq|]. split; [done|]. split; [done|].
  intros Hpos. apply andb_false_iff in Ei as [Ei%Z.ltb_ge|Ei]; [lia|].
  apply orb_false_iff in Ei as [?%Z.leb_gt ?%Z.leb_gt]. lia.
Qed.

(** ** TLV blocks *)

(** What a parsed block promises: in type order, every TLV inside the buffer,
    and one live object for each. *)
Definition block_ok (addr_count : Z) (block : list tlvblock_entry) : Prop :=
  tree_sorted _order avl_comp_uint16 block /\ Forall (tlv_ok eob addr_count) block /\ NoDup (tlv_id <$> block).

Lemma with_id_ok addr_count id e : tlv_ok eob addr_count e -> tlv_ok eob addr_count (with_id id e).
Proof. intros []. by split. Qed.

Context (malloc_ok : nat -> bool).

Lemma parse_tlvs_spec fuel e block ptr end_ addr_count h : 0 <= ptr -> is_u8 addr_count -> end_ <= eob ->
  end_ - ptr <= Z.of_nat fuel -> block_ok addr_count block -> Forall (fun e => (tlv_id e < calls h)%nat) block ->
  (parse_tlvs malloc_ok fuel buf e block ptr end_ eob addr_count h = Undef UB_div_zero /\
    exists q, ptr <= q < end_ /\ empty_multivalue buf q addr_count) \/
  exists r block' p h', parse_tlvs malloc_ok fuel buf e block ptr end_ eob addr_count h = Def (r, block', p, h') /\
    r <= 0 /\ tlv_live h' - Z.of_nat (length block') = tlv_live h - Z.of_nat (length block) /\
    addr_live h' = addr_live h /\
    (r = RFC5444_OKAY -> ptr <= p /\ end_ <= p /\ (p <= eob \/ p = ptr) /\ block_ok addr_count block').
Proof.
  revert e block ptr h. induction fuel as [|fuel IH]; intros e block ptr h Hp Hc He Hf Hb Hnew; simpl;
    (destruct (Z.leb_spec end_ ptr) as [Hdone|Hmore]; [right; eexists _, _, _, _; split; [done|]; unfold RFC5444_OKAY; split_and!; try done;
       intros _; split_and!; (done || lia)|]); [lia|].
  destruct (parse_tlv_spec e ptr addr_count Hp Hc) as [[-> Hz]|(r & e1 & p & -> & Hr & Hok)]; [left; split; [done|]; exists ptr; by split; [lia|]|]. simpl.
  destruct (Z.eqb_spec r RFC5444_OKAY) as [->|Hne]; simpl; [|by right; eexists _, _, _, _].
  destruct (Hok eq_refl) as [Hp1 Ht]. unfold malloc_tlvblock_entry.
  destruct (malloc_ok (calls h)); simpl; [|by right; eexists _, _, _, _].
  set (block1 := tree_insert_dup _ _ _ _). set (h1 := {| calls := _; tlv_live := _; addr_live := _ |}).
  assert (length block1 = S (length block)) as El by apply tree_insert_dup_length.
  assert (block_ok addr_count block1) as Hb1.
  { split; [by apply tree_insert_dup_sorted; [apply _|apply Hb]|]. unfold block1. rewrite tree_insert_dup_perm.
    split; [constructor; [by apply with_id_ok|apply Hb]|]. simpl. apply NoDup_cons. split; [|apply Hb].
    intros (x & Ex & Hx)%list_elem_of_fmap. rewrite Forall_forall in Hnew. specialize (Hnew x Hx). lia. }
  assert (Forall (fun e => (tlv_id e < calls h1)%nat) block1) as Hnew1.
  { unfold block1. rewrite tree_insert_dup_perm. constructor; [simpl; lia|]. eapply Forall_impl; [exact Hnew|].
    simpl. lia. }
  destruct (IH e1 block1 p h1) as [[E (q & Hq & Hz)]|(r' & b' & p' & h' & E & ? & Hl & ? & Hok')]; try done; try lia; [left; split; [done|]; exists q; by split; [lia|]|right].
  rewrite E. eexists _, _, _, _. split; [done|]. split; [done|]. simpl in Hl. split; [lia|]. split; [done|].
  intros Hr'. destruct (Hok' Hr') as (? & ? & ? & ?). split_and!; try done; lia.
Qed.

Lemma parse_tlvblock_spec ptr addr_count h : 0 <= ptr -> is_u8 addr_count ->
  (_parse_tlvblock malloc_ok buf ptr eob addr_count h = Undef UB_div_zero /\
    exists q, ptr <= q < eob /\ empty_multivalue buf q addr_count) \/
  exists r block p h', _parse_tlvblock malloc_ok buf ptr eob addr_count h = Def (r, block, p, h') /\
    addr_live h' = addr_live h /\ tlv_live h' = tlv_live h + Z.of_nat (length block) /\
    (r = RFC5444_OKAY /\ ptr + 2 <= p <= eob /\ block_ok addr_count block \/
     r < 0 /\ p = eob /\ block = []).
Proof.
  intros Hp Hc. unfold _parse_tlvblock.
  destruct (get_u16_spec buf eob Hbuf Heob (ptr, RFC5444_OKAY)) as (n & [p1 r1] & -> & Hn & Ha); [done|].
  unfold advances, RFC5444_OKAY in Ha. simpl in Ha |- *.
  destruct (Z.ltb_spec eob (ptr + 2 + n)) as [Hbig|Hfit]; simpl.
  { right. eexists _, _, _, _. split; [done|]. simpl. split_and!; [done|lia|right]. by unfold RFC5444_END_OF_BUFFER. }
  assert (block_ok addr_count []) as Hnil by (split_and!; constructor).
  destruct (parse_tlvs_spec (Z.to_nat (ptr + 2 + n - p1)) clear_entry [] p1 (ptr + 2 + n) addr_count h)
    as [[-> (q & Hq & Hz)]|(r & b & p & h' & -> & Hr & Hl & Hal & Hok)]; try done; try lia; [left; split; [done|]; exists q; by split; [lia|]|right]. simpl in Hl |- *.
  destruct (Z.eqb_spec r RFC5444_OKAY) as [->|Hne]; simpl.
  - destruct (Hok eq_refl) as (? & ? & ? & Hb). eexists _, _, _, _. split; [done|].
    split_and!; [done|lia|left]. split_and!; [done|lia|lia|done].
  - eexists _, _, _, _. split; [done|]. simpl. split_and!; [done|lia|right].
    unfold RFC5444_OKAY in *. split_and!; [lia|done|done].
Qed.

(** C34: parsing the TLV block of a packet, message or address block reads only
    inside the buffer, whatever the octets and whichever allocations fail, and
    terminates.  On success the TLVs are ordered by type, every value lies in
    the buffer, indices are inside the address block, the cursor is behind the
    block and each TLV is one live object; on an error the cursor is at the end
    and nothing stays allocated.  The one exception is a multi-value TLV in the
    block for no address at all (no index in a block without addresses, or a
    last index one below the first one): there the code may divide by zero. *)
Theorem parse_tlvblock_safe ptr addr_count h : 0 <= ptr -> is_u8 addr_count ->
  (_parse_tlvblock malloc_ok buf ptr eob addr_count h = Undef UB_div_zero /\
    exists q, ptr <= q < eob /\ empty_multivalue buf q addr_count) \/
  exists r block p h', _parse_tlvblock malloc_ok buf ptr eob addr_count h = Def (r, block, p, h') /\
    addr_live h' = addr_live h /\ tlv_live h' = tlv_live h + Z.of_nat (length block) /\
    (r = RFC5444_OKAY /\ ptr + 2 <= p <= eob /\ block_ok addr_count block \/
     r < 0 /\ p = eob /\ block = []).
Proof. apply parse_tlvblock_spec. Qed.
End tlv_proofs.

(** ** Address blocks *)

(** A parsed address block of [p - ptr] octets. *)
Record addrblock_ok (ptr eob addr_len p : Z) (a : addrblock_entry) : Prop := {
  ab_num : 1 <= num_addr a < 256;
  ab_head : 0 <= mid_start a < addr_len;
  ab_mid : exists tail, 0 <= tail < 256 /\ mid_len a = u8 (addr_len - mid_start a - tail);
  ab_src : ptr <= mid_src a /\ mid_src a + mid_len a * num_addr a <= eob;
  ab_prefixes q : prefixes a = Some q -> 0 <= q /\ q + num_addr a <= eob;
  ab_addr : length (addr_octets a) = 16%nat;
  ab_size : addr_block_ptr a = ptr /\ addr_block_size a = p - ptr;
  ab_fresh : tlvblock a = [] /\ dropAddr a = bitmap256_empty;
}.

Section addrblock_proofs.
Context (buf : bytes) (Hbuf : octets buf) (eob : Z) (Heob : eob <= blen buf).

Lemma copy_octets a p q n : length a = 16%nat -> 0 <= p -> 0 <= n -> p + n <= eob -> 0 <= q -> q + n <= 16 ->
  exists src a', rd_n buf p n = Def src /\ wr_n a q src = Def a' /\ length a' = 16%nat.
Proof.
  intros Ha Hp Hn Hfit Hq Hq'. destruct (rd_n_inside buf p n) as (src & E & Hsrc); [lia..|].
  destruct (wr_n_inside a q src) as (a' & E' & Ha'); [lia|unfold blen in *; lia|].
  exists src, a'. split; [done|]. split; [done|]. unfold blen in *. lia.
Qed.

Lemma parse_addr_head_spec fl addr_len s : 0 <= s.1 -> s.2 <= 0 -> 1 <= addr_len <= 16 ->
  exists r ms a s', parse_addr_head buf fl addr_len s eob = Def (r, ms, a, s') /\ r <= 0 /\
    (r = RFC5444_OKAY -> moves eob s s' /\ 0 <= ms < addr_len /\ length a = 16%nat).
Proof.
  intros Hp He Hl. unfold parse_addr_head, RFC5444_MAX_ADDRLEN. destruct (negb _).
  - destruct (get_u8_spec buf eob Hbuf Heob s Hp) as (ms & s1 & -> & Hms & Ha). simpl. unfold is_u8 in Hms.
    destruct (Z.ltb_spec ms 1); [by eexists _, _, _, _|]. destruct (Z.leb_spec 16 ms); [by eexists _, _, _, _|].
    destruct (Z.leb_spec addr_len ms); [by eexists _, _, _, _|]. simpl.
    destruct (Z.ltb_spec eob (s1.1 + ms)); [by eexists _, _, _, _|].
    assert (0 <= s1.1) by (unfold advances in Ha; lia).
    destruct (copy_octets (zeros 16) s1.1 0 ms) as (src & a' & -> & E & Hlen); [done|lia..|]. simpl. rewrite E. simpl.
    eexists _, _, _, _. split; [done|]. split; [done|]. intros _. split; [|split; [lia|done]].
    exists (1 + ms). split; [lia|]. unfold advances in *. simpl. lia.
  - eexists _, _, _, _. split; [done|]. split; [done|]. intros _. split; [apply moves_refl|]. split; [lia|done].
Qed.

Lemma parse_addr_tail_spec fl addr_len a s : 0 <= s.1 -> s.2 <= 0 -> 1 <= addr_len <= 16 -> length a = 16%nat ->
  exists r n a' s', parse_addr_tail buf fl addr_len a s eob = Def (r, n, a', s') /\ r <= 0 /\
    (r = RFC5444_OKAY -> moves eob s s' /\ 0 <= n < 256 /\ length a' = 16%nat).
Proof.
  intros Hp He Hl Hlen. unfold parse_addr_tail, RFC5444_MAX_ADDRLEN. cbv zeta.
  destruct (_ =? RFC5444_ADDR_FLAG_ZEROTAIL).
  { destruct (get_u8_spec buf eob Hbuf Heob s Hp) as (n & s1 & -> & Hn & Ha). simpl. eexists _, _, _, _. split; [done|].
    split; [done|]. intros _. split; [by eapply advances_moves; [|done]; lia|]. done. }
  destruct (_ =? RFC5444_ADDR_FLAG_FULLTAIL).
  - destruct (get_u8_spec buf eob Hbuf Heob s Hp) as (n & s1 & -> & Hn & Ha). simpl. unfold is_u8 in Hn.
    destruct (Z.ltb_spec n 1); [by eexists _, _, _, _|]. destruct (Z.leb_spec 16 n); [by eexists _, _, _, _|].
    destruct (Z.leb_spec addr_len n); [by eexists _, _, _, _|]. simpl.
    destruct (Z.ltb_spec eob (s1.1 + n)); [by eexists _, _, _, _|].
    assert (0 <= s1.1) by (unfold advances in Ha; lia).
    destruct (copy_octets a s1.1 (addr_len - n) n) as (src & a' & -> & E & Hlen'); [done|lia..|]. simpl. rewrite E. simpl.
    eexists _, _, _, _. split; [done|]. split; [done|]. intros _. split; [|split; [lia|done]].
    exists (1 + n). split; [lia|]. unfold advances in *. simpl. lia.
  - destruct (negb _); [by eexists _, _, _, _|]. eexists _, _, _, _. split; [done|]. split; [done|].
    intros _. split; [apply moves_refl|]. split; [lia|done].
Qed.

Lemma parse_addr_prefix_spec fl addr_len num s : 0 <= s.1 <= eob -> 0 <= num ->
  (parse_addr_prefix buf fl addr_len num s = Undef UB_prefix_length /\ s.1 = blen buf) \/
  exists r n q s', parse_addr_prefix buf fl addr_len num s = Def (r, n, q, s') /\ r <= 0 /\
    s.1 <= s'.1 /\ s'.2 = s.2 /\ (forall p, q = Some p -> p = s.1 /\ s'.1 = p + num).
Proof.
  intros Hp Hn. unfold parse_addr_prefix. cbv zeta. destruct (_ =? 0).
  { right. eexists _, _, _, _. split; [done|]. split; [done|]. split; [lia|]. by split. }
  destruct (_ =? RFC5444_ADDR_FLAG_SINGLEPLEN).
  - destruct (Z.lt_ge_cases s.1 (blen buf)) as [Hin|Hout].
    + destruct (rd_inside buf s.1) as (x & -> & _); [lia|]. simpl. right.
      eexists _, _, _, _. split; [done|]. split; [done|]. split; [simpl; lia|]. by split.
    + left. split; [|lia]. unfold rd. destruct (Z.ltb_spec s.1 0); [done|].
      rewrite lookup_ge_None_2; [done|]. unfold blen in Hout. lia.
  - destruct (_ =? RFC5444_ADDR_FLAG_MULTIPLEN); [|by right; eexists _, _, _, _].
    right. eexists _, _, _, _. split; [done|]. split; [done|]. simpl. split; [lia|]. split; [done|]. by intros p [= <-].
Qed.

Lemma parse_addrblock_spec ptr addr_len : 0 <= ptr -> 1 <= addr_len <= 16 ->
  (_parse_addrblock buf ptr eob addr_len = Undef UB_prefix_length /\ eob = blen buf) \/
  exists r a p, _parse_addrblock buf ptr eob addr_len = Def (r, a, p) /\ r <= 0 /\
    (r = RFC5444_OKAY -> ptr + 2 <= p <= eob /\ addrblock_ok ptr eob addr_len p a).
Proof.
  intros Hp Hl. unfold _parse_addrblock. cbv zeta.
  destruct (get_u8_spec buf eob Hbuf Heob (ptr, RFC5444_OKAY)) as (num & s1 & -> & Hnum & H1); [done|]. simpl.
  destruct (Z.eqb_spec num 0) as [|Hn0]; [by right; eexists _, _, _|].
  assert (0 <= s1.1 /\ s1.2 <= 0) as [Hp1 He1] by (unfold advances, RFC5444_OKAY in H1; simpl in H1; lia).
  destruct (get_u8_spec buf eob Hbuf Heob s1 Hp1) as (fl & s2 & -> & _ & H2). simpl.
  pose proof (advances_trans _ _ _ _ _ _ H1 H2) as H12. clear H1 H2.
  assert (0 <= s2.1 /\ s2.2 <= 0) as [Hp2 He2] by (unfold advances, RFC5444_OKAY in H12; simpl in H12; lia).
  destruct (parse_addr_head_spec fl addr_len s2 Hp2 He2 Hl) as (r3 & ms & a & s3 & -> & Hr3 & Hok3). simpl.
  destruct (Z.eqb_spec r3 RFC5444_OKAY) as [->|]; simpl; [|by right; eexists _, _, _].
  destruct (Hok3 eq_refl) as (Hm3 & Hms & Ha).
  assert (0 <= s3.1 /\ s3.2 <= 0) as [Hp3 He3] by (destruct Hm3 as (? & ? & Hm); unfold advances in Hm; lia).
  destruct (parse_addr_tail_spec fl addr_len a s3 Hp3 He3 Hl Ha) as (r4 & tail & a' & s4 & -> & Hr4 & Hok4). simpl.
  destruct (Z.eqb_spec r4 RFC5444_OKAY) as [->|]; simpl; [|by right; eexists _, _, _].
  destruct (Hok4 eq_refl) as (Hm4 & Htail & Ha').
  set (ml := u8 (u8 (addr_len - ms) - tail)).
  assert (0 <= ml < 256) as Hml by apply u8_range.
  assert (0 <= ml * num) by (unfold is_u8 in Hnum; nia).
  assert (0 <= s4.1 /\ s4.2 <= 0 /\ ptr <= s4.1 /\ (s4.2 = RFC5444_OKAY -> ptr + 2 <= s4.1)) as (Hp4 & He4 & Hge & Hok).
  { destruct (moves_trans _ _ _ _ Hm3 Hm4) as (k & ? & Hm). unfold advances, RFC5444_OKAY in *. simpl in *. lia. }
  destruct (Z.ltb_spec eob (s4.1 + ml * num)) as [|Hmid]; [right; eexists _, _, _; split; [done|]; done|].
  destruct (parse_addr_prefix_spec fl addr_len num (s4.1 + ml * num, s4.2)) as
    [[-> Hend]|(r5 & n & q & s5 & -> & Hr5 & Hge5 & He5 & Hq)]; [simpl; lia|unfold is_u8 in Hnum; lia|left; simpl in *; split; [done|lia]|].
  right. simpl in *. destruct (Z.eqb_spec r5 RFC5444_OKAY) as [->|]; simpl; [|by eexists _, _, _].
  destruct (Z.ltb_spec eob s5.1) as [|Hfit]; [by eexists _, _, _|].
  eexists _, _, _. split; [done|]. rewrite He5. split; [done|]. intros Hr. specialize (Hok Hr).
  split; [lia|]. unfold is_u8 in Hnum. split; simpl; try done; try lia.
  - exists tail. split; [done|]. unfold ml, u8, wrap. by rewrite Zminus_mod_idemp_l.
  - intros p Ep. destruct (Hq p Ep) as [-> E5]. lia.
Qed.

(** C35: parsing an address block keeps inside the buffer and its 16 octet
    array, whatever the octets: on success there is at least one address, the
    middle parts and the prefix lengths lie in the message, and the recorded
    size is what was consumed.  The one exception is a single prefix length
    announced behind the last octet of the whole buffer, which is read before
    the end is checked. *)
Theorem parse_addrblock_safe ptr addr_len : 0 <= ptr -> 1 <= addr_len <= 16 ->
  (_parse_addrblock buf ptr eob addr_len = Undef UB_prefix_length /\ eob = blen buf) \/
  exists r a p, _parse_addrblock buf ptr eob addr_len = Def (r, a, p) /\ r <= 0 /\
    (r = RFC5444_OKAY -> ptr + 2 <= p <= eob /\ addrblock_ok ptr eob addr_len p a).
Proof. apply parse_addrblock_spec. Qed.
End addrblock_proofs.

Lemma parse_addrblock_safe_witness :
  let buf := [2; 0x80; 3; 10; 0; 0; 1; 7] in
  (_parse_addrblock buf 0 8 4 = Undef UB_prefix_length /\ 8 = blen buf) \/
  exists r a p, _parse_addrblock buf 0 8 4 = Def (r, a, p) /\ r <= 0 /\
    (r = RFC5444_OKAY -> 0 + 2 <= p <= 8 /\ addrblock_ok 0 8 4 p a).
Proof.
  apply (parse_addrblock_safe [2; 0x80; 3; 10; 0; 0; 1; 7]); [|vm_compute; discriminate|lia|lia].
  repeat constructor; unfold is_u8; lia.
Defined.

Lemma parse_tlvblock_safe_witness :
  let buf := [0; 5; 7; 0x50; 1; 1; 99; 42] in
  (_parse_tlvblock (fun _ => true) buf 0 7 2 {| calls := 0; tlv_live := 0; addr_live := 0 |} = Undef UB_div_zero /\
    exists q, 0 <= q < 7 /\ empty_multivalue buf q 2) \/
  exists r block p h', _parse_tlvblock (fun _ => true) buf 0 7 2 {| calls := 0; tlv_live := 0; addr_live := 0 |} =
      Def (r, block, p, h') /\ addr_live h' = 0 /\ tlv_live h' = 0 + Z.of_nat (length block) /\
    (r = RFC5444_OKAY /\ 0 + 2 <= p <= 7 /\ block_ok 7 2 block \/ r < 0 /\ p = 7 /\ block = []).
Proof.
  apply (parse_tlvblock_safe [0; 5; 7; 0x50; 1; 1; 99; 42]); [|vm_compute; discriminate|lia|unfold is_u8; lia].
  repeat constructor; unfold is_u8; lia.
Defined.

Lemma get_u8_at buf end_ p x : p < end_ -> rd buf p = Def x ->
  _rfc5444_get_u8 buf end_ (p, RFC5444_OKAY) = Def (x, (p + 1, RFC5444_OKAY)).
Proof. intros Hp E. unfold _rfc5444_get_u8. destruct (Z.leb_spec end_ p); [lia|]. by rewrite E. Qed.

#[local] Opaque _rfc5444_get_u8.

(** a packet or message TLV with the multi-value flag but no index has
    [index1 = 0] and [index2 = addr_count - 1 = 255]; its value count
    [index2 - index1 + 1] is 0 in eight bits, and the reader divides by it. *)
Theorem multivalue_without_index_divides_by_zero malloc_ok t value h :
  is_u8 t -> 0 < blen value < 256 ->
  _parse_tlvblock malloc_ok ([0; 3 + blen value; t; RFC5444_TLV_FLAG_VALUE .| RFC5444_TLV_FLAG_MULTIVALUE; blen value] ++ value)
    0 (5 + blen value) 0 h = Undef UB_div_zero.
Proof.
  intros Ht Hlen. set (buf := _ ++ value). assert (blen buf = 5 + blen value) as Hb.
  { unfold buf, blen. rewrite length_app. simpl. lia. }
  assert (forall i x, buf !! i = Some x -> rd buf (Z.of_nat i) = Def x) as Hrd.
  { intros i x Hx. apply rd_at; [lia|]. by rewrite Nat2Z.id. }
  pose proof (Hrd 0%nat _ eq_refl) as R0. pose proof (Hrd 1%nat _ eq_refl) as R1. pose proof (Hrd 2%nat _ eq_refl) as R2.
  pose proof (Hrd 3%nat _ eq_refl) as R3. pose proof (Hrd 4%nat _ eq_refl) as R4.
  unfold _parse_tlvblock, _rfc5444_get_u16. rewrite (get_u8_at _ _ 0 0) by (lia || done). simpl.
  rewrite (get_u8_at _ _ 1 (3 + blen value)) by (lia || done). simpl.
  change (u16 0) with 0. change (0 + 2) with 2. change (1 + 1) with 2. rewrite Z.lor_0_l.
  destruct (Z.ltb_spec (5 + blen value) (2 + (3 + blen value))); [lia|].
  replace (Z.to_nat (2 + (3 + blen value) - 2)) with (S (Z.to_nat (2 + blen value))) by lia.
  simpl. destruct (Z.leb_spec (2 + (3 + blen value)) 2); [lia|].
  unfold _parse_tlv. rewrite (get_u8_at _ _ 2 t) by (lia || done). simpl.
  rewrite (get_u8_at _ _ 3 (RFC5444_TLV_FLAG_VALUE .| RFC5444_TLV_FLAG_MULTIVALUE)) by (lia || done). simpl. rewrite (get_u8_at _ _ 4 (blen value)) by (lia || done). simpl.
  unfold parse_tlv_value. simpl. destruct (Z.ltb_spec (5 + blen value) (4 + 1 + blen value)); [lia|].
  destruct (Z.eqb_spec (blen value) 0); [lia|]. done.
Qed.

Lemma multivalue_without_index_divides_by_zero_witness :
  _parse_tlvblock (fun _ => true) ([0; 3 + blen [42]; 1; RFC5444_TLV_FLAG_VALUE .| RFC5444_TLV_FLAG_MULTIVALUE; blen [42]] ++ [42])
    0 (5 + blen [42]) 0 {| calls := 0; tlv_live := 0; addr_live := 0 |} = Undef UB_div_zero.
Proof.
  apply (multivalue_without_index_divides_by_zero (fun _ => true) 1 [42]); unfold is_u8, blen; simpl; lia.
Defined.
