(* ===== verification/ReaderSchedule.v ===== *)
(** The scheduling half of src/librfc5444/rfc5444_reader.c: how a parsed TLV
    block is matched with the TLV descriptions of a consumer and which
    callbacks run. *)

From Stdlib Require Import ZArith Lia Sorted.
From stdpp Require Import base list numbers option gmap sets.
From S2P Require Import Prelude AvlSpec Netaddr Bitmap256 ReaderParse.

Local Open Scope Z_scope.
Local Open Scope cint_scope.

(** ** Contexts and consumers *)

Inductive context_type := RFC5444_CONTEXT_PACKET | RFC5444_CONTEXT_MESSAGE | RFC5444_CONTEXT_ADDRESS.

(** [struct rfc5444_reader_tlvblock_context], in the parts its comments name;
    the backpointers to reader and consumer are left out. *)
Record packet_context := {
  pkt_version : Z;
  pkt_flags : Z;
  has_pktseqno : bool;
  pkt_seqno : Z;
  pkt_size : Z;
}.

Record message_context := {
  msg_type : Z;
  msg_flags : Z;
  addr_len : Z;
  has_hopcount : bool;
  hopcount : Z;
  has_hoplimit : bool;
  hoplimit : Z;
  has_origaddr : bool;
  orig_addr : netaddr;
  has_seqno : bool;
  seqno : Z;
  msg_buffer : option Z;
  msg_size : Z;
  _do_not_forward : bool;
}.

Record address_context := {
  addr : netaddr;
  addr_block_buffer : option Z;
  ctx_addr_block_size : Z;
  ctx_addr_tlv_size : Z;
  addr_index : Z;
}.

Record context := {
  ctx_type : context_type;
  ctx_packet : packet_context;
  ctx_message : message_context;
  ctx_address : address_context;
}.

Definition set_ctx_type (t : context_type) (c : context) : context :=
  {| ctx_type := t; ctx_packet := ctx_packet c; ctx_message := ctx_message c; ctx_address := ctx_address c |}.
Definition set_ctx_message (m : message_context) (c : context) : context :=
  {| ctx_type := ctx_type c; ctx_packet := ctx_packet c; ctx_message := m; ctx_address := ctx_address c |}.
Definition set_ctx_address (a : address_context) (c : context) : context :=
  {| ctx_type := ctx_type c; ctx_packet := ctx_packet c; ctx_message := ctx_message c; ctx_address := a |}.

(** [rfc5444_reader_prevent_forwarding] *)
Definition rfc5444_reader_prevent_forwarding (c : context) : context :=
  let m := ctx_message c in
  set_ctx_message {| msg_type := msg_type m; msg_flags := msg_flags m; addr_len := addr_len m;
    has_hopcount := has_hopcount m; hopcount := hopcount m; has_hoplimit := has_hoplimit m;
    hoplimit := hoplimit m; has_origaddr := has_origaddr m; orig_addr := orig_addr m;
    has_seqno := has_seqno m; seqno := seqno m; msg_buffer := msg_buffer m; msg_size := msg_size m;
    _do_not_forward := true |} c.

(** [struct rfc5444_reader_tlvblock_consumer_entry]; [ce_tlv] points to the
    first matching TLV, [copy_value] is the content of the private buffer. *)
Record consumer_entry := {
  mandatory : bool;
  ce_type : Z;
  ce_type_ext : Z;
  match_type_ext : bool;
  min_length : Z;
  max_length : Z;
  match_length : bool;
  copy_value : option bytes;
  ce_tlv : option nat;
  drop : bool;
}.

Definition set_ce_tlv (t : option nat) (e : consumer_entry) : consumer_entry :=
  {| mandatory := mandatory e; ce_type := ce_type e; ce_type_ext := ce_type_ext e;
     match_type_ext := match_type_ext e; min_length := min_length e; max_length := max_length e;
     match_length := match_length e; copy_value := copy_value e; ce_tlv := t; drop := drop e |}.
Definition set_copy_value (c : option bytes) (e : consumer_entry) : consumer_entry :=
  {| mandatory := mandatory e; ce_type := ce_type e; ce_type_ext := ce_type_ext e;
     match_type_ext := match_type_ext e; min_length := min_length e; max_length := max_length e;
     match_length := match_length e; copy_value := c; ce_tlv := ce_tlv e; drop := drop e |}.
Definition set_drop (b : bool) (e : consumer_entry) : consumer_entry :=
  {| mandatory := mandatory e; ce_type := ce_type e; ce_type_ext := ce_type_ext e;
     match_type_ext := match_type_ext e; min_length := min_length e; max_length := max_length e;
     match_length := match_length e; copy_value := copy_value e; ce_tlv := ce_tlv e; drop := b |}.

(** TLV objects that stay in their tree while these fields change. *)
Definition set_single_value (v : option Z) (e : tlvblock_entry) : tlvblock_entry :=
  {| tlv_id := tlv_id e; type := type e; flags := flags e; type_ext := type_ext e; length_ := length_ e;
     single_value := v; index1 := index1 e; index2 := index2 e; next_entry := next_entry e;
     _order := _order e; _value := _value e; _multivalue_tlv := _multivalue_tlv e;
     int_drop_tlv := int_drop_tlv e |}.
Definition set_next_entry (n : option nat) (e : tlvblock_entry) : tlvblock_entry :=
  {| tlv_id := tlv_id e; type := type e; flags := flags e; type_ext := type_ext e; length_ := length_ e;
     single_value := single_value e; index1 := index1 e; index2 := index2 e; next_entry := n;
     _order := _order e; _value := _value e; _multivalue_tlv := _multivalue_tlv e;
     int_drop_tlv := int_drop_tlv e |}.
Definition mark_dropped (idx : Z) (e : tlvblock_entry) : tlvblock_entry :=
  {| tlv_id := tlv_id e; type := type e; flags := flags e; type_ext := type_ext e; length_ := length_ e;
     single_value := single_value e; index1 := index1 e; index2 := index2 e; next_entry := next_entry e;
     _order := _order e; _value := _value e; _multivalue_tlv := _multivalue_tlv e;
     int_drop_tlv := bitmap256_set (int_drop_tlv e) idx |}.

(** Update through a pointer. *)
Definition on_id (id : nat) (f : tlvblock_entry -> tlvblock_entry) (l : list tlvblock_entry)
    : list tlvblock_entry :=
  map (fun e => if Nat.eqb (tlv_id e) id then f e else e) l.

Definition find_id (id : nat) (l : list tlvblock_entry) : option tlvblock_entry :=
  find (fun e => Nat.eqb (tlv_id e) id) l.

Section schedule.
(** The state of the application behind the callbacks. *)
Context {W : Type}.

(** What a callback does: its result, whether it prevents forwarding, the
    consumer entries it marks with [drop], and the application's state. *)
Record answer := {
  ans_result : Z;
  ans_prevent : bool;
  ans_drop : list nat;
  ans_world : W;
}.

(** A callback sees the context, the consumer's entries and the TLV block. *)
Definition callback : Type := context -> list consumer_entry -> list tlvblock_entry -> W -> answer.

(** [struct rfc5444_reader_tlvblock_consumer] *)
Record consumer := {
  order : Z;
  default_msg_consumer : bool;
  msg_id : Z;
  addrblock_consumer : bool;
  _consumer_list : list consumer_entry;
  start_callback : option callback;
  end_callback : option (bool -> callback);
  tlv_callback : option (tlvblock_entry -> callback);
  block_callback : option callback;
  block_callback_failed_constraints : option callback;
}.

(** What scheduling works on. *)
Record sched := {
  s_ctx : context;
  s_entries : list consumer_entry;
  s_tlvs : list tlvblock_entry;
  s_world : W;
}.

Definition set_tlvs (l : list tlvblock_entry) (st : sched) : sched :=
  {| s_ctx := s_ctx st; s_entries := s_entries st; s_tlvs := l; s_world := s_world st |}.
Definition set_entries (l : list consumer_entry) (st : sched) : sched :=
  {| s_ctx := s_ctx st; s_entries := l; s_tlvs := s_tlvs st; s_world := s_world st |}.
Definition set_ctx (c : context) (st : sched) : sched :=
  {| s_ctx := c; s_entries := s_entries st; s_tlvs := s_tlvs st; s_world := s_world st |}.

(** Runs a callback on the state. *)
Definition call (cb : callback) (st : sched) : Z * sched :=
  let a := cb (s_ctx st) (s_entries st) (s_tlvs st) (s_world st) in
  (ans_result a,
   {| s_ctx := if ans_prevent a then rfc5444_reader_prevent_forwarding (s_ctx st) else s_ctx st;
      s_entries := imap (fun i e => if bool_decide (i ∈ ans_drop a) then set_drop true e else e) (s_entries st);
      s_tlvs := s_tlvs st; s_world := ans_world a |}).

(** ** [_schedule_tlvblock] *)

Definition _calc_tlvconsumer_intorder (entry : consumer_entry) : Z :=
  u16 (ce_type entry .<< 8) .| ce_type_ext entry.

Definition _compare_tlvtypes (tlv : option tlvblock_entry) (entry : option consumer_entry) : Z :=
  match entry, tlv with
  | None, None => 0
  | None, Some _ => -1
  | Some _, None => 1
  | Some entry, Some tlv =>
      if match_type_ext entry then _order tlv - _calc_tlvconsumer_intorder entry
      else type tlv - ce_type entry
  end.

(** The address [idx] has this TLV and no consumer dropped it. *)
Definition index_match (idx : Z) (tlv : tlvblock_entry) : bool :=
  negb (bitmap256_get (int_drop_tlv tlv) idx) && (index1 tlv <=? idx) && (idx <=? index2 tlv).

(** [&tlv->_value[offset]] *)
Definition multi_value (idx : Z) (tlv : tlvblock_entry) : option Z :=
  (fun v => v + (idx - index1 tlv) * length_ tlv) <$> _value tlv.

(** [while (nexttlv->next_entry) nexttlv = nexttlv->next_entry]: the last TLV
    of the chain that starts at [id]. *)
Fixpoint chain_end (fuel : nat) (l : list tlvblock_entry) (id : nat) : outcome nat :=
  match find_id id l with
  | None => Undef UB_read
  | Some e =>
      match next_entry e with
      | None => Def id
      | Some id' => match fuel with O => Undef Out_of_fuel | S fuel => chain_end fuel l id' end
      end
  end.

(** A matching TLV [tlv] for the consumer entry at position [ci]: length
    constraint, link and copy; also says if the length constraint failed. *)
Definition match_entry (buf : bytes) (ci : nat) (entry : consumer_entry) (tlv : tlvblock_entry) (st : sched)
    : outcome (bool * sched) :=
  let failed := match_length entry && ((length_ tlv <? min_length entry) || (max_length entry <? length_ tlv)) in
  let l := on_id (tlv_id tlv) (set_next_entry None) (s_tlvs st) in
  match ce_tlv entry with
  | None =>
      let entry := set_ce_tlv (Some (tlv_id tlv)) entry in
      entry ← (match copy_value entry with
               | Some private =>
                   if 0 <? length_ tlv then
                     let len := if length_ tlv <? max_length entry then length_ tlv else max_length entry in
                     match single_value tlv with
                     | None => Undef UB_null
                     | Some v => src ← rd_n buf v len; private ← wr_n private 0 src;
                         Def (set_copy_value (Some private) entry)
                     end
                   else Def entry
               | None => Def entry
               end);
      Def (failed, set_entries (<[ci := entry]> (s_entries st)) (set_tlvs l st))
  | Some first =>
      last ← chain_end (length l) l first;
      Def (failed, set_tlvs (on_id last (set_next_entry (Some (tlv_id tlv))) l) st)
  end.

(** [cons_entry->tlv = NULL] for the entry at a position. *)
Definition reset_entry (ci : nat) (st : sched) : sched := set_entries (alter (set_ce_tlv None) ci (s_entries st)) st.

(** The steps of the loop body; [ti] and [ci] are the positions of [tlv] and
    [cons_entry] in their lists (past the end is NULL). *)

(** [cons_entry == NULL && tlv == NULL] *)
Definition at_end (ti ci : nat) (st : sched) : bool :=
  match s_tlvs st !! ti, s_entries st !! ci with None, None => true | _, _ => false end.

(** [index_match] and [match]. *)
Definition tlv_index_match (idx : Z) (ti : nat) (st : sched) : bool :=
  match s_tlvs st !! ti with Some tlv => index_match idx tlv | None => false end.

Definition type_match (imatch : bool) (ti ci : nat) (st : sched) : bool :=
  match s_tlvs st !! ti, s_entries st !! ci with
  | Some tlv, Some entry => imatch && (_compare_tlvtypes (Some tlv) (Some entry) =? 0)
  | _, _ => false
  end.

(** The value pointer of a multi-value TLV. *)
Definition select_value (idx : Z) (ti : nat) (imatch : bool) (st : sched) : sched :=
  match s_tlvs st !! ti with
  | Some tlv =>
      if imatch && _multivalue_tlv tlv
      then set_tlvs (on_id (tlv_id tlv) (set_single_value (multi_value idx tlv)) (s_tlvs st)) st
      else st
  | None => st
  end.

(** The TLV callback: the result, [match] and the state. *)
Definition run_tlv_callback (c : consumer) (idx : Z) (ti : nat) (imatch match_ : bool) (st : sched)
    : Z * bool * sched :=
  match s_tlvs st !! ti, tlv_callback c with
  | Some tlv, Some cb =>
      if imatch then
        let '(r, st) := call (cb tlv) st in
        if r =? RFC5444_DROP_TLV
        then (RFC5444_OKAY, false, set_tlvs (on_id (tlv_id tlv) (mark_dropped idx) (s_tlvs st)) st)
        else (r, match_, st)
      else (RFC5444_OKAY, match_, st)
  | _, _ => (RFC5444_OKAY, match_, st)
  end.

(** [if (_compare_tlvtypes(tlv, cons_entry) >= 0)] *)
Definition run_match (buf : bytes) (ti ci : nat) (failed match_ : bool) (st : sched) : outcome (bool * sched) :=
  match s_entries st !! ci with
  | Some entry =>
      if 0 <=? _compare_tlvtypes (s_tlvs st !! ti) (Some entry) then
        let failed := failed || (mandatory entry && negb match_) in
        match s_tlvs st !! ti with
        | Some tlv =>
            if match_ then '(bad, st) ← match_entry buf ci entry tlv st; Def (failed || bad, st)
            else Def (failed, st)
        | None => Def (failed, st)
        end
      else Def (failed, st)
  | None => Def (failed, st)
  end.

(** [if (tlv != NULL && _compare_tlvtypes(tlv, cons_entry) <= 0)] *)
Definition advance_tlv (ti ci : nat) (st : sched) : nat :=
  match s_tlvs st !! ti with
  | Some tlv => if _compare_tlvtypes (Some tlv) (s_entries st !! ci) <=? 0 then S ti else ti
  | None => ti
  end.

(** [if (_compare_tlvtypes(tlv, cons_entry) > 0)] *)
Definition advance_entry (ti ci : nat) (failed match_ : bool) (st : sched) : nat * bool * sched :=
  match s_entries st !! ci with
  | Some entry =>
      if 0 <? _compare_tlvtypes (s_tlvs st !! ti) (Some entry)
      then (S ci, failed || (mandatory entry && negb match_), reset_entry (S ci) st)
      else (ci, failed, st)
  | None => (ci, failed, st)
  end.

(** The result is that of the TLV callback that ended the loop early, or
    [RFC5444_OKAY]. *)
Fixpoint schedule_loop (fuel : nat) (buf : bytes) (c : consumer) (idx : Z) (ti ci : nat) (failed : bool) (st : sched)
    : outcome (Z * bool * sched) :=
  if at_end ti ci st then Def (RFC5444_OKAY, failed, st)
  else
    match fuel with
    | O => Undef Out_of_fuel
    | S fuel =>
        let imatch := tlv_index_match idx ti st in
        let match_ := type_match imatch ti ci st in
        let st := select_value idx ti imatch st in
        let '(result, match_, st) := run_tlv_callback c idx ti imatch match_ st in
        if negb (result =? RFC5444_OKAY) then Def (result, failed, st)
        else
          '(failed, st) ← run_match buf ti ci failed match_ st;
          let ti := advance_tlv ti ci st in
          let '(ci, failed, st) := advance_entry ti ci failed match_ st in
          schedule_loop fuel buf c idx ti ci failed st
    end.

(** [RFC5444_DROP_TLV] of a block callback: the first TLV of every entry marked
    with [drop]. *)
Definition drop_marked (idx : Z) (st : sched) : sched :=
  let marked e := match ce_tlv e with Some _ => drop e | None => false end in
  let dropped := omap (fun e => if marked e then ce_tlv e else None) (s_entries st) in
  set_entries (map (fun e => if marked e then set_drop false e else e) (s_entries st))
    (set_tlvs (foldl (fun l id => on_id id (mark_dropped idx) l) (s_tlvs st) dropped) st).

(** The block callbacks behind the loop. *)
Definition finish_tlvblock (c : consumer) (idx : Z) (failed : bool) (st : sched) : Z * sched :=
  let '(result, st) :=
    match block_callback c, block_callback_failed_constraints c with
    | Some cb, None => if negb failed then call cb st else (RFC5444_OKAY, st)
    | Some cb, Some cb' => if negb failed then call cb st else call cb' st
    | None, Some cb' => if failed then call cb' st else (RFC5444_OKAY, st)
    | None, None => (RFC5444_OKAY, st)
    end in
  if result =? RFC5444_DROP_TLV then (RFC5444_OKAY, drop_marked idx st) else (result, st).

(** Both lists are walked once: their lengths are the fuel. *)
Definition _schedule_tlvblock (buf : bytes) (c : consumer) (idx : Z) (st : sched) : outcome (Z * sched) :=
  '(result, failed, st) ←
    schedule_loop (length (s_tlvs st) + length (s_entries st)) buf c idx 0 0 false (reset_entry 0 st);
  if negb (result =? RFC5444_OKAY) then Def (result, st)
  else Def (finish_tlvblock c idx failed st).
End schedule.

Arguments answer W : clear implicits.
Arguments consumer W : clear implicits.
Arguments sched W : clear implicits.
Arguments callback W : clear implicits.

(** ** Objects and links *)

Section links.

(** Functions on TLV objects that keep their identity. *)
Definition keeps_id (f : tlvblock_entry -> tlvblock_entry) : Prop := forall e, tlv_id (f e) = tlv_id e.

Lemma find_id_on_id f l i j : keeps_id f ->
  find_id i (on_id j f l) = if Nat.eqb i j then f <$> find_id i l else find_id i l.
Proof.
  intros Hf. unfold find_id, on_id. induction l as [|e l IH]; simpl; [by destruct (Nat.eqb i j)|].
  destruct (Nat.eqb_spec (tlv_id e) j) as [Ej|Ej], (Nat.eqb_spec i j) as [->|Hij]; simpl.
  - by rewrite Hf, Ej, Nat.eqb_refl.
  - rewrite Hf, Ej. destruct (Nat.eqb_spec j i); [congruence|done].
  - destruct (Nat.eqb_spec (tlv_id e) j); [done|]. exact IH.
  - destruct (Nat.eqb_spec (tlv_id e) i); [done|]. exact IH.
Qed.

Lemma on_id_ids f l j : keeps_id f -> tlv_id <$> on_id j f l = tlv_id <$> l.
Proof.
  intros Hf. unfold on_id. induction l as [|e l IH]; [done|]. simpl. f_equal; [|exact IH].
  by destruct (Nat.eqb _ _).
Qed.

Lemma on_id_lookup f l j i : on_id j f l !! i = (fun e => if Nat.eqb (tlv_id e) j then f e else e) <$> l !! i.
Proof. apply list_lookup_fmap. Qed.

Lemma find_id_lookup l i e : NoDup (tlv_id <$> l) -> l !! i = Some e -> find_id (tlv_id e) l = Some e.
Proof.
  revert i. induction l as [|x l IH]; intros i Hn Hi; [done|]. unfold find_id. simpl.
  apply NoDup_cons in Hn as [Hx Hn]. destruct i as [|i]; simpl in Hi.
  - injection Hi as ->. by rewrite Nat.eqb_refl.
  - destruct (Nat.eqb_spec (tlv_id x) (tlv_id e)) as [E|]; [|by eapply IH].
    exfalso. apply Hx. rewrite E. apply list_elem_of_fmap_2, list_elem_of_lookup. eauto.
Qed.

Lemma find_id_some l id e : find_id id l = Some e -> e ∈ l /\ tlv_id e = id.
Proof. intros [Hin ->%Nat.eqb_eq]%find_some. by apply list_elem_of_In in Hin. Qed.

(** The TLVs [cs] are linked by [next_entry] in this order. *)
Fixpoint linked (l : list tlvblock_entry) (cs : list nat) : Prop :=
  match cs with
  | [] => True
  | id :: cs => (exists e, find_id id l = Some e /\ next_entry e = head cs) /\ linked l cs
  end.

Lemma linked_on_id f l j cs : keeps_id f -> linked l cs -> j ∉ cs -> linked (on_id j f l) cs.
Proof.
  intros Hf. induction cs as [|id cs IH]; [done|]. intros [(e & Hfind & Hnext) Hl] Hj.
  apply not_elem_of_cons in Hj as [Hne Hj]. split; [|by apply IH]. exists e. rewrite find_id_on_id by done.
  by destruct (Nat.eqb_spec id j); [congruence|].
Qed.

(** Changing other fields keeps the links. *)
Lemma linked_on_id_keep f l j cs : keeps_id f -> (forall e, next_entry (f e) = next_entry e) ->
  linked l cs -> linked (on_id j f l) cs.
Proof.
  intros Hf Hn. induction cs as [|id cs IH]; [done|]. intros [(e & Hfind & Hnext) Hl].
  split; [|by apply IH]. rewrite find_id_on_id, Hfind by done. destruct (Nat.eqb id j); simpl; [|eauto].
  exists (f e). by rewrite Hn.
Qed.

Lemma linked_snoc l cs id e : linked l cs -> NoDup cs -> id ∉ cs -> find_id id l = Some e -> next_entry e = None ->
  linked (match last cs with Some z => on_id z (set_next_entry (Some id)) l | None => l end) (cs ++ [id]).
Proof.
  intros Hl Hn Hid Hfind Hnext. destruct cs as [|x cs] using rev_ind; simpl.
  { split; [|done]. by exists e. }
  clear IHcs. rewrite last_snoc. rewrite elem_of_app, list_elem_of_singleton in Hid.
  apply NoDup_app in Hn as (Hn & Hx & _).
  assert (x ∉ cs) as Hxc by (intros Hin; apply (Hx x Hin); by left).
  clear Hx. induction cs as [|y cs IH]; simpl in *.
  - destruct Hl as [(ex & Hx & _) _]. split.
    + exists (set_next_entry (Some id) ex). rewrite find_id_on_id, Nat.eqb_refl, Hx by done. done.
    + split; [|done]. exists e. rewrite find_id_on_id by done. destruct (Nat.eqb_spec id x); [naive_solver|done].
  - destruct Hl as [(ey & Hy & Hnext') Hl]. apply not_elem_of_cons in Hxc as [Hxy Hxc].
    apply NoDup_cons in Hn as [Hyc Hn]. split.
    + exists ey. rewrite find_id_on_id by done. destruct (Nat.eqb_spec y x); [congruence|].
      split; [done|]. rewrite Hnext'. by destruct cs.
    + apply IH; first [done|set_solver].
Qed.

Lemma chain_end_spec l cs first z fuel : linked l cs -> head cs = Some first -> last cs = Some z ->
  (length cs <= S fuel)%nat -> chain_end fuel l first = Def z.
Proof.
  revert first fuel. induction cs as [|id cs IH]; intros first fuel; [done|]. intros [(e & Hfind & Hnext) Hl] [= ->] Hz Hf.
  destruct fuel as [|fuel]; simpl; rewrite Hfind, Hnext; destruct cs as [|id' cs]; simpl in *; try lia; try congruence.
  apply IH; [done|done|done|lia].
Qed.
End links.

(** ** One match *)

(** What scheduling never changes in a TLV. *)
Definition static (e : tlvblock_entry) :=
  (tlv_id e, type e, flags e, type_ext e, length_ e, index1 e, index2 e, _order e, _value e, _multivalue_tlv e).

(** The description part of a consumer entry and the size of its buffer. *)
Definition entry_static (e : consumer_entry) :=
  (mandatory e, ce_type e, ce_type_ext e, match_type_ext e, min_length e, max_length e, match_length e,
   length <$> copy_value e).

Lemma on_id_static {B} (g : tlvblock_entry -> B) f l j : (forall e, g (f e) = g e) -> g <$> on_id j f l = g <$> l.
Proof.
  intros Hf. unfold on_id. induction l as [|e l IH]; [done|]. simpl. f_equal; [|exact IH].
  by destruct (Nat.eqb _ _).
Qed.

(** The chain of a consumer entry: its TLVs so far, in order. *)
Definition chain_of (l : list tlvblock_entry) (e : consumer_entry) (cs : list nat) : Prop :=
  ce_tlv e = head cs /\ linked l cs /\ NoDup cs.

(** The value of a TLV can be read. *)
Definition value_readable (buf : bytes) (e : tlvblock_entry) : Prop :=
  0 < length_ e -> exists v, single_value e = Some v /\ 0 <= v /\ v + length_ e <= blen buf.

(** The private buffer of an entry is large enough. *)
Definition copy_fits (e : consumer_entry) : Prop :=
  0 <= max_length e /\ forall private, copy_value e = Some private -> max_length e <= blen private.

Section matching.
Context {W : Type}.

Record matched (buf : bytes) (ci : nat) (entry : consumer_entry) (tlv : tlvblock_entry) (cs : list nat)
    (st st' : sched W) : Prop := {
  md_ctx : s_ctx st' = s_ctx st /\ s_world st' = s_world st;
  md_entries : exists entry', s_entries st' = <[ci := entry']> (s_entries st) /\
    entry_static entry' = entry_static entry /\ drop entry' = drop entry /\
    chain_of (s_tlvs st') entry' (cs ++ [tlv_id tlv]) /\ copy_fits entry';
  md_static {B} (g : tlvblock_entry -> B) : (forall e n, g (set_next_entry n e) = g e) ->
    g <$> s_tlvs st' = g <$> s_tlvs st;
  md_others cs' : linked (s_tlvs st) cs' -> (forall x, x ∈ cs' -> x ∉ cs /\ x <> tlv_id tlv) -> linked (s_tlvs st') cs';
}.

Lemma match_copy_spec buf entry tlv : value_readable buf tlv -> copy_fits entry -> 0 <= length_ tlv ->
  exists entry', (match copy_value entry with
     | Some private =>
         if 0 <? length_ tlv then
           let len := if length_ tlv <? max_length entry then length_ tlv else max_length entry in
           match single_value tlv with
           | None => Undef UB_null
           | Some v => src ← rd_n buf v len; private ← wr_n private 0 src; Def (set_copy_value (Some private) entry)
           end
         else Def entry
     | None => Def entry end) = Def entry' /\
    entry_static entry' = entry_static entry /\ drop entry' = drop entry /\ ce_tlv entry' = ce_tlv entry /\ copy_fits entry'.
Proof.
  intros Hv [Hmax Hc] Hlen. destruct (copy_value entry) as [private|] eqn:Ec; [|exists entry; split_and!; try done; split; [done|congruence]].
  destruct (Z.ltb_spec 0 (length_ tlv)) as [Hpos|]; [|exists entry; split_and!; try done; split; [done|rewrite Ec; exact Hc]].
  destruct (Hv Hpos) as (v & -> & Hv0 & Hfit). set (len := if _ <? _ then _ else _). cbv zeta.
  assert (0 <= len <= length_ tlv /\ len <= max_length entry) as [Hl1 Hl2].
  { unfold len. destruct (Z.ltb_spec (length_ tlv) (max_length entry)); lia. }
  destruct (rd_n_inside buf v len) as (src & -> & Hsrc); [lia..|]. simpl.
  pose proof (Hc private eq_refl). destruct (wr_n_inside private 0 src) as (p' & -> & Hp'); [lia..|]. simpl.
  exists (set_copy_value (Some p') entry). split; [done|]. split_and!; try done.
  - unfold entry_static. rewrite Ec. simpl. do 2 f_equal. unfold blen in Hp'. lia.
  - split; simpl; [done|]. intros p [= <-]. lia.
Qed.

Lemma match_entry_spec buf ci entry tlv cs (st : sched W) :
  NoDup (tlv_id <$> s_tlvs st) -> tlv ∈ s_tlvs st -> s_entries st !! ci = Some entry ->
  chain_of (s_tlvs st) entry cs -> tlv_id tlv ∉ cs -> (forall x, x ∈ cs -> x ∈ tlv_id <$> s_tlvs st) ->
  value_readable buf tlv -> copy_fits entry -> 0 <= length_ tlv ->
  exists st', match_entry buf ci entry tlv st =
      Def (match_length entry && ((length_ tlv <? min_length entry) || (max_length entry <? length_ tlv)), st') /\
    matched buf ci entry tlv cs st st'.
Proof.
  intros Hn Hin Hci (Hhead & Hl & Hcs) Hid Hsub Hv Hc Hlen. unfold match_entry.
  set (l := on_id (tlv_id tlv) (set_next_entry None) (s_tlvs st)).
  assert (linked l cs) as Hl' by (by apply linked_on_id).
  assert (find_id (tlv_id tlv) l = Some (set_next_entry None tlv)) as Hfind.
  { unfold l. rewrite find_id_on_id, Nat.eqb_refl by done.
    apply list_elem_of_lookup in Hin as [i Hi]. by rewrite (find_id_lookup _ _ _ Hn Hi). }
  assert (NoDup (cs ++ [tlv_id tlv])) as Hcs'.
  { apply NoDup_app. split; [done|]. split; [|apply NoDup_singleton]. intros x Hx ->%list_elem_of_singleton. done. }
  pose proof (linked_snoc l cs (tlv_id tlv) _ Hl' Hcs Hid Hfind eq_refl) as Hlink.
  destruct (ce_tlv entry) as [first|] eqn:Ef; destruct cs as [|c0 cs0] eqn:Ecs; try done.
  - destruct (last (c0 :: cs0)) as [z|] eqn:Ez; [|by apply last_None in Ez].
    rewrite (chain_end_spec l (c0 :: cs0) first z _ Hl' (eq_sym Hhead) Ez); cycle 1.
    { assert (length (c0 :: cs0) <= length (tlv_id <$> s_tlvs st))%nat as Hle.
      { apply submseteq_length, NoDup_submseteq; [done|]. intros x. apply Hsub. }
      unfold l, on_id. rewrite length_map. rewrite length_fmap in Hle. lia. }
    simpl. eexists. split; [done|]. assert (z ∈ c0 :: cs0) as Hz by (by apply last_Some_elem_of).
    split; simpl.
    + done.
    + exists entry. rewrite list_insert_id by done. split; [done|]. split; [done|]. split; [done|]. split; [|done].
      split; [by rewrite Ef|]. by split.
    + intros B g Hg. unfold l. rewrite !on_id_static; done.
    + intros cs' Hcs'' Hdis. unfold l. apply linked_on_id; [done|apply linked_on_id; [done|done|]|].
      * intros H. by apply Hdis in H as [_ ?].
      * intros H. apply Hdis in H as [H _]. done.
  - destruct (match_copy_spec buf (set_ce_tlv (Some (tlv_id tlv)) entry) tlv Hv Hc Hlen)
      as (entry' & E & Hs & Hd & Ht & Hc'). cbv zeta in E |- *. rewrite E. simpl.
    eexists. split; [done|]. split; simpl.
    + done.
    + exists entry'. split; [done|]. split; [done|]. split; [done|]. split; [|done]. by split.
    + intros B g Hg. unfold l. by rewrite on_id_static.
    + intros cs' Hcs'' Hdis. unfold l. apply linked_on_id; [done|done|]. intros H. by apply Hdis in H as [_ ?].
Qed.
End matching.

(** ** Scheduling is safe *)

Section safety.
Context {W : Type}.
Context (buf : bytes) (eob : Z) (Heob : eob <= blen buf) (n idx : Z).
Context (T0 : list tlvblock_entry) (E0 : list consumer_entry) (Hids : NoDup (tlv_id <$> T0)).
Notation ids := (tlv_id <$> T0).

(** The block and the consumer during scheduling, started with [T0] and [E0]. *)
Record sched_ok (st : sched W) : Prop := {
  so_tlvs : Forall (tlv_ok eob n) (s_tlvs st);
  so_static : static <$> s_tlvs st = static <$> T0;
  so_entries : entry_static <$> s_entries st = entry_static <$> E0;
  so_copy : Forall copy_fits (s_entries st);
}.

Lemma so_ids st : sched_ok st -> tlv_id <$> s_tlvs st = ids.
Proof.
  intros H. pose proof (so_static _ H) as E.
  apply (f_equal (fmap (fun t => t.1.1.1.1.1.1.1.1.1))) in E. by rewrite <- !list_fmap_compose in E.
Qed.

Lemma so_length st : sched_ok st -> length (s_tlvs st) = length T0 /\ length (s_entries st) = length E0.
Proof.
  intros H. split.
  - pose proof (f_equal length (so_static _ H)) as E. by rewrite !length_fmap in E.
  - pose proof (f_equal length (so_entries _ H)) as E. by rewrite !length_fmap in E.
Qed.

(** Comparison of types looks at the static parts only. *)
Lemma compare_static (ot ot' : option tlvblock_entry) oe oe' : static <$> ot = static <$> ot' ->
  entry_static <$> oe = entry_static <$> oe' -> _compare_tlvtypes ot oe = _compare_tlvtypes ot' oe'.
Proof.
  destruct ot as [t|], ot' as [t'|], oe as [e|], oe' as [e'|]; simpl; try done.
  intros [= E1 E2 E3 E4 E5 E6 E7 E8 E9 E10] [= F1 F2 F3 F4 F5 F6 F7 F8]. unfold _calc_tlvconsumer_intorder.
  by rewrite F4, E8, E2, F2, F3.
Qed.

Lemma so_compare st ti ci : sched_ok st ->
  _compare_tlvtypes (s_tlvs st !! ti) (s_entries st !! ci) = _compare_tlvtypes (T0 !! ti) (E0 !! ci).
Proof.
  intros H. apply compare_static; rewrite <- !list_lookup_fmap.
  - by rewrite (so_static _ H).
  - by rewrite (so_entries _ H).
Qed.

(** The chain of the current consumer entry links TLVs in front of [ti]. *)
Definition chain_inv (ti ci : nat) (st : sched W) : Prop :=
  forall entry, s_entries st !! ci = Some entry ->
    exists cs, chain_of (s_tlvs st) entry cs /\ forall x, x ∈ cs -> exists j, (j < ti)%nat /\ ids !! j = Some x.

Lemma tlv_ok_update f e : tlv_ok eob n e -> static (f e) = static e ->
  (_multivalue_tlv e = true \/ single_value (f e) = single_value e) -> tlv_ok eob n (f e).
Proof.
  intros [A1 A2 A3 A4 A5 Hval] Hs Hsv. unfold static in Hs. injection Hs as E1 E2 E3 E4 E5 E6 E7 E8 E9 E10.
  split; rewrite ?E1, ?E2, ?E3, ?E4, ?E5, ?E6, ?E7, ?E8, ?E9, ?E10; try done.
  intros Hpos. destruct (Hval Hpos) as (v & Hv & Hv0 & Hm). exists v. split; [done|]. split; [done|].
  destruct (_multivalue_tlv e); [done|]. destruct Hsv as [|Hsv]; [done|]. by rewrite Hsv.
Qed.

Lemma on_id_ok id f (st : sched W) : sched_ok st -> keeps_id f ->
  (forall e, static (f e) = static e) ->
  (forall e, e ∈ s_tlvs st -> tlv_id e = id -> tlv_ok eob n (f e)) ->
  sched_ok (set_tlvs (on_id id f (s_tlvs st)) st).
Proof.
  intros [Ht Hi He0 Hc] Hf Hs H. split; simpl; [|by rewrite on_id_static|done|done].
  unfold on_id. rewrite Forall_map, Forall_forall. rewrite Forall_forall in Ht. intros e He.
  destruct (Nat.eqb_spec (tlv_id e) id); [by apply H|by apply Ht].
Qed.

Lemma on_id_chain id f ti ci (st : sched W) : keeps_id f -> (forall e, next_entry (f e) = next_entry e) ->
  chain_inv ti ci st -> chain_inv ti ci (set_tlvs (on_id id f (s_tlvs st)) st).
Proof.
  intros Hf Hn H entry He. destruct (H entry He) as (cs & (Hh & Hl & Hd) & Hj). exists cs. split; [|done].
  split; [done|]. split; [by apply linked_on_id_keep|done].
Qed.

(** Selecting the value makes it readable. *)
Lemma select_value_spec ti ci (st : sched W) : sched_ok st -> chain_inv ti ci st ->
  let imatch := tlv_index_match idx ti st in
  let st' := select_value idx ti imatch st in
  sched_ok st' /\ chain_inv ti ci st' /\ s_entries st' = s_entries st /\
  (imatch = true -> forall e, s_tlvs st' !! ti = Some e -> value_readable buf e).
Proof.
  intros Hok Hch imatch st'. unfold st', select_value, tlv_index_match in *.
  destruct (s_tlvs st !! ti) as [tlv|] eqn:Et; [|by rewrite Et]. fold imatch.
  assert (tlv_ok eob n tlv) as Htlv by (by eapply Forall_lookup_1 in Et; [|apply Hok]).
  destruct (imatch && _multivalue_tlv tlv) eqn:Em.
  - apply andb_true_iff in Em as [Ei Em]. split_and!.
    + apply on_id_ok; [done|done|done|]. intros e He Hid. pose proof Hids as Hids'. rewrite <- (so_ids _ Hok) in Hids'.
      assert (e = tlv) as ->.
      { apply list_elem_of_lookup in He as [i Hi]. assert (i = ti) as ->; [|congruence].
        eapply (NoDup_lookup (tlv_id <$> s_tlvs st)); [done| |]; rewrite list_lookup_fmap.
        - by rewrite Hi.
        - rewrite Et. simpl. congruence. }
      apply (tlv_ok_update (set_single_value _)); [done|done|by left].
    + by apply on_id_chain.
    + done.
    + intros _ e. simpl. rewrite on_id_lookup, Et. simpl. rewrite Nat.eqb_refl. intros [= <-] Hpos. simpl in *.
      destruct (tlv_value _ _ _ Htlv Hpos) as (v & Hv & Hv0 & Hm). rewrite Em in Hm. destruct Hm as [Hcount Hfit].
      unfold multi_value. rewrite Hv. simpl. eexists. split; [done|].
      unfold imatch, index_match in Ei. rewrite !andb_true_iff, !Z.leb_le in Ei.
      destruct (tlv_index _ _ _ Htlv) as (I1 & I2 & _). unfold is_u8 in I1, I2.
      set (count := u8 _) in *. assert (count = index2 tlv - index1 tlv + 1) as Ec.
      { unfold count, u8, wrap in *. destruct (Z.eq_dec (index2 tlv - index1 tlv + 1) 256) as [E|E].
        - rewrite E in Hcount. done.
        - apply Z.mod_small. lia. }
      split; nia.
  - rewrite Et. split_and!; try done. intros Ei e [= <-] Hpos.
    destruct (tlv_value _ _ _ Htlv Hpos) as (v & Hv & Hv0 & Hm). rewrite Ei in Em. simpl in Em. rewrite Em in Hm.
    exists v. destruct Hm. split; [done|]. lia.
Qed.

Lemma call_spec cb (st : sched W) : sched_ok st -> sched_ok (call cb st).2 /\
  s_tlvs (call cb st).2 = s_tlvs st /\
  (forall ci e, s_entries (call cb st).2 !! ci = Some e -> exists e0, s_entries st !! ci = Some e0 /\
    ce_tlv e = ce_tlv e0 /\ copy_value e = copy_value e0 /\ entry_static e = entry_static e0).
Proof.
  intros [Ht Hi He Hc]. unfold call. simpl.
  assert (forall ci e, imap (fun i e => if bool_decide (i ∈ ans_drop (cb (s_ctx st) (s_entries st) (s_tlvs st) (s_world st)))
      then set_drop true e else e) (s_entries st) !! ci = Some e ->
    exists e0, s_entries st !! ci = Some e0 /\ (e = e0 \/ e = set_drop true e0)) as Hl.
  { intros ci e. rewrite list_lookup_imap. destruct (s_entries st !! ci) as [e0|]; [|done]. simpl.
    intros [= <-]. exists e0. split; [done|]. destruct (bool_decide _); auto. }
  split_and!.
  - split; simpl; [done|done| |].
    + rewrite <- He. apply list_eq. intros i. rewrite !list_lookup_fmap, list_lookup_imap.
      destruct (s_entries st !! i); [|done]. simpl. by destruct (bool_decide _).
    + rewrite Forall_lookup in Hc |- *. intros i e Hi'.
      destruct (Hl i e Hi') as (e0 & He0 & [->| ->]); specialize (Hc i e0 He0); [done|]. destruct Hc. by split.
  - done.
  - intros ci e Hi'. destruct (Hl ci e Hi') as (e0 & He0 & [->| ->]); exists e0; by split_and!.
Qed.

(** A callback and a drop mark keep everything the loop needs. *)
Lemma run_tlv_callback_spec (c : consumer W) ti ci imatch m (st : sched W) : sched_ok st -> chain_inv ti ci st ->
  (imatch = true -> forall e, s_tlvs st !! ti = Some e -> value_readable buf e) -> (m = true -> imatch = true) ->
  exists r m' st', run_tlv_callback c idx ti imatch m st = (r, m', st') /\ sched_ok st' /\ chain_inv ti ci st' /\
    (m' = true -> m = true) /\
    (m' = true -> forall e, s_tlvs st' !! ti = Some e -> value_readable buf e).
Proof.
  intros Hok Hch Hrd Hm. unfold run_tlv_callback.
  assert (exists r m' st', (RFC5444_OKAY, m, st) = (r, m', st') /\ sched_ok st' /\ chain_inv ti ci st' /\
    (m' = true -> m = true) /\
    (m' = true -> forall e, s_tlvs st' !! ti = Some e -> value_readable buf e)) as Hid.
  { exists RFC5444_OKAY, m, st. split_and!; try done. intros Hm'. apply Hrd. by apply Hm. }
  destruct (s_tlvs st !! ti) as [tlv|] eqn:Et; [|done]. destruct (tlv_callback c) as [cb|]; [|done].
  destruct imatch; [|done]. destruct (call_spec (cb tlv) st Hok) as (Hok1 & Htl & Hent).
  destruct (call (cb tlv) st) as [r st1]. simpl in *.
  assert (chain_inv ti ci st1) as Hch1.
  { intros e He. destruct (Hent ci e He) as (e0 & He0 & Hce & _). destruct (Hch e0 He0) as (cs & (Hh & Hl & Hd) & Hj).
    exists cs. split; [|done]. split; [congruence|]. by rewrite Htl. }
  destruct (Z.eqb_spec r RFC5444_DROP_TLV) as [Hr|Hr].
  - eexists _, _, _. split; [done|]. split_and!; try done.
    + apply on_id_ok; [done|done|done|]. intros e He _.
      apply (tlv_ok_update (mark_dropped idx)); [|done|by right].
      pose proof (so_tlvs _ Hok1) as Ht. rewrite Forall_forall in Ht. by apply Ht.
    + by apply on_id_chain.
  - eexists _, _, _. split; [done|]. split_and!; try done. intros _ e'. rewrite Htl, Et.
    intros [= <-]. by apply (Hrd eq_refl tlv).
Qed.

(** A match keeps everything but the links and the copy. *)
Lemma matched_ok ci entry tlv cs (st st' : sched W) : sched_ok st -> s_entries st !! ci = Some entry ->
  matched buf ci entry tlv cs st st' -> sched_ok st'.
Proof.
  intros Hok Ee [_ (entry' & Hent & Hes & _ & _ & Hcf) Hst _]. split.
  - pose proof (so_tlvs _ Hok) as Hf. rewrite Forall_lookup in Hf |- *. intros i e He.
    assert (exists e0, s_tlvs st !! i = Some e0 /\ static e = static e0 /\ single_value e = single_value e0) as (e0 & He0 & Hs & Hsv).
    { pose proof (Hst _ (fun e => (static e, single_value e)) ltac:(done)) as E.
      apply (f_equal (fun l => l !! i)) in E. rewrite !list_lookup_fmap, He in E. simpl in E.
      destruct (s_tlvs st !! i) as [e0|]; simpl in E; [|done].
      apply (inj Some), pair_equal_spec in E as [E1 E2]. by exists e0. }
    apply (tlv_ok_update (fun _ => e) e0); [by eapply Hf|done|by right].
  - rewrite (Hst _ static) by done. apply Hok.
  - rewrite <- (so_entries _ Hok), Hent, list_fmap_insert, Hes. apply list_insert_id. by rewrite list_lookup_fmap, Ee.
  - rewrite Hent. apply Forall_insert; [apply Hok|done].
Qed.

(** The match step with the position of its TLV [ti] behind the chain. *)
Lemma run_match_spec ti ci failed m (st : sched W) : sched_ok st -> chain_inv ti ci st ->
  (m = true -> forall e, s_tlvs st !! ti = Some e -> value_readable buf e) ->
  exists failed' st', run_match buf ti ci failed m st = Def (failed', st') /\ sched_ok st' /\
    chain_inv (S ti) ci st' /\ (m = false -> chain_inv ti ci st').
Proof.
  intros Hok Hch Hrd. unfold run_match.
  assert (chain_inv (S ti) ci st) as Hch'.
  { intros e He. destruct (Hch e He) as (cs & Hc & Hj). exists cs. split; [done|]. intros x Hx.
    destruct (Hj x Hx) as (j & ? & ?). exists j. split; [lia|done]. }
  assert (forall b : bool, exists (failed' : bool) st', Def (b, st) = Def (failed', st') /\ sched_ok st' /\
    chain_inv (S ti) ci st' /\ (m = false -> chain_inv ti ci st')) as Hid by (intros b; by exists b, st).
  destruct (s_entries st !! ci) as [entry|] eqn:Ee; [|apply Hid].
  destruct (0 <=? _); [|apply Hid]. destruct (s_tlvs st !! ti) as [tlv|] eqn:Et; [|apply Hid].
  destruct m; [|apply Hid]. destruct (Hch entry Ee) as (cs & Hchain & Hj).
  assert (ids !! ti = Some (tlv_id tlv)) as Eid by (rewrite <- (so_ids _ Hok), list_lookup_fmap, Et; done).
  destruct (match_entry_spec buf ci entry tlv cs st) as (st' & -> & Hmd).
  - rewrite (so_ids _ Hok). done.
  - by eapply list_elem_of_lookup_2.
  - done.
  - done.
  - intros Hin. destruct (Hj _ Hin) as (j & Hlt & Hjid). assert (j = ti) as -> by (by eapply NoDup_lookup). lia.
  - intros x Hx. rewrite (so_ids _ Hok). destruct (Hj x Hx) as (j & _ & ?). by eapply list_elem_of_lookup_2.
  - by apply (Hrd eq_refl).
  - by eapply Forall_lookup_1 in Ee; [|apply Hok].
  - pose proof (Forall_lookup_1 _ _ _ _ (so_tlvs _ Hok) Et) as Hf. apply Hf.
  - simpl. eexists _, st'. split; [done|].
    pose proof (matched_ok _ _ _ _ _ _ Hok Ee Hmd) as Hok'.
    destruct Hmd as [Hctx (entry' & Hent & Hes & _ & Hchain' & Hcf) Hst Hoth].
    split; [done|]. split; [|done].
    intros e He. rewrite Hent, list_lookup_insert_eq in He by (by eapply lookup_lt_Some). injection He as <-.
    exists (cs ++ [tlv_id tlv]). split; [done|]. intros x [Hx| ->%list_elem_of_singleton]%elem_of_app.
    + destruct (Hj x Hx) as (j & ? & ?). exists j. split; [lia|done].
    + exists ti. split; [lia|done].
Qed.

(** What is left to do. *)
Definition remaining (ti ci : nat) : nat := (length T0 - ti) + (length E0 - ci).

Lemma reset_entry_ok ci (st : sched W) : sched_ok st -> sched_ok (reset_entry ci st).
Proof.
  intros [Ht Hi He Hc]. split; simpl; [done|done| |].
  - rewrite <- He. apply list_eq. intros i. rewrite !list_lookup_fmap. destruct (decide (i = ci)) as [->|].
    + rewrite list_lookup_alter_eq. by destruct (s_entries st !! ci).
    + by rewrite list_lookup_alter_ne.
  - apply Forall_alter; [done|]. intros e _ [He1 He2]. by split.
Qed.

Lemma reset_entry_chain ti ci (st : sched W) : chain_inv ti ci (reset_entry ci st).
Proof.
  intros e He. exists []. split; [|by intros x ?%elem_of_nil]. simpl in He.
  rewrite list_lookup_alter_eq in He. destruct (s_entries st !! ci); [|done]. injection He as <-.
  split; [done|]. split; [done|constructor].
Qed.

Lemma so_at_end ti ci st : sched_ok st -> at_end ti ci st = bool_decide (length T0 <= ti /\ length E0 <= ci)%nat.
Proof.
  intros H. destruct (so_length _ H) as [H1 H2]. unfold at_end. symmetry.
  destruct (s_tlvs st !! ti) eqn:Et; [apply lookup_lt_Some in Et; apply bool_decide_eq_false; lia|].
  destruct (s_entries st !! ci) eqn:Ee; [apply lookup_lt_Some in Ee; apply bool_decide_eq_false; lia|].
  apply lookup_ge_None in Et, Ee. apply bool_decide_eq_true. lia.
Qed.

(** Where the TLV pointer goes. *)
Lemma advance_tlv_spec ti ci st : sched_ok st ->
  advance_tlv ti ci st = (if bool_decide (ti < length T0)%nat && (_compare_tlvtypes (T0 !! ti) (E0 !! ci) <=? 0) then S ti else ti).
Proof.
  intros H. destruct (so_length _ H) as [H1 _]. unfold advance_tlv. pose proof (so_compare st ti ci H) as Hc.
  destruct (s_tlvs st !! ti) eqn:Et.
  - apply lookup_lt_Some in Et. rewrite bool_decide_true by lia. by rewrite Hc.
  - apply lookup_ge_None in Et. by rewrite bool_decide_false by lia.
Qed.

Lemma advance_entry_spec ti ci failed m st : sched_ok st ->
  exists failed' st', advance_entry ti ci failed m st =
    (if bool_decide (ci < length E0)%nat && (0 <? _compare_tlvtypes (T0 !! ti) (E0 !! ci)) then S ci else ci, failed', st') /\
  sched_ok st'.
Proof.
  intros H. destruct (so_length _ H) as [_ H2]. unfold advance_entry. pose proof (so_compare st ti ci H) as Hc.
  destruct (s_entries st !! ci) as [e|] eqn:Ee.
  - apply lookup_lt_Some in Ee. rewrite bool_decide_true by lia. cbn [andb]. rewrite Hc.
    destruct (0 <? _); eexists _, _; (split; [done|]); [by apply reset_entry_ok|done].
  - apply lookup_ge_None in Ee. rewrite bool_decide_false by lia. by eexists _, _.
Qed.

(** The loop terminates within its fuel and never leaves the buffer. *)
Lemma schedule_loop_safe (c : consumer W) fuel ti ci failed (st : sched W) : sched_ok st -> chain_inv ti ci st ->
  (remaining ti ci <= fuel)%nat ->
  exists r failed' st', schedule_loop fuel buf c idx ti ci failed st = Def (r, failed', st') /\ sched_ok st'.
Proof.
  revert ti ci failed st. induction fuel as [|fuel IH]; intros ti ci failed st Hok Hch Hf; simpl;
    rewrite so_at_end by done; (case_bool_decide as Hend; [by eexists _, _, _|]).
  { exfalso. unfold remaining in *. lia. }
  destruct (select_value_spec ti ci st Hok Hch) as (Hok1 & Hch1 & Hent1 & Hrd1). cbv zeta in *.
  set (im := tlv_index_match idx ti st) in *. set (st1 := select_value idx ti im st) in *.
  destruct (run_tlv_callback_spec c ti ci im (type_match im ti ci st) st1 Hok1 Hch1 Hrd1) as
    (r & m & st2 & -> & Hok2 & Hch2 & Hm & Hrd2).
  { unfold type_match. repeat case_match; try done. by intros [? _]%andb_true_iff. }
  destruct (negb _); [by eexists _, _, _|].
  destruct (run_match_spec ti ci failed m st2 Hok2 Hch2 Hrd2) as (failed3 & st3 & -> & Hok3 & Hch3 & Hch3'). simpl.
  assert (m = true -> _compare_tlvtypes (T0 !! ti) (E0 !! ci) = 0 /\ (ti < length T0)%nat) as Hcmp.
  { intros Hmt. specialize (Hm Hmt). rewrite <- (so_compare st) by done. unfold type_match in Hm.
    destruct (s_tlvs st !! ti) eqn:Et; [|done]. apply lookup_lt_Some in Et. destruct (so_length _ Hok) as [<- _].
    destruct (s_entries st !! ci); [|done]. apply andb_true_iff in Hm as [_ Hm%Z.eqb_eq]. done. }
  pose proof (advance_tlv_spec ti ci st3 Hok3) as Ha. set (ti' := advance_tlv ti ci st3) in *.
  assert (chain_inv ti' ci st3) as Hch4.
  { rewrite Ha. destruct m; [|destruct (_ && _); auto]. destruct (Hcmp eq_refl) as [-> ?].
    by rewrite bool_decide_true by done. }
  destruct (advance_entry_spec ti' ci failed3 m st3 Hok3) as (f4 & st4 & E4 & Hok4). rewrite E4.
  apply IH; [done| |].
  - unfold advance_entry in E4. destruct (s_entries st3 !! ci) as [e|] eqn:Ee.
    + destruct (0 <? _); injection E4 as <- _ <-; [apply reset_entry_chain|done].
    + by injection E4 as <- _ <-.
  - unfold remaining in *. rewrite Ha.
    assert (length T0 <= ti \/ ti < length T0)%nat as [Ht|Ht] by lia.
    + rewrite bool_decide_false by lia. simpl. rewrite (lookup_ge_None_2 T0 ti) by done.
      rewrite bool_decide_true by lia. destruct (lookup_lt_is_Some_2 E0 ci) as [e ->]; [lia|]. simpl. lia.
    + rewrite (bool_decide_true (ti < _)%nat) by done. simpl.
      destruct (Z.leb_spec (_compare_tlvtypes (T0 !! ti) (E0 !! ci)) 0) as [Hc|Hc].
      * match goal with |- context [if ?b then S ci else ci] => destruct b end; lia.
      * assert (ci < length E0)%nat as Hci.
        { destruct (E0 !! ci) eqn:Ee; [by apply lookup_lt_Some in Ee|].
          destruct (lookup_lt_is_Some_2 T0 ti Ht) as [x Hx]. rewrite Hx in Hc. simpl in Hc. lia. }
        rewrite bool_decide_true by done. destruct (Z.ltb_spec 0 (_compare_tlvtypes (T0 !! ti) (E0 !! ci))); simpl; lia.
Qed.

Lemma drop_marked_ok (st : sched W) : sched_ok st -> sched_ok (drop_marked idx st).
Proof.
  intros Hok. unfold drop_marked. set (ds := omap _ _).
  set (f := fun e : consumer_entry => if match ce_tlv e with Some _ => drop e | None => false end then set_drop false e else e).
  fold f.
  assert (sched_ok (set_entries (map f (s_entries st)) st)) as Hok1.
  { destruct Hok as [Ht Hi He Hc]. split; simpl; [done|done| |].
    - rewrite <- He. change (map f (s_entries st)) with (f <$> s_entries st). rewrite <- list_fmap_compose.
      apply list_fmap_ext. intros i e _. unfold f. simpl. by repeat case_match.
    - rewrite Forall_map. eapply Forall_impl; [exact Hc|]. intros e [? ?]. unfold f. simpl.
      repeat case_match; by split. }
  clearbody f. clearbody ds. clear Hok.
  enough (forall l, sched_ok (set_entries (map f (s_entries st)) (set_tlvs l st)) ->
    sched_ok (set_entries (map f (s_entries st)) (set_tlvs (foldl (fun l id => on_id id (mark_dropped idx) l) l ds) st)))
    as Hind by (by apply Hind; destruct st).
  induction ds as [|d ds IH]; intros l Hl; simpl; [done|]. apply IH.
  change (sched_ok (set_tlvs (on_id d (mark_dropped idx) (s_tlvs (set_entries (map f (s_entries st)) (set_tlvs l st))))
    (set_entries (map f (s_entries st)) (set_tlvs l st)))).
  apply on_id_ok; [done|done|done|]. intros e He _. apply (tlv_ok_update (mark_dropped idx)); [|done|by right].
  pose proof (so_tlvs _ Hl) as Ht. rewrite Forall_forall in Ht. by apply Ht.
Qed.

Lemma finish_tlvblock_ok (c : consumer W) failed st : sched_ok st -> sched_ok (finish_tlvblock c idx failed st).2.
Proof.
  intros Hok. unfold finish_tlvblock.
  assert (forall o : Z * sched W, sched_ok o.2 ->
    sched_ok (let '(r, s) := o in if r =? RFC5444_DROP_TLV then (RFC5444_OKAY, drop_marked idx s) else (r, s)).2) as Hd.
  { intros [r s] Hs. destruct (r =? _); [by apply drop_marked_ok|done]. }
  assert (forall cb, sched_ok (call cb st).2) as Hcall by (intros cb; by apply (call_spec cb st)).
  apply Hd. destruct (block_callback c) as [cb|], (block_callback_failed_constraints c) as [cb'|], failed;
    first [exact Hok|apply Hcall].
Qed.

(** A drop of single TLVs is never handed on. *)
Lemma finish_tlvblock_result (c : consumer W) failed st : (finish_tlvblock c idx failed st).1 <> RFC5444_DROP_TLV.
Proof.
  unfold finish_tlvblock. destruct (match block_callback c with Some _ => _ | None => _ end) as [r s].
  by destruct (Z.eqb_spec r RFC5444_DROP_TLV).
Qed.

Lemma run_tlv_callback_result (c : consumer W) ti im m st : (run_tlv_callback c idx ti im m st).1.1 <> RFC5444_DROP_TLV.
Proof.
  unfold run_tlv_callback. destruct (s_tlvs st !! ti); [|done]. destruct (tlv_callback c); [|done].
  destruct im; [|done]. destruct (call _ _) as [r s]. by destruct (Z.eqb_spec r RFC5444_DROP_TLV).
Qed.

Lemma schedule_loop_result (c : consumer W) fuel ti ci failed st r f st' :
  schedule_loop fuel buf c idx ti ci failed st = Def (r, f, st') -> r <> RFC5444_DROP_TLV.
Proof.
  revert ti ci failed st. induction fuel as [|fuel IH]; intros ti ci failed st; simpl.
  { destruct (at_end _ _ _); [|done]. by intros [= <- _ _]. }
  destruct (at_end _ _ _); [by intros [= <- _ _]|].
  set (im := tlv_index_match idx ti st). pose proof (run_tlv_callback_result c ti im (type_match im ti ci st) (select_value idx ti im st)) as Hr.
  destruct (run_tlv_callback _ _ _ _ _ _) as [[r0 m] s0]. simpl in Hr.
  destruct (Z.eqb_spec r0 RFC5444_OKAY); simpl; [|by intros [= <- _ _]].
  intros H. inv_bind. destruct v as [f3 s3]. destruct (advance_entry _ _ _ _ _) as [[ci' f4] s4].
  by apply IH in H.
Qed.

(** One consumer scheduled on one block. *)
Lemma schedule_tlvblock_safe (c : consumer W) st : s_tlvs st = T0 -> s_entries st = E0 ->
  Forall (tlv_ok eob n) T0 -> Forall copy_fits E0 ->
  exists r st', _schedule_tlvblock buf c idx st = Def (r, st') /\ sched_ok st' /\ r <> RFC5444_DROP_TLV.
Proof.
  intros ET EE HT HE. unfold _schedule_tlvblock. rewrite ET, EE.
  assert (sched_ok (reset_entry 0 st)) as Hok.
  { apply reset_entry_ok. split; rewrite ?ET, ?EE; done. }
  destruct (schedule_loop_safe c (length T0 + length E0) 0 0 false (reset_entry 0 st) Hok) as (r & f & st1 & E & Hok1);
    [apply reset_entry_chain|unfold remaining; lia|].
  rewrite E. simpl. apply schedule_loop_result in E. destruct (Z.eqb_spec r RFC5444_OKAY); simpl; [|by eexists _, _].
  pose proof (finish_tlvblock_ok c f st1 Hok1). pose proof (finish_tlvblock_result c f st1).
  destruct (finish_tlvblock c idx f st1) as [r2 st2]. by exists r2, st2.
Qed.
End safety.
