(* ===== verification/ReaderMatch.v ===== *)
(** What a consumer of a TLV block is told: the merge of the sorted TLVs with
    the sorted TLV descriptions in [_schedule_tlvblock] finds exactly the TLVs
    each description asks for. *)

From Stdlib Require Import ZArith Lia Sorted Btauto.
From stdpp Require Import base list numbers option gmap sets.
From S2P Require Import Prelude AvlSpec Netaddr Bitmap256 ReaderParse ReaderSchedule.

Local Open Scope Z_scope.

(** ** The specification *)

(** The TLV types (256 * type + extension) a consumer entry asks for. *)
Definition entry_low (e : consumer_entry) : Z :=
  if match_type_ext e then 256 * ce_type e + ce_type_ext e else 256 * ce_type e.
Definition entry_high (e : consumer_entry) : Z :=
  if match_type_ext e then 256 * ce_type e + ce_type_ext e else 256 * ce_type e + 255.

Definition entry_octets (e : consumer_entry) : Prop := is_u8 (ce_type e) /\ is_u8 (ce_type_ext e).

(** The entries ask for different types and are in type order. *)
Definition entries_sorted : list consumer_entry -> Prop :=
  StronglySorted (fun a b => entry_high a < entry_low b).

Definition in_range (e : consumer_entry) (t : tlvblock_entry) : bool :=
  (entry_low e <=? _order t) && (_order t <=? entry_high e).

(** The TLVs of address [idx] that fit an entry, in tree order. *)
Definition matches (idx : Z) (e : consumer_entry) (t : tlvblock_entry) : bool := in_range e t && index_match idx t.
Definition matching (idx : Z) (e : consumer_entry) (l : list tlvblock_entry) : list nat :=
  tlv_id <$> filter (fun t => matches idx e t = true) l.

Definition bad_length (e : consumer_entry) (t : tlvblock_entry) : bool :=
  (length_ t <? min_length e) || (max_length e <? length_ t).

(** A TLV of the right type that is for other addresses (or was dropped). *)
Definition other_index (idx : Z) (e : consumer_entry) (l : list tlvblock_entry) : bool :=
  existsb (fun t => in_range e t && negb (index_match idx t)) l.

Definition partial_failed (idx : Z) (e : consumer_entry) (l : list tlvblock_entry) : bool :=
  (mandatory e && other_index idx e l) ||
  (match_length e && existsb (fun t => matches idx e t && bad_length e t) l).

(** The constraint of an entry is violated: a TLV has a bad length, or the
    entry is mandatory and there is no TLV of its type, or one that is not for
    this address. *)
Definition entry_failed (idx : Z) (e : consumer_entry) (l : list tlvblock_entry) : bool :=
  partial_failed idx e l || (mandatory e && negb (existsb (in_range e) l)).

(** ** The merge *)

Section merge.
Context {W : Type}.
Context (buf : bytes) (eob : Z) (Heob : eob <= blen buf) (n idx : Z).
Context (T0 : list tlvblock_entry) (E0 : list consumer_entry).
Context (Hids : NoDup (tlv_id <$> T0)) (Hsorted : tree_sorted _order avl_comp_uint16 T0).
Context (Htlvs : Forall (tlv_ok eob n) T0).
Context (Hocts : Forall entry_octets E0) (Hentries : entries_sorted E0).
Context (C0 : context) (W0 : W).

Notation sched_ok := (sched_ok eob n T0 E0).

Lemma compare_range t e : tlv_ok eob n t -> entry_octets e ->
  (0 <= _compare_tlvtypes (Some t) (Some e) <-> entry_low e <= _order t) /\
  (_compare_tlvtypes (Some t) (Some e) <= 0 <-> _order t <= entry_high e).
Proof.
  intros [[Ht [Hx _]] Ho _ _ _ _] [He Hxe]. unfold _compare_tlvtypes, _calc_tlvconsumer_intorder, entry_low, entry_high.
  rewrite octet_word by done. unfold is_u8 in *. destruct (match_type_ext e); lia.
Qed.

Lemma order_sorted i j a b : T0 !! i = Some a -> T0 !! j = Some b -> (i <= j)%nat -> _order a <= _order b.
Proof.
  intros Ha Hb Hij. destruct (decide (i = j)) as [->|Hne]; [assert (a = b) as -> by congruence; lia|].
  assert (key_le _order avl_comp_uint16 a b) as H by (eapply StronglySorted_lookup_lt; [exact Hsorted|exact Ha|exact Hb|lia]).
  unfold key_le, avl_comp_uint16 in H.
  destruct (Z.ltb_spec (_order b) (_order a)), (Z.ltb_spec (_order a) (_order b)); lia.
Qed.

Lemma entry_order j k a b : E0 !! j = Some a -> E0 !! k = Some b -> (j < k)%nat -> entry_high a < entry_low b.
Proof.
  intros Ha Hb Hjk.
  exact (StronglySorted_lookup_lt (fun a b => entry_high a < entry_low b) E0 j k a b Hentries Ha Hb Hjk).
Qed.

(** The state of the merge at positions [ti], [ci]. *)
Record merge_inv (ti ci : nat) (failed : bool) (st : sched W) : Prop := {
  mi_ok : sched_ok st;
  mi_world : s_ctx st = C0 /\ s_world st = W0;
  mi_drop : int_drop_tlv <$> s_tlvs st = int_drop_tlv <$> T0;
  mi_done j e e0 : (j < ci)%nat -> s_entries st !! j = Some e -> E0 !! j = Some e0 ->
    chain_of (s_tlvs st) e (matching idx e0 T0);
  mi_current e e0 : s_entries st !! ci = Some e -> E0 !! ci = Some e0 ->
    chain_of (s_tlvs st) e (matching idx e0 (take ti T0));
  mi_before i t e0 : (i < ti)%nat -> T0 !! i = Some t -> E0 !! ci = Some e0 -> _order t <= entry_high e0;
  mi_after i t j e0 : (ti <= i)%nat -> T0 !! i = Some t -> (j < ci)%nat -> E0 !! j = Some e0 -> entry_high e0 < _order t;
  mi_failed : failed = existsb (fun e => entry_failed idx e T0) (take ci E0) ||
    match E0 !! ci with Some e0 => partial_failed idx e0 (take ti T0) | None => false end;
}.

(** Nothing behind [ti] is for an entry whose types end before it. *)
Lemma suffix_out_of_range ti e0 (P : tlvblock_entry -> bool) : 
  (forall i t, (ti <= i)%nat -> T0 !! i = Some t -> entry_high e0 < _order t) ->
  (forall t, P t = true -> in_range e0 t = true) ->
  existsb P (take ti T0) = existsb P T0 /\ filter (fun t => P t = true) (take ti T0) = filter (fun t => P t = true) T0.
Proof.
  intros Hout HP. assert (Forall (fun t => P t = false) (skipn ti T0)) as Hd.
  { rewrite Forall_lookup. intros i t Hi. rewrite lookup_drop in Hi. pose proof (Hout _ t (Nat.le_add_r ti i) Hi).
    destruct (P t) eqn:E; [|done]. specialize (HP t E). unfold in_range in HP.
    rewrite andb_true_iff, !Z.leb_le in HP. lia. }
  rewrite <- (take_drop ti T0) at 2 4. rewrite existsb_app, filter_app. split.
  - assert (existsb P (skipn ti T0) = false) as ->; [|by rewrite orb_false_r].
    induction Hd as [|t l Ht _ IH]; simpl; [done|]. by rewrite Ht.
  - assert (filter (fun t => P t = true) (skipn ti T0) = []) as ->; [|by rewrite app_nil_r].
    induction Hd as [|t l Ht _ IH]; [done|]. rewrite filter_cons_False by congruence. done.
Qed.

Lemma matches_range e0 t : matches idx e0 t = true -> in_range e0 t = true.
Proof. unfold matches. by intros [? _]%andb_true_iff. Qed.

Lemma partial_failed_suffix ti e0 :
  (forall i t, (ti <= i)%nat -> T0 !! i = Some t -> entry_high e0 < _order t) ->
  partial_failed idx e0 (take ti T0) = partial_failed idx e0 T0 /\
  existsb (in_range e0) (take ti T0) = existsb (in_range e0) T0 /\
  matching idx e0 (take ti T0) = matching idx e0 T0.
Proof.
  intros Hout. unfold partial_failed, other_index, matching.
  rewrite (proj1 (suffix_out_of_range ti e0 (fun t => in_range e0 t && negb (index_match idx t)) Hout
    ltac:(by intros t [? _]%andb_true_iff))).
  rewrite (proj1 (suffix_out_of_range ti e0 (fun t => matches idx e0 t && bad_length e0 t) Hout
    ltac:(by intros t [?%matches_range _]%andb_true_iff))).
  rewrite (proj1 (suffix_out_of_range ti e0 (in_range e0) Hout ltac:(done))).
  rewrite (proj2 (suffix_out_of_range ti e0 (matches idx e0) Hout (matches_range e0))). done.
Qed.

(** An entry whose types lie behind a prefix has nothing in it. *)
Lemma prefix_out_of_range ti e0 (P : tlvblock_entry -> bool) :
  (forall i t, (i < ti)%nat -> T0 !! i = Some t -> _order t < entry_low e0) ->
  (forall t, P t = true -> in_range e0 t = true) ->
  existsb P (take ti T0) = false /\ filter (fun t => P t = true) (take ti T0) = [].
Proof.
  intros Hout HP. assert (Forall (fun t => P t = false) (take ti T0)) as Hd.
  { rewrite Forall_lookup. intros i t Hi. apply lookup_take_Some in Hi as [Hi Hlt]. specialize (Hout i t Hlt Hi).
    destruct (P t) eqn:E; [|done]. specialize (HP t E). unfold in_range in HP.
    rewrite andb_true_iff, !Z.leb_le in HP. lia. }
  induction Hd as [|t l Ht _ [IH1 IH2]]; [done|]. simpl. rewrite Ht. split; [done|].
  rewrite filter_cons_False by congruence. done.
Qed.

Lemma partial_failed_prefix ti e0 :
  (forall i t, (i < ti)%nat -> T0 !! i = Some t -> _order t < entry_low e0) ->
  partial_failed idx e0 (take ti T0) = false /\ existsb (in_range e0) (take ti T0) = false /\
  matching idx e0 (take ti T0) = [].
Proof.
  intros Hout. unfold partial_failed, other_index, matching.
  rewrite (proj1 (prefix_out_of_range ti e0 (fun t => in_range e0 t && negb (index_match idx t)) Hout
    ltac:(by intros t [? _]%andb_true_iff))).
  rewrite (proj1 (prefix_out_of_range ti e0 (fun t => matches idx e0 t && bad_length e0 t) Hout
    ltac:(by intros t [?%matches_range _]%andb_true_iff))).
  rewrite (proj1 (prefix_out_of_range ti e0 (in_range e0) Hout ltac:(done))).
  rewrite (proj2 (prefix_out_of_range ti e0 (matches idx e0) Hout (matches_range e0))).
  by rewrite !andb_false_r.
Qed.

(** One more TLV in the prefix. *)
Lemma partial_failed_snoc ti t e0 : T0 !! ti = Some t ->
  partial_failed idx e0 (take (S ti) T0) =
    partial_failed idx e0 (take ti T0) || (mandatory e0 && (in_range e0 t && negb (index_match idx t))) ||
      (match_length e0 && (matches idx e0 t && bad_length e0 t)) /\
  existsb (in_range e0) (take (S ti) T0) = existsb (in_range e0) (take ti T0) || in_range e0 t /\
  matching idx e0 (take (S ti) T0) = matching idx e0 (take ti T0) ++ (if matches idx e0 t then [tlv_id t] else []).
Proof.
  intros Ht. rewrite (take_S_r _ _ _ Ht). unfold partial_failed, other_index, matching.
  rewrite !existsb_app, filter_app, fmap_app. simpl. rewrite !orb_false_r. split_and!.
  - btauto.
  - done.
  - f_equal. rewrite filter_cons. by destruct (matches idx e0 t).
Qed.

Lemma T0_index_match ti ci failed st : merge_inv ti ci failed st ->
  tlv_index_match idx ti st = match T0 !! ti with Some t => index_match idx t | None => false end.
Proof.
  intros [Hok _ Hd _ _ _ _ _]. unfold tlv_index_match.
  assert (static <$> s_tlvs st !! ti = static <$> T0 !! ti) as Es.
  { rewrite <- !list_lookup_fmap. by rewrite (so_static _ _ _ _ _ Hok). }
  apply (f_equal (fun l => l !! ti)) in Hd. rewrite !list_lookup_fmap in Hd.
  destruct (s_tlvs st !! ti) as [t|], (T0 !! ti) as [t0|]; try done.
  injection Hd as Hd. injection Es as E1 E2 E3 E4 E5 E6 E7 E8 E9 E10. unfold index_match. by rewrite Hd, E6, E7.
Qed.

(** The current chain is behind [ti]. *)
Lemma mi_chain ti ci failed st : merge_inv ti ci failed st -> chain_inv T0 ti ci st.
Proof.
  intros Hm e He. destruct (E0 !! ci) as [e0|] eqn:E.
  - exists (matching idx e0 (take ti T0)). split; [by eapply mi_current|].
    intros x (t & -> & Ht)%list_elem_of_fmap. apply list_elem_of_filter in Ht as [_ Ht].
    apply list_elem_of_lookup in Ht as [j Hj]. apply lookup_take_Some in Hj as [Hj Hlt].
    exists j. split; [done|]. by rewrite list_lookup_fmap, Hj.
  - apply lookup_ge_None in E. apply lookup_lt_Some in He. destruct (so_length _ _ _ _ _ (mi_ok _ _ _ _ Hm)). lia.
Qed.

Lemma merge_select ti ci failed st : merge_inv ti ci failed st ->
  let st' := select_value idx ti (tlv_index_match idx ti st) st in
  merge_inv ti ci failed st' /\
  (tlv_index_match idx ti st = true -> forall e, s_tlvs st' !! ti = Some e -> value_readable buf e).
Proof.
  intros Hm st'. destruct (select_value_spec buf eob Heob n idx T0 E0 Hids ti ci st (mi_ok _ _ _ _ Hm) (mi_chain _ _ _ _ Hm))
    as (Hok & _ & Hent & Hrd). cbv zeta in *. fold st' in Hok, Hent, Hrd. split; [|done].
  destruct Hm as [_ Hw Hd Hdone Hcur Hb Ha Hf].
  assert (st' = st \/ exists id v, st' = set_tlvs (on_id id (set_single_value v) (s_tlvs st)) st) as [->|(id & v & E)].
  { unfold st', select_value. repeat case_match; eauto. }
  { by split. }
  clearbody st'. subst st'. split; simpl in *; try done.
  - by rewrite on_id_static.
  - intros j e e0 Hj He He0. destruct (Hdone j e e0 Hj He He0) as (H1 & H2 & H3). split; [done|].
    split; [by apply linked_on_id_keep|done].
  - intros e e0 He He0. destruct (Hcur e e0 He He0) as (H1 & H2 & H3). split; [done|].
    split; [by apply linked_on_id_keep|done].
Qed.

(** A TLV that is not linked: it is too small for the entry, or for another
    address. *)
Lemma merge_skip ti ci failed st t : merge_inv ti ci failed st -> T0 !! ti = Some t ->
  (forall e0, E0 !! ci = Some e0 -> matches idx e0 t = false /\ _order t <= entry_high e0) ->
  merge_inv (S ti) ci
    (failed || match E0 !! ci with Some e0 => mandatory e0 && in_range e0 t | None => false end) st.
Proof.
  intros [Hok Hw Hd Hdone Hcur Hb Ha Hf] Ht Hno. split; try done.
  - intros e e0 He He0. specialize (Hcur e e0 He He0).
    destruct (partial_failed_snoc ti t e0 Ht) as (_ & _ & ->). rewrite (proj1 (Hno e0 He0)), app_nil_r. done.
  - intros i t' e0 Hi Ht' He0. destruct (decide (i = ti)) as [->|]; [|by apply (Hb i); [lia|..]].
    assert (t' = t) as -> by congruence. by apply Hno.
  - intros i t' j e0 Hi. apply Ha. lia.
  - rewrite Hf. destruct (E0 !! ci) as [e0|]; [|by rewrite !orb_false_r].
    destruct (Hno e0 eq_refl) as [Hm _]. destruct (partial_failed_snoc ti t e0 Ht) as (-> & _ & _).
    rewrite Hm. unfold matches in Hm. destruct (in_range e0 t); simpl in *; [rewrite Hm; simpl|]; btauto.
Qed.

(** A matching TLV is linked behind the others. *)
Lemma merge_link ti ci failed st t e0 tlv entry : merge_inv ti ci failed st ->
  T0 !! ti = Some t -> E0 !! ci = Some e0 -> s_tlvs st !! ti = Some tlv -> s_entries st !! ci = Some entry ->
  matches idx e0 t = true -> value_readable buf tlv ->
  exists st', match_entry buf ci entry tlv st = Def (match_length e0 && bad_length e0 t, st') /\
    merge_inv (S ti) ci (failed || (match_length e0 && bad_length e0 t)) st'.
Proof.
  intros Hm Ht He0 Htlv Hentry Hmatch Hread. pose proof (mi_ok _ _ _ _ Hm) as Hok.
  assert (static tlv = static t) as Hst.
  { pose proof (so_static _ _ _ _ _ Hok) as E. apply (f_equal (fun l => l !! ti)) in E.
    rewrite !list_lookup_fmap, Htlv, Ht in E. simpl in E. congruence. }
  assert (entry_static entry = entry_static e0) as Hes.
  { pose proof (so_entries _ _ _ _ _ Hok) as E. apply (f_equal (fun l => l !! ci)) in E.
    rewrite !list_lookup_fmap, Hentry, He0 in E. simpl in E. congruence. }
  pose proof (so_ids _ _ _ _ _ Hok) as Hidseq.
  assert (tlv_id tlv = tlv_id t /\ length_ tlv = length_ t) as [Eid Elen] by (by injection Hst).
  assert (forall i x, T0 !! i = Some x -> tlv_id x = tlv_id t -> i = ti) as Huniq.
  { intros i x Hx Hid. eapply (NoDup_lookup (tlv_id <$> T0)); [exact Hids| |]; rewrite list_lookup_fmap.
    - by rewrite Hx.
    - rewrite Ht. simpl. congruence. }
  assert (forall x e l, x ∈ matching idx e l -> (forall y, y ∈ l -> y ∈ T0) ->
    exists y, y ∈ l /\ tlv_id y = x /\ matches idx e y = true /\ exists i, T0 !! i = Some y) as Hmem.
  { intros x e l (y & -> & Hy)%list_elem_of_fmap Hl. apply list_elem_of_filter in Hy as [Hy1 Hy2].
    exists y. split; [done|]. split; [done|]. split; [done|]. by apply list_elem_of_lookup, Hl. }
  destruct (match_entry_spec buf ci entry tlv (matching idx e0 (take ti T0)) st) as (st' & E & Hmd).
  - by rewrite Hidseq.
  - by eapply list_elem_of_lookup_2.
  - done.
  - by eapply mi_current.
  - rewrite Eid. intros (y & Hid & Hy)%list_elem_of_fmap. apply list_elem_of_filter in Hy as [_ Hy].
    apply list_elem_of_lookup in Hy as [i Hi]. apply lookup_take_Some in Hi as [Hi Hlt].
    specialize (Huniq i y Hi (eq_sym Hid)). lia.
  - intros x (y & -> & Hy)%list_elem_of_fmap. apply list_elem_of_filter in Hy as [_ Hy].
    rewrite Hidseq. apply list_elem_of_fmap_2. apply list_elem_of_lookup in Hy as [i Hi].
    apply lookup_take_Some in Hi as [Hi _]. by eapply list_elem_of_lookup_2.
  - done.
  - by eapply Forall_lookup_1 in Hentry; [|apply Hok].
  - pose proof (Forall_lookup_1 _ _ _ _ (so_tlvs _ _ _ _ _ Hok) Htlv) as Hf. apply Hf.
  - exists st'. unfold bad_length. assert (match_length entry = match_length e0 /\ min_length entry = min_length e0 /\
      max_length entry = max_length e0) as (E1 & E2 & E3) by (by injection Hes).
    rewrite E, E1, E2, E3, Elen. split; [done|].
    destruct (partial_failed_snoc ti t e0 Ht) as (Hpf & _ & Hmt).
    pose proof (matched_ok buf eob n T0 E0 _ _ _ _ _ _ Hok Hentry Hmd) as Hok'.
    destruct Hm as [_ Hw Hd Hdone Hcur Hb Ha Hf]. destruct Hmd as [Hctx Hent Hstat Hoth].
    destruct Hent as (entry' & Hent & Hes' & _ & Hch' & Hcf').
    split.
    + done.
    + destruct Hctx as [-> ->]. done.
    + rewrite <- Hd. by apply Hstat.
    + intros j e e1 Hj He He1. rewrite Hent, list_lookup_insert_ne in He by lia.
      destruct (Hdone j e e1 Hj He He1) as (H1 & H2 & H3). split; [done|]. split; [|done].
      apply Hoth; [done|]. intros x Hx. destruct (Hmem x e1 T0 Hx ltac:(done)) as (y & _ & <- & Hy & i & Hi).
      assert (ti <= i -> False)%nat as Hlt.
      { intros Hge. specialize (Ha i y j e1 Hge Hi Hj He1). apply matches_range in Hy. unfold in_range in Hy.
        rewrite andb_true_iff, !Z.leb_le in Hy. lia. }
      split; [|rewrite Eid; intros Hid; apply Hlt; specialize (Huniq i y Hi Hid); lia].
      intros Hin. destruct (Hmem _ e0 (take ti T0) Hin) as (z & _ & Hz & Hzm & k & Hk).
      { intros z Hz. apply list_elem_of_lookup in Hz as [k Hk]. apply lookup_take_Some in Hk as [Hk _].
        by eapply list_elem_of_lookup_2. }
      assert (k = i) as ->.
      { eapply (NoDup_lookup (tlv_id <$> T0)); [exact Hids| |]; rewrite list_lookup_fmap; [by rewrite Hk|].
        rewrite Hi. simpl. congruence. }
      assert (z = y) as -> by congruence. pose proof (entry_order j ci e1 e0 He1 He0 Hj) as Hlt'.
      apply matches_range in Hy, Hzm. unfold in_range in Hy, Hzm. rewrite andb_true_iff, !Z.leb_le in Hy, Hzm. lia.
    + intros e e1 He He1. assert (e1 = e0) as -> by congruence.
      rewrite Hent, list_lookup_insert_eq in He by (by eapply lookup_lt_Some). injection He as <-.
      rewrite Hmt, Hmatch, <- Eid. done.
    + intros i t' e1 Hi Ht' He1. assert (e1 = e0) as -> by congruence.
      destruct (decide (i = ti)) as [->|]; [|by apply (Hb i); [lia|..]].
      assert (t' = t) as -> by congruence. apply matches_range in Hmatch. unfold in_range in Hmatch.
      rewrite andb_true_iff, !Z.leb_le in Hmatch. lia.
    + intros i t' j e1 Hi. apply Ha. lia.
    + rewrite Hf, He0, Hpf. unfold matches in Hmatch |- *. apply andb_true_iff in Hmatch as [-> ->].
      unfold bad_length. simpl. btauto.
Qed.

Notation compare ti ci := (_compare_tlvtypes (T0 !! ti) (E0 !! ci)).

(** No TLV in front of [ti] is for an entry that lies in front of [ti]. *)
Definition fresh (ti ci : nat) : Prop :=
  0 < compare ti ci -> forall e0, E0 !! ci = Some e0 -> existsb (in_range e0) (take ti T0) = false.

Lemma compare_gt ti ci e0 : 0 < compare ti ci -> E0 !! ci = Some e0 ->
  forall i t, (ti <= i)%nat -> T0 !! i = Some t -> entry_high e0 < _order t.
Proof.
  intros Hc He0 i t Hi Ht. destruct (T0 !! ti) as [t0|] eqn:E.
  - rewrite He0 in Hc. pose proof (order_sorted ti i _ _ E Ht Hi).
    destruct (compare_range t0 e0) as [_ Hr]; [by eapply Forall_lookup_1 in E|by eapply Forall_lookup_1 in He0|]. lia.
  - apply lookup_ge_None in E. apply lookup_lt_Some in Ht. lia.
Qed.

(** The next entry: nothing that follows is for the current one. *)
Lemma merge_advance ti ci failed x st e0 : merge_inv ti ci failed st -> 0 < compare ti ci -> E0 !! ci = Some e0 ->
  failed || x = failed || (mandatory e0 && negb (existsb (in_range e0) (take ti T0))) ->
  merge_inv ti (S ci) (failed || x) (reset_entry (S ci) st) /\ fresh ti (S ci).
Proof.
  intros [Hok Hw Hd Hdone Hcur Hb Ha Hf] Hc He0 Hx. pose proof (compare_gt ti ci e0 Hc He0) as Hafter.
  destruct (partial_failed_suffix ti e0 Hafter) as (Hpf & Hex & Hmt).
  assert (forall e1, E0 !! S ci = Some e1 -> forall i t, (i < ti)%nat -> T0 !! i = Some t -> _order t < entry_low e1) as Hbefore.
  { intros e1 He1 i t Hi Ht. specialize (Hb i t e0 Hi Ht He0). pose proof (entry_order ci (S ci) e0 e1 He0 He1). lia. }
  split; [split|].
  - by apply reset_entry_ok.
  - done.
  - done.
  - intros j e e1 Hj He He1. simpl in He. rewrite list_lookup_alter_ne in He by lia. destruct (decide (j = ci)) as [->|].
    + assert (e1 = e0) as -> by congruence. rewrite <- Hmt. by apply Hcur.
    + apply (Hdone j); [lia|done|done].
  - intros e e1 He He1. destruct (partial_failed_prefix ti e1 (Hbefore e1 He1)) as (_ & _ & ->).
    simpl in He. rewrite list_lookup_alter_eq in He. destruct (s_entries st !! S ci); [|done]. injection He as <-.
    split; [done|]. split; [done|constructor].
  - intros i t e1 Hi Ht He1. specialize (Hbefore e1 He1 i t Hi Ht).
    assert (entry_octets e1) as [? ?] by (by eapply Forall_lookup_1 in He1).
    unfold entry_low, entry_high, is_u8 in *. destruct (match_type_ext e1); lia.
  - intros i t j e1 Hi Ht Hj He1. destruct (decide (j = ci)) as [->|]; [|apply (Ha i t j); [done|done|lia|done]].
    assert (e1 = e0) as -> by congruence. by apply (Hafter i t).
  - rewrite Hx, Hf, He0, (take_S_r _ _ _ He0), existsb_app. simpl. unfold entry_failed at 3. rewrite Hpf, Hex.
    assert (match E0 !! S ci with Some e1 => partial_failed idx e1 (take ti T0) | None => false end = false) as ->.
    { destruct (E0 !! S ci) as [e1|] eqn:He1; [|done]. by destruct (partial_failed_prefix ti e1 (Hbefore e1 eq_refl)). }
    btauto.
  - intros _ e1 He1. by destruct (partial_failed_prefix ti e1 (Hbefore e1 He1)) as (_ & ? & _).
Qed.

(** The current objects and what they were at the start. *)
Lemma merge_entry ti ci failed st e0 : merge_inv ti ci failed st -> E0 !! ci = Some e0 ->
  exists entry, s_entries st !! ci = Some entry /\ entry_static entry = entry_static e0.
Proof.
  intros Hm He0. pose proof (so_entries _ _ _ _ _ (mi_ok _ _ _ _ Hm)) as E.
  apply (f_equal (fun l => l !! ci)) in E. rewrite !list_lookup_fmap, He0 in E. simpl in E.
  destruct (s_entries st !! ci) as [e|]; [|done]. simpl in E. exists e. split; [done|congruence].
Qed.

Lemma merge_compare ti ci failed st : merge_inv ti ci failed st ->
  forall ti' ci', _compare_tlvtypes (s_tlvs st !! ti') (s_entries st !! ci') = compare ti' ci'.
Proof. intros Hm ti' ci'. apply (so_compare eob n). by eapply mi_ok. Qed.

(** The match step when the TLV is not behind the entry. *)
Lemma merge_run_match ti ci failed st t : merge_inv ti ci failed st -> T0 !! ti = Some t -> compare ti ci <= 0 ->
  let m := bool_decide (compare ti ci = 0) && index_match idx t in
  (m = true -> forall e, s_tlvs st !! ti = Some e -> value_readable buf e) ->
  exists failed' st', run_match buf ti ci failed m st = Def (failed', st') /\ merge_inv (S ti) ci failed' st' /\
    forall e0, E0 !! ci = Some e0 -> failed' || (mandatory e0 && negb m) =
      failed' || (mandatory e0 && negb (existsb (in_range e0) (take (S ti) T0))).
Proof.
  intros Hm Ht Hc m Hread. unfold run_match. destruct (E0 !! ci) as [e0|] eqn:He0.
  - destruct (merge_entry _ _ _ _ _ Hm He0) as (entry & Hentry & Hes).
    pose proof (merge_compare _ _ _ _ Hm ti ci) as Hcmp. rewrite Hentry, He0 in Hcmp. rewrite Hentry, Hcmp.
    assert (mandatory entry = mandatory e0) as -> by (by injection Hes).
    pose proof (Forall_lookup_1 _ _ _ _ Htlvs Ht) as Htok. pose proof (Forall_lookup_1 _ _ _ _ Hocts He0) as Heok.
    destruct (compare_range t e0 Htok Heok) as [Hlow Hhigh]. rewrite Ht in Hc |- *.
    destruct (partial_failed_snoc ti t e0 Ht) as (_ & Hex & _).
    destruct (Z.leb_spec 0 (_compare_tlvtypes (Some t) (Some e0))) as [H0|H0].
    + assert (in_range e0 t = true) as Hr by (unfold in_range; rewrite andb_true_iff, !Z.leb_le; lia).
      assert (m = matches idx e0 t) as Em.
      { unfold m, matches. rewrite Ht, Hr, bool_decide_true by lia. done. }
      destruct (s_tlvs st !! ti) as [tlv|] eqn:Htlv; cycle 1.
      { apply lookup_ge_None in Htlv. apply lookup_lt_Some in Ht. destruct (so_length _ _ _ _ _ (mi_ok _ _ _ _ Hm)). lia. }
      destruct m.
      * destruct (merge_link ti ci failed st t e0 tlv entry Hm Ht He0 Htlv Hentry (eq_sym Em) (Hread eq_refl tlv eq_refl))
          as (st' & -> & Hm'). simpl. rewrite !andb_false_r, !orb_false_r. eexists _, st'. split; [done|]. split; [done|].
        intros e1 [= <-]. rewrite Hex, Hr, orb_true_r. by rewrite !andb_false_r.
      * eexists _, st. split; [done|]. pose proof (merge_skip ti ci failed st t Hm Ht) as Hs.
        rewrite He0, Hr in Hs. split.
        -- apply Hs. intros e1 [= <-]. split; [done|]. lia.
        -- intros e1 [= <-]. rewrite Hex, Hr. btauto.
    + assert (in_range e0 t = false) as Hr.
      { unfold in_range. rewrite andb_false_iff, !Z.leb_gt. lia. }
      assert (m = false) as Em by (unfold m; rewrite Ht, bool_decide_false by lia; done).
      eexists _, st. split; [done|]. split.
      * pose proof (merge_skip ti ci failed st t Hm Ht) as Hs. rewrite He0, Hr, andb_false_r, orb_false_r in Hs.
        apply Hs. intros e1 [= <-]. unfold matches. rewrite Hr. split; [done|]. lia.
      * intros e1 [= <-]. rewrite Em. destruct (partial_failed_prefix (S ti) e0) as (_ & -> & _); [|done].
        intros i t' Hi Ht'. pose proof (order_sorted i ti t' t Ht' Ht ltac:(lia)). lia.
  - assert (s_entries st !! ci = None) as ->.
    { apply lookup_ge_None. apply lookup_ge_None in He0. destruct (so_length _ _ _ _ _ (mi_ok _ _ _ _ Hm)). lia. }
    eexists _, st. split; [done|]. split; [|done]. pose proof (merge_skip ti ci failed st t Hm Ht) as Hs.
    rewrite He0, orb_false_r in Hs. by apply Hs.
Qed.

Lemma merge_type_match ti ci failed st t : merge_inv ti ci failed st -> T0 !! ti = Some t ->
  type_match (tlv_index_match idx ti st) ti ci st = bool_decide (compare ti ci = 0) && index_match idx t.
Proof.
  intros Hm Ht. rewrite (T0_index_match _ _ _ _ Hm), Ht. unfold type_match.
  pose proof (merge_compare _ _ _ _ Hm ti ci) as Hc. rewrite Ht in Hc.
  destruct (so_length _ _ _ _ _ (mi_ok _ _ _ _ Hm)) as [L1 L2].
  destruct (s_tlvs st !! ti) as [tlv|] eqn:E1; [|apply lookup_ge_None in E1; apply lookup_lt_Some in Ht; lia].
  destruct (s_entries st !! ci) as [e|] eqn:E2.
  - rewrite Hc. rewrite andb_comm. f_equal.
    destruct (Z.eqb_spec (_compare_tlvtypes (Some t) (E0 !! ci)) 0);
      [by rewrite bool_decide_true by done|by rewrite bool_decide_false by done].
  - apply lookup_ge_None in E2. rewrite (lookup_ge_None_2 E0 ci) by lia. done.
Qed.

Lemma merge_type_match_none ti ci failed st : merge_inv ti ci failed st -> T0 !! ti = None ->
  type_match (tlv_index_match idx ti st) ti ci st = false.
Proof.
  intros Hm Ht. rewrite (T0_index_match _ _ _ _ Hm), Ht. unfold type_match. by repeat case_match.
Qed.

(** Advancing the entry, in the code's words. *)
Lemma merge_advance_entry ti ci failed m st : merge_inv ti ci failed st ->
  (0 < compare ti ci -> forall e0, E0 !! ci = Some e0 -> failed || (mandatory e0 && negb m) =
      failed || (mandatory e0 && negb (existsb (in_range e0) (take ti T0)))) ->
  exists ci' failed' st', advance_entry ti ci failed m st = (ci', failed', st') /\
    merge_inv ti ci' failed' st' /\ fresh ti ci' /\
    ci' = if bool_decide (0 < compare ti ci) then S ci else ci.
Proof.
  intros Hm Hx. unfold advance_entry. pose proof (merge_compare _ _ _ _ Hm ti ci) as Hc.
  destruct (so_length _ _ _ _ _ (mi_ok _ _ _ _ Hm)) as [L1 L2].
  destruct (E0 !! ci) as [e0|] eqn:He0.
  - destruct (merge_entry _ _ _ _ _ Hm He0) as (entry & Hentry & Hes). rewrite Hentry in Hc |- *.
    assert (mandatory entry = mandatory e0) as -> by (by injection Hes). rewrite Hc.
    destruct (Z.ltb_spec 0 (_compare_tlvtypes (T0 !! ti) (Some e0))) as [H|H].
    + rewrite bool_decide_true by done. eexists _, _, _. split; [done|].
      destruct (merge_advance ti ci failed (mandatory e0 && negb m) st e0 Hm) as [H1 H2]; [by rewrite He0|done|by apply Hx|done].
    + rewrite bool_decide_false by lia. eexists _, _, _. split; [done|]. split; [done|]. split; [|done].
      intros Hgt. rewrite He0 in Hgt. lia.
  - assert (s_entries st !! ci = None) as -> by (apply lookup_ge_None; apply lookup_ge_None in He0; lia).
    eexists _, _, _. split; [done|]. split; [done|]. split; [intros _ e0; congruence|].
    rewrite bool_decide_false; [done|]. by destruct (T0 !! ti); simpl.
Qed.

(** One round of the loop. *)
Lemma merge_step ti ci failed st : merge_inv ti ci failed st -> fresh ti ci -> at_end ti ci st = false ->
  let im := tlv_index_match idx ti st in
  let m := type_match im ti ci st in
  exists failed2 st2, run_match buf ti ci failed m (select_value idx ti im st) = Def (failed2, st2) /\
    exists ci' failed3 st3, advance_entry (advance_tlv ti ci st2) ci failed2 m st2 = (ci', failed3, st3) /\
      merge_inv (advance_tlv ti ci st2) ci' failed3 st3 /\ fresh (advance_tlv ti ci st2) ci' /\
      (remaining T0 E0 (advance_tlv ti ci st2) ci' < remaining T0 E0 ti ci)%nat.
Proof.
  intros Hm Hf Hend im m. destruct (merge_select ti ci failed st Hm) as [Hm1 Hread]. cbv zeta in *.
  fold im in Hm1, Hread. set (st1 := select_value idx ti im st) in *.
  rewrite (so_at_end eob n T0 E0) in Hend by (by eapply mi_ok). apply bool_decide_eq_false in Hend.
  destruct (Z.leb_spec (compare ti ci) 0) as [Hc|Hc].
  - destruct (T0 !! ti) as [t|] eqn:Ht; cycle 1.
    { exfalso. destruct (E0 !! ci) eqn:He0; simpl in Hc; [lia|]. apply lookup_ge_None in Ht, He0. lia. }
    assert (m = bool_decide (compare ti ci = 0) && index_match idx t) as Em by (by eapply merge_type_match).
    rewrite <- Ht in Hc. destruct (merge_run_match ti ci failed st1 t Hm1 Ht Hc) as (f2 & st2 & E & Hm2 & Hx).
    { rewrite <- Em. unfold m. intros Htm. apply Hread. unfold type_match in Htm. repeat case_match; try done.
      by apply andb_true_iff in Htm as [? _]. }
    rewrite <- Em in E, Hx. exists f2, st2. split; [done|].
    assert (advance_tlv ti ci st2 = S ti) as ->.
    { rewrite (advance_tlv_spec eob n T0 E0) by (by eapply mi_ok). apply lookup_lt_Some in Ht.
      rewrite bool_decide_true by done. simpl. by rewrite (proj2 (Z.leb_le _ _) Hc). }
    destruct (merge_advance_entry (S ti) ci f2 m st2 Hm2) as (ci' & f3 & st3 & E3 & Hm3 & Hf3 & Hci).
    { intros _ e0 He0. by apply Hx. }
    exists ci', f3, st3. split; [done|]. split; [done|]. split; [done|]. apply lookup_lt_Some in Ht.
    unfold remaining. rewrite Hci. case_bool_decide; lia.
  - destruct (E0 !! ci) as [e0|] eqn:He0; [|by destruct (T0 !! ti); simpl in Hc].
    assert (m = false) as Em.
    { destruct (T0 !! ti) as [t|] eqn:Ht; [|by eapply merge_type_match_none].
      assert (m = bool_decide (compare ti ci = 0) && index_match idx t) as -> by (by eapply merge_type_match).
      rewrite Ht, He0, bool_decide_false by lia. done. }
    assert (run_match buf ti ci failed m st1 = Def (failed || mandatory e0, st1)) as ->.
    { unfold run_match. destruct (merge_entry _ _ _ _ _ Hm1 He0) as (entry & Hentry & Hes).
      pose proof (merge_compare _ _ _ _ Hm1 ti ci) as Hcmp. rewrite Hentry, He0 in Hcmp. rewrite Hentry, Hcmp.
      assert (mandatory entry = mandatory e0) as -> by (by injection Hes).
      rewrite (proj2 (Z.leb_le _ _)) by lia. rewrite Em. simpl. rewrite andb_true_r. by destruct (s_tlvs st1 !! ti). }
    eexists _, st1. split; [done|].
    assert (advance_tlv ti ci st1 = ti) as ->.
    { rewrite (advance_tlv_spec eob n T0 E0) by (by eapply mi_ok). rewrite He0, (proj2 (Z.leb_gt _ _) Hc).
      by rewrite andb_false_r. }
    pose proof (merge_advance_entry ti ci failed m st1 Hm1) as Ha. rewrite He0, bool_decide_true in Ha by done.
    assert (existsb (in_range e0) (take ti T0) = false) as Hno by (apply (Hf ltac:(rewrite He0; lia) e0 He0)).
    destruct Ha as (ci' & f3 & st3 & E3 & Hm3 & Hf3 & ->).
    { intros _ e1 [= <-]. by rewrite Em, Hno. }
    exists (S ci), f3, st3.
    assert (advance_entry ti ci (failed || mandatory e0) m st1 = advance_entry ti ci failed m st1) as ->.
    { unfold advance_entry. destruct (merge_entry _ _ _ _ _ Hm1 He0) as (entry & Hentry & Hes).
      pose proof (merge_compare _ _ _ _ Hm1 ti ci) as Hcmp. rewrite Hentry, He0 in Hcmp. rewrite Hentry, Hcmp.
      assert (mandatory entry = mandatory e0) as -> by (by injection Hes).
      rewrite Em, (proj2 (Z.ltb_lt _ _) Hc). simpl. by rewrite andb_true_r, <- orb_assoc, orb_diag. }
    split; [done|]. split; [done|]. split; [done|]. apply lookup_lt_Some in He0. unfold remaining. lia.
Qed.

Lemma merge_loop (c : consumer W) fuel ti ci failed st : tlv_callback c = None ->
  merge_inv ti ci failed st -> fresh ti ci -> (remaining T0 E0 ti ci <= fuel)%nat ->
  exists st', schedule_loop fuel buf c idx ti ci failed st =
      Def (RFC5444_OKAY, existsb (fun e => entry_failed idx e T0) E0, st') /\
    exists ti ci, (length E0 <= ci)%nat /\ merge_inv ti ci (existsb (fun e => entry_failed idx e T0) E0) st'.
Proof.
  intros Hcb. revert ti ci failed st. induction fuel as [|fuel IH]; intros ti ci failed st Hm Hf Hfuel; simpl.
  all: destruct (at_end ti ci st) eqn:Hend.
  1,3: rewrite (so_at_end eob n T0 E0) in Hend by (by eapply mi_ok); apply bool_decide_eq_true in Hend as [H1 H2];
    exists st; pose proof (mi_failed _ _ _ _ Hm) as Hfd;
    rewrite (lookup_ge_None_2 E0 ci) in Hfd by done; rewrite orb_false_r, take_ge in Hfd by done;
    rewrite <- Hfd; split; [done|by exists ti, ci].
  { exfalso. rewrite (so_at_end eob n T0 E0) in Hend by (by eapply mi_ok). apply bool_decide_eq_false in Hend.
    unfold remaining in Hfuel. lia. }
  destruct (merge_step ti ci failed st Hm Hf Hend) as (f2 & st2 & E2 & ci' & f3 & st3 & E3 & Hm3 & Hf3 & Hr).
  unfold run_tlv_callback. rewrite Hcb.
  set (im := tlv_index_match idx ti st) in *. set (m := type_match im ti ci st) in *.
  replace (match s_tlvs (select_value idx ti im st) !! ti with Some _ | _ => (RFC5444_OKAY, m, select_value idx ti im st) end)
    with (RFC5444_OKAY, m, select_value idx ti im st) by (by case_match).
  simpl. rewrite E2. simpl. rewrite E3. apply IH; [done|done|lia].
Qed.
End merge.


Module Example.
(** Four TLVs behind each other in the octets 0..7, the second and third of
    the same type; the last is for the addresses 1 and 2 only. *)
Definition tlv (id : nat) (ty len v i1 i2 : Z) : tlvblock_entry :=
  {| tlv_id := id; type := ty; flags := 0x10; type_ext := 0; length_ := len; single_value := Some v;
     index1 := i1; index2 := i2; next_entry := None; _order := 256 * ty; _value := Some v;
     _multivalue_tlv := false; int_drop_tlv := bitmap256_empty |}.
Definition block : list tlvblock_entry := [tlv 0 1 2 0 0 2; tlv 1 4 1 2 0 2; tlv 2 4 3 3 0 2; tlv 3 7 2 6 1 2].

Definition entry (m : bool) (ty : Z) : consumer_entry :=
  {| mandatory := m; ce_type := ty; ce_type_ext := 0; match_type_ext := false; min_length := 1; max_length := 4;
     match_length := true; copy_value := Some [0; 0; 0; 0]; ce_tlv := None; drop := false |}.
Definition context0 : context :=
  {| ctx_type := RFC5444_CONTEXT_ADDRESS;
     ctx_packet := {| pkt_version := 0; pkt_flags := 0; has_pktseqno := false; pkt_seqno := 0; pkt_size := 0 |};
     ctx_message := {| msg_type := 1; msg_flags := 0; addr_len := 4; has_hopcount := false; hopcount := 0;
       has_hoplimit := false; hoplimit := 0; has_origaddr := false; orig_addr := NETADDR_UNSPEC; has_seqno := false;
       seqno := 0; msg_buffer := None; msg_size := 0; _do_not_forward := false |};
     ctx_address := {| addr := NETADDR_UNSPEC; addr_block_buffer := None; ctx_addr_block_size := 0;
       ctx_addr_tlv_size := 0; addr_index := 0 |} |}.
Definition client : consumer unit :=
  {| order := 0; default_msg_consumer := false; msg_id := 1; addrblock_consumer := true; _consumer_list := [];
     start_callback := None; end_callback := None; tlv_callback := None;
     block_callback := Some (fun _ _ _ _ => {| ans_result := 7; ans_prevent := false; ans_drop := []; ans_world := tt |});
     block_callback_failed_constraints := None |}.
Definition start : sched unit :=
  {| s_ctx := context0; s_entries := [entry true 1; entry false 2; entry true 4]; s_tlvs := block; s_world := tt |}.
End Example.

