(* ===== verification/Reader.v ===== *)
(** Messages and packets: the top half of src/librfc5444/rfc5444_reader.c, from
    the registration of consumers to [rfc5444_reader_handle_packet]. *)

From Stdlib Require Import ZArith Lia Sorted.
From stdpp Require Import base list numbers option gmap sets.
From S2P Require Import Prelude AvlSpec Netaddr Bitmap256 ReaderParse ReaderSchedule.

Local Open Scope Z_scope.
Local Open Scope cint_scope.

Definition RFC5444_PKT_FLAGMASK : Z := 0x0f.
Definition RFC5444_PKT_FLAG_SEQNO : Z := 0x08.
Definition RFC5444_PKT_FLAG_TLV : Z := 0x04.
Definition RFC5444_MSG_FLAG_ORIGINATOR : Z := 0x80.
Definition RFC5444_MSG_FLAG_HOPLIMIT : Z := 0x40.
Definition RFC5444_MSG_FLAG_HOPCOUNT : Z := 0x20.
Definition RFC5444_MSG_FLAG_SEQNO : Z := 0x10.
Definition RFC5444_MSG_FLAG_ADDRLENMASK : Z := 0x0f.

(** [flag] is set in [flags]. *)
Definition has_flag (flags flag : Z) : bool := negb (flags .& flag =? 0).

Definition set_dropAddr (i : Z) (a : addrblock_entry) : addrblock_entry :=
  {| tlvblock := tlvblock a; num_addr := num_addr a; mid_start := mid_start a; mid_len := mid_len a;
     prefixes := prefixes a; mid_src := mid_src a; addr_octets := addr_octets a; prefixlen := prefixlen a;
     addr_block_ptr := addr_block_ptr a; addr_block_size := addr_block_size a; addr_tlv_size := addr_tlv_size a;
     dropAddr := bitmap256_set (dropAddr a) i |}.
Definition set_addr_octets (b : bytes) (a : addrblock_entry) : addrblock_entry :=
  {| tlvblock := tlvblock a; num_addr := num_addr a; mid_start := mid_start a; mid_len := mid_len a;
     prefixes := prefixes a; mid_src := mid_src a; addr_octets := b; prefixlen := prefixlen a;
     addr_block_ptr := addr_block_ptr a; addr_block_size := addr_block_size a; addr_tlv_size := addr_tlv_size a;
     dropAddr := dropAddr a |}.
Definition set_tlvblock (l : list tlvblock_entry) (size : Z) (a : addrblock_entry) : addrblock_entry :=
  {| tlvblock := l; num_addr := num_addr a; mid_start := mid_start a; mid_len := mid_len a;
     prefixes := prefixes a; mid_src := mid_src a; addr_octets := addr_octets a; prefixlen := prefixlen a;
     addr_block_ptr := addr_block_ptr a; addr_block_size := addr_block_size a; addr_tlv_size := size;
     dropAddr := dropAddr a |}.

(** [pkt_version], [pkt_flags], ... of the cleared context. *)
Definition clear_message : message_context :=
  {| msg_type := 0; msg_flags := 0; addr_len := 0; has_hopcount := false; hopcount := 0; has_hoplimit := false;
     hoplimit := 0; has_origaddr := false; orig_addr := {| na_addr := zeros 16; na_type := 0; na_prefix_len := 0 |};
     has_seqno := false; seqno := 0; msg_buffer := None; msg_size := 0; _do_not_forward := false |}.
Definition clear_address : address_context :=
  {| addr := {| na_addr := zeros 16; na_type := 0; na_prefix_len := 0 |}; addr_block_buffer := None;
     ctx_addr_block_size := 0; ctx_addr_tlv_size := 0; addr_index := 0 |}.

(** ** Consumers *)

Section consumers.
Context {W : Type}.

Definition set_consumer_list (l : list consumer_entry) (c : consumer W) : consumer W :=
  {| order := order c; default_msg_consumer := default_msg_consumer c; msg_id := msg_id c;
     addrblock_consumer := addrblock_consumer c; _consumer_list := l; start_callback := start_callback c;
     end_callback := end_callback c; tlv_callback := tlv_callback c; block_callback := block_callback c;
     block_callback_failed_constraints := block_callback_failed_constraints c |}.

Definition _consumer_avl_comp (c1 c2 : Z * bool) : Z :=
  if c2.1 <? c1.1 then 1
  else if c1.1 <? c2.1 then -1
  else if c1.2 && negb c2.2 then 1
  else if negb c1.2 && c2.2 then -1
  else 0.

Definition consumer_key (c : consumer W) : Z * bool := (order c, addrblock_consumer c).

(** [list_for_each_element_reverse]: behind the last entry that is not larger,
    in front of all if there is none. *)
Fixpoint insert_entry (e : consumer_entry) (l : list consumer_entry) : list consumer_entry :=
  match l with
  | [] => [e]
  | x :: l' =>
      if existsb (fun y => _calc_tlvconsumer_intorder y <=? _calc_tlvconsumer_intorder e) l
      then x :: insert_entry e l' else e :: l
  end.

(** [if (min_length > max_length) max_length = min_length] *)
Definition fix_max_length (e : consumer_entry) : consumer_entry :=
  if max_length e <? min_length e then
    {| mandatory := mandatory e; ce_type := ce_type e; ce_type_ext := ce_type_ext e;
       match_type_ext := match_type_ext e; min_length := min_length e; max_length := min_length e;
       match_length := match_length e; copy_value := copy_value e; ce_tlv := ce_tlv e; drop := drop e |}
  else e.

Definition _add_consumer (c : consumer W) (tree : list (consumer W)) (entries : list consumer_entry)
    : list (consumer W) :=
  let l := foldl (fun l e => insert_entry (fix_max_length e) l) [] entries in
  tree_insert_dup consumer_key _consumer_avl_comp (set_consumer_list l c) tree.

(** [rfc5444_get_pktversion] *)
Definition rfc5444_get_pktversion (v : Z) : Z := u8 (v .>> 4).

(** ** One message for one consumer *)

(** [schedule_msgtlv_consumer] *)
Definition schedule_msgtlv_consumer (buf : bytes) (c : consumer W) (st : sched W) : outcome (Z * sched W) :=
  let st := set_ctx (set_ctx_type RFC5444_CONTEXT_MESSAGE (s_ctx st)) st in
  let '(result, st) :=
    match start_callback c with Some cb => call cb st | None => (RFC5444_OKAY, st) end in
  if result =? RFC5444_OKAY then _schedule_tlvblock buf c 0 st else Def (result, st).

(** The end callback of a context: it can only raise the result. *)
Definition run_end_callback (c : consumer W) (result : Z) (st : sched W) : Z * sched W :=
  match end_callback c with
  | Some cb => let '(r, st) := call (cb (negb (result =? RFC5444_OKAY))) st in (if result <? r then r else result, st)
  | None => (result, st)
  end.

(** The address [i] of a block: its octets are put together in [addr->addr]. *)
Definition assemble_address (buf : bytes) (addr_len : Z) (a : addrblock_entry) (i : Z)
    : outcome (addrblock_entry * netaddr) :=
  src ← rd_n buf (mid_src a + mid_len a * i) (mid_len a);
  octets ← at_site UB_address_octets (wr_n (addr_octets a) (mid_start a) src);
  plen ← (match prefixes a with Some p => rd buf (p + i) | None => Def (prefixlen a) end);
  '(na, _) ← netaddr_from_binary_prefix octets 0 addr_len 0 plen;
  Def (set_addr_octets octets a, na).

(** What an address shows to the callbacks: block, index and address. *)
Definition address_of (a : addrblock_entry) (na : netaddr) (i : Z) : address_context :=
  {| addr := na; addr_block_buffer := Some (addr_block_ptr a); ctx_addr_block_size := addr_block_size a;
     ctx_addr_tlv_size := addr_tlv_size a; addr_index := i |}.

(** One round of the loop over the addresses of a block.  [s_tlvs] is the TLV
    block of the addresses during the round. *)
Definition schedule_address (buf : bytes) (c : consumer W) (i : Z) (a : addrblock_entry) (st : sched W)
    : outcome (Z * addrblock_entry * sched W) :=
  if bitmap256_get (dropAddr a) i then Def (RFC5444_OKAY, a, st)
  else
    '(a, na) ← assemble_address buf (addr_len (ctx_message (s_ctx st))) a i;
    let st := set_tlvs (tlvblock a) (set_ctx (set_ctx_address (address_of a na i) (s_ctx st)) st) in
    let '(result, st) :=
      match start_callback c with Some cb => call cb st | None => (RFC5444_OKAY, st) end in
    '(result, st) ←
      (if result =? RFC5444_OKAY then _schedule_tlvblock buf c i st else Def (result, st));
    let '(result, st) := run_end_callback c result st in
    let a := set_tlvblock (s_tlvs st) (addr_tlv_size a) a in
    if result =? RFC5444_DROP_ADDRESS then Def (RFC5444_OKAY, set_dropAddr i a, st)
    else Def (result, a, st).

(** The addresses from [i] on; [n] are left. *)
Fixpoint schedule_addresses (n : nat) (buf : bytes) (c : consumer W) (i : Z) (a : addrblock_entry) (st : sched W)
    : outcome (Z * addrblock_entry * sched W) :=
  match n with
  | O => Def (RFC5444_OKAY, a, st)
  | S n =>
      '(result, a, st) ← schedule_address buf c i a st;
      if negb (result =? RFC5444_OKAY) then Def (result, a, st)
      else schedule_addresses n buf c (i + 1) a st
  end.

(** The address blocks one after the other. *)
Fixpoint schedule_blocks (buf : bytes) (c : consumer W) (l : list addrblock_entry) (st : sched W)
    : outcome (Z * list addrblock_entry * sched W) :=
  match l with
  | [] => Def (RFC5444_OKAY, [], st)
  | a :: l =>
      let m := ctx_address (s_ctx st) in
      let st := set_ctx (set_ctx_address
        {| addr := addr m; addr_block_buffer := Some (addr_block_ptr a);
           ctx_addr_block_size := addr_block_size a; ctx_addr_tlv_size := addr_tlv_size a;
           addr_index := addr_index m |} (s_ctx st)) st in
      '(result, a, st) ← schedule_addresses (Z.to_nat (num_addr a)) buf c 0 a st;
      if negb (result =? RFC5444_OKAY) then Def (result, a :: l, st)
      else '(result, l, st) ← schedule_blocks buf c l st; Def (result, a :: l, st)
  end.

(** [schedule_msgaddr_consumer] *)
Definition schedule_msgaddr_consumer (buf : bytes) (c : consumer W) (addrs : list addrblock_entry) (st : sched W)
    : outcome (Z * list addrblock_entry * sched W) :=
  let st := set_ctx (set_ctx_type RFC5444_CONTEXT_ADDRESS (s_ctx st)) st in
  '(result, addrs, st) ← schedule_blocks buf c addrs st;
  if negb (result =? RFC5444_OKAY) then Def (result, addrs, st)
  else
    let m := ctx_address (s_ctx st) in
    Def (result, addrs, set_ctx (set_ctx_address
      {| addr := addr m; addr_block_buffer := None; ctx_addr_block_size := ctx_addr_block_size m;
         ctx_addr_tlv_size := ctx_addr_tlv_size m; addr_index := addr_index m |} (s_ctx st)) st).
End consumers.

(** ** Message headers *)

Definition set_header (m : message_context) (ty fl len : Z) : message_context :=
  {| msg_type := ty; msg_flags := fl; addr_len := len; has_hopcount := has_hopcount m; hopcount := hopcount m;
     has_hoplimit := has_hoplimit m; hoplimit := hoplimit m; has_origaddr := has_origaddr m;
     orig_addr := orig_addr m; has_seqno := has_seqno m; seqno := seqno m; msg_buffer := msg_buffer m;
     msg_size := msg_size m; _do_not_forward := false |}.
Definition set_origaddr (m : message_context) (has : bool) (a : netaddr) : message_context :=
  {| msg_type := msg_type m; msg_flags := msg_flags m; addr_len := addr_len m; has_hopcount := has_hopcount m;
     hopcount := hopcount m; has_hoplimit := has_hoplimit m; hoplimit := hoplimit m; has_origaddr := has;
     orig_addr := a; has_seqno := has_seqno m; seqno := seqno m; msg_buffer := msg_buffer m;
     msg_size := msg_size m; _do_not_forward := _do_not_forward m |}.
Definition set_hops (m : message_context) (hl : bool) (l : Z) (hc : bool) (c : Z) (hs : bool) (s : Z) : message_context :=
  {| msg_type := msg_type m; msg_flags := msg_flags m; addr_len := addr_len m; has_hopcount := hc;
     hopcount := c; has_hoplimit := hl; hoplimit := l; has_origaddr := has_origaddr m;
     orig_addr := orig_addr m; has_seqno := hs; seqno := s; msg_buffer := msg_buffer m;
     msg_size := msg_size m; _do_not_forward := _do_not_forward m |}.
Definition set_msg_buffer (m : message_context) (b : option Z) (size : Z) : message_context :=
  {| msg_type := msg_type m; msg_flags := msg_flags m; addr_len := addr_len m; has_hopcount := has_hopcount m;
     hopcount := hopcount m; has_hoplimit := has_hoplimit m; hoplimit := hoplimit m; has_origaddr := has_origaddr m;
     orig_addr := orig_addr m; has_seqno := has_seqno m; seqno := seqno m; msg_buffer := b;
     msg_size := size; _do_not_forward := _do_not_forward m |}.

(** An optional header field; an absent one keeps the value of the message
    before. *)
Definition optional_field (has : bool) (read : cursor -> outcome (Z * cursor)) (old : Z) (s : cursor)
    : outcome (Z * cursor) :=
  if has then read s else Def (old, s).

(** The header of the message at [start]: the result, the context, the
    position and the size field.  [None] for the size is the jump to the
    cleanup before [end] is set. *)
Definition parse_message_header (buf : bytes) (start eob : Z) (m : message_context)
    : outcome (rfc5444_result * message_context * Z * option Z) :=
  '(ty, s) ← _rfc5444_get_u8 buf eob (start, RFC5444_OKAY);
  '(flags, s) ← _rfc5444_get_u8 buf eob s;
  '(size, s) ← _rfc5444_get_u16 buf eob s;
  let len := (flags .& RFC5444_MSG_FLAG_ADDRLENMASK) + 1 in
  let m := set_header m ty (flags .& (255 - RFC5444_MSG_FLAG_ADDRLENMASK)) len in
  let has := has_flag flags RFC5444_MSG_FLAG_ORIGINATOR in
  if has && (eob <? s.1 + len) then Def (RFC5444_END_OF_BUFFER, set_origaddr m true (orig_addr m), s.1, None)
  else
    '(m, s) ← (if has then '(na, _) ← netaddr_from_binary buf s.1 len 0; Def (set_origaddr m true na, (s.1 + len, s.2))
               else Def (set_origaddr m false (orig_addr m), s));
    let hl := has_flag flags RFC5444_MSG_FLAG_HOPLIMIT in
    '(limit, s) ← optional_field hl (_rfc5444_get_u8 buf eob) (hoplimit m) s;
    let hc := has_flag flags RFC5444_MSG_FLAG_HOPCOUNT in
    '(count, s) ← optional_field hc (_rfc5444_get_u8 buf eob) (hopcount m) s;
    let hs := has_flag flags RFC5444_MSG_FLAG_SEQNO in
    '(seq, s) ← optional_field hs (_rfc5444_get_u16 buf eob) (seqno m) s;
    let m := set_hops m hl limit hc count hs seq in
    if eob <? start + size then Def (RFC5444_END_OF_BUFFER, m, eob, Some size)
    else Def (s.2, m, s.1, Some size).

Section message.
Context (malloc_ok : nat -> bool).

(** The address blocks of a message with their TLVs. *)
Fixpoint parse_addrblocks (fuel : nat) (buf : bytes) (ptr end_ addr_len : Z) (addrs : list addrblock_entry) (h : heap)
    : outcome (rfc5444_result * list addrblock_entry * Z * heap) :=
  if end_ <=? ptr then Def (RFC5444_OKAY, addrs, ptr, h)
  else
    match fuel with
    | O => Undef Out_of_fuel
    | S fuel =>
        let '(ok, h) := malloc_addrblock_entry malloc_ok h in
        if negb ok then Def (RFC5444_OUT_OF_MEMORY, addrs, ptr, h)
        else
          '(result, a, ptr) ← _parse_addrblock buf ptr end_ addr_len;
          if negb (result =? RFC5444_OKAY) then Def (result, addrs, ptr, free_addrblock_entry h)
          else
            '(result, tlvs, ptr, h) ← _parse_tlvblock malloc_ok buf ptr end_ (num_addr a) h;
            if negb (result =? RFC5444_OKAY) then Def (result, addrs, ptr, free_addrblock_entry h)
            else
              let a := set_tlvblock tlvs (ptr - addr_block_size a - addr_block_ptr a) a in
              parse_addrblocks fuel buf ptr end_ addr_len (addrs ++ [a]) h
    end.

(** [list_for_each_element_safe]: the address blocks with their TLVs. *)
Definition free_addrblocks (addrs : list addrblock_entry) (h : heap) : heap :=
  foldl (fun h a => free_addrblock_entry (_free_tlvblock (tlvblock a) h)) h addrs.

Context {W : Type}.

(** What the consumers of a message work on. *)
Record mstate := {
  m_ctx : context;
  m_consumers : list (consumer W);
  m_tlvs : list tlvblock_entry;
  m_addrs : list addrblock_entry;
  m_world : W;
}.

(** The view of one consumer on the message TLVs, and back. *)
Definition to_sched (c : consumer W) (st : mstate) : sched W :=
  {| s_ctx := m_ctx st; s_entries := _consumer_list c; s_tlvs := m_tlvs st; s_world := m_world st |}.
Definition from_sched (k : nat) (c : consumer W) (s : sched W) (st : mstate) : mstate :=
  {| m_ctx := s_ctx s; m_consumers := <[k := set_consumer_list (s_entries s) c]> (m_consumers st);
     m_tlvs := s_tlvs s; m_addrs := m_addrs st; m_world := s_world s |}.
Definition from_sched_addrs (k : nat) (c : consumer W) (s : sched W) (l : list addrblock_entry) (st : mstate) : mstate :=
  {| m_ctx := s_ctx s; m_consumers := <[k := set_consumer_list (s_entries s) c]> (m_consumers st);
     m_tlvs := m_tlvs st; m_addrs := l; m_world := s_world s |}.

(** A consumer gets messages of this type. *)
Definition consumes (c : consumer W) (ty : Z) : bool := default_msg_consumer c || (msg_id c =? ty).

(** One consumer of the range of [schedule_end_message_cbs]. *)
Definition end_message_cb (k : nat) (result : Z) (st : mstate) : Z * mstate :=
  match m_consumers st !! k with
  | Some c =>
      if negb (addrblock_consumer c) && consumes c (msg_type (ctx_message (m_ctx st))) then
        let '(result, s) := run_end_callback c result (to_sched c st) in (result, from_sched k c s st)
      else (result, st)
  | None => (result, st)
  end.

Definition set_m_ctx (ctx : context) (st : mstate) : mstate :=
  {| m_ctx := ctx; m_consumers := m_consumers st; m_tlvs := m_tlvs st; m_addrs := m_addrs st; m_world := m_world st |}.

(** From [last] back to [first]. *)
Definition schedule_end_message_cbs (first last : nat) (result : Z) (st : mstate) : Z * mstate :=
  foldl (fun '(result, st) k => end_message_cb k result st)
    (result, set_m_ctx (set_ctx_type RFC5444_CONTEXT_MESSAGE (m_ctx st)) st)
    (rev (seq first (S last - first))).

(** [same_order[1]->order] *)
Definition later_order (c : consumer W) (last : nat) (st : mstate) : bool :=
  match m_consumers st !! last with Some c' => order c' <? order c | None => false end.

(** One consumer of the message at position [k]; [same_order] is the range of
    consumers of the same order that wait for their end callback. *)
Definition message_consumer_step (buf : bytes) (k : nat) (c : consumer W) (same_order : option (nat * nat)) (st : mstate)
    : outcome (Z * option (nat * nat) * mstate) :=
  if addrblock_consumer c then
    '(result, addrs, s) ← schedule_msgaddr_consumer buf c (m_addrs st) (to_sched c st);
    Def (result, same_order, from_sched_addrs k c s addrs st)
  else
    '(result, s) ← schedule_msgtlv_consumer buf c (to_sched c st);
    let first := match same_order with Some (first, _) => first | None => k end in
    Def (result, Some (first, k), from_sched k c s st).

(** The loop over the consumers.  The range in the result is [None] when the
    code jumps to the cleanup. *)
Fixpoint message_loop (buf : bytes) (ks : list nat) (same_order : option (nat * nat)) (st : mstate)
    : outcome (Z * option (nat * nat) * mstate) :=
  match ks with
  | [] => Def (RFC5444_OKAY, same_order, st)
  | k :: ks =>
      match m_consumers st !! k with
      | None => Def (RFC5444_OKAY, same_order, st)
      | Some c =>
          if negb (consumes c (msg_type (ctx_message (m_ctx st)))) then message_loop buf ks same_order st
          else
            let '(result, same_order, st) :=
              match same_order with
              | Some (first, last) =>
                  if later_order c last st
                  then let '(result, st) := schedule_end_message_cbs first last RFC5444_OKAY st in (result, None, st)
                  else (RFC5444_OKAY, same_order, st)
              | None => (RFC5444_OKAY, None, st)
              end in
            if negb (result =? RFC5444_OKAY) then Def (result, None, st)
            else
              match m_consumers st !! k with
              | None => Def (RFC5444_OKAY, same_order, st)
              | Some c =>
                  '(result, same_order, st) ← message_consumer_step buf k c same_order st;
                  if negb (result =? RFC5444_OKAY) then Def (result, same_order, st)
                  else message_loop buf ks same_order st
              end
      end
  end.

(** All consumers of a parsed message. *)
Definition schedule_message (buf : bytes) (st : mstate) : outcome (Z * mstate) :=
  '(result, same_order, st) ← message_loop buf (seq 0 (length (m_consumers st))) None st;
  match same_order with
  | Some (first, last) => Def (schedule_end_message_cbs first last result st)
  | None => Def (result, st)
  end.

(** [struct rfc5444_reader] and what its callbacks work on. *)
Record reader := {
  packet_consumer : list (consumer W);
  message_consumer : list (consumer W);
  forward_message : option (context -> bytes -> W -> W);
}.

Record rstate := {
  r_ctx : context;
  r_packet : list (consumer W);
  r_message : list (consumer W);
  r_heap : heap;
  r_world : W;
}.

Definition set_r_ctx (ctx : context) (st : rstate) : rstate :=
  {| r_ctx := ctx; r_packet := r_packet st; r_message := r_message st; r_heap := r_heap st; r_world := r_world st |}.

(** The parts between [parse message header] and [cleanup_parse_message]: the
    result, the message TLVs and the address blocks that have to be freed. *)
Definition process_message (buf : bytes) (start ptr end_ size : Z) (st : rstate)
    : outcome (Z * list tlvblock_entry * list addrblock_entry * rstate) :=
  let len := addr_len (ctx_message (r_ctx st)) in
  '(result, tlvs, ptr, h) ← _parse_tlvblock malloc_ok buf ptr end_ 0 (r_heap st);
  let with_heap h :=
    {| r_ctx := r_ctx st; r_packet := r_packet st; r_message := r_message st; r_heap := h; r_world := r_world st |} in
  if negb (result =? RFC5444_OKAY) then Def (result, tlvs, [], with_heap h)
  else
    '(result, addrs, ptr, h) ← parse_addrblocks (Z.to_nat (end_ - ptr)) buf ptr end_ len [] h;
    if negb (result =? RFC5444_OKAY) then Def (result, tlvs, addrs, with_heap h)
    else
      let ctx := set_ctx_message (set_msg_buffer (ctx_message (r_ctx st)) (Some start) size) (r_ctx st) in
      '(result, m) ← schedule_message buf
        {| m_ctx := ctx; m_consumers := r_message st; m_tlvs := tlvs; m_addrs := addrs; m_world := r_world st |};
      Def (result, m_tlvs m, m_addrs m,
        {| r_ctx := m_ctx m; r_packet := r_packet st; r_message := m_consumers m; r_heap := h; r_world := m_world m |}).

(** [handle message forwarding] *)
Definition may_forward (result : Z) (m : message_context) : bool :=
  ((result =? RFC5444_OKAY) || (result =? RFC5444_DROP_MSG_BUT_FORWARD)) &&
  negb (_do_not_forward m) && has_hoplimit m && (1 <? hoplimit m).

Definition run_forward (parser : reader) (buf : bytes) (result start end_ : Z) (st : rstate) : outcome rstate :=
  match forward_message parser with
  | Some fw =>
      if may_forward result (ctx_message (r_ctx st)) then
        msg ← rd_n buf start (end_ - start);
        let ctx := set_ctx_type RFC5444_CONTEXT_MESSAGE (r_ctx st) in
        Def {| r_ctx := ctx; r_packet := r_packet st; r_message := r_message st; r_heap := r_heap st;
               r_world := fw ctx msg (r_world st) |}
      else Def st
  | None => Def st
  end.

(** From [cleanup_parse_message] to the end. *)
Definition finish_message (parser : reader) (buf : bytes) (result start end_ : Z)
    (tlvs : list tlvblock_entry) (addrs : list addrblock_entry) (st : rstate) : outcome (Z * Z * rstate) :=
  let m := ctx_message (r_ctx st) in
  let st := set_r_ctx (set_ctx_message (set_msg_buffer m None (msg_size m)) (r_ctx st)) st in
  st ← run_forward parser buf result start end_ st;
  let h := _free_tlvblock tlvs (free_addrblocks addrs (r_heap st)) in
  let st := {| r_ctx := r_ctx st; r_packet := r_packet st; r_message := r_message st; r_heap := h; r_world := r_world st |} in
  let result := if (RFC5444_OKAY <? result) && negb (result =? RFC5444_DROP_PACKET) then RFC5444_OKAY else result in
  Def (result, end_, st).

(** The result and the new position (that of NULL is -1). *)
Definition _handle_message (parser : reader) (buf : bytes) (start eob : Z) (st : rstate) : outcome (Z * Z * rstate) :=
  '(result, m, ptr, size) ← parse_message_header buf start eob (ctx_message (r_ctx st));
  let st := set_r_ctx (set_ctx_message m (r_ctx st)) st in
  match size with
  | None => finish_message parser buf result start (-1) [] [] st
  | Some size =>
      let end_ := start + size in
      if negb (result =? RFC5444_OKAY) then finish_message parser buf result start end_ [] [] st
      else
        '(result, tlvs, addrs, st) ← process_message buf start ptr end_ size st;
        finish_message parser buf result start end_ tlvs addrs st
  end.

(** What is known of a message at [cleanup_parse_message]: the result, the end of
    the message, and what is to be freed. The forwarding callback plays no part. *)
Definition message_result (buf : bytes) (start eob : Z) (st : rstate)
    : outcome (Z * Z * list tlvblock_entry * list addrblock_entry * rstate) :=
  '(result, m, ptr, size) ← parse_message_header buf start eob (ctx_message (r_ctx st));
  let st := set_r_ctx (set_ctx_message m (r_ctx st)) st in
  match size with
  | None => Def (result, -1, [], [], st)
  | Some size =>
      let end_ := start + size in
      if negb (result =? RFC5444_OKAY) then Def (result, end_, [], [], st)
      else
        '(result, tlvs, addrs, st) ← process_message buf start ptr end_ size st;
        Def (result, end_, tlvs, addrs, st)
  end.

(** ** Packets *)

Definition packet_header (pkt_version pkt_flags : Z) (has : bool) (seqno size : Z) : context :=
  {| ctx_type := RFC5444_CONTEXT_PACKET;
     ctx_packet := {| pkt_version := pkt_version; pkt_flags := pkt_flags; has_pktseqno := has; pkt_seqno := seqno;
                      pkt_size := size |};
     ctx_message := clear_message; ctx_address := clear_address |}.

(** The packet TLVs during the handling of the packet consumers. *)
Definition packet_sched (c : consumer W) (tlvs : list tlvblock_entry) (st : rstate) : sched W :=
  {| s_ctx := r_ctx st; s_entries := _consumer_list c; s_tlvs := tlvs; s_world := r_world st |}.
Definition packet_unsched (k : nat) (c : consumer W) (s : sched W) (st : rstate) : rstate :=
  {| r_ctx := s_ctx s; r_packet := <[k := set_consumer_list (s_entries s) c]> (r_packet st);
     r_message := r_message st; r_heap := r_heap st; r_world := s_world s |}.

(** The loop over the packet consumers: the result, the number of consumers
    that were started and the packet TLVs. *)
Fixpoint packet_loop (buf : bytes) (has_tlv : bool) (ks : list nat) (tlvs : list tlvblock_entry) (st : rstate)
    : outcome (Z * nat * list tlvblock_entry * rstate) :=
  match ks with
  | [] => Def (RFC5444_OKAY, length (r_packet st), tlvs, st)
  | k :: ks =>
      match r_packet st !! k with
      | None => Def (RFC5444_OKAY, length (r_packet st), tlvs, st)
      | Some c =>
          let s := packet_sched c tlvs st in
          let '(result, s) :=
            match start_callback c with Some cb => call cb s | None => (RFC5444_OKAY, s) end in
          if negb (result =? RFC5444_OKAY) then Def (result, S k, s_tlvs s, packet_unsched k c s st)
          else
            '(result, s) ←
              (if has_tlv && (match tlv_callback c with Some _ => true | None => false end ||
                              match block_callback c with Some _ => true | None => false end)
               then _schedule_tlvblock buf c 0 s else Def (RFC5444_OKAY, s));
            let st := packet_unsched k c s st in
            if negb (result =? RFC5444_OKAY) then Def (result, S k, s_tlvs s, st)
            else packet_loop buf has_tlv ks (s_tlvs s) st
      end
  end.

(** [while (result == RFC5444_OKAY && ptr < eob)] *)
Fixpoint packet_messages (fuel : nat) (parser : reader) (buf : bytes) (result ptr eob : Z) (st : rstate)
    : outcome (Z * rstate) :=
  if (result =? RFC5444_OKAY) && (ptr <? eob) then
    match fuel with
    | O => Undef Out_of_fuel
    | S fuel =>
        '(result, ptr, st) ← _handle_message parser buf ptr eob st;
        packet_messages fuel parser buf result ptr eob st
    end
  else Def (result, st).

(** The end callbacks of the first [n] packet consumers, backwards; their
    results are ignored. *)
Definition packet_end_cb (tlvs : list tlvblock_entry) (dropped : bool) (k : nat) (st : rstate) : rstate :=
  match r_packet st !! k with
  | Some c =>
      match end_callback c with
      | Some cb => packet_unsched k c (call (cb dropped) (packet_sched c tlvs st)).2 st
      | None => st
      end
  | None => st
  end.
Definition packet_end_cbs (tlvs : list tlvblock_entry) (n : nat) (result : Z) (st : rstate) : rstate :=
  foldl (fun st k => packet_end_cb tlvs (negb (result =? RFC5444_OKAY)) k st) st (rev (seq 0 n)).

(** The packet behind its header and TLVs.  Every message takes at least one
    octet, so the distance to the end is fuel enough. *)
Definition process_packet (parser : reader) (buf : bytes) (has_tlv : bool) (ptr eob : Z) (tlvs : list tlvblock_entry)
    (st : rstate) : outcome (Z * rstate) :=
  '(result, started, tlvs, st) ← packet_loop buf has_tlv (seq 0 (length (r_packet st))) tlvs st;
  '(result, st) ← (if result =? RFC5444_OKAY then packet_messages (Z.to_nat (eob - ptr)) parser buf RFC5444_OKAY ptr eob st
                   else Def (result, st));
  let st := packet_end_cbs tlvs started result st in
  let st := {| r_ctx := r_ctx st; r_packet := r_packet st; r_message := r_message st;
               r_heap := _free_tlvblock tlvs (r_heap st); r_world := r_world st |} in
  Def (if result =? RFC5444_DROP_PACKET then RFC5444_OKAY else result, st).

(** The octets of [buf] are the packet. *)
Definition rfc5444_reader_handle_packet (parser : reader) (buf : bytes) (h : heap) (w : W) : outcome (Z * rstate) :=
  let length := blen buf in
  let eob := length in
  let idle ctx h :=
    {| r_ctx := ctx; r_packet := packet_consumer parser; r_message := message_consumer parser; r_heap := h; r_world := w |} in
  if 65535 <? length then Def (RFC5444_TOO_LARGE, idle (packet_header 0 0 false 0 0) h)
  else
    '(first_byte, s) ← _rfc5444_get_u8 buf eob (0, RFC5444_OKAY);
    let version := rfc5444_get_pktversion first_byte in
    let flags := first_byte .& RFC5444_PKT_FLAGMASK in
    if negb (version =? 0) then Def (RFC5444_UNSUPPORTED_VERSION, idle (packet_header version flags false 0 0) h)
    else
      let has := has_flag flags RFC5444_PKT_FLAG_SEQNO in
      '(seqno, s) ← optional_field has (_rfc5444_get_u16 buf eob) 0 s;
      if negb (s.2 =? RFC5444_OKAY) then Def (s.2, idle (packet_header version flags has seqno 0) h)
      else
        let has_tlv := has_flag flags RFC5444_PKT_FLAG_TLV in
        '(result, tlvs, ptr, h) ←
          (if has_tlv then _parse_tlvblock malloc_ok buf s.1 eob 0 h else Def (RFC5444_OKAY, [], s.1, h));
        if negb (result =? RFC5444_OKAY) then Def (result, idle (packet_header version flags has seqno 0) h)
        else process_packet parser buf has_tlv ptr eob tlvs (idle (packet_header version flags has seqno length) h).
End message.

(** ** What scheduling leaves alone *)

(** Callbacks can only prevent forwarding. *)
Definition ctx_step (c c' : context) : Prop := c' = c \/ c' = rfc5444_reader_prevent_forwarding c.

Lemma ctx_step_refl c : ctx_step c c.
Proof. by left. Qed.

Lemma ctx_step_trans c1 c2 c3 : ctx_step c1 c2 -> ctx_step c2 c3 -> ctx_step c1 c3.
Proof. intros [->| ->] [->| ->]; [by left|by right..]. Qed.

Lemma ctx_step_frame c c' : ctx_step c c' ->
  addr_len (ctx_message c') = addr_len (ctx_message c) /\ msg_type (ctx_message c') = msg_type (ctx_message c) /\
  ctx_type c' = ctx_type c /\ (_do_not_forward (ctx_message c) = true -> _do_not_forward (ctx_message c') = true).
Proof. by intros [->| ->]. Qed.



Section frame.
Context {W : Type}.

Lemma call_ctx cb (st : sched W) : ctx_step (s_ctx st) (s_ctx (call cb st).2).
Proof. unfold call. simpl. destruct (ans_prevent _); [by right|by left]. Qed.

Lemma match_entry_ctx buf ci e tlv (st : sched W) f st' :
  match_entry buf ci e tlv st = Def (f, st') -> s_ctx st' = s_ctx st.
Proof.
  unfold match_entry. intros H. destruct (ce_tlv e); by inv_bind.
Qed.

Lemma run_match_ctx buf ti ci f m (st : sched W) f' st' :
  run_match buf ti ci f m st = Def (f', st') -> s_ctx st' = s_ctx st.
Proof.
  unfold run_match. intros H.
  repeat case_match; inv_bind; try done.
  destruct v as [b s]. simpl in H. injection H as _ <-. by eapply match_entry_ctx.
Qed.

Lemma schedule_loop_ctx buf (c : consumer W) idx fuel ti ci f st r f' st' :
  schedule_loop fuel buf c idx ti ci f st = Def (r, f', st') -> ctx_step (s_ctx st) (s_ctx st').
Proof.
  revert ti ci f st. induction fuel as [|fuel IH]; intros ti ci f st; simpl;
    (destruct (at_end _ _ _); [intros [= _ _ <-]; by left|]); [done|].
  set (im := tlv_index_match idx ti st). set (s1 := select_value idx ti im st).
  assert (s_ctx s1 = s_ctx st) as E1 by (unfold s1, select_value; by repeat case_match).
  destruct (run_tlv_callback c idx ti im (type_match im ti ci st) s1) as [[r1 m] s2] eqn:E2.
  assert (ctx_step (s_ctx st) (s_ctx s2)) as H2.
  { rewrite <- E1. unfold run_tlv_callback in E2. destruct (s_tlvs s1 !! ti); [|injection E2 as _ _ <-; by left].
    destruct (tlv_callback c) as [cb|]; [|injection E2 as _ _ <-; by left].
    destruct im; [|injection E2 as _ _ <-; by left]. pose proof (call_ctx (cb t) s1) as Hc.
    destruct (call (cb t) s1) as [r3 s3]. simpl in Hc. destruct (r3 =? _); by injection E2 as _ _ <-. }
  destruct (negb _); [by intros [= _ _ <-]|]. intros H. apply bind_Def in H as ([f3 s3] & E3 & H).
  apply run_match_ctx in E3. destruct (advance_entry _ _ _ _ _) as [[ci' f4] s4] eqn:E4.
  apply IH in H. eapply ctx_step_trans; [exact H2|]. rewrite <- E3. eapply ctx_step_trans; [|exact H].
  unfold advance_entry in E4. repeat case_match; injection E4 as _ _ <-; by left.
Qed.

Lemma schedule_tlvblock_ctx buf (c : consumer W) idx st r st' :
  _schedule_tlvblock buf c idx st = Def (r, st') -> ctx_step (s_ctx st) (s_ctx st').
Proof.
  unfold _schedule_tlvblock. intros H. apply bind_Def in H as ([[r1 f] s1] & E1 & H).
  apply schedule_loop_ctx in E1. destruct (negb _); [by injection H as _ <-|].
  injection H as H. eapply ctx_step_trans; [exact E1|].
  assert (forall o : Z * sched W, ctx_step (s_ctx s1) (s_ctx o.2) ->
    ctx_step (s_ctx s1) (s_ctx (let '(r, s) := o in if r =? RFC5444_DROP_TLV then (RFC5444_OKAY, drop_marked idx s) else (r, s)).2)) as Hd.
  { intros [r2 s2] Hs. by destruct (r2 =? _). }
  assert (st' = (finish_tlvblock c idx f s1).2) as -> by (by rewrite H).
  apply Hd. destruct (block_callback c) as [cb|], (block_callback_failed_constraints c) as [cb'|], f; simpl;
    first [apply call_ctx|by left].
Qed.

(** What the scheduling of one consumer needs and keeps. *)
Record view_ok (eob n : Z) (st : sched W) : Prop := {
  vw_ids : NoDup (tlv_id <$> s_tlvs st);
  vw_tlvs : Forall (tlv_ok eob n) (s_tlvs st);
  vw_copy : Forall copy_fits (s_entries st);
}.

(** The state after a consumer: still fine, as many TLVs, the context the
    same up to forwarding. *)
Definition keeps_view (eob n : Z) (st st' : sched W) : Prop :=
  view_ok eob n st' /\ length (s_tlvs st') = length (s_tlvs st) /\ ctx_step (s_ctx st) (s_ctx st').

Lemma keeps_view_refl eob n st : view_ok eob n st -> keeps_view eob n st st.
Proof. intros H. split; [done|]. split; [done|]. by left. Qed.

Lemma keeps_view_trans eob n st1 st2 st3 : keeps_view eob n st1 st2 -> keeps_view eob n st2 st3 -> keeps_view eob n st1 st3.
Proof.
  intros (H1 & L1 & C1) (H2 & L2 & C2). split; [done|]. split; [congruence|]. by eapply ctx_step_trans.
Qed.

Lemma call_view eob n cb st : view_ok eob n st -> keeps_view eob n st (call cb st).2.
Proof.
  intros [Hi Ht Hc]. destruct (call_spec eob n (s_tlvs st) (s_entries st) cb st) as ([H1 H2 H3 H4] & Htl & _); [by split|].
  split; [split; [by rewrite Htl|done|done]|]. split; [by rewrite Htl|]. apply call_ctx.
Qed.

Lemma schedule_view buf eob n idx (c : consumer W) st : eob <= blen buf -> view_ok eob n st ->
  safe [] (fun '(r, st') => keeps_view eob n st st' /\ r <> RFC5444_DROP_TLV) (_schedule_tlvblock buf c idx st).
Proof.
  intros Hb [Hi Ht Hc].
  destruct (schedule_tlvblock_safe buf eob Hb n idx (s_tlvs st) (s_entries st) Hi c st) as (r & st' & E & Hok & Hr);
    [done|done|done|done|].
  rewrite E. simpl. split; [|done]. split; [split|].
  - by rewrite (so_ids _ _ _ _ _ Hok).
  - by destruct Hok.
  - by destruct Hok.
  - split; [by destruct (so_length _ _ _ _ _ Hok)|]. by eapply schedule_tlvblock_ctx.
Qed.

(** Replacing the context keeps the view. *)
Lemma view_set_ctx eob n ctx st : view_ok eob n st -> view_ok eob n (set_ctx ctx st).
Proof. intros []. by split. Qed.
End frame.

(** ** Address blocks of a message *)

(** A parsed address block with its TLVs, before and between the consumers. *)
Record addr_inv (eob len : Z) (a : addrblock_entry) : Prop := {
  ai_num : 1 <= num_addr a < 256;
  ai_head : 0 <= mid_start a < len;
  ai_mid : 0 <= mid_len a < 256;
  ai_src : 0 <= mid_src a /\ mid_src a + mid_len a * num_addr a <= eob;
  ai_prefixes q : prefixes a = Some q -> 0 <= q /\ q + num_addr a <= eob;
  ai_octets : length (addr_octets a) = 16%nat;
  ai_ids : NoDup (tlv_id <$> tlvblock a);
  ai_tlvs : Forall (tlv_ok eob (num_addr a)) (tlvblock a);
}.

Definition tlv_count (a : addrblock_entry) : nat := length (tlvblock a).

Lemma from_binary_inside buf p len pl : 1 <= len <= 16 -> 0 <= p -> p + len <= blen buf ->
  exists na r, netaddr_from_binary_prefix buf p len 0 pl = Def (na, r).
Proof.
  intros Hl Hp Hfit. unfold netaddr_from_binary_prefix. simpl.
  assert (exists t, (if len =? 4 then (AF_INET, len) else if len =? 6 then (AF_MAC48, len) else
    if len =? 8 then (AF_EUI64, len) else if len =? 16 then (AF_INET6, len) else
    (AF_UNSPEC, if 16 <? len then 16 else len)) = (t, len)) as (t & ->).
  { destruct (Z.ltb_spec 16 len); [lia|]. repeat case_match; by eexists. }
  destruct (rd_n_inside buf p len) as (src & -> & Hsrc); [lia..|]. simpl.
  destruct (wr_n_inside (zeros 16) 0 src) as (b & -> & _); [lia|unfold blen in *; simpl; lia|]. simpl. eauto.
Qed.

Section addresses.
Context {W : Type}.
Context (buf : bytes) (eob : Z) (Heob : eob <= blen buf) (len : Z) (Hlen : 1 <= len <= 16).

Lemma wr_n_safe a p src : 0 <= p -> safe [UB_address_octets] (fun b => length b = length a) (at_site UB_address_octets (wr_n a p src)).
Proof.
  intros Hp. unfold wr_n. destruct (_ =? 0); [done|]. destruct (Z.ltb_spec p 0); [lia|]. simpl.
  destruct (Z.ltb_spec (blen a) (p + blen src)); simpl; [set_solver|].
  unfold blen in *. rewrite !length_app, length_take, length_drop. lia.
Qed.

Lemma assemble_address_safe a i : addr_inv eob len a -> 0 <= i < num_addr a ->
  safe [UB_address_octets] (fun '(a', na) => exists b, a' = set_addr_octets b a /\ length b = 16%nat)
    (assemble_address buf len a i).
Proof.
  intros [Hn Hh Hm [Hs1 Hs2] Hp Ho _ _] Hi. unfold assemble_address.
  destruct (rd_n_inside buf (mid_src a + mid_len a * i) (mid_len a)) as (src & -> & _); [nia|lia|nia|]. simpl.
  eapply safe_bind; [apply wr_n_safe; lia|]. intros b Hb. simpl.
  assert (exists pl, match prefixes a with Some p => rd buf (p + i) | None => Def (prefixlen a) end = Def pl) as (pl & ->).
  { destruct (prefixes a) as [q|]; [|eauto]. destruct (Hp q eq_refl).
    destruct (rd_inside buf (q + i)) as (x & -> & _); [lia|eauto]. }
  simpl. destruct (from_binary_inside b 0 len pl) as (na & r & ->); [done|lia|unfold blen; rewrite Hb, Ho; lia|]. simpl. exists b. split; [done|congruence].
Qed.

Lemma run_end_callback_view n (c : consumer W) r st : view_ok eob n st -> keeps_view eob n st (run_end_callback c r st).2.
Proof.
  intros Hv. unfold run_end_callback. destruct (end_callback c) as [cb|]; [|by apply keeps_view_refl].
  pose proof (call_view eob n (cb (negb (r =? RFC5444_OKAY))) st Hv) as Hk.
  by destruct (call _ _) as [r' st'].
Qed.

(** What a step over addresses keeps of the block. *)
Definition keeps_addr (a a' : addrblock_entry) : Prop :=
  addr_inv eob len a' /\ tlv_count a' = tlv_count a /\ num_addr a' = num_addr a.

(** And of the rest: the consumer's buffers and the context up to forwarding. *)
Definition keeps_client (st st' : sched W) : Prop :=
  Forall copy_fits (s_entries st') /\ addr_len (ctx_message (s_ctx st')) = addr_len (ctx_message (s_ctx st)) /\
  msg_type (ctx_message (s_ctx st')) = msg_type (ctx_message (s_ctx st)) /\
  (_do_not_forward (ctx_message (s_ctx st)) = true -> _do_not_forward (ctx_message (s_ctx st')) = true).

Lemma keeps_client_trans st1 st2 st3 : keeps_client st1 st2 -> keeps_client st2 st3 -> keeps_client st1 st3.
Proof. intros (? & ? & ? & ?) (? & ? & ? & ?). split; [done|]. split; [congruence|]. split; [congruence|auto]. Qed.

Lemma keeps_view_client n st st' : keeps_view eob n st st' -> keeps_client st st'.
Proof. intros (Hv & _ & Hc). destruct (ctx_step_frame _ _ Hc) as (? & ? & _ & ?). split; [apply Hv|done]. Qed.

(** The start callback and the TLVs of one context. *)
Lemma start_and_schedule n idx (c : consumer W) st : view_ok eob n st ->
  safe [] (fun '(_, st') => keeps_view eob n st st')
    (let '(result, st) := match start_callback c with Some cb => call cb st | None => (RFC5444_OKAY, st) end in
     if result =? RFC5444_OKAY then _schedule_tlvblock buf c idx st else Def (result, st)).
Proof.
  intros Hv.
  assert (keeps_view eob n st (match start_callback c with Some cb => call cb st | None => (RFC5444_OKAY, st) end).2) as Hk.
  { destruct (start_callback c); [by apply call_view|by apply keeps_view_refl]. }
  destruct (match start_callback c with Some cb => _ | None => _ end) as [r st1]. simpl in Hk.
  destruct (r =? RFC5444_OKAY); [|done]. eapply safe_mono; [apply (schedule_view buf eob n idx c st1 Heob), Hk|done|].
  intros [r2 st2] [Hk2 _]. by eapply keeps_view_trans.
Qed.

Lemma schedule_address_safe (c : consumer W) i a st : addr_inv eob len a -> 0 <= i < num_addr a ->
  Forall copy_fits (s_entries st) -> addr_len (ctx_message (s_ctx st)) = len ->
  safe [UB_address_octets] (fun '(r, a', st') => keeps_addr a a' /\ keeps_client st st' /\ r <> RFC5444_DROP_ADDRESS)
    (schedule_address buf c i a st).
Proof.
  intros Ha Hi Hc Hl. unfold schedule_address. destruct (bitmap256_get _ _).
  { simpl. split; [done|]. split; [|done]. by split_and!. }
  rewrite Hl. eapply safe_bind; [by apply assemble_address_safe|]. intros [a1 na] (b & -> & Hb).
  set (st0 := set_tlvs _ _).
  assert (view_ok eob (num_addr a) st0) as Hv by (split; apply Ha || done).
  pose proof (start_and_schedule (num_addr a) i c st0 Hv) as Hs.
  destruct (match start_callback c with Some cb => _ | None => _ end) as [r1 st1].
  eapply safe_bind; [eapply safe_mono; [exact Hs|set_solver|]; intros x Hx; exact Hx|]. clear Hs.
  intros [r2 st2] Hk2. pose proof (run_end_callback_view (num_addr a) c r2 st2 (proj1 Hk2)) as Hk3.
  destruct (run_end_callback c r2 st2) as [r3 st3]. simpl in Hk3.
  pose proof (keeps_view_trans _ _ _ _ _ Hk2 Hk3) as Hk.
  assert (keeps_client st st3) as Hcl.
  { apply (keeps_client_trans _ st0); [by split_and!|]. by eapply keeps_view_client. }
  assert (keeps_addr a (set_tlvblock (s_tlvs st3) (addr_tlv_size (set_addr_octets b a)) (set_addr_octets b a))) as Hka.
  { destruct Hk as ([Hi' Ht' _] & Hl' & _). destruct Ha. split; [split; simpl; done|]. done. }
  destruct (Z.eqb_spec r3 RFC5444_DROP_ADDRESS) as [->|]; simpl; [|done].
  split; [|done]. destruct Hka as ([] & ? & ?). split; [split; simpl; done|]. done.
Qed.

Lemma schedule_addresses_safe (c : consumer W) n i a st : addr_inv eob len a -> 0 <= i -> i + Z.of_nat n <= num_addr a ->
  Forall copy_fits (s_entries st) -> addr_len (ctx_message (s_ctx st)) = len ->
  safe [UB_address_octets] (fun '(r, a', st') => keeps_addr a a' /\ keeps_client st st' /\ r <> RFC5444_DROP_ADDRESS)
    (schedule_addresses n buf c i a st).
Proof.
  revert i a st. induction n as [|n IH]; intros i a st Ha Hi Hn Hc Hl; simpl.
  { split; [done|]. split; [|done]. by split_and!. }
  eapply safe_bind; [apply schedule_address_safe; [done|lia|done|done]|].
  intros [[r1 a1] st1] (Hka & Hcl & Hr). destruct (negb _); [done|].
  destruct Hka as (Ha1 & Hc1 & Hn1). pose proof Hcl as (Hf1 & Hl1 & _).
  eapply safe_mono; [apply IH; [done|lia|lia|done|congruence]|done|].
  intros [[r2 a2] st2] ((Ha2 & Hc2 & Hn2) & Hcl2 & Hr2). split; [split; [done|split; congruence]|].
  split; [by eapply keeps_client_trans|done].
Qed.

Lemma schedule_blocks_safe (c : consumer W) l st : Forall (addr_inv eob len) l ->
  Forall copy_fits (s_entries st) -> addr_len (ctx_message (s_ctx st)) = len ->
  safe [UB_address_octets] (fun '(r, l', st') => Forall (addr_inv eob len) l' /\ tlv_count <$> l' = tlv_count <$> l /\
    keeps_client st st' /\ r <> RFC5444_DROP_ADDRESS) (schedule_blocks buf c l st).
Proof.
  revert st. induction l as [|a l IH]; intros st Ha Hc Hl; simpl.
  { split; [done|]. split; [done|]. split; [|done]. by split_and!. }
  apply Forall_cons in Ha as [Ha Hal]. set (st0 := set_ctx _ st).
  eapply safe_bind; [apply (schedule_addresses_safe c _ 0 a st0); [done|lia|destruct Ha; lia|done|done]|].
  intros [[r1 a1] st1] ((Ha1 & Hc1 & _) & Hcl & Hr).
  assert (keeps_client st st1) as Hcl1 by (apply (keeps_client_trans _ st0); [by split_and!|done]).
  destruct (negb _); simpl.
  { split; [by constructor|]. split; [by rewrite Hc1|done]. }
  pose proof Hcl1 as (Hf1 & Hl1 & _). eapply safe_bind; [apply IH; [done|done|congruence]|].
  intros [[r2 l2] st2] (H1 & H2 & H3 & H4). simpl. split; [by constructor|].
  split; [by f_equal|]. split; [by eapply keeps_client_trans|done].
Qed.

Lemma schedule_msgaddr_safe (c : consumer W) l st : Forall (addr_inv eob len) l ->
  Forall copy_fits (s_entries st) -> addr_len (ctx_message (s_ctx st)) = len ->
  safe [UB_address_octets] (fun '(r, l', st') => Forall (addr_inv eob len) l' /\ tlv_count <$> l' = tlv_count <$> l /\
    keeps_client st st') (schedule_msgaddr_consumer buf c l st).
Proof.
  intros Ha Hc Hl. unfold schedule_msgaddr_consumer. set (st0 := set_ctx _ st).
  eapply safe_bind; [apply (schedule_blocks_safe c l st0); done|].
  intros [[r1 l1] st1] (H1 & H2 & H3 & H4). destruct (negb _); simpl; done.
Qed.

Lemma schedule_msgtlv_safe (c : consumer W) st : view_ok eob 0 st ->
  safe [] (fun '(_, st') => view_ok eob 0 st' /\ length (s_tlvs st') = length (s_tlvs st) /\ keeps_client st st')
    (schedule_msgtlv_consumer buf c st).
Proof.
  intros Hv. unfold schedule_msgtlv_consumer. set (st0 := set_ctx _ st).
  pose proof (start_and_schedule 0 0 c st0 (view_set_ctx _ _ _ _ Hv)) as Hs.
  eapply safe_mono; [exact Hs|done|]. intros [r st1] Hk. pose proof (keeps_view_client _ _ _ Hk) as Hcl.
  destruct Hk as (H1 & H2 & _). done.
Qed.
End addresses.

(** ** Messages *)

Definition consumer_ok {W} (c : consumer W) : Prop := Forall copy_fits (_consumer_list c).

Section messages.
Context {W : Type}.
Context (buf : bytes) (eob : Z) (Heob : eob <= blen buf) (len : Z) (Hlen : 1 <= len <= 16).
(** The message's type, its number of consumers and the sizes of its objects. *)
Context (ty : Z) (nc nt : nat) (sizes : list nat).

(** The state of a message between its consumers. *)
Record m_inv (st : mstate (W := W)) : Prop := {
  mv_consumers : Forall consumer_ok (m_consumers st) /\ length (m_consumers st) = nc;
  mv_tlvs : NoDup (tlv_id <$> m_tlvs st) /\ Forall (tlv_ok eob 0) (m_tlvs st) /\ length (m_tlvs st) = nt;
  mv_addrs : Forall (addr_inv eob len) (m_addrs st) /\ tlv_count <$> m_addrs st = sizes;
  mv_len : addr_len (ctx_message (m_ctx st)) = len;
  mv_type : msg_type (ctx_message (m_ctx st)) = ty;
}.

(** A step keeps the invariant and never takes the flag back. *)
Definition m_step (st st' : mstate (W := W)) : Prop := m_inv st' /\
  (_do_not_forward (ctx_message (m_ctx st)) = true -> _do_not_forward (ctx_message (m_ctx st')) = true).

Lemma m_step_refl st : m_inv st -> m_step st st.
Proof. by split. Qed.
Lemma m_step_trans st1 st2 st3 : m_step st1 st2 -> m_step st2 st3 -> m_step st1 st3.
Proof. unfold m_step. naive_solver. Qed.

Lemma to_sched_view st c k : m_inv st -> m_consumers st !! k = Some c -> view_ok eob 0 (to_sched c st).
Proof.
  intros [[Hc _] [H1 [H2 _]] _ _ _] Hk. split; [done|done|]. exact (Forall_lookup_1 _ _ _ _ Hc Hk).
Qed.

Lemma consumers_insert (l : list (consumer W)) k c s : Forall consumer_ok l -> length l = nc -> Forall copy_fits s ->
  Forall consumer_ok (<[k := set_consumer_list s c]> l) /\ length (<[k := set_consumer_list s c]> l) = nc.
Proof. intros Hl Hn Hs. split; [by apply Forall_insert|by rewrite length_insert]. Qed.

Lemma from_sched_inv st c k s : m_inv st -> view_ok eob 0 s -> length (s_tlvs s) = length (m_tlvs st) ->
  keeps_client (to_sched c st) s -> m_step st (from_sched k c s st).
Proof.
  intros [[Hc Hn] [H1 [H2 H3]] Ha Hl Ht] [Hv1 Hv2 Hv3] Hs (_ & K1 & K2 & K3). split; [|done].
  split; simpl; [by apply consumers_insert|split; [done|split; [done|congruence]]|done| |]; simpl in *; congruence.
Qed.

Lemma from_sched_addrs_inv st c k s l : m_inv st -> Forall (addr_inv eob len) l -> tlv_count <$> l = tlv_count <$> m_addrs st ->
  keeps_client (to_sched c st) s -> m_step st (from_sched_addrs k c s l st).
Proof.
  intros [[Hc Hn] Ht [Ha1 Ha2] Hl Hty] H1 H2 (K0 & K1 & K2 & K3). split; [|done].
  split; simpl; [by apply consumers_insert|done|split; [done|congruence]| |]; simpl in *; congruence.
Qed.

Lemma end_message_cb_inv k r st : m_inv st -> m_step st (end_message_cb k r st).2.
Proof.
  intros Hm. unfold end_message_cb. destruct (m_consumers st !! k) as [c|] eqn:Hk; [|by apply m_step_refl].
  destruct (_ && _); [|by apply m_step_refl]. pose proof (to_sched_view st c k Hm Hk) as Hv.
  pose proof (run_end_callback_view eob 0 c r (to_sched c st) Hv) as Hkv.
  destruct (run_end_callback c r (to_sched c st)) as [r' s]. simpl in *.
  apply from_sched_inv; [done|apply Hkv|apply Hkv|]. by eapply (keeps_view_client eob 0).
Qed.

Lemma end_message_cbs_inv first last r st : m_inv st -> m_step st (schedule_end_message_cbs first last r st).2.
Proof.
  intros Hm. unfold schedule_end_message_cbs. set (st0 := set_m_ctx _ st).
  assert (m_step st st0) as H0 by (split; [destruct Hm; by split|done]). revert H0. clearbody st0.
  generalize (rev (seq first (S last - first))) as ks. intros ks. revert r st0.
  induction ks as [|k ks IH]; intros r st0 H0; simpl; [done|].
  pose proof (end_message_cb_inv k r st0 (proj1 H0)) as Hk. destruct (end_message_cb k r st0) as [r1 st1].
  apply IH. by eapply m_step_trans.
Qed.

Lemma message_consumer_step_safe k c so st : m_inv st -> m_consumers st !! k = Some c ->
  safe [UB_address_octets] (fun '(_, _, st') => m_step st st') (message_consumer_step buf k c so st).
Proof.
  intros Hm Hk. unfold message_consumer_step. pose proof (to_sched_view st c k Hm Hk) as Hv.
  destruct (addrblock_consumer c).
  - eapply safe_bind.
    + apply (schedule_msgaddr_safe buf eob Heob len Hlen); [apply Hm|apply Hv|apply Hm].
    + intros [[r l] s] (H1 & H2 & H3). simpl. by apply from_sched_addrs_inv.
  - eapply safe_bind.
    + eapply safe_mono; [by apply (schedule_msgtlv_safe buf eob Heob)|set_solver|]. intros x Hx. exact Hx.
    + intros [r s] (H1 & H2 & H3). simpl. by apply from_sched_inv.
Qed.

Lemma message_loop_safe ks so st : m_inv st ->
  safe [UB_address_octets] (fun '(_, _, st') => m_step st st') (message_loop buf ks so st).
Proof.
  revert so st. induction ks as [|k ks IH]; intros so st Hm; simpl; [by apply m_step_refl|].
  destruct (m_consumers st !! k) as [c|] eqn:Hk; [|by apply m_step_refl].
  destruct (negb (consumes _ _)); [by apply IH|].
  set (pre := match so with Some _ => _ | None => _ end).
  assert (m_step st pre.2) as Hpre.
  { unfold pre. destruct so as [[f l]|]; [|by apply m_step_refl]. destruct (later_order c l st); [|by apply m_step_refl].
    pose proof (end_message_cbs_inv f l RFC5444_OKAY st Hm) as He.
    by destruct (schedule_end_message_cbs f l RFC5444_OKAY st). }
  destruct pre as [[r so1] st1]. simpl in Hpre. destruct (negb _); [done|].
  destruct (m_consumers st1 !! k) as [c1|] eqn:Hk1; [|done].
  eapply safe_bind; [apply message_consumer_step_safe; [apply Hpre|done]|].
  intros [[r2 so2] st2] H2. pose proof (m_step_trans _ _ _ Hpre H2) as H02. destruct (negb _); [done|].
  eapply safe_mono; [apply IH, H02|done|]. intros [[r3 so3] st3] H3. by eapply m_step_trans.
Qed.

Lemma schedule_message_safe st : m_inv st -> safe [UB_address_octets] (fun '(_, st') => m_step st st') (schedule_message buf st).
Proof.
  intros Hm. unfold schedule_message. eapply safe_bind; [by apply message_loop_safe|].
  intros [[r so] st1] H1. destruct so as [[f l]|]; simpl; [|done].
  pose proof (end_message_cbs_inv f l r st1 (proj1 H1)) as H2.
  destruct (schedule_end_message_cbs f l r st1) as [r2 st2]. by eapply m_step_trans.
Qed.
End messages.

(** ** Parsing a message *)

(** The TLVs and blocks of a list of address blocks on the heap. *)
Definition total (addrs : list addrblock_entry) : Z := Z.of_nat (list_sum (tlv_count <$> addrs)).

Lemma total_cons a addrs : total (a :: addrs) = Z.of_nat (tlv_count a) + total addrs.
Proof. apply Nat2Z.inj_add. Qed.

Lemma free_addrblocks_spec addrs h : tlv_live (free_addrblocks addrs h) = tlv_live h - total addrs /\
  addr_live (free_addrblocks addrs h) = addr_live h - Z.of_nat (length addrs).
Proof.
  unfold free_addrblocks. revert h. induction addrs as [|a addrs IH]; intros h; [unfold total; simpl; lia|].
  rewrite total_cons. destruct (IH (free_addrblock_entry (_free_tlvblock (tlvblock a) h))) as [E1 E2]. simpl in *.
  unfold tlv_count. lia.
Qed.

Lemma total_snoc addrs a : total (addrs ++ [a]) = total addrs + Z.of_nat (tlv_count a).
Proof. unfold total. rewrite fmap_app, list_sum_app. simpl. lia. Qed.

Section parsing.
Context (malloc_ok : nat -> bool).
Context (buf : bytes) (Hbuf : octets buf).

Lemma parse_tlvblock_runs eob ptr n h : eob <= blen buf -> 0 <= ptr -> is_u8 n ->
  safe [UB_div_zero] (fun '(r, block, p, h') => addr_live h' = addr_live h /\
    tlv_live h' = tlv_live h + Z.of_nat (length block) /\
    (r = RFC5444_OKAY /\ ptr + 2 <= p <= eob /\ block_ok eob n block \/ r < 0 /\ p = eob /\ block = []))
    (_parse_tlvblock malloc_ok buf ptr eob n h).
Proof.
  intros He Hp Hn. destruct (parse_tlvblock_spec buf Hbuf eob He malloc_ok ptr n h Hp Hn) as [[-> _]|(r & b & p & h' & -> & H)];
    simpl; [set_solver|done].
Qed.

Lemma parse_addrblock_runs eob ptr len : eob <= blen buf -> 0 <= ptr -> 1 <= len <= 16 ->
  safe [UB_prefix_length] (fun '(r, a, p) => r <= 0 /\ (r = RFC5444_OKAY -> ptr + 2 <= p <= eob /\ addrblock_ok ptr eob len p a))
    (_parse_addrblock buf ptr eob len).
Proof.
  intros He Hp Hn. destruct (parse_addrblock_spec buf Hbuf eob He ptr len Hp Hn) as [[-> _]|(r & a & p & -> & H)];
    simpl; [set_solver|done].
Qed.

Lemma parsed_addr_inv ptr eob len p q a tlvs size : 0 <= ptr -> addrblock_ok ptr eob len p a -> block_ok q (num_addr a) tlvs -> q = eob ->
  addr_inv eob len (set_tlvblock tlvs size a).
Proof.
  intros Hp [Hn Hh (tail & Ht & Hm) [Hs1 Hs2] Hpre Ho _ _] (_ & Hok & Hids) ->. split; simpl; try done.
  - rewrite Hm. apply u8_range.
  - split; [lia|]. done.
Qed.

Lemma parse_addrblocks_safe fuel ptr eob len addrs h : eob <= blen buf -> 0 <= ptr -> 1 <= len <= 16 ->
  eob - ptr <= Z.of_nat fuel -> Forall (addr_inv eob len) addrs ->
  safe [UB_div_zero; UB_prefix_length] (fun '(r, addrs', p, h') => r <= 0 /\
    tlv_live h' - total addrs' = tlv_live h - total addrs /\
    addr_live h' - Z.of_nat (length addrs') = addr_live h - Z.of_nat (length addrs) /\
    Forall (addr_inv eob len) addrs')
    (parse_addrblocks malloc_ok fuel buf ptr eob len addrs h).
Proof.
  intros He Hp Hl Hf Ha. revert ptr addrs h Hp Hf Ha. induction fuel as [|fuel IH]; intros ptr addrs h Hp Hf Ha; simpl;
    (destruct (Z.leb_spec eob ptr); [by split_and!|]); [lia|].
  unfold malloc_addrblock_entry. destruct (malloc_ok (calls h)); simpl; [|split_and!; simpl; done].
  eapply safe_bind; [eapply safe_mono; [apply (parse_addrblock_runs eob ptr len); done|set_solver|intros x Hx; exact Hx]|].
  intros [[r a] p] [Hr Hok]. destruct (Z.eqb_spec r RFC5444_OKAY) as [->|]; simpl; [|split_and!; simpl; (done || lia)].
  destruct (Hok eq_refl) as [Hpp Hab]. clear Hok.
  eapply safe_bind; [eapply safe_mono; [apply (parse_tlvblock_runs eob p (num_addr a));
    [done|lia|destruct Hab; unfold is_u8; lia]|set_solver|intros x Hx; exact Hx]|].
  intros [[[r2 tlvs] p2] h2] (Hal & Htl & Hok). simpl in Hal, Htl.
  destruct (Z.eqb_spec r2 RFC5444_OKAY) as [->|]; simpl.
  - destruct Hok as [(_ & Hp2 & Hbo)|[? _]]; [|by unfold RFC5444_OKAY in *].
    eapply safe_mono; [apply IH; [lia|lia|]|done|].
    + apply Forall_app. split; [done|]. constructor; [|done]. by eapply (parsed_addr_inv ptr).
    + intros [[[r3 addrs3] p3] h3] (H1 & H2 & H3 & H4). rewrite total_snoc in H2. rewrite length_app in H3.
      unfold tlv_count in H2. simpl in H2, H3. split_and!; (done || lia).
  - destruct Hok as [[? _]|(? & _ & ->)]; [done|]. simpl in *. split_and!; (done || lia).
Qed.

Lemma optional_field_spec has read old s n eob : 0 <= s.1 ->
  (forall s, 0 <= s.1 -> exists x s', read s = Def (x, s') /\ advances eob n s s') -> 0 <= n ->
  exists x s', optional_field has read old s = Def (x, s') /\ s.1 <= s'.1 /\ (s'.2 = RFC5444_OKAY -> s.2 = RFC5444_OKAY) /\
    (s.2 <= 0 -> s'.2 <= 0).
Proof.
  intros Hs Hread Hn. unfold optional_field. destruct has; [|eexists _, _; split; [done|]; lia].
  destruct (Hread s Hs) as (x & s' & E & Ha). unfold advances in Ha. eexists _, _. split; [done|]. lia.
Qed.

(** The header of a message. *)
Lemma parse_message_header_spec start eob m : eob <= blen buf -> 0 <= start ->
  exists r m' ptr size, parse_message_header buf start eob m = Def (r, m', ptr, size) /\ r <= 0 /\
    1 <= addr_len m' <= 16 /\ _do_not_forward m' = false /\
    (r = RFC5444_OKAY -> exists sz, size = Some sz /\ start <= ptr /\ start + sz <= eob).
Proof.
  intros He Hst. unfold parse_message_header.
  destruct (get_u8_spec buf eob Hbuf He (start, RFC5444_OKAY) Hst) as (ty & s1 & -> & _ & H1). simpl.
  unfold advances, RFC5444_OKAY in H1. simpl in H1.
  destruct (get_u8_spec buf eob Hbuf He s1) as (fl & s2 & -> & _ & H2); [lia|]. unfold advances, RFC5444_OKAY in H2. simpl.
  destruct (get_u16_spec buf eob Hbuf He s2) as (sz & s3 & -> & Hsz & H3); [lia|]. unfold advances, RFC5444_OKAY in H3. simpl.
  assert (0 <= fl .& RFC5444_MSG_FLAG_ADDRLENMASK < 16) as Hln.
  { unfold RFC5444_MSG_FLAG_ADDRLENMASK. change 15 with (2 ^ 4 - 1). rewrite land_mask by lia. apply Z.mod_pos_bound. lia. }
  set (len := _ + 1). set (m1 := set_header m _ _ _).
  destruct (has_flag fl RFC5444_MSG_FLAG_ORIGINATOR && (eob <? s3.1 + len)) eqn:Eo.
  { eexists _, _, _, _. split; [done|]. simpl. split_and!; (done || lia). }
  assert (exists m2 s4, (if has_flag fl RFC5444_MSG_FLAG_ORIGINATOR
      then '(na, _) ← netaddr_from_binary buf s3.1 len 0; Def (set_origaddr m1 true na, (s3.1 + len, s3.2))
      else Def (set_origaddr m1 false (orig_addr m), s3)) = Def (m2, s4) /\ s3.1 <= s4.1 /\ s4.2 = s3.2 /\
      addr_len m2 = len /\ _do_not_forward m2 = false) as (m2 & s4 & -> & Hs4 & He4 & Hl2 & Hf2).
  { destruct (has_flag fl RFC5444_MSG_FLAG_ORIGINATOR); [|eexists _, _; split; [done|]; simpl; split_and!; (done || lia)].
    simpl in Eo. apply Z.ltb_ge in Eo. unfold netaddr_from_binary.
    destruct (from_binary_inside buf s3.1 len 255) as (na & r & ->); [lia..|]. simpl.
    eexists _, _. split; [done|]. simpl. split_and!; (done || lia). }
  simpl.
  destruct (optional_field_spec (has_flag fl RFC5444_MSG_FLAG_HOPLIMIT) (_rfc5444_get_u8 buf eob) (hoplimit m2) s4 1 eob)
    as (x5 & s5 & -> & H5); [lia|intros s Hs; destruct (get_u8_spec buf eob Hbuf He s Hs) as (x & s' & ? & _ & ?); eauto|lia|]. simpl.
  destruct (optional_field_spec (has_flag fl RFC5444_MSG_FLAG_HOPCOUNT) (_rfc5444_get_u8 buf eob) (hopcount m2) s5 1 eob)
    as (x6 & s6 & -> & H6); [lia|intros s Hs; destruct (get_u8_spec buf eob Hbuf He s Hs) as (x & s' & ? & _ & ?); eauto|lia|]. simpl.
  destruct (optional_field_spec (has_flag fl RFC5444_MSG_FLAG_SEQNO) (_rfc5444_get_u16 buf eob) (seqno m2) s6 2 eob)
    as (x7 & s7 & -> & H7); [lia|intros s Hs; destruct (get_u16_spec buf eob Hbuf He s Hs) as (x & s' & ? & _ & ?); eauto|lia|]. simpl.
  destruct (Z.ltb_spec eob (start + sz)); simpl; eexists _, _, _, _; (split; [done|]); simpl.
  - split_and!; (done || lia).
  - split_and!; try done; try (unfold RFC5444_OKAY in *; lia). intros Hr. exists sz. split; [done|]. lia.
Qed.
End parsing.

(** ** Messages and packets are safe *)

Section top.
Context {W : Type}.
Context (malloc_ok : nat -> bool) (parser : reader (W := W)).
Context (buf : bytes) (Hbuf : octets buf).

(** Every consumer's private buffers are large enough, and the objects on the
    heap are those of [h]. *)
Definition r_inv (h : heap) (st : rstate (W := W)) : Prop :=
  Forall consumer_ok (r_packet st) /\ Forall consumer_ok (r_message st) /\
  tlv_live (r_heap st) = tlv_live h /\ addr_live (r_heap st) = addr_live h.

(** The objects of a message are the only ones on top of [h]. *)
Definition r_holds (h : heap) (tlvs : list tlvblock_entry) (addrs : list addrblock_entry) (st : rstate (W := W)) : Prop :=
  Forall consumer_ok (r_packet st) /\ Forall consumer_ok (r_message st) /\
  tlv_live (r_heap st) = tlv_live h + Z.of_nat (length tlvs) + total addrs /\
  addr_live (r_heap st) = addr_live h + Z.of_nat (length addrs).

Lemma list_sum_sizes l l' : tlv_count <$> l = tlv_count <$> l' -> total l = total l' /\ length l = length l'.
Proof.
  intros H. unfold total. rewrite H. split; [done|]. apply (f_equal length) in H. by rewrite !length_fmap in H.
Qed.

Lemma process_message_safe h start ptr end_ size st : end_ <= blen buf -> 0 <= start <= ptr -> r_inv h st ->
  1 <= addr_len (ctx_message (r_ctx st)) <= 16 ->
  safe [UB_div_zero; UB_prefix_length; UB_address_octets] (fun '(r, tlvs, addrs, st') => r_holds h tlvs addrs st' /\
      (0 <= r -> ptr + 2 <= end_))
    (process_message malloc_ok buf start ptr end_ size st).
Proof.
  intros He Hst (Hp & Hm & Htl & Hal) Hl. unfold process_message.
  eapply safe_bind; [eapply safe_mono; [apply (parse_tlvblock_runs malloc_ok buf Hbuf end_ ptr 0 (r_heap st));
    [done|lia|unfold is_u8; lia]|set_solver|intros x Hx; exact Hx]|].
  intros [[[r tlvs] p] h1] (Hal1 & Htl1 & Hok).
  destruct (Z.eqb_spec r RFC5444_OKAY) as [->|Hr]; simpl.
  2:{ destruct Hok as [[? _]|(? & _ & ->)]; [done|]. simpl in *. unfold r_holds, total. simpl. split; [|lia].
      split_and!; (done || lia). }
  destruct Hok as [(_ & Hp2 & Hb & Hok & Hids)|[? _]]; [|by unfold RFC5444_OKAY in *].
  eapply safe_bind; [eapply safe_mono; [apply (parse_addrblocks_safe malloc_ok buf Hbuf _ p end_ (addr_len (ctx_message (r_ctx st))) [] h1);
    [done|lia|done|lia|done]|set_solver|intros x Hx; exact Hx]|].
  intros [[[r2 addrs] p2] h2] (Hr2 & Htl2 & Hal2 & Hok2). unfold total in Htl2 at 2. simpl in Htl2, Hal2.
  destruct (Z.eqb_spec r2 RFC5444_OKAY) as [->|Hr2']; simpl.
  2:{ unfold r_holds. simpl. split; [|unfold RFC5444_OKAY in *; lia]. split_and!; (done || lia). }
  eapply safe_bind; [eapply safe_mono; [apply (schedule_message_safe buf end_ He (addr_len (ctx_message (r_ctx st))) Hl
    (msg_type (ctx_message (r_ctx st))) (length (r_message st)) (length tlvs) (tlv_count <$> addrs))|set_solver|intros x Hx; exact Hx]|].
  { by split. }
  intros [r3 m] [[[Hc _] (_ & _ & Hn) [_ Hs] _ _] _]. simpl. apply list_sum_sizes in Hs as [Hs1 Hs2].
  unfold r_holds. simpl. split; [|lia]. rewrite Hn, Hs1, Hs2. split_and!; (done || lia).
Qed.

Lemma finish_message_safe h r start end_ tlvs addrs st : r_holds h tlvs addrs st ->
  (0 <= r -> 0 <= start <= end_ /\ end_ <= blen buf) ->
  safe [] (fun '(r', p, st') => r_inv h st' /\ p = end_ /\ (r' <= 0 \/ r' = RFC5444_DROP_PACKET) /\ (0 <= r' -> 0 <= r))
    (finish_message parser buf r start end_ tlvs addrs st).
Proof.
  intros (Hp & Hm & Htl & Hal) Hin. unfold finish_message. set (st0 := set_r_ctx _ st).
  assert (safe [] (fun st1 => r_packet st1 = r_packet st /\ r_message st1 = r_message st /\ r_heap st1 = r_heap st)
    (run_forward parser buf r start end_ st0)) as Hf.
  { unfold run_forward. destruct (forward_message parser); [|done]. destruct (may_forward _ _) eqn:E; [|done].
    assert (0 <= r) as Hr.
    { unfold may_forward in E. rewrite !andb_true_iff, orb_true_iff, !Z.eqb_eq in E.
      unfold RFC5444_OKAY, RFC5444_DROP_MSG_BUT_FORWARD in E. lia. }
    destruct (rd_n_inside buf start (end_ - start)) as (msg & -> & _); [lia..|]. done. }
  eapply safe_bind; [exact Hf|]. intros st1 (E1 & E2 & E3). simpl. unfold r_inv. simpl. rewrite E1, E2, E3.
  destruct (free_addrblocks_spec addrs (r_heap st)) as [F1 F2]. split; [split_and!; (done || lia)|]. split; [done|].
  destruct (Z.ltb_spec RFC5444_OKAY r); destruct (Z.eqb_spec r RFC5444_DROP_PACKET); simpl; unfold RFC5444_OKAY in *; lia.
Qed.

(** What is allocated at the end of a message; a message that is not broken lies
    in the buffer. *)
Lemma message_result_safe h start eob st : eob <= blen buf -> 0 <= start -> r_inv h st ->
  safe [UB_div_zero; UB_prefix_length; UB_address_octets] (fun '(r, e, tlvs, addrs, st') => r_holds h tlvs addrs st' /\
      (0 <= r -> start + 2 <= e <= eob))
    (message_result malloc_ok buf start eob st).
Proof.
  intros He Hst Hr. unfold message_result.
  destruct (parse_message_header_spec buf Hbuf start eob (ctx_message (r_ctx st)) He Hst)
    as (r & m & p & size & -> & Hr0 & Hl & _ & Hok). simpl.
  set (st0 := set_r_ctx _ st). assert (r_inv h st0) as Hr1 by done.
  assert (r_holds h [] [] st0) as Hh.
  { destruct Hr as (? & ? & ? & ?). unfold r_holds, total. simpl. split_and!; (done || lia). }
  destruct (Z.eqb_spec r RFC5444_OKAY) as [->|Hne]; simpl; [|destruct size; (split; [done|unfold RFC5444_OKAY in *; lia])].
  destruct (Hok eq_refl) as (sz & -> & Hp & Hsz).
  eapply safe_bind; [apply (process_message_safe h start p (start + sz) sz st0); [lia|lia|done|done]|].
  intros [[[r2 tlvs] addrs] st2] [H2 Hr2]. split; [done|]. lia.
Qed.

Lemma handle_message_result start eob (st : rstate (W := W)) : _handle_message malloc_ok parser buf start eob st =
  '(r, e, tlvs, addrs, st') ← message_result malloc_ok buf start eob st; finish_message parser buf r start e tlvs addrs st'.
Proof.
  unfold _handle_message, message_result. destruct (parse_message_header _ _ _ _) as [[[[r m] p] [size|]]|u]; simpl; try done.
  destruct (negb _); simpl; [done|]. by destruct (process_message _ _ _ _ _ _ _) as [[[[? ?] ?] ?]|].
Qed.

(** One message: a result that lets the packet go on has advanced inside the
    buffer. *)
Lemma handle_message_safe h start eob st : eob <= blen buf -> 0 <= start -> r_inv h st ->
  safe [UB_div_zero; UB_prefix_length; UB_address_octets] (fun '(r, p, st') => r_inv h st' /\ (r <= 0 \/ r = RFC5444_DROP_PACKET) /\
      (r = RFC5444_OKAY -> start + 2 <= p <= eob))
    (_handle_message malloc_ok parser buf start eob st).
Proof.
  intros He Hst Hr. rewrite handle_message_result. eapply safe_bind; [by apply (message_result_safe h)|].
  intros [[[[r e] tlvs] addrs] st1] [H1 Hr1].
  eapply safe_mono; [apply (finish_message_safe h r start e tlvs addrs st1 H1); lia|set_solver|].
  intros [[r3 p3] st3] (H3 & -> & H4 & H5). split; [done|]. split; [done|]. unfold RFC5444_OKAY in *. lia.
Qed.

Lemma packet_messages_safe h fuel ptr eob r st : eob <= blen buf -> 0 <= ptr -> eob - ptr <= Z.of_nat fuel \/ r <> RFC5444_OKAY ->
  r_inv h st -> r <= 0 \/ r = RFC5444_DROP_PACKET ->
  safe [UB_div_zero; UB_prefix_length; UB_address_octets] (fun '(r, st') => r_inv h st' /\ (r <= 0 \/ r = RFC5444_DROP_PACKET))
    (packet_messages malloc_ok fuel parser buf r ptr eob st).
Proof.
  intros He. revert ptr r st. induction fuel as [|fuel IH]; intros ptr r st Hp Hf Hr Hres; simpl;
    destruct (Z.eqb_spec r RFC5444_OKAY) as [->|]; simpl; try done; destruct (Z.ltb_spec ptr eob); try done; [lia|].
  eapply safe_bind; [by apply (handle_message_safe h)|]. intros [[r1 p1] st1] (H1 & H2 & H3).
  destruct (Z.eq_dec r1 RFC5444_OKAY) as [->|Hne].
  - specialize (H3 eq_refl). apply IH; [lia|left; lia|done|done].
  - destruct fuel; simpl; destruct (Z.eqb_spec r1 RFC5444_OKAY); simpl; done.
Qed.

(** The packet's own TLVs. *)
Definition packet_inv (eob : Z) (tlvs : list tlvblock_entry) : Prop :=
  NoDup (tlv_id <$> tlvs) /\ Forall (tlv_ok eob 0) tlvs.

Lemma packet_sched_view eob c k tlvs st h : r_inv h st -> packet_inv eob tlvs -> r_packet st !! k = Some c ->
  view_ok eob 0 (packet_sched c tlvs st).
Proof. intros [Hp _] [H1 H2] Hk. split; [done|done|]. exact (Forall_lookup_1 _ _ _ _ Hp Hk). Qed.

Lemma packet_unsched_inv eob h k c s st : r_inv h st -> view_ok eob 0 s -> r_inv h (packet_unsched k c s st).
Proof. intros (Hp & Hm & Hh) [_ _ Hc]. split; [by apply Forall_insert|done]. Qed.

Lemma packet_loop_safe eob h has ks tlvs st : eob <= blen buf -> r_inv h st -> packet_inv eob tlvs ->
  safe [] (fun '(_, _, tlvs', st') => r_inv h st' /\ packet_inv eob tlvs' /\ length tlvs' = length tlvs)
    (packet_loop buf has ks tlvs st).
Proof.
  intros He. revert tlvs st. induction ks as [|k ks IH]; intros tlvs st Hr Ht; simpl; [done|].
  destruct (r_packet st !! k) as [c|] eqn:Hk; [|done].
  pose proof (packet_sched_view eob c k tlvs st h Hr Ht Hk) as Hv. set (s := packet_sched c tlvs st) in *.
  assert (keeps_view eob 0 s (match start_callback c with Some cb => call cb s | None => (RFC5444_OKAY, s) end).2) as Hk1.
  { destruct (start_callback c); [by apply call_view|by apply keeps_view_refl]. }
  destruct (match start_callback c with Some _ => _ | None => _ end) as [r1 s1]. simpl in Hk1.
  assert (forall s', keeps_view eob 0 s s' -> r_inv h (packet_unsched k c s' st) /\ packet_inv eob (s_tlvs s') /\
    length (s_tlvs s') = length tlvs) as Hafter.
  { intros s' ([V1 V2 V3] & Hlen & _). split; [by apply (packet_unsched_inv eob)|]. done. }
  destruct (negb _); [by apply Hafter|].
  eapply (safe_bind _ (fun '(_, s2) => keeps_view eob 0 s s2)).
  - destruct (has && _); [|done]. eapply safe_mono; [apply (schedule_view buf eob 0 0 c s1 He), Hk1|done|].
    intros [r2 s2] [Hk2 _]. by eapply keeps_view_trans.
  - intros [r2 s2] Hk2. destruct (Hafter s2 Hk2) as (A1 & A2 & A3). destruct (negb _); [done|].
    eapply safe_mono; [by apply IH|done|]. intros [[[r3 n3] t3] st3] (B1 & B2 & B3). split_and!; [done|done|congruence].
Qed.

Lemma packet_end_cbs_inv eob h tlvs n r st : r_inv h st -> packet_inv eob tlvs -> r_inv h (packet_end_cbs tlvs n r st).
Proof.
  intros Hr Ht. unfold packet_end_cbs. generalize (rev (seq 0 n)) as ks. intros ks.
  revert st Hr. induction ks as [|k ks IH]; intros st Hr; simpl; [done|]. apply IH. unfold packet_end_cb.
  destruct (r_packet st !! k) as [c|] eqn:Hk; [|done]. destruct (end_callback c) as [cb|]; [|done].
  pose proof (packet_sched_view eob c k tlvs st h Hr Ht Hk) as Hv.
  apply (packet_unsched_inv eob); [done|]. by apply (call_view eob 0 (cb (negb (r =? RFC5444_OKAY)))) in Hv as [? _].
Qed.

Lemma process_packet_safe h has ptr eob tlvs st : eob <= blen buf -> 0 <= ptr -> packet_inv eob tlvs ->
  Forall consumer_ok (r_packet st) -> Forall consumer_ok (r_message st) ->
  tlv_live (r_heap st) = tlv_live h + Z.of_nat (length tlvs) -> addr_live (r_heap st) = addr_live h ->
  safe [UB_div_zero; UB_prefix_length; UB_address_octets] (fun '(r, st') => r_inv h st' /\ r <> RFC5444_DROP_PACKET)
    (process_packet malloc_ok parser buf has ptr eob tlvs st).
Proof.
  intros He Hp Ht Hpk Hm Htl Hal. unfold process_packet.
  eapply safe_bind; [eapply safe_mono; [apply (packet_loop_safe eob (r_heap st)); done|set_solver|intros x Hx; exact Hx]|].
  intros [[[r1 n1] t1] st1] (H1 & H2 & H3).
  eapply (safe_bind _ (fun '(_, st2) => r_inv (r_heap st) st2)).
  - destruct (Z.eqb_spec r1 RFC5444_OKAY); [|done].
    eapply safe_mono; [apply (packet_messages_safe (r_heap st)); [done|done|left; lia|done|by left]|done|].
    by intros [r2 st2] [? _].
  - intros [r2 st2] Hr2. pose proof (packet_end_cbs_inv eob _ t1 n1 r2 st2 Hr2 H2) as (A1 & A2 & A3 & A4).
    simpl. split; [|destruct (Z.eqb_spec r2 RFC5444_DROP_PACKET); done].
    unfold r_inv. simpl. split_and!; (done || lia).
Qed.

(** What a reader needs of its consumers. *)
Definition reader_ok : Prop := Forall consumer_ok (packet_consumer parser) /\ Forall consumer_ok (message_consumer parser).

Lemma handle_packet_runs h w : reader_ok ->
  safe [UB_div_zero; UB_prefix_length; UB_address_octets] (fun '(r, st') => r_inv h st' /\ r <> RFC5444_DROP_PACKET)
    (rfc5444_reader_handle_packet malloc_ok parser buf h w).
Proof.
  intros [Hpk Hm]. unfold rfc5444_reader_handle_packet. cbv zeta. destruct (Z.ltb_spec 65535 (blen buf)); [done|].
  destruct (get_u8_spec buf (blen buf) Hbuf (Z.le_refl _) (0, RFC5444_OKAY)) as (fb & s1 & -> & _ & Ha); [done|].
  unfold advances, RFC5444_OKAY in Ha. cbn [mbind outcome_bind].
  destruct (negb _); [by split|].
  destruct (optional_field_spec (has_flag (fb .& RFC5444_PKT_FLAGMASK) RFC5444_PKT_FLAG_SEQNO) (_rfc5444_get_u16 buf (blen buf)) 0 s1 2 (blen buf))
    as (sq & s2 & -> & H2); [simpl in Ha; lia|intros s Hs; destruct (get_u16_spec buf (blen buf) Hbuf (Z.le_refl _) s Hs) as (x & s' & ? & _ & ?); eauto|lia|].
  cbn [mbind outcome_bind]. simpl in Ha. destruct (negb (s2.2 =? RFC5444_OKAY)) eqn:E2.
  { split; [done|]. unfold RFC5444_DROP_PACKET. lia. }
  eapply (safe_bind _ (fun '(r, tlvs, p, h1) => addr_live h1 = addr_live h /\ tlv_live h1 = tlv_live h + Z.of_nat (length tlvs) /\
    (r = RFC5444_OKAY /\ 0 <= p /\ packet_inv (blen buf) tlvs \/ r < 0 /\ tlvs = []))).
  - destruct (has_flag _ RFC5444_PKT_FLAG_TLV).
    + eapply safe_mono; [apply (parse_tlvblock_runs malloc_ok buf Hbuf (blen buf) s2.1 0 h); [done|lia|unfold is_u8; lia]|set_solver|].
      intros [[[r t] p] h1] (A1 & A2 & A3). split; [done|]. split; [done|].
      destruct A3 as [(-> & ? & ? & ? & ?)|(? & _ & ->)]; [left|by right]. split_and!; (done || lia).
    + simpl. split_and!; try done; try lia. left. split_and!; try done; try lia. split; constructor.
  - intros [[[r t] p] h1] (A1 & A2 & A3). destruct (Z.eqb_spec r RFC5444_OKAY) as [->|Hr]; simpl.
    + destruct A3 as [(_ & Hp & Ht)|[? _]]; [|done]. apply process_packet_safe; try done; lia.
    + destruct A3 as [[? _]|[? ->]]; [done|]. simpl in A2. split; [|unfold RFC5444_DROP_PACKET; lia].
      unfold r_inv. simpl. split_and!; (done || lia).
Qed.

(** C1: Whatever octets arrive, whichever allocations fail and whatever the
    callbacks do, handling a packet terminates, touches nothing outside of the
    packet and of the reader's own objects, and ends with every TLV and address
    object freed, never returning [RFC5444_DROP_PACKET]. There are three
    exceptions, each in one line of the code: the division by the number of
    values of a multi-value TLV ([UB_div_zero]), the read of a single prefix
    length that is not checked against the end ([UB_prefix_length]) and the
    copy of the middle part of an address into its 16 octets
    ([UB_address_octets]). Any other operation without a defined result, such
    as another read or write outside of its array, is excluded. *)
Theorem handle_packet_safe h w : reader_ok ->
  (exists r st', rfc5444_reader_handle_packet malloc_ok parser buf h w = Def (r, st') /\
    tlv_live (r_heap st') = tlv_live h /\ addr_live (r_heap st') = addr_live h /\ r <> RFC5444_DROP_PACKET) \/
  exists u, rfc5444_reader_handle_packet malloc_ok parser buf h w = Undef u /\ u ∈ [UB_div_zero; UB_prefix_length; UB_address_octets].
Proof.
  intros Hok. pose proof (handle_packet_runs h w Hok) as H.
  destruct (rfc5444_reader_handle_packet malloc_ok parser buf h w) as [[r st']|u]; [left|right; eauto].
  destruct H as ((_ & _ & ? & ?) & ?). eauto 10.
Qed.
End top.

(** A reader like [parser] that forwards nothing. *)
Definition without_forward {W} (parser : reader (W := W)) : reader (W := W) :=
  {| packet_consumer := packet_consumer parser; message_consumer := message_consumer parser; forward_message := None |}.

(** C33: A message is handled by the callbacks first and forwarded then, at
    most once. After the part of the handling that does not know the forwarding
    callback, this callback gets exactly the octets of the message if that part
    dropped nothing (or the message only for this router), the message has a
    hop limit above one and no callback has prevented the forwarding; otherwise
    it is not called. Nothing else of the handling depends on it: the result,
    the new position, the consumers and the memory are those of a reader without
    forwarding. *)
Theorem message_forwarding {W} malloc_ok (parser : reader (W := W)) fw buf start eob st result end_ tlvs addrs st1 :
  octets buf -> eob <= blen buf -> 0 <= start -> Forall consumer_ok (r_packet st) -> Forall consumer_ok (r_message st) ->
  forward_message parser = Some fw ->
  message_result malloc_ok buf start eob st = Def (result, end_, tlvs, addrs, st1) ->
  let m := ctx_message (r_ctx st1) in
  let forwarded := (result = RFC5444_OKAY \/ result = RFC5444_DROP_MSG_BUT_FORWARD) /\
    _do_not_forward m = false /\ has_hoplimit m = true /\ 1 < hoplimit m in
  exists r st' st0, _handle_message malloc_ok parser buf start eob st = Def (r, end_, st') /\
    _handle_message malloc_ok (without_forward parser) buf start eob st = Def (r, end_, st0) /\
    r_packet st' = r_packet st0 /\ r_message st' = r_message st0 /\ r_heap st' = r_heap st0 /\
    r_world st0 = r_world st1 /\ (~ forwarded -> r_world st' = r_world st1) /\
    (forwarded -> exists msg ctx, rd_n buf start (end_ - start) = Def msg /\ blen msg = end_ - start /\
       ctx_message ctx = set_msg_buffer m None (msg_size m) /\ ctx_type ctx = RFC5444_CONTEXT_MESSAGE /\
       r_world st' = fw ctx msg (r_world st1)).
Proof.
  intros Hbuf He Hst Hpk Hms Hfw H m forwarded.
  pose proof (message_result_safe malloc_ok buf Hbuf (r_heap st) start eob st He Hst) as Hs. rewrite H in Hs. destruct Hs as [_ Hin]; [done|].
  rewrite !handle_message_result, H. simpl. unfold finish_message, run_forward. rewrite Hfw. simpl. fold m.
  assert (may_forward result (set_msg_buffer m None (msg_size m)) = true <-> forwarded) as Hmay.
  { unfold may_forward, forwarded. simpl. rewrite !andb_true_iff, negb_true_iff, Z.ltb_lt, orb_true_iff, !Z.eqb_eq. tauto. }
  destruct (may_forward _ _).
  - pose proof (proj1 Hmay eq_refl) as Hf. pose proof (proj1 Hf) as Hr.
    assert (0 <= result) as Hr0 by (unfold RFC5444_OKAY, RFC5444_DROP_MSG_BUT_FORWARD in Hr; lia). specialize (Hin Hr0).
    destruct (rd_n_inside buf start (end_ - start)) as (msg & Em & Hlen); [lia..|]. rewrite Em. simpl.
    eexists _, _, _. do 6 (split; [done|]). split; [tauto|]. intros _. by exists msg, (set_ctx_type RFC5444_CONTEXT_MESSAGE (set_ctx_message (set_msg_buffer m None (msg_size m)) (r_ctx st1))).
  - simpl. eexists _, _, _. do 6 (split; [done|]). split; [done|]. by intros ?%Hmay.
Qed.

(** ** A packet from beginning to end

    One message of type 1 with originator and hop limit, a message TLV and the
    addresses 10.0.0.1 and 10.0.0.2; the consumers record what they see. *)
Module Example.
Definition packet : bytes :=
  [0x00;
   1; 0xc3; 0; 30; 192; 168; 1; 1; 255; 0; 6; 7; 0x10; 3; 1; 2; 3;
   2; 0x80; 3; 10; 0; 0; 1; 2; 0; 3; 9; 0x40; 1].

Definition see (x : bytes) (l : list bytes) : answer (list bytes) :=
  {| ans_result := RFC5444_OKAY; ans_prevent := false; ans_drop := []; ans_world := l ++ [x] |}.

Definition message_tlvs : consumer (list bytes) :=
  {| order := 1; default_msg_consumer := false; msg_id := 1; addrblock_consumer := false;
     _consumer_list := [{| mandatory := true; ce_type := 7; ce_type_ext := 0; match_type_ext := false; min_length := 3;
       max_length := 3; match_length := true; copy_value := Some [0; 0; 0]; ce_tlv := None; drop := false |}];
     start_callback := None; end_callback := Some (fun (dropped : bool) _ _ _ => see [if dropped then 1 else 0]);
     tlv_callback := None; block_callback := Some (fun _ (es : list consumer_entry) _ => see (concat (omap copy_value es)));
     block_callback_failed_constraints := None |}.
Definition addresses : consumer (list bytes) :=
  {| order := 1; default_msg_consumer := false; msg_id := 1; addrblock_consumer := true; _consumer_list := [];
     start_callback := Some (fun (ctx : context) _ _ => see (take 4 (na_addr (addr (ctx_address ctx)))));
     end_callback := None; tlv_callback := Some (fun (tlv : tlvblock_entry) _ _ _ => see [type tlv]);
     block_callback := None; block_callback_failed_constraints := None |}.

Definition parser : reader (W := list bytes) :=
  {| packet_consumer := []; message_consumer := [message_tlvs; addresses];
     forward_message := Some (fun _ msg l => l ++ [take 4 msg]) |}.
Definition heap0 : heap := {| calls := 0; tlv_live := 0; addr_live := 0 |}.
Definition idle : rstate (W := list bytes) :=
  {| r_ctx := packet_header 0 0 false 0 31; r_packet := []; r_message := message_consumer parser; r_heap := heap0;
     r_world := [] |}.

Lemma parser_ok : reader_ok parser.
Proof. split; repeat constructor; simpl; try lia; intros p [= <-]; vm_compute; discriminate. Qed.
End Example.

(** The message TLV first, then each address with its TLVs, then the end
    callback and the forwarded octets. *)
Example packet_runs :
  match rfc5444_reader_handle_packet (fun _ => true) Example.parser Example.packet Example.heap0 [] with
  | Def (r, st) => Some (r, r_world st, tlv_live (r_heap st), addr_live (r_heap st))
  | Undef _ => None
  end = Some (0, [[1; 2; 3]; [10; 0; 0; 1]; [10; 0; 0; 2]; [9]; [0]; [1; 0xc3; 0; 30] : bytes], 0, 0).
Proof. vm_compute. reflexivity. Qed.

Lemma handle_packet_safe_witness :
  (exists r st', rfc5444_reader_handle_packet (fun _ => true) Example.parser Example.packet Example.heap0 [] = Def (r, st') /\
    tlv_live (r_heap st') = 0 /\ addr_live (r_heap st') = 0 /\ r <> RFC5444_DROP_PACKET) \/
  exists u, rfc5444_reader_handle_packet (fun _ => true) Example.parser Example.packet Example.heap0 [] = Undef u /\
    u ∈ [UB_div_zero; UB_prefix_length; UB_address_octets].
Proof.
  apply (handle_packet_safe (fun _ => true) Example.parser Example.packet).
  - repeat constructor; unfold is_u8; simpl; lia.
  - exact Example.parser_ok.
Defined.

Lemma message_forwarding_witness :
  exists r st' st0 st1 msg ctx,
    _handle_message (fun _ => true) Example.parser Example.packet 1 31 Example.idle = Def (r, 31, st') /\
    _handle_message (fun _ => true) (without_forward Example.parser) Example.packet 1 31 Example.idle = Def (r, 31, st0) /\
    rd_n Example.packet 1 (31 - 1) = Def msg /\ ctx_type ctx = RFC5444_CONTEXT_MESSAGE /\
    r_world st' = r_world st1 ++ [take 4 msg].
Proof.
  assert (match message_result (fun _ => true) Example.packet 1 31 Example.idle with
          | Def (r, e, _, _, s) => Some (r, e, _do_not_forward (ctx_message (r_ctx s)), has_hoplimit (ctx_message (r_ctx s)), hoplimit (ctx_message (r_ctx s)))
          | Undef _ => None end = Some (RFC5444_OKAY, 31, false, true, 255)) as Hrun by (vm_compute; reflexivity).
  destruct (message_result (fun _ => true) Example.packet 1 31 Example.idle) as [[[[[r e] tlvs] addrs] st1]|u] eqn:E; [|discriminate Hrun].
  destruct (message_forwarding (fun _ => true) Example.parser (fun _ msg l => l ++ [take 4 msg]) Example.packet 1 31
    Example.idle r e tlvs addrs st1) as (r' & st' & st0 & E1 & E2 & _ & _ & _ & _ & _ & Hf).
  - repeat constructor; unfold is_u8; simpl; lia.
  - vm_compute. discriminate.
  - lia.
  - constructor.
  - apply Example.parser_ok.
  - reflexivity.
  - exact E.
  - injection Hrun as -> -> H1 H2 H3. destruct Hf as (msg & ctx & Em & _ & _ & Ht & Ew).
    { rewrite H1, H2, H3. split; [left; reflexivity|]. split; [reflexivity|]. split; [reflexivity|lia]. }
    exists r', st', st0, st1, msg, ctx. split; [exact E1|]. split; [exact E2|]. split; [exact Em|]. split; [exact Ht|exact Ew].
Defined.
