(* ===== verification/ReaderAddress.v ===== *)
(** The compressed addresses of RFC 5444: what [_parse_addrblock] and the
    address assembly of the reader make of an address block with head, tail and
    prefix lengths, and where they write behind the address array. *)

From Stdlib Require Import ZArith Lia Sorted.
From stdpp Require Import base list numbers option gmap sets.
From S2P Require Import Prelude AvlSpec Netaddr Bitmap256 ReaderParse ReaderSchedule Reader.

Local Open Scope Z_scope.
Local Open Scope cint_scope.

(** ** Address blocks as the standard describes them *)

Inductive tail_spec := No_tail | Full_tail (t : bytes) | Zero_tail (n : nat).
Inductive prefix_spec := No_prefix | Single_prefix (n : Z) | Multi_prefix (l : list Z).

(** All addresses share [ad_head] and the tail; each has its own middle part. *)
Record address_block := {
  ad_head : bytes;
  ad_tail : tail_spec;
  ad_mids : list bytes;
  ad_prefix : prefix_spec;
}.

Definition tail_octets (t : tail_spec) : bytes :=
  match t with No_tail => [] | Full_tail t => t | Zero_tail n => replicate n 0 end.
Definition tail_flag (t : tail_spec) : Z :=
  match t with No_tail => 0 | Full_tail _ => RFC5444_ADDR_FLAG_FULLTAIL | Zero_tail _ => RFC5444_ADDR_FLAG_ZEROTAIL end.
Definition tail_field (t : tail_spec) : bytes :=
  match t with No_tail => [] | Full_tail t => blen t :: t | Zero_tail n => [Z.of_nat n] end.
Definition prefix_flag (p : prefix_spec) : Z :=
  match p with No_prefix => 0 | Single_prefix _ => RFC5444_ADDR_FLAG_SINGLEPLEN | Multi_prefix _ => RFC5444_ADDR_FLAG_MULTIPLEN end.
Definition prefix_field (p : prefix_spec) : bytes :=
  match p with No_prefix => [] | Single_prefix n => [n] | Multi_prefix l => l end.
Definition head_flag (h : bytes) : Z := match h with [] => 0 | _ => RFC5444_ADDR_FLAG_HEAD end.
Definition head_field (h : bytes) : bytes := match h with [] => [] | _ => blen h :: h end.

Definition encode_block (b : address_block) : bytes :=
  [Z.of_nat (length (ad_mids b)); head_flag (ad_head b) .| tail_flag (ad_tail b) .| prefix_flag (ad_prefix b)] ++
  head_field (ad_head b) ++ tail_field (ad_tail b) ++ concat (ad_mids b) ++ prefix_field (ad_prefix b).

(** The [i]-th address and its prefix length. *)
Definition address (b : address_block) (m : bytes) : bytes := ad_head b ++ m ++ tail_octets (ad_tail b).
Definition prefix (b : address_block) (len : Z) (i : nat) : Z :=
  match ad_prefix b with No_prefix => len * 8 | Single_prefix n => n | Multi_prefix l => nth i l 0 end.

(** A block for addresses of [len] octets. *)
Record block_for (len : Z) (b : address_block) : Prop := {
  bf_count : (1 <= length (ad_mids b) < 256)%nat;
  bf_mids : Forall (fun m => blen (address b m) = len) (ad_mids b);
  bf_mid : Forall (fun m => m <> []) (ad_mids b);
  bf_tail : match ad_tail b with Full_tail t => t <> [] | _ => True end;
  bf_prefix : match ad_prefix b with Multi_prefix l => length l = length (ad_mids b) | _ => True end;
}.

(** ** Reading a known part of a buffer *)

Section at_position.
Context (buf : bytes) (eob : Z).

(** The buffer holds [l] at [p]. *)
Definition holds (p : Z) (l : bytes) : Prop :=
  exists pre post, buf = pre ++ l ++ post /\ blen pre = p.

Lemma blen_app (a b : bytes) : blen (a ++ b) = blen a + blen b.
Proof. unfold blen. rewrite length_app. lia. Qed.

Lemma holds_app p l1 l2 : holds p (l1 ++ l2) -> holds p l1 /\ holds (p + blen l1) l2.
Proof.
  intros (pre & post & E & Hp). split.
  - exists pre, (l2 ++ post). by rewrite E, <- !app_assoc.
  - exists (pre ++ l1), post. split; [by rewrite E, <- !app_assoc|]. rewrite blen_app. lia.
Qed.

Lemma holds_cons p x l : holds p (x :: l) -> rd buf p = Def x /\ holds (p + 1) l.
Proof.
  intros H. change (x :: l) with ([x] ++ l) in H. destruct (holds_app _ _ _ H) as [(pre & post & E & Hp) H2].
  split; [|done]. apply rd_at; unfold blen in *; [lia|]. rewrite E, <- Hp, Nat2Z.id.
  by rewrite lookup_app_r, Nat.sub_diag by lia.
Qed.

Lemma holds_rd_n p l : holds p l -> rd_n buf p (blen l) = Def l.
Proof.
  intros (pre & post & E & <-). unfold rd_n. rewrite E. destruct (Z.leb_spec (blen l) 0) as [H|H].
  { destruct l; [done|]. unfold blen in H. simpl in H. lia. }
  destruct (Z.ltb_spec (blen pre) 0); [unfold blen in *; lia|]. rewrite !blen_app.
  destruct (Z.ltb_spec (blen pre + (blen l + blen post)) (blen pre + blen l)); [unfold blen in *; lia|]. simpl.
  unfold blen. rewrite !Nat2Z.id, drop_app_length, take_app_length. done.
Qed.

Lemma holds_get_u8 p x l : holds p (x :: l) -> p < eob ->
  _rfc5444_get_u8 buf eob (p, RFC5444_OKAY) = Def (x, (p + 1, RFC5444_OKAY)) /\ holds (p + 1) l.
Proof. intros [Hr Hl]%holds_cons Hp. split; [|done]. by apply get_u8_at. Qed.

Lemma holds_bound p l : holds p l -> 0 <= p /\ p + blen l <= blen buf.
Proof. intros (pre & post & E & <-). rewrite E, !blen_app. unfold blen. lia. Qed.

(** The [i]-th of equally long parts. *)
Lemma holds_concat p ms k m i : holds p (concat ms) -> Forall (fun m => blen m = k) ms -> ms !! i = Some m ->
  holds (p + k * Z.of_nat i) m.
Proof.
  revert p i. induction ms as [|x ms IH]; intros p i H Hk Hi; [done|]. simpl in H.
  apply Forall_cons in Hk as [Hx Hk]. apply holds_app in H as [H1 H2]. destruct i as [|i]; simpl in Hi.
  - injection Hi as ->. by rewrite Z.mul_0_r, Z.add_0_r.
  - specialize (IH _ i H2 Hk Hi). rewrite Hx in IH. replace (p + k * Z.of_nat (S i)) with (p + k + k * Z.of_nat i) by lia. done.
Qed.
End at_position.

(** Copies into the array of 16 octets: exact result. *)
Lemma wr_n_exact (a b c src : bytes) : length b = length src ->
  wr_n (a ++ b ++ c) (blen a) src = Def (a ++ src ++ c).
Proof.
  intros Hl. unfold wr_n. destruct (Z.eqb_spec (blen src) 0) as [H|H].
  { destruct src; [|unfold blen in H; simpl in H; lia]. by destruct b. }
  rewrite !blen_app. destruct (Z.ltb_spec (blen a) 0); [unfold blen in *; lia|].
  destruct (Z.ltb_spec (blen a + (blen b + blen c)) (blen a + blen src)); [unfold blen in *; lia|]. simpl.
  unfold blen. rewrite Nat2Z.id, take_app_length, <- Nat2Z.inj_add, Nat2Z.id, <- Hl, <- drop_drop, drop_app_length, drop_app_length.
  done.
Qed.

(** ** Parsing a described block *)

#[local] Arguments _rfc5444_get_u8 : simpl never.

Section roundtrip.
Context (buf : bytes) (eob len : Z) (Hlen : 1 <= len <= 16).
Context (b : address_block) (Hb : block_for len b).

Notation h := (ad_head b).
Notation t := (tail_octets (ad_tail b)).
Definition flags_of : Z := head_flag h .| tail_flag (ad_tail b) .| prefix_flag (ad_prefix b).
(** The length of every middle part. *)
Definition ml : Z := len - blen h - blen t.

Lemma blen_nonneg (l : bytes) : 0 <= blen l.
Proof. unfold blen. lia. Qed.

Lemma mids_length : Forall (fun m => blen m = ml) (ad_mids b).
Proof.
  eapply Forall_impl; [exact (bf_mids _ _ Hb)|]. intros m. unfold address. rewrite !blen_app. unfold ml. lia.
Qed.

Lemma ml_bounds : 1 <= ml /\ ml + blen h + blen t = len.
Proof.
  split; [|unfold ml; lia]. pose proof (bf_count _ _ Hb). pose proof mids_length as Hm. pose proof (bf_mid _ _ Hb) as Hne.
  destruct (ad_mids b) as [|m l]; [simpl in *; lia|]. apply Forall_cons in Hm as [<- _]. apply Forall_cons in Hne as [Hne _].
  destruct m; [done|]. unfold blen. simpl. lia.
Qed.

Lemma flags_masks :
  (flags_of .& RFC5444_ADDR_FLAG_HEAD =? 0) = (match h with [] => true | _ => false end) /\
  flags_of .& (RFC5444_ADDR_FLAG_FULLTAIL .| RFC5444_ADDR_FLAG_ZEROTAIL) = tail_flag (ad_tail b) /\
  flags_of .& (RFC5444_ADDR_FLAG_SINGLEPLEN .| RFC5444_ADDR_FLAG_MULTIPLEN) = prefix_flag (ad_prefix b).
Proof. unfold flags_of. by destruct h, (ad_tail b), (ad_prefix b). Qed.

Lemma zeros_split n m : 0 <= n -> 0 <= m -> replicate (Z.to_nat (n + m)) 0 = replicate (Z.to_nat n) 0 ++ replicate (Z.to_nat m) 0 :> bytes.
Proof. intros. by rewrite Z2Nat.inj_add, replicate_add by done. Qed.

(** The array: head, room for the middle part, tail, rest. *)
Definition array (m : bytes) : bytes := h ++ m ++ t ++ replicate (Z.to_nat (16 - len)) 0.

Lemma parse_head_at p : holds buf p (head_field h) -> p + blen (head_field h) <= eob ->
  parse_addr_head buf flags_of len (p, RFC5444_OKAY) eob =
    Def (RFC5444_OKAY, blen h, h ++ replicate (Z.to_nat (16 - blen h)) 0, (p + blen (head_field h), RFC5444_OKAY)).
Proof.
  intros Hh Hp. unfold parse_addr_head. rewrite (proj1 flags_masks). pose proof ml_bounds. pose proof (blen_nonneg t).
  destruct h as [|x l] eqn:E; simpl negb; cbv iota.
  { unfold blen. simpl. by rewrite Z.add_0_r. }
  rewrite <- E in *. assert (head_field h = blen h :: h) as Ef by (by rewrite E). rewrite Ef in Hh, Hp |- *.
  assert (blen (blen h :: h) = 1 + blen h) as El by (unfold blen; simpl; lia). rewrite El in *.
  assert (1 <= blen h) by (rewrite E; unfold blen; simpl; lia).
  destruct (holds_get_u8 buf eob _ _ _ Hh) as [-> Hh']; [lia|]. simpl. unfold RFC5444_MAX_ADDRLEN.
  destruct (Z.ltb_spec (blen h) 1); [lia|]. destruct (Z.leb_spec 16 (blen h)); [lia|].
  destruct (Z.leb_spec len (blen h)); [lia|]. simpl. destruct (Z.ltb_spec eob (p + 1 + blen h)); [lia|].
  rewrite (holds_rd_n _ _ _ Hh'). simpl.
  pose proof (wr_n_exact [] (replicate (Z.to_nat (blen h)) 0) (replicate (Z.to_nat (16 - blen h)) 0) h) as Hw.
  simpl in Hw. rewrite <- zeros_split in Hw by lia. replace (blen h + (16 - blen h)) with 16 in Hw by lia.
  change (blen []) with 0 in Hw. change (zeros 16) with (replicate (Z.to_nat 16) 0). rewrite Hw; cycle 1.
  { rewrite length_replicate. unfold blen. lia. }
  simpl. by rewrite Z.add_assoc.
Qed.

Lemma parse_tail_at p : holds buf p (tail_field (ad_tail b)) -> p + blen (tail_field (ad_tail b)) <= eob ->
  parse_addr_tail buf flags_of len (h ++ replicate (Z.to_nat (16 - blen h)) 0) (p, RFC5444_OKAY) eob =
    Def (RFC5444_OKAY, blen t, array (replicate (Z.to_nat ml) 0), (p + blen (tail_field (ad_tail b)), RFC5444_OKAY)).
Proof.
  intros Ht Hp. unfold parse_addr_tail. cbv zeta. rewrite (proj1 (proj2 flags_masks)). pose proof ml_bounds as [Hm1 Hm2].
  pose proof (blen_nonneg h). pose proof (blen_nonneg t) as Ht0.
  assert (replicate (Z.to_nat (16 - blen h)) 0 =
    replicate (Z.to_nat ml) 0 ++ replicate (Z.to_nat (blen t)) 0 ++ replicate (Z.to_nat (16 - len)) 0) as Ez.
  { rewrite <- !zeros_split by lia. do 2 f_equal. lia. }
  rewrite Ez. unfold array. unfold RFC5444_ADDR_FLAG_FULLTAIL, RFC5444_ADDR_FLAG_ZEROTAIL in *. pose proof (bf_tail _ _ Hb) as Hbt. destruct (ad_tail b) as [|tl|k] eqn:E; simpl in *.
  - unfold blen in *. simpl. by rewrite Z.add_0_r.
  - assert (blen (blen tl :: tl) = 1 + blen tl) as El by (unfold blen; simpl; lia). rewrite El in *.
    assert (1 <= blen tl) by (destruct tl; [done|unfold blen; simpl; lia]).
    destruct (holds_get_u8 buf eob _ _ _ Ht) as [-> Ht']; [lia|]. simpl. unfold RFC5444_MAX_ADDRLEN.
    destruct (Z.ltb_spec (blen tl) 1); [lia|]. destruct (Z.leb_spec 16 (blen tl)); [lia|].
    destruct (Z.leb_spec len (blen tl)); [lia|]. simpl. destruct (Z.ltb_spec eob (p + 1 + blen tl)); [lia|].
    rewrite (holds_rd_n _ _ _ Ht'). simpl.
    pose proof (wr_n_exact (h ++ replicate (Z.to_nat ml) 0) (replicate (Z.to_nat (blen tl)) 0)
      (replicate (Z.to_nat (16 - len)) 0) tl) as Hw.
    rewrite <- !app_assoc in Hw. replace (len - blen tl) with (blen (h ++ replicate (Z.to_nat ml) 0)); cycle 1.
    { rewrite blen_app. unfold blen at 2. rewrite length_replicate. lia. }
    rewrite Hw by (rewrite length_replicate; unfold blen; lia). simpl. by rewrite Z.add_assoc.
  - assert (blen (replicate k 0) = Z.of_nat k) as Ek by (unfold blen; by rewrite length_replicate). rewrite Ek in *.
    destruct (holds_get_u8 buf eob _ _ _ Ht) as [-> _]; [unfold blen in Hp; simpl in Hp; lia|]. simpl.
    by rewrite Nat2Z.id.
Qed.

(** Where the parts of the block lie. *)
Definition mids_at (p : Z) : Z := p + 2 + blen (head_field h) + blen (tail_field (ad_tail b)).
Definition prefix_at (p : Z) : Z := mids_at p + ml * Z.of_nat (length (ad_mids b)).

Lemma concat_length (ms : list bytes) k : Forall (fun m => blen m = k) ms -> blen (concat ms) = k * Z.of_nat (length ms).
Proof.
  induction 1 as [|m ms Hm _ IH]; simpl; [unfold blen; simpl; lia|]. rewrite blen_app, IH, Hm. lia.
Qed.

Lemma encode_length : blen (encode_block b) =
  2 + blen (head_field h) + blen (tail_field (ad_tail b)) + ml * Z.of_nat (length (ad_mids b)) + blen (prefix_field (ad_prefix b)).
Proof.
  unfold encode_block. rewrite !blen_app, (concat_length _ ml) by apply mids_length. unfold blen at 1. simpl. lia.
Qed.

(** The entry of the block at [p]; the middle part in its array is [m]. *)
Definition entry_of (p : Z) (m : bytes) : addrblock_entry :=
  {| tlvblock := []; num_addr := Z.of_nat (length (ad_mids b)); mid_start := blen h; mid_len := ml;
     prefixes := match ad_prefix b with Multi_prefix _ => Some (prefix_at p) | _ => None end;
     mid_src := mids_at p; addr_octets := array m;
     prefixlen := match ad_prefix b with No_prefix => u8 (len * 8) | Single_prefix n => n | Multi_prefix _ => 0 end;
     addr_block_ptr := p; addr_block_size := blen (encode_block b); addr_tlv_size := 0;
     dropAddr := bitmap256_empty |}.

Lemma parse_block_at p : holds buf p (encode_block b) -> p + blen (encode_block b) <= eob ->
  _parse_addrblock buf p eob len =
    Def (RFC5444_OKAY, entry_of p (replicate (Z.to_nat ml) 0), p + blen (encode_block b)).
Proof.
  intros Hh Hp. pose proof encode_length as El. unfold encode_block in Hh.
  pose proof (blen_nonneg (head_field h)). pose proof (blen_nonneg (tail_field (ad_tail b))).
  pose proof (blen_nonneg (prefix_field (ad_prefix b))). pose proof ml_bounds as [Hm1 Hm2].
  pose proof (bf_count _ _ Hb) as Hn. pose proof (blen_nonneg h). pose proof (blen_nonneg t).
  assert (1 <= ml * Z.of_nat (length (ad_mids b))) by nia.
  apply holds_app in Hh as [Hhd Hh]. change (blen [_; _]) with 2 in Hh.
  apply holds_app in Hh as [Hf1 Hh]. apply holds_app in Hh as [Hf2 Hh]. apply holds_app in Hh as [_ Hf4].
  rewrite (concat_length _ ml) in Hf4 by apply mids_length.
  destruct (holds_get_u8 buf eob _ _ _ Hhd) as [E1 Hhd']; [lia|]. destruct (holds_get_u8 buf eob _ _ _ Hhd') as [E2 _]; [lia|].
  unfold _parse_addrblock. cbv zeta. rewrite E1. simpl.
  destruct (Z.eqb_spec (Z.of_nat (length (ad_mids b))) 0); [lia|]. rewrite E2. simpl.
  fold flags_of. replace (p + 1 + 1) with (p + 2) by lia. rewrite parse_head_at by (done || lia). simpl.
  rewrite parse_tail_at by (done || lia). simpl.
  rewrite (u8_small (len - blen h)) by lia. rewrite u8_small by lia.
  replace (len - blen h - blen t) with ml by (unfold ml; lia). change (p + 2 + blen _ + blen _) with (mids_at p).
  change (mids_at p + ml * _) with (prefix_at p).
  assert (prefix_at p + blen (prefix_field (ad_prefix b)) = p + blen (encode_block b)) as Eend.
  { rewrite El. unfold prefix_at, mids_at. lia. }
  destruct (Z.ltb_spec eob (prefix_at p)); [lia|].
  unfold parse_addr_prefix. cbv zeta. rewrite (proj2 (proj2 flags_masks)). unfold entry_of.
  set (tot := blen (encode_block b)) in *. clearbody tot.
  change (p + 2 + blen _ + blen _ + ml * _) with (prefix_at p) in Hf4.
  pose proof (bf_prefix _ _ Hb) as Hpre. destruct (ad_prefix b) as [|pl|l] eqn:Ep; simpl in *.
  - unfold blen in Eend. simpl in Eend. destruct (Z.ltb_spec eob (prefix_at p)); [lia|].
    rewrite <- Eend, Z.add_0_r. simpl. repeat f_equal. lia.
  - unfold blen in Eend. simpl in Eend. apply holds_cons in Hf4 as [-> _]. simpl.
    destruct (Z.ltb_spec eob (prefix_at p + 1)); [lia|]. rewrite <- Eend. repeat f_equal. lia.
  - unfold blen in Eend. rewrite Hpre in Eend. destruct (Z.ltb_spec eob (prefix_at p + Z.of_nat (length (ad_mids b)))); [lia|].
    rewrite <- Eend. repeat f_equal. lia.
Qed.

(** The address family the reader takes for a length. *)
Definition family (n : Z) : Z :=
  if n =? 4 then AF_INET else if n =? 6 then AF_MAC48 else if n =? 8 then AF_EUI64 else if n =? 16 then AF_INET6
  else AF_UNSPEC.

(** The address a block describes, as a [struct netaddr]; the prefix length
    255 stands for the full length. *)
Definition described (i : nat) (m : bytes) : netaddr :=
  {| na_addr := address b m ++ replicate (Z.to_nat (16 - len)) 0; na_type := family len;
     na_prefix_len := if prefix b len i =? 255 then u8 (len .<< 3) else prefix b len i |}.

Lemma assemble_at p m0 m i : holds buf p (encode_block b) -> blen m0 = ml -> ad_mids b !! i = Some m ->
  assemble_address buf len (entry_of p m0) (Z.of_nat i) = Def (entry_of p m, described i m).
Proof.
  intros Hh Hm0 Hi. pose proof ml_bounds as [Hm1 Hm2]. pose proof mids_length as Hml.
  pose proof (Forall_lookup_1 _ _ _ _ Hml Hi) as Hm. simpl in Hm.
  unfold encode_block in Hh. apply holds_app in Hh as [_ Hh]. change (blen [_; _]) with 2 in Hh.
  apply holds_app in Hh as [_ Hh]. apply holds_app in Hh as [_ Hh]. apply holds_app in Hh as [H3 H4].
  rewrite (concat_length _ ml) in H4 by done. fold (mids_at p) in H3, H4. fold (prefix_at p) in H4.
  unfold assemble_address. simpl mid_src. simpl mid_len. simpl mid_start. simpl addr_octets.
  rewrite <- Hm at 2. rewrite (holds_rd_n _ _ _ (holds_concat _ _ _ _ _ _ H3 Hml Hi)). simpl mbind.
  unfold array at 1. rewrite (wr_n_exact h m0 _ m) by (unfold blen in *; lia). simpl mbind.
  match goal with |- (?o ≫= _) = _ => assert (o = Def (prefix b len i)) as -> end.
  { unfold prefix. pose proof (bf_prefix _ _ Hb) as Hpre. destruct (ad_prefix b) as [|pl|l] eqn:Ep.
    - by rewrite u8_small by lia.
    - done.
    - simpl in H4. destruct H4 as (pre & post & E & Hp). apply lookup_lt_Some in Hi.
      assert (i < length l)%nat as Hil by lia. destruct (lookup_lt_is_Some_2 l i Hil) as [x Hx].
      rewrite (nth_lookup_Some _ _ _ _ Hx). apply rd_at; [unfold blen in *; lia|].
      rewrite E, lookup_app_r by (unfold blen in *; lia).
      replace (Z.to_nat (prefix_at p + Z.of_nat i) - length pre)%nat with i by (unfold blen in *; lia).
      rewrite lookup_app_l by done. done. }
  cbn [mbind outcome_bind].
  assert (holds (h ++ m ++ t ++ replicate (Z.to_nat (16 - len)) 0) 0 (address b m)) as Ha.
  { exists [], (replicate (Z.to_nat (16 - len)) 0). split; [|done]. unfold address. by rewrite <- !app_assoc. }
  assert (blen (address b m) = len) as El by (unfold address; rewrite !blen_app; unfold ml in *; lia).
  unfold netaddr_from_binary_prefix. simpl (negb (0 =? 0)). cbv iota.
  assert ((if len =? 4 then (AF_INET, len) else if len =? 6 then (AF_MAC48, len) else
    if len =? 8 then (AF_EUI64, len) else if len =? 16 then (AF_INET6, len) else
    (AF_UNSPEC, if 16 <? len then 16 else len)) = (family len, len)) as ->.
  { unfold family. destruct (Z.ltb_spec 16 len); [lia|]. by repeat case_match. }
  pose proof (holds_rd_n _ _ _ Ha) as Er. rewrite El in Er. rewrite Er. cbn [mbind outcome_bind].
  pose proof (wr_n_exact [] (replicate (Z.to_nat len) 0) (replicate (Z.to_nat (16 - len)) 0) (address b m)) as Hw.
  simpl app in Hw. rewrite <- zeros_split in Hw by lia. replace (len + (16 - len)) with 16 in Hw by lia.
  change (zeros 16) with (replicate (Z.to_nat 16) 0). change (blen []) with 0 in Hw.
  rewrite Hw by (rewrite length_replicate; unfold blen in El; lia). reflexivity.
Qed.
End roundtrip.

(** All addresses of a block one after the other, as
    [schedule_addresses] puts them together. *)
Fixpoint assemble_all (buf : bytes) (len : Z) (n : nat) (i : Z) (a : addrblock_entry) : outcome (list netaddr) :=
  match n with
  | O => Def []
  | S n => '(a, na) ← assemble_address buf len a i; l ← assemble_all buf len n (i + 1) a; Def (na :: l)
  end.

Lemma assemble_all_at buf len b p (Hlen : 1 <= len <= 16) (Hb : block_for len b) : holds buf p (encode_block b) ->
  forall ms i m0, blen m0 = ml len b -> skipn i (ad_mids b) = ms ->
  assemble_all buf len (length ms) (Z.of_nat i) (entry_of len b p m0) = Def (imap (fun j m => described len b (i + j) m) ms).
Proof.
  intros Hh ms. induction ms as [|m ms IH]; intros i m0 Hm0 Hs; [done|].
  assert (ad_mids b !! i = Some m) as Hi.
  { pose proof (lookup_drop (ad_mids b) i 0) as E. by rewrite Hs, Nat.add_0_r in E. }
  simpl. rewrite (assemble_at buf len Hlen b Hb p m0 m i Hh Hm0 Hi). cbn [mbind outcome_bind].
  replace (Z.of_nat i + 1) with (Z.of_nat (S i)) by lia. rewrite IH; cycle 1.
  - exact (Forall_lookup_1 _ _ _ _ (mids_length len b Hb) Hi).
  - rewrite (drop_S _ _ _ Hi) in Hs. by injection Hs.
  - simpl. f_equal. rewrite Nat.add_0_r. f_equal. apply imap_ext. intros j x _. simpl. f_equal. lia.
Qed.

(** C18: The reader undoes the address compression of RFC 5444: a block written
    with any head, full or zero tail and prefix lengths is consumed completely,
    and the addresses put together for the consumers are, in order, head, middle
    part and tail with their prefix lengths. *)
Theorem addrblock_roundtrip buf eob len p b : 1 <= len <= 16 -> block_for len b -> holds buf p (encode_block b) ->
  p + blen (encode_block b) <= eob ->
  exists a, _parse_addrblock buf p eob len = Def (RFC5444_OKAY, a, p + blen (encode_block b)) /\
    num_addr a = Z.of_nat (length (ad_mids b)) /\
    assemble_all buf len (length (ad_mids b)) 0 a = Def (imap (fun i m => described len b i m) (ad_mids b)).
Proof.
  intros Hlen Hb Hh Hp. eexists. split; [by apply parse_block_at|]. split; [done|].
  apply (assemble_all_at buf len b p Hlen Hb Hh (ad_mids b) 0); [|done].
  pose proof (ml_bounds len b Hb). unfold blen. rewrite length_replicate. lia.
Qed.

Definition block_example : address_block :=
  {| ad_head := [10; 0]; ad_tail := Zero_tail 1; ad_mids := [[1]; [2]; [3]]; ad_prefix := Multi_prefix [24; 255; 16] |}.

Lemma addrblock_roundtrip_witness :
  exists a, _parse_addrblock ([9] ++ encode_block block_example ++ [8; 8]) 1 13 4 = Def (RFC5444_OKAY, a, 13) /\
    num_addr a = 3 /\
    assemble_all ([9] ++ encode_block block_example ++ [8; 8]) 4 3 0 a =
      Def [{| na_addr := [10; 0; 1; 0] ++ replicate 12 0; na_type := AF_INET; na_prefix_len := 24 |};
           {| na_addr := [10; 0; 2; 0] ++ replicate 12 0; na_type := AF_INET; na_prefix_len := 32 |};
           {| na_addr := [10; 0; 3; 0] ++ replicate 12 0; na_type := AF_INET; na_prefix_len := 16 |}].
Proof.
  apply (addrblock_roundtrip _ 13 4 1 block_example).
  - lia.
  - split; simpl; try done; try lia; repeat constructor; discriminate.
  - by exists [9], [8; 8].
  - vm_compute. discriminate.
Defined.

(** a zero tail that is longer than the address makes the length of the
    middle part wrap around to up to 255 octets; the block is accepted when the
    message has that many, and putting an address together copies them over the
    16 octets of [addr]. *)
Theorem zerotail_overflows_address len t body : 1 <= len <= 16 -> len < t < 256 -> t < 240 + len ->
  blen body = 256 + len - t ->
  let buf := [1; RFC5444_ADDR_FLAG_ZEROTAIL; t] ++ body in
  exists a, _parse_addrblock buf 0 (blen buf) len = Def (RFC5444_OKAY, a, blen buf) /\
    assemble_address buf len a 0 = Undef UB_address_octets.
Proof.
  intros Hl Ht Hbig Hbody buf. assert (blen buf = 3 + blen body) as Eb by (unfold buf; by rewrite blen_app).
  assert (holds buf 0 buf) as Hh by (exists [], []; by rewrite app_nil_r).
  destruct (holds_get_u8 buf (blen buf) _ _ _ Hh) as [E1 Hh1]; [lia|].
  destruct (holds_get_u8 buf (blen buf) _ _ _ Hh1) as [E2 Hh2]; [lia|].
  destruct (holds_get_u8 buf (blen buf) _ _ _ Hh2) as [E3 Hh3]; [lia|]. simpl in E2, E3, Hh3.
  unfold _parse_addrblock. cbv zeta. rewrite E1. simpl. rewrite E2. simpl.
  unfold parse_addr_tail. simpl. rewrite E3. simpl.
  assert (u8 (u8 (len - 0) - t) = blen body) as ->.
  { rewrite (u8_small (len - 0)) by lia. unfold u8, wrap. rewrite <- (Z.mod_add _ 1) by lia. rewrite Z.mod_small; lia. }
  rewrite Z.mul_1_r. destruct (Z.ltb_spec (blen buf) (3 + blen body)); [lia|]. simpl.
  change (0 + 1 + 1 + 1) with 3 in *. destruct (Z.ltb_spec (blen buf) (3 + blen body)); [lia|]. rewrite <- Eb. eexists. split; [done|].
  unfold assemble_address. simpl. rewrite Z.mul_0_r, Z.add_0_r, (holds_rd_n _ _ _ Hh3). simpl.
  unfold wr_n. destruct (Z.eqb_spec (blen body) 0); [lia|].
  change (blen (zeros 16)) with 16. by rewrite (proj2 (Z.ltb_lt 16 (0 + blen body))) by lia.
Qed.

Lemma zerotail_overflows_address_witness :
  exists a, _parse_addrblock ([1; RFC5444_ADDR_FLAG_ZEROTAIL; 5] ++ replicate 255 7) 0 258 4 = Def (RFC5444_OKAY, a, 258) /\
    assemble_address ([1; RFC5444_ADDR_FLAG_ZEROTAIL; 5] ++ replicate 255 7) 4 a 0 = Undef UB_address_octets.
Proof. apply (zerotail_overflows_address 4 5 (replicate 255 7)); (lia || reflexivity). Defined.
