(* ===== verification/ReaderTable.v ===== *)
(** How the consumers of the RFC 5444 reader (src/librfc5444/rfc5444_reader.c)
    see the TLVs: the table of descriptions that a consumer declares, the TLVs that
    the reader found for each of them, and callbacks as state computations. *)

From Stdlib Require Import ZArith Lia.
From stdpp Require Import base list numbers option gmap.
From S2P Require Import Prelude AvlSpec StateMonad ReaderParse ReaderSchedule Reader.

Local Open Scope Z_scope.

(** ** Descriptions and TLVs *)

(** Fields that an initialiser leaves out are zero. *)
Definition tlv_entry (mandatory_ : bool) (type_ ext_ : Z) (match_ext : bool) (lengths : option (Z * Z)) : consumer_entry := {|
  mandatory := mandatory_; ce_type := type_; ce_type_ext := ext_; match_type_ext := match_ext;
  min_length := match lengths with Some (l, _) => l | None => 0 end; max_length := match lengths with Some (_, h) => h | None => 0 end;
  match_length := match lengths with Some _ => true | None => false end; copy_value := None; ce_tlv := None; ReaderSchedule.drop := false |}.

(** What a callback reads of a TLV: [length] is that of [tlv_value]. *)
Record tlv_data := { tlv_ext : Z; tlv_value : bytes }.

(** The TLVs that the reader found for the entry at an index of the table: the
    one that [.tlv] points to and those behind it. *)
Notation tlv_table := (nat -> list tlv_data).

(** [.tlv->...] *)
Definition first_tlv (tlv : tlv_table) (i : nat) : outcome tlv_data :=
  match tlv i with t :: _ => Def t | [] => Undef UB_null end.

(** [length] octets at [single_value]. *)
Definition read_tlv (buf : bytes) (e : tlvblock_entry) : outcome tlv_data :=
  value ← match single_value e with Some v => rd_n buf v (length_ e) | None => Def [] end;
  Def {| tlv_ext := type_ext e; tlv_value := value |}.

Fixpoint read_chain (fuel : nat) (buf : bytes) (tlvs : list tlvblock_entry) (id : nat) : outcome (list tlv_data) :=
  match find_id id tlvs with
  | None => Undef UB_read
  | Some e =>
      t ← read_tlv buf e;
      match next_entry e with
      | None => Def [t]
      | Some id' => match fuel with O => Undef Out_of_fuel | S fuel => l ← read_chain fuel buf tlvs id'; Def (t :: l) end
      end
  end.

(** The reader sorts the entries of a consumer; the entry at an index of the table
    is the one with its type. *)
Definition same_type (a b : consumer_entry) : bool := (ce_type a =? ce_type b) && (ce_type_ext a =? ce_type_ext b).

Fixpoint read_table (table : list consumer_entry) (buf : bytes) (entries : list consumer_entry) (tlvs : list tlvblock_entry) : outcome (list (list tlv_data)) :=
  match table with
  | [] => Def []
  | t :: table =>
      l ← match find (same_type t) entries with
        | Some e => match ce_tlv e with Some id => read_chain (length tlvs) buf tlvs id | None => Def [] end
        | None => Def []
        end;
      rest ← read_table table buf entries tlvs;
      Def (l :: rest)
  end.

Definition table_of (l : list (list tlv_data)) : tlv_table := fun i => default [] (l !! i).

(** ** Callbacks

    The application behind the parser is a state, or undefined behaviour, after
    which nothing more happens. *)
Definition run_callback {S} (m : outcome (state_M S (Z * bool))) (w : outcome S) : answer (outcome S) :=
  match w with
  | Undef u => {| ans_result := RFC5444_OKAY; ans_prevent := false; ans_drop := []; ans_world := Undef u |}
  | Def s =>
      match m with
      | Undef u => {| ans_result := RFC5444_OKAY; ans_prevent := false; ans_drop := []; ans_world := Undef u |}
      | Def m => match m s with
        | Undef u => {| ans_result := RFC5444_OKAY; ans_prevent := false; ans_drop := []; ans_world := Undef u |}
        | Def ((r, prevent), s') => {| ans_result := r; ans_prevent := prevent; ans_drop := []; ans_world := Def s' |}
        end
      end
  end.

Definition without_prevent {S} (m : state_M S Z) : state_M S (Z * bool) := (r <~ m ;; ret (r, false))%state.

Definition RFC5444_MAIN_PARSER_PRIORITY : Z := 0.
