(* ===== verification/TlvCode.v ===== *)
(** TLVs as RFC 5444 writes them, and what [_parse_tlv] and [_parse_tlvblock] of
    src/librfc5444/rfc5444_reader.c make of them. The writer is compared with
    this form of a TLV. *)

From Stdlib Require Import ZArith Lia Sorted.
From stdpp Require Import base list numbers option gmap sets.
From S2P Require Import Prelude AvlSpec Netaddr Bitmap256 ReaderParse ReaderSchedule Reader ReaderAddress.

Local Open Scope Z_scope.
Local Open Scope cint_scope.

(** * The form of a TLV *)

(** The addresses of its block a TLV belongs to: all of them, one, or a range. *)
Inductive tlv_range := All_addresses | One_address (i : Z) | Addresses (i j : Z).
(** One value for all of them, or one for each. *)
Inductive tlv_values := Same_value (v : bytes) | Values (vs : list bytes).

Record tlv := { t_type : Z; t_ext : Z; t_range : tlv_range; t_values : tlv_values }.

Definition value_octets (v : tlv_values) : bytes := match v with Same_value v => v | Values vs => concat vs end.
Definition range_flag (r : tlv_range) : Z :=
  match r with All_addresses => 0 | One_address _ => RFC5444_TLV_FLAG_SINGLE_IDX | Addresses _ _ => RFC5444_TLV_FLAG_MULTI_IDX end.
Definition range_field (r : tlv_range) : bytes := match r with All_addresses => [] | One_address i => [i] | Addresses i j => [i; j] end.
Definition ext_flag (x : Z) : Z := if x =? 0 then 0 else RFC5444_TLV_FLAG_TYPEEXT.
Definition ext_field (x : Z) : bytes := if x =? 0 then [] else [x].
Definition length_flag (n : Z) : Z :=
  (if 0 <? n then RFC5444_TLV_FLAG_VALUE else 0) .| (if 255 <? n then RFC5444_TLV_FLAG_EXTVALUE else 0).
Definition length_field (n : Z) : bytes := if 255 <? n then [n .>> 8; n .& 255] else if 0 <? n then [n] else [].
Definition multi_flag (v : tlv_values) : Z := match v with Same_value _ => 0 | Values _ => RFC5444_TLV_FLAG_MULTIVALUE end.

Definition tlv_flags (t : tlv) : Z :=
  ext_flag (t_ext t) .| range_flag (t_range t) .| length_flag (blen (value_octets (t_values t))) .| multi_flag (t_values t).
Definition encode_tlv (t : tlv) : bytes :=
  [t_type t; tlv_flags t] ++ ext_field (t_ext t) ++ range_field (t_range t) ++
  length_field (blen (value_octets (t_values t))) ++ value_octets (t_values t).

(** First and last address in a block of [n] addresses; a message or packet
    TLV has none. *)
Definition first_index (r : tlv_range) : Z := match r with All_addresses => 0 | One_address i => i | Addresses i _ => i end.
Definition last_index (n : Z) (r : tlv_range) : Z := match r with All_addresses => u8 (n - 1) | One_address i => i | Addresses _ j => j end.

(** A TLV for a block of [n] addresses. *)
Record tlv_for (n : Z) (t : tlv) : Prop := {
  tf_type : is_u8 (t_type t);
  tf_ext : is_u8 (t_ext t);
  tf_range : match t_range t with All_addresses => True | One_address i => 0 <= i < n | Addresses i j => 0 <= i <= j /\ j < n end;
  tf_length : blen (value_octets (t_values t)) < 65536;
  tf_values : match t_values t with
    | Same_value _ => True
    | Values vs => 0 < n /\ Z.of_nat (length vs) = last_index n (t_range t) - first_index (t_range t) + 1 /\ exists k, Forall (fun v => blen v = k) vs
    end;
}.

(** The value of a TLV for address [i]. *)
Definition value_for (t : tlv) (i : Z) : bytes :=
  match t_values t with Same_value v => v | Values vs => nth (Z.to_nat (i - first_index (t_range t))) vs [] end.

(** * What the reader sees *)

(** The value of an entry for address [i], as [schedule_tlvblock] addresses it. *)
Definition entry_value (buf : bytes) (e : tlvblock_entry) (i : Z) : outcome bytes :=
  match _value e with
  | None => Def []
  | Some v => rd_n buf (if _multivalue_tlv e then v + (i - index1 e) * length_ e else v) (length_ e)
  end.

Record sees (buf : bytes) (n : Z) (t : tlv) (e : tlvblock_entry) : Prop := {
  se_type : type e = t_type t;
  se_ext : type_ext e = t_ext t;
  se_order : _order e = 256 * t_type t + t_ext t;
  se_first : index1 e = first_index (t_range t);
  se_last : index2 e = last_index n (t_range t);
  se_value : forall i, first_index (t_range t) <= i <= last_index n (t_range t) -> entry_value buf e i = Def (value_for t i);
}.

#[local] Arguments _rfc5444_get_u8 : simpl never.

Section parse.
Context (buf : bytes) (eob n : Z) (Hn : 0 <= n < 256).

Lemma flags_octet t : is_u8 (tlv_flags t).
Proof.
  unfold tlv_flags, ext_flag, range_flag, length_flag, multi_flag. unfold RFC5444_TLV_FLAG_TYPEEXT, RFC5444_TLV_FLAG_SINGLE_IDX, RFC5444_TLV_FLAG_MULTI_IDX,
    RFC5444_TLV_FLAG_VALUE, RFC5444_TLV_FLAG_EXTVALUE, RFC5444_TLV_FLAG_MULTIVALUE.
  destruct (t_ext t =? 0), (t_range t), (0 <? _), (255 <? _), (t_values t); vm_compute; by split.
Qed.

Lemma flag_masks t :
  (tlv_flags t .& RFC5444_TLV_FLAG_TYPEEXT =? 0) = (t_ext t =? 0) /\
  tlv_flags t .& (RFC5444_TLV_FLAG_SINGLE_IDX .| RFC5444_TLV_FLAG_MULTI_IDX) = range_flag (t_range t) /\
  tlv_flags t .& (RFC5444_TLV_FLAG_VALUE .| RFC5444_TLV_FLAG_EXTVALUE) = length_flag (blen (value_octets (t_values t))) /\
  tlv_flags t .& RFC5444_TLV_FLAG_MULTIVALUE = multi_flag (t_values t).
Proof.
  unfold tlv_flags, ext_flag, range_flag, length_flag, multi_flag.
  destruct (t_ext t =? 0), (t_range t), (0 <? _), (255 <? _), (t_values t); by vm_compute.
Qed.

Lemma get_u16_at p m rest : 0 <= m < 65536 -> holds buf p ([m .>> 8; m .& 255] ++ rest) -> p + 2 <= eob ->
  _rfc5444_get_u16 buf eob (p, RFC5444_OKAY) = Def (m, (p + 2, RFC5444_OKAY)).
Proof.
  intros Hm Hh Hp. destruct (holds_get_u8 buf eob _ _ _ Hh) as [E1 Hh1]; [lia|]. destruct (holds_get_u8 buf eob _ _ _ Hh1) as [E2 _]; [lia|].
  unfold _rfc5444_get_u16. rewrite E1. cbn [mbind outcome_bind]. rewrite E2. cbn [mbind outcome_bind]. replace (p + 1 + 1) with (p + 2) by lia. do 2 f_equal.
  change 255 with (2 ^ 8 - 1). rewrite land_mask, shiftr_div by lia. change (2 ^ 8) with 256. rewrite octet_word by (unfold is_u8; Z.to_euclidean_division_equations; lia). Z.to_euclidean_division_equations; lia.
Qed.

Lemma read_ext p x rest fl : is_u8 x -> (fl .& RFC5444_TLV_FLAG_TYPEEXT =? 0) = (x =? 0) -> holds buf p (ext_field x ++ rest) -> p + blen (ext_field x) <= eob ->
  (if negb (fl .& RFC5444_TLV_FLAG_TYPEEXT =? 0) then _rfc5444_get_u8 buf eob (p, RFC5444_OKAY) else Def (0, (p, RFC5444_OKAY))) =
    Def (x, (p + blen (ext_field x), RFC5444_OKAY)).
Proof.
  intros Hx -> Hh Hp. unfold ext_field in *. destruct (Z.eqb_spec x 0) as [->|]; simpl; [unfold blen; simpl; by rewrite Z.add_0_r|].
  unfold blen in Hp. simpl in Hp. by destruct (holds_get_u8 buf eob _ _ _ Hh) as [-> _]; [lia|].
Qed.

Lemma read_range p r rest m : m = range_flag r -> holds buf p (range_field r ++ rest) -> p + blen (range_field r) <= eob ->
  (if m =? 0 then Def (Some (0, u8 (n - 1)), (p, RFC5444_OKAY))
   else if m =? RFC5444_TLV_FLAG_SINGLE_IDX then '(i, s) ← _rfc5444_get_u8 buf eob (p, RFC5444_OKAY); Def (Some (i, i), s)
   else if m =? RFC5444_TLV_FLAG_MULTI_IDX then
     '(i1, s) ← _rfc5444_get_u8 buf eob (p, RFC5444_OKAY); '(i2, s) ← _rfc5444_get_u8 buf eob s; Def (Some (i1, i2), s)
   else Def (None, (p, RFC5444_OKAY))) =
    Def (Some (first_index r, last_index n r), (p + blen (range_field r), RFC5444_OKAY)).
Proof.
  intros -> Hh Hp. destruct r as [|i|i j]; simpl in *; unfold blen in *; simpl in *.
  - by rewrite Z.add_0_r.
  - by destruct (holds_get_u8 buf eob _ _ _ Hh) as [-> _]; [lia|].
  - destruct (holds_get_u8 buf eob _ _ _ Hh) as [-> Hh1]; [lia|]. cbn [mbind outcome_bind].
    destruct (holds_get_u8 buf eob _ _ _ Hh1) as [-> _]; [lia|]. cbn [mbind outcome_bind]. by replace (p + 1 + 1) with (p + 2) by lia.
Qed.

Lemma read_length p k rest m : 0 <= k < 65536 -> m = length_flag k -> holds buf p (length_field k ++ rest) -> p + blen (length_field k) <= eob ->
  (if m =? 0 then Def (Some 0, (p, RFC5444_OKAY))
   else if m =? RFC5444_TLV_FLAG_VALUE then '(n, s) ← _rfc5444_get_u8 buf eob (p, RFC5444_OKAY); Def (Some n, s)
   else if m =? RFC5444_TLV_FLAG_EXTVALUE .| RFC5444_TLV_FLAG_VALUE then '(n, s) ← _rfc5444_get_u16 buf eob (p, RFC5444_OKAY); Def (Some n, s)
   else Def (None, (p, RFC5444_OKAY))) =
    Def (Some k, (p + blen (length_field k), RFC5444_OKAY)).
Proof.
  intros Hk -> Hh Hp. unfold length_field, length_flag in *. destruct (Z.ltb_spec 255 k).
  - destruct (Z.ltb_spec 0 k); [|lia]. unfold blen in *. simpl in Hp |- *. by rewrite (get_u16_at p k rest) by (done || lia).
  - destruct (Z.ltb_spec 0 k); unfold blen in *; simpl in Hp |- *.
    + by destruct (holds_get_u8 buf eob _ _ _ Hh) as [-> _]; [lia|].
    + replace k with 0 by lia. by rewrite Z.add_0_r.
Qed.

(** The value: for one value, or for several of equal length. *)
Lemma read_values e p t rest : tlv_for n t -> holds buf p (value_octets (t_values t) ++ rest) -> p + blen (value_octets (t_values t)) <= eob ->
  index1 e = first_index (t_range t) -> index2 e = last_index n (t_range t) -> length_ e = blen (value_octets (t_values t)) ->
  _multivalue_tlv e = (match t_values t with Same_value _ => false | Values _ => true end) ->
  exists e', parse_tlv_value e p eob RFC5444_OKAY = Def (RFC5444_OKAY, e', p + blen (value_octets (t_values t))) /\
    type e' = type e /\ type_ext e' = type_ext e /\ _order e' = _order e /\ index1 e' = index1 e /\ index2 e' = index2 e /\
    forall i, first_index (t_range t) <= i <= last_index n (t_range t) -> entry_value buf e' i = Def (value_for t i).
Proof.
  intros Hf Hh Hp H1 H2 Hl Hm. pose proof (tf_values _ _ Hf) as Hv. apply holds_app in Hh as [Hh _]. unfold parse_tlv_value. rewrite H1, H2, Hl, Hm.
  destruct (Z.ltb_spec eob (p + blen (value_octets (t_values t)))); [lia|]. simpl (negb (RFC5444_OKAY =? RFC5444_OKAY)). cbv iota zeta.
  unfold entry_value, value_for. destruct (Z.eqb_spec (blen (value_octets (t_values t))) 0) as [Hz|Hz].
  - rewrite Hz, Z.add_0_r. eexists. split; [reflexivity|]. simpl. do 5 (split; [done|]). intros i Hi. f_equal.
    assert (value_octets (t_values t) = []) as En by (destruct (value_octets (t_values t)); [done|unfold blen in Hz; simpl in Hz; lia]).
    destruct (t_values t) as [v|vs]; simpl in En; [done|]. destruct Hv as (Hn0 & Hc & k & Hk).
    destruct (nth_in_or_default (Z.to_nat (i - first_index (t_range t))) vs []) as [Hin|E]; [|done].
    apply list_elem_of_In in Hin. assert (forall v, v ∈ vs -> v = []) as Hall; [|symmetry; by apply Hall].
    clear -En. induction vs as [|x vs IH]; intros v Hv; [by apply elem_of_nil in Hv|]. simpl in En. apply app_eq_nil in En as [E1 E2].
    apply elem_of_cons in Hv as [->|Hv]; [done|by apply IH].
  - destruct (t_values t) as [v|vs] eqn:Ev; simpl in *.
    + match goal with |- context [if ?b then false else false] => replace (if b then false else false) with false by (by destruct b) end. simpl. eexists. split; [reflexivity|]. simpl. do 5 (split; [done|]). intros i Hi. by apply holds_rd_n.
    + destruct Hv as (Hn0 & Hc & k & Hk). set (c := last_index n (t_range t) - first_index (t_range t) + 1) in *.
      assert (0 < c < 256) as Hc0.
      { split; [destruct vs; [done|simpl in Hc; lia]|]. pose proof (tf_range _ _ Hf) as Hr. unfold c. destruct (t_range t); simpl in *; try lia. rewrite u8_small; lia. }
      pose proof (concat_length vs k Hk) as El.
      rewrite (u8_small c) by lia. rewrite El in *. replace (k * Z.of_nat (length vs)) with (k * c) in * by lia.
      assert (forall i, first_index (t_range t) <= i <= last_index n (t_range t) ->
        rd_n buf (p + (i - first_index (t_range t)) * k) k = Def (nth (Z.to_nat (i - first_index (t_range t))) vs [])) as Hval.
      { intros i Hi. destruct (lookup_lt_is_Some_2 vs (Z.to_nat (i - first_index (t_range t)))) as [v Hv]; [lia|].
        rewrite (nth_lookup_Some _ _ _ _ Hv). pose proof (holds_concat _ _ _ _ _ _ Hh Hk Hv) as Hhv.
        pose proof (Forall_lookup_1 _ _ _ _ Hk Hv) as Ek. simpl in Ek. apply holds_rd_n in Hhv. rewrite Ek in Hhv.
        rewrite <- Hhv, Z2Nat.id by lia. f_equal. ring. }
      destruct (Z.eqb_spec c 1) as [Hc1|Hc1]; simpl.
      * eexists. split; [reflexivity|]. simpl. do 5 (split; [done|]). intros i Hi. rewrite <- Hval by done. unfold c in *. f_equal; nia.
      * destruct (Z.eqb_spec c 0); [lia|]. rewrite Z.mod_mul by lia. simpl. rewrite Z.div_mul by lia. eexists. split; [reflexivity|]. simpl.
        do 5 (split; [done|]). intros i Hi. by apply Hval.
Qed.

Lemma parse_tlv_at e p t rest : tlv_for n t -> holds buf p (encode_tlv t ++ rest) -> p + blen (encode_tlv t) <= eob ->
  exists e', _parse_tlv buf e p eob n = Def (RFC5444_OKAY, e', p + blen (encode_tlv t)) /\ sees buf n t e'.
Proof.
  intros Hf Hh Hp. unfold encode_tlv in Hh, Hp |- *. rewrite !blen_app in Hp |- *. change (blen [_; _]) with 2 in *.
  pose proof (tf_length _ _ Hf) as Hlen. pose proof (blen_nonneg (value_octets (t_values t))) as Hk0. set (k := blen (value_octets (t_values t))) in *.
  pose proof (blen_nonneg (ext_field (t_ext t))). pose proof (blen_nonneg (range_field (t_range t))). pose proof (blen_nonneg (length_field k)).
  destruct (flag_masks t) as (M1 & M2 & M3 & M4). rewrite <- !app_assoc in Hh.
  destruct (holds_get_u8 buf eob _ _ _ Hh) as [E1 Hh1]; [lia|]. destruct (holds_get_u8 buf eob _ _ _ Hh1) as [E2 Hh2]; [lia|].
  unfold _parse_tlv. cbv zeta. rewrite E1. cbn [mbind outcome_bind]. rewrite E2. cbn [mbind outcome_bind]. replace (p + 1 + 1) with (p + 2) in * by lia.
  rewrite (read_ext _ _ _ _ (tf_ext _ _ Hf) M1 Hh2) by lia. cbn [mbind outcome_bind]. apply holds_app in Hh2 as [_ Hh3].
  rewrite (read_range _ _ _ _ M2 Hh3) by lia. cbn [mbind outcome_bind]. apply holds_app in Hh3 as [_ Hh4].
  assert ((0 <? n) && ((n <=? first_index (t_range t)) || (n <=? last_index n (t_range t))) = false) as ->.
  { pose proof (tf_range _ _ Hf) as Hr. destruct (Z.ltb_spec 0 n); [|done]. simpl. destruct (t_range t); simpl in *; rewrite ?u8_small by lia;
      rewrite orb_false_iff, !Z.leb_gt; lia. }
  rewrite (read_length _ _ _ _ (conj Hk0 Hlen) M3 Hh4) by lia. cbn [mbind outcome_bind]. apply holds_app in Hh4 as [_ Hh5].
  match goal with |- context [parse_tlv_value ?e _ _ _] => destruct (read_values e _ t rest Hf Hh5 ltac:(lia) eq_refl eq_refl eq_refl) as (e' & Ep & Q1 & Q2 & Q3 & Q4 & Q5 & Qv) end.
  { simpl. rewrite M4. by destruct (t_values t). }
  exists e'. cbn [fst snd]. rewrite Ep. split; [do 2 f_equal; unfold k; lia|]. split; [done|done|rewrite Q3; simpl; apply order_eq; apply Hf|done|done|exact Qv].
Qed.

(** ** Blocks *)

(** The tree that holds the entries of a block. *)
Fixpoint fill (es : list tlvblock_entry) (block : list tlvblock_entry) : list tlvblock_entry :=
  match es with [] => block | e :: es => fill es (tree_insert_dup _order avl_comp_uint16 e block) end.

Definition encode_tlvs (ts : list tlv) : bytes := concat (encode_tlv <$> ts).
(** With the length in front. *)
Definition encode_tlvblock (ts : list tlv) : bytes := let k := blen (encode_tlvs ts) in [k .>> 8; k .& 255] ++ encode_tlvs ts.

Context (malloc_ok : nat -> bool) (Hmalloc : forall k, malloc_ok k = true).

Lemma sees_id t e k : sees buf n t e -> sees buf n t (with_id k e).
Proof. intros [S1 S2 S3 S4 S5 S6]. by split. Qed.

Lemma encode_tlv_length t : 2 <= blen (encode_tlv t).
Proof. unfold encode_tlv. rewrite blen_app. pose proof (blen_nonneg (ext_field (t_ext t) ++ range_field (t_range t) ++
  length_field (blen (value_octets (t_values t))) ++ value_octets (t_values t))). change (blen [_; _]) with 2. lia. Qed.

Lemma parse_tlvs_at ts rest : Forall (tlv_for n) ts -> forall fuel e block p h, holds buf p (encode_tlvs ts ++ rest) ->
  p + blen (encode_tlvs ts) <= eob -> (Z.to_nat (blen (encode_tlvs ts)) <= fuel)%nat ->
  exists es h', parse_tlvs malloc_ok fuel buf e block p (p + blen (encode_tlvs ts)) eob n h =
    Def (RFC5444_OKAY, fill es block, p + blen (encode_tlvs ts), h') /\ Forall2 (sees buf n) ts es.
Proof.
  induction 1 as [|t ts Ht _ IH]; intros fuel e block p h Hh Hp Hfuel.
  - exists [], h. change (blen (encode_tlvs [])) with 0. rewrite Z.add_0_r. split; [|constructor]. destruct fuel; simpl; by rewrite Z.leb_refl.
  - unfold encode_tlvs in Hh, Hp, Hfuel |- *. cbn [fmap list_fmap concat] in *. fold (encode_tlvs ts) in *. rewrite blen_app in *. pose proof (encode_tlv_length t).
    pose proof (blen_nonneg (encode_tlvs ts)). destruct fuel as [|fuel]; [lia|]. simpl.
    destruct (Z.leb_spec (p + (blen (encode_tlv t) + blen (encode_tlvs ts))) p); [lia|]. rewrite <- app_assoc in Hh.
    destruct (parse_tlv_at e p t _ Ht Hh) as (e' & -> & He'); [lia|]. cbn [mbind outcome_bind]. simpl (negb (RFC5444_OKAY =? RFC5444_OKAY)). cbv iota.
    unfold malloc_tlvblock_entry. rewrite Hmalloc. apply holds_app in Hh as [_ Hh].
    rewrite Z.add_assoc. edestruct (IH fuel) as (es & h' & E & Hes); [exact Hh|lia|lia|]. eexists (_ :: es), h'. split; [exact E|].
    constructor; [by apply sees_id|exact Hes].
Qed.

(** A block that is written in this form is read completely, and its tree holds
    an entry for each TLV. *)
Lemma parse_tlvblock_at ts rest p h : Forall (tlv_for n) ts -> blen (encode_tlvs ts) < 65536 -> holds buf p (encode_tlvblock ts ++ rest) ->
  p + blen (encode_tlvblock ts) <= eob ->
  exists es h', _parse_tlvblock malloc_ok buf p eob n h = Def (RFC5444_OKAY, fill es [], p + blen (encode_tlvblock ts), h') /\ Forall2 (sees buf n) ts es.
Proof.
  intros Hts Hk Hh Hp. unfold encode_tlvblock in Hh, Hp |- *. rewrite blen_app in Hp |- *. change (blen [_; _]) with 2 in *.
  pose proof (blen_nonneg (encode_tlvs ts)). rewrite <- app_assoc in Hh. unfold _parse_tlvblock. cbv zeta.
  rewrite (get_u16_at p (blen (encode_tlvs ts)) (encode_tlvs ts ++ rest) (conj H Hk) Hh) by lia. cbn [mbind outcome_bind]. apply holds_app in Hh as [_ Hh]. change (blen [_; _]) with 2 in Hh.
  destruct (Z.ltb_spec eob (p + 2 + blen (encode_tlvs ts))); [lia|].
  edestruct (parse_tlvs_at ts rest Hts (Z.to_nat (p + 2 + blen (encode_tlvs ts) - (p + 2)))) as (es & h' & E & Hes); [exact Hh|lia|lia|].
  rewrite E. cbn [mbind outcome_bind]. simpl (negb (RFC5444_OKAY =? RFC5444_OKAY)). cbv iota. exists es, h'. split; [|exact Hes]. by rewrite Z.add_assoc.
Qed.
End parse.
