(* ===== verification/WriterTlv.v ===== *)
(** Writing into a buffer, and src/librfc5444/rfc5444_tlv_writer.c: the TLVs of a
    packet or message header, added at once or reserved and set later. What is
    written is what the reader of TlvCode reads. *)

From Stdlib Require Import ZArith Lia Sorted.
From stdpp Require Import base list numbers option gmap sets.
From S2P Require Import Prelude AvlSpec StateMonad Netaddr Bitmap256 ReaderParse ReaderSchedule Reader ReaderAddress TlvCode.

Local Open Scope Z_scope.
Local Open Scope cint_scope.
Local Open Scope state_scope.

(** * A buffer and a pointer into it *)

Notation out_M := (state_M (bytes * Z)).

(** [memcpy(ptr, src, n); ptr += n], and [*ptr++ = x]. *)
Definition copy (src : bytes) : out_M unit := fun '(b, p) =>
  match wr_n b p src with Def b => Def (tt, (b, p + blen src)) | Undef u => Undef u end.
Definition put (x : Z) : out_M unit := copy [u8 x].
(** The pointer, to come back to it; [*q |= x] and [*q = x]. *)
Definition here : out_M Z := fun '(b, p) => Def (p, (b, p)).
Definition or_at (q x : Z) : out_M unit := fun '(b, p) =>
  match rd b q with
  | Def y => match wr_n b q [u8 (y .| x)] with Def b => Def (tt, (b, p)) | Undef u => Undef u end
  | Undef u => Undef u
  end.
Definition put_at (q x : Z) : out_M unit := fun '(b, p) =>
  match wr_n b q [u8 x] with Def b => Def (tt, (b, p)) | Undef u => Undef u end.

(** Wherever there is room, [m] writes [l] and leaves the pointer behind it. *)
Definition writes {A} (m : out_M A) (a : A) (l : bytes) : Prop := forall done old rest, blen old = blen l ->
  m (done ++ old ++ rest, blen done) = Def (a, (done ++ l ++ rest, blen (done ++ l))).

Lemma writes_seq {A B} (m : out_M A) (f : A -> out_M B) a b l1 l2 : writes m a l1 -> writes (f a) b l2 -> writes (bind m f) b (l1 ++ l2).
Proof.
  intros H1 H2 done old rest Ho. rewrite blen_app in Ho. pose proof (blen_nonneg l1). pose proof (blen_nonneg l2).
  rewrite <- (take_drop (length l1) old), <- !app_assoc. unfold bind.
  rewrite H1; [|unfold blen in *; rewrite length_take; lia]. rewrite !app_assoc, <- (app_assoc (done ++ l1)).
  rewrite H2; [|unfold blen in *; rewrite length_drop; lia]. by rewrite <- !app_assoc.
Qed.

Lemma writes_ret {A} (a : A) : writes (ret a) a [].
Proof. intros done old rest Ho. destruct old; [|unfold blen in Ho; simpl in Ho; lia]. unfold ret. by rewrite app_nil_r. Qed.

Lemma writes_copy l : writes (copy l) tt l.
Proof. intros done old rest Ho. unfold copy. rewrite wr_n_exact by (unfold blen in Ho; lia). by rewrite blen_app. Qed.

Lemma writes_put x : writes (put x) tt [u8 x].
Proof. apply writes_copy. Qed.

Lemma writes_if {A} (c : bool) (m1 m2 : out_M A) a l1 l2 : (c = true -> writes m1 a l1) -> (c = false -> writes m2 a l2) ->
  writes (if c then m1 else m2) a (if c then l1 else l2).
Proof. destruct c; auto. Qed.

Lemma writes_eq {A} (m : out_M A) a l l' : writes m a l -> l = l' -> writes m a l'.
Proof. by intros ? <-. Qed.

(** * TLVs (rfc5444_tlv_writer.c) *)

Record tlv_writer_data := {
  buffer : bytes;
  header : Z;
  added : Z;
  allocated : Z;
  set : Z;
  max : Z;
}.

Definition RFC5444_MTU_TOO_SMALL : Z := -12.

Definition with_counts (a al s : Z) (d : tlv_writer_data) : tlv_writer_data :=
  {| buffer := buffer d; header := header d; added := a; allocated := al; set := s; max := max d |}.
Definition with_buffer (b : bytes) (d : tlv_writer_data) : tlv_writer_data :=
  {| buffer := b; header := header d; added := added d; allocated := allocated d; set := set d; max := max d |}.

(** With [DEBUG_CLEANUP] off, as the header of the library sets it. *)
Definition _rfc5444_tlv_writer_init (mx : Z) (d : tlv_writer_data) : tlv_writer_data :=
  {| buffer := buffer d; header := 0; added := 0; allocated := 0; set := 0; max := mx |}.

Definition _calc_tlv_size (has_exttype : bool) (length : Z) : Z :=
  u64 (2 + (if has_exttype then 1 else 0) + length + (if 255 <? length then 2 else if 0 <? length then 1 else 0)).

(** [value] points to at least [length] octets, or the copy is undefined. *)
Definition _write_tlv (type exttype idx1 idx2 : Z) (value : bytes) (length : Z) : out_M unit :=
  let flags := (if 0 <? exttype then RFC5444_TLV_FLAG_TYPEEXT else 0) .|
    (if idx1 =? idx2 then RFC5444_TLV_FLAG_SINGLE_IDX else if (0 <? idx1) || (idx2 <? 255) then RFC5444_TLV_FLAG_MULTI_IDX else 0) .|
    (if 255 <? length then RFC5444_TLV_FLAG_EXTVALUE else 0) .| (if 0 <? length then RFC5444_TLV_FLAG_VALUE else 0) in
  put type ;;;
  put flags ;;;
  (if negb (exttype =? 0) then put exttype else ret tt) ;;;
  (if (0 <? idx1) || (idx2 <? 255) then put idx1 ;;; (if negb (idx1 =? idx2) then put idx2 else ret tt) else ret tt) ;;;
  (if 255 <? length then put (length .>> 8) else ret tt) ;;;
  (if 0 <? length then put (length .& 255) ;;; src <~ lift (rd_n value 0 length) ;; copy src else ret tt).

(** [_write_tlv(&data->buffer[pos], ...)] *)
Definition write_at (pos : Z) (m : out_M unit) (d : tlv_writer_data) : outcome tlv_writer_data :=
  '(_, (b, _)) ← m (buffer d, pos); Def (with_buffer b d).

Definition _rfc5444_tlv_writer_add (type exttype : Z) (value : bytes) (length : Z) (d : tlv_writer_data) : outcome (rfc5444_result * tlv_writer_data) :=
  let s := _calc_tlv_size (negb (exttype =? 0)) length in
  if max d <? u64 (header d + added d + allocated d + s) then Def (RFC5444_MTU_TOO_SMALL, d)
  else
    d ← write_at (header d + added d) (_write_tlv type exttype 0 255 value length) d;
    Def (RFC5444_OKAY, with_counts (u64 (added d + s)) (allocated d) (set d) d).

Definition _rfc5444_tlv_writer_allocate (has_exttype : bool) (length : Z) (d : tlv_writer_data) : rfc5444_result * tlv_writer_data :=
  let s := _calc_tlv_size has_exttype length in
  if max d <? u64 (header d + added d + allocated d + s) then (RFC5444_MTU_TOO_SMALL, d)
  else (RFC5444_OKAY, with_counts (added d) (u64 (allocated d + s)) (set d) d).

Definition _rfc5444_tlv_writer_set (type exttype : Z) (value : bytes) (length : Z) (d : tlv_writer_data) : outcome (rfc5444_result * tlv_writer_data) :=
  let s := _calc_tlv_size (negb (exttype =? 0)) length in
  if u64 (allocated d - set d) <? s then Def (RFC5444_MTU_TOO_SMALL, d)
  else
    d ← write_at (header d + added d + set d) (_write_tlv type exttype 0 255 value length) d;
    Def (RFC5444_OKAY, with_counts (added d) (allocated d) (u64 (set d + s)) d).

(** * What is written *)

(** A TLV with one value, for a header or the addresses [idx1] to [idx2]. *)
Definition range_of (idx1 idx2 : Z) : tlv_range :=
  if idx1 =? idx2 then One_address idx1 else if (0 <? idx1) || (idx2 <? 255) then Addresses idx1 idx2 else All_addresses.
Definition plain_tlv (type exttype idx1 idx2 : Z) (value : bytes) : tlv :=
  {| t_type := type; t_ext := exttype; t_range := range_of idx1 idx2; t_values := Same_value value |}.
Definition header_tlv (type exttype : Z) (value : bytes) : tlv := plain_tlv type exttype 0 255 value.

Lemma u8_id x : is_u8 x -> u8 x = x.
Proof. apply u8_small. Qed.

Lemma rd_n_all v : rd_n v 0 (blen v) = Def v.
Proof. apply (holds_rd_n v 0 v). exists [], []. by rewrite app_nil_r. Qed.

Lemma writes_value v : writes (src <~ lift (rd_n v 0 (blen v)) ;; copy src) tt v.
Proof. rewrite rd_n_all. intros done old rest. apply writes_copy. Qed.

Lemma write_tlv_writes type exttype idx1 idx2 value : is_u8 type -> is_u8 exttype -> is_u8 idx1 -> is_u8 idx2 -> blen value < 65536 ->
  writes (_write_tlv type exttype idx1 idx2 value (blen value)) tt (encode_tlv (plain_tlv type exttype idx1 idx2 value)).
Proof.
  intros Ht Hx H1 H2 Hv. pose proof (blen_nonneg value) as Hv0. pose proof (flags_octet (plain_tlv type exttype idx1 idx2 value)) as Hfl. unfold _write_tlv. cbv zeta.
  set (fl := tlv_flags _) in *. match goal with |- context [put (?f)] => lazymatch f with _ .| _ => replace f with fl end end.
  2: { unfold fl, tlv_flags, ext_flag, length_flag. simpl. unfold range_of, range_flag. destruct (Z.eqb_spec exttype 0) as [->|]; [|destruct (Z.ltb_spec 0 exttype); [|unfold is_u8 in Hx; lia]];
    destruct (idx1 =? idx2), ((0 <? idx1) || (idx2 <? 255)), (255 <? blen value), (0 <? blen value); reflexivity. }
  unfold encode_tlv. fold fl. cbn [t_type t_ext t_range t_values plain_tlv value_octets].
  change ([type; fl] ++ ?l) with ([type] ++ [fl] ++ l).
  eapply writes_eq; [eapply writes_seq; [apply writes_put|]; eapply writes_seq; [apply writes_put|]; eapply writes_seq;
    [apply writes_if; intros _; [apply writes_put|apply writes_ret]|]; eapply writes_seq;
    [apply writes_if; intros _; [eapply writes_seq; [apply writes_put|apply writes_if; intros _; [apply writes_put|apply writes_ret]]|apply writes_ret]|];
    eapply writes_seq; [apply writes_if; intros _; [apply writes_put|apply writes_ret]|];
    apply writes_if; intros _; [eapply writes_seq; [apply writes_put|apply writes_value]|apply writes_ret]|].
  rewrite !(u8_id type), !(u8_id fl), !(u8_id exttype), !(u8_id idx1), !(u8_id idx2) by done. do 2 f_equal.
  assert (u8 (blen value .>> 8) = blen value .>> 8) as Ehi by (rewrite shiftr_div by lia; apply u8_small; change (2 ^ 8) with 256; Z.to_euclidean_division_equations; lia).
  assert (u8 (blen value .& 255) = blen value .& 255) as Elo by (change 255 with (2 ^ 8 - 1); rewrite land_mask by lia; apply u8_small; change (2 ^ 8) with 256; Z.to_euclidean_division_equations; lia).
  rewrite Ehi, Elo. unfold ext_field, range_of, range_field, length_field.
  f_equal; [by destruct (Z.eqb_spec exttype 0) as [->|]|]. f_equal.
  - destruct (Z.eqb_spec idx1 idx2) as [->|]; simpl; [|by destruct ((0 <? idx1) || (idx2 <? 255))].
    assert ((0 <? idx2) || (idx2 <? 255) = true) as -> by (apply orb_true_iff; rewrite !Z.ltb_lt; lia). done.
  - destruct (Z.ltb_spec 255 (blen value)), (Z.ltb_spec 0 (blen value)); try lia; simpl; try done.
    + do 2 f_equal. change 255 with (2 ^ 8 - 1). rewrite land_mask by lia. by rewrite Z.mod_small by (change (2 ^ 8) with 256; lia).
    + destruct value; [done|]. unfold blen in *. simpl in *. lia.
Qed.

(** * Requests *)

(** What the providers of a header ask for: first TLVs that are known and room for
    others, later the others. *)
Inductive tlv_request := Add (type exttype : Z) (value : bytes) | Reserve (has_exttype : bool) (length : Z).
Notation tlv_set := (Z * Z * bytes)%type.

Fixpoint run_requests (rs : list tlv_request) (d : tlv_writer_data) : outcome (list rfc5444_result * tlv_writer_data) :=
  match rs with
  | [] => Def ([], d)
  | r :: rs =>
      '(x, d) ← match r with
        | Add type exttype value => _rfc5444_tlv_writer_add type exttype value (blen value) d
        | Reserve has_exttype length => Def (_rfc5444_tlv_writer_allocate has_exttype length d)
        end;
      '(xs, d) ← run_requests rs d; Def (x :: xs, d)
  end.

Fixpoint run_sets (ss : list tlv_set) (d : tlv_writer_data) : outcome (list rfc5444_result * tlv_writer_data) :=
  match ss with
  | [] => Def ([], d)
  | (type, exttype, value) :: ss =>
      '(x, d) ← _rfc5444_tlv_writer_set type exttype value (blen value) d;
      '(xs, d) ← run_sets ss d; Def (x :: xs, d)
  end.

(** ** What they promise

    [room] octets behind the header hold the TLVs so far and the reserved
    octets; a request that does not fit changes nothing. *)

Definition tlv_size (has_exttype : bool) (length : Z) : Z :=
  2 + (if has_exttype then 1 else 0) + length + (if 255 <? length then 2 else if 0 <? length then 1 else 0).

Fixpoint spec_requests (room : Z) (rs : list tlv_request) (ts : list tlv) (reserved : Z) : list rfc5444_result * (list tlv * Z) :=
  match rs with
  | [] => ([], (ts, reserved))
  | r :: rs =>
      let s := match r with Add type exttype value => tlv_size (negb (exttype =? 0)) (blen value) | Reserve has_exttype length => tlv_size has_exttype length end in
      if room <? blen (encode_tlvs ts) + reserved + s then
        let '(xs, st) := spec_requests room rs ts reserved in (RFC5444_MTU_TOO_SMALL :: xs, st)
      else
        let '(xs, st) := match r with
          | Add type exttype value => spec_requests room rs (ts ++ [header_tlv type exttype value]) reserved
          | Reserve _ _ => spec_requests room rs ts (reserved + s)
          end in (RFC5444_OKAY :: xs, st)
  end.

Fixpoint spec_sets (reserved : Z) (ss : list tlv_set) (ts : list tlv) : list rfc5444_result * list tlv :=
  match ss with
  | [] => ([], ts)
  | (type, exttype, value) :: ss =>
      if reserved - blen (encode_tlvs ts) <? tlv_size (negb (exttype =? 0)) (blen value) then
        let '(xs, ts) := spec_sets reserved ss ts in (RFC5444_MTU_TOO_SMALL :: xs, ts)
      else let '(xs, ts) := spec_sets reserved ss (ts ++ [header_tlv type exttype value]) in (RFC5444_OKAY :: xs, ts)
  end.

Definition request_ok (r : tlv_request) : Prop :=
  match r with Add type exttype value => is_u8 type /\ is_u8 exttype /\ blen value < 2 ^ 62 | Reserve _ length => 0 <= length < 2 ^ 62 end.
Definition set_ok (t : tlv_set) : Prop := is_u8 t.1.1 /\ is_u8 t.1.2 /\ blen t.2 < 2 ^ 62.

(** ** Refinement *)

(** Behind the header [hd] there are the TLVs [ts], then those that were set. *)
Record writer_holds (hd : bytes) (ts : list tlv) (reserved : Z) (sets : list tlv) (d : tlv_writer_data) : Prop := {
  wh_buffer : exists rest, buffer d = hd ++ encode_tlvs (ts ++ sets) ++ rest;
  wh_header : header d = blen hd;
  wh_added : added d = blen (encode_tlvs ts);
  wh_allocated : allocated d = reserved;
  wh_set : set d = blen (encode_tlvs sets) /\ set d <= reserved;
  wh_fits : blen hd + added d + reserved <= max d /\ max d <= blen (buffer d) /\ max d < 65536;
}.

Lemma encode_tlvs_app ts ts' : encode_tlvs (ts ++ ts') = encode_tlvs ts ++ encode_tlvs ts'.
Proof. unfold encode_tlvs. by rewrite fmap_app, concat_app. Qed.

Lemma encode_tlvs_one t : encode_tlvs [t] = encode_tlv t.
Proof. unfold encode_tlvs. cbn [fmap list_fmap concat]. apply app_nil_r. Qed.

Lemma header_tlv_size type exttype value : is_u8 exttype -> blen (encode_tlv (header_tlv type exttype value)) = tlv_size (negb (exttype =? 0)) (blen value).
Proof.
  intros Hx. unfold encode_tlv, header_tlv, plain_tlv, range_of. simpl. unfold ext_field, length_field, tlv_size. pose proof (blen_nonneg value).
  change (?x :: ?y :: ?l) with ([x; y] ++ l) at 1. rewrite !blen_app. destruct (exttype =? 0), (255 <? blen value), (0 <? blen value); change (blen [_; _]) with 2; change (blen [_]) with 1; change (blen []) with 0; simpl; lia.
Qed.

Lemma calc_size has_exttype length : 0 <= length < 2 ^ 62 -> _calc_tlv_size has_exttype length = tlv_size has_exttype length.
Proof. intros H. unfold _calc_tlv_size, tlv_size. apply u64_small. destruct has_exttype, (255 <? length), (0 <? length); lia. Qed.

Lemma tlv_size_range has_exttype length : 0 <= length < 2 ^ 62 -> 2 + length <= tlv_size has_exttype length < 2 ^ 62 + 6.
Proof. intros H. unfold tlv_size. destruct has_exttype, (255 <? length), (0 <? length); lia. Qed.

Lemma write_at_holds m l pre old rest d : writes m tt l -> buffer d = pre ++ old ++ rest -> blen old = blen l ->
  write_at (blen pre) m d = Def (with_buffer (pre ++ l ++ rest) d).
Proof. intros Hm Hb Ho. unfold write_at. rewrite Hb, Hm by done. reflexivity. Qed.

(** Room for [n] more octets behind the written part. *)
Lemma split_room (l : bytes) n : 0 <= n <= blen l -> exists old rest, l = old ++ rest /\ blen old = n.
Proof.
  intros H. exists (firstn (Z.to_nat n) l), (skipn (Z.to_nat n) l). rewrite firstn_skipn. split; [done|]. unfold blen in *. rewrite length_take. lia.
Qed.

Lemma write_header_tlv hd ts pre d type exttype value : buffer d = pre ++ encode_tlvs ts ++ hd -> is_u8 type -> is_u8 exttype -> blen value < 65536 ->
  blen (encode_tlv (header_tlv type exttype value)) <= blen hd ->
  exists rest, write_at (blen pre + blen (encode_tlvs ts)) (_write_tlv type exttype 0 255 value (blen value)) d =
    Def (with_buffer (pre ++ encode_tlvs (ts ++ [header_tlv type exttype value]) ++ rest) d) /\ blen hd = blen (encode_tlv (header_tlv type exttype value)) + blen rest.
Proof.
  intros Hb Ht Hx Hv Hroom. pose proof (encode_tlv_length (header_tlv type exttype value)).
  destruct (split_room hd (blen (encode_tlv (header_tlv type exttype value)))) as (old & rest & -> & Ho); [lia|]. exists rest. rewrite blen_app. split; [|lia].
  rewrite encode_tlvs_app, encode_tlvs_one, <- blen_app, <- app_assoc, (app_assoc pre).
  apply (write_at_holds _ _ (pre ++ encode_tlvs ts) old rest); [|rewrite Hb, <- !app_assoc; reflexivity|exact Ho].
  apply write_tlv_writes; [exact Ht|exact Hx|unfold is_u8; lia|unfold is_u8; lia|exact Hv].
Qed.

Lemma add_step hd ts reserved d type exttype value : writer_holds hd ts reserved [] d -> is_u8 type -> is_u8 exttype -> blen value < 2 ^ 62 ->
  let s := tlv_size (negb (exttype =? 0)) (blen value) in
  if max d - blen hd <? blen (encode_tlvs ts) + reserved + s then
    _rfc5444_tlv_writer_add type exttype value (blen value) d = Def (RFC5444_MTU_TOO_SMALL, d)
  else exists d', _rfc5444_tlv_writer_add type exttype value (blen value) d = Def (RFC5444_OKAY, d') /\
    writer_holds hd (ts ++ [header_tlv type exttype value]) reserved [] d' /\ max d' = max d /\ blen (buffer d') = blen (buffer d).
Proof.
  intros [[rest Hb] Hh Ha Hal [Hs1 Hs2] (F1 & F2 & F3)] Ht Hx Hv s. pose proof (blen_nonneg hd). pose proof (blen_nonneg (encode_tlvs ts)). pose proof (blen_nonneg value).
  pose proof (tlv_size_range (negb (exttype =? 0)) (blen value) (conj H1 Hv)) as Hr. fold s in Hr. change (encode_tlvs []) with ([] : bytes) in Hs1. change (blen []) with 0 in Hs1.
  unfold _rfc5444_tlv_writer_add. cbv zeta. rewrite calc_size by lia. fold s. rewrite Hh, Ha, Hal. rewrite u64_small by lia.
  destruct (Z.ltb_spec (max d - blen hd) (blen (encode_tlvs ts) + reserved + s)), (Z.ltb_spec (max d) (blen hd + blen (encode_tlvs ts) + reserved + s)); try lia; [done|].
  rewrite app_nil_r in Hb. pose proof (f_equal blen Hb) as Hlen. rewrite !blen_app in Hlen.
  pose proof (header_tlv_size type exttype value Hx) as Es. fold s in Es.
  destruct (write_header_tlv rest ts hd d type exttype value Hb Ht Hx) as (rest' & E & Hrest); [lia|lia|].
  rewrite E. cbn [mbind outcome_bind]. eexists. split; [reflexivity|]. split; [|split; [done|]].
  - split; simpl; rewrite ?app_nil_r, ?encode_tlvs_app, ?encode_tlvs_one, ?blen_app.
    + exists rest'. by rewrite <- !app_assoc.
    + done.
    + rewrite u64_small by lia. lia.
    + done.
    + change (encode_tlvs []) with ([] : bytes). change (blen []) with 0. lia.
    + rewrite u64_small by lia. lia.
  - simpl. rewrite encode_tlvs_app, encode_tlvs_one, !blen_app. lia.
Qed.

Lemma reserve_step hd ts reserved d has_exttype length : writer_holds hd ts reserved [] d -> 0 <= length < 2 ^ 62 ->
  let s := tlv_size has_exttype length in
  if max d - blen hd <? blen (encode_tlvs ts) + reserved + s then _rfc5444_tlv_writer_allocate has_exttype length d = (RFC5444_MTU_TOO_SMALL, d)
  else exists d', _rfc5444_tlv_writer_allocate has_exttype length d = (RFC5444_OKAY, d') /\
    writer_holds hd ts (reserved + s) [] d' /\ max d' = max d /\ blen (buffer d') = blen (buffer d).
Proof.
  intros [[rest Hb] Hh Ha Hal [Hs1 Hs2] (F1 & F2 & F3)] Hl s. pose proof (blen_nonneg hd). pose proof (blen_nonneg (encode_tlvs ts)).
  pose proof (tlv_size_range has_exttype length Hl) as Hr. fold s in Hr. change (encode_tlvs []) with ([] : bytes) in Hs1. change (blen []) with 0 in Hs1.
  unfold _rfc5444_tlv_writer_allocate. cbv zeta. rewrite calc_size by lia. fold s. rewrite Hh, Ha, Hal. rewrite u64_small by lia.
  destruct (Z.ltb_spec (max d - blen hd) (blen (encode_tlvs ts) + reserved + s)), (Z.ltb_spec (max d) (blen hd + blen (encode_tlvs ts) + reserved + s)); try lia; [done|].
  eexists. split; [reflexivity|]. split; [|done].
  split; simpl; [by exists rest|done|done|apply u64_small; lia|change (encode_tlvs []) with ([] : bytes); change (blen []) with 0; lia|lia].
Qed.

Lemma set_step hd ts reserved sets d type exttype value : writer_holds hd ts reserved sets d -> is_u8 type -> is_u8 exttype -> blen value < 2 ^ 62 ->
  let s := tlv_size (negb (exttype =? 0)) (blen value) in
  if reserved - blen (encode_tlvs sets) <? s then _rfc5444_tlv_writer_set type exttype value (blen value) d = Def (RFC5444_MTU_TOO_SMALL, d)
  else exists d', _rfc5444_tlv_writer_set type exttype value (blen value) d = Def (RFC5444_OKAY, d') /\
    writer_holds hd ts reserved (sets ++ [header_tlv type exttype value]) d' /\ max d' = max d /\ blen (buffer d') = blen (buffer d).
Proof.
  intros [[rest Hb] Hh Ha Hal [Hs1 Hs2] (F1 & F2 & F3)] Ht Hx Hv s. pose proof (blen_nonneg hd). pose proof (blen_nonneg (encode_tlvs ts)). pose proof (blen_nonneg value).
  pose proof (blen_nonneg (encode_tlvs sets)). pose proof (tlv_size_range (negb (exttype =? 0)) (blen value) (conj H1 Hv)) as Hr. fold s in Hr.
  unfold _rfc5444_tlv_writer_set. cbv zeta. rewrite calc_size by lia. fold s. rewrite Hh, Ha, Hal, Hs1. rewrite u64_small by lia.
  destruct (Z.ltb_spec (reserved - blen (encode_tlvs sets)) s); [done|].
  pose proof (f_equal blen Hb) as Hlen. rewrite encode_tlvs_app, !blen_app in Hlen. pose proof (header_tlv_size type exttype value Hx) as Es. fold s in Es.
  destruct (write_header_tlv rest (ts ++ sets) hd d type exttype value Hb Ht Hx) as (rest' & E & Hrest); [lia|lia|].
  rewrite encode_tlvs_app, blen_app, Z.add_assoc in E. rewrite E. cbn [mbind outcome_bind]. eexists. split; [reflexivity|]. split; [|split; [done|]].
  - split; simpl; rewrite ?app_assoc; try done.
    + exists rest'. by rewrite !app_assoc.
    + rewrite encode_tlvs_app, encode_tlvs_one, blen_app, u64_small by lia. lia.
    + rewrite encode_tlvs_app, encode_tlvs_one, encode_tlvs_app, !blen_app. lia.
  - simpl. rewrite encode_tlvs_app, encode_tlvs_one, encode_tlvs_app, !blen_app. lia.
Qed.

Lemma requests_refine hd rs : Forall request_ok rs -> forall ts reserved d, writer_holds hd ts reserved [] d ->
  let '(xs, (ts', reserved')) := spec_requests (max d - blen hd) rs ts reserved in
  exists d', run_requests rs d = Def (xs, d') /\ writer_holds hd ts' reserved' [] d' /\ max d' = max d /\ blen (buffer d') = blen (buffer d).
Proof.
  induction 1 as [|r rs Hr _ IH]; intros ts reserved d Hd; cbn [spec_requests run_requests].
  - by exists d.
  - destruct r as [type exttype value|has_exttype length]; cbv zeta.
    + destruct Hr as (Ht & Hx & Hv). pose proof (add_step hd ts reserved d type exttype value Hd Ht Hx Hv) as Hstep. cbv zeta in Hstep.
      destruct (_ <? _).
      * rewrite Hstep. cbn [mbind outcome_bind]. specialize (IH ts reserved d Hd). destruct (spec_requests _ rs _ _) as [xs [ts' reserved']].
        destruct IH as (d' & E & Hd'). exists d'. by rewrite E.
      * destruct Hstep as (d1 & E1 & H1 & Em & Eb). rewrite E1. cbn [mbind outcome_bind]. specialize (IH _ _ d1 H1). rewrite Em in IH.
        destruct (spec_requests _ rs _ _) as [xs [ts' reserved']]. destruct IH as (d' & E & Hd' & ? & ?). exists d'. rewrite E. split; [done|]. split; [done|]. split; congruence.
    + pose proof (reserve_step hd ts reserved d has_exttype length Hd Hr) as Hstep. cbv zeta in Hstep.
      destruct (_ <? _).
      * rewrite Hstep. cbn [mbind outcome_bind]. specialize (IH ts reserved d Hd). destruct (spec_requests _ rs _ _) as [xs [ts' reserved']].
        destruct IH as (d' & E & Hd'). exists d'. by rewrite E.
      * destruct Hstep as (d1 & E1 & H1 & Em & Eb). rewrite E1. cbn [mbind outcome_bind]. specialize (IH _ _ d1 H1). rewrite Em in IH.
        destruct (spec_requests _ rs _ _) as [xs [ts' reserved']]. destruct IH as (d' & E & Hd' & ? & ?). exists d'. rewrite E. split; [done|]. split; [done|]. split; congruence.
Qed.

Lemma sets_refine hd ts reserved ss : Forall set_ok ss -> forall sets d, writer_holds hd ts reserved sets d ->
  let '(xs, sets') := spec_sets reserved ss sets in
  exists d', run_sets ss d = Def (xs, d') /\ writer_holds hd ts reserved sets' d' /\ max d' = max d /\ blen (buffer d') = blen (buffer d).
Proof.
  induction 1 as [|[[type exttype] value] ss (Ht & Hx & Hv) _ IH]; intros sets d Hd; cbn [spec_sets run_sets].
  - by exists d.
  - pose proof (set_step hd ts reserved sets d type exttype value Hd Ht Hx Hv) as Hstep. cbv zeta in Hstep. destruct (_ <? _).
    + rewrite Hstep. cbn [mbind outcome_bind]. specialize (IH sets d Hd). destruct (spec_sets _ ss _) as [xs sets']. destruct IH as (d' & E & Hd'). exists d'. by rewrite E.
    + destruct Hstep as (d1 & E1 & H1 & Em & Eb). rewrite E1. cbn [mbind outcome_bind]. specialize (IH _ d1 H1).
      destruct (spec_sets _ ss _) as [xs sets']. destruct IH as (d' & E & Hd' & ? & ?). exists d'. rewrite E. split; [done|]. split; [done|]. split; congruence.
Qed.

(** The TLVs that were accepted are well-formed. *)
Lemma header_tlv_ok type exttype value : is_u8 type -> is_u8 exttype -> blen value < 65536 -> tlv_for 0 (header_tlv type exttype value).
Proof. intros Ht Hx Hv. by split. Qed.

Lemma spec_requests_ok room rs : Forall request_ok rs -> room < 65536 -> forall ts reserved, 0 <= reserved -> Forall (tlv_for 0) ts ->
  Forall (tlv_for 0) (spec_requests room rs ts reserved).2.1.
Proof.
  intros Hrs Hroom. induction Hrs as [|r rs Hr _ IH]; intros ts reserved Hres Hts; [done|]. cbn [spec_requests]. cbv zeta.
  destruct r as [type exttype value|has_exttype length].
  - destruct Hr as (Ht & Hx & Hv). destruct (Z.ltb_spec room (blen (encode_tlvs ts) + reserved + tlv_size (negb (exttype =? 0)) (blen value))) as [Hlt|Hge].
    + specialize (IH ts reserved Hres Hts). by destruct (spec_requests room rs ts reserved) as [? [? ?]].
    + pose proof (blen_nonneg (encode_tlvs ts)). pose proof (tlv_size_range (negb (exttype =? 0)) (blen value) (conj (blen_nonneg _) Hv)).
      assert (Forall (tlv_for 0) (ts ++ [header_tlv type exttype value])) as Hts' by (apply Forall_app; split; [done|]; apply Forall_singleton, header_tlv_ok; [done|done|lia]).
      specialize (IH _ reserved Hres Hts'). by destruct (spec_requests room rs (ts ++ _) reserved) as [? [? ?]].
  - pose proof (tlv_size_range has_exttype length Hr). simpl in Hr. destruct (_ <? _).
    + specialize (IH ts reserved Hres Hts). by destruct (spec_requests room rs ts reserved) as [? [? ?]].
    + specialize (IH ts (reserved + tlv_size has_exttype length) ltac:(lia) Hts). by destruct (spec_requests room rs ts (reserved + _)) as [? [? ?]].
Qed.

Lemma spec_sets_ok reserved ss : Forall set_ok ss -> reserved < 65536 -> forall sets, Forall (tlv_for 0) sets -> Forall (tlv_for 0) (spec_sets reserved ss sets).2.
Proof.
  intros Hss Hres. induction Hss as [|[[type exttype] value] ss (Ht & Hx & Hv) _ IH]; intros sets Hsets; [done|]. cbn [spec_sets]. simpl in Ht, Hx, Hv.
  destruct (Z.ltb_spec (reserved - blen (encode_tlvs sets)) (tlv_size (negb (exttype =? 0)) (blen value))) as [Hlt|Hge].
  - specialize (IH sets Hsets). by destruct (spec_sets reserved ss sets).
  - pose proof (blen_nonneg (encode_tlvs sets)). pose proof (tlv_size_range (negb (exttype =? 0)) (blen value) (conj (blen_nonneg _) Hv)).
    assert (Forall (tlv_for 0) (sets ++ [header_tlv type exttype value])) as Hsets' by (apply Forall_app; split; [done|]; apply Forall_singleton, header_tlv_ok; [done|done|lia]).
    specialize (IH _ Hsets'). by destruct (spec_sets reserved ss (sets ++ _)).
Qed.

(** C38: Whatever TLVs the providers of a header add, reserve and set, the writer
    answers as the room behind the header decides, leaves the header alone, never
    writes behind its limit, and the block it has written, with its length in front,
    is read by the reader as exactly the accepted TLVs in their order. *)
Theorem tlv_writer_roundtrip hd room d rs ss : buffer d = hd ++ room -> header d = blen hd -> added d = 0 -> allocated d = 0 -> set d = 0 ->
  blen hd <= max d <= blen (buffer d) -> max d < 65536 -> Forall request_ok rs -> Forall set_ok ss ->
  let '(xs, (ts, reserved)) := spec_requests (max d - blen hd) rs [] 0 in
  let '(ys, sets) := spec_sets reserved ss [] in
  exists d1 d2, run_requests rs d = Def (xs, d1) /\ run_sets ss d1 = Def (ys, d2) /\
    header d2 + added d2 + set d2 <= max d /\ blen (buffer d2) = blen (buffer d) /\
    exists block rest, buffer d2 = hd ++ block ++ rest /\ blen block = added d2 + set d2 /\
      forall malloc_ok pre post h, (forall k, malloc_ok k = true) ->
        let buf := pre ++ ([blen block .>> 8; blen block .& 255] ++ block) ++ post in
        exists es h', _parse_tlvblock malloc_ok buf (blen pre) (blen buf) 0 h = Def (RFC5444_OKAY, fill es [], blen pre + 2 + blen block, h') /\
          Forall2 (sees buf 0) (ts ++ sets) es.
Proof.
  intros Hb Hh Ha Hal Hs Hfit Hmax Hrs Hss.
  assert (writer_holds hd [] 0 [] d) as Hd by (split; rewrite ?Ha, ?Hs; [by exists room|done|done|done|split; [done|lia]|lia]).
  pose proof (requests_refine hd rs Hrs [] 0 d Hd) as R. pose proof (spec_requests_ok (max d - blen hd) rs Hrs) as Ok.
  specialize (Ok ltac:(pose proof (blen_nonneg hd); lia) [] 0 ltac:(lia) (Forall_nil_2 _)).
  destruct (spec_requests _ rs [] 0) as [xs [ts reserved]]. destruct R as (d1 & E1 & H1 & Em1 & Eb1). simpl in Ok.
  pose proof (sets_refine hd ts reserved ss Hss [] d1 H1) as R2. pose proof (spec_sets_ok reserved ss Hss) as Ok2.
  pose proof (blen_nonneg hd). assert (reserved < 65536) as Hres.
  { destruct H1 as [_ _ Ha1 _ _ [F1 _]]. pose proof (blen_nonneg (encode_tlvs ts)). lia. }
  specialize (Ok2 Hres [] (Forall_nil_2 _)). destruct (spec_sets reserved ss []) as [ys sets]. destruct R2 as (d2 & E2 & [[rest Hb2] Hh2 Ha2 Hal2 [Hs2 Hs2'] (F1 & F2 & F3)] & Em2 & Eb2).
  simpl in Ok2. exists d1, d2. split; [exact E1|]. split; [exact E2|]. split; [lia|]. split; [congruence|]. exists (encode_tlvs (ts ++ sets)), rest.
  split; [exact Hb2|]. assert (blen (encode_tlvs (ts ++ sets)) = added d2 + set d2) as Elen by (rewrite encode_tlvs_app, blen_app; lia). split; [exact Elen|].
  intros malloc_ok pre post h Hm buf. pose proof (blen_nonneg (encode_tlvs (ts ++ sets))).
  edestruct (parse_tlvblock_at buf (blen buf) 0 ltac:(lia) malloc_ok Hm (ts ++ sets) post (blen pre) h) as (es & h' & E & Hes).
  - by apply Forall_app.
  - lia.
  - exists pre, []. unfold buf, encode_tlvblock. cbv zeta. by rewrite app_nil_r.
  - unfold buf, encode_tlvblock. cbv zeta. rewrite !blen_app. pose proof (blen_nonneg post). lia.
  - exists es, h'. split; [|exact Hes]. rewrite E. unfold encode_tlvblock. cbv zeta. rewrite blen_app, Z.add_assoc. reflexivity.
Qed.

(** ** An example: a header of two octets, room for twenty *)

Definition tlv_data : tlv_writer_data := {| buffer := replicate 30 7; header := 2; added := 0; allocated := 0; set := 0; max := 20 |}.
Definition tlv_requests : list tlv_request := [Add 1 0 [10]; Reserve true 2; Add 4 0 (replicate 20 3); Add 2 5 []].
Definition tlv_sets : list tlv_set := [(9, 1, [8; 8]); (9, 0, [1])].

Lemma tlv_writer_roundtrip_witness : exists d1 d2, run_requests tlv_requests tlv_data = Def ([0; 0; RFC5444_MTU_TOO_SMALL; 0], d1) /\
  run_sets tlv_sets d1 = Def ([0; RFC5444_MTU_TOO_SMALL], d2) /\
  exists block rest, buffer d2 = [7; 7] ++ block ++ rest /\ blen block = added d2 + set d2 /\
    exists es h', _parse_tlvblock (fun _ => true) ([0; blen block] ++ block) 0 (2 + blen block) 0 {| calls := 0; tlv_live := 0; addr_live := 0 |} = Def (RFC5444_OKAY, fill es [], 2 + blen block, h') /\
      Forall2 (sees ([0; blen block] ++ block) 0) [header_tlv 1 0 [10]; header_tlv 2 5 []; header_tlv 9 1 [8; 8]] es.
Proof.
  pose proof (tlv_writer_roundtrip [7; 7] (replicate 28 7) tlv_data tlv_requests tlv_sets eq_refl eq_refl eq_refl eq_refl eq_refl) as W.
  specialize (W ltac:(vm_compute; split; discriminate) ltac:(reflexivity)).
  specialize (W ltac:(repeat constructor; vm_compute; (discriminate || reflexivity || split; discriminate)) ltac:(repeat constructor; vm_compute; (discriminate || reflexivity || split; discriminate))).
  change (spec_requests _ _ _ _) with ([0; 0; RFC5444_MTU_TOO_SMALL; 0], ([header_tlv 1 0 [10]; header_tlv 2 5 []], 6)) in W. cbv beta iota in W.
  change (spec_sets _ _ _) with ([0; RFC5444_MTU_TOO_SMALL], [header_tlv 9 1 [8; 8]]) in W. cbv beta iota in W.
  destruct W as (d1 & d2 & E1 & E2 & Hfit & Hlen & block & rest & Hb & Hk & Hread). exists d1, d2. split; [exact E1|]. split; [exact E2|].
  exists block, rest. split; [exact Hb|]. split; [exact Hk|].
  assert (blen block = 13) as Eb.
  { rewrite Hk. vm_compute in E1. injection E1 as <-. vm_compute in E2. injection E2 as <-. reflexivity. }
  destruct (Hread (fun _ => true) [] [] {| calls := 0; tlv_live := 0; addr_live := 0 |} ltac:(done)) as (es & h' & E & Hes). cbv zeta in E, Hes.
  rewrite app_nil_r, Eb in E, Hes. rewrite Eb. exists es, h'. split; [|exact Hes].
  change ([] ++ [13 .>> 8; 13 .& 255] ++ block) with ([0; 13] ++ block) in E. rewrite (blen_app [0; 13]), Eb in E. exact E.
Defined.
