(* ===== verification/MprSelection.v ===== *)
(** MPR selection of RFC 7181 on a neighbor graph:
    src/nhdp/mpr/neighbor-graph.c and src/nhdp/mpr/selection-rfc7181.c. *)

From Stdlib Require Import ZArith Lia Sorted.
From stdpp Require Import base list numbers option gmap sets.
From S2P Require Import Prelude AvlSpec Netaddr.

Local Open Scope Z_scope.
Local Open Scope cint_scope.

Definition RFC7181_METRIC_MAX : Z := 0xffff00.
Definition RFC7181_METRIC_INFINITE : Z := 0xffffff.
Definition RFC7181_METRIC_INFINITE_PATH : Z := 0xffffffff.
Definition RFC7181_WILLINGNESS_NEVER : Z := 0.
Definition RFC7181_WILLINGNESS_ALWAYS : Z := 15.

(** ** The graph

    Links and neighbors are named by their number in the NHDP database. *)

Record addr_node := {
  an_addr : netaddr;
  an_offset : Z;
  min_d_z_y : Z;
}.

Record n1_node := {
  n1_addr : netaddr;
  n1_link : option nat;
  n1_neigh : nat;
  n1_offset : Z;
}.

(** [struct neighbor_graph] and the flags [selection_is_mpr] of the
    neighbors. *)
Record neighbor_graph := {
  set_n1 : list n1_node;
  set_n2 : list addr_node;
  set_n : list addr_node;
  set_mpr : list n1_node;
  set_mpr_candidates : list n1_node;
  d_x_y_cache : list Z;
  selection_is_mpr : gset nat;
}.

Definition with_n (l : list addr_node) (g : neighbor_graph) : neighbor_graph :=
  {| set_n1 := set_n1 g; set_n2 := set_n2 g; set_n := l; set_mpr := set_mpr g;
     set_mpr_candidates := set_mpr_candidates g; d_x_y_cache := d_x_y_cache g; selection_is_mpr := selection_is_mpr g |}.
Definition with_mpr (l : list n1_node) (g : neighbor_graph) : neighbor_graph :=
  {| set_n1 := set_n1 g; set_n2 := set_n2 g; set_n := set_n g; set_mpr := l;
     set_mpr_candidates := set_mpr_candidates g; d_x_y_cache := d_x_y_cache g; selection_is_mpr := selection_is_mpr g |}.
Definition with_candidates (l : list n1_node) (g : neighbor_graph) : neighbor_graph :=
  {| set_n1 := set_n1 g; set_n2 := set_n2 g; set_n := set_n g; set_mpr := set_mpr g;
     set_mpr_candidates := l; d_x_y_cache := d_x_y_cache g; selection_is_mpr := selection_is_mpr g |}.
Definition with_cache (l : list Z) (g : neighbor_graph) : neighbor_graph :=
  {| set_n1 := set_n1 g; set_n2 := set_n2 g; set_n := set_n g; set_mpr := set_mpr g;
     set_mpr_candidates := set_mpr_candidates g; d_x_y_cache := l; selection_is_mpr := selection_is_mpr g |}.
Definition with_selected (s : gset nat) (g : neighbor_graph) : neighbor_graph :=
  {| set_n1 := set_n1 g; set_n2 := set_n2 g; set_n := set_n g; set_mpr := set_mpr g;
     set_mpr_candidates := set_mpr_candidates g; d_x_y_cache := d_x_y_cache g; selection_is_mpr := s |}.

(** What a kind of graph promises: [struct neighbor_graph_interface] with the
    one hop cost that its [calculate_d_x_y] uses, and the pointers of the
    database that the selection follows. *)
Class neighbor_graph_interface := {
  originator_of : nat -> netaddr;
  neigh_of_link : nat -> nat;
  calculate_d1_x_of_n2_addr : list n1_node -> netaddr -> outcome Z;
  calculate_d1_x : n1_node -> outcome Z;
  calculate_d2_x_y : n1_node -> netaddr -> outcome Z;
  get_willingness_n1 : n1_node -> outcome Z;
}.

Section graph.
Context `{I : neighbor_graph_interface}.

(** [mpr_add_n1_node_to_set] *)
Definition mpr_add_n1_node_to_set (set : list n1_node) (neigh : nat) (lnk : option nat) (offset : Z) : list n1_node :=
  match tree_find n1_addr avl_comp_netaddr (originator_of neigh) set with
  | Some _ => set
  | None =>
      default set (tree_insert n1_addr avl_comp_netaddr
        {| n1_addr := originator_of neigh; n1_link := lnk; n1_neigh := neigh; n1_offset := offset |} set)
  end.

(** [mpr_add_addr_node_to_set] *)
Definition mpr_add_addr_node_to_set (set : list addr_node) (addr : netaddr) (offset : Z) : list addr_node :=
  match tree_find an_addr avl_comp_netaddr addr set with
  | Some _ => set
  | None =>
      default set (tree_insert an_addr avl_comp_netaddr
        {| an_addr := addr; an_offset := offset; min_d_z_y := 0 |} set)
  end.

(** [mpr_is_mpr] *)
Definition mpr_is_mpr (g : neighbor_graph) (addr : netaddr) : bool :=
  match tree_find n1_addr avl_comp_netaddr addr (set_mpr g) with Some _ => true | None => false end.

(** [_calculate_d_x_y], the same in both kinds of graph *)
Definition _calculate_d_x_y (x : n1_node) (y : addr_node) (g : neighbor_graph) : outcome (Z * neighbor_graph) :=
  let idx := u32 (n1_offset x + an_offset y) in
  cost ← rd (d_x_y_cache g) idx;
  if cost =? 0 then
    cost1 ← calculate_d1_x x;
    cost2 ← calculate_d2_x_y x (an_addr y);
    let cost := if (RFC7181_METRIC_MAX <? cost1) || (RFC7181_METRIC_MAX <? cost2)
                then RFC7181_METRIC_INFINITE_PATH else u32 (cost1 + cost2) in
    Def (cost, with_cache (<[Z.to_nat idx := cost]> (d_x_y_cache g)) g)
  else Def (cost, g).

(** ** N *)

(** The loop over N1: is there an intermediate hop that is cheaper than
    [d1_y]? *)
Fixpoint cheaper_loop (xs : list n1_node) (y : addr_node) (d1_y : Z) (g : neighbor_graph) : outcome (bool * neighbor_graph) :=
  match xs with
  | [] => Def (false, g)
  | x :: xs =>
      '(d, g) ← _calculate_d_x_y x y g;
      if d <? d1_y then Def (true, g) else cheaper_loop xs y d1_y g
  end.

Fixpoint calculate_n_loop (ys : list addr_node) (g : neighbor_graph) : outcome neighbor_graph :=
  match ys with
  | [] => Def g
  | y :: ys =>
      d1_y ← calculate_d1_x_of_n2_addr (set_n1 g) (an_addr y);
      '(add_to_n, g) ← (if d1_y =? RFC7181_METRIC_INFINITE then Def (true, g) else cheaper_loop (set_n1 g) y d1_y g);
      let g := if add_to_n : bool then with_n (mpr_add_addr_node_to_set (set_n g) (an_addr y) (an_offset y)) g else g in
      calculate_n_loop ys g
  end.

Definition _calculate_n (g : neighbor_graph) : outcome neighbor_graph := calculate_n_loop (set_n2 g) g.

(** ** R *)

(** [mpr_calculate_minimal_d_z_y] for the node at position [k] of N. *)
Fixpoint minimal_loop (zs : list n1_node) (y : addr_node) (m : Z) (g : neighbor_graph) : outcome (Z * neighbor_graph) :=
  match zs with
  | [] => Def (m, g)
  | z :: zs => '(d, g) ← _calculate_d_x_y z y g; minimal_loop zs y (if d <? m then d else m) g
  end.

Definition set_min (m : Z) (y : addr_node) : addr_node := {| an_addr := an_addr y; an_offset := an_offset y; min_d_z_y := m |}.

Definition mpr_calculate_minimal_d_z_y (k : nat) (y : addr_node) (g : neighbor_graph) : outcome (Z * neighbor_graph) :=
  if negb (min_d_z_y y =? 0) then Def (min_d_z_y y, g)
  else
    '(m, g) ← minimal_loop (set_n1 g) y RFC7181_METRIC_INFINITE_PATH g;
    Def (m, with_n (alter (set_min m) k (set_n g)) g).

(** Is [y] covered by an MPR at minimal cost? *)
Fixpoint covered_loop (zs : list n1_node) (y : addr_node) (m : Z) (g : neighbor_graph) : outcome (bool * neighbor_graph) :=
  match zs with
  | [] => Def (false, g)
  | z :: zs =>
      '(d, g) ← _calculate_d_x_y z y g;
      if (d =? m) && bool_decide (n1_neigh z ∈ selection_is_mpr g) then Def (true, g) else covered_loop zs y m g
  end.

(** The loop over N, by position. *)
Fixpoint r_loop (ks : list nat) (x : n1_node) (r : Z) (g : neighbor_graph) : outcome (Z * neighbor_graph) :=
  match ks with
  | [] => Def (r, g)
  | k :: ks =>
      match set_n g !! k with
      | None => Undef UB_read
      | Some y =>
          '(d_x_y, g) ← _calculate_d_x_y x y g;
          '(m, g) ← mpr_calculate_minimal_d_z_y k y g;
          if m <? d_x_y then r_loop ks x r g
          else
            '(covered, g) ← covered_loop (set_n1 g) y m g;
            r_loop ks x (if covered : bool then r else u32 (r + 1)) g
      end
  end.

Definition _calculate_r (x : n1_node) (g : neighbor_graph) : outcome (Z * neighbor_graph) :=
  if bool_decide (n1_neigh x ∈ selection_is_mpr g) then Def (0, g)
  else r_loop (seq 0 (length (set_n g))) x 0 g.

(** ** The three steps of the selection *)

Fixpoint will_always_loop (xs : list n1_node) (g : neighbor_graph) : outcome neighbor_graph :=
  match xs with
  | [] => Def g
  | x :: xs =>
      w ← get_willingness_n1 x;
      if w =? RFC7181_WILLINGNESS_ALWAYS then
        match n1_link x with
        | None => Undef UB_null
        | Some l =>
            will_always_loop xs (with_mpr (mpr_add_n1_node_to_set (set_mpr g) (neigh_of_link l) (Some l) (n1_offset x)) g)
        end
      else will_always_loop xs g
  end.

Definition _process_will_always (g : neighbor_graph) : outcome neighbor_graph := will_always_loop (set_n1 g) g.

(** [mpr_add_n1_node_to_set(&graph->set_mpr, ...); neigh->selection_is_mpr = true] *)
Definition select_mpr (x : n1_node) (g : neighbor_graph) : neighbor_graph :=
  with_selected ({[n1_neigh x]} ∪ selection_is_mpr g)
    (with_mpr (mpr_add_n1_node_to_set (set_mpr g) (n1_neigh x) (n1_link x) (n1_offset x)) g).

(** The possible MPRs of an address: their number and the last one. *)
Fixpoint possible_loop (xs : list n1_node) (y : addr_node) (count : Z) (last : option n1_node) : outcome (Z * option n1_node) :=
  match xs with
  | [] => Def (count, last)
  | x :: xs =>
      d2 ← calculate_d2_x_y x (an_addr y);
      if d2 <=? RFC7181_METRIC_MAX then possible_loop xs y (u32 (count + 1)) (Some x) else possible_loop xs y count last
  end.

Fixpoint unique_loop (ys : list addr_node) (g : neighbor_graph) : outcome neighbor_graph :=
  match ys with
  | [] => Def g
  | y :: ys =>
      '(possible, last) ← possible_loop (set_n1 g) y 0 None;
      if possible =? 0 then Undef Assert_failed
      else if possible =? 1 then
        match last with None => Undef UB_null | Some x => unique_loop ys (select_mpr x g) end
      else unique_loop ys g
  end.

Definition _process_unique_mprs (g : neighbor_graph) : outcome neighbor_graph := unique_loop (set_n g) g.

(** [_select_greatest_by_property] with [_calculate_r]: [greatest] is [None] as
    long as there is no candidate. *)
Fixpoint greatest_loop (xs : list n1_node) (greatest : option Z) (tmp : list n1_node) (g : neighbor_graph)
    : outcome (list n1_node * neighbor_graph) :=
  match xs with
  | [] => Def (tmp, g)
  | x :: xs =>
      '(p, g) ← _calculate_r x g;
      let add set := mpr_add_n1_node_to_set set (n1_neigh x) (n1_link x) (n1_offset x) in
      if 0 <? p then
        match greatest with
        | None => greatest_loop xs (Some p) (add []) g
        | Some q =>
            if q <? p then greatest_loop xs (Some p) (add []) g
            else if p =? q then greatest_loop xs greatest (add tmp) g
            else greatest_loop xs greatest tmp g
        end
      else greatest_loop xs greatest tmp g
  end.

Definition _select_greatest_by_property (g : neighbor_graph) : outcome neighbor_graph :=
  '(tmp, g) ← greatest_loop (set_n1 g) None [] g;
  Def (with_candidates
    (foldl (fun set x => mpr_add_n1_node_to_set set (n1_neigh x) (n1_link x) (n1_offset x)) [] tmp) g).

(** Every round selects a new neighbor: their number is fuel enough. *)
Fixpoint remaining_loop (fuel : nat) (g : neighbor_graph) : outcome neighbor_graph :=
  g ← _select_greatest_by_property g;
  match set_mpr_candidates g with
  | [] => Def g
  | x :: rest =>
      match fuel with
      | O => Undef Out_of_fuel
      | S fuel => remaining_loop fuel (with_candidates rest (select_mpr x g))
      end
  end.

Definition _process_remaining (g : neighbor_graph) : outcome neighbor_graph := remaining_loop (length (set_n1 g)) g.

(** ** [mpr_calculate_mpr_rfc7181] *)

Definition set_n1_offset (i : nat) (x : n1_node) : n1_node :=
  {| n1_addr := n1_addr x; n1_link := n1_link x; n1_neigh := n1_neigh x; n1_offset := Z.of_nat i |}.
Definition set_an_offset (n1_count : Z) (i : nat) (y : addr_node) : addr_node :=
  {| an_addr := an_addr y; an_offset := u32 (Z.of_nat i * n1_count); min_d_z_y := min_d_z_y y |}.

(** The cache and the offsets. *)
Definition init_cache (g : neighbor_graph) : neighbor_graph :=
  let n1_count := Z.of_nat (length (set_n1 g)) in
  {| set_n1 := imap set_n1_offset (set_n1 g); set_n2 := imap (set_an_offset n1_count) (set_n2 g); set_n := set_n g;
     set_mpr := set_mpr g; set_mpr_candidates := set_mpr_candidates g;
     d_x_y_cache := replicate (length (set_n1 g) * length (set_n2 g)) 0; selection_is_mpr := selection_is_mpr g |}.

Definition mpr_calculate_mpr_rfc7181 (g : neighbor_graph) : outcome neighbor_graph :=
  g ← _calculate_n (init_cache g);
  g ← _process_will_always g;
  g ← _process_unique_mprs g;
  _process_remaining g.

(** ** Checking the result *)

(** [mpr_calculate_d_of_y_s] *)
Fixpoint d_of_y_s_loop (xs : list n1_node) (y : addr_node) (m : Z) (g : neighbor_graph) : outcome (Z * neighbor_graph) :=
  match xs with
  | [] => Def (m, g)
  | x :: xs => '(d, g) ← _calculate_d_x_y x y g; d_of_y_s_loop xs y (if d <? m then d else m) g
  end.

Definition mpr_calculate_d_of_y_s (y : addr_node) (s : list n1_node) (g : neighbor_graph) : outcome (Z * neighbor_graph) :=
  d1 ← calculate_d1_x_of_n2_addr (set_n1 g) (an_addr y);
  d_of_y_s_loop s y (if RFC7181_METRIC_MAX <? d1 then RFC7181_METRIC_INFINITE_PATH else d1) g.

(** [_validate_mpr_set]: the properties of RFC 7181, section 18.3, as
    assertions. *)
Fixpoint validate_always (xs : list n1_node) (g : neighbor_graph) : outcome unit :=
  match xs with
  | [] => Def tt
  | x :: xs =>
      w ← get_willingness_n1 x;
      if (w =? RFC7181_WILLINGNESS_ALWAYS) && negb (mpr_is_mpr g (n1_addr x)) then Undef Assert_failed
      else validate_always xs g
  end.

Fixpoint validate_costs (ys : list addr_node) (g : neighbor_graph) : outcome neighbor_graph :=
  match ys with
  | [] => Def g
  | y :: ys =>
      '(d_y_n1, g) ← mpr_calculate_d_of_y_s y (set_n1 g) g;
      '(d_y_mpr, g) ← mpr_calculate_d_of_y_s y (set_mpr g) g;
      if negb (d_y_mpr <? RFC7181_METRIC_INFINITE_PATH) then Undef Assert_failed
      else if negb (d_y_mpr =? d_y_n1) then Undef Assert_failed
      else validate_costs ys g
  end.

Definition _validate_mpr_set (g : neighbor_graph) : outcome neighbor_graph :=
  _ ← validate_always (set_n1 g) g;
  validate_costs (set_n2 g) g.
End graph.

(** ** Addresses as keys *)

Lemma netaddr_octets_inj a b : netaddr_octets a = netaddr_octets b -> a = b.
Proof.
  destruct a as [a1 a2 a3], b as [b1 b2 b3]. unfold netaddr_octets. simpl.
  change [a2; a3] with ([a2] ++ [a3]). change [b2; b3] with ([b2] ++ [b3]). rewrite !app_assoc.
  intros [[H1 H2]%app_inj_tail H3]%app_inj_tail. congruence.
Qed.

Lemma netaddr_cmp_eq a b : netaddr_cmp a b = 0 <-> a = b.
Proof.
  unfold netaddr_cmp. rewrite memcmp_eq. split; [apply netaddr_octets_inj|by intros ->].
Qed.

Lemma find_in {A} (key : A -> netaddr) l x y : tree_strict key avl_comp_netaddr l -> x ∈ l -> y ∈ l -> key x = key y -> x = y.
Proof. intros Hs Hx Hy Hk. apply (tree_strict_inj key avl_comp_netaddr l); [done|done|done|]. by apply netaddr_cmp_eq. Qed.

(** ** Building the sets *)

Section sets.
Context `{I : neighbor_graph_interface}.

Lemma add_n1_strict set neigh lnk off : tree_strict n1_addr avl_comp_netaddr set ->
  tree_strict n1_addr avl_comp_netaddr (mpr_add_n1_node_to_set set neigh lnk off).
Proof.
  intros Hs. unfold mpr_add_n1_node_to_set. destruct (tree_find _ _ _ set); [done|].
  destruct (tree_insert _ _ _ set) as [l'|] eqn:E; [|done]. by eapply (tree_insert_strict n1_addr avl_comp_netaddr).
Qed.

Lemma add_n1_elem set neigh lnk off z : z ∈ mpr_add_n1_node_to_set set neigh lnk off ->
  z ∈ set \/ z = {| n1_addr := originator_of neigh; n1_link := lnk; n1_neigh := neigh; n1_offset := off |}.
Proof.
  unfold mpr_add_n1_node_to_set. destruct (tree_find _ _ _ set); [by left|].
  destruct (tree_insert _ _ _ set) as [l'|] eqn:E; [|by left]. simpl. intros Hz.
  eapply (tree_insert_elem n1_addr avl_comp_netaddr) in Hz; [|exact E]. destruct Hz; [by right|by left].
Qed.

Lemma add_n1_length set neigh lnk off : (length (mpr_add_n1_node_to_set set neigh lnk off) <= S (length set))%nat.
Proof.
  unfold mpr_add_n1_node_to_set. destruct (tree_find _ _ _ set) eqn:Ef; [lia|].
  match goal with |- context [tree_insert _ _ ?x _] => destruct (tree_insert_new n1_addr avl_comp_netaddr x set Ef) as (l' & -> & Hp) end.
  simpl. rewrite Hp. simpl. lia.
Qed.

Lemma add_addr_strict set a off : tree_strict an_addr avl_comp_netaddr set ->
  tree_strict an_addr avl_comp_netaddr (mpr_add_addr_node_to_set set a off).
Proof.
  intros Hs. unfold mpr_add_addr_node_to_set. destruct (tree_find _ _ _ set); [done|].
  destruct (tree_insert _ _ _ set) as [l'|] eqn:E; [|done]. by eapply (tree_insert_strict an_addr avl_comp_netaddr).
Qed.

(** The addresses of the set are exactly the ones that were added. *)
Lemma add_addr_elem set a off b :
  b ∈ an_addr <$> mpr_add_addr_node_to_set set a off <-> b = a \/ b ∈ an_addr <$> set.
Proof.
  unfold mpr_add_addr_node_to_set. destruct (tree_find _ _ _ set) as [y|] eqn:Ef.
  - apply tree_find_sound in Ef as [Hy Hk]. apply netaddr_cmp_eq in Hk as ->.
    split; [by right|]. intros [->|?]; [|done]. apply list_elem_of_fmap. by exists y.
  - match goal with |- context [tree_insert _ _ ?x _] => destruct (tree_insert_new an_addr avl_comp_netaddr x set Ef) as (l' & -> & Hp) end.
    simpl. rewrite Hp. rewrite fmap_cons, elem_of_cons. done.
Qed.

Lemma strict_nodup_addrs set : tree_strict an_addr avl_comp_netaddr set -> NoDup (an_addr <$> set).
Proof.
  induction set as [|y set IH]; intros Hs; [constructor|]. apply StronglySorted_inv in Hs as [Hs Hy].
  rewrite fmap_cons. constructor; [|by apply IH]. intros (z & E & Hz)%list_elem_of_fmap.
  rewrite Forall_forall in Hy. specialize (Hy z Hz). unfold key_lt in Hy. rewrite E in Hy.
  assert (avl_comp_netaddr (an_addr z) (an_addr z) = 0) by (by apply netaddr_cmp_eq). lia.
Qed.
End sets.

(** ** The selection is correct *)

Section correctness.
Context `{I : neighbor_graph_interface}.

(** The two sets of a graph with their offsets. *)
Context (N1 : list n1_node) (N2 : list addr_node).
Notation n1 := (Z.of_nat (length N1)).
Notation n2 := (Z.of_nat (length N2)).
Context (Hsize : n1 * n2 < 2 ^ 32).
Context (Hs1 : tree_strict n1_addr avl_comp_netaddr N1) (Hs2 : tree_strict an_addr avl_comp_netaddr N2).
Context (Hoff1 : forall i x, N1 !! i = Some x -> n1_offset x = Z.of_nat i).
Context (Hoff2 : forall j y, N2 !! j = Some y -> an_offset y = Z.of_nat j * n1).
Context (Haddr : forall x, x ∈ N1 -> n1_addr x = originator_of (n1_neigh x)).

(** The costs of the graph. *)
Context (c1 : n1_node -> Z) (c2 : n1_node -> netaddr -> Z) (d1 : netaddr -> Z) (will : n1_node -> Z).
Context (Hc1 : forall x, x ∈ N1 -> calculate_d1_x x = Def (c1 x) /\ 0 <= c1 x).
Context (Hc2 : forall x a, x ∈ N1 -> calculate_d2_x_y x a = Def (c2 x a) /\ 0 <= c2 x a).
Context (Hd1 : forall a, calculate_d1_x_of_n2_addr N1 a = Def (d1 a)).
Context (Hwill : forall x, x ∈ N1 -> get_willingness_n1 x = Def (will x)).

(** The cost of the path over [x], not cached. *)
Definition d_x_y (x : n1_node) (a : netaddr) : Z :=
  if (RFC7181_METRIC_MAX <? c1 x) || (RFC7181_METRIC_MAX <? c2 x a) then RFC7181_METRIC_INFINITE_PATH else c1 x + c2 x a.

Definition minimal (s : list n1_node) (a : netaddr) (m : Z) : Z := foldl (fun m x => if d_x_y x a <? m then d_x_y x a else m) m s.
Definition min_cost (a : netaddr) : Z := minimal N1 a RFC7181_METRIC_INFINITE_PATH.

(** A node of N2 or N: which address, where in the cache. *)
Definition y_at (y : addr_node) : Prop := exists y2, y2 ∈ N2 /\ an_addr y = an_addr y2 /\ an_offset y = an_offset y2.

Record graph_ok (g : neighbor_graph) : Prop := {
  go_n1 : set_n1 g = N1;
  go_n2 : set_n2 g = N2;
  go_cache : length (d_x_y_cache g) = (length N1 * length N2)%nat;
  go_cached x y c : x ∈ N1 -> y ∈ N2 -> d_x_y_cache g !! Z.to_nat (n1_offset x + an_offset y) = Some c ->
    c = 0 \/ c = d_x_y x (an_addr y);
  go_n : Forall (fun y => y_at y /\ (min_d_z_y y = 0 \/ min_d_z_y y = min_cost (an_addr y))) (set_n g);
  go_count : (length (set_n g) <= length N2)%nat;
}.

(** Everything but caches. *)
Definition visible (g : neighbor_graph) := (an_addr <$> set_n g, set_mpr g, set_mpr_candidates g, selection_is_mpr g).

(** A computation that only fills caches. *)
Definition computes {A} (g : neighbor_graph) (v : A) (o : outcome (A * neighbor_graph)) : Prop :=
  exists g', o = Def (v, g') /\ graph_ok g' /\ visible g' = visible g /\ length (set_n g') = length (set_n g).

Lemma computes_ret {A} g (v : A) : graph_ok g -> computes g v (Def (v, g)).
Proof. intros. by exists g. Qed.

Lemma computes_bind {A B} g (v : A) (w : B) o k : computes g v o ->
  (forall g', graph_ok g' -> visible g' = visible g -> length (set_n g') = length (set_n g) -> computes g' w (k (v, g'))) ->
  computes g w (o ≫= k).
Proof.
  intros (g1 & -> & H1 & H2 & H3) Hk. simpl. destruct (Hk g1 H1 H2 H3) as (g2 & -> & ? & ? & ?).
  exists g2. split; [done|]. split; [done|]. split; congruence.
Qed.

Lemma d_x_y_range x a : x ∈ N1 -> 0 <= d_x_y x a < 2 ^ 32.
Proof.
  intros Hx. destruct (Hc1 x Hx) as [_ H1]. destruct (Hc2 x a Hx) as [_ H2]. unfold d_x_y.
  destruct (Z.ltb_spec RFC7181_METRIC_MAX (c1 x)), (Z.ltb_spec RFC7181_METRIC_MAX (c2 x a)); simpl;
    unfold RFC7181_METRIC_INFINITE_PATH, RFC7181_METRIC_MAX in *; lia.
Qed.

(** Positions in the cache. *)
Lemma offsets x y : x ∈ N1 -> y ∈ N2 -> exists i j, N1 !! i = Some x /\ N2 !! j = Some y /\
  n1_offset x + an_offset y = Z.of_nat (i + j * length N1) /\ (i < length N1)%nat /\
  (i + j * length N1 < length N1 * length N2)%nat.
Proof.
  intros [i Hi]%list_elem_of_lookup [j Hj]%list_elem_of_lookup. exists i, j.
  rewrite (Hoff1 _ _ Hi), (Hoff2 _ _ Hj). apply lookup_lt_Some in Hi as ?, Hj as ?. split_and!; try done; [lia|nia].
Qed.

Lemma offset_inj x y x' y' : x ∈ N1 -> y ∈ N2 -> x' ∈ N1 -> y' ∈ N2 ->
  n1_offset x + an_offset y = n1_offset x' + an_offset y' -> x = x' /\ y = y'.
Proof.
  intros Hx Hy Hx' Hy' E. destruct (offsets x y Hx Hy) as (i & j & Hi & Hj & E1 & L1 & _).
  destruct (offsets x' y' Hx' Hy') as (i' & j' & Hi' & Hj' & E2 & L2 & _).
  assert (i + j * length N1 = i' + j' * length N1)%nat as E3 by lia.
  assert (j = j') as -> by nia. assert (i = i') as -> by lia. split; congruence.
Qed.

(** The cache is transparent. *)
Lemma calculate_d_x_y_ok x y g : graph_ok g -> x ∈ N1 -> y_at y -> computes g (d_x_y x (an_addr y)) (_calculate_d_x_y x y g).
Proof.
  intros [H1 H2 H3 H4 H5 H6] Hx (y2 & Hy & Ea & Eo). unfold _calculate_d_x_y. rewrite Eo.
  destruct (offsets x y2 Hx Hy) as (i & j & _ & _ & Eidx & _ & Hlt). cbv zeta.
  assert (u32 (n1_offset x + an_offset y2) = n1_offset x + an_offset y2) as -> by (apply u32_small; nia).
  destruct (rd_inside (d_x_y_cache g) (n1_offset x + an_offset y2)) as (c & -> & Hc); [unfold blen; lia|]. simpl.
  destruct (Hc1 x Hx) as [-> Hn1]. destruct (Hc2 x (an_addr y) Hx) as [-> Hn2]. simpl.
  destruct (Z.eqb_spec c 0) as [->|Hne].
  - assert ((if (RFC7181_METRIC_MAX <? c1 x) || (RFC7181_METRIC_MAX <? c2 x (an_addr y))
      then RFC7181_METRIC_INFINITE_PATH else u32 (c1 x + c2 x (an_addr y))) = d_x_y x (an_addr y)) as ->.
    { unfold d_x_y. destruct (Z.ltb_spec RFC7181_METRIC_MAX (c1 x)), (Z.ltb_spec RFC7181_METRIC_MAX (c2 x (an_addr y))); simpl; try done.
      apply u32_small. unfold RFC7181_METRIC_MAX in *. lia. }
    eexists. split; [done|]. split; [|done]. split; simpl; try done.
    + by rewrite length_insert.
    + intros x' y' c' Hx' Hy'. destruct (offsets x' y' Hx' Hy') as (i' & j' & _ & _ & Eidx' & _ & _).
      destruct (decide (n1_offset x + an_offset y2 = n1_offset x' + an_offset y')) as [E|Hneq].
      * destruct (offset_inj _ _ _ _ Hx Hy Hx' Hy' E) as [<- <-]. rewrite list_lookup_insert_eq by lia.
        intros [= <-]. right. by rewrite Ea.
      * rewrite list_lookup_insert_ne by lia. by apply H4.
  - eexists. split; [|done]. destruct (H4 x y2 c Hx Hy Hc) as [|Hcc]; [done|]. by rewrite Hcc, Ea.
Qed.

Lemma cheaper_loop_ok xs y d g : graph_ok g -> (forall x, x ∈ xs -> x ∈ N1) -> y_at y ->
  computes g (existsb (fun x => d_x_y x (an_addr y) <? d) xs) (cheaper_loop xs y d g).
Proof.
  revert g. induction xs as [|x xs IH]; intros g Hg Hxs Hy; simpl; [by apply computes_ret|].
  eapply computes_bind; [apply calculate_d_x_y_ok; [done|apply Hxs; by left|done]|]. intros g' Hg' _ _.
  destruct (_ <? d); simpl; [by apply computes_ret|]. apply IH; [done|intros; apply Hxs; by right|done].
Qed.

Lemma minimal_loop_ok zs y m g : graph_ok g -> (forall x, x ∈ zs -> x ∈ N1) -> y_at y ->
  computes g (minimal zs (an_addr y) m) (minimal_loop zs y m g).
Proof.
  revert m g. induction zs as [|x xs IH]; intros m g Hg Hxs Hy; simpl; [by apply computes_ret|].
  eapply computes_bind; [apply calculate_d_x_y_ok; [done|apply Hxs; by left|done]|]. intros g' Hg' _ _.
  apply IH; [done|intros; apply Hxs; by right|done].
Qed.

Lemma minimal_ok k y y0 g : graph_ok g -> y_at y -> min_d_z_y y = 0 \/ min_d_z_y y = min_cost (an_addr y) ->
  set_n g !! k = Some y0 -> an_addr y0 = an_addr y ->
  computes g (min_cost (an_addr y)) (mpr_calculate_minimal_d_z_y k y g).
Proof.
  intros Hg Hy Hmin Hk Ea. unfold mpr_calculate_minimal_d_z_y. destruct (Z.eqb_spec (min_d_z_y y) 0) as [H0|H0]; simpl.
  - assert (set_n1 g = N1) as -> by apply Hg.
    destruct (minimal_loop_ok N1 y RFC7181_METRIC_INFINITE_PATH g Hg (fun x Hx => Hx) Hy) as (g1 & -> & Hg1 & V & L). simpl.
    eexists. split; [done|]. destruct Hg1 as [A1 A2 A3 A4 A5 A6].
    assert (exists y1, set_n g1 !! k = Some y1 /\ an_addr y1 = an_addr y) as (y1 & Hk1 & Ey1).
    { injection V as V _ _ _. apply (f_equal (fun l => l !! k)) in V. rewrite !list_lookup_fmap, Hk in V. simpl in V.
      destruct (set_n g1 !! k) as [y1|]; [|done]. exists y1. split; [done|]. simpl in V. congruence. }
    split; [split; simpl; try done|split].
    + rewrite Forall_lookup in A5 |- *. intros i z Hz. destruct (decide (i = k)) as [->|].
      * rewrite list_lookup_alter_eq, Hk1 in Hz. injection Hz as <-. destruct (A5 k y1 Hk1) as [(y2 & ? & ? & ?) _].
        split; [by exists y2|]. right. simpl. by rewrite Ey1.
      * rewrite list_lookup_alter_ne in Hz by done. by apply (A5 i).
    + by rewrite length_alter.
    + unfold visible in *. simpl. rewrite <- V. do 3 f_equal. apply list_eq. intros i. rewrite !list_lookup_fmap.
      destruct (decide (i = k)) as [->|]; [|by rewrite list_lookup_alter_ne]. rewrite list_lookup_alter_eq.
      by destruct (set_n g1 !! k).
    + simpl. by rewrite length_alter.
  - destruct Hmin as [|Hmin]; [done|]. rewrite Hmin. by apply computes_ret.
Qed.

(** Covered at minimal cost by a selected node. *)
Definition covered (sel : gset nat) (a : netaddr) : bool :=
  existsb (fun z => (d_x_y z a =? min_cost a) && bool_decide (n1_neigh z ∈ sel)) N1.

Lemma covered_loop_ok zs y m g : graph_ok g -> (forall x, x ∈ zs -> x ∈ N1) -> y_at y ->
  computes g (existsb (fun z => (d_x_y z (an_addr y) =? m) && bool_decide (n1_neigh z ∈ selection_is_mpr g)) zs)
    (covered_loop zs y m g).
Proof.
  intros Hg. remember (selection_is_mpr g) as sel eqn:Hsel. symmetry in Hsel. revert g Hg Hsel.
  induction zs as [|x xs IH]; intros g Hg Hsel Hxs Hy; simpl; [by apply computes_ret|].
  eapply computes_bind; [apply calculate_d_x_y_ok; [done|apply Hxs; by left|done]|]. intros g' Hg' V _.
  assert (selection_is_mpr g' = sel) as Hsel' by (injection V; congruence). rewrite Hsel'.
  destruct (_ && _); simpl; [by apply computes_ret|]. apply IH; [done|done|intros; apply Hxs; by right|done].
Qed.

(** ** R(x, M) *)

Definition addrs (g : neighbor_graph) : list netaddr := an_addr <$> set_n g.

(** [y] counts for [x]: [x] is a best node for it, and no best node is selected. *)
Definition counts (sel : gset nat) (x : n1_node) (a : netaddr) : bool :=
  negb (min_cost a <? d_x_y x a) && negb (covered sel a).
Definition count (sel : gset nat) (x : n1_node) (l : list netaddr) : Z := Z.of_nat (length (filter (fun a => counts sel x a = true) l)).
Definition R (sel : gset nat) (l : list netaddr) (x : n1_node) : Z :=
  if bool_decide (n1_neigh x ∈ sel) then 0 else count sel x l.

Lemma count_cons sel x a l : count sel x (a :: l) = (if counts sel x a then 1 else 0) + count sel x l.
Proof. unfold count. rewrite filter_cons. destruct (counts sel x a); simpl; lia. Qed.

Lemma count_range sel x l : 0 <= count sel x l <= Z.of_nat (length l).
Proof. unfold count. pose proof (length_filter (fun a => counts sel x a = true) l). lia. Qed.

Lemma visible_same g g' : visible g' = visible g -> addrs g' = addrs g /\ set_mpr g' = set_mpr g /\
  set_mpr_candidates g' = set_mpr_candidates g /\ selection_is_mpr g' = selection_is_mpr g.
Proof. unfold visible, addrs. by intros [= -> -> -> ->]. Qed.

Lemma visible_lookup g g' k y : visible g' = visible g -> set_n g !! k = Some y ->
  exists y', set_n g' !! k = Some y' /\ an_addr y' = an_addr y.
Proof.
  intros V Hy. destruct (visible_same _ _ V) as (Ea & _). unfold addrs in Ea. apply (f_equal (fun l => l !! k)) in Ea.
  rewrite !list_lookup_fmap, Hy in Ea. simpl in Ea. destruct (set_n g' !! k) as [y'|]; [|done]. exists y'.
  split; [done|]. simpl in Ea. congruence.
Qed.

Lemma r_loop_ok n k x r g : graph_ok g -> x ∈ N1 -> (k + n = length (set_n g))%nat -> 0 <= r <= Z.of_nat k ->
  computes g (r + count (selection_is_mpr g) x (skipn k (addrs g))) (r_loop (seq k n) x r g).
Proof.
  revert k r g. induction n as [|n IH]; intros k r g Hg Hx Hkn Hr; simpl.
  { rewrite skipn_all2 by (unfold addrs; rewrite length_fmap; lia). rewrite Z.add_0_r. by apply computes_ret. }
  destruct (lookup_lt_is_Some_2 (set_n g) k) as [y Hy]; [lia|]. rewrite Hy.
  pose proof (Forall_lookup_1 _ _ _ _ (go_n _ Hg) Hy) as [Hya _].
  assert (addrs g !! k = Some (an_addr y)) as Ha by (unfold addrs; by rewrite list_lookup_fmap, Hy).
  rewrite (drop_S _ _ _ Ha), count_cons. set (c := count _ _ (skipn (S k) _)).
  assert (0 <= r + 1 < 2 ^ 32) as Hr32.
  { pose proof (go_count _ Hg). apply list_elem_of_lookup in Hx as [i Hi]. apply lookup_lt_Some in Hi. nia. }
  pose proof (Forall_lookup_1 _ _ _ _ (go_n _ Hg) Hy) as [_ Hmin].
  eapply computes_bind; [by apply calculate_d_x_y_ok|]. intros g1 H1 V1 L1.
  destruct (visible_lookup g g1 k y V1 Hy) as (y1 & Hy1 & Ey1).
  eapply computes_bind; [by eapply minimal_ok|]. intros g2 H2 V2 L2.
  assert (visible g2 = visible g) as V02 by congruence. destruct (visible_same _ _ V02) as (Ea2 & _ & _ & Es2).
  unfold counts. destruct (min_cost (an_addr y) <? d_x_y x (an_addr y)); simpl.
  - unfold c. rewrite <- Ea2, <- Es2. apply IH; [done|done|lia|lia].
  - assert (set_n1 g2 = N1) as -> by apply H2.
    eapply computes_bind; [by apply covered_loop_ok|]. intros g3 H3 V3 L3.
    assert (visible g3 = visible g) as V03 by congruence. destruct (visible_same _ _ V03) as (Ea3 & _ & _ & Es3).
    fold (covered (selection_is_mpr g2) (an_addr y)). rewrite Es2.
    unfold c. rewrite <- Ea3, <- Es3. destruct (covered _ _); simpl.
    + apply IH; [done|done|lia|lia].
    + rewrite u32_small by lia. rewrite Z.add_assoc. apply IH; [done|done|lia|lia].
Qed.

Lemma calculate_r_ok x g : graph_ok g -> x ∈ N1 -> computes g (R (selection_is_mpr g) (addrs g) x) (_calculate_r x g).
Proof.
  intros Hg Hx. unfold _calculate_r, R. destruct (bool_decide _); [by apply computes_ret|].
  pose proof (r_loop_ok (length (set_n g)) 0 x 0 g Hg Hx ltac:(lia) ltac:(lia)) as H. simpl in H. by rewrite drop_0 in H.
Qed.

(** ** Sets of nodes *)

Notation strict1 := (tree_strict n1_addr avl_comp_netaddr).
Notation add set x := (mpr_add_n1_node_to_set set (n1_neigh x) (n1_link x) (n1_offset x)).

(** The node that is added is the node of N1 itself. *)
Lemma copy_eq x : x ∈ N1 ->
  {| n1_addr := originator_of (n1_neigh x); n1_link := n1_link x; n1_neigh := n1_neigh x; n1_offset := n1_offset x |} = x.
Proof. intros Hx. rewrite <- (Haddr x Hx). by destruct x. Qed.

Lemma key_lt_find x l : x ∈ N1 -> Forall (fun z => key_lt n1_addr avl_comp_netaddr z x) l -> add l x = l ++ [x].
Proof.
  intros Hx Hl. unfold mpr_add_n1_node_to_set. rewrite <- (Haddr x Hx). rewrite tree_find_none.
  - pose proof (copy_eq x Hx) as E. rewrite <- (Haddr x Hx) in E. rewrite E.
    by rewrite (tree_insert_last n1_addr avl_comp_netaddr).
  - eapply Forall_impl; [exact Hl|]. intros z Hz. unfold key_lt in Hz. apply cmp_flip in Hz. unfold avl_comp_netaddr in *. lia.
Qed.

Lemma add_elem l x z : strict1 l -> (forall z, z ∈ l -> z ∈ N1) -> x ∈ N1 -> z ∈ add l x <-> z = x \/ z ∈ l.
Proof.
  intros Hs Hl Hx. unfold mpr_add_n1_node_to_set. rewrite (copy_eq x Hx). rewrite <- (Haddr x Hx).
  destruct (tree_find n1_addr avl_comp_netaddr (n1_addr x) l) as [y|] eqn:E.
  - apply tree_find_sound in E as [Hy Hk]. apply netaddr_cmp_eq in Hk.
    assert (x = y) as <- by (apply (find_in n1_addr N1); auto). split; [auto|]. by intros [->|].
  - destruct (tree_insert_new n1_addr avl_comp_netaddr x l E) as (l' & -> & Hp). simpl. by rewrite Hp, elem_of_cons.
Qed.

Lemma add_strict l x : strict1 l -> x ∈ N1 -> strict1 (add l x).
Proof.
  intros Hs Hx. unfold mpr_add_n1_node_to_set. rewrite (copy_eq x Hx). destruct (tree_find _ _ _ l); [done|].
  destruct (tree_insert n1_addr avl_comp_netaddr x l) as [l'|] eqn:E; [|done]. simpl.
  by eapply (tree_insert_strict n1_addr avl_comp_netaddr).
Qed.

(** Copying a part of N1 in order gives the same list. *)
Lemma foldl_add l pre : strict1 (pre ++ l) -> (forall z, z ∈ l -> z ∈ N1) ->
  foldl (fun set x => add set x) pre l = pre ++ l.
Proof.
  revert pre. induction l as [|x l IH]; intros pre Hs Hl; simpl; [by rewrite app_nil_r|].
  assert (Forall (fun z => key_lt n1_addr avl_comp_netaddr z x) pre) as Hpre.
  { rewrite Forall_lookup. intros i z Hi.
    refine (StronglySorted_lookup_lt _ _ i (length pre) z x Hs _ _ _).
    - by rewrite lookup_app_l by (by eapply lookup_lt_Some).
    - by rewrite lookup_app_r, Nat.sub_diag by lia.
    - by apply lookup_lt_Some in Hi. }
  rewrite (key_lt_find x pre) by (first [done|apply Hl; by left]).
  rewrite IH.
  - by rewrite <- app_assoc.
  - by rewrite <- app_assoc.
  - intros z Hz. apply Hl. by right.
Qed.

(** ** The greedy step *)

(** The candidates: all nodes with the greatest R, if that is positive. *)
Definition best (f : n1_node -> Z) (l cs : list n1_node) (greatest : option Z) : Prop :=
  match greatest with
  | None => cs = [] /\ Forall (fun x => f x <= 0) l
  | Some q => 0 < q /\ cs = filter (fun x => f x = q) l /\ Forall (fun x => f x <= q) l /\ cs <> []
  end.

Lemma greatest_loop_ok xs pre greatest tmp g : graph_ok g -> pre ++ xs = N1 ->
  best (R (selection_is_mpr g) (addrs g)) pre tmp greatest ->
  exists cs q, computes g cs (greatest_loop xs greatest tmp g) /\ best (R (selection_is_mpr g) (addrs g)) N1 cs q.
Proof.
  intros Hg. remember (R (selection_is_mpr g) (addrs g)) as f eqn:Ef. revert pre greatest tmp g Hg Ef.
  induction xs as [|x xs IH]; intros pre greatest tmp g Hg Ef Hpre Hb; simpl.
  { rewrite app_nil_r in Hpre. subst pre. exists tmp, greatest. split; [by apply computes_ret|done]. }
  assert (x ∈ N1) as Hx by (rewrite <- Hpre; apply elem_of_app; right; by left).
  assert (Forall (fun z => key_lt n1_addr avl_comp_netaddr z x) pre) as Hlt.
  { rewrite Forall_lookup. intros i z Hi. refine (StronglySorted_lookup_lt _ N1 i (length pre) z x Hs1 _ _ _).
    - rewrite <- Hpre, lookup_app_l; [done|by eapply lookup_lt_Some].
    - by rewrite <- Hpre, lookup_app_r, Nat.sub_diag by lia.
    - by apply lookup_lt_Some in Hi. }
  destruct (calculate_r_ok x g Hg Hx) as (g1 & E1 & Hg1 & V1 & L1). rewrite E1. simpl.
  destruct (visible_same _ _ V1) as (Ea & _ & _ & Es).
  rewrite <- Ef. assert (f = R (selection_is_mpr g1) (addrs g1)) as Ef1 by (by rewrite Ea, Es).
  assert (forall gr tmp', best f (pre ++ [x]) tmp' gr ->
    exists cs q, computes g cs (greatest_loop xs gr tmp' g1) /\ best f N1 cs q) as Hgo.
  { intros gr tmp' Hb'. destruct (IH (pre ++ [x]) gr tmp' g1 Hg1 Ef1) as (cs & q & (g2 & E2 & H2 & V2 & L2) & Hcs);
      [by rewrite <- app_assoc|done|]. exists cs, q. split; [|done]. exists g2. split; [done|]. split; [done|].
    split; congruence. }
  rewrite (key_lt_find x []) by (done || constructor). simpl.
  destruct (Z.ltb_spec 0 (f x)) as [Hpos|Hneg].
  - destruct greatest as [q|].
    + destruct Hb as (Hq & -> & Hle & Hne).
      destruct (Z.ltb_spec q (f x)) as [Hgt|Hnle]; [|destruct (Z.eqb_spec (f x) q) as [Heq|Hlt']].
      * apply Hgo. split; [done|]. rewrite filter_app, filter_cons_True by done. split.
        { rewrite (filter_none pre); [done|]. eapply Forall_impl; [exact Hle|]. simpl. lia. }
        split; [|done]. apply Forall_app. split; [eapply Forall_impl; [exact Hle|]; simpl; lia|by constructor].
      * apply Hgo. rewrite (key_lt_find x); [|done|].
        { split; [done|]. rewrite filter_app, filter_cons_True by done. split; [done|].
          split; [|by intros [_ ?]%app_eq_nil]. apply Forall_app. split; [done|]. constructor; [lia|done]. }
        rewrite Forall_forall in Hlt |- *. intros z [_ Hz]%list_elem_of_filter. by apply Hlt.
      * apply Hgo. split; [done|]. rewrite filter_app, filter_cons_False by done. rewrite app_nil_r.
        split; [done|]. split; [|done]. apply Forall_app. split; [done|]. constructor; [lia|done].
    + destruct Hb as [-> Hle]. apply Hgo. split; [done|]. rewrite filter_app, filter_cons_True by done. split.
      { rewrite (filter_none pre); [done|]. eapply Forall_impl; [exact Hle|]. simpl. lia. }
      split; [|done]. apply Forall_app. split; [eapply Forall_impl; [exact Hle|]; simpl; lia|by constructor].
  - apply Hgo. destruct greatest as [q|].
    + destruct Hb as (Hq & -> & Hle & Hne). split; [done|]. rewrite filter_app, filter_cons_False by lia. rewrite app_nil_r.
      split; [done|]. split; [|done]. apply Forall_app. split; [done|]. constructor; [lia|done].
    + destruct Hb as [-> Hle]. split; [done|]. apply Forall_app. split; [done|]. by constructor.
Qed.

Lemma best_sub f cs q : best f N1 cs q -> strict1 cs /\ (forall z, z ∈ cs -> z ∈ N1 /\ 0 < f z).
Proof.
  destruct q as [q|].
  - intros (Hq & -> & _ & _). split; [by apply tree_strict_filter|]. intros z [-> Hz]%list_elem_of_filter. done.
  - intros [-> _]. split; [constructor|]. by intros z ?%elem_of_nil.
Qed.

(** [_select_greatest_by_property] *)
Lemma select_greatest_ok g : graph_ok g ->
  exists cs q g', _select_greatest_by_property g = Def g' /\ graph_ok g' /\
    best (R (selection_is_mpr g) (addrs g)) N1 cs q /\ set_mpr_candidates g' = cs /\
    addrs g' = addrs g /\ set_mpr g' = set_mpr g /\ selection_is_mpr g' = selection_is_mpr g.
Proof.
  intros Hg. unfold _select_greatest_by_property. assert (set_n1 g = N1) as -> by apply Hg.
  destruct (greatest_loop_ok N1 [] None [] g Hg eq_refl) as (cs & q & (g1 & -> & H1 & V1 & _) & Hb); [by split|]. simpl.
  destruct (best_sub _ _ _ Hb) as [Hs Hsub]. destruct (visible_same _ _ V1) as (E1 & E2 & _ & E4).
  rewrite (foldl_add cs []) by (first [done|intros z Hz; by apply Hsub]). simpl.
  eexists cs, q, _. split; [done|]. split; [destruct H1; by split|]. done.
Qed.

(** ** The MPR set *)

(** The MPR set is a part of N1 and holds every selected neighbor. *)
Record mpr_ok (g : neighbor_graph) : Prop := {
  mo_graph : graph_ok g;
  mo_strict : strict1 (set_mpr g);
  mo_sub x : x ∈ set_mpr g -> x ∈ N1;
  mo_selected x : x ∈ N1 -> n1_neigh x ∈ selection_is_mpr g -> x ∈ set_mpr g;
}.

Lemma add_mpr_ok g x : mpr_ok g -> x ∈ N1 ->
  mpr_ok (with_mpr (add (set_mpr g) x) g) /\ forall z, z ∈ add (set_mpr g) x <-> z = x \/ z ∈ set_mpr g.
Proof.
  intros [[H1 H2 H3 H4 H5 H6] Hs Hsub Hsel] Hx.
  assert (forall z, z ∈ add (set_mpr g) x <-> z = x \/ z ∈ set_mpr g) as Hin by (intros z; by apply add_elem).
  split; [|done]. split; [by split|by apply add_strict| |].
  - simpl. intros z [->|Hz]%Hin; auto.
  - simpl. intros z Hz Hn. apply Hin. auto.
Qed.

Lemma select_mpr_ok g x : mpr_ok g -> x ∈ N1 ->
  mpr_ok (select_mpr x g) /\ x ∈ set_mpr (select_mpr x g) /\ (forall z, z ∈ set_mpr g -> z ∈ set_mpr (select_mpr x g)).
Proof.
  intros Hg Hx. destruct (add_mpr_ok g x Hg Hx) as [[[H1 H2 H3 H4 H5 H6] Hs Hsub Hsel] Hin]. unfold select_mpr. simpl in *.
  split; [split|].
  - by split.
  - done.
  - done.
  - simpl. intros z Hz. rewrite elem_of_union, elem_of_singleton. intros [Hn|Hn]; [|by apply Hsel].
    apply Hin. left. apply (find_in n1_addr N1); [done|done|done|]. rewrite !Haddr by done. by rewrite Hn.
  - split; [apply Hin; by left|]. intros z Hz. apply Hin. by right.
Qed.

Definition unselected (s : gset nat) : nat := length (filter (fun x => n1_neigh x ∉ s) N1).

Lemma unselected_lt s x : x ∈ N1 -> n1_neigh x ∉ s -> (unselected ({[n1_neigh x]} ∪ s) < unselected s)%nat.
Proof.
  intros Hx Hn. unfold unselected. apply list_elem_of_split in Hx as (l1 & l2 & ->).
  rewrite !filter_app, !filter_cons. rewrite (decide_False (P := n1_neigh x ∉ {[n1_neigh x]} ∪ s)) by set_solver.
  rewrite (decide_True (P := n1_neigh x ∉ s)) by done. rewrite !length_app. simpl.
  assert (forall l : list n1_node, length (filter (fun z => n1_neigh z ∉ {[n1_neigh x]} ∪ s) l) <=
    length (filter (fun z => n1_neigh z ∉ s) l))%nat as Hle.
  { induction l as [|z l IH]; [done|]. rewrite !filter_cons.
    destruct (decide (n1_neigh z ∉ {[n1_neigh x]} ∪ s)), (decide (n1_neigh z ∉ s)); simpl; try lia. set_solver. }
  pose proof (Hle l1). pose proof (Hle l2). lia.
Qed.

Lemma R_selected s l x : n1_neigh x ∈ s -> R s l x = 0.
Proof. intros H. unfold R. by rewrite bool_decide_true. Qed.

(** [_process_remaining]: terminates when nothing is left to cover. *)
Lemma remaining_loop_ok fuel g : mpr_ok g -> (unselected (selection_is_mpr g) <= fuel)%nat ->
  exists g', remaining_loop fuel g = Def g' /\ mpr_ok g' /\ addrs g' = addrs g /\
    (forall z, z ∈ set_mpr g -> z ∈ set_mpr g') /\ forall x, x ∈ N1 -> R (selection_is_mpr g') (addrs g) x <= 0.
Proof.
  revert g. induction fuel as [|fuel IH]; intros g Hm Hf; simpl;
    destruct (select_greatest_ok g (mo_graph _ Hm)) as (cs & q & g1 & -> & Hg1 & Hb & Ec & Ea & Em & Es); simpl; rewrite Ec;
    assert (mpr_ok g1) as Hm1 by (destruct Hm; split; [done|congruence|by rewrite Em|by rewrite Em, Es]);
    destruct (best_sub _ _ _ Hb) as [Hs Hsub];
    (destruct cs as [|x rest];
      [exists g1; split; [done|]; split; [done|]; split; [done|]; split; [by rewrite Em|]; intros z Hz; rewrite Es;
       destruct q as [q|]; [by destruct Hb as (_ & _ & _ & ?)|destruct Hb as [_ Hle]; rewrite Forall_forall in Hle; by apply Hle]|]).
  - exfalso. destruct (Hsub x) as [Hx HR]; [by left|].
    assert (n1_neigh x ∉ selection_is_mpr g) as Hn by (intros Hn; rewrite (R_selected _ _ _ Hn) in HR; lia).
    pose proof (unselected_lt _ x Hx Hn). lia.
  - destruct (Hsub x) as [Hx HR]; [by left|].
    assert (n1_neigh x ∉ selection_is_mpr g) as Hn by (intros Hn; rewrite (R_selected _ _ _ Hn) in HR; lia).
    pose proof (unselected_lt _ x Hx Hn).
    destruct (select_mpr_ok g1 x Hm1 Hx) as (Hm2 & _ & Hin).
    destruct (IH (with_candidates rest (select_mpr x g1))) as (g' & E & Hm' & Ea' & Hin' & HR').
    + destruct Hm2 as [[? ? ? ? ? ?] ? ? ?]. by split.
    + simpl. rewrite Es. lia.
    + exists g'. split; [exact E|]. split; [done|].
      assert (addrs (with_candidates rest (select_mpr x g1)) = addrs g) as Ea2 by done. rewrite Ea2 in Ea', HR'.
      split; [done|]. split; [|done]. intros z Hz. apply Hin'. simpl. apply Hin. by rewrite Em.
Qed.

(** ** Paths of minimal cost *)

Lemma minimal_spec s a m : minimal s a m <= m /\ (forall x, x ∈ s -> minimal s a m <= d_x_y x a) /\
  (minimal s a m = m \/ exists x, x ∈ s /\ d_x_y x a = minimal s a m).
Proof.
  revert m. induction s as [|x s IH]; intros m; simpl.
  { split; [lia|]. split; [by intros x ?%elem_of_nil|by left]. }
  destruct (IH (if d_x_y x a <? m then d_x_y x a else m)) as (I1 & I2 & I3).
  destruct (Z.ltb_spec (d_x_y x a) m).
  - split; [lia|]. split; [intros z [->|Hz]%elem_of_cons; [lia|by apply I2]|]. right.
    destruct I3 as [->|(z & Hz & E)]; [by exists x; split; [left|]|exists z; split; [by right|done]].
  - split; [done|]. split; [intros z [->|Hz]%elem_of_cons; [lia|by apply I2]|].
    destruct I3 as [->|(z & Hz & E)]; [by left|right; exists z; split; [by right|done]].
Qed.

Lemma d_x_y_max x a : x ∈ N1 -> d_x_y x a <= RFC7181_METRIC_INFINITE_PATH.
Proof.
  intros Hx. destruct (Hc1 x Hx), (Hc2 x a Hx). unfold d_x_y.
  destruct (Z.ltb_spec RFC7181_METRIC_MAX (c1 x)), (Z.ltb_spec RFC7181_METRIC_MAX (c2 x a)); simpl;
    unfold RFC7181_METRIC_INFINITE_PATH, RFC7181_METRIC_MAX in *; lia.
Qed.

(** Somebody reaches the minimum. *)
Lemma min_cost_reached a : N1 <> [] -> exists x, x ∈ N1 /\ d_x_y x a = min_cost a.
Proof.
  intros Hne. unfold min_cost. destruct (minimal_spec N1 a RFC7181_METRIC_INFINITE_PATH) as (H1 & H2 & [H3|?]); [|done].
  assert (exists x, x ∈ N1) as [x Hx].
  { destruct (N1 !! 0%nat) as [x|] eqn:E; [exists x; by apply list_elem_of_lookup_2 in E|].
    exfalso. apply Hne. apply nil_length_inv. apply lookup_ge_None_1 in E. lia. }
  exists x. split; [done|]. specialize (H2 x Hx). pose proof (d_x_y_max x a Hx). lia.
Qed.

(** Nothing left to cover means that all of N is covered at minimal cost. *)
Lemma all_covered g l a : mpr_ok g -> N1 <> [] -> a ∈ l -> (forall x, x ∈ N1 -> R (selection_is_mpr g) l x <= 0) ->
  exists z, z ∈ set_mpr g /\ d_x_y z a = min_cost a.
Proof.
  intros Hm Hne Ha HR. destruct (min_cost_reached a Hne) as (x & Hx & Ex). specialize (HR x Hx). unfold R in HR.
  case_bool_decide as Hsel; [by exists x; split; [by apply (mo_selected _ Hm)|]|].
  assert (counts (selection_is_mpr g) x a = false) as Hc.
  { destruct (counts _ x a) eqn:E; [|done]. exfalso. unfold count in HR.
    assert (a ∈ filter (fun a => counts (selection_is_mpr g) x a = true) l) as Hin by (by apply list_elem_of_filter).
    destruct (filter _ l); [by apply elem_of_nil in Hin|]. simpl in HR. lia. }
  unfold counts in Hc. rewrite Ex in Hc. destruct (Z.ltb_spec (min_cost a) (min_cost a)); [lia|]. simpl in Hc.
  apply negb_false_iff in Hc. unfold covered in Hc. apply existsb_exists in Hc as (z & Hz & Hzc).
  apply list_elem_of_In in Hz. apply andb_true_iff in Hzc as [E%Z.eqb_eq Hs%bool_decide_eq_true].
  exists z. split; [by apply (mo_selected _ Hm)|done].
Qed.
(** ** The addresses to cover *)

(** [_calculate_n] keeps an address that has no usable direct link, or a
    cheaper path over a neighbor. *)
Definition needs (a : netaddr) : bool :=
  (d1 a =? RFC7181_METRIC_INFINITE) || existsb (fun x => d_x_y x a <? d1 a) N1.

Lemma add_addr_last set y : Forall (fun z => key_lt an_addr avl_comp_netaddr z y) set ->
  mpr_add_addr_node_to_set set (an_addr y) (an_offset y) = set ++ [set_min 0 y].
Proof.
  intros H. unfold mpr_add_addr_node_to_set. rewrite tree_find_none.
  - by rewrite (tree_insert_last an_addr avl_comp_netaddr).
  - eapply Forall_impl; [exact H|]. intros z Hz. unfold key_lt in Hz. apply cmp_flip in Hz. unfold avl_comp_netaddr in *. lia.
Qed.

Definition others (g : neighbor_graph) := (set_mpr g, set_mpr_candidates g, selection_is_mpr g).

Lemma needs_ok y g : graph_ok g -> y ∈ N2 ->
  computes g (needs (an_addr y)) (d1_y ← calculate_d1_x_of_n2_addr (set_n1 g) (an_addr y);
    if d1_y =? RFC7181_METRIC_INFINITE then Def (true, g) else cheaper_loop (set_n1 g) y d1_y g).
Proof.
  intros Hg Hy. assert (set_n1 g = N1) as -> by apply Hg. rewrite Hd1. simpl. unfold needs.
  destruct (_ =? _); simpl; [by apply computes_ret|]. apply cheaper_loop_ok; [done|done|by exists y].
Qed.

Lemma add_to_n_ok pre y rest g : graph_ok g -> pre ++ y :: rest = N2 ->
  addrs g = an_addr <$> filter (fun y => needs (an_addr y) = true) pre ->
  graph_ok (with_n (mpr_add_addr_node_to_set (set_n g) (an_addr y) (an_offset y)) g) /\
  an_addr <$> mpr_add_addr_node_to_set (set_n g) (an_addr y) (an_offset y) = addrs g ++ [an_addr y].
Proof.
  intros Hg Hpre Ha. assert (y ∈ N2) as Hy by (rewrite <- Hpre; apply elem_of_app; right; by left).
  assert (Forall (fun z => key_lt an_addr avl_comp_netaddr z y) (set_n g)) as Hlt.
  { rewrite Forall_forall. intros z Hz. assert (an_addr z ∈ addrs g) as Hza by (unfold addrs; apply list_elem_of_fmap; by exists z).
    rewrite Ha in Hza. apply list_elem_of_fmap in Hza as (z' & E & [_ Hz']%list_elem_of_filter). unfold key_lt. rewrite E.
    apply list_elem_of_lookup in Hz' as [i Hi]. apply lookup_lt_Some in Hi as Hl.
    refine (StronglySorted_lookup_lt _ N2 i (length pre) z' y Hs2 _ _ Hl).
    - rewrite <- Hpre, lookup_app_l; [done|lia].
    - by rewrite <- Hpre, lookup_app_r, Nat.sub_diag by lia. }
  rewrite (add_addr_last _ _ Hlt). rewrite fmap_app. split; [|done].
  assert (length (set_n g) <= length pre)%nat.
  { rewrite <- (length_fmap an_addr (set_n g)). fold (addrs g). rewrite Ha, length_fmap. apply length_filter. }
  destruct Hg as [H1 H2 H3 H4 H5 H6]. split; simpl; try done.
  - apply Forall_app. split; [done|]. constructor; [|done]. split; [by exists y|by left].
  - rewrite <- Hpre, !length_app. simpl. lia.
Qed.

Lemma calculate_n_loop_ok ys pre g : graph_ok g -> pre ++ ys = N2 ->
  addrs g = an_addr <$> filter (fun y => needs (an_addr y) = true) pre ->
  exists g', calculate_n_loop ys g = Def g' /\ graph_ok g' /\ others g' = others g /\
    addrs g' = an_addr <$> filter (fun y => needs (an_addr y) = true) N2.
Proof.
  revert pre g. induction ys as [|y ys IH]; intros pre g Hg Hpre Ha; simpl.
  { rewrite app_nil_r in Hpre. subst pre. by exists g. }
  assert (y ∈ N2) as Hy by (rewrite <- Hpre; apply elem_of_app; right; by left).
  destruct (needs_ok y g Hg Hy) as (g1 & E1 & H1 & V1 & _).
  destruct (calculate_d1_x_of_n2_addr (set_n1 g) (an_addr y)) as [d|]; [|done]. simpl in E1 |- *. rewrite E1. simpl.
  destruct (visible_same _ _ V1) as (Ea & Em & Ec & Es).
  assert (addrs g1 = an_addr <$> filter (fun y => needs (an_addr y) = true) pre) as Ha1 by congruence.
  destruct (needs (an_addr y)) eqn:En.
  - destruct (add_to_n_ok pre y ys g1 H1 Hpre Ha1) as [H2 E2].
    destruct (IH (pre ++ [y]) _ H2) as (g' & E & Hg' & Ho & Hf).
    + by rewrite <- app_assoc.
    + unfold addrs at 1. simpl. rewrite E2, Ha1, filter_app, filter_cons_True by done. by rewrite fmap_app.
    + exists g'. split; [exact E|]. split; [done|]. split; [|done]. rewrite Ho. unfold others. simpl. congruence.
  - destruct (IH (pre ++ [y]) g1 H1) as (g' & E & Hg' & Ho & Hf).
    + by rewrite <- app_assoc.
    + rewrite Ha1, filter_app, filter_cons_False by (by rewrite En). by rewrite app_nil_r.
    + exists g'. split; [exact E|]. split; [done|]. split; [|done]. rewrite Ho. unfold others. congruence.
Qed.

Lemma calculate_n_ok g : graph_ok g -> set_n g = [] ->
  exists g', _calculate_n g = Def g' /\ graph_ok g' /\ others g' = others g /\
    addrs g' = an_addr <$> filter (fun y => needs (an_addr y) = true) N2.
Proof.
  intros Hg Hn. unfold _calculate_n. assert (set_n2 g = N2) as -> by apply Hg.
  apply (calculate_n_loop_ok N2 []); [done|done|]. unfold addrs. by rewrite Hn.
Qed.
(** ** The laws of a kind of graph that the selection relies on *)

Context (Halways : forall x, x ∈ N1 -> will x = RFC7181_WILLINGNESS_ALWAYS ->
  exists l, n1_link x = Some l /\ neigh_of_link l = n1_neigh x).
Context (Hmax : forall x, x ∈ N1 -> c1 x <= RFC7181_METRIC_MAX).
Context (Hreach : forall y, y ∈ N2 -> exists x, x ∈ N1 /\ c2 x (an_addr y) <= RFC7181_METRIC_MAX).
Context (Hdirect : forall a, d1 a = RFC7181_METRIC_INFINITE \/ 0 <= d1 a <= RFC7181_METRIC_MAX).

(** [_process_will_always] *)
Lemma will_always_loop_ok xs g : mpr_ok g -> (forall x, x ∈ xs -> x ∈ N1) ->
  exists g', will_always_loop xs g = Def g' /\ mpr_ok g' /\ addrs g' = addrs g /\
    (forall z, z ∈ set_mpr g -> z ∈ set_mpr g') /\
    forall x, x ∈ xs -> will x = RFC7181_WILLINGNESS_ALWAYS -> x ∈ set_mpr g'.
Proof.
  revert g. induction xs as [|x xs IH]; intros g Hg Hxs; simpl.
  { exists g. split_and!; try done. by intros x ?%elem_of_nil. }
  assert (x ∈ N1) as Hx by (apply Hxs; by left). rewrite (Hwill x Hx). simpl.
  destruct (Z.eqb_spec (will x) RFC7181_WILLINGNESS_ALWAYS) as [Hw|Hw].
  - destruct (Halways x Hx Hw) as (l & El & En). rewrite El, En. rewrite <- El.
    destruct (add_mpr_ok g x Hg Hx) as [H1 Hin].
    destruct (IH _ H1) as (g' & E & Hg' & Ha & Hsub & Hall); [intros; apply Hxs; by right|].
    exists g'. split; [exact E|]. split; [done|]. split; [done|].
    split; [intros z Hz; apply Hsub, Hin; by right|].
    intros z [->|Hz]%elem_of_cons Hzw; [apply Hsub, Hin; by left|by apply Hall].
  - destruct (IH g Hg) as (g' & E & Hg' & Ha & Hsub & Hall); [intros; apply Hxs; by right|].
    exists g'. split_and!; try done. intros z [->|Hz]%elem_of_cons Hzw; [done|by apply Hall].
Qed.

(** [_process_unique_mprs] *)
Definition possible (a : netaddr) (xs : list n1_node) : list n1_node := filter (fun x => c2 x a <= RFC7181_METRIC_MAX) xs.

Lemma possible_loop_ok xs y n lst : (forall x, x ∈ xs -> x ∈ N1) -> 0 <= n -> n + Z.of_nat (length xs) < 2 ^ 32 ->
  possible_loop xs y n lst = Def (n + Z.of_nat (length (possible (an_addr y) xs)),
    match last (possible (an_addr y) xs) with Some x => Some x | None => lst end).
Proof.
  revert n lst. induction xs as [|x xs IH]; intros n lst Hxs Hn Hl; simpl; [by rewrite Z.add_0_r|].
  destruct (Hc2 x (an_addr y)) as [-> _]; [apply Hxs; by left|]. simpl in Hl |- *. unfold possible. rewrite filter_cons.
  assert (forall z, z ∈ xs -> z ∈ N1) as Hxs' by (intros; apply Hxs; by right).
  destruct (Z.leb_spec (c2 x (an_addr y)) RFC7181_METRIC_MAX).
  - rewrite decide_True by done. rewrite u32_small by lia. rewrite IH by (done || lia). fold (possible (an_addr y) xs).
    rewrite last_cons. simpl. f_equal. f_equal; [lia|]. by destruct (last _).
  - rewrite decide_False by lia. by rewrite IH by (done || lia).
Qed.

Lemma unique_loop_ok ys g : mpr_ok g -> (forall y, y ∈ ys -> y_at y) ->
  exists g', unique_loop ys g = Def g' /\ mpr_ok g' /\ addrs g' = addrs g /\ (forall z, z ∈ set_mpr g -> z ∈ set_mpr g').
Proof.
  revert g. induction ys as [|y ys IH]; intros g Hg Hys; simpl; [by exists g|].
  assert (forall z, z ∈ ys -> y_at z) as Hys' by (intros; apply Hys; by right).
  destruct (Hys y) as (y2 & Hy2 & Ey & _); [by left|].
  assert (set_n1 g = N1) as -> by apply Hg.
  assert (0 + n1 < 2 ^ 32) as Hsz.
  { apply list_elem_of_lookup in Hy2 as [j Hj]. apply lookup_lt_Some in Hj. nia. }
  rewrite (possible_loop_ok N1 y 0 None (fun x Hx => Hx) (Z.le_refl 0) Hsz). rewrite Z.add_0_l.
  destruct (Hreach y2 Hy2) as (x0 & Hx0 & Hd0). rewrite <- Ey in Hd0.
  assert (x0 ∈ possible (an_addr y) N1) as Hin0 by (by apply list_elem_of_filter).
  assert (forall x, x ∈ possible (an_addr y) N1 -> x ∈ N1) as Hsub by (by intros x [_ ?]%list_elem_of_filter).
  simpl. destruct (possible (an_addr y) N1) as [|x [|x' l]]; [by apply elem_of_nil in Hin0| |].
  - simpl. destruct (select_mpr_ok g x Hg) as (H1 & _ & Hin); [apply Hsub; by left|].
    destruct (IH _ H1 Hys') as (g' & E & Hg' & Ha & Hsub'). exists g'. split; [exact E|]. split; [done|].
    split; [by rewrite Ha|]. intros z Hz. by apply Hsub', Hin.
  - destruct (Z.eqb_spec (Z.of_nat (length (x :: x' :: l))) 0) as [E|_]; [simpl in E; lia|].
    destruct (Z.eqb_spec (Z.of_nat (length (x :: x' :: l))) 1) as [E|_]; [simpl in E; lia|]. by apply IH.
Qed.

(** ** The result *)

(** The best cost to an address over a set of neighbors, or directly. *)
Definition cost_over (s : list n1_node) (a : netaddr) : Z :=
  minimal s a (if RFC7181_METRIC_MAX <? d1 a then RFC7181_METRIC_INFINITE_PATH else d1 a).

Lemma cost_over_eq M y : (forall x, x ∈ M -> x ∈ N1) -> y ∈ N2 ->
  (needs (an_addr y) = true -> exists z, z ∈ M /\ d_x_y z (an_addr y) = min_cost (an_addr y)) ->
  cost_over M (an_addr y) = cost_over N1 (an_addr y).
Proof.
  intros HM Hy Hz. set (a := an_addr y) in *. unfold cost_over. set (m := if _ : bool then _ else _).
  destruct (minimal_spec M a m) as (M1 & M2 & M3). destruct (minimal_spec N1 a m) as (A1 & A2 & A3).
  assert (minimal N1 a m <= minimal M a m) as Hle.
  { destruct M3 as [->|(z & Hzm & <-)]; [done|]. by apply A2, HM. }
  assert (minimal M a m <= minimal N1 a m); [|lia].
  destruct A3 as [->|(x & Hx & Ex)]; [done|]. rewrite <- Ex. destruct (needs a) eqn:En.
  - destruct (Hz eq_refl) as (z & Hzm & Ez). specialize (M2 z Hzm). unfold min_cost in Ez.
    destruct (minimal_spec N1 a RFC7181_METRIC_INFINITE_PATH) as (_ & B2 & _). specialize (B2 x Hx). lia.
  - unfold needs in En. apply orb_false_iff in En as [En1 En2]. apply Z.eqb_neq in En1.
    destruct (Hdirect a) as [|Hda]; [done|].
    assert (m = d1 a) as Hm by (unfold m; destruct (Z.ltb_spec RFC7181_METRIC_MAX (d1 a)); [lia|done]).
    destruct (Z.ltb_spec (d_x_y x a) (d1 a)) as [Hlt|Hge]; [|lia]. exfalso.
    apply not_true_iff_false in En2. apply En2, existsb_exists. exists x. split; [by apply list_elem_of_In|by apply Z.ltb_lt].
Qed.

Lemma selection_runs g : graph_ok g -> set_n g = [] -> set_mpr g = [] ->
  (forall x, x ∈ N1 -> n1_neigh x ∉ selection_is_mpr g) ->
  exists g', (g ← _calculate_n g; g ← _process_will_always g; g ← _process_unique_mprs g; _process_remaining g) = Def g' /\
    mpr_ok g' /\ (forall x, x ∈ N1 -> will x = RFC7181_WILLINGNESS_ALWAYS -> x ∈ set_mpr g') /\
    forall y, y ∈ N2 -> cost_over (set_mpr g') (an_addr y) = cost_over N1 (an_addr y).
Proof.
  intros Hg Hn Hm Hsel. destruct (calculate_n_ok g Hg Hn) as (ga & -> & Hga & Ho & Haa). simpl.
  unfold others in Ho. injection Ho as Em _ Es.
  assert (mpr_ok ga) as Mga.
  { split; [done|rewrite Em, Hm; constructor|rewrite Em, Hm; by intros x ?%elem_of_nil|].
    rewrite Es. intros x Hx Hin. by apply Hsel in Hin. }
  unfold _process_will_always. assert (set_n1 ga = N1) as -> by apply Hga.
  destruct (will_always_loop_ok N1 ga Mga (fun x Hx => Hx)) as (gb & -> & Mgb & Hab & _ & Hall). simpl.
  unfold _process_unique_mprs.
  destruct (unique_loop_ok (set_n gb) gb Mgb) as (gc & -> & Mgc & Hac & Hsubc).
  { intros y Hy. pose proof (go_n _ (mo_graph _ Mgb)) as Hf. rewrite Forall_forall in Hf. by apply Hf. }
  simpl. unfold _process_remaining. assert (set_n1 gc = N1) as -> by apply Mgc.
  destruct (remaining_loop_ok (length N1) gc Mgc) as (g' & E & Mg' & Had & Hsubd & HR); [apply length_filter|].
  exists g'. split; [exact E|]. split; [done|]. split; [intros x Hx Hw; by apply Hsubd, Hsubc, Hall|].
  intros y Hy. apply cost_over_eq; [apply (mo_sub _ Mg')|done|]. intros Hneed.
  apply (all_covered g' (addrs gc)); [done| | |done].
  - destruct (Hreach y Hy) as (x & Hx & _). intros E0. rewrite E0 in Hx. by apply elem_of_nil in Hx.
  - rewrite Hac, Hab, Haa. apply list_elem_of_fmap. exists y. split; [done|]. by apply list_elem_of_filter.
Qed.

(** ** The assertions of [_validate_mpr_set] *)

Lemma d_of_y_s_ok y s g : graph_ok g -> (forall x, x ∈ s -> x ∈ N1) -> y ∈ N2 ->
  computes g (cost_over s (an_addr y)) (mpr_calculate_d_of_y_s y s g).
Proof.
  intros Hg Hs Hy. unfold mpr_calculate_d_of_y_s. assert (set_n1 g = N1) as -> by apply Hg. rewrite Hd1. simpl.
  assert (y_at y) as Hya by (by exists y). unfold cost_over. set (m := if _ : bool then _ else _). clearbody m.
  revert m g Hg. induction s as [|x s IH]; intros m g Hg; simpl; [by apply computes_ret|].
  eapply computes_bind; [apply calculate_d_x_y_ok; [done|apply Hs; by left|done]|]. intros g' Hg' _ _.
  apply IH; [|done]. intros; apply Hs; by right.
Qed.

Lemma cost_over_finite y : y ∈ N2 -> cost_over N1 (an_addr y) < RFC7181_METRIC_INFINITE_PATH.
Proof.
  intros Hy. destruct (Hreach y Hy) as (x & Hx & Hd). unfold cost_over. set (m := if _ : bool then _ else _).
  destruct (minimal_spec N1 (an_addr y) m) as (_ & H2 & _). specialize (H2 x Hx). pose proof (Hmax x Hx).
  unfold d_x_y in H2. destruct (Z.ltb_spec RFC7181_METRIC_MAX (c1 x)), (Z.ltb_spec RFC7181_METRIC_MAX (c2 x (an_addr y)));
    simpl in H2; unfold RFC7181_METRIC_INFINITE_PATH, RFC7181_METRIC_MAX in *; lia.
Qed.

Lemma validate_costs_ok ys g : graph_ok g -> (forall x, x ∈ set_mpr g -> x ∈ N1) -> (forall y, y ∈ ys -> y ∈ N2) ->
  (forall y, y ∈ N2 -> cost_over (set_mpr g) (an_addr y) = cost_over N1 (an_addr y)) ->
  exists g', validate_costs ys g = Def g' /\ visible g' = visible g.
Proof.
  revert g. induction ys as [|y ys IH]; intros g Hg Hsub Hys Hcost; simpl; [by exists g|].
  assert (y ∈ N2) as Hy by (apply Hys; by left). assert (set_n1 g = N1) as -> by apply Hg.
  destruct (d_of_y_s_ok y N1 g Hg (fun x Hx => Hx) Hy) as (g1 & -> & H1 & V1 & _). simpl.
  destruct (visible_same _ _ V1) as (_ & Em1 & _). rewrite Em1.
  destruct (d_of_y_s_ok y (set_mpr g) g1 H1 Hsub Hy) as (g2 & -> & H2 & V2 & _). simpl.
  destruct (visible_same _ _ V2) as (_ & Em2 & _). rewrite (Hcost y Hy). pose proof (cost_over_finite y Hy).
  destruct (Z.ltb_spec (cost_over N1 (an_addr y)) RFC7181_METRIC_INFINITE_PATH); [|lia]. rewrite Z.eqb_refl. simpl.
  assert (set_mpr g2 = set_mpr g) as Em by congruence.
  destruct (IH g2) as (g' & E & V); [done|by rewrite Em|intros; apply Hys; by right|by rewrite Em|].
  exists g'. split; [exact E|]. congruence.
Qed.

Lemma validate_always_ok xs g : mpr_ok g -> (forall x, x ∈ xs -> x ∈ N1) ->
  (forall x, x ∈ N1 -> will x = RFC7181_WILLINGNESS_ALWAYS -> x ∈ set_mpr g) -> validate_always xs g = Def tt.
Proof.
  intros Hg. induction xs as [|x xs IH]; intros Hxs Hall; simpl; [done|].
  assert (x ∈ N1) as Hx by (apply Hxs; by left). rewrite (Hwill x Hx). simpl.
  assert (validate_always xs g = Def tt) as E by (apply IH; [intros; apply Hxs; by right|done]).
  destruct (Z.eqb_spec (will x) RFC7181_WILLINGNESS_ALWAYS) as [Hw|Hw]; simpl; [|done].
  unfold mpr_is_mpr. rewrite (tree_find_complete n1_addr avl_comp_netaddr (n1_addr x) (set_mpr g) x).
  - done.
  - apply Hg.
  - by apply Hall.
  - by apply netaddr_cmp_eq.
Qed.

Lemma validate_ok g : mpr_ok g ->
  (forall x, x ∈ N1 -> will x = RFC7181_WILLINGNESS_ALWAYS -> x ∈ set_mpr g) ->
  (forall y, y ∈ N2 -> cost_over (set_mpr g) (an_addr y) = cost_over N1 (an_addr y)) ->
  exists g', _validate_mpr_set g = Def g' /\ visible g' = visible g.
Proof.
  intros Hg Hall Hcost. unfold _validate_mpr_set. assert (set_n1 g = N1) as -> by apply Hg.
  rewrite (validate_always_ok N1 g Hg (fun x Hx => Hx) Hall). simpl. assert (set_n2 g = N2) as -> by apply Hg.
  apply validate_costs_ok; [apply Hg|apply (mo_sub _ Hg)|done|done].
Qed.
End correctness.

(** ** The theorems *)

Section theorems.
Context `{I : neighbor_graph_interface}.

(** What the selection relies on, for the nodes that [init_cache] has
    numbered. First, that its costs can be computed: the sets are trees of
    less than 2^32 pairs, and the callbacks return the costs [c1], [c2], [d1]
    and the willingness [will], where a cost that is not infinite is at most
    the greatest metric. *)
Record graph_costs (g : neighbor_graph) (c1 : n1_node -> Z) (c2 : n1_node -> netaddr -> Z) (d1 : netaddr -> Z)
    (will : n1_node -> Z) : Prop := {
  gl_size : Z.of_nat (length (set_n1 g)) * Z.of_nat (length (set_n2 g)) < 2 ^ 32;
  gl_n1 : tree_strict n1_addr avl_comp_netaddr (set_n1 g);
  gl_n2 : tree_strict an_addr avl_comp_netaddr (set_n2 g);
  gl_addr x : x ∈ set_n1 g -> n1_addr x = originator_of (n1_neigh x);
  gl_c1 x : x ∈ set_n1 (init_cache g) -> calculate_d1_x x = Def (c1 x) /\ 0 <= c1 x <= RFC7181_METRIC_MAX;
  gl_c2 x a : x ∈ set_n1 (init_cache g) -> calculate_d2_x_y x a = Def (c2 x a) /\ 0 <= c2 x a;
  gl_d1 a : calculate_d1_x_of_n2_addr (set_n1 (init_cache g)) a = Def (d1 a) /\
    (d1 a = RFC7181_METRIC_INFINITE \/ 0 <= d1 a <= RFC7181_METRIC_MAX);
  gl_will x : x ∈ set_n1 (init_cache g) -> get_willingness_n1 x = Def (will x);
}.

(** Second, that a neighbor that must be chosen has its link, and that every
    address of N2 can be reached. *)
Record graph_laws (g : neighbor_graph) (c1 : n1_node -> Z) (c2 : n1_node -> netaddr -> Z) (d1 : netaddr -> Z)
    (will : n1_node -> Z) : Prop := {
  gl_costs :> graph_costs g c1 c2 d1 will;
  gl_always x : x ∈ set_n1 (init_cache g) -> will x = RFC7181_WILLINGNESS_ALWAYS ->
    exists l, n1_link x = Some l /\ neigh_of_link l = n1_neigh x;
  gl_reach y : y ∈ set_n2 g -> exists x, x ∈ set_n1 (init_cache g) /\ c2 x (an_addr y) <= RFC7181_METRIC_MAX;
}.

(** A fresh graph: nothing computed and no neighbor of N1 selected. *)
Record fresh (g : neighbor_graph) : Prop := {
  fr_n : set_n g = [];
  fr_mpr : set_mpr g = [];
  fr_selected x : x ∈ set_n1 g -> n1_neigh x ∉ selection_is_mpr g;
}.

Lemma tree_strict_imap {A} (key : A -> netaddr) (f : nat -> A -> A) l : (forall i a, key (f i a) = key a) ->
  tree_strict key avl_comp_netaddr l -> tree_strict key avl_comp_netaddr (imap f l).
Proof.
  intros Hf. revert f Hf. induction l as [|a l IH]; intros f Hf Hl; simpl; [constructor|].
  apply StronglySorted_inv in Hl as [Hl Ha]. constructor; [apply (IH (fun i => f (S i))); [done|done]|].
  rewrite Forall_forall in Ha |- *. intros z Hz. apply elem_of_lookup_imap in Hz as (i & z' & -> & Hz').
  apply list_elem_of_lookup_2 in Hz'. specialize (Ha z' Hz'). unfold key_lt, compose in *. by rewrite !Hf.
Qed.

Lemma init_n1 g x : x ∈ set_n1 (init_cache g) -> exists i x0, set_n1 g !! i = Some x0 /\ x = set_n1_offset i x0.
Proof. simpl. intros (i & x0 & -> & H)%elem_of_lookup_imap. by exists i, x0. Qed.

Lemma init_n2 g y : y ∈ set_n2 (init_cache g) -> exists y0, y0 ∈ set_n2 g /\ an_addr y = an_addr y0.
Proof.
  simpl. intros (i & y0 & -> & H)%elem_of_lookup_imap. exists y0. split; [by apply list_elem_of_lookup_2 in H|done].
Qed.

Section laws.
Context g c1 c2 d1 will (L : graph_costs g c1 c2 d1 will).
Notation N1 := (set_n1 (init_cache g)).
Notation N2 := (set_n2 (init_cache g)).

Lemma init_strict1 : tree_strict n1_addr avl_comp_netaddr N1.
Proof. apply tree_strict_imap; [done|apply L]. Qed.

Lemma init_strict2 : tree_strict an_addr avl_comp_netaddr N2.
Proof. apply tree_strict_imap; [done|apply L]. Qed.

Lemma init_size : Z.of_nat (length N1) * Z.of_nat (length N2) < 2 ^ 32.
Proof. simpl. rewrite !length_imap. apply L. Qed.

Lemma init_off1 i x : N1 !! i = Some x -> n1_offset x = Z.of_nat i.
Proof. simpl. rewrite list_lookup_imap. destruct (set_n1 g !! i); [|done]. by intros [= <-]. Qed.

Lemma init_off2 j y : N2 !! j = Some y -> an_offset y = Z.of_nat j * Z.of_nat (length N1).
Proof.
  simpl. rewrite list_lookup_imap, length_imap. destruct (set_n2 g !! j) as [y0|] eqn:E; [|done].
  intros [= <-]. simpl. apply u32_small. apply lookup_lt_Some in E. pose proof (gl_size _ _ _ _ _ L).
  assert (Z.of_nat j * Z.of_nat (length (set_n1 g)) <= Z.of_nat (length (set_n2 g)) * Z.of_nat (length (set_n1 g)))
    by (apply Z.mul_le_mono_nonneg_r; lia). lia.
Qed.

Lemma init_addr x : x ∈ N1 -> n1_addr x = originator_of (n1_neigh x).
Proof. intros (i & x0 & E & ->)%init_n1. simpl. apply L. by apply list_elem_of_lookup_2 in E. Qed.

Lemma init_c1 x : x ∈ N1 -> calculate_d1_x x = Def (c1 x) /\ 0 <= c1 x.
Proof. intros Hx. destruct (gl_c1 _ _ _ _ _ L x Hx) as [? [? ?]]. done. Qed.


Lemma init_ok : set_n g = [] -> graph_ok N1 N2 c1 c2 (init_cache g).
Proof.
  intros Hn. split; try done; simpl.
  - by rewrite length_replicate, !length_imap.
  - intros x y c _ _ [-> _]%lookup_replicate. by left.
  - rewrite Hn. constructor.
  - rewrite Hn. simpl. lia.
Qed.

Lemma calculate_n_runs : set_n g = [] -> exists g', _calculate_n (init_cache g) = Def g' /\ set_n1 g' = N1.
Proof.
  intros Hn. destruct (calculate_n_ok N1 N2 init_size init_strict2 init_off1 init_off2 c1 c2 d1 init_c1 (gl_c2 _ _ _ _ _ L)
    (fun a => proj1 (gl_d1 _ _ _ _ _ L a)) (init_cache g) (init_ok Hn) Hn) as (g' & E & Hg & _). exists g'. split; [done|]. apply Hg.
Qed.

Context (Lw : graph_laws g c1 c2 d1 will).

Lemma init_reach y : y ∈ N2 -> exists x, x ∈ N1 /\ c2 x (an_addr y) <= RFC7181_METRIC_MAX.
Proof. intros (y0 & Hy0 & ->)%init_n2. by apply (gl_reach _ _ _ _ _ Lw). Qed.

(** The selection runs and its result passes every assertion. *)
Lemma selection_runs_valid : fresh g ->
  exists g', mpr_calculate_mpr_rfc7181 g = Def g' /\ mpr_ok N1 N2 c1 c2 g' /\
    (forall x, x ∈ N1 -> will x = RFC7181_WILLINGNESS_ALWAYS -> x ∈ set_mpr g') /\
    (forall y, y ∈ N2 -> cost_over c1 c2 d1 (set_mpr g') (an_addr y) = cost_over c1 c2 d1 N1 (an_addr y)) /\
    exists g'', _validate_mpr_set g' = Def g'' /\ visible g'' = visible g'.
Proof.
  intros [Fn Fm Fs].
  assert (forall x, x ∈ N1 -> n1_neigh x ∉ selection_is_mpr (init_cache g)) as Fs'.
  { intros x (i & x0 & E & ->)%init_n1. simpl. apply Fs. by apply list_elem_of_lookup_2 in E. }
  destruct (selection_runs N1 N2 init_size init_strict1 init_strict2 init_off1 init_off2 init_addr c1 c2 d1 will
    init_c1 (gl_c2 _ _ _ _ _ L) (fun a => proj1 (gl_d1 _ _ _ _ _ L a)) (gl_will _ _ _ _ _ L) (gl_always _ _ _ _ _ Lw)
    init_reach (fun a => proj2 (gl_d1 _ _ _ _ _ L a)) (init_cache g) (init_ok Fn) Fn Fm Fs') as (g' & E & Mg & Hall & Hcost).
  exists g'. split; [exact E|]. do 3 (split; [done|]).
  eapply (validate_ok N1 N2); try eassumption; try (by intros; apply L).
  all: first [exact init_size|exact init_off1|exact init_off2|exact init_c1|exact init_reach|idtac].
Qed.
End laws.

Lemma selection_spec g c1 c2 d1 will : graph_laws g c1 c2 d1 will -> fresh g ->
  exists g', mpr_calculate_mpr_rfc7181 g = Def g' /\ mpr_ok (set_n1 (init_cache g)) (set_n2 (init_cache g)) c1 c2 g' /\
    (forall x, x ∈ set_n1 (init_cache g) -> will x = RFC7181_WILLINGNESS_ALWAYS -> x ∈ set_mpr g') /\
    (forall y, y ∈ set_n2 (init_cache g) ->
      cost_over c1 c2 d1 (set_mpr g') (an_addr y) = cost_over c1 c2 d1 (set_n1 (init_cache g)) (an_addr y)) /\
    exists g'', _validate_mpr_set g' = Def g'' /\ visible g'' = visible g'.
Proof. intros L. exact (selection_runs_valid g c1 c2 d1 will L L). Qed.

(** Without its link, a neighbor that must be chosen stops the selection. *)
Lemma will_always_null xs g : (forall x, x ∈ xs -> exists w, get_willingness_n1 x = Def w /\ n1_link x = None) ->
  (exists x, x ∈ xs /\ get_willingness_n1 x = Def RFC7181_WILLINGNESS_ALWAYS) -> will_always_loop xs g = Undef UB_null.
Proof.
  induction xs as [|x xs IH]; intros Hxs (x0 & Hx0 & Hw); [by apply elem_of_nil in Hx0|]. simpl.
  destruct (Hxs x) as (w & Ew & El); [by left|]. rewrite Ew, El. simpl.
  destruct (Z.eqb_spec w RFC7181_WILLINGNESS_ALWAYS) as [|Hne]; [done|].
  apply IH; [intros; apply Hxs; by right|]. exists x0. split; [|done]. apply elem_of_cons in Hx0 as [->|]; [|done].
  rewrite Ew in Hw. by injection Hw.
Qed.

(** C8: MPR selection (RFC 7181, section 18) does what it is meant to do. On a
    fresh neighbor graph whose callbacks keep the laws,
    [mpr_calculate_mpr_rfc7181] ends without undefined behaviour and without a
    failed assertion, the MPR set is a part of N1, it holds every neighbor
    with WILL_ALWAYS, and every two-hop address is reached over the MPR set
    (or directly) at the same least cost as over the whole of N1. *)
Theorem mpr_selection_correct g c1 c2 d1 will : graph_laws g c1 c2 d1 will -> fresh g ->
  exists g', mpr_calculate_mpr_rfc7181 g = Def g' /\ set_n1 g' = set_n1 (init_cache g) /\
    (forall x, x ∈ set_mpr g' -> x ∈ set_n1 g') /\
    (forall x, x ∈ set_n1 g' -> will x = RFC7181_WILLINGNESS_ALWAYS -> x ∈ set_mpr g') /\
    forall y, y ∈ set_n2 g ->
      cost_over c1 c2 d1 (set_mpr g') (an_addr y) = cost_over c1 c2 d1 (set_n1 g') (an_addr y).
Proof.
  intros L F. destruct (selection_spec g c1 c2 d1 will L F) as (g' & E & Hm & Hall & Hcost & _).
  exists g'. rewrite (go_n1 _ _ _ _ _ (mo_graph _ _ _ _ _ Hm)). split; [done|]. split; [done|].
  split; [apply (mo_sub _ _ _ _ _ Hm)|]. split; [done|]. intros y Hy.
  apply list_elem_of_lookup in Hy as [j Hj].
  apply (Hcost (set_an_offset (Z.of_nat (length (set_n1 g))) j y)). simpl. apply elem_of_lookup_imap. by exists j, y.
Qed.

(** The assertions of [_validate_mpr_set] (the properties of RFC 7181,
    section 18.3) can not fail for a set that [mpr_calculate_mpr_rfc7181] has
    computed on a graph that keeps the laws. *)
Theorem mpr_set_validates g c1 c2 d1 will : graph_laws g c1 c2 d1 will -> fresh g ->
  exists g', (mpr_calculate_mpr_rfc7181 g ≫= _validate_mpr_set) = Def g'.
Proof.
  intros L F. destruct (selection_spec g c1 c2 d1 will L F) as (g' & E & _ & _ & _ & g'' & V & _). exists g''. by rewrite E.
Qed.

(** The costs of a sequence of pairs, one after the other. *)
Fixpoint costs_of (ps : list (n1_node * addr_node)) (g : neighbor_graph) : outcome (list Z * neighbor_graph) :=
  match ps with
  | [] => Def ([], g)
  | (x, y) :: ps => '(c, g) ← _calculate_d_x_y x y g; '(cs, g) ← costs_of ps g; Def (c :: cs, g)
  end.

Lemma costs_of_ok g c1 c2 d1 will ps g0 : graph_laws g c1 c2 d1 will ->
  graph_ok (set_n1 (init_cache g)) (set_n2 (init_cache g)) c1 c2 g0 ->
  Forall (fun p => p.1 ∈ set_n1 (init_cache g) /\ p.2 ∈ set_n2 (init_cache g)) ps ->
  exists g', costs_of ps g0 = Def ((fun p => d_x_y c1 c2 p.1 (an_addr p.2)) <$> ps, g').
Proof.
  intros L. revert g0. induction ps as [|[x y] ps IH]; intros g0 Hg Hps; [by exists g0|].
  apply Forall_cons in Hps as [[Hx Hy] Hps]. simpl in Hx, Hy.
  destruct (calculate_d_x_y_ok (set_n1 (init_cache g)) (set_n2 (init_cache g)) (init_size _ _ _ _ _ L) (init_off1 g) (init_off2 _ _ _ _ _ L)
    c1 c2 (init_c1 _ _ _ _ _ L) (gl_c2 _ _ _ _ _ L) x y g0 Hg Hx) as (g1 & E1 & H1 & _); [by exists y|].
  destruct (IH g1 H1 Hps) as (g' & E'). exists g'. cbn [costs_of]. rewrite E1. simpl. by rewrite E'.
Qed.

(** C32: The cache of path costs is transparent: asked for any pairs of N1 and
    N2, in any order and any number of times, [_calculate_d_x_y] answers the
    cost that the two callbacks define, and never looks outside the cache. *)
Theorem cost_cache_transparent g c1 c2 d1 will ps : graph_laws g c1 c2 d1 will -> set_n g = [] ->
  Forall (fun p => p.1 ∈ set_n1 (init_cache g) /\ p.2 ∈ set_n2 (init_cache g)) ps ->
  exists g', costs_of ps (init_cache g) = Def ((fun p => d_x_y c1 c2 p.1 (an_addr p.2)) <$> ps, g').
Proof. intros L Hn Hps. apply (costs_of_ok g c1 c2 d1 will); [done|by eapply init_ok|done]. Qed.
End theorems.

(** ** Witnesses *)

Definition ex_addr (n : Z) : netaddr := {| na_addr := [10; 0; 0; n] ++ replicate 12 0; na_type := 2; na_prefix_len := 32 |}.
Definition ex_cost (n : nat) (a : netaddr) : Z :=
  if decide (a = ex_addr 11) then (if decide (n = 3)%nat then 512 else if decide (n = 1)%nat then 256 else RFC7181_METRIC_INFINITE)
  else if decide (a = ex_addr 12) then (if decide (n = 3)%nat then RFC7181_METRIC_INFINITE else 300)
  else if decide (a = ex_addr 13) then (if decide (n = 2)%nat then 1000 else RFC7181_METRIC_INFINITE)
  else RFC7181_METRIC_INFINITE.
Definition ex_will (x : n1_node) : Z := if decide (n1_neigh x = 3)%nat then RFC7181_WILLINGNESS_ALWAYS else 7.

(** Three neighbors, the third with WILL_ALWAYS, and three two-hop addresses. *)
Definition ex_interface : neighbor_graph_interface := {|
  originator_of n := ex_addr (Z.of_nat n);
  neigh_of_link l := l;
  calculate_d1_x_of_n2_addr _ a := Def (if decide (a = ex_addr 12) then 700 else RFC7181_METRIC_INFINITE);
  calculate_d1_x _ := Def 256;
  calculate_d2_x_y x a := Def (ex_cost (n1_neigh x) a);
  get_willingness_n1 x := Def (ex_will x);
|}.
Definition ex_n1 (n : nat) : n1_node := {| n1_addr := ex_addr (Z.of_nat n); n1_link := Some n; n1_neigh := n; n1_offset := 0 |}.
Definition ex_an (n : Z) : addr_node := {| an_addr := ex_addr n; an_offset := 0; min_d_z_y := 0 |}.
Definition ex_graph : neighbor_graph := {|
  set_n1 := [ex_n1 1; ex_n1 2; ex_n1 3]; set_n2 := [ex_an 11; ex_an 12; ex_an 13]; set_n := []; set_mpr := [];
  set_mpr_candidates := []; d_x_y_cache := []; selection_is_mpr := ∅ |}.

Lemma ex_laws : @graph_laws ex_interface ex_graph (fun _ => 256) (fun x a => ex_cost (n1_neigh x) a)
  (fun a => if decide (a = ex_addr 12) then 700 else RFC7181_METRIC_INFINITE) ex_will.
Proof.
  assert (forall n a, 0 <= ex_cost n a) as Hpos by (intros n a; unfold ex_cost; repeat case_decide; unfold RFC7181_METRIC_INFINITE; lia).
  split; [split|..].
  - simpl. lia.
  - repeat constructor; vm_compute; done.
  - repeat constructor; vm_compute; done.
  - intros x Hx. simpl in Hx. set_unfold in Hx. by destruct Hx as [->|[->|[->|[]]]].
  - intros x _. split; [done|]. unfold RFC7181_METRIC_MAX. lia.
  - intros x a _. split; [done|apply Hpos].
  - intros a. split; [done|]. case_decide; [right; unfold RFC7181_METRIC_MAX; lia|by left].
  - done.
  - intros x Hx. simpl in Hx. set_unfold in Hx. destruct Hx as [->|[->|[->|[]]]]; intros Hw; try (by vm_compute in Hw). by exists 3%nat.
  - intros y Hy. simpl in Hy. set_unfold in Hy.
    destruct Hy as [->|[->|[->|[]]]];
      [exists (set_n1_offset 0 (ex_n1 1))|exists (set_n1_offset 0 (ex_n1 1))|exists (set_n1_offset 1 (ex_n1 2))];
      (split; [simpl; set_solver|by vm_compute]).
Qed.

Lemma ex_fresh : fresh ex_graph.
Proof. split; [done|done|]. intros x _. simpl. set_solver. Qed.

Lemma mpr_selection_correct_witness : exists g', mpr_calculate_mpr_rfc7181 (I := ex_interface) ex_graph = Def g' /\
  forall x, x ∈ set_n1 g' -> ex_will x = RFC7181_WILLINGNESS_ALWAYS -> x ∈ set_mpr g'.
Proof.
  destruct (@mpr_selection_correct ex_interface ex_graph _ _ _ _ ex_laws ex_fresh) as (g' & E & _ & _ & H & _).
  exists g'. by split.
Defined.

Lemma mpr_set_validates_witness : exists g', (mpr_calculate_mpr_rfc7181 (I := ex_interface) ex_graph ≫= _validate_mpr_set (I := ex_interface)) = Def g'.
Proof. exact (@mpr_set_validates ex_interface ex_graph _ _ _ _ ex_laws ex_fresh). Defined.

Lemma cost_cache_transparent_witness :
  let x := set_n1_offset 1 (ex_n1 2) in let y := set_an_offset 3 2 (ex_an 13) in
  exists g', costs_of (I := ex_interface) [(x, y); (x, y)] (init_cache ex_graph) = Def ([1256; 1256], g').
Proof.
  intros x y.
  destruct (@cost_cache_transparent ex_interface ex_graph _ _ _ _ [(x, y); (x, y)] ex_laws eq_refl) as (g' & E).
  - repeat constructor; simpl; set_solver.
  - exists g'. exact E.
Defined.

(** The selected neighbors: the third one, which has to be selected, and the
    first two, which are needed. *)
Example ex_selected : (match mpr_calculate_mpr_rfc7181 (I := ex_interface) ex_graph with Def g => n1_neigh <$> set_mpr g | Undef _ => [] end) = [1; 2; 3]%nat.
Proof. vm_compute. reflexivity. Qed.
