(* ===== verification/Timer.v ===== *)
(** The timer scheduler of src/base/oonf_timer.c on the clock of
    src/base/oonf_clock.c: timer classes and instances, the tree of running
    timers, starting, stopping and the walk that fires what is due. *)

From Stdlib Require Import ZArith Lia Sorted.
From stdpp Require Import base list numbers option gmap.
From S2P Require Import Prelude AvlSpec.

Local Open Scope Z_scope.

Definition OONF_TIMER_SLICE : Z := 100.
Definition UINT32_MAX : Z := 0xffffffff.

(** Instances and classes are named by their addresses. *)
Notation addr := positive.

(** [struct oonf_timer_class]; name and callback are not part of the state. *)
Record timer_class := {
  periodic : bool;
  _stat_usage : Z;
  _stat_changes : Z;
  _stat_fired : Z;
  _stat_long : Z;
  _timer_in_callback : option addr;
  _timer_stopped : bool;
}.

(** [struct oonf_timer_instance] *)
Record timer_instance := {
  class : addr;
  jitter_pct : Z;
  _period : Z;
  _random : Z;
  _clock : Z;
}.

(** The global state: memory, [_timer_tree] (its nodes in tree order),
    [_timer_info_list], [now_times] and [start_time] of the clock, and how
    often the operating system was asked for random data and for the time. *)
Record timer_state := {
  instances : gmap addr timer_instance;
  classes : gmap addr timer_class;
  _timer_info_list : list addr;
  _timer_tree : list addr;
  now_times : Z;
  start_time : Z;
  random_calls : nat;
  gettime_calls : nat;
}.

(** ** Field updates *)

Definition with_usage (f : Z -> Z) (c : timer_class) : timer_class :=
  {| periodic := periodic c; _stat_usage := f (_stat_usage c); _stat_changes := _stat_changes c;
     _stat_fired := _stat_fired c; _stat_long := _stat_long c;
     _timer_in_callback := _timer_in_callback c; _timer_stopped := _timer_stopped c |}.
Definition with_changes (f : Z -> Z) (c : timer_class) : timer_class :=
  {| periodic := periodic c; _stat_usage := _stat_usage c; _stat_changes := f (_stat_changes c);
     _stat_fired := _stat_fired c; _stat_long := _stat_long c;
     _timer_in_callback := _timer_in_callback c; _timer_stopped := _timer_stopped c |}.
Definition with_long (f : Z -> Z) (c : timer_class) : timer_class :=
  {| periodic := periodic c; _stat_usage := _stat_usage c; _stat_changes := _stat_changes c;
     _stat_fired := _stat_fired c; _stat_long := f (_stat_long c);
     _timer_in_callback := _timer_in_callback c; _timer_stopped := _timer_stopped c |}.
Definition with_stopped (b : bool) (c : timer_class) : timer_class :=
  {| periodic := periodic c; _stat_usage := _stat_usage c; _stat_changes := _stat_changes c;
     _stat_fired := _stat_fired c; _stat_long := _stat_long c;
     _timer_in_callback := _timer_in_callback c; _timer_stopped := b |}.
(** [info->_timer_in_callback = timer; info->_timer_stopped = false;
    info->_stat_fired++] *)
Definition with_fired (t : addr) (c : timer_class) : timer_class :=
  {| periodic := periodic c; _stat_usage := _stat_usage c; _stat_changes := _stat_changes c;
     _stat_fired := u32 (_stat_fired c + 1); _stat_long := _stat_long c;
     _timer_in_callback := Some t; _timer_stopped := false |}.

Definition set_instances (m : gmap addr timer_instance) (st : timer_state) : timer_state :=
  {| instances := m; classes := classes st; _timer_info_list := _timer_info_list st;
     _timer_tree := _timer_tree st; now_times := now_times st; start_time := start_time st;
     random_calls := random_calls st; gettime_calls := gettime_calls st |}.
Definition set_classes (m : gmap addr timer_class) (st : timer_state) : timer_state :=
  {| instances := instances st; classes := m; _timer_info_list := _timer_info_list st;
     _timer_tree := _timer_tree st; now_times := now_times st; start_time := start_time st;
     random_calls := random_calls st; gettime_calls := gettime_calls st |}.
Definition set_info_list (l : list addr) (st : timer_state) : timer_state :=
  {| instances := instances st; classes := classes st; _timer_info_list := l;
     _timer_tree := _timer_tree st; now_times := now_times st; start_time := start_time st;
     random_calls := random_calls st; gettime_calls := gettime_calls st |}.
Definition set_tree (l : list addr) (st : timer_state) : timer_state :=
  {| instances := instances st; classes := classes st; _timer_info_list := _timer_info_list st;
     _timer_tree := l; now_times := now_times st; start_time := start_time st;
     random_calls := random_calls st; gettime_calls := gettime_calls st |}.
Definition set_now (now : Z) (st : timer_state) : timer_state :=
  {| instances := instances st; classes := classes st; _timer_info_list := _timer_info_list st;
     _timer_tree := _timer_tree st; now_times := now; start_time := start_time st;
     random_calls := random_calls st; gettime_calls := gettime_calls st |}.
Definition set_start_time (t : Z) (st : timer_state) : timer_state :=
  {| instances := instances st; classes := classes st; _timer_info_list := _timer_info_list st;
     _timer_tree := _timer_tree st; now_times := now_times st; start_time := t;
     random_calls := random_calls st; gettime_calls := gettime_calls st |}.
Definition count_random (st : timer_state) : timer_state :=
  {| instances := instances st; classes := classes st; _timer_info_list := _timer_info_list st;
     _timer_tree := _timer_tree st; now_times := now_times st; start_time := start_time st;
     random_calls := S (random_calls st); gettime_calls := gettime_calls st |}.
Definition count_gettime (st : timer_state) : timer_state :=
  {| instances := instances st; classes := classes st; _timer_info_list := _timer_info_list st;
     _timer_tree := _timer_tree st; now_times := now_times st; start_time := start_time st;
     random_calls := random_calls st; gettime_calls := S (gettime_calls st) |}.

Definition with_random (r : Z) (i : timer_instance) : timer_instance :=
  {| class := class i; jitter_pct := jitter_pct i; _period := _period i; _random := r; _clock := _clock i |}.
Definition with_period (p : Z) (i : timer_instance) : timer_instance :=
  {| class := class i; jitter_pct := jitter_pct i; _period := p; _random := _random i; _clock := _clock i |}.
Definition with_clock (c : Z) (i : timer_instance) : timer_instance :=
  {| class := class i; jitter_pct := jitter_pct i; _period := _period i; _random := _random i; _clock := c |}.

(** Access to memory through a pointer. *)
Definition get_timer (st : timer_state) (t : addr) : outcome timer_instance :=
  match instances st !! t with Some i => Def i | None => Undef UB_read end.
Definition get_class (st : timer_state) (c : addr) : outcome timer_class :=
  match classes st !! c with Some k => Def k | None => Undef UB_read end.
Definition put_timer (t : addr) (i : timer_instance) (st : timer_state) : timer_state :=
  set_instances (<[t := i]> (instances st)) st.
Definition put_class (c : addr) (k : timer_class) (st : timer_state) : timer_state :=
  set_classes (<[c := k]> (classes st)) st.

(** [_avlcomp_timer]: both keys are instances. *)
Definition _avlcomp_timer (t1 t2 : timer_instance) : Z :=
  if _clock t2 <? _clock t1 then 1 else if _clock t1 <? _clock t2 then -1 else 0.

#[export] Instance avlcomp_timer_comparator : Comparator _avlcomp_timer.
Proof.
  unfold _avlcomp_timer. split; intros *;
    repeat match goal with |- context [?a <? ?b] => destruct (Z.ltb_spec a b) end; lia.
Qed.

(** The key of a node is a pointer to its instance. *)
Definition no_timer : timer_instance :=
  {| class := 1%positive; jitter_pct := 0; _period := 0; _random := 0; _clock := 0 |}.
Definition key_of (m : gmap addr timer_instance) (t : addr) : timer_instance := default no_timer (m !! t).

(** Removing a node that is not linked, or linking one twice, corrupts the
    tree. *)
Definition tree_remove_node (t : addr) (st : timer_state) : outcome timer_state :=
  if decide (t ∈ _timer_tree st)
  then Def (set_tree (filter (fun x => x <> t) (_timer_tree st)) st)
  else Undef UB_write.

Definition tree_insert_node (t : addr) (st : timer_state) : outcome timer_state :=
  if decide (t ∈ _timer_tree st) then Undef UB_write
  else Def (set_tree (tree_insert_dup (key_of (instances st)) _avlcomp_timer t (_timer_tree st)) st).

(** ** The clock *)

Definition oonf_clock_getNow (st : timer_state) : Z := now_times st.
Definition oonf_clock_get_absolute (st : timer_state) (relative : Z) : Z :=
  u64 (oonf_clock_getNow st + relative).
Definition oonf_clock_get_relative (st : timer_state) (absolute : Z) : Z :=
  s64 (s64 absolute - s64 (oonf_clock_getNow st)).
Definition oonf_clock_is_past (st : timer_state) (absolute : Z) : bool :=
  absolute <? oonf_clock_getNow st.

(** ** Timers *)

Definition _calc_clock (st : timer_state) (timer : timer_instance) (rel_time : Z) : Z :=
  let rel_time :=
    if negb (jitter_pct timer =? 0) then
      let random_jitter := _random timer / (UINT32_MAX / jitter_pct timer) in
      let t := u64 (random_jitter * rel_time) / 100 in
      u64 (rel_time - t)
    else rel_time in
  let clock := oonf_clock_get_absolute st (s64 rel_time) in
  let clock := u64 (clock + OONF_TIMER_SLICE) in
  clock - clock mod OONF_TIMER_SLICE.

(** What the operating system answers to the n-th call of
    [os_core_get_random] ([None] on error) and of [os_clock_gettime64]. *)
Section environment.
Context (os_core_get_random : nat -> option Z) (os_clock_gettime64 : nat -> Z).

(** [oonf_clock_update], while the clock of the system works. *)
Definition oonf_clock_update (st : timer_state) : timer_state :=
  let now := os_clock_gettime64 (gettime_calls st) in
  set_now (u64 (now - start_time st)) (count_gettime st).

(** [if (os_core_get_random(&timer->_random, ...)) timer->_random = 0;] *)
Definition fresh_random (t : addr) (st : timer_state) : outcome timer_state :=
  i ← get_timer st t;
  Def (count_random (put_timer t (with_random (default 0 (os_core_get_random (random_calls st))) i) st)).

Definition oonf_timer_start_ext (t : addr) (first interval : Z) (st : timer_state) : outcome timer_state :=
  timer ← get_timer st t;
  cls ← get_class st (class timer);
  st ← (if negb (_clock timer =? 0) then
          st ← tree_remove_node t st;
          Def (put_class (class timer) (with_changes (fun n => u32 (n + 1)) cls) st)
        else Def (put_class (class timer) (with_usage (fun n => u32 (n + 1)) cls) st));
  st ← (if _random timer =? 0 then fresh_random t st else Def st);
  timer ← get_timer st t;
  cls ← get_class st (class timer);
  let timer := with_clock (_calc_clock st timer first) timer in
  let timer := with_period (if periodic cls then interval else 0) timer in
  tree_insert_node t (put_timer t timer st).

Definition oonf_timer_stop (t : addr) (st : timer_state) : outcome timer_state :=
  timer ← get_timer st t;
  if _clock timer =? 0 then Def st
  else
    st ← tree_remove_node t st;
    let st := put_timer t (with_random 0 (with_clock 0 timer)) st in
    cls ← get_class st (class timer);
    let cls := with_usage (fun n => u32 (n - 1)) cls in
    let cls := if decide (_timer_in_callback cls = Some t) then with_stopped true cls else cls in
    Def (put_class (class timer) cls st).

Definition oonf_timer_set_ext (t : addr) (first interval : Z) (st : timer_state) : outcome timer_state :=
  if first =? 0 then oonf_timer_stop t st else oonf_timer_start_ext t first interval st.

Definition oonf_timer_set (t : addr) (rel_time : Z) : timer_state -> outcome timer_state :=
  oonf_timer_set_ext t rel_time rel_time.
Definition oonf_timer_start (t : addr) (rel_time : Z) : timer_state -> outcome timer_state :=
  oonf_timer_start_ext t rel_time rel_time.

Definition oonf_timer_add (c : addr) (st : timer_state) : timer_state :=
  set_info_list (_timer_info_list st ++ [c]) st.

(** The walk over the tree holds the next node before it stops the current
    one. *)
Fixpoint stop_class (c : addr) (ts : list addr) (st : timer_state) : outcome timer_state :=
  match ts with
  | [] => Def st
  | t :: ts =>
      timer ← get_timer st t;
      st ← (if decide (class timer = c) then oonf_timer_stop t st else Def st);
      stop_class c ts st
  end.

Definition oonf_timer_remove (c : addr) (st : timer_state) : outcome timer_state :=
  if decide (c ∈ _timer_info_list st) then
    st ← stop_class c (_timer_tree st) st;
    Def (set_info_list (filter (fun x => x <> c) (_timer_info_list st)) st)
  else Def st.

Definition oonf_timer_is_active (timer : timer_instance) : bool := negb (_clock timer =? 0).
Definition oonf_timer_get_due (st : timer_state) (timer : timer_instance) : Z :=
  oonf_clock_get_relative st (_clock timer).
Definition UINT64_MAX : Z := 0xffffffffffffffff.
Definition oonf_timer_getNextEvent (st : timer_state) : Z :=
  match _timer_tree st with [] => UINT64_MAX | t :: _ => _clock (key_of (instances st) t) end.

(** ** Callbacks

    A callback is code outside this component; on the timers it can only act
    through the operations above and by creating and freeing objects that
    embed an instance. *)
Inductive timer_op :=
  | Op_start_ext (t : addr) (first interval : Z)
  | Op_set_ext (t : addr) (first interval : Z)
  | Op_stop (t : addr)
  | Op_add (c : addr)
  | Op_remove (c : addr)
  | Op_alloc (t : addr) (timer : timer_instance)
  | Op_free (t : addr).

Definition run_op (op : timer_op) (st : timer_state) : outcome timer_state :=
  match op with
  | Op_start_ext t first interval => oonf_timer_start_ext t first interval st
  | Op_set_ext t first interval => oonf_timer_set_ext t first interval st
  | Op_stop t => oonf_timer_stop t st
  | Op_add c => Def (oonf_timer_add c st)
  | Op_remove c => oonf_timer_remove c st
  | Op_alloc t timer => Def (put_timer t timer st)
  | Op_free t => Def (set_instances (delete t (instances st)) st)
  end.

Fixpoint run_ops (ops : list timer_op) (st : timer_state) : outcome timer_state :=
  match ops with [] => Def st | op :: ops => st ← run_op op st; run_ops ops st end.

Context (callback : addr -> addr -> timer_state -> list timer_op).

(** One iteration of the loop of [oonf_timer_walk]; [None] leaves it. *)
Definition walk_step (st : timer_state) : outcome (option timer_state) :=
  match _timer_tree st with
  | [] => Def None
  | t :: _ =>
      timer ← get_timer st t;
      if oonf_clock_getNow st <? _clock timer then Def None
      else
        let info := class timer in
        k ← get_class st info;
        let st := put_class info (with_fired t k) st in
        st ← (if _period timer =? 0 then oonf_timer_stop t st else Def st);
        let begin := os_clock_gettime64 (gettime_calls st) in
        let st := count_gettime st in
        st ← run_ops (callback info t st) st;
        let finish := os_clock_gettime64 (gettime_calls st) in
        let st := count_gettime st in
        k ← get_class st info;
        let k := if OONF_TIMER_SLICE <? u64 (finish - begin)
                 then with_long (fun n => u32 (n + 1)) k else k in
        let st := put_class info k st in
        if negb (_timer_stopped k) then
          st ← fresh_random t st;
          timer ← get_timer st t;
          st ← oonf_timer_start t (_period timer) st;
          Def (Some st)
        else Def (Some st)
  end.

(** [None]: out of fuel. *)
Fixpoint oonf_timer_walk (fuel : nat) (st : timer_state) : outcome (option timer_state) :=
  match fuel with
  | O => Def None
  | S fuel =>
      r ← walk_step st;
      match r with None => Def (Some st) | Some st => oonf_timer_walk fuel st end
  end.
End environment.

(** ** The invariant *)

Section proofs.
Context (os_core_get_random : nat -> option Z) (os_clock_gettime64 : nat -> Z).
(** [_random] is an [unsigned int]. *)
Context (random_u32 : forall n r, os_core_get_random n = Some r -> 0 <= r <= UINT32_MAX).
(** The longest interval anybody asks for, in milliseconds; the products of
    the jitter calculation must not overflow. *)
Context (max_interval : Z) (max_interval_range : 0 <= max_interval <= 2 ^ 56).

Definition instance_ok (i : timer_instance) : Prop :=
  0 <= jitter_pct i <= 100 /\ 0 <= _random i <= UINT32_MAX /\ 0 <= _period i <= max_interval /\
  0 <= _clock i.

(** Running timers of a class. *)
Definition running (st : timer_state) (c : addr) : Z :=
  Z.of_nat (length (filter (fun t => class (key_of (instances st) t) = c) (_timer_tree st))).

(** While [oonf_timer_start_ext] and [oonf_timer_stop] work on a timer it is
    counted as used but not in the tree: it is in flight. *)
Definition in_flight (o : option addr) (st : timer_state) (c : addr) : Z :=
  match o with
  | Some t => if decide (class (key_of (instances st) t) = c) then 1 else 0
  | None => 0
  end.

Record timer_inv (o : option addr) (st : timer_state) : Prop := {
  inv_nodup : NoDup (_timer_tree st);
  inv_sorted : tree_sorted (key_of (instances st)) _avlcomp_timer (_timer_tree st);
  inv_tree t : t ∈ _timer_tree st <->
    o <> Some t /\ exists i, instances st !! t = Some i /\ _clock i <> 0;
  inv_flight t : o = Some t -> is_Some (instances st !! t);
  inv_instance t i : instances st !! t = Some i -> instance_ok i /\ is_Some (classes st !! class i);
  inv_usage c k : classes st !! c = Some k -> _stat_usage k = u32 (running st c + in_flight o st c);
  inv_now : 0 <= now_times st <= 2 ^ 62;
}.

Definition timer_wf : timer_state -> Prop := timer_inv None.

Lemma get_timer_at st t i : instances st !! t = Some i -> get_timer st t = Def i.
Proof. unfold get_timer. by intros ->. Qed.

Lemma get_class_at st c k : classes st !! c = Some k -> get_class st c = Def k.
Proof. unfold get_class. by intros ->. Qed.

(** The key of a timer in terms of its clock. *)
Lemma avlcomp_le i j : _avlcomp_timer i j <= 0 <-> _clock i <= _clock j.
Proof.
  unfold _avlcomp_timer.
  destruct (Z.ltb_spec (_clock j) (_clock i)), (Z.ltb_spec (_clock i) (_clock j)); lia.
Qed.

Lemma key_of_at m t i : m !! t = Some i -> key_of m t = i.
Proof. unfold key_of. by intros ->. Qed.

Lemma key_of_insert_ne m t x i : x <> t -> key_of (<[t := i]> m) x = key_of m x.
Proof. intros. unfold key_of. by rewrite lookup_insert_ne by done. Qed.

Lemma key_of_insert m t i : key_of (<[t := i]> m) t = i.
Proof. unfold key_of. by rewrite lookup_insert_eq. Qed.

(** The order of the tree depends on the clocks of its members only. *)
Lemma tree_sorted_clocks m m' l :
  (forall x, x ∈ l -> _clock (key_of m' x) = _clock (key_of m x)) ->
  tree_sorted (key_of m) _avlcomp_timer l -> tree_sorted (key_of m') _avlcomp_timer l.
Proof.
  intros H Hs. induction Hs as [|x l Hs IH Hx]; [constructor|]. constructor.
  - apply IH. intros y Hy. apply H. by right.
  - rewrite Forall_forall in Hx |- *. intros y Hy. specialize (Hx y Hy).
    unfold key_le in *. rewrite avlcomp_le in *. rewrite !H; [done|by right|by left].
Qed.

Lemma tree_sorted_filter m l (P : addr -> Prop) `{!forall x, Decision (P x)} :
  tree_sorted (key_of m) _avlcomp_timer l -> tree_sorted (key_of m) _avlcomp_timer (filter P l).
Proof.
  intros Hs. induction Hs as [|x l Hs IH Hx]; [constructor|]. rewrite filter_cons.
  destruct (decide (P x)); [|done]. constructor; [done|].
  rewrite Forall_forall in Hx |- *. intros y [_ Hy]%list_elem_of_filter. by apply Hx.
Qed.

Lemma running_ext st st' c :
  _timer_tree st' = _timer_tree st ->
  (forall x, x ∈ _timer_tree st -> class (key_of (instances st') x) = class (key_of (instances st) x)) ->
  running st' c = running st c.
Proof.
  unfold running. intros -> H. do 2 f_equal. apply filter_ext_in. intros x Hx. by rewrite H.
Qed.

Lemma filter_ne_length (t : addr) (l : list addr) (P : addr -> Prop) `{!forall x, Decision (P x)} :
  NoDup l -> t ∈ l ->
  Z.of_nat (length (filter P l)) =
  Z.of_nat (length (filter P (filter (fun x => x <> t) l))) + (if decide (P t) then 1 else 0).
Proof.
  intros Hn Ht.
  assert (l ≡ₚ t :: filter (fun x => x <> t) l) as E.
  { apply NoDup_Permutation; [done|constructor; [|by apply NoDup_filter]|].
    - intros [? _]%list_elem_of_filter. done.
    - intros x. rewrite elem_of_cons, list_elem_of_filter. destruct (decide (x = t)); naive_solver. }
  rewrite E at 1. rewrite filter_cons. destruct (decide (P t)); simpl; lia.
Qed.

(** ** The steps of the operations *)

Lemma remove_node_inv t st i : timer_wf st -> instances st !! t = Some i -> _clock i <> 0 ->
  tree_remove_node t st = Def (set_tree (filter (fun x => x <> t) (_timer_tree st)) st) /\
  timer_inv (Some t) (set_tree (filter (fun x => x <> t) (_timer_tree st)) st).
Proof.
  intros [Hn Hs Ht Hf Hi Hu Hnow] Et Hc.
  assert (t ∈ _timer_tree st) as Hin by (apply Ht; eauto).
  unfold tree_remove_node. rewrite decide_True by done. split; [done|].
  split; simpl; try done.
  - by apply NoDup_filter.
  - by apply tree_sorted_filter.
  - intros x. rewrite list_elem_of_filter, Ht. naive_solver.
  - naive_solver.
  - intros c k Hk. rewrite (Hu c k Hk). unfold running, in_flight. simpl.
    by rewrite (filter_ne_length t), Z.add_0_r by done.
Qed.

(** Class fields other than the usage counter do not matter. *)
Lemma put_class_inv o st c k k' : timer_inv o st -> classes st !! c = Some k ->
  _stat_usage k' = _stat_usage k -> timer_inv o (put_class c k' st).
Proof.
  intros [Hn Hs Ht Hf Hi Hu Hnow] Ek E. split; simpl; try done.
  - intros t i Hti. destruct (Hi t i Hti) as [H1 H2]. split; [done|].
    destruct (decide (class i = c)) as [->|]; [rewrite lookup_insert_eq; eauto|by rewrite lookup_insert_ne].
  - intros c' k0. destruct (decide (c' = c)) as [->|].
    + rewrite lookup_insert_eq. intros [= <-]. rewrite E. by apply Hu.
    + rewrite lookup_insert_ne by done. by apply Hu.
Qed.

(** Another instance value with the same clock and class. *)
Lemma put_timer_same_inv o st t i i' : timer_inv o st -> instances st !! t = Some i ->
  class i' = class i -> _clock i' = _clock i -> instance_ok i' ->
  timer_inv o (put_timer t i' st).
Proof.
  intros [Hn Hs Ht Hf Hi Hu Hnow] Et Ec Ek Hok.
  assert (forall x, class (key_of (<[t := i']> (instances st)) x) = class (key_of (instances st) x)) as Hcl.
  { intros x. destruct (decide (x = t)) as [->|]; [|by rewrite key_of_insert_ne].
    rewrite key_of_insert. by rewrite (key_of_at _ _ _ Et). }
  split; simpl; try done.
  - eapply tree_sorted_clocks; [|exact Hs]. intros x _.
    destruct (decide (x = t)) as [->|]; [|by rewrite key_of_insert_ne].
    by rewrite key_of_insert, (key_of_at _ _ _ Et).
  - intros x. rewrite Ht. destruct (decide (x = t)) as [->|].
    + rewrite lookup_insert_eq, Et. naive_solver congruence.
    + by rewrite lookup_insert_ne.
  - intros x Hx. destruct (decide (x = t)) as [->|]; [rewrite lookup_insert_eq; eauto|].
    rewrite lookup_insert_ne by done. by apply Hf.
  - intros x j. destruct (decide (x = t)) as [->|].
    + rewrite lookup_insert_eq. intros [= <-]. split; [done|]. rewrite Ec. by apply (Hi t).
    + rewrite lookup_insert_ne by done. apply Hi.
  - intros c k Hk. rewrite (Hu c k Hk). do 2 f_equal.
    + symmetry. by apply running_ext.
    + unfold in_flight. destruct o; [|done]. simpl. by rewrite Hcl.
Qed.

(** A timer in flight may change its clock. *)
Lemma put_timer_flight_inv st t i i' : timer_inv (Some t) st -> instances st !! t = Some i ->
  class i' = class i -> instance_ok i' -> timer_inv (Some t) (put_timer t i' st).
Proof.
  intros [Hn Hs Ht Hf Hi Hu Hnow] Et Ec Hok.
  assert (t ∉ _timer_tree st) as Hout by (rewrite Ht; naive_solver).
  assert (forall x, x ∈ _timer_tree st -> x <> t) as Hne by (intros x Hx ->; done).
  split; simpl; try done.
  - eapply tree_sorted_clocks; [|exact Hs]. intros x Hx. by rewrite key_of_insert_ne by auto.
  - intros x. rewrite Ht. destruct (decide (x = t)) as [->|]; [naive_solver|].
    by rewrite lookup_insert_ne.
  - intros x [= <-]. rewrite lookup_insert_eq. eauto.
  - intros x j. destruct (decide (x = t)) as [->|].
    + rewrite lookup_insert_eq. intros [= <-]. split; [done|]. rewrite Ec. by apply (Hi t).
    + rewrite lookup_insert_ne by done. apply Hi.
  - intros c k Hk. rewrite (Hu c k Hk). do 2 f_equal.
    + symmetry. apply running_ext; [done|]. intros x Hx. simpl. by rewrite key_of_insert_ne by auto.
    + unfold in_flight. simpl. rewrite key_of_insert, (key_of_at _ _ _ Et), Ec. done.
Qed.

(** The usage counter moves with the flight. *)
Lemma usage_flight_inv st t i k o o' f : timer_inv o st -> instances st !! t = Some i ->
  classes st !! class i = Some k -> _clock i = 0 ->
  (o = None /\ o' = Some t /\ f = (fun n => u32 (n + 1))) \/
  (o = Some t /\ o' = None /\ f = (fun n => u32 (n - 1))) ->
  forall k', _stat_usage k' = f (_stat_usage k) ->
  timer_inv o' (put_class (class i) k' st).
Proof.
  intros [Hn Hs Ht Hf Hi Hu Hnow] Et Ek Hc Ho k' Ek'. split; simpl; try done.
  - intros x. rewrite Ht. destruct Ho as [(-> & -> & _)|(-> & -> & _)]; naive_solver congruence.
  - intros x. destruct Ho as [(-> & -> & _)|(-> & -> & _)]; naive_solver.
  - intros x j Hj. destruct (Hi x j Hj) as [H1 H2]. split; [done|].
    destruct (decide (class j = class i)) as [->|]; [rewrite lookup_insert_eq; eauto|by rewrite lookup_insert_ne].
  - assert (forall z, u32 (u32 z + 1) = u32 (z + 1) /\ u32 (u32 z - 1) = u32 (z - 1)) as Hw.
    { intros z. unfold u32, wrap. split; [by rewrite Zplus_mod_idemp_l|by rewrite Zminus_mod_idemp_l]. }
    intros c k0. unfold in_flight, running in *. simpl. destruct (decide (c = class i)) as [->|Hne].
    + rewrite lookup_insert_eq. intros [= <-]. specialize (Hu _ _ Ek). rewrite Ek', Hu.
      destruct Ho as [(-> & -> & ->)|(-> & -> & ->)]; simpl.
      * rewrite (key_of_at _ _ _ Et), decide_True by done. destruct (Hw (running st (class i) + 0)) as [E _].
        unfold running in E. rewrite E. f_equal. lia.
      * rewrite (key_of_at _ _ _ Et), decide_True by done. destruct (Hw (running st (class i) + 1)) as [_ E].
        unfold running in E. rewrite E. f_equal. lia.
    + rewrite lookup_insert_ne by done. intros Hk. rewrite (Hu c k0 Hk).
      destruct Ho as [(-> & -> & _)|(-> & -> & _)]; simpl; by rewrite (key_of_at _ _ _ Et), decide_False by done.
Qed.

Lemma insert_node_inv st t i : timer_inv (Some t) st -> instances st !! t = Some i -> _clock i <> 0 ->
  exists l, tree_insert_node t st = Def (set_tree l st) /\ timer_wf (set_tree l st) /\
    l ≡ₚ t :: _timer_tree st.
Proof.
  intros [Hn Hs Ht Hf Hi Hu Hnow] Et Hc.
  assert (t ∉ _timer_tree st) as Hout by (rewrite Ht; naive_solver).
  unfold tree_insert_node. rewrite decide_False by done.
  set (l := tree_insert_dup _ _ _ _).
  assert (l ≡ₚ t :: _timer_tree st) as Hp by apply tree_insert_dup_perm.
  exists l. split; [done|]. split; [|done]. split; simpl; try done.
  - rewrite Hp. by constructor.
  - apply tree_insert_dup_sorted; [apply _|done].
  - intros x. rewrite Hp, elem_of_cons, Ht. destruct (decide (x = t)) as [->|]; naive_solver.
  - intros c k Hk. rewrite (Hu c k Hk). unfold running, in_flight. simpl.
    rewrite Hp, filter_cons. destruct (decide _); simpl; f_equal; lia.
Qed.

Lemma inv_irrelevant o st f : timer_inv o st ->
  (f = count_random \/ f = count_gettime \/ exists l, f = set_info_list l) -> timer_inv o (f st).
Proof. intros [] [->|[->|[l ->]]]; by split. Qed.

(** ** When a timer fires *)

Lemma random_jitter_range i : instance_ok i -> jitter_pct i <> 0 ->
  0 <= _random i / (UINT32_MAX / jitter_pct i) <= jitter_pct i.
Proof.
  intros (Hj & Hr & _) H0.
  assert (forall j, 1 <= j < 1 + 100 ->
    (0 <? UINT32_MAX / j) && (UINT32_MAX / (UINT32_MAX / j) =? j) = true) as H by enumerate_Z 1 100.
  specialize (H (jitter_pct i) ltac:(lia)). rewrite andb_true_iff, Z.ltb_lt, Z.eqb_eq in H.
  destruct H as [H1 H2]. split; [apply Z.div_pos; lia|].
  rewrite <- H2 at 2. apply Z.div_le_mono; lia.
Qed.

Lemma calc_clock_range st i rel : instance_ok i -> 0 <= now_times st <= 2 ^ 62 -> 0 <= rel <= max_interval ->
  now_times st + rel - jitter_pct i * rel / 100 < _calc_clock st i rel <=
    now_times st + rel + OONF_TIMER_SLICE /\
  _calc_clock st i rel mod OONF_TIMER_SLICE = 0.
Proof.
  intros Hok Hnow Hrel. unfold _calc_clock, oonf_clock_get_absolute, oonf_clock_getNow.
  set (rel' := if negb (jitter_pct i =? 0) then _ else _).
  assert (rel - jitter_pct i * rel / 100 <= rel' <= rel /\ 0 <= rel') as Hrel'.
  { unfold rel'. destruct (Z.eqb_spec (jitter_pct i) 0) as [->|Hj]; simpl.
    { rewrite Z.div_0_l by lia. lia. }
    pose proof (random_jitter_range i Hok Hj). destruct Hok as (Hj' & _).
    set (rj := _random i / _) in *.
    assert (0 <= rj * rel <= jitter_pct i * rel /\ jitter_pct i * rel <= 100 * rel) by nia.
    rewrite (u64_small (rj * rel)) by lia.
    assert (0 <= rj * rel / 100 <= jitter_pct i * rel / 100) by (split; [apply Z.div_pos; lia|apply Z.div_le_mono; lia]).
    assert (jitter_pct i * rel / 100 <= rel) by (apply Z.div_le_upper_bound; lia).
    rewrite u64_small by lia. lia. }
  assert (s64 rel' = rel') as ->.
  { unfold s64, swrap. rewrite wrap_small by lia. destruct (Z.ltb_spec rel' (2 ^ (64 - 1))); lia. }
  rewrite (u64_small (now_times st + rel')) by lia. unfold OONF_TIMER_SLICE.
  rewrite u64_small by lia. set (z := now_times st + rel' + 100).
  pose proof (Z.mod_pos_bound z 100 ltac:(lia)). split; [lia|].
  rewrite Zminus_mod_idemp_r, Z.sub_diag. done.
Qed.

Lemma calc_clock_future st i rel : instance_ok i -> 0 <= now_times st <= 2 ^ 62 -> 0 <= rel <= max_interval ->
  now_times st < _calc_clock st i rel.
Proof.
  intros Hok Hn Hr. destruct (calc_clock_range st i rel) as [[H _] _]; try done.
  destruct Hok as (Hj & _). assert (jitter_pct i * rel / 100 <= rel); [|lia].
  apply Z.div_le_upper_bound; nia.
Qed.

(** ** What starting and stopping do *)

(** Classes keep their place and the fields the operations do not own. *)
Definition same_classes (st st' : timer_state) : Prop :=
  forall c k, classes st !! c = Some k -> exists k', classes st' !! c = Some k' /\
    periodic k' = periodic k /\ _timer_in_callback k' = _timer_in_callback k /\
    _timer_stopped k' = _timer_stopped k.

(** The timer is started with a clock of which [C] holds. *)
Record started_at (C : Z -> Prop) (t : addr) (interval : Z) (i : timer_instance) (st st' : timer_state) : Prop := {
  sa_wf : timer_wf st';
  sa_now : now_times st' = now_times st;
  sa_list : _timer_info_list st' = _timer_info_list st;
  sa_classes : same_classes st st';
  sa_timer : exists i' k, instances st' = <[t := i']> (instances st) /\
    classes st !! class i = Some k /\
    class i' = class i /\ jitter_pct i' = jitter_pct i /\
    _period i' = (if periodic k then interval else 0) /\ C (_clock i');
  sa_tree : _timer_tree st' ≡ₚ t :: filter (fun x => x <> t) (_timer_tree st);
}.

Record started (t : addr) (first interval : Z) (i : timer_instance) (st st' : timer_state) : Prop := {
  started_wf : timer_wf st';
  started_now : now_times st' = now_times st;
  started_list : _timer_info_list st' = _timer_info_list st;
  started_classes : same_classes st st';
  started_timer : exists i' k, instances st' = <[t := i']> (instances st) /\
    classes st !! class i = Some k /\
    class i' = class i /\ jitter_pct i' = jitter_pct i /\
    _period i' = (if periodic k then interval else 0) /\
    now_times st + first - jitter_pct i * first / 100 < _clock i' <= now_times st + first + OONF_TIMER_SLICE /\
    now_times st < _clock i' /\ _clock i' mod OONF_TIMER_SLICE = 0;
  started_tree : _timer_tree st' ≡ₚ t :: filter (fun x => x <> t) (_timer_tree st);
}.

Lemma fresh_random_inv o st t i : timer_inv o st -> instances st !! t = Some i ->
  exists i', fresh_random os_core_get_random t st = Def (count_random (put_timer t i' st)) /\
    timer_inv o (count_random (put_timer t i' st)) /\
    class i' = class i /\ jitter_pct i' = jitter_pct i /\ _clock i' = _clock i /\ _period i' = _period i /\
    instance_ok i'.
Proof.
  intros H Et. unfold fresh_random. rewrite (get_timer_at st t i Et). simpl.
  set (r := default 0 (os_core_get_random (random_calls st))).
  assert (0 <= r <= UINT32_MAX).
  { unfold r. destruct (os_core_get_random (random_calls st)) eqn:E; simpl; [eauto|unfold UINT32_MAX; lia]. }
  assert (instance_ok (with_random r i)).
  { destruct (inv_instance _ _ H t i Et) as [(? & ? & ? & ?) _]. by repeat split; simpl; try lia. }
  eexists. split; [done|]. split; [|done].
  apply inv_irrelevant; [|by left]. by eapply put_timer_same_inv.
Qed.

(** The timer is in flight: draw the random number, compute the clock, link. *)
Lemma start_flight_spec (C : Z -> Prop) t first interval st i k : timer_inv (Some t) st ->
  instances st !! t = Some i -> classes st !! class i = Some k ->
  (forall st1 j, now_times st1 = now_times st -> instance_ok j -> jitter_pct j = jitter_pct i -> C (_calc_clock st1 j first) /\ 0 < _calc_clock st1 j first) ->
  (periodic k = true -> 0 <= interval <= max_interval) ->
  exists st', (st ← (if _random i =? 0 then fresh_random os_core_get_random t st else Def st);
      timer ← get_timer st t; cls ← get_class st (class timer);
      tree_insert_node t (put_timer t (with_period (if periodic cls then interval else 0)
         (with_clock (_calc_clock st timer first) timer)) st)) = Def st' /\
    timer_wf st' /\ classes st' = classes st /\ now_times st' = now_times st /\
    _timer_info_list st' = _timer_info_list st /\
    _timer_tree st' ≡ₚ t :: _timer_tree st /\
    exists i', instances st' = <[t := i']> (instances st) /\ class i' = class i /\
      jitter_pct i' = jitter_pct i /\ _period i' = (if periodic k then interval else 0) /\ C (_clock i').
Proof.
  intros Hinv Et Ek Hclock Hint.
  assert (exists st1 i1, (if _random i =? 0 then fresh_random os_core_get_random t st else Def st) = Def st1 /\
    timer_inv (Some t) st1 /\ instances st1 !! t = Some i1 /\ class i1 = class i /\ jitter_pct i1 = jitter_pct i /\
    (forall j, <[t := j]> (instances st1) = <[t := j]> (instances st)) /\
    classes st1 = classes st /\ now_times st1 = now_times st /\ _timer_tree st1 = _timer_tree st /\
    _timer_info_list st1 = _timer_info_list st)
    as (st1 & i1 & E1 & Hinv1 & Et1 & Ec1 & Ej1 & Hins & Hcl & Hnow & Htree & Hil).
  { destruct (_random i =? 0); [|by exists st, i].
    destruct (fresh_random_inv _ st t i Hinv Et) as (i' & E & Hi' & ? & ? & ? & ? & _).
    eexists _, i'. split; [exact E|]. split; [done|]. simpl. rewrite lookup_insert_eq.
    repeat split; try done. intros j. by rewrite insert_insert_eq. }
  rewrite E1. simpl. rewrite (get_timer_at _ _ _ Et1). simpl. rewrite (get_class_at _ _ k) by congruence. simpl.
  set (i2 := with_period _ _). destruct (inv_instance _ _ Hinv1 t i1 Et1) as [Hok _].
  destruct (Hclock st1 i1 Hnow Hok Ej1) as [HC H0].
  assert (instance_ok i2).
  { destruct Hok as (? & ? & ? & ?). repeat split; simpl; try lia; destruct (periodic k); first [lia|specialize (Hint eq_refl); lia]. }
  destruct (insert_node_inv (put_timer t i2 st1) t i2) as (l & E2 & Hwf & Hl);
    [by eapply put_timer_flight_inv|simpl; by rewrite lookup_insert_eq|simpl; lia|].
  eexists. split; [exact E2|]. split; [done|]. simpl in *. rewrite Htree in Hl.
  repeat split; try done. exists i2. rewrite Hins, <- Ej1. done.
Qed.

Lemma start_ext_at (C : Z -> Prop) t first interval st i : timer_wf st -> instances st !! t = Some i ->
  (forall st1 j, now_times st1 = now_times st -> instance_ok j -> jitter_pct j = jitter_pct i -> C (_calc_clock st1 j first) /\ 0 < _calc_clock st1 j first) ->
  (forall k, classes st !! class i = Some k -> periodic k = true -> 0 <= interval <= max_interval) ->
  exists st', oonf_timer_start_ext os_core_get_random t first interval st = Def st' /\
    started_at C t interval i st st'.
Proof.
  intros Hwf Et Hclock Hint. destruct (inv_instance _ _ Hwf t i Et) as [Hok [k Ek]].
  unfold oonf_timer_start_ext. rewrite (get_timer_at st t i Et). simpl. rewrite (get_class_at st _ k Ek). simpl.
  assert (exists st1 k1, (if negb (_clock i =? 0) then
      st ← tree_remove_node t st; Def (put_class (class i) (with_changes (fun n => u32 (n + 1)) k) st)
      else Def (put_class (class i) (with_usage (fun n => u32 (n + 1)) k) st)) = Def st1 /\
    timer_inv (Some t) st1 /\ instances st1 = instances st /\ now_times st1 = now_times st /\
    _timer_info_list st1 = _timer_info_list st /\
    _timer_tree st1 = filter (fun x => x <> t) (_timer_tree st) /\
    classes st1 = <[class i := k1]> (classes st) /\ periodic k1 = periodic k /\
    _timer_in_callback k1 = _timer_in_callback k /\ _timer_stopped k1 = _timer_stopped k)
    as (st1 & k1 & E1 & Hinv & Hins & Hnow & Hil & Htree & Hcl & Hk1).
  { destruct (Z.eqb_spec (_clock i) 0) as [H0|H0]; simpl.
    - eexists _, _. split; [done|]. split; [by eapply usage_flight_inv; eauto|]. simpl.
      repeat split; try done. symmetry. apply filter_ne_id. intros Hx.
      apply (inv_tree _ _ Hwf) in Hx as [_ (j & Hj & ?)]. congruence.
    - destruct (remove_node_inv t st i Hwf Et H0) as [-> Hinv]. simpl.
      eexists _, _. split; [done|]. split; [by eapply put_class_inv|]. by simpl. }
  rewrite E1. simpl. rewrite <- Hins in Et.
  destruct (start_flight_spec C t first interval st1 i k1) as
    (st' & E & Hwf' & Hcl' & Hnow' & Hil' & Htree' & i' & Hi' & ? & ? & ? & HC); try done.
  { by rewrite Hcl, lookup_insert_eq. }
  { intros st2 j Hn. apply Hclock. congruence. }
  { destruct Hk1 as [-> _]. by apply Hint. }
  exists st'. rewrite Hins in Hi'. rewrite Hnow in *. split; [exact E|].
  split; [done|congruence|congruence| | |].
  - intros c k0 Hk0. rewrite Hcl', Hcl. destruct (decide (c = class i)) as [->|Hne].
    + rewrite lookup_insert_eq. exists k1. assert (k0 = k) as -> by congruence. done.
    + rewrite lookup_insert_ne by done. eauto.
  - exists i', k. destruct Hk1 as [<- _]. done.
  - by rewrite <- Htree.
Qed.

Lemma start_ext_spec t first interval st i : timer_wf st -> instances st !! t = Some i ->
  0 <= first <= max_interval -> 0 <= interval <= max_interval ->
  exists st', oonf_timer_start_ext os_core_get_random t first interval st = Def st' /\
    started t first interval i st st'.
Proof.
  intros Hwf Et Hfirst Hint.
  destruct (start_ext_at (fun c => now_times st + first - jitter_pct i * first / 100 < c <= now_times st + first + OONF_TIMER_SLICE /\ now_times st < c /\
      c mod OONF_TIMER_SLICE = 0)
    t first interval st i Hwf Et) as (st' & E & [H1 H2 H3 H4 H5 H6]); [|done|].
  - intros st1 j Hn Hj Ej. pose proof (inv_now _ _ Hwf) as Hnow. rewrite <- Hn in Hnow |- *.
    destruct (calc_clock_range st1 j first Hj Hnow Hfirst) as [Hr Hb]. pose proof (calc_clock_future st1 j first Hj Hnow Hfirst) as Hfut.
    rewrite <- Ej. split; [split_and!; (done || lia)|lia].
  - exists st'. split; [exact E|]. by split.
Qed.

Record stopped (t : addr) (i : timer_instance) (st st' : timer_state) : Prop := {
  stopped_wf : timer_wf st';
  stopped_now : now_times st' = now_times st;
  stopped_list : _timer_info_list st' = _timer_info_list st;
  stopped_timer : exists i', instances st' = <[t := i']> (instances st) /\
    _clock i' = 0 /\ class i' = class i /\ jitter_pct i' = jitter_pct i /\ _period i' = _period i;
  stopped_tree : _timer_tree st' = filter (fun x => x <> t) (_timer_tree st);
  stopped_classes c k : classes st !! c = Some k -> exists k', classes st' !! c = Some k' /\
    periodic k' = periodic k /\ _timer_in_callback k' = _timer_in_callback k /\
    _timer_stopped k' = _timer_stopped k ||
      bool_decide (_clock i <> 0 /\ c = class i /\ _timer_in_callback k = Some t);
}.

Lemma stop_spec t st i : timer_wf st -> instances st !! t = Some i ->
  exists st', oonf_timer_stop t st = Def st' /\ stopped t i st st'.
Proof.
  intros Hwf Et. unfold oonf_timer_stop. rewrite (get_timer_at st t i Et). simpl.
  destruct (Z.eqb_spec (_clock i) 0) as [H0|H0].
  { exists st. split; [done|]. split; try done.
    - exists i. by rewrite insert_id.
    - symmetry. apply filter_ne_id. intros Hx.
      apply (inv_tree _ _ Hwf) in Hx as [_ (j & Hj & ?)]. congruence.
    - intros c k Hk. exists k. rewrite bool_decide_false by naive_solver. by rewrite orb_false_r. }
  destruct (remove_node_inv t st i Hwf Et H0) as [-> Hinv]. simpl.
  destruct (inv_instance _ _ Hwf t i Et) as [Hok [k Ek]].
  set (i' := with_random 0 (with_clock 0 i)).
  assert (instance_ok i') as Hok'.
  { destruct Hok as (? & ? & ? & ?). repeat split; simpl; unfold UINT32_MAX in *; lia. }
  set (st1 := put_timer t i' _).
  assert (timer_inv (Some t) st1) as Hinv1 by (eapply put_timer_flight_inv; [exact Hinv|exact Et|done|done]).
  rewrite (get_class_at st1 _ k) by done. simpl.
  set (k' := if decide (_timer_in_callback _ = Some t) then _ else _).
  assert (_stat_usage k' = u32 (_stat_usage k - 1)) as Eu by (unfold k'; by destruct (decide _)).
  eexists. split; [done|]. split; simpl; try done.
  - change (timer_inv None (put_class (class i') k' st1)).
    eapply (usage_flight_inv st1 t i' k (Some t) None (fun n => u32 (n - 1))); try done; [|by right].
    unfold st1. simpl. by rewrite lookup_insert_eq.
  - by exists i'.
  - intros c k0 Hk0. destruct (decide (c = class i)) as [->|Hne].
    + rewrite lookup_insert_eq. exists k'. assert (k0 = k) as -> by congruence.
      split; [done|]. unfold k'. simpl. destruct (decide _) as [E|E]; simpl.
      * rewrite bool_decide_true by done. by rewrite orb_true_r.
      * rewrite bool_decide_false by naive_solver. by rewrite orb_false_r.
    + rewrite lookup_insert_ne by done. exists k0.
      rewrite bool_decide_false by naive_solver. by rewrite orb_false_r.
Qed.

(** ** What callers must respect *)

(** Callers hand over allocated timers, free only stopped ones, allocate
    cleared ones and stay within the intervals. *)
Definition op_ok (op : timer_op) (st : timer_state) : Prop :=
  match op with
  | Op_start_ext t first interval | Op_set_ext t first interval =>
      is_Some (instances st !! t) /\ 0 <= first <= max_interval /\ 0 <= interval <= max_interval
  | Op_stop t => is_Some (instances st !! t)
  | Op_add c | Op_remove c => is_Some (classes st !! c)
  | Op_alloc t timer => instances st !! t = None /\ _clock timer = 0 /\ instance_ok timer /\
      is_Some (classes st !! class timer)
  | Op_free t => exists i, instances st !! t = Some i /\ _clock i = 0
  end.

Fixpoint ops_ok (ops : list timer_op) (st : timer_state) : Prop :=
  match ops with
  | [] => True
  | op :: ops => op_ok op st /\ forall st', run_op os_core_get_random op st = Def st' -> ops_ok ops st'
  end.

(** Timers whose time has come. *)
Definition is_due (st : timer_state) (t : addr) : Prop :=
  t ∈ _timer_tree st /\ _clock (key_of (instances st) t) <= now_times st.

#[local] Instance is_due_dec st t : Decision (is_due st t).
Proof. unfold is_due. apply _. Defined.

Definition due (st : timer_state) : nat := length (filter (is_due st) (_timer_tree st)).

(** While [t] of class [info] is in its callback, it runs unless the flag
    says that it was stopped; then it is not due any more. *)
Definition firing (info t : addr) (st : timer_state) : Prop :=
  exists k, classes st !! info = Some k /\ _timer_in_callback k = Some t /\
    (_timer_stopped k = false -> exists i, instances st !! t = Some i /\ _clock i <> 0 /\ class i = info) /\
    (_timer_stopped k = true -> ~ is_due st t).

(** What every operation guarantees to [oonf_timer_walk]. *)
Record op_frame (st st' : timer_state) : Prop := {
  frame_wf : timer_wf st';
  frame_now : now_times st' = now_times st;
  frame_due t : is_due st' t -> is_due st t;
  frame_firing info t : firing info t st -> firing info t st';
  frame_class_dom c : is_Some (classes st !! c) -> is_Some (classes st' !! c);
}.

Lemma op_frame_trans st1 st2 st3 : op_frame st1 st2 -> op_frame st2 st3 -> op_frame st1 st3.
Proof. intros [] []. split; [done|congruence|eauto..]. Qed.

Lemma started_frame t first interval i st st' : instances st !! t = Some i ->
  started t first interval i st st' -> op_frame st st'.
Proof.
  intros Et [Hwf Hnow _ Hcl (i' & k & Hins & _ & Hci & _ & _ & _ & Hfut) Htree].
  assert (forall x, x <> t -> key_of (instances st') x = key_of (instances st) x) as Hk.
  { intros x Hx. by rewrite Hins, key_of_insert_ne. }
  assert (forall x, is_due st' x -> is_due st x) as Hdue.
  { unfold is_due. intros x. rewrite Htree, elem_of_cons, list_elem_of_filter, Hnow.
    intros [[->|[Hx Hin]] Hle]; [rewrite Hins, key_of_insert in Hle; lia|]. by rewrite Hk in Hle. }
  split; [done|done|done| |].
  - intros info t' (k0 & Hk0 & Hcb & Hrun & Hnd). destruct (Hcl _ _ Hk0) as (k1 & Hk1 & _ & Ecb & Es).
    exists k1. split; [done|]. split; [congruence|]. rewrite Es. split; [|by intros Hs ?%Hdue; apply Hnd].
    intros Hs.
    destruct (Hrun Hs) as (j & Hj & Hcj & Hinfo). rewrite Hins. destruct (decide (t' = t)) as [->|].
    + rewrite lookup_insert_eq. exists i'. assert (j = i) as -> by congruence.
      pose proof (inv_now _ _ Hwf). split; [done|]. split; [lia|congruence].
    + rewrite lookup_insert_ne by done. eauto.
  - intros c [k0 Hk0]. destruct (Hcl _ _ Hk0) as (k1 & -> & _). eauto.
Qed.

Lemma stopped_frame t i st st' : instances st !! t = Some i -> stopped t i st st' -> op_frame st st'.
Proof.
  intros Et [Hwf Hnow _ (i' & Hins & Hci & _) Htree Hcl].
  assert (forall x, is_due st' x -> x <> t /\ is_due st x) as Hdue.
  { unfold is_due. intros x. rewrite Htree, list_elem_of_filter, Hnow, Hins.
    intros [[Hx Hin] Hle]. by rewrite key_of_insert_ne in Hle. }
  split; [done|done|intros x Hx; by apply Hdue| |].
  - intros info t' (k0 & Hk0 & Hcb & Hrun & Hnd). destruct (Hcl _ _ Hk0) as (k1 & Hk1 & _ & Ecb & Es).
    exists k1. split; [done|]. split; [congruence|]. rewrite Es, orb_false_iff, orb_true_iff. split; cycle 1.
    { intros [Hs|Hb%bool_decide_eq_true_1] [Hne Hx]%Hdue; [by apply Hnd|]. destruct Hb as (_ & _ & Hb). congruence. }
    intros [Hs Hb%bool_decide_eq_false_1]. destruct (Hrun Hs) as (j & Hj & Hcj & Hinfo).
    rewrite Hins. destruct (decide (t' = t)) as [->|]; [|rewrite lookup_insert_ne by done; eauto].
    destruct Hb. assert (j = i) as -> by congruence. done.
  - intros c [k0 Hk0]. destruct (Hcl _ _ Hk0) as (k1 & -> & _). eauto.
Qed.

Lemma op_frame_refl st : timer_wf st -> op_frame st st.
Proof. by split. Qed.

(** Nodes of one class are stopped one by one; none of the tree's nodes goes
    away meanwhile. *)
Lemma stop_class_spec c ts st : timer_wf st -> (forall t, t ∈ ts -> is_Some (instances st !! t)) ->
  exists st', stop_class c ts st = Def st' /\ op_frame st st' /\
    _timer_info_list st' = _timer_info_list st /\
    (forall x, x ∈ _timer_tree st' <-> x ∈ _timer_tree st /\
      ~ (x ∈ ts /\ class (key_of (instances st) x) = c)) /\
    (forall x, class (key_of (instances st') x) = class (key_of (instances st) x)).
Proof.
  revert st. induction ts as [|t ts IH]; intros st Hwf Hts; simpl.
  { exists st. split; [done|]. split; [by apply op_frame_refl|]. split; [done|]. split; [|done].
    intros x. split; [|naive_solver]. intros ?. split; [done|]. by intros [?%elem_of_nil _]. }
  destruct (Hts t) as [i Et]; [by left|]. rewrite (get_timer_at st t i Et). simpl.
  destruct (decide (class i = c)) as [Hc|Hc]; simpl.
  - destruct (stop_spec t st i Hwf Et) as (st1 & -> & Hst). simpl.
    destruct (stopped_timer _ _ _ _ Hst) as (i' & Hins & _ & Ec & _).
    assert (forall x, class (key_of (instances st1) x) = class (key_of (instances st) x)) as Hcls.
    { intros x. rewrite Hins. destruct (decide (x = t)) as [->|]; [|by rewrite key_of_insert_ne].
      by rewrite key_of_insert, (key_of_at _ _ _ Et). }
    destruct (IH st1) as (st' & E & Hfr & Hil & Htree & Hcl).
    { apply Hst. }
    { intros x Hx. rewrite Hins. destruct (decide (x = t)) as [->|]; [by rewrite lookup_insert_eq|].
      rewrite lookup_insert_ne by done. apply Hts. by right. }
    exists st'. split; [done|]. split; [eapply op_frame_trans; [by eapply stopped_frame|done]|].
    split; [rewrite Hil; apply Hst|]. split.
    + intros x. rewrite Htree, Hcls, (stopped_tree _ _ _ _ Hst), list_elem_of_filter, elem_of_cons.
      destruct (decide (x = t)) as [->|]; [|naive_solver]. rewrite (key_of_at _ _ _ Et). naive_solver.
    + intros x. by rewrite Hcl.
  - destruct (IH st) as (st' & E & Hfr & Hil & Htree & Hcl); [done|intros; apply Hts; by right|].
    exists st'. split; [done|]. split; [done|]. split; [done|]. split; [|done].
    intros x. rewrite Htree, elem_of_cons. destruct (decide (x = t)) as [->|]; [|naive_solver].
    rewrite (key_of_at _ _ _ Et). naive_solver.
Qed.

Lemma alloc_frame t i st : timer_wf st -> op_ok (Op_alloc t i) st -> op_frame st (put_timer t i st).
Proof.
  intros Hwf (Hnone & Hc & Hok & Hcls). pose proof Hwf as [Hn Hs Ht Hf Hi Hu Hnow].
  assert (forall x, x ∈ _timer_tree st -> key_of (<[t := i]> (instances st)) x = key_of (instances st) x) as Hk.
  { intros x Hx. apply key_of_insert_ne. intros ->. apply Ht in Hx as [_ (j & Hj & _)]. congruence. }
  split; simpl; try done.
  - split; simpl; try done.
    + eapply tree_sorted_clocks; [|exact Hs]. intros x Hx. simpl. by rewrite Hk.
    + intros x. rewrite Ht. destruct (decide (x = t)) as [->|]; [|by rewrite lookup_insert_ne].
      rewrite lookup_insert_eq, Hnone. naive_solver congruence.
    + intros x j. destruct (decide (x = t)) as [->|]; [rewrite lookup_insert_eq|rewrite lookup_insert_ne by done; apply Hi].
      by intros [= <-].
    + intros c k Hk0. rewrite (Hu c k Hk0). unfold in_flight. do 2 f_equal. symmetry. apply running_ext; [done|].
      intros x Hx. simpl. by rewrite Hk.
  - unfold is_due. simpl. intros x [Hx Hle]. split; [done|]. by rewrite <- Hk.
  - intros info t' (k & Hk0 & Hcb & Hrun & Hnd). exists k. split; [done|]. split; [done|]. split; cycle 1.
    { unfold is_due. simpl. intros Hst [Hx Hle]. apply (Hnd Hst). split; [done|]. by rewrite <- Hk. }
    intros Hst.
    destruct (Hrun Hst) as (j & Hj & ?). exists j. simpl. rewrite lookup_insert_ne by congruence. done.
Qed.

Lemma free_frame t st : timer_wf st -> op_ok (Op_free t) st ->
  op_frame st (set_instances (delete t (instances st)) st).
Proof.
  intros Hwf (i & Et & Hc). pose proof Hwf as [Hn Hs Ht Hf Hi Hu Hnow].
  assert (t ∉ _timer_tree st) as Hout by (intros [_ (j & Hj & ?)]%Ht; congruence).
  assert (forall x, x ∈ _timer_tree st -> key_of (delete t (instances st)) x = key_of (instances st) x) as Hk.
  { intros x Hx. unfold key_of. rewrite lookup_delete_ne; [done|]. by intros ->. }
  split; simpl; try done.
  - split; simpl; try done.
    + eapply tree_sorted_clocks; [|exact Hs]. intros x Hx. simpl. by rewrite Hk.
    + intros x. rewrite Ht. destruct (decide (x = t)) as [->|]; [|by rewrite lookup_delete_ne].
      rewrite lookup_delete_eq. naive_solver congruence.
    + intros x j. rewrite lookup_delete_Some. intros [_ Hj]. eauto.
    + intros c k Hk0. rewrite (Hu c k Hk0). unfold in_flight. do 2 f_equal. symmetry. apply running_ext; [done|].
      intros x Hx. simpl. by rewrite Hk.
  - unfold is_due. simpl. intros x [Hx Hle]. split; [done|]. by rewrite <- Hk.
  - intros info t' (k & Hk0 & Hcb & Hrun & Hnd). exists k. split; [done|]. split; [done|]. split; cycle 1.
    { unfold is_due. simpl. intros Hst [Hx Hle]. apply (Hnd Hst). split; [done|]. by rewrite <- Hk. }
    intros Hst.
    destruct (Hrun Hst) as (j & Hj & ?). exists j. simpl. rewrite lookup_delete_ne by naive_solver. done.
Qed.

Lemma info_list_frame l st : timer_wf st -> op_frame st (set_info_list l st).
Proof. intros Hwf. split; try done. apply inv_irrelevant; eauto. Qed.

Lemma run_op_spec op st : timer_wf st -> op_ok op st ->
  exists st', run_op os_core_get_random op st = Def st' /\ op_frame st st'.
Proof.
  intros Hwf Hok. destruct op as [t first interval|t first interval|t|c|c|t i|t]; simpl in *.
  - destruct Hok as ([i Et] & ? & ?). destruct (start_ext_spec t first interval st i) as (st' & E & Hs); [done..|].
    exists st'. split; [done|]. by eapply started_frame.
  - destruct Hok as ([i Et] & ? & ?). unfold oonf_timer_set_ext. destruct (Z.eqb_spec first 0).
    + destruct (stop_spec t st i) as (st' & E & Hs); [done..|]. exists st'. split; [done|]. by eapply stopped_frame.
    + destruct (start_ext_spec t first interval st i) as (st' & E & Hs); [done..|].
      exists st'. split; [done|]. by eapply started_frame.
  - destruct Hok as [i Et]. destruct (stop_spec t st i) as (st' & E & Hs); [done..|].
    exists st'. split; [done|]. by eapply stopped_frame.
  - eexists. split; [done|]. by apply info_list_frame.
  - unfold oonf_timer_remove. destruct (decide _); [|eexists; split; [done|]; by apply op_frame_refl].
    destruct (stop_class_spec c (_timer_tree st) st Hwf) as (st' & -> & Hfr & _).
    { intros t Ht. apply (inv_tree _ _ Hwf) in Ht as [_ (i & Hi & _)]. eauto. }
    simpl. eexists. split; [done|]. eapply op_frame_trans; [done|]. apply info_list_frame. apply Hfr.
  - eexists. split; [done|]. by apply alloc_frame.
  - eexists. split; [done|]. by apply free_frame.
Qed.

Lemma run_ops_spec ops st : timer_wf st -> ops_ok ops st ->
  exists st', run_ops os_core_get_random ops st = Def st' /\ op_frame st st'.
Proof.
  revert st. induction ops as [|op ops IH]; intros st Hwf Hok; simpl in *.
  { exists st. split; [done|]. by apply op_frame_refl. }
  destruct Hok as [Hop Hops]. destruct (run_op_spec op st Hwf Hop) as (st1 & E & Hfr). rewrite E. simpl.
  destruct (IH st1) as (st' & -> & Hfr'); [apply Hfr|by apply Hops|].
  exists st'. split; [done|]. by eapply op_frame_trans.
Qed.

(** ** The walk *)

Section walk.
Context (callback : addr -> addr -> timer_state -> list timer_op).
(** Callbacks respect the contract whenever the walk calls them. *)
Context (callback_ok : forall info t st, timer_wf st -> firing info t st ->
  is_Some (instances st !! t) -> ops_ok (callback info t st) st).

Notation walk_step := (walk_step os_core_get_random os_clock_gettime64 callback).
Notation oonf_timer_walk := (oonf_timer_walk os_core_get_random os_clock_gettime64 callback).

(** The state in which the callback of [t] runs. *)
Lemma walk_prepare t i k st l : timer_wf st -> _timer_tree st = t :: l ->
  instances st !! t = Some i -> classes st !! class i = Some k -> _clock i <= now_times st ->
  exists st1, (if _period i =? 0 then oonf_timer_stop t (put_class (class i) (with_fired t k) st)
     else Def (put_class (class i) (with_fired t k) st)) = Def st1 /\
    timer_wf st1 /\ now_times st1 = now_times st /\ firing (class i) t st1 /\
    is_Some (instances st1 !! t) /\ (forall x, is_due st1 x -> is_due st x).
Proof.
  intros Hwf El Et Ek Hdue. set (st0 := put_class (class i) (with_fired t k) st).
  assert (timer_wf st0) as Hwf0 by (by eapply put_class_inv).
  assert (t ∈ _timer_tree st) as Hin by (rewrite El; by left).
  assert (_clock i <> 0) as Hc by (apply (inv_tree _ _ Hwf) in Hin as [_ (j & ? & ?)]; congruence).
  assert (classes st0 !! class i = Some (with_fired t k)) as Ek0 by (simpl; by rewrite lookup_insert_eq).
  destruct (Z.eqb_spec (_period i) 0) as [Hp|Hp].
  - destruct (stop_spec t st0 i Hwf0 Et) as (st1 & E & Hst). exists st1. split; [done|].
    pose proof (stopped_frame t i st0 st1 Et Hst) as Hfr. split; [apply Hst|]. split; [apply Hst|].
    split. { apply Hfr. exists (with_fired t k). split; [done|]. split; [done|]. split; [eauto|done]. }
    destruct (stopped_timer _ _ _ _ Hst) as (i' & Hins & _).
    split; [rewrite Hins, lookup_insert_eq; eauto|]. apply Hfr.
  - exists st0. split; [done|]. split; [done|]. split; [done|]. split.
    { exists (with_fired t k). split; [done|]. split; [done|]. split; [|done]. intros _. by exists i. }
    split; [simpl; eauto|]. done.
Qed.

Lemma due_lt st st' t : timer_wf st' -> (forall x, is_due st' x -> is_due st x) ->
  is_due st t -> ~ is_due st' t -> (due st' < due st)%nat.
Proof.
  intros Hwf Hsub Ht Ht'. unfold due.
  assert (t :: filter (is_due st') (_timer_tree st') ⊆+ filter (is_due st) (_timer_tree st)) as H.
  { apply NoDup_submseteq.
    - constructor; [by intros [? _]%list_elem_of_filter|]. apply NoDup_filter, Hwf.
    - intros x. rewrite elem_of_cons, !list_elem_of_filter. intros [->|[Hx _]].
      + split; [done|apply Ht].
      + split; [by apply Hsub|apply Hsub, Hx]. }
  apply submseteq_length in H. simpl in H. lia.
Qed.

(** The end of the loop body, once the callback is back. *)
Lemma walk_finish info t st k f : timer_wf st -> firing info t st -> classes st !! info = Some k ->
  f = id \/ f = with_long (fun n => u32 (n + 1)) ->
  exists st', (if negb (_timer_stopped (f k)) then
      st ← fresh_random os_core_get_random t (put_class info (f k) st);
      timer ← get_timer st t;
      st ← oonf_timer_start os_core_get_random t (_period timer) st;
      Def (Some st)
    else Def (Some (put_class info (f k) st))) = Def (Some st') /\
    timer_wf st' /\ now_times st' = now_times st /\
    (forall x, is_due st' x -> is_due st x) /\ ~ is_due st' t.
Proof.
  intros Hwf (k0 & Ek0 & _ & Hrun & Hnd) Ek Hf. assert (k0 = k) as -> by congruence.
  assert (timer_wf (put_class info (f k) st)) as Hwf1 by (eapply put_class_inv; [done|done|by destruct Hf as [->| ->]]).
  assert (_timer_stopped (f k) = _timer_stopped k) as -> by (by destruct Hf as [->| ->]).
  destruct (_timer_stopped k) eqn:Es; simpl; [eexists; split; [done|]; split; [done|]; split; [done|]; split; [done|by apply Hnd]|].
  destruct (Hrun eq_refl) as (i & Et & Hc & Hi).
  destruct (fresh_random_inv None _ t i Hwf1 Et) as (i1 & -> & Hwf2 & Hc1 & Hj1 & Hk1 & Hp1 & Hok1). simpl.
  rewrite (get_timer_at _ _ i1) by (simpl; by rewrite lookup_insert_eq). simpl.
  destruct (start_ext_spec t (_period i1) (_period i1) _ i1 Hwf2) as (st' & E & Hst);
    [simpl; by rewrite lookup_insert_eq|apply Hok1..|].
  unfold oonf_timer_start. rewrite E. simpl. exists st'. split; [done|]. split; [apply Hst|].
  split; [apply Hst|]. destruct (started_timer _ _ _ _ _ _ Hst) as (i' & k' & Hins & _ & _ & _ & _ & _ & Hfut & _).
  pose proof (started_now _ _ _ _ _ _ Hst) as Hnow. simpl in Hins, Hfut, Hnow.
  unfold is_due. rewrite Hnow, Hins. split.
  - intros x. rewrite (started_tree _ _ _ _ _ _ Hst), elem_of_cons, list_elem_of_filter. simpl.
    intros [[->|[Hx Hin]] Hle]; [rewrite key_of_insert in Hle; lia|].
    by rewrite !key_of_insert_ne in Hle by done.
  - rewrite key_of_insert. intros [_ Hle]. lia.
Qed.

(** One iteration: either nothing is due and the loop ends, or it fires a
    timer that was due, and this timer is not due any more. *)
Lemma walk_step_spec st : timer_wf st ->
  (walk_step st = Def None /\ forall t, ~ is_due st t) \/
  (exists st' t l, walk_step st = Def (Some st') /\ _timer_tree st = t :: l /\
    timer_wf st' /\ now_times st' = now_times st /\
    is_due st t /\ (forall x, is_due st' x -> is_due st x) /\ ~ is_due st' t).
Proof.
  intros Hwf. unfold Timer.walk_step. destruct (_timer_tree st) as [|t l] eqn:El.
  { left. split; [done|]. intros t [Ht _]. rewrite El in Ht. by apply elem_of_nil in Ht. }
  assert (t ∈ _timer_tree st) as Hin by (rewrite El; by left).
  apply (inv_tree _ _ Hwf) in Hin as Hin'. destruct Hin' as [_ (i & Et & Hc)].
  rewrite (get_timer_at _ _ _ Et). simpl. unfold oonf_clock_getNow.
  destruct (Z.ltb_spec (now_times st) (_clock i)) as [Hlt|Hle].
  { left. split; [done|]. intros x [Hx Hdue]. pose proof (inv_sorted _ _ Hwf) as Hs. rewrite El in Hs, Hx.
    apply elem_of_cons in Hx as [->|Hx]; [rewrite (key_of_at _ _ _ Et) in Hdue; lia|].
    inversion Hs as [|? ? _ Hall]; subst. rewrite Forall_forall in Hall. specialize (Hall x Hx).
    unfold key_le in Hall. rewrite avlcomp_le, (key_of_at _ _ _ Et) in Hall. lia. }
  destruct (inv_instance _ _ Hwf t i Et) as [_ [k Ek]]. rewrite (get_class_at _ _ _ Ek). simpl.
  destruct (walk_prepare t i k st l Hwf El Et Ek Hle) as (st1 & -> & Hwf1 & Hnow1 & Hf1 & Ht1 & Hdue1). simpl.
  assert (timer_wf (count_gettime st1)) as Hwf1' by (apply inv_irrelevant; auto).
  destruct (run_ops_spec (callback (class i) t (count_gettime st1)) (count_gettime st1) Hwf1')
    as (st2 & -> & Hfr); [by apply callback_ok|]. simpl.
  destruct (frame_firing _ _ Hfr (class i) t Hf1) as (k2 & Ek2 & Hfire).
  rewrite (get_class_at _ _ k2) by done. simpl.
  set (z := u64 _). assert (timer_wf (count_gettime st2)) as Hwf2 by (apply inv_irrelevant; [apply Hfr|auto]).
  destruct (walk_finish (class i) t (count_gettime st2) k2
    (if OONF_TIMER_SLICE <? z then with_long (fun n => u32 (n + 1)) else id) Hwf2)
    as (st' & E & Hwf' & Hnow' & Hsub & Hnot); [by exists k2|done|destruct (_ <? _); auto|].
  right. exists st', t, l. split.
  { rewrite <- E. by destruct (_ <? z). }
  split; [done|]. split; [done|]. split.
  { rewrite Hnow'. simpl. by rewrite (frame_now _ _ Hfr). }
  split; [split; [done|by rewrite (key_of_at _ _ _ Et)]|]. split; [|done].
  intros x Hx. apply Hdue1. by apply (frame_due _ _ Hfr), Hsub.
Qed.

(** C10: [oonf_timer_walk] terminates and touches no freed timer, whatever its
    callbacks do with timers (restart, stop or free the firing one or others,
    start new ones, remove classes): it needs at most one round per timer that
    is due when it starts, it keeps the scheduler's invariant, and when it
    returns nothing is due. *)
Theorem timer_walk_fires_all st fuel : timer_wf st -> (due st < fuel)%nat ->
  exists st', oonf_timer_walk fuel st = Def (Some st') /\ timer_wf st' /\
    now_times st' = now_times st /\ forall t, ~ is_due st' t.
Proof.
  revert st. induction fuel as [|fuel IH]; intros st Hwf Hfuel; [lia|]. simpl.
  destruct (walk_step_spec st Hwf) as [[-> Hnone]|(st1 & t & l & -> & _ & Hwf1 & Hnow1 & Ht & Hsub & Hnot)];
    simpl; [by exists st|].
  destruct (IH st1 Hwf1) as (st' & -> & Hwf' & Hnow' & Hnone).
  { pose proof (due_lt st st1 t Hwf1 Hsub Ht Hnot). lia. }
  exists st'. split; [done|]. split; [done|]. split; [congruence|done].
Qed.
End walk.

(** C27: every call of the scheduler's interface (and every allocation or
    release of an object with a timer in it) keeps the invariant: the tree
    holds exactly the running timers, once and in the order of their clocks, and
    each class counts its running timers.  No dangling timer is touched, the
    clock does not move and no timer becomes due early. *)
Theorem timer_api_invariant op st : timer_wf st -> op_ok op st ->
  exists st', run_op os_core_get_random op st = Def st' /\ timer_wf st' /\
    now_times st' = now_times st /\ forall t, is_due st' t -> is_due st t.
Proof.
  intros Hwf Hok. destruct (run_op_spec op st Hwf Hok) as (st' & E & []). eauto.
Qed.

(** C36: starting a timer, running or not, makes it run once, with the first
    deadline on a timeslice boundary (a multiple of [OONF_TIMER_SLICE]) in
    ([now + first - jitter], [now + first + slice]], the period set only for a periodic class; the next
    event of the scheduler is not later than this deadline. *)
Theorem timer_start_deadline t first interval st i k : timer_wf st ->
  instances st !! t = Some i -> classes st !! class i = Some k ->
  0 <= first <= max_interval -> 0 <= interval <= max_interval ->
  exists st' i', oonf_timer_start_ext os_core_get_random t first interval st = Def st' /\
    instances st' !! t = Some i' /\ oonf_timer_is_active i' = true /\
    now_times st + first - jitter_pct i * first / 100 < _clock i' <= now_times st + first + OONF_TIMER_SLICE /\
    now_times st < _clock i' /\ _clock i' mod OONF_TIMER_SLICE = 0 /\
    _period i' = (if periodic k then interval else 0) /\
    _timer_tree st' ≡ₚ t :: filter (fun x => x <> t) (_timer_tree st) /\
    oonf_timer_getNextEvent st' <= _clock i'.
Proof.
  intros Hwf Et Ek Hf Hi. destruct (start_ext_spec t first interval st i Hwf Et Hf Hi) as (st' & E & Hst).
  destruct (started_timer _ _ _ _ _ _ Hst) as (i' & k' & Hins & Ek' & _ & _ & Hp & Hr & Hfut & Hb).
  assert (k' = k) as -> by congruence. pose proof (inv_now _ _ Hwf) as Hnow.
  exists st', i'. split; [done|]. split; [by rewrite Hins, lookup_insert_eq|].
  split. { unfold oonf_timer_is_active. destruct (Z.eqb_spec (_clock i') 0); [lia|done]. }
  do 5 (split; [try done; apply Hst|]).
  pose proof (started_tree _ _ _ _ _ _ Hst) as Hp'. pose proof (inv_sorted _ _ (started_wf _ _ _ _ _ _ Hst)) as Hs.
  assert (t ∈ _timer_tree st') as Hin by (rewrite Hp'; by left).
  unfold oonf_timer_getNextEvent. destruct (_timer_tree st') as [|x l]; [by apply elem_of_nil in Hin|].
  assert (_clock i' = _clock (key_of (instances st') t)) as -> by (by rewrite Hins, key_of_insert).
  apply elem_of_cons in Hin as [->|Hin]; [lia|]. inversion Hs as [|? ? _ Hall]; subst.
  rewrite Forall_forall in Hall. specialize (Hall t Hin). unfold key_le in Hall. by rewrite avlcomp_le in Hall.
Qed.

(** removing a registered timer class stops exactly the running timers of
    that class. *)
Theorem timer_remove_class c st : timer_wf st -> c ∈ _timer_info_list st ->
  exists st', oonf_timer_remove c st = Def st' /\ timer_wf st' /\ c ∉ _timer_info_list st' /\
    forall t, t ∈ _timer_tree st' <-> t ∈ _timer_tree st /\ class (key_of (instances st) t) <> c.
Proof.
  intros Hwf Hc. unfold oonf_timer_remove. rewrite decide_True by done.
  destruct (stop_class_spec c (_timer_tree st) st Hwf) as (st' & -> & Hfr & Hil & Htree & _).
  { intros t Ht. apply (inv_tree _ _ Hwf) in Ht as [_ (i & Hi & _)]. eauto. }
  simpl. eexists. split; [done|]. split; [apply inv_irrelevant; [apply Hfr|eauto]|]. simpl. split.
  - rewrite list_elem_of_filter. naive_solver.
  - intros t. rewrite Htree. naive_solver.
Qed.

Lemma clock_update_wf st : timer_wf st -> 0 <= os_clock_gettime64 (gettime_calls st) - start_time st <= 2 ^ 62 ->
  timer_wf (oonf_clock_update os_clock_gettime64 st).
Proof.
  intros [] ?. unfold oonf_clock_update. rewrite u64_small by lia. by split.
Qed.

Lemma ops_ok_cons op ops st st' : run_op os_core_get_random op st = Def st' ->
  op_ok op st -> ops_ok ops st' -> ops_ok (op :: ops) st.
Proof. intros E Hop Hops. split; [done|]. intros st1 E1. by assert (st1 = st') as -> by congruence. Qed.

Lemma run_ops_wf ops st st' : timer_wf st -> ops_ok ops st ->
  run_ops os_core_get_random ops st = Def st' -> timer_wf st'.
Proof.
  intros Hwf Hok E. destruct (run_ops_spec ops st Hwf Hok) as (st1 & E' & Hfr).
  assert (st1 = st') as <- by congruence. apply Hfr.
Qed.
End proofs.

(** ** A concrete scheduler

    One periodic class (address 1) whose callback does nothing, one single
    shot class (address 2) whose callback frees the object of its timer. *)
Section example.
Definition demo_class (p : bool) : timer_class :=
  {| periodic := p; _stat_usage := 0; _stat_changes := 0; _stat_fired := 0; _stat_long := 0;
     _timer_in_callback := None; _timer_stopped := false |}.
Definition demo_timer (c : addr) (j : Z) : timer_instance :=
  {| class := c; jitter_pct := j; _period := 0; _random := 0; _clock := 0 |}.
Definition demo_init : timer_state :=
  {| instances := ∅; classes := {[1%positive := demo_class true; 2%positive := demo_class false]};
     _timer_info_list := [1%positive; 2%positive]; _timer_tree := []; now_times := 0; start_time := 0;
     random_calls := 0; gettime_calls := 0 |}.
Definition demo_random (n : nat) : option Z := if decide (n = 1%nat) then None else Some 2000000000.
Definition demo_gettime (n : nat) : Z := 1000 + 150 * Z.of_nat n.
Definition demo_callback (info t : addr) (st : timer_state) : list timer_op :=
  if decide (info = 2%positive) then [Op_stop t; Op_free t] else [].
Definition demo_ops : list timer_op :=
  [Op_alloc 10 (demo_timer 1 50); Op_alloc 11 (demo_timer 2 0);
   Op_start_ext 10 500 500; Op_start_ext 11 300 300; Op_set_ext 11 350 350].
Definition demo_state : timer_state :=
  match run_ops demo_random demo_ops demo_init with
  | Def st => oonf_clock_update demo_gettime st | Undef _ => demo_init end.

Lemma demo_random_u32 n r : demo_random n = Some r -> 0 <= r <= UINT32_MAX.
Proof. unfold demo_random, UINT32_MAX. destruct (decide _); [done|]. intros [= <-]. lia. Qed.

Lemma demo_init_wf : timer_wf 1000 demo_init.
Proof.
  split; simpl; try done; try lia.
  - constructor.
  - constructor.
  - intros t. split; [by intros ?%elem_of_nil|]. by intros [_ (i & Hi & _)].
  - intros c k. unfold running, in_flight. simpl.
    rewrite lookup_insert_Some, lookup_singleton_Some. by intros [[_ <-]|[_ [_ <-]]].
Qed.

Lemma demo_ops_ok : ops_ok demo_random 1000 demo_ops demo_init.
Proof.
  assert (instance_ok 1000 (demo_timer 1 50) /\ instance_ok 1000 (demo_timer 2 0)) as [].
  { unfold instance_ok, UINT32_MAX. simpl. lia. }
  unfold demo_ops.
  do 2 (eapply ops_ok_cons; [vm_compute; reflexivity
    |split; [reflexivity|split; [reflexivity|split; [done|by eexists]]]|]).
  do 3 (eapply ops_ok_cons; [vm_compute; reflexivity|split; [by eexists|lia]|]).
  done.
Qed.

Lemma demo_wf : timer_wf 1000 demo_state.
Proof.
  unfold demo_state. destruct (run_ops demo_random demo_ops demo_init) as [st|] eqn:E; [|by vm_compute in E].
  apply clock_update_wf.
  - eapply run_ops_wf; [apply demo_random_u32|lia|apply demo_init_wf|apply demo_ops_ok|exact E].
  - vm_compute in E. injection E as <-. vm_compute. done.
Qed.

Lemma demo_callback_ok info t st : timer_wf 1000 st -> firing info t st ->
  is_Some (instances st !! t) -> ops_ok demo_random 1000 (demo_callback info t st) st.
Proof.
  intros Hwf _ [i Et]. unfold demo_callback. destruct (decide _); [|done].
  split; [by eexists|]. intros st' E. destruct (stop_spec demo_random demo_random_u32 1000 ltac:(lia) t st i Hwf Et) as (st1 & E' & Hst).
  assert (st1 = st') as <- by (simpl in E; congruence).
  destruct (stopped_timer _ _ _ _ _ Hst) as (i' & Hins & Hc & _).
  split; [|done]. exists i'. by rewrite Hins, lookup_insert_eq.
Qed.

Lemma timer_walk_fires_all_witness :
  exists st', oonf_timer_walk demo_random demo_gettime demo_callback 3 demo_state = Def (Some st') /\
    timer_wf 1000 st' /\ now_times st' = now_times demo_state /\ forall t, ~ is_due st' t.
Proof.
  apply (timer_walk_fires_all demo_random demo_gettime demo_random_u32 1000 ltac:(lia) demo_callback
    demo_callback_ok demo_state 3 demo_wf).
  vm_compute. lia.
Defined.

Lemma timer_api_invariant_witness :
  exists st', run_op demo_random (Op_remove 2) demo_state = Def st' /\ timer_wf 1000 st' /\
    now_times st' = now_times demo_state /\ forall t, is_due st' t -> is_due demo_state t.
Proof.
  apply (timer_api_invariant demo_random demo_random_u32 1000 ltac:(lia) (Op_remove 2) demo_state demo_wf).
  eexists. vm_compute. reflexivity.
Defined.

Lemma timer_start_deadline_witness : exists i k,
  instances demo_state !! 10%positive = Some i /\ classes demo_state !! class i = Some k /\
  exists st' i', oonf_timer_start_ext demo_random 10 400 500 demo_state = Def st' /\
    instances st' !! 10%positive = Some i' /\ oonf_timer_is_active i' = true /\
    now_times demo_state + 400 - jitter_pct i * 400 / 100 < _clock i' <= now_times demo_state + 400 + OONF_TIMER_SLICE /\
    now_times demo_state < _clock i' /\ _clock i' mod OONF_TIMER_SLICE = 0 /\
    _period i' = (if periodic k then 500 else 0) /\
    _timer_tree st' ≡ₚ 10%positive :: filter (fun x => x <> 10%positive) (_timer_tree demo_state) /\
    oonf_timer_getNextEvent st' <= _clock i'.
Proof.
  eexists _, _. split; [vm_compute; reflexivity|]. split; [vm_compute; reflexivity|].
  apply (timer_start_deadline demo_random demo_random_u32 1000 ltac:(lia) 10 400 500 demo_state _ _ demo_wf);
    [vm_compute; reflexivity|vm_compute; reflexivity|lia|lia].
Defined.

Lemma timer_remove_class_witness :
  exists st', oonf_timer_remove 1 demo_state = Def st' /\ timer_wf 1000 st' /\ 1%positive ∉ _timer_info_list st' /\
    forall t, t ∈ _timer_tree st' <-> t ∈ _timer_tree demo_state /\ class (key_of (instances demo_state) t) <> 1%positive.
Proof.
  apply (timer_remove_class demo_random demo_random_u32 1000 ltac:(lia) 1 demo_state demo_wf). vm_compute. by left.
Defined.
End example.
