(* ===== verification/ValidityTimer.v ===== *)
(** A timer that says how long something is valid, as other components use the
    scheduler of src/base/oonf_timer.c: embedded in an object, without jitter,
    set again and again, stopped and freed with the object. *)

From Stdlib Require Import ZArith Lia Sorted.
From stdpp Require Import base list numbers option gmap.
From S2P Require Import Prelude AvlSpec Timer.

Local Open Scope Z_scope.

Section validity.
Context (os_core_get_random : nat -> option Z) (random_u32 : forall n r, os_core_get_random n = Some r -> 0 <= r <= UINT32_MAX).
Context (max_interval : Z) (max_interval_range : 0 <= max_interval <= 2 ^ 56).

(** Another deadline for the timer at [a]. *)
Record rescheduled (a : positive) (timers : timer_state) (i' : timer_instance) (timers' : timer_state) : Prop := {
  rs_wf : timer_wf max_interval timers';
  rs_instances : instances timers' = <[a := i']> (instances timers);
  rs_now : now_times timers' = now_times timers;
  rs_classes c k : classes timers !! c = Some k ->
    exists k', classes timers' !! c = Some k' /\ periodic k' = periodic k;
}.

Lemma validity_start_spec timers a i vtime : timer_wf max_interval timers ->
  instances timers !! a = Some i -> jitter_pct i = 0 -> 0 <= vtime <= max_interval ->
  exists timers' i', oonf_timer_start os_core_get_random a vtime timers = Def timers' /\
    rescheduled a timers i' timers' /\ class i' = class i /\ jitter_pct i' = 0 /\
    now_times timers + vtime < _clock i' <= now_times timers + vtime + OONF_TIMER_SLICE.
Proof.
  intros Hwf Ei Hj Hv.
  destruct (start_ext_spec os_core_get_random random_u32 max_interval max_interval_range a vtime vtime timers i)
    as (st1 & E1 & Hst); try done.
  destruct (started_timer _ _ _ _ _ _ _ Hst) as (i1 & k1 & Hins & _ & Hc1 & Hj1 & _ & Hr1 & _).
  rewrite Hj, Z.mul_0_l, Z.div_0_l, Z.sub_0_r in Hr1 by lia.
  exists st1, i1. split; [exact E1|]. split; [|by rewrite Hj1].
  split; [apply Hst|done|apply Hst|].
  intros c k Hk. destruct (started_classes _ _ _ _ _ _ _ Hst c k Hk) as (k' & ? & ? & _). eauto.
Qed.

Lemma validity_set_spec timers a i vtime : timer_wf max_interval timers ->
  instances timers !! a = Some i -> jitter_pct i = 0 -> 0 <= vtime <= max_interval ->
  exists timers' i', oonf_timer_set os_core_get_random a vtime timers = Def timers' /\
    rescheduled a timers i' timers' /\ class i' = class i /\ jitter_pct i' = 0 /\
    (vtime = 0 -> _clock i' = 0) /\
    (vtime <> 0 -> now_times timers + vtime < _clock i' <= now_times timers + vtime + OONF_TIMER_SLICE).
Proof.
  intros Hwf Ei Hj Hv. unfold oonf_timer_set, oonf_timer_set_ext. destruct (Z.eqb_spec vtime 0) as [->|Hv0].
  - destruct (stop_spec os_core_get_random random_u32 max_interval max_interval_range a timers i Hwf Ei) as (st2 & E2 & Hsp).
    destruct (stopped_timer _ _ _ _ _ Hsp) as (i2 & Hins2 & Hk2 & Hc2 & Hj2 & _).
    exists st2, i2. split; [exact E2|]. split; [|by rewrite Hj2].
    split; [apply Hsp|done|apply Hsp|].
    intros c k Hk. destruct (stopped_classes _ _ _ _ _ Hsp c k Hk) as (k' & ? & ? & _). eauto.
  - destruct (validity_start_spec timers a i vtime) as (st1 & i1 & E & Hr & ? & ? & ?); try done.
    exists st1, i1. split; [exact E|]. by split_and!.
Qed.

(** A stopped timer. *)
Lemma validity_stop_spec timers a i : timer_wf max_interval timers -> instances timers !! a = Some i -> jitter_pct i = 0 ->
  exists timers' i', oonf_timer_stop a timers = Def timers' /\
    rescheduled a timers i' timers' /\ class i' = class i /\ jitter_pct i' = 0 /\ _clock i' = 0.
Proof.
  intros Hwf Ei Hj. assert (0 <= 0 <= max_interval) as H0 by lia.
  destruct (validity_set_spec timers a i 0 Hwf Ei Hj H0) as (timers' & i' & E & ? & ? & ? & Hc & _).
  exists timers', i'. split; [exact E|]. split; [done|]. split; [done|]. split; [done|]. by apply Hc.
Qed.

(** Any other time, as long as the deadline is one: a time in the past is stored as
    a large unsigned number. *)
Lemma validity_set_any timers a i rel : timer_wf max_interval timers -> instances timers !! a = Some i -> jitter_pct i = 0 ->
  (forall k, classes timers !! class i = Some k -> periodic k = false) -> rel <> 0 -> 0 <= now_times timers + s64 rel <= 2 ^ 63 ->
  exists timers' i', oonf_timer_set os_core_get_random a rel timers = Def timers' /\
    rescheduled a timers i' timers' /\ class i' = class i /\ jitter_pct i' = 0 /\
    now_times timers + s64 rel < _clock i' <= now_times timers + s64 rel + OONF_TIMER_SLICE.
Proof.
  intros Hwf Ei Hj Hper H0 Hnow. unfold oonf_timer_set, oonf_timer_set_ext. destruct (Z.eqb_spec rel 0) as [?|_]; [done|].
  destruct (start_ext_at os_core_get_random random_u32 max_interval max_interval_range
    (fun c => now_times timers + s64 rel < c <= now_times timers + s64 rel + OONF_TIMER_SLICE) a rel rel timers i Hwf Ei) as (st1 & E1 & Hst).
  - intros st1 j Hn _ Ej. unfold _calc_clock, oonf_clock_get_absolute, oonf_clock_getNow. rewrite Ej, Hj, Hn. simpl negb. cbn iota.
    rewrite (u64_small (now_times timers + s64 rel)) by lia. unfold OONF_TIMER_SLICE. rewrite u64_small by lia.
    set (z := now_times timers + s64 rel + 100). pose proof (Z.mod_pos_bound z 100 ltac:(lia)). pose proof (Z.mod_le z 100 ltac:(lia) ltac:(lia)).
    split; lia.
  - intros k Hk E. rewrite (Hper k Hk) in E. done.
  - destruct (sa_timer _ _ _ _ _ _ _ Hst) as (i1 & k1 & Hins & _ & Hc1 & Hj1 & _ & Hr1).
    exists st1, i1. split; [exact E1|]. split; [|split; [done|split; [congruence|exact Hr1]]].
    split; [apply Hst|done|apply Hst|].
    intros c k Hk. destruct (sa_classes _ _ _ _ _ _ _ Hst c k Hk) as (k' & ? & ? & _). eauto.
Qed.

(** The cleared timer of a new object. *)
Definition cleared_timer (info : positive) : timer_instance :=
  {| class := info; jitter_pct := 0; _period := 0; _random := 0; _clock := 0 |}.

Lemma validity_alloc timers a info : timer_wf max_interval timers -> instances timers !! a = None -> is_Some (classes timers !! info) ->
  timer_wf max_interval (put_timer a (cleared_timer info) timers).
Proof.
  intros Hwf Ha Hc. apply (alloc_frame os_core_get_random random_u32 max_interval max_interval_range); [done|].
  split; [done|]. split; [done|]. split; [|done]. unfold instance_ok, UINT32_MAX. simpl. lia.
Qed.

Lemma validity_free timers a i : timer_wf max_interval timers -> instances timers !! a = Some i -> _clock i = 0 ->
  timer_wf max_interval (set_instances (delete a (instances timers)) timers).
Proof.
  intros Hwf Hi Hc. apply (free_frame os_core_get_random random_u32 max_interval max_interval_range a timers); [done|].
  by exists i.
Qed.
End validity.
