(* ===== verification/DuplicateSet.v ===== *)
(** Duplicate detection of messages, src/base/oonf_duplicate_set.c: a tree of
    entries keyed by message type and originator, each with a sliding window of
    32 sequence numbers and a validity timer. *)

From Stdlib Require Import ZArith Lia Sorted.
From stdpp Require Import base list numbers option gmap sets.
From S2P Require Import Prelude AvlSpec Netaddr Timer ValidityTimer.

Local Open Scope Z_scope.
Local Open Scope cint_scope.

Definition OONF_DUPSET_MAXIMUM_TOO_OLD : Z := 8.

Inductive oonf_duplicate_result :=
  | OONF_DUPSET_TOO_OLD
  | OONF_DUPSET_DUPLICATE
  | OONF_DUPSET_NEW
  | OONF_DUPSET_CURRENT
  | OONF_DUPSET_NEWEST
  | OONF_DUPSET_FIRST.

#[export] Instance oonf_duplicate_result_eq_dec : EqDecision oonf_duplicate_result.
Proof. solve_decision. Defined.

Inductive oonf_dupset_type :=
  OONF_DUPSET_8BIT | OONF_DUPSET_16BIT | OONF_DUPSET_32BIT | OONF_DUPSET_64BIT.

(** [struct oonf_duplicate_entry_key] *)
Record oonf_duplicate_entry_key := { key_addr : netaddr; key_msg_type : Z }.

(** [struct oonf_duplicate_entry]: [entry_at] is the address of the entry and
    of the timer instance [_vtime] in it; the backpointer to the set is left
    out, there is one set. *)
Record oonf_duplicate_entry := {
  entry_at : positive;
  entry_key : oonf_duplicate_entry_key;
  history : Z;
  current : Z;
  too_old_count : Z;
}.

#[export] Instance oonf_duplicate_entry_key_eq_dec : EqDecision oonf_duplicate_entry_key.
Proof. solve_decision. Defined.
#[export] Instance oonf_duplicate_entry_eq_dec : EqDecision oonf_duplicate_entry.
Proof. solve_decision. Defined.

(** [struct oonf_duplicate_set] *)
Record oonf_duplicate_set := {
  dup_tree : list oonf_duplicate_entry;
  _mask : Z;
  _limit : Z;
  _offset : Z;
}.

Definition set_dup_tree (l : list oonf_duplicate_entry) (s : oonf_duplicate_set) : oonf_duplicate_set :=
  {| dup_tree := l; _mask := _mask s; _limit := _limit s; _offset := _offset s |}.

(** [_mask_values] *)
Definition _mask_values (type : oonf_dupset_type) : Z :=
  match type with
  | OONF_DUPSET_8BIT => 255
  | OONF_DUPSET_16BIT => 65535
  | OONF_DUPSET_32BIT => 4294967295
  | OONF_DUPSET_64BIT => 0
  end.

Definition oonf_duplicate_set_add (type : oonf_dupset_type) : oonf_duplicate_set :=
  match type with
  | OONF_DUPSET_64BIT => {| dup_tree := []; _mask := 0; _limit := 0; _offset := 0 |}
  | _ => let mask := _mask_values type in
      {| dup_tree := []; _mask := mask; _limit := mask / 2; _offset := mask + 1 |}
  end.

Definition _avl_cmp_dupkey (k1 k2 : oonf_duplicate_entry_key) : Z :=
  if negb (key_msg_type k1 =? key_msg_type k2) then key_msg_type k1 - key_msg_type k2
  else avl_comp_netaddr (key_addr k1) (key_addr k2).

Definition oonf_duplicate_is_new (result : oonf_duplicate_result) : bool :=
  bool_decide (result = OONF_DUPSET_NEW) || bool_decide (result = OONF_DUPSET_NEWEST) ||
  bool_decide (result = OONF_DUPSET_FIRST).

Definition _seqno_difference (set : oonf_duplicate_set) (seqno1 seqno2 : Z) : Z :=
  let diff := u64 (seqno1 - seqno2) in
  let reldiff := s64 diff in
  if negb (_mask set =? 0) then
    let reldiff := reldiff .& _mask set in
    if _limit set <? reldiff then reldiff - _offset set else reldiff
  else reldiff.

Definition with_window (h c n : Z) (e : oonf_duplicate_entry) : oonf_duplicate_entry :=
  {| entry_at := entry_at e; entry_key := entry_key e; history := h; current := c; too_old_count := n |}.

(** [1 << 31] is the sign bit of an [int]; the compilers in use give the bit
    pattern, and so does [bitmask]. *)
Definition _test (dupset : oonf_duplicate_set) (entry : oonf_duplicate_entry) (seqno : Z) (set : bool)
    : oonf_duplicate_result * oonf_duplicate_entry :=
  if seqno =? current entry then (OONF_DUPSET_CURRENT, entry)
  else
    let diff := _seqno_difference dupset seqno (current entry) in
    if diff <? -31 then
      let count := u16 (too_old_count entry + 1) in
      if OONF_DUPSET_MAXIMUM_TOO_OLD <? count then
        (OONF_DUPSET_NEWEST, with_window 1 seqno 0 entry)
      else (OONF_DUPSET_TOO_OLD, with_window (history entry) (current entry) count entry)
    else
      let entry := with_window (history entry) (current entry) 0 entry in
      if diff <=? 0 then
        let bitmask := u32 (1 .<< u32 (- diff)) in
        if negb (history entry .& bitmask =? 0) then (OONF_DUPSET_DUPLICATE, entry)
        else if set then (OONF_DUPSET_NEW, with_window (history entry .| bitmask) (current entry) 0 entry)
        else (OONF_DUPSET_NEW, entry)
      else if set then
        if 32 <=? diff then (OONF_DUPSET_NEWEST, with_window 1 seqno 0 entry)
        else (OONF_DUPSET_NEWEST, with_window (u64 (history entry .<< diff) .| 1) seqno 0 entry)
      else (OONF_DUPSET_NEWEST, entry).

(** The tree node of an entry is changed in place: its key stays. *)
Definition replace_entry (e : oonf_duplicate_entry) (s : oonf_duplicate_set) : oonf_duplicate_set :=
  set_dup_tree (map (fun x => if decide (entry_at x = entry_at e) then e else x) (dup_tree s)) s.

Definition find_entry (key : oonf_duplicate_entry_key) (s : oonf_duplicate_set) : option oonf_duplicate_entry :=
  tree_find entry_key _avl_cmp_dupkey key (dup_tree s).

Definition oonf_duplicate_test (set : oonf_duplicate_set) (msg_type : Z) (originator : netaddr) (seqno : Z)
    : oonf_duplicate_result * oonf_duplicate_set :=
  let key := {| key_addr := originator; key_msg_type := msg_type |} in
  match find_entry key set with
  | None => (OONF_DUPSET_FIRST, set)
  | Some entry =>
      let '(result, entry) := _test set entry seqno false in (result, replace_entry entry set)
  end.

Section timers.
Context (os_core_get_random : nat -> option Z).
(** The address of [_vtime_info], a class of single shot timers. *)
Context (_vtime_info : positive).

(** The cleared instance of a new entry. *)
Definition vtime_timer : timer_instance :=
  {| class := _vtime_info; jitter_pct := 0; _period := 0; _random := 0; _clock := 0 |}.

(** [memory] is the answer of [oonf_class_malloc]. *)
Definition oonf_duplicate_entry_add (set : oonf_duplicate_set) (timers : timer_state)
    (msg_type : Z) (originator : netaddr) (seqno vtime : Z) (memory : option positive)
    : outcome (oonf_duplicate_result * oonf_duplicate_set * timer_state) :=
  let key := {| key_addr := originator; key_msg_type := msg_type |} in
  match find_entry key set with
  | None =>
      match memory with
      | None => Def (OONF_DUPSET_TOO_OLD, set, timers)
      | Some at_ =>
          let entry := {| entry_at := at_; entry_key := key; history := 1; current := seqno; too_old_count := 0 |} in
          timers ← oonf_timer_start os_core_get_random at_ vtime (put_timer at_ vtime_timer timers);
          let set := match tree_insert entry_key _avl_cmp_dupkey entry (dup_tree set) with
                     | Some l => set_dup_tree l set | None => set end in
          timers ← oonf_timer_set os_core_get_random at_ vtime timers;
          Def (OONF_DUPSET_FIRST, set, timers)
      end
  | Some entry =>
      let '(result, entry) := _test set entry seqno true in
      timers ← (if oonf_duplicate_is_new result
                then oonf_timer_set os_core_get_random (entry_at entry) vtime timers else Def timers);
      Def (result, replace_entry entry set, timers)
  end.

(** [container_of(ptr, struct oonf_duplicate_entry, _vtime)] is the entry at
    the timer's address; it leaves the tree and its memory is freed. *)
Definition _remove_duplicate_entry (at_ : positive) (set : oonf_duplicate_set) (timers : timer_state)
    : outcome (oonf_duplicate_set * timer_state) :=
  timers ← oonf_timer_stop at_ timers;
  Def (set_dup_tree (filter (fun e => entry_at e <> at_) (dup_tree set)) set,
       set_instances (delete at_ (instances timers)) timers).

Definition _cb_vtime (ptr : positive) (set : oonf_duplicate_set) (timers : timer_state)
    : outcome (oonf_duplicate_set * timer_state) :=
  _remove_duplicate_entry ptr set timers.

Fixpoint remove_entries (entries : list oonf_duplicate_entry) (set : oonf_duplicate_set) (timers : timer_state)
    : outcome (oonf_duplicate_set * timer_state) :=
  match entries with
  | [] => Def (set, timers)
  | e :: entries =>
      '(set, timers) ← _remove_duplicate_entry (entry_at e) set timers;
      remove_entries entries set timers
  end.

Definition oonf_duplicate_set_remove (set : oonf_duplicate_set) (timers : timer_state)
    : outcome (oonf_duplicate_set * timer_state) :=
  remove_entries (dup_tree set) set timers.
End timers.

(** ** Sequence numbers *)

Definition dup_width (type : oonf_dupset_type) : Z :=
  match type with
  | OONF_DUPSET_8BIT => 8 | OONF_DUPSET_16BIT => 16 | OONF_DUPSET_32BIT => 32 | OONF_DUPSET_64BIT => 64
  end.

(** A set of the given type, whatever its entries. *)
Definition set_of_type (type : oonf_dupset_type) (s : oonf_duplicate_set) : Prop :=
  _mask s = _mask (oonf_duplicate_set_add type) /\ _limit s = _limit (oonf_duplicate_set_add type) /\
  _offset s = _offset (oonf_duplicate_set_add type).

Lemma dup_width_cases type : dup_width type = 8 \/ dup_width type = 16 \/ dup_width type = 32 \/ dup_width type = 64.
Proof. destruct type; simpl; lia. Qed.

Lemma swrap_wrap w z : 0 <= w -> swrap w (wrap w z) = swrap w z.
Proof. intros. unfold swrap, wrap. by rewrite Zmod_mod. Qed.

(** A signed remainder is the only representative in its half-open range. *)
Lemma swrap_unique w z d : 1 <= w -> - 2 ^ (w - 1) <= d < 2 ^ (w - 1) -> (z - d) mod 2 ^ w = 0 -> swrap w z = d.
Proof.
  intros Hw Hd Hm. assert (2 ^ w = 2 * 2 ^ (w - 1)) as E by (rewrite <- Z.pow_succ_r by lia; f_equal; lia).
  assert (wrap w z = if d <? 0 then d + 2 ^ w else d) as Hz.
  { unfold wrap. apply Z.mod_divide in Hm as [q Hq]; [|lia]. destruct (Z.ltb_spec d 0).
    - symmetry. apply (Z.mod_unique _ _ (q - 1)); lia.
    - symmetry. apply (Z.mod_unique _ _ q); lia. }
  unfold swrap. rewrite Hz. destruct (Z.ltb_spec d 0).
  - destruct (Z.ltb_spec (d + 2 ^ w) (2 ^ (w - 1))); lia.
  - destruct (Z.ltb_spec d (2 ^ (w - 1))); lia.
Qed.

(** The difference is the signed distance at the width of the set. *)
Lemma seqno_difference_swrap type s s1 s2 : set_of_type type s ->
  _seqno_difference s s1 s2 = swrap (dup_width type) (s1 - s2).
Proof.
  intros (Em & El & Eo). unfold _seqno_difference. rewrite Em, El, Eo.
  assert (forall n, 0 <= n <= 64 -> Z.land (s64 (u64 (s1 - s2))) (2 ^ n - 1) = wrap n (s1 - s2)) as Hland.
  { intros n Hn. rewrite land_mask by lia. unfold s64, u64. rewrite swrap_wrap by lia.
    assert (exists q, swrap 64 (s1 - s2) = (s1 - s2) + q * 2 ^ 64) as [q ->].
    { unfold swrap, wrap. pose proof (Z.div_mod (s1 - s2) (2 ^ 64) ltac:(lia)).
      destruct (_ <? _); [exists (- ((s1 - s2) / 2 ^ 64))|exists (- ((s1 - s2) / 2 ^ 64) - 1)]; lia. }
    replace (2 ^ 64) with (2 ^ (64 - n) * 2 ^ n) by (rewrite <- Z.pow_add_r by lia; f_equal; lia).
    unfold wrap. rewrite Z.mul_assoc. by rewrite Z_mod_plus_full. }
  assert (forall n lim, 1 <= n <= 64 -> lim = 2 ^ (n - 1) - 1 ->
    (let reldiff := Z.land (s64 (u64 (s1 - s2))) (2 ^ n - 1) in
     if lim <? reldiff then reldiff - 2 ^ n else reldiff) = swrap n (s1 - s2)) as Hcase.
  { intros n lim Hn ->. cbv zeta. rewrite Hland by lia. unfold swrap.
    destruct (Z.ltb_spec (2 ^ (n - 1) - 1) (wrap n (s1 - s2))), (Z.ltb_spec (wrap n (s1 - s2)) (2 ^ (n - 1))); lia. }
  destruct type; [apply (Hcase 8 127)|apply (Hcase 16 32767)|apply (Hcase 32 2147483647)|]; try lia.
  cbn -[swrap u64 s64 Z.sub]. unfold s64, u64. by rewrite swrap_wrap.
Qed.

Lemma seqno_distance type s x y : set_of_type type s ->
  - 2 ^ (dup_width type - 1) <= x - y < 2 ^ (dup_width type - 1) ->
  _seqno_difference s (wrap (dup_width type) x) (wrap (dup_width type) y) = x - y.
Proof.
  intros Hs Hr. rewrite (seqno_difference_swrap type) by done.
  pose proof (dup_width_cases type). apply swrap_unique; [lia|done|].
  unfold wrap. rewrite <- (Zminus_mod_idemp_l (_ - _)), <- Zminus_mod, Zminus_mod_idemp_l.
  by rewrite Z.sub_diag.
Qed.

(** ** The abstract window

    Sequence numbers without wrap-around and the set of all that were taken. *)
Record window := { newest : Z; seen : gset Z; behind : Z }.

(** The window is the newest number and the 31 below it: a number 32 behind the
    newest one is too old already, where the comments of the code say that one is
    [OONF_DUPSET_TOO_OLD] if it is more than 32 behind. *)
Definition window_numbers : Z := 32.

(** What a message with sequence number [x] is to the window. *)
Definition window_test (wd : window) (x : Z) : oonf_duplicate_result * window :=
  if x =? newest wd then (OONF_DUPSET_CURRENT, wd)
  else if window_numbers <=? newest wd - x then
    if OONF_DUPSET_MAXIMUM_TOO_OLD <=? behind wd then
      (OONF_DUPSET_NEWEST, {| newest := x; seen := {[x]}; behind := 0 |})
    else (OONF_DUPSET_TOO_OLD, {| newest := newest wd; seen := seen wd; behind := behind wd + 1 |})
  else if decide (x ∈ seen wd) then
    (OONF_DUPSET_DUPLICATE, {| newest := newest wd; seen := seen wd; behind := 0 |})
  else (if x <? newest wd then OONF_DUPSET_NEW else OONF_DUPSET_NEWEST,
        {| newest := Z.max x (newest wd); seen := {[x]} ∪ seen wd; behind := 0 |}).

Definition window_start (x : Z) : window := {| newest := x; seen := {[x]}; behind := 0 |}.

Definition window_wf (wd : window) : Prop :=
  newest wd ∈ seen wd /\ (forall x, x ∈ seen wd -> x <= newest wd) /\
  0 <= behind wd <= OONF_DUPSET_MAXIMUM_TOO_OLD.

(** An entry shows the last 32 numbers of its window. *)
Record window_refines (w : Z) (e : oonf_duplicate_entry) (wd : window) : Prop := {
  ref_wf : window_wf wd;
  ref_current : current e = wrap w (newest wd);
  ref_count : too_old_count e = behind wd;
  ref_history k : 0 <= k < 32 -> Z.testbit (history e) k = bool_decide (newest wd - k ∈ seen wd);
}.

Lemma window_test_wf wd x : window_wf wd -> window_wf (window_test wd x).2.
Proof.
  unfold window_test, window_wf, OONF_DUPSET_MAXIMUM_TOO_OLD. intros (Hin & Hle & Hb).
  destruct (Z.eqb_spec x (newest wd)); [done|].
  destruct (Z.leb_spec window_numbers (newest wd - x)); [destruct (Z.leb_spec 8 (behind wd))|destruct (decide _)]; simpl.
  - split; [set_solver|]. split; [set_solver by lia|lia].
  - split; [done|]. split; [done|lia].
  - split; [done|]. split; [done|lia].
  - split; [destruct (Z.max_spec x (newest wd)) as [[? ->]|[? ->]]; set_solver|].
    split; [|lia]. intros y [->%elem_of_singleton|Hy]%elem_of_union; [lia|]. specialize (Hle y Hy). lia.
Qed.

Lemma window_start_refines w x (k : oonf_duplicate_entry_key) a :
  window_refines w {| entry_at := a; entry_key := k; history := 1; current := wrap w x; too_old_count := 0 |}
    (window_start x).
Proof.
  split; simpl; try done.
  - unfold window_wf, OONF_DUPSET_MAXIMUM_TOO_OLD. simpl. split; [set_solver|]. split; [set_solver by lia|lia].
  - intros j Hj. destruct (Z.eq_dec j 0) as [->|Hj0].
    + rewrite bool_decide_true by set_solver by lia. done.
    + rewrite bool_decide_false by set_solver by lia. apply Z.bits_above_log2; simpl; lia.
Qed.

(** The single bit of a sequence number [n] behind the newest one. *)
Lemma bitmask_bit n : 0 <= n < 32 -> u32 (1 .<< u32 n) = 2 ^ n.
Proof.
  intros Hn. rewrite (u32_small n) by lia. rewrite Z.shiftl_1_l. apply u32_small.
  split; [by apply Z.pow_nonneg|]. change 4294967296 with (2 ^ 32). apply Z.pow_lt_mono_r; lia.
Qed.

(** Bits of the window after a late number is filled in. *)
Lemma fill_bit wd x k : bool_decide (newest wd - k ∈ seen wd) || (- (x - newest wd) =? k) =
  bool_decide (newest wd - k ∈ {[x]} ∪ seen wd).
Proof.
  destruct (Z.eqb_spec (- (x - newest wd)) k) as [Ek|Ek].
  - rewrite orb_true_r, bool_decide_true; [done|]. apply elem_of_union_l, elem_of_singleton. lia.
  - rewrite orb_false_r. apply bool_decide_ext. rewrite elem_of_union, elem_of_singleton.
    split; [tauto|]. intros [?|?]; [lia|done].
Qed.

(** Bits of the window after it advances to [x]. *)
Lemma advance_bit wd x k : (forall y, y ∈ seen wd -> y <= newest wd) -> newest wd < x -> 0 <= k ->
  bool_decide (x - k ∈ {[x]} ∪ seen wd) =
    (k =? 0) || ((x - newest wd <=? k) && bool_decide (newest wd - (k - (x - newest wd)) ∈ seen wd)).
Proof.
  intros Hle Hx Hk. replace (newest wd - (k - (x - newest wd))) with (x - k) by lia.
  destruct (Z.eqb_spec k 0) as [->|Hk0]; simpl.
  - rewrite bool_decide_true; [done|]. apply elem_of_union_l, elem_of_singleton. lia.
  - destruct (Z.leb_spec (x - newest wd) k); simpl.
    + apply bool_decide_ext. rewrite elem_of_union, elem_of_singleton. split; [|tauto].
      intros [?|?]; [lia|done].
    + apply bool_decide_eq_false. rewrite elem_of_union, elem_of_singleton.
      intros [?|Hy]; [lia|]. specialize (Hle _ Hy). lia.
Qed.

(** One test with [set] refines one step of the window, as long as the number
    is within half the sequence space of the newest one. *)
Lemma test_refines type s e wd x : set_of_type type s -> window_refines (dup_width type) e wd ->
  - 2 ^ (dup_width type - 1) <= x - newest wd < 2 ^ (dup_width type - 1) ->
  exists e', _test s e (wrap (dup_width type) x) true = ((window_test wd x).1, e') /\
    window_refines (dup_width type) e' (window_test wd x).2 /\
    entry_at e' = entry_at e /\ entry_key e' = entry_key e.
Proof.
  intros Hs [Hwf Hc Hn Hh] Hr. pose proof (window_test_wf wd x Hwf) as Hwf'.
  pose proof (dup_width_cases type) as Hw. set (w := dup_width type) in *.
  assert (_seqno_difference s (wrap w x) (current e) = x - newest wd) as Ediff by (rewrite Hc; by apply seqno_distance).
  assert (wrap w x = current e <-> x = newest wd) as Eeq.
  { rewrite Hc. split; [|congruence]. intros E. pose proof (seqno_distance type s x (newest wd) Hs Hr) as E1.
    pose proof (seqno_distance type s (newest wd) (newest wd) Hs) as E2. fold w in E1, E2.
    rewrite E in E1. rewrite E2 in E1; [lia|]. pose proof (Z.pow_pos_nonneg 2 (w - 1)). lia. }
  destruct Hwf as (Hin & Hle & Hb). unfold _test, window_test in *. rewrite Ediff, Hn.
  unfold OONF_DUPSET_MAXIMUM_TOO_OLD in *.
  destruct (Z.eqb_spec (wrap w x) (current e)) as [E|E], (Z.eqb_spec x (newest wd)) as [E'|E']; try tauto.
  { exists e. done. }
  destruct (Z.ltb_spec (x - newest wd) (-31)), (Z.leb_spec window_numbers (newest wd - x)); try (unfold window_numbers in *; lia).
  { rewrite u16_small by lia. destruct (Z.ltb_spec 8 (behind wd + 1)), (Z.leb_spec 8 (behind wd)); try lia.
    - eexists. split; [done|]. split; [|done]. apply (window_start_refines w x (entry_key e) (entry_at e)).
    - eexists. split; [done|]. split; [|done]. by split. }
  destruct (Z.leb_spec (x - newest wd) 0) as [Hold|Hnew].
  - rewrite bitmask_bit, land_pow2 by lia. cbn [history with_window]. rewrite Hh by lia.
    replace (newest wd - - (x - newest wd)) with x by lia. destruct (decide (x ∈ seen wd)) as [Hx|Hx].
    + rewrite bool_decide_true by done. eexists. split; [done|]. split; [|done]. by split.
    + rewrite bool_decide_false by done. destruct (Z.ltb_spec x (newest wd)); [|lia].
      eexists. split; [done|]. split; [|done]. split; simpl; [done|by rewrite Z.max_r by lia|done|].
      intros k Hk. rewrite Z.lor_spec, Hh, Z.max_r, Z.pow2_bits_eqb by lia. apply fill_bit.
  - destruct (decide (x ∈ seen wd)) as [Hx|Hx]; [specialize (Hle x Hx); lia|].
    destruct (Z.ltb_spec x (newest wd)); [lia|].
    destruct (Z.leb_spec 32 (x - newest wd)).
    + eexists. split; [done|]. split; [|done]. split; simpl; [done|by rewrite Z.max_l by lia|done|].
      intros k Hk. rewrite Z.max_l by lia. rewrite (advance_bit wd x k Hle) by lia.
      destruct (Z.leb_spec (x - newest wd) k); [lia|]. simpl. rewrite orb_false_r.
      destruct (Z.eqb_spec k 0) as [->|]; [done|]. apply Z.bits_above_log2; simpl; lia.
    + eexists. split; [done|]. split; [|done]. split; simpl; [done|by rewrite Z.max_l by lia|done|].
      intros k Hk. rewrite Z.max_l by lia. rewrite (advance_bit wd x k Hle) by lia.
      unfold u64, wrap. rewrite Z.lor_spec, Z.mod_pow2_bits_low, Z.shiftl_spec by lia.
      destruct (Z.eqb_spec k 0) as [->|Hk0]; [by rewrite orb_true_r|].
      rewrite (Z.bits_above_log2 1 k), orb_false_r by (simpl; lia). simpl.
      destruct (Z.leb_spec (x - newest wd) k); simpl; [by rewrite Hh by lia|].
      by rewrite Z.testbit_neg_r by lia.
Qed.

(** A stream of sequence numbers offered to one entry. *)
Fixpoint test_stream (s : oonf_duplicate_set) (e : oonf_duplicate_entry) (xs : list Z)
    : list oonf_duplicate_result * oonf_duplicate_entry :=
  match xs with
  | [] => ([], e)
  | x :: xs => let '(r, e) := _test s e x true in
      let '(rs, e) := test_stream s e xs in (r :: rs, e)
  end.

Fixpoint window_stream (wd : window) (xs : list Z) : list oonf_duplicate_result * window :=
  match xs with
  | [] => ([], wd)
  | x :: xs => let '(r, wd) := window_test wd x in
      let '(rs, wd) := window_stream wd xs in (r :: rs, wd)
  end.

(** Every number lies within half the sequence space of the newest one. *)
Fixpoint stream_in_range (w : Z) (wd : window) (xs : list Z) : Prop :=
  match xs with
  | [] => True
  | x :: xs => - 2 ^ (w - 1) <= x - newest wd < 2 ^ (w - 1) /\ stream_in_range w (window_test wd x).2 xs
  end.

Lemma stream_refines type s xs e wd : set_of_type type s -> window_refines (dup_width type) e wd ->
  stream_in_range (dup_width type) wd xs ->
  exists e', test_stream s e (wrap (dup_width type) <$> xs) = ((window_stream wd xs).1, e') /\
    window_refines (dup_width type) e' (window_stream wd xs).2.
Proof.
  intros Hs. revert e wd. induction xs as [|x xs IH]; intros e wd Href Hr; [by exists e|].
  rewrite fmap_cons. cbn [test_stream window_stream]. destruct Hr as [Hx Hr]. destruct (test_refines type s e wd x Hs Href Hx) as (e1 & -> & Href1 & _).
  destruct (window_test wd x) as [r wd1] eqn:E. simpl in *.
  destruct (IH e1 wd1 Href1 Hr) as (e2 & -> & Href2). destruct (window_stream wd1 xs). by exists e2.
Qed.

(** The numbers a stream was accepted with. *)
Definition accepted (xs : list Z) (rs : list oonf_duplicate_result) : list Z :=
  fst <$> filter (fun p => oonf_duplicate_is_new p.2 = true) (zip xs rs).

(** No number restarts the window after a series of too old ones. *)
Fixpoint no_restart (wd : window) (xs : list Z) : Prop :=
  match xs with
  | [] => True
  | x :: xs => ~ (window_numbers <= newest wd - x /\ behind wd = OONF_DUPSET_MAXIMUM_TOO_OLD) /\
      no_restart (window_test wd x).2 xs
  end.

Lemma window_test_accept wd x : window_wf wd ->
  ~ (window_numbers <= newest wd - x /\ behind wd = OONF_DUPSET_MAXIMUM_TOO_OLD) ->
  seen wd ⊆ seen (window_test wd x).2 /\
  (oonf_duplicate_is_new (window_test wd x).1 = true -> x ∉ seen wd /\ x ∈ seen (window_test wd x).2).
Proof.
  unfold window_test, OONF_DUPSET_MAXIMUM_TOO_OLD. intros (Hin & _ & Hb) Hno.
  destruct (Z.eqb_spec x (newest wd)) as [->|]; [done|].
  destruct (Z.leb_spec window_numbers (newest wd - x)).
  - destruct (Z.leb_spec 8 (behind wd)); [|done]. destruct Hno. unfold OONF_DUPSET_MAXIMUM_TOO_OLD in Hb. lia.
  - destruct (decide (x ∈ seen wd)); simpl; [done|]. split; [set_solver|]. intros _. set_solver.
Qed.

Lemma window_stream_accepts wd xs : window_wf wd -> no_restart wd xs ->
  NoDup (accepted xs (window_stream wd xs).1) /\
  forall x, x ∈ accepted xs (window_stream wd xs).1 -> x ∉ seen wd.
Proof.
  unfold accepted. revert wd. induction xs as [|x xs IH]; intros wd Hwf Hno; simpl.
  { split; [constructor|]. by intros ? ?%elem_of_nil. }
  destruct Hno as [Hx Hno]. destruct (window_test_accept wd x Hwf Hx) as [Hsub Hacc].
  pose proof (window_test_wf wd x Hwf) as Hwf1.
  destruct (window_test wd x) as [r wd1] eqn:E. simpl in *. destruct (IH wd1 Hwf1 Hno) as [IHn IHs].
  destruct (window_stream wd1 xs) as [rs wd2]. simpl in *. rewrite filter_cons. simpl.
  destruct (decide _) as [Hr|Hr]; simpl.
  - destruct (Hacc Hr) as [Hx1 Hx2]. split.
    + constructor; [|done]. intros Hin. by apply (IHs x).
    + intros y [->|Hy]%elem_of_cons; [done|]. specialize (IHs y Hy). set_solver.
  - split; [done|]. intros y Hy. specialize (IHs y Hy). set_solver.
Qed.

(** ** The keyed set and its timers *)

#[export] Instance avl_cmp_dupkey_comparator : Comparator _avl_cmp_dupkey.
Proof.
  unfold _avl_cmp_dupkey, avl_comp_netaddr. split; intros *;
    repeat match goal with |- context [?a =? ?b] => destruct (Z.eqb_spec a b); simpl end; try lia.
  - apply cmp_refl.
  - apply cmp_flip.
  - apply cmp_trans.
Qed.

Lemma dupkey_eq k1 k2 : _avl_cmp_dupkey k1 k2 = 0 <-> k1 = k2.
Proof.
  unfold _avl_cmp_dupkey, avl_comp_netaddr, netaddr_cmp, netaddr_octets.
  destruct k1 as [[a1 t1 p1] m1], k2 as [[a2 t2 p2] m2]. simpl.
  destruct (Z.eqb_spec m1 m2) as [->|]; simpl.
  - rewrite memcmp_eq. split; [|by intros [= -> -> ->]]. intros [-> [= -> ->]]%app_inj_2; done.
  - split; [lia|]. by intros [= ? ? ? ?].
Qed.

Section set_proofs.
Context (os_core_get_random : nat -> option Z) (random_u32 : forall n r, os_core_get_random n = Some r -> 0 <= r <= UINT32_MAX).
Context (max_interval : Z) (max_interval_range : 0 <= max_interval <= 2 ^ 56).
Context (_vtime_info : positive).

Record dupset_wf (set : oonf_duplicate_set) (timers : timer_state) : Prop := {
  ds_timers : timer_wf max_interval timers;
  ds_class : exists k, classes timers !! _vtime_info = Some k /\ periodic k = false;
  ds_sorted : tree_strict entry_key _avl_cmp_dupkey (dup_tree set);
  ds_nodup : NoDup (entry_at <$> dup_tree set);
  ds_alloc e : e ∈ dup_tree set -> exists i, instances timers !! entry_at e = Some i /\ class i = _vtime_info /\
    jitter_pct i = 0;
}.

Lemma find_entry_spec set timers k o : dupset_wf set timers ->
  find_entry k set = o <->
  match o with Some e => e ∈ dup_tree set /\ entry_key e = k | None => forall e, e ∈ dup_tree set -> entry_key e <> k end.
Proof.
  intros Hwf. unfold find_entry. rewrite (tree_find_spec entry_key _avl_cmp_dupkey k _ o) by apply Hwf.
  destruct o; setoid_rewrite dupkey_eq; naive_solver.
Qed.

Lemma entry_at_inj set timers e1 e2 : dupset_wf set timers -> e1 ∈ dup_tree set -> e2 ∈ dup_tree set ->
  entry_at e1 = entry_at e2 -> e1 = e2.
Proof.
  intros Hwf (i & H1)%list_elem_of_lookup (j & H2)%list_elem_of_lookup E.
  assert (i = j) as ->; [|congruence]. eapply (NoDup_lookup (entry_at <$> dup_tree set)); [apply Hwf| |].
  - by rewrite list_lookup_fmap, H1.
  - rewrite list_lookup_fmap, H2. simpl. congruence.
Qed.

(** Changing the window of one entry. *)
Lemma replace_entry_spec set timers e e' : dupset_wf set timers -> e ∈ dup_tree set ->
  entry_at e' = entry_at e -> entry_key e' = entry_key e ->
  dupset_wf (replace_entry e' set) timers /\ find_entry (entry_key e) (replace_entry e' set) = Some e' /\
  forall k, k <> entry_key e -> find_entry k (replace_entry e' set) = find_entry k set.
Proof.
  intros Hwf He Ea Ek. pose proof Hwf as [Ht Hc Hs Hn Hal].
  set (f := fun x => if decide (entry_at x = entry_at e') then e' else x).
  assert (forall x, x ∈ dup_tree set -> f x = if decide (x = e) then e' else x) as Hf.
  { intros x Hx. unfold f. rewrite Ea. destruct (decide (entry_at x = entry_at e)) as [E|E].
    - rewrite decide_True; [done|]. by eapply entry_at_inj.
    - rewrite decide_False; [done|]. by intros ->. }
  assert (dup_tree (replace_entry e' set) = f <$> dup_tree set) as Etree by done.
  assert (dupset_wf (replace_entry e' set) timers) as Hwf'.
  { split; rewrite ?Etree; [done|done|..].
    - apply tree_strict_map; [|done]. intros a Ha. rewrite Hf by done. destruct (decide _); [by subst|done].
    - rewrite <- list_fmap_compose. replace (_ <$> dup_tree set) with (entry_at <$> dup_tree set); [done|].
      apply list_fmap_ext. intros i x Hx%list_elem_of_lookup_2. simpl. rewrite Hf by done.
      destruct (decide _); [by subst|done].
    - intros x (y & -> & Hy)%list_elem_of_fmap. rewrite Hf by done. destruct (decide _); [rewrite Ea|]; by apply Hal. }
  split; [done|]. split.
  - apply (find_entry_spec _ timers _ (Some e')); [done|]. split; [|done]. rewrite Etree.
    apply list_elem_of_fmap. exists e. by rewrite Hf, decide_True.
  - intros k Hk. apply (find_entry_spec _ timers); [done|]. rewrite Etree.
    destruct (find_entry k set) as [x|] eqn:E; apply (find_entry_spec _ timers) in E; try done.
    + destruct E as [Hx <-]. split; [|done]. apply list_elem_of_fmap. exists x.
      rewrite Hf, decide_False by (done || by intros ->). done.
    + intros y (x & -> & Hx)%list_elem_of_fmap. rewrite Hf by done.
      destruct (decide _) as [->|]; [congruence|by apply E].
Qed.

(** The validity timer of an entry: 0 never expires. *)
Definition valid_until (timers : timer_state) (e : oonf_duplicate_entry) (vtime : Z) : Prop :=
  exists i, instances timers !! entry_at e = Some i /\ (vtime = 0 -> _clock i = 0) /\
    (vtime <> 0 -> now_times timers + vtime < _clock i <= now_times timers + vtime + OONF_TIMER_SLICE).

#[local] Notation rescheduled := (ValidityTimer.rescheduled max_interval).
#[local] Notation timer_start_spec := (validity_start_spec os_core_get_random random_u32 max_interval max_interval_range).
#[local] Notation timer_set_spec := (validity_set_spec os_core_get_random random_u32 max_interval max_interval_range).

(** Rescheduling the timer of an entry keeps the set. *)
Lemma rescheduled_wf set timers a i' timers' : dupset_wf set timers -> rescheduled a timers i' timers' ->
  class i' = _vtime_info -> jitter_pct i' = 0 -> dupset_wf set timers'.
Proof.
  intros [Ht (k & Hk & Hp) Hs Hn Hal] [Hwf Hins _ Hcl] Hc Hj. split; try done.
  - destruct (Hcl _ _ Hk) as (k' & ? & ?). exists k'. split; congruence.
  - intros e He. rewrite Hins. destruct (decide (entry_at e = a)) as [->|]; [rewrite lookup_insert_eq; eauto|].
    rewrite lookup_insert_ne by done. by apply Hal.
Qed.

(** Linking a new entry whose timer runs. *)
Lemma insert_entry_spec set timers e l i : dupset_wf set timers -> find_entry (entry_key e) set = None ->
  tree_insert entry_key _avl_cmp_dupkey e (dup_tree set) = Some l -> l ≡ₚ e :: dup_tree set ->
  (forall x, x ∈ dup_tree set -> entry_at x <> entry_at e) ->
  instances timers !! entry_at e = Some i -> class i = _vtime_info -> jitter_pct i = 0 ->
  dupset_wf (set_dup_tree l set) timers /\ find_entry (entry_key e) (set_dup_tree l set) = Some e /\
  forall k, k <> entry_key e -> find_entry k (set_dup_tree l set) = find_entry k set.
Proof.
  intros Hwf Hnone El Hp Hfresh Hi Hc Hj. pose proof Hwf as [Ht Hk Hs Hn Hal].
  assert (dupset_wf (set_dup_tree l set) timers) as Hwf'.
  { split; simpl; try done.
    - by eapply tree_insert_strict; [apply _|..].
    - rewrite Hp. simpl. constructor; [|done]. intros (x & E & Hx)%list_elem_of_fmap. by apply (Hfresh x).
    - intros x. rewrite Hp, elem_of_cons. intros [->|Hx]; [eauto|by apply Hal]. }
  split; [done|]. split.
  - apply (find_entry_spec _ timers _ (Some e)); [done|]. split; [|done]. simpl. rewrite Hp. by left.
  - intros k Hne. apply (find_entry_spec _ timers); [done|]. simpl.
    destruct (find_entry k set) as [x|] eqn:E; apply (find_entry_spec _ timers) in E; try done.
    + destruct E. split; [rewrite Hp; by right|done].
    + intros y. rewrite Hp, elem_of_cons. intros [->|Hy]; [done|by apply E].
Qed.

(** One message: the answer, the entry, the other entries, the validity, and the
    one timer that was set. *)
Lemma duplicate_entry_add_effect set timers msg_type originator seqno vtime a :
  dupset_wf set timers -> (find_entry {| key_addr := originator; key_msg_type := msg_type |} set = None -> instances timers !! a = None) -> 0 <= vtime <= max_interval ->
  let key := {| key_addr := originator; key_msg_type := msg_type |} in
  exists r set' timers' e',
    oonf_duplicate_entry_add os_core_get_random _vtime_info set timers msg_type originator seqno vtime (Some a) =
      Def (r, set', timers') /\
    dupset_wf set' timers' /\ find_entry key set' = Some e' /\
    (match find_entry key set with
     | Some e => (r, e') = _test set e seqno true
     | None => r = OONF_DUPSET_FIRST /\ e' = {| entry_at := a; entry_key := key; history := 1;
         current := seqno; too_old_count := 0 |}
     end) /\
    (forall k, k <> key -> find_entry k set' = find_entry k set) /\
    (if oonf_duplicate_is_new r then valid_until timers' e' vtime else timers' = timers) /\
    (timers' = timers \/ exists x i', rescheduled x timers i' timers' /\ class i' = _vtime_info /\ jitter_pct i' = 0 /\
      (instances timers !! x = None \/ exists e, e ∈ dup_tree set /\ entry_at e = x)).
Proof.
  intros Hwf Ha Hv key. unfold oonf_duplicate_entry_add. fold key.
  destruct (find_entry key set) as [e|] eqn:Ef.
  - apply (find_entry_spec _ timers) in Ef as Hin; [|done]. destruct Hin as [Hin Hkey].
    destruct (_test set e seqno true) as [r e'] eqn:Et.
    assert (entry_at e' = entry_at e /\ entry_key e' = entry_key e) as [Ea Ek].
    { unfold _test in Et. repeat case_match; injection Et as <- <-; done. }
    destruct (replace_entry_spec set timers e e' Hwf Hin Ea Ek) as (Hwf1 & Hf1 & Hf2).
    rewrite Hkey in Hf1, Hf2. destruct (oonf_duplicate_is_new r) eqn:En; simpl;
      [|eexists r, _, timers, e'; rewrite En; split_and!; auto].
    destruct (ds_alloc _ _ Hwf e Hin) as (i & Ei & Hc & Hj).
    destruct (timer_set_spec timers (entry_at e') i vtime) as (timers' & i' & -> & Hrs & Hc' & Hj' & H0 & H1);
      [apply Hwf|by rewrite Ea|done|done|].
    simpl. eexists r, _, timers', e'. split; [done|]. split; [eapply rescheduled_wf; [done..|congruence|done]|].
    split; [done|]. split; [done|]. split; [done|]. rewrite En. split; [exists i'|].
    + rewrite (rs_instances _ _ _ _ _ Hrs), lookup_insert_eq, (rs_now _ _ _ _ _ Hrs). by split_and!.
    + right. exists (entry_at e'), i'. split_and!; [done|congruence|done|]. right. by exists e.
  - specialize (Ha Ef). set (e := {| entry_at := a; entry_key := key; history := 1; current := seqno; too_old_count := 0 |}).
    destruct (ds_class _ _ Hwf) as (k & Hk & Hp).
    assert (timer_wf max_interval (put_timer a (vtime_timer _vtime_info) timers)) as Hwf0.
    { apply (alloc_frame os_core_get_random random_u32 max_interval max_interval_range); [apply Hwf|].
      split; [done|]. split; [done|]. split; [|simpl; eauto]. unfold instance_ok, UINT32_MAX. simpl. lia. }
    destruct (timer_start_spec (put_timer a (vtime_timer _vtime_info) timers) a (vtime_timer _vtime_info) vtime)
      as (t1 & i1 & -> & Hr1 & Hc1 & Hj1 & _); [done|simpl; by rewrite lookup_insert_eq|done|done|]. simpl.
    destruct (timer_set_spec t1 a i1 vtime) as (t2 & i2 & -> & Hr2 & Hc2 & Hj2 & H0 & H1);
      [apply Hr1|by rewrite (rs_instances _ _ _ _ _ Hr1), lookup_insert_eq|done|done|]. simpl.
    assert (rescheduled a timers i2 t2) as Hr.
    { destruct Hr1 as [_ E1 N1 C1], Hr2 as [W2 E2 N2 C2]. split; [done|..].
      - rewrite E2, E1. simpl. by rewrite !insert_insert_eq.
      - by rewrite N2, N1.
      - intros c k0 Hk0. destruct (C1 c k0 Hk0) as (k1 & Hk1 & <-). by apply C2. }
    assert (class i2 = _vtime_info) as Hcl by (by rewrite Hc2, Hc1).
    pose proof (rescheduled_wf set timers a i2 t2 Hwf Hr Hcl Hj2) as Hwf2.
    destruct (tree_insert_new entry_key _avl_cmp_dupkey e (dup_tree set) Ef) as (l & El & Hl). rewrite El.
    destruct (insert_entry_spec set t2 e l i2) as (Hwf3 & Hf1 & Hf2); try done.
    { intros x Hx E. destruct (ds_alloc _ _ Hwf x Hx) as (j & Hj & _). simpl in E. congruence. }
    { by rewrite (rs_instances _ _ _ _ _ Hr), lookup_insert_eq. }
    eexists _, _, t2, e. split; [done|]. split; [done|]. split; [done|]. split; [done|]. split; [done|]. simpl.
    split; [|right; exists a, i2; by split_and!; [..|left]]. exists i2. rewrite (rs_instances _ _ _ _ _ Hr), lookup_insert_eq, (rs_now _ _ _ _ _ Hr2). by split_and!.
Qed.


(** adding a message to the duplicate set answers by the window of its
    (message type, originator) entry alone, creating the entry for the first
    message; entries of other keys stay as they are, a new message (and only a
    new one) renews the validity of its entry, and set and timers stay
    consistent. *)
Theorem duplicate_entry_add_spec set timers msg_type originator seqno vtime a :
  dupset_wf set timers -> instances timers !! a = None -> 0 <= vtime <= max_interval ->
  let key := {| key_addr := originator; key_msg_type := msg_type |} in
  exists r set' timers' e',
    oonf_duplicate_entry_add os_core_get_random _vtime_info set timers msg_type originator seqno vtime (Some a) =
      Def (r, set', timers') /\
    dupset_wf set' timers' /\ find_entry key set' = Some e' /\
    (match find_entry key set with
     | Some e => (r, e') = _test set e seqno true
     | None => r = OONF_DUPSET_FIRST /\ e' = {| entry_at := a; entry_key := key; history := 1;
         current := seqno; too_old_count := 0 |}
     end) /\
    (forall k, k <> key -> find_entry k set' = find_entry k set) /\
    (if oonf_duplicate_is_new r then valid_until timers' e' vtime else timers' = timers).
Proof.
  intros Hwf Ha Hv key. destruct (duplicate_entry_add_effect set timers msg_type originator seqno vtime a Hwf (fun _ => Ha) Hv)
    as (r & set' & timers' & e' & ? & ? & ? & ? & ? & ? & _). by exists r, set', timers', e'.
Qed.

(** Entry and timer go together. *)
Lemma remove_entry_spec set timers e : dupset_wf set timers -> e ∈ dup_tree set ->
  exists timers', _remove_duplicate_entry (entry_at e) set timers =
      Def (set_dup_tree (filter (fun x => entry_at x <> entry_at e) (dup_tree set)) set, timers') /\
    dupset_wf (set_dup_tree (filter (fun x => entry_at x <> entry_at e) (dup_tree set)) set) timers' /\
    instances timers' = delete (entry_at e) (instances timers) /\ now_times timers' = now_times timers.
Proof.
  intros Hwf He. pose proof Hwf as [Ht (k & Hk & Hp) Hs Hn Hal]. destruct (Hal e He) as (i & Ei & Hc & Hj).
  destruct (stop_spec os_core_get_random random_u32 max_interval max_interval_range (entry_at e) timers i Ht Ei)
    as (t1 & E1 & Hsp).
  destruct (stopped_timer _ _ _ _ _ Hsp) as (i1 & Hins & Hk1 & _).
  destruct (free_frame os_core_get_random random_u32 max_interval max_interval_range (entry_at e) t1) as [Hwf2 _ _ _ _];
    [apply Hsp|exists i1; by rewrite Hins, lookup_insert_eq|].
  unfold _remove_duplicate_entry. rewrite E1. simpl. eexists. split; [done|].
  assert (delete (entry_at e) (instances t1) = delete (entry_at e) (instances timers)) as Hdel
    by (by rewrite Hins, delete_insert_eq).
  split; [|split; [done|apply Hsp]]. split; simpl; [done|..].
  - destruct (stopped_classes _ _ _ _ _ Hsp _ _ Hk) as (k' & ? & ? & _). exists k'. split; congruence.
  - by apply tree_strict_filter.
  - apply (sublist_NoDup _ (entry_at <$> dup_tree set)); [done|]. apply fmap_sublist, sublist_filter.
  - intros x [Hx Hin]%list_elem_of_filter. rewrite Hdel, lookup_delete_ne by done. by apply Hal.
Qed.

(** when the validity timer of an entry fires, the entry leaves the set
    and is freed with its (stopped) timer; every other entry is still found. *)
Theorem duplicate_timeout_spec set timers e : dupset_wf set timers -> e ∈ dup_tree set ->
  exists set' timers', _cb_vtime (entry_at e) set timers = Def (set', timers') /\ dupset_wf set' timers' /\
    find_entry (entry_key e) set' = None /\ instances timers' !! entry_at e = None /\
    entry_at e ∉ _timer_tree timers' /\
    forall k, k <> entry_key e -> find_entry k set' = find_entry k set.
Proof.
  intros Hwf He. destruct (remove_entry_spec set timers e Hwf He) as (timers' & E & Hwf' & Hins & _).
  exists (set_dup_tree (filter (fun x => entry_at x <> entry_at e) (dup_tree set)) set), timers'.
  split; [done|]. split; [done|]. split_and!.
  - apply (find_entry_spec _ timers'); [done|]. simpl. intros x [Hne Hx]%list_elem_of_filter Hk. apply Hne.
    assert (find_entry (entry_key e) set = Some e /\ find_entry (entry_key e) set = Some x) as []; [|congruence].
    split; by apply (find_entry_spec _ timers _ (Some _)).
  - by rewrite Hins, lookup_delete_eq.
  - intros Ht. apply (inv_tree _ _ _ (ds_timers _ _ Hwf')) in Ht as [_ (i & Hi & _)].
    by rewrite Hins, lookup_delete_eq in Hi.
  - intros k Hk. apply (find_entry_spec _ timers'); [done|]. simpl.
    destruct (find_entry k set) as [x|] eqn:Ex; apply (find_entry_spec _ timers) in Ex; try done.
    + destruct Ex as [Hx <-]. split; [|done]. rewrite list_elem_of_filter. split; [|done].
      intros Ea. apply Hk. by rewrite (entry_at_inj set timers x e).
    + intros y [_ Hy]%list_elem_of_filter. by apply Ex.
Qed.

(** removing a duplicate set empties it; all its timers are stopped and
    their memory is released, timers of others stay. *)
Theorem duplicate_set_remove_all set timers : dupset_wf set timers ->
  exists set' timers', oonf_duplicate_set_remove set timers = Def (set', timers') /\
    dup_tree set' = [] /\ timer_wf max_interval timers' /\
    forall t, instances timers' !! t = if decide (t ∈ entry_at <$> dup_tree set) then None else instances timers !! t.
Proof.
  unfold oonf_duplicate_set_remove. remember (dup_tree set) as l eqn:El. revert set timers El.
  induction l as [|e l IH]; intros set timers El Hwf; simpl.
  { exists set, timers. split; [done|]. split; [done|]. split; [apply Hwf|]. done. }
  destruct (remove_entry_spec set timers e Hwf) as (t1 & -> & Hwf1 & Hins & _); [rewrite <- El; by left|]. simpl.
  assert (filter (fun x => entry_at x <> entry_at e) (dup_tree set) = l) as Ef.
  { rewrite <- El, filter_cons_False by naive_solver. apply filter_all. rewrite Forall_forall. intros x Hx E.
    pose proof (ds_nodup _ _ Hwf) as Hn. rewrite <- El in Hn. simpl in Hn. apply NoDup_cons in Hn as [Hn _].
    apply Hn. rewrite <- E. by apply list_elem_of_fmap_2. }
  rewrite Ef in Hwf1 |- *. destruct (IH (set_dup_tree l set) t1) as (s2 & t2 & -> & Hl & Hwf2 & Hi2); [done|done|].
  exists s2, t2. split; [done|]. split; [done|]. split; [done|]. intros t. rewrite Hi2, Hins.
  destruct (decide (t ∈ entry_at <$> l)) as [Ht|Ht].
  - rewrite decide_True; [done|]. by right.
  - destruct (decide (t = entry_at e)) as [->|Hne].
    + rewrite decide_True by (by left). by rewrite lookup_delete_eq.
    + rewrite decide_False by (by rewrite elem_of_cons; naive_solver). by rewrite lookup_delete_ne.
Qed.
End set_proofs.

(** ** Streams of messages *)

(** C15: For sequence numbers that never leave half the number space around the
    newest one, the entry (32 history bits, wrapped numbers) answers exactly
    like a window over unbounded numbers that remembers every number it took:
    too old at 32 or more behind the newest one (the comments of the code say:
    more than 32), duplicate if taken before, newest or new otherwise. The
    ninth too old number in a row is taken for the newest one and the window
    starts again with it, which the comments do not mention either. *)
Theorem duplicate_window_refines type s x xs k a :
  set_of_type type s -> stream_in_range (dup_width type) (window_start x) xs ->
  (test_stream s {| entry_at := a; entry_key := k; history := 1; current := wrap (dup_width type) x;
     too_old_count := 0 |} (wrap (dup_width type) <$> xs)).1 = (window_stream (window_start x) xs).1.
Proof.
  intros Hs Hr. destruct (stream_refines type s xs _ _ Hs (window_start_refines _ x k a) Hr) as (e' & -> & _). done.
Qed.

(** A number exactly 32 behind is too old, against the comment that asks for
    more than 32. *)
Theorem thirty_two_behind_too_old s e seqno set : seqno <> current e -> _seqno_difference s seqno (current e) = -32 ->
  0 <= too_old_count e < OONF_DUPSET_MAXIMUM_TOO_OLD -> (_test s e seqno set).1 = OONF_DUPSET_TOO_OLD.
Proof.
  intros Hne Hd Hc. unfold _test. rewrite Hd. destruct (Z.eqb_spec seqno (current e)); [done|]. simpl.
  unfold OONF_DUPSET_MAXIMUM_TOO_OLD in *. unfold u16, wrap. rewrite Z.mod_small by lia. destruct (Z.ltb_spec 8 (too_old_count e + 1)); [lia|done].
Qed.

(** no sequence number is accepted twice: among the messages an entry
    calls new after its first one (number [x]) there are no repetitions, and
    [x] is not among them, unless the entry restarts in between. *)
Theorem duplicate_accepts_once type s x xs k a :
  set_of_type type s -> stream_in_range (dup_width type) (window_start x) xs -> no_restart (window_start x) xs ->
  NoDup (x :: accepted xs (test_stream s {| entry_at := a; entry_key := k; history := 1;
    current := wrap (dup_width type) x; too_old_count := 0 |} (wrap (dup_width type) <$> xs)).1).
Proof.
  intros Hs Hr Hno. pose proof (window_start_refines (dup_width type) x k a) as Href.
  destruct (stream_refines type s xs _ _ Hs Href Hr) as (e' & -> & _). simpl.
  destruct (window_stream_accepts (window_start x) xs (ref_wf _ _ _ Href) Hno) as [Hn Hin].
  constructor; [|done]. intros Hx. apply (Hin x Hx). simpl. by apply elem_of_singleton.
Qed.

(** a query with [oonf_duplicate_test], which is documented to leave the
    entry unchanged, does change it: the ninth query in a row for a number that
    is too old answers "newest" and replaces the window by that number. *)
Theorem duplicate_test_changes_entry set msg_type originator seqno e :
  let key := {| key_addr := originator; key_msg_type := msg_type |} in
  find_entry key set = Some e -> too_old_count e = OONF_DUPSET_MAXIMUM_TOO_OLD ->
  seqno <> current e -> _seqno_difference set seqno (current e) < -31 ->
  oonf_duplicate_test set msg_type originator seqno =
    (OONF_DUPSET_NEWEST, replace_entry (with_window 1 seqno 0 e) set).
Proof.
  intros key Hf Hc Hne Hd. unfold oonf_duplicate_test. fold key. rewrite Hf. unfold _test. rewrite Hc.
  destruct (Z.eqb_spec seqno (current e)); [done|].
  destruct (Z.ltb_spec (_seqno_difference set seqno (current e)) (-31)); [done|lia].
Qed.

(** ** Concrete sets *)
Section example.
Definition demo_key : oonf_duplicate_entry_key :=
  {| key_addr := addr4 10 0 0 1 32; key_msg_type := 1 |}.
Definition demo_entry : oonf_duplicate_entry :=
  {| entry_at := 11; entry_key := demo_key; history := 1; current := 1000; too_old_count := 8 |}.
Definition demo_set : oonf_duplicate_set := set_dup_tree [demo_entry] (oonf_duplicate_set_add OONF_DUPSET_16BIT).

Lemma demo_set_wf : dupset_wf 1000 2 demo_set demo_state.
Proof.
  split.
  - apply demo_wf.
  - eexists. vm_compute. done.
  - repeat constructor.
  - apply NoDup_singleton.
  - intros e ->%list_elem_of_singleton. eexists. vm_compute. done.
Qed.

Lemma duplicate_entry_add_spec_witness : exists r set' timers' e',
  oonf_duplicate_entry_add demo_random 2 demo_set demo_state 2 (addr4 10 0 0 1 32) 77 600 (Some 12%positive) =
    Def (r, set', timers') /\
  dupset_wf 1000 2 set' timers' /\ find_entry {| key_addr := addr4 10 0 0 1 32; key_msg_type := 2 |} set' = Some e' /\
  (match find_entry {| key_addr := addr4 10 0 0 1 32; key_msg_type := 2 |} demo_set with
   | Some e => (r, e') = _test demo_set e 77 true
   | None => r = OONF_DUPSET_FIRST /\ e' = {| entry_at := 12;
       entry_key := {| key_addr := addr4 10 0 0 1 32; key_msg_type := 2 |}; history := 1; current := 77; too_old_count := 0 |}
   end) /\
  (forall k, k <> {| key_addr := addr4 10 0 0 1 32; key_msg_type := 2 |} -> find_entry k set' = find_entry k demo_set) /\
  (if oonf_duplicate_is_new r then valid_until timers' e' 600 else timers' = demo_state).
Proof.
  apply (duplicate_entry_add_spec demo_random demo_random_u32 1000 ltac:(lia) 2 demo_set demo_state 2 (addr4 10 0 0 1 32) 77 600 12
    demo_set_wf); [vm_compute; reflexivity|lia].
Defined.

Lemma duplicate_timeout_spec_witness :
  exists set' timers', _cb_vtime 11 demo_set demo_state = Def (set', timers') /\ dupset_wf 1000 2 set' timers' /\
    find_entry demo_key set' = None /\ instances timers' !! 11%positive = None /\
    11%positive ∉ _timer_tree timers' /\
    forall k, k <> demo_key -> find_entry k set' = find_entry k demo_set.
Proof.
  apply (duplicate_timeout_spec demo_random demo_random_u32 1000 ltac:(lia) 2 demo_set demo_state demo_entry demo_set_wf).
  by left.
Defined.

Lemma duplicate_set_remove_all_witness :
  exists set' timers', oonf_duplicate_set_remove demo_set demo_state = Def (set', timers') /\
    dup_tree set' = [] /\ timer_wf 1000 timers' /\
    forall t, instances timers' !! t =
      if decide (t ∈ entry_at <$> dup_tree demo_set) then None else instances demo_state !! t.
Proof.
  apply (duplicate_set_remove_all demo_random demo_random_u32 1000 ltac:(lia) 2 demo_set demo_state demo_set_wf).
Defined.

(** A stream over the wrap-around of 16 bit numbers. *)
Definition demo_stream : list Z := [65535; 65537; 65520; 65535; 65600; 65569; 65520; 65600].

Lemma duplicate_window_refines_witness :
  (test_stream demo_set {| entry_at := 11; entry_key := demo_key; history := 1; current := wrap 16 65530;
     too_old_count := 0 |} (wrap 16 <$> demo_stream)).1 = (window_stream (window_start 65530) demo_stream).1.
Proof.
  apply (duplicate_window_refines OONF_DUPSET_16BIT demo_set 65530 demo_stream demo_key 11); [done|].
  vm_compute. intuition discriminate.
Defined.

Lemma duplicate_accepts_once_witness :
  NoDup (65530 :: accepted demo_stream (test_stream demo_set {| entry_at := 11; entry_key := demo_key; history := 1;
    current := wrap 16 65530; too_old_count := 0 |} (wrap 16 <$> demo_stream)).1).
Proof.
  apply (duplicate_accepts_once OONF_DUPSET_16BIT demo_set 65530 demo_stream demo_key 11); [done|..];
    vm_compute; intuition discriminate.
Defined.

Lemma duplicate_test_changes_entry_witness :
  oonf_duplicate_test demo_set 1 (addr4 10 0 0 1 32) 900 =
    (OONF_DUPSET_NEWEST, replace_entry (with_window 1 900 0 demo_entry) demo_set).
Proof.
  apply (duplicate_test_changes_entry demo_set 1 (addr4 10 0 0 1 32) 900 demo_entry);
    first [reflexivity|by vm_compute].
Defined.
End example.
