(* ===== verification/NhdpDb.v ===== *)
(** The part of the NHDP database that MPR selection and routing read:
    src/include/oonf/nhdp/nhdp/nhdp_db.h and the accessors of nhdp_domain.h. *)

From Stdlib Require Import ZArith Lia Sorted.
From stdpp Require Import base list numbers option gmap sets.
From S2P Require Import Prelude AvlSpec Netaddr.

Local Open Scope Z_scope.
Local Open Scope cint_scope.

Definition NHDP_MAXIMUM_DOMAINS : nat := 4.
Definition NHDP_LINK_SYMMETRIC : Z := 1.

(** ** Records

    A link, a neighbor and an interface are named by their position in the
    list of the database: a pointer is such a number. The flag
    [l2_vtime_active] says whether the validity timer of the entry runs. *)

Record nhdp_metric := { m_in : Z; m_out : Z }.

Record nhdp_l2hop := {
  twohop_addr : netaddr;
  l2_link : nat;
  l2_vtime_active : bool;
  l2_domaindata : list nhdp_metric;
}.

Record nhdp_link := {
  status : Z;
  local_if : nat;
  l_neigh : nat;
  if_addr : netaddr;
  flooding_willingness : Z;
  _2hop : list nhdp_l2hop;
  l_domaindata : list nhdp_metric;
}.

Record nhdp_neighbor_domaindata := {
  nd_metric : nhdp_metric;
  best_out_link : option nat;
  best_link_ifindex : Z;
  willingness : Z;
}.

Record nhdp_neighbor := {
  originator : netaddr;
  symmetric : Z;
  _links : list nat;
  _neigh_addresses : list netaddr;
  n_domaindata : list nhdp_neighbor_domaindata;
}.

(** The lists of links and neighbors, and the links of every interface. *)
Record nhdp_db := {
  _link_list : list nhdp_link;
  _neigh_list : list nhdp_neighbor;
  _if_links : list (list nat);
}.

(** The flags of links and neighbors that MPR selection writes: the numbers
    for which they are true. [neigh_is_mpr] is that of one domain. *)
Record nhdp_flags := {
  selection : gset nat;
  neigh_is_flooding_mpr : gset nat;
  neigh_is_mpr : gset nat;
}.

(** ** Pointers *)

Definition get_link (db : nhdp_db) (l : nat) : outcome nhdp_link :=
  match _link_list db !! l with Some lnk => Def lnk | None => Undef UB_read end.
Definition get_neigh (db : nhdp_db) (n : nat) : outcome nhdp_neighbor :=
  match _neigh_list db !! n with Some neigh => Def neigh | None => Undef UB_read end.

(** [nhdp_domain_get_linkdata] and its siblings for the domain at index [dom] *)
Definition nhdp_domain_get_linkdata (dom : nat) (lnk : nhdp_link) : outcome nhdp_metric :=
  match l_domaindata lnk !! dom with Some m => Def m | None => Undef UB_read end.
Definition nhdp_domain_get_l2hopdata (dom : nat) (l2hop : nhdp_l2hop) : outcome nhdp_metric :=
  match l2_domaindata l2hop !! dom with Some m => Def m | None => Undef UB_read end.
Definition nhdp_domain_get_neighbordata (dom : nat) (neigh : nhdp_neighbor) : outcome nhdp_neighbor_domaindata :=
  match n_domaindata neigh !! dom with Some d => Def d | None => Undef UB_read end.

(** [nhdp_db_2hop_is_lost] *)
Definition nhdp_db_2hop_is_lost (l2hop : nhdp_l2hop) : bool := l2_vtime_active l2hop.

(** ** Well formed databases *)

Definition metric_ok (m : nhdp_metric) : Prop := 0 <= m_in m < 2 ^ 32 /\ 0 <= m_out m < 2 ^ 32.

Record l2hop_ok (l : nat) (t : nhdp_l2hop) : Prop := {
  l2o_link : l2_link t = l;
  l2o_len : length (l2_domaindata t) = NHDP_MAXIMUM_DOMAINS;
  l2o_metric : Forall metric_ok (l2_domaindata t);
}.

Record link_ok (db : nhdp_db) (l : nat) (lnk : nhdp_link) : Prop := {
  lo_neigh : (l_neigh lnk < length (_neigh_list db))%nat;
  lo_2hop : tree_strict twohop_addr avl_comp_netaddr (_2hop lnk);
  lo_2hops : Forall (l2hop_ok l) (_2hop lnk);
  lo_len : length (l_domaindata lnk) = NHDP_MAXIMUM_DOMAINS;
  lo_metric : Forall metric_ok (l_domaindata lnk);
}.

Record neigh_ok (db : nhdp_db) (neigh : nhdp_neighbor) : Prop := {
  no_links : Forall (fun l => (l < length (_link_list db))%nat) (_links neigh);
  no_len : length (n_domaindata neigh) = NHDP_MAXIMUM_DOMAINS;
  no_metric : Forall (fun d => metric_ok (nd_metric d)) (n_domaindata neigh);
}.

Definition twohop_count (db : nhdp_db) : nat := sum_list ((fun lnk => length (_2hop lnk)) <$> _link_list db).

Record db_ok (db : nhdp_db) : Prop := {
  db_links l lnk : _link_list db !! l = Some lnk -> link_ok db l lnk;
  db_neighs n neigh : _neigh_list db !! n = Some neigh -> neigh_ok db neigh;
  db_ifs i ls : _if_links db !! i = Some ls -> Forall (fun l => (l < length (_link_list db))%nat) ls;
}.

Lemma get_link_ok db l : (l < length (_link_list db))%nat -> exists lnk, _link_list db !! l = Some lnk /\ get_link db l = Def lnk.
Proof.
  intros Hl. destruct (lookup_lt_is_Some_2 _ _ Hl) as [lnk E]. exists lnk. split; [done|]. unfold get_link. by rewrite E.
Qed.

Lemma get_neigh_ok db n : (n < length (_neigh_list db))%nat ->
  exists neigh, _neigh_list db !! n = Some neigh /\ get_neigh db n = Def neigh.
Proof.
  intros Hl. destruct (lookup_lt_is_Some_2 _ _ Hl) as [neigh E]. exists neigh. split; [done|]. unfold get_neigh. by rewrite E.
Qed.

Section domain.
Context (dom : nat) (Hdom : (dom < NHDP_MAXIMUM_DOMAINS)%nat).

Lemma linkdata_ok db l lnk : link_ok db l lnk -> exists m, nhdp_domain_get_linkdata dom lnk = Def m /\ metric_ok m.
Proof.
  intros H. destruct (lookup_lt_is_Some_2 (l_domaindata lnk) dom) as [m E]; [by rewrite (lo_len _ _ _ H)|].
  exists m. unfold nhdp_domain_get_linkdata. rewrite E. split; [done|]. by apply (Forall_lookup_1 _ _ _ _ (lo_metric _ _ _ H) E).
Qed.

Lemma l2hopdata_ok l t : l2hop_ok l t -> exists m, nhdp_domain_get_l2hopdata dom t = Def m /\ metric_ok m.
Proof.
  intros H. destruct (lookup_lt_is_Some_2 (l2_domaindata t) dom) as [m E]; [by rewrite (l2o_len _ _ H)|].
  exists m. unfold nhdp_domain_get_l2hopdata. rewrite E. split; [done|]. by apply (Forall_lookup_1 _ _ _ _ (l2o_metric _ _ H) E).
Qed.

Lemma neighbordata_ok db neigh : neigh_ok db neigh ->
  exists d, nhdp_domain_get_neighbordata dom neigh = Def d /\ metric_ok (nd_metric d).
Proof.
  intros H. destruct (lookup_lt_is_Some_2 (n_domaindata neigh) dom) as [d E]; [by rewrite (no_len _ _ H)|].
  exists d. unfold nhdp_domain_get_neighbordata. rewrite E. split; [done|]. by apply (Forall_lookup_1 _ _ _ _ (no_metric _ _ H) E).
Qed.
End domain.
