(* ===== verification/NhdpDomain.v ===== *)
(** The routing domains of src/nhdp/nhdp/nhdp_domain.c: the list of domains, the
    metrics and MPR algorithms that can be bound to them, and the TLVs that carry
    the types of the domains, MPR flags and willingness. *)

From Stdlib Require Import ZArith Lia Sorted Ascii String.
From stdpp Require Import base list numbers option gmap sets.
From S2P Require Import Prelude AvlSpec StateMonad Rfc5444Values Netaddr NhdpDb.

Local Open Scope Z_scope.
Local Open Scope cint_scope.


(** * Names *)

(** [tolower] of the C locale. *)
Definition tolower (c : ascii) : Z :=
  let z := Z.of_nat (nat_of_ascii c) in if (65 <=? z) && (z <=? 90) then z + 32 else z.

Definition lower (s : string) : bytes := tolower <$> list_ascii_of_string s.

Definition avl_comp_strcasecmp (a b : string) : Z := memcmp (lower a) (lower b).

(** [strscpy] into a buffer of 16 octets. *)
Definition strscpy16 (s : string) : string := substring 0 15 s.

#[export] Instance strcasecmp_comparator : Comparator avl_comp_strcasecmp.
Proof.
  split; unfold avl_comp_strcasecmp.
  - intros a. apply memcmp_refl.
  - intros a b. rewrite (memcmp_flip (lower b)). lia.
  - intros a b c. apply memcmp_trans.
Qed.

(** * Domains and their handlers *)

Record nhdp_domain_metric := {
  mt_name : string;
  incoming_link_start : Z;
  outgoing_link_start : Z;
  incoming_2hop_start : Z;
  outgoing_2hop_start : Z;
  no_default_handling : bool;
  mt_enable : bool;
  mt_disable : bool;
  mt_refcount : Z;
}.

Record nhdp_domain_mpr := { mp_name : string; mp_enable : bool; mp_disable : bool; mp_refcount : Z }.

Record nhdp_domain := {
  metric_name : string;
  mpr_name : string;
  metric : ptr;
  mpr : ptr;
  local_willingness : Z;
  ext : Z;
  index : nat;
  _mpr_outdated : bool;
  _tmp_willingness : Z;
}.

(** Callbacks of handlers and events of domains, in their order. *)
Inductive domain_call :=
  | Enable_metric (p : ptr) | Disable_metric (p : ptr) | Enable_mpr (p : ptr) | Disable_mpr (p : ptr)
  | Domain_added (index : nat) | Domain_changed (index : nat).

#[export] Instance domain_call_eq_dec : EqDecision domain_call.
Proof. solve_decision. Defined.

(** The static objects of the file. A domain is named by its index, which is its
    position in [_domain_list]. *)
Record registry := {
  metric_mem : gmap ptr nhdp_domain_metric;
  mpr_mem : gmap ptr nhdp_domain_mpr;
  _domain_metrics : list ptr;
  _domain_mprs : list ptr;
  _domain_list : list nhdp_domain;
  _flooding_domain : nhdp_domain;
  _domain_counter : nat;
  dom_calls : list domain_call;
}.

Definition _no_metric : ptr := 1.
Definition _everyone_mprs : ptr := 1.
Definition CFG_DOMAIN_NO_METRIC_MPR : string := "-".
Definition CFG_DOMAIN_ANY_METRIC_MPR : string := "*".

(** A domain: the one for flooding or one of the list. *)
Inductive domain_ref := Flooding | Domain (i : nat).

Section update.
Context (s : registry).
Definition set_metric_mem (m : gmap ptr nhdp_domain_metric) : registry :=
  {| metric_mem := m; mpr_mem := mpr_mem s; _domain_metrics := _domain_metrics s; _domain_mprs := _domain_mprs s;
     _domain_list := _domain_list s; _flooding_domain := _flooding_domain s; _domain_counter := _domain_counter s; dom_calls := dom_calls s |}.
Definition set_mpr_mem (m : gmap ptr nhdp_domain_mpr) : registry :=
  {| metric_mem := metric_mem s; mpr_mem := m; _domain_metrics := _domain_metrics s; _domain_mprs := _domain_mprs s;
     _domain_list := _domain_list s; _flooding_domain := _flooding_domain s; _domain_counter := _domain_counter s; dom_calls := dom_calls s |}.
Definition set_trees (metrics mprs : list ptr) : registry :=
  {| metric_mem := metric_mem s; mpr_mem := mpr_mem s; _domain_metrics := metrics; _domain_mprs := mprs;
     _domain_list := _domain_list s; _flooding_domain := _flooding_domain s; _domain_counter := _domain_counter s; dom_calls := dom_calls s |}.
Definition set_domains (l : list nhdp_domain) (f : nhdp_domain) (n : nat) : registry :=
  {| metric_mem := metric_mem s; mpr_mem := mpr_mem s; _domain_metrics := _domain_metrics s; _domain_mprs := _domain_mprs s;
     _domain_list := l; _flooding_domain := f; _domain_counter := n; dom_calls := dom_calls s |}.
Definition add_dom_call (c : domain_call) : registry :=
  {| metric_mem := metric_mem s; mpr_mem := mpr_mem s; _domain_metrics := _domain_metrics s; _domain_mprs := _domain_mprs s;
     _domain_list := _domain_list s; _flooding_domain := _flooding_domain s; _domain_counter := _domain_counter s; dom_calls := dom_calls s ++ [c] |}.
End update.

Definition with_metric (name : string) (p : ptr) (d : nhdp_domain) : nhdp_domain :=
  {| metric_name := name; mpr_name := mpr_name d; metric := p; mpr := mpr d; local_willingness := local_willingness d; ext := ext d;
     index := index d; _mpr_outdated := _mpr_outdated d; _tmp_willingness := _tmp_willingness d |}.
Definition with_mpr (name : string) (p : ptr) (d : nhdp_domain) : nhdp_domain :=
  {| metric_name := metric_name d; mpr_name := name; metric := metric d; mpr := p; local_willingness := local_willingness d; ext := ext d;
     index := index d; _mpr_outdated := _mpr_outdated d; _tmp_willingness := _tmp_willingness d |}.
Definition with_willingness (w : Z) (d : nhdp_domain) : nhdp_domain :=
  {| metric_name := metric_name d; mpr_name := mpr_name d; metric := metric d; mpr := mpr d; local_willingness := w; ext := ext d;
     index := index d; _mpr_outdated := _mpr_outdated d; _tmp_willingness := _tmp_willingness d |}.
Definition with_outdated (b : bool) (d : nhdp_domain) : nhdp_domain :=
  {| metric_name := metric_name d; mpr_name := mpr_name d; metric := metric d; mpr := mpr d; local_willingness := local_willingness d; ext := ext d;
     index := index d; _mpr_outdated := b; _tmp_willingness := _tmp_willingness d |}.
Definition with_tmp_willingness (w : Z) (d : nhdp_domain) : nhdp_domain :=
  {| metric_name := metric_name d; mpr_name := mpr_name d; metric := metric d; mpr := mpr d; local_willingness := local_willingness d; ext := ext d;
     index := index d; _mpr_outdated := _mpr_outdated d; _tmp_willingness := w |}.
Definition with_mt_refcount (f : Z -> Z) (m : nhdp_domain_metric) : nhdp_domain_metric :=
  {| mt_name := mt_name m; incoming_link_start := incoming_link_start m; outgoing_link_start := outgoing_link_start m;
     incoming_2hop_start := incoming_2hop_start m; outgoing_2hop_start := outgoing_2hop_start m;
     no_default_handling := no_default_handling m; mt_enable := mt_enable m; mt_disable := mt_disable m; mt_refcount := f (mt_refcount m) |}.
Definition with_mp_refcount (f : Z -> Z) (m : nhdp_domain_mpr) : nhdp_domain_mpr :=
  {| mp_name := mp_name m; mp_enable := mp_enable m; mp_disable := mp_disable m; mp_refcount := f (mp_refcount m) |}.

Notation reg_M := (state_M registry).
Local Open Scope state_scope.

Definition get_domain (d : domain_ref) : reg_M nhdp_domain := fun s =>
  match d with
  | Flooding => Def (_flooding_domain s, s)
  | Domain i => match _domain_list s !! i with Some dom => Def (dom, s) | None => Undef UB_read end
  end.
Definition put_domain (d : domain_ref) (dom : nhdp_domain) : reg_M unit := modify (fun s =>
  match d with
  | Flooding => set_domains s (_domain_list s) dom (_domain_counter s)
  | Domain i => set_domains s (<[i := dom]> (_domain_list s)) (_flooding_domain s) (_domain_counter s)
  end).
Definition count_metric (p : ptr) (f : Z -> Z) : reg_M nhdp_domain_metric :=
  m <~ load metric_mem p ;; modify (fun s => set_metric_mem s (<[p := with_mt_refcount f m]> (metric_mem s))) ;;; ret (with_mt_refcount f m).
Definition count_mpr (p : ptr) (f : Z -> Z) : reg_M nhdp_domain_mpr :=
  m <~ load mpr_mem p ;; modify (fun s => set_mpr_mem s (<[p := with_mp_refcount f m]> (mpr_mem s))) ;;; ret (with_mp_refcount f m).
Definition dom_call (c : domain_call) : reg_M unit := modify (fun s => add_dom_call s c).

Definition inc (z : Z) : Z := z + 1.
Definition dec (z : Z) : Z := z - 1.

(** The names in the trees. *)
Definition metric_key (mem : gmap ptr nhdp_domain_metric) (p : ptr) : string := match mem !! p with Some m => mt_name m | None => EmptyString end.
Definition mpr_key (mem : gmap ptr nhdp_domain_mpr) (p : ptr) : string := match mem !! p with Some m => mp_name m | None => EmptyString end.

(** ** Metrics *)

Definition _remove_metric (d : domain_ref) : reg_M unit :=
  dom <~ get_domain d ;;
  m <~ count_metric (metric dom) dec ;;
  (if (mt_refcount m =? 0) && mt_disable m then dom_call (Disable_metric (metric dom)) else ret tt) ;;;
  put_domain d (with_metric CFG_DOMAIN_NO_METRIC_MPR _no_metric dom) ;;;
  count_metric _no_metric inc ;;; ret tt.

Definition _apply_metric (d : domain_ref) (name : string) : reg_M unit :=
  dom <~ get_domain d ;;
  if avl_comp_strcasecmp (metric_name dom) name =? 0 then ret tt
  else
    (if bool_decide (metric dom <> _no_metric) then _remove_metric d else ret tt) ;;;
    s <~ get ;;
    let name := match _domain_metrics s with
      | first :: _ => if avl_comp_strcasecmp name CFG_DOMAIN_ANY_METRIC_MPR =? 0 then metric_key (metric_mem s) first else name
      | [] => name
      end in
    let p := default _no_metric (tree_find (metric_key (metric_mem s)) avl_comp_strcasecmp name (_domain_metrics s)) in
    m <~ load metric_mem p ;;
    dom <~ get_domain d ;;
    count_metric (metric dom) dec ;;;
    put_domain d (with_metric (strscpy16 (mt_name m)) p dom) ;;;
    m <~ load metric_mem p ;;
    (if (mt_refcount m =? 0) && mt_enable m then dom_call (Enable_metric p) else ret tt) ;;;
    count_metric p inc ;;; ret tt.

(** Adding: zero in a start value stands for the default. The metric is an object
    of the caller at [p]. *)
Definition metric_defaults (m : nhdp_domain_metric) : nhdp_domain_metric :=
  let or_default v d := if v =? 0 then d else v in
  {| mt_name := mt_name m; incoming_link_start := or_default (incoming_link_start m) RFC7181_METRIC_MAX;
     outgoing_link_start := or_default (outgoing_link_start m) RFC7181_METRIC_INFINITE;
     incoming_2hop_start := or_default (incoming_2hop_start m) RFC7181_METRIC_INFINITE;
     outgoing_2hop_start := or_default (outgoing_2hop_start m) RFC7181_METRIC_INFINITE;
     no_default_handling := no_default_handling m; mt_enable := mt_enable m; mt_disable := mt_disable m; mt_refcount := mt_refcount m |}.

Definition nhdp_domain_metric_add (p : ptr) : reg_M bool :=
  m <~ load metric_mem p ;;
  modify (fun s => set_metric_mem s (<[p := metric_defaults m]> (metric_mem s))) ;;;
  s <~ get ;;
  match tree_insert (metric_key (metric_mem s)) avl_comp_strcasecmp p (_domain_metrics s) with
  | Some l => modify (fun s => set_trees s l (_domain_mprs s)) ;;; ret true
  | None => ret false
  end.

(** The first domain of [l] that satisfies [f]. *)
Definition first_domain (f : nhdp_domain -> bool) (l : list nhdp_domain) : option nat :=
  fst <$> list_find (fun d => f d = true) l.

Definition nhdp_domain_metric_remove (p : ptr) : reg_M unit :=
  s <~ get ;;
  match first_domain (fun d => bool_decide (metric d = p)) (_domain_list s) with
  | Some i => _remove_metric (Domain i)
  | None => ret tt
  end ;;;
  s <~ get ;;
  if decide (p ∈ _domain_metrics s) then modify (fun s => set_trees s (filter (fun q => q <> p) (_domain_metrics s)) (_domain_mprs s))
  else undef UB_null.

(** ** MPR algorithms *)

Definition _remove_mpr (d : domain_ref) : reg_M unit :=
  dom <~ get_domain d ;;
  m <~ count_mpr (mpr dom) dec ;;
  (if (mp_refcount m =? 0) && mp_disable m then dom_call (Disable_mpr (mpr dom)) else ret tt) ;;;
  put_domain d (with_mpr CFG_DOMAIN_NO_METRIC_MPR _everyone_mprs dom) ;;;
  count_mpr _everyone_mprs inc ;;; ret tt.

Definition _apply_mpr (d : domain_ref) (name : string) (willingness : Z) : reg_M unit :=
  dom <~ get_domain d ;;
  put_domain d (with_willingness willingness dom) ;;;
  if avl_comp_strcasecmp (mpr_name dom) name =? 0 then ret tt
  else
    (if bool_decide (mpr dom <> _everyone_mprs) then _remove_mpr d else ret tt) ;;;
    s <~ get ;;
    let name := match _domain_mprs s with
      | first :: _ => if avl_comp_strcasecmp name CFG_DOMAIN_ANY_METRIC_MPR =? 0 then mpr_key (mpr_mem s) first else name
      | [] => name
      end in
    let p := default _everyone_mprs (tree_find (mpr_key (mpr_mem s)) avl_comp_strcasecmp name (_domain_mprs s)) in
    m <~ load mpr_mem p ;;
    dom <~ get_domain d ;;
    count_mpr (mpr dom) dec ;;;
    put_domain d (with_mpr (strscpy16 (mp_name m)) p dom) ;;;
    m <~ load mpr_mem p ;;
    (if (mp_refcount m =? 0) && mp_enable m then dom_call (Enable_mpr p) else ret tt) ;;;
    count_mpr p inc ;;; ret tt.

(** The loop of [nhdp_domain_mpr_add] over the domains [l]. *)
Fixpoint apply_again (l : list nat) : reg_M unit :=
  match l with
  | [] => ret tt
  | i :: l =>
      dom <~ get_domain (Domain i) ;;
      (if bool_decide (mpr dom = _everyone_mprs) then _apply_mpr (Domain i) (mpr_name dom) (local_willingness dom) else ret tt) ;;;
      apply_again l
  end.

Definition nhdp_domain_mpr_add (p : ptr) : reg_M bool :=
  s <~ get ;;
  match tree_insert (mpr_key (mpr_mem s)) avl_comp_strcasecmp p (_domain_mprs s) with
  | None => ret false
  | Some l =>
      modify (fun s => set_trees s (_domain_metrics s) l) ;;;
      s <~ get ;;
      apply_again (seq 0 (length (_domain_list s))) ;;;
      f <~ get_domain Flooding ;;
      (if bool_decide (mpr f = _everyone_mprs) then _apply_mpr Flooding (mpr_name f) (local_willingness f) else ret tt) ;;;
      ret true
  end.

Definition nhdp_domain_mpr_remove (p : ptr) : reg_M unit :=
  s <~ get ;;
  match first_domain (fun d => bool_decide (mpr d = p)) (_domain_list s) with
  | Some i => _remove_mpr (Domain i)
  | None => ret tt
  end ;;;
  s <~ get ;;
  if decide (p ∈ _domain_mprs s) then modify (fun s => set_trees s (_domain_metrics s) (filter (fun q => q <> p) (_domain_mprs s)))
  else undef UB_null.

Definition nhdp_domain_set_flooding_mpr (name : string) (willingness : Z) : reg_M unit := _apply_mpr Flooding name willingness.

(** ** Domains *)

Definition nhdp_domain_get_by_ext (domains : list nhdp_domain) (e : Z) : option nhdp_domain :=
  snd <$> list_find (fun d => ext d = e) domains.

Definition new_domain (e : Z) (i : nat) : nhdp_domain := {|
  metric_name := EmptyString; mpr_name := EmptyString; metric := _no_metric; mpr := _everyone_mprs; local_willingness := 0;
  ext := e; index := i; _mpr_outdated := false; _tmp_willingness := 0 |}.

(** [memory] says whether there is memory for the domain. *)
Definition nhdp_domain_add (memory : bool) (e : Z) : reg_M (option nat) :=
  s <~ get ;;
  match nhdp_domain_get_by_ext (_domain_list s) e with
  | Some d => ret (Some (index d))
  | None =>
      if (_domain_counter s =? NHDP_MAXIMUM_DOMAINS)%nat then ret None
      else if negb memory then ret None
      else
        let i := _domain_counter s in
        modify (fun s => set_domains s (_domain_list s) (_flooding_domain s) (S i)) ;;;
        count_mpr _everyone_mprs inc ;;;
        count_metric _no_metric inc ;;;
        modify (fun s => set_domains s (_domain_list s ++ [new_domain e i]) (_flooding_domain s) (_domain_counter s)) ;;;
        dom_call (Domain_added i) ;;;
        ret (Some i)
  end.

Definition nhdp_domain_configure (memory : bool) (e : Z) (metric_name mpr_name : string) (willingness : Z) : reg_M (option nat) :=
  i <~ nhdp_domain_add memory e ;;
  match i with
  | None => ret None
  | Some i =>
      _apply_metric (Domain i) metric_name ;;;
      _apply_mpr (Domain i) mpr_name willingness ;;;
      dom_call (Domain_changed i) ;;;
      ret (Some i)
  end.

(** The static objects after [nhdp_domain_init]; [metrics] and [mprs] are the
    objects of the other components. *)
Definition default_metric : nhdp_domain_metric := {|
  mt_name := "Hopcount metric"; incoming_link_start := RFC7181_METRIC_MAX; outgoing_link_start := RFC7181_METRIC_MAX;
  incoming_2hop_start := RFC7181_METRIC_MAX; outgoing_2hop_start := RFC7181_METRIC_MAX; no_default_handling := true;
  mt_enable := false; mt_disable := false; mt_refcount := 0 |}.
Definition default_mpr : nhdp_domain_mpr := {| mp_name := "Everyone MPR"; mp_enable := false; mp_disable := false; mp_refcount := 0 |}.

Definition nhdp_domain_init (metrics : gmap ptr nhdp_domain_metric) (mprs : gmap ptr nhdp_domain_mpr) : registry := {|
  metric_mem := <[_no_metric := with_mt_refcount inc default_metric]> metrics; mpr_mem := <[_everyone_mprs := with_mp_refcount inc default_mpr]> mprs;
  _domain_metrics := []; _domain_mprs := []; _domain_list := []; _flooding_domain := new_domain 0 0; _domain_counter := 0; dom_calls := [] |}.

(** * TLVs *)

(** [nhdp_domain_encode_mprtypes_tlvvalue]: the octets that are written. *)
Definition nhdp_domain_encode_mprtypes_tlvvalue (domains : list nhdp_domain) (mprtypes_size : nat) : outcome bytes :=
  match domains, mprtypes_size with
  | _ :: _, O => Undef UB_write
  | _, _ => Def (take mprtypes_size (ext <$> domains))
  end.

(** The types that a message is read with: those of the first domain without a
    TLV. [Undef] is the first element of an empty list. *)
Definition nhdp_domain_process_mprtypes_tlv (domains : list nhdp_domain) (mprtypes_size : nat) (tlv : option bytes) : outcome bytes :=
  match tlv with
  | None => match domains, mprtypes_size with d :: _, S _ => Def [ext d] | [], _ => Undef UB_read | _, O => Undef UB_write end
  | Some _ => nhdp_domain_encode_mprtypes_tlvvalue domains mprtypes_size
  end.

(** [buf[i] |= v] *)
Definition or_octet (buf : bytes) (i v : Z) : outcome bytes := x ← rd buf i; wr_n buf i [u8 (x .| v)].

(** The flags of a neighbor for the domains, in [_domaindata]. *)
Definition flag_at (flags : list bool) (i : nat) : outcome bool := match flags !! i with Some b => Def b | None => Undef UB_read end.

(** [nhdp_domain_encode_mpr_tlvvalue] for a link with the given flags: the length
    and the buffer. *)
Fixpoint encode_mpr_loop (domains : list nhdp_domain) (neigh_is_mpr : list bool) (len : Z) (tlvvalue : bytes) : outcome (Z * bytes) :=
  match domains with
  | [] => Def (len, tlvvalue)
  | d :: domains =>
      let bit_idx := Z.of_nat (index d + 1) .& 7 in
      let byte_idx := Z.of_nat (index d + 1) .>> 3 in
      if blen tlvvalue <=? byte_idx then Def (0, tlvvalue)
      else
        let len := Z.max len (byte_idx + 1) in
        b ← flag_at neigh_is_mpr (index d);
        tlvvalue ← if (b : bool) then or_octet tlvvalue byte_idx (1 .<< bit_idx) else Def tlvvalue;
        encode_mpr_loop domains neigh_is_mpr len tlvvalue
  end.

Definition RFC7181_MPR_FLOODING : Z := 1.

Definition nhdp_domain_encode_mpr_tlvvalue (domains : list nhdp_domain) (tlvsize : nat) (neigh_is_flooding_mpr : bool) (neigh_is_mpr : list bool) : outcome (Z * bytes) :=
  let tlvvalue := repeat 0 tlvsize in
  tlvvalue ← if neigh_is_flooding_mpr then or_octet tlvvalue 0 RFC7181_MPR_FLOODING else Def tlvvalue;
  encode_mpr_loop domains neigh_is_mpr 0 tlvvalue.

(** [nhdp_domain_process_mpr_tlv]. A neighbor is the list of its flags
    [local_is_mpr], one for each entry of [_domaindata]; the link belongs to the
    one at position [neigh]. *)
Record mpr_flags := {
  local_is_flooding_mpr : bool;
  local_is_mpr : list (list bool);
  _node_is_selected_as_mpr : bool;
}.

Definition set_flag (i : nat) (b : bool) (flags : list bool) : list bool := <[i := b]> flags.

Fixpoint process_mpr_loop (domains : list nhdp_domain) (mprtypes : bytes) (i : Z) (tlv : bytes) (flags : list bool) : outcome (list bool) :=
  match mprtypes with
  | [] => Def flags
  | t :: mprtypes =>
      flags ← match nhdp_domain_get_by_ext domains t with
        | None => Def flags
        | Some domain =>
            let bit_idx := (i + 1) .& 7 in
            let byte_idx := (i + 1) .>> 3 in
            if blen tlv <=? byte_idx then Def flags
            else v ← rd tlv byte_idx; Def (set_flag (index domain) (negb (v .& (1 .<< bit_idx) =? 0)) flags)
        end;
      process_mpr_loop domains mprtypes (i + 1) tlv flags
  end.

Definition nhdp_domain_process_mpr_tlv (domains : list nhdp_domain) (mprtypes : bytes) (neigh : nat) (tlv : option bytes) (st : mpr_flags) : outcome mpr_flags :=
  match local_is_mpr st !! neigh with
  | None => Undef UB_read
  | Some flags =>
      let flags := foldl (fun fl d => set_flag (index d) false fl) flags domains in
      match tlv with
      | None => Def {| local_is_flooding_mpr := false; local_is_mpr := <[neigh := flags]> (local_is_mpr st);
                       _node_is_selected_as_mpr := _node_is_selected_as_mpr st |}
      | Some tlv =>
          v ← rd tlv 0;
          flags ← process_mpr_loop domains mprtypes 0 tlv flags;
          let neighs := <[neigh := flags]> (local_is_mpr st) in
          Def {| local_is_flooding_mpr := negb (v .& RFC7181_MPR_FLOODING =? 0); local_is_mpr := neighs;
                 _node_is_selected_as_mpr := existsb (fun d => existsb (fun fl => default false (fl !! index d)) neighs) domains |}
      end
  end.

(** *** Willingness *)

Definition RFC7181_WILLINGNESS_MASK : Z := 15.
Definition RFC7181_WILLINGNESS_SHIFT : Z := 4.
Definition RFC7181_WILLINGNESS_NEVER : Z := 0.

(** [nhdp_domain_encode_willingness_tlvvalue]: the result [-1] is converted to
    [size_t]. *)
Fixpoint encode_willingness_loop (domains : list nhdp_domain) (len : Z) (tlvvalue : bytes) : outcome (Z * bytes) :=
  match domains with
  | [] => Def (len, tlvvalue)
  | d :: domains =>
      let idx := Z.of_nat (index d + 1) / 2 in
      if blen tlvvalue <=? idx then Def (u64 (-1), tlvvalue)
      else
        let len := Z.max len (idx + 1) in
        let value := local_willingness d .& RFC7181_WILLINGNESS_MASK in
        let value := if Z.of_nat (index d) .& 1 =? 0 then u8 (value .<< RFC7181_WILLINGNESS_SHIFT) else value in
        tlvvalue ← or_octet tlvvalue idx value;
        encode_willingness_loop domains len tlvvalue
  end.

Definition nhdp_domain_encode_willingness_tlvvalue (domains : list nhdp_domain) (flooding : nhdp_domain) (tlvsize : nat) : outcome (Z * bytes) :=
  tlvvalue ← wr_n (repeat 0 tlvsize) 0 [local_willingness flooding];
  encode_willingness_loop domains 0 tlvvalue.

(** [nhdp_domain_process_willingness_tlv] writes [_tmp_willingness] of all domains. *)
Definition set_tmp (e : Z) (w : Z) (domains : list nhdp_domain) : list nhdp_domain :=
  match list_find (fun d => ext d = e) domains with Some (i, d) => <[i := with_tmp_willingness w d]> domains | None => domains end.

Fixpoint process_willingness_loop (mprtypes : bytes) (i : Z) (tlv : bytes) (domains : list nhdp_domain) : outcome (list nhdp_domain) :=
  match mprtypes with
  | [] => Def domains
  | t :: mprtypes =>
      domains ← match nhdp_domain_get_by_ext domains t with
        | None => Def domains
        | Some domain =>
            let idx := (i + 1) / 2 in
            if blen tlv <=? idx then Def domains
            else
              value ← rd tlv idx;
              let value := if Z.of_nat (index domain) .& 1 =? 0 then value .>> RFC7181_WILLINGNESS_SHIFT else value .& RFC7181_WILLINGNESS_MASK in
              Def (set_tmp t value domains)
        end;
      process_willingness_loop mprtypes (i + 1) tlv domains
  end.

Definition nhdp_domain_process_willingness_tlv (mprtypes : bytes) (tlv : option bytes) (domains : list nhdp_domain) (flooding : nhdp_domain)
    : outcome (list nhdp_domain * nhdp_domain) :=
  let domains := with_tmp_willingness RFC7181_WILLINGNESS_NEVER <$> domains in
  match tlv with
  | None => Def (domains, with_tmp_willingness RFC7181_WILLINGNESS_NEVER flooding)
  | Some tlv =>
      v ← rd tlv 0;
      domains ← process_willingness_loop mprtypes 0 tlv domains;
      Def (domains, with_tmp_willingness (v .& RFC7181_WILLINGNESS_MASK) flooding)
  end.

(** [nhdp_domain_store_willingness]: the flooding willingness of the link and the
    willingness of its neighbor for all domains. *)
Definition nhdp_domain_store_willingness (domains : list nhdp_domain) (flooding : nhdp_domain) (willingness : list Z) : Z * list Z :=
  (_tmp_willingness flooding, foldl (fun w d => <[index d := _tmp_willingness d]> w) willingness domains).
