(* ===== verification/NhdpTlv.v ===== *)
(** The TLVs of src/nhdp/nhdp/nhdp_domain.c for all domains: what a router writes
    into the MPR and willingness TLVs is what a router with the same domains
    reads from them. *)

From Stdlib Require Import ZArith Lia Sorted String.
From stdpp Require Import base list numbers option gmap sets.
From S2P Require Import Prelude AvlSpec StateMonad Rfc5444Values Netaddr NhdpDb NhdpDomain.

Local Open Scope Z_scope.
Local Open Scope cint_scope.

(** * Bits of a buffer

    Bit [k] of a buffer is bit [k mod 8] of octet [k / 8]. *)
Definition bit (buf : bytes) (k : Z) : bool := Z.testbit (default 0 (buf !! Z.to_nat (k / 8))) (k mod 8).

Lemma or_octet_spec buf i v : octets buf -> is_u8 v -> 0 <= i < blen buf ->
  exists buf', or_octet buf i v = Def buf' /\ blen buf' = blen buf /\ octets buf' /\
    forall k, 0 <= k -> bit buf' k = bit buf k || ((k / 8 =? i) && Z.testbit v (k mod 8)).
Proof.
  intros Ho Hv Hi. unfold or_octet. destruct (rd_inside buf i Hi) as (x & Ex & Hx). rewrite Ex. cbn [mbind outcome_bind].
  pose proof (rd_octet _ _ _ Ho Ex) as Hx8. pose proof (octet_lor x v Hx8 Hv) as Hxv. unfold u8. rewrite wrap_small by (unfold is_u8 in Hxv; lia).
  assert (wr_n buf i [x .| v] = Def (<[Z.to_nat i := x .| v]> buf)) as E.
  { unfold wr_n, blen in *. simpl. destruct (Z.ltb_spec i 0); [lia|]. destruct (Z.ltb_spec (Z.of_nat (length buf)) (i + Z.of_nat 1)); [lia|]. simpl.
    f_equal. rewrite insert_take_drop by lia. do 3 f_equal. lia. }
  exists (<[Z.to_nat i := x .| v]> buf). split; [exact E|]. split; [unfold blen; by rewrite length_insert|].
  split; [by apply Forall_insert|]. intros k Hk. unfold bit. destruct (Z.eqb_spec (k / 8) i) as [<-|Hne].
  - rewrite list_lookup_insert_eq by (unfold blen in Hi; lia). rewrite Hx. simpl. by rewrite Z.lor_spec.
  - assert (0 <= k / 8) by (apply Z.div_pos; lia). rewrite list_lookup_insert_ne by lia. by rewrite orb_false_r.
Qed.

Lemma bit_zero n k : bit (repeat 0 n) k = false.
Proof.
  unfold bit. assert (default 0 (repeat 0 n !! Z.to_nat (k / 8)) = 0) as ->; [|by rewrite Z.bits_0].
  destruct (repeat 0 n !! Z.to_nat (k / 8)) eqn:E; [|done]. apply list_elem_of_lookup_2, list_elem_of_In, repeat_spec in E. done.
Qed.

Lemma octets_zero n : octets (repeat 0 n).
Proof. apply Forall_forall. intros x Hx. apply list_elem_of_In, repeat_spec in Hx as ->. done. Qed.

(** Octets behind the length that is sent do not matter. *)
Lemma bit_take buf n k : 0 <= k < 8 * Z.of_nat n -> bit (take n buf) k = bit buf k.
Proof. intros Hk. unfold bit. rewrite lookup_take_lt; [done|]. pose proof (Z.div_lt_upper_bound k 8 (Z.of_nat n)). pose proof (Z.div_pos k 8). lia. Qed.

(** * Domains *)

(** The domains in the list have their position as index and different types;
    there are at most [NHDP_MAXIMUM_DOMAINS]. *)
Record domains_ok (domains : list nhdp_domain) : Prop := {
  do_index i d : domains !! i = Some d -> index d = i;
  do_ext : NoDup (ext <$> domains);
  do_count : (length domains <= NHDP_MAXIMUM_DOMAINS)%nat;
}.

Lemma get_by_ext domains i d : domains_ok domains -> domains !! i = Some d -> list_find (fun d' => ext d' = ext d) domains = Some (i, d).
Proof.
  intros H Hd. apply list_find_Some. split; [done|]. split; [done|]. intros j y Hj Hlt E.
  assert (i = j); [|lia]. eapply NoDup_lookup; [apply (do_ext _ H)|by rewrite list_lookup_fmap, Hd|rewrite list_lookup_fmap, Hj; simpl; by f_equal].
Qed.

(** Changes that keep types and indices. *)
Lemma domains_ok_same l l' : ext <$> l' = ext <$> l -> index <$> l' = index <$> l -> domains_ok l -> domains_ok l'.
Proof.
  intros E1 E2 [H1 H2 H3]. split.
  - intros i d Hd. assert ((index <$> l') !! i = Some (index d)) as Hi by (by rewrite list_lookup_fmap, Hd).
    rewrite E2, list_lookup_fmap in Hi. destruct (l !! i) as [d'|] eqn:E; [|done]. injection Hi as <-. by apply H1.
  - by rewrite E1.
  - apply (f_equal length) in E1. rewrite !length_fmap in E1. by rewrite E1.
Qed.

(** ** Types *)

(** The types of the domains, in their order. *)
Lemma encode_types domains : domains_ok domains -> nhdp_domain_encode_mprtypes_tlvvalue domains NHDP_MAXIMUM_DOMAINS = Def (ext <$> domains).
Proof.
  intros H. unfold nhdp_domain_encode_mprtypes_tlvvalue. rewrite take_ge by (rewrite length_fmap; apply H). by destruct domains.
Qed.

Definition types_read (domains : list nhdp_domain) (tlv : option bytes) : bytes :=
  match tlv with Some _ => ext <$> domains | None => take 1 (ext <$> domains) end.

(** * MPR flags *)

(** What the encoder writes from position [i] on: all flags are in one octet. *)
Lemma encode_mpr_loop_spec all flags domains i len buf : domains_ok all -> domains = drop i all -> length flags = NHDP_MAXIMUM_DOMAINS ->
  octets buf -> 1 <= blen buf -> 0 <= len <= 1 ->
  exists buf', encode_mpr_loop domains flags len buf = Def (if decide (domains = []) then len else 1, buf') /\ blen buf' = blen buf /\ octets buf' /\
    forall k, 0 <= k -> bit buf' k = bit buf k || (bool_decide (Z.of_nat i < k <= Z.of_nat (length all)) && default false (flags !! Z.to_nat (k - 1))).
Proof.
  intros Hall. revert i len buf. induction domains as [|d domains IH]; intros i len buf Ed Hf Ho Hb Hl; simpl.
  - exists buf. split; [done|]. split; [done|]. split; [done|]. intros k Hk. rewrite bool_decide_eq_false_2; [by rewrite orb_false_r|].
    symmetry in Ed. apply (f_equal length) in Ed. rewrite length_drop in Ed. simpl in Ed. lia.
  - assert (all !! i = Some d) as Hd by (by rewrite <- (Nat.add_0_r i), <- lookup_drop, <- Ed).
    assert (domains = drop (S i) all) as Ed' by (rewrite (drop_S all d i Hd) in Ed; by injection Ed).
    pose proof (do_count _ Hall) as Hc. apply lookup_lt_Some in Hd as Hi. unfold NHDP_MAXIMUM_DOMAINS in Hc, Hf.
    rewrite (do_index _ Hall i d Hd).
    assert ((Z.of_nat (i + 1) .& 7) = Z.of_nat i + 1 /\ (Z.of_nat (i + 1) .>> 3) = 0) as [-> ->].
    { destruct i as [|[|[|[|]]]]; [by vm_compute..|lia]. }
    destruct (Z.leb_spec (blen buf) 0); [lia|]. rewrite (Z.max_r len (0 + 1)) by lia. change (0 + 1) with 1.
    destruct (lookup_lt_is_Some_2 flags i) as [b Hfi]; [lia|]. unfold flag_at. rewrite Hfi. cbn [mbind outcome_bind].
    assert (exists buf1, (if b then or_octet buf 0 (1 .<< (Z.of_nat i + 1)) else Def buf) = Def buf1 /\ blen buf1 = blen buf /\ octets buf1 /\
      forall k, 0 <= k -> bit buf1 k = bit buf k || (bool_decide (k = Z.of_nat i + 1) && b)) as (buf1 & -> & Hb1 & Ho1 & Hk1).
    { destruct b; [|exists buf; split; [done|]; split; [done|]; split; [done|]; intros; by rewrite andb_false_r, orb_false_r].
      destruct (or_octet_spec buf 0 (1 .<< (Z.of_nat i + 1)) Ho) as (buf1 & E & Hb1 & Ho1 & Hk1); [|lia|].
      { destruct i as [|[|[|[|]]]]; [by vm_compute..|lia]. }
      exists buf1. split; [done|]. split; [done|]. split; [done|]. intros k Hk. rewrite Hk1 by done. f_equal. rewrite andb_true_r.
      rewrite shiftl_mul, Z.mul_1_l by lia. rewrite Z.pow2_bits_eqb by lia.
      destruct (bool_decide_reflect (k = Z.of_nat i + 1)) as [->|Hne].
      - rewrite Z.div_small, Z.mod_small by lia. by rewrite !Z.eqb_refl.
      - destruct (Z.eqb_spec (k / 8) 0) as [Hk8|]; [|done]. apply Z.div_small_iff in Hk8; [|lia]. rewrite Z.mod_small by lia.
        destruct (Z.eqb_spec (Z.of_nat i + 1) k); [lia|done]. }
    cbn [mbind outcome_bind]. destruct (IH (S i) 1 buf1 Ed' Hf Ho1) as (buf2 & -> & Hb2 & Ho2 & Hk2); [lia|lia|].
    exists buf2. split; [by destruct (decide (domains = []))|]. split; [lia|]. split; [done|]. intros k Hk. rewrite Hk2, Hk1 by done. rewrite <- orb_assoc. f_equal.
    destruct (bool_decide_reflect (k = Z.of_nat i + 1)) as [->|Hne]; simpl.
    + rewrite bool_decide_eq_false_2, bool_decide_eq_true_2 by lia. simpl. replace (Z.to_nat (Z.of_nat i + 1 - 1)) with i by lia. rewrite Hfi. by rewrite orb_false_r.
    + f_equal. apply bool_decide_ext. lia.
Qed.

Lemma encode_mpr_spec domains flooding flags n : domains_ok domains -> domains <> [] -> length flags = NHDP_MAXIMUM_DOMAINS -> (1 <= n)%nat ->
  exists buf, nhdp_domain_encode_mpr_tlvvalue domains n flooding flags = Def (1, buf) /\ blen buf = Z.of_nat n /\ octets buf /\
    bit buf 0 = flooding /\ forall i d b, domains !! i = Some d -> flags !! i = Some b -> bit buf (Z.of_nat i + 1) = b.
Proof.
  intros Hd Hne Hf Hn. unfold nhdp_domain_encode_mpr_tlvvalue.
  assert (blen (repeat 0 n) = Z.of_nat n) as Hb0 by (unfold blen; by rewrite repeat_length).
  assert (exists buf1, (if flooding then or_octet (repeat 0 n) 0 RFC7181_MPR_FLOODING else Def (repeat 0 n)) = Def buf1 /\ blen buf1 = Z.of_nat n /\ octets buf1 /\
    forall k, 0 <= k -> bit buf1 k = bool_decide (k = 0) && flooding) as (buf1 & -> & Hb1 & Ho1 & Hk1).
  { destruct flooding.
    - destruct (or_octet_spec (repeat 0 n) 0 RFC7181_MPR_FLOODING (octets_zero n)) as (buf1 & E & Hb1 & Ho1 & Hk1); [done|lia|].
      exists buf1. split; [done|]. split; [lia|]. split; [done|]. intros k Hk. rewrite Hk1, bit_zero, andb_true_r by done. simpl.
      change RFC7181_MPR_FLOODING with (2 ^ 0). rewrite Z.pow2_bits_eqb by lia. pose proof (Z.div_mod k 8).
      destruct (bool_decide_reflect (k = 0)) as [->|]; [done|]. destruct (Z.eqb_spec (k / 8) 0), (Z.eqb_spec 0 (k mod 8)); try done. lia.
    - exists (repeat 0 n). split; [done|]. split; [done|]. split; [apply octets_zero|]. intros k _. by rewrite bit_zero, andb_false_r. }
  cbn [mbind outcome_bind]. destruct (encode_mpr_loop_spec domains flags domains 0 0 buf1 Hd eq_refl Hf Ho1) as (buf & -> & Hb & Ho & Hk); [lia|lia|].
  exists buf. split; [by rewrite decide_False|]. split; [lia|]. split; [done|]. split.
  - rewrite Hk, Hk1 by done. rewrite (bool_decide_eq_false_2 (_ < 0 <= _)) by lia. by rewrite orb_false_r.
  - intros i d b Hi Hb'. apply lookup_lt_Some in Hi. rewrite Hk, Hk1 by lia. rewrite (bool_decide_eq_false_2 (_ = 0)), bool_decide_eq_true_2 by lia. simpl.
    replace (Z.to_nat (Z.of_nat i + 1 - 1)) with i by lia. by rewrite Hb'.
Qed.

(** What the reader takes from position [i] on, with the types of its own domains. *)
Lemma process_mpr_loop_spec domains tlv n i flags : domains_ok domains -> octets tlv -> 1 <= blen tlv -> length flags = NHDP_MAXIMUM_DOMAINS ->
  exists flags', process_mpr_loop domains (ext <$> take n (drop i domains)) (Z.of_nat i) tlv flags = Def flags' /\ length flags' = NHDP_MAXIMUM_DOMAINS /\
    forall j, flags' !! j = if decide (i <= j < i + n /\ j < length domains)%nat then Some (bit tlv (Z.of_nat j + 1)) else flags !! j.
Proof.
  intros Hd Ho Hb. revert i flags. induction n as [|n IH]; intros i flags Hf.
  { exists flags. split; [done|]. split; [done|]. intros j. rewrite decide_False by lia. done. }
  destruct (domains !! i) as [d|] eqn:Ed.
  2: { apply lookup_ge_None in Ed. rewrite drop_ge, take_nil by done. exists flags. split; [done|]. split; [done|]. intros j. by rewrite decide_False by lia. }
  rewrite (drop_S _ _ _ Ed). cbn [take fmap list_fmap process_mpr_loop]. unfold nhdp_domain_get_by_ext. rewrite (get_by_ext domains i d Hd Ed). cbn [fmap option_fmap option_map snd].
  apply lookup_lt_Some in Ed as Hi. pose proof (do_count _ Hd) as Hc. unfold NHDP_MAXIMUM_DOMAINS in Hc. rewrite (do_index _ Hd i d Ed).
  assert (((Z.of_nat i + 1) .& 7) = Z.of_nat i + 1 /\ ((Z.of_nat i + 1) .>> 3) = 0) as [-> ->] by (destruct i as [|[|[|[|]]]]; [by vm_compute..|lia]).
  destruct (Z.leb_spec (blen tlv) 0); [lia|]. destruct (rd_inside tlv 0) as (v & Ev & Hv); [lia|]. rewrite Ev. cbn [mbind outcome_bind].
  assert (negb (v .& (1 .<< (Z.of_nat i + 1)) =? 0) = bit tlv (Z.of_nat i + 1)) as ->.
  { rewrite shiftl_mul, Z.mul_1_l, land_pow2 by lia. unfold bit. rewrite Z.div_small, Z.mod_small by lia. change (Z.to_nat 0) with 0%nat in *. by rewrite Hv. }
  unfold set_flag. destruct (IH (S i) (<[i := bit tlv (Z.of_nat i + 1)]> flags)) as (flags' & E & Hl & Hj); [by rewrite length_insert|].
  replace (Z.of_nat (S i)) with (Z.of_nat i + 1) in E by lia. rewrite E. exists flags'. split; [done|]. split; [done|]. intros j. rewrite Hj.
  destruct (decide (j = i)) as [->|Hne].
  - rewrite decide_False, decide_True by lia. apply list_lookup_insert_eq. rewrite Hf. unfold NHDP_MAXIMUM_DOMAINS. lia.
  - rewrite list_lookup_insert_ne by done. destruct (decide (S i <= j < S i + n /\ j < length domains)%nat).
    + by rewrite decide_True by lia.
    + by rewrite decide_False by lia.
Qed.

Lemma clear_flags domains flags : length (foldl (fun fl (d : nhdp_domain) => set_flag (index d) false fl) flags domains) = length flags.
Proof. revert flags. induction domains as [|d l IH]; intros flags; [done|]. simpl. rewrite IH. apply length_insert. Qed.

(** What a router sends as types: nothing with one domain. *)
Definition types_sent (domains : list nhdp_domain) (tlv : option bytes) : Prop := tlv = None -> (length domains <= 1)%nat.

Lemma process_types domains tlv : domains_ok domains -> domains <> [] -> types_sent domains tlv ->
  nhdp_domain_process_mprtypes_tlv domains NHDP_MAXIMUM_DOMAINS tlv = Def (ext <$> take NHDP_MAXIMUM_DOMAINS (drop 0 domains)).
Proof.
  intros Hd Hne Ht. rewrite drop_0, take_ge by apply Hd. unfold nhdp_domain_process_mprtypes_tlv. destruct tlv as [t|].
  - by apply encode_types.
  - specialize (Ht eq_refl). destruct domains as [|d [|? ?]]; [done| |simpl in Ht; lia]. done.
Qed.

(** C17: The MPR flags that a router writes for a link, for flooding and for every
    domain, are read back by the neighbor: with the same types of domains, the
    types read for the message and the part of the buffer that is sent, the
    neighbor ends with these flags for this router, leaves those of its other
    neighbors alone and counts as MPR exactly when some neighbor selected it in
    some domain. *)
Theorem mpr_tlv_roundtrip sender receiver flooding flags n types neigh st old :
  domains_ok sender -> domains_ok receiver -> ext <$> receiver = ext <$> sender -> sender <> [] -> types_sent sender types ->
  length flags = NHDP_MAXIMUM_DOMAINS -> (1 <= n)%nat -> local_is_mpr st !! neigh = Some old -> length old = NHDP_MAXIMUM_DOMAINS ->
  exists len buf mprtypes st' new, nhdp_domain_encode_mpr_tlvvalue sender n flooding flags = Def (len, buf) /\ 1 <= len <= blen buf /\
    nhdp_domain_process_mprtypes_tlv receiver NHDP_MAXIMUM_DOMAINS types = Def mprtypes /\
    nhdp_domain_process_mpr_tlv receiver mprtypes neigh (Some (take (Z.to_nat len) buf)) st = Def st' /\
    local_is_flooding_mpr st' = flooding /\ local_is_mpr st' = <[neigh := new]> (local_is_mpr st) /\
    (forall i, (i < length sender)%nat -> new !! i = flags !! i) /\
    (_node_is_selected_as_mpr st' = true <-> exists k fl i, local_is_mpr st' !! k = Some fl /\ (i < length receiver)%nat /\ fl !! i = Some true).
Proof.
  intros Hs Hr Ee Hne Ht Hf Hn Hst Hold. destruct (encode_mpr_spec sender flooding flags n Hs Hne Hf Hn) as (buf & E & Hb & Ho & H0 & Hk).
  assert (length receiver = length sender) as El by (apply (f_equal length) in Ee; by rewrite !length_fmap in Ee).
  assert (receiver <> []) as Hner by (intros ->; destruct sender; done).
  assert (types_sent receiver types) as Htr by (unfold types_sent; by rewrite El).
  pose proof (process_types receiver types Hr Hner Htr) as Et.
  set (tlv := take (Z.to_nat 1) buf). assert (octets tlv) as Hot by (by apply Forall_take).
  assert (blen tlv = 1) as Hbt. { unfold tlv, blen in *. rewrite length_take. lia. }
  set (cleared := foldl (fun fl d => set_flag (index d) false fl) old receiver).
  destruct (process_mpr_loop_spec receiver tlv NHDP_MAXIMUM_DOMAINS 0 cleared Hr Hot) as (new & En & Hln & Hj); [lia|unfold cleared; by rewrite clear_flags|].
  destruct (rd_inside tlv 0) as (v & Ev & Hv); [lia|].
  eexists 1, buf, _, _, new. split; [exact E|]. split; [lia|]. split; [exact Et|]. split.
  { unfold nhdp_domain_process_mpr_tlv. rewrite Hst. fold tlv cleared. rewrite Ev. cbn [mbind outcome_bind]. change 0 with (Z.of_nat 0) at 2. rewrite En. cbn [mbind outcome_bind]. reflexivity. }
  cbn [local_is_flooding_mpr local_is_mpr _node_is_selected_as_mpr]. split; [|split; [done|split]].
  - rewrite <- H0. rewrite <- (bit_take buf 1 0) by lia. change (take 1 buf) with tlv.
    change RFC7181_MPR_FLOODING with (2 ^ 0). rewrite land_pow2 by done. unfold bit. change (0 / 8) with 0. by rewrite Hv.
  - intros i Hi. rewrite Hj. rewrite decide_True by (pose proof (do_count _ Hs); lia).
    destruct (lookup_lt_is_Some_2 flags i) as [b Hfb]; [pose proof (do_count _ Hs); lia|]. destruct (lookup_lt_is_Some_2 sender i Hi) as [d Hd].
    rewrite Hfb. f_equal. rewrite <- (Hk i d b Hd Hfb). apply (bit_take buf 1). pose proof (do_count _ Hs). unfold NHDP_MAXIMUM_DOMAINS in *. lia.
  - rewrite existsb_exists. split.
    + intros (d & Hd & Hx). apply existsb_exists in Hx as (fl & Hfl & Hx). apply list_elem_of_In, list_elem_of_lookup in Hfl as [k Hfl].
      apply list_elem_of_In, list_elem_of_lookup in Hd as [i Hd]. exists k, fl, i. split; [done|]. split; [by apply lookup_lt_Some in Hd|].
      rewrite (do_index _ Hr i d Hd) in Hx. destruct (fl !! i) as [[]|]; done.
    + intros (k & fl & i & Hfl & Hi & Hx). destruct (lookup_lt_is_Some_2 receiver i Hi) as [d Hd]. exists d.
      split; [apply list_elem_of_In; by eapply list_elem_of_lookup_2|]. apply existsb_exists. exists fl.
      split; [apply list_elem_of_In; by eapply list_elem_of_lookup_2|]. by rewrite (do_index _ Hr i d Hd), Hx.
Qed.

(** * Willingness

    Four bits for flooding and four for every domain: those of domain [j] are the
    bits from [4 * (j + 1)] on. *)

Definition willing (w : Z) : Prop := 0 <= w < 16.

Definition willingness_at (domains : list nhdp_domain) (j : Z) : Z := default 0 (local_willingness <$> domains !! Z.to_nat j).

Lemma half_octet w b : willing w -> 4 <= b -> Z.testbit w b = false.
Proof. intros Hw Hb. rewrite <- (Z.mod_small w (2 ^ 4)) by (unfold willing in Hw; lia). by apply Z.mod_pow2_bits_high. Qed.

(** The octet and the half of domain [i]. *)
Lemma half_position i k : (i < 4)%nat -> 0 <= k -> k / 8 = Z.of_nat (i + 1) / 2 ->
  let high := Z.of_nat i .& 1 =? 0 in
  if decide (k / 4 = Z.of_nat i + 1) then k mod 8 = (if high then 4 else 0) + k mod 4
  else k mod 8 = (if high then 0 else 4) + k mod 4.
Proof.
  cbv zeta. intros Hi Hk E. pose proof (Z.div_mod k 8 ltac:(lia)). pose proof (Z.div_mod k 4 ltac:(lia)).
  pose proof (Z.mod_pos_bound k 8 ltac:(lia)). pose proof (Z.mod_pos_bound k 4 ltac:(lia)).
  pose proof (Z.div_mod (Z.of_nat (i + 1)) 2 ltac:(lia)). pose proof (Z.mod_pos_bound (Z.of_nat (i + 1)) 2 ltac:(lia)).
  destruct i as [|[|[|[|]]]]; [..|lia];
    match goal with |- context [?x .& 1 =? 0] => let b := eval vm_compute in (x .& 1 =? 0) in change (x .& 1 =? 0) with b end;
    cbv iota; destruct (decide _); lia.
Qed.

(** The value that is written for a domain, and its bits. *)
Definition half_value (i : nat) (w : Z) : Z :=
  let value := w .& RFC7181_WILLINGNESS_MASK in if Z.of_nat i .& 1 =? 0 then u8 (value .<< RFC7181_WILLINGNESS_SHIFT) else value.

Lemma mask_willing w : willing w -> w .& RFC7181_WILLINGNESS_MASK = w.
Proof. intros Hw. change RFC7181_WILLINGNESS_MASK with (Z.ones 4). rewrite Z.land_ones by lia. apply Z.mod_small. exact Hw. Qed.

Lemma half_value_spec i w : willing w -> is_u8 (half_value i w) /\
  forall b, 0 <= b < 8 -> Z.testbit (half_value i w) b =
    if Z.of_nat i .& 1 =? 0 then bool_decide (4 <= b) && Z.testbit w (b - 4) else bool_decide (b < 4) && Z.testbit w b.
Proof.
  intros Hw. unfold half_value. rewrite mask_willing by done. unfold willing in Hw. destruct (Z.of_nat i .& 1 =? 0).
  - change (w .<< RFC7181_WILLINGNESS_SHIFT) with (Z.shiftl w 4). rewrite Z.shiftl_mul_pow2 by lia. unfold u8. rewrite wrap_small by lia.
    split; [unfold is_u8; lia|]. intros b Hb. rewrite <- Z.shiftl_mul_pow2, Z.shiftl_spec by lia.
    case_bool_decide; [done|]. apply Z.testbit_neg_r. lia.
  - split; [unfold is_u8; lia|]. intros b Hb. case_bool_decide; [done|]. simpl. apply half_octet; [exact Hw|lia].
Qed.

Lemma encode_willingness_loop_spec all domains i len buf : domains_ok all -> Forall (fun d => willing (local_willingness d)) all -> domains = drop i all ->
  octets buf -> 3 <= blen buf -> 0 <= len ->
  exists len' buf', encode_willingness_loop domains len buf = Def (len', buf') /\ blen buf' = blen buf /\ octets buf' /\
    (len <= 3 -> len <= len' <= 3) /\ (domains <> [] -> Z.of_nat (length all) / 2 + 1 <= len') /\
    forall k, 0 <= k -> bit buf' k = bit buf k || (bool_decide (Z.of_nat i < k / 4 <= Z.of_nat (length all)) && Z.testbit (willingness_at all (k / 4 - 1)) (k mod 4)).
Proof.
  intros Hall Hw. revert i len buf. induction domains as [|d domains IH]; intros i len buf Ed Ho Hb Hl; cbn [encode_willingness_loop].
  - exists len, buf. split; [done|]. split; [done|]. split; [done|]. split; [lia|]. split; [done|]. intros k Hk. rewrite bool_decide_eq_false_2; [by rewrite orb_false_r|].
    symmetry in Ed. apply (f_equal length) in Ed. rewrite length_drop in Ed. simpl in Ed. lia.
  - assert (all !! i = Some d) as Hd by (by rewrite <- (Nat.add_0_r i), <- lookup_drop, <- Ed).
    assert (domains = drop (S i) all) as Ed' by (rewrite (drop_S all d i Hd) in Ed; by injection Ed).
    pose proof (do_count _ Hall) as Hc. apply lookup_lt_Some in Hd as Hi. unfold NHDP_MAXIMUM_DOMAINS in Hc.
    rewrite (do_index _ Hall i d Hd). fold (half_value i (local_willingness d)).
    pose proof (proj1 (Forall_lookup _ _) Hw i d Hd) as Hwd. cbv beta in Hwd. destruct (half_value_spec i _ Hwd) as [Hv Hvb].
    assert (0 <= Z.of_nat (i + 1) / 2 <= 2) as Hidx. { split; [apply Z.div_pos; lia|]. pose proof (Z.div_lt_upper_bound (Z.of_nat (i + 1)) 2 3). lia. }
    destruct (Z.leb_spec (blen buf) (Z.of_nat (i + 1) / 2)); [lia|].
    destruct (or_octet_spec buf (Z.of_nat (i + 1) / 2) _ Ho Hv) as (buf1 & -> & Hb1 & Ho1 & Hk1); [lia|]. cbn [mbind outcome_bind].
    destruct (IH (S i) (Z.max len (Z.of_nat (i + 1) / 2 + 1)) buf1 Ed' Ho1) as (len' & buf2 & E2 & Hb2 & Ho2 & Hl2 & Hn2 & Hk2); [lia|lia|].
    exists len', buf2. split; [exact E2|]. split; [lia|]. split; [done|]. split; [lia|]. split.
    { intros _. destruct (decide (domains = [])) as [En|En]; [|by apply Hn2]. rewrite En in E2, Ed'. cbn in E2. injection E2 as <- _.
      apply (f_equal length) in Ed'. rewrite length_drop in Ed'. simpl in Ed'. replace (length all) with (i + 1)%nat by lia. lia. }
    intros k Hk. rewrite Hk2, Hk1 by done. rewrite <- orb_assoc. f_equal.
    assert (willingness_at all (Z.of_nat i) = local_willingness d) as Ew by (unfold willingness_at; by rewrite Nat2Z.id, Hd).
    destruct (Z.eqb_spec (k / 8) (Z.of_nat (i + 1) / 2)) as [E8|E8]; cbn [andb orb].
    + pose proof (half_position i k ltac:(lia) Hk E8) as Hpos. cbv zeta in Hpos. rewrite Hvb by (apply Z.mod_pos_bound; lia).
      pose proof (Z.mod_pos_bound k 4 ltac:(lia)) as H4. destruct (decide (k / 4 = Z.of_nat i + 1)) as [E4|E4]; rewrite Hpos.
      * rewrite (bool_decide_eq_false_2 (_ < _ <= _)), (bool_decide_eq_true_2 (Z.of_nat i < _ <= _)) by lia.
        replace (k / 4 - 1) with (Z.of_nat i) by lia. rewrite Ew. rewrite andb_false_l, orb_false_r. destruct (_ =? 0).
        -- rewrite bool_decide_eq_true_2 by lia. by replace (4 + k mod 4 - 4) with (k mod 4) by lia.
        -- by rewrite bool_decide_eq_true_2 by lia.
      * assert ((if Z.of_nat i .& 1 =? 0 then bool_decide (4 <= (if Z.of_nat i .& 1 =? 0 then 0 else 4) + k mod 4) &&
            Z.testbit (local_willingness d) ((if Z.of_nat i .& 1 =? 0 then 0 else 4) + k mod 4 - 4)
          else bool_decide ((if Z.of_nat i .& 1 =? 0 then 0 else 4) + k mod 4 < 4) && Z.testbit (local_willingness d) ((if Z.of_nat i .& 1 =? 0 then 0 else 4) + k mod 4)) = false) as ->.
        { destruct (_ =? 0); rewrite bool_decide_eq_false_2 by lia; done. }
        simpl. f_equal. apply bool_decide_ext. lia.
    + assert (k / 4 <> Z.of_nat i + 1) as E4. { intros E4. apply E8. replace (Z.of_nat (i + 1)) with (k / 4) by lia. by rewrite Z.div_div by lia. }
      f_equal. apply bool_decide_ext. lia.
Qed.

(** The value that is read for domain [i]. *)
Lemma half_read tlv i v w : octets tlv -> (i < 4)%nat -> tlv !! Z.to_nat (Z.of_nat (i + 1) / 2) = Some v -> willing w ->
  (forall b, 0 <= b < 4 -> bit tlv (4 * (Z.of_nat i + 1) + b) = Z.testbit w b) ->
  (if Z.of_nat i .& 1 =? 0 then v .>> RFC7181_WILLINGNESS_SHIFT else v .& RFC7181_WILLINGNESS_MASK) = w.
Proof.
  intros Ho Hi Hv Hw Hb. assert (is_u8 v) as Hv8 by (unfold octets in Ho; rewrite Forall_lookup in Ho; by eapply Ho).
  assert (forall b, 0 <= b < 4 -> Z.testbit v ((if Z.of_nat i .& 1 =? 0 then 4 else 0) + b) = Z.testbit w b) as Hvb.
  { intros b Hb4. rewrite <- (Hb b Hb4). unfold bit. set (k := 4 * (Z.of_nat i + 1) + b).
    assert (k / 4 = Z.of_nat i + 1 /\ k mod 4 = b) as [E4 Em]. { unfold k. pose proof (Z.div_mod k 4 ltac:(lia)). pose proof (Z.mod_pos_bound k 4 ltac:(lia)). unfold k in *. lia. }
    assert (k / 8 = Z.of_nat (i + 1) / 2) as E8. { replace 8 with (4 * 2) by lia. rewrite <- Z.div_div by lia. rewrite E4. f_equal. lia. }
    pose proof (half_position i k Hi ltac:(unfold k; lia) E8) as Hp. cbv zeta in Hp. rewrite decide_True in Hp by done. rewrite E8, Hv, Hp, Em. done. }
  apply Z.bits_inj'. intros b Hb0. destruct (Z.lt_ge_cases b 4) as [Hb4|Hb4].
  - rewrite <- Hvb by lia. destruct (_ =? 0).
    + change (v .>> RFC7181_WILLINGNESS_SHIFT) with (Z.shiftr v 4). rewrite Z.shiftr_spec by lia. f_equal. lia.
    + change RFC7181_WILLINGNESS_MASK with (Z.ones 4). rewrite Z.land_spec, Z.ones_spec_low by lia. by rewrite andb_true_r.
  - rewrite (half_octet w) by done. destruct (_ =? 0).
    + change (v .>> RFC7181_WILLINGNESS_SHIFT) with (Z.shiftr v 4). rewrite Z.shiftr_spec by lia. apply octet_testbit_high; [done|lia].
    + change RFC7181_WILLINGNESS_MASK with (Z.ones 4). rewrite Z.land_spec, Z.ones_spec_high by lia. apply andb_false_r.
Qed.

Lemma set_tmp_at domains i d w : domains_ok domains -> domains !! i = Some d -> set_tmp (ext d) w domains = <[i := with_tmp_willingness w d]> domains.
Proof. intros H Hd. unfold set_tmp. by rewrite (get_by_ext domains i d H Hd). Qed.

Lemma insert_same {A} (f : nhdp_domain -> A) (l : list nhdp_domain) (i : nat) d d' : l !! i = Some d -> f d' = f d -> f <$> <[i := d']> l = f <$> l.
Proof. intros Hd E. rewrite list_fmap_insert, E. apply list_insert_id. by rewrite list_lookup_fmap, Hd. Qed.

Lemma process_willingness_loop_spec tlv (w : nat -> Z) n i domains : domains_ok domains -> octets tlv ->
  Z.of_nat (length domains) / 2 + 1 <= blen tlv ->
  (forall j b, (j < length domains)%nat -> 0 <= b < 4 -> bit tlv (4 * (Z.of_nat j + 1) + b) = Z.testbit (w j) b) -> (forall j, (j < length domains)%nat -> willing (w j)) ->
  exists domains', process_willingness_loop (ext <$> take n (drop i domains)) (Z.of_nat i) tlv domains = Def domains' /\
    ext <$> domains' = ext <$> domains /\ index <$> domains' = index <$> domains /\
    (forall j, (j < i)%nat -> domains' !! j = domains !! j) /\
    forall j d, domains' !! j = Some d -> (i <= j < i + n)%nat -> _tmp_willingness d = w j.
Proof.
  intros Hd Ho Hl Hw Hww. revert i domains Hd Hl Hw Hww. induction n as [|n IH]; intros i domains Hd Hl Hw Hww.
  { exists domains. split; [done|]. split; [done|]. split; [done|]. split; [done|]. intros; lia. }
  destruct (domains !! i) as [d|] eqn:Ed.
  2: { apply lookup_ge_None in Ed. rewrite drop_ge, take_nil by done. exists domains. split; [done|]. split; [done|]. split; [done|]. split; [done|].
    intros j d Hj ?. apply lookup_lt_Some in Hj. lia. }
  rewrite (drop_S _ _ _ Ed). cbn [take fmap list_fmap process_willingness_loop]. unfold nhdp_domain_get_by_ext. rewrite (get_by_ext domains i d Hd Ed). cbn [fmap option_fmap option_map snd].
  apply lookup_lt_Some in Ed as Hi. pose proof (do_count _ Hd) as Hc. unfold NHDP_MAXIMUM_DOMAINS in Hc. rewrite (do_index _ Hd i d Ed).
  replace (Z.of_nat i + 1) with (Z.of_nat (i + 1)) by lia.
  assert (0 <= Z.of_nat (i + 1) / 2 < blen tlv) as Hidx. { split; [apply Z.div_pos; lia|]. pose proof (Z.div_le_mono (Z.of_nat (i + 1)) (Z.of_nat (length domains)) 2). lia. }
  destruct (Z.leb_spec (blen tlv) (Z.of_nat (i + 1) / 2)); [lia|]. destruct (rd_inside tlv (Z.of_nat (i + 1) / 2)) as (v & Ev & Hv); [lia|]. rewrite Ev. cbn [mbind outcome_bind].
  rewrite (half_read tlv i v (w i) Ho ltac:(lia) Hv (Hww i Hi)) by (intros b Hb; by apply Hw). rewrite (set_tmp_at domains i d _ Hd Ed).
  set (domains1 := <[i := with_tmp_willingness (w i) d]> domains).
  assert (ext <$> domains1 = ext <$> domains) as E1 by (by apply (insert_same ext domains i d)).
  assert (index <$> domains1 = index <$> domains) as E2 by (by apply (insert_same index domains i d)).
  assert (length domains1 = length domains) as El by apply length_insert.
  assert (ext <$> take n (drop (S i) domains1) = ext <$> take n (drop (S i) domains)) as Es by (by rewrite !fmap_take, !fmap_drop, E1).
  destruct (IH (S i) domains1) as (domains' & E & Ee & Ei & Hlow & Hj); [by eapply domains_ok_same|by rewrite El..|].
  rewrite Es in E. replace (Z.of_nat (S i)) with (Z.of_nat (i + 1)) in E by lia. rewrite E.
  exists domains'. split; [done|]. split; [congruence|]. split; [congruence|]. split.
  - intros j Hji. rewrite Hlow by lia. unfold domains1. by rewrite list_lookup_insert_ne by lia.
  - intros j d' Hj' Hr. destruct (decide (j = i)) as [->|Hne]; [|apply (Hj j d' Hj'); lia].
    rewrite Hlow in Hj' by lia. unfold domains1 in Hj'. rewrite list_lookup_insert_eq in Hj' by done. by injection Hj' as <-.
Qed.

Lemma store_loop (domains : list nhdp_domain) i (w : nat -> Z) old : (forall j d, domains !! j = Some d -> index d = (i + j)%nat /\ _tmp_willingness d = w (i + j)%nat) ->
  (i + length domains <= length old)%nat ->
  let new := foldl (fun w (d : nhdp_domain) => <[index d := _tmp_willingness d]> w) old domains in
  length new = length old /\ (forall j, (j < i)%nat -> new !! j = old !! j) /\ forall j, (i <= j < i + length domains)%nat -> new !! j = Some (w j).
Proof.
  revert i old. induction domains as [|d domains IH]; intros i old Hd Hl; simpl in *; [split; [done|]; split; [done|intros; lia]|].
  destruct (Hd 0%nat d eq_refl) as [Ei Ew]. rewrite Nat.add_0_r in Ei, Ew. rewrite Ei, Ew.
  destruct (IH (S i) (<[i := w i]> old)) as (H1 & H2 & H3).
  { intros j d' Hj. replace (S i + j)%nat with (i + S j)%nat by lia. by apply (Hd (S j)). }
  { rewrite length_insert. lia. }
  rewrite length_insert in H1. split; [done|]. split.
  - intros j Hj. rewrite H2 by lia. by rewrite list_lookup_insert_ne by lia.
  - intros j Hj. destruct (decide (j = i)) as [->|Hne]; [|apply H3; lia]. rewrite H2 by lia. apply list_lookup_insert_eq. lia.
Qed.

(** The willingness that a router announces, for flooding and for every domain,
    is what its neighbor stores: with the same types of domains and values of
    four bits, the octets that are sent are read into the temporary values and
    from there into the link and the neighbor. *)
Theorem willingness_tlv_roundtrip sender receiver flooding fr n types old :
  domains_ok sender -> domains_ok receiver -> ext <$> receiver = ext <$> sender -> sender <> [] -> types_sent sender types ->
  Forall (fun d => willing (local_willingness d)) sender -> willing (local_willingness flooding) -> (3 <= n)%nat -> length old = NHDP_MAXIMUM_DOMAINS ->
  exists len buf mprtypes domains fr', nhdp_domain_encode_willingness_tlvvalue sender flooding n = Def (len, buf) /\ 1 <= len <= blen buf /\
    nhdp_domain_process_mprtypes_tlv receiver NHDP_MAXIMUM_DOMAINS types = Def mprtypes /\
    nhdp_domain_process_willingness_tlv mprtypes (Some (take (Z.to_nat len) buf)) receiver fr = Def (domains, fr') /\
    let stored := nhdp_domain_store_willingness domains fr' old in
    stored.1 = local_willingness flooding /\ forall i d, sender !! i = Some d -> stored.2 !! i = Some (local_willingness d).
Proof.
  intros Hs Hr Ee Hne Ht Hw Hf Hn Hold. assert (length receiver = length sender) as El by (apply (f_equal length) in Ee; by rewrite !length_fmap in Ee).
  assert (receiver <> []) as Hner by (intros ->; destruct sender; done). pose proof (do_count _ Hs) as Hc. unfold NHDP_MAXIMUM_DOMAINS in Hc, Hold.
  assert (types_sent receiver types) as Htr by (unfold types_sent; by rewrite El).
  pose proof (process_types receiver types Hr Hner Htr) as Et.
  destruct n as [|n]; [lia|]. set (f := local_willingness flooding) in *. set (buf0 := f :: repeat 0 n).
  assert (is_u8 f) as Hf8 by (unfold willing in Hf; unfold is_u8; lia).
  assert (octets buf0) as Ho0 by (constructor; [done|apply octets_zero]).
  assert (blen buf0 = Z.of_nat (S n)) as Hb0 by (unfold blen, buf0; simpl; by rewrite repeat_length).
  assert (forall k, 0 <= k -> bit buf0 k = bool_decide (k < 8) && Z.testbit f k) as Hk0.
  { intros k Hk. unfold bit, buf0. case_bool_decide; simpl.
    - by rewrite Z.div_small, Z.mod_small by lia.
    - assert (1 <= k / 8) by (apply Z.div_le_lower_bound; lia). replace (Z.to_nat (k / 8)) with (S (Z.to_nat (k / 8 - 1))) by lia. simpl.
      destruct (repeat 0 n !! Z.to_nat (k / 8 - 1)) eqn:E; [|apply Z.bits_0]. apply list_elem_of_lookup_2, list_elem_of_In, repeat_spec in E as ->. apply Z.bits_0. }
  destruct (encode_willingness_loop_spec sender sender 0 0 buf0 Hs Hw eq_refl Ho0) as (len & buf & E & Hb & Ho & Hl3 & Hln & Hk); [lia|lia|].
  specialize (Hl3 ltac:(lia)). specialize (Hln Hne). assert (0 <= Z.of_nat (length sender) / 2) by (apply Z.div_pos; lia).
  set (tlv := take (Z.to_nat len) buf). assert (octets tlv) as Hot by (by apply Forall_take).
  assert (blen tlv = len) as Hbt. { unfold tlv, blen in *. rewrite length_take. lia. }
  assert (forall k, 0 <= k < 8 * len -> bit tlv k = (bool_decide (k < 8) && Z.testbit f k) ||
    (bool_decide (0 < k / 4 <= Z.of_nat (length sender)) && Z.testbit (willingness_at sender (k / 4 - 1)) (k mod 4))) as Hbits.
  { intros k Hkl. unfold tlv. rewrite bit_take by lia. rewrite Hk, Hk0 by lia. done. }
  destruct (rd_inside tlv 0) as (v & Ev & Hv); [lia|]. change (Z.to_nat 0) with 0%nat in Hv.
  assert (is_u8 v) as Hv8 by (by eapply rd_octet).
  assert (v .& RFC7181_WILLINGNESS_MASK = f) as Hflood.
  { apply Z.bits_inj'. intros b Hb0'. change RFC7181_WILLINGNESS_MASK with (Z.ones 4). rewrite Z.land_spec. destruct (Z.lt_ge_cases b 4).
    - rewrite Z.ones_spec_low, andb_true_r by lia. pose proof (Hbits b ltac:(lia)) as Hbb. rewrite (Z.div_small b 4) in Hbb by lia.
      rewrite bool_decide_eq_true_2 in Hbb by lia. simpl in Hbb. rewrite orb_false_r in Hbb. rewrite <- Hbb. unfold bit.
      rewrite Z.div_small, Z.mod_small by lia. change (Z.to_nat 0) with 0%nat. by rewrite Hv.
    - rewrite Z.ones_spec_high, andb_false_r by lia. symmetry. by apply half_octet. }
  destruct (process_willingness_loop_spec tlv (fun j => willingness_at sender (Z.of_nat j)) NHDP_MAXIMUM_DOMAINS 0 (with_tmp_willingness RFC7181_WILLINGNESS_NEVER <$> receiver))
    as (domains & Ep & Ep1 & Ep2 & _ & Hj).
  { eapply domains_ok_same; [..|exact Hr]; by rewrite <- list_fmap_compose. }
  { done. }
  { rewrite length_fmap, El. lia. }
  { rewrite length_fmap, El. intros j b Hjl Hb4. assert (len <= Z.of_nat (S n) /\ 2 * (Z.of_nat j + 1) < 4 * len) as [_ Hin].
    { split; [lia|]. pose proof (Z.div_mod (Z.of_nat (length sender)) 2 ltac:(lia)). pose proof (Z.mod_pos_bound (Z.of_nat (length sender)) 2 ltac:(lia)). lia. }
    rewrite Hbits by lia. assert ((4 * (Z.of_nat j + 1) + b) / 4 = Z.of_nat j + 1 /\ (4 * (Z.of_nat j + 1) + b) mod 4 = b) as [-> ->].
    { pose proof (Z.div_mod (4 * (Z.of_nat j + 1) + b) 4 ltac:(lia)). pose proof (Z.mod_pos_bound (4 * (Z.of_nat j + 1) + b) 4 ltac:(lia)). lia. }
    rewrite half_octet, andb_false_r by (done || lia). rewrite bool_decide_eq_true_2 by lia. simpl. f_equal. f_equal. lia. }
  { rewrite length_fmap, El. intros j Hjl. unfold willingness_at. rewrite Nat2Z.id. destruct (lookup_lt_is_Some_2 sender j Hjl) as [d Hd]. rewrite Hd. simpl.
    rewrite Forall_lookup in Hw. by eapply Hw. }
  assert (length domains = length sender) as Eld by (apply (f_equal length) in Ep1; rewrite !length_fmap in Ep1; lia).
  assert (domains_ok domains) as Hdd.
  { eapply domains_ok_same; [exact Ep1|exact Ep2|]. eapply domains_ok_same; [..|exact Hr]; by rewrite <- list_fmap_compose. }
  eexists len, buf, _, domains, _. split.
  { unfold nhdp_domain_encode_willingness_tlvvalue. fold f. assert (wr_n (repeat 0 (S n)) 0 [f] = Def buf0) as ->; [|exact E].
    unfold wr_n, blen, buf0. simpl. rewrite repeat_length. destruct (Z.ltb_spec (Z.of_nat (S n)) (0 + Z.of_nat 1)); [lia|]. done. }
  split; [lia|]. split; [exact Et|]. split.
  { unfold nhdp_domain_process_willingness_tlv. fold tlv. rewrite Ev. cbn [mbind outcome_bind].
    rewrite drop_0. rewrite drop_0, fmap_take, <- list_fmap_compose in Ep. rewrite fmap_take. change (0) with (Z.of_nat 0) at 1.
    change (ext ∘ with_tmp_willingness RFC7181_WILLINGNESS_NEVER) with ext in Ep. rewrite Ep. cbn [mbind outcome_bind]. reflexivity. }
  cbv zeta. unfold nhdp_domain_store_willingness. simpl. split; [done|]. intros i d Hd. apply lookup_lt_Some in Hd as Hi.
  destruct (store_loop domains 0 (fun j => willingness_at sender (Z.of_nat j)) old) as (_ & _ & Hst); [|lia|].
  - intros j d' Hd'. split; [by apply (do_index _ Hdd)|]. apply (Hj j d' Hd'). apply lookup_lt_Some in Hd'. unfold NHDP_MAXIMUM_DOMAINS. lia.
  - rewrite Hst by lia. unfold willingness_at. by rewrite Nat2Z.id, Hd.
Qed.

(** * Examples *)

Section example.
Definition demo_domain (e : Z) (i : nat) (w : Z) : nhdp_domain := with_willingness w (new_domain e i).
Definition demo_domains : list nhdp_domain := [demo_domain 0 0 7; demo_domain 129 1 3].
Definition demo_flooding : nhdp_domain := with_willingness 5 (new_domain 0 0).

Lemma demo_domains_ok : domains_ok demo_domains.
Proof.
  split; [|by apply (bool_decide_unpack _); vm_compute|by vm_compute; lia].
  intros [|[|i]] d; [by intros [= <-]..|done].
Qed.

Lemma mpr_tlv_roundtrip_witness : exists len buf mprtypes st' new,
  nhdp_domain_encode_mpr_tlvvalue demo_domains 4 true [false; true; false; false] = Def (len, buf) /\ 1 <= len <= blen buf /\
    nhdp_domain_process_mprtypes_tlv demo_domains NHDP_MAXIMUM_DOMAINS (Some [0; 129]) = Def mprtypes /\
    nhdp_domain_process_mpr_tlv demo_domains mprtypes 0 (Some (take (Z.to_nat len) buf))
      {| local_is_flooding_mpr := false; local_is_mpr := [repeat false 4; repeat false 4]; _node_is_selected_as_mpr := false |} = Def st' /\
    local_is_flooding_mpr st' = true /\ local_is_mpr st' = <[0%nat := new]> [repeat false 4; repeat false 4] /\
    (forall i, (i < length demo_domains)%nat -> new !! i = [false; true; false; false] !! i) /\
    (_node_is_selected_as_mpr st' = true <-> exists k fl i, local_is_mpr st' !! k = Some fl /\ (i < length demo_domains)%nat /\ fl !! i = Some true).
Proof.
  apply (mpr_tlv_roundtrip demo_domains demo_domains true [false; true; false; false] 4 (Some [0; 129]) 0
    {| local_is_flooding_mpr := false; local_is_mpr := [repeat false 4; repeat false 4]; _node_is_selected_as_mpr := false |} (repeat false 4)
    demo_domains_ok demo_domains_ok); try done; lia.
Defined.

Lemma willingness_tlv_roundtrip_witness : exists len buf mprtypes domains fr',
  nhdp_domain_encode_willingness_tlvvalue demo_domains demo_flooding 4 = Def (len, buf) /\ 1 <= len <= blen buf /\
    nhdp_domain_process_mprtypes_tlv demo_domains NHDP_MAXIMUM_DOMAINS (Some [0; 129]) = Def mprtypes /\
    nhdp_domain_process_willingness_tlv mprtypes (Some (take (Z.to_nat len) buf)) demo_domains demo_flooding = Def (domains, fr') /\
    let stored := nhdp_domain_store_willingness domains fr' [0; 0; 0; 0] in
    stored.1 = 5 /\ forall i d, demo_domains !! i = Some d -> stored.2 !! i = Some (local_willingness d).
Proof.
  apply (willingness_tlv_roundtrip demo_domains demo_domains demo_flooding demo_flooding 4 (Some [0; 129]) [0; 0; 0; 0] demo_domains_ok demo_domains_ok);
    try done; [|lia]. repeat constructor; done.
Defined.

(** The types in the TLV of the sender are not looked at: the flag of its domain
    with type 1 ends in the domain with type 2 of a receiver that has the two in
    the other order. *)
Example types_of_sender_ignored :
  let sender := [demo_domain 1 0 0; demo_domain 2 1 0] in
  let receiver := [demo_domain 2 0 0; demo_domain 1 1 0] in
  nhdp_domain_encode_mprtypes_tlvvalue sender 4 = Def [1; 2] /\
  nhdp_domain_encode_mpr_tlvvalue sender 4 false [true; false; false; false] = Def (1, [2; 0; 0; 0]) /\
  nhdp_domain_process_mprtypes_tlv receiver 4 (Some [1; 2]) = Def [2; 1] /\
  nhdp_domain_process_mpr_tlv receiver [2; 1] 0 (Some [2]) {| local_is_flooding_mpr := false; local_is_mpr := [repeat false 4]; _node_is_selected_as_mpr := false |} =
    Def {| local_is_flooding_mpr := false; local_is_mpr := [[true; false; false; false]]; _node_is_selected_as_mpr := true |}.
Proof. by vm_compute. Qed.

(** A neighbor that sends no MPR TLV any more selects this router in no domain,
    but the router still counts as MPR. *)
Example selected_for_ever :
  nhdp_domain_process_mpr_tlv demo_domains [0; 129] 0 None {| local_is_flooding_mpr := true; local_is_mpr := [[true; false; false; false]]; _node_is_selected_as_mpr := true |} =
    Def {| local_is_flooding_mpr := false; local_is_mpr := [repeat false 4]; _node_is_selected_as_mpr := true |}.
Proof. by vm_compute. Qed.

(** Without any domain the value of a willingness TLV is empty, and the flooding
    willingness is not sent. *)
Example no_domain_no_willingness : nhdp_domain_encode_willingness_tlvvalue [] demo_flooding 4 = Def (0, [5; 0; 0; 0]).
Proof. by vm_compute. Qed.
End example.
