(* ===== verification/NhdpHandlers.v ===== *)
(** How the metrics and MPR algorithms of src/nhdp/nhdp/nhdp_domain.c come and go:
    what registration and removal do to the domains that use them. *)

From Stdlib Require Import ZArith Lia Sorted String.
From stdpp Require Import base list numbers option gmap sets.
From S2P Require Import Prelude AvlSpec StateMonad Rfc5444Values Netaddr NhdpDb NhdpDomain NhdpTlv.

Local Open Scope Z_scope.

(** ** Late registration *)

Lemma registry_same s : set_domains s (_domain_list s) (_flooding_domain s) (_domain_counter s) = s.
Proof. by destruct s. Qed.

Lemma with_willingness_same d : with_willingness (local_willingness d) d = d.
Proof. by destruct d. Qed.

Lemma apply_own_mpr s d dom : get_domain d s = Def (dom, s) -> _apply_mpr d (mpr_name dom) (local_willingness dom) s = Def (tt, s).
Proof.
  intros E. unfold _apply_mpr, bind. rewrite E. unfold put_domain, modify. rewrite with_willingness_same, cmp_refl. simpl. unfold ret. do 2 f_equal.
  destruct d as [|i]; simpl in E.
  - injection E as <-. apply registry_same.
  - destruct (_domain_list s !! i) as [d'|] eqn:Ed; [|done]. injection E as ->. rewrite list_insert_id by done. apply registry_same.
Qed.

Lemma apply_again_same s l : Forall (fun i => (i < length (_domain_list s))%nat) l -> apply_again l s = Def (tt, s).
Proof.
  induction l as [|i l IH]; intros Hl; [done|]. apply Forall_cons in Hl as [Hi Hl]. destruct (lookup_lt_is_Some_2 _ _ Hi) as [dom Hd].
  simpl. unfold bind at 1, get_domain at 1. rewrite Hd. unfold bind. case_bool_decide.
  - rewrite (apply_own_mpr s (Domain i) dom) by (simpl; by rewrite Hd). by apply IH.
  - unfold ret. by apply IH.
Qed.

(** An MPR algorithm that is registered after the domains were configured is
    never used: [nhdp_domain_mpr_add] offers it to the domains without one, but
    with the name that they have already. *)
Lemma late_mpr_not_applied p s r s' : nhdp_domain_mpr_add p s = Def (r, s') ->
  _domain_list s' = _domain_list s /\ _flooding_domain s' = _flooding_domain s /\ mpr_mem s' = mpr_mem s /\ dom_calls s' = dom_calls s.
Proof.
  unfold nhdp_domain_mpr_add, bind, get. destruct (tree_insert _ _ _ _) as [l|]; [|by intros [= <- <-]].
  unfold modify. set (s1 := set_trees _ _ _). rewrite apply_again_same.
  2: { apply Forall_forall. intros i Hi. apply elem_of_seq in Hi. lia. }
  change (get_domain Flooding s1) with (Def (_flooding_domain s1, s1)). cbv beta iota. case_bool_decide.
  - rewrite (apply_own_mpr s1 Flooding (_flooding_domain s1)) by done. by intros [= <- <-].
  - by intros [= <- <-].
Qed.

(** ** Removal *)

Section example.
Definition demo_metric : nhdp_domain_metric := {|
  mt_name := "demo"; incoming_link_start := 0; outgoing_link_start := 0; incoming_2hop_start := 0; outgoing_2hop_start := 0;
  no_default_handling := false; mt_enable := true; mt_disable := true; mt_refcount := 0 |}.

Local Open Scope state_scope.

Definition demo_setup : state_M registry unit :=
  nhdp_domain_metric_add 2 ;;; nhdp_domain_configure true 0 "demo" "-" 7 ;;; nhdp_domain_configure true 1 "*" "-" 7 ;;; ret tt.

(** Two domains with one metric: it is counted twice and enabled once. *)
Example metric_shared : match demo_setup (nhdp_domain_init {[2%positive := demo_metric]} ∅) with
  | Def (_, s) => mt_refcount <$> (metric_mem s !! 2%positive) = Some 2 /\ metric <$> _domain_list s = [2%positive; 2%positive] /\
      filter (fun c => c = Enable_metric 2) (dom_calls s) = [Enable_metric 2]
  | Undef _ => False
  end.
Proof. by vm_compute. Qed.

(** Its removal resets one of them only: the other one keeps a pointer to a metric
    that is not registered any more, and the metric is not disabled. *)
Example metric_removed_in_use : match (demo_setup ;;; nhdp_domain_metric_remove 2) (nhdp_domain_init {[2%positive := demo_metric]} ∅) with
  | Def (_, s) => _domain_metrics s = [] /\ metric <$> _domain_list s = [1%positive; 2%positive] /\ Disable_metric 2 ∉ dom_calls s
  | Undef _ => False
  end.
Proof. vm_compute. split; [done|]. split; [done|]. intros H. repeat (apply elem_of_cons in H as [H|H]; [done|]). by apply elem_of_nil in H. Qed.
End example.
