(* ===== verification/NhdpStore.v ===== *)
(** The neighborhood database of NHDP, src/nhdp/nhdp/nhdp_db.c: neighbors with
    their addresses, links with their addresses and two-hop neighbors, in memory
    and linked into the trees and lists of each other, of the interfaces and of
    the database, with their timers. The metrics of neighbors and links of
    src/nhdp/nhdp/nhdp_domain.c and the flooding status of an interface of
    src/nhdp/nhdp/nhdp_interfaces.c belong to it. *)

From Stdlib Require Import ZArith Lia Sorted.
From stdpp Require Import base list numbers option gmap sets.
From S2P Require Import Prelude AvlSpec StateMonad Rfc5444Values Netaddr NhdpDb NhdpDomain Timer ValidityTimer.

Local Open Scope Z_scope.
Local Open Scope state_scope.

(** * Data *)

(** [enum nhdp_link_status] *)
Definition NHDP_LINK_PENDING : Z := -1.
Definition NHDP_LINK_LOST : Z := 0.
Definition NHDP_LINK_SYMMETRIC : Z := 1.
Definition NHDP_LINK_HEARD : Z := 2.

Record nhdp_neighbor_domaindata := {
  nd_metric : nhdp_metric;
  best_out_link : option ptr;
  best_out_link_metric : Z;
  best_link_ifindex : Z;
  local_is_mpr : bool;
  neigh_is_mpr : bool;
  willingness : Z;
}.

Record nhdp_link_domaindata := { ld_metric : nhdp_metric; last_metric_change : Z }.

Record nhdp_l2hop_domaindata := { td_metric : nhdp_metric; _last_used_outgoing_metric : Z }.

(** The lists and trees of a neighbor, a link or an interface are in the memory
    of trees, see [tree_id]; timers are instances of the scheduler, see
    [timer_at]. The fields that only the reader of messages uses are left out. *)
Record nhdp_neighbor := {
  originator : netaddr;
  symmetric : Z;
  n_partner : option ptr;
  _old_originator : netaddr;
  n_domaindata : list nhdp_neighbor_domaindata;
}.

Record nhdp_naddr := { neigh_addr : netaddr; na_neigh : ptr }.

(** [_originator_key]: the key of [_originator_node] is the originator of this
    neighbor. *)
Record nhdp_link := {
  last_status : Z;
  status : Z;
  local_if : option ptr;
  l_partner : option ptr;
  l_neigh : ptr;
  if_addr : netaddr;
  remote_mac : netaddr;
  last_status_change : Z;
  local_is_flooding_mpr : bool;
  neigh_is_flooding_mpr : bool;
  flooding_willingness : Z;
  _originator_key : ptr;
  l_domaindata : list nhdp_link_domaindata;
}.

Record nhdp_laddr := { link_addr : netaddr; la_link : ptr }.

Record nhdp_l2hop := { twohop_addr : netaddr; same_interface : bool; l2_link : ptr; l2_domaindata : list nhdp_l2hop_domaindata }.

(** Of an interface: the index and the MAC address of the operating system, the
    hold times, its own addresses in the order of their tree, and what the status
    of its links decides. *)
Record nhdp_interface := {
  if_index : Z;
  if_mac : netaddr;
  l_hold_time : Z;
  n_hold_time : Z;
  _if_addresses : list netaddr;
  use_ipv4_for_flooding : bool;
  use_ipv6_for_flooding : bool;
  dualstack_af_type : Z;
}.

(** Where a list or tree is: in the database, in a neighbor, in a link or in an
    interface. *)
Inductive tree_id :=
  | Naddr_tree
  | Neigh_list
  | Originator_tree
  | Link_list
  | Neigh_addresses (neigh : ptr)
  | Neigh_link_addresses (neigh : ptr)
  | Neigh_links (neigh : ptr)
  | Link_addresses (lnk : ptr)
  | Link_2hop (lnk : ptr)
  | If_links (interf : ptr)
  | If_link_addresses (interf : ptr)
  | If_link_originators (interf : ptr)
  | If_twohops (interf : ptr).

#[export] Instance tree_id_eq_dec : EqDecision tree_id.
Proof. solve_decision. Defined.

#[export] Instance tree_id_countable : Countable tree_id.
Proof.
  refine (inj_countable' (fun t => match t with
    | Naddr_tree => (0, 1%positive) | Neigh_list => (1, 1%positive) | Originator_tree => (2, 1%positive) | Link_list => (3, 1%positive)
    | Neigh_addresses p => (4, p) | Neigh_link_addresses p => (5, p) | Neigh_links p => (6, p) | Link_addresses p => (7, p)
    | Link_2hop p => (8, p) | If_links p => (9, p) | If_link_addresses p => (10, p) | If_link_originators p => (11, p) | If_twohops p => (12, p)
    end%nat) (fun c => match c with
    | (0, _) => Naddr_tree | (1, _) => Neigh_list | (2, _) => Originator_tree | (3, _) => Link_list
    | (4, p) => Neigh_addresses p | (5, p) => Neigh_link_addresses p | (6, p) => Neigh_links p | (7, p) => Link_addresses p
    | (8, p) => Link_2hop p | (9, p) => If_links p | (10, p) => If_link_addresses p | (11, p) => If_link_originators p | (_, p) => If_twohops p
    end%nat) _). by intros [].
Defined.

(** Events of the memory classes, and the calls of the listeners of a domain and
    of the hysteresis plugin. *)
Inductive nhdp_call :=
  | Neigh_event (p : ptr) (e : object_event)
  | Naddr_event (p : ptr) (e : object_event)
  | Link_event (p : ptr) (e : object_event)
  | Laddr_event (p : ptr) (e : object_event)
  | L2hop_event (p : ptr) (e : object_event)
  | Metric_update (domain : option nat)
  | Update_hysteresis (lnk : ptr).

(** [orig_v4] and [orig_v6] are the originators of the router (nhdp.c), [set_id] is
    [_neighbor_set_id], [doms] the domains of nhdp_domain.c. *)
Record nhdp_db := {
  neighs : gmap ptr nhdp_neighbor;
  naddrs : gmap ptr nhdp_naddr;
  links : gmap ptr nhdp_link;
  laddrs : gmap ptr nhdp_laddr;
  l2hops : gmap ptr nhdp_l2hop;
  ifs : gmap ptr nhdp_interface;
  trees : gmap tree_id (list ptr);
  orig_v4 : netaddr;
  orig_v6 : netaddr;
  set_id : Z;
  doms : registry;
  timers : timer_state;
  calls : list nhdp_call;
  mallocs : nat;
}.

Notation nhdp_M := (state_M nhdp_db).

(** ** Field updates *)

Definition set_neighs (f : gmap ptr nhdp_neighbor -> gmap ptr nhdp_neighbor) (s : nhdp_db) : nhdp_db :=
  {| neighs := f (neighs s); naddrs := naddrs s; links := links s; laddrs := laddrs s; l2hops := l2hops s;
     ifs := ifs s; trees := trees s; orig_v4 := orig_v4 s; orig_v6 := orig_v6 s; set_id := set_id s;
     doms := doms s; timers := timers s; calls := calls s; mallocs := mallocs s |}.

Definition set_naddrs (f : gmap ptr nhdp_naddr -> gmap ptr nhdp_naddr) (s : nhdp_db) : nhdp_db :=
  {| neighs := neighs s; naddrs := f (naddrs s); links := links s; laddrs := laddrs s; l2hops := l2hops s;
     ifs := ifs s; trees := trees s; orig_v4 := orig_v4 s; orig_v6 := orig_v6 s; set_id := set_id s;
     doms := doms s; timers := timers s; calls := calls s; mallocs := mallocs s |}.

Definition set_links (f : gmap ptr nhdp_link -> gmap ptr nhdp_link) (s : nhdp_db) : nhdp_db :=
  {| neighs := neighs s; naddrs := naddrs s; links := f (links s); laddrs := laddrs s; l2hops := l2hops s;
     ifs := ifs s; trees := trees s; orig_v4 := orig_v4 s; orig_v6 := orig_v6 s; set_id := set_id s;
     doms := doms s; timers := timers s; calls := calls s; mallocs := mallocs s |}.

Definition set_laddrs (f : gmap ptr nhdp_laddr -> gmap ptr nhdp_laddr) (s : nhdp_db) : nhdp_db :=
  {| neighs := neighs s; naddrs := naddrs s; links := links s; laddrs := f (laddrs s); l2hops := l2hops s;
     ifs := ifs s; trees := trees s; orig_v4 := orig_v4 s; orig_v6 := orig_v6 s; set_id := set_id s;
     doms := doms s; timers := timers s; calls := calls s; mallocs := mallocs s |}.

Definition set_l2hops (f : gmap ptr nhdp_l2hop -> gmap ptr nhdp_l2hop) (s : nhdp_db) : nhdp_db :=
  {| neighs := neighs s; naddrs := naddrs s; links := links s; laddrs := laddrs s; l2hops := f (l2hops s);
     ifs := ifs s; trees := trees s; orig_v4 := orig_v4 s; orig_v6 := orig_v6 s; set_id := set_id s;
     doms := doms s; timers := timers s; calls := calls s; mallocs := mallocs s |}.

Definition set_ifs (f : gmap ptr nhdp_interface -> gmap ptr nhdp_interface) (s : nhdp_db) : nhdp_db :=
  {| neighs := neighs s; naddrs := naddrs s; links := links s; laddrs := laddrs s; l2hops := l2hops s;
     ifs := f (ifs s); trees := trees s; orig_v4 := orig_v4 s; orig_v6 := orig_v6 s; set_id := set_id s;
     doms := doms s; timers := timers s; calls := calls s; mallocs := mallocs s |}.

Definition set_trees (f : gmap tree_id (list ptr) -> gmap tree_id (list ptr)) (s : nhdp_db) : nhdp_db :=
  {| neighs := neighs s; naddrs := naddrs s; links := links s; laddrs := laddrs s; l2hops := l2hops s;
     ifs := ifs s; trees := f (trees s); orig_v4 := orig_v4 s; orig_v6 := orig_v6 s; set_id := set_id s;
     doms := doms s; timers := timers s; calls := calls s; mallocs := mallocs s |}.

Definition set_set_id (z : Z) (s : nhdp_db) : nhdp_db :=
  {| neighs := neighs s; naddrs := naddrs s; links := links s; laddrs := laddrs s; l2hops := l2hops s;
     ifs := ifs s; trees := trees s; orig_v4 := orig_v4 s; orig_v6 := orig_v6 s; set_id := z; doms := doms s;
     timers := timers s; calls := calls s; mallocs := mallocs s |}.

Definition set_doms (f : registry -> registry) (s : nhdp_db) : nhdp_db :=
  {| neighs := neighs s; naddrs := naddrs s; links := links s; laddrs := laddrs s; l2hops := l2hops s;
     ifs := ifs s; trees := trees s; orig_v4 := orig_v4 s; orig_v6 := orig_v6 s; set_id := set_id s;
     doms := f (doms s); timers := timers s; calls := calls s; mallocs := mallocs s |}.

Definition set_timers (t : timer_state) (s : nhdp_db) : nhdp_db :=
  {| neighs := neighs s; naddrs := naddrs s; links := links s; laddrs := laddrs s; l2hops := l2hops s;
     ifs := ifs s; trees := trees s; orig_v4 := orig_v4 s; orig_v6 := orig_v6 s; set_id := set_id s;
     doms := doms s; timers := t; calls := calls s; mallocs := mallocs s |}.

Definition add_call (c : nhdp_call) (s : nhdp_db) : nhdp_db :=
  {| neighs := neighs s; naddrs := naddrs s; links := links s; laddrs := laddrs s; l2hops := l2hops s;
     ifs := ifs s; trees := trees s; orig_v4 := orig_v4 s; orig_v6 := orig_v6 s; set_id := set_id s;
     doms := doms s; timers := timers s; calls := calls s ++ [c]; mallocs := mallocs s |}.

Definition count_malloc  (s : nhdp_db) : nhdp_db :=
  {| neighs := neighs s; naddrs := naddrs s; links := links s; laddrs := laddrs s; l2hops := l2hops s;
     ifs := ifs s; trees := trees s; orig_v4 := orig_v4 s; orig_v6 := orig_v6 s; set_id := set_id s;
     doms := doms s; timers := timers s; calls := calls s; mallocs := S (mallocs s) |}.

Definition with_originator (a : netaddr) (x : nhdp_neighbor) : nhdp_neighbor :=
  {| originator := a; symmetric := symmetric x; n_partner := n_partner x; _old_originator := _old_originator x;
     n_domaindata := n_domaindata x |}.
Definition with_symmetric (f : Z -> Z) (x : nhdp_neighbor) : nhdp_neighbor :=
  {| originator := originator x; symmetric := f (symmetric x); n_partner := n_partner x;
     _old_originator := _old_originator x; n_domaindata := n_domaindata x |}.
Definition with_n_partner (p : option ptr) (x : nhdp_neighbor) : nhdp_neighbor :=
  {| originator := originator x; symmetric := symmetric x; n_partner := p;
     _old_originator := _old_originator x; n_domaindata := n_domaindata x |}.
Definition with_old_originator (a : netaddr) (x : nhdp_neighbor) : nhdp_neighbor :=
  {| originator := originator x; symmetric := symmetric x; n_partner := n_partner x; _old_originator := a;
     n_domaindata := n_domaindata x |}.
Definition with_n_data (d : list nhdp_neighbor_domaindata) (x : nhdp_neighbor) : nhdp_neighbor :=
  {| originator := originator x; symmetric := symmetric x; n_partner := n_partner x;
     _old_originator := _old_originator x; n_domaindata := d |}.
Definition with_last_status (z : Z) (x : nhdp_link) : nhdp_link :=
  {| last_status := z; status := status x; local_if := local_if x; l_partner := l_partner x;
     l_neigh := l_neigh x; if_addr := if_addr x; remote_mac := remote_mac x;
     last_status_change := last_status_change x; local_is_flooding_mpr := local_is_flooding_mpr x;
     neigh_is_flooding_mpr := neigh_is_flooding_mpr x; flooding_willingness := flooding_willingness x;
     _originator_key := _originator_key x; l_domaindata := l_domaindata x |}.
Definition with_status (z : Z) (x : nhdp_link) : nhdp_link :=
  {| last_status := last_status x; status := z; local_if := local_if x; l_partner := l_partner x;
     l_neigh := l_neigh x; if_addr := if_addr x; remote_mac := remote_mac x;
     last_status_change := last_status_change x; local_is_flooding_mpr := local_is_flooding_mpr x;
     neigh_is_flooding_mpr := neigh_is_flooding_mpr x; flooding_willingness := flooding_willingness x;
     _originator_key := _originator_key x; l_domaindata := l_domaindata x |}.
Definition with_local_if (i : option ptr) (x : nhdp_link) : nhdp_link :=
  {| last_status := last_status x; status := status x; local_if := i; l_partner := l_partner x;
     l_neigh := l_neigh x; if_addr := if_addr x; remote_mac := remote_mac x;
     last_status_change := last_status_change x; local_is_flooding_mpr := local_is_flooding_mpr x;
     neigh_is_flooding_mpr := neigh_is_flooding_mpr x; flooding_willingness := flooding_willingness x;
     _originator_key := _originator_key x; l_domaindata := l_domaindata x |}.
Definition with_l_partner (p : option ptr) (x : nhdp_link) : nhdp_link :=
  {| last_status := last_status x; status := status x; local_if := local_if x; l_partner := p;
     l_neigh := l_neigh x; if_addr := if_addr x; remote_mac := remote_mac x;
     last_status_change := last_status_change x; local_is_flooding_mpr := local_is_flooding_mpr x;
     neigh_is_flooding_mpr := neigh_is_flooding_mpr x; flooding_willingness := flooding_willingness x;
     _originator_key := _originator_key x; l_domaindata := l_domaindata x |}.
Definition with_l_neigh (n : ptr) (x : nhdp_link) : nhdp_link :=
  {| last_status := last_status x; status := status x; local_if := local_if x; l_partner := l_partner x;
     l_neigh := n; if_addr := if_addr x; remote_mac := remote_mac x;
     last_status_change := last_status_change x; local_is_flooding_mpr := local_is_flooding_mpr x;
     neigh_is_flooding_mpr := neigh_is_flooding_mpr x; flooding_willingness := flooding_willingness x;
     _originator_key := _originator_key x; l_domaindata := l_domaindata x |}.
Definition with_originator_key (n : ptr) (x : nhdp_link) : nhdp_link :=
  {| last_status := last_status x; status := status x; local_if := local_if x; l_partner := l_partner x;
     l_neigh := l_neigh x; if_addr := if_addr x; remote_mac := remote_mac x;
     last_status_change := last_status_change x; local_is_flooding_mpr := local_is_flooding_mpr x;
     neigh_is_flooding_mpr := neigh_is_flooding_mpr x; flooding_willingness := flooding_willingness x;
     _originator_key := n; l_domaindata := l_domaindata x |}.
Definition with_if_addr (a : netaddr) (x : nhdp_link) : nhdp_link :=
  {| last_status := last_status x; status := status x; local_if := local_if x; l_partner := l_partner x;
     l_neigh := l_neigh x; if_addr := a; remote_mac := remote_mac x;
     last_status_change := last_status_change x; local_is_flooding_mpr := local_is_flooding_mpr x;
     neigh_is_flooding_mpr := neigh_is_flooding_mpr x; flooding_willingness := flooding_willingness x;
     _originator_key := _originator_key x; l_domaindata := l_domaindata x |}.
Definition with_remote_mac (a : netaddr) (x : nhdp_link) : nhdp_link :=
  {| last_status := last_status x; status := status x; local_if := local_if x; l_partner := l_partner x;
     l_neigh := l_neigh x; if_addr := if_addr x; remote_mac := a; last_status_change := last_status_change x;
     local_is_flooding_mpr := local_is_flooding_mpr x; neigh_is_flooding_mpr := neigh_is_flooding_mpr x;
     flooding_willingness := flooding_willingness x; _originator_key := _originator_key x;
     l_domaindata := l_domaindata x |}.
Definition with_status_change (t : Z) (x : nhdp_link) : nhdp_link :=
  {| last_status := last_status x; status := status x; local_if := local_if x; l_partner := l_partner x;
     l_neigh := l_neigh x; if_addr := if_addr x; remote_mac := remote_mac x; last_status_change := t;
     local_is_flooding_mpr := local_is_flooding_mpr x; neigh_is_flooding_mpr := neigh_is_flooding_mpr x;
     flooding_willingness := flooding_willingness x; _originator_key := _originator_key x;
     l_domaindata := l_domaindata x |}.
Definition with_l_data (d : list nhdp_link_domaindata) (x : nhdp_link) : nhdp_link :=
  {| last_status := last_status x; status := status x; local_if := local_if x; l_partner := l_partner x;
     l_neigh := l_neigh x; if_addr := if_addr x; remote_mac := remote_mac x;
     last_status_change := last_status_change x; local_is_flooding_mpr := local_is_flooding_mpr x;
     neigh_is_flooding_mpr := neigh_is_flooding_mpr x; flooding_willingness := flooding_willingness x;
     _originator_key := _originator_key x; l_domaindata := d |}.

Definition with_metric_out (new : Z) (m : nhdp_metric) : nhdp_metric := {| m_in := m_in m; m_out := new |}.
Definition with_metric_in (new : Z) (m : nhdp_metric) : nhdp_metric := {| m_in := new; m_out := m_out m |}.
Definition with_nd_metric (m : nhdp_metric) (d : nhdp_neighbor_domaindata) : nhdp_neighbor_domaindata :=
  {| nd_metric := m; best_out_link := best_out_link d; best_out_link_metric := best_out_link_metric d; best_link_ifindex := best_link_ifindex d;
     local_is_mpr := local_is_mpr d; neigh_is_mpr := neigh_is_mpr d; willingness := willingness d |}.
Definition with_best (p : option ptr) (ifindex : Z) (d : nhdp_neighbor_domaindata) : nhdp_neighbor_domaindata :=
  {| nd_metric := nd_metric d; best_out_link := p; best_out_link_metric := best_out_link_metric d; best_link_ifindex := ifindex;
     local_is_mpr := local_is_mpr d; neigh_is_mpr := neigh_is_mpr d; willingness := willingness d |}.
Definition with_best_metric (m : Z) (d : nhdp_neighbor_domaindata) : nhdp_neighbor_domaindata :=
  {| nd_metric := nd_metric d; best_out_link := best_out_link d; best_out_link_metric := m; best_link_ifindex := best_link_ifindex d;
     local_is_mpr := local_is_mpr d; neigh_is_mpr := neigh_is_mpr d; willingness := willingness d |}.
Definition with_ld_metric (m : nhdp_metric) (d : nhdp_link_domaindata) : nhdp_link_domaindata :=
  {| ld_metric := m; last_metric_change := last_metric_change d |}.
Definition with_td_metric (m : nhdp_metric) (d : nhdp_l2hop_domaindata) : nhdp_l2hop_domaindata :=
  {| td_metric := m; _last_used_outgoing_metric := _last_used_outgoing_metric d |}.
Definition with_t_data (d : list nhdp_l2hop_domaindata) (x : nhdp_l2hop) : nhdp_l2hop :=
  {| twohop_addr := twohop_addr x; same_interface := same_interface x; l2_link := l2_link x; l2_domaindata := d |}.
Definition with_flooding (v4 v6 : bool) (af : Z) (x : nhdp_interface) : nhdp_interface :=
  {| if_index := if_index x; if_mac := if_mac x; l_hold_time := l_hold_time x; n_hold_time := n_hold_time x; _if_addresses := _if_addresses x;
     use_ipv4_for_flooding := v4; use_ipv6_for_flooding := v6; dualstack_af_type := af |}.

(** ** Access *)

Definition call (c : nhdp_call) : nhdp_M unit := modify (add_call c).

Definition store_neigh (p : ptr) (x : nhdp_neighbor) : nhdp_M unit := modify (set_neighs <[p := x]>).
Definition store_naddr (p : ptr) (x : nhdp_naddr) : nhdp_M unit := modify (set_naddrs <[p := x]>).
Definition store_link (p : ptr) (x : nhdp_link) : nhdp_M unit := modify (set_links <[p := x]>).
Definition store_laddr (p : ptr) (x : nhdp_laddr) : nhdp_M unit := modify (set_laddrs <[p := x]>).
Definition store_l2hop (p : ptr) (x : nhdp_l2hop) : nhdp_M unit := modify (set_l2hops <[p := x]>).
Definition store_if (p : ptr) (x : nhdp_interface) : nhdp_M unit := modify (set_ifs <[p := x]>).

(** [p->f = ...] for an object that is there. *)
Definition change_neigh (p : ptr) (f : nhdp_neighbor -> nhdp_neighbor) : nhdp_M unit := x <~ load neighs p ;; store_neigh p (f x).
Definition change_link (p : ptr) (f : nhdp_link -> nhdp_link) : nhdp_M unit := x <~ load links p ;; store_link p (f x).

(** A pointer that may be NULL. *)
Definition deref (p : option ptr) : nhdp_M ptr := match p with Some p => ret p | None => undef UB_null end.

(** ** Trees and lists *)

(** Cleared memory, as [netaddr_invalidate] leaves it. *)
Definition no_addr : netaddr := NETADDR_UNSPEC.

(** The key of the node of object [x] in tree [t]. Lists have none. *)
Definition originator_of (s : nhdp_db) (n : ptr) : netaddr := default no_addr (originator <$> neighs s !! n).
Definition tree_key (s : nhdp_db) (t : tree_id) (x : ptr) : netaddr :=
  match t with
  | Naddr_tree | Neigh_addresses _ => default no_addr (neigh_addr <$> naddrs s !! x)
  | Originator_tree => originator_of s x
  | Neigh_link_addresses _ | Link_addresses _ | If_link_addresses _ => default no_addr (link_addr <$> laddrs s !! x)
  | Link_2hop _ | If_twohops _ => default no_addr (twohop_addr <$> l2hops s !! x)
  | If_link_originators _ => default no_addr ((fun l => originator_of s (_originator_key l)) <$> links s !! x)
  | Neigh_list | Link_list | Neigh_links _ | If_links _ => no_addr
  end.

(** Trees that were initialised to allow duplicates. *)
Definition allow_dups (t : tree_id) : bool :=
  match t with Neigh_link_addresses _ | If_link_originators _ | If_twohops _ => true | _ => false end.

Definition get_tree (t : tree_id) : nhdp_M (list ptr) := fun s =>
  match trees s !! t with Some l => Def (l, s) | None => Undef UB_read end.
Definition put_tree (t : tree_id) (l : list ptr) : nhdp_M unit := modify (set_trees <[t := l]>).

(** [avl_init] and [list_init_head]; the objects around the head are freed with
    [free_trees]. *)
Definition tree_init (t : tree_id) : nhdp_M unit := put_tree t [].
Definition free_trees (ts : list tree_id) : nhdp_M unit := modify (set_trees (fun m => foldr delete m ts)).

(** The results of [avl_insert] are ignored in this file. *)
Definition tree_add (s : nhdp_db) (t : tree_id) (x : ptr) (l : list ptr) : list ptr :=
  if allow_dups t then tree_insert_dup (tree_key s t) avl_comp_netaddr x l else inserted (tree_key s t) avl_comp_netaddr x l.
Definition avl_insert (t : tree_id) (x : ptr) : nhdp_M unit := l <~ get_tree t ;; s <~ get ;; put_tree t (tree_add s t x l).
Definition list_add_tail (t : tree_id) (x : ptr) : nhdp_M unit := l <~ get_tree t ;; put_tree t (l ++ [x]).
Definition tree_remove (t : tree_id) (x : ptr) : nhdp_M unit := l <~ get_tree t ;; l <~ lift (removed x l) ;; put_tree t l.
Definition avl_remove : tree_id -> ptr -> nhdp_M unit := tree_remove.
Definition list_remove : tree_id -> ptr -> nhdp_M unit := tree_remove.
Definition avl_find_element (t : tree_id) (a : netaddr) : nhdp_M (option ptr) :=
  l <~ get_tree t ;; s <~ get ;; ret (tree_find (tree_key s t) avl_comp_netaddr a l).

(** A loop that changes no list, with a value that it computes. *)
Fixpoint for_fold {A} (l : list ptr) (body : A -> ptr -> nhdp_M A) (a : A) : nhdp_M A :=
  match l with [] => ret a | p :: l => a <~ body a p ;; for_fold l body a end.

(** ** Timers

    The instances are embedded in their objects; the class of each kind is a
    static object. *)
Inductive timer_kind := Lost_vtime | Sym_time | Heard_time | Link_vtime | L2hop_vtime.

Definition timer_at (k : timer_kind) (p : ptr) : positive :=
  match k with Lost_vtime => p~0~0~0 | Sym_time => p~0~0~1 | Heard_time => p~0~1~0 | Link_vtime => p~0~1~1 | L2hop_vtime => p~1~0~0 end%positive.

Section database.
Context (os_core_get_random : nat -> option Z).
(** [_naddr_vtime_info] and the four other timer classes. *)
Context (timer_info : timer_kind -> positive).
(** The allocator: the addresses in use and the number of calls so far determine
    whether there is memory, and where. *)
Context (malloc : gset ptr -> nat -> option ptr).
(** [is_pending] and [is_lost] of the hysteresis handler, which a plugin may set. *)
Context (nhdp_hysteresis_is_pending nhdp_hysteresis_is_lost : nhdp_db -> ptr -> bool).

Definition oonf_class_malloc (in_use : nhdp_db -> gset ptr) : nhdp_M (option ptr) := fun s =>
  Def (malloc (in_use s) (mallocs s), count_malloc s).

Definition now : nhdp_M Z := s <~ get ;; ret (oonf_clock_getNow (timers s)).
Definition timer_init (k : timer_kind) (p : ptr) : nhdp_M unit :=
  modify (fun s => set_timers (put_timer (timer_at k p) (cleared_timer (timer_info k)) (timers s)) s).
Definition timer_free (k : timer_kind) (p : ptr) : nhdp_M unit :=
  modify (fun s => set_timers (set_instances (delete (timer_at k p) (instances (timers s))) (timers s)) s).
Definition timer_set (k : timer_kind) (p : ptr) (rel_time : Z) : nhdp_M unit :=
  s <~ get ;; t <~ lift (oonf_timer_set os_core_get_random (timer_at k p) rel_time (timers s)) ;; modify (set_timers t).
Definition timer_stop (k : timer_kind) (p : ptr) : nhdp_M unit :=
  s <~ get ;; t <~ lift (oonf_timer_stop (timer_at k p) (timers s)) ;; modify (set_timers t).
Definition timer_is_active (k : timer_kind) (p : ptr) : nhdp_M bool :=
  s <~ get ;; t <~ lift (get_timer (timers s) (timer_at k p)) ;; ret (oonf_timer_is_active t).

(** * Domain data (nhdp_domain.c) *)

(** The loops of [nhdp_domain_init_link] and its siblings over the domains: the
    start values of the metric of each domain whose metric does without the
    default handling. [data] is an array. *)
Fixpoint init_domaindata {A} (start : nhdp_domain_metric -> A -> A) (domains : list nhdp_domain) (metrics : gmap ptr nhdp_domain_metric) (data : list A)
    : outcome (list A) :=
  match domains with
  | [] => Def data
  | d :: domains =>
      match metrics !! metric d, data !! index d with
      | Some m, Some x => init_domaindata start domains metrics (if no_default_handling m then <[index d := start m x]> data else data)
      | None, _ => Undef UB_read
      | _, None => Undef UB_write
      end
  end.

Definition infinite_metric : nhdp_metric := {| m_in := RFC7181_METRIC_INFINITE; m_out := RFC7181_METRIC_INFINITE |}.
Definition link_start (m : nhdp_domain_metric) : nhdp_metric := {| m_in := incoming_link_start m; m_out := outgoing_link_start m |}.
Definition twohop_start (m : nhdp_domain_metric) : nhdp_metric := {| m_in := incoming_2hop_start m; m_out := outgoing_2hop_start m |}.

Definition init_data {A} (start : nhdp_domain_metric -> A -> A) (x : A) : nhdp_M (list A) :=
  s <~ get ;; lift (init_domaindata start (_domain_list (doms s)) (metric_mem (doms s)) (repeat x NHDP_MAXIMUM_DOMAINS)).

(** The array of a new object. *)
Definition nhdp_domain_init_link : nhdp_M (list nhdp_link_domaindata) :=
  t <~ now ;; init_data (fun m => with_ld_metric (link_start m)) {| ld_metric := infinite_metric; last_metric_change := t |}.
Definition nhdp_domain_init_l2hop : nhdp_M (list nhdp_l2hop_domaindata) :=
  init_data (fun m => with_td_metric (twohop_start m)) {| td_metric := infinite_metric; _last_used_outgoing_metric := 0 |}.
Definition nhdp_domain_init_neighbor : nhdp_M (list nhdp_neighbor_domaindata) :=
  init_data (fun m => with_nd_metric (link_start m)) {| nd_metric := infinite_metric; best_out_link := None; best_out_link_metric := RFC7181_METRIC_INFINITE;
    best_link_ifindex := 0; local_is_mpr := false; neigh_is_mpr := false; willingness := RFC7181_WILLINGNESS_NEVER |}.

(** [x->_domaindata[i]] *)
Definition data_at {A} (data : list A) (i : nat) : nhdp_M A := match data !! i with Some x => ret x | None => undef UB_read end.
Definition neighbordata (i : nat) (p : ptr) : nhdp_M nhdp_neighbor_domaindata := n <~ load neighs p ;; data_at (n_domaindata n) i.
Definition linkdata (i : nat) (p : ptr) : nhdp_M nhdp_link_domaindata := l <~ load links p ;; data_at (l_domaindata l) i.
Definition l2hopdata (i : nat) (p : ptr) : nhdp_M nhdp_l2hop_domaindata := t <~ load l2hops p ;; data_at (l2_domaindata t) i.
Definition put_neighbordata (i : nat) (p : ptr) (d : nhdp_neighbor_domaindata) : nhdp_M unit :=
  n <~ load neighs p ;; _ <~ data_at (n_domaindata n) i ;; store_neigh p (with_n_data (<[i := d]> (n_domaindata n)) n).
Definition put_l2hopdata (i : nat) (p : ptr) (d : nhdp_l2hop_domaindata) : nhdp_M unit :=
  t <~ load l2hops p ;; _ <~ data_at (l2_domaindata t) i ;; store_l2hop p (with_t_data (<[i := d]> (l2_domaindata t)) t).

(** The two-hop neighbors of a link whose outgoing metric changed. *)
Definition check_2hop (i : nat) (changed : bool) (l2hop : ptr) : nhdp_M bool :=
  d <~ l2hopdata i l2hop ;;
  put_l2hopdata i l2hop {| td_metric := td_metric d; _last_used_outgoing_metric := m_out (td_metric d) |} ;;;
  ret (changed || negb (m_out (td_metric d) =? _last_used_outgoing_metric d)).

(** One link in the loop over the links of a neighbor. *)
Definition check_link (i : nat) (neigh : ptr) (changed : bool) (lnk : ptr) : nhdp_M bool :=
  l <~ load links lnk ;;
  if negb (status l =? NHDP_LINK_SYMMETRIC) then ret changed
  else
    ld <~ linkdata i lnk ;;
    nd <~ neighbordata i neigh ;;
    (if m_out (ld_metric ld) <? m_out (nd_metric nd) then
       put_neighbordata i neigh (with_best (Some lnk) (best_link_ifindex nd) (with_nd_metric (with_metric_out (m_out (ld_metric ld)) (nd_metric nd)) nd))
     else ret tt) ;;;
    nd <~ neighbordata i neigh ;;
    (if m_in (ld_metric ld) <? m_in (nd_metric nd) then
       put_neighbordata i neigh (with_nd_metric (with_metric_in (m_in (ld_metric ld)) (nd_metric nd)) nd)
     else ret tt) ;;;
    ts <~ get_tree (Link_2hop lnk) ;;
    for_fold ts (check_2hop i) changed.

(** The domain at index [i]. *)
Definition _recalculate_neighbor_metric (i : nat) (neigh : ptr) : nhdp_M bool :=
  nd <~ neighbordata i neigh ;;
  put_neighbordata i neigh (with_best None 0 (with_nd_metric infinite_metric nd)) ;;;
  ls <~ get_tree (Neigh_links neigh) ;;
  changed <~ for_fold ls (check_link i neigh) false ;;
  nd <~ neighbordata i neigh ;;
  match best_out_link nd with
  | None => ret changed
  | Some best =>
      ld <~ linkdata i best ;;
      l <~ load links best ;;
      interf <~ deref (local_if l) ;;
      f <~ load ifs interf ;;
      put_neighbordata i neigh (with_best_metric (m_out (ld_metric ld)) (with_best (Some best) (if_index f) nd)) ;;;
      ret (changed || negb (best_out_link_metric nd =? m_out (ld_metric ld)))
  end.

(** [for] loops with a result that is collected with [|=]. *)
Fixpoint any {A} (l : list A) (body : A -> nhdp_M bool) : nhdp_M bool :=
  match l with [] => ret false | x :: l => a <~ body x ;; b <~ any l body ;; ret (a || b) end.

(** [_recalculate_metrics] of one domain; [None] stands for all neighbors. *)
Definition recalculate_domain (neigh : option ptr) (i : nat) : nhdp_M bool :=
  match neigh with
  | Some n => _recalculate_neighbor_metric i n
  | None => ns <~ get_tree Neigh_list ;; any ns (_recalculate_neighbor_metric i)
  end.

Definition nhdp_domain_recalculate_metrics (domain : option nat) (neigh : option ptr) : nhdp_M bool :=
  changed <~ match domain with
    | Some i => recalculate_domain neigh i
    | None => s <~ get ;; any (index <$> _domain_list (doms s)) (recalculate_domain neigh)
    end ;;
  (if (changed : bool) then call (Metric_update domain) else ret tt) ;;;
  ret changed.

(** For all domains. *)
Definition nhdp_domain_delayed_mpr_recalculation : nhdp_M unit :=
  modify (set_doms (fun r => set_domains r (with_outdated true <$> _domain_list r) (with_outdated true (_flooding_domain r)) (_domain_counter r))).

(** * Interfaces (nhdp_interfaces.c) *)

(** What the loop over the links counts: IPv4 only, IPv6 only, dualstack. *)
Definition count_link (c : Z * Z * Z) (lnk : ptr) : nhdp_M (Z * Z * Z) :=
  l <~ load links lnk ;;
  if negb (status l =? NHDP_LINK_SYMMETRIC) then ret c
  else
    n <~ load neighs (l_neigh l) ;;
    let '(ipv4_only, ipv6_only, dualstack) := c in
    let af := na_type (originator n) in
    match l_partner l with
    | Some _ => ret (ipv4_only, ipv6_only, if af =? AF_INET then u32 (dualstack + 1) else dualstack)
    | None =>
        if af =? AF_INET then ret (u32 (ipv4_only + 1), ipv6_only, dualstack)
        else if af =? AF_INET6 then ret (ipv4_only, u32 (ipv6_only + 1), dualstack)
        else ret c
    end.

Definition nhdp_interface_update_status (interf : ptr) : nhdp_M unit :=
  ls <~ get_tree (If_links interf) ;;
  c <~ for_fold ls count_link (0, 0, 0) ;;
  let '(ipv4_only, ipv6_only, dualstack) := c in
  f <~ load ifs interf ;;
  store_if interf (with_flooding (0 <? ipv4_only) ((0 <? ipv6_only) || ((ipv4_only =? 0) && (0 <? dualstack)))
    (if 0 <? dualstack then if ipv4_only =? 0 then AF_INET6 else if ipv6_only =? 0 then AF_INET else AF_UNSPEC else AF_UNSPEC) f).

Definition nhdp_interface_addr_if_get (interf : ptr) (a : netaddr) : nhdp_M bool :=
  f <~ load ifs interf ;;
  ret (match tree_find (fun x => x) avl_comp_netaddr a (_if_addresses f) with Some _ => true | None => false end).

(** * The database *)

(** ** Lookups (nhdp_db.h, nhdp_interfaces.h) *)

Definition nhdp_db_neighbor_addr_get : netaddr -> nhdp_M (option ptr) := avl_find_element Naddr_tree.
Definition nhdp_db_neighbor_get_by_originator : netaddr -> nhdp_M (option ptr) := avl_find_element Originator_tree.
Definition nhdp_db_link_addr_get (lnk : ptr) : netaddr -> nhdp_M (option ptr) := avl_find_element (Link_addresses lnk).
Definition ndhp_db_link_2hop_get (lnk : ptr) : netaddr -> nhdp_M (option ptr) := avl_find_element (Link_2hop lnk).
Definition nhdp_interface_get_link_addr (interf : ptr) : netaddr -> nhdp_M (option ptr) := avl_find_element (If_link_addresses interf).
Definition nhdp_interface_link_get_by_originator (interf : ptr) : netaddr -> nhdp_M (option ptr) := avl_find_element (If_link_originators interf).

(** ** Addresses of neighbors *)

Definition nhdp_db_neighbor_addr_set_lost (naddr : ptr) (vtime : Z) : nhdp_M unit := timer_set Lost_vtime naddr vtime.
Definition nhdp_db_neighbor_addr_not_lost (naddr : ptr) : nhdp_M unit := timer_stop Lost_vtime naddr.
Definition nhdp_db_neighbor_addr_is_lost (naddr : ptr) : nhdp_M bool := timer_is_active Lost_vtime naddr.

(** An object that was allocated has its pointer to the owner at once. *)
Definition nhdp_db_neighbor_addr_add (neigh : ptr) (a : netaddr) : nhdp_M (option ptr) :=
  naddr <~ oonf_class_malloc (fun s => dom (naddrs s)) ;;
  match naddr with
  | None => ret None
  | Some naddr =>
      store_naddr naddr {| neigh_addr := a; na_neigh := neigh |} ;;;
      timer_init Lost_vtime naddr ;;;
      avl_insert Naddr_tree naddr ;;;
      avl_insert (Neigh_addresses neigh) naddr ;;;
      call (Naddr_event naddr OONF_OBJECT_ADDED) ;;;
      ret (Some naddr)
  end.

Definition nhdp_db_neighbor_addr_remove (naddr : ptr) : nhdp_M unit :=
  call (Naddr_event naddr OONF_OBJECT_REMOVED) ;;;
  avl_remove Naddr_tree naddr ;;;
  x <~ load naddrs naddr ;;
  avl_remove (Neigh_addresses (na_neigh x)) naddr ;;;
  timer_stop Lost_vtime naddr ;;;
  timer_free Lost_vtime naddr ;;;
  modify (set_naddrs (delete naddr)).

Definition nhdp_db_neighbor_addr_move (neigh naddr : ptr) : nhdp_M unit :=
  x <~ load naddrs naddr ;;
  avl_remove (Neigh_addresses (na_neigh x)) naddr ;;;
  avl_insert (Neigh_addresses neigh) naddr ;;;
  store_naddr naddr {| neigh_addr := neigh_addr x; na_neigh := neigh |}.

(** ** Two-hop neighbors *)

Definition nhdp_db_link_2hop_set_vtime (l2hop : ptr) (vtime : Z) : nhdp_M unit := timer_set L2hop_vtime l2hop vtime.
Definition nhdp_db_2hop_is_lost (l2hop : ptr) : nhdp_M bool := timer_is_active L2hop_vtime l2hop.

Definition nhdp_db_link_2hop_add (lnk : ptr) (a : netaddr) : nhdp_M (option ptr) :=
  l2hop <~ oonf_class_malloc (fun s => dom (l2hops s)) ;;
  match l2hop with
  | None => ret None
  | Some l2hop =>
      store_l2hop l2hop {| twohop_addr := a; same_interface := false; l2_link := lnk; l2_domaindata := [] |} ;;;
      timer_init L2hop_vtime l2hop ;;;
      avl_insert (Link_2hop lnk) l2hop ;;;
      l <~ load links lnk ;;
      interf <~ deref (local_if l) ;;
      avl_insert (If_twohops interf) l2hop ;;;
      d <~ nhdp_domain_init_l2hop ;;
      t <~ load l2hops l2hop ;;
      store_l2hop l2hop (with_t_data d t) ;;;
      call (L2hop_event l2hop OONF_OBJECT_ADDED) ;;;
      ret (Some l2hop)
  end.

Definition nhdp_db_link_2hop_remove (l2hop : ptr) : nhdp_M unit :=
  call (L2hop_event l2hop OONF_OBJECT_REMOVED) ;;;
  t <~ load l2hops l2hop ;;
  avl_remove (Link_2hop (l2_link t)) l2hop ;;;
  l <~ load links (l2_link t) ;;
  interf <~ deref (local_if l) ;;
  avl_remove (If_twohops interf) l2hop ;;;
  timer_stop L2hop_vtime l2hop ;;;
  timer_free L2hop_vtime l2hop ;;;
  modify (set_l2hops (delete l2hop)).

(** ** Addresses of links *)

Definition nhdp_db_link_addr_add (lnk : ptr) (a : netaddr) : nhdp_M (option ptr) :=
  laddr <~ oonf_class_malloc (fun s => dom (laddrs s)) ;;
  match laddr with
  | None => ret None
  | Some laddr =>
      store_laddr laddr {| link_addr := a; la_link := lnk |} ;;;
      avl_insert (Link_addresses lnk) laddr ;;;
      l <~ load links lnk ;;
      avl_insert (Neigh_link_addresses (l_neigh l)) laddr ;;;
      interf <~ deref (local_if l) ;;
      avl_insert (If_link_addresses interf) laddr ;;;
      call (Laddr_event laddr OONF_OBJECT_ADDED) ;;;
      ret (Some laddr)
  end.

Definition nhdp_db_link_addr_remove (laddr : ptr) : nhdp_M unit :=
  call (Laddr_event laddr OONF_OBJECT_REMOVED) ;;;
  a <~ load laddrs laddr ;;
  l <~ load links (la_link a) ;;
  interf <~ deref (local_if l) ;;
  avl_remove (If_link_addresses interf) laddr ;;;
  avl_remove (Link_addresses (la_link a)) laddr ;;;
  avl_remove (Neigh_link_addresses (l_neigh l)) laddr ;;;
  modify (set_laddrs (delete laddr)).

Definition nhdp_db_link_addr_move (lnk laddr : ptr) : nhdp_M unit :=
  a <~ load laddrs laddr ;;
  avl_remove (Link_addresses (la_link a)) laddr ;;;
  avl_insert (Link_addresses lnk) laddr ;;;
  old <~ load links (la_link a) ;;
  new <~ load links lnk ;;
  (if bool_decide (l_neigh old <> l_neigh new) then
     avl_remove (Neigh_link_addresses (l_neigh old)) laddr ;;;
     avl_insert (Neigh_link_addresses (l_neigh new)) laddr
   else ret tt) ;;;
  store_laddr laddr {| link_addr := link_addr a; la_link := lnk |}.

(** ** Links *)

Definition nhdp_db_link_is_dualstack (lnk : ptr) : nhdp_M bool :=
  l <~ load links lnk ;; ret (match l_partner l with Some _ => true | None => false end).

Definition nhdp_db_link_disconnect_dualstack (lnk : ptr) : nhdp_M unit :=
  l <~ load links lnk ;;
  match l_partner l with
  | None => ret tt
  | Some p => change_link p (with_l_partner None) ;;; change_link lnk (with_l_partner None)
  end.

Definition nhdp_db_link_connect_dualstack (l_ipv4 l_ipv6 : ptr) : nhdp_M unit :=
  l4 <~ load links l_ipv4 ;;
  (if bool_decide (l_partner l4 <> Some l_ipv6) then
     nhdp_db_link_disconnect_dualstack l_ipv4 ;;; change_link l_ipv4 (with_l_partner (Some l_ipv6))
   else ret tt) ;;;
  l6 <~ load links l_ipv6 ;;
  if bool_decide (l_partner l6 <> Some l_ipv4) then
    nhdp_db_link_disconnect_dualstack l_ipv6 ;;; change_link l_ipv6 (with_l_partner (Some l_ipv4))
  else ret tt.

Definition is_unspec (a : netaddr) : bool := na_type a =? AF_UNSPEC.

(** The cleared memory of a link with its neighbor and interface. *)
Definition new_link (neigh interf : ptr) : nhdp_link := {|
  last_status := NHDP_LINK_LOST; status := NHDP_LINK_LOST; local_if := Some interf; l_partner := None; l_neigh := neigh;
  if_addr := no_addr; remote_mac := no_addr; last_status_change := 0; local_is_flooding_mpr := false; neigh_is_flooding_mpr := false;
  flooding_willingness := RFC7181_WILLINGNESS_NEVER; _originator_key := neigh; l_domaindata := [] |}.

Definition nhdp_db_link_add (neigh local_if : ptr) : nhdp_M (option ptr) :=
  lnk <~ oonf_class_malloc (fun s => dom (links s)) ;;
  match lnk with
  | None => ret None
  | Some lnk =>
      store_link lnk (new_link neigh local_if) ;;;
      list_add_tail (If_links local_if) lnk ;;;
      list_add_tail (Neigh_links neigh) lnk ;;;
      list_add_tail Link_list lnk ;;;
      tree_init (Link_addresses lnk) ;;;
      tree_init (Link_2hop lnk) ;;;
      timer_init Sym_time lnk ;;;
      timer_init Heard_time lnk ;;;
      timer_init Link_vtime lnk ;;;
      n <~ load neighs neigh ;;
      (if negb (is_unspec (originator n)) then avl_insert (If_link_originators local_if) lnk else ret tt) ;;;
      t <~ now ;;
      change_link lnk (with_status_change t) ;;;
      d <~ nhdp_domain_init_link ;;
      change_link lnk (with_l_data d) ;;;
      call (Link_event lnk OONF_OBJECT_ADDED) ;;;
      ret (Some lnk)
  end.

Definition nhdp_db_link_remove (lnk : ptr) : nhdp_M unit :=
  call (Link_event lnk OONF_OBJECT_REMOVED) ;;;
  timer_stop Sym_time lnk ;;;
  timer_stop Heard_time lnk ;;;
  timer_stop Link_vtime lnk ;;;
  dual <~ nhdp_db_link_is_dualstack lnk ;;
  (if (dual : bool) then nhdp_db_link_disconnect_dualstack lnk else ret tt) ;;;
  l <~ load links lnk ;;
  n <~ load neighs (l_neigh l) ;;
  (if negb (is_unspec (originator n)) then
     interf <~ deref (local_if l) ;; avl_remove (If_link_originators interf) lnk
   else ret tt) ;;;
  for_each_safe (get_tree (Link_addresses lnk)) nhdp_db_link_addr_remove ;;;
  for_each_safe (get_tree (Link_2hop lnk)) nhdp_db_link_2hop_remove ;;;
  l <~ load links lnk ;;
  interf <~ deref (local_if l) ;;
  list_remove (If_links interf) lnk ;;;
  change_link lnk (with_local_if None) ;;;
  list_remove (Neigh_links (l_neigh l)) lnk ;;;
  list_remove Link_list lnk ;;;
  timer_free Sym_time lnk ;;;
  timer_free Heard_time lnk ;;;
  timer_free Link_vtime lnk ;;;
  free_trees [Link_addresses lnk; Link_2hop lnk] ;;;
  modify (set_links (delete lnk)).

(** *** Status *)

Definition nhdp_get_originator (s : nhdp_db) (af : Z) : option netaddr :=
  if af =? AF_INET then Some (orig_v4 s) else if af =? AF_INET6 then Some (orig_v6 s) else None.

Definition _nhdp_db_link_calculate_status (lnk : ptr) : nhdp_M Z :=
  l <~ load links lnk ;;
  s <~ get ;;
  interf <~ deref (local_if l) ;;
  localif <~ load ifs interf ;;
  match nhdp_get_originator s (na_type (if_addr l)) with
  | None => undef UB_null
  | Some local_originator =>
      n <~ load neighs (l_neigh l) ;;
      if negb (netaddr_is_unspec local_originator) &&
         ((netaddr_cmp local_originator (if_addr l) =? 0) || (netaddr_cmp local_originator (originator n) =? 0)) then ret NHDP_LINK_PENDING
      else
        own <~ nhdp_interface_addr_if_get interf (if_addr l) ;;
        if (own : bool) then ret NHDP_LINK_PENDING
        else if negb (netaddr_is_unspec (remote_mac l)) && (netaddr_cmp (if_mac localif) (remote_mac l) =? 0) then ret NHDP_LINK_PENDING
        else if nhdp_hysteresis_is_pending s lnk then ret NHDP_LINK_PENDING
        else if nhdp_hysteresis_is_lost s lnk then ret NHDP_LINK_LOST
        else
          sym <~ timer_is_active Sym_time lnk ;;
          if (sym : bool) then ret NHDP_LINK_SYMMETRIC
          else
            heard <~ timer_is_active Heard_time lnk ;;
            if (heard : bool) then ret NHDP_LINK_HEARD else ret NHDP_LINK_LOST
  end.

Definition count_change : nhdp_M unit := modify (fun s => set_set_id (u32 (set_id s + 1)) s).

Definition _link_status_now_symmetric (lnk : ptr) : nhdp_M unit :=
  l <~ load links lnk ;;
  change_neigh (l_neigh l) (with_symmetric (fun z => z + 1)) ;;;
  n <~ load neighs (l_neigh l) ;;
  if symmetric n =? 1 then
    for_each (get_tree (Neigh_addresses (l_neigh l))) nhdp_db_neighbor_addr_not_lost ;;;
    count_change
  else ret tt.

Definition _link_status_not_symmetric_anymore (lnk : ptr) : nhdp_M unit :=
  for_each_safe (get_tree (Link_2hop lnk)) nhdp_db_link_2hop_remove ;;;
  l <~ load links lnk ;;
  change_neigh (l_neigh l) (with_symmetric (fun z => z - 1)) ;;;
  n <~ load neighs (l_neigh l) ;;
  if symmetric n =? 0 then
    for_each_safe (get_tree (Neigh_addresses (l_neigh l))) (fun naddr =>
      interf <~ deref (local_if l) ;;
      f <~ load ifs interf ;;
      nhdp_db_neighbor_addr_set_lost naddr (n_hold_time f)) ;;;
    count_change
  else ret tt.

Definition nhdp_db_link_update_status (lnk : ptr) : nhdp_M unit :=
  l <~ load links lnk ;;
  let old_status := status l in
  let was_symmetric := status l =? NHDP_LINK_SYMMETRIC in
  store_link lnk (with_last_status (status l) l) ;;;
  st <~ _nhdp_db_link_calculate_status lnk ;;
  change_link lnk (with_status st) ;;;
  (if was_symmetric && negb (st =? NHDP_LINK_SYMMETRIC) then _link_status_not_symmetric_anymore lnk else ret tt) ;;;
  (if negb was_symmetric && (st =? NHDP_LINK_SYMMETRIC) then _link_status_now_symmetric lnk else ret tt) ;;;
  (if negb (Bool.eqb was_symmetric (st =? NHDP_LINK_SYMMETRIC)) then
     interf <~ deref (local_if l) ;; nhdp_interface_update_status interf
   else ret tt) ;;;
  if negb (old_status =? st) then
    t <~ now ;;
    change_link lnk (with_status_change t) ;;;
    nhdp_domain_recalculate_metrics None (Some (l_neigh l)) ;;;
    nhdp_domain_delayed_mpr_recalculation ;;;
    call (Link_event lnk OONF_OBJECT_CHANGED)
  else ret tt.

Definition nhdp_db_link_set_unsymmetric (lnk : ptr) : nhdp_M unit :=
  l <~ load links lnk ;;
  (if status l =? NHDP_LINK_SYMMETRIC then _link_status_not_symmetric_anymore lnk else ret tt) ;;;
  timer_stop Sym_time lnk ;;;
  for_each_safe (get_tree (Link_2hop lnk)) nhdp_db_link_2hop_remove ;;;
  t <~ now ;;
  change_link lnk (with_status_change t) ;;;
  call (Link_event lnk OONF_OBJECT_CHANGED).

Definition nhdp_db_link_set_vtime (lnk : ptr) (vtime : Z) : nhdp_M unit := timer_set Link_vtime lnk vtime.
Definition nhdp_db_link_set_heardtime (lnk : ptr) (htime : Z) : nhdp_M unit := timer_set Heard_time lnk htime.
Definition nhdp_db_link_set_symtime (lnk : ptr) (stime : Z) : nhdp_M unit :=
  timer_set Sym_time lnk stime ;;; nhdp_db_link_update_status lnk.

(** ** Neighbors *)

Definition nhdp_db_neigbor_disconnect_dualstack (neigh : ptr) : nhdp_M unit :=
  n <~ load neighs neigh ;;
  match n_partner n with
  | None => ret tt
  | Some p => change_neigh p (with_n_partner None) ;;; change_neigh neigh (with_n_partner None)
  end.

Definition nhdp_db_neighbor_connect_dualstack (n_ipv4 n_ipv6 : ptr) : nhdp_M unit :=
  n4 <~ load neighs n_ipv4 ;;
  (if bool_decide (n_partner n4 <> Some n_ipv6) then
     nhdp_db_neigbor_disconnect_dualstack n_ipv4 ;;; change_neigh n_ipv4 (with_n_partner (Some n_ipv6))
   else ret tt) ;;;
  n6 <~ load neighs n_ipv6 ;;
  if bool_decide (n_partner n6 <> Some n_ipv4) then
    nhdp_db_neigbor_disconnect_dualstack n_ipv6 ;;; change_neigh n_ipv6 (with_n_partner (Some n_ipv4))
  else ret tt.

Definition new_neighbor : nhdp_neighbor :=
  {| originator := no_addr; symmetric := 0; n_partner := None; _old_originator := no_addr; n_domaindata := [] |}.

Definition nhdp_db_neighbor_add : nhdp_M (option ptr) :=
  neigh <~ oonf_class_malloc (fun s => dom (neighs s)) ;;
  match neigh with
  | None => ret None
  | Some neigh =>
      store_neigh neigh new_neighbor ;;;
      tree_init (Neigh_addresses neigh) ;;;
      tree_init (Neigh_link_addresses neigh) ;;;
      tree_init (Neigh_links neigh) ;;;
      list_add_tail Neigh_list neigh ;;;
      d <~ nhdp_domain_init_neighbor ;;
      change_neigh neigh (with_n_data d) ;;;
      call (Neigh_event neigh OONF_OBJECT_ADDED) ;;;
      ret (Some neigh)
  end.

(** Whether the neighbor is a MPR in one of the domains; the loop stops at the
    first one. *)
Fixpoint was_mpr (domains : list nhdp_domain) (neigh : ptr) : nhdp_M bool :=
  match domains with
  | [] => ret false
  | d :: domains => nd <~ neighbordata (index d) neigh ;; if neigh_is_mpr nd then ret true else was_mpr domains neigh
  end.

Definition nhdp_db_neighbor_remove (neigh : ptr) : nhdp_M unit :=
  call (Neigh_event neigh OONF_OBJECT_REMOVED) ;;;
  nhdp_db_neigbor_disconnect_dualstack neigh ;;;
  for_each_safe (get_tree (Neigh_links neigh)) nhdp_db_link_remove ;;;
  for_each_safe (get_tree (Neigh_addresses neigh)) nhdp_db_neighbor_addr_remove ;;;
  n <~ load neighs neigh ;;
  (if negb (is_unspec (originator n)) then avl_remove Originator_tree neigh else ret tt) ;;;
  s <~ get ;;
  mpr <~ was_mpr (_domain_list (doms s)) neigh ;;
  (if (mpr : bool) then nhdp_domain_delayed_mpr_recalculation else ret tt) ;;;
  list_remove Neigh_list neigh ;;;
  free_trees [Neigh_addresses neigh; Neigh_link_addresses neigh; Neigh_links neigh] ;;;
  modify (set_neighs (delete neigh)).

Definition nhdp_db_neighbor_set_unsymmetric (neigh : ptr) : nhdp_M unit :=
  for_each (get_tree (Neigh_links neigh)) nhdp_db_link_set_unsymmetric ;;;
  call (Neigh_event neigh OONF_OBJECT_CHANGED).

(** The loop over the addresses of a link takes the nodes in [lnk->_addresses] for
    [_neigh_node], which they are not: with an address in the tree it computes on
    a wrong pointer. *)
Definition nhdp_db_neighbor_join (dst src : ptr) : nhdp_M unit :=
  if bool_decide (dst = src) then ret tt
  else
    ns <~ load neighs src ;;
    change_neigh dst (with_symmetric (fun z => z + symmetric ns)) ;;;
    for_each_safe (get_tree (Neigh_links src)) (fun lnk =>
      as_ <~ get_tree (Link_addresses lnk) ;;
      (match as_ with [] => ret tt | _ :: _ => undef UB_read end) ;;;
      l <~ load links lnk ;;
      ns <~ load neighs src ;;
      nd <~ load neighs dst ;;
      (if negb (is_unspec (originator ns)) then interf <~ deref (local_if l) ;; avl_remove (If_link_originators interf) lnk else ret tt) ;;;
      change_link lnk (with_originator_key dst) ;;;
      (if negb (is_unspec (originator nd)) then interf <~ deref (local_if l) ;; avl_insert (If_link_originators interf) lnk else ret tt) ;;;
      list_remove (Neigh_links src) lnk ;;;
      list_add_tail (Neigh_links dst) lnk ;;;
      change_link lnk (with_l_neigh dst)) ;;;
    for_each_safe (get_tree (Neigh_addresses src)) (fun naddr =>
      avl_remove (Neigh_addresses src) naddr ;;;
      avl_insert (Neigh_addresses dst) naddr ;;;
      x <~ load naddrs naddr ;;
      store_naddr naddr {| neigh_addr := neigh_addr x; na_neigh := dst |}) ;;;
    nhdp_db_neighbor_remove src.

(** The links of a neighbor in the trees of originators of their interfaces. *)
Definition originator_nodes (f : tree_id -> ptr -> nhdp_M unit) (neigh : ptr) : nhdp_M unit :=
  for_each (get_tree (Neigh_links neigh)) (fun lnk =>
    l <~ load links lnk ;; interf <~ deref (local_if l) ;; f (If_link_originators interf) lnk).

Definition nhdp_db_neighbor_set_originator (neigh : ptr) (a : netaddr) : nhdp_M unit :=
  n <~ load neighs neigh ;;
  if bool_decide (originator n = a) then ret tt
  else
    (if negb (is_unspec (originator n)) then
       avl_remove Originator_tree neigh ;;; originator_nodes avl_remove neigh
     else ret tt) ;;;
    neigh2 <~ nhdp_db_neighbor_get_by_originator a ;;
    match neigh2 with
    | None => ret tt
    | Some neigh2 =>
        avl_remove Originator_tree neigh2 ;;;
        originator_nodes avl_remove neigh2 ;;;
        change_neigh neigh2 (with_originator no_addr)
    end ;;;
    change_neigh neigh (with_originator a) ;;;
    (if negb (is_unspec a) then
       avl_insert Originator_tree neigh ;;; originator_nodes avl_insert neigh
     else ret tt) ;;;
    call (Neigh_event neigh OONF_OBJECT_CHANGED) ;;;
    change_neigh neigh (with_old_originator a).

Definition nhdp_db_neighbor_get_set_id (s : nhdp_db) : Z := set_id s.

(** ** Timeouts

    The callbacks with the object that embeds the timer. *)

Definition _cb_link_vtime (lnk : ptr) : nhdp_M unit :=
  l <~ load links lnk ;;
  (if status l =? NHDP_LINK_SYMMETRIC then _link_status_not_symmetric_anymore lnk else ret tt) ;;;
  nhdp_db_link_remove lnk ;;;
  ls <~ get_tree (Neigh_links (l_neigh l)) ;;
  match ls with [] => nhdp_db_neighbor_remove (l_neigh l) | _ => ret tt end.
Definition _cb_link_heard (lnk : ptr) : nhdp_M unit := nhdp_db_link_update_status lnk.
Definition _cb_link_symtime (lnk : ptr) : nhdp_M unit := nhdp_db_link_update_status lnk.
Definition _cb_naddr_vtime (naddr : ptr) : nhdp_M unit := nhdp_db_neighbor_addr_remove naddr.
Definition _cb_l2hop_vtime (l2hop : ptr) : nhdp_M unit := nhdp_db_link_2hop_remove l2hop.

(** ** Start and end *)

(** [fs] are the interfaces, without links. *)
Definition if_trees (fs : gmap ptr nhdp_interface) : gmap tree_id (list ptr) :=
  list_to_map ((fun p => (If_links p, [])) <$> (fst <$> map_to_list fs)) ∪
  list_to_map ((fun p => (If_link_addresses p, [])) <$> (fst <$> map_to_list fs)) ∪
  list_to_map ((fun p => (If_link_originators p, [])) <$> (fst <$> map_to_list fs)) ∪
  list_to_map ((fun p => (If_twohops p, [])) <$> (fst <$> map_to_list fs)).

Definition nhdp_db_init (fs : gmap ptr nhdp_interface) (v4 v6 : netaddr) (r : registry) (t : timer_state) : nhdp_db := {|
  neighs := ∅; naddrs := ∅; links := ∅; laddrs := ∅; l2hops := ∅; ifs := fs;
  trees := {[Naddr_tree := []; Neigh_list := []; Originator_tree := []; Link_list := []]} ∪ if_trees fs;
  orig_v4 := v4; orig_v6 := v6; set_id := 0; doms := r; timers := t; calls := []; mallocs := 0 |}.

Definition timer_class_remove (k : timer_kind) : nhdp_M unit :=
  s <~ get ;; t <~ lift (oonf_timer_remove (timer_info k) (timers s)) ;; modify (set_timers t).

Definition nhdp_db_cleanup : nhdp_M unit :=
  for_each_safe (get_tree Neigh_list) nhdp_db_neighbor_remove ;;;
  timer_class_remove L2hop_vtime ;;;
  timer_class_remove Sym_time ;;;
  timer_class_remove Heard_time ;;;
  timer_class_remove Link_vtime ;;;
  timer_class_remove Lost_vtime.
End database.
