(* ===== verification/NhdpConsistent.v ===== *)
(** What the neighborhood database of src/nhdp/nhdp/nhdp_db.c keeps true of its
    memory: every node is in the trees and lists of its owners and in no other
    one, pointers lead to living objects, dualstack partners point to each other,
    every object has its timers. The structure is the [shape] of the database;
    here are the changes of it that the operations are made of. *)

From Stdlib Require Import ZArith Lia Sorted.
From stdpp Require Import base list numbers option gmap sets.
From S2P Require Import Prelude AvlSpec StateMonad Rfc5444Values Netaddr MprSelection NhdpDb NhdpDomain Timer ValidityTimer NhdpStore.

Local Open Scope Z_scope.

(** * The shape of a database *)

Record neigh_view := { nv_originator : netaddr; nv_partner : option ptr; nv_size : nat }.
Record link_view := { lv_neigh : ptr; lv_if : option ptr; lv_partner : option ptr; lv_key : ptr; lv_size : nat }.

Definition view_neigh (x : nhdp_neighbor) : neigh_view :=
  {| nv_originator := originator x; nv_partner := n_partner x; nv_size := length (n_domaindata x) |}.
Definition view_link (x : nhdp_link) : link_view :=
  {| lv_neigh := l_neigh x; lv_if := local_if x; lv_partner := l_partner x; lv_key := _originator_key x; lv_size := length (l_domaindata x) |}.
Definition view_naddr (x : nhdp_naddr) : netaddr * ptr := (neigh_addr x, na_neigh x).
Definition view_laddr (x : nhdp_laddr) : netaddr * ptr := (link_addr x, la_link x).
Definition view_l2hop (x : nhdp_l2hop) : netaddr * ptr * nat := (twohop_addr x, l2_link x, length (l2_domaindata x)).

Record shape := {
  sh_neighs : gmap ptr neigh_view;
  sh_naddrs : gmap ptr (netaddr * ptr);
  sh_links : gmap ptr link_view;
  sh_laddrs : gmap ptr (netaddr * ptr);
  sh_l2hops : gmap ptr (netaddr * ptr * nat);
  sh_ifs : gset ptr;
}.

Definition shape_of (s : nhdp_db) : shape := {|
  sh_neighs := view_neigh <$> neighs s; sh_naddrs := view_naddr <$> naddrs s; sh_links := view_link <$> links s;
  sh_laddrs := view_laddr <$> laddrs s; sh_l2hops := view_l2hop <$> l2hops s; sh_ifs := dom (ifs s) |}.

(** Where the node of [x] in a tree or list of the kind of [t] belongs. *)
Definition home (sh : shape) (t : tree_id) (x : ptr) : Prop :=
  match t with
  | Naddr_tree => is_Some (sh_naddrs sh !! x)
  | Neigh_list => is_Some (sh_neighs sh !! x)
  | Link_list => is_Some (sh_links sh !! x)
  | Originator_tree => exists n, sh_neighs sh !! x = Some n /\ is_unspec (nv_originator n) = false
  | Neigh_addresses n => exists a, sh_naddrs sh !! x = Some (a, n)
  | Neigh_links n => exists l, sh_links sh !! x = Some l /\ lv_neigh l = n
  | Neigh_link_addresses n => exists a k l, sh_laddrs sh !! x = Some (a, k) /\ sh_links sh !! k = Some l /\ lv_neigh l = n
  | Link_addresses k => exists a, sh_laddrs sh !! x = Some (a, k)
  | Link_2hop k => exists a z, sh_l2hops sh !! x = Some (a, k, z)
  | If_links i => exists l, sh_links sh !! x = Some l /\ lv_if l = Some i
  | If_link_addresses i => exists a k l, sh_laddrs sh !! x = Some (a, k) /\ sh_links sh !! k = Some l /\ lv_if l = Some i
  | If_link_originators i => exists l n, sh_links sh !! x = Some l /\ lv_if l = Some i /\
      sh_neighs sh !! lv_neigh l = Some n /\ is_unspec (nv_originator n) = false
  | If_twohops i => exists a k z l, sh_l2hops sh !! x = Some (a, k, z) /\ sh_links sh !! k = Some l /\ lv_if l = Some i
  end.

(** Trees in which a key is unique. *)
Definition sorted_tree (t : tree_id) : bool :=
  match t with
  | Naddr_tree | Neigh_addresses _ | Originator_tree | Link_addresses _ | If_link_addresses _ | Link_2hop _ => true
  | _ => false
  end.

Definition shape_key (sh : shape) (t : tree_id) (x : ptr) : netaddr :=
  match t with
  | Naddr_tree | Neigh_addresses _ => default no_addr (fst <$> sh_naddrs sh !! x)
  | Originator_tree => default no_addr (nv_originator <$> sh_neighs sh !! x)
  | Link_addresses _ | If_link_addresses _ => default no_addr (fst <$> sh_laddrs sh !! x)
  | Link_2hop _ => default no_addr ((fun v => fst (fst v)) <$> sh_l2hops sh !! x)
  | _ => no_addr
  end.

Lemma tree_key_shape s t x : sorted_tree t = true -> tree_key s t x = shape_key (shape_of s) t x.
Proof.
  destruct t; try done; intros _; simpl; unfold originator_of; rewrite lookup_fmap; by destruct (_ !! x).
Qed.

(** The object around the head of a list or tree is there. *)
Definition head_alive (sh : shape) (t : tree_id) : Prop :=
  match t with
  | Naddr_tree | Neigh_list | Originator_tree | Link_list => True
  | Neigh_addresses n | Neigh_link_addresses n | Neigh_links n => is_Some (sh_neighs sh !! n)
  | Link_addresses k | Link_2hop k => is_Some (sh_links sh !! k)
  | If_links i | If_link_addresses i | If_link_originators i | If_twohops i => i ∈ sh_ifs sh
  end.

(** The trees [tr] hold exactly the nodes that [at_] says. *)
Record placed (sh : shape) (at_ : tree_id -> ptr -> Prop) (tr : gmap tree_id (list ptr)) : Prop := {
  pl_nodup t l : tr !! t = Some l -> NoDup l;
  pl_mem t l x : tr !! t = Some l -> x ∈ l <-> at_ t x;
  pl_strict t l : tr !! t = Some l -> sorted_tree t = true -> tree_strict (shape_key sh t) avl_comp_netaddr l;
  pl_head t : is_Some (tr !! t) <-> head_alive sh t;
}.
#[global] Arguments pl_nodup {sh at_ tr}.
#[global] Arguments pl_mem {sh at_ tr}.
#[global] Arguments pl_strict {sh at_ tr}.
#[global] Arguments pl_head {sh at_ tr}.

(** Pointers lead to living objects; partners point to each other. *)
Record linked (sh : shape) : Prop := {
  lk_naddr x a n : sh_naddrs sh !! x = Some (a, n) -> is_Some (sh_neighs sh !! n);
  lk_laddr x a k : sh_laddrs sh !! x = Some (a, k) -> is_Some (sh_links sh !! k);
  lk_l2hop x a k z : sh_l2hops sh !! x = Some (a, k, z) -> is_Some (sh_links sh !! k) /\ z = NHDP_MAXIMUM_DOMAINS;
  lk_link x l : sh_links sh !! x = Some l -> is_Some (sh_neighs sh !! lv_neigh l) /\ (exists i, lv_if l = Some i /\ i ∈ sh_ifs sh) /\
    lv_key l = lv_neigh l /\ lv_size l = NHDP_MAXIMUM_DOMAINS;
  lk_link_partner x l y : sh_links sh !! x = Some l -> lv_partner l = Some y -> exists l', sh_links sh !! y = Some l' /\ lv_partner l' = Some x;
  lk_neigh x n : sh_neighs sh !! x = Some n -> nv_size n = NHDP_MAXIMUM_DOMAINS;
  lk_neigh_partner x n y : sh_neighs sh !! x = Some n -> nv_partner n = Some y -> exists n', sh_neighs sh !! y = Some n' /\ nv_partner n' = Some x;
}.
#[global] Arguments lk_naddr {sh}.
#[global] Arguments lk_laddr {sh}.
#[global] Arguments lk_l2hop {sh}.
#[global] Arguments lk_link {sh}.
#[global] Arguments lk_link_partner {sh}.
#[global] Arguments lk_neigh {sh}.
#[global] Arguments lk_neigh_partner {sh}.

(** The objects with a timer of each kind. *)
Definition has_timer (sh : shape) (k : timer_kind) (p : ptr) : Prop :=
  match k with
  | Lost_vtime => is_Some (sh_naddrs sh !! p)
  | L2hop_vtime => is_Some (sh_l2hops sh !! p)
  | Sym_time | Heard_time | Link_vtime => is_Some (sh_links sh !! p)
  end.

(** The domains have a place in the arrays and a metric. *)
Definition domains_there (r : registry) : Prop :=
  Forall (fun d => (index d < NHDP_MAXIMUM_DOMAINS)%nat /\ is_Some (metric_mem r !! metric d)) (_domain_list r).

Lemma timer_at_inj k p k' p' : timer_at k p = timer_at k' p' -> k = k' /\ p = p'.
Proof. destruct k, k'; simpl; intros E; try discriminate; injection E; auto. Qed.

(** * Changes of trees *)

(** The node of [x] taken out of, and put into, the trees [ts]. *)
Definition drop_node (x : ptr) (ts : list tree_id) (tr : gmap tree_id (list ptr)) : gmap tree_id (list ptr) :=
  foldr (alter (filter (fun y => y <> x))) tr ts.

#[global] Arguments drop_node : simpl never.

Lemma drop_node_lookup x ts tr t : drop_node x ts tr !! t = (if decide (t ∈ ts) then filter (fun y => y <> x) <$> tr !! t else tr !! t).
Proof.
  unfold drop_node. induction ts as [|u ts IH]; cbn [foldr]; [by rewrite decide_False by apply not_elem_of_nil|].
  destruct (decide (t = u)) as [->|Hne].
  - rewrite lookup_alter_eq, IH, (decide_True (P := u ∈ u :: ts)) by left.
    destruct (decide (u ∈ ts)); [|done]. destruct (tr !! u) as [l|]; [simpl|done]. f_equal. rewrite list_filter_filter. apply list_filter_iff. tauto.
  - rewrite lookup_alter_ne, IH by done. assert (t ∈ u :: ts <-> t ∈ ts) as Hiff by (rewrite elem_of_cons; tauto).
    by rewrite (decide_ext _ _ _ _ Hiff).
Qed.

Lemma is_Some_fmap_if (P : Prop) `{Decision P} {A} (f : A -> A) (o : option A) : is_Some (if decide P then f <$> o else o) <-> is_Some o.
Proof. destruct (decide P); [by rewrite fmap_is_Some|done]. Qed.

Section placed.
Context (sh sh' : shape).

(** Nothing in the trees changes: another shape with the same nodes. *)
Lemma placed_same at_ at' tr : placed sh at_ tr -> (forall t x, is_Some (tr !! t) -> at' t x <-> at_ t x) ->
  (forall t x, sorted_tree t = true -> at_ t x -> shape_key sh' t x = shape_key sh t x) ->
  (forall t, head_alive sh' t <-> head_alive sh t) -> placed sh' at' tr.
Proof.
  intros H Hat Hk Hh. split.
  - intros t l Hl. by apply (pl_nodup H t).
  - intros t l x Hl. rewrite Hat by eauto. by apply (pl_mem H).
  - intros t l Hl Hs. eapply tree_strict_key_ext; [|by apply (pl_strict H t l)]. intros x Hx. apply Hk; [done|]. by apply (pl_mem H t l).
  - intros t. rewrite Hh. apply (pl_head H).
Qed.

Lemma placed_drop at_ at' x ts tr : placed sh at_ tr -> (forall t y, at' t y <-> at_ t y /\ ~ (y = x /\ t ∈ ts)) ->
  (forall t y, sorted_tree t = true -> at' t y -> shape_key sh' t y = shape_key sh t y) ->
  (forall t, head_alive sh' t <-> head_alive sh t) -> placed sh' at' (drop_node x ts tr).
Proof.
  intros H Hat Hk Hh. assert (forall t l', drop_node x ts tr !! t = Some l' -> exists l, tr !! t = Some l /\
    l' = if decide (t ∈ ts) then filter (fun y => y <> x) l else l) as Hl.
  { intros t l'. rewrite drop_node_lookup. destruct (decide (t ∈ ts)).
    - intros (l & E & ->)%fmap_Some_1. eauto.
    - intros E. eauto. }
  split.
  - intros t l' (l & El & ->)%Hl. destruct (decide _); [apply NoDup_filter|]; by apply (pl_nodup H t).
  - intros t l' y (l & El & ->)%Hl. rewrite Hat, <- (pl_mem H t l y El). destruct (decide (t ∈ ts)); [rewrite elem_of_filter_ne|]; tauto.
  - intros t l' Hl' Hs. destruct (Hl t l' Hl') as (l & El & E). eapply (tree_strict_key_ext (shape_key sh t)).
    + intros y Hy. apply Hk; [done|]. rewrite Hat, <- (pl_mem H t l y El). rewrite E in Hy. destruct (decide (t ∈ ts)); [apply elem_of_filter_ne in Hy|]; tauto.
    + rewrite E. destruct (decide (t ∈ ts)); [apply tree_strict_filter|]; by apply (pl_strict H t l).
  - intros t. rewrite drop_node_lookup, is_Some_fmap_if, Hh. apply (pl_head H).
Qed.

(** Trees that come or go with their object are empty. *)
Lemma placed_init at_ at' ts tr : placed sh at_ tr -> (forall t y, at' t y <-> at_ t y) -> (forall t y, t ∈ ts -> ~ at_ t y) ->
  (forall t y, sorted_tree t = true -> at_ t y -> shape_key sh' t y = shape_key sh t y) ->
  (forall t, head_alive sh' t <-> t ∈ ts \/ head_alive sh t) -> placed sh' at' (foldr (fun t => <[t := []]>) tr ts).
Proof.
  intros H Hat Hts Hk Hh. assert (forall t, foldr (fun t => <[t := []]>) tr ts !! t = if decide (t ∈ ts) then Some [] else tr !! t) as Hl.
  { clear. intros t. induction ts as [|u ts IH]; cbn [foldr]; [by rewrite decide_False by apply not_elem_of_nil|].
    destruct (decide (t = u)) as [->|Hne]; [by rewrite lookup_insert_eq, decide_True by left|].
    rewrite lookup_insert_ne, IH by done. assert (t ∈ u :: ts <-> t ∈ ts) as Hiff by (rewrite elem_of_cons; tauto).
    by rewrite (decide_ext _ _ _ _ Hiff). }
  split; intros t.
  - intros l. rewrite Hl. destruct (decide _); [intros [= <-]; constructor|apply (pl_nodup H)].
  - intros l y. rewrite Hl, Hat. destruct (decide _) as [Ht|]; [intros [= <-]|apply (pl_mem H)].
    rewrite elem_of_nil. split; [done|]. by apply Hts.
  - intros l. rewrite Hl. destruct (decide _); [intros [= <-] _; constructor|]. intros El Hs.
    eapply tree_strict_key_ext; [|by apply (pl_strict H t l)]. intros x Hx. apply Hk; [done|]. by apply (pl_mem H t l).
  - rewrite Hl, Hh. destruct (decide (t ∈ ts)) as [Ht|Ht]; [split; [by left|by eexists]|]. rewrite (pl_head H). tauto.
Qed.

Lemma placed_free at_ at' ts tr : placed sh at_ tr -> (forall t y, t ∉ ts -> at' t y <-> at_ t y) ->
  (forall t y, sorted_tree t = true -> at_ t y -> t ∉ ts -> shape_key sh' t y = shape_key sh t y) ->
  (forall t, head_alive sh' t <-> t ∉ ts /\ head_alive sh t) -> placed sh' at' (foldr delete tr ts).
Proof.
  intros H Hat Hk Hh. assert (forall t, foldr delete tr ts !! t = if decide (t ∈ ts) then None else tr !! t) as Hl.
  { clear. intros t. induction ts as [|u ts IH]; cbn [foldr]; [by rewrite decide_False by apply not_elem_of_nil|].
    destruct (decide (t = u)) as [->|Hne]; [by rewrite lookup_delete_eq, decide_True by left|].
    rewrite lookup_delete_ne, IH by done. assert (t ∈ u :: ts <-> t ∈ ts) as Hiff by (rewrite elem_of_cons; tauto).
    by rewrite (decide_ext _ _ _ _ Hiff). }
  split; intros t.
  - intros l. rewrite Hl. destruct (decide _); [done|apply (pl_nodup H)].
  - intros l y. rewrite Hl. destruct (decide _) as [|Ht]; [done|]. rewrite Hat by done. apply (pl_mem H).
  - intros l. rewrite Hl. destruct (decide _) as [|Ht]; [done|]. intros El Hs.
    eapply tree_strict_key_ext; [|by apply (pl_strict H t l)]. intros x Hx. apply Hk; [done| |done]. by apply (pl_mem H t l).
  - rewrite Hl, Hh. destruct (decide (t ∈ ts)) as [Ht|Ht]; [split; [by intros []|tauto]|]. rewrite (pl_head H). tauto.
Qed.
End placed.

(** * What operations change *)

Inductive field := F_neighs | F_naddrs | F_links | F_laddrs | F_l2hops | F_ifs | F_trees | F_set_id | F_doms | F_timers.

#[export] Instance field_eq_dec : EqDecision field.
Proof. solve_decision. Defined.

Definition same (f : field) (s s' : nhdp_db) : Prop :=
  match f with
  | F_neighs => neighs s' = neighs s | F_naddrs => naddrs s' = naddrs s | F_links => links s' = links s
  | F_laddrs => laddrs s' = laddrs s | F_l2hops => l2hops s' = l2hops s | F_ifs => ifs s' = ifs s
  | F_trees => trees s' = trees s | F_set_id => set_id s' = set_id s | F_doms => doms s' = doms s | F_timers => timers s' = timers s
  end.

(** Only the fields [fs] may differ, besides the trace and the allocator. *)
Definition frame (fs : list field) (s s' : nhdp_db) : Prop :=
  (forall f, f ∉ fs -> same f s s') /\ orig_v4 s' = orig_v4 s /\ orig_v6 s' = orig_v6 s.

Lemma frame_refl fs s : frame fs s s.
Proof. split; [|done]. by intros []. Qed.

Lemma frame_trans fs s s1 s2 : frame fs s s1 -> frame fs s1 s2 -> frame fs s s2.
Proof.
  intros [H1 [E1 E2]] [H2 [E3 E4]]. split; [|split; congruence]. intros f Hf. specialize (H1 f Hf). specialize (H2 f Hf).
  destruct f; simpl in *; congruence.
Qed.

Lemma frame_weaken fs fs' s s' : frame fs s s' -> fs ⊆ fs' -> frame fs' s s'.
Proof. intros [H1 H2] Hs. split; [|done]. intros f Hf. apply H1. auto. Qed.

Lemma frame_shape fs s s' : frame fs s s' -> F_neighs ∉ fs -> F_naddrs ∉ fs -> F_links ∉ fs -> F_laddrs ∉ fs -> F_l2hops ∉ fs -> F_ifs ∉ fs ->
  shape_of s' = shape_of s.
Proof.
  intros [H _] H1 H2 H3 H4 H5 H6. unfold shape_of.
  by rewrite (H F_neighs H1 : neighs s' = _), (H F_naddrs H2 : naddrs s' = _), (H F_links H3 : links s' = _), (H F_laddrs H4 : laddrs s' = _),
    (H F_l2hops H5 : l2hops s' = _), (H F_ifs H6 : ifs s' = _).
Qed.

(** Closes [f ∉ fs] and [fs ⊆ fs'] for given fields. *)
Ltac fields := first [by apply (bool_decide_unpack _); vm_compute | intros ?; rewrite !elem_of_cons, !elem_of_nil; naive_solver].

(** The frame of a step that is explicit. *)
Ltac explicit_frame := split; [let f := fresh in let H := fresh in intros f H; destruct f; solve [done | exfalso; apply H; repeat (first [left | right])]|done].

(** * Consistency *)

(** The nodes that are in the trees: where they belong, but for those of [X]. *)
Definition at_home (X : gset (tree_id * ptr)) (sh : shape) (t : tree_id) (x : ptr) : Prop := home sh t x /\ (t, x) ∉ X.

Section consistent.
Context (max_interval : Z) (timer_info : timer_kind -> positive).

Record timers_ok (A : timer_kind -> ptr -> Prop) (ts : timer_state) : Prop := {
  ti_wf : timer_wf max_interval ts;
  ti_class k : exists c, classes ts !! timer_info k = Some c /\ periodic c = false;
  ti_at k p i : instances ts !! timer_at k p = Some i -> A k p /\ class i = timer_info k /\ jitter_pct i = 0;
  ti_there k p : A k p -> is_Some (instances ts !! timer_at k p);
  ti_sym p i : instances ts !! timer_at Sym_time p = Some i -> _clock i <= 2 ^ 62 + 2 ^ 57;
}.

Record consistent (X : gset (tree_id * ptr)) (s : nhdp_db) : Prop := {
  co_placed : placed (shape_of s) (at_home X (shape_of s)) (trees s);
  co_linked : linked (shape_of s);
  co_timers : timers_ok (has_timer (shape_of s)) (timers s);
  co_domains : domains_there (doms s);
}.
End consistent.
#[global] Arguments ti_wf {max_interval timer_info A ts}.
#[global] Arguments ti_class {max_interval timer_info A ts}.
#[global] Arguments ti_at {max_interval timer_info A ts}.
#[global] Arguments ti_sym {max_interval timer_info A ts}.
#[global] Arguments ti_there {max_interval timer_info A ts}.
#[global] Arguments co_placed {max_interval timer_info X s}.
#[global] Arguments co_linked {max_interval timer_info X s}.
#[global] Arguments co_timers {max_interval timer_info X s}.
#[global] Arguments co_domains {max_interval timer_info X s}.

(** ** Objects that go away *)

(** Where a vanished object was. *)
Ltac gone := intros t y; destruct t; unfold at_home; simpl; unfold is_Some; repeat setoid_rewrite lookup_delete_Some; set_unfold; naive_solver.

Ltac destruct_exis := repeat match goal with H : exists _, _ |- _ => destruct H | H : _ /\ _ |- _ => destruct H end.

(** The keys of the other ones. *)
Ltac keys_kept := let Hs := fresh in let Hat := fresh in
  intros [] ? Hs Hat; try done; unfold at_home in Hat; simpl in Hat |- *; unfold is_Some in *; destruct_exis;
  repeat match goal with H : delete _ _ !! _ = Some _ |- _ => apply lookup_delete_Some in H as [? H] end; by simplify_map_eq.

(** The heads of lists in objects that stay. *)
Ltac heads_kept := intros []; reflexivity.

Definition without_laddr (p : ptr) (sh : shape) : shape := {|
  sh_neighs := sh_neighs sh; sh_naddrs := sh_naddrs sh; sh_links := sh_links sh; sh_laddrs := delete p (sh_laddrs sh);
  sh_l2hops := sh_l2hops sh; sh_ifs := sh_ifs sh |}.
Definition without_l2hop (p : ptr) (sh : shape) : shape := {|
  sh_neighs := sh_neighs sh; sh_naddrs := sh_naddrs sh; sh_links := sh_links sh; sh_laddrs := sh_laddrs sh;
  sh_l2hops := delete p (sh_l2hops sh); sh_ifs := sh_ifs sh |}.
Definition without_naddr (p : ptr) (sh : shape) : shape := {|
  sh_neighs := sh_neighs sh; sh_naddrs := delete p (sh_naddrs sh); sh_links := sh_links sh; sh_laddrs := sh_laddrs sh;
  sh_l2hops := sh_l2hops sh; sh_ifs := sh_ifs sh |}.

Lemma drop_laddr X sh tr p a k l i : placed sh (at_home X sh) tr -> sh_laddrs sh !! p = Some (a, k) -> sh_links sh !! k = Some l -> lv_if l = Some i ->
  placed (without_laddr p sh) (at_home X (without_laddr p sh)) (drop_node p [Neigh_link_addresses (lv_neigh l); Link_addresses k; If_link_addresses i] tr).
Proof. intros H Hp Hk Hi. eapply placed_drop; [exact H|gone|keys_kept|heads_kept]. Qed.

Lemma drop_l2hop X sh tr p a k z l i : placed sh (at_home X sh) tr -> sh_l2hops sh !! p = Some (a, k, z) -> sh_links sh !! k = Some l -> lv_if l = Some i ->
  placed (without_l2hop p sh) (at_home X (without_l2hop p sh)) (drop_node p [If_twohops i; Link_2hop k] tr).
Proof. intros H Hp Hk Hi. eapply placed_drop; [exact H|gone|keys_kept|heads_kept]. Qed.

Lemma drop_naddr X sh tr p a n : placed sh (at_home X sh) tr -> sh_naddrs sh !! p = Some (a, n) ->
  placed (without_naddr p sh) (at_home X (without_naddr p sh)) (drop_node p [Neigh_addresses n; Naddr_tree] tr).
Proof. intros H Hp. eapply placed_drop; [exact H|gone|keys_kept|heads_kept]. Qed.

Lemma linked_without_laddr p sh : linked sh -> linked (without_laddr p sh).
Proof. intros H. split; simpl; try apply H. intros x a k [_ Hx]%lookup_delete_Some. by apply (lk_laddr H x a). Qed.
Lemma linked_without_l2hop p sh : linked sh -> linked (without_l2hop p sh).
Proof. intros H. split; simpl; try apply H. intros x a k z [_ Hx]%lookup_delete_Some. by apply (lk_l2hop H x a). Qed.
Lemma linked_without_naddr p sh : linked sh -> linked (without_naddr p sh).
Proof. intros H. split; simpl; try apply H. intros x a k [_ Hx]%lookup_delete_Some. by apply (lk_naddr H x a). Qed.

(** ** Objects that come *)

Definition with_laddr (p : ptr) (v : netaddr * ptr) (sh : shape) : shape := {|
  sh_neighs := sh_neighs sh; sh_naddrs := sh_naddrs sh; sh_links := sh_links sh; sh_laddrs := <[p := v]> (sh_laddrs sh);
  sh_l2hops := sh_l2hops sh; sh_ifs := sh_ifs sh |}.
Definition with_l2hop (p : ptr) (v : netaddr * ptr * nat) (sh : shape) : shape := {|
  sh_neighs := sh_neighs sh; sh_naddrs := sh_naddrs sh; sh_links := sh_links sh; sh_laddrs := sh_laddrs sh;
  sh_l2hops := <[p := v]> (sh_l2hops sh); sh_ifs := sh_ifs sh |}.
Definition with_naddr (p : ptr) (v : netaddr * ptr) (sh : shape) : shape := {|
  sh_neighs := sh_neighs sh; sh_naddrs := <[p := v]> (sh_naddrs sh); sh_links := sh_links sh; sh_laddrs := sh_laddrs sh;
  sh_l2hops := sh_l2hops sh; sh_ifs := sh_ifs sh |}.
Definition with_link (p : ptr) (v : link_view) (sh : shape) : shape := {|
  sh_neighs := sh_neighs sh; sh_naddrs := sh_naddrs sh; sh_links := <[p := v]> (sh_links sh); sh_laddrs := sh_laddrs sh;
  sh_l2hops := sh_l2hops sh; sh_ifs := sh_ifs sh |}.
Definition with_neigh (p : ptr) (v : neigh_view) (sh : shape) : shape := {|
  sh_neighs := <[p := v]> (sh_neighs sh); sh_naddrs := sh_naddrs sh; sh_links := sh_links sh; sh_laddrs := sh_laddrs sh;
  sh_l2hops := sh_l2hops sh; sh_ifs := sh_ifs sh |}.

(** One more node. *)
Definition plus_node (t : tree_id) (x : ptr) (at_ : tree_id -> ptr -> Prop) : tree_id -> ptr -> Prop :=
  fun u y => at_ u y \/ u = t /\ y = x.

Lemma placed_set sh at_ tr t x l : placed sh at_ tr -> is_Some (tr !! t) -> NoDup l -> (forall y, y ∈ l <-> at_ t y \/ y = x) ->
  (sorted_tree t = true -> tree_strict (shape_key sh t) avl_comp_netaddr l) -> placed sh (plus_node t x at_) (<[t := l]> tr).
Proof.
  intros H Ht Hn Hl Hs. split; intros u.
  - intros l'. destruct (decide (u = t)) as [->|Hu]; [rewrite lookup_insert_eq; by intros [= <-]|].
    rewrite lookup_insert_ne by done. apply (pl_nodup H).
  - intros l' y. unfold plus_node. destruct (decide (u = t)) as [->|Hu]; [rewrite lookup_insert_eq; intros [= <-]; rewrite Hl; tauto|].
    rewrite lookup_insert_ne by done. intros E. rewrite (pl_mem H u l' y E). naive_solver.
  - intros l'. destruct (decide (u = t)) as [->|Hu]; [rewrite lookup_insert_eq; by intros [= <-]|].
    rewrite lookup_insert_ne by done. apply (pl_strict H).
  - rewrite <- (pl_head H). destruct (decide (u = t)) as [->|Hu]; [rewrite lookup_insert_eq|by rewrite lookup_insert_ne]. by split.
Qed.

Lemma placed_insert s at_ t x l : placed (shape_of s) at_ (trees s) -> trees s !! t = Some l -> ~ at_ t x -> sorted_tree t || allow_dups t = true ->
  (forall y, sorted_tree t = true -> at_ t y -> shape_key (shape_of s) t y <> shape_key (shape_of s) t x) ->
  placed (shape_of s) (plus_node t x at_) (<[t := tree_add s t x l]> (trees s)).
Proof.
  intros H Hl Hx Ht Hk. pose proof (pl_nodup H t l Hl) as Hn. assert (x ∉ l) as Hxl by by rewrite (pl_mem H t l x Hl).
  unfold tree_add. destruct (allow_dups t) eqn:Ed.
  - apply placed_set; [done|by eexists|..].
    + rewrite tree_insert_dup_perm. by constructor.
    + intros y. rewrite tree_insert_dup_perm, elem_of_cons, (pl_mem H t l y Hl). tauto.
    + by destruct t.
  - destruct (sorted_tree t) eqn:Es; [|by rewrite orb_false_r in Ht || done].
    assert (forall y, tree_key s t y = shape_key (shape_of s) t y) as Ek by (intros; by apply tree_key_shape).
    destruct (inserted_spec (tree_key s t) avl_comp_netaddr x l) as [Hs Hin].
    + eapply tree_strict_key_ext; [intros y _; apply Ek|by apply (pl_strict H t)].
    + intros y Hy E. apply netaddr_cmp_eq in E. rewrite !Ek in E. by apply (Hk y); [|apply (pl_mem H t l y Hl)|].
    + apply placed_set; [done|by eexists|..].
      * unfold inserted. destruct (tree_insert_new (tree_key s t) avl_comp_netaddr x l) as (l' & -> & Hp); [|simpl; rewrite Hp; by constructor].
        apply (tree_find_spec _ _ _ _ None); [eapply tree_strict_key_ext; [intros y _; apply Ek|by apply (pl_strict H t)]|].
        intros y Hy E. apply netaddr_cmp_eq in E. rewrite !Ek in E. by apply (Hk y); [|apply (pl_mem H t l y Hl)|].
      * intros y. rewrite Hin, (pl_mem H t l y Hl). tauto.
      * intros _. eapply tree_strict_key_ext; [|exact Hs]. intros y _. by rewrite Ek.
Qed.

Lemma placed_tail sh at_ tr t x l : placed sh at_ tr -> tr !! t = Some l -> ~ at_ t x -> sorted_tree t = false ->
  placed sh (plus_node t x at_) (<[t := l ++ [x]]> tr).
Proof.
  intros H Hl Hx Ht. apply placed_set; [done|by eexists|..].
  - apply NoDup_app. split; [by apply (pl_nodup H t)|]. split; [|apply NoDup_singleton].
    intros y Hy ->%list_elem_of_singleton. by apply Hx, (pl_mem H t l x Hl).
  - intros y. rewrite elem_of_app, list_elem_of_singleton, (pl_mem H t l y Hl). tauto.
  - by rewrite Ht.
Qed.

(** Changes that concern no tree: partners, sizes. *)
Record same_places (sh sh' : shape) : Prop := {
  sp_neighs x : nv_originator <$> sh_neighs sh' !! x = nv_originator <$> sh_neighs sh !! x;
  sp_naddrs : sh_naddrs sh' = sh_naddrs sh;
  sp_links x : (fun l => (lv_neigh l, lv_if l)) <$> sh_links sh' !! x = (fun l => (lv_neigh l, lv_if l)) <$> sh_links sh !! x;
  sp_laddrs : sh_laddrs sh' = sh_laddrs sh;
  sp_l2hops x : fst <$> sh_l2hops sh' !! x = fst <$> sh_l2hops sh !! x;
  sp_ifs : sh_ifs sh' = sh_ifs sh;
}.

Lemma same_places_sym sh sh' : same_places sh sh' -> same_places sh' sh.
Proof. intros []. by split. Qed.

Lemma places_neigh sh sh' x n : same_places sh sh' -> sh_neighs sh !! x = Some n ->
  exists n', sh_neighs sh' !! x = Some n' /\ nv_originator n' = nv_originator n.
Proof. intros H E. pose proof (sp_neighs _ _ H x) as Ex. rewrite E in Ex. apply fmap_Some in Ex as (n' & ? & ?). eauto. Qed.

Lemma places_link sh sh' x l : same_places sh sh' -> sh_links sh !! x = Some l ->
  exists l', sh_links sh' !! x = Some l' /\ lv_neigh l' = lv_neigh l /\ lv_if l' = lv_if l.
Proof. intros H E. pose proof (sp_links _ _ H x) as Ex. rewrite E in Ex. apply fmap_Some in Ex as (l' & ? & [= ? ?]). eauto. Qed.

Lemma places_l2hop sh sh' x a k z : same_places sh sh' -> sh_l2hops sh !! x = Some (a, k, z) -> exists z', sh_l2hops sh' !! x = Some (a, k, z').
Proof. intros H E. pose proof (sp_l2hops _ _ H x) as Ex. rewrite E in Ex. apply fmap_Some in Ex as ([[a' k'] z'] & ? & [= <- <-]). eauto. Qed.

Lemma places_home sh sh' t x : same_places sh sh' -> home sh t x -> home sh' t x.
Proof.
  intros H. destruct t; simpl; rewrite ?(sp_naddrs _ _ H), ?(sp_laddrs _ _ H); try done; unfold is_Some; intros Hh; destruct_exis; subst;
  repeat match goal with
    | E : sh_neighs sh !! _ = Some _ |- _ => destruct (places_neigh _ _ _ _ H E) as (? & ? & ?); clear E
    | E : sh_links sh !! _ = Some _ |- _ => destruct (places_link _ _ _ _ H E) as (? & ? & ? & ?); clear E
    | E : sh_l2hops sh !! _ = Some _ |- _ => destruct (places_l2hop _ _ _ _ _ _ H E) as (? & ?); clear E
  end; repeat match goal with E : _ = lv_neigh _ |- _ => rewrite <- E in * | E : _ = lv_if _ |- _ => rewrite <- E in * | E : _ = nv_originator _ |- _ => rewrite <- E in * end;
  naive_solver.
Qed.

Lemma places_placed X sh sh' tr : same_places sh sh' -> placed sh (at_home X sh) tr -> placed sh' (at_home X sh') tr.
Proof.
  intros H HP. pose proof (same_places_sym _ _ H) as H'. eapply placed_same; [exact HP|..].
  - intros t x _. unfold at_home. split; intros [? ?]; (split; [|done]); by eapply places_home.
  - intros t x Hs _. destruct t; try done; simpl; rewrite ?(sp_naddrs _ _ H), ?(sp_laddrs _ _ H), ?(sp_neighs _ _ H); try done.
    pose proof (sp_l2hops _ _ H x) as E. destruct (sh_l2hops sh !! x), (sh_l2hops sh' !! x); simpl in *; congruence.
  - intros t. destruct t; simpl; rewrite ?(sp_ifs _ _ H); try done;
    first [rewrite <- !(fmap_is_Some nv_originator); by rewrite (sp_neighs _ _ H)|
      rewrite <- !(fmap_is_Some (fun l => (lv_neigh l, lv_if l))); by rewrite (sp_links _ _ H)].
Qed.

(** Reading, inserting and removing, as steps of a proof. *)
Local Open Scope state_scope.

Lemma get_tree_wp s t l Q : trees s !! t = Some l -> Q l s -> wp (get_tree t) s Q.
Proof. intros Hl HQ. unfold wp, get_tree. by rewrite Hl. Qed.

Lemma placed_tree s sh at_ t : placed sh at_ (trees s) -> head_alive sh t -> exists l, trees s !! t = Some l.
Proof. intros H Ht. by apply (pl_head H) in Ht. Qed.

Lemma insert_wp s at_ t x (Q : unit -> nhdp_db -> Prop) : placed (shape_of s) at_ (trees s) -> head_alive (shape_of s) t -> ~ at_ t x -> sorted_tree t || allow_dups t = true ->
  (forall y, sorted_tree t = true -> at_ t y -> shape_key (shape_of s) t y <> shape_key (shape_of s) t x) ->
  (forall l, trees s !! t = Some l -> placed (shape_of s) (plus_node t x at_) (<[t := tree_add s t x l]> (trees s)) -> Q tt (set_trees <[t := tree_add s t x l]> s)) ->
  wp (avl_insert t x) s Q.
Proof.
  intros H Ht Hx Hs Hk HQ. destruct (placed_tree s _ _ t H Ht) as [l Hl]. unfold avl_insert, put_tree.
  apply wp_seq. eapply get_tree_wp; [exact Hl|]. wp_steps. apply HQ; [done|]. by apply placed_insert.
Qed.

Lemma tail_wp s at_ t x (Q : unit -> nhdp_db -> Prop) : placed (shape_of s) at_ (trees s) -> head_alive (shape_of s) t -> ~ at_ t x -> sorted_tree t = false ->
  (forall l, trees s !! t = Some l -> placed (shape_of s) (plus_node t x at_) (<[t := l ++ [x]]> (trees s)) -> Q tt (set_trees <[t := l ++ [x]]> s)) ->
  wp (list_add_tail t x) s Q.
Proof.
  intros H Ht Hx Hs HQ. destruct (placed_tree s _ _ t H Ht) as [l Hl]. unfold list_add_tail, put_tree.
  apply wp_seq. eapply get_tree_wp; [exact Hl|]. wp_steps. apply HQ; [done|]. by apply placed_tail.
Qed.

(** Removing one node after the other; [ts] are the trees it was taken out of. *)
Lemma tree_remove_wp s tr ts t x at_ sh (Q : unit -> nhdp_db -> Prop) : trees s = drop_node x ts tr -> placed sh at_ tr -> head_alive sh t -> at_ t x -> t ∉ ts ->
  (forall s', s' = set_trees (fun _ => drop_node x (t :: ts) tr) s -> Q tt s') -> wp (tree_remove t x) s Q.
Proof.
  intros E H Ht Hx Hts HQ. apply (pl_head H) in Ht as [l Hl]. unfold tree_remove, put_tree.
  assert (trees s !! t = Some l) as El by (rewrite E, drop_node_lookup; by rewrite decide_False by done).
  apply wp_seq. eapply get_tree_wp; [exact El|]. apply wp_seq. eapply wp_lift; [apply removed_in; by apply (pl_mem H t l x Hl)|].
  wp_steps. apply HQ. unfold set_trees. simpl. f_equal. rewrite E. change (drop_node x (t :: ts) tr) with (alter (filter (fun y => y <> x)) t (drop_node x ts tr)).
  apply map_eq. intros u. destruct (decide (u = t)) as [->|Hu].
  - by rewrite lookup_insert_eq, lookup_alter_eq, <- E, El.
  - by rewrite lookup_insert_ne, lookup_alter_ne by done.
Qed.

(** ** Timers *)

Definition is_active (ts : timer_state) (k : timer_kind) (p : ptr) : bool :=
  match instances ts !! timer_at k p with Some i => oonf_timer_is_active i | None => false end.

(** Only the timer [k] of [p] is another one. *)
Record timer_changed (k : timer_kind) (p : ptr) (ts ts' : timer_state) : Prop := {
  tc_now : now_times ts' = now_times ts;
  tc_other k' p' : (k', p') <> (k, p) -> is_active ts' k' p' = is_active ts k' p';
}.
#[global] Arguments tc_now {k p ts ts'}.
#[global] Arguments tc_other {k p ts ts'}.

Section timers.
Context (os_core_get_random : nat -> option Z) (random_u32 : forall n r, os_core_get_random n = Some r -> 0 <= r <= UINT32_MAX).
Context (max_interval : Z) (max_interval_range : 0 <= max_interval <= 2 ^ 56).
Context (timer_info : timer_kind -> positive).
#[local] Notation timers_ok := (timers_ok max_interval timer_info).

Lemma active_insert ts ts' k p i : instances ts' = <[timer_at k p := i]> (instances ts) -> now_times ts' = now_times ts -> timer_changed k p ts ts'.
Proof.
  intros E En. split; [done|]. intros k' p' Hne. unfold is_active. rewrite E, lookup_insert_ne; [done|].
  intros [-> ->]%timer_at_inj. done.
Qed.

Lemma timers_rescheduled A ts ts' k p i i' : timers_ok A ts -> instances ts !! timer_at k p = Some i -> rescheduled max_interval (timer_at k p) ts i' ts' ->
  class i' = class i -> jitter_pct i' = 0 -> (k = Sym_time -> _clock i' <= 2 ^ 62 + 2 ^ 57) -> timers_ok A ts'.
Proof.
  intros H Hi Hr Hc Hj Hsym. split.
  - apply Hr.
  - intros k'. destruct (ti_class H k') as (c & Hc1 & Hp). destruct (rs_classes _ _ _ _ _ Hr _ _ Hc1) as (c' & ? & ?). exists c'. split; [done|congruence].
  - intros k' p' j. rewrite (rs_instances _ _ _ _ _ Hr). destruct (decide (timer_at k' p' = timer_at k p)) as [E|E].
    + rewrite E, lookup_insert_eq. intros [= <-]. apply timer_at_inj in E as [-> ->]. destruct (ti_at H k p i Hi) as (? & ? & ?). by split_and!; [|congruence|].
    + rewrite lookup_insert_ne by done. apply (ti_at H).
  - intros k' p' Ha. rewrite (rs_instances _ _ _ _ _ Hr). destruct (decide (timer_at k' p' = timer_at k p)) as [->|E].
    + rewrite lookup_insert_eq. by eexists.
    + rewrite lookup_insert_ne by done. by apply (ti_there H).
  - intros p' j. rewrite (rs_instances _ _ _ _ _ Hr). destruct (decide (timer_at Sym_time p' = timer_at k p)) as [E|E].
    + rewrite E, lookup_insert_eq. intros [= <-]. apply timer_at_inj in E as [<- _]. by apply Hsym.
    + rewrite lookup_insert_ne by done. apply (ti_sym H).
Qed.

Lemma timer_set_wp A s k p t (Q : unit -> nhdp_db -> Prop) : timers_ok A (timers s) -> A k p -> 0 <= t <= max_interval ->
  (forall ts', timers_ok A ts' -> timer_changed k p (timers s) ts' -> is_active ts' k p = negb (t =? 0) -> Q tt (set_timers ts' s)) ->
  wp (timer_set os_core_get_random k p t) s Q.
Proof.
  intros H Ha Ht HQ. destruct (ti_there H k p Ha) as [i Hi]. destruct (ti_at H k p i Hi) as (_ & Hc & Hj).
  destruct (validity_set_spec os_core_get_random random_u32 max_interval max_interval_range (timers s) _ i t (ti_wf H) Hi Hj Ht)
    as (ts' & i' & E & Hr & Hc' & Hj' & H0 & H1).
  unfold timer_set. wp_steps. eapply wp_lift; [exact E|]. wp_steps. apply HQ.
  - eapply timers_rescheduled; try done. intros _. destruct (decide (t = 0)) as [E0|E0]; [rewrite (H0 E0); lia|].
    pose proof (H1 E0) as Hclk. pose proof (inv_now _ _ _ (ti_wf H)). unfold OONF_TIMER_SLICE in *. lia.
  - eapply active_insert; [apply Hr|apply Hr].
  - unfold is_active. rewrite (rs_instances _ _ _ _ _ Hr), lookup_insert_eq. unfold oonf_timer_is_active.
    destruct (Z.eqb_spec t 0) as [E0|E0]; [by rewrite (H0 E0)|]. pose proof (H1 E0) as Hclk.
    assert (0 <= now_times (timers s)) as Hnow by (pose proof (ti_wf H) as Hwf; apply Hwf).
    destruct (Z.eqb_spec (_clock i') 0); [lia|done].
Qed.

(** A deadline that may be in the past. *)
Lemma timer_set_any_wp A s k p t (Q : unit -> nhdp_db -> Prop) : timers_ok A (timers s) -> A k p -> (k = Sym_time -> s64 t <= 2 ^ 56) -> t <> 0 ->
  0 <= now_times (timers s) + s64 t <= 2 ^ 63 ->
  (forall ts', timers_ok A ts' -> timer_changed k p (timers s) ts' -> is_active ts' k p = true -> Q tt (set_timers ts' s)) ->
  wp (timer_set os_core_get_random k p t) s Q.
Proof.
  intros H Ha Hk Ht Hnow HQ. destruct (ti_there H k p Ha) as [i Hi]. destruct (ti_at H k p i Hi) as (_ & Hc & Hj).
  destruct (validity_set_any os_core_get_random random_u32 max_interval max_interval_range (timers s) _ i t (ti_wf H) Hi Hj) as (ts' & i' & E & Hr & Hc' & Hj' & H1);
    [|done|done|].
  { intros c Hcls. destruct (ti_class H k) as (c' & Ec' & Hper). congruence. }
  unfold timer_set. wp_steps. eapply wp_lift; [exact E|]. wp_steps. apply HQ.
  - eapply timers_rescheduled; try done. intros Es. pose proof (inv_now _ _ _ (ti_wf H)). specialize (Hk Es). unfold OONF_TIMER_SLICE in *. lia.
  - eapply active_insert; [apply Hr|apply Hr].
  - unfold is_active. rewrite (rs_instances _ _ _ _ _ Hr), lookup_insert_eq. unfold oonf_timer_is_active.
    destruct (Z.eqb_spec (_clock i') 0); [lia|done].
Qed.

Lemma timer_set_time_wp A s k p t (Q : unit -> nhdp_db -> Prop) : timers_ok A (timers s) -> A k p -> (k = Sym_time -> s64 t <= 2 ^ 56) ->
  0 <= now_times (timers s) + s64 t <= 2 ^ 63 ->
  (forall ts', timers_ok A ts' -> timer_changed k p (timers s) ts' -> is_active ts' k p = negb (t =? 0) -> Q tt (set_timers ts' s)) ->
  wp (timer_set os_core_get_random k p t) s Q.
Proof.
  intros H Ha Hk Hnow HQ. destruct (Z.eqb_spec t 0) as [->|Ht]; [apply (timer_set_wp A); [done|done|lia|done]|].
  apply (timer_set_any_wp A); [done..|]. simpl in HQ. done.
Qed.

Lemma timer_stop_wp A s k p (Q : unit -> nhdp_db -> Prop) : timers_ok A (timers s) -> A k p ->
  (forall ts', timers_ok A ts' -> timer_changed k p (timers s) ts' -> is_active ts' k p = false -> Q tt (set_timers ts' s)) ->
  wp (timer_stop k p) s Q.
Proof.
  intros H Ha HQ. destruct (ti_there H k p Ha) as [i Hi]. destruct (ti_at H k p i Hi) as (_ & Hc & Hj).
  destruct (validity_stop_spec os_core_get_random random_u32 max_interval max_interval_range (timers s) _ i (ti_wf H) Hi Hj)
    as (ts' & i' & E & Hr & Hc' & Hj' & H0).
  unfold timer_stop. wp_steps. eapply wp_lift; [exact E|]. wp_steps. apply HQ.
  - eapply timers_rescheduled; try done. intros _. rewrite H0. lia.
  - eapply active_insert; [apply Hr|apply Hr].
  - unfold is_active. rewrite (rs_instances _ _ _ _ _ Hr), lookup_insert_eq. unfold oonf_timer_is_active. by rewrite H0.
Qed.

Lemma timer_active_wp A s k p (Q : bool -> nhdp_db -> Prop) : timers_ok A (timers s) -> A k p ->
  Q (is_active (timers s) k p) s -> wp (timer_is_active k p) s Q.
Proof.
  intros H Ha HQ. destruct (ti_there H k p Ha) as [i Hi]. unfold timer_is_active. wp_steps.
  eapply wp_lift; [unfold get_timer; by rewrite Hi|]. wp_steps. unfold is_active in HQ. by rewrite Hi in HQ.
Qed.

(** A new object and its timer. *)
Lemma timers_alloc A A' ts k p : timers_ok A ts -> ~ A k p -> (forall k' p', A' k' p' <-> A k' p' \/ (k', p') = (k, p)) ->
  timers_ok A' (put_timer (timer_at k p) (cleared_timer (timer_info k)) ts).
Proof.
  intros H Hn HA. assert (instances ts !! timer_at k p = None) as Hi.
  { destruct (instances ts !! timer_at k p) as [i|] eqn:E; [|done]. by destruct (ti_at H k p i E). }
  split.
  - apply (validity_alloc os_core_get_random random_u32 max_interval max_interval_range); [apply H|done|].
    destruct (ti_class H k) as (c & Hc & _). by exists c.
  - apply H.
  - intros k' p' j. simpl. destruct (decide (timer_at k' p' = timer_at k p)) as [E|E].
    + rewrite E, lookup_insert_eq. intros [= <-]. apply timer_at_inj in E as [-> ->]. split; [apply HA; by right|done].
    + rewrite lookup_insert_ne by done. intros (? & ? & ?)%(ti_at H). split; [apply HA; by left|done].
  - intros k' p' Ha. simpl. destruct (decide (timer_at k' p' = timer_at k p)) as [->|E].
    + rewrite lookup_insert_eq. by eexists.
    + rewrite lookup_insert_ne by done. apply (ti_there H). apply HA in Ha as [?|[= -> ->]]; done.
  - intros p' j. unfold put_timer. cbn [instances set_instances]. destruct (decide (timer_at Sym_time p' = timer_at k p)) as [E|E].
    + rewrite E, lookup_insert_eq. intros [= <-]. simpl. lia.
    + rewrite lookup_insert_ne by done. apply (ti_sym H).
Qed.

(** The timer of an object that goes away was stopped. *)
Lemma timers_free A A' ts k p : timers_ok A ts -> A k p -> is_active ts k p = false -> (forall k' p', A' k' p' <-> A k' p' /\ (k', p') <> (k, p)) ->
  timers_ok A' (set_instances (delete (timer_at k p) (instances ts)) ts).
Proof.
  intros H Ha Hact HA. destruct (ti_there H k p Ha) as [i Hi]. unfold is_active in Hact. rewrite Hi in Hact.
  apply negb_false_iff, Z.eqb_eq in Hact. split.
  - by apply (validity_free os_core_get_random random_u32 max_interval max_interval_range _ _ i); [apply H|..].
  - apply H.
  - intros k' p' j. simpl. intros [Hne Hj]%lookup_delete_Some. destruct (ti_at H _ _ _ Hj) as (? & ? & ?). split; [|done]. apply HA. split; [done|]. intros [= -> ->]. done.
  - intros k' p' [Ha' Hne]%HA. simpl. rewrite lookup_delete_ne by (intros [-> ->]%timer_at_inj; done). by apply (ti_there H).
  - intros p' j. cbn [instances set_instances]. intros [_ Hj]%lookup_delete_Some. by apply (ti_sym H p').
Qed.

Lemma timers_iff A A' ts : timers_ok A ts -> (forall k p, A' k p <-> A k p) -> timers_ok A' ts.
Proof.
  intros H HA. split; try apply H.
  - intros k p i Hi. destruct (ti_at H k p i Hi) as (? & ? & ?). by rewrite HA.
  - intros k p Ha. by apply (ti_there H), HA.
Qed.
End timers.
