(* ===== verification/NhdpPartners.v ===== *)
(** Dualstack partners in the neighborhood database of src/nhdp/nhdp/nhdp_db.c:
    two links, or two neighbors, that stand for the same node under IPv4 and IPv6
    point to each other. Connecting and disconnecting is the same code for both;
    here it is on any memory of objects with such a pointer. *)

From Stdlib Require Import ZArith Lia.
From stdpp Require Import base list numbers option gmap.
From S2P Require Import Prelude AvlSpec StateMonad.

Local Open Scope state_scope.

Section partners.
Context {St A : Type} (mem : St -> gmap ptr A) (set_mem : (gmap ptr A -> gmap ptr A) -> St -> St).
Context (partner : A -> option ptr) (with_partner : option ptr -> A -> A).
Context (mem_set : forall f s, mem (set_mem f s) = f (mem s)).
Context (set_set : forall f m s, set_mem f (set_mem (fun _ => m) s) = set_mem (fun _ => f m) s).
Context (partner_with : forall o a, partner (with_partner o a) = o).
Context (with_with : forall o o' a, with_partner o (with_partner o' a) = with_partner o a).

Definition paired (m : gmap ptr A) : Prop :=
  forall x a y, m !! x = Some a -> partner a = Some y -> exists b, m !! y = Some b /\ partner b = Some x.

(** Other partners, and nothing else. *)
Definition same_but_partners (m m' : gmap ptr A) : Prop :=
  forall x, with_partner None <$> m' !! x = with_partner None <$> m !! x.

Definition partner_at (m : gmap ptr A) (x : ptr) : option ptr := m !! x ≫= partner.

Lemma paired_partner m : paired m -> forall x y, partner_at m x = Some y -> partner_at m y = Some x.
Proof.
  intros H x y. unfold partner_at. intros (a & Ha & Hy)%bind_Some. destruct (H x a y Ha Hy) as (b & -> & ?). done.
Qed.

Lemma partner_paired m : (forall x y, partner_at m x = Some y -> is_Some (m !! y) /\ partner_at m y = Some x) -> paired m.
Proof.
  intros H x a y Ha Hy. destruct (H x y) as [[b Hb] E]; [unfold partner_at; by rewrite Ha|]. exists b. split; [done|].
  unfold partner_at in E. by rewrite Hb in E.
Qed.

Lemma same_but_trans m m1 m2 : same_but_partners m m1 -> same_but_partners m1 m2 -> same_but_partners m m2.
Proof. intros H1 H2 x. etrans; [apply H2|apply H1]. Qed.

Lemma same_but_alter k o m : same_but_partners m (alter (with_partner o) k m).
Proof.
  intros x. destruct (decide (x = k)) as [->|Hx]; [|by rewrite lookup_alter_ne].
  rewrite lookup_alter_eq. destruct (m !! k) as [a|]; [|done]. simpl. by rewrite with_with.
Qed.

Lemma same_but_alive m m' x : same_but_partners m m' -> is_Some (m' !! x) <-> is_Some (m !! x).
Proof. intros H. specialize (H x). destruct (m !! x), (m' !! x); try done; by split; eexists. Qed.

Lemma partner_alter k o m x : partner_at (alter (with_partner o) k m) x = (if decide (x = k) then m !! k ≫= (fun _ => o) else partner_at m x).
Proof.
  unfold partner_at. destruct (decide (x = k)) as [->|Hx]; [|by rewrite lookup_alter_ne].
  rewrite lookup_alter_eq. destruct (m !! k) as [a|]; [|done]. simpl. apply partner_with.
Qed.

(** [k] and its partner without partners. *)
Definition unpaired (k : ptr) (m : gmap ptr A) : gmap ptr A :=
  match partner_at m k with
  | None => m
  | Some p => alter (with_partner None) k (alter (with_partner None) p m)
  end.

Lemma unpaired_same k m : same_but_partners m (unpaired k m).
Proof. unfold unpaired. destruct (partner_at m k); [|done]. eapply same_but_trans; apply same_but_alter. Qed.

Lemma unpaired_partner k m x : partner_at (unpaired k m) x = (if decide (x = k \/ partner_at m k = Some x) then None else partner_at m x).
Proof.
  unfold unpaired. destruct (partner_at m k) as [p|] eqn:E.
  - rewrite !partner_alter. destruct (decide (x = k)) as [->|Hk]; [rewrite (decide_True (P := k = k \/ _)) by auto; by destruct (alter _ _ _ !! k)|].
    destruct (decide (x = p)) as [->|Hp]; [rewrite decide_True by auto; by destruct (m !! p)|]. rewrite decide_False; naive_solver.
  - destruct (decide _) as [[->|?]|]; done.
Qed.

Lemma unpaired_paired k m : paired m -> paired (unpaired k m).
Proof.
  intros H. pose proof (paired_partner m H) as Hp. apply partner_paired. intros x y. rewrite !unpaired_partner.
  destruct (decide (x = k \/ _)) as [|Hx]; [done|]. intros Hy. pose proof (Hp x y Hy) as Hyx. split.
  - apply (same_but_alive m); [apply unpaired_same|]. unfold partner_at in Hyx. destruct (m !! y); [by eexists|done].
  - rewrite decide_False; [done|]. intros [->|E]; [apply Hx; by right|]. apply Hp in E. naive_solver.
Qed.

(** [a] and [b] as partners. *)
Definition set_partner (a b : ptr) (m : gmap ptr A) : gmap ptr A :=
  if decide (partner_at m a = Some b) then m else alter (with_partner (Some b)) a (unpaired a m).
Definition connected (a b : ptr) (m : gmap ptr A) : gmap ptr A := set_partner b a (set_partner a b m).

Lemma set_partner_same a b m : same_but_partners m (set_partner a b m).
Proof. unfold set_partner. destruct (decide _); [done|]. eapply same_but_trans; [apply unpaired_same|apply same_but_alter]. Qed.

Lemma connected_same a b m : same_but_partners m (connected a b m).
Proof. eapply same_but_trans; apply set_partner_same. Qed.

Lemma set_partner_at a b m x : is_Some (m !! a) -> partner_at (set_partner a b m) x =
  (if decide (partner_at m a = Some b) then partner_at m x else if decide (x = a) then Some b else if decide (partner_at m a = Some x) then None else partner_at m x).
Proof.
  intros Ha. unfold set_partner. destruct (decide (partner_at m a = Some b)); [done|]. rewrite partner_alter, unpaired_partner.
  destruct (decide (x = a)) as [->|Hx].
  - apply (same_but_alive m (unpaired a m) a (unpaired_same _ _)) in Ha as [? ->]. done.
  - destruct (decide (partner_at m a = Some x)); [by rewrite decide_True by auto|]. rewrite decide_False; naive_solver.
Qed.

(** Partners as a function: what [connected] makes of it. *)
Definition joined (P : ptr -> option ptr) (a b x : ptr) : option ptr :=
  if decide (P a = Some b) then P x else if decide (x = a) then Some b else if decide (P a = Some x) then None else P x.

Lemma joined_involution P a b : (forall x y, P x = Some y -> P y = Some x) ->
  forall x y, joined (joined P a b) b a x = Some y -> joined (joined P a b) b a y = Some x.
Proof.
  intros HP. destruct (decide (P a = Some b)) as [E|E].
  { assert (forall x, joined P a b x = P x) as H1 by (intros; unfold joined; by rewrite decide_True).
    intros x y. unfold joined at 1 3. rewrite !H1, !decide_True by (by apply HP). apply HP. }
  assert (forall x, x <> a -> P a <> Some x -> joined P a b x = P x) as Hx by (intros; unfold joined; by rewrite !decide_False).
  assert (joined P a b a = Some b) as Ha by (unfold joined; by rewrite decide_False, decide_True).
  assert (forall x, P a = Some x -> x <> a -> joined P a b x = None) as Hn.
  { intros. unfold joined. rewrite decide_False, decide_False by done. by rewrite decide_True. }
  generalize dependent (joined P a b). intros P1 Hx Ha Hn. unfold joined. destruct (decide (a = b)) as [<-|Hab].
  { intros x y. rewrite !decide_True by done. destruct (decide (x = a)) as [->|Hxa]; [congruence|].
    destruct (decide (P a = Some x)) as [Ex|Ex]; [by rewrite Hn|]. rewrite Hx by done. intros Hy%HP.
    rewrite Hx; [done|by intros ->|]. intros Ey%HP. congruence. }
  assert (P1 b = P b) as Hb by (by apply Hx).
  assert (P b <> Some a) as Hba by (by intros ?%HP). rewrite Hb. intros x y. rewrite !(decide_False (P := P b = Some a)) by done.
  destruct (decide (x = b)) as [->|Hxb].
  { intros [= <-]. by rewrite !decide_False, Ha. }
  destruct (decide (P b = Some x)) as [|Hbx]; [done|]. destruct (decide (x = a)) as [->|Hxa].
  { rewrite Ha. intros [= <-]. by rewrite decide_True. }
  destruct (decide (P a = Some x)) as [Ex|Ex]; [by rewrite Hn|]. rewrite Hx by done. intros Hy%HP.
  rewrite !decide_False by naive_solver congruence. rewrite Hx; [done|by intros ->|]. intros Ey%HP. congruence.
Qed.

Lemma connected_paired a b m : paired m -> is_Some (m !! a) -> is_Some (m !! b) -> paired (connected a b m).
Proof.
  intros H Ha Hb. pose proof (paired_partner m H) as Hp.
  assert (is_Some (set_partner a b m !! b)) as Hb' by (by apply (same_but_alive m); [apply set_partner_same|]).
  assert (forall x, partner_at (connected a b m) x = joined (joined (partner_at m) a b) b a x) as Hc.
  { intros x. unfold connected. rewrite set_partner_at by done. unfold joined at 1. by rewrite !(set_partner_at a b) by done. }
  assert (forall x y, partner_at (connected a b m) x = Some y -> partner_at (connected a b m) y = Some x) as Hi.
  { intros x y. rewrite !Hc. by apply joined_involution. }
  apply partner_paired. intros x y Hxy. split; [|by apply Hi]. apply Hi in Hxy. unfold partner_at in Hxy. by destruct (connected a b m !! y).
Qed.

Lemma unpaired_lookup k m p x : partner_at m k = Some p ->
  unpaired k m !! x = (if decide (x = k \/ x = p) then with_partner None <$> m !! x else m !! x).
Proof.
  intros E. unfold unpaired. rewrite E. destruct (decide (x = k)) as [->|Hk].
  - rewrite lookup_alter_eq, decide_True by auto. destruct (decide (k = p)) as [->|Hp]; [rewrite lookup_alter_eq|by rewrite lookup_alter_ne].
    destruct (m !! p); [|done]. simpl. by rewrite with_with.
  - rewrite lookup_alter_ne by done. destruct (decide (x = p)) as [->|Hp]; [by rewrite lookup_alter_eq, decide_True by auto|].
    rewrite lookup_alter_ne, decide_False; [done| |done]. intros [?|?]; done.
Qed.

(** ** The code *)

Definition change (p : ptr) (f : A -> A) : state_M St unit := x <~ load mem p ;; modify (set_mem <[p := f x]>).

Definition disconnect (k : ptr) : state_M St unit :=
  x <~ load mem k ;;
  match partner x with
  | None => ret tt
  | Some p => change p (with_partner None) ;;; change k (with_partner None)
  end.

Definition connect (a b : ptr) : state_M St unit :=
  x <~ load mem a ;;
  (if bool_decide (partner x <> Some b) then disconnect a ;;; change a (with_partner (Some b)) else ret tt) ;;;
  y <~ load mem b ;;
  if bool_decide (partner y <> Some a) then disconnect b ;;; change b (with_partner (Some a)) else ret tt.

(** The memory is [m], the rest of the state that of [s]. *)
#[local] Notation on m s := (set_mem (fun _ => m) s).

Lemma change_wp s m p f (Q : unit -> St -> Prop) : is_Some (m !! p) -> Q tt (on (alter f p m) s) -> wp (change p f) (on m s) Q.
Proof.
  intros [x Hx] HQ. unfold change. wp_steps. eapply wp_read; [by rewrite mem_set|]. wp_steps. rewrite set_set.
  assert (<[p := f x]> m = alter f p m) as ->; [|done]. apply map_eq. intros y.
  destruct (decide (y = p)) as [->|Hy]; [by rewrite lookup_insert_eq, lookup_alter_eq, Hx|by rewrite lookup_insert_ne, lookup_alter_ne].
Qed.

Lemma disconnect_wp s m k (Q : unit -> St -> Prop) : is_Some (m !! k) -> (forall p, partner_at m k = Some p -> is_Some (m !! p)) ->
  Q tt (on (unpaired k m) s) -> wp (disconnect k) (on m s) Q.
Proof.
  intros [x Hx] Hp HQ. unfold disconnect. wp_steps. eapply wp_read; [by rewrite mem_set|].
  unfold unpaired, partner_at in *. rewrite Hx in Hp, HQ. simpl in Hp, HQ. destruct (partner x) as [p|]; [|by wp_steps].
  apply wp_seq, change_wp; [by apply Hp|]. apply change_wp; [|done].
  apply (same_but_alive m); [apply same_but_alter|by eexists].
Qed.

Lemma set_partner_wp s m a b (Q : unit -> St -> Prop) : is_Some (m !! a) -> (forall p, partner_at m a = Some p -> is_Some (m !! p)) ->
  Q tt (on (set_partner a b m) s) ->
  wp (x <~ load mem a ;; if bool_decide (partner x <> Some b) then disconnect a ;;; change a (with_partner (Some b)) else ret tt) (on m s) Q.
Proof.
  intros [x Hx] Hp HQ. wp_steps. eapply wp_read; [by rewrite mem_set|].
  unfold set_partner in HQ. assert (partner_at m a = partner x) as E by (unfold partner_at; by rewrite Hx). rewrite E in HQ.
  destruct (decide (partner x = Some b)) as [Eb|Eb].
  - rewrite bool_decide_false by tauto. by wp_steps.
  - rewrite bool_decide_true by done. apply wp_seq, disconnect_wp; [by eexists|done|].
    apply change_wp; [|done]. apply (same_but_alive m); [apply unpaired_same|by eexists].
Qed.

Lemma connect_wp s m a b (Q : unit -> St -> Prop) : paired m -> is_Some (m !! a) -> is_Some (m !! b) ->
  Q tt (on (connected a b m) s) -> wp (connect a b) (on m s) Q.
Proof.
  intros H Ha Hb HQ. pose proof (paired_partner m H) as Hp.
  assert (forall x y, partner_at m x = Some y -> is_Some (m !! y)) as Hmy.
  { intros x y Hy%Hp. unfold partner_at in Hy. destruct (m !! y); [by eexists|done]. }
  unfold connect. apply wp_assoc, wp_seq, set_partner_wp; [done|by apply Hmy|].
  apply set_partner_wp; [by apply (same_but_alive m); [apply set_partner_same|]| |done].
  intros p. rewrite set_partner_at by done. intros E. apply (same_but_alive m); [apply set_partner_same|].
  repeat destruct (decide _); naive_solver.
Qed.
End partners.
