(* ===== verification/NhdpRemove.v ===== *)
(** Removal from the neighborhood database of src/nhdp/nhdp/nhdp_db.c: addresses,
    two-hop neighbors, links and neighbors leave every tree and list they are in
    and take along what belongs to them. *)

From Stdlib Require Import ZArith Lia Sorted.
From stdpp Require Import base list numbers option gmap sets.
From S2P Require Import Prelude AvlSpec StateMonad Rfc5444Values Netaddr MprSelection NhdpDb NhdpDomain Timer ValidityTimer NhdpStore NhdpConsistent NhdpPartners.

Local Open Scope Z_scope.
Local Open Scope state_scope.

(** * Looking into a consistent database *)

(** Only nodes of originator trees are taken out while other objects go away. *)
Definition only_originators (X : gset (tree_id * ptr)) : Prop :=
  forall t x, (t, x) ∈ X -> t = Originator_tree \/ exists i, t = If_link_originators i.

Section lookups.
Context (max_interval : Z) (timer_info : timer_kind -> positive).
#[local] Notation consistent := (consistent max_interval timer_info).

Lemma shape_links s k l : links s !! k = Some l -> sh_links (shape_of s) !! k = Some (view_link l).
Proof. intros H. simpl. by rewrite lookup_fmap, H. Qed.
Lemma shape_neighs s k n : neighs s !! k = Some n -> sh_neighs (shape_of s) !! k = Some (view_neigh n).
Proof. intros H. simpl. by rewrite lookup_fmap, H. Qed.
Lemma shape_naddrs s k n : naddrs s !! k = Some n -> sh_naddrs (shape_of s) !! k = Some (view_naddr n).
Proof. intros H. simpl. by rewrite lookup_fmap, H. Qed.
Lemma shape_laddrs s k n : laddrs s !! k = Some n -> sh_laddrs (shape_of s) !! k = Some (view_laddr n).
Proof. intros H. simpl. by rewrite lookup_fmap, H. Qed.
Lemma shape_l2hops s k n : l2hops s !! k = Some n -> sh_l2hops (shape_of s) !! k = Some (view_l2hop n).
Proof. intros H. simpl. by rewrite lookup_fmap, H. Qed.

(** What hangs on a link. *)
Record link_facts (s : nhdp_db) (l : nhdp_link) (i : ptr) (f : nhdp_interface) (n : nhdp_neighbor) : Prop := {
  lf_if : local_if l = Some i;
  lf_interface : ifs s !! i = Some f;
  lf_neigh : neighs s !! l_neigh l = Some n;
  lf_key : _originator_key l = l_neigh l;
  lf_size : length (l_domaindata l) = NHDP_MAXIMUM_DOMAINS;
}.

Lemma link_at X s k l : consistent X s -> links s !! k = Some l -> exists i f n, link_facts s l i f n.
Proof.
  intros H Hl. destruct (lk_link (co_linked H) k _ (shape_links _ _ _ Hl)) as (Hn & (i & Hi & Hf) & Hk & Hs).
  simpl in Hn, Hf. rewrite lookup_fmap, fmap_is_Some in Hn. destruct Hn as [n Hn]. apply elem_of_dom in Hf as [f Hf]. exists i, f, n. by split.
Qed.

Lemma laddr_at X s p a : consistent X s -> laddrs s !! p = Some a -> exists l i f n, links s !! la_link a = Some l /\ link_facts s l i f n.
Proof.
  intros H Ha. pose proof (lk_laddr (co_linked H) p _ _ (shape_laddrs _ _ _ Ha)) as Hl.
  simpl in Hl. rewrite lookup_fmap, fmap_is_Some in Hl. destruct Hl as [l Hl]. destruct (link_at X s _ l H Hl) as (i & f & n & ?). eauto 6.
Qed.

Lemma l2hop_at X s p a : consistent X s -> l2hops s !! p = Some a -> exists l i f n, links s !! l2_link a = Some l /\ link_facts s l i f n.
Proof.
  intros H Ha. destruct (lk_l2hop (co_linked H) p _ _ _ (shape_l2hops _ _ _ Ha)) as [Hl _].
  simpl in Hl. rewrite lookup_fmap, fmap_is_Some in Hl. destruct Hl as [l Hl]. destruct (link_at X s _ l H Hl) as (i & f & n & ?). eauto 6.
Qed.

Lemma naddr_at X s p a : consistent X s -> naddrs s !! p = Some a -> exists n, neighs s !! na_neigh a = Some n.
Proof.
  intros H Ha. pose proof (lk_naddr (co_linked H) p _ _ (shape_naddrs _ _ _ Ha)) as Hl.
  simpl in Hl. by rewrite lookup_fmap, fmap_is_Some in Hl.
Qed.

(** The list of a tree. *)
Lemma tree_at X s t : consistent X s -> head_alive (shape_of s) t ->
  exists l, trees s !! t = Some l /\ NoDup l /\ forall x, x ∈ l <-> at_home X (shape_of s) t x.
Proof.
  intros H Ht. destruct (placed_tree s _ _ t (co_placed H) Ht) as [l Hl]. exists l. split; [done|].
  split; [by apply (pl_nodup (co_placed H) t)|]. intros x. by apply (pl_mem (co_placed H) t).
Qed.

Lemma shape_delete_laddr p s : shape_of (set_laddrs (delete p) s) = without_laddr p (shape_of s).
Proof. unfold shape_of, without_laddr. simpl. by rewrite fmap_delete. Qed.
Lemma shape_delete_l2hop p s : shape_of (set_l2hops (delete p) s) = without_l2hop p (shape_of s).
Proof. unfold shape_of, without_l2hop. simpl. by rewrite fmap_delete. Qed.
Lemma shape_delete_naddr p s : shape_of (set_naddrs (delete p) s) = without_naddr p (shape_of s).
Proof. unfold shape_of, without_naddr. simpl. by rewrite fmap_delete. Qed.

Lemma shape_set_trees f s : shape_of (set_trees f s) = shape_of s.
Proof. done. Qed.
Lemma shape_set_timers f s : shape_of (set_timers f s) = shape_of s.
Proof. done. Qed.
Lemma shape_add_call f s : shape_of (add_call f s) = shape_of s.
Proof. done. Qed.
Lemma shape_count_malloc s : shape_of (count_malloc s) = shape_of s.
Proof. done. Qed.
Lemma shape_set_set_id z s : shape_of (set_set_id z s) = shape_of s.
Proof. done. Qed.
Lemma shape_set_doms f s : shape_of (set_doms f s) = shape_of s.
Proof. done. Qed.
End lookups.
#[export] Hint Rewrite shape_delete_laddr shape_delete_l2hop shape_delete_naddr shape_set_trees shape_set_timers shape_add_call
  shape_count_malloc shape_set_set_id shape_set_doms : nhdp_shape.
#[global] Arguments lf_if {s l i f n}.
#[global] Arguments lf_interface {s l i f n}.
#[global] Arguments lf_neigh {s l i f n}.
#[global] Arguments lf_key {s l i f n}.
#[global] Arguments lf_size {s l i f n}.

Lemma not_exempt X t x : only_originators X -> t <> Originator_tree -> (forall i, t <> If_link_originators i) -> (t, x) ∉ X.
Proof. intros HX H1 H2 Hin. destruct (HX _ _ Hin) as [?|[i ?]]; [done|by apply (H2 i)]. Qed.
#[export] Hint Resolve not_exempt : nhdp.

Lemma filter_head (p : ptr) l : NoDup (p :: l) -> filter (fun y => y <> p) (p :: l) = l.
Proof.
  intros [Hp _]%NoDup_cons. rewrite filter_cons_False by tauto. clear -Hp. induction l as [|x l IH]; [done|].
  rewrite not_elem_of_cons in Hp. rewrite filter_cons_True by naive_solver. f_equal. apply IH. naive_solver.
Qed.

Section remove.
Context (os_core_get_random : nat -> option Z) (random_u32 : forall n r, os_core_get_random n = Some r -> 0 <= r <= UINT32_MAX).
Context (max_interval : Z) (max_interval_range : 0 <= max_interval <= 2 ^ 56).
Context (timer_info : timer_kind -> positive).
#[local] Notation consistent := (consistent max_interval timer_info).
#[local] Notation timers_ok := (timers_ok max_interval timer_info).
#[local] Notation db_laddr_remove := (nhdp_db_link_addr_remove).

(** One removal from the placed trees [tr]. *)
#[local] Ltac remove_node :=
  eapply tree_remove_wp; [reflexivity|eassumption|..].

Definition laddr_trees (a : nhdp_laddr) (l : nhdp_link) (i : ptr) : list tree_id :=
  [Neigh_link_addresses (l_neigh l); Link_addresses (la_link a); If_link_addresses i].

(** The state after the removal of an address of a link. *)
Definition laddr_removed (p : ptr) (ts : list tree_id) (s : nhdp_db) : nhdp_db :=
  set_laddrs (delete p) (set_trees (fun _ => drop_node p ts (trees s)) (add_call (Laddr_event p OONF_OBJECT_REMOVED) s)).

Lemma laddr_remove_wp X s p a l i (Q : unit -> nhdp_db -> Prop) : consistent X s -> only_originators X ->
  laddrs s !! p = Some a -> links s !! la_link a = Some l -> local_if l = Some i ->
  (consistent X (laddr_removed p (laddr_trees a l i) s) -> Q tt (laddr_removed p (laddr_trees a l i) s)) ->
  wp (nhdp_db_link_addr_remove p) s Q.
Proof.
  intros H HX Ha Hl Hi HQ. destruct (link_at _ _ X s _ l H Hl) as (i' & f & n & F). assert (i' = i) as -> by (destruct F; congruence).
  pose proof (co_placed H) as HP. unfold nhdp_db_link_addr_remove, call. wp_steps. rewrite Hi. simpl. wp_steps.
  assert (forall t, t ∈ laddr_trees a l i -> head_alive (shape_of s) t /\ at_home X (shape_of s) t p) as Hat.
  { intros t Ht. pose proof (shape_laddrs _ _ _ Ha) as Ea. pose proof (shape_links _ _ _ Hl) as El.
    unfold laddr_trees in Ht. rewrite !elem_of_cons, elem_of_nil in Ht. destruct Ht as [->|[->|[->|[]]]]; (split; [|split; [|by apply not_exempt]]).
    - simpl. rewrite lookup_fmap, (lf_neigh F). by eexists.
    - by eexists _, _, _.
    - eexists. exact El.
    - by eexists.
    - simpl. apply elem_of_dom. exists f. apply F.
    - by eexists _, _, _. }
  eapply (tree_remove_wp _ (trees s) []); [reflexivity|exact HP|apply Hat; unfold laddr_trees; set_solver..|set_solver|]. intros s1 ->. wp_steps.
  eapply (tree_remove_wp _ (trees s) [_]); [reflexivity|exact HP|apply Hat; unfold laddr_trees; set_solver..|set_solver|]. intros s1 ->. wp_steps.
  eapply (tree_remove_wp _ (trees s) [_; _]); [reflexivity|exact HP|apply Hat; unfold laddr_trees; set_solver..|set_solver|]. intros s1 ->. wp_steps.
  apply HQ. split.
  - unfold laddr_removed. autorewrite with nhdp_shape.
    exact (drop_laddr X (shape_of s) (trees s) p _ _ _ i HP (shape_laddrs _ _ _ Ha) (shape_links _ _ _ Hl) Hi).
  - unfold laddr_removed. autorewrite with nhdp_shape. apply linked_without_laddr, H.
  - apply H.
  - apply H.
Qed.

(** Stopping and freeing a timer whose object goes away. *)
Lemma timer_end_wp A A' s k p (m : nhdp_M unit) (Q : unit -> nhdp_db -> Prop) : timers_ok A (timers s) -> A k p -> (forall k' p', A' k' p' <-> A k' p' /\ (k', p') <> (k, p)) ->
  (forall tm, timers_ok A' tm -> timer_changed k p (timers s) tm -> wp m (set_timers tm s) Q) ->
  wp (timer_stop k p ;;; timer_free k p ;;; m) s Q.
Proof.
  intros H Ha HA HQ. wp_steps. eapply timer_stop_wp; [exact random_u32|exact max_interval_range|exact H|exact Ha|].
  intros ts Hts Hch Hst. unfold timer_free. wp_steps. apply (HQ (set_instances (delete (timer_at k p) (instances ts)) ts)).
  - by eapply timers_free; [exact random_u32|exact max_interval_range|exact Hts|..].
  - split; [apply Hch|]. intros k' p' Hne. rewrite <- (tc_other Hch) by done. unfold is_active. simpl.
    rewrite lookup_delete_ne; [done|]. intros [-> ->]%timer_at_inj. done.
Qed.

Definition l2hop_removed (p : ptr) (ts : list tree_id) (tm : timer_state) (s : nhdp_db) : nhdp_db :=
  set_l2hops (delete p) (set_timers tm (set_trees (fun _ => drop_node p ts (trees s)) (add_call (L2hop_event p OONF_OBJECT_REMOVED) s))).

Lemma has_timer_l2hop p sh k' p' : has_timer (without_l2hop p sh) k' p' <-> has_timer sh k' p' /\ (k', p') <> (L2hop_vtime, p).
Proof. destruct k'; simpl; unfold is_Some; setoid_rewrite lookup_delete_Some || idtac; naive_solver. Qed.

Lemma has_timer_naddr p sh k' p' : has_timer (without_naddr p sh) k' p' <-> has_timer sh k' p' /\ (k', p') <> (Lost_vtime, p).
Proof. destruct k'; simpl; unfold is_Some; setoid_rewrite lookup_delete_Some || idtac; naive_solver. Qed.

Lemma l2hop_remove_wp X s p a l i (Q : unit -> nhdp_db -> Prop) : consistent X s -> only_originators X ->
  l2hops s !! p = Some a -> links s !! l2_link a = Some l -> local_if l = Some i ->
  (forall tm, let s' := l2hop_removed p [If_twohops i; Link_2hop (l2_link a)] tm s in
    consistent X s' -> timer_changed L2hop_vtime p (timers s) tm -> Q tt s') ->
  wp (nhdp_db_link_2hop_remove p) s Q.
Proof.
  intros H HX Ha Hl Hi HQ. destruct (link_at _ _ X s _ l H Hl) as (i' & f & n & F). assert (i' = i) as -> by (destruct F; congruence).
  pose proof (co_placed H) as HP. pose proof (shape_l2hops _ _ _ Ha) as Ea. pose proof (shape_links _ _ _ Hl) as El.
  unfold nhdp_db_link_2hop_remove, call. wp_steps.
  eapply (tree_remove_wp _ (trees s) []); [reflexivity|exact HP|..].
  { eexists. exact El. } { split; [by eexists _, _|by apply not_exempt]. } { set_solver. } intros s1 ->.
  wp_steps. rewrite Hi. simpl. wp_steps.
  eapply (tree_remove_wp _ (trees s) [_]); [reflexivity|exact HP|..].
  { simpl. apply elem_of_dom. exists f. apply F. } { split; [by eexists _, _, _, _|by apply not_exempt]. } { set_solver. } intros s1 ->.
  eapply timer_end_wp; [apply H|simpl; by eexists|apply (has_timer_l2hop p)|]. intros tm Htm Hch. wp_steps.
  apply HQ; [|exact Hch]. unfold l2hop_removed. split; autorewrite with nhdp_shape.
  - exact (drop_l2hop X (shape_of s) (trees s) p _ _ _ _ i HP Ea El Hi).
  - apply linked_without_l2hop, H.
  - exact Htm.
  - apply H.
Qed.

Definition naddr_removed (p : ptr) (ts : list tree_id) (tm : timer_state) (s : nhdp_db) : nhdp_db :=
  set_naddrs (delete p) (set_timers tm (set_trees (fun _ => drop_node p ts (trees s)) (add_call (Naddr_event p OONF_OBJECT_REMOVED) s))).

Lemma naddr_remove_wp X s p a (Q : unit -> nhdp_db -> Prop) : consistent X s -> only_originators X -> naddrs s !! p = Some a ->
  (forall tm, let s' := naddr_removed p [Neigh_addresses (na_neigh a); Naddr_tree] tm s in
    consistent X s' -> timer_changed Lost_vtime p (timers s) tm -> Q tt s') ->
  wp (nhdp_db_neighbor_addr_remove p) s Q.
Proof.
  intros H HX Ha HQ. destruct (naddr_at _ _ X s _ a H Ha) as [n Hn]. pose proof (co_placed H) as HP. pose proof (shape_naddrs _ _ _ Ha) as Ea.
  unfold nhdp_db_neighbor_addr_remove, call. wp_steps.
  eapply (tree_remove_wp _ (trees s) []); [reflexivity|exact HP|done|..].
  { split; [by eexists|by apply not_exempt]. } { set_solver. } intros s1 ->. wp_steps.
  eapply (tree_remove_wp _ (trees s) [_]); [reflexivity|exact HP|..].
  { eexists. by apply shape_neighs. } { split; [by eexists|by apply not_exempt]. } { set_solver. } intros s1 ->.
  eapply timer_end_wp; [apply H|simpl; by eexists|apply (has_timer_naddr p)|]. intros tm Htm Hch. wp_steps.
  apply HQ; [|exact Hch]. unfold naddr_removed. split; autorewrite with nhdp_shape.
  - exact (drop_naddr X (shape_of s) (trees s) p _ _ HP Ea).
  - apply linked_without_naddr, H.
  - exact Htm.
  - apply H.
Qed.

(** ** Loops that empty a tree *)

Lemma drain_wp (t : tree_id) body (I : nhdp_db -> Prop) s l (Q : unit -> nhdp_db -> Prop) :
  I s -> trees s !! t = Some l -> (forall s1 l1, I s1 -> trees s1 !! t = Some l1 -> NoDup l1) ->
  (forall s1 p rest, I s1 -> trees s1 !! t = Some (p :: rest) -> wp (body p) s1 (fun _ s2 => I s2 /\ trees s2 !! t = Some rest)) ->
  (forall s1, I s1 -> trees s1 !! t = Some [] -> Q tt s1) -> wp (for_each_safe (get_tree t) body) s Q.
Proof.
  intros HI Hl Hn Hbody HQ. assert (forall s1 l1, trees s1 !! t = Some l1 -> get_tree t s1 = Def (l1, s1)) as Hget.
  { intros s1 l1 E. unfold get_tree. by rewrite E. }
  eapply (for_each_safe_wp (fun rest s1 => I s1 /\ trees s1 !! t = Some rest)); [by apply Hget|by split|..].
  - intros p rest s1 [HI1 E]. split; [exists []; split; [by apply Hget|by eapply (Hn s1)]|]. by apply Hbody.
  - intros s1 [? ?]. by apply HQ.
Qed.

Lemma drop_node_in p ts tr t rest : tr !! t = Some (p :: rest) -> NoDup (p :: rest) -> t ∈ ts -> drop_node p ts tr !! t = Some rest.
Proof. intros E Hn Ht. rewrite drop_node_lookup, decide_True, E by done. simpl. by rewrite filter_head. Qed.

(** The trees that hold addresses of links, two-hop neighbors, addresses of neighbors. *)
Definition laddr_tree (t : tree_id) : bool := match t with Link_addresses _ | Neigh_link_addresses _ | If_link_addresses _ => true | _ => false end.
Definition l2hop_tree (t : tree_id) : bool := match t with Link_2hop _ | If_twohops _ => true | _ => false end.
Definition naddr_tree (t : tree_id) : bool := match t with Naddr_tree | Neigh_addresses _ => true | _ => false end.

Lemma drop_node_other p ts tr t (kind : tree_id -> bool) : kind t = false -> forallb kind ts = true -> drop_node p ts tr !! t = tr !! t.
Proof.
  intros Ht Hts. rewrite drop_node_lookup, decide_False; [done|]. intros Hin. rewrite forallb_forall in Hts.
  rewrite (Hts t) in Ht; [done|]. by apply list_elem_of_In.
Qed.

(** All addresses of the link [k]. *)
Lemma laddrs_loop_wp X s k l (Q : unit -> nhdp_db -> Prop) : consistent X s -> only_originators X -> links s !! k = Some l ->
  (forall s', consistent X s' -> frame [F_laddrs; F_trees] s s' ->
    (forall p a, laddrs s' !! p = Some a <-> laddrs s !! p = Some a /\ la_link a <> k) ->
    (forall t, laddr_tree t = false -> trees s' !! t = trees s !! t) -> Q tt s') ->
  wp (for_each_safe (get_tree (Link_addresses k)) nhdp_db_link_addr_remove) s Q.
Proof.
  intros H HX Hl HQ. destruct (link_at _ _ X s k l H Hl) as (i & f & n & F).
  assert (forall s1, frame [F_laddrs; F_trees] s s1 -> links s1 !! k = Some l) as Hlk.
  { intros s1 [Hfr _]. by rewrite (Hfr F_links ltac:(fields) : links s1 = _). }
  destruct (tree_at _ _ X s (Link_addresses k) H) as (ll & El & _); [eexists; by apply shape_links|].
  eapply (drain_wp _ _ (fun s1 => consistent X s1 /\ frame [F_laddrs; F_trees] s s1 /\
    (forall p a, laddrs s1 !! p = Some a -> laddrs s !! p = Some a) /\
    (forall p a, laddrs s !! p = Some a -> la_link a <> k -> laddrs s1 !! p = Some a) /\
    (forall t, laddr_tree t = false -> trees s1 !! t = trees s !! t))); [split_and!; try done; apply frame_refl|exact El|..].
  - intros s1 l1 (H1 & _) E. by apply (pl_nodup (co_placed H1) _ _ E).
  - intros s1 p rest (H1 & Hfr & Hsub & Hkeep & Htr) E. pose proof (pl_nodup (co_placed H1) _ _ E) as Hn.
    assert (at_home X (shape_of s1) (Link_addresses k) p) as [[b Hb] _] by (apply (pl_mem (co_placed H1) _ _ _ E); left).
    simpl in Hb. rewrite lookup_fmap in Hb. destruct (laddrs s1 !! p) as [a|] eqn:Ea; [|done]. injection Hb as <- Ek.
    eapply laddr_remove_wp; [exact H1|exact HX|exact Ea|rewrite Ek; by apply Hlk|apply F|]. intros H2. split; [split_and!; [exact H2|..]|].
    + eapply frame_trans; [exact Hfr|]. unfold laddr_removed. explicit_frame.
    + unfold laddr_removed. simpl. intros q b [_ Hq]%lookup_delete_Some. by apply Hsub.
    + intros q b Hq Hne. unfold laddr_removed. simpl. rewrite lookup_delete_ne; [by apply Hkeep|]. intros <-. rewrite (Hsub _ _ Ea) in Hq. congruence.
    + intros t Ht. unfold laddr_removed. simpl. rewrite (drop_node_other _ _ _ _ laddr_tree) by done. by apply Htr.
    + unfold laddr_removed. simpl. apply drop_node_in; [done..|]. unfold laddr_trees. rewrite Ek. right. left.
  - intros s1 (H1 & Hfr & Hsub & Hkeep & Htr) E. apply HQ; [done..| |done]. intros p a. split; [|naive_solver]. intros Ha. split; [by apply Hsub|]. intros <-.
    assert (p ∈ @nil ptr) as []%elem_of_nil. apply (pl_mem (co_placed H1) _ _ _ E). split; [|by apply not_exempt].
    eexists. exact (shape_laddrs _ _ _ Ha).
Qed.

(** All two-hop neighbors of the link [k]. *)
Lemma l2hops_loop_wp X s k l (Q : unit -> nhdp_db -> Prop) : consistent X s -> only_originators X -> links s !! k = Some l ->
  (forall s', consistent X s' -> frame [F_l2hops; F_trees; F_timers] s s' ->
    (forall p a, l2hops s' !! p = Some a <-> l2hops s !! p = Some a /\ l2_link a <> k) ->
    (forall t, l2hop_tree t = false -> trees s' !! t = trees s !! t) ->
    (forall kd p, kd <> L2hop_vtime -> is_active (timers s') kd p = is_active (timers s) kd p) -> now_times (timers s') = now_times (timers s) -> Q tt s') ->
  wp (for_each_safe (get_tree (Link_2hop k)) nhdp_db_link_2hop_remove) s Q.
Proof.
  intros H HX Hl HQ. destruct (link_at _ _ X s k l H Hl) as (i & f & n & F).
  assert (forall s1, frame [F_l2hops; F_trees; F_timers] s s1 -> links s1 !! k = Some l) as Hlk.
  { intros s1 [Hfr _]. by rewrite (Hfr F_links ltac:(fields) : links s1 = _). }
  destruct (tree_at _ _ X s (Link_2hop k) H) as (ll & El & _); [eexists; by apply shape_links|].
  eapply (drain_wp _ _ (fun s1 => consistent X s1 /\ frame [F_l2hops; F_trees; F_timers] s s1 /\
    (forall p a, l2hops s1 !! p = Some a -> l2hops s !! p = Some a) /\
    (forall p a, l2hops s !! p = Some a -> l2_link a <> k -> l2hops s1 !! p = Some a) /\
    (forall t, l2hop_tree t = false -> trees s1 !! t = trees s !! t) /\
    (forall kd p, kd <> L2hop_vtime -> is_active (timers s1) kd p = is_active (timers s) kd p) /\ now_times (timers s1) = now_times (timers s)));
    [split_and!; try done; apply frame_refl|exact El|..].
  - intros s1 l1 (H1 & _) E. by apply (pl_nodup (co_placed H1) _ _ E).
  - intros s1 p rest (H1 & Hfr & Hsub & Hkeep & Htr & Htm & Hnow) E. pose proof (pl_nodup (co_placed H1) _ _ E) as Hn.
    assert (at_home X (shape_of s1) (Link_2hop k) p) as [(b & z & Hb) _] by (apply (pl_mem (co_placed H1) _ _ _ E); left).
    simpl in Hb. rewrite lookup_fmap in Hb. destruct (l2hops s1 !! p) as [a|] eqn:Ea; [|done]. injection Hb as <- Ek _.
    eapply l2hop_remove_wp; [exact H1|exact HX|exact Ea|rewrite Ek; by apply Hlk|apply F|]. intros tm s2 H2 Hch. split; [split_and!|]; [exact H2|..].
    + eapply frame_trans; [exact Hfr|]. subst s2. unfold l2hop_removed. explicit_frame.
    + subst s2. unfold l2hop_removed. simpl. intros q b [_ Hq]%lookup_delete_Some. by apply Hsub.
    + intros q b Hq Hne. subst s2. unfold l2hop_removed. simpl. rewrite lookup_delete_ne; [by apply Hkeep|]. intros <-. rewrite (Hsub _ _ Ea) in Hq. congruence.
    + intros t Ht. subst s2. unfold l2hop_removed. simpl. rewrite (drop_node_other _ _ _ _ l2hop_tree) by done. by apply Htr.
    + intros kd q Hk. subst s2. simpl. rewrite (tc_other Hch); [by apply Htm|]. naive_solver.
    + subst s2. simpl. by rewrite (tc_now Hch).
    + subst s2. unfold l2hop_removed. simpl. rewrite Ek. apply drop_node_in; [done..|]. right. left.
  - intros s1 (H1 & Hfr & Hsub & Hkeep & Htr & Htm & Hnow) E. apply HQ; [done..| |done|done|done]. intros p a. split; [|naive_solver]. intros Ha. split; [by apply Hsub|]. intros <-.
    assert (p ∈ @nil ptr) as []%elem_of_nil. apply (pl_mem (co_placed H1) _ _ _ E). split; [|by apply not_exempt].
    eexists _, _. exact (shape_l2hops _ _ _ Ha).
Qed.

(** All addresses of the neighbor [k]. *)
Lemma naddrs_loop_wp X s k n (Q : unit -> nhdp_db -> Prop) : consistent X s -> only_originators X -> neighs s !! k = Some n ->
  (forall s', consistent X s' -> frame [F_naddrs; F_trees; F_timers] s s' ->
    (forall p a, naddrs s' !! p = Some a <-> naddrs s !! p = Some a /\ na_neigh a <> k) ->
    (forall kd p, kd <> Lost_vtime -> is_active (timers s') kd p = is_active (timers s) kd p) ->
    now_times (timers s') = now_times (timers s) -> Q tt s') ->
  wp (for_each_safe (get_tree (Neigh_addresses k)) nhdp_db_neighbor_addr_remove) s Q.
Proof.
  intros H HX Hl HQ. destruct (tree_at _ _ X s (Neigh_addresses k) H) as (ll & El & _); [eexists; by apply shape_neighs|].
  eapply (drain_wp _ _ (fun s1 => consistent X s1 /\ frame [F_naddrs; F_trees; F_timers] s s1 /\
    (forall p a, naddrs s1 !! p = Some a -> naddrs s !! p = Some a) /\
    (forall p a, naddrs s !! p = Some a -> na_neigh a <> k -> naddrs s1 !! p = Some a) /\
    (forall kd p, kd <> Lost_vtime -> is_active (timers s1) kd p = is_active (timers s) kd p) /\ now_times (timers s1) = now_times (timers s))); [split_and!; try done; apply frame_refl|exact El|..].
  - intros s1 l1 (H1 & _) E. by apply (pl_nodup (co_placed H1) _ _ E).
  - intros s1 p rest (H1 & Hfr & Hsub & Hkeep & Htm & Hnow) E. pose proof (pl_nodup (co_placed H1) _ _ E) as Hn.
    assert (at_home X (shape_of s1) (Neigh_addresses k) p) as [(b & Hb) _] by (apply (pl_mem (co_placed H1) _ _ _ E); left).
    simpl in Hb. rewrite lookup_fmap in Hb. destruct (naddrs s1 !! p) as [a|] eqn:Ea; [|done]. injection Hb as <- Ek.
    eapply naddr_remove_wp; [exact H1|exact HX|exact Ea|]. intros tm s2 H2 Hch. split; [split_and!|]; [exact H2|..].
    + eapply frame_trans; [exact Hfr|]. subst s2. unfold naddr_removed. explicit_frame.
    + subst s2. unfold naddr_removed. simpl. intros q b [_ Hq]%lookup_delete_Some. by apply Hsub.
    + intros q b Hq Hne. subst s2. unfold naddr_removed. simpl. rewrite lookup_delete_ne; [by apply Hkeep|]. intros <-. rewrite (Hsub _ _ Ea) in Hq. congruence.
    + intros kd q Hk. subst s2. simpl. rewrite (tc_other Hch); [by apply Htm|]. naive_solver.
    + subst s2. simpl. by rewrite (tc_now Hch).
    + subst s2. unfold naddr_removed. simpl. rewrite Ek. apply drop_node_in; [done..|]. left.
  - intros s1 (H1 & Hfr & Hsub & Hkeep & Htm & Hnow) E. apply HQ; [done..| |done|done]. intros p a. split; [|naive_solver]. intros Ha. split; [by apply Hsub|]. intros <-.
    assert (p ∈ @nil ptr) as []%elem_of_nil. apply (pl_mem (co_placed H1) _ _ _ E). split; [|by apply not_exempt].
    eexists. exact (shape_naddrs _ _ _ Ha).
Qed.

(** ** Partners *)

Lemma consistent_paired X s : consistent X s -> paired l_partner (links s).
Proof.
  intros H x l y Hl Hy. destruct (lk_link_partner (co_linked H) x _ y (shape_links _ _ _ Hl) Hy) as (v & Hv & Ev).
  simpl in Hv. rewrite lookup_fmap in Hv. destruct (links s !! y) as [l'|] eqn:E; [|done]. injection Hv as <-. by exists l'.
Qed.

Lemma consistent_paired_neighs X s : consistent X s -> paired n_partner (neighs s).
Proof.
  intros H x l y Hl Hy. destruct (lk_neigh_partner (co_linked H) x _ y (shape_neighs _ _ _ Hl) Hy) as (v & Hv & Ev).
  simpl in Hv. rewrite lookup_fmap in Hv. destruct (neighs s !! y) as [l'|] eqn:E; [|done]. injection Hv as <-. by exists l'.
Qed.

(** Other partners for the links, and nothing else. *)
Lemma repartnered X s m : consistent X s -> same_but_partners with_l_partner (links s) m -> paired l_partner m -> consistent X (set_links (fun _ => m) s).
Proof.
  intros H Hm Hp. set (s' := set_links (fun _ => m) s).
  assert (forall x v, sh_links (shape_of s') !! x = Some v -> exists l v0, m !! x = Some l /\ v = view_link l /\ sh_links (shape_of s) !! x = Some v0 /\
    lv_neigh v = lv_neigh v0 /\ lv_if v = lv_if v0 /\ lv_key v = lv_key v0 /\ lv_size v = lv_size v0) as Hback.
  { intros x v E. simpl in E. rewrite lookup_fmap in E. specialize (Hm x). destruct (m !! x) as [l|]; [|done]. injection E as <-.
    destruct (links s !! x) as [l0|] eqn:E0; [|done]. injection Hm as ? ? ? ? ? ? ? ? ? ? ? ?. exists l, (view_link l0). simpl.
    rewrite lookup_fmap, E0. split_and!; try done; simpl; congruence. }
  assert (forall x, (fun l => (lv_neigh l, lv_if l)) <$> sh_links (shape_of s') !! x = (fun l => (lv_neigh l, lv_if l)) <$> sh_links (shape_of s) !! x) as Hsl.
  { intros x. simpl. rewrite !lookup_fmap. specialize (Hm x). destruct (m !! x), (links s !! x); try done. injection Hm as ? ? ? ? ? ? ? ? ? ? ? ?. simpl. congruence. }
  assert (forall x, is_Some (sh_links (shape_of s') !! x) <-> is_Some (sh_links (shape_of s) !! x)) as Hal.
  { intros x. simpl. rewrite !lookup_fmap, !fmap_is_Some. by eapply same_but_alive. }
  split; [|split|..]; try apply H.
  - eapply places_placed; [|apply H]. by split.
  - intros x a q E. by apply Hal, (lk_laddr (co_linked H) x a).
  - intros x a q z E. apply (lk_l2hop (co_linked H)) in E as [E ->]. split; [by apply Hal|done].
  - intros x v (l & v0 & _ & _ & E & -> & -> & -> & ->)%Hback. apply (lk_link (co_linked H) x v0 E).
  - intros x v y (l & v0 & El & -> & _)%Hback Hy. destruct (Hp x l y El Hy) as (l' & E' & ?). exists (view_link l'). simpl. by rewrite lookup_fmap, E'.
  - eapply timers_iff; [apply H|]. intros [] x; try done; apply Hal.
Qed.

Lemma repartnered_neighs X s m : consistent X s -> same_but_partners with_n_partner (neighs s) m -> paired n_partner m -> consistent X (set_neighs (fun _ => m) s).
Proof.
  intros H Hm Hp. set (s' := set_neighs (fun _ => m) s).
  assert (forall x v, sh_neighs (shape_of s') !! x = Some v -> exists l v0, m !! x = Some l /\ v = view_neigh l /\ sh_neighs (shape_of s) !! x = Some v0 /\
    nv_originator v = nv_originator v0 /\ nv_size v = nv_size v0) as Hback.
  { intros x v E. simpl in E. rewrite lookup_fmap in E. specialize (Hm x). destruct (m !! x) as [l|]; [|done]. injection E as <-.
    destruct (neighs s !! x) as [l0|] eqn:E0; [|done]. injection Hm as ? ? ? ?. exists l, (view_neigh l0). simpl.
    rewrite lookup_fmap, E0. split_and!; try done; simpl; congruence. }
  assert (forall x, is_Some (sh_neighs (shape_of s') !! x) <-> is_Some (sh_neighs (shape_of s) !! x)) as Hal.
  { intros x. simpl. rewrite !lookup_fmap, !fmap_is_Some. by eapply same_but_alive. }
  split; [|split|..]; try apply H.
  - eapply places_placed; [|apply H]. split; try done. intros x. simpl. rewrite !lookup_fmap. specialize (Hm x).
    destruct (m !! x), (neighs s !! x); try done. injection Hm as ? ? ? ?. simpl. congruence.
  - intros x a q E. by apply Hal, (lk_naddr (co_linked H) x a).
  - intros x l E. destruct (lk_link (co_linked H) x l E) as (? & ? & ? & ?). split_and!; try done. by apply Hal.
  - intros x v (l & v0 & _ & _ & E & _ & ->)%Hback. apply (lk_neigh (co_linked H) x v0 E).
  - intros x v y (l & v0 & El & -> & _)%Hback Hy. destruct (Hp x l y El Hy) as (l' & E' & ?). exists (view_neigh l'). simpl. by rewrite lookup_fmap, E'.
Qed.

(** The code on links and on neighbors is that of NhdpPartners. *)
#[local] Notation links_on m s := (set_links (fun _ => m) s).
#[local] Notation neighs_on m s := (set_neighs (fun _ => m) s).
Definition unlinked := unpaired l_partner with_l_partner.
Definition unlinked_neigh := unpaired n_partner with_n_partner.

Lemma set_links_id s : links_on (links s) s = s.
Proof. by destruct s. Qed.
Lemma set_neighs_id s : neighs_on (neighs s) s = s.
Proof. by destruct s. Qed.

Lemma link_disconnect_wp X s k (Q : unit -> nhdp_db -> Prop) : consistent X s -> is_Some (links s !! k) ->
  (consistent X (links_on (unlinked k (links s)) s) -> Q tt (links_on (unlinked k (links s)) s)) ->
  wp (nhdp_db_link_disconnect_dualstack k) s Q.
Proof.
  intros H Hk HQ. pose proof (consistent_paired X s H) as Hp. rewrite <- (set_links_id s) at 1.
  eapply (disconnect_wp links set_links l_partner with_l_partner); try done.
  - intros p E%(paired_partner _ _ Hp). unfold partner_at in E. destruct (links s !! p); [by eexists|done].
  - apply HQ, repartnered; [done|apply unpaired_same; by intros|by apply unpaired_paired].
Qed.

Lemma link_connect_wp X s a b (Q : unit -> nhdp_db -> Prop) : consistent X s -> is_Some (links s !! a) -> is_Some (links s !! b) ->
  (forall m, same_but_partners with_l_partner (links s) m -> consistent X (links_on m s) -> Q tt (links_on m s)) ->
  wp (nhdp_db_link_connect_dualstack a b) s Q.
Proof.
  intros H Ha Hb HQ. pose proof (consistent_paired X s H) as Hp. rewrite <- (set_links_id s) at 1.
  eapply (connect_wp links set_links l_partner with_l_partner); try done.
  assert (same_but_partners with_l_partner (links s) (connected l_partner with_l_partner a b (links s))) as Hs by (by apply connected_same).
  apply HQ; [done|]. apply repartnered; [done|done|by apply connected_paired].
Qed.

Lemma neigh_disconnect_wp X s k (Q : unit -> nhdp_db -> Prop) : consistent X s -> is_Some (neighs s !! k) ->
  (consistent X (neighs_on (unlinked_neigh k (neighs s)) s) -> Q tt (neighs_on (unlinked_neigh k (neighs s)) s)) ->
  wp (nhdp_db_neigbor_disconnect_dualstack k) s Q.
Proof.
  intros H Hk HQ. pose proof (consistent_paired_neighs X s H) as Hp. rewrite <- (set_neighs_id s) at 1.
  eapply (disconnect_wp neighs set_neighs n_partner with_n_partner); try done.
  - intros p E%(paired_partner _ _ Hp). unfold partner_at in E. destruct (neighs s !! p); [by eexists|done].
  - apply HQ, repartnered_neighs; [done|apply unpaired_same; by intros|by apply unpaired_paired].
Qed.

Lemma neigh_connect_wp X s a b (Q : unit -> nhdp_db -> Prop) : consistent X s -> is_Some (neighs s !! a) -> is_Some (neighs s !! b) ->
  (forall m, same_but_partners with_n_partner (neighs s) m -> consistent X (neighs_on m s) -> Q tt (neighs_on m s)) ->
  wp (nhdp_db_neighbor_connect_dualstack a b) s Q.
Proof.
  intros H Ha Hb HQ. pose proof (consistent_paired_neighs X s H) as Hp. rewrite <- (set_neighs_id s) at 1.
  eapply (connect_wp neighs set_neighs n_partner with_n_partner); try done.
  assert (same_but_partners with_n_partner (neighs s) (connected n_partner with_n_partner a b (neighs s))) as Hs by (by apply connected_same).
  apply HQ; [done|]. apply repartnered_neighs; [done|done|by apply connected_paired].
Qed.
End remove.
