(* ===== verification/NhdpUnlink.v ===== *)
(** Links leave the database of src/nhdp/nhdp/nhdp_db.c: what
    [nhdp_db_link_remove] takes along, and that the database is consistent
    afterwards. *)

From Stdlib Require Import ZArith Lia Sorted.
From stdpp Require Import base list numbers option gmap sets.
From S2P Require Import Prelude AvlSpec StateMonad Rfc5444Values Netaddr MprSelection NhdpDb NhdpDomain Timer ValidityTimer NhdpStore NhdpConsistent NhdpPartners NhdpRemove.

Local Open Scope Z_scope.
Local Open Scope state_scope.

(** * The shape without a link or a neighbor *)

Definition without_link (k : ptr) (sh : shape) : shape := {|
  sh_neighs := sh_neighs sh; sh_naddrs := sh_naddrs sh; sh_links := delete k (sh_links sh); sh_laddrs := sh_laddrs sh;
  sh_l2hops := sh_l2hops sh; sh_ifs := sh_ifs sh |}.
Definition without_neigh (k : ptr) (sh : shape) : shape := {|
  sh_neighs := delete k (sh_neighs sh); sh_naddrs := sh_naddrs sh; sh_links := sh_links sh; sh_laddrs := sh_laddrs sh;
  sh_l2hops := sh_l2hops sh; sh_ifs := sh_ifs sh |}.

Lemma shape_delete_link p s : shape_of (set_links (delete p) s) = without_link p (shape_of s).
Proof. unfold shape_of, without_link. simpl. by rewrite fmap_delete. Qed.
Lemma shape_delete_neigh p s : shape_of (set_neighs (delete p) s) = without_neigh p (shape_of s).
Proof. unfold shape_of, without_neigh. simpl. by rewrite fmap_delete. Qed.
#[export] Hint Rewrite shape_delete_link shape_delete_neigh : nhdp_shape.

(** Nothing hangs on the link [k] any more. *)
Record bare_link (sh : shape) (k : ptr) : Prop := {
  bl_laddrs x a : sh_laddrs sh !! x <> Some (a, k);
  bl_l2hops x a z : sh_l2hops sh !! x <> Some (a, k, z);
  bl_partner x l : sh_links sh !! x = Some l -> lv_partner l <> Some k;
}.
#[global] Arguments bl_laddrs {sh k}.
#[global] Arguments bl_l2hops {sh k}.
#[global] Arguments bl_partner {sh k}.

Lemma placed_without_link X sh tr k l i : placed sh (at_home X sh) tr -> sh_links sh !! k = Some l -> lv_if l = Some i -> bare_link sh k ->
  (forall t y, (t, y) ∈ X <-> y = k /\ home sh t k /\ exists i', t = If_link_originators i') ->
  placed (without_link k sh) (at_home ∅ (without_link k sh))
    (foldr delete (drop_node k [Link_list; Neigh_links (lv_neigh l); If_links i] tr) [Link_addresses k; Link_2hop k]).
Proof.
  intros H Hl Hi Hb HX. set (ts := [Link_list; Neigh_links (lv_neigh l); If_links i]).
  assert (placed sh (fun t y => at_home X sh t y /\ ~ (y = k /\ t ∈ ts)) (drop_node k ts tr)) as H1 by (by eapply placed_drop).
  eapply placed_free; [exact H1|..].
  - intros t y Ht. unfold at_home. rewrite HX. assert (t <> Link_addresses k /\ t <> Link_2hop k) as [Hn1 Hn2] by set_solver. clear Ht H H1 HX.
    pose proof (bl_laddrs Hb) as Hb1. pose proof (bl_l2hops Hb) as Hb2. clear Hb. unfold ts.
    destruct t; simpl; unfold is_Some; repeat setoid_rewrite lookup_delete_Some; set_unfold; naive_solver.
  - intros t y Hs _ _. by destruct t.
  - intros t. destruct t; simpl; unfold is_Some; repeat setoid_rewrite lookup_delete_Some; set_unfold; naive_solver.
Qed.

Lemma linked_without_link sh k : linked sh -> bare_link sh k -> linked (without_link k sh).
Proof.
  intros H Hb. split; simpl; try apply H.
  - intros x a q Hx. rewrite lookup_delete_ne; [by eapply (lk_laddr H x a)|]. intros <-. by destruct (bl_laddrs Hb x a).
  - intros x a q z Hx. rewrite lookup_delete_ne; [by apply (lk_l2hop H x a)|]. intros <-. by destruct (bl_l2hops Hb x a z).
  - intros x l [_ Hx]%lookup_delete_Some. by apply (lk_link H x l).
  - intros x l y [Hne Hx]%lookup_delete_Some Hy. destruct (lk_link_partner H x l y Hx Hy) as (l' & ? & ?). exists l'.
    rewrite lookup_delete_ne; [done|]. intros <-. by apply (bl_partner Hb x l).
Qed.

(** Nothing hangs on the neighbor [k] any more. *)
Record bare_neigh (sh : shape) (k : ptr) : Prop := {
  bn_naddrs x a : sh_naddrs sh !! x <> Some (a, k);
  bn_links x l : sh_links sh !! x = Some l -> lv_neigh l <> k;
  bn_partner x n : sh_neighs sh !! x = Some n -> nv_partner n <> Some k;
}.
#[global] Arguments bn_naddrs {sh k}.
#[global] Arguments bn_links {sh k}.
#[global] Arguments bn_partner {sh k}.

Lemma placed_without_neigh X sh tr k : placed sh (at_home X sh) tr -> bare_neigh sh k ->
  (forall t y, (t, y) ∈ X <-> y = k /\ home sh t k /\ t = Originator_tree) ->
  placed (without_neigh k sh) (at_home ∅ (without_neigh k sh))
    (foldr delete (drop_node k [Neigh_list] tr) [Neigh_addresses k; Neigh_link_addresses k; Neigh_links k]).
Proof.
  intros H Hb HX. assert (placed sh (fun t y => at_home X sh t y /\ ~ (y = k /\ t ∈ [Neigh_list])) (drop_node k [Neigh_list] tr)) as H1 by (by eapply placed_drop).
  eapply placed_free; [exact H1|..].
  - intros t y Ht. unfold at_home. rewrite HX. assert (t <> Neigh_addresses k /\ t <> Neigh_link_addresses k /\ t <> Neigh_links k) as (Hn1 & Hn2 & Hn3) by set_solver. clear Ht H H1 HX.
    pose proof (bn_naddrs Hb) as Hb1. pose proof (bn_links Hb) as Hb2. clear Hb.
    destruct t; simpl; unfold is_Some; repeat setoid_rewrite lookup_delete_Some; set_unfold; naive_solver.
  - intros t y Hs Hat _. destruct t; try done. unfold at_home in Hat. rewrite HX in Hat. simpl in *. destruct Hat as [[(n & Hn & ?) ?] _].
    rewrite lookup_delete_ne; [done|]. intros <-. naive_solver.
  - intros t. destruct t; simpl; unfold is_Some; repeat setoid_rewrite lookup_delete_Some; set_unfold; naive_solver.
Qed.

Lemma linked_without_neigh sh k : linked sh -> bare_neigh sh k -> linked (without_neigh k sh).
Proof.
  intros H Hb. split; simpl; try apply H.
  - intros x a q Hx. rewrite lookup_delete_ne; [by apply (lk_naddr H x a)|]. intros <-. by destruct (bn_naddrs Hb x a).
  - intros x l Hx. destruct (lk_link H x l Hx) as (Hn & ? & ? & ?). split_and!; try done.
    rewrite lookup_delete_ne; [done|]. intros E. by apply (bn_links Hb x l).
  - intros x n [_ Hx]%lookup_delete_Some. by apply (lk_neigh H x n).
  - intros x n y [Hne Hx]%lookup_delete_Some Hy. destruct (lk_neigh_partner H x n y Hx Hy) as (l' & ? & ?). exists l'.
    rewrite lookup_delete_ne; [done|]. intros <-. by apply (bn_partner Hb x n).
Qed.

Section unlink.
Context (os_core_get_random : nat -> option Z) (random_u32 : forall n r, os_core_get_random n = Some r -> 0 <= r <= UINT32_MAX).
Context (max_interval : Z) (max_interval_range : 0 <= max_interval <= 2 ^ 56).
Context (timer_info : timer_kind -> positive).
#[local] Notation consistent := (consistent max_interval timer_info).
#[local] Notation timers_ok := (timers_ok max_interval timer_info).
#[local] Ltac rule l := eapply l; try first [exact random_u32 | exact max_interval_range].

Lemma consistent_eq X s s' : consistent X s -> shape_of s' = shape_of s -> trees s' = trees s -> timers s' = timers s -> doms s' = doms s -> consistent X s'.
Proof. intros [] E1 E2 E3 E4. split; congruence. Qed.

(** * Taking a link out *)

(** A node leaves a tree before its object changes or goes away. *)
Lemma detach_wp X s t x (Q : unit -> nhdp_db -> Prop) : consistent X s -> head_alive (shape_of s) t -> home (shape_of s) t x -> (t, x) ∉ X ->
  (consistent ({[(t, x)]} ∪ X) (set_trees (fun _ => drop_node x [t] (trees s)) s) -> Q tt (set_trees (fun _ => drop_node x [t] (trees s)) s)) ->
  wp (tree_remove t x) s Q.
Proof.
  intros H Ht Hh Hx HQ. pose proof (co_placed H) as HP. eapply (tree_remove_wp _ (trees s) []); [reflexivity|exact HP|exact Ht|by split|set_solver|].
  intros s' ->. apply HQ. split; try apply H. autorewrite with nhdp_shape. eapply placed_drop; [exact HP| |by intros|by intros].
  intros u y. unfold at_home. set_unfold. naive_solver.
Qed.

(** The timers of links other than [k], and those of other objects, are as before. *)
Record link_timers_changed (k : ptr) (ts ts' : timer_state) : Prop := {
  lt_now : now_times ts' = now_times ts;
  lt_links kd p : p <> k -> kd <> L2hop_vtime -> is_active ts' kd p = is_active ts kd p;
  lt_naddrs p : is_active ts' Lost_vtime p = is_active ts Lost_vtime p;
}.

Lemma stop_timers_wp s k (m : nhdp_M unit) (Q : unit -> nhdp_db -> Prop) : consistent ∅ s -> is_Some (links s !! k) ->
  (forall tm, consistent ∅ (set_timers tm s) -> link_timers_changed k (timers s) tm ->
    (forall kd, kd = Sym_time \/ kd = Heard_time \/ kd = Link_vtime -> is_active tm kd k = false) -> wp m (set_timers tm s) Q) ->
  wp (timer_stop Sym_time k ;;; timer_stop Heard_time k ;;; timer_stop Link_vtime k ;;; m) s Q.
Proof.
  intros H [l Hl] HQ. assert (forall kd, kd = Sym_time \/ kd = Heard_time \/ kd = Link_vtime -> has_timer (shape_of s) kd k) as Hh.
  { intros kd Hk. assert (is_Some (sh_links (shape_of s) !! k)) as Hs by (eexists; by apply shape_links). by destruct Hk as [->|[->| ->]]. }
  wp_steps. rule timer_stop_wp; [apply H|apply Hh; tauto|]. intros t1 H1 C1 A1.
  wp_steps. rule timer_stop_wp; [exact H1|apply Hh; tauto|]. intros t2 H2 C2 A2.
  wp_steps. rule timer_stop_wp; [exact H2|apply Hh; tauto|]. intros t3 H3 C3 A3.
  simpl in C1, C2, C3. apply (HQ t3).
  - split; try apply H. exact H3.
  - split; [rewrite (tc_now C3), (tc_now C2); apply C1|intros kd p Hp Hkd|intros p];
      rewrite (tc_other C3), (tc_other C2), (tc_other C1); try done; congruence.
  - intros kd [->|[->| ->]]; [rewrite (tc_other C3), (tc_other C2)|rewrite (tc_other C3)|]; done.
Qed.

Lemma unlinked_at k m l : m !! k = Some l -> unlinked k m !! k = Some (with_l_partner None l).
Proof.
  intros Hl. unfold unlinked. destruct (l_partner l) as [p|] eqn:E.
  - rewrite (unpaired_lookup l_partner with_l_partner ltac:(by intros) k m p); [|unfold partner_at; by rewrite Hl]. by rewrite decide_True, Hl by auto.
  - unfold unpaired, partner_at. rewrite Hl. simpl. rewrite E, Hl. destruct l. simpl in E. by subst.
Qed.

Definition freed (kd : timer_kind) (k : ptr) (ts : timer_state) : timer_state := set_instances (delete (timer_at kd k) (instances ts)) ts.

Lemma freed_changed kd k ts : timer_changed kd k ts (freed kd k ts).
Proof.
  split; [done|]. intros kd' p Hne. unfold is_active, freed. simpl. rewrite lookup_delete_ne; [done|]. intros [-> ->]%timer_at_inj. done.
Qed.

(** The three timers of a link go away with it. *)
Lemma free_link_timers sh k ts : timers_ok (has_timer sh) ts -> is_Some (sh_links sh !! k) ->
  (forall kd, kd = Sym_time \/ kd = Heard_time \/ kd = Link_vtime -> is_active ts kd k = false) ->
  let tm := freed Link_vtime k (freed Heard_time k (freed Sym_time k ts)) in
  timers_ok (has_timer (without_link k sh)) tm /\ link_timers_changed k ts tm.
Proof.
  intros H Hk Hact tm.
  pose proof (freed_changed Sym_time k ts) as C1. pose proof (freed_changed Heard_time k (freed Sym_time k ts)) as C2.
  pose proof (freed_changed Link_vtime k (freed Heard_time k (freed Sym_time k ts))) as C3.
  assert (timers_ok (fun kd p => has_timer sh kd p /\ (kd, p) <> (Sym_time, k)) (freed Sym_time k ts)) as H1.
  { rule timers_free; [exact H|exact Hk|apply Hact; tauto|done]. }
  assert (timers_ok (fun kd p => (has_timer sh kd p /\ (kd, p) <> (Sym_time, k)) /\ (kd, p) <> (Heard_time, k)) (freed Heard_time k (freed Sym_time k ts))) as H2.
  { rule timers_free; [exact H1|by split|rewrite (tc_other C1) by done; apply Hact; tauto|done]. }
  split.
  - apply (timers_iff _ _ (fun kd p => ((has_timer sh kd p /\ (kd, p) <> (Sym_time, k)) /\ (kd, p) <> (Heard_time, k)) /\ (kd, p) <> (Link_vtime, k))).
    { rule timers_free; [exact H2|by split; [split|]|rewrite (tc_other C2), (tc_other C1) by done; apply Hact; tauto|done]. }
    intros kd p. destruct kd; simpl; unfold is_Some; repeat setoid_rewrite lookup_delete_Some; naive_solver.
  - split; [done|intros kd p Hp Hkd|intros p]; unfold tm; rewrite (tc_other C3), (tc_other C2), (tc_other C1); try done; congruence.
Qed.

(** The lists that a link without addresses leaves at the end, and its memory. *)
Definition unhooked (k n i : ptr) (tm : timer_state) (s : nhdp_db) : nhdp_db :=
  set_links (delete k) (set_timers tm (set_trees (fun _ =>
    foldr delete (drop_node k [Link_list; Neigh_links n; If_links i] (trees s)) [Link_addresses k; Link_2hop k]) s)).

Lemma unhook_wp X s k l i (Q : unit -> nhdp_db -> Prop) : consistent X s -> links s !! k = Some l -> local_if l = Some i -> bare_link (shape_of s) k ->
  (forall t y, (t, y) ∈ X <-> y = k /\ home (shape_of s) t k /\ exists i', t = If_link_originators i') ->
  (forall kd, kd = Sym_time \/ kd = Heard_time \/ kd = Link_vtime -> is_active (timers s) kd k = false) ->
  (forall tm, consistent ∅ (unhooked k (l_neigh l) i tm s) -> link_timers_changed k (timers s) tm -> Q tt (unhooked k (l_neigh l) i tm s)) ->
  wp (l <~ load links k ;;
      interf <~ deref (local_if l) ;;
      list_remove (If_links interf) k ;;;
      change_link k (with_local_if None) ;;;
      list_remove (Neigh_links (l_neigh l)) k ;;;
      list_remove Link_list k ;;;
      timer_free Sym_time k ;;;
      timer_free Heard_time k ;;;
      timer_free Link_vtime k ;;;
      free_trees [Link_addresses k; Link_2hop k] ;;;
      modify (set_links (delete k))) s Q.
Proof.
  intros H Hl Hi Hb HX Hact HQ. destruct (link_at _ _ X s k l H Hl) as (i' & f & n & F). assert (i' = i) as -> by (destruct F; congruence).
  pose proof (co_placed H) as HP. pose proof (shape_links _ _ _ Hl) as El.
  assert (forall t, home (shape_of s) t k -> (forall i', t <> If_link_originators i') -> at_home X (shape_of s) t k) as Hat.
  { intros t Ht Hn. split; [done|]. rewrite HX. intros (_ & _ & i' & ->). by destruct (Hn i'). }
  wp_steps. rewrite Hi. simpl. wp_steps.
  eapply (tree_remove_wp _ (trees s) []); [reflexivity|exact HP|..].
  { simpl. apply elem_of_dom. exists f. apply F. } { apply Hat; [|done]. by eexists. } { set_solver. } intros s1 ->.
  unfold change_link, store_link. wp_steps.
  eapply (tree_remove_wp _ (trees s) [_]); [reflexivity|exact HP|..].
  { eexists. apply shape_neighs, F. } { apply Hat; [|done]. by eexists. } { set_solver. } intros s1 ->. wp_steps.
  eapply (tree_remove_wp _ (trees s) [_; _]); [reflexivity|exact HP|done|..].
  { apply Hat; [|done]. by eexists. } { set_solver. } intros s1 ->. unfold timer_free, free_trees. wp_steps.
  destruct (free_link_timers (shape_of s) k (timers s) (co_timers H)) as [Htm Hch]; [by eexists|done|].
  specialize (HQ (freed Link_vtime k (freed Heard_time k (freed Sym_time k (timers s))))).
  match goal with |- Q tt ?s' => assert (s' = unhooked k (l_neigh l) i (freed Link_vtime k (freed Heard_time k (freed Sym_time k (timers s)))) s) as -> end.
  { unfold unhooked, set_links. simpl. f_equal. by rewrite delete_insert_eq. }
  apply HQ; [|exact Hch]. unfold unhooked. split; autorewrite with nhdp_shape.
  - exact (placed_without_link X (shape_of s) (trees s) k _ i HP El Hi Hb HX).
  - by apply linked_without_link; [apply H|].
  - exact Htm.
  - apply H.
Qed.

(** What the removal of the link [k] leaves. *)
Record link_removed (k : ptr) (l : nhdp_link) (s s' : nhdp_db) : Prop := {
  lr_frame : frame [F_links; F_laddrs; F_l2hops; F_trees; F_timers] s s';
  lr_links : links s' = delete k (unlinked k (links s));
  lr_laddrs p a : laddrs s' !! p = Some a <-> laddrs s !! p = Some a /\ la_link a <> k;
  lr_l2hops p a : l2hops s' !! p = Some a <-> l2hops s !! p = Some a /\ l2_link a <> k;
  lr_neigh_links : trees s' !! Neigh_links (l_neigh l) = filter (fun y => y <> k) <$> trees s !! Neigh_links (l_neigh l);
  lr_timers : link_timers_changed k (timers s) (timers s');
}.

(** The originator node of the link is taken out if there is one. *)
Definition originator_out (s : nhdp_db) (k i : ptr) (n : nhdp_neighbor) : gset (tree_id * ptr) :=
  if is_unspec (originator n) then ∅ else {[(If_link_originators i, k)]}.

Lemma originator_out_wp s k l i f n (m : nhdp_M unit) (Q : unit -> nhdp_db -> Prop) : consistent ∅ s -> links s !! k = Some l -> link_facts s l i f n ->
  (forall s', consistent (originator_out s k i n) s' -> frame [F_trees] s s' -> (forall t, (forall i', t <> If_link_originators i') -> trees s' !! t = trees s !! t) -> wp m s' Q) ->
  wp (l <~ load links k ;;
      n <~ load neighs (l_neigh l) ;;
      (if negb (is_unspec (originator n)) then interf <~ deref (local_if l) ;; avl_remove (If_link_originators interf) k else ret tt) ;;;
      m) s Q.
Proof.
  intros H Hl F HQ. pose proof (lf_neigh F) as Hn. wp_steps. unfold originator_out in HQ. destruct (is_unspec (originator n)) eqn:Eu; simpl.
  - wp_steps. apply HQ; [done|apply frame_refl|done].
  - rewrite (lf_if F). simpl. wp_steps. eapply detach_wp; [exact H|simpl; apply elem_of_dom; eexists; apply F| |set_solver|].
    { exists (view_link l), (view_neigh n). split_and!; [by apply shape_links|apply F|by apply shape_neighs|done]. }
    rewrite union_empty_r_L. intros H'. apply HQ; [exact H'|explicit_frame|].
    intros t Ht. simpl. rewrite drop_node_lookup, decide_False; [done|]. rewrite list_elem_of_singleton. apply Ht.
Qed.

Lemma unlinked_bare s k l : consistent ∅ s -> links s !! k = Some l -> forall x l', unlinked k (links s) !! x = Some l' -> l_partner l' <> Some k.
Proof.
  intros H Hl x l' Hx Ep. destruct (unpaired_paired l_partner with_l_partner ltac:(done) ltac:(by intros) k (links s) (consistent_paired _ _ _ s H) x l' k Hx Ep)
    as (lk & Hk & Epk). assert (unlinked k (links s) !! k = Some lk) as Hk' by exact Hk. rewrite (unlinked_at k _ l Hl) in Hk'. injection Hk' as <-. done.
Qed.

Lemma link_remove_wp s k l (Q : unit -> nhdp_db -> Prop) : consistent ∅ s -> links s !! k = Some l ->
  (forall s', consistent ∅ s' -> link_removed k l s s' -> Q tt s') -> wp (nhdp_db_link_remove k) s Q.
Proof.
  intros H Hl HQ. destruct (link_at _ _ ∅ s k l H Hl) as (i & f & n & F). unfold nhdp_db_link_remove, call. apply wp_seq, wp_modify.
  set (s0 := add_call _ s). apply stop_timers_wp; [by eapply consistent_eq|by eexists|]. intros t1 H1 Ht1 Hact.
  set (s1 := set_timers t1 s0) in *. set (s2 := set_links (fun _ => unlinked k (links s)) s1).
  assert (forall m, (consistent ∅ s2 -> wp m s2 Q) ->
    wp (dual <~ nhdp_db_link_is_dualstack k ;; (if (dual : bool) then nhdp_db_link_disconnect_dualstack k else ret tt) ;;; m) s1 Q) as Hdual.
  { intros m Hm. unfold nhdp_db_link_is_dualstack. wp_steps. destruct (l_partner l) as [p|] eqn:Ep.
    - rule link_disconnect_wp; [exact H1|by eexists|exact Hm].
    - wp_steps. assert (s2 = s1) as E; [|by rewrite <- E; apply Hm; rewrite E].
      unfold s2, unlinked, unpaired, partner_at. rewrite Hl. simpl. by rewrite Ep. }
  apply Hdual. clear Hdual. intros H2. pose proof (unlinked_at k (links s) l Hl) as Hk2.
  assert (link_facts s2 (with_l_partner None l) i f n) as F2 by (by split; apply F).
  eapply (originator_out_wp s2 k _ i f n); [exact H2|exact Hk2|exact F2|]. intros s3 H3 Hf3 Ht3.
  assert (links s3 = links s2 /\ neighs s3 = neighs s2 /\ laddrs s3 = laddrs s2 /\ l2hops s3 = l2hops s2 /\ timers s3 = timers s2) as (El3 & En3 & Ea3 & Eh3 & Etm3).
  { destruct Hf3 as [Hf3 _]. split_and!; [apply (Hf3 F_links)|apply (Hf3 F_neighs)|apply (Hf3 F_laddrs)|apply (Hf3 F_l2hops)|apply (Hf3 F_timers)]; fields. }
  assert (only_originators (originator_out s2 k i n)) as HX.
  { intros t y. unfold originator_out. destruct (is_unspec _); [set_solver|]. rewrite elem_of_singleton. intros [= -> ->]. right. by eexists. }
  wp_steps. rule laddrs_loop_wp; [exact H3|exact HX|rewrite El3; exact Hk2|]. intros s4 H4 Hf4 Ha4 Ht4.
  wp_steps. assert (links s4 = links s3 /\ neighs s4 = neighs s3 /\ l2hops s4 = l2hops s3 /\ timers s4 = timers s3) as (El4 & En4 & Eh4 & Etm4).
  { destruct Hf4 as [Hf4 _]. split_and!; [apply (Hf4 F_links)|apply (Hf4 F_neighs)|apply (Hf4 F_l2hops)|apply (Hf4 F_timers)]; fields. }
  rule l2hops_loop_wp; [exact H4|exact HX|rewrite El4, El3; exact Hk2|]. intros s5 H5 Hf5 Hh5 Ht5 Hact5 Hnow5.
  assert (links s5 = links s4 /\ neighs s5 = neighs s4 /\ laddrs s5 = laddrs s4) as (El5 & En5 & Ea5).
  { destruct Hf5 as [Hf5 _]. split_and!; [apply (Hf5 F_links)|apply (Hf5 F_neighs)|apply (Hf5 F_laddrs)]; fields. }
  assert (links s5 = unlinked k (links s)) as El by (rewrite El5, El4; exact El3).
  assert (neighs s5 = neighs s) as En by (rewrite En5, En4; exact En3).
  eapply (unhook_wp (originator_out s2 k i n) s5 k (with_l_partner None l) i); [exact H5|by rewrite El|apply F|..].
  - split.
    + intros x a. simpl. rewrite lookup_fmap. destruct (laddrs s5 !! x) as [b|] eqn:Eb; [|done]. intros [= _ Ek].
      rewrite Ea5 in Eb. apply Ha4 in Eb as [_ Hne]. done.
    + intros x a z. simpl. rewrite lookup_fmap. destruct (l2hops s5 !! x) as [b|] eqn:Eb; [|done]. intros [= _ Ek _].
      apply Hh5 in Eb as [_ Hne]. done.
    + intros x v. simpl. rewrite lookup_fmap, El. destruct (unlinked k (links s) !! x) as [b|] eqn:Eb; [|done]. intros [= <-].
      by eapply (unlinked_bare s k l).
  - intros t y. assert (neighs s5 !! l_neigh l = Some n) as En1 by (rewrite En; apply F). simpl in *.
    unfold originator_out. destruct (is_unspec (originator n)) eqn:Eu; set_unfold.
    + split; [done|]. intros (-> & Hh & i' & ->). destruct Hh as (l1 & n1 & E1 & E2 & E3 & E4). simpl in E1, E3. rewrite lookup_fmap, El, Hk2 in E1.
      injection E1 as <-. simpl in E3. rewrite lookup_fmap, En1 in E3. injection E3 as <-. simpl in E4. congruence.
    + split.
      * intros [= -> ->]. split; [done|]. split; [|by eexists]. exists (view_link (with_l_partner None l)), (view_neigh n). simpl.
        rewrite !lookup_fmap, El, Hk2, En1. split_and!; try done. apply F.
      * intros (-> & Hh & i' & ->). destruct Hh as (l1 & n1 & E1 & E2 & _). simpl in E1. rewrite lookup_fmap, El, Hk2 in E1. injection E1 as <-.
        simpl in E2. rewrite (lf_if F) in E2. congruence.
  - intros kd Hkd. rewrite Hact5 by (by destruct Hkd as [->|[->| ->]]). rewrite Etm4, Etm3. by apply Hact.
  - intros tm Hc Htm. apply HQ; [exact Hc|]. split.
    + apply (frame_trans _ _ s3); [apply (frame_trans _ _ s2); [explicit_frame|eapply frame_weaken; [exact Hf3|fields]]|].
      apply (frame_trans _ _ s4); [eapply frame_weaken; [exact Hf4|fields]|]. apply (frame_trans _ _ s5); [eapply frame_weaken; [exact Hf5|fields]|explicit_frame].
    + unfold unhooked. simpl. by rewrite El.
    + intros p a. unfold unhooked. simpl. rewrite Ea5, Ha4, Ea3. done.
    + intros p a. unfold unhooked. simpl. rewrite Hh5, Eh4, Eh3. done.
    + unfold unhooked. simpl. rewrite !lookup_delete_ne, drop_node_lookup by done. rewrite decide_True by set_solver.
      rewrite Ht5, Ht4, Ht3 by done. done.
    + unfold unhooked. simpl. destruct Htm as [T1 T2 T3]. destruct Ht1 as [U1 U2 U3]. simpl in *. split.
      * rewrite T1, Hnow5, Etm4, Etm3. exact U1.
      * intros kd p Hp Hkd. rewrite T2, Hact5, Etm4, Etm3 by done. by apply U2.
      * intros p. rewrite T3, Hact5, Etm4, Etm3 by done. apply U3.
Qed.
End unlink.
