(* ===== verification/NhdpNeighbor.v ===== *)
(** Neighbors leave the database of src/nhdp/nhdp/nhdp_db.c: what
    [nhdp_db_neighbor_remove] takes along, and that the database is consistent
    afterwards. *)

From Stdlib Require Import ZArith Lia Sorted.
From stdpp Require Import base list numbers option gmap sets.
From S2P Require Import Prelude AvlSpec StateMonad Rfc5444Values Netaddr MprSelection NhdpDb NhdpDomain Timer ValidityTimer NhdpStore NhdpConsistent NhdpPartners NhdpRemove NhdpUnlink.

Local Open Scope Z_scope.
Local Open Scope state_scope.

Section neighbor.
Context (os_core_get_random : nat -> option Z) (random_u32 : forall n r, os_core_get_random n = Some r -> 0 <= r <= UINT32_MAX).
Context (max_interval : Z) (max_interval_range : 0 <= max_interval <= 2 ^ 56).
Context (timer_info : timer_kind -> positive).
#[local] Notation consistent := (consistent max_interval timer_info).
#[local] Notation timers_ok := (timers_ok max_interval timer_info).
#[local] Ltac rule l := eapply l; try first [exact random_u32 | exact max_interval_range].

(** The same link, perhaps without its partner. *)
Definition same_link (l l' : nhdp_link) : Prop := with_l_partner None l' = with_l_partner None l.

(** The links of [k] are gone, the others are the same. *)
Record links_gone (k : ptr) (s s' : nhdp_db) : Prop := {
  lg_old x l' : links s' !! x = Some l' -> exists l, links s !! x = Some l /\ same_link l l';
  lg_kept x l : links s !! x = Some l -> l_neigh l <> k -> exists l', links s' !! x = Some l' /\ same_link l l';
  lg_laddrs p a : laddrs s' !! p = Some a <-> laddrs s !! p = Some a /\ is_Some (links s' !! la_link a);
  lg_l2hops p a : l2hops s' !! p = Some a <-> l2hops s !! p = Some a /\ is_Some (links s' !! l2_link a);
}.

Lemma same_link_neigh l l' : same_link l l' -> l_neigh l' = l_neigh l /\ status l' = status l /\ local_if l' = local_if l.
Proof. unfold same_link, with_l_partner. destruct l, l'. simpl. intros [= *]. by subst. Qed.

Lemma links_gone_refl X n s : consistent X s -> links_gone n s s.
Proof.
  intros H. split; intros x l; [by exists l|by exists l|..]; (split; [|tauto]); intros Hx; (split; [done|]).
  - destruct (laddr_at _ _ X s x l H Hx) as (? & ? & ? & ? & E & _). by eexists.
  - destruct (l2hop_at _ _ X s x l H Hx) as (? & ? & ? & ? & E & _). by eexists.
Qed.

Lemma unlinked_same k m x : with_l_partner None <$> unlinked k m !! x = with_l_partner None <$> m !! x.
Proof. by apply (unpaired_same l_partner with_l_partner). Qed.

Lemma links_gone_step k n l s s1 s2 : links_gone n s s1 -> links s1 !! k = Some l -> l_neigh l = n -> link_removed k l s1 s2 -> links_gone n s s2.
Proof.
  intros [H1 H2 Ha Hh] Hk Hn R. pose proof (lr_links _ _ _ _ R) as E. assert (forall x l2, unlinked k (links s1) !! x = Some l2 -> exists l1, links s1 !! x = Some l1 /\ same_link l1 l2) as Hb.
  { intros x l2 Ex. pose proof (unlinked_same k (links s1) x) as Es. rewrite Ex in Es. simpl in Es. destruct (links s1 !! x) as [l1|]; [|done].
    injection Es as Es. exists l1. split; [done|]. unfold same_link, with_l_partner. destruct l1, l2. simpl in *. congruence. }
  assert (forall x, is_Some (links s2 !! x) <-> is_Some (links s1 !! x) /\ x <> k) as Hal.
  { intros x. rewrite E, lookup_delete_is_Some. unfold unlinked. rewrite (same_but_alive with_l_partner (links s1)) by (by apply unpaired_same). naive_solver. }
  split; [rewrite E|rewrite E|intros p a; rewrite (lr_laddrs _ _ _ _ R), Ha, Hal; tauto|intros p a; rewrite (lr_l2hops _ _ _ _ R), Hh, Hal; tauto].
  - intros x l2 [_ Hx]%lookup_delete_Some. destruct (Hb x l2 Hx) as (l1 & Hx1 & Es). destruct (H1 x l1 Hx1) as (l0 & ? & ?).
    exists l0. split; [done|]. unfold same_link in *. congruence.
  - intros x l0 Hx Hne. destruct (H2 x l0 Hx Hne) as (l1 & Hx1 & Es). pose proof (unlinked_same k (links s1) x) as Eu. rewrite Hx1 in Eu.
    destruct (unlinked k (links s1) !! x) as [l2|] eqn:E2; [|done]. exists l2. destruct (Hb x l2 E2) as (l1' & ? & ?).
    assert (l1' = l1) as -> by congruence. split; [|unfold same_link in *; congruence].
    rewrite lookup_delete_ne; [done|]. intros <-. apply Hne. rewrite <- Hn. assert (l1 = l) as -> by congruence. by apply same_link_neigh in Es as (-> & _).
Qed.

Lemma links_loop_wp s k n (Q : unit -> nhdp_db -> Prop) : consistent ∅ s -> neighs s !! k = Some n ->
  (forall s', consistent ∅ s' -> frame [F_links; F_laddrs; F_l2hops; F_trees; F_timers] s s' -> links_gone k s s' ->
    (forall x l, links s' !! x = Some l -> l_neigh l <> k) -> (forall p, is_active (timers s') Lost_vtime p = is_active (timers s) Lost_vtime p) ->
    now_times (timers s') = now_times (timers s) -> Q tt s') ->
  wp (for_each_safe (get_tree (Neigh_links k)) nhdp_db_link_remove) s Q.
Proof.
  intros H Hn HQ. destruct (tree_at _ _ ∅ s (Neigh_links k) H) as (ll & El & _); [eexists; by apply shape_neighs|].
  eapply (drain_wp _ _ (fun s1 => consistent ∅ s1 /\ frame [F_links; F_laddrs; F_l2hops; F_trees; F_timers] s s1 /\ links_gone k s s1 /\
    (forall p, is_active (timers s1) Lost_vtime p = is_active (timers s) Lost_vtime p) /\ now_times (timers s1) = now_times (timers s)));
    [split_and!; try done; [apply frame_refl|by eapply links_gone_refl]|exact El|..].
  - intros s1 l1 (H1 & _) E. by apply (pl_nodup (co_placed H1) _ _ E).
  - intros s1 p rest (H1 & Hfr & Hg & Htm & Hnow) E. pose proof (pl_nodup (co_placed H1) _ _ E) as Hnd.
    assert (at_home ∅ (shape_of s1) (Neigh_links k) p) as [(v & Hv & Ek) _] by (apply (pl_mem (co_placed H1) _ _ _ E); left).
    simpl in Hv. rewrite lookup_fmap in Hv. destruct (links s1 !! p) as [l|] eqn:Ep; [|done]. injection Hv as <-. simpl in Ek.
    rule link_remove_wp; [exact H1|exact Ep|]. intros s2 H2 R. split; [split_and!|]; [exact H2|..].
    + eapply frame_trans; [exact Hfr|apply R].
    + eapply links_gone_step; [exact Hg|exact Ep|exact Ek|exact R].
    + intros q. rewrite (lt_naddrs _ _ _ (lr_timers _ _ _ _ R)). apply Htm.
    + by rewrite (lt_now _ _ _ (lr_timers _ _ _ _ R)).
    + pose proof (lr_neigh_links _ _ _ _ R) as Et. rewrite Ek, E in Et. simpl in Et. rewrite Et. f_equal. by apply filter_head.
  - intros s1 (H1 & Hfr & Hg & Htm & Hnow) E. apply HQ; [done..| |done|done]. intros x l Hx Ek.
    assert (x ∈ @nil ptr) as []%elem_of_nil. apply (pl_mem (co_placed H1) _ _ _ E). split; [|set_solver].
    exists (view_link l). split; [by apply shape_links|done].
Qed.

(** The flags of the neighbor are read, and perhaps all domains are marked. *)
Lemma was_mpr_wp ds s k n (Q : bool -> nhdp_db -> Prop) : neighs s !! k = Some n -> length (n_domaindata n) = NHDP_MAXIMUM_DOMAINS ->
  Forall (fun d => (index d < NHDP_MAXIMUM_DOMAINS)%nat /\ is_Some (metric_mem (doms s) !! metric d)) ds -> (forall b, Q b s) -> wp (was_mpr ds k) s Q.
Proof.
  intros Hn Hl Hd HQ. induction Hd as [|d ds [Hi _] _ IH]; simpl; [wp_steps; apply HQ|].
  destruct (lookup_lt_is_Some_2 (n_domaindata n) (index d)) as [nd E]; [by rewrite Hl|].
  unfold neighbordata, data_at. apply wp_seq. wp_steps. rewrite E. wp_steps. destruct (neigh_is_mpr nd); [wp_steps; apply HQ|exact IH].
Qed.

Definition all_outdated (r : registry) : registry :=
  set_domains r (with_outdated true <$> _domain_list r) (with_outdated true (_flooding_domain r)) (_domain_counter r).

Lemma all_outdated_there r : domains_there r -> domains_there (all_outdated r).
Proof. unfold domains_there, all_outdated. simpl. rewrite Forall_fmap. intros H. eapply Forall_impl; [exact H|]. done. Qed.

Lemma delayed_wp X s (Q : unit -> nhdp_db -> Prop) : consistent X s ->
  (consistent X (set_doms all_outdated s) -> Q tt (set_doms all_outdated s)) -> wp nhdp_domain_delayed_mpr_recalculation s Q.
Proof.
  intros H HQ. unfold nhdp_domain_delayed_mpr_recalculation. apply wp_modify, HQ. split; try apply H. simpl. apply all_outdated_there, H.
Qed.

(** The neighbor leaves the list of neighbors; its memory is freed. *)
Definition unlisted (k : ptr) (s : nhdp_db) : nhdp_db :=
  set_neighs (delete k) (set_trees (fun _ =>
    foldr delete (drop_node k [Neigh_list] (trees s)) [Neigh_addresses k; Neigh_link_addresses k; Neigh_links k]) s).

Lemma unlist_wp X s k n (Q : unit -> nhdp_db -> Prop) : consistent X s -> neighs s !! k = Some n -> bare_neigh (shape_of s) k ->
  (forall t y, (t, y) ∈ X <-> y = k /\ home (shape_of s) t k /\ t = Originator_tree) ->
  (consistent ∅ (unlisted k s) -> Q tt (unlisted k s)) ->
  wp (list_remove Neigh_list k ;;; free_trees [Neigh_addresses k; Neigh_link_addresses k; Neigh_links k] ;;; modify (set_neighs (delete k))) s Q.
Proof.
  intros H Hn Hb HX HQ. pose proof (co_placed H) as HP. wp_steps.
  eapply (tree_remove_wp _ (trees s) []); [reflexivity|exact HP|done|..].
  { split; [eexists; by apply shape_neighs|]. rewrite HX. by intros (_ & _ & ?). } { set_solver. } intros s1 ->. unfold free_trees. wp_steps.
  change (Q tt (unlisted k s)). apply HQ. unfold unlisted. split; autorewrite with nhdp_shape.
  - exact (placed_without_neigh X (shape_of s) (trees s) k HP Hb HX).
  - apply linked_without_neigh; [apply H|done].
  - apply H.
  - apply H.
Qed.

Lemma unlinked_neigh_at k m n : m !! k = Some n -> unlinked_neigh k m !! k = Some (with_n_partner None n).
Proof.
  intros Hn. unfold unlinked_neigh. destruct (n_partner n) as [p|] eqn:E.
  - rewrite (unpaired_lookup n_partner with_n_partner ltac:(by intros) k m p); [|unfold partner_at; by rewrite Hn]. by rewrite decide_True, Hn by auto.
  - unfold unpaired, partner_at. rewrite Hn. simpl. rewrite E, Hn. destruct n. simpl in E. by subst.
Qed.

Lemma unlinked_neigh_bare s k n : consistent ∅ s -> neighs s !! k = Some n -> forall x n', unlinked_neigh k (neighs s) !! x = Some n' -> n_partner n' <> Some k.
Proof.
  intros H Hn x n' Hx Ep. destruct (unpaired_paired n_partner with_n_partner ltac:(done) ltac:(by intros) k (neighs s) (consistent_paired_neighs _ _ _ s H) x n' k Hx Ep)
    as (nk & Hk & Epk). assert (unlinked_neigh k (neighs s) !! k = Some nk) as Hk' by exact Hk. rewrite (unlinked_neigh_at k _ n Hn) in Hk'. injection Hk' as <-. done.
Qed.

(** The node of the neighbor in the tree of originators. *)
Definition neigh_out (n : nhdp_neighbor) (k : ptr) : gset (tree_id * ptr) := if is_unspec (originator n) then ∅ else {[(Originator_tree, k)]}.

Lemma neigh_out_wp s k n (Q : unit -> nhdp_db -> Prop) : consistent ∅ s -> neighs s !! k = Some n ->
  (forall s', consistent (neigh_out n k) s' -> frame [F_trees] s s' -> Q tt s') ->
  wp (if negb (is_unspec (originator n)) then avl_remove Originator_tree k else ret tt) s Q.
Proof.
  intros H Hn HQ. unfold neigh_out in HQ. destruct (is_unspec (originator n)) eqn:Eu; simpl.
  - wp_steps. by apply HQ; [|apply frame_refl].
  - rule detach_wp; [exact H|done| |set_solver|].
    { exists (view_neigh n). split; [by apply shape_neighs|done]. }
    rewrite union_empty_r_L. intros H'. apply HQ; [exact H'|explicit_frame].
Qed.

(** What the removal of the neighbor [k] leaves. *)
Record neighbor_removed (k : ptr) (s s' : nhdp_db) : Prop := {
  nr_frame : frame [F_neighs; F_naddrs; F_links; F_laddrs; F_l2hops; F_trees; F_timers; F_doms] s s';
  nr_neighs : neighs s' = delete k (unlinked_neigh k (neighs s));
  nr_naddrs p a : naddrs s' !! p = Some a <-> naddrs s !! p = Some a /\ na_neigh a <> k;
  nr_links : links_gone k s s';
  nr_no_links x l : links s' !! x = Some l -> l_neigh l <> k;
  nr_now : now_times (timers s') = now_times (timers s);
  nr_doms : doms s' = doms s \/ doms s' = all_outdated (doms s);
}.
Lemma bare_neigh_shape s k : (forall p a, naddrs s !! p = Some a -> na_neigh a <> k) -> (forall p l, links s !! p = Some l -> l_neigh l <> k) ->
  (forall p n, neighs s !! p = Some n -> n_partner n <> Some k) -> bare_neigh (shape_of s) k.
Proof.
  intros H1 H2 H3. split; intros x v; simpl; rewrite lookup_fmap.
  - destruct (naddrs s !! x) as [a|] eqn:E; [|done]. intros [= _ Ek]. by apply (H1 x a).
  - destruct (links s !! x) as [a|] eqn:E; [|done]. intros [= <-]. by apply (H2 x a).
  - destruct (neighs s !! x) as [a|] eqn:E; [|done]. intros [= <-]. by apply (H3 x a).
Qed.

Lemma neigh_out_elem s k n t y : neighs s !! k = Some n -> (t, y) ∈ neigh_out n k <-> y = k /\ home (shape_of s) t k /\ t = Originator_tree.
Proof.
  intros Hn. pose proof (shape_neighs _ _ _ Hn) as En. unfold neigh_out. destruct (is_unspec (originator n)) eqn:Eu.
  - rewrite elem_of_empty. split; [done|]. intros (_ & Hh & ->). destruct Hh as (v & Ev & Hv). rewrite En in Ev. injection Ev as <-. simpl in Hv. congruence.
  - rewrite elem_of_singleton. split; [|by intros (-> & _ & ->)]. intros [= -> ->]. split; [done|]. split; [|done]. by eexists.
Qed.

Lemma neighbor_remove_wp s k n (Q : unit -> nhdp_db -> Prop) : consistent ∅ s -> neighs s !! k = Some n ->
  (forall s', consistent ∅ s' -> neighbor_removed k s s' -> Q tt s') -> wp (nhdp_db_neighbor_remove k) s Q.
Proof.
  intros H Hn HQ. unfold nhdp_db_neighbor_remove, call. apply wp_seq, wp_modify. set (s0 := add_call _ s).
  assert (consistent ∅ s0) as H0 by (by eapply consistent_eq). apply wp_seq.
  rule neigh_disconnect_wp; [exact H0|by eexists|]. set (s1 := set_neighs (fun _ => unlinked_neigh k (neighs s0)) s0). intros H1.
  pose proof (unlinked_neigh_at k (neighs s) n Hn) as Hn1. apply wp_seq.
  eapply (links_loop_wp s1 k); [exact H1|exact Hn1|]. intros s2 H2 F2 G2 N2 L2 T2. apply wp_seq.
  assert (neighs s2 = neighs s1) as En2 by (by apply (proj1 F2 F_neighs); fields).
  rule naddrs_loop_wp; [exact H2|by intros t x ?%elem_of_empty|rewrite En2; exact Hn1|]. intros s3 H3 F3 A3 T3 W3.
  assert (neighs s3 = neighs s1) as En3 by (rewrite <- En2; by apply (proj1 F3 F_neighs); fields).
  assert (links s3 = links s2 /\ laddrs s3 = laddrs s2 /\ l2hops s3 = l2hops s2 /\ doms s3 = doms s) as (El3 & Ea3 & Eh3 & Ed3).
  { split_and!; [apply (proj1 F3 F_links)|apply (proj1 F3 F_laddrs)|apply (proj1 F3 F_l2hops)|etrans; [apply (proj1 F3 F_doms)|apply (proj1 F2 F_doms)]]; fields. }
  assert (neighs s3 !! k = Some (with_n_partner None n)) as Hn3 by (rewrite En3; exact Hn1).
  apply wp_seq. wp_steps. eapply neigh_out_wp; [exact H3|exact Hn3|]. intros s4 H4 F4.
  assert (shape_of s4 = shape_of s3 /\ neighs s4 = neighs s3 /\ doms s4 = doms s3) as (Es4 & En4 & Ed4).
  { split_and!; [apply (frame_shape _ _ _ F4)|apply (proj1 F4 F_neighs)|apply (proj1 F4 F_doms)]; fields. }
  wp_steps. eapply (was_mpr_wp _ s4 k); [rewrite En4; exact Hn3|exact (lk_neigh (co_linked H) k _ (shape_neighs _ _ _ Hn))|apply (co_domains H4)|].
  intros mpr. apply wp_seq.
  assert (forall s5, consistent (neigh_out n k) s5 -> frame [F_doms] s4 s5 -> doms s5 = doms s \/ doms s5 = all_outdated (doms s) ->
    wp (list_remove Neigh_list k ;;; free_trees [Neigh_addresses k; Neigh_link_addresses k; Neigh_links k] ;;; modify (set_neighs (delete k))) s5 Q) as Hend.
  { intros s5 H5 F5 D5. assert (frame [F_trees; F_doms] s3 s5) as F5'.
    { eapply frame_trans; [eapply frame_weaken; [exact F4|fields]|eapply frame_weaken; [exact F5|fields]]. }
    assert (links s5 = links s2 /\ laddrs s5 = laddrs s2 /\ l2hops s5 = l2hops s2 /\ naddrs s5 = naddrs s3 /\ neighs s5 = neighs s1 /\ timers s5 = timers s3)
      as (El5 & Ea5 & Eh5 & En5 & Eg5 & Et5).
    { destruct F5' as [F5' _]. split_and!; [rewrite <- El3; apply (F5' F_links)|rewrite <- Ea3; apply (F5' F_laddrs)|rewrite <- Eh3; apply (F5' F_l2hops)|
        apply (F5' F_naddrs)|rewrite <- En3; apply (F5' F_neighs)|apply (F5' F_timers)]; fields. }
    rule unlist_wp; [exact H5|rewrite Eg5; exact Hn1|..].
    - apply bare_neigh_shape; [rewrite En5; by intros p a []%A3|by rewrite El5|rewrite Eg5; by apply (unlinked_neigh_bare s k n)].
    - intros t y. apply (neigh_out_elem s5 k (with_n_partner None n)). rewrite Eg5. exact Hn1.
    - intros Hc. apply HQ; [exact Hc|]. split.
      + apply (frame_trans _ _ s1); [explicit_frame|]. apply (frame_trans _ _ s2); [eapply frame_weaken; [exact F2|fields]|].
        apply (frame_trans _ _ s3); [eapply frame_weaken; [exact F3|fields]|]. apply (frame_trans _ _ s5); [eapply frame_weaken; [exact F5'|fields]|explicit_frame].
      + simpl. by rewrite Eg5.
      + intros p a. simpl. rewrite En5, A3. assert (naddrs s2 = naddrs s) as ->; [|done]. apply (proj1 F2 F_naddrs); fields.
      + destruct G2 as [G1 G3 G4 G5]. split; unfold unlisted; simpl; rewrite ?El5, ?Ea5, ?Eh5; assumption.
      + simpl. by rewrite El5.
      + simpl. rewrite Et5, W3. exact T2.
      + exact D5. }
  destruct mpr; [rule delayed_wp; [exact H4|]; intros H5; apply Hend; [exact H5|explicit_frame|right; simpl; congruence]|].
  apply wp_return, Hend; [exact H4|apply frame_refl|left; congruence]. Qed.
End neighbor.
