(* ===== verification/NhdpAdd.v ===== *)
(** Objects come into the database of src/nhdp/nhdp/nhdp_db.c: neighbors, links,
    their addresses and two-hop neighbors are allocated, linked into the trees and
    lists of their owners, and get timers and metrics. *)

From Stdlib Require Import ZArith Lia Sorted.
From stdpp Require Import base list numbers option gmap sets.
From S2P Require Import Prelude AvlSpec StateMonad Rfc5444Values Netaddr MprSelection NhdpDb NhdpDomain Timer ValidityTimer NhdpStore NhdpConsistent NhdpPartners NhdpRemove NhdpUnlink.

Local Open Scope Z_scope.
Local Open Scope state_scope.

(** * Shapes with one more object *)

Lemma shape_insert_neigh p x s : shape_of (set_neighs <[p := x]> s) = with_neigh p (view_neigh x) (shape_of s).
Proof. unfold shape_of, with_neigh. simpl. by rewrite fmap_insert. Qed.
Lemma shape_insert_naddr p x s : shape_of (set_naddrs <[p := x]> s) = with_naddr p (view_naddr x) (shape_of s).
Proof. unfold shape_of, with_naddr. simpl. by rewrite fmap_insert. Qed.
Lemma shape_insert_link p x s : shape_of (set_links <[p := x]> s) = with_link p (view_link x) (shape_of s).
Proof. unfold shape_of, with_link. simpl. by rewrite fmap_insert. Qed.
Lemma shape_insert_laddr p x s : shape_of (set_laddrs <[p := x]> s) = with_laddr p (view_laddr x) (shape_of s).
Proof. unfold shape_of, with_laddr. simpl. by rewrite fmap_insert. Qed.
Lemma shape_insert_l2hop p x s : shape_of (set_l2hops <[p := x]> s) = with_l2hop p (view_l2hop x) (shape_of s).
Proof. unfold shape_of, with_l2hop. simpl. by rewrite fmap_insert. Qed.

(** A database with a known shape is consistent. *)
Lemma consistent_shape max_interval timer_info X sh s : shape_of s = sh -> placed sh (at_home X sh) (trees s) -> linked sh ->
  timers_ok max_interval timer_info (has_timer sh) (timers s) -> domains_there (doms s) -> consistent max_interval timer_info X s.
Proof. intros <-. by split. Qed.
#[export] Hint Rewrite shape_insert_neigh shape_insert_naddr shape_insert_link shape_insert_laddr shape_insert_l2hop : nhdp_shape.

Lemma change_neigh_wp s p x f (Q : unit -> nhdp_db -> Prop) : neighs s !! p = Some x -> Q tt (set_neighs <[p := f x]> s) -> wp (change_neigh p f) s Q.
Proof. intros Hx HQ. unfold change_neigh, store_neigh. by wp_steps. Qed.
Lemma change_link_wp s p x f (Q : unit -> nhdp_db -> Prop) : links s !! p = Some x -> Q tt (set_links <[p := f x]> s) -> wp (change_link p f) s Q.
Proof. intros Hx HQ. unfold change_link, store_link. by wp_steps. Qed.

(** One more place. *)
Lemma plus_at_home sh sh' t u x y : (home sh' t y <-> home sh t y \/ t = u /\ y = x) -> at_home ∅ sh' t y <-> plus_node u x (at_home ∅ sh) t y.
Proof. unfold plus_node, at_home. rewrite !elem_of_empty. tauto. Qed.
Ltac unchanged_home := split; [by left|by intros [?|[? ?]]].

(** A new object without a property is not among those that have it. *)
Lemma fresh_without {A} (m : gmap ptr A) p v y (P : A -> Prop) : m !! p = None -> ~ P v ->
  (exists n, <[p := v]> m !! y = Some n /\ P n) <-> (exists n, m !! y = Some n /\ P n).
Proof.
  intros Hp Hv. destruct (decide (y = p)) as [->|Hy]; [rewrite lookup_insert_eq, Hp; naive_solver|by setoid_rewrite lookup_insert_ne].
Qed.

(** A new object points to living ones. *)
Lemma insert_alive {A} (m : gmap ptr A) p v x : is_Some (m !! x) -> is_Some (<[p := v]> m !! x).
Proof. destruct (decide (x = p)) as [->|Hx]; [rewrite lookup_insert_eq; by eexists|by rewrite lookup_insert_ne]. Qed.
#[export] Hint Resolve insert_alive : nhdp.

Lemma linked_with_naddr p a n sh : linked sh -> is_Some (sh_neighs sh !! n) -> linked (with_naddr p (a, n) sh).
Proof. intros H Hn. split; simpl; try apply H. intros x b k [[_ [= <- <-]]|[_ Hx]]%lookup_insert_Some; [done|by apply (lk_naddr H x b)]. Qed.
Lemma linked_with_laddr p a k sh : linked sh -> is_Some (sh_links sh !! k) -> linked (with_laddr p (a, k) sh).
Proof. intros H Hn. split; simpl; try apply H. intros x b q [[_ [= <- <-]]|[_ Hx]]%lookup_insert_Some; [done|by apply (lk_laddr H x b)]. Qed.
Lemma linked_with_l2hop p a k sh : linked sh -> is_Some (sh_links sh !! k) -> linked (with_l2hop p (a, k, NHDP_MAXIMUM_DOMAINS) sh).
Proof. intros H Hn. split; simpl; try apply H. intros x b q z [[_ [= <- <- <-]]|[_ Hx]]%lookup_insert_Some; [done|by apply (lk_l2hop H x b)]. Qed.

Lemma linked_with_neigh p v sh : linked sh -> sh_neighs sh !! p = None -> nv_partner v = None -> nv_size v = NHDP_MAXIMUM_DOMAINS -> linked (with_neigh p v sh).
Proof.
  intros H Hp Hv Hs. split; simpl; try apply H.
  - intros x a n Hx. by apply insert_alive, (lk_naddr H x a).
  - intros x l Hx. destruct (lk_link H x l Hx) as (? & ? & ? & ?). split_and!; try done. by apply insert_alive.
  - intros x n [[_ <-]|[_ Hx]]%lookup_insert_Some; [done|by apply (lk_neigh H x n)].
  - intros x n y [[_ <-]|[Hne Hx]]%lookup_insert_Some Hy; [congruence|]. destruct (lk_neigh_partner H x n y Hx Hy) as (n' & ? & ?).
    exists n'. rewrite lookup_insert_ne; [done|]. intros <-. congruence.
Qed.

Lemma linked_with_link p v i sh : linked sh -> sh_links sh !! p = None -> is_Some (sh_neighs sh !! lv_neigh v) -> lv_if v = Some i -> i ∈ sh_ifs sh ->
  lv_partner v = None -> lv_key v = lv_neigh v -> lv_size v = NHDP_MAXIMUM_DOMAINS -> linked (with_link p v sh).
Proof.
  intros H Hp Hn Hi Hf Hv Hk Hs. split; simpl; try apply H.
  - intros x a k Hx. by apply insert_alive, (lk_laddr H x a).
  - intros x a k z Hx. destruct (lk_l2hop H x a k z Hx). split; [by apply insert_alive|done].
  - intros x l [[_ <-]|[_ Hx]]%lookup_insert_Some; [split_and!; [done|by exists i|done|done]|by apply (lk_link H x l)].
  - intros x l y [[_ <-]|[Hne Hx]]%lookup_insert_Some Hy; [congruence|]. destruct (lk_link_partner H x l y Hx Hy) as (l' & ? & ?).
    exists l'. rewrite lookup_insert_ne; [done|]. intros <-. congruence.
Qed.

(** ** Their places *)

Definition neigh_trees (p : ptr) : list tree_id := [Neigh_links p; Neigh_link_addresses p; Neigh_addresses p].

Lemma placed_with_neigh sh tr p v l : placed sh (at_home ∅ sh) tr -> linked sh -> sh_neighs sh !! p = None -> is_unspec (nv_originator v) = true ->
  tr !! Neigh_list = Some l ->
  placed (with_neigh p v sh) (at_home ∅ (with_neigh p v sh)) (<[Neigh_list := l ++ [p]]> (foldr (fun t => <[t := []]>) tr (neigh_trees p))).
Proof.
  intros H HL Hp Hv Hl. assert (placed (with_neigh p v sh) (at_home ∅ sh) (foldr (fun t => <[t := []]>) tr (neigh_trees p))) as H1.
  { eapply placed_init; [exact H|done|..].
    - intros t y Ht [Hh _]. unfold neigh_trees in Ht. rewrite !elem_of_cons, elem_of_nil in Ht.
      destruct Ht as [->|[->|[->|[]]]]; simpl in Hh; destruct_exis; subst.
      + destruct (lk_link HL _ _ H0) as [Ha _]. rewrite Hp in Ha. by destruct Ha.
      + destruct (lk_link HL _ _ H1) as [Ha _]. rewrite Hp in Ha. by destruct Ha.
      + pose proof (lk_naddr HL _ _ _ H0) as Ha. rewrite Hp in Ha. by destruct Ha.
    - intros t y Hs [Hh _]. destruct t; try done. simpl in *. destruct_exis. rewrite lookup_insert_ne; [done|]. intros <-. congruence.
    - intros t. unfold neigh_trees. rewrite !elem_of_cons, elem_of_nil. destruct t; simpl; rewrite ?lookup_insert_is_Some'; naive_solver. }
  eapply placed_same; [eapply (placed_tail _ _ _ Neigh_list p l)|..].
  - exact H1.
  - unfold neigh_trees. simpl. by rewrite !lookup_insert_ne by done.
  - intros [[n Hn] _]. congruence.
  - done.
  - intros t y _. apply plus_at_home. destruct t; simpl; try by unchanged_home.
    + rewrite lookup_insert_is_Some'. naive_solver.
    + rewrite (fresh_without _ p v y (fun n => is_unspec (nv_originator n) = false)) by (done || congruence). by unchanged_home.
    + pose proof (fun l : link_view => fresh_without (sh_neighs sh) p v (lv_neigh l) (fun n => is_unspec (nv_originator n) = false) Hp ltac:(congruence)) as Hf.
      split; [intros (l0 & n & ? & ? & Hn)|intros [(l0 & n & ? & ? & Hn)|[? ?]]; [|done]]; [left|];
        (destruct (proj1 (Hf l0) (ex_intro _ n Hn)) as [n' ?] || destruct (proj2 (Hf l0) (ex_intro _ n Hn)) as [n' ?]); by exists l0, n'.
  - done.
  - done.
Qed.
Lemma placed_with_naddr sh tr p a n : placed sh (at_home ∅ sh) tr -> sh_naddrs sh !! p = None ->
  placed (with_naddr p (a, n) sh) (at_home ∅ sh) tr.
Proof.
  intros H Hp. eapply placed_same; [exact H|done|..].
  - intros t y Hs [Hh _]. destruct t; try done; simpl in *; destruct_exis; (rewrite lookup_insert_ne; [done|]; intros <-); unfold is_Some in *; naive_solver.
  - by intros [].
Qed.
Lemma placed_with_laddr sh tr p a k : placed sh (at_home ∅ sh) tr -> sh_laddrs sh !! p = None ->
  placed (with_laddr p (a, k) sh) (at_home ∅ sh) tr.
Proof.
  intros H Hp. eapply placed_same; [exact H|done|..].
  - intros t y Hs [Hh _]. destruct t; try done; simpl in *; destruct_exis; (rewrite lookup_insert_ne; [done|]; intros <-); unfold is_Some in *; naive_solver.
  - by intros [].
Qed.

Lemma placed_with_l2hop sh tr p v : placed sh (at_home ∅ sh) tr -> sh_l2hops sh !! p = None ->
  placed (with_l2hop p v sh) (at_home ∅ sh) tr.
Proof.
  intros H Hp. eapply placed_same; [exact H|done|..].
  - intros t y Hs [Hh _]. destruct t; try done; simpl in *; destruct_exis; (rewrite lookup_insert_ne; [done|]; intros <-); unfold is_Some in *; naive_solver.
  - by intros [].
Qed.

(** Insertion, with the trees that come out. *)
Lemma put_wp s at_ t x (Q : unit -> nhdp_db -> Prop) : placed (shape_of s) at_ (trees s) -> head_alive (shape_of s) t -> ~ at_ t x -> sorted_tree t || allow_dups t = true ->
  (forall y, sorted_tree t = true -> at_ t y -> shape_key (shape_of s) t y <> shape_key (shape_of s) t x) ->
  (forall tr, placed (shape_of s) (plus_node t x at_) tr -> Q tt (set_trees (fun _ => tr) s)) -> wp (avl_insert t x) s Q.
Proof. intros H Ht Hx Hs Hk HQ. eapply insert_wp; try done. intros l _ HP. by apply (HQ (<[t := tree_add s t x l]> (trees s))). Qed.

Lemma append_wp s at_ t x (Q : unit -> nhdp_db -> Prop) : placed (shape_of s) at_ (trees s) -> head_alive (shape_of s) t -> ~ at_ t x -> sorted_tree t = false ->
  (forall tr, placed (shape_of s) (plus_node t x at_) tr -> Q tt (set_trees (fun _ => tr) s)) -> wp (list_add_tail t x) s Q.
Proof. intros H Ht Hx Hs HQ. eapply tail_wp; try done. intros l _ HP. by apply (HQ (<[t := l ++ [x]]> (trees s))). Qed.

Lemma active_put k p x ts kd q : (kd, q) <> (k, p) -> is_active (put_timer (timer_at k p) x ts) kd q = is_active ts kd q.
Proof. intros Hne. unfold is_active, put_timer. simpl. rewrite lookup_insert_ne; [done|]. intros [-> ->]%timer_at_inj. done. Qed.

(** A list, while the object that owns others is not complete. *)
Lemma append_any_wp s sh at_ t x (Q : unit -> nhdp_db -> Prop) : placed sh at_ (trees s) -> head_alive sh t -> ~ at_ t x -> sorted_tree t = false ->
  (forall tr, placed sh (plus_node t x at_) tr -> Q tt (set_trees (fun _ => tr) s)) -> wp (list_add_tail t x) s Q.
Proof.
  intros H Ht Hx Hs HQ. destruct (placed_tree s _ _ t H Ht) as [l Hl]. unfold list_add_tail, put_tree.
  apply wp_seq. eapply get_tree_wp; [exact Hl|]. wp_steps. by apply (HQ (<[t := l ++ [x]]> (trees s))), placed_tail.
Qed.

Definition link_lists (n i : ptr) : list tree_id := [Link_list; Neigh_links n; If_links i].

Lemma placed_with_link sh at_ tr p v : placed sh at_ tr -> sh_links sh !! p = None -> (forall t y, t = Link_addresses p \/ t = Link_2hop p -> ~ at_ t y) ->
  placed (with_link p v sh) at_ (foldr (fun t => <[t := []]>) tr [Link_2hop p; Link_addresses p]).
Proof.
  intros H Hp Hno. eapply placed_init; [exact H|done|..].
  - intros t y Ht. apply Hno. rewrite !elem_of_cons, elem_of_nil in Ht. tauto.
  - done.
  - intros t. rewrite !elem_of_cons, elem_of_nil. destruct t; simpl; rewrite ?lookup_insert_is_Some'; naive_solver.
Qed.

(** Where a new link is. *)
Lemma home_with_link sh p v i t y : sh_links sh !! p = None -> linked sh -> lv_if v = Some i ->
  home (with_link p v sh) t y <-> home sh t y \/ y = p /\ (t = Link_list \/ t = Neigh_links (lv_neigh v) \/ t = If_links i \/
    t = If_link_originators i /\ exists n, sh_neighs sh !! lv_neigh v = Some n /\ is_unspec (nv_originator n) = false).
Proof.
  intros Hp HL Hi. assert (forall k w, sh_links sh !! k = Some w -> k <> p) as Hne by congruence.
  destruct t; simpl; try (split; [by left|by intros [?|[_ [?|[?|[?|[? _]]]]]]]).
  - destruct (decide (y = p)) as [->|Hy]; [rewrite lookup_insert_eq|rewrite lookup_insert_ne by done]; naive_solver.
  - split; [|intros [(a & k & l & Ha & Hk & ?)|[_ [?|[?|[?|[? _]]]]]]; try done; exists a, k, l; rewrite lookup_insert_ne by (apply not_eq_sym; by eapply Hne); done].
    intros (a & k & l & Ha & Hk & ?). left. exists a, k, l. destruct (lk_laddr HL _ _ _ Ha) as [w Hw].
    rewrite lookup_insert_ne in Hk by (apply not_eq_sym; by eapply Hne). done.
  - destruct (decide (y = p)) as [->|Hy]; [setoid_rewrite lookup_insert_eq; rewrite Hp|setoid_rewrite lookup_insert_ne; [|done]]; naive_solver.
  - destruct (decide (y = p)) as [->|Hy]; [setoid_rewrite lookup_insert_eq; rewrite Hp|setoid_rewrite lookup_insert_ne; [|done]]; naive_solver.
  - split; [|intros [(a & k & l & Ha & Hk & ?)|[_ [?|[?|[?|[? _]]]]]]; try done; exists a, k, l; rewrite lookup_insert_ne by (apply not_eq_sym; by eapply Hne); done].
    intros (a & k & l & Ha & Hk & ?). left. exists a, k, l. destruct (lk_laddr HL _ _ _ Ha) as [w Hw].
    rewrite lookup_insert_ne in Hk by (apply not_eq_sym; by eapply Hne). done.
  - destruct (decide (y = p)) as [->|Hy]; [setoid_rewrite lookup_insert_eq; rewrite Hp|setoid_rewrite lookup_insert_ne; [|done]]; naive_solver.
  - split; [|intros [(a & k & z & l & Ha & Hk & ?)|[_ [?|[?|[?|[? _]]]]]]; try done; exists a, k, z, l; rewrite lookup_insert_ne by (apply not_eq_sym; by eapply Hne); done].
    intros (a & k & z & l & Ha & Hk & ?). left. exists a, k, z, l. destruct (lk_l2hop HL _ _ _ _ Ha) as [[w Hw] _].
    rewrite lookup_insert_ne in Hk by (apply not_eq_sym; by eapply Hne). done.
Qed.

(** * Metrics of new objects *)

Lemma init_domaindata_def {A} (start : nhdp_domain_metric -> A -> A) ds mem data :
  Forall (fun d => (index d < length data)%nat /\ is_Some (mem !! metric d)) ds ->
  exists d, init_domaindata start ds mem data = Def d /\ length d = length data.
Proof.
  revert data. induction ds as [|d ds IH]; intros data H; simpl; [by exists data|]. apply Forall_cons in H as [[Hi [m Hm]] H]. rewrite Hm.
  destruct (lookup_lt_is_Some_2 data (index d) Hi) as [x Hx]. rewrite Hx.
  destruct (no_default_handling m); [|by apply IH].
  destruct (IH (<[index d := start m x]> data)) as (r & -> & Hr); [by rewrite length_insert|]. exists r. by rewrite Hr, length_insert.
Qed.

Lemma init_data_wp {A} (start : nhdp_domain_metric -> A -> A) x s (Q : list A -> nhdp_db -> Prop) : domains_there (doms s) ->
  (forall d, length d = NHDP_MAXIMUM_DOMAINS -> Q d s) -> wp (init_data start x) s Q.
Proof.
  intros H HQ. unfold init_data. wp_steps.
  destruct (init_domaindata_def start (_domain_list (doms s)) (metric_mem (doms s)) (repeat x NHDP_MAXIMUM_DOMAINS)) as (d & E & Hd).
  - eapply Forall_impl; [exact H|]. intros dm. by rewrite repeat_length.
  - eapply wp_lift; [exact E|]. apply HQ. by rewrite Hd, repeat_length.
Qed.

Section add.
Context (os_core_get_random : nat -> option Z) (random_u32 : forall n r, os_core_get_random n = Some r -> 0 <= r <= UINT32_MAX).
Context (max_interval : Z) (max_interval_range : 0 <= max_interval <= 2 ^ 56).
Context (timer_info : timer_kind -> positive).
(** Memory is free when it is handed out. *)
Context (malloc : gset ptr -> nat -> option ptr) (malloc_fresh : forall used n p, malloc used n = Some p -> p ∉ used).
#[local] Notation consistent := (consistent max_interval timer_info).
#[local] Notation timers_ok := (timers_ok max_interval timer_info).
#[local] Ltac rule l := eapply l; try first [exact random_u32 | exact max_interval_range].

(** There is memory. *)
Definition memory : Prop := forall used n, is_Some (malloc used n).

Lemma malloc_wp (used : nhdp_db -> gset ptr) s (Q : option ptr -> nhdp_db -> Prop) :
  (~ memory -> Q None (count_malloc s)) -> (forall p, p ∉ used s -> Q (Some p) (count_malloc s)) -> wp (oonf_class_malloc malloc used) s Q.
Proof.
  intros H1 H2. unfold wp, oonf_class_malloc. destruct (malloc _ _) as [p|] eqn:E; [by eapply H2, malloc_fresh|].
  apply H1. intros M. destruct (M (used s) (mallocs s)) as [q ?]. congruence.
Qed.

Lemma not_in_dom {A} (m : gmap ptr A) p : p ∉ dom m -> m !! p = None.
Proof. apply not_elem_of_dom. Qed.

(** ** Neighbors *)

Record neighbor_added (p : ptr) (s s' : nhdp_db) : Prop := {
  na_frame : frame [F_neighs; F_trees] s s';
  na_fresh : neighs s !! p = None;
  na_neighs : exists d, neighs s' = <[p := with_n_data d new_neighbor]> (neighs s);
}.

Lemma neighbor_add_wp s (Q : option ptr -> nhdp_db -> Prop) : consistent ∅ s -> (~ memory -> Q None (count_malloc s)) ->
  (forall p s', consistent ∅ s' -> neighbor_added p s s' -> Q (Some p) s') -> wp (nhdp_db_neighbor_add malloc) s Q.
Proof.
  intros H HN HS. unfold nhdp_db_neighbor_add. apply wp_seq, malloc_wp; [intros HM; wp_steps; by apply HN|]. intros p Hp%not_in_dom.
  assert (sh_neighs (shape_of s) !! p = None) as Hp' by (simpl; by rewrite lookup_fmap, Hp).
  destruct (tree_at _ _ ∅ s Neigh_list H) as (l & El & _); [done|].
  unfold store_neigh, tree_init, put_tree, list_add_tail, call. wp_steps.
  eapply get_tree_wp; [simpl; rewrite !lookup_insert_ne by done; exact El|]. unfold put_tree. wp_steps.
  unfold nhdp_domain_init_neighbor. apply init_data_wp; [apply H|]. intros d Hd. wp_steps.
  eapply change_neigh_wp; [apply lookup_insert_eq|]. wp_steps. apply HS.
  - apply (consistent_shape _ _ _ (with_neigh p (view_neigh (with_n_data d new_neighbor)) (shape_of s))).
    + unfold shape_of, with_neigh. simpl. by rewrite insert_insert_eq, fmap_insert.
    + by apply (placed_with_neigh (shape_of s) (trees s) p _ l (co_placed H) (co_linked H) Hp').
    + by apply linked_with_neigh; [apply H|..].
    + eapply timers_iff; [apply H|]. by intros [].
    + apply H.
  - split; [explicit_frame|done|]. exists d. simpl. by rewrite insert_insert_eq.
Qed.

(** ** Addresses of neighbors *)

Definition has_naddr (s : nhdp_db) (a : netaddr) : Prop := exists p x, naddrs s !! p = Some x /\ neigh_addr x = a.

Record naddr_added (p n : ptr) (a : netaddr) (s s' : nhdp_db) : Prop := {
  aa_frame : frame [F_naddrs; F_trees; F_timers] s s';
  aa_fresh : naddrs s !! p = None;
  aa_naddrs : naddrs s' = <[p := {| neigh_addr := a; na_neigh := n |}]> (naddrs s);
  aa_active kd q : (kd, q) <> (Lost_vtime, p) -> is_active (timers s') kd q = is_active (timers s) kd q;
  aa_now : now_times (timers s') = now_times (timers s);
}.


Lemma naddr_add_wp s n a (Q : option ptr -> nhdp_db -> Prop) : consistent ∅ s -> is_Some (neighs s !! n) -> ~ has_naddr s a -> (~ memory -> Q None (count_malloc s)) ->
  (forall p s', consistent ∅ s' -> naddr_added p n a s s' -> Q (Some p) s') -> wp (nhdp_db_neighbor_addr_add timer_info malloc n a) s Q.
Proof.
  intros H [x Hx] Ha HN HS. unfold nhdp_db_neighbor_addr_add. apply wp_seq, malloc_wp; [intros HM; wp_steps; by apply HN|]. intros p Hp%not_in_dom.
  assert (sh_naddrs (shape_of s) !! p = None) as Hp' by (simpl; by rewrite lookup_fmap, Hp).
  assert (forall y b m, sh_naddrs (shape_of s) !! y = Some (b, m) -> b <> a) as Hkey.
  { intros y b m. simpl. rewrite lookup_fmap. destruct (naddrs s !! y) as [v|] eqn:E; [|done]. intros [= <- _] Ea. apply Ha. by exists y, v. }
  pose proof (placed_with_naddr (shape_of s) (trees s) p a n (co_placed H) Hp') as HP.
  unfold store_naddr, timer_init, call. wp_steps.
  set (s1 := set_naddrs _ _). assert (shape_of s1 = with_naddr p (a, n) (shape_of s)) as E1 by (unfold s1; by autorewrite with nhdp_shape).
  set (tm := put_timer _ _ _). set (s2 := set_timers tm s1). assert (shape_of s2 = with_naddr p (a, n) (shape_of s)) as E2 by done.
  eapply put_wp; [rewrite E2; exact HP|done|intros [[v Hv] _]; congruence|done|..].
  { intros y _ [[[b m] Hy] _]. rewrite E2. simpl. rewrite lookup_insert_eq, lookup_insert_ne by congruence. simpl in Hy. rewrite Hy. simpl. by eapply Hkey. }
  intros tr1 HP1. wp_steps. eapply put_wp; [exact HP1|by eexists; apply shape_neighs| |done|..].
  { intros [[[v Hv] _]|[? ?]]; [congruence|done]. }
  { intros y _ [[[b Hy] _]|[? ?]]; [|done]. rewrite shape_set_trees, E2. simpl. rewrite lookup_insert_eq, lookup_insert_ne by congruence. simpl in Hy. rewrite Hy. simpl. by eapply Hkey. }
  intros tr2 HP2. wp_steps. rewrite shape_set_trees, E2 in HP2. apply HS.
  - apply (consistent_shape _ _ _ (with_naddr p (a, n) (shape_of s))); [exact E2|..].
    + eapply placed_same; [exact HP2|..|done].
      * intros t y _. unfold plus_node, at_home. destruct t; simpl; rewrite ?lookup_insert_is_Some'; try setoid_rewrite lookup_insert_Some; set_unfold; naive_solver.
      * done.
    + apply linked_with_naddr; [apply H|]. by eexists; apply shape_neighs.
    + eapply timers_alloc; [exact random_u32|exact max_interval_range|apply H|..].
      * intros [v Hv]. congruence.
      * intros kd q. destruct kd; simpl; rewrite ?lookup_insert_is_Some'; naive_solver.
    + apply H.
  - split; [explicit_frame|done|done| |done]. intros kd q Hne. by apply active_put.
Qed.

(** ** Addresses of links *)

(** The address is one of a link of interface [i]. *)
Definition has_laddr (s : nhdp_db) (i : ptr) (a : netaddr) : Prop :=
  exists p x l, laddrs s !! p = Some x /\ link_addr x = a /\ links s !! la_link x = Some l /\ local_if l = Some i.

Record laddr_added (p k : ptr) (a : netaddr) (s s' : nhdp_db) : Prop := {
  ka_frame : frame [F_laddrs; F_trees] s s';
  ka_fresh : laddrs s !! p = None;
  ka_laddrs : laddrs s' = <[p := {| link_addr := a; la_link := k |}]> (laddrs s);
}.

Lemma laddr_keys s i a : ~ has_laddr s i a -> forall y b k l, sh_laddrs (shape_of s) !! y = Some (b, k) -> sh_links (shape_of s) !! k = Some l ->
  lv_if l = Some i -> b <> a.
Proof.
  intros H y b k l. simpl. rewrite !lookup_fmap. destruct (laddrs s !! y) as [x|] eqn:E; [|done]. intros [= <- <-].
  destruct (links s !! la_link x) as [l'|] eqn:E'; [|done]. intros [= <-] Hi Ea. apply H. by exists y, x, l'.
Qed.

Lemma laddr_add_wp s k l i a (Q : option ptr -> nhdp_db -> Prop) : consistent ∅ s -> links s !! k = Some l -> local_if l = Some i -> ~ has_laddr s i a ->
  (~ memory -> Q None (count_malloc s)) -> (forall p s', consistent ∅ s' -> laddr_added p k a s s' -> Q (Some p) s') -> wp (nhdp_db_link_addr_add malloc k a) s Q.
Proof.
  intros H Hl Hi Ha HN HS. destruct (link_at _ _ ∅ s k l H Hl) as (i' & f & n & F). assert (i' = i) as -> by (destruct F; congruence).
  unfold nhdp_db_link_addr_add. apply wp_seq, malloc_wp; [intros HM; wp_steps; by apply HN|]. intros p Hp%not_in_dom.
  pose proof (laddr_keys s i a Ha) as Hkey. pose proof (shape_links _ _ _ Hl) as Hl'. pose proof (shape_neighs _ _ _ (lf_neigh F)) as Hn'.
  assert (sh_laddrs (shape_of s) !! p = None) as Hp' by (simpl; by rewrite lookup_fmap, Hp).
  pose proof (placed_with_laddr (shape_of s) (trees s) p a k (co_placed H) Hp') as HP.
  unfold store_laddr, call. wp_steps.
  set (s1 := set_laddrs _ _). assert (shape_of s1 = with_laddr p (a, k) (shape_of s)) as E1 by (unfold s1; by autorewrite with nhdp_shape).
  eapply put_wp; [rewrite E1; exact HP|by eexists|intros [[v Hv] _]; congruence|done|..].
  { intros y _ [[b Hy] _]. rewrite E1. simpl. rewrite lookup_insert_eq, lookup_insert_ne by congruence. simpl in Hy. rewrite Hy. simpl. by eapply Hkey. }
  intros tr1 HP1. wp_steps. eapply put_wp; [exact HP1|by eexists| |done|by intros y ?|..].
  { intros [[(v & k' & l' & Hv & _) _]|[? ?]]; [congruence|done]. }
  intros tr2 HP2. wp_steps. rewrite Hi. simpl. wp_steps. eapply put_wp; [exact HP2| | |done|..].
  { simpl. apply elem_of_dom. exists f. apply F. }
  { intros [[[(v & k' & l' & Hv & _) _]|[? ?]]|[? ?]]; [congruence|done..]. }
  { intros y _ [[[(b & k' & l' & Hy & Hk' & Hi') _]|[? ?]]|[? ?]]; [|done..]. rewrite !shape_set_trees, E1. simpl.
    rewrite lookup_insert_eq, lookup_insert_ne by congruence. simpl in Hy. rewrite Hy. simpl. by eapply Hkey. }
  intros tr3 HP3. wp_steps. rewrite !shape_set_trees, E1 in HP3. apply HS.
  - apply (consistent_shape _ _ _ (with_laddr p (a, k) (shape_of s))); [exact E1|..].
    + eapply placed_same; [exact HP3| |done|done].
      intros t y _. unfold plus_node, at_home. destruct t; simpl; try setoid_rewrite lookup_insert_Some; set_unfold; naive_solver.
    + apply linked_with_laddr; [apply H|]. by eexists.
    + apply H.
    + apply H.
  - by split; [explicit_frame|..].
Qed.
(** ** Two-hop neighbors *)

Definition has_l2hop (s : nhdp_db) (k : ptr) (a : netaddr) : Prop := exists p x, l2hops s !! p = Some x /\ twohop_addr x = a /\ l2_link x = k.

Record l2hop_added (p k : ptr) (a : netaddr) (s s' : nhdp_db) : Prop := {
  ta_frame : frame [F_l2hops; F_trees; F_timers] s s';
  ta_fresh : l2hops s !! p = None;
  ta_l2hops : exists d, l2hops s' = <[p := {| twohop_addr := a; same_interface := false; l2_link := k; l2_domaindata := d |}]> (l2hops s);
  ta_active kd q : (kd, q) <> (L2hop_vtime, p) -> is_active (timers s') kd q = is_active (timers s) kd q;
  ta_now : now_times (timers s') = now_times (timers s);
}.

Lemma l2hop_add_wp s k l i a (Q : option ptr -> nhdp_db -> Prop) : consistent ∅ s -> links s !! k = Some l -> local_if l = Some i -> ~ has_l2hop s k a ->
  (~ memory -> Q None (count_malloc s)) -> (forall p s', consistent ∅ s' -> l2hop_added p k a s s' -> Q (Some p) s') -> wp (nhdp_db_link_2hop_add timer_info malloc k a) s Q.
Proof.
  intros H Hl Hi Ha HN HS. destruct (link_at _ _ ∅ s k l H Hl) as (i' & f & n & F). assert (i' = i) as -> by (destruct F; congruence).
  unfold nhdp_db_link_2hop_add. apply wp_seq, malloc_wp; [intros HM; wp_steps; by apply HN|]. intros p Hp%not_in_dom.
  pose proof (shape_links _ _ _ Hl) as Hl'. assert (sh_l2hops (shape_of s) !! p = None) as Hp' by (simpl; by rewrite lookup_fmap, Hp).
  assert (forall y b z, sh_l2hops (shape_of s) !! y = Some (b, k, z) -> b <> a) as Hkey.
  { intros y b z. simpl. rewrite lookup_fmap. destruct (l2hops s !! y) as [v|] eqn:E; [|done]. intros [= <- Ek _] Ea. apply Ha. by exists y, v. }
  pose proof (placed_with_l2hop (shape_of s) (trees s) p (a, k, 0%nat) (co_placed H) Hp') as HP.
  unfold store_l2hop, timer_init, call. wp_steps.
  set (s1 := set_l2hops _ _). assert (shape_of s1 = with_l2hop p (a, k, 0%nat) (shape_of s)) as E1 by (unfold s1; by autorewrite with nhdp_shape).
  set (tm := put_timer _ _ _). set (s2 := set_timers tm s1). assert (shape_of s2 = with_l2hop p (a, k, 0%nat) (shape_of s)) as E2 by done.
  eapply put_wp; [rewrite E2; exact HP|by eexists|intros [(v & z & Hv) _]; congruence|done|..].
  { intros y _ [(b & z & Hy) _]. rewrite E2. simpl. rewrite lookup_insert_eq, lookup_insert_ne by congruence. simpl in Hy. rewrite Hy. simpl. by eapply Hkey. }
  intros tr1 HP1. wp_steps. rewrite Hi. simpl. wp_steps. eapply put_wp; [exact HP1| | |done|by intros y ?|..].
  { simpl. apply elem_of_dom. exists f. apply F. }
  { intros [[(v & k' & z & l' & Hv & _) _]|[? ?]]; [congruence|done]. }
  intros tr2 HP2. wp_steps. rewrite !shape_set_trees, E2 in HP2. unfold nhdp_domain_init_l2hop. apply init_data_wp; [apply H|]. intros d Hd. wp_steps.
  eapply wp_read; [apply lookup_insert_eq|]. wp_steps. apply HS.
  - apply (consistent_shape _ _ _ (with_l2hop p (a, k, NHDP_MAXIMUM_DOMAINS) (shape_of s))).
    + unfold shape_of, with_l2hop. simpl. rewrite insert_insert_eq, fmap_insert. unfold view_l2hop. simpl. by rewrite Hd.
    + eapply placed_same; [exact HP2|..|done].
      * intros t y _. unfold plus_node, at_home. destruct t; simpl; try setoid_rewrite lookup_insert_Some; set_unfold; naive_solver.
      * intros t y Hs _. destruct t; try done. simpl. destruct (decide (y = p)) as [->|Hy]; [by rewrite !lookup_insert_eq|by rewrite !lookup_insert_ne].
    + apply linked_with_l2hop; [apply H|]. by eexists.
    + rule timers_alloc; [apply H|..].
      * intros [v Hv]. congruence.
      * intros kd q. destruct kd; simpl; rewrite ?lookup_insert_is_Some'; naive_solver.
    + apply H.
  - split; [explicit_frame|done|eexists; simpl; by rewrite insert_insert_eq| |done]. intros kd q Hne. by apply active_put.
Qed.
(** ** Links *)

#[local] Notation neigh_view_at s n v := (sh_neighs (shape_of s) !! n = Some v).

Definition put_link_timers (p : ptr) (ts : timer_state) : timer_state :=
  foldr (fun kd => put_timer (timer_at kd p) (cleared_timer (timer_info kd))) ts [Link_vtime; Heard_time; Sym_time].

Lemma put_link_timers_ok sh p v ts : timers_ok (has_timer sh) ts -> sh_links sh !! p = None -> timers_ok (has_timer (with_link p v sh)) (put_link_timers p ts).
Proof.
  intros H Hp. assert (~ is_Some (sh_links sh !! p)) as Hno by (rewrite Hp; by intros [? ?]).
  apply (timers_iff _ _ (fun kd q => ((has_timer sh kd q \/ (kd, q) = (Sym_time, p)) \/ (kd, q) = (Heard_time, p)) \/ (kd, q) = (Link_vtime, p))).
  - rule (timers_alloc os_core_get_random random_u32 max_interval max_interval_range timer_info (fun kd q => (has_timer sh kd q \/ (kd, q) = (Sym_time, p)) \/ (kd, q) = (Heard_time, p)));
      [|intros [[?|?]|?]; done|done].
    rule (timers_alloc os_core_get_random random_u32 max_interval max_interval_range timer_info (fun kd q => has_timer sh kd q \/ (kd, q) = (Sym_time, p))); [|intros [?|?]; done|done].
    by rule timers_alloc; [exact H|..].
  - intros kd q. destruct kd; simpl; rewrite ?lookup_insert_is_Some'; naive_solver.
Qed.

Lemma put_link_timers_active p ts kd q : q <> p \/ kd = Lost_vtime \/ kd = L2hop_vtime -> is_active (put_link_timers p ts) kd q = is_active ts kd q.
Proof. intros Hq. unfold put_link_timers. cbn [foldr]. rewrite !active_put; [done|intros [= -> ->]; naive_solver..]. Qed.

Record link_added (p n i : ptr) (s s' : nhdp_db) : Prop := {
  la_frame : frame [F_links; F_trees; F_timers] s s';
  la_fresh : links s !! p = None;
  la_links : exists d, links s' = <[p := with_l_data d (with_status_change (oonf_clock_getNow (timers s)) (new_link n i))]> (links s);
  la_active kd q : q <> p \/ kd = Lost_vtime \/ kd = L2hop_vtime -> is_active (timers s') kd q = is_active (timers s) kd q;
  la_now : now_times (timers s') = now_times (timers s);
}.

Lemma link_add_wp s n i nb (Q : option ptr -> nhdp_db -> Prop) : consistent ∅ s -> neighs s !! n = Some nb -> is_Some (ifs s !! i) ->
  (~ memory -> Q None (count_malloc s)) -> (forall p s', consistent ∅ s' -> link_added p n i s s' -> Q (Some p) s') -> wp (nhdp_db_link_add timer_info malloc n i) s Q.
Proof.
  intros H Hn Hi HN HS. unfold nhdp_db_link_add. apply wp_seq, malloc_wp; [intros HM; wp_steps; by apply HN|]. intros p Hp%not_in_dom.
  pose proof (shape_neighs _ _ _ Hn) as Hn'. assert (sh_links (shape_of s) !! p = None) as Hp' by (simpl; by rewrite lookup_fmap, Hp).
  assert (i ∈ sh_ifs (shape_of s)) as Hi' by by apply elem_of_dom.
  unfold store_link, tree_init, put_tree, timer_init, call. wp_steps. set (s1 := set_links _ _).
  eapply (append_any_wp s1 (shape_of s)); [apply H|exact Hi'|intros [(v & Hv & _) _]; congruence|done|]. intros tr1 HP1. wp_steps.
  eapply append_any_wp; [exact HP1|by eexists|intros [[(v & Hv & _) _]|[? ?]]; [congruence|done]|done|]. intros tr2 HP2. wp_steps.
  eapply append_any_wp; [exact HP2|done|intros [[[[v Hv] _]|[? ?]]|[? ?]]; [congruence|done..]|done|]. intros tr3 HP3. wp_steps.
  set (tr4 := foldr (fun t => <[t := []]>) tr3 [Link_2hop p; Link_addresses p]).
  match goal with |- wp _ ?s' _ => change s' with (set_timers (put_link_timers p (timers s)) (set_trees (fun _ => tr4) s1)) end.
  set (v0 := view_link (new_link n i)). assert (shape_of s1 = with_link p v0 (shape_of s)) as E1 by (unfold s1; by autorewrite with nhdp_shape).
  assert (placed (with_link p v0 (shape_of s)) (plus_node Link_list p (plus_node (Neigh_links n) p (plus_node (If_links i) p (at_home ∅ (shape_of s))))) tr4) as HP4.
  { apply placed_with_link; [exact HP3|exact Hp'|]. intros t y Ht [[[[Hh _]|[? _]]|[? _]]|[? _]]; [|by destruct Ht; subst..].
    destruct Ht as [->| ->]; simpl in Hh.
    - destruct Hh as [a Ha]. destruct (lk_laddr (co_linked H) _ _ _ Ha). congruence.
    - destruct Hh as (a & z & Ha). destruct (lk_l2hop (co_linked H) _ _ _ _ Ha) as [[? ?] _]. congruence. }
  assert (forall tr, placed (with_link p v0 (shape_of s)) (at_home ∅ (with_link p v0 (shape_of s))) tr -> wp (t <~ now ;; change_link p (with_status_change t) ;;;
      d <~ nhdp_domain_init_link ;; change_link p (with_l_data d) ;;; modify (add_call (Link_event p OONF_OBJECT_ADDED)) ;;; ret (Some p))
    (set_timers (put_link_timers p (timers s)) (set_trees (fun _ => tr) s1)) Q) as Hend.
  { intros tr HP. unfold now. wp_steps. eapply change_link_wp; [apply lookup_insert_eq|]. wp_steps. unfold nhdp_domain_init_link, now. wp_steps.
    apply init_data_wp; [apply H|]. intros d Hd. wp_steps. eapply change_link_wp; [apply lookup_insert_eq|]. wp_steps. apply HS.
    - set (v := {| lv_neigh := n; lv_if := Some i; lv_partner := None; lv_key := n; lv_size := NHDP_MAXIMUM_DOMAINS |}).
      apply (consistent_shape _ _ _ (with_link p v (shape_of s))).
      + unfold shape_of, with_link. simpl. rewrite !insert_insert_eq, fmap_insert. unfold view_link. simpl. by rewrite Hd.
      + eapply places_placed; [|exact HP]. split; try done. intros x. simpl.
        destruct (decide (x = p)) as [->|Hx]; [by rewrite !lookup_insert_eq|by rewrite !lookup_insert_ne].
      + by apply (linked_with_link p v i); [apply H|..].
      + by apply put_link_timers_ok; [apply H|].
      + apply H.
    - split; [explicit_frame|done|eexists; simpl; by rewrite !insert_insert_eq|by intros; apply put_link_timers_active|done]. }
  pose proof (fun t y => home_with_link (shape_of s) p v0 i t y Hp' (co_linked H) eq_refl) as Hhome. simpl in Hhome.
  wp_steps. destruct (is_unspec (originator nb)) eqn:Eu; simpl.
  - wp_steps. apply (Hend tr4). eapply placed_same; [exact HP4| |done|done]. intros t y _. unfold at_home, plus_node. rewrite Hhome, !elem_of_empty.
    assert (~ exists v, neigh_view_at s n v /\ is_unspec (nv_originator v) = false) as Hno by (intros (v & Hv & Hs); rewrite Hn' in Hv; injection Hv as <-; simpl in Hs; congruence).
    simpl in Hno. naive_solver.
  - eapply put_wp; [rewrite shape_set_timers, shape_set_trees, E1; exact HP4|exact Hi'| |done|by intros|].
    { intros [[[[(v & w & Hv & _) _]|[? _]]|[? _]]|[? _]]; [congruence|done..]. }
    intros tr5 HP5. rewrite shape_set_timers, shape_set_trees, E1 in HP5. apply (Hend tr5). eapply placed_same; [exact HP5| |done|done].
    intros t y _. unfold at_home, plus_node. rewrite Hhome, !elem_of_empty.
    assert (exists v, neigh_view_at s n v /\ is_unspec (nv_originator v) = false) as Hyes by (exists (view_neigh nb); split; [exact Hn'|done]).
    simpl in Hyes. naive_solver.
Qed.
End add.
