(* ===== verification/NhdpMove.v ===== *)
(** Addresses move from one owner to another in the database of
    src/nhdp/nhdp/nhdp_db.c, and neighbors get originators. *)

From Stdlib Require Import ZArith Lia Sorted.
From stdpp Require Import base list numbers option gmap sets.
From S2P Require Import Prelude AvlSpec StateMonad Rfc5444Values Netaddr MprSelection NhdpDb NhdpDomain Timer ValidityTimer NhdpStore NhdpConsistent NhdpPartners NhdpRemove NhdpUnlink NhdpAdd.

Local Open Scope Z_scope.
Local Open Scope state_scope.

Lemma placed_unique sh at_ tr t x y : placed sh at_ tr -> head_alive sh t -> sorted_tree t = true -> at_ t x -> at_ t y ->
  shape_key sh t x = shape_key sh t y -> x = y.
Proof.
  intros H Ht Hs Hx Hy E. apply (pl_head H) in Ht as [l Hl]. eapply (find_in (shape_key sh t) l); [by apply (pl_strict H)|by apply (pl_mem H t l)..|done].
Qed.

(** A lookup finds the object with the key, if there is one. *)
Lemma find_wp s at_ t a (Q : option ptr -> nhdp_db -> Prop) : placed (shape_of s) at_ (trees s) -> head_alive (shape_of s) t -> sorted_tree t = true ->
  (forall y, at_ t y -> shape_key (shape_of s) t y = a -> Q (Some y) s) ->
  ((forall y, at_ t y -> shape_key (shape_of s) t y <> a) -> Q None s) -> wp (avl_find_element t a) s Q.
Proof.
  intros H Ht Hs HS HN. destruct (placed_tree s _ _ t H Ht) as [l Hl]. unfold avl_find_element. apply wp_seq. eapply get_tree_wp; [exact Hl|]. wp_steps.
  assert (tree_strict (tree_key s t) avl_comp_netaddr l) as Hst.
  { eapply tree_strict_key_ext; [|by apply (pl_strict H t)]. intros y _. by apply tree_key_shape. }
  pose proof (proj1 (tree_find_spec (tree_key s t) avl_comp_netaddr a l _ Hst) eq_refl) as Hf. destruct (tree_find _ _ _ _) as [y|].
  - destruct Hf as [Hy Hk]. apply netaddr_cmp_eq in Hk. rewrite tree_key_shape in Hk by done. apply HS; [by apply (pl_mem H t l)|done].
  - apply HN. intros y Hy E. apply (Hf y); [by apply (pl_mem H t l)|]. apply netaddr_cmp_eq. by rewrite tree_key_shape.
Qed.

Lemma home_moved_naddr sh p a old n t y : sh_naddrs sh !! p = Some (a, old) ->
  home (with_naddr p (a, n) sh) t y <-> (home sh t y /\ ~ (t = Neigh_addresses old /\ y = p)) \/ t = Neigh_addresses n /\ y = p.
Proof.
  intros Hp. destruct t; simpl; try (split; [intros ?; left; split; [done|by intros [? ?]]|intros [[? _]|[? _]]; done]).
  - rewrite lookup_insert_is_Some'. split; [intros [<-|?]; left; (split; [first [done | by exists (a, old)]|by intros [? ?]])|intros [[? _]|[? _]]; [by right|done]].
  - destruct (decide (y = p)) as [->|Hy].
    + setoid_rewrite lookup_insert_eq. rewrite Hp. split; [intros [b [= <- <-]]; by right|intros [[[b [= <- <-]] Hne]|[[= ->] _]]; [by destruct Hne|by eexists]].
    + setoid_rewrite lookup_insert_ne; [|done]. split; [intros ?; left; split; [done|by intros [? ?]]|by intros [[? _]|[_ ?]]].
Qed.

Lemma home_moved_laddr sh p a old k lo ln t y : sh_laddrs sh !! p = Some (a, old) -> sh_links sh !! old = Some lo -> sh_links sh !! k = Some ln -> lv_if lo = lv_if ln ->
  home (with_laddr p (a, k) sh) t y <->
    (home sh t y /\ ~ (t = Link_addresses old /\ y = p) /\ ~ (t = Neigh_link_addresses (lv_neigh lo) /\ y = p)) \/
    t = Link_addresses k /\ y = p \/ t = Neigh_link_addresses (lv_neigh ln) /\ y = p.
Proof.
  intros Hp Ho Hk Hi. destruct t; simpl; try (split; [intros ?; left; split_and!; [done|by intros [? ?]..]|intros [[? _]|[[? _]|[? _]]]; done]).
  - destruct (decide (y = p)) as [->|Hy].
    + setoid_rewrite lookup_insert_eq. rewrite Hp. split; [intros (b & q & l & [= <- <-] & ? & <-); right; right; split; [f_equal; congruence|done]|].
      intros [((b & q & l & [= <- <-] & ? & <-) & _ & Hne)|[[? _]|[[= ->] _]]]; [|done|by eexists _, _, _]. destruct Hne. split; [f_equal; congruence|done].
    + setoid_rewrite lookup_insert_ne; [|done]. split; [intros ?; left; split_and!; [done|by intros [? ?]..]|by intros [[? _]|[[? _]|[_ ?]]]].
  - destruct (decide (y = p)) as [->|Hy].
    + setoid_rewrite lookup_insert_eq. rewrite Hp. split; [intros [b [= <- <-]]; by right; left|intros [[[b [= <- <-]] [Hne _]]|[[[= ->] _]|[? _]]]; [by destruct Hne|by eexists|done]].
    + setoid_rewrite lookup_insert_ne; [|done]. split; [intros ?; left; split_and!; [done|by intros [? ?]..]|by intros [[? _]|[[_ ?]|[? _]]]].
  - destruct (decide (y = p)) as [->|Hy]; [setoid_rewrite lookup_insert_eq; rewrite Hp|setoid_rewrite lookup_insert_ne; [|done]].
    + split; [intros (b & q & l & [= <- <-] & ? & ?); left; split_and!; [eexists _, _, _; split_and!; try done; congruence|by intros [? ?]..]|].
      intros [[(b & q & l & [= <- <-] & ? & ?) _]|[[? _]|[? _]]]; [|done..]. eexists _, _, _. split_and!; try done. congruence.
    + split; [intros ?; left; split_and!; [done|by intros [? ?]..]|by intros [[? _]|[[? _]|[? _]]]].
Qed.

Section move.
Context (os_core_get_random : nat -> option Z) (random_u32 : forall n r, os_core_get_random n = Some r -> 0 <= r <= UINT32_MAX).
Context (max_interval : Z) (max_interval_range : 0 <= max_interval <= 2 ^ 56).
Context (timer_info : timer_kind -> positive).
#[local] Notation consistent := (consistent max_interval timer_info).
#[local] Notation timers_ok := (timers_ok max_interval timer_info).
#[local] Ltac rule l := eapply l; try first [exact random_u32 | exact max_interval_range].

Definition naddr_moved (p n : ptr) (x : nhdp_naddr) (s s' : nhdp_db) : Prop :=
  frame [F_naddrs; F_trees] s s' /\ naddrs s' = <[p := {| neigh_addr := neigh_addr x; na_neigh := n |}]> (naddrs s).

Lemma naddr_move_wp s p n x (Q : unit -> nhdp_db -> Prop) : consistent ∅ s -> naddrs s !! p = Some x -> is_Some (neighs s !! n) ->
  (forall s', consistent ∅ s' -> naddr_moved p n x s s' -> Q tt s') -> wp (nhdp_db_neighbor_addr_move n p) s Q.
Proof.
  intros H Hx [nb Hn] HQ. pose proof (shape_naddrs _ _ _ Hx) as Hx'. destruct (naddr_at _ _ ∅ s p x H Hx) as [old Hold].
  assert (forall y b m, sh_naddrs (shape_of s) !! y = Some (b, m) -> b = neigh_addr x -> y = p) as Hu.
  { intros y b m Hy ->. apply (placed_unique _ _ _ Naddr_tree _ _ (co_placed H)); try done; [split; [by eexists|set_solver]..|].
    simpl in *. by rewrite Hy, Hx'. }
  unfold nhdp_db_neighbor_addr_move, store_naddr. wp_steps. rule detach_wp; [exact H|by eexists; apply shape_neighs|by eexists|set_solver|]. intros H1.
  rewrite union_empty_r_L in H1. wp_steps. eapply put_wp; [apply H1|by eexists; apply shape_neighs| |done|..].
  { intros [[b Hb] Hne]. simpl in Hb, Hx'. rewrite Hx' in Hb. injection Hb as _ <-. set_solver. }
  { intros y _ [[b Hb] Hne]. simpl in Hb, Hx' |- *. rewrite Hb, Hx'. simpl. intros E. pose proof (Hu y b n Hb E) as ->. rewrite Hx' in Hb.
    injection Hb as _ <-. set_solver. }
  intros tr HP. wp_steps. apply HQ; [|split; [explicit_frame|done]]. rewrite shape_set_trees in HP.
  apply (consistent_shape _ _ _ (with_naddr p (neigh_addr x, n) (shape_of s))).
  - by autorewrite with nhdp_shape.
  - eapply placed_same; [exact HP|..].
    + intros t y _. unfold plus_node, at_home. rewrite (home_moved_naddr _ _ _ _ _ _ _ Hx'), elem_of_singleton, elem_of_empty, pair_equal_spec. tauto.
    + intros t y Hs _. destruct t; try done; simpl; (destruct (decide (y = p)) as [->|Hy]; [rewrite lookup_insert_eq; simpl in Hx'; by rewrite Hx'|by rewrite lookup_insert_ne]).
    + done.
  - apply linked_with_naddr; [apply H|]. by eexists; apply shape_neighs.
  - eapply timers_iff; [apply H|]. intros kd q. destruct kd; simpl; try done. rewrite lookup_insert_is_Some'. simpl in Hx'. split; [|by right]. intros [<-|?]; [by eexists|done].
  - apply H.
Qed.

Definition laddr_moved (p k : ptr) (x : nhdp_laddr) (s s' : nhdp_db) : Prop :=
  frame [F_laddrs; F_trees] s s' /\ laddrs s' = <[p := {| link_addr := link_addr x; la_link := k |}]> (laddrs s).

Lemma laddr_move_wp s p k x lo ln (Q : unit -> nhdp_db -> Prop) : consistent ∅ s -> laddrs s !! p = Some x -> links s !! la_link x = Some lo -> links s !! k = Some ln ->
  local_if lo = local_if ln -> (forall s', consistent ∅ s' -> laddr_moved p k x s s' -> Q tt s') -> wp (nhdp_db_link_addr_move k p) s Q.
Proof.
  intros H Hx Hlo Hln Hi HQ. pose proof (shape_laddrs _ _ _ Hx) as Hx'. pose proof (shape_links _ _ _ Hlo) as Hlo'. pose proof (shape_links _ _ _ Hln) as Hln'.
  destruct (link_at _ _ ∅ s _ lo H Hlo) as (i & f & no & Fo). destruct (link_at _ _ ∅ s _ ln H Hln) as (i' & f' & nn & Fn).
  assert (i' = i) as -> by (destruct Fo, Fn; congruence).
  pose proof (fun t y => home_moved_laddr (shape_of s) p (link_addr x) (la_link x) k _ _ t y Hx' Hlo' Hln' Hi) as Hhome. simpl in Hhome.
  assert (forall y b q l, sh_laddrs (shape_of s) !! y = Some (b, q) -> sh_links (shape_of s) !! q = Some l -> lv_if l = Some i -> b = link_addr x -> y = p) as Hu.
  { intros y b q l Hy Hq Hl ->. apply (placed_unique _ _ _ (If_link_addresses i) _ _ (co_placed H)); try done.
    - simpl. apply elem_of_dom. exists f. apply Fo.
    - split; [by eexists _, _, _|set_solver].
    - split; [eexists _, _, _; split_and!; [exact Hx'|exact Hlo'|apply Fo]|set_solver].
    - simpl in *. by rewrite Hy, Hx'. }
  unfold nhdp_db_link_addr_move, store_laddr. wp_steps. rule detach_wp; [exact H|by eexists|by eexists|set_solver|]. intros H1.
  rewrite union_empty_r_L in H1. wp_steps. eapply put_wp; [apply H1|by eexists| |done|..].
  { intros [[b Hb] Hne]. simpl in Hb, Hx'. rewrite Hx' in Hb. injection Hb as _ <-. set_solver. }
  { intros y _ [[b Hb] Hne]. simpl in Hb, Hx' |- *. rewrite Hb, Hx'. simpl. intros E. pose proof (Hu y b k _ Hb Hln' (lf_if Fn) E) as ->. rewrite Hx' in Hb.
    injection Hb as _ <-. set_solver. }
  intros tr HP. rewrite shape_set_trees in HP. wp_steps.
  assert (forall tr', placed (shape_of s) (at_home ∅ (with_laddr p (link_addr x, k) (shape_of s))) tr' ->
    Q tt (set_laddrs <[p := {| link_addr := link_addr x; la_link := k |}]> (set_trees (fun _ => tr') s))) as Hend.
  { intros tr' HP'. apply HQ; [|split; [explicit_frame|done]]. apply (consistent_shape _ _ _ (with_laddr p (link_addr x, k) (shape_of s))).
    - by autorewrite with nhdp_shape.
    - eapply placed_same; [exact HP'|done| |done].
      intros t y Hs _. destruct t; try done; simpl; (destruct (decide (y = p)) as [->|Hy]; [rewrite lookup_insert_eq; simpl in Hx'; by rewrite Hx'|by rewrite lookup_insert_ne]).
    - apply linked_with_laddr; [apply H|by eexists].
    - apply H.
    - apply H. }
  case_bool_decide as En.
  - wp_steps. eapply (tree_remove_wp _ tr []); [reflexivity|exact HP|by eexists; apply shape_neighs, Fo| |set_solver|].
    { left. split; [eexists _, _, _; by split_and!|set_solver]. } intros s1 ->. wp_steps.
    set (at1 := fun t y => plus_node (Link_addresses k) p (at_home {[(Link_addresses (la_link x), p)]} (shape_of s)) t y /\ ~ (y = p /\ t ∈ [Neigh_link_addresses (l_neigh lo)])).
    assert (placed (shape_of s) at1 (drop_node p [Neigh_link_addresses (l_neigh lo)] tr)) as HP1 by (by eapply placed_drop).
    eapply put_wp; [exact HP1|by eexists; apply shape_neighs, Fn| |done|done|].
    { intros [[[Hh _]|[? _]] Hne]; [|done]. destruct Hh as (b & q & l & Hb & Hq & E). rewrite Hx' in Hb. injection Hb as _ <-. rewrite Hlo' in Hq. injection Hq as <-. done. }
    intros tr2 HP2. wp_steps. apply (Hend tr2). eapply placed_same; [exact HP2| |done|done].
    intros t y _. unfold at1, plus_node, at_home. rewrite Hhome, elem_of_singleton, elem_of_empty, pair_equal_spec, list_elem_of_singleton. naive_solver.
  - wp_steps. apply (Hend tr). eapply placed_same; [exact HP| |done|done].
    intros t y _. unfold plus_node, at_home. rewrite Hhome, elem_of_singleton, elem_of_empty, pair_equal_spec, En.
    assert (home (shape_of s) (Neigh_link_addresses (l_neigh ln)) p) as Hp by (eexists _, _, _; by split_and!).
    destruct (decide (t = Neigh_link_addresses (l_neigh ln) /\ y = p)) as [[-> ->]|Hne]; [|tauto].
    assert (Neigh_link_addresses (l_neigh ln) <> Link_addresses (la_link x)) by done. tauto.
Qed.
End move.

