(* ===== verification/NhdpOriginator.v ===== *)
(** Neighbors get originators in the database of src/nhdp/nhdp/nhdp_db.c: the
    neighbor and its links leave the trees of originators and come back under the
    new address, which they take away from a neighbor that had it. *)

From Stdlib Require Import ZArith Lia Sorted.
From stdpp Require Import base list numbers option gmap sets.
From S2P Require Import Prelude AvlSpec StateMonad Rfc5444Values Netaddr MprSelection NhdpDb NhdpDomain Timer ValidityTimer NhdpStore NhdpConsistent NhdpPartners NhdpRemove NhdpUnlink NhdpAdd NhdpMove.

Local Open Scope Z_scope.
Local Open Scope state_scope.

(** The nodes of the links of neighbor [n] in the trees of originators, and all
    nodes that have the originator of [n] as key. *)
Definition link_node (sh : shape) (n : ptr) (t : tree_id) (y : ptr) : Prop :=
  exists l i, sh_links sh !! y = Some l /\ lv_neigh l = n /\ lv_if l = Some i /\ t = If_link_originators i.
Definition neigh_node (sh : shape) (n : ptr) (t : tree_id) (y : ptr) : Prop := (t = Originator_tree /\ y = n) \/ link_node sh n t y.

(** Another originator for [n]. *)
Definition view_originator (a : netaddr) (v : neigh_view) : neigh_view := {| nv_originator := a; nv_partner := nv_partner v; nv_size := nv_size v |}.
Definition shape_originator (n : ptr) (a : netaddr) (sh : shape) : shape := {|
  sh_neighs := alter (view_originator a) n (sh_neighs sh); sh_naddrs := sh_naddrs sh; sh_links := sh_links sh; sh_laddrs := sh_laddrs sh;
  sh_l2hops := sh_l2hops sh; sh_ifs := sh_ifs sh |}.

Lemma shape_set_originator s n x a : neighs s !! n = Some x -> shape_of (set_neighs <[n := with_originator a x]> s) = shape_originator n a (shape_of s).
Proof.
  intros Hx. unfold shape_of, shape_originator. simpl. f_equal. rewrite fmap_insert. apply map_eq. intros y.
  destruct (decide (y = n)) as [->|Hy]; [by rewrite lookup_insert_eq, lookup_alter_eq, lookup_fmap, Hx|by rewrite lookup_insert_ne, lookup_alter_ne].
Qed.

Lemma linked_originator sh n a : linked sh -> linked (shape_originator n a sh).
Proof.
  intros H. assert (forall x v, alter (view_originator a) n (sh_neighs sh) !! x = Some v -> exists w, sh_neighs sh !! x = Some w /\ nv_partner v = nv_partner w /\ nv_size v = nv_size w) as Hb.
  { intros x v. destruct (decide (x = n)) as [->|Hx]; [rewrite lookup_alter_eq|rewrite lookup_alter_ne by done; by eexists].
    intros (w & -> & ->)%fmap_Some_1. by exists w. }
  assert (forall x, is_Some (sh_neighs sh !! x) -> is_Some (alter (view_originator a) n (sh_neighs sh) !! x)) as Hal.
  { intros x. by rewrite lookup_alter_is_Some. }
  split; simpl; try apply H.
  - intros x b m Hx. by apply Hal, (lk_naddr H x b).
  - intros x l Hx. destruct (lk_link H x l Hx) as (? & ? & ? & ?). split_and!; try done. by apply Hal.
  - intros x v (w & Hw & _ & ->)%Hb. by apply (lk_neigh H x).
  - intros x v y (w & Hw & -> & _)%Hb Hy. destruct (lk_neigh_partner H x w y Hw Hy) as (w' & Hw' & ?).
    destruct (decide (y = n)) as [->|Hne]; [exists (view_originator a w'); by rewrite lookup_alter_eq, Hw'|exists w'; by rewrite lookup_alter_ne].
Qed.

Lemma home_originator sh n v a t y : sh_neighs sh !! n = Some v ->
  home (shape_originator n a sh) t y <-> (home sh t y /\ ~ neigh_node sh n t y) \/ (is_unspec a = false /\ neigh_node sh n t y).
Proof.
  intros Hn. unfold neigh_node, link_node. destruct t; simpl; try (split; [intros ?; left; split; [done|intros [[? _]|(? & ? & _ & _ & _ & ?)]; done]|
    intros [[? _]|[_ [[? _]|(? & ? & _ & _ & _ & ?)]]]; done]).
  - rewrite lookup_alter_is_Some. split; [intros ?; left; split; [done|intros [[? _]|(? & ? & _ & _ & _ & ?)]; done]|
      intros [[? _]|[_ [[? _]|(? & ? & _ & _ & _ & ?)]]]; done].
  - destruct (decide (y = n)) as [->|Hy].
    + setoid_rewrite lookup_alter_eq. rewrite Hn. simpl. split; [intros (w & [= <-] & ?); right; split; [done|by left]|].
      intros [[_ Hno]|[? _]]; [destruct Hno; by left|by eexists].
    + setoid_rewrite lookup_alter_ne; [|done]. split; [intros ?; left; split; [done|intros [[_ ?]|(? & ? & _ & _ & _ & ?)]; done]|].
      intros [[? _]|[_ [[_ ?]|(? & ? & _ & _ & _ & ?)]]]; done.
  - split.
    + intros (l & w & Hl & Hi & Hw & Hs). destruct (decide (lv_neigh l = n)) as [En|En].
      * rewrite En, lookup_alter_eq, Hn in Hw. injection Hw as <-. right. split; [done|]. right. by exists l, interf.
      * rewrite lookup_alter_ne in Hw by congruence. left. split; [by exists l, w|]. intros [[? _]|(l' & i & Hl' & ? & _)]; [done|congruence].
    + intros [[(l & w & Hl & Hi & Hw & Hs) Hno]|[Ha [[? _]|(l & i & Hl & En & Hi & [= ->])]]]; [|done|].

      * exists l, w. rewrite lookup_alter_ne; [done|]. intros E. apply Hno. right. by exists l, interf.
      * exists l, (view_originator a v). by rewrite En, lookup_alter_eq, Hn.
Qed.

Lemma originator_keys sh n a t y : t <> Originator_tree \/ y <> n -> shape_key (shape_originator n a sh) t y = shape_key sh t y.
Proof. intros H. destruct t; try done. simpl. rewrite lookup_alter_ne; [done|]. intros <-. by destruct H. Qed.

Lemma originator_heads sh n a t : head_alive (shape_originator n a sh) t <-> head_alive sh t.
Proof. destruct t; try done; simpl; by rewrite lookup_alter_is_Some. Qed.

(** * The loops over the links *)

Section loops.
Context (sh : shape) (at_ : tree_id -> ptr -> Prop) (n : ptr).
(** All links of [n] are in its list, with their interfaces. *)
Context (in_list : forall y, at_ (Neigh_links n) y <-> home sh (Neigh_links n) y).
Context (with_if : forall y l, sh_links sh !! y = Some l -> exists i, lv_if l = Some i /\ i ∈ sh_ifs sh).

Lemma link_node_in t y : link_node sh n t y -> at_ (Neigh_links n) y.
Proof. intros (l & i & Hl & Hn & _ & _). apply in_list. by exists l. Qed.

(** What a step of the loops changes: [f] on the node of one link. *)
Lemma nodes_loop_wp (f : tree_id -> ptr -> nhdp_M unit) (at_of : list ptr -> tree_id -> ptr -> Prop) s (Q : unit -> nhdp_db -> Prop) :
  shape_of s = sh -> is_Some (sh_neighs sh !! n) -> placed sh at_ (trees s) -> (forall rest y, at_of rest (Neigh_links n) y <-> at_ (Neigh_links n) y) ->
  (forall t y rest, (forall z, at_ (Neigh_links n) z -> z ∈ rest) -> at_of rest t y <-> at_ t y) ->
  (forall p rest i tr, placed sh (at_of (p :: rest)) tr -> p ∉ rest -> link_node sh n (If_link_originators i) p -> i ∈ sh_ifs sh ->
    wp (f (If_link_originators i) p) (set_trees (fun _ => tr) s) (fun _ s2 => exists tr', s2 = set_trees (fun _ => tr') s /\ placed sh (at_of rest) tr' /\ tr' !! Neigh_links n = tr !! Neigh_links n)) ->
  (forall tr, placed sh (at_of []) tr -> Q tt (set_trees (fun _ => tr) s)) -> wp (originator_nodes f n) s Q.
Proof.
  intros Hsh [nv Hn] HP Hlist Hall Hstep HQ. assert (exists ls, trees s !! Neigh_links n = Some ls) as [ls Hls] by (apply (pl_head HP); by exists nv).
  pose proof (pl_nodup HP _ _ Hls) as Hnd. assert (forall tr, tr !! Neigh_links n = Some ls -> get_tree (Neigh_links n) (set_trees (fun _ => tr) s) = Def (ls, set_trees (fun _ => tr) s)) as Hget.
  { intros tr E. unfold get_tree. simpl. by rewrite E. }
  unfold originator_nodes. eapply (for_each_wp (fun rest s1 => exists tr pre, s1 = set_trees (fun _ => tr) s /\ ls = pre ++ rest /\ tr !! Neigh_links n = Some ls /\ placed sh (at_of rest) tr)).
  - specialize (Hget (trees s) Hls). by destruct s.
  - exists (trees s), []. split_and!; [by destruct s|done|done|]. eapply placed_same; [exact HP| |done|done].
    intros t y _. apply Hall. intros z. by apply (pl_mem HP _ _ _ Hls).
  - intros p rest s1 (tr & pre & -> & El & Htr & HP1). assert (p ∈ ls) as Hp by (rewrite El; set_solver).
    apply (pl_mem HP _ _ _ Hls) in Hp. pose proof (proj1 (in_list p) Hp) as (v & Hv & Ev). destruct (with_if p v Hv) as (i & Hi & Hif).
    rewrite <- Hsh in Hv. simpl in Hv. rewrite lookup_fmap in Hv. destruct (links s !! p) as [l|] eqn:Ep; [|done]. injection Hv as <-. simpl in Hi.
    wp_steps. rewrite Hi. simpl. wp_steps. assert (p ∉ rest) as Hpr. { rewrite El in Hnd. apply NoDup_app in Hnd as (_ & _ & Hnd). by apply NoDup_cons in Hnd as [? _]. }
    eapply wp_weaken; [apply (Hstep p rest i tr HP1 Hpr); [|exact Hif]|].
    { exists (view_link l), i. split_and!; try done. rewrite <- Hsh. by apply shape_links. }
    intros [] s2 (tr' & -> & HP2 & Etr). split; [exists tr', (pre ++ [p])|exists pre].
    + split_and!; [done|by rewrite El, <- app_assoc|by rewrite Etr|done].
    + rewrite <- El. split; [apply Hget; by rewrite Etr|done].
  - intros s1 (tr & pre & -> & _ & _ & HP1). by apply HQ.
Qed.

Lemma nodes_remove_wp s (Q : unit -> nhdp_db -> Prop) : shape_of s = sh -> is_Some (sh_neighs sh !! n) -> placed sh at_ (trees s) ->
  (forall t y, link_node sh n t y -> at_ t y) ->
  (forall tr, placed sh (fun t y => at_ t y /\ ~ link_node sh n t y) tr -> Q tt (set_trees (fun _ => tr) s)) -> wp (originator_nodes avl_remove n) s Q.
Proof.
  intros Hsh Hn HP Hat HQ. eapply (nodes_loop_wp _ (fun rest t y => at_ t y /\ ~ (link_node sh n t y /\ y ∉ rest))); [done..| | | |].
  - intros rest y. split; [by intros []|]. intros ?. split; [done|]. by intros [(? & ? & _ & _ & _ & ?) _].
  - intros t y rest Hin. split; [by intros []|]. intros ?. split; [done|]. intros [Hk Hy]. by apply Hy, Hin, (link_node_in t).
  - intros p rest i tr HP1 Hp Hk Hi. eapply (tree_remove_wp _ tr []); [reflexivity|exact HP1|exact Hi| |set_solver|].
    { split; [by apply Hat|]. intros [_ Hno]. apply Hno. left. }
    intros s' ->. eexists. split; [reflexivity|]. split; [|by rewrite drop_node_lookup, decide_False by set_solver].
    eapply placed_drop; [exact HP1| |done|done]. intros t y. rewrite list_elem_of_singleton, not_elem_of_cons.
    assert (link_node sh n t p -> t = If_link_originators i) as Huniq.
    { destruct Hk as (l & i0 & Hl & _ & Hi0 & [= <-]). intros (l' & i' & Hl' & _ & Hi' & ->). congruence. }
    destruct (decide (y = p)) as [->|Hy]; [|tauto]. destruct (decide (t = If_link_originators i)) as [->|Ht]; tauto.
  - intros tr HP1. apply HQ. eapply placed_same; [exact HP1| |done|done]. intros t y _. simpl. rewrite elem_of_nil. tauto.
Qed.

Lemma nodes_insert_wp s (Q : unit -> nhdp_db -> Prop) : shape_of s = sh -> is_Some (sh_neighs sh !! n) -> placed sh at_ (trees s) ->
  (forall t y, link_node sh n t y -> ~ at_ t y) ->
  (forall tr, placed sh (fun t y => at_ t y \/ link_node sh n t y) tr -> Q tt (set_trees (fun _ => tr) s)) -> wp (originator_nodes avl_insert n) s Q.
Proof.
  intros Hsh Hn HP Hat HQ. eapply (nodes_loop_wp _ (fun rest t y => at_ t y \/ (link_node sh n t y /\ y ∉ rest))); [done..| | | |].
  - intros rest y. split; [|by left]. intros [?|[(? & ? & _ & _ & _ & ?) _]]; done.
  - intros t y rest Hin. split; [|by left]. intros [?|[Hk Hy]]; [done|]. destruct Hy. by apply Hin, (link_node_in t).
  - intros p rest i tr HP1 Hp Hk Hi. eapply insert_wp; [rewrite shape_set_trees, Hsh; exact HP1|by rewrite shape_set_trees, Hsh| |done|done|].
    { intros [?|[_ Hno]]; [by apply (Hat _ _ Hk)|]. apply Hno. left. }
    intros l _ HP2. rewrite shape_set_trees, Hsh in HP2. eexists. split; [reflexivity|]. split; [|simpl; by rewrite lookup_insert_ne].
    eapply placed_same; [exact HP2| |done|done]. intros t y _. unfold plus_node. rewrite not_elem_of_cons.
    assert (link_node sh n t p -> t = If_link_originators i) as Huniq.
    { destruct Hk as (l0 & i0 & Hl & _ & Hi0 & [= <-]). intros (l' & i' & Hl' & _ & Hi' & ->). congruence. }
    destruct (decide (y = p)) as [->|Hy]; [|tauto]. destruct (decide (t = If_link_originators i)) as [->|Ht]; tauto.
  - intros tr HP1. apply HQ. eapply placed_same; [exact HP1| |done|done]. intros t y _. simpl. rewrite elem_of_nil. tauto.
Qed.
End loops.

(** * Setting an originator *)

Section originator.
Context (os_core_get_random : nat -> option Z) (random_u32 : forall n r, os_core_get_random n = Some r -> 0 <= r <= UINT32_MAX).
Context (max_interval : Z) (max_interval_range : 0 <= max_interval <= 2 ^ 56).
Context (timer_info : timer_kind -> positive).
#[local] Notation consistent := (consistent max_interval timer_info).

(** The lists of links hold all links in [at_], which have their interfaces. *)
Definition lists_kept (sh : shape) (at_ : tree_id -> ptr -> Prop) : Prop := forall n y, at_ (Neigh_links n) y <-> home sh (Neigh_links n) y.

Lemma link_interfaces sh : linked sh -> forall y l, sh_links sh !! y = Some l -> exists i, lv_if l = Some i /\ i ∈ sh_ifs sh.
Proof. intros H y l Hl. by destruct (lk_link H y l Hl) as (_ & ? & _). Qed.

Lemma neigh_detach_wp s n at_ (Q : unit -> nhdp_db -> Prop) : linked (shape_of s) -> is_Some (neighs s !! n) -> placed (shape_of s) at_ (trees s) ->
  lists_kept (shape_of s) at_ -> (forall t y, neigh_node (shape_of s) n t y -> at_ t y) ->
  (forall tr, placed (shape_of s) (fun t y => at_ t y /\ ~ neigh_node (shape_of s) n t y) tr -> Q tt (set_trees (fun _ => tr) s)) ->
  wp (avl_remove Originator_tree n ;;; originator_nodes avl_remove n) s Q.
Proof.
  intros HL [x Hx] HP Hl Hat HQ. wp_steps. eapply (tree_remove_wp _ (trees s) []); [reflexivity|exact HP|done|apply Hat; by left|set_solver|]. intros s1 ->.
  set (at1 := fun t y => at_ t y /\ ~ (t = Originator_tree /\ y = n)).
  assert (placed (shape_of s) at1 (drop_node n [Originator_tree] (trees s))) as HP1.
  { eapply placed_drop; [exact HP| |done|done]. intros t y. unfold at1. rewrite list_elem_of_singleton. tauto. }
  eapply (nodes_remove_wp (shape_of s) at1 n); [|by apply link_interfaces|done|eexists; by apply shape_neighs|exact HP1| |].
  - intros y. unfold at1. rewrite <- (Hl n y). intuition discriminate.
  - intros t y Hk. split; [apply Hat; by right|]. intros [-> _]. destruct Hk as (? & ? & _ & _ & _ & ?). done.
  - intros tr HP2. apply (HQ tr). eapply placed_same; [exact HP2| |done|done]. intros t y _. unfold at1, neigh_node. tauto.
Qed.

Lemma neigh_attach_wp s n x at_ (Q : unit -> nhdp_db -> Prop) : linked (shape_of s) -> neighs s !! n = Some x -> placed (shape_of s) at_ (trees s) ->
  lists_kept (shape_of s) at_ -> (forall t y, neigh_node (shape_of s) n t y -> ~ at_ t y) ->
  (forall y, at_ Originator_tree y -> shape_key (shape_of s) Originator_tree y <> originator x) ->
  (forall tr, placed (shape_of s) (fun t y => at_ t y \/ neigh_node (shape_of s) n t y) tr -> Q tt (set_trees (fun _ => tr) s)) ->
  wp (avl_insert Originator_tree n ;;; originator_nodes avl_insert n) s Q.
Proof.
  intros HL Hx HP Hl Hat Hk HQ. pose proof (shape_neighs _ _ _ Hx) as Hx'. wp_steps. eapply put_wp; [exact HP|done|by apply Hat; left|done| |].
  { intros y _ Hy. simpl in *. rewrite Hx'. by apply Hk. }
  intros tr1 HP1. eapply (nodes_insert_wp (shape_of s) (plus_node Originator_tree n at_) n); [|by apply link_interfaces|done|by eexists|exact HP1| |].
  - intros y. unfold plus_node. rewrite <- (Hl n y). intuition discriminate.
  - intros t y Hn [?|[-> _]]; [eapply Hat; [by right|done]|]. destruct Hn as (? & ? & _ & _ & _ & ?). done.
  - intros tr HP2. apply (HQ tr). eapply placed_same; [exact HP2| |done|done]. intros t y _. unfold plus_node, neigh_node. tauto.
Qed.

(** The second half: the neighbor is in no tree of originators, and no other one has the address. *)
Definition finished (n : ptr) (a : netaddr) (x : nhdp_neighbor) (tr : gmap tree_id (list ptr)) (s : nhdp_db) : nhdp_db :=
  set_neighs <[n := with_old_originator a (with_originator a x)]> (add_call (Neigh_event n OONF_OBJECT_CHANGED) (set_trees (fun _ => tr) s)).

Lemma originator_finish_wp s n x a (Q : unit -> nhdp_db -> Prop) : linked (shape_of s) -> timers_ok max_interval timer_info (has_timer (shape_of s)) (timers s) -> domains_there (doms s) ->
  neighs s !! n = Some x -> placed (shape_of s) (fun t y => home (shape_of s) t y /\ ~ neigh_node (shape_of s) n t y) (trees s) ->
  (forall y v, sh_neighs (shape_of s) !! y = Some v -> is_unspec (nv_originator v) = false -> y <> n -> nv_originator v <> a) ->
  (forall tr, consistent ∅ (finished n a x tr s) -> Q tt (finished n a x tr s)) ->
  wp (change_neigh n (with_originator a) ;;;
      (if negb (is_unspec a) then avl_insert Originator_tree n ;;; originator_nodes avl_insert n else ret tt) ;;;
      call (Neigh_event n OONF_OBJECT_CHANGED) ;;;
      change_neigh n (with_old_originator a)) s Q.
Proof.
  intros HL HT HD Hx HP Hk HQ. set (sh := shape_of s) in *. pose proof (shape_neighs _ _ _ Hx) as Hx'.
  set (s1 := set_neighs <[n := with_originator a x]> s). assert (shape_of s1 = shape_originator n a sh) as E1 by (by apply shape_set_originator).
  set (at1 := fun t y => home sh t y /\ ~ neigh_node sh n t y).
  assert (placed (shape_originator n a sh) at1 (trees s)) as HP1.
  { eapply placed_same; [exact HP|done| |apply originator_heads]. intros t y _ [_ Hno]. apply originator_keys.
    destruct (decide (t = Originator_tree)) as [->|]; [|by left]. destruct (decide (y = n)) as [->|]; [|by right]. destruct Hno. by left. }
  assert (forall tr, placed (shape_originator n a sh) (at_home ∅ (shape_originator n a sh)) tr -> consistent ∅ (finished n a x tr s)) as Hfin.
  { intros tr HP2. apply (consistent_shape _ _ _ (shape_originator n a sh)); [|exact HP2|by apply linked_originator| |exact HD].
    - unfold finished. autorewrite with nhdp_shape. rewrite <- E1. unfold s1. by autorewrite with nhdp_shape.
    - eapply timers_iff; [exact HT|]. by intros []. }
  assert (forall tr, placed (shape_originator n a sh) (at_home ∅ (shape_originator n a sh)) tr ->
    wp (call (Neigh_event n OONF_OBJECT_CHANGED) ;;; change_neigh n (with_old_originator a)) (set_trees (fun _ => tr) s1) Q) as Hend.
  { intros tr HP2. unfold call. wp_steps. eapply change_neigh_wp; [apply lookup_insert_eq|]. specialize (HQ tr (Hfin tr HP2)).
    unfold finished in HQ. match goal with |- Q tt ?s' => match type of HQ with Q tt ?s'' => replace s' with s''; [exact HQ|] end end.
    unfold s1, set_neighs. simpl. f_equal. by rewrite insert_insert_eq. }
  pose proof (fun t y => home_originator sh n (view_neigh x) a t y Hx') as Hhome.
  apply wp_seq. eapply change_neigh_wp; [exact Hx|]. fold s1. destruct (is_unspec a) eqn:Eu; simpl.
  - apply wp_seq, wp_return. specialize (Hend (trees s)). assert (set_trees (fun _ => trees s) s1 = s1) as Es by done.
    rewrite Es in Hend. apply Hend. eapply placed_same; [exact HP1| |done|done]. intros t y _. unfold at1, at_home. rewrite Hhome, elem_of_empty. intuition discriminate.
  - apply wp_seq. assert (forall t y, neigh_node (shape_of s1) n t y <-> neigh_node sh n t y) as Hnn by (by rewrite E1).
    eapply (neigh_attach_wp s1 n (with_originator a x) at1); [rewrite E1; by apply linked_originator|apply lookup_insert_eq|rewrite E1; exact HP1|..].
    + intros m y. rewrite E1. unfold at1. simpl. split; [by intros [? _]|]. intros Hl. split; [done|]. intros [[? _]|(? & ? & _ & _ & _ & ?)]; done.
    + intros t y Hn [_ Hno]. apply Hno. by apply Hnn.
    + intros y [(v & Hv & Hu) Hno]. assert (y <> n) as Hy by (intros ->; apply Hno; by left). rewrite E1. simpl in Hv |- *. rewrite lookup_alter_ne by done. simpl in Hv. rewrite Hv. simpl. by eapply Hk.
    + intros tr HP2. rewrite E1 in HP2. apply Hend. eapply placed_same; [exact HP2| |done|done]. intros t y _. unfold at1, at_home. rewrite Hhome, elem_of_empty.
      change (neigh_node (shape_originator n a sh) n t y) with (neigh_node sh n t y). tauto.
Qed.
(** Nobody else has the new originator afterwards. *)
Definition cleared (a : netaddr) (y : nhdp_neighbor) : nhdp_neighbor :=
  if negb (is_unspec a) && bool_decide (originator y = a) then with_originator no_addr y else y.

Record originator_set (n : ptr) (a : netaddr) (x : nhdp_neighbor) (s s' : nhdp_db) : Prop := {
  os_frame : frame [F_neighs; F_trees] s s';
  os_same : originator x = a -> neighs s' = neighs s;
  os_new : originator x <> a -> neighs s' !! n = Some (with_old_originator a (with_originator a x));
  os_others p : originator x <> a -> p <> n -> neighs s' !! p = cleared a <$> neighs s !! p;
}.

Lemma originator_unique s p q v w : consistent ∅ s -> sh_neighs (shape_of s) !! p = Some v -> sh_neighs (shape_of s) !! q = Some w ->
  is_unspec (nv_originator v) = false -> nv_originator v = nv_originator w -> p = q.
Proof.
  intros H Hp Hq Hu E. apply (placed_unique _ _ _ Originator_tree _ _ (co_placed H)); [done|done| | |simpl in *; by rewrite Hp, Hq; simpl; rewrite E].
  - split; [by exists v|set_solver].
  - split; [exists w; by rewrite <- E|set_solver].
Qed.

Lemma set_originator_wp s n x a (Q : unit -> nhdp_db -> Prop) : consistent ∅ s -> neighs s !! n = Some x ->
  (forall s', consistent ∅ s' -> originator_set n a x s s' -> Q tt s') -> wp (nhdp_db_neighbor_set_originator n a) s Q.
Proof.
  intros H Hx HQ. unfold nhdp_db_neighbor_set_originator. wp_steps. case_bool_decide as Ea.
  { wp_steps. apply HQ; [done|]. split; [apply frame_refl|done|done..]. }
  pose proof (shape_neighs _ _ _ Hx) as Hx'. pose proof (co_linked H) as HL.
  set (at1 := fun t y => at_home ∅ (shape_of s) t y /\ ~ neigh_node (shape_of s) n t y).
  assert (lists_kept (shape_of s) (at_home ∅ (shape_of s))) as Hk0 by (intros m y; unfold at_home; rewrite elem_of_empty; tauto).
  assert (lists_kept (shape_of s) at1) as Hk1.
  { intros m y. unfold at1. rewrite <- (Hk0 m y). split; [by intros [? _]|]. intros Hl. split; [done|]. intros [[? _]|(? & ? & _ & _ & _ & ?)]; done. }
  apply wp_seq. eapply (wp_weaken _ _ (fun _ s1 => exists tr, s1 = set_trees (fun _ => tr) s /\ placed (shape_of s) at1 tr)).
  { destruct (is_unspec (originator x)) eqn:Eu; simpl.
    - wp_steps. exists (trees s). split; [by destruct s|]. eapply placed_same; [apply H| |done|done]. intros t y _. unfold at1. split; [by intros [? _]|].
      intros [Hh Hn]. split; [by split|]. intros [[-> ->]|(l & i & Hl & En & Hi & ->)].
      + destruct Hh as (v & Hv & Hs). rewrite Hx' in Hv. injection Hv as <-. simpl in Hs. congruence.
      + destruct Hh as (l' & v & Hl' & _ & Hv & Hs). rewrite Hl in Hl'. injection Hl' as <-. rewrite En, Hx' in Hv. injection Hv as <-. simpl in Hs. congruence.
    - eapply (neigh_detach_wp s n (at_home ∅ (shape_of s))); [exact HL|by eexists|apply H|exact Hk0| |].
      + intros t y [[-> ->]|(l & i & Hl & En & Hi & ->)]; (split; [|set_solver]); [by exists (view_neigh x)|]. exists l, (view_neigh x). by rewrite En.
      + intros tr HP. by exists tr. }
  intros [] s1 (tr1 & -> & HP1). apply wp_seq. unfold nhdp_db_neighbor_get_by_originator.
  assert (forall y, at1 Originator_tree y -> y <> n) as Hne by (intros y [_ Hno] ->; apply Hno; by left).
  eapply (find_wp _ at1); [exact HP1|done|done|..].
  - intros n2 Hat Hkey. pose proof (Hne n2 Hat) as Hn2. destruct Hat as [[(v & Hv & Hu) _] _]. simpl in Hkey, Hv. rewrite Hv in Hkey. simpl in Hkey.
    rewrite lookup_fmap in Hv. destruct (neighs s !! n2) as [x2|] eqn:Ex2; [|done]. injection Hv as <-. simpl in Hkey, Hu. rewrite Hkey in Hu.
    pose proof (shape_neighs _ _ _ Ex2) as Ex2'.
    pose proof (home_originator (shape_of s) n2 (view_neigh x2) no_addr) as Hh2.
    apply wp_seq, wp_assoc. apply wp_seq. eapply (neigh_detach_wp _ n2 at1); [exact HL|by eexists|exact HP1|exact Hk1| |].
    { intros t y Hn. split; [split; [|set_solver]|].
      - destruct Hn as [[-> ->]|(l & i & Hl & En & Hi & ->)]; [by exists (view_neigh x2); split; [|simpl; congruence]|].
        exists l, (view_neigh x2). rewrite En. split_and!; try done. simpl. congruence.
      - destruct Hn as [[-> ->]|(l & i & Hl & En & Hi & ->)]; [by intros [[_ ?]|(? & ? & _ & _ & _ & ?)]|].
        intros [[? _]|(l' & i' & Hl' & En' & _)]; [done|]. rewrite shape_set_trees in Hl. congruence. }
    intros tr2 HP2. rewrite !shape_set_trees in HP2. eapply change_neigh_wp; [exact Ex2|].
    set (s2 := set_neighs _ _). assert (shape_of s2 = shape_originator n2 no_addr (shape_of s)) as E2 by (unfold s2; rewrite (shape_set_originator _ n2 x2) by done; done).
    eapply (originator_finish_wp s2 n x a).
    + rewrite E2. by apply linked_originator.
    + eapply timers_iff; [apply H|]. rewrite E2. by intros [].
    + apply H.
    + unfold s2. simpl. by rewrite lookup_insert_ne.
    + rewrite E2. eapply placed_same; [exact HP2|..|apply originator_heads].
      * intros t y _. rewrite (Hh2 t y Ex2'). unfold at1, at_home. change (neigh_node (shape_originator n2 no_addr (shape_of s)) n t y) with (neigh_node (shape_of s) n t y).
        rewrite elem_of_empty. change (is_unspec no_addr = false) with (true = false). intuition discriminate.
      * intros t y _ [_ Hno]. apply originator_keys. destruct (decide (t = Originator_tree)) as [->|]; [|by left].
        destruct (decide (y = n2)) as [->|]; [|by right]. destruct Hno. by left.
    + intros y v Hv Hs Hy Ev. rewrite E2 in Hv. simpl in Hv. destruct (decide (y = n2)) as [->|Hy2].
      * rewrite lookup_alter_eq, lookup_fmap, Ex2 in Hv. injection Hv as <-. done.
      * rewrite lookup_alter_ne in Hv by done. apply Hy2. eapply (originator_unique s y n2 v); [exact H|exact Hv|exact Ex2'|done|simpl; congruence].
    + intros tr3 HC. apply HQ; [exact HC|]. split; [explicit_frame|done|intros _; by apply lookup_insert_eq|].
      intros p _ Hp. simpl. rewrite lookup_insert_ne by done. unfold s2. simpl. destruct (decide (p = n2)) as [->|Hp2].
      * rewrite lookup_insert_eq, Ex2. simpl. unfold cleared. rewrite Hu, bool_decide_true by done. done.
      * rewrite lookup_insert_ne by done. destruct (neighs s !! p) as [y|] eqn:Ep; [|done]. simpl. unfold cleared.
        rewrite bool_decide_false; [by rewrite andb_false_r|]. intros Ey. apply Hp2.
        eapply (originator_unique s p n2 (view_neigh y) _ H (shape_neighs _ _ _ Ep) Ex2'); simpl; congruence.
  - intros Hno. apply wp_seq, wp_return. eapply (originator_finish_wp _ n x a); [exact HL|apply H|apply H|exact Hx|..].
    + eapply placed_same; [exact HP1| |done|done]. intros t y _. unfold at1, at_home. rewrite elem_of_empty. tauto.
    + intros y v Hv Hs Hy Ev. rewrite shape_set_trees in Hv. apply (Hno y).
      * split; [split; [by exists v|set_solver]|]. intros [[_ ?]|(? & ? & _ & _ & _ & ?)]; done.
      * rewrite shape_set_trees. simpl in *. by rewrite Hv.
    + intros tr3 HC. apply HQ; [exact HC|]. split; [explicit_frame|done|intros _; by apply lookup_insert_eq|].
      intros p _ Hp. simpl. rewrite lookup_insert_ne by done. destruct (neighs s !! p) as [y|] eqn:Ep; [|done]. simpl. unfold cleared.
      destruct (is_unspec a) eqn:Eua; [done|]. rewrite bool_decide_false; [done|]. intros Ey. apply (Hno p).
      * split; [split; [|set_solver]|].
        -- exists (view_neigh y). split; [by apply shape_neighs|]. simpl. congruence.
        -- intros [[_ ?]|(? & ? & _ & _ & _ & ?)]; done.
      * rewrite shape_set_trees. simpl. by rewrite lookup_fmap, Ep.
Qed.
End originator.
