(* ===== verification/NhdpMetrics.v ===== *)
(** The metrics of neighbors of src/nhdp/nhdp/nhdp_domain.c: the recalculation
    touches nothing but the domain data of neighbors and two-hop neighbors, and
    it finds the least metrics of the symmetric links. *)

From Stdlib Require Import ZArith Lia Sorted.
From stdpp Require Import base list numbers option gmap sets.
From S2P Require Import Prelude AvlSpec StateMonad Rfc5444Values Netaddr MprSelection NhdpDb NhdpDomain Timer ValidityTimer NhdpStore NhdpConsistent NhdpPartners NhdpRemove NhdpUnlink NhdpAdd.

Local Open Scope Z_scope.
Local Open Scope state_scope.

(** * Nothing but domain data changes *)

Definition neigh_rest (x : nhdp_neighbor) : nhdp_neighbor * nat := (with_n_data [] x, length (n_domaindata x)).
Definition l2hop_rest (x : nhdp_l2hop) : nhdp_l2hop * nat := (with_t_data [] x, length (l2_domaindata x)).

Record metrics_only (s s' : nhdp_db) : Prop := {
  mo_frame : frame [F_neighs; F_l2hops] s s';
  mo_neighs : neigh_rest <$> neighs s' = neigh_rest <$> neighs s;
  mo_l2hops : l2hop_rest <$> l2hops s' = l2hop_rest <$> l2hops s;
}.

Lemma metrics_refl s : metrics_only s s.
Proof. split; [apply frame_refl|done|done]. Qed.
Lemma metrics_trans s s1 s2 : metrics_only s s1 -> metrics_only s1 s2 -> metrics_only s s2.
Proof. intros [F1 N1 L1] [F2 N2 L2]. split; [by eapply frame_trans|congruence|congruence]. Qed.
#[export] Hint Resolve metrics_refl : nhdp.

Lemma metrics_shape s s' : metrics_only s s' -> shape_of s' = shape_of s.
Proof.
  intros [F N L]. unfold shape_of. destruct F as [F _].
  assert (view_neigh <$> neighs s' = view_neigh <$> neighs s) as ->.
  { assert (forall m : gmap ptr nhdp_neighbor, view_neigh <$> m = (fun r : nhdp_neighbor * nat => {| nv_originator := originator r.1; nv_partner := n_partner r.1; nv_size := r.2 |}) <$> (neigh_rest <$> m)) as E
      by (intros m; rewrite <- map_fmap_compose; by apply map_fmap_ext). by rewrite !E, N. }
  assert (view_l2hop <$> l2hops s' = view_l2hop <$> l2hops s) as ->.
  { assert (forall m : gmap ptr nhdp_l2hop, view_l2hop <$> m = (fun r : nhdp_l2hop * nat => (twohop_addr r.1, l2_link r.1, r.2)) <$> (l2hop_rest <$> m)) as E
      by (intros m; rewrite <- map_fmap_compose; by apply map_fmap_ext). by rewrite !E, L. }
  by rewrite (F F_naddrs ltac:(fields) : naddrs s' = _), (F F_links ltac:(fields) : links s' = _), (F F_laddrs ltac:(fields) : laddrs s' = _), (F F_ifs ltac:(fields) : ifs s' = _).
Qed.

Lemma metrics_fields s s' : metrics_only s s' -> links s' = links s /\ ifs s' = ifs s /\ trees s' = trees s /\ timers s' = timers s /\ doms s' = doms s /\ laddrs s' = laddrs s /\ naddrs s' = naddrs s.
Proof. intros [[F _] _ _]. split_and!; [apply (F F_links)|apply (F F_ifs)|apply (F F_trees)|apply (F F_timers)|apply (F F_doms)|apply (F F_laddrs)|apply (F F_naddrs)]; fields. Qed.

Lemma metrics_consistent max_interval timer_info X s s' : consistent max_interval timer_info X s -> metrics_only s s' -> consistent max_interval timer_info X s'.
Proof. intros H M. destruct (metrics_fields _ _ M) as (_ & _ & ? & ? & ? & _). eapply consistent_eq; try done. by apply metrics_shape. Qed.

(** ** Single accesses *)

Lemma data_at_wp {A} (data : list A) i x s (Q : A -> nhdp_db -> Prop) : data !! i = Some x -> Q x s -> wp (data_at data i) s Q.
Proof. intros E HQ. unfold data_at. by rewrite E. Qed.

Lemma neighbordata_wp s p n i d (Q : nhdp_neighbor_domaindata -> nhdp_db -> Prop) : neighs s !! p = Some n -> n_domaindata n !! i = Some d -> Q d s ->
  wp (neighbordata i p) s Q.
Proof. intros Hn Hd HQ. unfold neighbordata. wp_steps. by eapply data_at_wp. Qed.
Lemma linkdata_wp s p l i d (Q : nhdp_link_domaindata -> nhdp_db -> Prop) : links s !! p = Some l -> l_domaindata l !! i = Some d -> Q d s ->
  wp (linkdata i p) s Q.
Proof. intros Hn Hd HQ. unfold linkdata. wp_steps. by eapply data_at_wp. Qed.

(** The data of neighbor [p] in domain [i] is [d]. *)
Definition neigh_data (s : nhdp_db) (i : nat) (p : ptr) : option nhdp_neighbor_domaindata := neighs s !! p ≫= fun n => n_domaindata n !! i.
Definition link_data (s : nhdp_db) (i : nat) (p : ptr) : option nhdp_link_domaindata := links s !! p ≫= fun l => l_domaindata l !! i.

Lemma put_neighbordata_wp s p i d0 d (Q : unit -> nhdp_db -> Prop) : neigh_data s i p = Some d0 ->
  (forall s', metrics_only s s' -> l2hops s' = l2hops s -> (forall q j, neigh_data s' j q = if decide (q = p /\ j = i) then Some d else neigh_data s j q) -> Q tt s') ->
  wp (put_neighbordata i p d) s Q.
Proof.
  unfold neigh_data. intros (n & Hn & Hd)%bind_Some HQ. unfold put_neighbordata, store_neigh. wp_steps. eapply data_at_wp; [exact Hd|]. wp_steps. apply HQ.
  - split; [explicit_frame| |done]. simpl. rewrite fmap_insert. apply insert_id. rewrite lookup_fmap, Hn. unfold neigh_rest. simpl. by rewrite length_insert.
  - done.
  - intros q j. simpl. destruct (decide (q = p)) as [->|Hq]; [|by rewrite lookup_insert_ne, decide_False by naive_solver].
    rewrite lookup_insert_eq. simpl. destruct (decide (j = i)) as [->|Hj].
    + rewrite decide_True by done. apply list_lookup_insert_eq. by eapply lookup_lt_Some.
    + rewrite decide_False by naive_solver. by rewrite list_lookup_insert_ne, Hn by done.
Qed.

Lemma check_2hop_wp s i changed p (Q : bool -> nhdp_db -> Prop) : (exists t d, l2hops s !! p = Some t /\ l2_domaindata t !! i = Some d) ->
  (forall b s', metrics_only s s' -> neighs s' = neighs s -> Q b s') -> wp (check_2hop i changed p) s Q.
Proof.
  intros (t & d & Ht & Hd) HQ. unfold check_2hop, l2hopdata, put_l2hopdata, store_l2hop. wp_steps. eapply data_at_wp; [exact Hd|]. wp_steps.
  eapply data_at_wp; [exact Hd|]. wp_steps. apply HQ; [|done]. split; [explicit_frame|done|]. simpl. rewrite fmap_insert. apply insert_id.
  rewrite lookup_fmap, Ht. unfold l2hop_rest. simpl. by rewrite length_insert.
Qed.

Lemma for_fold_wp {A} (I : list ptr -> A -> nhdp_db -> Prop) l body (a : A) s (Q : A -> nhdp_db -> Prop) : I [] a s ->
  (forall pre p b s1, pre ++ [p] `prefix_of` l -> I pre b s1 -> wp (body b p) s1 (I (pre ++ [p]))) -> (forall b s1, I l b s1 -> Q b s1) -> wp (for_fold l body a) s Q.
Proof.
  intros HI Hbody HQ. assert (forall rest pre b s1, l = pre ++ rest -> I pre b s1 -> wp (for_fold rest body b) s1 Q) as Hl; [|by eapply (Hl l [])].
  induction rest as [|p rest IH]; intros pre b s1 El HI1; simpl.
  - wp_steps. apply HQ. by rewrite El, app_nil_r.
  - wp_steps. eapply wp_weaken; [apply Hbody; [|exact HI1]|].
    + rewrite El. exists rest. by rewrite <- app_assoc.
    + intros b' s2 HI2. eapply IH; [|exact HI2]. by rewrite El, <- app_assoc.
Qed.

(** * The least metrics of a neighbor *)

(** The metric of a link, when it is symmetric. *)
Definition symmetric_metric (s : nhdp_db) (i : nat) (k : ptr) : option nhdp_metric :=
  match links s !! k with
  | Some l => if status l =? NHDP_LINK_SYMMETRIC then ld_metric <$> l_domaindata l !! i else None
  | None => None
  end.
Definition least (f : nhdp_metric -> Z) (s : nhdp_db) (i : nat) (ks : list ptr) : Z :=
  foldl Z.min RFC7181_METRIC_INFINITE (f <$> omap (symmetric_metric s i) ks).

Lemma least_snoc f s i ks k : least f s i (ks ++ [k]) =
  match symmetric_metric s i k with Some m => Z.min (least f s i ks) (f m) | None => least f s i ks end.
Proof. unfold least. rewrite omap_app, fmap_app, foldl_app. simpl. by destruct (symmetric_metric s i k). Qed.

Lemma foldl_min l a : foldl Z.min a l <= a /\ (forall z, z ∈ l -> foldl Z.min a l <= z) /\ (foldl Z.min a l = a \/ foldl Z.min a l ∈ l).
Proof.
  revert a. induction l as [|y l IH]; intros a; simpl; [split_and!; [lia|by intros z ?%elem_of_nil|by left]|].
  destruct (IH (Z.min a y)) as (I1 & I2 & I3). split_and!; [lia| |].
  - intros z [->|Hz]%elem_of_cons; [lia|by apply I2].
  - rewrite elem_of_cons. destruct I3 as [->|?]; [|tauto]. destruct (Z.min_spec a y) as [[_ ->]|[_ ->]]; tauto.
Qed.

Lemma least_le f s i ks z : z ∈ f <$> omap (symmetric_metric s i) ks -> least f s i ks <= z.
Proof. apply foldl_min. Qed.
Lemma least_in f s i ks : least f s i ks = RFC7181_METRIC_INFINITE \/ least f s i ks ∈ f <$> omap (symmetric_metric s i) ks.
Proof. apply foldl_min. Qed.

Lemma least_links f s s' i ks : links s' = links s -> least f s' i ks = least f s i ks.
Proof.
  intros E. unfold least. assert (omap (symmetric_metric s' i) ks = omap (symmetric_metric s i) ks) as ->; [|done].
  apply list_omap_ext, Forall2_same_length_lookup_2; [done|]. intros j k k' Hk Hk'. rewrite Hk in Hk'. injection Hk' as <-. unfold symmetric_metric. by rewrite E.
Qed.

(** [nd] has the least metrics of the links [ks]; the best link is one that has
    the outgoing one. *)
Record best_of (s : nhdp_db) (i : nat) (ks : list ptr) (nd : nhdp_neighbor_domaindata) : Prop := {
  bo_out : m_out (nd_metric nd) = least m_out s i ks;
  bo_in : m_in (nd_metric nd) = least m_in s i ks;
  bo_some k : best_out_link nd = Some k -> k ∈ ks /\ m_out (nd_metric nd) < RFC7181_METRIC_INFINITE /\
    exists m, symmetric_metric s i k = Some m /\ m_out m = m_out (nd_metric nd);
  bo_none : best_out_link nd = None -> m_out (nd_metric nd) = RFC7181_METRIC_INFINITE;
}.

(** What the recalculation leaves as it is. *)
Definition data_rest (d : nhdp_neighbor_domaindata) : bool * bool * Z := (local_is_mpr d, neigh_is_mpr d, willingness d).

(** A symmetric link [k] with metric [m] comes next. *)
Definition with_lower_out (k : ptr) (m : nhdp_metric) (nd : nhdp_neighbor_domaindata) : nhdp_neighbor_domaindata :=
  if m_out m <? m_out (nd_metric nd) then with_best (Some k) (best_link_ifindex nd) (with_nd_metric (with_metric_out (m_out m) (nd_metric nd)) nd) else nd.
Definition with_lower_in (m : nhdp_metric) (nd : nhdp_neighbor_domaindata) : nhdp_neighbor_domaindata :=
  if m_in m <? m_in (nd_metric nd) then with_nd_metric (with_metric_in (m_in m) (nd_metric nd)) nd else nd.
Definition with_lower (k : ptr) (m : nhdp_metric) (nd : nhdp_neighbor_domaindata) : nhdp_neighbor_domaindata := with_lower_in m (with_lower_out k m nd).

Lemma best_of_lower s i pre nd k m : best_of s i pre nd -> symmetric_metric s i k = Some m -> best_of s i (pre ++ [k]) (with_lower k m nd).
Proof.
  intros [B1 B2 B3 B4] Hm. assert (least m_out s i (pre ++ [k]) = Z.min (least m_out s i pre) (m_out m)) as Eo by by rewrite least_snoc, Hm.
  assert (least m_in s i (pre ++ [k]) = Z.min (least m_in s i pre) (m_in m)) as Ei by by rewrite least_snoc, Hm.
  assert (m_out (nd_metric (with_lower k m nd)) = Z.min (m_out (nd_metric nd)) (m_out m)) as Mo.
  { unfold with_lower, with_lower_in, with_lower_out. destruct (Z.ltb_spec (m_out m) (m_out (nd_metric nd))); case_match; simpl; lia. }
  assert (m_in (nd_metric (with_lower k m nd)) = Z.min (m_in (nd_metric nd)) (m_in m)) as Mi.
  { unfold with_lower, with_lower_in, with_lower_out. destruct (Z.ltb_spec (m_out m) (m_out (nd_metric nd))); simpl; case_match eqn:E; simpl in *; lia. }
  assert (best_out_link (with_lower k m nd) = if m_out m <? m_out (nd_metric nd) then Some k else best_out_link nd) as Mb.
  { unfold with_lower, with_lower_in, with_lower_out. by repeat case_match. }
  split; [congruence|congruence| |]; rewrite Mb, Mo; destruct (Z.ltb_spec (m_out m) (m_out (nd_metric nd))) as [Hlt|Hge].
  - intros q [= <-]. assert (m_out (nd_metric nd) <= RFC7181_METRIC_INFINITE) as Hle.
    { destruct (best_out_link nd) as [q|]; [by destruct (B3 q eq_refl) as (_ & ? & _); lia|by rewrite B4]. }
    split_and!; [apply elem_of_app; right; left|lia|]. exists m. split; [done|lia].
  - intros q Hq. destruct (B3 q Hq) as (? & ? & mq & ? & ?). split_and!; [apply elem_of_app; by left|lia|]. exists mq. split; [done|lia].
  - done.
  - intros Hn. rewrite (B4 Hn) in *. lia.
Qed.

Section metrics.
Context (max_interval : Z) (timer_info : timer_kind -> positive).
#[local] Notation consistent := (consistent max_interval timer_info).

(** The loop state: only [neigh] in domain [i] has other data. *)
Record walking (s : nhdp_db) (i : nat) (n : ptr) (s1 : nhdp_db) (nd : nhdp_neighbor_domaindata) : Prop := {
  wk_metrics : metrics_only s s1;
  wk_data : neigh_data s1 i n = Some nd;
  wk_others q j : (q, j) <> (n, i) -> neigh_data s1 j q = neigh_data s j q;
}.

Lemma walking_put s i n s1 nd d (Q : unit -> nhdp_db -> Prop) : walking s i n s1 nd -> (forall s2, walking s i n s2 d -> l2hops s2 = l2hops s1 -> Q tt s2) ->
  wp (put_neighbordata i n d) s1 Q.
Proof.
  intros [M D O] HQ. eapply put_neighbordata_wp; [exact D|]. intros s2 M2 L2 D2. apply HQ; [|done]. split.
  - by eapply metrics_trans.
  - by rewrite D2, decide_True.
  - intros q j Hne. rewrite D2, decide_False by naive_solver. by apply O.
Qed.

Lemma walking_put_if s i n s1 nd d (c : bool) (Q : unit -> nhdp_db -> Prop) : walking s i n s1 nd -> (forall s2, walking s i n s2 (if c then d else nd) -> Q tt s2) ->
  wp (if c then put_neighbordata i n d else ret tt) s1 Q.
Proof. intros W HQ. destruct c; [|by apply wp_return, HQ]. eapply walking_put; [exact W|]. intros s2 W2 _. by apply HQ. Qed.

Lemma walking_read s i n s1 nd (Q : nhdp_neighbor_domaindata -> nhdp_db -> Prop) : walking s i n s1 nd -> Q nd s1 -> wp (neighbordata i n) s1 Q.
Proof. intros [_ D _] HQ. unfold neigh_data in D. apply bind_Some in D as (x & Hx & Hd). by eapply neighbordata_wp. Qed.

(** The two-hop neighbors of a link are only looked at. *)
Lemma check_2hops_wp X s k l i b (Q : bool -> nhdp_db -> Prop) : consistent X s -> only_originators X -> links s !! k = Some l -> (i < NHDP_MAXIMUM_DOMAINS)%nat ->
  (forall b s', metrics_only s s' -> neighs s' = neighs s -> Q b s') -> wp (ts <~ get_tree (Link_2hop k) ;; for_fold ts (check_2hop i) b) s Q.
Proof.
  intros H HX Hl Hi HQ. destruct (tree_at _ _ X s (Link_2hop k) H) as (ts & Ets & _ & Hin); [by eexists; apply shape_links|].
  apply wp_seq. eapply get_tree_wp; [exact Ets|]. apply (for_fold_wp (fun _ _ s1 => metrics_only s s1 /\ neighs s1 = neighs s)).
  - split; [apply metrics_refl|done].
  - intros pre p b1 s1 Hp [M N]. pose proof (metrics_consistent _ _ _ _ _ H M) as H1. pose proof (metrics_shape _ _ M) as Es.
    assert (at_home X (shape_of s1) (Link_2hop k) p) as [(a & z & Ha) _].
    { rewrite Es. apply Hin. destruct Hp as [rest ->]. set_solver. }
    destruct (lk_l2hop (co_linked H1) _ _ _ _ Ha) as [_ ->]. simpl in Ha. rewrite lookup_fmap in Ha. destruct (l2hops s1 !! p) as [t|] eqn:Et; [|done].
    injection Ha as _ _ Hz. destruct (lookup_lt_is_Some_2 (l2_domaindata t) i) as [d Hd]; [by rewrite Hz|].
    eapply check_2hop_wp; [by exists t, d|]. intros b2 s2 M2 N2. split; [by eapply metrics_trans|congruence].
  - intros b1 s1 [M N]. by apply HQ.
Qed.

Lemma link_data_at X s k l i : consistent X s -> links s !! k = Some l -> (i < NHDP_MAXIMUM_DOMAINS)%nat -> exists d, l_domaindata l !! i = Some d.
Proof. intros H Hl Hi. destruct (link_at _ _ X s k l H Hl) as (if_ & f & n & F). apply lookup_lt_is_Some_2. by rewrite (lf_size F). Qed.

(** One link of the loop. *)
Lemma check_link_wp X s i n s1 nd pre k l b (Q : bool -> nhdp_db -> Prop) : consistent X s -> only_originators X -> (i < NHDP_MAXIMUM_DOMAINS)%nat ->
  walking s i n s1 nd -> best_of s i pre nd -> links s !! k = Some l ->
  (forall b2 s2 nd2, walking s i n s2 nd2 -> best_of s i (pre ++ [k]) nd2 -> data_rest nd2 = data_rest nd -> best_link_ifindex nd2 = best_link_ifindex nd ->
    best_out_link_metric nd2 = best_out_link_metric nd -> (symmetric_metric s i k = None -> b2 = b) -> Q b2 s2) ->
  wp (check_link i n b k) s1 Q.
Proof.
  intros H HX Hi W B Hl HQ. pose proof (wk_metrics _ _ _ _ _ W) as M. destruct (metrics_fields _ _ M) as (El & _). destruct (link_data_at X s k l i H Hl Hi) as [ld Hld].
  assert (links s1 !! k = Some l) as Hl1 by (by rewrite El). unfold check_link. wp_steps.
  assert (symmetric_metric s i k = if status l =? NHDP_LINK_SYMMETRIC then Some (ld_metric ld) else None) as Esm by (unfold symmetric_metric; by rewrite Hl, Hld).
  destruct (status l =? NHDP_LINK_SYMMETRIC); simpl; wp_steps.
  - eapply linkdata_wp; [exact Hl1|exact Hld|]. apply wp_seq. eapply walking_read; [exact W|]. apply wp_seq.
    eapply walking_put_if; [exact W|]. intros s2 W2. apply wp_seq. eapply walking_read; [exact W2|]. apply wp_seq.
    eapply walking_put_if; [exact W2|]. intros s3 W3. pose proof (wk_metrics _ _ _ _ _ W3) as M3. destruct (metrics_fields _ _ M3) as (El3 & _).
    eapply (check_2hops_wp X s3 k l); [by eapply metrics_consistent|exact HX|by rewrite El3|exact Hi|].
    intros b2 s4 M4 N4. apply (HQ b2 s4 (with_lower k (ld_metric ld) nd)).
    + destruct W3 as [W3 D3 O3]. split; [by eapply metrics_trans|unfold neigh_data; rewrite N4; exact D3|]. intros q j Hne. unfold neigh_data. rewrite N4. by apply O3.
    + by eapply best_of_lower.
    + unfold with_lower, with_lower_in, with_lower_out. by repeat case_match.
    + unfold with_lower, with_lower_in, with_lower_out. by repeat case_match.
    + unfold with_lower, with_lower_in, with_lower_out. by repeat case_match.
    + by rewrite Esm.
  - apply (HQ b s1 nd W); [|done..]. destruct B as [B1 B2 B3 B4]. split; rewrite ?least_snoc, ?Esm; [done|done| |done].
    intros q Hq. destruct (B3 q Hq) as (? & ? & ?). split_and!; try done. apply elem_of_app. by left.
Qed.
(** The interface index of a link. *)
Definition ifindex_of (s : nhdp_db) (k : ptr) : option Z :=
  match links s !! k with
  | Some l => match local_if l with Some i => if_index <$> ifs s !! i | None => None end
  | None => None
  end.

(** The metrics of neighbor [n] in domain [i] after the recalculation. *)
Record recalculated (s : nhdp_db) (i : nat) (n : ptr) (ls : list ptr) (nd nd' : nhdp_neighbor_domaindata) (changed : bool) : Prop := {
  rc_best : best_of s i ls nd';
  rc_rest : data_rest nd' = data_rest nd;
  rc_recorded : best_out_link_metric nd' = match best_out_link nd' with Some _ => m_out (nd_metric nd') | None => best_out_link_metric nd end;
  rc_ifindex k : best_out_link nd' = Some k -> ifindex_of s k = Some (best_link_ifindex nd');
  rc_changed k : best_out_link nd' = Some k -> best_out_link_metric nd <> m_out (nd_metric nd') -> changed = true;
  rc_unchanged : (forall k, k ∈ ls -> symmetric_metric s i k = None) -> changed = false;
}.

Lemma neigh_data_at X s n x i : consistent X s -> neighs s !! n = Some x -> (i < NHDP_MAXIMUM_DOMAINS)%nat -> exists nd, neigh_data s i n = Some nd.
Proof.
  intros H Hx Hi. unfold neigh_data. rewrite Hx. simpl. apply lookup_lt_is_Some_2.
  pose proof (lk_neigh (co_linked H) n _ (shape_neighs _ _ _ Hx)) as E. simpl in E. by rewrite E.
Qed.

Lemma neighbor_metric_wp X s i n x (Q : bool -> nhdp_db -> Prop) : consistent X s -> only_originators X -> neighs s !! n = Some x -> (i < NHDP_MAXIMUM_DOMAINS)%nat ->
  (forall ls nd nd' b s', trees s !! Neigh_links n = Some ls -> neigh_data s i n = Some nd -> walking s i n s' nd' -> recalculated s i n ls nd nd' b -> Q b s') ->
  wp (_recalculate_neighbor_metric i n) s Q.
Proof.
  intros H HX Hx Hi HQ. destruct (neigh_data_at X s n x i H Hx Hi) as [nd Hnd]. destruct (tree_at _ _ X s (Neigh_links n) H) as (ls & Els & _ & Hin); [by eexists; apply shape_neighs|].
  assert (walking s i n s nd) as W0 by (split; [apply metrics_refl|done|done]).
  unfold _recalculate_neighbor_metric. apply wp_seq. eapply walking_read; [exact W0|]. apply wp_seq. eapply walking_put; [exact W0|]. intros s1 W1 _.
  pose proof (metrics_fields _ _ (wk_metrics _ _ _ _ _ W1)) as (_ & _ & Et & _). apply wp_seq. eapply get_tree_wp; [rewrite Et; exact Els|]. apply wp_seq.
  eapply (for_fold_wp (fun pre b s2 => exists nd2, walking s i n s2 nd2 /\ best_of s i pre nd2 /\ data_rest nd2 = data_rest nd /\ best_link_ifindex nd2 = 0 /\
    best_out_link_metric nd2 = best_out_link_metric nd /\ ((forall k, k ∈ pre -> symmetric_metric s i k = None) -> b = false))).
  - eexists. split; [exact W1|]. by split.
  - intros pre k b s2 Hpre (nd2 & W2 & B2 & R2 & I2 & M2 & C2). assert (at_home X (shape_of s) (Neigh_links n) k) as [(v & Hv & _) _].
    { apply Hin. destruct Hpre as [rest ->]. set_solver. }
    simpl in Hv. rewrite lookup_fmap in Hv. destruct (links s !! k) as [l|] eqn:Ek; [|done].
    eapply check_link_wp; [exact H|exact HX|exact Hi|exact W2|exact B2|exact Ek|]. intros b3 s3 nd3 W3 B3 R3 I3 M3 C3. exists nd3. split_and!; try congruence.
    intros Hall. rewrite C3 by (apply Hall; set_solver). apply C2. intros q Hq. apply Hall. set_solver.
  - intros b s2 (nd2 & W2 & B2 & R2 & I2 & M2 & C2). apply wp_seq. eapply walking_read; [exact W2|].
    destruct (best_out_link nd2) as [k|] eqn:Eb.
    + destruct (bo_some _ _ _ _ B2 k Eb) as (Hk & Hlt & m & Hm & Em). unfold symmetric_metric in Hm. destruct (links s !! k) as [l|] eqn:Ek; [|done].
      destruct (status l =? NHDP_LINK_SYMMETRIC) eqn:Es; [|done]. destruct (l_domaindata l !! i) as [ld|] eqn:Eld; [|done]. injection Hm as <-.
      pose proof (metrics_fields _ _ (wk_metrics _ _ _ _ _ W2)) as (El & Ef & _). destruct (link_at _ _ X s k l H Ek) as (if_ & f & nb & F).
      apply wp_seq. eapply linkdata_wp; [rewrite El; exact Ek|exact Eld|]. apply wp_seq. eapply wp_read; [rewrite El; exact Ek|]. rewrite (lf_if F). simpl. wp_steps.
      eapply wp_read; [rewrite Ef; apply F|]. wp_steps. eapply walking_put; [exact W2|]. intros s3 W3 _. wp_steps.
      eapply HQ; [exact Els|exact Hnd|exact W3|]. destruct B2 as [B1 B2 B3 B4]. split; simpl.
      * split; simpl; try done. intros q [= <-]. by apply B3.
      * exact R2.
      * exact Em.
      * intros q [= <-]. unfold ifindex_of. rewrite Ek. simpl. rewrite (lf_if F). simpl. by rewrite (lf_interface F).
      * intros q _ Hne. rewrite Em, M2. destruct (Z.eqb_spec (best_out_link_metric nd) (m_out (nd_metric nd2))); [done|]. by rewrite orb_true_r.
      * intros Hall. specialize (Hall k Hk). unfold symmetric_metric in Hall. by rewrite Ek, Es, Eld in Hall.
    + wp_steps. eapply HQ; [exact Els|exact Hnd|exact W2|]. split; [done|done|by rewrite Eb|by rewrite Eb|by rewrite Eb|exact C2].
Qed.

(** ** All neighbors and domains *)

Lemma any_wp {A} (l : list A) body (I : nhdp_db -> Prop) s (Q : bool -> nhdp_db -> Prop) : I s ->
  (forall x s1, x ∈ l -> I s1 -> wp (body x) s1 (fun _ s2 => I s2)) -> (forall b s1, I s1 -> Q b s1) -> wp (any l body) s Q.
Proof.
  intros HI Hb HQ. revert s Q HI HQ. induction l as [|x l IH]; intros s Q HI HQ; simpl; [by wp_steps; apply HQ|]. wp_steps.
  eapply wp_weaken; [apply Hb; [left|done]|]. intros b s1 H1. wp_steps. apply IH; [intros y s2 Hy; apply Hb; by right|done|]. intros b2 s2 H2. wp_steps. by apply HQ.
Qed.

Lemma neighbor_metrics_only X s i n (Q : bool -> nhdp_db -> Prop) : consistent X s -> only_originators X -> is_Some (neighs s !! n) -> (i < NHDP_MAXIMUM_DOMAINS)%nat ->
  (forall b s', metrics_only s s' -> Q b s') -> wp (_recalculate_neighbor_metric i n) s Q.
Proof. intros H HX [x Hx] Hi HQ. eapply neighbor_metric_wp; [done..|]. intros ls nd nd' b s' _ _ W _. apply HQ, W. Qed.

Lemma metrics_neigh s s' n : metrics_only s s' -> is_Some (neighs s' !! n) <-> is_Some (neighs s !! n).
Proof. intros M. rewrite <- !(fmap_is_Some neigh_rest), <- !lookup_fmap. by rewrite (mo_neighs _ _ M). Qed.

Lemma domain_metrics_only X s i neigh (Q : bool -> nhdp_db -> Prop) : consistent X s -> only_originators X -> (forall n, neigh = Some n -> is_Some (neighs s !! n)) ->
  (i < NHDP_MAXIMUM_DOMAINS)%nat -> (forall b s', metrics_only s s' -> Q b s') -> wp (recalculate_domain neigh i) s Q.
Proof.
  intros H HX Hn Hi HQ. destruct neigh as [n|]; simpl; [by eapply neighbor_metrics_only; eauto|].
  destruct (tree_at _ _ X s Neigh_list H) as (ns & Ens & _ & Hin); [done|]. apply wp_seq. eapply get_tree_wp; [exact Ens|].
  eapply (any_wp _ _ (metrics_only s)); [apply metrics_refl| |done]. intros n s1 Hns M1. apply Hin in Hns as [Hns _]. simpl in Hns. rewrite lookup_fmap, fmap_is_Some in Hns.
  eapply neighbor_metrics_only; [by eapply metrics_consistent|exact HX|by apply (metrics_neigh s)|exact Hi|]. intros b s2 M2. by eapply metrics_trans.
Qed.

(** What a call of the listeners adds to a database is its trace. *)
Lemma add_call_metrics c s s' : metrics_only s s' -> metrics_only s (add_call c s').
Proof. intros [F N L]. split; [|done|done]. eapply frame_trans; [exact F|explicit_frame]. Qed.

Lemma recalculate_metrics_wp X s domain neigh (Q : bool -> nhdp_db -> Prop) : consistent X s -> only_originators X -> (forall n, neigh = Some n -> is_Some (neighs s !! n)) ->
  (forall i, domain = Some i -> (i < NHDP_MAXIMUM_DOMAINS)%nat) -> (forall b s', metrics_only s s' -> Q b s') -> wp (nhdp_domain_recalculate_metrics domain neigh) s Q.
Proof.
  intros H HX Hn Hd HQ. unfold nhdp_domain_recalculate_metrics. apply wp_seq.
  assert (forall b s1, metrics_only s s1 -> wp ((if (b : bool) then call (Metric_update domain) else ret tt) ;;; ret b) s1 Q) as Hend.
  { intros b s1 M. destruct b; unfold call; wp_steps; apply HQ; [by apply add_call_metrics|done]. }
  destruct domain as [i|].
  - eapply domain_metrics_only; eauto.
  - wp_steps. eapply (any_wp _ _ (metrics_only s)); [apply metrics_refl| |done]. intros i s1 Hi M1.
    eapply domain_metrics_only; [by eapply metrics_consistent|exact HX|intros n En; by apply (metrics_neigh s), Hn| |].
    + apply list_elem_of_fmap in Hi as (d & -> & Hin). pose proof (co_domains H) as HD. unfold domains_there in HD. rewrite Forall_forall in HD. by apply HD.
    + intros b s2 M2. by eapply metrics_trans.
Qed.
End metrics.
