(* ===== verification/NhdpStatus.v ===== *)
(** The status of links in src/nhdp/nhdp/nhdp_db.c: how it is calculated, and
    what a change does to the addresses and the counter of the neighbor, to the
    two-hop neighbors of the link and to its interface. *)

From Stdlib Require Import ZArith Lia Sorted.
From stdpp Require Import base list numbers option gmap sets.
From S2P Require Import Prelude AvlSpec StateMonad Rfc5444Values Netaddr MprSelection NhdpDb NhdpDomain Timer ValidityTimer NhdpStore NhdpConsistent NhdpPartners NhdpRemove NhdpUnlink NhdpNeighbor NhdpAdd NhdpMetrics.

Local Open Scope Z_scope.
Local Open Scope state_scope.

Definition link_timer (kd : timer_kind) : bool := match kd with Sym_time | Heard_time | Link_vtime => true | _ => false end.

Section status.
Context (os_core_get_random : nat -> option Z) (random_u32 : forall n r, os_core_get_random n = Some r -> 0 <= r <= UINT32_MAX).
Context (max_interval : Z) (max_interval_range : 0 <= max_interval <= 2 ^ 56).
Context (timer_info : timer_kind -> positive).
Context (nhdp_hysteresis_is_pending nhdp_hysteresis_is_lost : nhdp_db -> ptr -> bool).
#[local] Notation consistent := (consistent max_interval timer_info).
#[local] Notation timers_ok := (timers_ok max_interval timer_info).
#[local] Notation calculate_status := (_nhdp_db_link_calculate_status nhdp_hysteresis_is_pending nhdp_hysteresis_is_lost).
#[local] Ltac rule l := eapply l; try first [exact random_u32 | exact max_interval_range].

(** ** Objects whose places stay *)

Lemma consistent_link X s k l l' : consistent X s -> links s !! k = Some l -> view_link l' = view_link l -> consistent X (set_links <[k := l']> s).
Proof.
  intros H Hl E. eapply consistent_eq; [exact H| |done..]. autorewrite with nhdp_shape. unfold with_link. rewrite E.
  rewrite insert_id by (by apply shape_links). by destruct (shape_of s).
Qed.

Lemma consistent_neigh X s n x x' : consistent X s -> neighs s !! n = Some x -> view_neigh x' = view_neigh x -> consistent X (set_neighs <[n := x']> s).
Proof.
  intros H Hl E. eapply consistent_eq; [exact H| |done..]. autorewrite with nhdp_shape. unfold with_neigh. rewrite E.
  rewrite insert_id by (by apply shape_neighs). by destruct (shape_of s).
Qed.

Lemma consistent_if X s i f f' : consistent X s -> ifs s !! i = Some f -> consistent X (set_ifs <[i := f']> s).
Proof.
  intros H Hf. eapply consistent_eq; [exact H| |done..]. unfold shape_of. simpl. f_equal. rewrite dom_insert_L.
  assert (i ∈ dom (ifs s)) by (apply elem_of_dom; by eexists). set_solver.
Qed.

(** ** Status *)

(** The interfaces hold their own addresses in order, and their hold times can be timed. *)
Definition interfaces_ok (s : nhdp_db) : Prop := forall i f, ifs s !! i = Some f ->
  0 <= n_hold_time f <= max_interval /\ tree_strict (fun a : netaddr => a) avl_comp_netaddr (_if_addresses f).

(** A link to ourselves: the address of the other side is our originator or one of the interface, the neighbor has our
    originator, or the MAC address is that of the interface. *)
Definition to_ourselves (o : netaddr) (f : nhdp_interface) (l : nhdp_link) (n : nhdp_neighbor) : Prop :=
  (netaddr_is_unspec o = false /\ (o = if_addr l \/ o = originator n)) \/ if_addr l ∈ _if_addresses f \/
  (netaddr_is_unspec (remote_mac l) = false /\ remote_mac l = if_mac f).

#[export] Instance to_ourselves_dec o f l n : Decision (to_ourselves o f l n).
Proof. unfold to_ourselves. apply _. Defined.

(** The status of a link in a database, see section 13 of RFC 6130. *)
Definition link_status (s : nhdp_db) (k : ptr) (o : netaddr) (f : nhdp_interface) (l : nhdp_link) (n : nhdp_neighbor) : Z :=
  if decide (to_ourselves o f l n) then NHDP_LINK_PENDING
  else if nhdp_hysteresis_is_pending s k then NHDP_LINK_PENDING
  else if nhdp_hysteresis_is_lost s k then NHDP_LINK_LOST
  else if is_active (timers s) Sym_time k then NHDP_LINK_SYMMETRIC
  else if is_active (timers s) Heard_time k then NHDP_LINK_HEARD
  else NHDP_LINK_LOST.

Lemma own_address_wp s i f a (Q : bool -> nhdp_db -> Prop) : ifs s !! i = Some f -> tree_strict (fun a : netaddr => a) avl_comp_netaddr (_if_addresses f) ->
  Q (bool_decide (a ∈ _if_addresses f)) s -> wp (nhdp_interface_addr_if_get i a) s Q.
Proof.
  intros Hf Hs HQ. unfold nhdp_interface_addr_if_get. wp_steps.
  match goal with |- Q ?b s => assert (b = bool_decide (a ∈ _if_addresses f)) as -> end; [|done].
  pose proof (proj1 (tree_find_spec (fun a : netaddr => a) avl_comp_netaddr a _ _ Hs) eq_refl) as Hk.
  destruct (tree_find _ _ _ _) as [y|].
  - destruct Hk as [Hy Hk]. apply netaddr_cmp_eq in Hk as ->. by rewrite bool_decide_true.
  - rewrite bool_decide_false; [done|]. intros Ha. by apply (Hk a Ha), netaddr_cmp_eq.
Qed.

Lemma cmp_decide a b : (netaddr_cmp a b =? 0) = bool_decide (a = b).
Proof. destruct (Z.eqb_spec (netaddr_cmp a b) 0) as [E|E]; symmetry; [rewrite bool_decide_true by (by apply netaddr_cmp_eq)|rewrite bool_decide_false by (by rewrite <- netaddr_cmp_eq)]; done. Qed.

Lemma status_wp X s k l i f n o (Q : Z -> nhdp_db -> Prop) : consistent X s -> links s !! k = Some l -> link_facts s l i f n -> interfaces_ok s ->
  nhdp_get_originator s (na_type (if_addr l)) = Some o -> Q (link_status s k o f l n) s -> wp (calculate_status k) s Q.
Proof.
  intros H Hl F HI Ho HQ. assert (has_timer (shape_of s) Sym_time k) as Hs by (eexists; by apply shape_links).
  destruct (HI i f (lf_interface F)) as [_ Hst].
  pose proof (lf_interface F) as Hif. pose proof (lf_neigh F) as Hn.
  unfold _nhdp_db_link_calculate_status. wp_steps. rewrite (lf_if F). simpl. wp_steps. rewrite Ho. wp_steps.
  unfold link_status in HQ. rewrite !cmp_decide, <- bool_decide_or.
  destruct (negb (netaddr_is_unspec o) && bool_decide (o = if_addr l \/ o = originator n)) eqn:E1.
  { apply andb_true_iff in E1 as [E1%negb_true_iff E2%bool_decide_eq_true]. rewrite decide_True in HQ; [by wp_steps|]. by left. }
  wp_steps. eapply own_address_wp; [apply F|exact Hst|]. destruct (bool_decide (if_addr l ∈ _)) eqn:E2.
  { apply bool_decide_eq_true in E2. rewrite decide_True in HQ; [by wp_steps|]. by right; left. }
  apply bool_decide_eq_false in E2. destruct (negb (netaddr_is_unspec (remote_mac l)) && bool_decide (if_mac f = remote_mac l)) eqn:E3.
  { apply andb_true_iff in E3 as [E3%negb_true_iff E4%bool_decide_eq_true]. rewrite decide_True in HQ; [by wp_steps|]. by right; right. }
  rewrite decide_False in HQ.
  { revert HQ. destruct (nhdp_hysteresis_is_pending s k); [intros HQ; by wp_steps|]. destruct (nhdp_hysteresis_is_lost s k); [intros HQ; by wp_steps|]. intros HQ.
    apply wp_seq. eapply timer_active_wp; [apply H|exact Hs|]. revert HQ. destruct (is_active _ Sym_time k); [intros HQ; by wp_steps|]. intros HQ.
    apply wp_seq. eapply timer_active_wp; [apply H|exact Hs|]. revert HQ. by destruct (is_active _ Heard_time k); intros HQ; wp_steps. }
  intros [[Eu Eo]|[?|[Eu Em]]]; [|done|].
  - rewrite Eu in E1. simpl in E1. by rewrite bool_decide_true in E1.
  - rewrite Eu in E3. simpl in E3. by rewrite bool_decide_true in E3.
Qed.

(** ** Timers of addresses *)

(** Only timers of neighbor addresses and two-hop neighbors are other ones. *)
Record lost_timers_changed (ts ts' : timer_state) : Prop := {
  lo_now : now_times ts' = now_times ts;
  lo_other kd p : link_timer kd = true -> is_active ts' kd p = is_active ts kd p;
}.

Lemma lost_changed_refl ts : lost_timers_changed ts ts.
Proof. by split. Qed.
Lemma lost_changed_trans ts ts1 ts2 : lost_timers_changed ts ts1 -> lost_timers_changed ts1 ts2 -> lost_timers_changed ts ts2.
Proof. intros [N1 O1] [N2 O2]. split; [congruence|]. intros kd p Hk. by rewrite O2, O1. Qed.
Lemma lost_changed kd p ts ts' : timer_changed kd p ts ts' -> link_timer kd = false -> lost_timers_changed ts ts'.
Proof. intros [N O] Hk. split; [done|]. intros kd' q Hk'. apply O. intros [= -> ->]. congruence. Qed.

Lemma set_timers_id s : set_timers (timers s) s = s.
Proof. by destruct s. Qed.

(** A loop over the addresses of a neighbor that sets or stops their timers. *)
Lemma naddr_timers_wp X s n x body (Q : unit -> nhdp_db -> Prop) : consistent X s -> only_originators X -> neighs s !! n = Some x ->
  (forall p tm, is_Some (naddrs s !! p) -> consistent X (set_timers tm s) -> wp (body p) (set_timers tm s)
    (fun _ s' => exists tm', s' = set_timers tm' s /\ timers_ok (has_timer (shape_of s)) tm' /\ timer_changed Lost_vtime p tm tm')) ->
  (forall tm, consistent X (set_timers tm s) -> lost_timers_changed (timers s) tm -> Q tt (set_timers tm s)) ->
  wp (for_each (get_tree (Neigh_addresses n)) body) s Q /\ wp (for_each_safe (get_tree (Neigh_addresses n)) body) s Q.
Proof.
  intros H HX Hx Hbody HQ. destruct (tree_at _ _ X s (Neigh_addresses n) H) as (ls & Els & Hnd & Hin); [by eexists; apply shape_neighs|].
  assert (forall tm, get_tree (Neigh_addresses n) (set_timers tm s) = Def (ls, set_timers tm s)) as Hget by (intros tm; unfold get_tree; simpl; by rewrite Els).
  assert (forall p tm, p ∈ ls -> consistent X (set_timers tm s) -> lost_timers_changed (timers s) tm ->
    wp (body p) (set_timers tm s) (fun _ s' => exists tm', s' = set_timers tm' s /\ consistent X (set_timers tm' s) /\ lost_timers_changed (timers s) tm')) as Hstep.
  { intros p tm Hp H1 C1. apply Hin in Hp as [[a Ha] _]. simpl in Ha. rewrite lookup_fmap in Ha. destruct (naddrs s !! p) as [b|] eqn:Eb; [|done].
    eapply wp_weaken; [by apply Hbody|]. intros [] s' (tm' & -> & T & C). exists tm'. split_and!; [done| |by eapply lost_changed_trans; [exact C1|eapply lost_changed]].
    split; try apply H. exact T. }
  set (I := fun rest s1 => exists tm, s1 = set_timers tm s /\ consistent X (set_timers tm s) /\ lost_timers_changed (timers s) tm /\ exists pre, ls = pre ++ rest).
  assert (I ls s) as HI0 by (exists (timers s); split_and!; [by rewrite set_timers_id|by rewrite set_timers_id|apply lost_changed_refl|by exists []]).
  assert (forall s1, I [] s1 -> Q tt s1) as HIQ by (intros s1 (tm & -> & ? & ? & _); by apply HQ).
  pose proof (Hget (timers s)) as Hg0. rewrite set_timers_id in Hg0.
  split; [eapply (for_each_wp I)|eapply (for_each_safe_wp I)]; try done.
  - intros p rest s1 (tm & -> & H1 & C1 & pre & El). eapply wp_weaken; [apply Hstep; [rewrite El; set_solver|done|done]|].
    intros [] s' (tm' & -> & H2 & C2). split; [exists tm'; split_and!; [done..|]; exists (pre ++ [p]); by rewrite El, <- app_assoc|].
    exists pre. rewrite <- El. by split.
  - intros p rest s1 (tm & -> & H1 & C1 & pre & El). split; [exists pre; rewrite <- El; by split|]. eapply wp_weaken; [apply Hstep; [rewrite El; set_solver|done|done]|].
    intros [] s' (tm' & -> & H2 & C2). exists tm'. split_and!; [done..|]. exists (pre ++ [p]). by rewrite El, <- app_assoc.
Qed.

Lemma not_lost_loop_wp X s n x (Q : unit -> nhdp_db -> Prop) : consistent X s -> only_originators X -> neighs s !! n = Some x ->
  (forall tm, consistent X (set_timers tm s) -> lost_timers_changed (timers s) tm -> Q tt (set_timers tm s)) ->
  wp (for_each (get_tree (Neigh_addresses n)) nhdp_db_neighbor_addr_not_lost) s Q.
Proof.
  intros H HX Hx HQ. eapply naddr_timers_wp; [done..| |done]. intros p tm [a Ha] H1. unfold nhdp_db_neighbor_addr_not_lost.
  rule timer_stop_wp; [apply H1|by eexists; apply shape_naddrs|]. intros tm' T C _. by exists tm'.
Qed.

Lemma lost_loop_wp X s n x l i f (Q : unit -> nhdp_db -> Prop) : consistent X s -> only_originators X -> neighs s !! n = Some x -> ifs s !! i = Some f -> local_if l = Some i ->
  0 <= n_hold_time f <= max_interval -> (forall tm, consistent X (set_timers tm s) -> lost_timers_changed (timers s) tm -> Q tt (set_timers tm s)) ->
  wp (for_each_safe (get_tree (Neigh_addresses n)) (fun naddr =>
    interf <~ deref (local_if l) ;; f <~ load ifs interf ;; nhdp_db_neighbor_addr_set_lost os_core_get_random naddr (n_hold_time f))) s Q.
Proof.
  intros H HX Hx Hf Hi Ht HQ. eapply naddr_timers_wp; [done..| |done]. intros p tm [a Ha] H1. rewrite Hi. simpl. wp_steps. unfold nhdp_db_neighbor_addr_set_lost.
  rule timer_set_wp; [apply H1|by eexists; apply shape_naddrs|exact Ht|]. intros tm' T C _. by exists tm'.
Qed.

(** ** Interfaces *)

(** What a symmetric link counts for: IPv4 only, IPv6 only, dualstack. *)
Inductive link_kind := Ipv4_only | Ipv6_only | Dualstack.
#[export] Instance link_kind_eq_dec : EqDecision link_kind.
Proof. solve_decision. Defined.

Definition kind_of (s : nhdp_db) (k : ptr) : option link_kind :=
  match links s !! k with
  | Some l =>
      if status l =? NHDP_LINK_SYMMETRIC then
        let af := na_type (originator_of s (l_neigh l)) in
        match l_partner l with
        | Some _ => if af =? AF_INET then Some Dualstack else None
        | None => if af =? AF_INET then Some Ipv4_only else if af =? AF_INET6 then Some Ipv6_only else None
        end
      else None
  | None => None
  end.
Definition count_kind (s : nhdp_db) (j : link_kind) (ks : list ptr) : Z := Z.of_nat (length (filter (fun k => kind_of s k = Some j) ks)).

(** The flags for flooding that the links [ks] give. *)
Definition flooding_of (s : nhdp_db) (ks : list ptr) (f : nhdp_interface) : nhdp_interface :=
  let c j := u32 (count_kind s j ks) in
  with_flooding (0 <? c Ipv4_only) ((0 <? c Ipv6_only) || ((c Ipv4_only =? 0) && (0 <? c Dualstack)))
    (if 0 <? c Dualstack then if c Ipv4_only =? 0 then AF_INET6 else if c Ipv6_only =? 0 then AF_INET else AF_UNSPEC else AF_UNSPEC) f.

Lemma count_kind_snoc s j ks k : count_kind s j (ks ++ [k]) = count_kind s j ks + (if decide (kind_of s k = Some j) then 1 else 0).
Proof. unfold count_kind. rewrite filter_app, length_app, filter_cons, filter_nil. destruct (decide _); simpl; lia. Qed.

Lemma u32_plus_one z : u32 (u32 z + 1) = u32 (z + 1).
Proof. unfold u32, wrap. by rewrite Zplus_mod_idemp_l. Qed.

Lemma count_link_wp X s k l pre (Q : Z * Z * Z -> nhdp_db -> Prop) : consistent X s -> links s !! k = Some l ->
  Q (u32 (count_kind s Ipv4_only (pre ++ [k])), u32 (count_kind s Ipv6_only (pre ++ [k])), u32 (count_kind s Dualstack (pre ++ [k]))) s ->
  wp (count_link (u32 (count_kind s Ipv4_only pre), u32 (count_kind s Ipv6_only pre), u32 (count_kind s Dualstack pre)) k) s Q.
Proof.
  intros H Hl HQ. destruct (link_at _ _ X s k l H Hl) as (i & f & n & F). pose proof (lf_neigh F) as Hn. rewrite !count_kind_snoc in HQ.
  assert (kind_of s k = if status l =? NHDP_LINK_SYMMETRIC then
    match l_partner l with
    | Some _ => if na_type (originator n) =? AF_INET then Some Dualstack else None
    | None => if na_type (originator n) =? AF_INET then Some Ipv4_only else if na_type (originator n) =? AF_INET6 then Some Ipv6_only else None
    end else None) as Ek by (unfold kind_of, originator_of; rewrite Hl, Hn; done).
  unfold count_link. wp_steps. rewrite Ek in HQ. destruct (status l =? NHDP_LINK_SYMMETRIC); simpl in *; wp_steps.
  - destruct (l_partner l), (na_type (originator n) =? AF_INET); try destruct (na_type (originator n) =? AF_INET6); wp_steps;
      revert HQ; repeat (destruct (decide _); try done); rewrite ?Z.add_0_r, ?u32_plus_one; done.
  - revert HQ. repeat (destruct (decide _); try done). by rewrite !Z.add_0_r.
Qed.

Lemma interface_status_wp X s i f (Q : unit -> nhdp_db -> Prop) : consistent X s -> only_originators X -> ifs s !! i = Some f ->
  (forall ks, trees s !! If_links i = Some ks -> consistent X (set_ifs <[i := flooding_of s ks f]> s) -> Q tt (set_ifs <[i := flooding_of s ks f]> s)) ->
  wp (nhdp_interface_update_status i) s Q.
Proof.
  intros H HX Hf HQ. destruct (tree_at _ _ X s (If_links i) H) as (ks & Eks & _ & Hin); [simpl; apply elem_of_dom; by eexists|].
  unfold nhdp_interface_update_status, store_if. apply wp_seq. eapply get_tree_wp; [exact Eks|]. apply wp_seq.
  eapply (for_fold_wp (fun pre c s1 => s1 = s /\ c = (u32 (count_kind s Ipv4_only pre), u32 (count_kind s Ipv6_only pre), u32 (count_kind s Dualstack pre)))); [done|..].
  - intros pre k c s1 [rest ->] [-> ->]. assert (at_home X (shape_of s) (If_links i) k) as [(v & Hv & _) _] by (apply Hin; set_solver).
    simpl in Hv. rewrite lookup_fmap in Hv. destruct (links s !! k) as [l|] eqn:Ek; [|done]. by eapply count_link_wp.
  - intros c s1 [-> ->]. wp_steps. apply (HQ ks Eks). by eapply consistent_if.
Qed.

(** ** Becoming symmetric, and no longer *)

Definition counted (n : ptr) (d : Z) (m : gmap ptr nhdp_neighbor) : gmap ptr nhdp_neighbor := alter (with_symmetric (fun z => z + d)) n m.

Lemma counted_insert n d m x : m !! n = Some x -> <[n := with_symmetric (fun z => z + d) x]> m = counted n d m.
Proof.
  intros Hx. unfold counted. apply map_eq. intros p. destruct (decide (p = n)) as [->|Hp]; [by rewrite lookup_insert_eq, lookup_alter_eq, Hx|by rewrite lookup_insert_ne, lookup_alter_ne].
Qed.

Record unsymmetric_now (k : ptr) (l : nhdp_link) (s s' : nhdp_db) : Prop := {
  un_frame : frame [F_neighs; F_l2hops; F_trees; F_timers; F_set_id] s s';
  un_neighs : neighs s' = counted (l_neigh l) (-1) (neighs s);
  un_l2hops p a : l2hops s' !! p = Some a <-> l2hops s !! p = Some a /\ l2_link a <> k;
  un_trees t : l2hop_tree t = false -> trees s' !! t = trees s !! t;
  un_timers : lost_timers_changed (timers s) (timers s');
}.

Lemma unsymmetric_wp s k l i f n (Q : unit -> nhdp_db -> Prop) : consistent ∅ s -> links s !! k = Some l -> link_facts s l i f n -> 0 <= n_hold_time f <= max_interval ->
  (forall s', consistent ∅ s' -> unsymmetric_now k l s s' -> Q tt s') -> wp (_link_status_not_symmetric_anymore os_core_get_random k) s Q.
Proof.
  intros H Hl F Ht HQ. assert (only_originators ∅) as H0 by (by intros t x ?%elem_of_empty). unfold _link_status_not_symmetric_anymore. apply wp_seq.
  rule l2hops_loop_wp; [exact H|exact H0|exact Hl|]. intros s1 H1 F1 D1 T1 A1 N1.
  assert (links s1 = links s /\ neighs s1 = neighs s /\ ifs s1 = ifs s) as (El1 & En1 & Ei1).
  { split_and!; [apply (proj1 F1 F_links)|apply (proj1 F1 F_neighs)|apply (proj1 F1 F_ifs)]; fields. }
  assert (neighs s1 !! l_neigh l = Some n) as Hn1 by (rewrite En1; apply F).
  apply wp_seq. eapply wp_read; [rewrite El1; exact Hl|]. apply wp_seq. eapply change_neigh_wp; [exact Hn1|].
  set (x1 := with_symmetric (fun z => z - 1) n). set (s2 := set_neighs <[l_neigh l := x1]> s1).
  assert (consistent ∅ s2) as H2 by (by eapply consistent_neigh).
  assert (neighs s2 = counted (l_neigh l) (-1) (neighs s)) as En2 by (unfold s2; simpl; rewrite <- En1; by apply counted_insert).
  assert (neighs s2 !! l_neigh l = Some x1) as Hx2 by (apply lookup_insert_eq).
  apply wp_seq. eapply wp_read; [exact Hx2|].
  assert (forall z tm, consistent ∅ (set_timers tm s2) -> lost_timers_changed (timers s2) tm -> Q tt (set_set_id z (set_timers tm s2))) as Hend.
  { intros z tm H3 C3. apply HQ; [by eapply consistent_eq|]. split.
    - apply (frame_trans _ _ s1); [eapply frame_weaken; [exact F1|fields]|explicit_frame].
    - exact En2.
    - exact D1.
    - intros t Hk. simpl. by apply T1.
    - simpl. eapply lost_changed_trans; [|exact C3]. split; [exact N1|]. intros kd p Hk. apply A1. by destruct kd. }
  destruct (symmetric x1 =? 0).
  - apply wp_seq. eapply lost_loop_wp; [exact H2|exact H0|exact Hx2|unfold s2; simpl; rewrite Ei1; apply F|apply F|exact Ht|]. intros tm H3 C3.
    unfold count_change. apply wp_modify. by apply Hend.
  - wp_steps. specialize (Hend (set_id s2) (timers s2)). rewrite set_timers_id in Hend. assert (set_set_id (set_id s2) s2 = s2) as Es by (by destruct s2).
    rewrite Es in Hend. apply Hend; [exact H2|apply lost_changed_refl].
Qed.

Record symmetric_now (k : ptr) (l : nhdp_link) (s s' : nhdp_db) : Prop := {
  sn_frame : frame [F_neighs; F_timers; F_set_id] s s';
  sn_neighs : neighs s' = counted (l_neigh l) 1 (neighs s);
  sn_timers : lost_timers_changed (timers s) (timers s');
}.

Lemma symmetric_wp s k l n (Q : unit -> nhdp_db -> Prop) : consistent ∅ s -> links s !! k = Some l -> neighs s !! l_neigh l = Some n ->
  (forall s', consistent ∅ s' -> symmetric_now k l s s' -> Q tt s') -> wp (_link_status_now_symmetric k) s Q.
Proof.
  intros H Hl Hn HQ. assert (only_originators ∅) as H0 by (by intros t x ?%elem_of_empty). unfold _link_status_now_symmetric. wp_steps.
  eapply change_neigh_wp; [exact Hn|]. set (x1 := with_symmetric (fun z => z + 1) n). set (s2 := set_neighs <[l_neigh l := x1]> s).
  assert (consistent ∅ s2) as H2 by (by eapply consistent_neigh). assert (neighs s2 !! l_neigh l = Some x1) as Hx2 by (apply lookup_insert_eq). wp_steps.
  assert (forall z tm, consistent ∅ (set_timers tm s2) -> lost_timers_changed (timers s2) tm -> Q tt (set_set_id z (set_timers tm s2))) as Hend.
  { intros z tm H3 C3. apply HQ; [by eapply consistent_eq|]. split; [explicit_frame|simpl; by apply counted_insert|exact C3]. }
  destruct (symmetric x1 =? 1).
  - apply wp_seq. eapply not_lost_loop_wp; [exact H2|exact H0|exact Hx2|]. intros tm H3 C3. unfold count_change. apply wp_modify. by apply Hend.
  - wp_steps. specialize (Hend (set_id s2) (timers s2)). rewrite set_timers_id in Hend. assert (set_set_id (set_id s2) s2 = s2) as Es by (by destruct s2).
    rewrite Es in Hend. apply Hend; [exact H2|apply lost_changed_refl].
Qed.

(** ** The update of the status *)

Definition is_symmetric (st : Z) : bool := st =? NHDP_LINK_SYMMETRIC.
(** What the counter of symmetric links gains. *)
Definition gain (old new : Z) : Z := (if is_symmetric new then 1 else 0) - (if is_symmetric old then 1 else 0).

(** After the two functions for a link that is, or is no longer, symmetric. *)
Record transition (k : ptr) (l : nhdp_link) (old new : Z) (s s' : nhdp_db) : Prop := {
  tr_frame : frame [F_neighs; F_l2hops; F_trees; F_timers; F_set_id] s s';
  tr_neighs : neighs s' = counted (l_neigh l) (gain old new) (neighs s);
  tr_l2hops p a : l2hops s' !! p = Some a <-> l2hops s !! p = Some a /\ (is_symmetric old && negb (is_symmetric new) = true -> l2_link a <> k);
  tr_trees t : l2hop_tree t = false -> trees s' !! t = trees s !! t;
  tr_timers : lost_timers_changed (timers s) (timers s');
}.

Lemma counted_none n m : counted n 0 m = m.
Proof.
  unfold counted. apply map_eq. intros p. destruct (decide (p = n)) as [->|Hp]; [|by rewrite lookup_alter_ne]. rewrite lookup_alter_eq.
  destruct (m !! n) as [x|]; [|done]. simpl. destruct x. unfold with_symmetric. simpl. by rewrite Z.add_0_r.
Qed.

Lemma transition_wp s k l i f n old st (Q : unit -> nhdp_db -> Prop) : consistent ∅ s -> links s !! k = Some l -> link_facts s l i f n -> 0 <= n_hold_time f <= max_interval ->
  (forall s', consistent ∅ s' -> transition k l old st s s' -> Q tt s') ->
  wp ((if (old =? NHDP_LINK_SYMMETRIC) && negb (st =? NHDP_LINK_SYMMETRIC) then _link_status_not_symmetric_anymore os_core_get_random k else ret tt) ;;;
      (if negb (old =? NHDP_LINK_SYMMETRIC) && (st =? NHDP_LINK_SYMMETRIC) then _link_status_now_symmetric k else ret tt)) s Q.
Proof.
  intros H Hl F Ht HQ. fold (is_symmetric old) (is_symmetric st). destruct (is_symmetric old) eqn:Eo, (is_symmetric st) eqn:En; simpl.
  - wp_steps. apply HQ; [done|]. split; [apply frame_refl| |rewrite Eo, En; naive_solver|done|apply lost_changed_refl]. unfold gain. by rewrite Eo, En, counted_none.
  - apply wp_seq. eapply unsymmetric_wp; [done..|]. intros s' H' [F1 N1 D1 T1 L1]. wp_steps. apply HQ; [done|].
    split; [done|by unfold gain; rewrite Eo, En|rewrite Eo, En; simpl; naive_solver|done|done].
  - wp_steps. eapply symmetric_wp; [done|done|apply F|]. intros s' H' [F1 N1 L1]. apply HQ; [done|].
    assert (l2hops s' = l2hops s /\ trees s' = trees s) as [E1 E2] by (split; [apply (proj1 F1 F_l2hops)|apply (proj1 F1 F_trees)]; fields).
    split; [eapply frame_weaken; [exact F1|fields]|by unfold gain; rewrite Eo, En|rewrite Eo, En, E1; naive_solver|by rewrite E2|done].
  - wp_steps. apply HQ; [done|]. split; [apply frame_refl| |rewrite Eo, En; naive_solver|done|apply lost_changed_refl]. unfold gain. by rewrite Eo, En, counted_none.
Qed.

(** Everything of an interface but what the status of its links decides. *)
Definition if_rest (f : nhdp_interface) : nhdp_interface := with_flooding false false 0 f.

Record status_updated (k : ptr) (l : nhdp_link) (st : Z) (s s' : nhdp_db) : Prop := {
  su_frame : frame [F_neighs; F_links; F_l2hops; F_ifs; F_trees; F_timers; F_set_id; F_doms] s s';
  su_links : exists t, links s' = <[k := with_status_change t (with_status st (with_last_status (status l) l))]> (links s);
  su_neighs p : with_n_data [] <$> neighs s' !! p = with_n_data [] <$> counted (l_neigh l) (gain (status l) st) (neighs s) !! p;
  su_l2hops p a : with_t_data [] <$> l2hops s' !! p = Some a <-> with_t_data [] <$> l2hops s !! p = Some a /\
    (is_symmetric (status l) && negb (is_symmetric st) = true -> l2_link a <> k);
  su_ifs i : if_rest <$> ifs s' !! i = if_rest <$> ifs s !! i;
  su_timers : lost_timers_changed (timers s) (timers s');
  su_doms : doms s' = doms s \/ doms s' = all_outdated (doms s);
}.

Lemma status_updated_ok k l st s s' : status_updated k l st s s' -> interfaces_ok s -> interfaces_ok s'.
Proof.
  intros U HI i f' Hf. pose proof (su_ifs _ _ _ _ _ U i) as E. rewrite Hf in E. simpl in E. destruct (ifs s !! i) as [f|] eqn:Ef; [|done]. injection E as E1 E2 E3 E4 E5.
  destruct (HI i f Ef) as [? ?]. rewrite E4, E5. done.
Qed.

(** The end of the update: the time of the change and the metrics. *)
Lemma status_changed_wp s k l n (Q : unit -> nhdp_db -> Prop) : consistent ∅ s -> links s !! k = Some l -> is_Some (neighs s !! n) ->
  (forall s' t, consistent ∅ s' -> frame [F_neighs; F_links; F_l2hops; F_doms] s s' -> links s' = <[k := with_status_change t l]> (links s) ->
    doms s' = all_outdated (doms s) -> (forall p, with_n_data [] <$> neighs s' !! p = with_n_data [] <$> neighs s !! p) -> (forall p, with_t_data [] <$> l2hops s' !! p = with_t_data [] <$> l2hops s !! p) -> Q tt s') ->
  wp (t <~ now ;; change_link k (with_status_change t) ;;; nhdp_domain_recalculate_metrics None (Some n) ;;; nhdp_domain_delayed_mpr_recalculation ;;;
      call (Link_event k OONF_OBJECT_CHANGED)) s Q.
Proof.
  intros H Hl Hn HQ. unfold now. wp_steps. eapply change_link_wp; [exact Hl|]. set (t := oonf_clock_getNow (timers s)). set (s1 := set_links _ s).
  assert (consistent ∅ s1) as H1 by (by eapply consistent_link). apply wp_seq.
  eapply recalculate_metrics_wp; [exact H1|by intros u x ?%elem_of_empty|by intros q [= <-]|done|]. intros b s2 M2. pose proof (metrics_consistent _ _ _ _ _ H1 M2) as H2.
  apply wp_seq. eapply delayed_wp; [exact H2|]. intros H3. unfold call. apply wp_modify. apply (HQ _ t).
  - by eapply consistent_eq.
  - apply (frame_trans _ _ s1); [explicit_frame|]. apply (frame_trans _ _ s2); [eapply frame_weaken; [apply M2|fields]|explicit_frame].
  - simpl. by rewrite (proj1 (metrics_fields _ _ M2)).
  - simpl. by destruct (metrics_fields _ _ M2) as (_ & _ & _ & _ & -> & _).
  - intros p. simpl. pose proof (f_equal (fun m => fst <$> m !! p) (mo_neighs _ _ M2)) as E. cbv beta in E. rewrite !lookup_fmap, <- !option_fmap_compose in E. exact E.
  - intros p. simpl. pose proof (f_equal (fun m => fst <$> m !! p) (mo_l2hops _ _ M2)) as E. cbv beta in E. rewrite !lookup_fmap, <- !option_fmap_compose in E. exact E.
Qed.

(** What the status is calculated from. *)
Definition marked (k : ptr) (l : nhdp_link) (s : nhdp_db) : nhdp_db := set_links <[k := with_last_status (status l) l]> s.

Lemma set_ifs_rest s i f ks : ifs s !! i = Some f -> forall j, if_rest <$> <[i := flooding_of s ks f]> (ifs s) !! j = if_rest <$> ifs s !! j.
Proof. intros Hf j. destruct (decide (j = i)) as [->|Hj]; [by rewrite lookup_insert_eq, Hf|by rewrite lookup_insert_ne]. Qed.

Lemma update_status_wp s k l i f n o (Q : unit -> nhdp_db -> Prop) : consistent ∅ s -> interfaces_ok s -> links s !! k = Some l -> link_facts s l i f n ->
  nhdp_get_originator s (na_type (if_addr l)) = Some o ->
  (forall s', consistent ∅ s' -> status_updated k l (link_status (marked k l s) k o f l n) s s' -> Q tt s') ->
  wp (nhdp_db_link_update_status os_core_get_random nhdp_hysteresis_is_pending nhdp_hysteresis_is_lost k) s Q.
Proof.
  intros H HI Hl F Ho HQ. set (st := link_status (marked k l s) k o f l n) in *. destruct (HI i f (lf_interface F)) as [Ht _].
  unfold nhdp_db_link_update_status, store_link. wp_steps. set (l1 := with_last_status (status l) l). set (s1 := set_links <[k := l1]> s).
  assert (consistent ∅ s1) as H1 by (by eapply consistent_link). assert (links s1 !! k = Some l1) as Hl1 by apply lookup_insert_eq.
  assert (link_facts s1 l1 i f n) as F1 by (by split; apply F).
  eapply (status_wp ∅ s1 k l1 i f n o); [exact H1|exact Hl1|exact F1|exact HI|exact Ho|]. change (link_status s1 k o f l1 n) with st.
  apply wp_seq. eapply change_link_wp; [exact Hl1|]. set (l2 := with_status st l1). set (s2 := set_links <[k := l2]> s1).
  assert (consistent ∅ s2) as H2 by (by eapply consistent_link). assert (links s2 !! k = Some l2) as Hl2 by apply lookup_insert_eq.
  assert (link_facts s2 l2 i f n) as F2 by (by split; apply F). assert (links s2 = <[k := l2]> (links s)) as El2 by apply insert_insert_eq.
  apply wp_assoc, wp_seq. eapply (transition_wp s2 k l2 i f n (status l) st); [exact H2|exact Hl2|exact F2|exact Ht|]. intros s3 H3 T3.
  assert (links s3 = links s2 /\ ifs s3 = ifs s) as [El3 Ei3] by (split; [apply (proj1 (tr_frame _ _ _ _ _ _ T3) F_links)|apply (proj1 (tr_frame _ _ _ _ _ _ T3) F_ifs)]; fields).
  assert (forall s4, consistent ∅ s4 -> frame [F_ifs] s3 s4 -> (forall j, if_rest <$> ifs s4 !! j = if_rest <$> ifs s !! j) ->
    wp (if negb (status l =? st) then t <~ now ;; change_link k (with_status_change t) ;;; nhdp_domain_recalculate_metrics None (Some (l_neigh l)) ;;;
      nhdp_domain_delayed_mpr_recalculation ;;; call (Link_event k OONF_OBJECT_CHANGED) else ret tt) s4 Q) as Hend.
  { intros s4 H4 F4 I4. assert (links s4 = links s2 /\ neighs s4 = neighs s3 /\ l2hops s4 = l2hops s3 /\ timers s4 = timers s3) as (El4 & En4 & Eh4 & Et4).
    { destruct F4 as [F4 _]. rewrite <- El3. split_and!; [apply (F4 F_links)|apply (F4 F_neighs)|apply (F4 F_l2hops)|apply (F4 F_timers)]; fields. }
    assert (frame [F_neighs; F_links; F_l2hops; F_ifs; F_trees; F_timers; F_set_id; F_doms] s s4) as F5.
    { apply (frame_trans _ _ s2); [explicit_frame|]. apply (frame_trans _ _ s3); [eapply frame_weaken; [apply T3|fields]|eapply frame_weaken; [exact F4|fields]]. }
    assert (forall p a, with_t_data [] <$> l2hops s4 !! p = Some a <-> with_t_data [] <$> l2hops s !! p = Some a /\
      (is_symmetric (status l) && negb (is_symmetric st) = true -> l2_link a <> k)) as Hh.
    { intros p a. rewrite Eh4, !fmap_Some. setoid_rewrite (tr_l2hops _ _ _ _ _ _ T3). split.
      - intros (x & [Hx Hne] & ->). split; [by exists x|exact Hne].
      - intros [(x & Hx & ->) Hne]. by exists x. }
    assert (neighs s4 = counted (l_neigh l) (gain (status l) st) (neighs s)) as Hn4 by (rewrite En4; apply (tr_neighs _ _ _ _ _ _ T3)).
    assert (lost_timers_changed (timers s) (timers s4)) as Ht4 by (rewrite Et4; apply (tr_timers _ _ _ _ _ _ T3)).
    assert (doms s4 = doms s) as Hd4.
    { rewrite (proj1 F4 F_doms ltac:(fields) : doms s4 = doms s3). exact (proj1 (tr_frame _ _ _ _ _ _ T3) F_doms ltac:(fields)). }
    destruct (Z.eqb_spec (status l) st) as [Est|Est]; simpl.
    - wp_steps. apply HQ; [exact H4|]. split; try done; [exists (last_status_change l); rewrite El4, El2; by destruct l|by rewrite Hn4|by left].
    - eapply (status_changed_wp s4 k l2); [exact H4|by rewrite El4|rewrite Hn4; unfold counted; rewrite lookup_alter_is_Some; eexists; apply F|].
      intros s5 t H5 F6 L5 R5 N5 D5. apply HQ; [exact H5|]. split.
      + eapply frame_trans; [exact F5|eapply frame_weaken; [exact F6|fields]].
      + exists t. by rewrite L5, El4, El2, insert_insert_eq.
      + intros p. by rewrite N5, Hn4.
      + intros p a. by rewrite D5, Hh.
      + intros j. assert (ifs s5 = ifs s4) as -> by (apply (proj1 F6 F_ifs); fields). apply I4.
      + assert (timers s5 = timers s4) as -> by (apply (proj1 F6 F_timers); fields). done.
      + right. by rewrite R5, Hd4. }
  fold (is_symmetric (status l)) (is_symmetric st). apply wp_seq. destruct (negb (Bool.eqb (is_symmetric (status l)) (is_symmetric st))).
  - rewrite (lf_if F). simpl. wp_steps. eapply (interface_status_wp ∅ s3 i f); [exact H3|by intros u x ?%elem_of_empty|rewrite Ei3; apply F|].
    intros ks Eks H4. apply Hend; [exact H4|explicit_frame|]. intros j. rewrite <- Ei3. apply (set_ifs_rest s3 i f ks). rewrite Ei3. apply F.
  - wp_steps. apply Hend; [exact H3|apply frame_refl|]. intros j. by rewrite Ei3.
Qed.

(** ** Links that the other side declares lost *)

Record set_unsymmetric (k : ptr) (l : nhdp_link) (s s' : nhdp_db) : Prop := {
  sl_frame : frame [F_neighs; F_links; F_l2hops; F_trees; F_timers; F_set_id] s s';
  sl_links : exists t, links s' = <[k := with_status_change t l]> (links s);
  sl_neighs : neighs s' = counted (l_neigh l) (if is_symmetric (status l) then -1 else 0) (neighs s);
  sl_l2hops p a : l2hops s' !! p = Some a <-> l2hops s !! p = Some a /\ l2_link a <> k;
  sl_trees t : l2hop_tree t = false -> trees s' !! t = trees s !! t;
  sl_sym : is_active (timers s') Sym_time k = false;
}.

Lemma set_unsymmetric_wp s k l i f n (Q : unit -> nhdp_db -> Prop) : consistent ∅ s -> links s !! k = Some l -> link_facts s l i f n -> 0 <= n_hold_time f <= max_interval ->
  (forall s', consistent ∅ s' -> set_unsymmetric k l s s' -> Q tt s') -> wp (nhdp_db_link_set_unsymmetric os_core_get_random k) s Q.
Proof.
  intros H Hl F Ht HQ. unfold nhdp_db_link_set_unsymmetric. wp_steps. fold (is_symmetric (status l)).
  eapply (wp_weaken _ _ (fun _ s1 => consistent ∅ s1 /\ frame [F_neighs; F_l2hops; F_trees; F_timers; F_set_id] s s1 /\
    neighs s1 = counted (l_neigh l) (if is_symmetric (status l) then -1 else 0) (neighs s) /\
    (forall p a, l2hops s1 !! p = Some a /\ l2_link a <> k <-> l2hops s !! p = Some a /\ l2_link a <> k) /\ (forall t, l2hop_tree t = false -> trees s1 !! t = trees s !! t))).
  { destruct (is_symmetric (status l)).
    - eapply unsymmetric_wp; [done..|]. intros s1 H1 [F1 N1 D1 T1 _]. split_and!; try done. intros p a. rewrite D1. tauto.
    - wp_steps. split_and!; try done; [apply frame_refl|by rewrite counted_none]. }
  intros [] s1 (H1 & F1 & N1 & D1 & T1). assert (links s1 = links s) as El1 by (apply (proj1 F1 F_links); fields).
  assert (has_timer (shape_of s1) Sym_time k) as Hs by (eexists; apply shape_links; by rewrite El1).
  wp_steps. rule timer_stop_wp; [apply H1|exact Hs|]. intros tm HT CT AT. wp_steps.
  assert (consistent ∅ (set_timers tm s1)) as H2 by (split; try apply H1; exact HT).
  rule l2hops_loop_wp; [exact H2|by intros u x ?%elem_of_empty|simpl; rewrite El1; exact Hl|]. intros s3 H3 F3 D3 T3 A3 W3.
  assert (links s3 = links s /\ neighs s3 = neighs s1) as [El3 En3] by (split; [rewrite <- El1; apply (proj1 F3 F_links)|apply (proj1 F3 F_neighs)]; fields).
  unfold now. wp_steps. eapply change_link_wp; [rewrite El3; exact Hl|]. unfold call. wp_steps. apply HQ.
  { eapply (consistent_eq max_interval timer_info ∅ (set_links <[k := with_status_change (oonf_clock_getNow (timers s3)) l]> s3)); try done. eapply consistent_link; [exact H3|by rewrite El3|done]. }
  split.
  - apply (frame_trans _ _ s1); [eapply frame_weaken; [exact F1|fields]|]. apply (frame_trans _ _ (set_timers tm s1)); [explicit_frame|].
    apply (frame_trans _ _ s3); [eapply frame_weaken; [exact F3|fields]|explicit_frame].
  - eexists. simpl. by rewrite El3.
  - simpl. by rewrite En3.
  - intros p a. simpl. rewrite D3. simpl. apply D1.
  - intros t Hk. simpl. rewrite T3 by done. by apply T1.
  - simpl. rewrite A3 by done. exact AT.
Qed.
End status.
