(* ===== verification/NhdpHistory.v ===== *)
(** The life of the neighborhood database of src/nhdp/nhdp/nhdp_db.c: requests
    of the API and timeouts, one after the other, from the empty database. It
    stays consistent, no request meets freed memory, and the counters of
    symmetric links are right. *)

From Stdlib Require Import ZArith Lia Sorted.
From stdpp Require Import base list numbers option gmap sets.
From S2P Require Import Prelude AvlSpec StateMonad Rfc5444Values Netaddr MprSelection NhdpDb NhdpDomain Timer ValidityTimer NhdpStore NhdpConsistent NhdpPartners NhdpRemove NhdpUnlink NhdpNeighbor NhdpAdd NhdpMove NhdpOriginator NhdpMetrics NhdpStatus.

Local Open Scope Z_scope.
Local Open Scope state_scope.

(** * Requests *)

(** The functions of nhdp_db.h, the assignments of the reader of messages to
    the addresses of a link, and the timeouts: the scheduler stops the timer,
    which is not periodic, and calls the callback of its class. *)
Inductive request :=
  | Neighbor_add
  | Neighbor_remove (n : ptr)
  | Neighbor_set_originator (n : ptr) (a : netaddr)
  | Neighbor_connect (a b : ptr)
  | Neighbor_disconnect (n : ptr)
  | Naddr_add (n : ptr) (a : netaddr)
  | Naddr_remove (p : ptr)
  | Naddr_move (n p : ptr)
  | Naddr_set_lost (p : ptr) (t : Z)
  | Naddr_not_lost (p : ptr)
  | Link_add (n i : ptr)
  | Link_remove (k : ptr)
  | Link_connect (a b : ptr)
  | Link_disconnect (k : ptr)
  | Link_if_addr (k : ptr) (a : netaddr)
  | Link_remote_mac (k : ptr) (a : netaddr)
  | Link_update_status (k : ptr)
  | Link_set_unsymmetric (k : ptr)
  | Link_set_vtime (k : ptr) (t : Z)
  | Link_set_heardtime (k : ptr) (t : Z)
  | Link_set_symtime (k : ptr) (t : Z)
  | Laddr_add (k : ptr) (a : netaddr)
  | Laddr_remove (p : ptr)
  | Laddr_move (k p : ptr)
  | L2hop_add (k : ptr) (a : netaddr)
  | L2hop_remove (p : ptr)
  | L2hop_set_vtime (p : ptr) (t : Z)
  | Timeout (kd : timer_kind) (p : ptr)
  | Recalculate (domain : option nat) (neigh : option ptr).

Section history.
Context (os_core_get_random : nat -> option Z) (random_u32 : forall n r, os_core_get_random n = Some r -> 0 <= r <= UINT32_MAX).
Context (max_interval : Z) (max_interval_range : 0 <= max_interval <= 2 ^ 56).
Context (timer_info : timer_kind -> positive).
Context (malloc : gset ptr -> nat -> option ptr) (malloc_fresh : forall used n p, malloc used n = Some p -> p ∉ used).
Context (nhdp_hysteresis_is_pending nhdp_hysteresis_is_lost : nhdp_db -> ptr -> bool).
#[local] Notation consistent := (consistent max_interval timer_info).
#[local] Notation interfaces_ok := (interfaces_ok max_interval).
#[local] Ltac rule l := eapply l; try first [exact random_u32 | exact max_interval_range | exact malloc_fresh | exact nhdp_hysteresis_is_pending].

Definition discard {A} (m : nhdp_M A) : nhdp_M unit := _ <~ m ;; ret tt.

Definition timeout (kd : timer_kind) (p : ptr) : nhdp_M unit :=
  match kd with
  | Lost_vtime => _cb_naddr_vtime p
  | Sym_time => _cb_link_symtime os_core_get_random nhdp_hysteresis_is_pending nhdp_hysteresis_is_lost p
  | Heard_time => _cb_link_heard os_core_get_random nhdp_hysteresis_is_pending nhdp_hysteresis_is_lost p
  | Link_vtime => _cb_link_vtime os_core_get_random p
  | L2hop_vtime => _cb_l2hop_vtime p
  end.

Definition run (r : request) : nhdp_M unit :=
  match r with
  | Neighbor_add => discard (nhdp_db_neighbor_add malloc)
  | Neighbor_remove n => nhdp_db_neighbor_remove n
  | Neighbor_set_originator n a => nhdp_db_neighbor_set_originator n a
  | Neighbor_connect a b => nhdp_db_neighbor_connect_dualstack a b
  | Neighbor_disconnect n => nhdp_db_neigbor_disconnect_dualstack n
  | Naddr_add n a => discard (nhdp_db_neighbor_addr_add timer_info malloc n a)
  | Naddr_remove p => nhdp_db_neighbor_addr_remove p
  | Naddr_move n p => nhdp_db_neighbor_addr_move n p
  | Naddr_set_lost p t => nhdp_db_neighbor_addr_set_lost os_core_get_random p t
  | Naddr_not_lost p => nhdp_db_neighbor_addr_not_lost p
  | Link_add n i => discard (nhdp_db_link_add timer_info malloc n i)
  | Link_remove k => nhdp_db_link_remove k
  | Link_connect a b => nhdp_db_link_connect_dualstack a b
  | Link_disconnect k => nhdp_db_link_disconnect_dualstack k
  | Link_if_addr k a => change_link k (with_if_addr a)
  | Link_remote_mac k a => change_link k (with_remote_mac a)
  | Link_update_status k => nhdp_db_link_update_status os_core_get_random nhdp_hysteresis_is_pending nhdp_hysteresis_is_lost k
  | Link_set_unsymmetric k => nhdp_db_link_set_unsymmetric os_core_get_random k
  | Link_set_vtime k t => nhdp_db_link_set_vtime os_core_get_random k t
  | Link_set_heardtime k t => nhdp_db_link_set_heardtime os_core_get_random k t
  | Link_set_symtime k t => nhdp_db_link_set_symtime os_core_get_random nhdp_hysteresis_is_pending nhdp_hysteresis_is_lost k t
  | Laddr_add k a => discard (nhdp_db_link_addr_add malloc k a)
  | Laddr_remove p => nhdp_db_link_addr_remove p
  | Laddr_move k p => nhdp_db_link_addr_move k p
  | L2hop_add k a => discard (nhdp_db_link_2hop_add timer_info malloc k a)
  | L2hop_remove p => nhdp_db_link_2hop_remove p
  | L2hop_set_vtime p t => nhdp_db_link_2hop_set_vtime os_core_get_random p t
  | Timeout kd p => timer_stop kd p ;;; timeout kd p
  | Recalculate domain neigh => discard (nhdp_domain_recalculate_metrics domain neigh)
  end.

Definition ready (s : nhdp_db) (k : ptr) : Prop := exists l o, links s !! k = Some l /\ nhdp_get_originator s (na_type (if_addr l)) = Some o.
Definition valid_time (t : Z) : Prop := 0 <= t <= max_interval.

(** What a caller has to see to: objects that are there, addresses that are not, times that the scheduler takes; the
    status of a link is asked for after its address was set. *)
Definition allowed (s : nhdp_db) (r : request) : Prop :=
  match r with
  | Neighbor_add => True
  | Neighbor_remove n | Neighbor_set_originator n _ | Neighbor_disconnect n => is_Some (neighs s !! n)
  | Neighbor_connect a b => is_Some (neighs s !! a) /\ is_Some (neighs s !! b)
  | Naddr_add n a => is_Some (neighs s !! n) /\ ~ has_naddr s a
  | Naddr_remove p | Naddr_not_lost p => is_Some (naddrs s !! p)
  | Naddr_move n p => is_Some (neighs s !! n) /\ is_Some (naddrs s !! p)
  | Naddr_set_lost p t => is_Some (naddrs s !! p) /\ valid_time t
  | Link_add n i => is_Some (neighs s !! n) /\ is_Some (ifs s !! i)
  | Link_remove k | Link_disconnect k | Link_if_addr k _ | Link_remote_mac k _ | Link_set_unsymmetric k => is_Some (links s !! k)
  | Link_connect a b => is_Some (links s !! a) /\ is_Some (links s !! b)
  | Link_update_status k => ready s k
  | Link_set_vtime k t | Link_set_heardtime k t => is_Some (links s !! k) /\ valid_time t
  | Link_set_symtime k t => ready s k /\ valid_time t
  | Laddr_add k a => exists l i, links s !! k = Some l /\ local_if l = Some i /\ ~ has_laddr s i a
  | Laddr_remove p => is_Some (laddrs s !! p)
  | Laddr_move k p => exists x lo ln, laddrs s !! p = Some x /\ links s !! la_link x = Some lo /\ links s !! k = Some ln /\ local_if lo = local_if ln
  | L2hop_add k a => is_Some (links s !! k) /\ ~ has_l2hop s k a
  | L2hop_remove p => is_Some (l2hops s !! p)
  | L2hop_set_vtime p t => is_Some (l2hops s !! p) /\ valid_time t
  | Timeout Lost_vtime p => is_Some (naddrs s !! p)
  | Timeout Link_vtime k => is_Some (links s !! k)
  | Timeout L2hop_vtime p => is_Some (l2hops s !! p)
  | Timeout _ k => ready s k
  | Recalculate domain neigh => (forall n, neigh = Some n -> is_Some (neighs s !! n)) /\ (forall i, domain = Some i -> (i < NHDP_MAXIMUM_DOMAINS)%nat)
  end.

(** ** Symmetric links and their counters *)

Definition sym_links (s : nhdp_db) : gmap ptr (ptr * bool) := (fun l => (l_neigh l, is_symmetric (status l))) <$> links s.
Definition sym_neighs (s : nhdp_db) : gmap ptr Z := symmetric <$> neighs s.
Definition symmetric_count (m : gmap ptr (ptr * bool)) (n : ptr) : Z := Z.of_nat (size (filter (fun kv : ptr * (ptr * bool) => kv.2 = (n, true)) m)).

(** Every counter is the number of symmetric links of its neighbor. *)
Definition counting (s : nhdp_db) : Prop := forall n z, sym_neighs s !! n = Some z -> z = symmetric_count (sym_links s) n.

Lemma symmetric_count_insert m k v n : m !! k = None -> symmetric_count (<[k := v]> m) n = symmetric_count m n + (if decide (v = (n, true)) then 1 else 0).
Proof.
  intros Hk. unfold symmetric_count. destruct (decide (v = (n, true))) as [E|E].
  - rewrite map_filter_insert_True by done. rewrite map_size_insert_None; [lia|]. apply map_lookup_filter_None. by left.
  - rewrite map_filter_insert_False, delete_id by done. lia.
Qed.

Lemma symmetric_count_delete m k v n : m !! k = Some v -> symmetric_count (delete k m) n = symmetric_count m n - (if decide (v = (n, true)) then 1 else 0).
Proof.
  intros Hk. rewrite <- (insert_delete_id m k v Hk) at 2. rewrite symmetric_count_insert by apply lookup_delete_eq. lia.
Qed.

Lemma symmetric_count_change m k v w n : m !! k = Some v ->
  symmetric_count (<[k := w]> m) n = symmetric_count m n + (if decide (w = (n, true)) then 1 else 0) - (if decide (v = (n, true)) then 1 else 0).
Proof.
  intros Hk. rewrite <- insert_delete_eq, symmetric_count_insert by apply lookup_delete_eq. rewrite (symmetric_count_delete m k v n Hk). lia.
Qed.

Lemma counting_same s s' : sym_links s' = sym_links s -> sym_neighs s' = sym_neighs s -> counting s -> counting s'.
Proof. intros E1 E2 H n z. rewrite E1, E2. apply H. Qed.

Lemma symmetric_count_ext m m' n : (forall x, m' !! x = Some (n, true) <-> m !! x = Some (n, true)) -> symmetric_count m' n = symmetric_count m n.
Proof.
  intros H. unfold symmetric_count. do 2 f_equal. apply map_eq. intros x. apply option_eq. intros v. rewrite !map_lookup_filter_Some. simpl.
  split; intros [Hx ->]; (split; [by apply H|done]).
Qed.

Lemma symmetric_count_none m n : (forall x, m !! x <> Some (n, true)) -> symmetric_count m n = 0.
Proof. intros H. rewrite <- (symmetric_count_ext m ∅ n); [done|]. intros x. rewrite lookup_empty. split; [done|]. intros E. by apply H in E. Qed.

Lemma sym_links_partners m m' : same_but_partners with_l_partner m m' ->
  (fun l => (l_neigh l, is_symmetric (status l))) <$> m' = (fun l => (l_neigh l, is_symmetric (status l))) <$> m.
Proof.
  intros H. apply map_eq. intros x. rewrite !lookup_fmap. specialize (H x). destruct (m' !! x), (m !! x); try done. injection H as H1 H2 H3 H4 H5. simpl. congruence.
Qed.

Lemma sym_neighs_partners m m' : same_but_partners with_n_partner m m' -> symmetric <$> m' = symmetric <$> m.
Proof. intros H. apply map_eq. intros x. rewrite !lookup_fmap. specialize (H x). destruct (m' !! x), (m !! x); try done. injection H as H1 H2. simpl. congruence. Qed.

(** * What every request keeps *)

Definition good (s : nhdp_db) : Prop := consistent ∅ s /\ interfaces_ok s.

(** A symmetric link leaves by a timeout or with its neighbor. *)
Definition counted_request (s : nhdp_db) (r : request) : Prop :=
  match r with
  | Link_remove k | Link_set_unsymmetric k => forall l, links s !! k = Some l -> is_symmetric (status l) = false
  | _ => True
  end.

Definition fine (s : nhdp_db) (r : request) (s' : nhdp_db) : Prop := good s' /\ (counting s -> counted_request s r -> counting s').

Lemma frame_interfaces fs s s' : frame fs s s' -> F_ifs ∉ fs -> interfaces_ok s -> interfaces_ok s'.
Proof. intros [F _] Hf H i f. rewrite (F F_ifs Hf : ifs s' = ifs s). apply H. Qed.

Lemma fine_same fs s r s' : interfaces_ok s -> consistent ∅ s' -> frame fs s s' -> F_ifs ∉ fs -> sym_links s' = sym_links s -> sym_neighs s' = sym_neighs s -> fine s r s'.
Proof. intros HI H F Hf E1 E2. split; [split; [done|by eapply frame_interfaces]|]. intros HC _. by eapply counting_same. Qed.

Lemma fine_untouched fs s r s' : interfaces_ok s -> consistent ∅ s' -> frame fs s s' -> F_ifs ∉ fs -> F_links ∉ fs -> F_neighs ∉ fs -> fine s r s'.
Proof.
  intros HI H F H1 H2 H3. eapply fine_same; [done..| |]; [unfold sym_links; by rewrite (proj1 F F_links H2 : links s' = links s)|
    unfold sym_neighs; by rewrite (proj1 F F_neighs H3 : neighs s' = neighs s)].
Qed.

Lemma fine_malloc s r : good s -> fine s r (count_malloc s).
Proof. intros [H HI]. eapply (fine_untouched []); [done|by eapply consistent_eq|explicit_frame|fields..]. Qed.

Lemma discard_wp {A} (m : nhdp_M A) s (Q : nhdp_db -> Prop) : wp m s (fun _ s' => Q s') -> wp (discard m) s (fun _ s' => Q s').
Proof. intros H. unfold discard. apply wp_seq. eapply wp_weaken; [exact H|]. intros a s' HQ. by apply wp_return. Qed.

Lemma no_links_of_unknown s n : consistent ∅ s -> neighs s !! n = None -> symmetric_count (sym_links s) n = 0.
Proof.
  intros H Hn. apply symmetric_count_none. intros x Hx. unfold sym_links in Hx. rewrite lookup_fmap in Hx. destruct (links s !! x) as [l|] eqn:El; [|done].
  destruct (link_at _ _ ∅ s x l H El) as (i & f & nb & F). pose proof (lf_neigh F). injection Hx as En _. congruence.
Qed.

Lemma run_neighbor_add s : good s -> wp (run Neighbor_add) s (fun _ => fine s Neighbor_add).
Proof.
  intros [H HI]. apply discard_wp. rule neighbor_add_wp; [exact H|intros _; by apply fine_malloc|]. intros p s' H' [F Hp [d Hd]].
  split; [split; [done|by eapply frame_interfaces; [exact F|fields|]]|]. intros HC _ n z. unfold sym_neighs, sym_links. rewrite Hd, (proj1 F F_links ltac:(fields) : links s' = links s).
  rewrite fmap_insert. destruct (decide (n = p)) as [->|Hn]; [rewrite lookup_insert_eq|rewrite lookup_insert_ne by done; apply HC].
  intros [= <-]. symmetry. by apply no_links_of_unknown.
Qed.

Lemma run_neighbor_remove s n : good s -> is_Some (neighs s !! n) -> wp (run (Neighbor_remove n)) s (fun _ => fine s (Neighbor_remove n)).
Proof.
  intros [H HI] [x Hx]. rule neighbor_remove_wp; [exact H|exact Hx|]. intros s' H' R. pose proof R as [F EN _ [L1 L2 _ _] NL _ _].
  split; [split; [done|by eapply frame_interfaces; [exact F|fields|]]|]. intros HC _ m z Hz. unfold sym_neighs in Hz. rewrite EN, fmap_delete in Hz.
  apply lookup_delete_Some in Hz as [Hm Hz]. unfold unlinked_neigh in Hz. rewrite (sym_neighs_partners (neighs s)) in Hz by (by apply unpaired_same).
  rewrite (HC m z Hz). symmetry. apply symmetric_count_ext. intros y. unfold sym_links. rewrite !lookup_fmap. split.
  - destruct (links s' !! y) as [l'|] eqn:El; [|done]. destruct (L1 y l' El) as (l & -> & Es). apply same_link_neigh in Es as (E1 & E2 & _). simpl. by rewrite E1, E2.
  - destruct (links s !! y) as [l|] eqn:El; [|done]. intros [= E1 E2]. destruct (L2 y l El) as (l' & -> & Es); [congruence|].
    apply same_link_neigh in Es as (E3 & E4 & _). simpl. by rewrite E3, E4, E1, E2.
Qed.

Lemma sym_links_removed s s' k l : link_removed k l s s' -> sym_links s' = delete k (sym_links s).
Proof. intros R. unfold sym_links. rewrite (lr_links _ _ _ _ R), fmap_delete. f_equal. apply sym_links_partners. by apply unpaired_same. Qed.

Lemma removed_neighs s s' k l : link_removed k l s s' -> neighs s' = neighs s.
Proof. intros R. apply (proj1 (lr_frame _ _ _ _ R) F_neighs). fields. Qed.

Lemma sym_link_at s k l : links s !! k = Some l -> sym_links s !! k = Some (l_neigh l, is_symmetric (status l)).
Proof. intros Hl. unfold sym_links. by rewrite lookup_fmap, Hl. Qed.

Lemma removed_fine s s' k l : good s -> links s !! k = Some l -> consistent ∅ s' -> link_removed k l s s' -> fine s (Link_remove k) s'.
Proof.
  intros [H HI] Hl H' R. split; [split; [done|by eapply frame_interfaces; [apply R|fields|]]|].
  intros HC Hs m z. unfold sym_neighs. rewrite (removed_neighs _ _ _ _ R), (sym_links_removed _ _ _ _ R).
  rewrite (symmetric_count_delete _ _ _ _ (sym_link_at s k l Hl)). rewrite (Hs l Hl), decide_False by congruence. intros Hz. rewrite (HC m z Hz). lia.
Qed.

Lemma run_link_remove s k : good s -> is_Some (links s !! k) -> wp (run (Link_remove k)) s (fun _ => fine s (Link_remove k)).
Proof. intros G [l Hl]. rule link_remove_wp; [apply G|exact Hl|]. intros s' H' R. by eapply removed_fine. Qed.

#[local] Ltac untouched := eapply fine_untouched; [done|eassumption|eassumption|fields..].

Lemma no_exempt : only_originators ∅.
Proof. by intros t x ?%elem_of_empty. Qed.

Lemma run_timer s k p t r : good s -> has_timer (shape_of s) k p -> valid_time t -> wp (timer_set os_core_get_random k p t) s (fun _ => fine s r).
Proof.
  intros [H HI] Hk Ht. eapply (timer_set_wp _ random_u32 _ max_interval_range timer_info (has_timer (shape_of s))); [apply H|exact Hk|exact Ht|]. intros tm HT _ _.
  eapply (fine_untouched [F_timers]); [done| |explicit_frame|fields..]. split; try apply H. exact HT.
Qed.

Lemma run_stop s k p r : good s -> has_timer (shape_of s) k p -> wp (timer_stop k p) s (fun _ => fine s r).
Proof.
  intros [H HI] Hk. eapply (timer_stop_wp os_core_get_random random_u32 _ max_interval_range timer_info (has_timer (shape_of s))); [apply H|exact Hk|]. intros tm HT _ _.
  eapply (fine_untouched [F_timers]); [done| |explicit_frame|fields..]. split; try apply H. exact HT.
Qed.

Lemma run_originator s n a : good s -> is_Some (neighs s !! n) -> wp (run (Neighbor_set_originator n a)) s (fun _ => fine s (Neighbor_set_originator n a)).
Proof.
  intros [H HI] [x Hx]. rule set_originator_wp; [exact H|exact Hx|]. intros s' H' [F E1 E2 E3]. eapply fine_same; [done|done|exact F|fields| |].
  - unfold sym_links. by rewrite (proj1 F F_links ltac:(fields) : links s' = links s).
  - apply map_eq. intros p. unfold sym_neighs. rewrite !lookup_fmap. destruct (decide (originator x = a)) as [Ea|Ea]; [by rewrite E1|].
    destruct (decide (p = n)) as [->|Hp]; [by rewrite E2, Hx|]. rewrite E3 by done. destruct (neighs s !! p) as [y|]; [|done]. simpl. unfold cleared. by case_match.
Qed.

Lemma run_neighbor_partners s m r : good s -> same_but_partners with_n_partner (neighs s) m -> consistent ∅ (set_neighs (fun _ => m) s) -> fine s r (set_neighs (fun _ => m) s).
Proof. intros [H HI] Hm H'. eapply (fine_same [F_neighs]); [done|done|explicit_frame|fields|done|]. by apply sym_neighs_partners. Qed.

Lemma run_link_partners s m r : good s -> same_but_partners with_l_partner (links s) m -> consistent ∅ (set_links (fun _ => m) s) -> fine s r (set_links (fun _ => m) s).
Proof. intros [H HI] Hm H'. eapply (fine_same [F_links]); [done|done|explicit_frame|fields| |done]. by apply sym_links_partners. Qed.

Lemma run_naddr_add s n a : good s -> is_Some (neighs s !! n) -> ~ has_naddr s a -> wp (run (Naddr_add n a)) s (fun _ => fine s (Naddr_add n a)).
Proof.
  intros G Hn Ha. pose proof G as [H HI]. apply discard_wp. rule naddr_add_wp; [exact H|exact Hn|exact Ha|intros _; by apply fine_malloc|].
  intros p s' H' [F _ _ _ _]. untouched.
Qed.

Lemma run_naddr_remove s p r : good s -> is_Some (naddrs s !! p) -> wp (nhdp_db_neighbor_addr_remove p) s (fun _ => fine s r).
Proof.
  intros [H HI] [a Ha]. rule naddr_remove_wp; [exact H|apply no_exempt|exact Ha|]. intros tm s' H' _.
  eapply (fine_untouched [F_naddrs; F_timers; F_trees]); [done|done|subst s'; unfold naddr_removed; explicit_frame|fields..].
Qed.

Lemma run_naddr_move s n p : good s -> is_Some (neighs s !! n) -> is_Some (naddrs s !! p) -> wp (run (Naddr_move n p)) s (fun _ => fine s (Naddr_move n p)).
Proof. intros [H HI] Hn [a Ha]. rule naddr_move_wp; [exact H|exact Ha|exact Hn|]. intros s' H' [F _]. untouched. Qed.

Lemma run_l2hop_remove s p r : good s -> is_Some (l2hops s !! p) -> wp (nhdp_db_link_2hop_remove p) s (fun _ => fine s r).
Proof.
  intros [H HI] [a Ha]. destruct (l2hop_at _ _ ∅ s p a H Ha) as (l & i & f & n & Hl & F).
  rule l2hop_remove_wp; [exact H|apply no_exempt|exact Ha|exact Hl|apply F|]. intros tm s' H' _.
  eapply (fine_untouched [F_l2hops; F_timers; F_trees]); [done|done|subst s'; unfold l2hop_removed; explicit_frame|fields..].
Qed.

Lemma run_laddr_remove s p : good s -> is_Some (laddrs s !! p) -> wp (run (Laddr_remove p)) s (fun _ => fine s (Laddr_remove p)).
Proof.
  intros [H HI] [a Ha]. destruct (laddr_at _ _ ∅ s p a H Ha) as (l & i & f & n & Hl & F).
  rule laddr_remove_wp; [exact H|apply no_exempt|exact Ha|exact Hl|apply F|]. intros H'.
  eapply (fine_untouched [F_laddrs; F_trees]); [done|done|unfold laddr_removed; explicit_frame|fields..].
Qed.

Lemma run_laddr_add s k a l i : good s -> links s !! k = Some l -> local_if l = Some i -> ~ has_laddr s i a -> wp (run (Laddr_add k a)) s (fun _ => fine s (Laddr_add k a)).
Proof.
  intros G Hl Hi Ha. pose proof G as [H HI]. apply discard_wp. rule laddr_add_wp; [exact H|exact Hl|exact Hi|exact Ha|intros _; by apply fine_malloc|].
  intros p s' H' [F _ _]. untouched.
Qed.

Lemma run_laddr_move s k p x lo ln : good s -> laddrs s !! p = Some x -> links s !! la_link x = Some lo -> links s !! k = Some ln -> local_if lo = local_if ln ->
  wp (run (Laddr_move k p)) s (fun _ => fine s (Laddr_move k p)).
Proof. intros [H HI] Hx Ho Hn Hi. rule laddr_move_wp; [exact H|exact Hx|exact Ho|exact Hn|exact Hi|]. intros s' H' [F _]. untouched. Qed.

Lemma run_l2hop_add s k a : good s -> is_Some (links s !! k) -> ~ has_l2hop s k a -> wp (run (L2hop_add k a)) s (fun _ => fine s (L2hop_add k a)).
Proof.
  intros G [l Hl] Ha. pose proof G as [H HI]. destruct (link_at _ _ ∅ s k l H Hl) as (i & f & n & F). apply discard_wp.
  rule l2hop_add_wp; [exact H|exact Hl|apply F|exact Ha|intros _; by apply fine_malloc|]. intros p s' H' [F' _ _ _ _]. untouched.
Qed.

Lemma run_link_add s n i : good s -> is_Some (neighs s !! n) -> is_Some (ifs s !! i) -> wp (run (Link_add n i)) s (fun _ => fine s (Link_add n i)).
Proof.
  intros G [x Hx] Hi. pose proof G as [H HI]. apply discard_wp. rule link_add_wp; [exact H|exact Hx|exact Hi|intros _; by apply fine_malloc|].
  intros p s' H' [F Hp [d Hd] _ _]. split; [split; [done|by eapply frame_interfaces; [exact F|fields|]]|]. intros HC _ m z. unfold sym_neighs, sym_links.
  rewrite Hd, fmap_insert, (proj1 F F_neighs ltac:(fields) : neighs s' = neighs s). rewrite symmetric_count_insert by (by rewrite lookup_fmap, Hp).
  rewrite decide_False by (simpl; congruence). intros Hz. rewrite (HC m z Hz). unfold sym_links. lia.
Qed.

Lemma run_recalculate s domain neigh r : good s -> (forall n, neigh = Some n -> is_Some (neighs s !! n)) -> (forall i, domain = Some i -> (i < NHDP_MAXIMUM_DOMAINS)%nat) ->
  wp (discard (nhdp_domain_recalculate_metrics domain neigh)) s (fun _ => fine s r).
Proof.
  intros [H HI] Hn Hd. apply discard_wp. eapply recalculate_metrics_wp; [exact H|apply no_exempt|exact Hn|exact Hd|]. intros b s' M.
  eapply fine_same; [done|by eapply metrics_consistent|apply M|fields|unfold sym_links; by rewrite (proj1 (metrics_fields _ _ M))|].
  pose proof (mo_neighs _ _ M) as E. unfold sym_neighs. assert (forall m : gmap ptr nhdp_neighbor, symmetric <$> m = (fun r : nhdp_neighbor * nat => symmetric r.1) <$> (neigh_rest <$> m)) as E2
    by (intros m; rewrite <- map_fmap_compose; by apply map_fmap_ext). by rewrite !E2, E.
Qed.

Lemma run_link_field s k f r : good s -> is_Some (links s !! k) -> (forall l, view_link (f l) = view_link l /\ status (f l) = status l) -> wp (change_link k f) s (fun _ => fine s r).
Proof.
  intros [H HI] [l Hl] Hf. eapply change_link_wp; [exact Hl|]. destruct (Hf l) as [E1 E2]. eapply (fine_same [F_links]); [done|by eapply consistent_link|explicit_frame|fields| |done].
  unfold sym_links. simpl. rewrite fmap_insert. apply insert_id. rewrite lookup_fmap, Hl. simpl. rewrite E2. injection E1 as E1. by rewrite E1.
Qed.

(** ** Status *)

#[local] Notation updated s k l s' := (exists i f n o, link_facts s l i f n /\ status_updated k l (link_status nhdp_hysteresis_is_pending nhdp_hysteresis_is_lost (marked k l s) k o f l n) s s').

Lemma counting_updated s s' k l st : links s !! k = Some l -> status_updated k l st s s' -> counting s -> counting s'.
Proof.
  intros Hl U HC m z Hz. destruct (su_links _ _ _ _ _ U) as [t El]. unfold sym_links. rewrite El, fmap_insert. simpl.
  assert (sym_neighs s' !! m = symmetric <$> counted (l_neigh l) (gain (status l) st) (neighs s) !! m) as En.
  { unfold sym_neighs. rewrite lookup_fmap. pose proof (su_neighs _ _ _ _ _ U m) as E. destruct (neighs s' !! m), (counted _ _ _ !! m); try done. injection E as E1 E2. simpl. congruence. }
  rewrite (symmetric_count_change _ k (l_neigh l, is_symmetric (status l))) by (by apply sym_link_at). fold (sym_links s). rewrite En in Hz. unfold counted in Hz.
  destruct (decide (m = l_neigh l)) as [->|Hm].
  - rewrite lookup_alter_eq in Hz. destruct (neighs s !! l_neigh l) as [x|] eqn:Ex; [|done]. injection Hz as <-. simpl.
    rewrite (HC (l_neigh l) (symmetric x)) by (unfold sym_neighs; by rewrite lookup_fmap, Ex). unfold gain.
    destruct (is_symmetric st), (is_symmetric (status l)); repeat (destruct (decide _); [|]; try congruence); lia.
  - rewrite lookup_alter_ne in Hz by done. rewrite !decide_False by congruence. rewrite <- (HC m z); [lia|]. unfold sym_neighs. by rewrite lookup_fmap.
Qed.

Lemma run_update s k r : good s -> ready s k ->
  wp (nhdp_db_link_update_status os_core_get_random nhdp_hysteresis_is_pending nhdp_hysteresis_is_lost k) s (fun _ => fine s r).
Proof.
  intros [H HI] (l & o & Hl & Ho). destruct (link_at _ _ ∅ s k l H Hl) as (i & f & n & F). rule update_status_wp; [exact H|exact HI|exact Hl|exact F|exact Ho|].
  intros s' H' U. split; [split; [done|by eapply status_updated_ok]|]. intros HC _. by eapply counting_updated.
Qed.

Lemma fine_trans s s1 s' r : sym_links s1 = sym_links s -> sym_neighs s1 = sym_neighs s -> (forall r, fine s1 r s') -> fine s r s'.
Proof. intros E1 E2 H. split; [apply (H Neighbor_add)|]. intros HC _. apply (H Neighbor_add); [|done]. by eapply counting_same. Qed.

Lemma run_symtime s k t : good s -> ready s k -> valid_time t -> wp (run (Link_set_symtime k t)) s (fun _ => fine s (Link_set_symtime k t)).
Proof.
  intros [H HI] (l & o & Hl & Ho) Ht. assert (has_timer (shape_of s) Sym_time k) as Hk by (eexists; by apply shape_links). simpl. unfold nhdp_db_link_set_symtime. apply wp_seq.
  eapply (timer_set_wp _ random_u32 _ max_interval_range timer_info (has_timer (shape_of s))); [apply H|exact Hk|exact Ht|]. intros tm HT _ _.
  eapply wp_weaken; [apply (run_update (set_timers tm s) k Neighbor_add); [split; [split; try apply H; exact HT|exact HI]|by exists l, o]|].
  intros _ s' [G HC]. split; [exact G|]. intros C _. by apply HC.
Qed.

Lemma run_unsymmetric s k : good s -> is_Some (links s !! k) -> wp (run (Link_set_unsymmetric k)) s (fun _ => fine s (Link_set_unsymmetric k)).
Proof.
  intros [H HI] [l Hl]. destruct (link_at _ _ ∅ s k l H Hl) as (i & f & n & F). destruct (HI i f (lf_interface F)) as [Ht _].
  rule set_unsymmetric_wp; [exact H|exact Hl|exact F|exact Ht|]. intros s' H' [FR [t EL] EN _ _ _]. split; [split; [done|by eapply frame_interfaces; [exact FR|fields|]]|].
  intros HC Hs. rewrite (Hs l Hl), counted_none in EN. eapply counting_same; [| |exact HC].
  - unfold sym_links. rewrite EL, fmap_insert. apply insert_id. exact (sym_link_at s k l Hl).
  - unfold sym_neighs. by rewrite EN.
Qed.

(** *** The validity time of a link *)

Lemma counting_unsymmetric s s1 s2 k l : links s !! k = Some l -> is_symmetric (status l) = true -> unsymmetric_now k l s s1 -> link_removed k l s1 s2 -> counting s -> counting s2.
Proof.
  intros Hl Es U R HC m z. assert (links s1 = links s) as El by (apply (proj1 (un_frame _ _ _ _ U) F_links); fields).
  assert (sym_links s1 = sym_links s) as Es1 by (unfold sym_links; by rewrite El).
  rewrite (sym_links_removed _ _ _ _ R), Es1. unfold sym_neighs. rewrite (removed_neighs _ _ _ _ R), (un_neighs _ _ _ _ U), lookup_fmap. unfold counted.
  rewrite (symmetric_count_delete _ _ _ _ (sym_link_at s k l Hl)), Es. destruct (decide (m = l_neigh l)) as [->|Hm].
  - rewrite lookup_alter_eq, decide_True by done. destruct (neighs s !! l_neigh l) as [x|] eqn:Ex; [|done]. intros [= <-]. simpl.
    rewrite (HC (l_neigh l) (symmetric x)) by (unfold sym_neighs; by rewrite lookup_fmap, Ex). lia.
  - rewrite lookup_alter_ne, decide_False by congruence. intros Hz. rewrite (HC m z) by (unfold sym_neighs; by rewrite lookup_fmap). lia.
Qed.

Lemma run_link_vtime s k r : good s -> is_Some (links s !! k) -> wp (_cb_link_vtime os_core_get_random k) s (fun _ => fine s r).
Proof.
  intros [H HI] [l Hl]. destruct (link_at _ _ ∅ s k l H Hl) as (i & f & n & F). destruct (HI i f (lf_interface F)) as [Ht _].
  unfold _cb_link_vtime. wp_steps. fold (is_symmetric (status l)).
  assert (forall s2, good s2 -> is_Some (neighs s2 !! l_neigh l) -> (counting s -> counting s2) ->
    wp (ls <~ get_tree (Neigh_links (l_neigh l)) ;; match ls with [] => nhdp_db_neighbor_remove (l_neigh l) | _ => ret tt end) s2 (fun _ => fine s r)) as Hend.
  { intros s2 G2 [x Hx] C2. destruct (tree_at _ _ ∅ s2 (Neigh_links (l_neigh l)) (proj1 G2)) as (ls & Els & _); [by eexists; apply shape_neighs|].
    apply wp_seq. eapply get_tree_wp; [exact Els|]. destruct ls as [|q ls]; [|wp_steps; split; [exact G2|intros HC _; by apply C2]].
    eapply wp_weaken; [apply (run_neighbor_remove s2 (l_neigh l) G2); by exists x|]. intros _ s3 [G3 C3]. split; [exact G3|]. intros HC _. apply C3; [by apply C2|done]. }
  destruct (is_symmetric (status l)) eqn:Es.
  - rule unsymmetric_wp; [exact H|exact Hl|exact F|exact Ht|]. intros s1 H1 U. assert (links s1 = links s) as El by (apply (proj1 (un_frame _ _ _ _ U) F_links); fields).
    wp_steps. rule link_remove_wp; [exact H1|rewrite El; exact Hl|]. intros s2 H2 R. apply Hend.
    + split; [exact H2|]. eapply frame_interfaces; [apply R|fields|]. eapply frame_interfaces; [apply U|fields|exact HI].
    + rewrite (removed_neighs _ _ _ _ R), (un_neighs _ _ _ _ U). unfold counted. rewrite lookup_alter_is_Some. eexists. apply F.
    + intros HC. by eapply counting_unsymmetric.
  - wp_steps. rule link_remove_wp; [exact H|exact Hl|]. intros s2 H2 R. destruct (removed_fine s s2 k l (conj H HI) Hl H2 R) as [G2 C2]. apply Hend; [exact G2| |].
    + rewrite (removed_neighs _ _ _ _ R). eexists. apply F.
    + intros HC. apply C2; [exact HC|]. intros l' Hl'. assert (l' = l) as -> by congruence. exact Es.
Qed.

(** *** Timeouts *)

Lemma allowed_timer s kd p : allowed s (Timeout kd p) -> has_timer (shape_of s) kd p.
Proof.
  destruct kd; simpl; [intros [x Hx]|intros (x & o & Hx & _)|intros (x & o & Hx & _)|intros [x Hx]|intros [x Hx]]; rewrite lookup_fmap, Hx; by eexists.
Qed.

Lemma run_timeout s kd p : good s -> allowed s (Timeout kd p) -> wp (run (Timeout kd p)) s (fun _ => fine s (Timeout kd p)).
Proof.
  intros [H HI] Ha. simpl. apply wp_seq.
  eapply (timer_stop_wp os_core_get_random random_u32 _ max_interval_range timer_info (has_timer (shape_of s))); [apply H|by apply allowed_timer|]. intros tm HT _ _.
  assert (good (set_timers tm s)) as G by (split; [split; try apply H; exact HT|exact HI]).
  assert (wp (timeout kd p) (set_timers tm s) (fun _ => fine (set_timers tm s) Neighbor_add)) as Hw.
  { destruct kd; simpl in Ha |- *; [by apply run_naddr_remove|by apply run_update|by apply run_update|by apply run_link_vtime|by apply run_l2hop_remove]. }
  eapply wp_weaken; [exact Hw|]. intros _ s' [G' HC]. split; [exact G'|]. intros C _. by apply HC.
Qed.

(** * All requests *)

Lemma run_wp s r : good s -> allowed s r -> wp (run r) s (fun _ => fine s r).
Proof.
  intros G Ha. pose proof G as [H HI]. destruct r; simpl in Ha.
  - by apply run_neighbor_add.
  - by apply run_neighbor_remove.
  - by apply run_originator.
  - destruct Ha. rule neigh_connect_wp; [exact H|done|done|]. intros m Hm H'. by apply run_neighbor_partners.
  - rule neigh_disconnect_wp; [exact H|done|]. intros H'. apply run_neighbor_partners; [done|by apply unpaired_same|done].
  - destruct Ha. by apply run_naddr_add.
  - by apply run_naddr_remove.
  - destruct Ha. by apply run_naddr_move.
  - destruct Ha as [[x Hx] Ht]. apply run_timer; [done|by eexists; apply shape_naddrs|done].
  - destruct Ha as [x Hx]. apply run_stop; [done|by eexists; apply shape_naddrs].
  - destruct Ha. by apply run_link_add.
  - by apply run_link_remove.
  - destruct Ha. rule link_connect_wp; [exact H|done|done|]. intros m Hm H'. by apply run_link_partners.
  - rule link_disconnect_wp; [exact H|done|]. intros H'. apply run_link_partners; [done|by apply unpaired_same|done].
  - by apply run_link_field.
  - by apply run_link_field.
  - by apply run_update.
  - by apply run_unsymmetric.
  - destruct Ha as [[x Hx] Ht]. apply run_timer; [done|by eexists; apply shape_links|done].
  - destruct Ha as [[x Hx] Ht]. apply run_timer; [done|by eexists; apply shape_links|done].
  - destruct Ha. by apply run_symtime.
  - destruct Ha as (l & i & ? & ? & ?). by eapply run_laddr_add.
  - by apply run_laddr_remove.
  - destruct Ha as (x & lo & ln & ? & ? & ? & ?). by eapply run_laddr_move.
  - destruct Ha. by apply run_l2hop_add.
  - by apply run_l2hop_remove.
  - destruct Ha as [[x Hx] Ht]. apply run_timer; [done|by eexists; apply shape_l2hops|done].
  - by apply run_timeout.
  - destruct Ha. by apply run_recalculate.
Qed.

(** Time goes by. *)
Lemma clock_good s now : good s -> now_times (timers s) <= now <= 2 ^ 62 -> good (set_timers (set_now now (timers s)) s).
Proof.
  intros [H HI] Hn. split; [|exact HI]. pose proof (co_timers H) as T. pose proof (ti_wf T) as W. assert (0 <= now_times (timers s)) as H0 by apply W.
  split; try apply H. split; try apply T. destruct W as [W1 W2 W3 W4 W5 W6 W7]. split; simpl; try done. lia.
Qed.

(** ** The empty database *)

Lemma if_tree_lookup (fs : gmap ptr nhdp_interface) (g : ptr -> tree_id) t l :
  (list_to_map ((fun p => (g p, [])) <$> (fst <$> map_to_list fs)) : gmap tree_id (list ptr)) !! t = Some l <-> l = [] /\ exists p, t = g p /\ is_Some (fs !! p).
Proof.
  assert (forall x y, (x, y) ∈ ((fun p => (g p, @nil ptr)) <$> (fst <$> map_to_list fs)) <-> y = [] /\ exists p, x = g p /\ is_Some (fs !! p)) as Hin.
  { intros x y. rewrite list_elem_of_fmap. split.
    - intros (p & [= -> ->] & Hp). split; [done|]. exists p. split; [done|]. apply list_elem_of_fmap in Hp as ([q f] & -> & Hq). apply elem_of_map_to_list in Hq. by exists f.
    - intros (-> & p & -> & [f Hf]). exists p. split; [done|]. apply list_elem_of_fmap. exists (p, f). split; [done|]. by apply elem_of_map_to_list. }
  rewrite <- Hin. split; [apply elem_of_list_to_map_2|]. intros He. apply elem_of_list_to_map_1'; [|done]. intros y Hy. apply Hin in He as [-> _]. by apply Hin in Hy as [-> _].
Qed.

Definition if_tree_of (p : ptr) (t : tree_id) : Prop := t = If_links p \/ t = If_link_addresses p \/ t = If_link_originators p \/ t = If_twohops p.

Lemma if_trees_empty fs t l : if_trees fs !! t = Some l -> l = [] /\ exists p, is_Some (fs !! p) /\ if_tree_of p t.
Proof.
  unfold if_trees, if_tree_of. rewrite !lookup_union_Some_raw. intros [[[H|[_ H]]|[_ H]]|[_ H]]; apply if_tree_lookup in H as (-> & p & -> & Hp); (split; [done|]); exists p; tauto.
Qed.

Lemma if_trees_there fs t : is_Some (if_trees fs !! t) <-> exists p, is_Some (fs !! p) /\ if_tree_of p t.
Proof.
  split; [intros [l Hl]; by apply if_trees_empty in Hl as [_ ?]|]. intros (p & Hp & Ht). unfold if_trees. rewrite !lookup_union_is_Some.
  destruct Ht as [->|[->|[->| ->]]]; [left; left; left|left; left; right|left; right|right]; (exists []; apply if_tree_lookup; split; [done|exists p; by split]).
Qed.

Lemma init_good fs v4 v6 reg tm : timers_ok max_interval timer_info (fun _ _ => False) tm -> domains_there reg ->
  (forall i f, fs !! i = Some f -> 0 <= n_hold_time f <= max_interval /\ tree_strict (fun a : netaddr => a) avl_comp_netaddr (_if_addresses f)) ->
  good (nhdp_db_init fs v4 v6 reg tm).
Proof.
  intros HT HD HI. split; [|exact HI]. set (s := nhdp_db_init fs v4 v6 reg tm).
  set (base := {[Naddr_tree := []; Neigh_list := []; Originator_tree := []; Link_list := []]} : gmap tree_id (list ptr)).
  assert (forall t, base !! t = if decide (t = Naddr_tree \/ t = Neigh_list \/ t = Originator_tree \/ t = Link_list) then Some [] else None) as Hbase.
  { intros t. destruct (decide _) as [[->|[->|[->| ->]]]|Hn]; [reflexivity..|]. unfold base. rewrite !lookup_insert_ne by (intros <-; apply Hn; tauto). first [apply lookup_empty | apply lookup_singleton_ne; intros <-; apply Hn; tauto]. }
  assert (forall t l, trees s !! t = Some l -> l = []) as Hempty.
  { intros t l. change (trees s) with (base ∪ if_trees fs). rewrite lookup_union_Some_raw, Hbase. destruct (decide _); [intros [[= <-]|[? _]]; done|].
    intros [?|[_ Hl]]; [done|]. by apply if_trees_empty in Hl as [-> _]. }
  assert (forall t x, ~ home (shape_of s) t x) as Hno.
  { intros t x. destruct t; simpl; rewrite ?fmap_empty, ?lookup_empty; try setoid_rewrite fmap_empty; try setoid_rewrite lookup_empty; unfold is_Some; naive_solver. }
  apply (consistent_shape _ _ _ (shape_of s)); [done| | | |exact HD].
  - split.
    + intros t l Hl. apply Hempty in Hl as ->. by apply NoDup_nil_2.
    + intros t l x Hl. rewrite (Hempty t l Hl), elem_of_nil. split; [done|]. intros [Hh _]. by apply (Hno t x).
    + intros t l Hl _. apply Hempty in Hl as ->. apply SSorted_nil.
    + intros t. change (trees s) with (base ∪ if_trees fs). rewrite lookup_union_is_Some, if_trees_there, Hbase. unfold if_tree_of.
      destruct t; simpl; rewrite ?fmap_empty, ?lookup_empty, ?elem_of_dom; split; intros Hh; try (destruct Hh as [Hh|(p & Hp & Ht)]); unfold is_Some in *; naive_solver.
  - split; simpl; rewrite ?fmap_empty; intros *; rewrite lookup_empty; done.
  - eapply timers_iff; [exact HT|]. intros [] p; simpl; rewrite fmap_empty, lookup_empty; unfold is_Some; naive_solver.
Qed.

(** * Histories *)

Inductive history (P : nhdp_db -> request -> Prop) : nhdp_db -> Prop :=
  | history_init fs v4 v6 reg tm :
      timers_ok max_interval timer_info (fun _ _ => False) tm -> domains_there reg -> interfaces_ok (nhdp_db_init fs v4 v6 reg tm) ->
      history P (nhdp_db_init fs v4 v6 reg tm)
  | history_request s r s' : history P s -> allowed s r -> P s r -> run r s = Def (tt, s') -> history P s'
  | history_clock s now : history P s -> now_times (timers s) <= now <= 2 ^ 62 -> history P (set_timers (set_now now (timers s)) s).

Lemma run_def s r : good s -> allowed s r -> exists s', run r s = Def (tt, s') /\ fine s r s'.
Proof. intros G Ha. destruct (wp_run _ _ _ (run_wp s r G Ha)) as ([] & s' & E & F). by exists s'. Qed.

Lemma history_good P s : history P s -> good s.
Proof.
  induction 1 as [fs v4 v6 reg tm HT HD HI|s r s' _ IH Ha _ E|s now _ IH Hn]; [by apply init_good| |by apply clock_good].
  destruct (run_def s r IH Ha) as (s'' & E' & [G _]). rewrite E in E'. by injection E' as <-.
Qed.

Lemma init_counting fs v4 v6 reg tm : counting (nhdp_db_init fs v4 v6 reg tm).
Proof. intros n z. unfold sym_neighs. simpl. by rewrite fmap_empty, lookup_empty. Qed.

Lemma history_counting s : history counted_request s -> counting s.
Proof.
  induction 1 as [fs v4 v6 reg tm HT HD HI|s r s' Hh IH Ha Hc E|s now _ IH Hn]; [apply init_counting| |exact IH].
  destruct (run_def s r (history_good _ _ Hh) Ha) as (s'' & E' & [_ C]). rewrite E in E'. injection E' as <-. by apply C.
Qed.
End history.
