(* ===== verification/NhdpDatabase.v ===== *)
(** What the neighborhood database of src/nhdp/nhdp/nhdp_db.c promises: in every
    history of requests no request meets freed memory, the lookups answer as the
    objects do, a removal takes along exactly what belongs to the object, an
    originator is that of one neighbor, status, counters and metrics are right. *)

From Stdlib Require Import ZArith Lia Sorted.
From stdpp Require Import base list numbers option gmap sets strings.
From S2P Require Import Prelude AvlSpec StateMonad Rfc5444Values Netaddr MprSelection NhdpDb NhdpDomain Timer ValidityTimer NhdpStore NhdpConsistent NhdpPartners NhdpRemove NhdpUnlink NhdpNeighbor NhdpAdd NhdpMove NhdpOriginator NhdpMetrics NhdpStatus NhdpHistory.

Local Open Scope Z_scope.
Local Open Scope state_scope.

Section database.
Context (os_core_get_random : nat -> option Z) (random_u32 : forall n r, os_core_get_random n = Some r -> 0 <= r <= UINT32_MAX).
Context (max_interval : Z) (max_interval_range : 0 <= max_interval <= 2 ^ 56).
Context (timer_info : timer_kind -> positive).
Context (malloc : gset ptr -> nat -> option ptr) (malloc_fresh : forall used n p, malloc used n = Some p -> p ∉ used).
Context (nhdp_hysteresis_is_pending nhdp_hysteresis_is_lost : nhdp_db -> ptr -> bool).
#[local] Notation consistent := (consistent max_interval timer_info).
#[local] Notation run := (run os_core_get_random timer_info malloc nhdp_hysteresis_is_pending nhdp_hysteresis_is_lost).
#[local] Notation history := (history os_core_get_random max_interval timer_info malloc nhdp_hysteresis_is_pending nhdp_hysteresis_is_lost).
#[local] Notation allowed := (allowed max_interval).
#[local] Notation link_status := (link_status nhdp_hysteresis_is_pending nhdp_hysteresis_is_lost).
#[local] Notation update_status := (nhdp_db_link_update_status os_core_get_random nhdp_hysteresis_is_pending nhdp_hysteresis_is_lost).
#[local] Ltac rule l := eapply l; try first [exact random_u32 | exact max_interval_range | exact malloc_fresh | exact nhdp_hysteresis_is_pending].
(** Any history. *)
#[local] Notation reachable := (history (fun _ _ => True)).

Lemma reachable_consistent P s : history P s -> consistent ∅ s.
Proof. intros H. eapply (proj1 (A := consistent ∅ s)). rule (history_good os_core_get_random random_u32 max_interval max_interval_range timer_info malloc malloc_fresh); exact H. Qed.
Lemma reachable_interfaces P s : history P s -> interfaces_ok max_interval s.
Proof. intros H. eapply (proj2 (A := consistent ∅ s)). rule (history_good os_core_get_random random_u32 max_interval max_interval_range timer_info malloc malloc_fresh); exact H. Qed.

(** C2: Requests to the neighborhood database never meet freed memory, NULL or a
    node that is not in its tree: after any history of requests, timeouts and
    running time from the empty database, everything a caller may ask for has a
    result, and the database is still consistent. *)
Theorem nhdp_requests_safe s r : reachable s -> allowed s r -> exists s', run r s = Def (tt, s') /\ reachable s' /\ consistent ∅ s'.
Proof.
  intros H Ha. destruct (run_def os_core_get_random random_u32 max_interval max_interval_range timer_info malloc malloc_fresh nhdp_hysteresis_is_pending nhdp_hysteresis_is_lost s r
    (conj (reachable_consistent _ _ H) (reachable_interfaces _ _ H)) Ha) as (s' & E & [[G _] _]).
  exists s'. split; [exact E|]. split; [by eapply history_request|exact G].
Qed.

(** C11: The counter [symmetric] of a neighbor is the number of its links with
    status SYMMETRIC, in every history in which a symmetric link leaves by its
    validity time or with its neighbor and is not set to unsymmetric. *)
Theorem symmetric_counter s n x : history counted_request s -> neighs s !! n = Some x ->
  symmetric x = Z.of_nat (size (filter (fun kl => l_neigh kl.2 = n /\ status kl.2 = NHDP_LINK_SYMMETRIC) (links s))).
Proof.
  intros H Hx. pose proof (history_counting os_core_get_random random_u32 max_interval max_interval_range timer_info malloc malloc_fresh _ _ s H n (symmetric x)) as C.
  rewrite C by (unfold sym_neighs; by rewrite lookup_fmap, Hx). unfold symmetric_count, sym_links. rewrite map_filter_fmap, map_size_fmap. do 2 f_equal.
  apply map_filter_ext. intros k l _. simpl. unfold is_symmetric. rewrite <- Z.eqb_eq. split; [intros [= -> ->]|intros [-> ->]]; done.
Qed.

(** C20: Removing a link removes exactly its addresses and two-hop neighbors, the
    partner of the link keeps living without partner, all other links, all
    neighbors and all their addresses stay. *)
Theorem link_remove_exact s k l : reachable s -> links s !! k = Some l -> exists s', nhdp_db_link_remove k s = Def (tt, s') /\ consistent ∅ s' /\
  links s' !! k = None /\
  (forall x, x <> k -> links s' !! x = (if bool_decide (l_partner l = Some x) then with_l_partner None <$> links s !! x else links s !! x)) /\
  (forall p a, laddrs s' !! p = Some a <-> laddrs s !! p = Some a /\ la_link a <> k) /\
  (forall p a, l2hops s' !! p = Some a <-> l2hops s !! p = Some a /\ l2_link a <> k) /\
  neighs s' = neighs s /\ naddrs s' = naddrs s /\ ifs s' = ifs s.
Proof.
  intros H Hl. assert (wp (nhdp_db_link_remove k) s (fun _ s' => consistent ∅ s' /\ link_removed k l s s')) as W.
  { rule link_remove_wp; [by eapply reachable_consistent|exact Hl|by split]. }
  destruct (wp_run _ _ _ W) as ([] & s' & E & G & [F L A T _ _]). exists s'. split; [exact E|]. split; [exact G|].
  split; [rewrite L; apply lookup_delete_eq|]. split; [|split; [exact A|split; [exact T|split_and!; [apply (proj1 F F_neighs)|apply (proj1 F F_naddrs)|apply (proj1 F F_ifs)]; fields]]].
  intros x Hx. rewrite L, lookup_delete_ne by done. unfold unlinked. destruct (l_partner l) as [p|] eqn:Ep.
  - rewrite (unpaired_lookup l_partner with_l_partner ltac:(by intros) k (links s) p x) by (unfold partner_at; by rewrite Hl).
    case_bool_decide as Eq; [injection Eq as ->; by rewrite decide_True by auto|]. rewrite decide_False; [done|]. intros [?| ->]; done.
  - unfold unpaired, partner_at. rewrite Hl. simpl. by rewrite Ep.
Qed.

(** C19: Removing a neighbor removes exactly its links and addresses, with all that
    belongs to these links; everything of other neighbors stays, but for
    partners that pointed to the removed objects. *)
Theorem neighbor_remove_exact s n x : reachable s -> neighs s !! n = Some x -> exists s', nhdp_db_neighbor_remove n s = Def (tt, s') /\ consistent ∅ s' /\
  (forall m, with_n_partner None <$> neighs s' !! m = if bool_decide (m = n) then None else with_n_partner None <$> neighs s !! m) /\
  (forall p a, naddrs s' !! p = Some a <-> naddrs s !! p = Some a /\ na_neigh a <> n) /\
  (forall k l, with_l_partner None <$> links s' !! k = Some l <-> with_l_partner None <$> links s !! k = Some l /\ l_neigh l <> n) /\
  (forall p a, laddrs s' !! p = Some a <-> laddrs s !! p = Some a /\ forall l, links s !! la_link a = Some l -> l_neigh l <> n) /\
  (forall p a, l2hops s' !! p = Some a <-> l2hops s !! p = Some a /\ forall l, links s !! l2_link a = Some l -> l_neigh l <> n).
Proof.
  intros H Hx. pose proof (reachable_consistent _ _ H) as HC. assert (wp (nhdp_db_neighbor_remove n) s (fun _ s' => consistent ∅ s' /\ neighbor_removed n s s')) as W.
  { rule neighbor_remove_wp; [exact HC|exact Hx|by split]. }
  destruct (wp_run _ _ _ W) as ([] & s' & E & G & [F N A [L1 L2 L3 L4] NL _ _]). exists s'. split; [exact E|]. split; [exact G|].
  assert (forall k, is_Some (links s' !! k) <-> exists l, links s !! k = Some l /\ l_neigh l <> n) as Hal.
  { intros k. split.
    - intros [l' Hl']. destruct (L1 k l' Hl') as (l & Hl & Es). exists l. split; [exact Hl|]. apply same_link_neigh in Es as (<- & _). by eapply NL.
    - intros (l & Hl & Hn). destruct (L2 k l Hl Hn) as (l' & Hl' & _). by exists l'. }
  assert (forall k l, links s !! k = Some l -> is_Some (links s' !! k) <-> l_neigh l <> n) as Hal2.
  { intros k l Hl. rewrite Hal. split; [intros (l' & Hl' & ?); congruence|by exists l]. }
  split; [|split; [exact A|split; [|split]]].
  - intros m. rewrite N. case_bool_decide as Em; [by rewrite Em, lookup_delete_eq|]. rewrite lookup_delete_ne by done. by apply (unpaired_same n_partner with_n_partner).
  - intros k l. rewrite !fmap_Some. split.
    + intros (l' & Hl' & ->). destruct (L1 k l' Hl') as (l0 & Hl0 & Es). pose proof (same_link_neigh _ _ Es) as (En & _). split; [exists l0; split; [exact Hl0|exact Es]|]. by apply (NL k l').
    + intros [(l0 & Hl0 & ->) Hn]. destruct (L2 k l0 Hl0 Hn) as (l' & Hl' & Es). exists l'. split; [exact Hl'|]. symmetry. exact Es.
  - intros p a. rewrite L3. split; intros [Ha Hk]; (split; [exact Ha|]).
    + intros l Hl. by apply (Hal2 _ l Hl).
    + destruct (laddr_at _ _ ∅ s p a HC Ha) as (l & _ & _ & _ & Hl & _). apply (Hal2 _ l Hl). by apply Hk.
  - intros p a. rewrite L4. split; intros [Ha Hk]; (split; [exact Ha|]).
    + intros l Hl. by apply (Hal2 _ l Hl).
    + destruct (l2hop_at _ _ ∅ s p a HC Ha) as (l & _ & _ & _ & Hl & _). apply (Hal2 _ l Hl). by apply Hk.
Qed.

(** A lookup in a tree without duplicates. *)
Lemma lookup_exact X s t a (found : ptr -> Prop) : consistent X s -> head_alive (shape_of s) t -> sorted_tree t = true ->
  (forall p, found p <-> at_home X (shape_of s) t p /\ shape_key (shape_of s) t p = a) ->
  exists o, avl_find_element t a s = Def (o, s) /\ forall p, o = Some p <-> found p.
Proof.
  intros H Ht Hs Hf. assert (wp (avl_find_element t a) s (fun o s' => s' = s /\ forall p, o = Some p <-> found p)) as W.
  { eapply (find_wp s (at_home X (shape_of s))); [apply H|exact Ht|exact Hs|..].
    - intros y Hy Hk. split; [done|]. intros p. rewrite Hf. split; [by intros [= <-]|]. intros [Hp Hkp]. f_equal.
      apply (placed_unique _ _ _ t y p (co_placed H)); try done. congruence.
    - intros Hno. split; [done|]. intros p. rewrite Hf. split; [done|]. intros [Hp Hkp]. by destruct (Hno p Hp). }
  destruct (wp_run _ _ _ W) as (o & s' & E & -> & Ho). by exists o.
Qed.

(** C22: The lookups answer for every address as the objects do: the object that is
    found is the one that has the address, and there is none if nothing is
    found. *)
Theorem nhdp_lookups_exact s a : reachable s ->
  (exists o, nhdp_db_neighbor_addr_get a s = Def (o, s) /\ forall p, o = Some p <-> exists x, naddrs s !! p = Some x /\ neigh_addr x = a) /\
  (is_unspec a = false -> exists o, nhdp_db_neighbor_get_by_originator a s = Def (o, s) /\ forall p, o = Some p <-> exists x, neighs s !! p = Some x /\ originator x = a) /\
  (forall k, is_Some (links s !! k) -> exists o, nhdp_db_link_addr_get k a s = Def (o, s) /\
    forall p, o = Some p <-> exists x, laddrs s !! p = Some x /\ link_addr x = a /\ la_link x = k) /\
  (forall k, is_Some (links s !! k) -> exists o, ndhp_db_link_2hop_get k a s = Def (o, s) /\
    forall p, o = Some p <-> exists x, l2hops s !! p = Some x /\ twohop_addr x = a /\ l2_link x = k) /\
  (forall i, is_Some (ifs s !! i) -> exists o, nhdp_interface_get_link_addr i a s = Def (o, s) /\
    forall p, o = Some p <-> exists x l, laddrs s !! p = Some x /\ link_addr x = a /\ links s !! la_link x = Some l /\ local_if l = Some i).
Proof.
  intros H. pose proof (reachable_consistent _ _ H) as HC.
  split; [|split; [|split; [|split]]].
  - apply (lookup_exact ∅ s Naddr_tree a); [exact HC|done|done|]. intros p. unfold at_home. simpl. rewrite lookup_fmap. split.
    + intros (x & -> & <-). split; [split; [by eexists|set_solver]|done].
    + destruct (naddrs s !! p) as [x|]; [|by intros [[[? ?] _] _]]. simpl. intros [_ <-]. by exists x.
  - intros Hu. apply (lookup_exact ∅ s Originator_tree a); [exact HC|done|done|]. intros p. unfold at_home. simpl. rewrite lookup_fmap. split.
    + intros (x & -> & <-). split; [split; [by eexists|set_solver]|done].
    + destruct (neighs s !! p) as [x|]; [|by intros [[(? & ? & _) _] _]]. simpl. intros [_ <-]. by exists x.
  - intros k [l Hl]. apply (lookup_exact ∅ s (Link_addresses k) a); [exact HC|by eexists; apply shape_links|done|]. intros p. unfold at_home. simpl. rewrite lookup_fmap. split.
    + intros (x & -> & <- & <-). split; [split; [by eexists|set_solver]|done].
    + destruct (laddrs s !! p) as [x|]; [|by intros [[[? ?] _] _]]. simpl. intros [[[b [= <- <-]] _] <-]. by exists x.
  - intros k [l Hl]. apply (lookup_exact ∅ s (Link_2hop k) a); [exact HC|by eexists; apply shape_links|done|]. intros p. unfold at_home. simpl. rewrite lookup_fmap. split.
    + intros (x & -> & <- & <-). split; [split; [by eexists _, _|set_solver]|done].
    + destruct (l2hops s !! p) as [x|]; [|by intros [[(? & ? & ?) _] _]]. simpl. intros [[(b & z & [= <- <- <-]) _] <-]. by exists x.
  - intros i Hi. apply (lookup_exact ∅ s (If_link_addresses i) a); [exact HC|by apply elem_of_dom|done|]. intros p. unfold at_home. simpl. rewrite lookup_fmap. split.
    + intros (x & l & -> & <- & Hl & Hli). split; [split; [|set_solver]|done]. exists (link_addr x), (la_link x), (view_link l). by rewrite lookup_fmap, Hl.
    + destruct (laddrs s !! p) as [x|]; [|by intros [[(? & ? & ? & ? & _) _] _]]. simpl. intros [[(b & k & v & [= <- <-] & Hv & Hvi) _] <-].
      rewrite lookup_fmap in Hv. destruct (links s !! la_link x) as [l|] eqn:El; [|done]. injection Hv as <-. by exists x, l.
Qed.

(** C14: A neighbor that gets an originator is found under it, and only this one: a
    neighbor that had the originator before has none any more, all other
    originators stay. *)
Theorem originator_exclusive s n x a : reachable s -> neighs s !! n = Some x -> is_unspec a = false ->
  exists s', nhdp_db_neighbor_set_originator n a s = Def (tt, s') /\ consistent ∅ s' /\ nhdp_db_neighbor_get_by_originator a s' = Def (Some n, s') /\
    forall m y, neighs s !! m = Some y -> originator_of s' m = if decide (m = n) then a else if decide (originator y = a) then no_addr else originator y.
Proof.
  intros H Hx Hu. pose proof (reachable_consistent _ _ H) as HC.
  assert (wp (nhdp_db_neighbor_set_originator n a) s (fun _ s' => consistent ∅ s' /\ originator_set n a x s s')) as W.
  { rule set_originator_wp; [exact HC|exact Hx|by split]. }
  destruct (wp_run _ _ _ W) as ([] & s' & E & G & [F Same New Others]). exists s'. split; [exact E|]. split; [exact G|].
  assert (originator_of s' n = a) as Hn.
  { unfold originator_of. by destruct (decide (originator x = a)) as [Ea|Ea]; [rewrite (Same Ea), Hx|rewrite (New Ea)]. }
  assert (forall m y, neighs s !! m = Some y -> originator_of s' m = if decide (m = n) then a else if decide (originator y = a) then no_addr else originator y) as Hall.
  { intros m y Hm. destruct (decide (m = n)) as [->|Hmn]; [exact Hn|]. unfold originator_of. destruct (decide (originator x = a)) as [Ea|Ea].
    - rewrite (Same Ea), Hm. simpl. rewrite decide_False; [done|]. intros Ey. apply Hmn.
      eapply (originator_unique os_core_get_random random_u32 max_interval max_interval_range timer_info s m n (view_neigh y) (view_neigh x) HC); [by apply shape_neighs|by apply shape_neighs|simpl; congruence|simpl; congruence].
    - rewrite (Others m Ea Hmn), Hm. simpl. unfold cleared. rewrite Hu. simpl. case_bool_decide; [by rewrite decide_True|by rewrite decide_False]. }
  split; [|exact Hall]. assert (exists x', neighs s' !! n = Some x' /\ originator x' = a) as (x' & Hx' & Eo).
  { destruct (decide (originator x = a)) as [Ea|Ea]; [exists x; by rewrite (Same Ea)|eexists; split; [by apply New|done]]. }
  destruct (lookup_exact ∅ s' Originator_tree a (fun p => p = n) G) as (o & Eo' & Ho); [done|done| |by rewrite <- (proj2 (Ho n) eq_refl)].
  intros p. split.
  - intros ->. split; [split; [exists (view_neigh x'); split; [by apply shape_neighs|simpl; congruence]|set_solver]|]. simpl. rewrite lookup_fmap, Hx'. exact Eo.
  - intros [[(v & Hv & Hs) _] Hk]. simpl in Hk, Hv. rewrite Hv in Hk. simpl in Hk.
    eapply (originator_unique os_core_get_random random_u32 max_interval max_interval_range timer_info s' p n v (view_neigh x') G); [exact Hv|by apply shape_neighs|exact Hs|simpl; congruence].
Qed.

(** C12: The status of a link follows RFC 6130: pending for a link to ourselves or on
    the word of the hysteresis, lost on the word of the hysteresis or without a
    running timer, symmetric while the symmetry timer runs, and heard while only the
    other one does. Calculating it changes nothing. *)
Theorem link_status_rules s k l i f n o : reachable s -> links s !! k = Some l -> local_if l = Some i -> ifs s !! i = Some f -> neighs s !! l_neigh l = Some n ->
  nhdp_get_originator s (na_type (if_addr l)) = Some o ->
  let pending := to_ourselves o f l n \/ nhdp_hysteresis_is_pending s k = true in
  let lost := nhdp_hysteresis_is_lost s k = true in
  exists st, _nhdp_db_link_calculate_status nhdp_hysteresis_is_pending nhdp_hysteresis_is_lost k s = Def (st, s) /\
    (st = NHDP_LINK_PENDING <-> pending) /\
    (st = NHDP_LINK_SYMMETRIC <-> ~ pending /\ ~ lost /\ is_active (timers s) Sym_time k = true) /\
    (st = NHDP_LINK_HEARD <-> ~ pending /\ ~ lost /\ is_active (timers s) Sym_time k = false /\ is_active (timers s) Heard_time k = true) /\
    (st = NHDP_LINK_LOST <-> ~ pending /\ (lost \/ (is_active (timers s) Sym_time k = false /\ is_active (timers s) Heard_time k = false))).
Proof.
  intros H Hl Hi Hf Hn Ho pending lost. pose proof (reachable_consistent _ _ H) as HC. destruct (link_at _ _ ∅ s k l HC Hl) as (i' & f' & n' & F).
  assert (link_facts s l i f n) as F' by (destruct F as [F1 F2 F3 F4 F5]; assert (i' = i) as -> by congruence; assert (f' = f) as -> by congruence;
    assert (n' = n) as -> by congruence; by split).
  assert (wp (_nhdp_db_link_calculate_status nhdp_hysteresis_is_pending nhdp_hysteresis_is_lost k) s (fun st s' => s' = s /\ st = link_status s k o f l n)) as W.
  { eapply (status_wp max_interval timer_info _ _ ∅); [exact HC|exact Hl|exact F'|by eapply reachable_interfaces|exact Ho|done]. }
  destruct (wp_run _ _ _ W) as (st & s' & E & -> & ->). eexists. split; [exact E|]. unfold link_status, pending, lost.
  destruct (decide (to_ourselves o f l n)); [|destruct (nhdp_hysteresis_is_pending s k), (nhdp_hysteresis_is_lost s k), (is_active (timers s) Sym_time k),
    (is_active (timers s) Heard_time k)]; unfold NHDP_LINK_PENDING, NHDP_LINK_SYMMETRIC, NHDP_LINK_HEARD, NHDP_LINK_LOST; intuition discriminate.
Qed.

(** C13: An update stores the status that the rules give and what follows from it: the
    counter of the neighbor counts the link exactly while it is symmetric, a link that
    is not symmetric any more loses its two-hop neighbors, and no other link
    changes. *)
Theorem status_update_effect s k l i f n o : reachable s -> links s !! k = Some l -> local_if l = Some i -> ifs s !! i = Some f -> neighs s !! l_neigh l = Some n ->
  nhdp_get_originator s (na_type (if_addr l)) = Some o ->
  let st := link_status (marked k l s) k o f l n in
  exists s', update_status k s = Def (tt, s') /\ consistent ∅ s' /\
    (exists l', links s' !! k = Some l' /\ status l' = st /\ last_status l' = status l /\ l_neigh l' = l_neigh l) /\
    (forall x, x <> k -> links s' !! x = links s !! x) /\
    (forall m, symmetric <$> neighs s' !! m = (fun y => symmetric y + (if decide (m = l_neigh l) then gain (status l) st else 0)) <$> neighs s !! m) /\
    (forall p, is_Some (l2hops s' !! p) <-> exists a, l2hops s !! p = Some a /\ (status l = NHDP_LINK_SYMMETRIC -> st <> NHDP_LINK_SYMMETRIC -> l2_link a <> k)).
Proof.
  intros H Hl Hi Hf Hn Ho st. pose proof (reachable_consistent _ _ H) as HC. destruct (link_at _ _ ∅ s k l HC Hl) as (i' & f' & n' & F).
  assert (link_facts s l i f n) as F' by (destruct F as [F1 F2 F3 F4 F5]; assert (i' = i) as -> by congruence; assert (f' = f) as -> by congruence;
    assert (n' = n) as -> by congruence; by split).
  assert (wp (update_status k) s (fun _ s' => consistent ∅ s' /\ status_updated k l st s s')) as W.
  { rule update_status_wp; [exact HC|by eapply reachable_interfaces|exact Hl|exact F'|exact Ho|by split]. }
  destruct (wp_run _ _ _ W) as ([] & s' & E & G & [_ [t L] N D _ _]). exists s'. split; [exact E|]. split; [exact G|]. split; [|split; [|split]].
  - eexists. rewrite L. split; [apply lookup_insert_eq|done].
  - intros x Hx. by rewrite L, lookup_insert_ne.
  - intros m. specialize (N m). unfold counted in N. destruct (decide (m = l_neigh l)) as [->|Hm].
    + rewrite lookup_alter_eq in N. destruct (neighs s' !! l_neigh l), (neighs s !! l_neigh l); try done. injection N as _ N. simpl. by rewrite N.
    + rewrite lookup_alter_ne in N by done. destruct (neighs s' !! m), (neighs s !! m); try done. injection N as _ N. simpl. by rewrite N, Z.add_0_r.
  - intros p. specialize (D p). unfold is_symmetric in D. split.
    + intros [a Ha]. rewrite Ha in D. destruct (proj1 (D _) eq_refl) as [Ea Hk]. destruct (l2hops s !! p) as [b|] eqn:Eb; [|done]. injection Ea as E1 E2 E3.
      exists b. split; [done|]. intros Es Ens. simpl in Hk. rewrite E3. apply Hk. rewrite Es. simpl. by apply negb_true_iff, Z.eqb_neq.
    + intros (a & Ha & Hk). rewrite Ha in D. assert (with_t_data [] <$> l2hops s' !! p = Some (with_t_data [] a)) as E'.
      { apply D. split; [done|]. intros [Es Ens]%andb_true_iff. apply Z.eqb_eq in Es. apply negb_true_iff, Z.eqb_neq in Ens. simpl. by apply Hk. }
      destruct (l2hops s' !! p); [by eexists|done].
Qed.

(** C21: The recalculation gives a neighbor the least incoming and outgoing metric of
    its symmetric links, and the best link is a symmetric one of this neighbor that has
    the outgoing metric; without a link of finite metric the outgoing metric is
    infinite. Nothing else of the neighbor changes. A new outgoing metric of a best
    link is recorded and reported. Without a best link the recorded metric stays as it
    was, and for a neighbor without symmetric link nothing is reported: the loss of
    its last link is a change that the code does not return, although its comment
    promises that for every change of the metric. *)
Theorem neighbor_metric_least s i n x : reachable s -> neighs s !! n = Some x -> (i < NHDP_MAXIMUM_DOMAINS)%nat ->
  let metrics f := fun z => exists k l d, links s !! k = Some l /\ l_neigh l = n /\ status l = NHDP_LINK_SYMMETRIC /\ l_domaindata l !! i = Some d /\ z = f (ld_metric d) in
  exists b s' nd nd', _recalculate_neighbor_metric i n s = Def (b, s') /\ neigh_data s i n = Some nd /\ neigh_data s' i n = Some nd' /\ data_rest nd' = data_rest nd /\
    links s' = links s /\ (forall q j, (q, j) <> (n, i) -> neigh_data s' j q = neigh_data s j q) /\
    (forall z, metrics m_out z -> m_out (nd_metric nd') <= z) /\ (forall z, metrics m_in z -> m_in (nd_metric nd') <= z) /\
    (metrics m_in (m_in (nd_metric nd')) \/ m_in (nd_metric nd') = RFC7181_METRIC_INFINITE) /\
    match best_out_link nd' with
    | None => m_out (nd_metric nd') = RFC7181_METRIC_INFINITE /\ best_out_link_metric nd' = best_out_link_metric nd /\
        (~ (exists z, metrics m_out z) -> b = false)
    | Some k => m_out (nd_metric nd') < RFC7181_METRIC_INFINITE /\ best_out_link_metric nd' = m_out (nd_metric nd') /\ ifindex_of s k = Some (best_link_ifindex nd') /\
        (best_out_link_metric nd <> m_out (nd_metric nd') -> b = true) /\
        exists l d, links s !! k = Some l /\ l_neigh l = n /\ status l = NHDP_LINK_SYMMETRIC /\ l_domaindata l !! i = Some d /\ m_out (ld_metric d) = m_out (nd_metric nd')
    end.
Proof.
  intros H Hx Hi metrics. pose proof (reachable_consistent _ _ H) as HC.
  assert (wp (_recalculate_neighbor_metric i n) s (fun b s' => exists ls nd nd', trees s !! Neigh_links n = Some ls /\ neigh_data s i n = Some nd /\
    walking s i n s' nd' /\ recalculated s i n ls nd nd' b)) as W.
  { eapply neighbor_metric_wp; [exact HC|by intros t y ?%elem_of_empty|exact Hx|exact Hi|]. intros ls nd nd' b s' ? ? ? ?. by exists ls, nd, nd'. }
  destruct (wp_run _ _ _ W) as (b & s' & E & ls & nd & nd' & Els & End & [M D O] & [[B1 B2 B3 B4] R Rec Ifi Ch Un]).
  assert (forall k m, k ∈ ls /\ symmetric_metric s i k = Some m <-> exists l d, links s !! k = Some l /\ l_neigh l = n /\ status l = NHDP_LINK_SYMMETRIC /\ l_domaindata l !! i = Some d /\ m = ld_metric d) as Hk.
  { intros k m. rewrite (pl_mem (co_placed HC) _ _ _ Els). unfold at_home, symmetric_metric. simpl. rewrite lookup_fmap. destruct (links s !! k) as [l|]; simpl.
    - destruct (Z.eqb_spec (status l) NHDP_LINK_SYMMETRIC) as [Es|Es]; [|naive_solver]. destruct (l_domaindata l !! i) as [d|] eqn:Ed; simpl; [|naive_solver]. split.
      + intros [[(v & [= <-] & Hv) _] [= <-]]. by exists l, d.
      + intros (l' & d' & [= <-] & En & _ & Ed' & ->). rewrite Ed in Ed'. injection Ed' as <-. split; [split; [by exists (view_link l)|set_solver]|done].
    - split; [intros [[(? & ? & _) _] _]; done|intros (? & ? & ? & _); done]. }
  assert (forall f z, z ∈ f <$> omap (symmetric_metric s i) ls <-> metrics f z) as Hin.
  { intros f z. rewrite list_elem_of_fmap. setoid_rewrite list_elem_of_omap. unfold metrics. split.
    - intros (m & -> & k & Hkm). apply Hk in Hkm as (l & d & ? & ? & ? & ? & ->). by exists k, l, d.
    - intros (k & l & d & ? & ? & ? & ? & ->). exists (ld_metric d). split; [done|]. exists k. apply Hk. by exists l, d. }
  exists b, s', nd, nd'. do 4 (split; [done|]). split; [apply (metrics_fields _ _ M)|]. split; [exact O|]. rewrite B1, B2. split; [|split; [|split]].
  - intros z Hz. apply least_le. by apply Hin.
  - intros z Hz. apply least_le. by apply Hin.
  - destruct (least_in m_in s i ls) as [Hl|Hl]; [by right|left]. by apply Hin.
  - destruct (best_out_link nd') as [k|]; [|split; [rewrite <- B1; by apply B4|]; split; [exact Rec|]].
    2: { intros Hno. apply Un. intros k Hk'. destruct (symmetric_metric s i k) as [m|] eqn:Em; [|done]. destruct Hno. exists (m_out m).
      destruct (proj1 (Hk k m) (conj Hk' Em)) as (l & d & ? & ? & ? & ? & ->). by exists k, l, d. } destruct (B3 k eq_refl) as (Hkls & Hlt & m & Hm & Em).
    split; [congruence|]. split; [congruence|]. split; [by apply Ifi|]. split; [rewrite <- B1; by eapply Ch|].
    destruct (proj1 (Hk k m) (conj Hkls Hm)) as (l & d & ? & ? & ? & ? & ->). exists l, d. split_and!; congruence.
Qed.

Lemma counts_some s j ks : Z.of_nat (length ks) < 2 ^ 32 -> (0 <? u32 (count_kind s j ks)) = true <-> exists k, k ∈ ks /\ kind_of s k = Some j.
Proof.
  intros Hlen. unfold count_kind. pose proof (length_filter (fun k => kind_of s k = Some j) ks) as Hle. rewrite u32_small by (change 4294967296 with (2 ^ 32); lia).
  rewrite Z.ltb_lt. destruct (filter (fun k => kind_of s k = Some j) ks) as [|q l] eqn:E.
  - simpl. split; [lia|]. intros (k & Hk & Hj). assert (k ∈ @nil ptr) as []%elem_of_nil. rewrite <- E. by apply list_elem_of_filter.
  - simpl. split; [intros _|lia]. assert (q ∈ filter (fun k => kind_of s k = Some j) ks) as [? ?]%list_elem_of_filter by (rewrite E; left). by exists q.
Qed.

Lemma counts_none s j ks : Z.of_nat (length ks) < 2 ^ 32 -> (u32 (count_kind s j ks) =? 0) = negb (0 <? u32 (count_kind s j ks)).
Proof. intros _. pose proof (u32_range (count_kind s j ks)). destruct (Z.eqb_spec (u32 (count_kind s j ks)) 0), (Z.ltb_spec 0 (u32 (count_kind s j ks))); simpl; lia. Qed.

(** C23: An interface floods over IPv4 exactly if it has a symmetric link without
    dualstack partner to a neighbor with an IPv4 originator. It floods over IPv6 if
    there is such a link to a neighbor with an IPv6 originator, or no IPv4-only one
    but a dualstack link; the family for dualstack neighbors is the one that is in use
    anyway, unspecified when both are or no link is dualstack. The counters of the loop
    do not overflow below 2^32 links. *)
Theorem interface_flooding_flags s i f ks : reachable s -> ifs s !! i = Some f -> trees s !! If_links i = Some ks -> Z.of_nat (length ks) < 2 ^ 32 ->
  let some_link j := exists k l, links s !! k = Some l /\ local_if l = Some i /\ kind_of s k = Some j in
  exists f', nhdp_interface_update_status i s = Def (tt, set_ifs <[i := f']> s) /\ if_rest f' = if_rest f /\
    (use_ipv4_for_flooding f' = true <-> some_link Ipv4_only) /\
    (use_ipv6_for_flooding f' = true <-> some_link Ipv6_only \/ (~ some_link Ipv4_only /\ some_link Dualstack)) /\
    (dualstack_af_type f' = AF_INET6 <-> some_link Dualstack /\ ~ some_link Ipv4_only) /\
    (dualstack_af_type f' = AF_INET <-> some_link Dualstack /\ some_link Ipv4_only /\ ~ some_link Ipv6_only).
Proof.
  intros H Hf Eks Hlen some_link. pose proof (reachable_consistent _ _ H) as HC.
  assert (forall j, some_link j <-> exists k, k ∈ ks /\ kind_of s k = Some j) as Hs.
  { intros j. unfold some_link. split.
    - intros (k & l & Hl & Hi & Hj). exists k. split; [|done]. apply (pl_mem (co_placed HC) _ _ _ Eks). split; [|set_solver].
      exists (view_link l). split; [by apply shape_links|done].
    - intros (k & Hk & Hj). apply (pl_mem (co_placed HC) _ _ _ Eks) in Hk as [(v & Hv & Hi) _]. simpl in Hv. rewrite lookup_fmap in Hv.
      destruct (links s !! k) as [l|] eqn:El; [|done]. injection Hv as <-. by exists k, l. }
  assert (wp (nhdp_interface_update_status i) s (fun _ s' => s' = set_ifs <[i := flooding_of s ks f]> s)) as W.
  { rule interface_status_wp; [exact HC|by intros t y ?%elem_of_empty|exact Hf|]. intros ks' Eks' _. congruence. }
  destruct (wp_run _ _ _ W) as ([] & s' & E & ->). exists (flooding_of s ks f). split; [exact E|]. split; [done|].
  rewrite !Hs. pose proof (fun j => counts_some s j ks Hlen) as Hc. rewrite <- !Hc. unfold flooding_of. simpl. rewrite !counts_none by done.
  destruct (0 <? u32 (count_kind s Ipv4_only ks)), (0 <? u32 (count_kind s Ipv6_only ks)), (0 <? u32 (count_kind s Dualstack ks)); simpl;
    unfold AF_INET, AF_INET6, AF_UNSPEC; intuition discriminate.
Qed.

(** C39: [nhdp_db_link_set_unsymmetric] counts a symmetric link out but leaves its
    status SYMMETRIC: the next update of the status, which finds the symmetry timer
    stopped, counts the link out a second time. The counter of the neighbor has
    lost two for one link. *)
Theorem unsymmetric_counted_twice s k l i f n o : reachable s -> links s !! k = Some l -> local_if l = Some i -> ifs s !! i = Some f -> neighs s !! l_neigh l = Some n ->
  nhdp_get_originator s (na_type (if_addr l)) = Some o -> status l = NHDP_LINK_SYMMETRIC ->
  exists s1 s2, nhdp_db_link_set_unsymmetric os_core_get_random k s = Def (tt, s1) /\ (status <$> links s1 !! k) = Some NHDP_LINK_SYMMETRIC /\
    update_status k s1 = Def (tt, s2) /\ (symmetric <$> neighs s2 !! l_neigh l) = Some (symmetric n - 2).
Proof.
  intros H Hl Hi Hf Hn Ho Hs. pose proof (reachable_consistent _ _ H) as HC. pose proof (reachable_interfaces _ _ H) as HI. destruct (link_at _ _ ∅ s k l HC Hl) as (i' & f' & n' & F).
  assert (link_facts s l i f n) as F' by (destruct F as [F1 F2 F3 F4 F5]; assert (i' = i) as -> by congruence; assert (f' = f) as -> by congruence;
    assert (n' = n) as -> by congruence; by split).
  assert (is_symmetric (status l) = true) as Es by (by rewrite Hs).
  assert (wp (nhdp_db_link_set_unsymmetric os_core_get_random k) s (fun _ s' => consistent ∅ s' /\ set_unsymmetric k l s s')) as W.
  { rule set_unsymmetric_wp; [exact HC|exact Hl|exact F'|by apply (HI i f)|by split]. }
  destruct (wp_run _ _ _ W) as ([] & s1 & E1 & G1 & [FR [t L1] N1 _ _ A1]). exists s1. set (l1 := with_status_change t l).
  assert (links s1 !! k = Some l1) as Hl1 by (rewrite L1; apply lookup_insert_eq).
  assert (neighs s1 !! l_neigh l = Some (with_symmetric (fun z => z + -1) n)) as Hn1 by (rewrite N1, Es; unfold counted; by rewrite lookup_alter_eq, Hn).
  assert (ifs s1 = ifs s) as Ei by (apply (proj1 FR F_ifs); fields).
  assert (link_facts s1 l1 i f (with_symmetric (fun z => z + -1) n)) as F1 by (split; [done|by rewrite Ei|exact Hn1|apply F'|apply F']).
  assert (nhdp_get_originator s1 (na_type (if_addr l1)) = Some o) as Ho1 by (unfold nhdp_get_originator in *; destruct FR as [_ [-> ->]]; exact Ho).
  set (st := link_status (marked k l1 s1) k o f l1 (with_symmetric (fun z => z + -1) n)).
  assert (wp (update_status k) s1 (fun _ s' => consistent ∅ s' /\ status_updated k l1 st s1 s')) as W2.
  { rule update_status_wp; [exact G1|intros j fj; rewrite Ei; apply HI|exact Hl1|exact F1|exact Ho1|by split]. }
  destruct (wp_run _ _ _ W2) as ([] & s2 & E2 & _ & U). exists s2. split; [exact E1|]. split; [rewrite Hl1; simpl; by rewrite Hs|]. split; [exact E2|].
  assert (is_symmetric st = false) as Ens.
  { unfold st, link_status. destruct (decide _); [done|]. destruct (nhdp_hysteresis_is_pending _ _); [done|]. destruct (nhdp_hysteresis_is_lost _ _); [done|].
    change (timers (marked k l1 s1)) with (timers s1). rewrite A1. by destruct (is_active _ Heard_time k). }
  pose proof (su_neighs _ _ _ _ _ U (l_neigh l)) as N2. simpl in N2. unfold counted in N2. rewrite lookup_alter_eq, Hn1 in N2. unfold gain in N2. rewrite Ens, Es in N2.
  destruct (neighs s2 !! l_neigh l) as [n2|]; [|done]. injection N2 as _ N2. simpl in *. rewrite N2. f_equal. lia.
Qed.
End database.

(** * An example: two neighbors over one interface *)

Section example.
Definition db_info (k : timer_kind) : positive :=
  match k with Lost_vtime => 1 | Sym_time => 2 | Heard_time => 3 | Link_vtime => 4 | L2hop_vtime => 5 end.
Definition db_class : timer_class := {| periodic := false; _stat_usage := 0; _stat_changes := 0; _stat_fired := 0; _stat_long := 0;
  _timer_in_callback := None; _timer_stopped := false |}.
Definition db_timers : timer_state := {| instances := ∅; classes := list_to_map ((fun c => (c, db_class)) <$> [1; 2; 3; 4; 5]%positive);
  _timer_info_list := [1; 2; 3; 4; 5]%positive; _timer_tree := []; now_times := 5000; start_time := 0; random_calls := 0; gettime_calls := 0 |}.
Definition db_if : nhdp_interface := {| if_index := 7; if_mac := no_addr; l_hold_time := 20000; n_hold_time := 20000; _if_addresses := [addr4 10 0 0 9 32];
  use_ipv4_for_flooding := false; use_ipv6_for_flooding := false; dualstack_af_type := 0 |}.
Definition db_metric : nhdp_domain_metric := {| mt_name := "demo"%string; incoming_link_start := 3000; outgoing_link_start := 2000; incoming_2hop_start := 0; outgoing_2hop_start := 0;
  no_default_handling := true; mt_enable := false; mt_disable := false; mt_refcount := 0 |}.
Definition db_registry : registry := match (nhdp_domain_metric_add 2 ;;; nhdp_domain_configure true 0 "demo"%string "-"%string 7 ;;; ret tt) (nhdp_domain_init {[2%positive := db_metric]} ∅) with
  | Def (_, r) => r | Undef _ => nhdp_domain_init ∅ ∅ end.
Definition db_start : nhdp_db := nhdp_db_init {[9%positive := db_if]} (addr4 10 0 0 9 32) no_addr db_registry db_timers.
Definition db_malloc (in_use : gset ptr) (_ : nat) : option ptr := Some (base.fresh in_use).

Lemma db_malloc_fresh in_use k p : db_malloc in_use k = Some p -> p ∉ in_use.
Proof. intros [= <-]. apply is_fresh. Qed.

#[local] Notation db_run := (run demo_random db_info db_malloc (fun _ _ => false) (fun _ _ => false)).
#[local] Notation db_history := (history demo_random 1000000 db_info db_malloc (fun _ _ => false) (fun _ _ => false)).
#[local] Notation db_allowed := (allowed 1000000).

(** Requests that are allowed, for those of the example. *)
Definition allowed_now (s : nhdp_db) (r : request) : bool :=
  let ready k := match links s !! k with Some l => bool_decide (is_Some (nhdp_get_originator s (na_type (if_addr l)))) | None => false end in
  let timed t := (0 <=? t) && (t <=? 1000000) in
  match r with
  | Neighbor_add => true
  | Neighbor_remove n | Neighbor_set_originator n _ => bool_decide (is_Some (neighs s !! n))
  | Naddr_add n a => bool_decide (is_Some (neighs s !! n)) && negb (bool_decide (map_Exists (fun _ x => neigh_addr x = a) (naddrs s)))
  | Link_add n i => bool_decide (is_Some (neighs s !! n)) && bool_decide (is_Some (ifs s !! i))
  | Link_remove k | Link_if_addr k _ | Link_set_unsymmetric k => bool_decide (is_Some (links s !! k))
  | Link_connect a b => bool_decide (is_Some (links s !! a)) && bool_decide (is_Some (links s !! b))
  | Link_set_symtime k t => ready k && timed t
  | Link_set_heardtime k t => bool_decide (is_Some (links s !! k)) && timed t
  | Laddr_add k a => match links s !! k with
      | Some l => match local_if l with
          | Some i => negb (bool_decide (map_Exists (fun _ x => link_addr x = a) (laddrs s)))
          | None => false end
      | None => false end
  | L2hop_add k a => bool_decide (is_Some (links s !! k)) && negb (bool_decide (map_Exists (fun _ x => twohop_addr x = a /\ l2_link x = k) (l2hops s)))
  | _ => false
  end.

Lemma allowed_now_ok s r : allowed_now s r = true -> db_allowed s r.
Proof.
  assert (forall k, match links s !! k with Some l => bool_decide (is_Some (nhdp_get_originator s (na_type (if_addr l)))) | None => false end = true -> ready s k) as Hready.
  { intros k. destruct (links s !! k) as [l|] eqn:El; [|done]. intros [o Ho]%bool_decide_eq_true. by exists l, o. }
  destruct r; simpl; try done; intros Hr.
  1,2,5,7,8: by apply bool_decide_eq_true in Hr.
  - apply andb_true_iff in Hr as [Hn Hno]. apply bool_decide_eq_true in Hn. apply negb_true_iff, bool_decide_eq_false in Hno.
    split; [done|]. intros (p & x & Hx & Ha). apply Hno. by exists p, x.
  - apply andb_true_iff in Hr as [Hn Hi]. by apply bool_decide_eq_true in Hn, Hi.
  - apply andb_true_iff in Hr as [Hn Hi]. by apply bool_decide_eq_true in Hn, Hi.
  - apply andb_true_iff in Hr as [Hk Ht]. apply bool_decide_eq_true in Hk. split; [done|]. unfold valid_time. lia.
  - apply andb_true_iff in Hr as [Hk Ht]. split; [by apply Hready|]. unfold valid_time. lia.
  - destruct (links s !! k) as [l|]; [|done]. destruct (local_if l) as [i|] eqn:Ei; [|done]. apply negb_true_iff, bool_decide_eq_false in Hr.
    exists l, i. split_and!; try done. intros (p & x & _ & Hx & Ha & _). apply Hr. by exists p, x.
  - apply andb_true_iff in Hr as [Hn Hno]. apply bool_decide_eq_true in Hn. apply negb_true_iff, bool_decide_eq_false in Hno.
    split; [done|]. intros (p & x & Hx & Ha). apply Hno. by exists p, x.
Qed.

Fixpoint play (check : request -> bool) (rs : list request) (s : nhdp_db) : option nhdp_db :=
  match rs with
  | [] => Some s
  | r :: rs => if check r && allowed_now s r then match db_run r s with Def (_, s') => play check rs s' | Undef _ => None end else None
  end.

Lemma play_history P check rs s s' : (forall s r, check r = true -> P s r) -> db_history P s -> play check rs s = Some s' -> db_history P s'.
Proof.
  intros HP. revert s. induction rs as [|r rs IH]; intros s H; simpl; [by intros [= <-]|]. destruct (check r && allowed_now s r) eqn:Ea; [|done].
  apply andb_true_iff in Ea as [Hc Ea].
  destruct (db_run r s) as [[[] s1]|] eqn:E; [|done]. apply IH. eapply history_request; [exact H|by apply allowed_now_ok|by apply HP|exact E].
Qed.

Lemma db_start_history P : db_history P db_start.
Proof.
  apply history_init.
  - split.
    + split; simpl; try done; try lia; [constructor|constructor|..].
      * intros t. split; [by intros ?%elem_of_nil|]. by intros [_ (i & Hi & _)].
      * intros c k Hk. change (classes db_timers !! c = Some k) in Hk. apply elem_of_list_to_map_2, list_elem_of_fmap in Hk as (c' & [= _ ->] & _). done.
    + intros []; eexists; (split; [vm_compute; reflexivity|done]).
    + intros k p i Hi. simpl in Hi. by rewrite lookup_empty in Hi.
    + by intros.
    + intros p i Hi. simpl in Hi. by rewrite lookup_empty in Hi.
  - vm_compute. repeat constructor; eauto.
  - intros i f. simpl. intros [<- <-]%lookup_singleton_Some. split; [simpl; lia|]. simpl. repeat constructor.
Qed.

(** Two neighbors with a symmetric link each, and a two-hop neighbor behind both. *)
Definition db_router (n : positive) (a : netaddr) : list request :=
  [Neighbor_add; Neighbor_set_originator n a; Naddr_add n a; Link_add n 9; Link_if_addr n a; Laddr_add n a;
   Link_set_heardtime n 6000; Link_set_symtime n 6000; L2hop_add n (addr4 10 0 0 3 32)].
Definition db_requests : list request := db_router 1 (addr4 10 0 0 1 32) ++ db_router 2 (addr4 10 0 0 2 32).
Definition no_unsymmetric (r : request) : bool := match r with Link_remove _ | Link_set_unsymmetric _ => false | _ => true end.
Definition db_now : nhdp_db := Eval vm_compute in match play no_unsymmetric db_requests db_start with Some s => s | None => db_start end.

Lemma db_now_counted : db_history counted_request db_now.
Proof.
  apply (play_history counted_request no_unsymmetric db_requests db_start); [|apply db_start_history|vm_compute; reflexivity].
  by intros s [] ?.
Qed.
Lemma db_now_history : db_history (fun _ _ => True) db_now.
Proof. apply (play_history _ no_unsymmetric db_requests db_start); [done|apply db_start_history|vm_compute; reflexivity]. Qed.

#[local] Notation applied t := (t demo_random demo_random_u32 1000000 ltac:(lia) db_info db_malloc db_malloc_fresh (fun _ _ => false) (fun _ _ => false) db_now) (only parsing).

Lemma nhdp_requests_safe_witness : exists s', db_run (Neighbor_remove 1) db_now = Def (tt, s') /\ consistent 1000000 db_info ∅ s'.
Proof.
  destruct (applied nhdp_requests_safe (Neighbor_remove 1) db_now_history) as (s' & E & _ & G); [by eexists|]. exists s'. split; [exact E|exact G].
Defined.

Lemma symmetric_counter_witness : exists x, neighs db_now !! 1%positive = Some x /\ symmetric x = 1 /\
  size (filter (fun kl => l_neigh kl.2 = 1%positive /\ status kl.2 = NHDP_LINK_SYMMETRIC) (links db_now)) = 1%nat.
Proof.
  eexists. split; [reflexivity|]. split; [reflexivity|].
  apply Nat2Z.inj. exact (eq_sym (applied symmetric_counter 1%positive _ db_now_counted eq_refl)).
Defined.

Lemma link_remove_exact_witness : exists s', nhdp_db_link_remove 1 db_now = Def (tt, s') /\ links s' !! 1%positive = None /\
  links s' !! 2%positive = links db_now !! 2%positive /\ laddrs s' !! 1%positive = None /\ laddrs s' !! 2%positive = laddrs db_now !! 2%positive.
Proof.
  destruct (applied link_remove_exact 1%positive _ db_now_history eq_refl) as (s' & E & _ & L & O & A & _ & _).
  exists s'. split; [exact E|]. split; [exact L|]. split; [by rewrite O|]. split.
  - apply eq_None_not_Some. intros [a Ha]. apply A in Ha as [Ha Hn]. apply Hn. by injection Ha as <-.
  - apply (A 2%positive). by split.
Defined.

Lemma neighbor_remove_exact_witness : exists s', nhdp_db_neighbor_remove 1 db_now = Def (tt, s') /\ neighs s' !! 1%positive = None /\
  naddrs s' !! 1%positive = None /\ naddrs s' !! 2%positive = naddrs db_now !! 2%positive /\ l2hops s' !! 1%positive = None /\ l2hops s' !! 2%positive = l2hops db_now !! 2%positive.
Proof.
  destruct (applied neighbor_remove_exact 1%positive _ db_now_history eq_refl) as (s' & E & _ & N & A & _ & _ & T).
  exists s'. split; [exact E|]. split; [specialize (N 1%positive); by destruct (neighs s' !! 1%positive)|]. split; [|split; [|split]].
  - apply eq_None_not_Some. intros [a Ha]. apply A in Ha as [Ha Hn]. apply Hn. by injection Ha as <-.
  - apply (A 2%positive). by split.
  - apply eq_None_not_Some. intros [a Ha]. apply T in Ha as [Ha Hn]. injection Ha as <-. by eapply Hn.
  - apply (T 2%positive). split; [done|]. intros l Hl. by injection Hl as <-.
Defined.

Lemma nhdp_lookups_exact_witness : nhdp_db_neighbor_addr_get (addr4 10 0 0 2 32) db_now = Def (Some 2%positive, db_now) /\
  nhdp_db_neighbor_addr_get (addr4 10 0 0 3 32) db_now = Def (None, db_now).
Proof.
  destruct (applied nhdp_lookups_exact (addr4 10 0 0 2 32) db_now_history) as [(o & E & Ho) _].
  destruct (applied nhdp_lookups_exact (addr4 10 0 0 3 32) db_now_history) as [(o' & E' & Ho') _]. split.
  - rewrite E. do 2 f_equal. apply Ho. by eexists.
  - destruct o' as [p|]; [vm_compute in E'; discriminate E'|exact E'].
Defined.

Lemma originator_exclusive_witness : exists s', nhdp_db_neighbor_set_originator 2 (addr4 10 0 0 1 32) db_now = Def (tt, s') /\
  originator_of s' 1 = no_addr /\ originator_of s' 2 = addr4 10 0 0 1 32 /\ nhdp_db_neighbor_get_by_originator (addr4 10 0 0 1 32) s' = Def (Some 2%positive, s').
Proof.
  destruct (applied originator_exclusive 2%positive _ (addr4 10 0 0 1 32) db_now_history eq_refl eq_refl) as (s' & E & _ & G & O).
  exists s'. split; [exact E|]. split; [|split; [|exact G]].
  - rewrite (O 1%positive _ eq_refl). reflexivity.
  - rewrite (O 2%positive _ eq_refl). reflexivity.
Defined.

Lemma link_status_rules_witness : exists st, _nhdp_db_link_calculate_status (fun _ _ => false) (fun _ _ => false) 1 db_now = Def (st, db_now) /\ st = NHDP_LINK_SYMMETRIC.
Proof.
  destruct (applied link_status_rules 1%positive _ 9%positive _ _ (addr4 10 0 0 9 32) db_now_history eq_refl eq_refl eq_refl eq_refl eq_refl) as (st & E & _ & S & _).
  exists st. split; [exact E|]. apply S. split; [|by split]. intros [H|H]; [|done].
  match type of H with ?P => assert (bool_decide P = true) as Hb by (by apply bool_decide_eq_true_2); vm_compute in Hb; discriminate Hb end.
Defined.

Lemma status_update_effect_witness : exists s', nhdp_db_link_update_status demo_random (fun _ _ => false) (fun _ _ => false) 1 db_now = Def (tt, s') /\
  (exists l', links s' !! 1%positive = Some l' /\ status l' = NHDP_LINK_SYMMETRIC) /\ links s' !! 2%positive = links db_now !! 2%positive /\
  symmetric <$> neighs s' !! 1%positive = Some 1.
Proof.
  destruct (applied status_update_effect 1%positive _ 9%positive _ _ (addr4 10 0 0 9 32) db_now_history eq_refl eq_refl eq_refl eq_refl eq_refl) as (s' & E & _ & (l' & L & S & _) & O & N & _).
  exists s'. split; [exact E|]. split; [|split; [by apply O|]].
  - exists l'. split; [exact L|]. rewrite S. vm_compute. reflexivity.
  - rewrite N. vm_compute. reflexivity.
Defined.

Lemma neighbor_metric_least_witness : exists b s' nd', _recalculate_neighbor_metric 0 1 db_now = Def (b, s') /\ neigh_data s' 0 1 = Some nd' /\
  m_out (nd_metric nd') <= 2000 /\ best_out_link nd' = Some 1%positive.
Proof.
  destruct (applied neighbor_metric_least 0%nat 1%positive _ db_now_history eq_refl ltac:(unfold NHDP_MAXIMUM_DOMAINS; lia)) as (b & s' & nd & nd' & E & _ & N & _ & _ & _ & M & _ & _ & B).
  exists b, s', nd'. split; [exact E|]. split; [exact N|].
  assert (m_out (nd_metric nd') <= 2000) as Hm by (apply M; by eexists 1%positive, _, _).
  split; [exact Hm|]. destruct (best_out_link nd') as [k|]; [|destruct B as [B _]; rewrite B in Hm; by unfold RFC7181_METRIC_INFINITE in Hm].
  destruct B as (_ & _ & _ & _ & l & d & Hl & Hn & _). f_equal. destruct (decide (k = 1%positive)) as [->|H1]; [done|]. destruct (decide (k = 2%positive)) as [->|H2]; [by injection Hl as <-|].
  exfalso. assert (k ∈ dom (links db_now)) as Hk by (apply elem_of_dom; by exists l).
  change (dom (links db_now)) with ({[1; 2]} : gset positive)%positive in Hk. set_solver.
Defined.

Lemma interface_flooding_flags_witness : exists f', nhdp_interface_update_status 9 db_now = Def (tt, set_ifs <[9%positive := f']> db_now) /\ use_ipv4_for_flooding f' = true.
Proof.
  destruct (applied interface_flooding_flags 9%positive _ _ db_now_history eq_refl eq_refl ltac:(vm_compute; reflexivity)) as (f' & E & _ & F & _).
  exists f'. split; [exact E|]. apply F. by eexists 1%positive, _.
Defined.

Lemma unsymmetric_counted_twice_witness : exists s1 s2, nhdp_db_link_set_unsymmetric demo_random 1 db_now = Def (tt, s1) /\
  nhdp_db_link_update_status demo_random (fun _ _ => false) (fun _ _ => false) 1 s1 = Def (tt, s2) /\ symmetric <$> neighs s2 !! 1%positive = Some (-1).
Proof.
  destruct (applied unsymmetric_counted_twice 1%positive _ 9%positive _ _ (addr4 10 0 0 9 32) db_now_history eq_refl eq_refl eq_refl eq_refl eq_refl eq_refl) as (s1 & s2 & E1 & _ & E2 & N).
  exists s1, s2. split; [exact E1|]. split; [exact E2|exact N].
Defined.
End example.
