(* ===== verification/MprFlooding.v ===== *)
(** Flooding MPRs: src/nhdp/mpr/neighbor-graph-flooding.c and the flooding part
    of src/nhdp/mpr/mpr.c. *)

From Stdlib Require Import ZArith Lia Sorted.
From stdpp Require Import base list numbers option gmap sets.
From S2P Require Import Prelude AvlSpec Netaddr MprSelection NhdpDb.

Local Open Scope Z_scope.
Local Open Scope cint_scope.

Section flooding.
Context (db : nhdp_db) (dom : nat).

(** ** The costs *)

(** [x->link] *)
Definition x_link (x : n1_node) : outcome nhdp_link :=
  match n1_link x with None => Undef UB_null | Some l => get_link db l end.

Definition _is_reachable_link_tuple (i : nat) (lnk : nhdp_link) : outcome bool :=
  linkdata ← nhdp_domain_get_linkdata dom lnk;
  Def (bool_decide (local_if lnk = i) && (m_out linkdata <=? RFC7181_METRIC_MAX) && (status lnk =? NHDP_LINK_SYMMETRIC)).

Definition _is_allowed_link_tuple (i : nat) (lnk : nhdp_link) : outcome bool :=
  r ← _is_reachable_link_tuple i lnk;
  Def (r && (RFC7181_WILLINGNESS_NEVER <? flooding_willingness lnk)).

Definition _is_allowed_2hop_tuple (i : nat) (two_hop : nhdp_l2hop) : outcome bool :=
  twohopdata ← nhdp_domain_get_l2hopdata dom two_hop;
  lnk ← get_link db (l2_link two_hop);
  Def (bool_decide (local_if lnk = i) && (m_out twohopdata <=? RFC7181_METRIC_MAX)).

Definition _calculate_d1_x (x : n1_node) : outcome Z :=
  lnk ← x_link x; linkdata ← nhdp_domain_get_linkdata dom lnk; Def (m_out linkdata).

Definition _calculate_d2_x_y (x : n1_node) (y : netaddr) : outcome Z :=
  lnk ← x_link x;
  match tree_find twohop_addr avl_comp_netaddr y (_2hop lnk) with
  | Some tmp_l2hop => twohopdata ← nhdp_domain_get_l2hopdata dom tmp_l2hop; Def (m_out twohopdata)
  | None => Def RFC7181_METRIC_INFINITE
  end.

Fixpoint _calculate_d1_x_of_n2_addr (n1 : list n1_node) (addr : netaddr) : outcome Z :=
  match n1 with
  | [] => Def RFC7181_METRIC_INFINITE
  | x :: n1 =>
      neigh ← get_neigh db (n1_neigh x);
      match tree_find id avl_comp_netaddr addr (_neigh_addresses neigh) with
      | Some _ => _calculate_d1_x x
      | None => _calculate_d1_x_of_n2_addr n1 addr
      end
  end.

Definition _get_willingness_n1 (x : n1_node) : outcome Z := lnk ← x_link x; Def (flooding_willingness lnk).

(** The callbacks of the graph. The two pointers are read in links that the
    selection has read before. *)
Definition _api_interface : neighbor_graph_interface := {|
  originator_of n := match _neigh_list db !! n with Some neigh => originator neigh | None => NETADDR_UNSPEC end;
  neigh_of_link l := match _link_list db !! l with Some lnk => l_neigh lnk | None => 0%nat end;
  calculate_d1_x_of_n2_addr := _calculate_d1_x_of_n2_addr;
  calculate_d1_x := _calculate_d1_x;
  calculate_d2_x_y := _calculate_d2_x_y;
  get_willingness_n1 := _get_willingness_n1;
|}.
#[local] Existing Instance _api_interface.

(** ** The graph *)

(** The loop over the list of links: N1 and the flags [selection_is_mpr]. *)
Fixpoint _calculate_n1 (i : nat) (ls : list nat) (n1 : list n1_node) (sel : gset nat) : outcome (list n1_node * gset nat) :=
  match ls with
  | [] => Def (n1, sel)
  | l :: ls =>
      lnk ← get_link db l;
      neigh ← get_neigh db (l_neigh lnk);
      allowed ← _is_allowed_link_tuple i lnk;
      _calculate_n1 i ls (if allowed : bool then mpr_add_n1_node_to_set n1 (l_neigh lnk) (Some l) 0 else n1)
        (sel ∖ {[l_neigh lnk]})
  end.

Fixpoint twohop_loop (i : nat) (ts : list nhdp_l2hop) (n2 : list addr_node) : outcome (list addr_node) :=
  match ts with
  | [] => Def n2
  | t :: ts =>
      allowed ← _is_allowed_2hop_tuple i t;
      twohop_loop i ts (if allowed : bool then mpr_add_addr_node_to_set n2 (twohop_addr t) 0 else n2)
  end.

Fixpoint _calculate_n2 (i : nat) (n1 : list n1_node) (n2 : list addr_node) : outcome (list addr_node) :=
  match n1 with
  | [] => Def n2
  | x :: n1 => lnk ← x_link x; n2 ← twohop_loop i (_2hop lnk) n2; _calculate_n2 i n1 n2
  end.

Definition mpr_calculate_neighbor_graph_flooding (i : nat) (sel : gset nat) : outcome neighbor_graph :=
  '(n1, sel) ← _calculate_n1 i (seq 0 (length (_link_list db))) [] sel;
  n2 ← _calculate_n2 i n1 [];
  Def {| set_n1 := n1; set_n2 := n2; set_n := []; set_mpr := []; set_mpr_candidates := []; d_x_y_cache := [];
         selection_is_mpr := sel |}.

(** ** The flags of the links *)

Fixpoint _update_nhdp_flooding (ls : list nat) (g : neighbor_graph) (flags : gset nat) : outcome (gset nat) :=
  match ls with
  | [] => Def flags
  | l :: ls =>
      lnk ← get_link db l;
      neigh ← get_neigh db (l_neigh lnk);
      _update_nhdp_flooding ls g (if mpr_is_mpr g (originator neigh) then {[l]} ∪ flags else flags ∖ {[l]})
  end.

Definition _clear_nhdp_flooding (f : nhdp_flags) : nhdp_flags :=
  {| selection := selection f; neigh_is_flooding_mpr := ∅; neigh_is_mpr := neigh_is_mpr f |}.

(** The body of the loop over the interfaces. *)
Definition update_flooding_interface (i : nat) (ls : list nat) (f : nhdp_flags) : outcome nhdp_flags :=
  g ← mpr_calculate_neighbor_graph_flooding i (selection f);
  g ← mpr_calculate_mpr_rfc7181 g;
  g ← _validate_mpr_set g;
  flags ← _update_nhdp_flooding ls g (neigh_is_flooding_mpr f);
  Def {| selection := selection_is_mpr g; neigh_is_flooding_mpr := flags; neigh_is_mpr := neigh_is_mpr f |}.

Fixpoint interface_loop (i : nat) (ifs : list (list nat)) (f : nhdp_flags) : outcome nhdp_flags :=
  match ifs with
  | [] => Def f
  | ls :: ifs => f ← update_flooding_interface i ls f; interface_loop (S i) ifs f
  end.

Definition _cb_update_flooding_mpr (f : nhdp_flags) : outcome nhdp_flags :=
  interface_loop 0 (_if_links db) (_clear_nhdp_flooding f).

(** ** The graph keeps the laws of the selection *)

Context (Hdb : db_ok db) (Hdom : (dom < NHDP_MAXIMUM_DOMAINS)%nat).

(** A node of N1 at interface [i] stands for an allowed link. *)
Definition n1_ok (i : nat) (x : n1_node) : Prop := exists l lnk m,
  n1_link x = Some l /\ _link_list db !! l = Some lnk /\ n1_neigh x = l_neigh lnk /\
  n1_addr x = originator_of (l_neigh lnk) /\ nhdp_domain_get_linkdata dom lnk = Def m /\ metric_ok m /\
  local_if lnk = i /\ m_out m <= RFC7181_METRIC_MAX.

Lemma allowed_link_ok i l lnk : _link_list db !! l = Some lnk ->
  exists b, _is_allowed_link_tuple i lnk = Def b /\
    (b = true -> n1_ok i {| n1_addr := originator_of (l_neigh lnk); n1_link := Some l; n1_neigh := l_neigh lnk; n1_offset := 0 |}).
Proof.
  intros Hl. destruct (linkdata_ok dom Hdom db l lnk (db_links _ Hdb _ _ Hl)) as (m & E & Hm).
  unfold _is_allowed_link_tuple, _is_reachable_link_tuple. rewrite E. simpl. eexists. split; [done|].
  rewrite !andb_true_iff. intros [[[Hi%bool_decide_eq_true Ho%Z.leb_le] _] _]. exists l, lnk, m. done.
Qed.

Lemma calculate_n1_ok i ls n1 sel : Forall (fun l => (l < length (_link_list db))%nat) ls ->
  tree_strict n1_addr avl_comp_netaddr n1 -> Forall (n1_ok i) n1 ->
  exists n1' sel', _calculate_n1 i ls n1 sel = Def (n1', sel') /\ tree_strict n1_addr avl_comp_netaddr n1' /\
    Forall (n1_ok i) n1' /\ (length n1' <= length n1 + length ls)%nat /\ sel' ⊆ sel /\
    forall l lnk, l ∈ ls -> _link_list db !! l = Some lnk -> l_neigh lnk ∉ sel'.
Proof.
  revert n1 sel. induction ls as [|l ls IH]; intros n1 sel Hls Hs Hn; simpl.
  { exists n1, sel. split_and!; try done; [lia|]. by intros l lnk ?%elem_of_nil. }
  apply Forall_cons in Hls as [Hl Hls]. destruct (get_link_ok db l Hl) as (lnk & El & ->). simpl.
  pose proof (db_links _ Hdb _ _ El) as Hlnk. destruct (get_neigh_ok db _ (lo_neigh _ _ _ Hlnk)) as (neigh & _ & ->). simpl.
  destruct (allowed_link_ok i l lnk El) as (b & -> & Hb). simpl.
  set (n1a := if b then _ else n1).
  assert (tree_strict n1_addr avl_comp_netaddr n1a /\ Forall (n1_ok i) n1a /\ (length n1a <= S (length n1))%nat) as (Hsa & Hna & Hla).
  { unfold n1a. destruct b; [|split_and!; [done|done|lia]]. split; [by apply add_n1_strict|].
    split; [|apply add_n1_length]. rewrite Forall_forall in Hn |- *. intros z [Hz| ->]%add_n1_elem; [by apply Hn|by apply Hb]. }
  destruct (IH n1a (sel ∖ {[l_neigh lnk]}) Hls Hsa Hna) as (n1' & sel' & E & H1 & H2 & H3 & H4 & H5).
  exists n1', sel'. split; [exact E|]. split; [done|]. split; [done|]. split; [lia|]. split; [set_solver|].
  intros l' lnk' [->|Hl']%elem_of_cons El'; [|by eapply H5]. rewrite El in El'. injection El' as <-. set_solver.
Qed.

(** An address of N2 is a usable two-hop address of a node of N1. *)
Definition n2_from (i : nat) (n1 : list n1_node) (a : netaddr) : Prop := exists x l lnk t m,
  x ∈ n1 /\ n1_link x = Some l /\ _link_list db !! l = Some lnk /\ t ∈ _2hop lnk /\ twohop_addr t = a /\
  nhdp_domain_get_l2hopdata dom t = Def m /\ m_out m <= RFC7181_METRIC_MAX.

Definition all_2hops : list netaddr := concat ((fun lnk => twohop_addr <$> _2hop lnk) <$> _link_list db).

Record n2_ok (i : nat) (n1 : list n1_node) (n2 : list addr_node) : Prop := {
  n2o_strict : tree_strict an_addr avl_comp_netaddr n2;
  n2o_from a : a ∈ an_addr <$> n2 -> n2_from i n1 a /\ a ∈ all_2hops;
}.

Lemma twohop_loop_ok i n1 x l lnk ts n2 : x ∈ n1 -> n1_link x = Some l -> _link_list db !! l = Some lnk -> local_if lnk = i ->
  (forall t, t ∈ ts -> t ∈ _2hop lnk) -> n2_ok i n1 n2 ->
  exists n2', twohop_loop i ts n2 = Def n2' /\ n2_ok i n1 n2'.
Proof.
  intros Hx El Hl Hif. pose proof (db_links _ Hdb _ _ Hl) as Hlnk. revert n2.
  induction ts as [|t ts IH]; intros n2 Hts Hn; simpl; [by exists n2|].
  assert (t ∈ _2hop lnk) as Ht by (apply Hts; by left).
  pose proof (lo_2hops _ _ _ Hlnk) as H2. rewrite Forall_forall in H2. specialize (H2 t Ht).
  destruct (l2hopdata_ok dom Hdom l t H2) as (m & Em & _). unfold _is_allowed_2hop_tuple. rewrite Em. simpl.
  rewrite (l2o_link _ _ H2). unfold get_link. rewrite Hl. simpl. apply IH; [intros; apply Hts; by right|].
  destruct (bool_decide (local_if lnk = i) && (m_out m <=? RFC7181_METRIC_MAX)) eqn:Eb; [|done].
  apply andb_true_iff in Eb as [_ Hm%Z.leb_le]. destruct Hn as [Hs Hf]. split; [by apply add_addr_strict|].
  intros a [->|Ha]%add_addr_elem; [|by apply Hf]. split; [by exists x, l, lnk, t, m|].
  unfold all_2hops. apply list_elem_of_In, in_concat. exists (twohop_addr <$> _2hop lnk).
  split; apply list_elem_of_In, list_elem_of_fmap; [|by exists t]. exists lnk. split; [done|]. by eapply list_elem_of_lookup_2.
Qed.

Lemma calculate_n2_ok i n1 xs n2 : Forall (n1_ok i) n1 -> (forall x, x ∈ xs -> x ∈ n1) -> n2_ok i n1 n2 ->
  exists n2', _calculate_n2 i xs n2 = Def n2' /\ n2_ok i n1 n2'.
Proof.
  intros Hn1. revert n2. induction xs as [|x xs IH]; intros n2 Hxs Hn; simpl; [by exists n2|].
  assert (x ∈ n1) as Hx by (apply Hxs; by left). rewrite Forall_forall in Hn1.
  destruct (Hn1 x Hx) as (l & lnk & m & El & Hl & _ & _ & _ & _ & Hif & _). unfold x_link, get_link. rewrite El, Hl. simpl.
  destruct (twohop_loop_ok i n1 x l lnk (_2hop lnk) n2 Hx El Hl Hif (fun t Ht => Ht) Hn) as (n2a & -> & Ha). simpl.
  apply IH; [|done]. intros; apply Hxs; by right.
Qed.

Lemma n2_length i n1 n2 : n2_ok i n1 n2 -> (length n2 <= length all_2hops)%nat.
Proof.
  intros [Hs Hf]. rewrite <- (length_fmap an_addr). apply submseteq_length. apply NoDup_submseteq; [by apply strict_nodup_addrs|].
  intros a Ha. by apply Hf.
Qed.

(** The costs that the callbacks return. *)
Definition value {A} (d : A) (o : outcome A) : A := match o with Def v => v | Undef _ => d end.
Definition c1 (x : n1_node) : Z := value 0 (_calculate_d1_x x).
Definition c2 (x : n1_node) (a : netaddr) : Z := value RFC7181_METRIC_INFINITE (_calculate_d2_x_y x a).
Definition d1 (n1 : list n1_node) (a : netaddr) : Z := value RFC7181_METRIC_INFINITE (_calculate_d1_x_of_n2_addr n1 a).
Definition will (x : n1_node) : Z := value 0 (_get_willingness_n1 x).

Lemma c1_ok i x : n1_ok i x -> _calculate_d1_x x = Def (c1 x) /\ 0 <= c1 x <= RFC7181_METRIC_MAX.
Proof.
  intros (l & lnk & m & El & Hl & _ & _ & Em & [_ Hm] & _ & Hmax). unfold c1, _calculate_d1_x, x_link, get_link.
  rewrite El, Hl. simpl. rewrite Em. simpl. split; [done|lia].
Qed.

Lemma c2_ok i x a : n1_ok i x -> _calculate_d2_x_y x a = Def (c2 x a) /\ 0 <= c2 x a.
Proof.
  intros (l & lnk & m & El & Hl & _). unfold c2, _calculate_d2_x_y, x_link, get_link.
  rewrite El, Hl. simpl. destruct (tree_find _ _ a (_2hop lnk)) as [t|] eqn:Et; simpl; [|unfold RFC7181_METRIC_INFINITE; split; [done|lia]].
  apply tree_find_sound in Et as [Ht _]. pose proof (lo_2hops _ _ _ (db_links _ Hdb _ _ Hl)) as H2. rewrite Forall_forall in H2.
  destruct (l2hopdata_ok dom Hdom l t (H2 t Ht)) as (m' & -> & [_ Hm']). simpl. split; [done|lia].
Qed.

(** The cost to a usable two-hop address is finite. *)
Lemma c2_max i n1 a : n2_from i n1 a -> exists x, x ∈ n1 /\ c2 x a <= RFC7181_METRIC_MAX.
Proof.
  intros (x & l & lnk & t & m & Hx & El & Hl & Ht & Ha & Em & Hm). exists x. split; [done|].
  unfold c2, _calculate_d2_x_y, x_link, get_link. rewrite El, Hl. simpl.
  rewrite (tree_find_complete twohop_addr avl_comp_netaddr a (_2hop lnk) t); [by rewrite Em|by apply (db_links _ Hdb _ _ Hl)|done|].
  by apply netaddr_cmp_eq.
Qed.

Lemma d1_ok i n1 a : Forall (fun x => exists x0, n1_ok i x0 /\ n1_link x = n1_link x0 /\ n1_neigh x = n1_neigh x0) n1 ->
  _calculate_d1_x_of_n2_addr n1 a = Def (d1 n1 a) /\ (d1 n1 a = RFC7181_METRIC_INFINITE \/ 0 <= d1 n1 a <= RFC7181_METRIC_MAX).
Proof.
  unfold d1. induction n1 as [|x n1 IH]; intros Hn; simpl; [by split; [|left]|].
  apply Forall_cons in Hn as [(x0 & Hx & E1 & E2) Hn]. specialize (IH Hn).
  pose proof Hx as (l & lnk & m & El & Hl & En & _).
  destruct (get_neigh_ok db (n1_neigh x)) as (neigh & _ & ->).
  { rewrite E2, En. apply (db_links _ Hdb _ _ Hl). }
  simpl. destruct (tree_find id _ a _); [|done]. destruct (c1_ok i x0 Hx) as [H1 H2].
  assert (_calculate_d1_x x = _calculate_d1_x x0) as -> by (unfold _calculate_d1_x, x_link; by rewrite E1).
  rewrite H1. simpl. split; [done|by right].
Qed.

(** No more than 2^32 pairs of links and two-hop addresses. *)
Context (Hsmall : Z.of_nat (length (_link_list db)) * Z.of_nat (length all_2hops) < 2 ^ 32).

Lemma flooding_graph i sel : exists g, mpr_calculate_neighbor_graph_flooding i sel = Def g /\
  graph_laws g c1 c2 (d1 (set_n1 (init_cache g))) will /\ fresh g /\ selection_is_mpr g ⊆ sel /\
  Forall (n1_ok i) (set_n1 g).
Proof.
  unfold mpr_calculate_neighbor_graph_flooding.
  destruct (calculate_n1_ok i (seq 0 (length (_link_list db))) [] sel) as (n1 & sel' & -> & Hs & Hn & Hlen & Hsub & Hreset);
    [|constructor|constructor|].
  { apply Forall_forall. intros l. rewrite elem_of_seq. lia. }
  simpl. destruct (calculate_n2_ok i n1 n1 [] Hn (fun x Hx => Hx)) as (n2 & -> & Hn2).
  { split; [constructor|]. by intros a ?%elem_of_nil. }
  simpl. eexists. split; [done|]. rewrite length_seq in Hlen. simpl in Hlen.
  pose proof (n2_length _ _ _ Hn2) as Hl2. split; [|split; [|done]].
  2: { split; [done|done|]. simpl. intros x Hx. rewrite Forall_forall in Hn. destruct (Hn x Hx) as (l & lnk & m & _ & Hl & En & _).
       rewrite En. apply (Hreset l lnk); [|done]. apply elem_of_seq. apply lookup_lt_Some in Hl. lia. }
  rewrite Forall_forall in Hn.
  assert (forall x, x ∈ imap set_n1_offset n1 -> exists x0, x0 ∈ n1 /\ n1_ok i x0 /\ n1_link x = n1_link x0 /\ n1_neigh x = n1_neigh x0) as Hx0.
  { intros x (j & x0 & -> & H)%elem_of_lookup_imap. exists x0. apply list_elem_of_lookup_2 in H. split_and!; auto. }
  split; [split|..]; simpl.
  - apply (Z.le_lt_trans _ (Z.of_nat (length (_link_list db)) * Z.of_nat (length all_2hops))); [|done]. apply Z.mul_le_mono_nonneg; lia.
  - done.
  - by apply Hn2.
  - intros x Hx. destruct (Hn x Hx) as (l & lnk & m & _ & _ & -> & -> & _). done.
  - intros x (x0 & _ & H0 & E1 & _)%Hx0. unfold c1, _calculate_d1_x, x_link. rewrite E1. by apply (c1_ok i x0).
  - intros x a (x0 & _ & H0 & E1 & _)%Hx0. unfold c2, _calculate_d2_x_y, x_link. rewrite E1. by apply (c2_ok i x0).
  - intros a. apply (d1_ok i). apply Forall_forall. intros x (x0 & _ & H0 & E1 & E2)%Hx0. by exists x0.
  - intros x (x0 & _ & (l & lnk & m & El & Hl & _) & E1 & _)%Hx0. unfold will, _get_willingness_n1, x_link, get_link.
    rewrite E1, El, Hl. done.
  - intros x (x0 & _ & (l & lnk & m & El & Hl & En & _) & E1 & E2)%Hx0 _. exists l. rewrite E1, E2, Hl. done.
  - intros y Hy. destruct (c2_max i n1 (an_addr y)) as (x & Hx & Hc).
    { apply Hn2. apply list_elem_of_fmap. by exists y. }
    apply list_elem_of_lookup in Hx as [j Hj]. exists (set_n1_offset j x).
    split; [apply elem_of_lookup_imap; by exists j, x|]. exact Hc.
Qed.

(** ** The flags *)

Definition neigh_originator (lnk : nhdp_link) : netaddr := originator_of (l_neigh lnk).

Lemma update_flags_ok ls g flags : Forall (fun l => (l < length (_link_list db))%nat) ls -> NoDup ls ->
  exists flags', _update_nhdp_flooding ls g flags = Def flags' /\
    (forall l, l ∉ ls -> l ∈ flags' <-> l ∈ flags) /\
    forall l lnk, l ∈ ls -> _link_list db !! l = Some lnk -> l ∈ flags' <-> mpr_is_mpr g (neigh_originator lnk) = true.
Proof.
  revert flags. induction ls as [|l ls IH]; intros flags Hls Hnd; simpl.
  { exists flags. split_and!; [done|done|]. by intros l lnk ?%elem_of_nil. }
  apply Forall_cons in Hls as [Hl Hls]. apply NoDup_cons in Hnd as [Hnin Hnd].
  destruct (get_link_ok db l Hl) as (lnk & El & ->). simpl.
  destruct (get_neigh_ok db _ (lo_neigh _ _ _ (db_links _ Hdb _ _ El))) as (neigh & En & ->). simpl.
  assert (originator neigh = neigh_originator lnk) as -> by (unfold neigh_originator, originator_of; simpl; by rewrite En).
  set (f1 := if _ : bool then _ else _). destruct (IH f1 Hls Hnd) as (f' & E & Hout & Hin).
  exists f'. split; [exact E|]. split.
  - intros l' [Hne Hl']%not_elem_of_cons. rewrite (Hout l' Hl'). unfold f1. destruct (mpr_is_mpr _ _); set_solver.
  - intros l' lnk' [->|Hl']%elem_of_cons El'; [|by apply Hin]. rewrite El in El'. injection El' as <-.
    rewrite (Hout l Hnin). unfold f1. destruct (mpr_is_mpr _ _); set_solver.
Qed.

(** What the callback has computed for the links [ls] of interface [i]: the
    flags say who is in an MPR set that holds every neighbor with WILL_ALWAYS
    and keeps the least costs. *)
Definition interface_mprs (i : nat) (ls : list nat) (flags : gset nat) : Prop := exists sel g g',
  mpr_calculate_neighbor_graph_flooding i sel = Def g /\ mpr_calculate_mpr_rfc7181 g = Def g' /\
  (forall l lnk, l ∈ ls -> _link_list db !! l = Some lnk -> l ∈ flags <-> mpr_is_mpr g' (neigh_originator lnk) = true) /\
  (forall x, x ∈ set_n1 g' -> will x = RFC7181_WILLINGNESS_ALWAYS -> x ∈ set_mpr g') /\
  (forall x, x ∈ set_mpr g' -> x ∈ set_n1 g') /\
  forall y, y ∈ set_n2 g' -> cost_over c1 c2 (d1 (set_n1 g')) (set_mpr g') (an_addr y) =
                             cost_over c1 c2 (d1 (set_n1 g')) (set_n1 g') (an_addr y).

Lemma interface_mprs_ext i ls flags flags' : (forall l, l ∈ ls -> l ∈ flags' <-> l ∈ flags) ->
  interface_mprs i ls flags -> interface_mprs i ls flags'.
Proof.
  intros Hf (sel & g & g' & E1 & E2 & Hm & H). exists sel, g, g'. split; [done|]. split; [done|]. split; [|done].
  intros l lnk Hl El. rewrite (Hf l Hl). by apply Hm.
Qed.

Lemma update_interface_ok i ls f : Forall (fun l => (l < length (_link_list db))%nat) ls -> NoDup ls ->
  exists f', update_flooding_interface i ls f = Def f' /\ interface_mprs i ls (neigh_is_flooding_mpr f') /\
    (forall l, l ∉ ls -> l ∈ neigh_is_flooding_mpr f' <-> l ∈ neigh_is_flooding_mpr f) /\ neigh_is_mpr f' = neigh_is_mpr f.
Proof.
  intros Hls Hnd. unfold update_flooding_interface. destruct (flooding_graph i (selection f)) as (g & Eg & L & F & _ & _). rewrite Eg. simpl.
  destruct (selection_spec g _ _ _ _ L F) as (g1 & E1 & Hm & Hall & Hcost & g2 & E2 & V2). rewrite E1. simpl. rewrite E2. simpl.
  destruct (visible_same _ _ V2) as (_ & Em & _). destruct (update_flags_ok ls g2 (neigh_is_flooding_mpr f) Hls Hnd) as (fl & -> & Hout & Hin).
  eexists. split; [done|]. simpl. split; [|done]. exists (selection f), g, g1. split; [done|]. split; [done|].
  rewrite (go_n1 _ _ _ _ _ (mo_graph _ _ _ _ _ Hm)), (go_n2 _ _ _ _ _ (mo_graph _ _ _ _ _ Hm)).
  split; [|split; [done|split; [apply (mo_sub _ _ _ _ _ Hm)|done]]].
  intros l lnk Hl El. rewrite (Hin l lnk Hl El). unfold mpr_is_mpr. by rewrite Em.
Qed.

(** Every link is in the list of at most one interface. *)
Context (Hifs : NoDup (concat (_if_links db))).

Lemma interface_loop_ok i ifs f : (forall k ls, ifs !! k = Some ls -> _if_links db !! (i + k)%nat = Some ls) -> NoDup (concat ifs) ->
  exists f', interface_loop i ifs f = Def f' /\ neigh_is_mpr f' = neigh_is_mpr f /\
    (forall l, l ∉ concat ifs -> l ∈ neigh_is_flooding_mpr f' <-> l ∈ neigh_is_flooding_mpr f) /\
    forall k ls, ifs !! k = Some ls -> interface_mprs (i + k) ls (neigh_is_flooding_mpr f').
Proof.
  revert i f. induction ifs as [|ls ifs IH]; intros i f Hifs' Hnd; simpl; [by exists f|].
  simpl in Hnd. apply NoDup_app in Hnd as (Hnd1 & Hdis & Hnd2).
  pose proof (Hifs' 0%nat ls eq_refl) as H0. rewrite Nat.add_0_r in H0.
  destruct (update_interface_ok i ls f (db_ifs _ Hdb _ _ H0) Hnd1) as (f1 & -> & Hi & Hout & Hr). simpl.
  destruct (IH (S i) f1) as (f' & E & Hr' & Hout' & Hin'); [|done|].
  { intros k ls' Hk. rewrite <- (Hifs' (S k) ls' Hk). f_equal. lia. }
  exists f'. split; [exact E|]. split; [congruence|]. split.
  - intros l Hl. rewrite elem_of_app in Hl. rewrite (Hout' l), (Hout l) by tauto. done.
  - intros [|k] ls' Hk; simpl in Hk.
    + injection Hk as <-. rewrite Nat.add_0_r. eapply interface_mprs_ext; [|exact Hi]. intros l Hl. apply Hout'. by apply Hdis.
    + replace (i + S k)%nat with (S i + k)%nat by lia. by apply Hin'.
Qed.

End flooding.

(** ** Witness *)

(** Two links at one interface, to two neighbors; the second must be chosen. *)
Definition ex_metric (m : Z) : list nhdp_metric := replicate 4 {| m_in := m; m_out := m |}.
Definition ex_l2hop (l : nat) (a m : Z) : nhdp_l2hop := {| twohop_addr := ex_addr a; l2_link := l; l2_vtime_active := true; l2_domaindata := ex_metric m |}.
Definition ex_link (n : nat) (w : Z) (ts : list nhdp_l2hop) : nhdp_link :=
  {| status := NHDP_LINK_SYMMETRIC; local_if := 0; l_neigh := n; if_addr := ex_addr (100 + Z.of_nat n); flooding_willingness := w; _2hop := ts; l_domaindata := ex_metric 256 |}.
Definition ex_neigh (a : Z) (l : nat) (w : Z) : nhdp_neighbor :=
  {| originator := ex_addr a; symmetric := 1; _links := [l]; _neigh_addresses := [ex_addr a];
     n_domaindata := replicate 4 {| nd_metric := {| m_in := 256; m_out := 256 |}; best_out_link := Some l; best_link_ifindex := 1; willingness := w |} |}.
Definition ex_db : nhdp_db := {|
  _link_list := [ex_link 0 7 [ex_l2hop 0 11 256; ex_l2hop 0 12 512]; ex_link 1 RFC7181_WILLINGNESS_ALWAYS [ex_l2hop 1 11 256]];
  _neigh_list := [ex_neigh 1 0 7; ex_neigh 2 1 RFC7181_WILLINGNESS_ALWAYS];
  _if_links := [[0; 1]]%nat |}.

Lemma ex_db_ok : db_ok ex_db.
Proof.
  split.
  - intros [|[|l]] lnk E; simpl in E; [..|by destruct l]; injection E as <-;
      (split; [simpl; lia|repeat constructor; vm_compute; done|repeat constructor; simpl; lia|done|repeat constructor; simpl; lia]).
  - intros [|[|l]] lnk E; simpl in E; [..|by destruct l]; injection E as <-;
      (split; [repeat constructor; simpl; lia|done|repeat constructor; simpl; lia]).
  - intros [|l] ls E; simpl in E; [|by destruct l]. injection E as <-. repeat constructor; simpl; lia.
Qed.


(** Both are chosen: the second has to, the first reaches an address alone. *)
Example ex_flooding : (match _cb_update_flooding_mpr ex_db 0 {| selection := ∅; neigh_is_flooding_mpr := ∅; neigh_is_mpr := ∅ |} with
  | Def f => elements (neigh_is_flooding_mpr f) | Undef _ => [] end) = [1; 0]%nat.
Proof. vm_compute. reflexivity. Qed.
