(* ===== verification/MprRouting.v ===== *)
(** Routing MPRs: src/nhdp/mpr/neighbor-graph-routing.c and the routing part of
    src/nhdp/mpr/mpr.c. *)

From Stdlib Require Import ZArith Lia Sorted.
From stdpp Require Import base list numbers option gmap sets.
From S2P Require Import Prelude AvlSpec Netaddr MprSelection NhdpDb MprFlooding.

Local Open Scope Z_scope.
Local Open Scope cint_scope.

Section routing.
Context (db : nhdp_db) (dom : nat).

(** ** The costs *)

Definition _is_reachable_neighbor_tuple (neigh : nhdp_neighbor) : outcome bool :=
  neighbordata ← nhdp_domain_get_neighbordata dom neigh;
  Def ((m_in (nd_metric neighbordata) <=? RFC7181_METRIC_MAX) && (0 <? symmetric neigh)).

Definition _is_allowed_neighbor_tuple (neigh : nhdp_neighbor) : outcome bool :=
  neighbordata ← nhdp_domain_get_neighbordata dom neigh;
  r ← _is_reachable_neighbor_tuple neigh;
  Def (r && (RFC7181_WILLINGNESS_NEVER <? willingness neighbordata)).

Definition _is_allowed_2hop_tuple (two_hop : nhdp_l2hop) : outcome bool :=
  neighdata ← nhdp_domain_get_l2hopdata dom two_hop; Def (m_in neighdata <=? RFC7181_METRIC_MAX).

Definition _calculate_d1_x (x : n1_node) : outcome Z :=
  neigh ← get_neigh db (n1_neigh x); neighdata ← nhdp_domain_get_neighbordata dom neigh; Def (m_in (nd_metric neighdata)).

(** The loop over the links of the neighbor: the first entry counts. *)
Fixpoint l2hop_loop (ls : list nat) (y : netaddr) : outcome Z :=
  match ls with
  | [] => Def RFC7181_METRIC_INFINITE
  | l :: ls =>
      lnk ← get_link db l;
      match tree_find twohop_addr avl_comp_netaddr y (_2hop lnk) with
      | Some l2hop => twohopdata ← nhdp_domain_get_l2hopdata dom l2hop; Def (m_in twohopdata)
      | None => l2hop_loop ls y
      end
  end.

Definition _calculate_d2_x_y (x : n1_node) (y : netaddr) : outcome Z :=
  neigh ← get_neigh db (n1_neigh x); l2hop_loop (_links neigh) y.

Fixpoint _calculate_d1_of_y (n1 : list n1_node) (y : netaddr) : outcome Z :=
  match n1 with
  | [] => Def RFC7181_METRIC_INFINITE
  | x :: n1 =>
      neigh ← get_neigh db (n1_neigh x);
      match tree_find id avl_comp_netaddr y (_neigh_addresses neigh) with
      | Some _ => neighdata ← nhdp_domain_get_neighbordata dom neigh; Def (m_in (nd_metric neighdata))
      | None => _calculate_d1_of_y n1 y
      end
  end.

Definition _calculate_d1_x_of_n2_addr (n1 : list n1_node) (addr : netaddr) : outcome Z := _calculate_d1_of_y n1 addr.

Definition _get_willingness_n1 (x : n1_node) : outcome Z :=
  neigh ← get_neigh db (n1_neigh x); neighdata ← nhdp_domain_get_neighbordata dom neigh; Def (willingness neighdata).

Definition _rt_api_interface : neighbor_graph_interface := {|
  originator_of n := match _neigh_list db !! n with Some neigh => originator neigh | None => NETADDR_UNSPEC end;
  neigh_of_link l := match _link_list db !! l with Some lnk => l_neigh lnk | None => 0%nat end;
  calculate_d1_x_of_n2_addr := _calculate_d1_x_of_n2_addr;
  calculate_d1_x := _calculate_d1_x;
  calculate_d2_x_y := _calculate_d2_x_y;
  get_willingness_n1 := _get_willingness_n1;
|}.
#[local] Existing Instance _rt_api_interface.

(** ** The graph *)

(** The loop over the list of neighbors: N1 and the flags. The nodes have no
    link. *)
Fixpoint _calculate_n1 (ns : list nat) (n1 : list n1_node) (sel : gset nat) : outcome (list n1_node * gset nat) :=
  match ns with
  | [] => Def (n1, sel)
  | n :: ns =>
      neigh ← get_neigh db n;
      allowed ← _is_allowed_neighbor_tuple neigh;
      _calculate_n1 ns (if allowed : bool then mpr_add_n1_node_to_set n1 n None 0 else n1) (sel ∖ {[n]})
  end.

Fixpoint twohop_loop (ts : list nhdp_l2hop) (n2 : list addr_node) : outcome (list addr_node) :=
  match ts with
  | [] => Def n2
  | t :: ts =>
      allowed ← _is_allowed_2hop_tuple t;
      twohop_loop ts (if allowed : bool then mpr_add_addr_node_to_set n2 (twohop_addr t) 0 else n2)
  end.

Fixpoint links_loop (ls : list nat) (n2 : list addr_node) : outcome (list addr_node) :=
  match ls with
  | [] => Def n2
  | l :: ls => lnk ← get_link db l; n2 ← twohop_loop (_2hop lnk) n2; links_loop ls n2
  end.

Fixpoint _calculate_n2 (n1 : list n1_node) (n2 : list addr_node) : outcome (list addr_node) :=
  match n1 with
  | [] => Def n2
  | x :: n1 => neigh ← get_neigh db (n1_neigh x); n2 ← links_loop (_links neigh) n2; _calculate_n2 n1 n2
  end.

Definition mpr_calculate_neighbor_graph_routing (sel : gset nat) : outcome neighbor_graph :=
  '(n1, sel) ← _calculate_n1 (seq 0 (length (_neigh_list db))) [] sel;
  n2 ← _calculate_n2 n1 [];
  Def {| set_n1 := n1; set_n2 := n2; set_n := []; set_mpr := []; set_mpr_candidates := []; d_x_y_cache := [];
         selection_is_mpr := sel |}.

(** ** The flags of the neighbors *)

Fixpoint _update_nhdp_routing (ls : list nat) (g : neighbor_graph) (flags : gset nat) : outcome (gset nat) :=
  match ls with
  | [] => Def flags
  | l :: ls =>
      lnk ← get_link db l;
      neigh ← get_neigh db (l_neigh lnk);
      _ ← nhdp_domain_get_neighbordata dom neigh;
      _update_nhdp_routing ls g (if mpr_is_mpr g (originator neigh) then {[l_neigh lnk]} ∪ flags else flags ∖ {[l_neigh lnk]})
  end.

(** [ours] is [domain->mpr == &_mpr_handler]. *)
Definition _cb_update_routing_mpr (ours : bool) (f : nhdp_flags) : outcome nhdp_flags :=
  if negb ours then Def f
  else
    g ← mpr_calculate_neighbor_graph_routing (selection f);
    g ← mpr_calculate_mpr_rfc7181 g;
    g ← _validate_mpr_set g;
    flags ← _update_nhdp_routing (seq 0 (length (_link_list db))) g (neigh_is_mpr f);
    Def {| selection := selection_is_mpr g; neigh_is_flooding_mpr := neigh_is_flooding_mpr f; neigh_is_mpr := flags |}.

(** ** The graph is well formed *)

Context (Hdb : db_ok db) (Hdom : (dom < NHDP_MAXIMUM_DOMAINS)%nat).

(** A node of N1 stands for an allowed neighbor, and has no link. *)
Definition n1_ok (x : n1_node) : Prop := exists neigh d,
  _neigh_list db !! n1_neigh x = Some neigh /\ n1_link x = None /\ nhdp_domain_get_neighbordata dom neigh = Def d /\
  metric_ok (nd_metric d) /\ m_in (nd_metric d) <= RFC7181_METRIC_MAX /\ n1_addr x = originator_of (n1_neigh x).

Lemma allowed_neighbor_ok n neigh : _neigh_list db !! n = Some neigh ->
  exists b, _is_allowed_neighbor_tuple neigh = Def b /\
    (b = true -> n1_ok {| n1_addr := originator_of n; n1_link := None; n1_neigh := n; n1_offset := 0 |}).
Proof.
  intros Hn. destruct (neighbordata_ok dom Hdom db neigh (db_neighs _ Hdb _ _ Hn)) as (d & E & Hd).
  unfold _is_allowed_neighbor_tuple, _is_reachable_neighbor_tuple. rewrite E. simpl. eexists. split; [done|].
  rewrite !andb_true_iff. intros [[Hi%Z.leb_le _] _]. by exists neigh, d.
Qed.

Lemma rt_calculate_n1_ok ns n1 sel : Forall (fun n => (n < length (_neigh_list db))%nat) ns ->
  tree_strict n1_addr avl_comp_netaddr n1 -> Forall n1_ok n1 ->
  exists n1' sel', _calculate_n1 ns n1 sel = Def (n1', sel') /\ tree_strict n1_addr avl_comp_netaddr n1' /\
    Forall n1_ok n1' /\ (length n1' <= length n1 + length ns)%nat /\ forall n, n ∈ sel' -> n ∈ sel /\ n ∉ ns.
Proof.
  revert n1 sel. induction ns as [|n ns IH]; intros n1 sel Hns Hs Hn; simpl.
  { exists n1, sel. split_and!; try done; [lia|]. intros n Hn'. split; [done|apply not_elem_of_nil]. }
  apply Forall_cons in Hns as [Hl Hns]. destruct (get_neigh_ok db n Hl) as (neigh & En & ->). simpl.
  destruct (allowed_neighbor_ok n neigh En) as (b & -> & Hb). simpl. set (n1a := if b then _ else n1).
  assert (tree_strict n1_addr avl_comp_netaddr n1a /\ Forall n1_ok n1a /\ (length n1a <= S (length n1))%nat) as (Hsa & Hna & Hla).
  { unfold n1a. destruct b; [|split_and!; [done|done|lia]]. split; [by apply add_n1_strict|].
    split; [|apply add_n1_length]. rewrite Forall_forall in Hn |- *. intros z [Hz| ->]%add_n1_elem; [by apply Hn|by apply Hb]. }
  destruct (IH n1a (sel ∖ {[n]}) Hns Hsa Hna) as (n1' & sel' & E & H1 & H2 & H3 & H4).
  exists n1', sel'. split; [exact E|]. split; [done|]. split; [done|]. split; [lia|].
  intros k Hk. destruct (H4 k Hk) as [Hk1 Hk2]. set_solver.
Qed.

(** A usable two-hop entry for [a] at one of the links [ls]. *)
Definition usable (ls : list nat) (a : netaddr) : Prop := exists l lnk t m,
  l ∈ ls /\ _link_list db !! l = Some lnk /\ t ∈ _2hop lnk /\ twohop_addr t = a /\
  nhdp_domain_get_l2hopdata dom t = Def m /\ m_in m <= RFC7181_METRIC_MAX.

Definition n2_from (n1 : list n1_node) (a : netaddr) : Prop := exists x neigh,
  x ∈ n1 /\ _neigh_list db !! n1_neigh x = Some neigh /\ usable (_links neigh) a.

Record n2_ok (n1 : list n1_node) (n2 : list addr_node) : Prop := {
  n2o_strict : tree_strict an_addr avl_comp_netaddr n2;
  n2o_from a : a ∈ an_addr <$> n2 -> n2_from n1 a /\ a ∈ all_2hops db;
}.

Lemma rt_twohop_loop_ok n1 x neigh l lnk ts n2 : x ∈ n1 -> _neigh_list db !! n1_neigh x = Some neigh -> l ∈ _links neigh ->
  _link_list db !! l = Some lnk -> (forall t, t ∈ ts -> t ∈ _2hop lnk) -> n2_ok n1 n2 ->
  exists n2', twohop_loop ts n2 = Def n2' /\ n2_ok n1 n2'.
Proof.
  intros Hx En Hin Hl. pose proof (db_links _ Hdb _ _ Hl) as Hlnk. revert n2.
  induction ts as [|t ts IH]; intros n2 Hts Hn; simpl; [by exists n2|].
  assert (t ∈ _2hop lnk) as Ht by (apply Hts; by left).
  pose proof (lo_2hops _ _ _ Hlnk) as H2. rewrite Forall_forall in H2. specialize (H2 t Ht).
  destruct (l2hopdata_ok dom Hdom l t H2) as (m & Em & _). unfold _is_allowed_2hop_tuple. rewrite Em. simpl.
  apply IH; [intros; apply Hts; by right|]. destruct (Z.leb_spec (m_in m) RFC7181_METRIC_MAX) as [Hm|]; [|done].
  destruct Hn as [Hs Hf]. split; [by apply add_addr_strict|].
  intros a [->|Ha]%add_addr_elem; [|by apply Hf]. split; [by exists x, neigh; split; [|split; [|exists l, lnk, t, m]]|].
  unfold all_2hops. apply list_elem_of_In, in_concat. exists (twohop_addr <$> _2hop lnk).
  split; apply list_elem_of_In, list_elem_of_fmap; [|by exists t]. exists lnk. split; [done|]. by eapply list_elem_of_lookup_2.
Qed.

Lemma links_loop_ok n1 x neigh ls n2 : x ∈ n1 -> _neigh_list db !! n1_neigh x = Some neigh ->
  (forall l, l ∈ ls -> l ∈ _links neigh) -> n2_ok n1 n2 -> exists n2', links_loop ls n2 = Def n2' /\ n2_ok n1 n2'.
Proof.
  intros Hx En. pose proof (no_links _ _ (db_neighs _ Hdb _ _ En)) as Hls. rewrite Forall_forall in Hls. revert n2.
  induction ls as [|l ls IH]; intros n2 Hin Hn; simpl; [by exists n2|].
  assert (l ∈ _links neigh) as Hl by (apply Hin; by left). destruct (get_link_ok db l (Hls l Hl)) as (lnk & El & ->). simpl.
  destruct (rt_twohop_loop_ok n1 x neigh l lnk (_2hop lnk) n2 Hx En Hl El (fun t Ht => Ht) Hn) as (n2a & -> & Ha). simpl.
  apply IH; [|done]. intros; apply Hin; by right.
Qed.

Lemma rt_calculate_n2_ok n1 xs n2 : Forall n1_ok n1 -> (forall x, x ∈ xs -> x ∈ n1) -> n2_ok n1 n2 ->
  exists n2', _calculate_n2 xs n2 = Def n2' /\ n2_ok n1 n2'.
Proof.
  intros Hn1. revert n2. induction xs as [|x xs IH]; intros n2 Hxs Hn; simpl; [by exists n2|].
  assert (x ∈ n1) as Hx by (apply Hxs; by left). rewrite Forall_forall in Hn1.
  destruct (Hn1 x Hx) as (neigh & d & En & _). unfold get_neigh. rewrite En. simpl.
  destruct (links_loop_ok n1 x neigh (_links neigh) n2 Hx En (fun l Hl => Hl) Hn) as (n2a & -> & Ha). simpl.
  apply IH; [|done]. intros; apply Hxs; by right.
Qed.

Lemma rt_n2_length n1 n2 : n2_ok n1 n2 -> (length n2 <= length (all_2hops db))%nat.
Proof.
  intros [Hs Hf]. rewrite <- (length_fmap an_addr). apply submseteq_length. apply NoDup_submseteq; [by apply strict_nodup_addrs|].
  intros a Ha. by apply Hf.
Qed.

(** ** The costs that the callbacks return *)

Definition c1 (x : n1_node) : Z := value 0 (_calculate_d1_x x).
Definition c2 (x : n1_node) (a : netaddr) : Z := value RFC7181_METRIC_INFINITE (_calculate_d2_x_y x a).
Definition d1 (n1 : list n1_node) (a : netaddr) : Z := value RFC7181_METRIC_INFINITE (_calculate_d1_x_of_n2_addr n1 a).
Definition will (x : n1_node) : Z := value 0 (_get_willingness_n1 x).

Lemma rt_c1_ok x : n1_ok x -> _calculate_d1_x x = Def (c1 x) /\ 0 <= c1 x <= RFC7181_METRIC_MAX.
Proof.
  intros (neigh & d & En & _ & Ed & [Hm _] & Hmax & _). unfold c1, _calculate_d1_x, get_neigh. rewrite En. simpl.
  rewrite Ed. simpl. split; [done|lia].
Qed.

Lemma l2hop_loop_ok ls y : Forall (fun l => (l < length (_link_list db))%nat) ls ->
  exists m, l2hop_loop ls y = Def m /\ 0 <= m.
Proof.
  induction ls as [|l ls IH]; intros Hls; simpl; [exists RFC7181_METRIC_INFINITE; split; [done|unfold RFC7181_METRIC_INFINITE; lia]|].
  apply Forall_cons in Hls as [Hl Hls]. destruct (get_link_ok db l Hl) as (lnk & El & ->). simpl.
  destruct (tree_find _ _ y (_2hop lnk)) as [t|] eqn:Et; [|by apply IH]. apply tree_find_sound in Et as [Ht _].
  pose proof (lo_2hops _ _ _ (db_links _ Hdb _ _ El)) as H2. rewrite Forall_forall in H2.
  destruct (l2hopdata_ok dom Hdom l t (H2 t Ht)) as (m & -> & [Hm _]). simpl. exists (m_in m). split; [done|lia].
Qed.

Lemma rt_c2_ok x a : n1_ok x -> _calculate_d2_x_y x a = Def (c2 x a) /\ 0 <= c2 x a.
Proof.
  intros (neigh & d & En & _). unfold c2, _calculate_d2_x_y, get_neigh. rewrite En. simpl.
  destruct (l2hop_loop_ok (_links neigh) a (no_links _ _ (db_neighs _ Hdb _ _ En))) as (m & -> & Hm). done.
Qed.

Lemma rt_d1_ok n1 a : Forall (fun x => exists x0, n1_ok x0 /\ n1_neigh x = n1_neigh x0) n1 ->
  _calculate_d1_x_of_n2_addr n1 a = Def (d1 n1 a) /\ (d1 n1 a = RFC7181_METRIC_INFINITE \/ 0 <= d1 n1 a <= RFC7181_METRIC_MAX).
Proof.
  unfold d1, _calculate_d1_x_of_n2_addr. induction n1 as [|x n1 IH]; intros Hn; simpl; [by split; [|left]|].
  apply Forall_cons in Hn as [(x0 & Hx & E2) Hn]. specialize (IH Hn). pose proof Hx as (neigh & d & En & _ & Ed & [Hd _] & Hmax & _).
  unfold get_neigh. rewrite E2, En. simpl. destruct (tree_find id _ a _); [|done]. rewrite Ed. simpl. split; [done|right; lia].
Qed.

Context (Hsmall : Z.of_nat (length (_neigh_list db)) * Z.of_nat (length (all_2hops db)) < 2 ^ 32).

Record graph_wf (g : neighbor_graph) : Prop := {
  gw_size : Z.of_nat (length (set_n1 g)) * Z.of_nat (length (set_n2 g)) < 2 ^ 32;
  gw_n1 : tree_strict n1_addr avl_comp_netaddr (set_n1 g);
  gw_n1_ok x : x ∈ set_n1 g -> n1_ok x;
  gw_n2 : n2_ok (set_n1 g) (set_n2 g);
  gw_fresh : fresh g;
}.

Lemma routing_graph sel : exists g, mpr_calculate_neighbor_graph_routing sel = Def g /\ graph_wf g.
Proof.
  unfold mpr_calculate_neighbor_graph_routing.
  destruct (rt_calculate_n1_ok (seq 0 (length (_neigh_list db))) [] sel) as (n1 & sel' & -> & Hs & Hn & Hlen & Hreset);
    [|constructor|constructor|].
  { apply Forall_forall. intros l. rewrite elem_of_seq. lia. }
  simpl. destruct (rt_calculate_n2_ok n1 n1 [] Hn (fun x Hx => Hx)) as (n2 & -> & Hn2).
  { split; [constructor|]. by intros a ?%elem_of_nil. }
  simpl. eexists. split; [done|]. rewrite length_seq in Hlen. simpl in Hlen. rewrite Forall_forall in Hn.
  pose proof (rt_n2_length _ _ Hn2) as Hl2. split; simpl; try done.
  - apply (Z.le_lt_trans _ (Z.of_nat (length (_neigh_list db)) * Z.of_nat (length (all_2hops db)))); [|done]. apply Z.mul_le_mono_nonneg; lia.
  - split; [done|done|]. simpl. intros x Hx Hin. apply Hreset in Hin as [_ Hin]. apply Hin.
    destruct (Hn x Hx) as (neigh & d & En & _). apply elem_of_seq. apply lookup_lt_Some in En. lia.
Qed.

Lemma numbered g x : x ∈ set_n1 (init_cache g) -> exists x0, x0 ∈ set_n1 g /\ n1_link x = n1_link x0 /\ n1_neigh x = n1_neigh x0.
Proof. intros (j & x0 & E & ->)%init_n1. exists x0. by apply list_elem_of_lookup_2 in E. Qed.

Lemma routing_costs g : graph_wf g -> graph_costs g c1 c2 (d1 (set_n1 (init_cache g))) will.
Proof.
  intros [W1 W2 W3 [W4 _] W5]. split; try done.
  - intros x Hx. by destruct (W3 x Hx) as (neigh & d & _ & _ & _ & _ & _ & ?).
  - intros x (x0 & H0 & _ & E)%numbered. simpl. unfold c1, _calculate_d1_x. rewrite E. by apply (rt_c1_ok x0), W3.
  - intros x a (x0 & H0 & _ & E)%numbered. simpl. unfold c2, _calculate_d2_x_y. rewrite E. by apply (rt_c2_ok x0), W3.
  - intros a. apply rt_d1_ok, Forall_forall. intros x (x0 & H0 & _ & E)%numbered. exists x0. split; [by apply W3|done].
  - intros x (x0 & H0 & _ & E)%numbered. destruct (W3 x0 H0) as (neigh & d & En & _ & Ed & _).
    unfold will. simpl. unfold _get_willingness_n1, get_neigh. rewrite E, En. simpl. by rewrite Ed.
Qed.

(** A neighbor in N1 that asks to be always chosen as routing MPR stops
    the selection with a NULL pointer: the nodes of the routing graph have no
    link, and [_process_will_always] reads the neighbor over the link. *)
Theorem routing_will_always_null_link f g : mpr_calculate_neighbor_graph_routing (selection f) = Def g ->
  (exists x, x ∈ set_n1 g /\ will x = RFC7181_WILLINGNESS_ALWAYS) -> _cb_update_routing_mpr true f = Undef UB_null.
Proof.
  intros E (x & Hx & Hw). unfold _cb_update_routing_mpr. simpl. rewrite E. simpl.
  destruct (routing_graph (selection f)) as (g0 & E0 & W). rewrite E in E0. injection E0 as <-.
  pose proof (routing_costs g W) as C. unfold mpr_calculate_mpr_rfc7181.
  destruct (calculate_n_runs g _ _ _ _ C (fr_n _ (gw_fresh _ W))) as (g1 & -> & En). simpl. unfold _process_will_always.
  rewrite En. rewrite will_always_null; [done| |].
  - intros z Hz. exists (will z). split; [by apply (gl_will _ _ _ _ _ C)|]. apply numbered in Hz as (z0 & Hz0 & -> & _).
    by destruct (gw_n1_ok _ W z0 Hz0) as (neigh & d & _ & ? & _).
  - apply list_elem_of_lookup in Hx as [j Hj]. exists (set_n1_offset j x).
    assert (set_n1_offset j x ∈ set_n1 (init_cache g)) as Hin by (simpl; apply elem_of_lookup_imap; by exists j, x).
    split; [done|]. rewrite (gl_will _ _ _ _ _ C _ Hin). by rewrite <- Hw.
Qed.

(** ** Where the selection is right *)

(** Nobody must be chosen, and the links of a neighbor agree on the two-hop
    addresses that can be used. *)
Context (Hnever : forall x, n1_ok x -> will x <> RFC7181_WILLINGNESS_ALWAYS).
Context (Hagree : forall n neigh l lnk t m a, _neigh_list db !! n = Some neigh -> usable (_links neigh) a -> l ∈ _links neigh ->
  _link_list db !! l = Some lnk -> t ∈ _2hop lnk -> twohop_addr t = a -> nhdp_domain_get_l2hopdata dom t = Def m ->
  m_in m <= RFC7181_METRIC_MAX).

Lemma rt_c2_max n1 a : n2_from n1 a -> exists x, x ∈ n1 /\ c2 x a <= RFC7181_METRIC_MAX.
Proof.
  intros (x & neigh & Hx & En & Hu). exists x. split; [done|]. unfold c2, _calculate_d2_x_y, get_neigh. rewrite En. simpl.
  pose proof (no_links _ _ (db_neighs _ Hdb _ _ En)) as Hls. pose proof Hu as (l0 & lnk0 & t0 & m0 & Hl0 & El0 & Ht0 & Ea0 & _).
  assert (forall l, l ∈ _links neigh -> l ∈ _links neigh) as Hsub by done.
  revert Hsub Hl0 Hls. generalize (_links neigh) at 1 3 4 5. induction l as [|l ls IH]; intros Hsub Hl0 Hls; [by apply elem_of_nil in Hl0|].
  apply Forall_cons in Hls as [Hl Hls]. destruct (get_link_ok db l Hl) as (lnk & El & E). simpl. rewrite E. simpl.
  pose proof (db_links _ Hdb _ _ El) as Hlnk.
  destruct (tree_find twohop_addr avl_comp_netaddr a (_2hop lnk)) as [t|] eqn:Et.
  - apply tree_find_sound in Et as [Ht Hk]. apply netaddr_cmp_eq in Hk. pose proof (lo_2hops _ _ _ Hlnk) as H2. rewrite Forall_forall in H2.
    destruct (l2hopdata_ok dom Hdom l t (H2 t Ht)) as (m & Em & _). rewrite Em. simpl.
    eapply (Hagree _ neigh l lnk t m a); try done. apply Hsub. by left.
  - apply IH; [intros; apply Hsub; by right| |done]. apply elem_of_cons in Hl0 as [->|]; [|done]. exfalso.
    rewrite El in El0. injection El0 as <-.
    rewrite (tree_find_complete twohop_addr avl_comp_netaddr a (_2hop lnk) t0) in Et; [done|by apply Hlnk|done|by apply netaddr_cmp_eq].
Qed.

Lemma routing_laws g : graph_wf g -> graph_laws g c1 c2 (d1 (set_n1 (init_cache g))) will.
Proof.
  intros W. split; [by apply routing_costs| |].
  - intros x (x0 & H0 & _ & E)%numbered Hw. exfalso. apply (Hnever x0); [by apply (gw_n1_ok _ W)|].
    rewrite <- Hw. unfold will, _get_willingness_n1. by rewrite E.
  - intros y Hy. destruct (rt_c2_max (set_n1 g) (an_addr y)) as (x & Hx & Hc).
    { apply (gw_n2 _ W). apply list_elem_of_fmap. by exists y. }
    apply list_elem_of_lookup in Hx as [j Hj]. exists (set_n1_offset j x).
    split; [simpl; apply elem_of_lookup_imap; by exists j, x|]. exact Hc.
Qed.

Lemma rt_update_flags_ok ls g flags : Forall (fun l => (l < length (_link_list db))%nat) ls ->
  exists flags', _update_nhdp_routing ls g flags = Def flags' /\ forall n,
    ((exists l lnk, l ∈ ls /\ _link_list db !! l = Some lnk /\ l_neigh lnk = n) ->
      n ∈ flags' <-> mpr_is_mpr g (originator_of n) = true) /\
    ((forall l lnk, l ∈ ls -> _link_list db !! l = Some lnk -> l_neigh lnk <> n) -> n ∈ flags' <-> n ∈ flags).
Proof.
  revert flags. induction ls as [|l ls IH]; intros flags Hls; simpl.
  { exists flags. split; [done|]. intros n. split; [|done]. by intros (l & lnk & ?%elem_of_nil & _). }
  apply Forall_cons in Hls as [Hl Hls]. destruct (get_link_ok db l Hl) as (lnk & El & ->). simpl.
  destruct (get_neigh_ok db _ (lo_neigh _ _ _ (db_links _ Hdb _ _ El))) as (neigh & En & ->). simpl.
  destruct (neighbordata_ok dom Hdom db neigh (db_neighs _ Hdb _ _ En)) as (d & -> & _). simpl.
  assert (originator neigh = originator_of (l_neigh lnk)) as -> by (unfold originator_of; simpl; by rewrite En).
  set (f1 := if _ : bool then _ else _). destruct (IH f1 Hls) as (f' & E & H). exists f'. split; [exact E|].
  intros n. destruct (H n) as [Hin Hout].
  assert (n = l_neigh lnk -> n ∈ f1 <-> mpr_is_mpr g (originator_of n) = true) as Hf1.
  { intros ->. unfold f1. destruct (mpr_is_mpr _ _); set_solver. }
  destruct (decide (Exists (fun l => l_neigh <$> _link_list db !! l = Some n) ls)) as [Hex|Hno].
  - apply Exists_exists in Hex as (l' & Hl' & (lnk' & Elnk & En')%fmap_Some).
    split; [|intros Hall; exfalso; eapply (Hall l' lnk'); [by right|done|done]]. intros _. apply Hin. by exists l', lnk'.
  - assert (forall l lnk, l ∈ ls -> _link_list db !! l = Some lnk -> l_neigh lnk <> n) as Hn.
    { intros l' lnk' Hl' El' E'. apply Hno. apply Exists_exists. exists l'. split; [done|]. rewrite El'. simpl. by rewrite E'. }
    rewrite (Hout Hn). split.
    + intros (l' & lnk' & [->|Hl']%elem_of_cons & El' & E'); [|by apply Hn in El'].
      rewrite El in El'. injection El' as <-. by apply Hf1.
    + intros Hall. assert (l_neigh lnk <> n) by (apply (Hall l); [by left|done]). unfold f1. destruct (mpr_is_mpr _ _); set_solver.
Qed.

End routing.

(** ** Witnesses *)

(** The database of the flooding example; its second neighbor has routing
    willingness ALWAYS in the domain 0. *)
Lemma routing_will_always_null_link_witness :
  _cb_update_routing_mpr ex_db 0 true {| selection := ∅; neigh_is_flooding_mpr := ∅; neigh_is_mpr := ∅ |} = Undef UB_null.
Proof.
  destruct (mpr_calculate_neighbor_graph_routing ex_db 0 ∅) as [g|] eqn:E; [|by vm_compute in E].
  apply (routing_will_always_null_link ex_db 0 ex_db_ok ltac:(unfold NHDP_MAXIMUM_DOMAINS; lia) ltac:(vm_compute; done)
    {| selection := ∅; neigh_is_flooding_mpr := ∅; neigh_is_mpr := ∅ |} g E).
  vm_compute in E. injection E as <-. eexists. split; [right; left|]. vm_compute. reflexivity.
Defined.

Definition ex_db' : nhdp_db := {|
  _link_list := _link_list ex_db; _neigh_list := [ex_neigh 1 0 7; ex_neigh 2 1 3]; _if_links := _if_links ex_db |}.

Lemma ex_db'_ok : db_ok ex_db'.
Proof.
  split.
  - intros [|[|l]] lnk E; simpl in E; [..|by destruct l]; injection E as <-;
      (split; [simpl; lia|repeat constructor; vm_compute; done|repeat constructor; simpl; lia|done|repeat constructor; simpl; lia]).
  - intros [|[|l]] lnk E; simpl in E; [..|by destruct l]; injection E as <-;
      (split; [repeat constructor; simpl; lia|done|repeat constructor; simpl; lia]).
  - intros [|l] ls E; simpl in E; [|by destruct l]. injection E as <-. repeat constructor; simpl; lia.
Qed.


(** Two links to one neighbor: the first knows a two-hop address with an
    infinite metric, the second reaches it. *)
Definition ex_db2 : nhdp_db := {|
  _link_list := [ex_link 0 7 [ex_l2hop 0 11 RFC7181_METRIC_INFINITE]; ex_link 0 7 [ex_l2hop 1 11 256]];
  _neigh_list := [{| originator := ex_addr 1; symmetric := 2; _links := [0; 1]%nat; _neigh_addresses := [ex_addr 1];
     n_domaindata := replicate 4 {| nd_metric := {| m_in := 256; m_out := 256 |}; best_out_link := Some 0%nat; best_link_ifindex := 1; willingness := 7 |} |}];
  _if_links := [[0]; [1]]%nat |}.

(** With two links to one neighbor the selection may abort: N2 holds an
    address that the second link reaches, but [_calculate_d2_x_y] answers the
    infinite metric of the first link's entry, so that
    [_process_unique_mprs] finds no possible MPR and its assertion fails. *)
Theorem routing_two_links_abort :
  db_ok ex_db2 /\ _cb_update_routing_mpr ex_db2 0 true {| selection := ∅; neigh_is_flooding_mpr := ∅; neigh_is_mpr := ∅ |} =
    Undef Assert_failed.
Proof.
  split; [|vm_compute; reflexivity]. split.
  - intros [|[|l]] lnk E; simpl in E; [..|by destruct l]; injection E as <-;
      (split; [simpl; lia|repeat constructor; vm_compute; done|repeat constructor; simpl; unfold RFC7181_METRIC_INFINITE; lia|done|repeat constructor; simpl; lia]).
  - intros [|l] lnk E; simpl in E; [|by destruct l]; injection E as <-;
      (split; [repeat constructor; simpl; lia|done|repeat constructor; simpl; lia]).
  - intros [|[|l]] ls E; simpl in E; [..|by destruct l]; injection E as <-; repeat constructor; simpl; lia.
Qed.
