(* ===== verification/RoutingSet.v ===== *)
(** The routing set of OLSRv2: the entries of a domain in
    src/olsrv2/olsrv2/olsrv2_routing.c and what they are checked against
    (olsrv2_originator.c, olsrv2_lan.h, olsrv2.c). *)

From Stdlib Require Import ZArith Lia Sorted.
From stdpp Require Import base list numbers option gmap sets.
From S2P Require Import Prelude AvlSpec Netaddr NetaddrAcl MprSelection NhdpDb.

Local Open Scope Z_scope.
Local Open Scope cint_scope.

(** ** Route keys *)

Record os_route_key := { rk_dst : netaddr; rk_src : netaddr }.

#[export] Instance os_route_key_eq_dec : EqDecision os_route_key.
Proof. solve_decision. Defined.

(** [os_routing_avl_cmp_route_key]: [memcmp] over both addresses, which have
    the same size *)
Definition os_routing_avl_cmp_route_key (a b : os_route_key) : Z :=
  let d := netaddr_cmp (rk_dst a) (rk_dst b) in if d =? 0 then netaddr_cmp (rk_src a) (rk_src b) else d.

Definition NETADDR_IPV4_ANY : netaddr := {| na_addr := zeros 16; na_type := AF_INET; na_prefix_len := 0 |}.
Definition NETADDR_IPV6_ANY : netaddr := {| na_addr := zeros 16; na_type := AF_INET6; na_prefix_len := 0 |}.
Definition netaddr_invalidate : netaddr := {| na_addr := zeros 16; na_type := 0; na_prefix_len := 0 |}.

(** [os_routing_init_sourcespec_prefix] *)
Definition os_routing_init_sourcespec_prefix (destination : netaddr) : os_route_key :=
  {| rk_dst := destination;
     rk_src := if na_type destination =? AF_INET then NETADDR_IPV4_ANY
               else if na_type destination =? AF_INET6 then NETADDR_IPV6_ANY else netaddr_invalidate |}.

(** ** Entries *)

Definition OS_ROUTE_UNICAST : Z := 1.

Record os_route_parameter := {
  family : Z;
  rp_type : Z;
  rp_key : os_route_key;
  gw : netaddr;
  src_ip : netaddr;
  rp_metric : Z;
  table : Z;
  protocol : Z;
  if_index : Z;
}.

#[export] Instance os_route_parameter_eq_dec : EqDecision os_route_parameter.
Proof. solve_decision. Defined.

Record olsrv2_routing_entry := {
  route : os_route_parameter;
  rt_path_cost : Z;
  rt_path_hops : Z;
  rt_originator : netaddr;
  next_originator : netaddr;
  rt_last_originator : netaddr;
  rt_set : bool;
  in_processing : bool;
  _old : os_route_parameter;
}.

(** What the checks of a route read: the domain, the local originators, the
    addresses of the local interfaces, the attached networks and the
    configuration. [rtset_malloc] says for which keys there is memory for a
    new entry. *)
Record olsrv2_lan_domaindata := { outgoing_metric : Z; lan_distance : Z; lan_active : bool }.
Record olsrv2_lan_entry := { lan_prefix : os_route_key; lan_domaindata : list olsrv2_lan_domaindata }.

Record olsrv2_env := {
  _originator_v4 : netaddr;
  _originator_v6 : netaddr;
  _originator_set_tree : list netaddr;
  interface_addresses : list netaddr;
  _lan_tree : list olsrv2_lan_entry;
  routable_acl : netaddr_acl;
  nhdp_routable : bool;
  rtset_malloc : os_route_key -> bool;
}.

Section env.
Context (env : olsrv2_env).

(** [NULL] for any other address family *)
Definition olsrv2_originator_get (af_type : Z) : option netaddr :=
  if af_type =? AF_INET then Some (_originator_v4 env)
  else if af_type =? AF_INET6 then Some (_originator_v6 env) else None.

Definition olsrv2_originator_is_local (addr : netaddr) : bool :=
  if netaddr_cmp (_originator_v4 env) addr =? 0 then true
  else if netaddr_cmp (_originator_v6 env) addr =? 0 then true
  else match tree_find id avl_comp_netaddr addr (_originator_set_tree env) with Some _ => true | None => false end.

Definition nhdp_interface_addr_global_get (addr : netaddr) : option netaddr :=
  tree_find id avl_comp_netaddr addr (interface_addresses env).

Definition olsrv2_lan_get (prefix : os_route_key) : option olsrv2_lan_entry :=
  tree_find lan_prefix os_routing_avl_cmp_route_key prefix (_lan_tree env).
Definition olsrv2_lan_get_domaindata (dom : nat) (lan : olsrv2_lan_entry) : outcome olsrv2_lan_domaindata :=
  match lan_domaindata lan !! dom with Some d => Def d | None => Undef UB_read end.

Definition olsrv2_is_routable (addr : netaddr) : outcome bool := netaddr_acl_check_accept (routable_acl env) addr.
Definition olsrv2_is_nhdp_routable (addr : netaddr) : outcome bool :=
  if negb (nhdp_routable env) then Def false else olsrv2_is_routable addr.

(** ** Adding entries *)

Definition rt_key (e : olsrv2_routing_entry) : os_route_key := rp_key (route e).

(** The cleared memory of a new entry, initialised. *)
Definition no_route (prefix : os_route_key) (fam ty : Z) : os_route_parameter :=
  {| family := fam; rp_type := ty; rp_key := prefix; gw := netaddr_invalidate; src_ip := netaddr_invalidate;
     rp_metric := 0; table := 0; protocol := 0; if_index := 0 |}.
Definition new_entry (prefix : os_route_key) : olsrv2_routing_entry :=
  {| route := no_route prefix (na_type (rk_dst prefix)) OS_ROUTE_UNICAST;
     rt_path_cost := RFC7181_METRIC_INFINITE_PATH; rt_path_hops := 255;
     rt_originator := netaddr_invalidate; next_originator := netaddr_invalidate; rt_last_originator := netaddr_invalidate;
     rt_set := false; in_processing := false;
     _old := no_route {| rk_dst := netaddr_invalidate; rk_src := netaddr_invalidate |} 0 0 |}.

Notation find_entry := (tree_find rt_key os_routing_avl_cmp_route_key).

(** [_add_entry]: the tree and the entry, [None] without memory *)
Definition _add_entry (prefix : os_route_key) (rt : list olsrv2_routing_entry)
    : option olsrv2_routing_entry * list olsrv2_routing_entry :=
  match find_entry prefix rt with
  | Some e => (Some e, rt)
  | None =>
      if negb (rtset_malloc env prefix) then (None, rt)
      else (Some (new_entry prefix), default rt (tree_insert rt_key os_routing_avl_cmp_route_key (new_entry prefix) rt))
  end.

(** Writing through the pointer to an entry. *)
Definition put_entry (e : olsrv2_routing_entry) (rt : list olsrv2_routing_entry) : list olsrv2_routing_entry :=
  map (fun x => if decide (rt_key x = rt_key e) then e else x) rt.

(** The arguments of [_update_routing_entry]. *)
Record route_offer := {
  dst_prefix : os_route_key;
  dst_originator : netaddr;
  o_first_hop : nat;
  o_distance : Z;
  pathcost : Z;
  path_hops : Z;
  single_hop : bool;
  last_originator : netaddr;
}.

Context (db : nhdp_db) (dom : nat).

(** The test for destinations of the local node. *)
Definition is_local_destination (o : route_offer) : outcome bool :=
  match olsrv2_originator_get (na_type (rk_dst (dst_prefix o))) with
  | None => Undef UB_null
  | Some originator =>
      if netaddr_cmp originator (rk_dst (dst_prefix o)) =? 0 then Def true
      else if bool_decide (is_Some (nhdp_interface_addr_global_get (rk_dst (dst_prefix o)))) then Def true
      else
        match olsrv2_lan_get (dst_prefix o) with
        | Some lan =>
            landata ← olsrv2_lan_get_domaindata dom lan;
            Def (lan_active landata && (outgoing_metric landata <? pathcost o))
        | None => Def false
        end
  end.

Definition _update_routing_entry (o : route_offer) (rt : list olsrv2_routing_entry) : outcome (list olsrv2_routing_entry) :=
  is_local ← is_local_destination o;
  if is_local : bool then Def rt
  else
    routable ← olsrv2_is_routable (rk_dst (dst_prefix o));
    if negb routable then Def rt
    else
      match _add_entry (dst_prefix o) rt with
      | (None, rt) => Def rt
      | (Some rtentry, rt) =>
          if rt_set rtentry && (rt_path_cost rtentry <? pathcost o) then Def rt
          else
            first_hop ← get_neigh db (o_first_hop o);
            neighdata ← nhdp_domain_get_neighbordata dom first_hop;
            match best_out_link neighdata with
            | None => Undef UB_null
            | Some l =>
                lnk ← get_link db l;
                let gateway := if single_hop o && (netaddr_cmp (if_addr lnk) (rk_dst (rp_key (route rtentry))) =? 0)
                               then netaddr_invalidate else if_addr lnk in
                Def (put_entry {|
                  route := {| family := family (route rtentry); rp_type := rp_type (route rtentry); rp_key := rp_key (route rtentry);
                              gw := gateway; src_ip := src_ip (route rtentry); rp_metric := o_distance o;
                              table := table (route rtentry); protocol := protocol (route rtentry);
                              if_index := best_link_ifindex neighdata |};
                  rt_path_cost := pathcost o; rt_path_hops := path_hops o; rt_originator := dst_originator o;
                  next_originator := originator first_hop; rt_last_originator := last_originator o; rt_set := true;
                  in_processing := in_processing rtentry; _old := _old rtentry |} rt)
            end
      end.

(** [_prepare_routes] *)
Definition _prepare_routes (rt : list olsrv2_routing_entry) : list olsrv2_routing_entry :=
  map (fun e => {| route := route e; rt_path_cost := rt_path_cost e; rt_path_hops := rt_path_hops e;
    rt_originator := rt_originator e; next_originator := next_originator e; rt_last_originator := rt_last_originator e;
    rt_set := false; in_processing := in_processing e; _old := route e |}) rt.
End env.

(** ** Keys *)

Lemma rtkey_cmp_eq a b : os_routing_avl_cmp_route_key a b = 0 <-> a = b.
Proof.
  unfold os_routing_avl_cmp_route_key. destruct (Z.eqb_spec (netaddr_cmp (rk_dst a) (rk_dst b)) 0) as [E|E].
  - rewrite netaddr_cmp_eq in E. rewrite netaddr_cmp_eq. destruct a, b; simpl in *. split; [by intros ->; subst|by intros [= -> ->]].
  - split; [done|]. intros ->. exfalso. apply E. by apply netaddr_cmp_eq.
Qed.

#[export] Instance rtkey_comparator : Comparator os_routing_avl_cmp_route_key.
Proof.
  split.
  - intros x. by apply rtkey_cmp_eq.
  - intros x y. unfold os_routing_avl_cmp_route_key.
    destruct (Z.eqb_spec (netaddr_cmp (rk_dst x) (rk_dst y)) 0) as [E|E], (Z.eqb_spec (netaddr_cmp (rk_dst y) (rk_dst x)) 0) as [F|F].
    + apply cmp_flip.
    + apply netaddr_cmp_eq in E. exfalso. apply F. by apply netaddr_cmp_eq.
    + apply netaddr_cmp_eq in F. exfalso. apply E. by apply netaddr_cmp_eq.
    + apply cmp_flip.
  - intros x y z. unfold os_routing_avl_cmp_route_key.
    destruct (Z.eqb_spec (netaddr_cmp (rk_dst x) (rk_dst y)) 0) as [E|E].
    + apply netaddr_cmp_eq in E. rewrite E. destruct (Z.eqb_spec (netaddr_cmp (rk_dst y) (rk_dst z)) 0); [apply cmp_trans|done].
    + destruct (Z.eqb_spec (netaddr_cmp (rk_dst y) (rk_dst z)) 0) as [F|F].
      * apply netaddr_cmp_eq in F. rewrite <- F. destruct (Z.eqb_spec (netaddr_cmp (rk_dst x) (rk_dst y)) 0); [done|lia].
      * intros H1 H2. pose proof (cmp_lt_trans_l netaddr_cmp (rk_dst x) (rk_dst y) (rk_dst z) ltac:(lia) H2).
        destruct (Z.eqb_spec (netaddr_cmp (rk_dst x) (rk_dst z)) 0); lia.
Qed.

Notation rt_strict := (tree_strict rt_key os_routing_avl_cmp_route_key).
Notation find_entry := (tree_find rt_key os_routing_avl_cmp_route_key).

Lemma find_entry_key k rt e : find_entry k rt = Some e -> e ∈ rt /\ rt_key e = k.
Proof. intros [H E]%tree_find_sound. by apply rtkey_cmp_eq in E. Qed.

Lemma find_entry_in k rt e : rt_strict rt -> e ∈ rt -> rt_key e = k -> find_entry k rt = Some e.
Proof. intros Hs He Hk. apply (tree_find_complete rt_key os_routing_avl_cmp_route_key); [done..|]. apply rtkey_cmp_eq. congruence. Qed.

(** Replacing an entry by one with the same key. *)
Lemma put_entry_strict e rt : rt_strict rt -> rt_strict (put_entry e rt).
Proof. apply tree_strict_map. intros x _. by case_decide. Qed.

Lemma find_put_entry e rt k : rt_strict rt -> find_entry (rt_key e) rt <> None ->
  find_entry k (put_entry e rt) = if decide (k = rt_key e) then Some e else find_entry k rt.
Proof.
  intros Hs Hin. destruct (find_entry (rt_key e) rt) as [e0|] eqn:E0; [|done]. apply find_entry_key in E0 as [He0 Ek0].
  case_decide as Hk.
  - subst k. apply find_entry_in; [by apply put_entry_strict| |done]. apply list_elem_of_fmap. exists e0.
    split; [by rewrite decide_True|done].
  - destruct (find_entry k rt) as [e1|] eqn:E1.
    + apply find_entry_key in E1 as [He1 Ek1]. apply find_entry_in; [by apply put_entry_strict| |done].
      apply list_elem_of_fmap. exists e1. split; [|done]. rewrite decide_False; [done|congruence].
    + destruct (find_entry k (put_entry e rt)) as [e2|] eqn:E2; [|done]. exfalso.
      apply find_entry_key in E2 as [(x & -> & Hx)%list_elem_of_fmap Ek]. case_decide as Hd; [done|].
      rewrite (find_entry_in k rt x) in E1; [done|done|done|done].
Qed.

Lemma find_insert_entry e rt rt' k : rt_strict rt -> tree_insert rt_key os_routing_avl_cmp_route_key e rt = Some rt' ->
  find_entry k rt' = if decide (k = rt_key e) then Some e else find_entry k rt.
Proof.
  intros Hs Hi. assert (rt_strict rt') as Hs' by (by eapply (tree_insert_strict rt_key os_routing_avl_cmp_route_key)).
  assert (forall z, z ∈ rt' <-> z = e \/ z ∈ rt) as Hin by (intros z; by eapply (tree_insert_elem rt_key os_routing_avl_cmp_route_key)).
  case_decide as Hk.
  - subst k. apply find_entry_in; [done|apply Hin; by left|done].
  - destruct (find_entry k rt) as [e1|] eqn:E1.
    + apply find_entry_key in E1 as [He1 Ek1]. apply find_entry_in; [done|apply Hin; by right|done].
    + destruct (find_entry k rt') as [e2|] eqn:E2; [|done]. exfalso. apply find_entry_key in E2 as [[->|He2]%Hin Ek]; [done|].
      by rewrite (find_entry_in k rt e2) in E1.
Qed.

(** ** The cheapest offer wins *)

Section offers.
Context (env : olsrv2_env) (db : nhdp_db) (dom : nat).

Fixpoint update_all (os : list route_offer) (rt : list olsrv2_routing_entry) : outcome (list olsrv2_routing_entry) :=
  match os with [] => Def rt | o :: os => rt ← _update_routing_entry env db dom o rt; update_all os rt end.

Lemma update_all_app os1 os2 rt : update_all (os1 ++ os2) rt = (rt ← update_all os1 rt; update_all os2 rt).
Proof.
  revert rt. induction os1 as [|o os1 IH]; intros rt; simpl; [done|].
  destruct (_update_routing_entry env db dom o rt) as [rt'|]; simpl; [apply IH|done].
Qed.

(** Gateway, interface and next hop of an offer. *)
Definition hop_of (o : route_offer) : outcome (netaddr * Z * netaddr) :=
  first_hop ← get_neigh db (o_first_hop o);
  neighdata ← nhdp_domain_get_neighbordata dom first_hop;
  match best_out_link neighdata with
  | None => Undef UB_null
  | Some l =>
      lnk ← get_link db l;
      Def (if single_hop o && (netaddr_cmp (if_addr lnk) (rk_dst (dst_prefix o)) =? 0) then netaddr_invalidate else if_addr lnk,
           best_link_ifindex neighdata, originator first_hop)
  end.

(** The entry was written from the offer. *)
Record shows (e : olsrv2_routing_entry) (o : route_offer) : Prop := {
  sh_set : rt_set e = true;
  sh_key : rt_key e = dst_prefix o;
  sh_cost : rt_path_cost e = pathcost o;
  sh_hops : rt_path_hops e = path_hops o;
  sh_metric : rp_metric (route e) = o_distance o;
  sh_originator : rt_originator e = dst_originator o;
  sh_last : rt_last_originator e = last_originator o;
  sh_hop : hop_of o = Def (gw (route e), if_index (route e), next_originator e);
}.

(** Nothing an update of [o] reads is missing. *)
Definition offer_ok (o : route_offer) : Prop :=
  is_def (is_local_destination env dom o) /\ is_def (olsrv2_is_routable env (rk_dst (dst_prefix o))) /\ is_def (hop_of o).

(** The offer passes the checks. *)
Definition acceptable (o : route_offer) : Prop :=
  is_local_destination env dom o = Def false /\ olsrv2_is_routable env (rk_dst (dst_prefix o)) = Def true.

#[local] Instance acceptable_dec o : Decision (acceptable o).
Proof.
  unfold acceptable. destruct (is_local_destination env dom o) as [[]|], (olsrv2_is_routable _ _) as [[]|];
    first [by right; intros [? ?]|by left].
Defined.

(** The winner: the last one of the cheapest. *)
Definition beats (b : option route_offer) (o : route_offer) : option route_offer :=
  match b with Some o' => if pathcost o' <? pathcost o then b else Some o | None => Some o end.
Definition winner (os : list route_offer) : option route_offer := foldl beats None os.

Lemma winner_snoc os o : winner (os ++ [o]) = beats (winner os) o.
Proof. unfold winner. by rewrite foldl_app. Qed.

Lemma winner_spec os : match winner os with
  | None => os = []
  | Some o => o ∈ os /\ forall o', o' ∈ os -> pathcost o <= pathcost o'
  end.
Proof.
  induction os as [|o os IH] using rev_ind; [done|]. rewrite winner_snoc.
  assert (forall x, x ∈ os ++ [o] <-> x ∈ os \/ x = o) as Hin by (intros x; rewrite elem_of_app, list_elem_of_singleton; done).
  destruct (winner os) as [w|]; simpl.
  - destruct IH as [Hw Hmin]. destruct (Z.ltb_spec (pathcost w) (pathcost o)) as [Hlt|Hge].
    + split; [apply Hin; by left|]. intros x [Hx| ->]%Hin; [by apply Hmin|lia].
    + split; [apply Hin; by right|]. intros x [Hx| ->]%Hin; [|lia]. specialize (Hmin x Hx). lia.
  - subst os. simpl. split; [by left|]. intros x Hx. apply list_elem_of_singleton in Hx as ->. lia.
Qed.

(** The offers for one key that count. *)
Definition offers_for (k : os_route_key) (os : list route_offer) : list route_offer :=
  filter (fun o => acceptable o /\ dst_prefix o = k) os.

(** There is, or can be, an entry for [k]. *)
Definition has_memory (k : os_route_key) (rt : list olsrv2_routing_entry) : Prop :=
  find_entry k rt <> None \/ rtset_malloc env k = true.

(** What the offers [os] have made of the prepared routes [rt0]. *)
Record routes_follow (rt0 : list olsrv2_routing_entry) (os : list route_offer) (rt : list olsrv2_routing_entry) : Prop := {
  rf_strict : rt_strict rt;
  rf_won k o : has_memory k rt0 -> winner (offers_for k os) = Some o ->
    exists e, find_entry k rt = Some e /\ shows e o /\
      (forall e0, find_entry k rt0 = Some e0 -> in_processing e = in_processing e0 /\ _old e = _old e0);
  rf_none k : winner (offers_for k os) = None \/ ~ has_memory k rt0 -> find_entry k rt = find_entry k rt0;
}.

Lemma update_local o rt : offer_ok o -> ~ acceptable o -> _update_routing_entry env db dom o rt = Def rt.
Proof.
  intros ([l Hl] & [r Hr] & _) Hn. unfold _update_routing_entry. rewrite Hl, Hr. simpl. destruct l; [done|].
  destruct r; [|done]. by destruct Hn.
Qed.

(** What is written into the entry [e]. *)
Lemma update_write e o rt g i n : rt_strict rt -> acceptable o -> hop_of o = Def (g, i, n) -> rt_key e = dst_prefix o ->
  (_add_entry env (dst_prefix o) rt).1 = Some e -> rt_set e && (rt_path_cost e <? pathcost o) = false ->
  exists e', shows e' o /\ in_processing e' = in_processing e /\ _old e' = _old e /\
    _update_routing_entry env db dom o rt = Def (put_entry e' (_add_entry env (dst_prefix o) rt).2).
Proof.
  intros Hs [Hl Hr] Hh Hk Ha Hc. unfold _update_routing_entry. rewrite Hl, Hr. simpl.
  destruct (_add_entry env (dst_prefix o) rt) as [eo rt1] eqn:E. simpl in Ha. subst eo. rewrite Hc. pose proof Hh as Hh'. unfold hop_of in Hh'.
  destruct (get_neigh db (o_first_hop o)) as [neigh|]; [|done]. simpl in Hh' |- *.
  destruct (nhdp_domain_get_neighbordata dom neigh) as [nd|]; [|done]. simpl in Hh' |- *.
  destruct (best_out_link nd) as [l|]; [|done]. destruct (get_link db l) as [lnk|]; [|done]. simpl in Hh' |- *.
  injection Hh' as Eg Ei En. unfold rt_key in Hk. rewrite Hk. eexists. split; [|split; [|split; [|done]]]; [|done|done].
  split; simpl; try done. rewrite Hh. simpl. congruence.
Qed.

Lemma offers_for_snoc k os o : offers_for k (os ++ [o]) = offers_for k os ++ (if decide (acceptable o /\ dst_prefix o = k) then [o] else []).
Proof. unfold offers_for. by rewrite filter_app. Qed.

Lemma routes_follow_other rt0 os rt o rt' : routes_follow rt0 os rt -> rt_strict rt' ->
  (forall k, k <> dst_prefix o -> find_entry k rt' = find_entry k rt) ->
  (forall k o', k = dst_prefix o -> has_memory k rt0 -> winner (offers_for k (os ++ [o])) = Some o' ->
    exists e, find_entry k rt' = Some e /\ shows e o' /\
      (forall e0, find_entry k rt0 = Some e0 -> in_processing e = in_processing e0 /\ _old e = _old e0)) ->
  (forall k, k = dst_prefix o -> winner (offers_for k (os ++ [o])) = None \/ ~ has_memory k rt0 -> find_entry k rt' = find_entry k rt0) ->
  routes_follow rt0 (os ++ [o]) rt'.
Proof.
  intros [H1 H2 H3] Hs Hother Hwon Hnone.
  assert (forall k, k <> dst_prefix o -> offers_for k (os ++ [o]) = offers_for k os) as Hof.
  { intros k Hk. rewrite offers_for_snoc, decide_False, app_nil_r; [done|]. intros [_ ?]. congruence. }
  split; [done| |].
  - intros k o' Hm Hw. destruct (decide (k = dst_prefix o)) as [Hk|Hk]; [by apply Hwon|].
    rewrite (Hof k Hk) in Hw. rewrite (Hother k Hk). by apply H2.
  - intros k Hk'. destruct (decide (k = dst_prefix o)) as [Hk|Hk]; [by apply Hnone|].
    rewrite (Hof k Hk) in Hk'. rewrite (Hother k Hk). by apply H3.
Qed.

(** All entries are reset before an update of the domain. *)
Definition prepared (rt : list olsrv2_routing_entry) : Prop := rt_strict rt /\ Forall (fun e => rt_set e = false) rt.

Lemma update_follow rt0 os rt o : prepared rt0 -> routes_follow rt0 os rt -> offer_ok o ->
  exists rt', _update_routing_entry env db dom o rt = Def rt' /\ routes_follow rt0 (os ++ [o]) rt'.
Proof.
  intros [Hs0 Hp0] Hf Ho. destruct (decide (acceptable o)) as [Ha|Hn].
  2: { exists rt. split; [by apply update_local|]. destruct Hf as [H1 H2 H3]. split; [done|..]; intros k; rewrite offers_for_snoc.
       all: rewrite decide_False, app_nil_r by tauto; auto. }
  set (k0 := dst_prefix o). pose proof Hf as [H1 H2 H3]. destruct Ho as (_ & _ & [[[g i] n] Hh]).
  assert (winner (offers_for k0 (os ++ [o])) = beats (winner (offers_for k0 os)) o) as Hw.
  { rewrite offers_for_snoc, decide_True by done. apply winner_snoc. }
  assert (forall e, find_entry k0 rt0 = Some e -> rt_set e = false) as Hset0.
  { intros e [He _]%find_entry_key. rewrite Forall_forall in Hp0. by apply Hp0. }
  destruct (find_entry k0 rt) as [e|] eqn:Ee.
  - (* the entry is there *)
    assert (_add_entry env k0 rt = (Some e, rt)) as Hadd by (unfold _add_entry; by rewrite Ee).
    apply find_entry_key in Ee as Hek. destruct Hek as [_ Hek].
    assert (has_memory k0 rt0) as Hm.
    { destruct (winner (offers_for k0 os)) as [w|] eqn:Ew.
      - destruct (rtset_malloc env k0) eqn:Em; [by right|]. left. intros E0.
        rewrite (H3 k0), E0 in Ee; [done|]. right. intros [|]; congruence.
      - left. by rewrite <- (H3 k0), Ee by (by left). }
    destruct (rt_set e && (rt_path_cost e <? pathcost o)) eqn:Ec.
    + exists rt. split.
      { unfold _update_routing_entry. destruct Ha as [-> ->]. simpl. fold k0. rewrite Hadd. by rewrite Ec. }
      apply andb_true_iff in Ec as [Eset Ecost].
      destruct (winner (offers_for k0 os)) as [w|] eqn:Ew.
      2: { rewrite (H3 k0) in Ee by (by left). rewrite (Hset0 e Ee) in Eset. done. }
      destruct (H2 k0 w Hm Ew) as (e1 & E1 & Hsh & Hold). rewrite Ee in E1. injection E1 as <-.
      simpl in Hw. rewrite (sh_cost _ _ Hsh) in Ecost. rewrite Ecost in Hw.
      apply (routes_follow_other rt0 os rt o); [done|done|done| |].
      * intros k o' -> _. fold k0. rewrite Hw. intros [= <-]. by exists e.
      * intros k ->. fold k0. rewrite Hw. by intros [|].
    + destruct (update_write e o rt g i n H1 Ha Hh Hek) as (e' & Hsh & Hip & Hold' & E); [by fold k0; rewrite Hadd|done|].
      fold k0 in E. rewrite Hadd in E. simpl in E. exists (put_entry e' rt). split; [done|].
      assert (rt_key e' = k0) as Hk' by (by apply Hsh).
      assert (forall k, find_entry k (put_entry e' rt) = if decide (k = k0) then Some e' else find_entry k rt) as Hfind.
      { intros k. rewrite find_put_entry by (first [done|by rewrite Hk', Ee]). by rewrite Hk'. }
      assert (winner (offers_for k0 (os ++ [o])) = Some o) as Hwo.
      { rewrite Hw. destruct (winner (offers_for k0 os)) as [w|] eqn:Ew; [|done]. simpl.
        destruct (H2 k0 w Hm Ew) as (e1 & E1 & Hsh1 & _). rewrite Ee in E1. injection E1 as <-.
        rewrite (sh_set _ _ Hsh1), (sh_cost _ _ Hsh1) in Ec. simpl in Ec. by rewrite Ec. }
      apply (routes_follow_other rt0 os rt o); [done|by apply put_entry_strict| | |].
      * intros k Hk. rewrite Hfind, decide_False by done. done.
      * intros k o' -> _. fold k0. rewrite Hwo. intros [= <-]. rewrite Hfind, decide_True by done. exists e'. split; [done|]. split; [done|].
        intros e0 E0. rewrite Hip, Hold'. destruct (winner (offers_for k0 os)) as [w|] eqn:Ew.
        { destruct (H2 k0 w Hm Ew) as (e1 & E1 & _ & Hold1). rewrite Ee in E1. injection E1 as <-. by apply Hold1. }
        rewrite <- (H3 k0), Ee in E0 by (by left). by injection E0 as <-.
      * intros k ->. fold k0. rewrite Hwo. by intros [|].
  - (* a new entry *)
    assert (find_entry k0 rt0 = None) as E0.
    { destruct (winner (offers_for k0 os)) as [w|] eqn:Ew; [|by rewrite <- (H3 k0), Ee by (by left)].
      destruct (find_entry k0 rt0) eqn:E0; [|done]. exfalso. destruct (H2 k0 w) as (e1 & E1 & _); [left; by rewrite E0|done|].
      rewrite Ee in E1. done. }
    destruct (rtset_malloc env k0) eqn:Em.
    + assert (exists rt1, tree_insert rt_key os_routing_avl_cmp_route_key (new_entry k0) rt = Some rt1) as [rt1 Hi].
      { destruct (tree_insert_new rt_key os_routing_avl_cmp_route_key (new_entry k0) rt Ee) as (rt1 & Hi & _). by exists rt1. }
      assert (_add_entry env k0 rt = (Some (new_entry k0), rt1)) as Hadd by (unfold _add_entry; by rewrite Ee, Em, Hi).
      destruct (update_write (new_entry k0) o rt g i n H1 Ha Hh eq_refl) as (e' & Hsh & _ & _ & E); [by fold k0; rewrite Hadd|done|].
      fold k0 in E. rewrite Hadd in E. simpl in E. exists (put_entry e' rt1). split; [done|].
      assert (rt_strict rt1) as Hs1 by (by eapply (tree_insert_strict rt_key os_routing_avl_cmp_route_key)).
      assert (rt_key e' = k0) as Hk' by (by apply Hsh).
      assert (forall k, find_entry k (put_entry e' rt1) = if decide (k = k0) then Some e' else find_entry k rt) as Hfind.
      { intros k. rewrite find_put_entry; [rewrite Hk'|done|].
        - destruct (decide (k = k0)) as [|Hd]; [done|]. rewrite (find_insert_entry _ _ _ k H1 Hi). by rewrite decide_False.
        - rewrite Hk', (find_insert_entry _ _ _ k0 H1 Hi). case_decide as Hd; [done|by destruct Hd]. }
      assert (has_memory k0 rt0) as Hm by (by right).
      assert (winner (offers_for k0 (os ++ [o])) = Some o) as Hwo.
      { rewrite Hw. destruct (winner (offers_for k0 os)) as [w|] eqn:Ew; [|done]. exfalso.
        destruct (H2 k0 w Hm Ew) as (e1 & E1 & _). by rewrite Ee in E1. }
      apply (routes_follow_other rt0 os rt o); [done|by apply put_entry_strict| | |].
      * intros k Hk. rewrite Hfind, decide_False by done. done.
      * intros k o' -> _. fold k0. rewrite Hwo. intros [= <-]. rewrite Hfind, decide_True by done. exists e'. split; [done|]. split; [done|].
        intros e0. by rewrite E0.
      * intros k ->. fold k0. rewrite Hwo. by intros [|].
    + exists rt. split.
      { unfold _update_routing_entry. destruct Ha as [-> ->]. simpl. unfold _add_entry. fold k0. by rewrite Ee, Em. }
      assert (~ has_memory k0 rt0) as Hm by (intros [|]; congruence).
      apply (routes_follow_other rt0 os rt o); [done|done|done| |].
      * intros k o' ->. done.
      * intros k -> _. fold k0. by rewrite E0.
Qed.

Lemma routes_follow_init rt0 : rt_strict rt0 -> routes_follow rt0 [] rt0.
Proof. intros Hs. by split. Qed.

Lemma update_all_follow rt0 os rt os' : prepared rt0 -> routes_follow rt0 os rt -> Forall offer_ok os' ->
  exists rt', update_all os' rt = Def rt' /\ routes_follow rt0 (os ++ os') rt'.
Proof.
  intros Hp. revert os rt. induction os' as [|o os' IH]; intros os rt Hf Hok; simpl; [exists rt; by rewrite app_nil_r|].
  apply Forall_cons in Hok as [Ho Hok]. destruct (update_follow rt0 os rt o Hp Hf Ho) as (rt1 & -> & Hf1). simpl.
  destruct (IH (os ++ [o]) rt1 Hf1 Hok) as (rt' & E & Hf'). exists rt'. by rewrite <- app_assoc in Hf'.
Qed.

Lemma prepare_prepared rt : rt_strict rt -> prepared (_prepare_routes rt).
Proof.
  intros Hs. split; [by apply tree_strict_map|]. apply Forall_forall. intros e (x & -> & _)%list_elem_of_fmap. done.
Qed.

(** ** All offers of an update *)

(** The offers [os] are among those of [R], and match them at their costs. *)
Record covers (R : route_offer -> Prop) (os : list route_offer) : Prop := {
  cv_sound : Forall R os;
  cv_complete o : R o -> exists o', o' ∈ os /\ dst_prefix o' = dst_prefix o /\ pathcost o' <= pathcost o;
}.

Lemma covers_app R1 R2 os1 os2 : covers R1 os1 -> covers R2 os2 -> covers (fun o => R1 o \/ R2 o) (os1 ++ os2).
Proof.
  intros [S1 C1] [S2 C2]. split.
  - apply Forall_app. split; (eapply Forall_impl; [done|]); simpl; auto.
  - intros o [H|H]; [destruct (C1 o H) as (o' & Ho & ?)|destruct (C2 o H) as (o' & Ho & ?)]; exists o'; (split; [|done]);
      apply elem_of_app; auto.
Qed.

Lemma covers_ext (R1 R2 : route_offer -> Prop) os : (forall o, R1 o <-> R2 o) -> covers R1 os -> covers R2 os.
Proof.
  intros HR [S C]. split; [eapply Forall_impl; [done|]; intros o; apply HR|]. intros o Ho. by apply C, HR.
Qed.

Lemma covers_nil : covers (fun _ => False) [].
Proof. split; [by apply Forall_nil|done]. Qed.

(** A cheaper route to the same prefix is acceptable as well. *)
Lemma acceptable_le o o' : dst_prefix o = dst_prefix o' -> pathcost o <= pathcost o' ->
  acceptable o' -> is_def (is_local_destination env dom o) -> acceptable o.
Proof.
  intros Ek Hc [H1 H2] [b Hb]. split; [|by rewrite Ek]. rewrite Hb. unfold is_local_destination in *. rewrite Ek in Hb.
  destruct (olsrv2_originator_get env (na_type (rk_dst (dst_prefix o')))); [|done]. destruct (_ =? 0); [done|].
  case_bool_decide; [done|].
  destruct (olsrv2_lan_get _ _) as [lan|]; [|by rewrite <- Hb]. destruct (olsrv2_lan_get_domaindata _ _) as [ld|]; [|done].
  simpl in *. injection H1 as H1. injection Hb as <-. f_equal. destruct (lan_active ld); [|done]. simpl in *.
  apply Z.ltb_ge in H1. apply Z.ltb_ge. lia.
Qed.

(** The route to [k] that an offer of [R] stands for. *)
Definition route_to (R : route_offer -> Prop) (k : os_route_key) (o : route_offer) : Prop :=
  R o /\ acceptable o /\ dst_prefix o = k.

(** The entry of [k] shows the cheapest of the routes to [k]. *)
Definition cheapest (R : route_offer -> Prop) (rt0 rt : list olsrv2_routing_entry) (k : os_route_key) : Prop :=
  ((exists o, route_to R k o) ->
    exists e o, find_entry k rt = Some e /\ shows e o /\ route_to R k o /\
      (forall e0, find_entry k rt0 = Some e0 -> in_processing e = in_processing e0 /\ _old e = _old e0) /\
      forall o', route_to R k o' -> rt_path_cost e <= pathcost o') /\
  (~ (exists o, route_to R k o) -> find_entry k rt = find_entry k rt0).

Lemma covers_cheapest R rt0 os rt k : (forall o, R o -> offer_ok o) -> covers R os -> routes_follow rt0 os rt ->
  has_memory k rt0 -> cheapest R rt0 rt k.
Proof.
  intros Hok [Hs Hc] [_ Hwon Hnone] Hm. rewrite Forall_forall in Hs. pose proof (winner_spec (offers_for k os)) as Hw.
  assert (forall o, route_to R k o -> exists o', o' ∈ offers_for k os /\ pathcost o' <= pathcost o) as Hoff.
  { intros o (HR & Ha & Ek). destruct (Hc o HR) as (o' & Ho' & Ek' & Hle). exists o'. split; [|done].
    apply list_elem_of_filter. split; [|done]. split; [|congruence]. apply (acceptable_le o' o); [done..|]. by apply Hok, Hs. }
  assert (forall o, o ∈ offers_for k os -> route_to R k o) as Hback.
  { intros o [[Ha Ek] Ho]%list_elem_of_filter. split; [by apply Hs|done]. }
  split.
  - intros (o & Ho). destruct (Hoff o Ho) as (o1 & Ho1 & _). destruct (winner (offers_for k os)) as [w|] eqn:E;
      [|rewrite Hw in Ho1; by apply elem_of_nil in Ho1].
    destruct Hw as [Hin Hmin]. destruct (Hwon k w Hm E) as (e & Ee & Hsh & Hold). exists e, w. split; [done|]. split; [done|].
    split; [by apply Hback|]. split; [done|]. intros o' Ho'. destruct (Hoff o' Ho') as (o2 & Ho2 & Hle).
    rewrite (sh_cost _ _ Hsh). specialize (Hmin o2 Ho2). lia.
  - intros Hno. apply Hnone. left. destruct (winner (offers_for k os)) as [w|] eqn:E; [|done]. destruct Hno.
    destruct Hw as [Hin _]. exists w. by apply Hback.
Qed.
End offers.
