(* ===== verification/OsRouting.v ===== *)
(** Kernel routes over rtnetlink: the messages of
    src/base/os_linux/os_routing_linux.c, built by [_routing_set] and read by
    [_routing_parse_nlmsg]. A message is its header, the [rtmsg] and the list
    of its attributes; integers in attributes are little endian. *)

From Stdlib Require Import ZArith Lia.
From stdpp Require Import base list numbers option.
From S2P Require Import Prelude Netaddr RoutingSet.

Local Open Scope Z_scope.
Local Open Scope cint_scope.

(** ** Constants of the kernel *)

Definition RTM_NEWROUTE : Z := 24.
Definition RTM_DELROUTE : Z := 25.
Definition NLM_F_REQUEST : Z := 1.
Definition NLM_F_REPLACE : Z := 256.
Definition NLM_F_CREATE : Z := 1024.
Definition RT_SCOPE_UNIVERSE : Z := 0.
Definition RT_SCOPE_NOWHERE : Z := 255.
Definition RTNH_F_ONLINK : Z := 4.
Definition RTM_F_CLONED : Z := 512.
Definition RTA_DST : Z := 1.
Definition RTA_SRC : Z := 2.
Definition RTA_OIF : Z := 4.
Definition RTA_GATEWAY : Z := 5.
Definition RTA_PRIORITY : Z := 6.
Definition RTA_PREFSRC : Z := 7.
Definition UIO_MAXIOV : Z := 1024.
Definition NLA_HDRLEN : Z := 4.
(** [NLMSG_LENGTH(sizeof(struct rtmsg))] *)
Definition rtmsg_length : Z := 16 + 12.

Definition OS_ROUTE_UNDEFINED : Z := 0.
(** The pairs of OONF and kernel types, from [OS_ROUTE_UNICAST] on. *)
Definition _type_translation : list (Z * Z) := [(1, 1); (2, 2); (3, 3); (4, 5); (5, 9); (6, 7); (7, 8); (8, 6); (9, 10)].

(** ** Messages *)

Record route_msg := {
  nlmsg_len : Z;
  nlmsg_type : Z;
  nlmsg_flags : Z;
  rtm_family : Z;
  rtm_dst_len : Z;
  rtm_src_len : Z;
  rtm_protocol : Z;
  rtm_table : Z;
  rtm_scope : Z;
  rtm_type : Z;
  rtm_flags : Z;
  attributes : list (Z * bytes);
}.

Definition NLMSG_ALIGN (len : Z) : Z := (len + 3) .& Z.lnot 3.

(** [os_system_linux_netlink_addreq] *)
Definition addreq (msg : route_msg) (ty : Z) (data : bytes) : option route_msg :=
  let aligned_msg_len := NLMSG_ALIGN (nlmsg_len msg) in
  let aligned_attr_len := NLA_HDRLEN + blen data in
  if UIO_MAXIOV <? aligned_msg_len + aligned_attr_len then None
  else Some {|
    nlmsg_len := aligned_msg_len + aligned_attr_len; nlmsg_type := nlmsg_type msg; nlmsg_flags := nlmsg_flags msg;
    rtm_family := rtm_family msg; rtm_dst_len := rtm_dst_len msg; rtm_src_len := rtm_src_len msg;
    rtm_protocol := rtm_protocol msg; rtm_table := rtm_table msg; rtm_scope := rtm_scope msg;
    rtm_type := rtm_type msg; rtm_flags := rtm_flags msg; attributes := attributes msg ++ [(ty, data)] |}.

(** [os_system_linux_netlink_addnetaddr] *)
Definition addr_data (a : netaddr) : bytes := take (Z.to_nat (netaddr_get_maxprefix a / 8)) (na_addr a).

(** A 32 bit integer in memory. *)
Definition int_data (x : Z) : bytes := [u8 x; u8 (x .>> 8); u8 (x .>> 16); u8 (x .>> 24)].
Definition data_uint (d : bytes) : outcome Z :=
  l ← rd_n d 0 4; match l with [a; b; c; e] => Def (a + 256 * b + 65536 * c + 16777216 * e) | _ => Undef UB_read end.
Definition data_int (d : bytes) : outcome Z := x ← data_uint d; Def (s32 x).

(** ** Building a message *)

(** The address family of a route, [None] for contradicting addresses. *)
Definition route_family (r : os_route_parameter) : option Z :=
  let fam := if negb (na_type (rk_dst (rp_key r)) =? AF_UNSPEC) then na_type (rk_dst (rp_key r)) else family r in
  let clash fam a := negb (na_type a =? AF_UNSPEC) && negb (fam =? AF_UNSPEC) && negb (fam =? na_type a) in
  let next fam a := if negb (na_type a =? AF_UNSPEC) then na_type a else fam in
  if clash fam (gw r) then None
  else
    let fam := next fam (gw r) in
    if clash fam (src_ip r) then None
    else
      let fam := next fam (src_ip r) in
      Some (if fam =? AF_UNSPEC then AF_INET else fam).

(** The first pair with the type, [RTN_UNICAST] without one. *)
Fixpoint to_linux_type (tr : list (Z * Z)) (ty : Z) : Z :=
  match tr with [] => 1 | (oonf, os_linux) :: tr => if oonf =? ty then os_linux else to_linux_type tr ty end.

Definition add_if (b : bool) (ty : Z) (data : bytes) (msg : route_msg) : option route_msg := if b then addreq msg ty data else Some msg.

(** Whether the source prefix of a route is sent. *)
Definition has_source (r : os_route_parameter) : bool :=
  (na_type (rk_src (rp_key r)) =? AF_INET6) && negb (na_prefix_len (rk_src (rp_key r)) =? 0).

(** The header and the [rtmsg]. *)
Definition route_head (len ty flags fam : Z) (r : os_route_parameter) (scope : Z) : route_msg := {|
  nlmsg_len := len; nlmsg_type := ty; nlmsg_flags := flags; rtm_family := fam;
  rtm_dst_len := if negb (na_type (rk_dst (rp_key r)) =? AF_UNSPEC) then na_prefix_len (rk_dst (rp_key r)) else 0;
  rtm_src_len := if has_source r then na_prefix_len (rk_src (rp_key r)) else 0;
  rtm_protocol := protocol r; rtm_table := table r; rtm_scope := scope;
  rtm_type := to_linux_type _type_translation (rp_type r);
  rtm_flags := if negb (na_type (gw r) =? AF_UNSPEC) then RTNH_F_ONLINK else 0; attributes := [] |}.
#[global] Arguments route_head : simpl never.

Definition _routing_set (len ty flags : Z) (r : os_route_parameter) (rt_scope : Z) : option route_msg :=
  fam ← route_family r;
  let msg := route_head len ty flags fam r rt_scope in
  msg ← add_if (negb (na_type (src_ip r) =? AF_UNSPEC)) RTA_PREFSRC (addr_data (src_ip r)) msg;
  msg ← add_if (negb (na_type (gw r) =? AF_UNSPEC)) RTA_GATEWAY (addr_data (gw r)) msg;
  msg ← add_if (negb (na_type (rk_dst (rp_key r)) =? AF_UNSPEC)) RTA_DST (addr_data (rk_dst (rp_key r))) msg;
  msg ← add_if (has_source r) RTA_SRC (addr_data (rk_src (rp_key r))) msg;
  msg ← add_if (negb (rp_metric r =? -1)) RTA_PRIORITY (int_data (rp_metric r)) msg;
  add_if (negb (if_index r =? 0)) RTA_OIF (int_data (if_index r)) msg.

(** A host route without gateway gets the destination as its gateway. *)
Definition forced_gw (r : os_route_parameter) : netaddr :=
  if netaddr_is_unspec (gw r) && (na_type (rk_dst (rp_key r)) =? AF_INET) &&
     (na_prefix_len (rk_dst (rp_key r)) =? netaddr_get_maxprefix (rk_dst (rp_key r)))
  then rk_dst (rp_key r) else gw r.

(** The message of [os_routing_linux_set], without its sequence number;
    [None] is the result -1. *)
Definition os_routing_linux_set (r : os_route_parameter) (set del_similar : bool) : option route_msg :=
  let scope := if negb set && del_similar then RT_SCOPE_NOWHERE else RT_SCOPE_UNIVERSE in
  _routing_set rtmsg_length (if set then RTM_NEWROUTE else RTM_DELROUTE)
    (if set then NLM_F_REQUEST .| (NLM_F_CREATE .| NLM_F_REPLACE) else NLM_F_REQUEST)
    {| family := family r; rp_type := rp_type r; rp_key := rp_key r; gw := forced_gw r;
       src_ip := if set then src_ip r else netaddr_invalidate; rp_metric := rp_metric r; table := table r;
       protocol := if set then protocol r else 0;
       if_index := if negb set && del_similar then 0 else if_index r |} scope.

(** ** Reading a message *)

Definition OS_ROUTE_WILDCARD : os_route_parameter := {|
  family := AF_UNSPEC; rp_type := OS_ROUTE_UNDEFINED; rp_key := {| rk_dst := netaddr_invalidate; rk_src := netaddr_invalidate |};
  gw := netaddr_invalidate; src_ip := netaddr_invalidate; rp_metric := -1; table := 0; protocol := 0; if_index := 0 |}.

Fixpoint to_oonf_type (tr : list (Z * Z)) (ty : Z) : Z :=
  match tr with [] => OS_ROUTE_UNDEFINED | (oonf, os_linux) :: tr => if ty =? os_linux then oonf else to_oonf_type tr ty end.

(** Assignments to single fields. *)
Definition put_route (r : os_route_parameter) (key : os_route_key) (g s : netaddr) (metric ifx : Z) : os_route_parameter :=
  {| family := family r; rp_type := rp_type r; rp_key := key; gw := g; src_ip := s; rp_metric := metric;
     table := table r; protocol := protocol r; if_index := ifx |}.
Definition put_src_ip a r := put_route r (rp_key r) (gw r) a (rp_metric r) (if_index r).
Definition put_gw a r := put_route r (rp_key r) a (src_ip r) (rp_metric r) (if_index r).
Definition put_dst a r := put_route r {| rk_dst := a; rk_src := rk_src (rp_key r) |} (gw r) (src_ip r) (rp_metric r) (if_index r).
Definition put_src a r := put_route r {| rk_dst := rk_dst (rp_key r); rk_src := a |} (gw r) (src_ip r) (rp_metric r) (if_index r).
Definition put_metric x r := put_route r (rp_key r) (gw r) (src_ip r) x (if_index r).
Definition put_if_index x r := put_route r (rp_key r) (gw r) (src_ip r) (rp_metric r) x.

(** One attribute; the result of [netaddr_from_binary] is not looked at. *)
Definition parse_attribute (msg : route_msg) (a : Z * bytes) (r : os_route_parameter) : outcome os_route_parameter :=
  let '(ty, d) := a in
  if ty =? RTA_PREFSRC then '(x, _) ← netaddr_from_binary d 0 (blen d) (rtm_family msg); Def (put_src_ip x r)
  else if ty =? RTA_GATEWAY then '(x, _) ← netaddr_from_binary d 0 (blen d) (rtm_family msg); Def (put_gw x r)
  else if ty =? RTA_DST then '(x, _) ← netaddr_from_binary_prefix d 0 (blen d) (rtm_family msg) (rtm_dst_len msg); Def (put_dst x r)
  else if ty =? RTA_SRC then '(x, _) ← netaddr_from_binary_prefix d 0 (blen d) (rtm_family msg) (rtm_src_len msg); Def (put_src x r)
  else if ty =? RTA_PRIORITY then x ← data_int d; Def (put_metric x r)
  else if ty =? RTA_OIF then x ← data_uint d; Def (put_if_index x r)
  else Def r.

Fixpoint parse_attributes (msg : route_msg) (l : list (Z * bytes)) (r : os_route_parameter) : outcome os_route_parameter :=
  match l with [] => Def r | a :: l => r ← parse_attribute msg a r; parse_attributes msg l r end.

(** The result code and the route, which is only written by some results. *)
Definition _routing_parse_nlmsg (msg : route_msg) : outcome (Z * option os_route_parameter) :=
  if negb (rtm_flags msg .& RTM_F_CLONED =? 0) then Def (1, None)
  else
    let r := {| family := rtm_family msg; rp_type := OS_ROUTE_UNDEFINED; rp_key := rp_key OS_ROUTE_WILDCARD; gw := gw OS_ROUTE_WILDCARD;
                src_ip := src_ip OS_ROUTE_WILDCARD; rp_metric := rp_metric OS_ROUTE_WILDCARD; table := rtm_table msg;
                protocol := rtm_protocol msg; if_index := if_index OS_ROUTE_WILDCARD |} in
    if negb (family r =? AF_INET) && negb (family r =? AF_INET6) then Def (-1, Some r)
    else
      let ty := to_oonf_type _type_translation (rtm_type msg) in
      if ty =? OS_ROUTE_UNDEFINED then Def (2, Some r)
      else
        r ← parse_attributes msg (attributes msg) {| family := family r; rp_type := ty; rp_key := rp_key r; gw := gw r; src_ip := src_ip r;
              rp_metric := rp_metric r; table := table r; protocol := protocol r; if_index := if_index r |};
        Def (0, Some (if na_type (rk_dst (rp_key r)) =? AF_UNSPEC then
                        let any := if family r =? AF_INET then NETADDR_IPV4_ANY else NETADDR_IPV6_ANY in
                        put_dst {| na_addr := na_addr any; na_type := na_type any; na_prefix_len := rtm_dst_len msg |} r
                      else r)).

(** ** Filters *)

(** A field of the filter that is set must be that of the route. *)
Definition _match_routes (filter route : os_route_parameter) : bool :=
  if negb (family filter =? AF_UNSPEC) && negb (family filter =? family route) then false
  else if negb (na_type (src_ip filter) =? AF_UNSPEC) && negb (bool_decide (src_ip filter = src_ip route)) then false
  else if negb (rp_type filter =? OS_ROUTE_UNDEFINED) && negb (rp_type filter =? rp_type route) then false
  else if negb (na_type (gw filter) =? AF_UNSPEC) && negb (bool_decide (gw filter = gw route)) then false
  else if negb (na_type (rk_dst (rp_key filter)) =? AF_UNSPEC) && negb (bool_decide (rk_dst (rp_key filter) = rk_dst (rp_key route))) then false
  else if negb (na_type (rk_src (rp_key filter)) =? AF_UNSPEC) && negb (bool_decide (rk_src (rp_key filter) = rk_src (rp_key route))) then false
  else if negb (rp_metric filter =? -1) && negb (rp_metric filter =? rp_metric route) then false
  else if negb (table filter =? 0) && negb (table filter =? table route) then false
  else if negb (protocol filter =? 0) && negb (protocol filter =? protocol route) then false
  else (if_index filter =? 0) || (if_index filter =? if_index route).

(** ** Lemmas *)

Lemma nlmsg_align len : NLMSG_ALIGN len = 4 * ((len + 3) / 4).
Proof.
  unfold NLMSG_ALIGN. rewrite <- Z.ldiff_land. change 3 with (Z.ones 2) at 2. rewrite Z.ldiff_ones_r by lia.
  rewrite shiftl_mul, shiftr_div by lia. change (2 ^ 2) with 4. lia.
Qed.

Lemma data_uint_int x : data_uint (int_data x) = Def (u32 x).
Proof.
  unfold data_uint, int_data, rd_n. simpl. f_equal. rewrite !shiftr_div by lia. unfold u8, u32, wrap.
  change (2 ^ 32) with (256 * (256 * (256 * 256))). rewrite (Z.rem_mul_r x 256), (Z.rem_mul_r (x / 256) 256), (Z.rem_mul_r (x / 256 / 256) 256) by lia.
  rewrite !Z.div_div by lia. change (2 ^ 8) with 256. change (2 ^ 16) with (256 * 256). change (2 ^ 24) with (256 * 256 * 256). lia.
Qed.

Lemma data_int_int x : - 2 ^ 31 <= x < 2 ^ 31 -> data_int (int_data x) = Def x.
Proof.
  intros Hx. unfold data_int. rewrite data_uint_int. simpl. f_equal. unfold s32, swrap, u32, wrap. rewrite Z.mod_mod by lia.
  change (2 ^ (32 - 1)) with (2 ^ 31). destruct (Z.leb_spec 0 x) as [H|H].
  - rewrite Z.mod_small by lia. destruct (Z.ltb_spec x (2 ^ 31)); lia.
  - rewrite <- (Z.mod_add x 1) by lia. rewrite Z.mod_small by lia. destruct (Z.ltb_spec (x + 1 * 2 ^ 32) (2 ^ 31)); lia.
Qed.

(** An address of the families that routes use, whose unused octets are 0. *)
Record route_addr (a : netaddr) : Prop := {
  ra_length : length (na_addr a) = 16%nat;
  ra_type : na_type a = AF_INET \/ na_type a = AF_INET6;
  ra_tail : drop (Z.to_nat (netaddr_get_maxprefix a / 8)) (na_addr a) = zeros (16 - Z.to_nat (netaddr_get_maxprefix a / 8));
  ra_plen : 0 <= na_prefix_len a <= netaddr_get_maxprefix a;
}.

Lemma route_addr_bytes a : route_addr a -> (Z.to_nat (netaddr_get_maxprefix a / 8) = 4 \/ Z.to_nat (netaddr_get_maxprefix a / 8) = 16)%nat /\
  netaddr_get_maxprefix a <= 128.
Proof. intros [_ [E|E] _ _]; unfold netaddr_get_maxprefix; rewrite E; vm_compute; split; auto; done. Qed.

Lemma addr_data_read a : route_addr a ->
  netaddr_from_binary_prefix (addr_data a) 0 (blen (addr_data a)) (na_type a) (na_prefix_len a) = Def (a, 0).
Proof.
  intros H. pose proof (route_addr_bytes a H) as [Hn Hm]. destruct H as [Hl Ht Htail Hp].
  unfold netaddr_from_binary_prefix, addr_data. set (n := Z.to_nat _) in *.
  assert (length (take n (na_addr a)) = n) as Hlen by (rewrite length_take; lia).
  assert (blen (take n (na_addr a)) = Z.of_nat n) as Hb by (unfold blen; lia).
  assert (negb (na_type a =? 0) = true) as -> by (destruct Ht as [->| ->]; done).
  destruct (Z.eqb_spec (na_prefix_len a) 255); [lia|].
  rewrite rd_n_prefix by lia. simpl. rewrite Hb, Nat2Z.id, take_take, Nat.min_id. unfold wr_n. rewrite Hb.
  destruct (Z.eqb_spec (Z.of_nat n) 0); [lia|].
  assert (blen (zeros 16) = 16) as -> by done. destruct (Z.ltb_spec 16 (0 + Z.of_nat n)); [lia|]. simpl.
  assert (take n (na_addr a) ++ drop (Z.to_nat (Z.of_nat n)) (zeros 16) = na_addr a) as E.
  { rewrite Nat2Z.id. unfold zeros. rewrite drop_replicate. rewrite <- (take_drop n (na_addr a)) at 2. f_equal. by rewrite Htail. }
  rewrite Nat2Z.id in E. rewrite Z.add_0_l, Nat2Z.id, E. destruct Ht as [Ht|Ht]; rewrite Ht; destruct a; simpl in *; by subst.
Qed.

Lemma addr_data_host a : route_addr a -> na_prefix_len a = netaddr_get_maxprefix a ->
  netaddr_from_binary (addr_data a) 0 (blen (addr_data a)) (na_type a) = Def (a, 0).
Proof.
  intros H E. rewrite <- (addr_data_read a H). unfold netaddr_from_binary, netaddr_from_binary_prefix.
  pose proof (route_addr_bytes a H) as [Hn Hm]. destruct H as [Hl Ht Htail Hp].
  assert (negb (na_type a =? 0) = true) as -> by (destruct Ht as [->| ->]; done).
  destruct (Z.eqb_spec (na_prefix_len a) 255); [lia|]. rewrite Z.eqb_refl.
  assert (u8 (blen (addr_data a) .<< 3) = na_prefix_len a) as ->; [|done].
  rewrite E. unfold blen, addr_data. rewrite length_take, Hl. unfold netaddr_get_maxprefix. by destruct Ht as [->| ->].
Qed.

(** ** Messages that fit *)

(** [m'] is [m] with the attributes [l], which hold at most [k] octets. *)
Record extends (m m' : route_msg) (l : list (Z * bytes)) (k : Z) : Prop := {
  ex_head : (nlmsg_type m', nlmsg_flags m', rtm_family m', rtm_dst_len m', rtm_src_len m', rtm_protocol m', rtm_table m', rtm_scope m', rtm_type m', rtm_flags m') =
    (nlmsg_type m, nlmsg_flags m, rtm_family m, rtm_dst_len m, rtm_src_len m, rtm_protocol m, rtm_table m, rtm_scope m, rtm_type m, rtm_flags m);
  ex_attrs : attributes m' = attributes m ++ l;
  ex_len : nlmsg_len m' <= nlmsg_len m + k;
}.

Lemma add_if_ok b ty d m : 0 <= nlmsg_len m -> blen d <= 16 -> nlmsg_len m <= 512 ->
  exists m', add_if b ty d m = Some m' /\ extends m m' (if b then [(ty, d)] else []) 23 /\ 0 <= nlmsg_len m'.
Proof.
  intros H0 Hd Hm. destruct b; simpl; [|exists m; split; [done|]; split; [|done]; split; [done|by rewrite app_nil_r|lia]].
  unfold addreq. rewrite nlmsg_align. unfold NLA_HDRLEN, UIO_MAXIOV, blen in *.
  pose proof (Z.mul_div_le (nlmsg_len m + 3) 4 ltac:(lia)). pose proof (Z.div_pos (nlmsg_len m + 3) 4 ltac:(lia) ltac:(lia)).
  destruct (Z.ltb_spec 1024 (4 * ((nlmsg_len m + 3) / 4) + (4 + Z.of_nat (length d)))); [lia|].
  eexists. split; [done|]. split; [split; simpl; [done..|lia]|]. simpl. lia.
Qed.

Lemma extends_trans m1 m2 m3 l1 l2 k1 k2 : extends m1 m2 l1 k1 -> extends m2 m3 l2 k2 -> extends m1 m3 (l1 ++ l2) (k1 + k2).
Proof. intros [A1 A2 A3] [B1 B2 B3]. split; [congruence|by rewrite B2, A2, app_assoc|lia]. Qed.

Lemma addr_data_len a : length (na_addr a) = 16%nat -> blen (addr_data a) <= 16.
Proof. intros E. unfold blen, addr_data. rewrite length_take. lia. Qed.

Definition opt_attr (b : bool) (ty : Z) (d : bytes) : list (Z * bytes) := if b then [(ty, d)] else [].

(** All attributes of a route. *)
Definition route_attributes (r : os_route_parameter) : list (Z * bytes) :=
  opt_attr (negb (na_type (src_ip r) =? AF_UNSPEC)) RTA_PREFSRC (addr_data (src_ip r)) ++
  opt_attr (negb (na_type (gw r) =? AF_UNSPEC)) RTA_GATEWAY (addr_data (gw r)) ++
  opt_attr (negb (na_type (rk_dst (rp_key r)) =? AF_UNSPEC)) RTA_DST (addr_data (rk_dst (rp_key r))) ++
  opt_attr (has_source r) RTA_SRC (addr_data (rk_src (rp_key r))) ++
  opt_attr (negb (rp_metric r =? -1)) RTA_PRIORITY (int_data (rp_metric r)) ++
  opt_attr (negb (if_index r =? 0)) RTA_OIF (int_data (if_index r)).

Definition addrs_sized (r : os_route_parameter) : Prop :=
  length (na_addr (src_ip r)) = 16%nat /\ length (na_addr (gw r)) = 16%nat /\
  length (na_addr (rk_dst (rp_key r))) = 16%nat /\ length (na_addr (rk_src (rp_key r))) = 16%nat.

Lemma routing_set_ok len ty flags r scope fam : addrs_sized r -> 0 <= len <= 128 -> route_family r = Some fam ->
  exists m, _routing_set len ty flags r scope = Some m /\
    extends (route_head len ty flags fam r scope) m (route_attributes r) 138 /\ nlmsg_len m <= UIO_MAXIOV.
Proof.
  intros (S1 & S2 & S3 & S4) Hl Ef. unfold _routing_set. rewrite Ef. simpl.
  set (m0 := route_head len ty flags fam r scope). assert (nlmsg_len m0 = len) as E0 by done. clearbody m0.
  assert (forall x, blen (int_data x) <= 16) as Hi by done.
  destruct (add_if_ok (negb (na_type (src_ip r) =? AF_UNSPEC)) RTA_PREFSRC (addr_data (src_ip r)) m0) as (m1 & -> & X1 & P1); [lia|by apply addr_data_len|lia|]. simpl.
  pose proof (ex_len _ _ _ _ X1).
  destruct (add_if_ok (negb (na_type (gw r) =? AF_UNSPEC)) RTA_GATEWAY (addr_data (gw r)) m1) as (m2 & -> & X2 & P2); [lia|by apply addr_data_len|lia|]. simpl.
  pose proof (ex_len _ _ _ _ X2).
  destruct (add_if_ok (negb (na_type (rk_dst (rp_key r)) =? AF_UNSPEC)) RTA_DST (addr_data (rk_dst (rp_key r))) m2) as (m3 & -> & X3 & P3); [lia|by apply addr_data_len|lia|]. simpl.
  pose proof (ex_len _ _ _ _ X3).
  destruct (add_if_ok (has_source r) RTA_SRC (addr_data (rk_src (rp_key r))) m3) as (m4 & -> & X4 & P4); [lia|by apply addr_data_len|lia|]. simpl.
  pose proof (ex_len _ _ _ _ X4).
  destruct (add_if_ok (negb (rp_metric r =? -1)) RTA_PRIORITY (int_data (rp_metric r)) m4) as (m5 & -> & X5 & P5); [lia|done|lia|]. simpl.
  pose proof (ex_len _ _ _ _ X5).
  destruct (add_if_ok (negb (if_index r =? 0)) RTA_OIF (int_data (if_index r)) m5) as (m6 & -> & X6 & P6); [lia|done|lia|].
  pose proof (ex_len _ _ _ _ X6). exists m6. split; [done|].
  pose proof (extends_trans _ _ _ _ _ _ _ X1 (extends_trans _ _ _ _ _ _ _ X2 (extends_trans _ _ _ _ _ _ _ X3
    (extends_trans _ _ _ _ _ _ _ X4 (extends_trans _ _ _ _ _ _ _ X5 X6))))) as X. split; [exact X|]. unfold UIO_MAXIOV. lia.
Qed.

(** The kernel refuses nothing for lack of room: a message is not built if
    and only if the addresses contradict each other. *)
Lemma set_none r set ds : addrs_sized r -> 
  os_routing_linux_set r set ds = None <->
  route_family {| family := family r; rp_type := rp_type r; rp_key := rp_key r; gw := forced_gw r;
    src_ip := if set then src_ip r else netaddr_invalidate; rp_metric := rp_metric r; table := table r;
    protocol := if set then protocol r else 0; if_index := if negb set && ds then 0 else if_index r |} = None.
Proof.
  intros (S1 & S2 & S3 & S4). unfold os_routing_linux_set. set (r' := {| family := _ |}).
  destruct (route_family r') as [fam|] eqn:E; [|unfold _routing_set; by rewrite E].
  split; [|done]. edestruct (routing_set_ok rtmsg_length) with (r := r') as (m & Em & _); [|done|exact E|by rewrite Em].
  unfold r'. split; simpl; [by destruct set|]. split; [unfold forced_gw; by destruct (_ && _ && _)|by split].
Qed.

(** ** What the kernel is told *)

(** A route whose addresses are complete. *)
Record route_wf (r : os_route_parameter) : Prop := {
  rw_dst : route_addr (rk_dst (rp_key r));
  rw_gw : gw r = netaddr_invalidate \/ route_addr (gw r) /\ na_prefix_len (gw r) = netaddr_get_maxprefix (gw r);
  rw_src_ip : src_ip r = netaddr_invalidate \/ route_addr (src_ip r) /\ na_prefix_len (src_ip r) = netaddr_get_maxprefix (src_ip r);
  rw_src : length (na_addr (rk_src (rp_key r))) = 16%nat;
  rw_source : has_source r = true -> route_addr (rk_src (rp_key r)) /\ na_type (rk_dst (rp_key r)) = AF_INET6;
  rw_type : 1 <= rp_type r <= 9;
  rw_metric : - 2 ^ 31 <= rp_metric r < 2 ^ 31;
  rw_if : 0 <= if_index r < 2 ^ 32;
}.

Lemma type_translation ty : 1 <= ty <= 9 ->
  to_oonf_type _type_translation (to_linux_type _type_translation ty) = ty /\ ty <> OS_ROUTE_UNDEFINED.
Proof.
  intros H. assert (ty = 1 \/ ty = 2 \/ ty = 3 \/ ty = 4 \/ ty = 5 \/ ty = 6 \/ ty = 7 \/ ty = 8 \/ ty = 9) as Hc by lia.
  repeat (destruct Hc as [->|Hc]; [done|]). by rewrite Hc.
Qed.

(** All addresses of a route have its family. *)
Lemma route_family_types r fam : na_type (rk_dst (rp_key r)) = AF_INET \/ na_type (rk_dst (rp_key r)) = AF_INET6 ->
  route_family r = Some fam -> fam = na_type (rk_dst (rp_key r)) /\
    (na_type (gw r) <> AF_UNSPEC -> na_type (gw r) = fam) /\ (na_type (src_ip r) <> AF_UNSPEC -> na_type (src_ip r) = fam).
Proof.
  unfold route_family, AF_UNSPEC, AF_INET, AF_INET6. intros Hd. cbv zeta. set (d := na_type (rk_dst (rp_key r))) in *. set (g := na_type (gw r)).
  set (i := na_type (src_ip r)). assert (negb (d =? 0) = true) as -> by (destruct Hd as [->| ->]; done).
  clearbody d g i.
  destruct (Z.eqb_spec g 0), (Z.eqb_spec i 0), (Z.eqb_spec d 0), (Z.eqb_spec d g), (Z.eqb_spec d i), (Z.eqb_spec g i);
    simpl; repeat case_match; intros E; try congruence; try lia; injection E as <-; repeat split; congruence.
Qed.

Lemma parse_attributes_app m l1 l2 r : parse_attributes m (l1 ++ l2) r = (r ← parse_attributes m l1 r; parse_attributes m l2 r).
Proof.
  revert r. induction l1 as [|a l1 IH]; intros r; simpl; [done|]. destruct (parse_attribute m a r); simpl; [apply IH|done].
Qed.

(** An optional attribute that is written to a field. *)
Lemma parse_opt m b ty d (f : os_route_parameter -> os_route_parameter) r :
  (b = true -> parse_attribute m (ty, d) r = Def (f r)) -> (b = false -> f r = r) ->
  parse_attributes m (opt_attr b ty d) r = Def (f r).
Proof. destruct b; simpl; intros H1 H2; [by rewrite H1|]. by rewrite H2. Qed.

(** What becomes of a route on its way through the kernel. *)
Definition received_route (r : os_route_parameter) (g : netaddr) : os_route_parameter := {|
  family := na_type (rk_dst (rp_key r)); rp_type := rp_type r;
  rp_key := {| rk_dst := rk_dst (rp_key r); rk_src := if has_source r then rk_src (rp_key r) else netaddr_invalidate |};
  gw := g; src_ip := src_ip r; rp_metric := rp_metric r; table := table r; protocol := protocol r; if_index := if_index r |}.
Definition kernel_route (r : os_route_parameter) : os_route_parameter := received_route r (forced_gw r).

Lemma parse_route_attributes m r r0 : route_wf r -> rtm_family m = na_type (rk_dst (rp_key r)) ->
  (na_type (gw r) <> AF_UNSPEC -> na_type (gw r) = rtm_family m) -> (na_type (src_ip r) <> AF_UNSPEC -> na_type (src_ip r) = rtm_family m) ->
  rtm_dst_len m = na_prefix_len (rk_dst (rp_key r)) -> (has_source r = true -> rtm_src_len m = na_prefix_len (rk_src (rp_key r))) ->
  gw r0 = netaddr_invalidate -> src_ip r0 = netaddr_invalidate -> rk_src (rp_key r0) = netaddr_invalidate -> rp_metric r0 = -1 -> if_index r0 = 0 ->
  parse_attributes m (route_attributes r) r0 =
    Def (put_route r0 {| rk_dst := rk_dst (rp_key r); rk_src := if has_source r then rk_src (rp_key r) else netaddr_invalidate |}
      (gw r) (src_ip r) (rp_metric r) (if_index r)).
Proof.
  intros [W1 W2 W3 _ W4 W5 W6 W7] Ef Hg Hi Hdl Hsl G0 S0 K0 M0 I0. unfold route_attributes.
  destruct r0 as [f0 t0 [d0 s0] g0 i0 m0 tb0 p0 x0]. simpl in G0, S0, K0, M0, I0. subst g0 i0 s0 m0 x0.
  rewrite parse_attributes_app, (parse_opt _ _ _ _ (put_src_ip (src_ip r))).
  3: { intros E. apply negb_false_iff, Z.eqb_eq in E. destruct W3 as [->|[[_ [T|T] _ _] _]]; [done|rewrite T in E; done..]. }
  2: { intros E. apply negb_true_iff, Z.eqb_neq in E. simpl. rewrite <- Hi by done.
       destruct W3 as [W3|[W3 P3]]; [by rewrite W3 in E|]. by rewrite addr_data_host. }
  simpl. rewrite parse_attributes_app, (parse_opt _ _ _ _ (put_gw (gw r))).
  3: { intros E. apply negb_false_iff, Z.eqb_eq in E. destruct W2 as [->|[[_ [T|T] _ _] _]]; [done|rewrite T in E; done..]. }
  2: { intros E. apply negb_true_iff, Z.eqb_neq in E. simpl. rewrite <- Hg by done.
       destruct W2 as [W2|[W2 P2]]; [by rewrite W2 in E|]. by rewrite addr_data_host. }
  simpl. rewrite parse_attributes_app, (parse_opt _ _ _ _ (put_dst (rk_dst (rp_key r)))).
  3: { intros E. apply negb_false_iff, Z.eqb_eq in E. destruct W1 as [_ [T|T] _ _]; rewrite T in E; done. }
  2: { intros _. simpl. rewrite Ef, Hdl. by rewrite addr_data_read. }
  simpl. rewrite parse_attributes_app,
    (parse_opt _ _ _ _ (put_src (if has_source r then rk_src (rp_key r) else netaddr_invalidate))).
  3: { by intros ->. }
  2: { intros E. simpl. rewrite E, Hsl by done. destruct (W4 E) as [Wa Wd].
       rewrite Ef, Wd. unfold has_source in E. apply andb_true_iff in E as [E%Z.eqb_eq _]. rewrite <- E. by rewrite addr_data_read. }
  simpl. rewrite parse_attributes_app, (parse_opt _ _ _ _ (put_metric (rp_metric r))).
  3: { intros E. apply negb_false_iff, Z.eqb_eq in E. by rewrite E. }
  2: { intros _. unfold parse_attribute. by rewrite data_int_int. }
  simpl. rewrite (parse_opt _ _ _ _ (put_if_index (if_index r))).
  3: { intros E. apply negb_false_iff, Z.eqb_eq in E. by rewrite E. }
  2: { intros _. unfold parse_attribute. by rewrite data_uint_int, u32_small. }
  done.
Qed.

Lemma routing_set_parse r ty flags scope m : route_wf r -> _routing_set rtmsg_length ty flags r scope = Some m ->
  nlmsg_type m = ty /\ nlmsg_len m <= UIO_MAXIOV /\ _routing_parse_nlmsg m = Def (0, Some (received_route r (gw r))).
Proof.
  intros Hw Em. pose proof Hw as [W1 W2 W3 W4 W5 W6 W7 W8].
  assert (addrs_sized r) as Hs.
  { split; [by destruct W3 as [->|[[? _ _ _] _]]|]. split; [by destruct W2 as [->|[[? _ _ _] _]]|]. split; [apply W1|done]. }
  destruct (route_family r) as [fam|] eqn:Ef; [|unfold _routing_set in Em; by rewrite Ef in Em].
  edestruct (routing_set_ok rtmsg_length ty) as (m' & Em' & X & Hlen); [exact Hs|done|exact Ef|].
  rewrite Em in Em'. injection Em' as <-.
  destruct (route_family_types r fam (ra_type _ W1) Ef) as (-> & Hfg & Hfs).
  destruct X as [Xh Xa _]. unfold route_head in Xh, Xa. cbn in Xh, Xa. injection Xh as E1 E2 E3 E4 E5 E6 E7 E8 E9 E10.
  split; [done|]. split; [done|].
  assert (negb (na_type (rk_dst (rp_key r)) =? AF_UNSPEC) = true) as Hd by (destruct W1 as [_ [-> | ->] _ _]; done).
  unfold _routing_parse_nlmsg. rewrite E10, E3.
  assert (((if negb (na_type (gw r) =? AF_UNSPEC) then RTNH_F_ONLINK else 0) .& RTM_F_CLONED =? 0) = true) as -> by (by destruct (na_type (gw r) =? AF_UNSPEC)).
  cbn [family negb].
  assert (negb (na_type (rk_dst (rp_key r)) =? AF_INET) && negb (na_type (rk_dst (rp_key r)) =? AF_INET6) = false) as ->
    by (destruct W1 as [_ [-> | ->] _ _]; done).
  assert (to_oonf_type _type_translation (rtm_type m) = rp_type r) as ->
    by (etrans; [|by apply (type_translation (rp_type r))]; by f_equal).
  destruct (type_translation (rp_type r) W6) as [_ Hty]. destruct (Z.eqb_spec (rp_type r) OS_ROUTE_UNDEFINED); [done|]. rewrite Xa.
  rewrite (parse_route_attributes m r); try done; try (by rewrite E3).
  - cbn. assert (na_type (rk_dst (rp_key r)) =? AF_UNSPEC = false) as -> by (by apply negb_true_iff). by rewrite E7, E6.
  - by rewrite E4, Hd.
  - intros E. by rewrite E5, E.
Qed.

(** C31: A route survives the netlink interface: whenever [os_routing_linux_set]
    builds the message of a complete route, [_routing_parse_nlmsg] reads the
    same route back from it, up to the family that the destination gives, the
    gateway forced on host routes, and the source prefix, which only IPv6
    routes with a nonempty one send. It builds it unless the address families
    of gateway, source address and destination contradict each other. *)
Theorem set_parse_roundtrip r ds : route_wf r ->
  (os_routing_linux_set r true ds = None <-> route_family (kernel_route r) = None) /\
  forall m, os_routing_linux_set r true ds = Some m ->
    nlmsg_type m = RTM_NEWROUTE /\ nlmsg_len m <= UIO_MAXIOV /\ _routing_parse_nlmsg m = Def (0, Some (kernel_route r)).
Proof.
  intros Hw. pose proof Hw as [W1 W2 W3 W4 W5 W6 W7 W8].
  assert (route_addr (forced_gw r) /\ na_prefix_len (forced_gw r) = netaddr_get_maxprefix (forced_gw r) \/ forced_gw r = netaddr_invalidate) as Hg.
  { unfold forced_gw. destruct (_ && _ && _) eqn:E; [|tauto]. apply andb_true_iff in E as [_ E%Z.eqb_eq]. by left. }
  split.
  - rewrite (set_none r true ds).
    + unfold route_family, kernel_route. simpl. destruct W1 as [_ [-> | ->] _ _]; done.
    + split; [by destruct W3 as [->|[[? _ _ _] _]]|]. split; [by destruct W2 as [->|[[? _ _ _] _]]|]. split; [apply W1|done].
  - intros m Em. unfold os_routing_linux_set in Em. cbn [negb andb] in Em. eapply routing_set_parse in Em; [exact Em|].
    split; try done; simpl. destruct Hg; [by right|by left].
Qed.

Definition ex_route (dst g : netaddr) : os_route_parameter := {|
  family := 0; rp_type := OS_ROUTE_UNICAST; rp_key := os_routing_init_sourcespec_prefix dst; gw := g; src_ip := netaddr_invalidate;
  rp_metric := 2; table := 254; protocol := 100; if_index := 3 |}.

Lemma set_parse_roundtrip_witness :
  let r := ex_route (addr4 10 1 2 3 32) netaddr_invalidate in
  exists m, os_routing_linux_set r true true = Some m /\ _routing_parse_nlmsg m = Def (0, Some (kernel_route r)) /\
    gw (kernel_route r) = addr4 10 1 2 3 32.
Proof.
  intros r. assert (route_wf r) as Hw.
  { split; try done; [|by left|by left]. split; try done. by left. }
  destruct (set_parse_roundtrip r true Hw) as [_ H]. destruct (os_routing_linux_set r true true) as [m|] eqn:E; [|by vm_compute in E].
  exists m. split; [done|]. split; [by apply H|done].
Defined.

Example ex_remove : os_routing_linux_set (ex_route (addr4 10 1 0 0 16) (addr4 10 0 0 1 32)) false true =
  Some {| nlmsg_len := 52; nlmsg_type := RTM_DELROUTE; nlmsg_flags := 1; rtm_family := 2; rtm_dst_len := 16; rtm_src_len := 0;
          rtm_protocol := 0; rtm_table := 254; rtm_scope := RT_SCOPE_NOWHERE; rtm_type := 1; rtm_flags := RTNH_F_ONLINK;
          attributes := [(RTA_GATEWAY, [10; 0; 0; 1]); (RTA_DST, [10; 1; 0; 0]); (RTA_PRIORITY, [2; 0; 0; 0])] |}.
Proof. reflexivity. Qed.
