(* ===== verification/TcDatabase.v ===== *)
(** The topology database of OLSRv2, src/olsrv2/olsrv2/olsrv2_tc.c: nodes with
    their validity timers, edges in both directions, attached networks and
    their endpoints. Objects are in memory and point to each other; trees are
    the lists of AvlSpec. *)

From Stdlib Require Import ZArith Lia Sorted.
From stdpp Require Import base list numbers option gmap sets.
From S2P Require Import Prelude AvlSpec StateMonad Netaddr MprSelection NhdpDb RoutingSet Timer ValidityTimer.

Local Open Scope Z_scope.
Local Open Scope state_scope.

Inductive olsrv2_target_type := OLSRV2_NODE_TARGET | OLSRV2_ADDRESS_TARGET | OLSRV2_NETWORK_TARGET.

(** [struct olsrv2_tc_target]: of the Dijkstra data the pointer [originator]
    belongs to the database. It points to the prefix in a node. *)
Record olsrv2_tc_target := { prefix : os_route_key; type : olsrv2_target_type; dijkstra_originator : ptr }.

(** [_validity_time] is the timer instance at the address of the node. *)
Record olsrv2_tc_node := {
  n_target : olsrv2_tc_target;
  n_ansn : Z;
  interval_time : Z;
  direct_neighbor : bool;
  source_specific : bool;
  ss_attached_networks : list bool;
  _edges : list ptr;
  _attached_networks : list ptr;
}.

Record olsrv2_tc_edge := { e_src : ptr; e_dst : ptr; inverse : ptr; e_cost : list Z; e_ansn : Z; virtual : bool }.

Record olsrv2_tc_attachment := { a_src : ptr; a_dst : ptr; a_cost : list Z; a_distance : list Z; a_ansn : Z }.

Record olsrv2_tc_endpoint := { ep_target : olsrv2_tc_target; ep_attached_networks : list ptr }.

(** Calls to other components: the events of the memory classes and the triggers
    of olsrv2_routing.c. *)
Inductive tc_call :=
  | Node_event (p : ptr) (e : object_event)
  | Edge_event (p : ptr) (e : object_event)
  | Attached_event (p : ptr) (e : object_event)
  | Endpoint_event (p : ptr) (e : object_event)
  | Domain_changed_all
  | Domain_changed (domain : nat)
  | Trigger_update.

Record tc_db := {
  node_mem : gmap ptr olsrv2_tc_node;
  edge_mem : gmap ptr olsrv2_tc_edge;
  attachment_mem : gmap ptr olsrv2_tc_attachment;
  endpoint_mem : gmap ptr olsrv2_tc_endpoint;
  _tc_tree : list ptr;
  _tc_endpoint_tree : list ptr;
  timers : timer_state;
  calls : list tc_call;
  mallocs : nat;
}.

Notation tc_M := (state_M tc_db).

(** ** Access *)

Definition set_node_mem (f : gmap ptr olsrv2_tc_node -> gmap ptr olsrv2_tc_node) (s : tc_db) : tc_db :=
  {| node_mem := f (node_mem s); edge_mem := edge_mem s; attachment_mem := attachment_mem s; endpoint_mem := endpoint_mem s;
     _tc_tree := _tc_tree s; _tc_endpoint_tree := _tc_endpoint_tree s; timers := timers s; calls := calls s; mallocs := mallocs s |}.
Definition set_edge_mem (f : gmap ptr olsrv2_tc_edge -> gmap ptr olsrv2_tc_edge) (s : tc_db) : tc_db :=
  {| node_mem := node_mem s; edge_mem := f (edge_mem s); attachment_mem := attachment_mem s; endpoint_mem := endpoint_mem s;
     _tc_tree := _tc_tree s; _tc_endpoint_tree := _tc_endpoint_tree s; timers := timers s; calls := calls s; mallocs := mallocs s |}.
Definition set_attachment_mem (f : gmap ptr olsrv2_tc_attachment -> gmap ptr olsrv2_tc_attachment) (s : tc_db) : tc_db :=
  {| node_mem := node_mem s; edge_mem := edge_mem s; attachment_mem := f (attachment_mem s); endpoint_mem := endpoint_mem s;
     _tc_tree := _tc_tree s; _tc_endpoint_tree := _tc_endpoint_tree s; timers := timers s; calls := calls s; mallocs := mallocs s |}.
Definition set_endpoint_mem (f : gmap ptr olsrv2_tc_endpoint -> gmap ptr olsrv2_tc_endpoint) (s : tc_db) : tc_db :=
  {| node_mem := node_mem s; edge_mem := edge_mem s; attachment_mem := attachment_mem s; endpoint_mem := f (endpoint_mem s);
     _tc_tree := _tc_tree s; _tc_endpoint_tree := _tc_endpoint_tree s; timers := timers s; calls := calls s; mallocs := mallocs s |}.
Definition set_tc_tree (l : list ptr) (s : tc_db) : tc_db :=
  {| node_mem := node_mem s; edge_mem := edge_mem s; attachment_mem := attachment_mem s; endpoint_mem := endpoint_mem s;
     _tc_tree := l; _tc_endpoint_tree := _tc_endpoint_tree s; timers := timers s; calls := calls s; mallocs := mallocs s |}.
Definition set_tc_endpoint_tree (l : list ptr) (s : tc_db) : tc_db :=
  {| node_mem := node_mem s; edge_mem := edge_mem s; attachment_mem := attachment_mem s; endpoint_mem := endpoint_mem s;
     _tc_tree := _tc_tree s; _tc_endpoint_tree := l; timers := timers s; calls := calls s; mallocs := mallocs s |}.
Definition set_timers (t : timer_state) (s : tc_db) : tc_db :=
  {| node_mem := node_mem s; edge_mem := edge_mem s; attachment_mem := attachment_mem s; endpoint_mem := endpoint_mem s;
     _tc_tree := _tc_tree s; _tc_endpoint_tree := _tc_endpoint_tree s; timers := t; calls := calls s; mallocs := mallocs s |}.
Definition add_call (c : tc_call) (s : tc_db) : tc_db :=
  {| node_mem := node_mem s; edge_mem := edge_mem s; attachment_mem := attachment_mem s; endpoint_mem := endpoint_mem s;
     _tc_tree := _tc_tree s; _tc_endpoint_tree := _tc_endpoint_tree s; timers := timers s; calls := calls s ++ [c]; mallocs := mallocs s |}.
Definition count_malloc (s : tc_db) : tc_db :=
  {| node_mem := node_mem s; edge_mem := edge_mem s; attachment_mem := attachment_mem s; endpoint_mem := endpoint_mem s;
     _tc_tree := _tc_tree s; _tc_endpoint_tree := _tc_endpoint_tree s; timers := timers s; calls := calls s; mallocs := S (mallocs s) |}.

Definition call (c : tc_call) : tc_M unit := modify (add_call c).

Definition store_node (p : ptr) (n : olsrv2_tc_node) : tc_M unit := modify (set_node_mem <[p := n]>).
Definition store_edge (p : ptr) (e : olsrv2_tc_edge) : tc_M unit := modify (set_edge_mem <[p := e]>).
Definition store_attachment (p : ptr) (a : olsrv2_tc_attachment) : tc_M unit := modify (set_attachment_mem <[p := a]>).
Definition store_endpoint (p : ptr) (e : olsrv2_tc_endpoint) : tc_M unit := modify (set_endpoint_mem <[p := e]>).

(** [oonf_class_free] *)
Definition free_node (p : ptr) : tc_M unit :=
  modify (set_node_mem (delete p)) ;;;
  modify (fun s => set_timers (set_instances (delete p (instances (timers s))) (timers s)) s).
Definition free_edge (p : ptr) : tc_M unit := modify (set_edge_mem (delete p)).
Definition free_attachment (p : ptr) : tc_M unit := modify (set_attachment_mem (delete p)).
Definition free_endpoint (p : ptr) : tc_M unit := modify (set_endpoint_mem (delete p)).

(** Fields of a node *)
Definition with_ansn (ansn : Z) (n : olsrv2_tc_node) : olsrv2_tc_node :=
  {| n_target := n_target n; n_ansn := ansn; interval_time := interval_time n; direct_neighbor := direct_neighbor n;
     source_specific := source_specific n; ss_attached_networks := ss_attached_networks n; _edges := _edges n;
     _attached_networks := _attached_networks n |}.
Definition with_direct (b : bool) (n : olsrv2_tc_node) : olsrv2_tc_node :=
  {| n_target := n_target n; n_ansn := n_ansn n; interval_time := interval_time n; direct_neighbor := b;
     source_specific := source_specific n; ss_attached_networks := ss_attached_networks n; _edges := _edges n;
     _attached_networks := _attached_networks n |}.
Definition with_edges (l : list ptr) (n : olsrv2_tc_node) : olsrv2_tc_node :=
  {| n_target := n_target n; n_ansn := n_ansn n; interval_time := interval_time n; direct_neighbor := direct_neighbor n;
     source_specific := source_specific n; ss_attached_networks := ss_attached_networks n; _edges := l;
     _attached_networks := _attached_networks n |}.
Definition with_attached (l : list ptr) (n : olsrv2_tc_node) : olsrv2_tc_node :=
  {| n_target := n_target n; n_ansn := n_ansn n; interval_time := interval_time n; direct_neighbor := direct_neighbor n;
     source_specific := source_specific n; ss_attached_networks := ss_attached_networks n; _edges := _edges n;
     _attached_networks := l |}.
Definition with_virtual (b : bool) (e : olsrv2_tc_edge) : olsrv2_tc_edge :=
  {| e_src := e_src e; e_dst := e_dst e; inverse := inverse e; e_cost := e_cost e; e_ansn := e_ansn e; virtual := b |}.
Definition with_cost (c : list Z) (e : olsrv2_tc_edge) : olsrv2_tc_edge :=
  {| e_src := e_src e; e_dst := e_dst e; inverse := inverse e; e_cost := c; e_ansn := e_ansn e; virtual := virtual e |}.
Definition with_ep_attached (l : list ptr) (e : olsrv2_tc_endpoint) : olsrv2_tc_endpoint :=
  {| ep_target := ep_target e; ep_attached_networks := l |}.
Definition with_originator (p : ptr) (e : olsrv2_tc_endpoint) : olsrv2_tc_endpoint :=
  {| ep_target := {| prefix := prefix (ep_target e); type := type (ep_target e); dijkstra_originator := p |};
     ep_attached_networks := ep_attached_networks e |}.

Definition infinite_costs : list Z := repeat RFC7181_METRIC_INFINITE NHDP_MAXIMUM_DOMAINS.

(** ** Trees

    The keys: the originator of a node, the originator of the destination of an
    edge, the prefix of an endpoint for the attachments of a node, the prefix of
    a node for the attachments of an endpoint. *)

Definition no_prefix : os_route_key := os_routing_init_sourcespec_prefix netaddr_invalidate.
Definition prefixes (nodes : gmap ptr olsrv2_tc_node) : gmap ptr os_route_key := (fun n => prefix (n_target n)) <$> nodes.
Definition ep_prefixes (endpoints : gmap ptr olsrv2_tc_endpoint) : gmap ptr os_route_key :=
  (fun e => prefix (ep_target e)) <$> endpoints.

Definition prefix_at (P : gmap ptr os_route_key) (p : ptr) : os_route_key := default no_prefix (P !! p).
Definition node_key (P : gmap ptr os_route_key) (p : ptr) : netaddr := rk_dst (prefix_at P p).
Definition edge_key (P : gmap ptr os_route_key) (em : gmap ptr olsrv2_tc_edge) (e : ptr) : netaddr :=
  match em !! e with Some e => node_key P (e_dst e) | None => netaddr_invalidate end.
Definition src_key (EP : gmap ptr os_route_key) (am : gmap ptr olsrv2_tc_attachment) (a : ptr) : os_route_key :=
  match am !! a with Some a => prefix_at EP (a_dst a) | None => no_prefix end.
Definition endpoint_node_key (P : gmap ptr os_route_key) (am : gmap ptr olsrv2_tc_attachment) (a : ptr) : os_route_key :=
  match am !! a with Some a => prefix_at P (a_src a) | None => no_prefix end.

Definition avl_insert_node (p : ptr) : tc_M unit :=
  modify (fun s => set_tc_tree (inserted (node_key (prefixes (node_mem s))) avl_comp_netaddr p (_tc_tree s)) s).
Definition avl_insert_edge (node edge : ptr) : tc_M unit :=
  n <~ load node_mem node ;;
  s <~ get ;;
  store_node node (with_edges (inserted (edge_key (prefixes (node_mem s)) (edge_mem s)) avl_comp_netaddr edge (_edges n)) n).
Definition avl_insert_attachment (node net : ptr) : tc_M unit :=
  n <~ load node_mem node ;;
  s <~ get ;;
  store_node node (with_attached (inserted (src_key (ep_prefixes (endpoint_mem s)) (attachment_mem s)) os_routing_avl_cmp_route_key net (_attached_networks n)) n).
Definition avl_insert_endpoint_node (end_ net : ptr) : tc_M unit :=
  e <~ load endpoint_mem end_ ;;
  s <~ get ;;
  store_endpoint end_ (with_ep_attached (inserted (endpoint_node_key (prefixes (node_mem s)) (attachment_mem s)) os_routing_avl_cmp_route_key net (ep_attached_networks e)) e).

Definition avl_remove_node (p : ptr) : tc_M unit :=
  s <~ get ;; l <~ lift (removed p (_tc_tree s)) ;; modify (set_tc_tree l).
Definition avl_remove_edge (node edge : ptr) : tc_M unit :=
  n <~ load node_mem node ;; l <~ lift (removed edge (_edges n)) ;; store_node node (with_edges l n).
Definition avl_remove_attachment (node net : ptr) : tc_M unit :=
  n <~ load node_mem node ;; l <~ lift (removed net (_attached_networks n)) ;; store_node node (with_attached l n).
Definition avl_remove_endpoint_node (end_ net : ptr) : tc_M unit :=
  e <~ load endpoint_mem end_ ;; l <~ lift (removed net (ep_attached_networks e)) ;; store_endpoint end_ (with_ep_attached l e).

Section database.
Context (os_core_get_random : nat -> option Z).
(** The address of [_validity_info]. *)
Context (_validity_info : positive).
(** The allocator: the addresses in use and the number of calls so far determine
    whether there is memory, and where. *)
Context (malloc : gset ptr -> nat -> option ptr).

Definition oonf_class_malloc (in_use : tc_db -> gset ptr) : tc_M (option ptr) := fun s =>
  Def (malloc (in_use s) (mallocs s), count_malloc s).

(** A node lives together with its timer. *)
Definition node_addresses (s : tc_db) : gset ptr := dom (node_mem s) ∪ dom (instances (timers s)).

Definition timer_set (p : ptr) (rel_time : Z) : tc_M unit :=
  s <~ get ;; t <~ lift (oonf_timer_set os_core_get_random p rel_time (timers s)) ;; modify (set_timers t).
Definition timer_stop (p : ptr) : tc_M unit :=
  s <~ get ;; t <~ lift (oonf_timer_stop p (timers s)) ;; modify (set_timers t).

Definition olsrv2_tc_is_node_virtual (p : ptr) : tc_M bool :=
  s <~ get ;; t <~ lift (get_timer (timers s) p) ;; ret (negb (oonf_timer_is_active t)).

Definition olsrv2_tc_node_get (originator : netaddr) : tc_M (option ptr) :=
  s <~ get ;; ret (tree_find (node_key (prefixes (node_mem s))) avl_comp_netaddr originator (_tc_tree s)).
Definition olsrv2_tc_endpoint_get (prefix : os_route_key) : tc_M (option ptr) :=
  s <~ get ;; ret (tree_find (prefix_at (ep_prefixes (endpoint_mem s))) os_routing_avl_cmp_route_key prefix (_tc_endpoint_tree s)).

(** ** Nodes *)

(** The cleared memory after its initialisation. *)
Definition new_node (p : ptr) (originator : netaddr) (ansn : Z) : olsrv2_tc_node := {|
  n_target := {| prefix := os_routing_init_sourcespec_prefix originator; type := OLSRV2_NODE_TARGET; dijkstra_originator := p |};
  n_ansn := ansn; interval_time := 0; direct_neighbor := false; source_specific := false;
  ss_attached_networks := repeat false NHDP_MAXIMUM_DOMAINS; _edges := []; _attached_networks := [];
|}.

Definition olsrv2_tc_node_add (originator : netaddr) (vtime ansn : Z) : tc_M (option ptr) :=
  node <~ olsrv2_tc_node_get originator ;;
  node <~ match node with
    | None =>
        node <~ oonf_class_malloc node_addresses ;;
        match node with
        | None => ret None
        | Some node =>
            store_node node (new_node node originator ansn) ;;;
            modify (fun s => set_timers (put_timer node (cleared_timer _validity_info) (timers s)) s) ;;;
            avl_insert_node node ;;;
            call (Node_event node OONF_OBJECT_ADDED) ;;;
            ret (Some node)
        end
    | Some node =>
        is_virtual <~ olsrv2_tc_is_node_virtual node ;;
        (if (is_virtual : bool) then
           n <~ load node_mem node ;;
           store_node node (with_ansn ansn n) ;;;
           call (Node_event node OONF_OBJECT_ADDED)
         else ret tt) ;;;
        ret (Some node)
    end ;;
  match node with
  | None => ret None
  | Some node => timer_set node vtime ;;; ret (Some node)
  end.

(** ** Removal

    [node_remove] is [olsrv2_tc_node_remove]. *)
Definition _remove_edge (node_remove : ptr -> tc_M unit) (edge : ptr) (cleanup : bool) : tc_M bool :=
  e <~ load edge_mem edge ;;
  if virtual e then ret false
  else
    call (Edge_event edge OONF_OBJECT_REMOVED) ;;;
    inv <~ load edge_mem (inverse e) ;;
    if negb (virtual inv) then
      store_edge edge (with_virtual true e) ;;;
      ret false
    else
      avl_remove_edge (e_src e) edge ;;;
      avl_remove_edge (e_dst e) (inverse e) ;;;
      dst <~ load node_mem (e_dst e) ;;
      is_virtual <~ olsrv2_tc_is_node_virtual (e_dst e) ;;
      let remove := bool_decide (length (_edges dst) = 0%nat) && cleanup && (is_virtual : bool) in
      (if remove then node_remove (e_dst e) else ret tt) ;;;
      free_edge (inverse e) ;;;
      free_edge edge ;;;
      ret remove.

Definition edge_remove (node_remove : ptr -> tc_M unit) (edge : ptr) : tc_M bool :=
  call Domain_changed_all ;;; _remove_edge node_remove edge true.

Definition olsrv2_tc_endpoint_remove (net : ptr) : tc_M unit :=
  call (Attached_event net OONF_OBJECT_REMOVED) ;;;
  a <~ load attachment_mem net ;;
  avl_remove_attachment (a_src a) net ;;;
  avl_remove_endpoint_node (a_dst a) net ;;;
  dst <~ load endpoint_mem (a_dst a) ;;
  (if bool_decide (length (ep_attached_networks dst) = 0%nat) then
     call (Endpoint_event (a_dst a) OONF_OBJECT_REMOVED) ;;;
     s <~ get ;;
     l <~ lift (removed (a_dst a) (_tc_endpoint_tree s)) ;;
     modify (set_tc_endpoint_tree l) ;;;
     free_endpoint (a_dst a)
   else ret tt) ;;;
  free_attachment net ;;;
  call Domain_changed_all.

(** The recursion over [_remove_edge] removes a node without edges: two levels
    are enough. *)
Fixpoint node_remove (depth : nat) (node : ptr) : tc_M unit :=
  match depth with
  | O => undef Out_of_fuel
  | S depth =>
      call (Node_event node OONF_OBJECT_REMOVED) ;;;
      for_each_safe (n <~ load node_mem node ;; ret (_edges n))
        (fun edge => edge_remove (node_remove depth) edge ;;; ret tt) ;;;
      for_each_safe (n <~ load node_mem node ;; ret (_attached_networks n)) olsrv2_tc_endpoint_remove ;;;
      timer_stop node ;;;
      n <~ load node_mem node ;;
      (if bool_decide (length (_edges n) = 0%nat) && negb (direct_neighbor n) then
         avl_remove_node node ;;;
         free_node node
       else ret tt) ;;;
      call Domain_changed_all
  end.

Definition olsrv2_tc_node_remove : ptr -> tc_M unit := node_remove 2.
Definition olsrv2_tc_edge_remove : ptr -> tc_M bool := edge_remove (node_remove 1).

(** ** Edges *)

Definition new_edge (src dst inverse_ : ptr) (virtual_ : bool) : olsrv2_tc_edge :=
  {| e_src := src; e_dst := dst; inverse := inverse_; e_cost := infinite_costs; e_ansn := 0; virtual := virtual_ |}.

Definition edge_addresses (s : tc_db) : gset ptr := dom (edge_mem s).

Definition olsrv2_tc_edge_add (src : ptr) (addr : netaddr) : tc_M (option ptr) :=
  n <~ load node_mem src ;;
  s <~ get ;;
  match tree_find (edge_key (prefixes (node_mem s)) (edge_mem s)) avl_comp_netaddr addr (_edges n) with
  | Some edge =>
      e <~ load edge_mem edge ;;
      store_edge edge (with_cost infinite_costs (with_virtual false e)) ;;;
      call (Edge_event edge OONF_OBJECT_ADDED) ;;;
      ret (Some edge)
  | None =>
      edge <~ oonf_class_malloc edge_addresses ;;
      match edge with
      | None => ret None
      | Some edge =>
          (* the memory is in use from here on *)
          store_edge edge (new_edge src src edge false) ;;;
          inverse_ <~ oonf_class_malloc edge_addresses ;;
          match inverse_ with
          | None => free_edge edge ;;; ret None
          | Some inverse_ =>
              store_edge inverse_ (new_edge src src edge true) ;;;
              dst <~ olsrv2_tc_node_get addr ;;
              dst <~ match dst with None => olsrv2_tc_node_add addr 0 0 | Some dst => ret (Some dst) end ;;
              match dst with
              | None => free_edge edge ;;; free_edge inverse_ ;;; ret None
              | Some dst =>
                  store_edge edge (new_edge src dst inverse_ false) ;;;
                  avl_insert_edge src edge ;;;
                  store_edge inverse_ (new_edge dst src edge true) ;;;
                  avl_insert_edge dst inverse_ ;;;
                  call (Edge_event edge OONF_OBJECT_ADDED) ;;;
                  ret (Some edge)
              end
          end
      end
  end.

(** ** Attached networks *)

Definition endpoint_addresses (s : tc_db) : gset ptr := dom (endpoint_mem s).
Definition attachment_addresses (s : tc_db) : gset ptr := dom (attachment_mem s).

Definition new_endpoint (prefix_ : os_route_key) (mesh : bool) (originator : ptr) : olsrv2_tc_endpoint := {|
  ep_target := {| prefix := prefix_; type := if mesh then OLSRV2_ADDRESS_TARGET else OLSRV2_NETWORK_TARGET;
                  dijkstra_originator := originator |};
  ep_attached_networks := [];
|}.

(** The pointer [originator] of a new endpoint is NULL until the end of the
    function; the model has the node there at once. The distances of a new
    attachment are cleared memory. *)
Definition olsrv2_tc_endpoint_add (node : ptr) (prefix_ : os_route_key) (mesh : bool) : tc_M (option ptr) :=
  n <~ load node_mem node ;;
  s <~ get ;;
  match tree_find (src_key (ep_prefixes (endpoint_mem s)) (attachment_mem s)) os_routing_avl_cmp_route_key prefix_ (_attached_networks n) with
  | Some net => ret (Some net)
  | None =>
      net <~ oonf_class_malloc attachment_addresses ;;
      match net with
      | None => ret None
      | Some net =>
          end_ <~ olsrv2_tc_endpoint_get prefix_ ;;
          end_ <~ match end_ with
            | Some end_ => ret (Some end_)
            | None =>
                end_ <~ oonf_class_malloc endpoint_addresses ;;
                match end_ with
                | None => ret None
                | Some end_ =>
                    store_endpoint end_ (new_endpoint prefix_ mesh node) ;;;
                    modify (fun s => set_tc_endpoint_tree
                      (tree_insert_dup (prefix_at (ep_prefixes (endpoint_mem s))) os_routing_avl_cmp_route_key end_ (_tc_endpoint_tree s)) s) ;;;
                    call (Endpoint_event end_ OONF_OBJECT_ADDED) ;;;
                    ret (Some end_)
                end
            end ;;
          match end_ with
          | None => ret None
          | Some end_ =>
              store_attachment net {| a_src := node; a_dst := end_; a_cost := infinite_costs;
                                      a_distance := repeat 0 NHDP_MAXIMUM_DOMAINS; a_ansn := 0 |} ;;;
              avl_insert_attachment node net ;;;
              avl_insert_endpoint_node end_ net ;;;
              e <~ load endpoint_mem end_ ;;
              store_endpoint end_ (with_originator node e) ;;;
              call (Attached_event net OONF_OBJECT_ADDED) ;;;
              ret (Some net)
          end
      end
  end.

(** ** Timeouts, neighbors and cleanup *)

Definition _cb_tc_node_timeout (node : ptr) : tc_M unit :=
  olsrv2_tc_node_remove node ;;; call Trigger_update.

Definition olsrv2_tc_trigger_change (node : ptr) : tc_M unit := call (Node_event node OONF_OBJECT_CHANGED).

(** The part of a [struct nhdp_neighbor] that the callbacks read. *)
Record neighbor_originators := { originator : netaddr; _old_originator : netaddr }.

Definition _cb_neighbor_remove (neigh : neighbor_originators) : tc_M unit :=
  if netaddr_is_unspec (originator neigh) then ret tt
  else
    tc_node <~ olsrv2_tc_node_get (originator neigh) ;;
    match tc_node with
    | None => ret tt
    | Some tc_node =>
        n <~ load node_mem tc_node ;;
        store_node tc_node (with_direct false n) ;;;
        is_virtual <~ olsrv2_tc_is_node_virtual tc_node ;;
        if (is_virtual : bool) then olsrv2_tc_node_remove tc_node else ret tt
    end.

Definition _cb_neighbor_change (neigh : neighbor_originators) : tc_M unit :=
  if bool_decide (originator neigh = _old_originator neigh) then ret tt
  else
    _cb_neighbor_remove neigh ;;;
    if netaddr_is_unspec (originator neigh) then ret tt
    else
      tc_node <~ olsrv2_tc_node_get (originator neigh) ;;
      tc_node <~ match tc_node with
        | Some tc_node => ret (Some tc_node) | None => olsrv2_tc_node_add (originator neigh) 0 0 end ;;
      match tc_node with
      | None => ret tt
      | Some tc_node => n <~ load node_mem tc_node ;; store_node tc_node (with_direct true n)
      end.

Definition get_tc_tree : tc_M (list ptr) := s <~ get ;; ret (_tc_tree s).

Definition olsrv2_tc_cleanup : tc_M unit :=
  for_each get_tc_tree (fun node =>
    for_each_safe (n <~ load node_mem node ;; ret (_edges n)) (fun edge => _remove_edge (node_remove 1) edge false ;;; ret tt) ;;;
    for_each_safe (n <~ load node_mem node ;; ret (_attached_networks n)) olsrv2_tc_endpoint_remove) ;;;
  for_each_safe get_tc_tree olsrv2_tc_node_remove.
End database.

(** [olsrv2_tc_init], with a timer state in which [_validity_info] is known. *)
Definition olsrv2_tc_init (t : timer_state) : tc_db := {|
  node_mem := ∅; edge_mem := ∅; attachment_mem := ∅; endpoint_mem := ∅; _tc_tree := []; _tc_endpoint_tree := [];
  timers := t; calls := []; mallocs := 0;
|}.
