(* ===== verification/TcInvariant.v ===== *)
(** What the topology database of src/olsrv2/olsrv2/olsrv2_tc.c keeps true of its
    memory: trees and objects agree, edges come in pairs, endpoints are used,
    nodes have a reason to be there; and the facts that the database shows. *)

From Stdlib Require Import ZArith Lia Sorted.
From stdpp Require Import base list numbers option gmap sets.
From S2P Require Import Prelude AvlSpec StateMonad Netaddr MprSelection NhdpDb RoutingSet Timer ValidityTimer TcDatabase.

Local Open Scope Z_scope.

#[export] Instance os_route_key_countable : Countable os_route_key.
Proof. apply (inj_countable' (fun k => (rk_dst k, rk_src k)) (fun p => {| rk_dst := p.1; rk_src := p.2 |})). by intros []. Defined.

(** ** Nodes *)

Notation prefix_map := (gmap ptr os_route_key).

Record nodes_ok (P : prefix_map) (tree : list ptr) : Prop := {
  no_mem p : p ∈ tree <-> is_Some (P !! p);
  no_strict : tree_strict (node_key P) avl_comp_netaddr tree;
  no_prefix_of p k : P !! p = Some k -> k = os_routing_init_sourcespec_prefix (rk_dst k);
}.

#[global] Arguments no_mem {P tree}.
#[global] Arguments no_strict {P tree}.
#[global] Arguments no_prefix_of {P tree}.

Lemma node_key_at P p k : P !! p = Some k -> node_key P p = rk_dst k.
Proof. unfold node_key, prefix_at. by intros ->. Qed.

Lemma prefix_at_insert_ne P p q k : q <> p -> prefix_at (<[p := k]> P) q = prefix_at P q.
Proof. intros. unfold prefix_at. by rewrite lookup_insert_ne. Qed.

Lemma prefix_at_insert P p k : prefix_at (<[p := k]> P) p = k.
Proof. unfold prefix_at. by rewrite lookup_insert_eq. Qed.

Lemma prefix_at_delete_ne P p q : q <> p -> prefix_at (delete p P) q = prefix_at P q.
Proof. intros. unfold prefix_at. by rewrite lookup_delete_ne. Qed.

(** Originators are unique. *)
Lemma node_key_inj P tree p q : nodes_ok P tree -> is_Some (P !! p) -> is_Some (P !! q) -> node_key P p = node_key P q -> p = q.
Proof.
  intros H Hp Hq E. apply (tree_strict_inj (node_key P) avl_comp_netaddr tree); [apply H|by apply H..|].
  rewrite E. by apply netaddr_cmp_eq.
Qed.

Lemma nodes_find P tree a o : nodes_ok P tree ->
  tree_find (node_key P) avl_comp_netaddr a tree = o <->
  match o with Some p => is_Some (P !! p) /\ node_key P p = a | None => forall p, is_Some (P !! p) -> node_key P p <> a end.
Proof.
  intros H. rewrite (tree_find_spec (node_key P) avl_comp_netaddr a tree o) by apply H. destruct o as [p|].
  - rewrite (no_mem H), netaddr_cmp_eq. split; intros [? ?]; done.
  - split.
    + intros Hall p Hp E. apply (Hall p); [by apply H|]. by apply netaddr_cmp_eq.
    + intros Hall p Hp E. apply netaddr_cmp_eq in E. apply (Hall p); [by apply H|done].
Qed.

Lemma nodes_insert P tree p a : nodes_ok P tree -> P !! p = None -> (forall q, is_Some (P !! q) -> node_key P q <> a) ->
  let P' := <[p := os_routing_init_sourcespec_prefix a]> P in
  nodes_ok P' (inserted (node_key P') avl_comp_netaddr p tree).
Proof.
  intros H Hp Ha P'. assert (forall q, q ∈ tree -> q <> p) as Hne.
  { intros q Hq ->. apply H in Hq as [? ?]. congruence. }
  assert (forall q, q ∈ tree -> node_key P' q = node_key P q) as Hk.
  { intros q Hq. unfold node_key, P'. rewrite prefix_at_insert_ne; [done|by apply Hne]. }
  assert (node_key P' p = a) as Hkp by (unfold node_key, P'; by rewrite prefix_at_insert).
  destruct (inserted_spec (node_key P') avl_comp_netaddr p tree) as [Hs Hin].
  - eapply tree_strict_key_ext; [exact Hk|apply H].
  - intros q Hq. rewrite Hkp, Hk by done. intros E%netaddr_cmp_eq. apply (Ha q); [by apply H|done].
  - split; [|done|].
    + intros q. rewrite Hin. unfold P'. destruct (decide (q = p)) as [->|Hq].
      * rewrite lookup_insert_eq. split; [by eexists|by left].
      * rewrite lookup_insert_ne by done. rewrite (no_mem H). split; [by intros [?|?]|by right].
    + intros q k. unfold P'. destruct (decide (q = p)) as [->|Hq].
      * rewrite lookup_insert_eq. by intros [= <-].
      * rewrite lookup_insert_ne by done. apply H.
Qed.

Lemma nodes_delete P tree p : nodes_ok P tree -> nodes_ok (delete p P) (filter (fun q => q <> p) tree).
Proof.
  intros H. split.
  - intros q. rewrite elem_of_filter_ne, (no_mem H). destruct (decide (q = p)) as [->|Hq].
    + rewrite lookup_delete_eq. split; [by intros []|by intros []].
    + rewrite lookup_delete_ne by done. tauto.
  - eapply tree_strict_key_ext; [|apply tree_strict_filter, H]. intros q [Hq _]%elem_of_filter_ne.
    unfold node_key. by rewrite prefix_at_delete_ne.
  - intros q k [_ Hk]%lookup_delete_Some. by apply (no_prefix_of H q).
Qed.

(** ** Edges *)

Notation list_map := (gmap ptr (list ptr)).
Notation edge_map := (gmap ptr olsrv2_tc_edge).

Definition cost_ok (c : list Z) : Prop := length c = NHDP_MAXIMUM_DOMAINS /\ Forall (fun k => 0 <= k) c.

Lemma infinite_costs_ok : cost_ok infinite_costs.
Proof. split; [done|]. by repeat constructor. Qed.

(** Two edges between the same nodes, of which at least one was announced. *)
Record pair_ok (em : edge_map) (e : ptr) (ed : olsrv2_tc_edge) (inv : olsrv2_tc_edge) : Prop := {
  pair_at : em !! inverse ed = Some inv;
  pair_back : inverse inv = e;
  pair_src : e_src inv = e_dst ed;
  pair_dst : e_dst inv = e_src ed;
  pair_real : virtual ed = false \/ virtual inv = false;
}.

Record edges_ok (P : prefix_map) (E : list_map) (em : edge_map) : Prop := {
  eo_dom p : is_Some (E !! p) <-> is_Some (P !! p);
  eo_list p l e : E !! p = Some l -> e ∈ l <-> exists ed, em !! e = Some ed /\ e_src ed = p;
  eo_strict p l : E !! p = Some l -> tree_strict (edge_key P em) avl_comp_netaddr l;
  eo_ends e ed : em !! e = Some ed -> is_Some (P !! e_src ed) /\ is_Some (P !! e_dst ed) /\ e_src ed <> e_dst ed;
  eo_pair e ed : em !! e = Some ed -> exists inv, pair_ok em e ed inv;
  eo_cost e ed : em !! e = Some ed -> cost_ok (e_cost ed);
}.

#[global] Arguments eo_dom {P E em}.
#[global] Arguments eo_list {P E em}.
#[global] Arguments eo_strict {P E em}.
#[global] Arguments eo_ends {P E em}.
#[global] Arguments eo_pair {P E em}.
#[global] Arguments eo_cost {P E em}.
#[global] Arguments pair_at {em e ed inv}.
#[global] Arguments pair_back {em e ed inv}.
#[global] Arguments pair_src {em e ed inv}.
#[global] Arguments pair_dst {em e ed inv}.
#[global] Arguments pair_real {em e ed inv}.

Lemma edge_key_at P em e ed : em !! e = Some ed -> edge_key P em e = node_key P (e_dst ed).
Proof. unfold edge_key. by intros ->. Qed.

(** The inverse of an edge is another one. *)
Lemma inverse_ne P E em e ed : edges_ok P E em -> em !! e = Some ed -> inverse ed <> e.
Proof.
  intros H He Ei. destruct (eo_pair H e ed He) as [inv Hp]. destruct (eo_ends H e ed He) as (_ & _ & Hne).
  pose proof (pair_at Hp) as Ha. rewrite Ei, He in Ha. injection Ha as <-. apply Hne. apply Hp.
Qed.

(** What an edge announces changes, its ends stay. *)
Lemma edges_update P E em e ed ed' : edges_ok P E em -> em !! e = Some ed ->
  e_src ed' = e_src ed -> e_dst ed' = e_dst ed -> inverse ed' = inverse ed -> cost_ok (e_cost ed') ->
  (virtual ed' = false \/ exists inv, em !! inverse ed = Some inv /\ virtual inv = false) ->
  edges_ok P E (<[e := ed']> em).
Proof.
  intros H He Es Ed Ei Ec Hv.
  assert (forall x xd, <[e := ed']> em !! x = Some xd -> exists xd0, em !! x = Some xd0 /\ e_src xd = e_src xd0 /\
    e_dst xd = e_dst xd0 /\ inverse xd = inverse xd0 /\ cost_ok (e_cost xd)) as Hback.
  { intros x xd. destruct (decide (x = e)) as [->|Hx].
    - rewrite lookup_insert_eq. intros [= <-]. by exists ed.
    - rewrite lookup_insert_ne by done. intros Hx'. exists xd. repeat split; [done|..]; by apply (eo_cost H x xd). }
  split.
  - apply H.
  - intros p l x Hl. rewrite (eo_list H p l x Hl). destruct (decide (x = e)) as [->|Hx].
    + rewrite lookup_insert_eq, He. split; intros (xd & [= <-] & <-); eauto.
    + by rewrite lookup_insert_ne.
  - intros p l Hl. eapply tree_strict_key_ext; [|by apply (eo_strict H p l)].
    intros x _. unfold edge_key. destruct (decide (x = e)) as [->|Hx].
    + by rewrite lookup_insert_eq, He, Ed.
    + by rewrite lookup_insert_ne.
  - intros x xd (xd0 & Hx & -> & -> & _)%Hback. by apply (eo_ends H x).
  - intros x xd Hx. destruct (Hback x xd Hx) as (xd0 & Hx0 & E1 & E2 & E3 & _).
    destruct (eo_pair H x xd0 Hx0) as [inv Hp].
    destruct (decide (inverse xd0 = e)) as [Ee|Ee].
    + exists ed'. pose proof (pair_at Hp) as Ha. rewrite Ee, He in Ha. injection Ha as <-.
      destruct Hp as [_ Hb Hs Hd Hr]. split; rewrite ?E3, ?Ee, ?E1, ?E2, ?Es, ?Ed, ?Ei; try done; [by rewrite lookup_insert_eq|].
      assert (x <> e) as Hxe. { intros ->. by apply (inverse_ne _ _ _ e xd0 H). }
      rewrite lookup_insert_ne in Hx by done. assert (xd = xd0) as -> by congruence.
      destruct Hv as [Hv|(i & Hi & Hvi)]; [by right|]. left. rewrite Hb in Hi. congruence.
    + exists inv. destruct Hp as [Ha Hb Hs Hd Hr]. split; rewrite ?E3, ?E1, ?E2; try done; [by rewrite lookup_insert_ne|].
      destruct (decide (x = e)) as [->|Hxe].
      * rewrite lookup_insert_eq in Hx. injection Hx as <-. assert (xd0 = ed) as -> by congruence.
        destruct Hv as [Hv|(i & Hi & Hvi)]; [by left|]. right. congruence.
      * rewrite lookup_insert_ne in Hx by done. congruence.
  - intros x xd (xd0 & _ & _ & _ & _ & Hc)%Hback. done.
Qed.

(** A node has at most one edge to another one. *)
Lemma edge_unique P E em tree e1 e2 d1 d2 : nodes_ok P tree -> edges_ok P E em -> em !! e1 = Some d1 -> em !! e2 = Some d2 ->
  e_src d1 = e_src d2 -> e_dst d1 = e_dst d2 -> e1 = e2.
Proof.
  intros HN H H1 H2 Es Ed. destruct (eo_ends H e1 d1 H1) as (Hs & _). apply H in Hs as [l Hl].
  apply (tree_strict_inj (edge_key P em) avl_comp_netaddr l).
  - by apply (eo_strict H _ _ Hl).
  - apply (eo_list H _ _ _ Hl). eauto.
  - apply (eo_list H _ _ _ Hl). eauto.
  - rewrite (edge_key_at _ _ _ _ H1), (edge_key_at _ _ _ _ H2), Ed. by apply netaddr_cmp_eq.
Qed.

(** Adding the pair of edges between two nodes. *)
Lemma edges_link P E em tree src dst e i ls ld : nodes_ok P tree -> edges_ok P E em -> is_Some (P !! src) -> is_Some (P !! dst) ->
  src <> dst -> e <> i -> em !! e = None -> em !! i = None -> E !! src = Some ls -> E !! dst = Some ld ->
  (forall x, x ∈ ls -> edge_key P em x <> node_key P dst) ->
  let em' := <[i := new_edge dst src e true]> (<[e := new_edge src dst i false]> em) in
  edges_ok P (<[dst := inserted (edge_key P em') avl_comp_netaddr i ld]> (<[src := inserted (edge_key P em') avl_comp_netaddr e ls]> E)) em'.
Proof.
  intros HN H Hsrc Hdst Hne Hei He Hi Hls Hld Hnew em'.
  assert (em' !! e = Some (new_edge src dst i false)) as Ee by (unfold em'; rewrite lookup_insert_ne by done; by rewrite lookup_insert_eq).
  assert (em' !! i = Some (new_edge dst src e true)) as Ei by (unfold em'; by rewrite lookup_insert_eq).
  assert (forall x, x <> e -> x <> i -> em' !! x = em !! x) as Eo by (intros x ? ?; unfold em'; by rewrite !lookup_insert_ne).
  assert (forall x d, em !! x = Some d -> x <> e /\ x <> i) as Hold by (intros x d Hx; split; intros ->; congruence).
  assert (forall x d, em' !! x = Some d -> x = e /\ d = new_edge src dst i false \/ x = i /\ d = new_edge dst src e true \/ x <> e /\ x <> i /\ em !! x = Some d) as Hcases.
  { intros x d. destruct (decide (x = e)) as [->|He']; [rewrite Ee; intros [= <-]; auto|].
    destruct (decide (x = i)) as [->|Hi']; [rewrite Ei; intros [= <-]; auto|]. rewrite Eo by done. auto. }
  assert (forall p l x, E !! p = Some l -> x ∈ l -> x <> e /\ x <> i /\ edge_key P em' x = edge_key P em x) as Hin.
  { intros p l x Hl Hx. apply (eo_list H p l x Hl) in Hx as (d & Hd & _). destruct (Hold x d Hd). unfold edge_key. by rewrite Eo. }
  assert (forall x, x ∈ ld -> edge_key P em x <> node_key P src) as Hnew'.
  { intros x Hx Ek. apply (eo_list H dst ld x Hld) in Hx as (d & Hd & Hs). rewrite (edge_key_at _ _ _ _ Hd) in Ek.
    destruct (eo_ends H x d Hd) as (_ & Hdd & _). apply (node_key_inj P tree) in Ek; [|done..].
    destruct (eo_pair H x d Hd) as [inv Hp]. apply (Hnew (inverse d)).
    - apply (eo_list H src ls _ Hls). exists inv. split; [apply Hp|]. by rewrite (pair_src Hp).
    - rewrite (edge_key_at _ _ _ _ (pair_at Hp)), (pair_dst Hp). by rewrite Hs. }
  destruct (inserted_spec (edge_key P em') avl_comp_netaddr e ls) as [Hs1 Hs2].
  { eapply tree_strict_key_ext; [|by apply (eo_strict H _ _ Hls)]. intros x Hx. by apply (Hin src ls). }
  { intros y Hy. destruct (Hin src ls y Hls Hy) as (_ & _ & ->). rewrite (edge_key_at _ _ _ _ Ee). simpl.
    intros Ek%netaddr_cmp_eq. by apply (Hnew y). }
  destruct (inserted_spec (edge_key P em') avl_comp_netaddr i ld) as [Hd1 Hd2].
  { eapply tree_strict_key_ext; [|by apply (eo_strict H _ _ Hld)]. intros x Hx. by apply (Hin dst ld). }
  { intros y Hy. destruct (Hin dst ld y Hld Hy) as (_ & _ & ->). rewrite (edge_key_at _ _ _ _ Ei). simpl.
    intros Ek%netaddr_cmp_eq. by apply (Hnew' y). }
  split.
  - intros p. rewrite !lookup_insert_is_Some', (eo_dom H p). split; [|tauto]. by intros [<-|[<-|?]].
  - intros p l x. destruct (decide (p = dst)) as [->|Hpd]; [|destruct (decide (p = src)) as [->|Hps]].
    + rewrite lookup_insert_eq. intros [= <-]. rewrite Hd2, (eo_list H _ _ _ Hld). split.
      * intros [->|(d & Hd & <-)]; [by eexists|]. exists d. destruct (Hold x d Hd). by rewrite Eo.
      * intros (d & [[-> ->]|[[-> ->]|(_ & _ & Hd)]]%Hcases & Hs); simpl in *; [done|by left|right; eauto].
    + rewrite lookup_insert_ne by done. rewrite lookup_insert_eq. intros [= <-]. rewrite Hs2, (eo_list H _ _ _ Hls). split.
      * intros [->|(d & Hd & <-)]; [by eexists|]. exists d. destruct (Hold x d Hd). by rewrite Eo.
      * intros (d & [[-> ->]|[[-> ->]|(_ & _ & Hd)]]%Hcases & Hs); simpl in *; [by left|done|right; eauto].
    + rewrite !lookup_insert_ne by done. intros Hl. rewrite (eo_list H _ _ _ Hl). split.
      * intros (d & Hd & <-). exists d. destruct (Hold x d Hd). by rewrite Eo.
      * intros (d & [[-> ->]|[[-> ->]|(_ & _ & Hd)]]%Hcases & Hs); simpl in *; [by subst..|eauto].
  - intros p l. destruct (decide (p = dst)) as [->|Hpd]; [rewrite lookup_insert_eq; by intros [= <-]|].
    rewrite lookup_insert_ne by done. destruct (decide (p = src)) as [->|Hps]; [rewrite lookup_insert_eq; by intros [= <-]|].
    rewrite lookup_insert_ne by done. intros Hl. eapply tree_strict_key_ext; [|by apply (eo_strict H p l)].
    intros x Hx. by apply (Hin p l).
  - intros x d [[-> ->]|[[-> ->]|(_ & _ & Hd)]]%Hcases; simpl; [done..|by apply (eo_ends H x)].
  - intros x d [[-> ->]|[[-> ->]|(He' & Hi' & Hd)]]%Hcases.
    + exists (new_edge dst src e true). split; try done. by left.
    + exists (new_edge src dst i false). split; try done. by right.
    + destruct (eo_pair H x d Hd) as [inv Hp]. exists inv. destruct Hp as [Ha Hb Hs Hdd Hr]. split; try done.
      destruct (Hold _ _ Ha). by rewrite Eo.
  - intros x d [[-> ->]|[[-> ->]|(_ & _ & Hd)]]%Hcases; simpl; [apply infinite_costs_ok..|by apply (eo_cost H x)].
Qed.

(** Taking the pair out again. *)
Lemma edges_unlink P E em e ed ls ld : edges_ok P E em -> em !! e = Some ed ->
  E !! e_src ed = Some ls -> E !! e_dst ed = Some ld ->
  edges_ok P (<[e_dst ed := filter (fun y => y <> inverse ed) ld]> (<[e_src ed := filter (fun y => y <> e) ls]> E))
    (delete e (delete (inverse ed) em)).
Proof.
  intros H He Hls Hld. set (i := inverse ed). destruct (eo_pair H e ed He) as [inv Hp].
  pose proof (inverse_ne _ _ _ _ _ H He) as Hie. destruct (eo_ends H e ed He) as (_ & _ & Hne).
  assert (forall x d, delete e (delete i em) !! x = Some d <-> x <> e /\ x <> i /\ em !! x = Some d) as Hdel.
  { intros x d. rewrite !lookup_delete_Some. naive_solver. }
  pose proof (pair_at Hp) as Hi. fold i in Hi.
  assert (forall p l x, E !! p = Some l -> x ∈ l -> x <> e -> x <> i -> edge_key P (delete e (delete i em)) x = edge_key P em x) as Hkey.
  { intros p l x _ _ ? ?. unfold edge_key. by rewrite !lookup_delete_ne. }
  split.
  - intros p. rewrite !lookup_insert_is_Some', (eo_dom H p). split; [|tauto].
    destruct (eo_ends H e ed He) as (? & ? & _). by intros [<-|[<-|?]].
  - intros p l x. destruct (decide (p = e_dst ed)) as [->|Hpd]; [|destruct (decide (p = e_src ed)) as [->|Hps]].
    + rewrite lookup_insert_eq. intros [= <-]. rewrite elem_of_filter_ne, (eo_list H _ _ _ Hld). split.
      * intros (Hx & d & Hd & Hs). exists d. rewrite Hdel. split; [|done]. split; [|done]. intros ->. congruence.
      * intros (d & (? & ? & Hd)%Hdel & Hs). split; [done|]. eauto.
    + rewrite lookup_insert_ne by done. rewrite lookup_insert_eq. intros [= <-]. rewrite elem_of_filter_ne, (eo_list H _ _ _ Hls). split.
      * intros (Hx & d & Hd & Hs). exists d. rewrite Hdel. split; [|done]. split; [done|]. split; [|done].
        intros ->. assert (d = inv) as -> by congruence. rewrite (pair_src Hp) in Hs. congruence.
      * intros (d & (? & ? & Hd)%Hdel & Hs). split; [done|]. eauto.
    + rewrite !lookup_insert_ne by done. intros Hl. rewrite (eo_list H _ _ _ Hl). split.
      * intros (d & Hd & Hs). exists d. rewrite Hdel. split; [|done]. repeat split; [..|done]; intros ->.
        { congruence. } { assert (d = inv) as -> by congruence. rewrite (pair_src Hp) in Hs. congruence. }
      * intros (d & (_ & _ & Hd)%Hdel & Hs). eauto.
  - intros p l. destruct (decide (p = e_dst ed)) as [->|Hpd]; [|destruct (decide (p = e_src ed)) as [->|Hps]].
    + rewrite lookup_insert_eq. intros [= <-]. eapply tree_strict_key_ext; [|by apply tree_strict_filter, (eo_strict H _ _ Hld)].
      intros x [Hx Hin]%elem_of_filter_ne. eapply Hkey; [exact Hld|done| |done]. intros ->.
      apply (eo_list H _ _ _ Hld) in Hin as (d & Hd & Hs). congruence.
    + rewrite lookup_insert_ne by done. rewrite lookup_insert_eq. intros [= <-].
      eapply tree_strict_key_ext; [|by apply tree_strict_filter, (eo_strict H _ _ Hls)].
      intros x [Hx Hin]%elem_of_filter_ne. eapply Hkey; [exact Hls|done|done|]. intros ->.
      apply (eo_list H _ _ _ Hls) in Hin as (d & Hd & Hs). assert (d = inv) as -> by congruence.
      rewrite (pair_src Hp) in Hs. congruence.
    + rewrite !lookup_insert_ne by done. intros Hl. eapply tree_strict_key_ext; [|by apply (eo_strict H p l)].
      intros x Hin. eapply Hkey; [exact Hl|done|..]; intros ->; apply (eo_list H _ _ _ Hl) in Hin as (d & Hd & Hs).
      { congruence. } { assert (d = inv) as -> by congruence. rewrite (pair_src Hp) in Hs. congruence. }
  - intros x d (_ & _ & Hd)%Hdel. by apply (eo_ends H x).
  - intros x d (Hx1 & Hx2 & Hd)%Hdel. destruct (eo_pair H x d Hd) as [j Hj]. exists j.
    destruct Hj as [Ha Hb Hs Hdd Hr]. split; try done. apply Hdel. split; [|split; [|done]].
    + intros Ej. rewrite Ej, He in Ha. injection Ha as <-. done.
    + intros Ej. rewrite Ej, Hi in Ha. injection Ha as <-. rewrite (pair_back Hp) in Hb. congruence.
  - intros x d (_ & _ & Hd)%Hdel. by apply (eo_cost H x).
Qed.

(** Nodes without edges come and go. *)
Lemma edges_new_node P E em p k : edges_ok P E em -> P !! p = None -> edges_ok (<[p := k]> P) (<[p := []]> E) em.
Proof.
  intros H Hp. assert (forall e d, em !! e = Some d -> e_src d <> p /\ e_dst d <> p) as Hne.
  { intros e d (H1 & H2 & _)%(eo_ends H). split; intros E'; rewrite E', Hp in *; by destruct H1, H2. }
  assert (forall q l x, E !! q = Some l -> x ∈ l -> edge_key (<[p := k]> P) em x = edge_key P em x) as Hkey.
  { intros q l x Hl (d & Hd & _)%(eo_list H _ _ _ Hl). rewrite !(edge_key_at _ _ _ _ Hd). unfold node_key.
    rewrite prefix_at_insert_ne; [done|]. by apply (Hne x). }
  split.
  - intros q. by rewrite !lookup_insert_is_Some', (eo_dom H q).
  - intros q l e. destruct (decide (q = p)) as [->|Hq].
    + rewrite lookup_insert_eq. intros [= <-]. rewrite elem_of_nil. split; [done|]. intros (d & Hd & Hs). by destruct (Hne e d Hd).
    + rewrite lookup_insert_ne by done. apply H.
  - intros q l. destruct (decide (q = p)) as [->|Hq].
    + rewrite lookup_insert_eq. intros [= <-]. constructor.
    + rewrite lookup_insert_ne by done. intros Hl. eapply tree_strict_key_ext; [|by apply (eo_strict H q l)].
      intros x. by apply (Hkey q l).
  - intros e d Hd. destruct (Hne e d Hd). rewrite !lookup_insert_ne by done. by apply (eo_ends H e).
  - apply H.
  - apply H.
Qed.

Lemma edges_delete_node P E em p : edges_ok P E em -> E !! p = Some [] -> edges_ok (delete p P) (delete p E) em.
Proof.
  intros H Hp. assert (forall e d, em !! e = Some d -> e_src d <> p /\ e_dst d <> p) as Hne.
  { assert (forall e d, em !! e = Some d -> e_src d <> p) as Hs.
    { intros e d Hd Es. assert (e ∈ []) as Hin by (apply (eo_list H p [] e Hp); eauto). by apply elem_of_nil in Hin. }
    intros e d Hd. split; [by eapply Hs|]. destruct (eo_pair H e d Hd) as [inv Hi].
    rewrite <- (pair_src Hi). eapply Hs, Hi. }
  assert (forall q l x, E !! q = Some l -> x ∈ l -> edge_key (delete p P) em x = edge_key P em x) as Hkey.
  { intros q l x Hl (d & Hd & _)%(eo_list H _ _ _ Hl). rewrite !(edge_key_at _ _ _ _ Hd). unfold node_key.
    rewrite prefix_at_delete_ne; [done|]. by apply (Hne x). }
  split.
  - intros q. destruct (decide (q = p)) as [->|Hq]; [rewrite !lookup_delete_eq; split; by intros []|].
    rewrite !lookup_delete_ne by done. apply H.
  - intros q l e [_ Hl]%lookup_delete_Some. by apply H.
  - intros q l [_ Hl]%lookup_delete_Some. eapply tree_strict_key_ext; [|by apply (eo_strict H q l)].
    intros x. by apply (Hkey q l).
  - intros e d Hd. destruct (Hne e d Hd). rewrite !lookup_delete_ne by done. by apply (eo_ends H e).
  - apply H.
  - apply H.
Qed.
