(* ===== verification/TcNets.v ===== *)
(** The attached networks in the topology database of
    src/olsrv2/olsrv2/olsrv2_tc.c: an attachment is in the tree of its node and
    in the tree of its endpoint, and an endpoint is there as long as it is used. *)

From Stdlib Require Import ZArith Lia Sorted.
From stdpp Require Import base list numbers option gmap sets.
From S2P Require Import Prelude AvlSpec StateMonad Netaddr MprSelection NhdpDb RoutingSet Timer ValidityTimer TcDatabase TcInvariant.

Local Open Scope Z_scope.

(** ** Trees of objects at their owners *)
Section incidence.
Context {O K : Type} (owner : O -> ptr) (cmp : K -> K -> Z) `{!Comparator cmp}.
Implicit Types (key : ptr -> K) (L : list_map) (om : gmap ptr O).

Record incidence key L om : Prop := {
  in_list p l o : L !! p = Some l -> o ∈ l <-> exists x, om !! o = Some x /\ owner x = p;
  in_strict p l : L !! p = Some l -> tree_strict key cmp l;
}.

#[local] Arguments in_list {key L om}.
#[local] Arguments in_strict {key L om}.

(** The keys of the objects that are there. *)
Definition same_keys key key' om : Prop := forall o, is_Some (om !! o) -> key' o = key o.

Lemma incidence_keys key key' L om : incidence key L om -> same_keys key key' om -> incidence key' L om.
Proof.
  intros H Hk. split; [apply H|]. intros p l Hl. eapply tree_strict_key_ext; [|by apply (in_strict H p l)].
  intros o (x & Hx & _)%(in_list H _ _ _ Hl). apply Hk. by exists x.
Qed.

Lemma incidence_insert key key' L om o x l : incidence key L om -> same_keys key key' om -> om !! o = None -> L !! owner x = Some l ->
  (forall y, y ∈ l -> cmp (key' o) (key y) <> 0) ->
  incidence key' (<[owner x := inserted key' cmp o l]> L) (<[o := x]> om).
Proof.
  intros H Hk Ho Hl Hnew. assert (forall p l y, L !! p = Some l -> y ∈ l -> is_Some (om !! y)) as Hin.
  { intros p l0 y Hp (z & Hz & _)%(in_list H _ _ _ Hp). by exists z. }
  destruct (inserted_spec key' cmp o l) as [Hs Hz].
  { eapply tree_strict_key_ext; [|by apply (in_strict H _ _ Hl)]. intros y Hy. by eapply Hk, Hin. }
  { intros y Hy. rewrite (Hk y) by (by eapply Hin). by apply Hnew. }
  split.
  - intros p l0 y. destruct (decide (p = owner x)) as [->|Hp].
    + rewrite lookup_insert_eq. intros [= <-]. rewrite Hz, (in_list H _ _ _ Hl). destruct (decide (y = o)) as [->|Hy].
      * rewrite lookup_insert_eq. split; [by eexists|by left].
      * rewrite lookup_insert_ne by done. split; [by intros [?|?]|by right].
    + rewrite lookup_insert_ne by done. intros Hl0. rewrite (in_list H _ _ _ Hl0). destruct (decide (y = o)) as [->|Hy].
      * rewrite lookup_insert_eq, Ho. split; [by intros (? & ? & _)|]. by intros (z & [= <-] & ?).
      * by rewrite lookup_insert_ne.
  - intros p l0. destruct (decide (p = owner x)) as [->|Hp]; [rewrite lookup_insert_eq; by intros [= <-]|].
    rewrite lookup_insert_ne by done. intros Hl0. eapply tree_strict_key_ext; [|by apply (in_strict H _ _ Hl0)].
    intros y Hy. by eapply Hk, Hin.
Qed.

Lemma incidence_remove key key' L om o x l : incidence key L om -> same_keys key key' (delete o om) -> om !! o = Some x ->
  L !! owner x = Some l -> incidence key' (<[owner x := filter (fun y => y <> o) l]> L) (delete o om).
Proof.
  intros H Hk Ho Hl. split.
  - intros p l0 y. destruct (decide (p = owner x)) as [->|Hp].
    + rewrite lookup_insert_eq. intros [= <-]. rewrite elem_of_filter_ne, (in_list H _ _ _ Hl).
      destruct (decide (y = o)) as [->|Hy]; [rewrite lookup_delete_eq; naive_solver|rewrite lookup_delete_ne by done; naive_solver].
    + rewrite lookup_insert_ne by done. intros Hl0. rewrite (in_list H _ _ _ Hl0).
      destruct (decide (y = o)) as [->|Hy]; [|by rewrite lookup_delete_ne].
      rewrite lookup_delete_eq, Ho. split; [intros (z & [= <-] & ?); congruence|by intros (? & ? & _)].
  - assert (forall p l0 y, L !! p = Some l0 -> y ∈ l0 -> y <> o -> key' y = key y) as Hkey.
    { intros p l0 y Hp (z & Hz & _)%(in_list H _ _ _ Hp) Hy. apply Hk. rewrite lookup_delete_ne by done. by exists z. }
    intros p l0. destruct (decide (p = owner x)) as [->|Hp].
    + rewrite lookup_insert_eq. intros [= <-]. eapply tree_strict_key_ext; [|by apply tree_strict_filter, (in_strict H _ _ Hl)].
      intros y [Hy Hin]%elem_of_filter_ne. by eapply Hkey.
    + rewrite lookup_insert_ne by done. intros Hl0. eapply tree_strict_key_ext; [|by apply (in_strict H _ _ Hl0)].
      intros y Hin. eapply Hkey; [done..|]. intros ->. apply (in_list H _ _ _ Hl0) in Hin as (z & Hz & ?). congruence.
Qed.

Lemma incidence_new key L om p : incidence key L om -> (forall o x, om !! o = Some x -> owner x <> p) -> incidence key (<[p := []]> L) om.
Proof.
  intros H Hp. split.
  - intros q l o. destruct (decide (q = p)) as [->|Hq].
    + rewrite lookup_insert_eq. intros [= <-]. rewrite elem_of_nil. split; [done|]. intros (x & Hx & Ex). by destruct (Hp o x Hx).
    + rewrite lookup_insert_ne by done. apply H.
  - intros q l. destruct (decide (q = p)) as [->|Hq]; [rewrite lookup_insert_eq; intros [= <-]; constructor|].
    rewrite lookup_insert_ne by done. apply H.
Qed.

Lemma incidence_delete key L om p : incidence key L om -> incidence key (delete p L) om.
Proof.
  intros H. split; intros q l; [intros o|]; intros [_ Hl]%lookup_delete_Some; [by apply H|].
  by apply (in_strict H q).
Qed.

(** Nobody has an owner with an empty tree. *)
Lemma incidence_empty key L om p o x : incidence key L om -> L !! p = Some [] -> om !! o = Some x -> owner x <> p.
Proof.
  intros H Hp Ho E. assert (o ∈ []) as Hin by (apply (in_list H _ _ _ Hp); eauto). by apply elem_of_nil in Hin.
Qed.
End incidence.

#[global] Arguments in_list {O K owner cmp key L om}.
#[global] Arguments in_strict {O K owner cmp key L om}.

(** ** Attachments and endpoints *)

Notation attachment_map := (gmap ptr olsrv2_tc_attachment).
Notation rt_cmp := os_routing_avl_cmp_route_key.

(** [unused] is an endpoint that has no attachment yet, or none left. *)
Record nets_ok (unused : option ptr) (P : prefix_map) (A : list_map) (am : attachment_map) (EP : prefix_map) (EA : list_map)
    (tree : list ptr) : Prop := {
  nt_src : incidence a_src rt_cmp (src_key EP am) A am;
  nt_dst : incidence a_dst rt_cmp (endpoint_node_key P am) EA am;
  nt_dom p : is_Some (A !! p) <-> is_Some (P !! p);
  nt_ep_dom q : is_Some (EA !! q) <-> is_Some (EP !! q);
  nt_used q l : unused <> Some q -> EA !! q = Some l -> l <> [];
  nt_ends a x : am !! a = Some x -> is_Some (P !! a_src x) /\ is_Some (EP !! a_dst x);
  nt_tree q : q ∈ tree <-> is_Some (EP !! q);
  nt_tree_strict : tree_strict (prefix_at EP) rt_cmp tree;
  nt_cost a x : am !! a = Some x -> cost_ok (a_cost x) /\ length (a_distance x) = NHDP_MAXIMUM_DOMAINS;
}.

#[global] Arguments nt_src {unused P A am EP EA tree}.
#[global] Arguments nt_dst {unused P A am EP EA tree}.
#[global] Arguments nt_dom {unused P A am EP EA tree}.
#[global] Arguments nt_ep_dom {unused P A am EP EA tree}.
#[global] Arguments nt_used {unused P A am EP EA tree}.
#[global] Arguments nt_ends {unused P A am EP EA tree}.
#[global] Arguments nt_tree {unused P A am EP EA tree}.
#[global] Arguments nt_tree_strict {unused P A am EP EA tree}.
#[global] Arguments nt_cost {unused P A am EP EA tree}.

Lemma src_key_at EP am a x : am !! a = Some x -> src_key EP am a = prefix_at EP (a_dst x).
Proof. unfold src_key. by intros ->. Qed.
Lemma endpoint_node_key_at P am a x : am !! a = Some x -> endpoint_node_key P am a = prefix_at P (a_src x).
Proof. unfold endpoint_node_key. by intros ->. Qed.

Lemma endpoint_find u P A am EP EA tree k o : nets_ok u P A am EP EA tree ->
  tree_find (prefix_at EP) rt_cmp k tree = o <->
  match o with Some q => EP !! q = Some k | None => forall q, EP !! q <> Some k end.
Proof.
  intros H. rewrite (tree_find_spec (prefix_at EP) rt_cmp k tree o) by apply H. destruct o as [q|].
  - rewrite (nt_tree H), rtkey_cmp_eq. unfold prefix_at. split.
    + intros [[k' Hk'] ->]. by rewrite Hk'.
    + intros ->. by split.
  - split; intros Hall q Hq.
    + apply (Hall q); [apply H; by eexists|]. apply rtkey_cmp_eq. unfold prefix_at. by rewrite Hq.
    + intros ->%rtkey_cmp_eq. apply H in Hq as [k' Hk']. apply (Hall q). unfold prefix_at. by rewrite Hk'.
Qed.

(** Prefixes of endpoints are unique. *)
Lemma endpoint_inj u P A am EP EA tree q1 q2 k : nets_ok u P A am EP EA tree -> EP !! q1 = Some k -> EP !! q2 = Some k -> q1 = q2.
Proof.
  intros H H1 H2. apply (tree_strict_inj (prefix_at EP) rt_cmp tree); [apply H|apply H; by eexists..|].
  apply rtkey_cmp_eq. unfold prefix_at. by rewrite H1, H2.
Qed.

(** A new endpoint for a prefix that has none. *)
Lemma nets_new_endpoint P A am EP EA tree q k : nets_ok None P A am EP EA tree -> EP !! q = None -> (forall q', EP !! q' <> Some k) ->
  let EP' := <[q := k]> EP in
  nets_ok (Some q) P A am EP' (<[q := []]> EA) (tree_insert_dup (prefix_at EP') rt_cmp q tree).
Proof.
  intros H Hq Hk EP'. assert (forall a x, am !! a = Some x -> a_dst x <> q) as Hdst.
  { intros a x (_ & [k' Hk'])%(nt_ends H) E. congruence. }
  assert (forall q', q' ∈ tree -> q' <> q) as Hne by (intros q' [? ?]%H ->; congruence).
  assert (forall q', q' ∈ tree -> prefix_at EP' q' = prefix_at EP q') as Hkey.
  { intros q' Hq'. unfold EP'. rewrite prefix_at_insert_ne; [done|by apply Hne]. }
  assert (tree_strict (prefix_at EP') rt_cmp tree) as Hs by (eapply tree_strict_key_ext; [exact Hkey|apply H]).
  assert (tree_find (prefix_at EP') rt_cmp (prefix_at EP' q) tree = None) as Hf.
  { apply (tree_find_spec (prefix_at EP') rt_cmp _ tree None); [done|]. intros q' Hq' E%rtkey_cmp_eq. rewrite (Hkey q') in E by done.
    apply H in Hq' as [k' Hk']. apply (Hk q'). unfold EP' in E. rewrite prefix_at_insert in E. unfold prefix_at in E. rewrite Hk' in E. simpl in E. congruence. }
  apply tree_insert_dup_new in Hf as Hins.
  split; try apply H.
  - apply (incidence_keys _ _ (src_key EP am)); [apply H|]. intros a [x Hx]. rewrite !(src_key_at _ _ _ _ Hx). unfold EP'.
    rewrite prefix_at_insert_ne; [done|by apply (Hdst a)].
  - apply incidence_new; [apply H|done].
  - intros q'. unfold EP'. by rewrite !lookup_insert_is_Some', (nt_ep_dom H).
  - intros q' l Hne'. rewrite lookup_insert_ne by congruence. by apply H.
  - intros a x Hx. pose proof (Hdst a x Hx). unfold EP'. rewrite lookup_insert_ne by done. by apply (nt_ends H a).
  - intros q'. rewrite (tree_insert_elem _ _ _ _ _ _ Hins), (nt_tree H). unfold EP'. rewrite lookup_insert_is_Some'. naive_solver.
  - eapply tree_insert_strict; [apply _|exact Hs|exact Hins].
Qed.

(** Attaching. *)
Lemma nets_link u P A am EP EA tree T a x la le : nets_ok u P A am EP EA tree -> nodes_ok P T -> am !! a = None ->
  A !! a_src x = Some la -> EA !! a_dst x = Some le -> u = None \/ u = Some (a_dst x) ->
  cost_ok (a_cost x) -> length (a_distance x) = NHDP_MAXIMUM_DOMAINS ->
  (forall y, y ∈ la -> src_key EP am y <> prefix_at EP (a_dst x)) ->
  let am' := <[a := x]> am in
  nets_ok None P (<[a_src x := inserted (src_key EP am') rt_cmp a la]> A) am' EP
    (<[a_dst x := inserted (endpoint_node_key P am') rt_cmp a le]> EA) tree.
Proof.
  intros H HN Ha Hla Hle Hu Hc1 Hc2 Hnew am'.
  assert (forall y, is_Some (am !! y) -> y <> a) as Hne by (intros y [? ?] ->; congruence).
  assert (is_Some (P !! a_src x)) as HP by (apply H; by eexists). assert (is_Some (EP !! a_dst x)) as HEP by (apply H; by eexists).
  assert (am' !! a = Some x) as Ea by (unfold am'; by rewrite lookup_insert_eq).
  assert (same_keys (src_key EP am) (src_key EP am') am) as Hk1.
  { intros y Hy. unfold src_key, am'. rewrite lookup_insert_ne; [done|]. intros <-. by apply (Hne a). }
  assert (same_keys (endpoint_node_key P am) (endpoint_node_key P am') am) as Hk2.
  { intros y Hy. unfold endpoint_node_key, am'. rewrite lookup_insert_ne; [done|]. intros <-. by apply (Hne a). }
  split; try apply H.
  - eapply incidence_insert; [apply _|apply H|done|done|done|]. intros y Hy. rewrite (src_key_at _ _ _ _ Ea). intros E%rtkey_cmp_eq. by apply (Hnew y).
  - eapply incidence_insert; [apply _|apply H|done|done|done|]. intros y Hy. rewrite (endpoint_node_key_at _ _ _ _ Ea). intros E%rtkey_cmp_eq.
    apply (in_list (nt_dst H) _ _ _ Hle) in Hy as (z & Hz & Ed).
    rewrite (endpoint_node_key_at _ _ _ _ Hz) in E. destruct (nt_ends H y z Hz) as [Hz1 _].
    assert (a_src z = a_src x) as Es by (apply (node_key_inj P T); [done..|]; unfold node_key; congruence).
    apply (Hnew y); [|by rewrite (src_key_at _ _ _ _ Hz), Ed].
    apply (in_list (nt_src H) _ _ _ Hla). eauto.
  - intros p. rewrite lookup_insert_is_Some', (nt_dom H). naive_solver.
  - intros q. rewrite lookup_insert_is_Some', (nt_ep_dom H). naive_solver.
  - intros q l _. destruct (decide (q = a_dst x)) as [->|Hq].
    + rewrite lookup_insert_eq. intros [= <-] E. assert (a ∈ inserted (endpoint_node_key P am') rt_cmp a le) as Hin; [|rewrite E in Hin; by apply elem_of_nil in Hin].
      unfold inserted in *. destruct (tree_insert _ _ a le) eqn:Ei; simpl in *; [|by rewrite E in Ei]. apply (tree_insert_elem _ _ _ _ _ a Ei). by left.
    + rewrite lookup_insert_ne by done. apply H. destruct Hu; congruence.
  - intros y z. unfold am'. destruct (decide (y = a)) as [->|Hy]; [rewrite lookup_insert_eq; by intros [= <-]|].
    rewrite lookup_insert_ne by done. apply H.
  - intros y z. unfold am'. destruct (decide (y = a)) as [->|Hy]; [rewrite lookup_insert_eq; by intros [= <-]|].
    rewrite lookup_insert_ne by done. apply H.
Qed.

(** Detaching: the endpoint may be unused afterwards. *)
Lemma nets_unlink P A am EP EA tree a x la le : nets_ok None P A am EP EA tree -> am !! a = Some x ->
  A !! a_src x = Some la -> EA !! a_dst x = Some le ->
  nets_ok (Some (a_dst x)) P (<[a_src x := filter (fun y => y <> a) la]> A) (delete a am) EP
    (<[a_dst x := filter (fun y => y <> a) le]> EA) tree.
Proof.
  intros H Ha Hla Hle.
  assert (forall y z, delete a am !! y = Some z <-> y <> a /\ am !! y = Some z) as Hdel by (intros; rewrite lookup_delete_Some; naive_solver).
  split; try apply H.
  - eapply incidence_remove; [apply H| |done|done]. intros y [z Hz]. apply Hdel in Hz as [? Hz]. unfold src_key. by rewrite lookup_delete_ne.
  - eapply incidence_remove; [apply H| |done|done]. intros y [z Hz]. apply Hdel in Hz as [? Hz]. unfold endpoint_node_key. by rewrite lookup_delete_ne.
  - intros p. rewrite lookup_insert_is_Some', (nt_dom H). destruct (nt_ends H a x Ha) as [? ?]. naive_solver.
  - intros q. rewrite lookup_insert_is_Some', (nt_ep_dom H). destruct (nt_ends H a x Ha) as [? ?]. naive_solver.
  - intros q l Hq. rewrite lookup_insert_ne by congruence. by apply H.
  - intros y z [_ Hz]%Hdel. by apply (nt_ends H y).
  - intros y z [_ Hz]%Hdel. by apply (nt_cost H y).
Qed.

(** The endpoint is used after all. *)
Lemma nets_still_used u P A am EP EA tree q l : nets_ok u P A am EP EA tree -> u = None \/ u = Some q -> EA !! q = Some l -> l <> [] ->
  nets_ok None P A am EP EA tree.
Proof.
  intros H Hu Hq Hl. split; try apply H. intros q' l' _ Hq'. destruct (decide (q' = q)) as [->|Hne]; [congruence|].
  eapply H; [|done]. destruct Hu; congruence.
Qed.

(** An unused endpoint is removed. *)
Lemma nets_delete_endpoint P A am EP EA tree q : nets_ok (Some q) P A am EP EA tree -> EA !! q = Some [] ->
  nets_ok None P A am (delete q EP) (delete q EA) (filter (fun y => y <> q) tree).
Proof.
  intros H Hq. assert (forall a x, am !! a = Some x -> a_dst x <> q) as Hdst.
  { intros a x Hx. eapply incidence_empty; [apply H|done|exact Hx]. }
  split; try apply H.
  - apply (incidence_keys _ _ (src_key EP am)); [apply H|]. intros a [x Hx]. rewrite !(src_key_at _ _ _ _ Hx).
    rewrite prefix_at_delete_ne; [done|by apply (Hdst a)].
  - apply incidence_delete, H.
  - intros q'. destruct (decide (q' = q)) as [->|Hne]; [rewrite !lookup_delete_eq; split; by intros []|].
    rewrite !lookup_delete_ne by done. apply H.
  - intros q' l _ [Hne Hl]%lookup_delete_Some. eapply H; [|done]. congruence.
  - intros a x Hx. pose proof (Hdst a x Hx). rewrite lookup_delete_ne by done. by apply (nt_ends H a).
  - intros q'. rewrite elem_of_filter_ne, (nt_tree H). destruct (decide (q' = q)) as [->|Hne].
    + rewrite lookup_delete_eq. split; [naive_solver|by intros []].
    + rewrite lookup_delete_ne by done. naive_solver.
  - eapply tree_strict_key_ext; [|apply tree_strict_filter, H]. intros q' [? _]%elem_of_filter_ne. by rewrite prefix_at_delete_ne.
Qed.

(** Nodes without attached networks come and go. *)
Lemma nets_new_node u P A am EP EA tree p k : nets_ok u P A am EP EA tree -> P !! p = None ->
  nets_ok u (<[p := k]> P) (<[p := []]> A) am EP EA tree.
Proof.
  intros H Hp. assert (forall a x, am !! a = Some x -> a_src x <> p) as Hsrc.
  { intros a x ([? ?] & _)%(nt_ends H) E. congruence. }
  split; try apply H.
  - apply incidence_new; [apply H|done].
  - apply (incidence_keys _ _ (endpoint_node_key P am)); [apply H|]. intros a [x Hx]. rewrite !(endpoint_node_key_at _ _ _ _ Hx).
    rewrite prefix_at_insert_ne; [done|by apply (Hsrc a)].
  - intros q. by rewrite !lookup_insert_is_Some', (nt_dom H).
  - intros a x Hx. pose proof (Hsrc a x Hx). rewrite lookup_insert_ne by done. by apply (nt_ends H a).
Qed.

Lemma nets_delete_node u P A am EP EA tree p : nets_ok u P A am EP EA tree -> A !! p = Some [] ->
  nets_ok u (delete p P) (delete p A) am EP EA tree.
Proof.
  intros H Hp. assert (forall a x, am !! a = Some x -> a_src x <> p) as Hsrc.
  { intros a x Hx. eapply incidence_empty; [apply H|done|exact Hx]. }
  split; try apply H.
  - apply incidence_delete, H.
  - apply (incidence_keys _ _ (endpoint_node_key P am)); [apply H|]. intros a [x Hx]. rewrite !(endpoint_node_key_at _ _ _ _ Hx).
    rewrite prefix_at_delete_ne; [done|by apply (Hsrc a)].
  - intros q. destruct (decide (q = p)) as [->|Hne]; [rewrite !lookup_delete_eq; split; by intros []|].
    rewrite !lookup_delete_ne by done. apply H.
  - intros a x Hx. pose proof (Hsrc a x Hx). rewrite lookup_delete_ne by done. by apply (nt_ends H a).
Qed.

(** Metrics and distances of an attachment change. *)
Lemma nets_update u P A am EP EA tree a x x' : nets_ok u P A am EP EA tree -> am !! a = Some x -> a_src x' = a_src x -> a_dst x' = a_dst x ->
  cost_ok (a_cost x') -> length (a_distance x') = NHDP_MAXIMUM_DOMAINS -> nets_ok u P A (<[a := x']> am) EP EA tree.
Proof.
  intros H Ha Es Ed Hc1 Hc2.
  assert (forall y z, <[a := x']> am !! y = Some z -> exists z0, am !! y = Some z0 /\ a_src z = a_src z0 /\ a_dst z = a_dst z0 /\
    cost_ok (a_cost z) /\ length (a_distance z) = NHDP_MAXIMUM_DOMAINS) as Hback.
  { intros y z. destruct (decide (y = a)) as [->|Hy]; [rewrite lookup_insert_eq; intros [= <-]; by exists x|].
    rewrite lookup_insert_ne by done. intros Hz. exists z. by destruct (nt_cost H y z Hz). }
  assert (forall y z0, am !! y = Some z0 -> exists z, <[a := x']> am !! y = Some z /\ a_src z = a_src z0 /\ a_dst z = a_dst z0) as Hfwd.
  { intros y z0 Hz. destruct (decide (y = a)) as [->|Hy]; [rewrite lookup_insert_eq; exists x'; split; [done|]; split; congruence|].
    rewrite lookup_insert_ne by done. by exists z0. }
  split; try apply H.
  - split.
    + intros p l o Hl. rewrite (in_list (nt_src H) p l o Hl). split.
      * intros (z0 & (z & Hz & E & _)%Hfwd & <-). eauto.
      * intros (z & (z0 & Hz & E & _)%Hback & <-). eauto.
    + intros p l Hl. eapply tree_strict_key_ext; [|by apply (in_strict (nt_src H) p l)].
      intros o _. unfold src_key. destruct (decide (o = a)) as [->|]; [by rewrite lookup_insert_eq, Ha, Ed|by rewrite lookup_insert_ne].
  - split.
    + intros p l o Hl. rewrite (in_list (nt_dst H) p l o Hl). split.
      * intros (z0 & (z & Hz & _ & E)%Hfwd & <-). eauto.
      * intros (z & (z0 & Hz & _ & E & _)%Hback & <-). eauto.
    + intros p l Hl. eapply tree_strict_key_ext; [|by apply (in_strict (nt_dst H) p l)].
      intros o _. unfold endpoint_node_key. destruct (decide (o = a)) as [->|]; [by rewrite lookup_insert_eq, Ha, Es|by rewrite lookup_insert_ne].
  - intros y z (z0 & Hz & -> & -> & _)%Hback. by apply (nt_ends H y).
  - intros y z (z0 & _ & _ & _ & ? & ?)%Hback. done.
Qed.
