(* ===== verification/TcFacts.v ===== *)
(** What the topology database of src/olsrv2/olsrv2/olsrv2_tc.c shows: the nodes
    whose information is valid, the direct neighbors, the links that nodes
    announced and the networks that are attached to them; and what each change
    of memory does to these facts. *)

From Stdlib Require Import ZArith Lia Sorted.
From stdpp Require Import base list numbers option gmap sets.
From S2P Require Import Prelude AvlSpec StateMonad Netaddr MprSelection NhdpDb RoutingSet Timer ValidityTimer TcDatabase TcInvariant TcNets.

Local Open Scope Z_scope.

(** The abstract database: originators, pairs of originators, and prefixes at
    originators. *)
Record facts := {
  valid : gset netaddr;
  direct : gset netaddr;
  links : gset (netaddr * netaddr);
  nets : gset (netaddr * os_route_key);
}.

Definition no_facts : facts := {| valid := ∅; direct := ∅; links := ∅; nets := ∅ |}.

Definition with_valid (f : gset netaddr -> gset netaddr) (F : facts) : facts :=
  {| valid := f (valid F); direct := direct F; links := links F; nets := nets F |}.
Definition with_direct_set (f : gset netaddr -> gset netaddr) (F : facts) : facts :=
  {| valid := valid F; direct := f (direct F); links := links F; nets := nets F |}.
Definition with_links (f : gset (netaddr * netaddr) -> gset (netaddr * netaddr)) (F : facts) : facts :=
  {| valid := valid F; direct := direct F; links := f (links F); nets := nets F |}.
Definition with_nets (f : gset (netaddr * os_route_key) -> gset (netaddr * os_route_key)) (F : facts) : facts :=
  {| valid := valid F; direct := direct F; links := links F; nets := f (nets F) |}.

(** Everything a fact mentions is known. *)
Definition known (F : facts) (a : netaddr) : Prop :=
  a ∈ valid F \/ a ∈ direct F \/ exists b, (a, b) ∈ links F \/ (b, a) ∈ links F.

Section facts.
Context (_validity_info : positive) (max_interval : Z).

Definition is_active (ts : timer_state) (p : ptr) : bool :=
  match instances ts !! p with Some i => oonf_timer_is_active i | None => false end.

Record timers_ok (P : prefix_map) (ts : timer_state) : Prop := {
  to_wf : timer_wf max_interval ts;
  to_class : exists k, classes ts !! _validity_info = Some k /\ periodic k = false;
  to_timer p : is_Some (P !! p) -> exists i, instances ts !! p = Some i /\ class i = _validity_info /\ jitter_pct i = 0;
}.

(** Every node but those of [X] is valid, has edges or is a neighbor. *)
Definition reasons (X : gset ptr) (E : list_map) (D : gmap ptr bool) (act : ptr -> bool) : Prop :=
  forall p l, E !! p = Some l -> p ∉ X -> act p = true \/ l <> [] \/ D !! p = Some true.

(** Only valid nodes and those of [Y] announce something. *)
Record sources (Y : gset ptr) (act : ptr -> bool) (em : edge_map) (am : attachment_map) : Prop := {
  so_edges e ed : em !! e = Some ed -> virtual ed = false -> e_src ed ∉ Y -> act (e_src ed) = true;
  so_nets a x : am !! a = Some x -> a_src x ∉ Y -> act (a_src x) = true;
}.

Record shows (F : facts) (P : prefix_map) (D : gmap ptr bool) (em : edge_map) (am : attachment_map) (EP : prefix_map)
    (act : ptr -> bool) : Prop := {
  sh_valid a : a ∈ valid F <-> exists p, is_Some (P !! p) /\ node_key P p = a /\ act p = true;
  sh_direct a : a ∈ direct F <-> exists p, is_Some (P !! p) /\ node_key P p = a /\ D !! p = Some true;
  sh_links a b : (a, b) ∈ links F <-> exists e ed, em !! e = Some ed /\ virtual ed = false /\ node_key P (e_src ed) = a /\ node_key P (e_dst ed) = b;
  sh_nets a k : (a, k) ∈ nets F <-> exists n x, am !! n = Some x /\ node_key P (a_src x) = a /\ prefix_at EP (a_dst x) = k;
}.

Notation edges_of nm := (_edges <$> nm).
Notation attached_of nm := (_attached_networks <$> nm).
Notation direct_of nm := (direct_neighbor <$> nm).
Notation ep_attached_of epm := (ep_attached_networks <$> epm).

Record rep_of (X Y : gset ptr) (u : option ptr) (F : facts) (nm : gmap ptr olsrv2_tc_node) (em : edge_map) (am : attachment_map)
    (epm : gmap ptr olsrv2_tc_endpoint) (tree etree : list ptr) (ts : timer_state) : Prop := {
  r_nodes : nodes_ok (prefixes nm) tree;
  r_edges : edges_ok (prefixes nm) (edges_of nm) em;
  r_nets : nets_ok u (prefixes nm) (attached_of nm) am (ep_prefixes epm) (ep_attached_of epm) etree;
  r_timers : timers_ok (prefixes nm) ts;
  r_reasons : reasons X (edges_of nm) (direct_of nm) (is_active ts);
  r_sources : sources Y (is_active ts) em am;
  r_shows : shows F (prefixes nm) (direct_of nm) em am (ep_prefixes epm) (is_active ts);
}.

#[local] Arguments to_wf {P ts}.
#[local] Arguments to_class {P ts}.
#[local] Arguments to_timer {P ts}.
#[local] Arguments so_edges {Y act em am}.
#[local] Arguments so_nets {Y act em am}.
#[local] Arguments sh_valid {F P D em am EP act}.
#[local] Arguments sh_direct {F P D em am EP act}.
#[local] Arguments sh_links {F P D em am EP act}.
#[local] Arguments sh_nets {F P D em am EP act}.
#[local] Arguments r_nodes {X Y u F nm em am epm tree etree ts}.
#[local] Arguments r_edges {X Y u F nm em am epm tree etree ts}.
#[local] Arguments r_nets {X Y u F nm em am epm tree etree ts}.
#[local] Arguments r_timers {X Y u F nm em am epm tree etree ts}.
#[local] Arguments r_reasons {X Y u F nm em am epm tree etree ts}.
#[local] Arguments r_sources {X Y u F nm em am epm tree etree ts}.
#[local] Arguments r_shows {X Y u F nm em am epm tree etree ts}.

(** The database [s] is consistent and shows [F]. *)
Definition rep (X Y : gset ptr) (F : facts) (s : tc_db) : Prop :=
  rep_of X Y None F (node_mem s) (edge_mem s) (attachment_mem s) (endpoint_mem s) (_tc_tree s) (_tc_endpoint_tree s) (timers s).

Lemma prefixes_at nm p n : nm !! p = Some n -> prefixes nm !! p = Some (prefix (n_target n)).
Proof. intros H. unfold prefixes. by rewrite lookup_fmap, H. Qed.

Lemma view_at {A} (f : olsrv2_tc_node -> A) (nm : gmap ptr olsrv2_tc_node) p n : nm !! p = Some n -> (f <$> nm) !! p = Some (f n).
Proof. intros H. by rewrite lookup_fmap, H. Qed.

(** A view that a store does not change. *)
Lemma view_same {A} (f : olsrv2_tc_node -> A) (nm : gmap ptr olsrv2_tc_node) p n n' : nm !! p = Some n -> f n' = f n -> f <$> <[p := n']> nm = f <$> nm.
Proof. intros H E. rewrite fmap_insert, insert_id; [done|]. by rewrite lookup_fmap, H, E. Qed.

Lemma ep_view_same {A} (f : olsrv2_tc_endpoint -> A) (epm : gmap ptr olsrv2_tc_endpoint) p e e' : epm !! p = Some e -> f e' = f e -> f <$> <[p := e']> epm = f <$> epm.
Proof. intros H E. rewrite fmap_insert, insert_id; [done|]. by rewrite lookup_fmap, H, E. Qed.

(** *** Known nodes *)

(** The nodes of the database are those that the facts mention. *)
Lemma rep_known F s a : rep ∅ ∅ F s -> (exists p, p ∈ _tc_tree s /\ node_key (prefixes (node_mem s)) p = a) <-> known F a.
Proof.
  intros H. set (P := prefixes (node_mem s)). split.
  - intros (p & Hp & <-). apply (r_nodes H) in Hp. fold P in Hp.
    apply (r_edges H) in Hp as HE. destruct HE as [l Hl].
    destruct (r_reasons H p l Hl) as [Ha|[Hn|Hd]]; [set_solver|..].
    + left. apply (sh_valid (r_shows H)). eauto.
    + right; right. destruct l as [|e l]; [done|]. assert (e ∈ e :: l) as He by left.
      apply (eo_list (r_edges H) p _ e Hl) in He as (ed & He & Es).
      destruct (eo_pair (r_edges H) e ed He) as [inv Hi].
      exists (node_key P (e_dst ed)). destruct (pair_real Hi) as [Hr|Hr]; [left|right];
        apply (sh_links (r_shows H)).
      * exists e, ed. by rewrite Es.
      * exists (inverse ed), inv. rewrite (pair_src Hi), (pair_dst Hi), Es. repeat split; [apply Hi|done].
    + right; left. apply (sh_direct (r_shows H)). eauto.
  - assert (forall p, is_Some (P !! p) -> node_key P p = a -> exists p, p ∈ _tc_tree s /\ node_key P p = a) as Hin.
    { intros p Hp E. exists p. split; [|done]. by apply (r_nodes H). }
    intros [Ha|[Ha|(b & [Ha|Ha])]].
    + apply (sh_valid (r_shows H)) in Ha as (p & ? & ? & _). eauto.
    + apply (sh_direct (r_shows H)) in Ha as (p & ? & ? & _). eauto.
    + apply (sh_links (r_shows H)) in Ha as (e & ed & He & _ & E & _).
      destruct (eo_ends (r_edges H) e ed He) as (? & _). eauto.
    + apply (sh_links (r_shows H)) in Ha as (e & ed & He & _ & _ & E).
      destruct (eo_ends (r_edges H) e ed He) as (_ & ? & _). eauto.
Qed.

(** *** Changes *)

Lemma rep_reason X Y u F nm em am epm tree etree ts p n : rep_of X Y u F nm em am epm tree etree ts -> nm !! p = Some n ->
  is_active ts p = true \/ _edges n <> [] \/ direct_neighbor n = true -> rep_of (X ∖ {[p]}) Y u F nm em am epm tree etree ts.
Proof.
  intros H Hn Hr. split; try apply H. intros q l Hl Hq. destruct (decide (q = p)) as [->|Hne].
  - rewrite (view_at _ _ _ _ Hn) in Hl. injection Hl as <-. rewrite (view_at _ _ _ _ Hn). destruct Hr as [?|[?| ->]]; auto.
  - apply (r_reasons H q l Hl). set_solver.
Qed.

Lemma rep_excuse X X' Y Y' u F nm em am epm tree etree ts : rep_of X Y u F nm em am epm tree etree ts -> X ⊆ X' -> Y ⊆ Y' ->
  rep_of X' Y' u F nm em am epm tree etree ts.
Proof.
  intros H HX HY. split; try apply H.
  - intros p l Hl Hp. apply (r_reasons H p l Hl). set_solver.
  - split.
    + intros e ed He Hv Hs. apply (so_edges (r_sources H) e ed He Hv). set_solver.
    + intros a x Hx Hs. apply (so_nets (r_sources H) a x Hx). set_solver.
Qed.

(** The fields of a node that are not links. *)
Lemma rep_node X Y u F nm em am epm tree etree ts p n n' : rep_of X Y u F nm em am epm tree etree ts -> nm !! p = Some n ->
  prefix (n_target n') = prefix (n_target n) -> _edges n' = _edges n -> _attached_networks n' = _attached_networks n ->
  (direct_neighbor n = true -> direct_neighbor n' = false -> p ∈ X) ->
  let a := rk_dst (prefix (n_target n)) in
  rep_of X Y u (with_direct_set (fun d => if direct_neighbor n' then {[a]} ∪ d else d ∖ {[a]}) F) (<[p := n']> nm) em am epm tree etree ts.
Proof.
  intros H Hn E1 E2 E3 Hd a. assert (prefixes (<[p := n']> nm) = prefixes nm) as EP by (by apply (view_same _ _ _ n)).
  split; rewrite ?EP; rewrite ?(view_same _edges _ _ n _ Hn E2), ?(view_same _attached_networks _ _ n _ Hn E3); try apply H.
  - intros q l Hl Hq. destruct (r_reasons H q l Hl Hq) as [?|[?|Hdq]]; [auto..|].
    destruct (decide (q = p)) as [->|Hne]; [|right; right; by rewrite lookup_fmap, lookup_insert_ne, <- lookup_fmap].
    rewrite (view_at _ _ _ _ Hn) in Hdq. injection Hdq as Hdq. right; right. rewrite lookup_fmap, lookup_insert_eq. simpl.
    destruct (direct_neighbor n') eqn:E; [done|]. by destruct (Hq (Hd Hdq eq_refl)).
  - split; try apply H. simpl. intros b.
    assert (node_key (prefixes nm) p = a) as Ek by (by apply node_key_at, prefixes_at).
    assert (forall q, is_Some (prefixes nm !! q) -> node_key (prefixes nm) q = a -> q = p) as Hinj.
    { intros q Hq E. apply (node_key_inj _ _ _ _ (r_nodes H)); [done| |congruence].
      eexists. by apply prefixes_at. }
    assert (forall q, q <> p -> (direct_neighbor <$> <[p := n']> nm) !! q = (direct_neighbor <$> nm) !! q) as Ho.
    { intros q Hq. by rewrite !lookup_fmap, lookup_insert_ne. }
    assert ((direct_neighbor <$> <[p := n']> nm) !! p = Some (direct_neighbor n')) as Ep by (by rewrite lookup_fmap, lookup_insert_eq).
    pose proof (sh_direct (r_shows H) b) as Hb. destruct (decide (b = a)) as [->|Hba].
    + destruct (direct_neighbor n') eqn:E.
      * split; [|set_solver]. intros _. exists p. split; [eexists; by apply prefixes_at|]. by rewrite Ep.
      * split; [set_solver|]. intros (q & Hq & Eq & Dq). rewrite (Hinj q Hq Eq), Ep in Dq. congruence.
    + transitivity (b ∈ direct F); [destruct (direct_neighbor n'); set_solver|]. rewrite Hb. f_equiv. intros q. split.
      * intros (Hq & Eq & Dq). rewrite Ho; [done|]. intros ->. congruence.
      * intros (Hq & Eq & Dq). rewrite Ho in Dq; [done|]. intros ->. congruence.
Qed.

Lemma with_direct_set_id F : with_direct_set (fun d => d) F = F.
Proof. by destruct F. Qed.

(** The same, with the flag as it was. *)
Lemma rep_node_same X Y u F nm em am epm tree etree ts p n n' : rep_of X Y u F nm em am epm tree etree ts -> nm !! p = Some n ->
  prefix (n_target n') = prefix (n_target n) -> _edges n' = _edges n -> _attached_networks n' = _attached_networks n ->
  direct_neighbor n' = direct_neighbor n -> rep_of X Y u F (<[p := n']> nm) em am epm tree etree ts.
Proof.
  intros H Hn E1 E2 E3 E4. assert (prefixes (<[p := n']> nm) = prefixes nm) as EP by (by apply (view_same _ _ _ n)).
  split; rewrite ?EP; rewrite ?(view_same _edges _ _ n _ Hn E2), ?(view_same _attached_networks _ _ n _ Hn E3),
    ?(view_same direct_neighbor _ _ n _ Hn E4); apply H.
Qed.

(** Pairs of originators are pairs of nodes. *)
Lemma edge_by_keys P E em tree e1 e2 d1 d2 : nodes_ok P tree -> edges_ok P E em -> em !! e1 = Some d1 -> em !! e2 = Some d2 ->
  node_key P (e_src d1) = node_key P (e_src d2) -> node_key P (e_dst d1) = node_key P (e_dst d2) -> e1 = e2.
Proof.
  intros HN H H1 H2 Es Ed. destruct (eo_ends H e1 d1 H1) as (S1 & D1 & _). destruct (eo_ends H e2 d2 H2) as (S2 & D2 & _).
  eapply edge_unique; [exact HN|exact H|done|done|..]; by apply (node_key_inj P tree).
Qed.

(** What an edge announces. *)
Lemma rep_edge X Y u F nm em am epm tree etree ts e ed ed' : rep_of X Y u F nm em am epm tree etree ts -> em !! e = Some ed ->
  e_src ed' = e_src ed -> e_dst ed' = e_dst ed -> inverse ed' = inverse ed -> cost_ok (e_cost ed') ->
  (virtual ed' = false \/ exists inv, em !! inverse ed = Some inv /\ virtual inv = false) ->
  (virtual ed' = false -> is_active ts (e_src ed) = true \/ e_src ed ∈ Y) ->
  let ab := (node_key (prefixes nm) (e_src ed), node_key (prefixes nm) (e_dst ed)) in
  rep_of X Y u (with_links (fun L => if virtual ed' then L ∖ {[ab]} else {[ab]} ∪ L) F) nm (<[e := ed']> em) am epm tree etree ts.
Proof.
  intros H He Es Ed Ei Ec Hv Ha ab. split; try apply H.
  - eapply edges_update; [apply H|done..].
  - split; [|apply (r_sources H)]. intros x d. destruct (decide (x = e)) as [->|Hx].
    + rewrite lookup_insert_eq. intros [= <-] Hd Hy. rewrite Es in *. destruct (Ha Hd); done.
    + rewrite lookup_insert_ne by done. apply (r_sources H).
  - split; try apply (r_shows H). intros x y. cbn [links with_links].
    pose proof (sh_links (r_shows H) x y) as Hxy. destruct (decide ((x, y) = ab)) as [E|Hab].
    + injection E as -> ->. split.
      * intros Hin. exists e, ed'. rewrite lookup_insert_eq, Es, Ed. destruct (virtual ed'); [set_solver|done].
      * intros (e1 & d1 & He1 & Hv1 & Ex & Ey). assert (e1 = e) as ->.
        { destruct (decide (e1 = e)) as [|Hne]; [done|]. rewrite lookup_insert_ne in He1 by done.
          eapply (edge_by_keys _ _ em); [apply H|apply H|done|done|done|done]. }
        rewrite lookup_insert_eq in He1. injection He1 as <-. rewrite Hv1. set_solver.
    + transitivity ((x, y) ∈ links F); [destruct (virtual ed'); set_solver|]. rewrite Hxy.
      split; intros (e1 & d1 & He1 & Hv1 & Ex & Ey); (destruct (decide (e1 = e)) as [->|Hne];
        [|exists e1, d1; rewrite lookup_insert_ne in * by done; done]); exfalso; apply Hab; unfold ab.
      * assert (d1 = ed) as -> by congruence. congruence.
      * rewrite lookup_insert_eq in He1. injection He1 as <-. congruence.
Qed.

(** Metrics and ANSN of an edge are not part of the facts. *)
Lemma rep_edge_same X Y u F nm em am epm tree etree ts e ed ed' : rep_of X Y u F nm em am epm tree etree ts -> em !! e = Some ed ->
  e_src ed' = e_src ed -> e_dst ed' = e_dst ed -> inverse ed' = inverse ed -> virtual ed' = virtual ed -> cost_ok (e_cost ed') ->
  rep_of X Y u F nm (<[e := ed']> em) am epm tree etree ts.
Proof.
  intros H He Es Ed Ei Ev Ec. assert (forall x d, <[e := ed']> em !! x = Some d -> exists d0, em !! x = Some d0 /\ e_src d = e_src d0 /\ e_dst d = e_dst d0 /\
    virtual d = virtual d0) as Hback.
  { intros x d [[<- <-]|[_ Hd]]%lookup_insert_Some; [by exists ed|by exists d]. }
  split; try apply H.
  - eapply edges_update; [apply H|done..|]. destruct (eo_pair (r_edges H) e ed He) as [inv Hi]. rewrite Ev.
    destruct (pair_real Hi) as [?|?]; [by left|right]. exists inv. split; [apply Hi|done].
  - split; [|apply (r_sources H)]. intros x d (d0 & Hd0 & -> & _ & ->)%Hback. by apply (so_edges (r_sources H) x).
  - split; try apply (r_shows H). intros x y. rewrite (sh_links (r_shows H) x y). split.
    + intros (e1 & d1 & He1 & Hv & E1 & E2). destruct (decide (e1 = e)) as [->|Hne].
      * assert (d1 = ed) as -> by congruence. exists e, ed'. rewrite lookup_insert_eq, Es, Ed, Ev. done.
      * exists e1, d1. by rewrite lookup_insert_ne.
    + intros (e1 & d1 & (d0 & Hd0 & -> & -> & ->)%Hback & Hv & E1 & E2). by exists e1, d0.
Qed.

(** So are metrics, distances and ANSN of an attachment. *)
Lemma rep_net_same X Y u F nm em am epm tree etree ts a x x' : rep_of X Y u F nm em am epm tree etree ts -> am !! a = Some x ->
  a_src x' = a_src x -> a_dst x' = a_dst x -> cost_ok (a_cost x') -> length (a_distance x') = NHDP_MAXIMUM_DOMAINS ->
  rep_of X Y u F nm em (<[a := x']> am) epm tree etree ts.
Proof.
  intros H Ha Es Ed Hc1 Hc2. assert (forall y z, <[a := x']> am !! y = Some z -> exists z0, am !! y = Some z0 /\ a_src z = a_src z0 /\ a_dst z = a_dst z0) as Hback.
  { intros y z [[<- <-]|[_ Hz]]%lookup_insert_Some; [by exists x|by exists z]. }
  split; try apply H.
  - by eapply nets_update; [apply H|..].
  - split; [apply (r_sources H)|]. intros y z (z0 & Hz0 & -> & _)%Hback. by apply (so_nets (r_sources H) y).
  - split; try apply (r_shows H). intros b k. rewrite (sh_nets (r_shows H) b k). split.
    + intros (y & z & Hz & E1 & E2). destruct (decide (y = a)) as [->|Hne].
      * assert (z = x) as -> by congruence. exists a, x'. by rewrite lookup_insert_eq, Es, Ed.
      * exists y, z. by rewrite lookup_insert_ne.
    + intros (y & z & (z0 & Hz0 & -> & ->)%Hback & E1 & E2). by exists y, z0.
Qed.

(** A pair of edges of which only one was announced goes away. *)
Lemma rep_unlink X Y u F nm em am epm tree etree ts e ed ns nd : rep_of X Y u F nm em am epm tree etree ts -> em !! e = Some ed ->
  nm !! e_src ed = Some ns -> nm !! e_dst ed = Some nd ->
  (forall inv, em !! inverse ed = Some inv -> virtual inv = true) ->
  let ab := (node_key (prefixes nm) (e_src ed), node_key (prefixes nm) (e_dst ed)) in
  rep_of ({[e_src ed; e_dst ed]} ∪ X) Y u (with_links (fun L => L ∖ {[ab]}) F)
    (<[e_dst ed := with_edges (filter (fun y => y <> inverse ed) (_edges nd)) nd]>
      (<[e_src ed := with_edges (filter (fun y => y <> e) (_edges ns)) ns]> nm))
    (delete e (delete (inverse ed) em)) am epm tree etree ts.
Proof.
  intros H He Hns Hnd Hinv ab. set (nm' := <[_ := _]> _). destruct (eo_ends (r_edges H) e ed He) as (_ & _ & Hne).
  assert (forall {A} (f : olsrv2_tc_node -> A), (forall l n, f (with_edges l n) = f n) -> f <$> nm' = f <$> nm) as Hview.
  { intros A f Hf. unfold nm'. erewrite view_same; [|rewrite lookup_insert_ne by done; exact Hnd|by rewrite Hf].
    by erewrite view_same; [|exact Hns|rewrite Hf]. }
  assert (prefixes nm' = prefixes nm) as EP by (by apply Hview).
  assert (forall x d, delete e (delete (inverse ed) em) !! x = Some d <-> x <> e /\ x <> inverse ed /\ em !! x = Some d) as Hdel.
  { intros x d. rewrite !lookup_delete_Some. naive_solver. }
  assert (edges_of nm' = <[e_dst ed := filter (fun y => y <> inverse ed) (_edges nd)]>
    (<[e_src ed := filter (fun y => y <> e) (_edges ns)]> (edges_of nm))) as EE by (unfold nm'; by rewrite !fmap_insert).
  split; rewrite ?EP, ?(Hview _ direct_neighbor), ?(Hview _ _attached_networks) by done; try apply H.
  - rewrite EE. apply (edges_unlink _ _ em e ed); [apply H|done|..]; by apply view_at.
  - rewrite EE. intros p l Hl Hp. rewrite !lookup_insert_ne in Hl by set_solver. apply (r_reasons H p l Hl). set_solver.
  - split; [|apply (r_sources H)]. intros x d (_ & _ & Hd)%Hdel. by apply (so_edges (r_sources H) x).
  - split; try apply (r_shows H). intros x y. cbn [links with_links]. rewrite elem_of_difference, elem_of_singleton.
    rewrite (sh_links (r_shows H) x y). split.
    + intros [(e1 & d1 & He1 & Hv1 & Ex & Ey) Hab]. exists e1, d1. rewrite Hdel. repeat split; try done.
      * intros ->. apply Hab. unfold ab. congruence.
      * intros ->. specialize (Hinv d1 He1). congruence.
    + intros (e1 & d1 & (Hx & _ & He1)%Hdel & Hv1 & Ex & Ey). split; [by exists e1, d1|]. intros E. injection E as -> ->.
      apply Hx. eapply (edge_by_keys _ _ em); [apply H|apply H|done|done|done|done].
Qed.

(** A node announces a link to another one, of which nothing was known. *)
Lemma rep_link X Y u F nm em am epm tree etree ts src dst e i ns nd : rep_of X Y u F nm em am epm tree etree ts ->
  nm !! src = Some ns -> nm !! dst = Some nd -> src <> dst -> e <> i -> em !! e = None -> em !! i = None ->
  (forall x, x ∈ _edges ns -> edge_key (prefixes nm) em x <> node_key (prefixes nm) dst) -> is_active ts src = true \/ src ∈ Y ->
  let em' := <[i := new_edge dst src e true]> (<[e := new_edge src dst i false]> em) in
  let key := edge_key (prefixes nm) em' in
  let ab := (node_key (prefixes nm) src, node_key (prefixes nm) dst) in
  rep_of (X ∖ {[src; dst]}) Y u (with_links (fun L => {[ab]} ∪ L) F)
    (<[dst := with_edges (inserted key avl_comp_netaddr i (_edges nd)) nd]>
      (<[src := with_edges (inserted key avl_comp_netaddr e (_edges ns)) ns]> nm)) em' am epm tree etree ts.
Proof.
  intros H Hns Hnd Hne Hei He Hi Hnew Hact em' key ab. set (nm' := <[dst := _]> _).
  assert (forall {A} (f : olsrv2_tc_node -> A), (forall l n, f (with_edges l n) = f n) -> f <$> nm' = f <$> nm) as Hview.
  { intros A f Hf. unfold nm'. erewrite view_same; [|rewrite lookup_insert_ne by done; exact Hnd|by rewrite Hf].
    by erewrite view_same; [|exact Hns|rewrite Hf]. }
  assert (prefixes nm' = prefixes nm) as EP by (by apply Hview).
  assert (forall x d, em' !! x = Some d -> x = e /\ d = new_edge src dst i false \/ x = i /\ d = new_edge dst src e true \/ em !! x = Some d) as Hcases.
  { intros x d. unfold em'. rewrite !lookup_insert_Some. naive_solver. }
  assert (edges_of nm' = <[dst := inserted key avl_comp_netaddr i (_edges nd)]>
    (<[src := inserted key avl_comp_netaddr e (_edges ns)]> (edges_of nm))) as EE by (unfold nm'; by rewrite !fmap_insert).
  assert (edges_ok (prefixes nm) (edges_of nm') em') as HE.
  { rewrite EE. eapply (edges_link _ _ _ tree src dst e i); [apply H|apply H| | |done|done|done|done|by apply view_at|by apply view_at|done].
    all: eexists; by apply prefixes_at. }
  assert (em' !! e = Some (new_edge src dst i false)) as Ee by (unfold em'; rewrite lookup_insert_ne by done; by rewrite lookup_insert_eq).
  assert (em' !! i = Some (new_edge dst src e true)) as Ei by (unfold em'; by rewrite lookup_insert_eq).
  split; rewrite ?EP, ?(Hview _ direct_neighbor), ?(Hview _ _attached_networks) by done; try done; try apply H.
  - intros p l Hl Hp. destruct (decide (p = src \/ p = dst)) as [Hpd|Hpd].
    + right; left. intros ->. destruct Hpd as [-> | ->]; [assert (e ∈ []) as Hin|assert (i ∈ []) as Hin];
        try (by apply elem_of_nil in Hin); eapply (eo_list HE); try done; eauto.
    + rewrite EE, !lookup_insert_ne in Hl by naive_solver. apply (r_reasons H p l Hl). set_solver.
  - split; [|apply (r_sources H)]. intros x d [[-> ->]|[[-> ->]|Hd]]%Hcases; simpl; try done.
    + intros _ Hy. by destruct Hact.
    + by apply (so_edges (r_sources H) x).
  - split; try apply (r_shows H). intros x y. cbn [links with_links]. rewrite elem_of_union, elem_of_singleton, (sh_links (r_shows H) x y).
    split.
    + intros [E|(e1 & d1 & He1 & ?)]; [injection E as -> ->; by exists e, (new_edge src dst i false)|].
      exists e1, d1. split; [|done]. unfold em'. rewrite !lookup_insert_ne by congruence. done.
    + intros (e1 & d1 & [[-> ->]|[[-> ->]|Hd]]%Hcases & Hv & Ex & Ey); simpl in *; [left; unfold ab; congruence|done|].
      right. by exists e1, d1.
Qed.

(** Timers of other objects stay. *)
Lemma is_active_insert ts t p i q : instances t = <[p := i]> (instances ts) ->
  is_active t q = if decide (q = p) then oonf_timer_is_active i else is_active ts q.
Proof.
  intros E. unfold is_active. rewrite E. destruct (decide (q = p)) as [->|Hq]; [by rewrite lookup_insert_eq|by rewrite lookup_insert_ne].
Qed.

(** The validity of a node begins, is extended or ends. *)
Lemma rep_timer X Y u F nm em am epm tree etree ts ts' p n : rep_of X Y u F nm em am epm tree etree ts -> nm !! p = Some n ->
  timers_ok (prefixes nm) ts' -> (forall q, q <> p -> is_active ts' q = is_active ts q) ->
  (is_active ts' p = false -> is_active ts p = true -> p ∈ X /\ p ∈ Y) ->
  let a := rk_dst (prefix (n_target n)) in
  rep_of X Y u (with_valid (fun v => if is_active ts' p then {[a]} ∪ v else v ∖ {[a]}) F) nm em am epm tree etree ts'.
Proof.
  intros H Hn Hts Ho Hstop a. assert (forall q, is_active ts q = true -> is_active ts' q = true \/ q ∈ X /\ q ∈ Y) as Hact.
  { intros q Hq. destruct (decide (q = p)) as [->|Hne]; [|left; by rewrite Ho]. destruct (is_active ts' p) eqn:E; auto. }
  assert (node_key (prefixes nm) p = a) as Ek by (by apply node_key_at, prefixes_at).
  assert (is_Some (prefixes nm !! p)) as Hp by (eexists; by apply prefixes_at).
  split; try done; try apply H.
  - intros q l Hl Hq. destruct (r_reasons H q l Hl Hq) as [Ha|?]; [|by right]. left. by destruct (Hact q Ha) as [?|[? _]].
  - split.
    + intros e ed He Hv Hs. by destruct (Hact _ (so_edges (r_sources H) e ed He Hv Hs)) as [?|[_ ?]].
    + intros y x Hx Hs. by destruct (Hact _ (so_nets (r_sources H) y x Hx Hs)) as [?|[_ ?]].
  - split; try apply (r_shows H). simpl. intros b. pose proof (sh_valid (r_shows H) b) as Hb. destruct (decide (b = a)) as [->|Hba].
    + destruct (is_active ts' p) eqn:E.
      * split; [intros _; by exists p|set_solver].
      * split; [set_solver|]. intros (q & Hq & Eq & Aq).
        assert (q = p) as -> by (eapply node_key_inj; [apply (r_nodes H)|done|done|congruence]). congruence.
    + transitivity (b ∈ valid F); [destruct (is_active ts' p); set_solver|]. rewrite Hb. f_equiv. intros q.
      split; intros (Hq & Eq & Aq); (split; [done|split; [done|]]); (destruct (decide (q = p)) as [->|Hne]; [congruence|]);
        [by rewrite Ho|by rewrite <- Ho].
Qed.

(** A new node: nothing is known about it. *)
Lemma rep_new_node X Y u F nm em am epm tree etree ts p a ansn : rep_of X Y u F nm em am epm tree etree ts -> nm !! p = None ->
  (forall t, timers_ok (prefixes nm) t -> instances t !! p = None -> timers_ok (prefixes nm) (put_timer p (cleared_timer _validity_info) t)) ->
  instances ts !! p = None -> (forall q, is_Some (prefixes nm !! q) -> node_key (prefixes nm) q <> a) ->
  let nm' := <[p := new_node p a ansn]> nm in
  rep_of ({[p]} ∪ X) Y u F nm' em am epm (inserted (node_key (prefixes nm')) avl_comp_netaddr p tree) etree
    (put_timer p (cleared_timer _validity_info) ts).
Proof.
  intros H Hp Hput Hts Ha nm'. set (ts' := put_timer _ _ _). set (P := prefixes nm).
  assert (prefixes nm' = <[p := os_routing_init_sourcespec_prefix a]> P) as EP by (unfold nm', prefixes; by rewrite fmap_insert).
  assert (edges_of nm' = <[p := []]> (edges_of nm)) as EE by (unfold nm'; by rewrite fmap_insert).
  assert (attached_of nm' = <[p := []]> (attached_of nm)) as EA by (unfold nm'; by rewrite fmap_insert).
  assert (direct_of nm' = <[p := false]> (direct_of nm)) as ED by (unfold nm'; by rewrite fmap_insert).
  assert (P !! p = None) as HP by (unfold P, prefixes; by rewrite lookup_fmap, Hp).
  assert (forall q, is_active ts' q = is_active ts q) as Hact.
  { intros q. rewrite (is_active_insert ts ts' p (cleared_timer _validity_info)) by done. destruct (decide (q = p)) as [->|]; [|done].
    unfold is_active. by rewrite Hts. }
  assert (forall q, is_Some (P !! q) -> q <> p) as Hne by (intros q [? ?] ->; congruence).
  assert (forall q, is_Some (P !! q) -> node_key (prefixes nm') q = node_key P q) as Hkey.
  { intros q Hq. rewrite EP. unfold node_key. rewrite prefix_at_insert_ne; [done|by apply Hne]. }
  destruct (Hput ts (r_timers H) Hts) as [Hwf Hcl Htm].
  split.
  - rewrite EP. apply nodes_insert; [apply H|done|done].
  - rewrite EP, EE. by apply edges_new_node, HP; apply H.
  - rewrite EP, EA. by apply nets_new_node, HP; apply H.
  - split; [done|done|]. rewrite EP. intros q. rewrite lookup_insert_is_Some'. intros [<-|Hq]; [|by apply Htm].
    exists (cleared_timer _validity_info). simpl. by rewrite lookup_insert_eq.
  - intros q l. rewrite EE, ED. intros Hl Hq. rewrite Hact. rewrite lookup_insert_ne in Hl by set_solver.
    rewrite lookup_insert_ne by set_solver. apply (r_reasons H q l Hl). set_solver.
  - split; intros; rewrite Hact; [by eapply (so_edges (r_sources H))|by eapply (so_nets (r_sources H))].
  - destruct (r_shows H) as [H1 H2 H3 H4]. split.
    + intros b. rewrite H1. split; intros (q & Hq & Eq & Aq); exists q; rewrite Hact in *.
      * rewrite Hkey by done. split; [|done]. rewrite EP, lookup_insert_is_Some'. by right.
      * rewrite EP, lookup_insert_is_Some' in Hq. destruct Hq as [<-|Hq]; [|by rewrite Hkey in Eq].
        unfold is_active in Aq. by rewrite Hts in Aq.
    + intros b. rewrite H2. split; intros (q & Hq & Eq & Aq); exists q.
      * rewrite Hkey by done. rewrite EP, lookup_insert_is_Some', ED, lookup_insert_ne by (by apply not_eq_sym, Hne). auto.
      * rewrite EP, lookup_insert_is_Some' in Hq. rewrite ED in Aq. destruct (decide (q = p)) as [->|Hqp].
        { by rewrite lookup_insert_eq in Aq. }
        rewrite lookup_insert_ne in Aq by done. destruct Hq as [?|Hq]; [done|]. by rewrite Hkey in Eq.
    + intros x y. rewrite H3. f_equiv. intros e. f_equiv. intros ed. split; intros (He & Hv & Ex & Ey);
        destruct (eo_ends (r_edges H) e ed He) as (S & D & _); rewrite !Hkey in * by done; done.
    + intros x k. rewrite H4. f_equiv. intros e. f_equiv. intros z. split; intros (Hz & Ex & Ey);
        destruct (nt_ends (r_nets H) e z Hz) as (S & _); rewrite !Hkey in * by done; done.
Qed.

(** A node about which nothing is known goes away. *)
Lemma rep_drop_node X Y u F nm em am epm tree etree ts p n : rep_of X Y u F nm em am epm tree etree ts -> nm !! p = Some n ->
  _edges n = [] -> _attached_networks n = [] -> direct_neighbor n = false -> is_active ts p = false ->
  timer_wf max_interval (set_instances (delete p (instances ts)) ts) ->
  rep_of (X ∖ {[p]}) Y u F (delete p nm) em am epm (filter (fun q => q <> p) tree) etree (set_instances (delete p (instances ts)) ts).
Proof.
  intros H Hn E1 E2 E3 Hact Hwf. set (nm' := delete p nm). set (ts' := set_instances _ _). set (P := prefixes nm).
  assert (prefixes nm' = delete p P) as EP by (unfold nm', prefixes; by rewrite fmap_delete).
  assert (edges_of nm' = delete p (edges_of nm)) as EE by (unfold nm'; by rewrite fmap_delete).
  assert (attached_of nm' = delete p (attached_of nm)) as EA by (unfold nm'; by rewrite fmap_delete).
  assert (direct_of nm' = delete p (direct_of nm)) as ED by (unfold nm'; by rewrite fmap_delete).
  assert ((edges_of nm) !! p = Some []) as HE by (by rewrite lookup_fmap, Hn, <- E1).
  assert ((attached_of nm) !! p = Some []) as HA by (by rewrite lookup_fmap, Hn, <- E2).
  assert (forall q, q <> p -> is_active ts' q = is_active ts q) as Hactq.
  { intros q Hq. unfold is_active, ts'. simpl. by rewrite lookup_delete_ne. }
  assert (forall q, is_active ts' q = is_active ts q) as Hact'.
  { intros q. destruct (decide (q = p)) as [->|]; [|by apply Hactq]. rewrite Hact. unfold is_active, ts'. simpl. by rewrite lookup_delete_eq. }
  assert (forall q, q <> p -> node_key (prefixes nm') q = node_key P q) as Hkey.
  { intros q Hq. rewrite EP. unfold node_key. by rewrite prefix_at_delete_ne. }
  assert (edges_ok (prefixes nm') (edges_of nm') em) as HE' by (rewrite EP, EE; by apply edges_delete_node; [apply H|]).
  assert (nets_ok u (prefixes nm') (attached_of nm') am (ep_prefixes epm) (ep_attached_of epm) etree) as HA'
    by (rewrite EP, EA; by apply nets_delete_node; [apply H|]).
  assert (forall q, is_Some (prefixes nm' !! q) <-> q <> p /\ is_Some (P !! q)) as Hdom.
  { intros q. rewrite EP. destruct (decide (q = p)) as [->|Hq]; [rewrite lookup_delete_eq; split; [by intros []|naive_solver]|].
    rewrite lookup_delete_ne by done. naive_solver. }
  split; [rewrite EP; apply nodes_delete, H|done|done|..].
  - split; [done|apply (r_timers H)|]. intros q [Hq HP]%Hdom. unfold ts'. simpl. rewrite lookup_delete_ne by done. by apply (r_timers H).
  - intros q l. rewrite EE, ED. intros [Hq Hl]%lookup_delete_Some Hx. rewrite Hact', lookup_delete_ne by done. apply (r_reasons H q l Hl). set_solver.
  - split; intros; rewrite Hact'; [by eapply (so_edges (r_sources H))|by eapply (so_nets (r_sources H))].
  - destruct (r_shows H) as [H1 H2 H3 H4]. split.
    + intros b. rewrite H1. split; intros (q & Hq & Eq & Aq); exists q; rewrite Hact' in *.
      * assert (q <> p) by (intros ->; congruence). rewrite Hkey by done. split; [by apply Hdom|done].
      * apply Hdom in Hq as [? Hq]. by rewrite Hkey in Eq.
    + intros b. rewrite H2. split; intros (q & Hq & Eq & Aq); exists q.
      * assert (q <> p). { intros ->. rewrite (view_at _ _ _ _ Hn), E3 in Aq. done. }
        rewrite Hkey by done. rewrite ED, lookup_delete_ne by done. split; [by apply Hdom|done].
      * apply Hdom in Hq as [? Hq]. rewrite Hkey in Eq by done. rewrite ED, lookup_delete_ne in Aq by done. done.
    + intros x y. rewrite H3. f_equiv. intros e. f_equiv. intros ed. split; intros (He & Hv & Ex & Ey);
        destruct (eo_ends HE' e ed He) as ([? _]%Hdom & [? _]%Hdom & _); rewrite !Hkey in * by done; done.
    + intros x k. rewrite H4. f_equiv. intros e. f_equiv. intros z. split; intros (Hz & Ex & Ey);
        destruct (nt_ends HA' e z Hz) as ([? _]%Hdom & _); rewrite !Hkey in * by done; done.
Qed.

(** *** Attached networks *)

Lemma ep_prefixes_at epm q e : epm !! q = Some e -> ep_prefixes epm !! q = Some (prefix (ep_target e)).
Proof. intros H. unfold ep_prefixes. by rewrite lookup_fmap, H. Qed.

Lemma rep_new_endpoint X Y F nm em am epm tree etree ts q k mesh orig : rep_of X Y None F nm em am epm tree etree ts ->
  epm !! q = None -> (forall q', ep_prefixes epm !! q' <> Some k) ->
  let epm' := <[q := new_endpoint k mesh orig]> epm in
  rep_of X Y (Some q) F nm em am epm' tree (tree_insert_dup (prefix_at (ep_prefixes epm')) rt_cmp q etree) ts.
Proof.
  intros H Hq Hk epm'. assert (ep_prefixes epm' = <[q := k]> (ep_prefixes epm)) as EP by (unfold epm', ep_prefixes; by rewrite fmap_insert).
  assert (ep_attached_of epm' = <[q := []]> (ep_attached_of epm)) as EA by (unfold epm'; by rewrite fmap_insert).
  assert (ep_prefixes epm !! q = None) as Hq' by (unfold ep_prefixes; by rewrite lookup_fmap, Hq).
  split; try apply H.
  - rewrite EP, EA. by apply nets_new_endpoint; [apply H|..].
  - split; try apply (r_shows H). intros a k'. rewrite (sh_nets (r_shows H) a k'), EP. f_equiv. intros y. f_equiv. intros x.
    split; intros (Hx & ? & ?); destruct (nt_ends (r_nets H) y x Hx) as (_ & Hd);
      (rewrite prefix_at_insert_ne in * by (intros E; rewrite E, Hq' in Hd; by destruct Hd)); done.
Qed.

(** The Dijkstra data of an endpoint is not part of the facts. *)
Lemma rep_endpoint X Y u F nm em am epm tree etree ts q e e' : rep_of X Y u F nm em am epm tree etree ts -> epm !! q = Some e ->
  prefix (ep_target e') = prefix (ep_target e) -> ep_attached_networks e' = ep_attached_networks e ->
  rep_of X Y u F nm em am (<[q := e']> epm) tree etree ts.
Proof.
  intros H Hq E1 E2. assert (ep_prefixes (<[q := e']> epm) = ep_prefixes epm) as EP by (by apply (ep_view_same _ _ _ e)).
  split; rewrite ?EP, ?(ep_view_same ep_attached_networks _ _ e _ Hq E2); apply H.
Qed.

Lemma rep_net_link X Y u F nm em am epm tree etree ts p n q ep a x : rep_of X Y u F nm em am epm tree etree ts ->
  nm !! p = Some n -> epm !! q = Some ep -> am !! a = None -> u = None \/ u = Some q -> a_src x = p -> a_dst x = q ->
  cost_ok (a_cost x) -> length (a_distance x) = NHDP_MAXIMUM_DOMAINS ->
  (forall y, y ∈ _attached_networks n -> src_key (ep_prefixes epm) am y <> prefix (ep_target ep)) ->
  is_active ts p = true \/ p ∈ Y ->
  let am' := <[a := x]> am in
  rep_of X Y None (with_nets (fun N => {[(node_key (prefixes nm) p, prefix (ep_target ep))]} ∪ N) F)
    (<[p := with_attached (inserted (src_key (ep_prefixes epm) am') rt_cmp a (_attached_networks n)) n]> nm) em am'
    (<[q := with_ep_attached (inserted (endpoint_node_key (prefixes nm) am') rt_cmp a (ep_attached_networks ep)) ep]> epm) tree etree ts.
Proof.
  intros H Hn Hq Ha Hu Es Ed Hc1 Hc2 Hnew Hact am'. set (nm' := <[p := _]> nm). set (epm' := <[q := _]> epm).
  assert (prefixes nm' = prefixes nm) as EP by (unfold nm'; by apply (view_same _ _ _ n)).
  assert (edges_of nm' = edges_of nm) as EE by (unfold nm'; by apply (view_same _ _ _ n)).
  assert (direct_of nm' = direct_of nm) as ED by (unfold nm'; by apply (view_same _ _ _ n)).
  assert (ep_prefixes epm' = ep_prefixes epm) as EEP by (unfold epm'; by apply (ep_view_same _ _ _ ep)).
  assert (forall y z, am' !! y = Some z <-> y = a /\ z = x \/ y <> a /\ am !! y = Some z) as Hcases.
  { intros y z. unfold am'. rewrite lookup_insert_Some. naive_solver. }
  split; rewrite ?EP, ?EE, ?ED, ?EEP; try apply H.
  - unfold nm', epm'. rewrite !fmap_insert. simpl. rewrite <- Es, <- Ed.
    eapply nets_link; [apply H|apply H|done|..]; rewrite ?Es, ?Ed; try done.
    + by apply view_at.
    + by rewrite lookup_fmap, Hq.
    + intros y Hy. unfold prefix_at. rewrite (ep_prefixes_at _ _ _ Hq). by apply Hnew.
  - split; [apply (r_sources H)|]. intros y z [[-> ->]|[_ Hz]]%Hcases; [|by apply (so_nets (r_sources H) y)].
    rewrite Es. intros Hy. by destruct Hact.
  - split; try apply (r_shows H). intros b k. cbn [nets with_nets]. rewrite elem_of_union, elem_of_singleton, (sh_nets (r_shows H) b k).
    assert (prefix_at (ep_prefixes epm) q = prefix (ep_target ep)) as Ek by (unfold prefix_at; by rewrite (ep_prefixes_at _ _ _ Hq)).
    split.
    + intros [E|(y & z & Hy & ?)]; [injection E as -> ->|].
      * exists a, x. rewrite Hcases, Es, Ed. auto.
      * exists y, z. rewrite Hcases. split; [|done]. right. split; [|done]. intros ->. congruence.
    + intros (y & z & [[-> ->]|[_ Hz]]%Hcases & E1 & E2); [left; congruence|right; by exists y, z].
Qed.

Lemma rep_net_unlink X Y F nm em am epm tree etree ts a x n ep : rep_of X Y None F nm em am epm tree etree ts ->
  am !! a = Some x -> nm !! a_src x = Some n -> epm !! a_dst x = Some ep ->
  rep_of X Y (Some (a_dst x)) (with_nets (fun N => N ∖ {[(node_key (prefixes nm) (a_src x), prefix (ep_target ep))]}) F)
    (<[a_src x := with_attached (filter (fun y => y <> a) (_attached_networks n)) n]> nm) em (delete a am)
    (<[a_dst x := with_ep_attached (filter (fun y => y <> a) (ep_attached_networks ep)) ep]> epm) tree etree ts.
Proof.
  intros H Ha Hn Hq. set (nm' := <[a_src x := _]> nm). set (epm' := <[a_dst x := _]> epm).
  assert (prefixes nm' = prefixes nm) as EP by (unfold nm'; by apply (view_same _ _ _ n)).
  assert (edges_of nm' = edges_of nm) as EE by (unfold nm'; by apply (view_same _ _ _ n)).
  assert (direct_of nm' = direct_of nm) as ED by (unfold nm'; by apply (view_same _ _ _ n)).
  assert (ep_prefixes epm' = ep_prefixes epm) as EEP by (unfold epm'; by apply (ep_view_same _ _ _ ep)).
  assert (forall y z, delete a am !! y = Some z <-> y <> a /\ am !! y = Some z) as Hdel by (intros; rewrite lookup_delete_Some; naive_solver).
  split; rewrite ?EP, ?EE, ?ED, ?EEP; try apply H.
  - unfold nm', epm'. rewrite !fmap_insert. simpl. apply nets_unlink; [apply H|done|by apply view_at|by rewrite lookup_fmap, Hq].
  - split; [apply (r_sources H)|]. intros y z [_ Hz]%Hdel. by apply (so_nets (r_sources H) y).
  - split; try apply (r_shows H). intros b k. cbn [nets with_nets]. rewrite elem_of_difference, elem_of_singleton, (sh_nets (r_shows H) b k).
    assert (prefix_at (ep_prefixes epm) (a_dst x) = prefix (ep_target ep)) as Ek by (unfold prefix_at; by rewrite (ep_prefixes_at _ _ _ Hq)).
    split.
    + intros [(y & z & Hy & E1 & E2) Hne]. exists y, z. rewrite Hdel. split; [|done]. split; [|done]. intros ->. apply Hne. congruence.
    + intros (y & z & [Hy Hz]%Hdel & E1 & E2). split; [by exists y, z|]. intros E. injection E as -> ->. apply Hy.
      destruct (nt_ends (r_nets H) y z Hz) as [S1 [k1 D1]]. destruct (nt_ends (r_nets H) a x Ha) as [S2 [k2 D2]].
      assert (a_src z = a_src x) as Esrc by (eapply node_key_inj; [apply (r_nodes H)|done|done|congruence]).
      apply (tree_strict_inj (src_key (ep_prefixes epm) am) rt_cmp (_attached_networks n)).
      * apply (in_strict (nt_src (r_nets H)) (a_src x)). by apply view_at.
      * apply (in_list (nt_src (r_nets H)) (a_src x)); [by apply view_at|]. eauto.
      * apply (in_list (nt_src (r_nets H)) (a_src x)); [by apply view_at|]. eauto.
      * rewrite (src_key_at _ _ _ _ Hz), (src_key_at _ _ _ _ Ha). apply rtkey_cmp_eq. congruence.
Qed.

Lemma rep_still_used X Y F nm em am epm tree etree ts q ep : rep_of X Y (Some q) F nm em am epm tree etree ts -> epm !! q = Some ep ->
  ep_attached_networks ep <> [] -> rep_of X Y None F nm em am epm tree etree ts.
Proof.
  intros H Hq Hne. split; try apply H. eapply nets_still_used; [apply H|by right| |exact Hne]. by rewrite lookup_fmap, Hq.
Qed.

Lemma rep_drop_endpoint X Y F nm em am epm tree etree ts q ep : rep_of X Y (Some q) F nm em am epm tree etree ts -> epm !! q = Some ep ->
  ep_attached_networks ep = [] -> rep_of X Y None F nm em am (delete q epm) tree (filter (fun y => y <> q) etree) ts.
Proof.
  intros H Hq He. assert (ep_prefixes (delete q epm) = delete q (ep_prefixes epm)) as EP by (unfold ep_prefixes; by rewrite fmap_delete).
  assert ((ep_attached_of epm) !! q = Some []) as HA by (by rewrite lookup_fmap, Hq, <- He).
  split; try apply H.
  - rewrite EP, fmap_delete. by apply nets_delete_endpoint; [apply H|].
  - split; try apply (r_shows H). intros a k. rewrite (sh_nets (r_shows H) a k), EP. f_equiv. intros y. f_equiv. intros x.
    split; intros (Hx & ? & ?); pose proof (incidence_empty _ _ _ _ _ _ _ _ (nt_dst (r_nets H)) HA Hx);
      rewrite prefix_at_delete_ne in * by done; done.
Qed.
End facts.
