(* ===== verification/TcRemove.v ===== *)
(** Removal from the topology database of src/olsrv2/olsrv2/olsrv2_tc.c: edges,
    attached networks and nodes go away with everything that only they needed. *)

From Stdlib Require Import ZArith Lia Sorted.
From stdpp Require Import base list numbers option gmap sets.
From S2P Require Import Prelude AvlSpec StateMonad Netaddr MprSelection NhdpDb RoutingSet Timer ValidityTimer TcDatabase TcInvariant TcNets TcFacts.

Local Open Scope Z_scope.
Local Open Scope state_scope.


#[global] Arguments to_wf {_ _ P ts}.
#[global] Arguments to_class {_ _ P ts}.
#[global] Arguments to_timer {_ _ P ts}.
#[global] Arguments so_edges {Y act em am}.
#[global] Arguments so_nets {Y act em am}.
#[global] Arguments sh_valid {F P D em am EP act}.
#[global] Arguments sh_direct {F P D em am EP act}.
#[global] Arguments sh_links {F P D em am EP act}.
#[global] Arguments sh_nets {F P D em am EP act}.
#[global] Arguments r_nodes {_ _ X Y u F nm em am epm tree etree ts}.
#[global] Arguments r_edges {_ _ X Y u F nm em am epm tree etree ts}.
#[global] Arguments r_nets {_ _ X Y u F nm em am epm tree etree ts}.
#[global] Arguments r_timers {_ _ X Y u F nm em am epm tree etree ts}.
#[global] Arguments r_reasons {_ _ X Y u F nm em am epm tree etree ts}.
#[global] Arguments r_sources {_ _ X Y u F nm em am epm tree etree ts}.
#[global] Arguments r_shows {_ _ X Y u F nm em am epm tree etree ts}.

Section remove.
Context (os_core_get_random : nat -> option Z) (random_u32 : forall n r, os_core_get_random n = Some r -> 0 <= r <= UINT32_MAX).
Context (max_interval : Z) (max_interval_range : 0 <= max_interval <= 2 ^ 56).
Context (_validity_info : positive).

#[local] Notation rep := (rep _validity_info max_interval).
#[local] Notation rep_of := (rep_of _validity_info max_interval).
#[local] Notation timers_ok := (timers_ok _validity_info max_interval).

(** ** Timers *)

Lemma timers_ok_rescheduled P ts p i i' ts' : timers_ok P ts -> instances ts !! p = Some i -> class i = _validity_info ->
  rescheduled max_interval p ts i' ts' -> class i' = class i -> jitter_pct i' = 0 -> timers_ok P ts'.
Proof.
  intros [_ (k & Hk & Hp) Ht] Hi Hc [Hwf Hins _ Hcl] Hc' Hj'. split; [done|..].
  - destruct (Hcl _ _ Hk) as (k' & ? & ?). exists k'. split; congruence.
  - intros q Hq. rewrite Hins. destruct (decide (q = p)) as [->|Hne]; [rewrite lookup_insert_eq; exists i'; split; [done|split; congruence]|].
    rewrite lookup_insert_ne by done. by apply Ht.
Qed.

(** The state after the timer of [p] was set. *)
Definition timer_changed (P : prefix_map) (p : ptr) (active : bool) (ts ts' : timer_state) : Prop :=
  timers_ok P ts' /\ (forall q, q <> p -> is_active ts' q = is_active ts q) /\ is_active ts' p = active /\
  (forall q, is_Some (instances ts' !! q) <-> is_Some (instances ts !! q)).

Lemma tc_timer_set_wp P p vtime s (Q : unit -> tc_db -> Prop) : timers_ok P (timers s) -> is_Some (P !! p) -> 0 <= vtime <= max_interval ->
  (forall ts', timer_changed P p (negb (vtime =? 0)) (timers s) ts' -> Q tt (set_timers ts' s)) ->
  wp (timer_set os_core_get_random p vtime) s Q.
Proof.
  intros Hok Hp Hv HQ. destruct (to_timer Hok p Hp) as (i & Hi & Hc & Hj).
  destruct (validity_set_spec os_core_get_random random_u32 max_interval max_interval_range (timers s) p i vtime (to_wf Hok) Hi Hj Hv)
    as (ts' & i' & E & Hr & Hc' & Hj' & H0 & H1).
  unfold timer_set. wp_steps. eapply wp_lift; [exact E|]. wp_steps. apply HQ.
  pose proof (rs_instances _ _ _ _ _ Hr) as Hins. split; [by eapply timers_ok_rescheduled|]. split; [|split].
  - intros q Hq. rewrite (is_active_insert _ _ _ _ _ Hins). by rewrite decide_False.
  - rewrite (is_active_insert _ _ _ _ _ Hins), decide_True by done. unfold oonf_timer_is_active. f_equal.
    destruct (Z.eqb_spec vtime 0) as [->|Hv0]; [rewrite H0 by done; done|].
    pose proof (inv_now _ _ _ (to_wf Hok)). destruct (Z.eqb_spec (_clock i') 0); [|done]. specialize (H1 Hv0). lia.
  - intros q. rewrite Hins. destruct (decide (q = p)) as [->|]; [rewrite lookup_insert_eq, Hi; split; eauto|by rewrite lookup_insert_ne].
Qed.

Lemma tc_timer_stop_wp P p s (Q : unit -> tc_db -> Prop) : timers_ok P (timers s) -> is_Some (P !! p) ->
  (forall ts', timer_changed P p false (timers s) ts' -> Q tt (set_timers ts' s)) -> wp (timer_stop p) s Q.
Proof.
  intros Hok Hp HQ. assert (0 <= 0 <= max_interval) as H0 by lia. apply (tc_timer_set_wp P p 0 s Q Hok Hp H0 HQ).
Qed.

Lemma node_virtual_wp P p s (Q : bool -> tc_db -> Prop) : timers_ok P (timers s) -> is_Some (P !! p) ->
  Q (negb (is_active (timers s) p)) s -> wp (olsrv2_tc_is_node_virtual p) s Q.
Proof.
  intros Hok Hp HQ. destruct (to_timer Hok p Hp) as (i & Hi & _). unfold olsrv2_tc_is_node_virtual. wp_steps.
  eapply wp_lift; [by apply get_timer_at|]. wp_steps. unfold is_active in HQ. by rewrite Hi in HQ.
Qed.

(** ** A node about which nothing is known *)

(** The memory after [olsrv2_tc_node_remove] of such a node. *)
Record leaf_removed (p : ptr) (n : olsrv2_tc_node) (s s' : tc_db) : Prop := {
  lr_nodes : node_mem s' = if direct_neighbor n then node_mem s else delete p (node_mem s);
  lr_edges : edge_mem s' = edge_mem s;
  lr_attachments : attachment_mem s' = attachment_mem s;
  lr_endpoints : endpoint_mem s' = endpoint_mem s;
  lr_tree : _tc_tree s' = if direct_neighbor n then _tc_tree s else filter (fun q => q <> p) (_tc_tree s);
  lr_etree : _tc_endpoint_tree s' = _tc_endpoint_tree s;
  lr_timers : timers s' = if direct_neighbor n then timers s else set_instances (delete p (instances (timers s))) (timers s);
}.

Lemma leaf_remove_wp d p n s : node_mem s !! p = Some n -> _edges n = [] -> _attached_networks n = [] -> p ∈ _tc_tree s ->
  (exists i, instances (timers s) !! p = Some i /\ _clock i = 0) ->
  wp (node_remove (S d) p) s (fun _ s' => leaf_removed p n s s').
Proof.
  intros Hn E1 E2 Ht (i & Hi & Hc). cbn [node_remove]. unfold call, for_each_safe. wp_steps. rewrite E1. cbn [safe_loop length head].
  wp_steps. rewrite E2. cbn [safe_loop length head]. wp_steps. unfold timer_stop. wp_steps.
  eapply wp_lift. { unfold oonf_timer_stop. simpl. rewrite (get_timer_at _ p i Hi). simpl. by rewrite Hc. }
  wp_steps. rewrite E1. cbn [length]. rewrite bool_decide_true by done. destruct (direct_neighbor n) eqn:Ed; cbn [negb andb].
  - wp_steps. split; simpl; rewrite ?Ed; done.
  - unfold avl_remove_node, free_node. wp_steps. eapply wp_lift; [by apply removed_in|]. wp_steps. split; simpl; rewrite ?Ed; done.
Qed.

(** ** Edges *)

Definition without_link (nm : gmap ptr olsrv2_tc_node) (ed : olsrv2_tc_edge) (F : facts) : facts :=
  if virtual ed then F else with_links (fun L => L ∖ {[(node_key (prefixes nm) (e_src ed), node_key (prefixes nm) (e_dst ed))]}) F.

(** What the caller sees: its node may have lost the edge, other edges stay. *)
Record edge_removed (e : ptr) (ed : olsrv2_tc_edge) (s s' : tc_db) : Prop := {
  er_src n : node_mem s !! e_src ed = Some n -> exists l, node_mem s' !! e_src ed = Some (with_edges l n) /\
    (l = _edges n \/ l = filter (fun y => y <> e) (_edges n));
  er_gone d : edge_mem s' !! e = Some d -> virtual d = true;
  er_own d : edge_mem s' !! e = Some d -> e_src d = e_src ed;
  er_announced d : edge_mem s !! inverse ed = Some d -> virtual d = false -> edge_mem s' !! inverse ed = Some d;
  er_others x : x <> e -> x <> inverse ed -> edge_mem s' !! x = edge_mem s !! x;
  er_attachments : attachment_mem s' = attachment_mem s;
  er_endpoints : endpoint_mem s' = endpoint_mem s;
  er_prefixes q k : prefixes (node_mem s') !! q = Some k -> prefixes (node_mem s) !! q = Some k;
  er_inverse d : edge_mem s' !! inverse ed = Some d -> edge_mem s !! inverse ed = Some d;
}.

Lemma rep_edges_at X Y u F nm em am epm tree etree ts p n : rep_of X Y u F nm em am epm tree etree ts -> nm !! p = Some n ->
  forall e, e ∈ _edges n <-> exists ed, em !! e = Some ed /\ e_src ed = p.
Proof. intros H Hn e. apply (eo_list (r_edges H)). by apply view_at. Qed.

Lemma rep_attached_at X Y u F nm em am epm tree etree ts p n : rep_of X Y u F nm em am epm tree etree ts -> nm !! p = Some n ->
  forall a, a ∈ _attached_networks n <-> exists x, am !! a = Some x /\ a_src x = p.
Proof. intros H Hn a. apply (in_list (nt_src (r_nets H))). by apply view_at. Qed.

Lemma rep_node_at X Y u F nm em am epm tree etree ts p : rep_of X Y u F nm em am epm tree etree ts -> is_Some (prefixes nm !! p) ->
  exists n, nm !! p = Some n.
Proof. intros _ [k Hk]. unfold prefixes in Hk. apply lookup_fmap_Some in Hk as (n & _ & Hn). by exists n. Qed.

Lemma with_edges_same n : with_edges (_edges n) n = n.
Proof. by destruct n. Qed.

(** The destination of an edge that was unlinked: it goes away when nothing needs
    it any more. *)
Lemma settle_destination_wp d (cleanup : bool) X Y F s dst nd em (Q : unit -> tc_db -> Prop) :
  rep_of ({[dst]} ∪ X) Y None F (node_mem s) em (attachment_mem s) (endpoint_mem s) (_tc_tree s) (_tc_endpoint_tree s) (timers s) ->
  node_mem s !! dst = Some nd -> dst ∉ Y ->
  (forall s', rep_of ((if cleanup then ∅ else {[dst]} : gset ptr) ∪ X) Y None F (node_mem s') em (attachment_mem s') (endpoint_mem s') (_tc_tree s')
      (_tc_endpoint_tree s') (timers s') -> edge_mem s' = edge_mem s ->
    attachment_mem s' = attachment_mem s -> endpoint_mem s' = endpoint_mem s ->
    (forall q, q <> dst -> node_mem s' !! q = node_mem s !! q) -> node_mem s' ⊆ node_mem s -> Q tt s') ->
  wp (if bool_decide (length (_edges nd) = 0%nat) && cleanup && negb (is_active (timers s) dst)
      then node_remove (S d) dst else ret tt) s Q.
Proof.
  intros H Hnd HY HQ. destruct cleanup; [|rewrite andb_false_r; apply wp_return, HQ; done].
  rewrite andb_true_r. destruct (bool_decide_reflect (length (_edges nd) = 0%nat)) as [E|E]; cbn [andb].
  2: { apply wp_return, HQ; [|done..]. eapply rep_excuse; [eapply (rep_reason _ _ _ _ _ _ _ _ _ _ _ _ _ dst nd H Hnd)| |done].
       - right; left. by destruct (_edges nd).
       - set_solver. }
  destruct (is_active (timers s) dst) eqn:Ea; cbn [negb].
  { apply wp_return, HQ; [|done..]. eapply rep_excuse; [eapply (rep_reason _ _ _ _ _ _ _ _ _ _ _ _ _ dst nd H Hnd); by left|set_solver|done]. }
  assert (_edges nd = []) as E0 by (by destruct (_edges nd)).
  assert (_attached_networks nd = []) as A0.
  { destruct (_attached_networks nd) as [|a l] eqn:El; [done|]. assert (a ∈ _attached_networks nd) as Hin by (rewrite El; left).
    apply (rep_attached_at _ _ _ _ _ _ _ _ _ _ _ dst nd H Hnd) in Hin as (x & Hx & Es).
    pose proof (so_nets (r_sources H) a x Hx) as Hs. rewrite Es in Hs. specialize (Hs HY). congruence. }
  destruct (to_timer (r_timers H) dst) as (i & Hi & _); [eexists; by apply prefixes_at|].
  assert (_clock i = 0) as Hc.
  { unfold is_active in Ea. rewrite Hi in Ea. unfold oonf_timer_is_active in Ea. apply negb_false_iff, Z.eqb_eq in Ea. done. }
  eapply wp_weaken; [eapply leaf_remove_wp; eauto; apply (r_nodes H); eexists; by apply prefixes_at|].
  intros [] s' [L1 L2 L3 L4 L5 L6 L7]. apply HQ; [|done..| |].
  - rewrite L1, L3, L4, L5, L6, L7. destruct (direct_neighbor nd) eqn:Ed.
    + eapply rep_excuse; [eapply (rep_reason _ _ _ _ _ _ _ _ _ _ _ _ _ dst nd H Hnd); auto|set_solver|done].
    + eapply rep_excuse; [eapply (rep_drop_node _ _ _ _ _ _ _ _ _ _ _ _ _ dst nd H Hnd); try done|set_solver|done].
      eapply validity_free; [done|apply max_interval_range|apply (to_wf (r_timers H))|done|done].
  - intros q Hq. rewrite L1. destruct (direct_neighbor nd); [done|]. by rewrite lookup_delete_ne.
  - rewrite L1. destruct (direct_neighbor nd); [done|]. apply delete_subseteq.
Qed.

Lemma remove_edge_wp d (cleanup : bool) X Y F s e ed : rep X Y F s -> edge_mem s !! e = Some ed -> e_dst ed ∉ Y ->
  wp (_remove_edge (node_remove (S d)) e cleanup) s (fun _ s' =>
    rep ((if cleanup then ∅ else {[e_dst ed]} : gset ptr) ∪ ({[e_src ed]} ∪ X)) Y (without_link (node_mem s) ed F) s' /\ edge_removed e ed s s').
Proof.
  intros H He HY. unfold _remove_edge, without_link, call. wp_steps. destruct (virtual ed) eqn:Ev.
  { wp_steps. split; [eapply rep_excuse; [exact H|set_solver|done]|]. split; [|congruence|congruence|done..].
    intros n Hn. exists (_edges n). rewrite with_edges_same. auto. }
  destruct (eo_pair (r_edges H) e ed He) as [inv Hp]. destruct (eo_ends (r_edges H) e ed He) as (HS & HD & Hne).
  destruct (rep_node_at _ _ _ _ _ _ _ _ _ _ _ _ H HS) as [ns Hns]. destruct (rep_node_at _ _ _ _ _ _ _ _ _ _ _ _ H HD) as [nd Hnd].
  pose proof (inverse_ne _ _ _ _ _ (r_edges H) He) as Hie.
  wp_steps. eapply wp_read; [apply (pair_at Hp)|]. destruct (virtual inv) eqn:Evi; cbn [negb].
  2: { unfold store_edge. wp_steps. split.
       - eapply rep_excuse; [|instantiate (1 := X); set_solver|done].
         apply (rep_edge _ _ _ _ _ _ _ _ _ _ _ _ _ e ed (with_virtual true ed) H He); try done.
         + exact (eo_cost (r_edges H) e ed He).
         + right. exists inv. split; [apply Hp|done].
       - split; simpl.
         + intros n Hn. exists (_edges n). rewrite with_edges_same. auto.
         + intros x. rewrite lookup_insert_eq. by intros [= <-].
         + intros x. rewrite lookup_insert_eq. by intros [= <-].
         + intros d0. by rewrite lookup_insert_ne by done.
         + intros x Hx _. by rewrite lookup_insert_ne.
         + done.
         + done.
         + done.
         + intros d0. by rewrite lookup_insert_ne by done. }
  assert (e ∈ _edges ns) as Hes by (apply (rep_edges_at _ _ _ _ _ _ _ _ _ _ _ _ _ H Hns); eauto).
  assert (inverse ed ∈ _edges nd) as Hid.
  { apply (rep_edges_at _ _ _ _ _ _ _ _ _ _ _ _ _ H Hnd). exists inv. split; [apply Hp|apply Hp]. }
  pose proof (rep_unlink _ _ X Y None F _ _ _ _ _ _ _ e ed ns nd H He Hns Hnd) as Hu.
  assert (forall j, edge_mem s !! inverse ed = Some j -> virtual j = true) as Hj by (intros j Hj; rewrite (pair_at Hp) in Hj; congruence).
  specialize (Hu Hj). cbv zeta in Hu. unfold avl_remove_edge, store_node, free_edge. wp_steps.
  eapply wp_lift; [by apply removed_in|]. wp_steps.
  eapply wp_read; [simpl; rewrite lookup_insert_ne by done; exact Hnd|]. wp_steps. eapply wp_lift; [by apply removed_in|]. wp_steps.
  eapply wp_read; [simpl; by rewrite lookup_insert_eq|]. wp_steps. set (s1 := set_node_mem _ _).
  eapply node_virtual_wp; [apply (r_timers Hu)| |].
  { eexists. apply prefixes_at. by rewrite lookup_insert_eq. }
  wp_steps. change (negb (is_active (timers s1) (e_dst ed))) with (negb (is_active (timers s1) (e_dst ed))).
  eapply (settle_destination_wp d cleanup ({[e_src ed]} ∪ X) Y _ s1 (e_dst ed)
    (with_edges (filter (fun y => y <> inverse ed) (_edges nd)) nd) (delete e (delete (inverse ed) (edge_mem s)))); [|simpl; by rewrite lookup_insert_eq|done|].
  { eapply rep_excuse; [exact Hu|set_solver|done]. }
  intros s' H' Eem Ea Eep Hnm Hsub. wp_steps. split; [unfold rep; simpl; by rewrite Eem|]. split; simpl; [..|done|done| |intros d0; by rewrite lookup_delete_ne, lookup_delete_eq by done].
  - intros n Hn. assert (n = ns) as -> by congruence. exists (filter (fun y => y <> e) (_edges ns)).
    rewrite Hnm by done. simpl. rewrite lookup_insert_ne by done. rewrite lookup_insert_eq. auto.
  - intros x. by rewrite lookup_delete_eq.
  - intros x. by rewrite lookup_delete_eq.
  - intros x Hx Hv. by rewrite (Hj x Hx) in Hv.
  - intros x Hx Hi. rewrite !lookup_delete_ne by done. by rewrite Eem.
  - intros q k Hk. unfold prefixes in *. rewrite lookup_fmap in Hk |- *. destruct (node_mem s' !! q) as [m|] eqn:Em; [|done].
    pose proof (lookup_weaken _ _ _ _ Em Hsub) as Em'. simpl in Em'. apply lookup_insert_Some in Em' as [[<- <-]|[_ Em']]; [by rewrite Hnd|].
    apply lookup_insert_Some in Em' as [[<- <-]|[_ Em']]; [by rewrite Hns|by rewrite Em'].
Qed.

(** ** Attached networks *)

Lemma with_nets_nets f F : nets (with_nets f F) = f (nets F).
Proof. done. Qed.

Lemma endpoint_remove_wp X Y F s a x n ep : rep X Y F s -> attachment_mem s !! a = Some x ->
  node_mem s !! a_src x = Some n -> endpoint_mem s !! a_dst x = Some ep ->
  wp (olsrv2_tc_endpoint_remove a) s (fun _ s' =>
    rep X Y (with_nets (fun N => N ∖ {[(node_key (prefixes (node_mem s)) (a_src x), prefix (ep_target ep))]}) F) s' /\
    node_mem s' = <[a_src x := with_attached (filter (fun y => y <> a) (_attached_networks n)) n]> (node_mem s) /\
    edge_mem s' = edge_mem s /\ attachment_mem s' = delete a (attachment_mem s) /\ timers s' = timers s /\
    forall q k, ep_prefixes (endpoint_mem s') !! q = Some k -> ep_prefixes (endpoint_mem s) !! q = Some k).
Proof.
  intros H Ha Hn Hq. pose proof (rep_net_unlink _ _ X Y F _ _ _ _ _ _ _ a x n ep H Ha Hn Hq) as Hu.
  assert (a ∈ _attached_networks n) as Hin by (apply (rep_attached_at _ _ _ _ _ _ _ _ _ _ _ _ _ H Hn); eauto).
  assert (a ∈ ep_attached_networks ep) as Hin'.
  { apply (in_list (nt_dst (r_nets H)) (a_dst x)); [by rewrite lookup_fmap, Hq|]. eauto. }
  unfold olsrv2_tc_endpoint_remove, call, avl_remove_attachment, avl_remove_endpoint_node, store_node, store_endpoint, free_endpoint, free_attachment.
  wp_steps. eapply wp_lift; [by apply removed_in|]. wp_steps. eapply wp_lift; [by apply removed_in|]. wp_steps.
  eapply wp_read; [simpl; by rewrite lookup_insert_eq|].
  assert (forall l, ep_prefixes (<[a_dst x := with_ep_attached l ep]> (endpoint_mem s)) = ep_prefixes (endpoint_mem s)) as EP by (intros l; by apply (ep_view_same _ _ _ ep)).
  destruct (bool_decide_reflect (length (ep_attached_networks (with_ep_attached (filter (fun y => y <> a) (ep_attached_networks ep)) ep)) = 0%nat)) as [E|E].
  - wp_steps. eapply wp_lift.
    { apply removed_in. apply (nt_tree (r_nets H)). eexists. by apply ep_prefixes_at. }
    wp_steps. split; [|split_and!; try done; intros q k Hk; unfold ep_prefixes in Hk; simpl in Hk; rewrite fmap_delete in Hk;
      apply lookup_delete_Some in Hk as [_ Hk]; by rewrite EP in Hk].
    eapply (rep_drop_endpoint _ _ _ _ _ _ _ _ _ _ _ _ (a_dst x)) in Hu; [|by rewrite lookup_insert_eq|by apply nil_length_inv].
    exact Hu.
  - wp_steps. split; [|split_and!; try done; intros q k Hk; simpl in Hk; by rewrite EP in Hk].
    eapply (rep_still_used _ _ _ _ _ _ _ _ _ _ _ _ (a_dst x)) in Hu; [|by rewrite lookup_insert_eq|by intros E'; apply E; rewrite E'].
    exact Hu.
Qed.

(** ** Nodes *)

(** Links and networks of a node that is removed. *)
Definition forget_links (a : netaddr) : gset (netaddr * netaddr) -> gset (netaddr * netaddr) := filter (fun l => l.1 <> a).
Definition forget_nets (a : netaddr) : gset (netaddr * os_route_key) -> gset (netaddr * os_route_key) := filter (fun l => l.1 <> a).

(** Facts that differ from [F] in what [a] announces. *)
Record less_links (a : netaddr) (F F' : facts) : Prop := {
  ll_valid : valid F' = valid F;
  ll_direct : direct F' = direct F;
  ll_nets : nets F' = nets F;
  ll_links x y : x <> a -> (x, y) ∈ links F' <-> (x, y) ∈ links F;
  ll_sub : links F' ⊆ links F;
}.

Record less_nets (a : netaddr) (F F' : facts) : Prop := {
  ln_valid : valid F' = valid F;
  ln_direct : direct F' = direct F;
  ln_links : links F' = links F;
  ln_nets x k : x <> a -> (x, k) ∈ nets F' <-> (x, k) ∈ nets F;
  ln_sub : nets F' ⊆ nets F;
}.

Lemma less_links_all a F F' : less_links a F F' -> (forall y, (a, y) ∉ links F') -> F' = with_links (forget_links a) F.
Proof.
  intros [E1 E2 E3 Hl Hs] Ha. destruct F as [v d l n], F' as [v' d' l' n']. simpl in *. subst. unfold with_links. simpl. f_equal.
  apply set_eq. intros [x y]. unfold forget_links. rewrite elem_of_filter. simpl. destruct (decide (x = a)) as [->|Hx]; [|rewrite Hl by done; tauto].
  split; [by intros ?%Ha|tauto].
Qed.

Lemma less_nets_all a F F' : less_nets a F F' -> (forall y, (a, y) ∉ nets F') -> F' = with_nets (forget_nets a) F.
Proof.
  intros [E1 E2 E3 Hl Hs] Ha. destruct F as [v d l n], F' as [v' d' l' n']. simpl in *. subst. unfold with_nets. simpl. f_equal.
  apply set_eq. intros [x y]. unfold forget_nets. rewrite elem_of_filter. simpl. destruct (decide (x = a)) as [->|Hx]; [|rewrite Hl by done; tauto].
  split; [by intros ?%Ha|tauto].
Qed.

Lemma less_links_step a F F1 nm ed : less_links a F F1 -> node_key (prefixes nm) (e_src ed) = a -> less_links a F (without_link nm ed F1).
Proof.
  clear random_u32 max_interval_range. intros [E1 E2 E3 El Esub] Ek. unfold without_link. destruct (virtual ed); [by split|]. split; try done; simpl; rewrite Ek.
  - intros x y Hx. rewrite elem_of_difference, elem_of_singleton, El by done. naive_solver.
  - set_solver.
Qed.

Lemma less_nets_step a F F1 k : less_nets a F F1 -> less_nets a F (with_nets (fun N => N ∖ {[(a, k)]}) F1).
Proof.
  clear random_u32 max_interval_range. intros [E1 E2 E3 El Esub]. split; try done; simpl.
  - intros y k' Hy. rewrite elem_of_difference, elem_of_singleton, El by done. naive_solver.
  - set_solver.
Qed.

(** The loop over the edges of [p] makes all of them virtual or removes them. *)
Lemma remove_edges_wp d X Y F s p n : rep ({[p]} ∪ X) ({[p]} ∪ Y) F s -> node_mem s !! p = Some n -> (forall q, q ∈ Y -> q = p) ->
  wp (for_each_safe (n <~ load node_mem p ;; ret (_edges n)) (fun edge => edge_remove (node_remove (S d)) edge ;;; ret tt)) s
    (fun _ s' => rep ({[p]} ∪ X) ({[p]} ∪ Y) (with_links (forget_links (rk_dst (prefix (n_target n)))) F) s' /\
      (exists l, node_mem s' !! p = Some (with_edges l n)) /\ forall e ed, edge_mem s' !! e = Some ed -> e_src ed = p -> virtual ed = true).
Proof.
  intros H Hn HY. set (a := rk_dst (prefix (n_target n))).
  set (I := fun (rest : list ptr) (s1 : tc_db) => exists F1 l pre, rep ({[p]} ∪ X) ({[p]} ∪ Y) F1 s1 /\ less_links a F F1 /\
    node_mem s1 !! p = Some (with_edges l n) /\ l = pre ++ rest /\
    forall e ed, e ∈ pre -> edge_mem s1 !! e = Some ed -> virtual ed = true).
  eapply (for_each_safe_wp I _ _ _ _ (_edges n)).
  - unfold bind, load. by rewrite Hn.
  - exists F, (_edges n), []. split; [done|]. split; [by split|]. split; [by rewrite with_edges_same|]. split; [done|].
    by intros e ed ?%elem_of_nil.
  - intros e rest s1 (F1 & l & pre & H1 & Hless & Hp & -> & Hpre).
    assert (NoDup (pre ++ e :: rest)) as Hnd.
    { pose proof (eo_strict (r_edges H1) p (pre ++ e :: rest)) as Hs. eapply (tree_strict_nodup _ avl_comp_netaddr). apply Hs.
      exact (view_at _edges _ _ _ Hp). }
    split; [exists pre; split; [unfold bind, load; by rewrite Hp|done]|].
    assert (e ∈ pre ++ e :: rest) as Hin by (rewrite elem_of_app; right; left).
    pose proof (proj1 (rep_edges_at _ _ _ _ _ _ _ _ _ _ _ _ _ H1 Hp e) Hin) as (ed & He & Es).
    destruct (eo_ends (r_edges H1) e ed He) as (_ & _ & Hne). unfold edge_remove, call. wp_steps.
    eapply wp_weaken.
    { eapply (remove_edge_wp d true ({[p]} ∪ X) ({[p]} ∪ Y) F1); [exact H1|exact He|]. rewrite elem_of_union, elem_of_singleton.
      intros [E|E]; [congruence|]. apply HY in E. congruence. }
    intros r s2 [H2 [Hsrc Hgone _ _ Hothers _ _ _ _]]. wp_steps.
    assert (node_key (prefixes (node_mem s1)) p = a) as Ek by (apply (node_key_at _ _ _ (prefixes_at _ _ _ Hp))).
    destruct (Hsrc (with_edges (pre ++ e :: rest) n)) as (l & Hl & Hcase); [simpl; by rewrite Es|]. rewrite Es in Hl.
    destruct (eo_pair (r_edges H1) e ed He) as [inv Hi].
    assert (forall x, x ∈ pre -> edge_mem s2 !! x = edge_mem s1 !! x) as Hsame.
    { intros x Hx. apply Hothers.
      - intros ->. apply NoDup_app in Hnd as (_ & Hd & _). apply (Hd e Hx). left.
      - intros ->. assert (inverse ed ∈ pre ++ e :: rest) as Hx' by (rewrite elem_of_app; by left).
        apply (rep_edges_at _ _ _ _ _ _ _ _ _ _ _ _ _ H1 Hp) in Hx' as (j & Hj & Ej).
        rewrite (pair_at Hi) in Hj. injection Hj as <-. rewrite (pair_src Hi) in Ej. congruence. }
    exists (without_link (node_mem s1) ed F1), l, (if decide (l = filter (fun y => y <> e) (pre ++ e :: rest)) then pre else pre ++ [e]).
    assert (filter (fun y => y <> e) (pre ++ e :: rest) = pre ++ rest) as Ef.
    { apply NoDup_app in Hnd as (_ & Hd & Hnd'). apply NoDup_cons in Hnd' as [Her _].
      rewrite filter_app, filter_cons_False by naive_solver. f_equal; apply filter_ne_id; [|done]. intros Hx. apply (Hd e Hx). left. }
    split; [|split; [|split; [|split]]].
    + eapply rep_excuse; [exact H2|set_solver|done].
    + apply less_links_step; [done|by rewrite Es].
    + rewrite Hl. by destruct n.
    + simpl in Hcase. destruct (decide _) as [->|Hd]; [by rewrite Ef|]. destruct Hcase as [-> | ->]; [by rewrite <- app_assoc|done].
    + intros x xd Hx. destruct (decide _) as [Hd|Hd]; [rewrite Hsame by done; by apply Hpre|].
      apply elem_of_app in Hx as [Hx| ->%list_elem_of_singleton]; [rewrite Hsame by done; by apply Hpre|apply Hgone].
  - intros s1 (F1 & l & pre & H1 & Hless & Hp & -> & Hpre).
    assert (forall e ed, edge_mem s1 !! e = Some ed -> e_src ed = p -> virtual ed = true) as Hv.
    { intros e ed He Es. apply (Hpre e); [|done]. assert (e ∈ pre ++ []) as Hin; [|by rewrite app_nil_r in Hin].
      apply (rep_edges_at _ _ _ _ _ _ _ _ _ _ _ _ _ H1 Hp e). eauto. }
    split; [|split; [eauto|done]]. erewrite <- (less_links_all a F F1); [exact H1|done|].
    intros y (e & ed & He & Hr & Es & _)%(sh_links (r_shows H1)). assert (e_src ed = p) as Esp.
    { destruct (eo_ends (r_edges H1) e ed He) as (HS & _). eapply node_key_inj; [apply (r_nodes H1)|done|eexists; by apply prefixes_at|].
      rewrite Es. symmetry. apply (node_key_at _ _ _ (prefixes_at _ _ _ Hp)). }
    rewrite (Hv e ed He Esp) in Hr. done.
Qed.

(** The loop over the attached networks of [p] removes all of them. *)
Lemma remove_nets_wp X Y F s p n : rep X Y F s -> node_mem s !! p = Some n ->
  wp (for_each_safe (n <~ load node_mem p ;; ret (_attached_networks n)) olsrv2_tc_endpoint_remove) s
    (fun _ s' => rep X Y (with_nets (forget_nets (rk_dst (prefix (n_target n)))) F) s' /\
      node_mem s' !! p = Some (with_attached [] n) /\ edge_mem s' = edge_mem s /\ timers s' = timers s /\
      forall a x, attachment_mem s' !! a = Some x -> a_src x <> p).
Proof.
  intros H Hn. set (o := rk_dst (prefix (n_target n))).
  set (I := fun (rest : list ptr) (s1 : tc_db) => exists F1, rep X Y F1 s1 /\ less_nets o F F1 /\
    node_mem s1 !! p = Some (with_attached rest n) /\ edge_mem s1 = edge_mem s /\ timers s1 = timers s).
  eapply (for_each_safe_wp I _ _ _ _ (_attached_networks n)).
  - unfold bind, load. by rewrite Hn.
  - exists F. split; [done|]. split; [by split|]. split; [by destruct n|done].
  - intros a rest s1 (F1 & H1 & Hless & Hp & Eem & Ets).
    assert (NoDup (a :: rest)) as Hnd.
    { eapply (tree_strict_nodup _ rt_cmp). apply (in_strict (nt_src (r_nets H1)) p). exact (view_at _attached_networks _ _ _ Hp). }
    split; [exists []; split; [unfold bind, load; by rewrite Hp|done]|].
    assert (a ∈ a :: rest) as Hin by left.
    apply (rep_attached_at _ _ _ _ _ _ _ _ _ _ _ _ _ H1 Hp a) in Hin as (x & Hx & Es).
    destruct (nt_ends (r_nets H1) a x Hx) as [_ [k Hk]]. unfold ep_prefixes in Hk. apply lookup_fmap_Some in Hk as (ep & <- & Hep).
    assert (node_key (prefixes (node_mem s1)) (a_src x) = o) as Ek by (rewrite Es; apply (node_key_at _ _ _ (prefixes_at _ _ _ Hp))).
    eapply wp_weaken; [eapply (endpoint_remove_wp X Y F1 s1 a x (with_attached (a :: rest) n) ep); [exact H1|exact Hx|by rewrite Es|exact Hep]|].
    intros [] s2 (H2 & Enm & Eem2 & _ & Ets2 & _). eexists. split; [exact H2|]. rewrite Ek, Enm, Es, Eem2, Ets2, lookup_insert_eq.
    split; [|split; [|done]].
    + by apply less_nets_step.
    + apply NoDup_cons in Hnd as [Ha _]. f_equal. destruct n. unfold with_attached. simpl. f_equal.
      rewrite filter_cons_False by naive_solver. by apply filter_ne_id.
  - intros s1 (F1 & H1 & Hless & Hp & Eem & Ets).
    assert (forall a x, attachment_mem s1 !! a = Some x -> a_src x <> p) as Hno.
    { intros a x Hx Es. assert (a ∈ []) as Hin; [|by apply elem_of_nil in Hin].
      apply (rep_attached_at _ _ _ _ _ _ _ _ _ _ _ _ _ H1 Hp a). eauto. }
    split; [|done]. erewrite <- (less_nets_all o F F1); [exact H1|done|].
    intros k (a & x & Hx & Es & _)%(sh_nets (r_shows H1)). apply (Hno a x Hx).
    destruct (nt_ends (r_nets H1) a x Hx) as [HS _]. eapply node_key_inj; [apply (r_nodes H1)|done|eexists; by apply prefixes_at|].
    rewrite Es. symmetry. apply (node_key_at _ _ _ (prefixes_at _ _ _ Hp)).
Qed.

(** What is left when the node with originator [a] is removed. *)
Definition forget (a : netaddr) (F : facts) : facts :=
  {| valid := valid F ∖ {[a]}; direct := direct F; links := forget_links a (links F); nets := forget_nets a (nets F) |}.

Lemma rep_unsource X Y u F nm em am epm tree etree ts p : rep_of X ({[p]} ∪ Y) u F nm em am epm tree etree ts ->
  (forall e ed, em !! e = Some ed -> e_src ed = p -> virtual ed = true) -> (forall a x, am !! a = Some x -> a_src x <> p) ->
  rep_of X Y u F nm em am epm tree etree ts.
Proof.
  intros H He Ha. split; try apply H. split.
  - intros e ed Hed Hv Hs. apply (so_edges (r_sources H) e ed Hed Hv). rewrite elem_of_union, elem_of_singleton.
    intros [E|E]; [rewrite (He e ed Hed E) in Hv; done|done].
  - intros a x Hx Hs. apply (so_nets (r_sources H) a x Hx). rewrite elem_of_union, elem_of_singleton. intros [E|E]; [by apply (Ha a x Hx)|done].
Qed.

Lemma node_remove_wp d F s p n : rep {[p]} {[p]} F s -> node_mem s !! p = Some n ->
  wp (node_remove (S (S d)) p) s (fun _ s' => rep ∅ ∅ (forget (rk_dst (prefix (n_target n))) F) s').
Proof.
  intros H Hn. set (a := rk_dst (prefix (n_target n))). cbn [node_remove]. unfold call. wp_steps.
  eapply wp_weaken. { eapply (remove_edges_wp d ∅ ∅ F); [eapply rep_excuse; [exact H|set_solver|set_solver]|exact Hn|set_solver]. }
  fold a. intros [] s1 (H1 & [l Hl] & Hvirt). wp_steps.
  eapply wp_weaken; [eapply remove_nets_wp; [exact H1|exact Hl]|]. cbn [n_target with_edges]. fold a.
  intros [] s2 (H2 & Hn2 & Eem & _ & Hno). wp_steps.
  eapply tc_timer_stop_wp; [apply (r_timers H2)|eexists; by apply prefixes_at|]. intros ts' (Hts & Ho & Ha & _). wp_steps.
  pose proof (rep_timer _ _ _ _ _ _ _ _ _ _ _ _ _ ts' p _ H2 Hn2 Hts Ho) as H3. rewrite Ha in H3.
  specialize (H3 ltac:(intros _ _; set_solver)). cbn [n_target with_attached with_edges] in H3. fold a in H3. cbv zeta in H3.
  assert (with_valid (fun v => v ∖ {[a]}) (with_nets (forget_nets a) (with_links (forget_links a) F)) = forget a F) as EF by done.
  rewrite EF in H3. apply rep_unsource in H3; [|by rewrite Eem|done].
  cbn [direct_neighbor with_attached with_edges _edges].
  destruct (bool_decide_reflect (length l = 0%nat)) as [El|El]; cbn [andb]; [destruct (direct_neighbor n) eqn:Ed; cbn [negb]|].
  - wp_steps. eapply rep_excuse; [eapply (rep_reason _ _ _ _ _ _ _ _ _ _ _ _ _ p _ H3 Hn2); by right; right|set_solver|set_solver].
  - unfold avl_remove_node, free_node. wp_steps. eapply wp_lift.
    { apply removed_in. apply (r_nodes H3). eexists. by apply prefixes_at. }
    wp_steps. destruct (to_timer Hts p) as (i & Hi & _); [eexists; by apply prefixes_at|].
    eapply rep_excuse; [eapply (rep_drop_node _ _ _ _ _ _ _ _ _ _ _ _ _ p _ H3 Hn2); try done|set_solver|set_solver].
    + by apply nil_length_inv.
    + eapply validity_free; [done|apply max_interval_range|apply (to_wf Hts)|exact Hi|].
      unfold is_active in Ha. rewrite Hi in Ha. unfold oonf_timer_is_active in Ha. by apply negb_false_iff, Z.eqb_eq in Ha.
  - wp_steps. eapply rep_excuse; [eapply (rep_reason _ _ _ _ _ _ _ _ _ _ _ _ _ p _ H3 Hn2); right; left|set_solver|set_solver].
    cbn. by intros ->.
Qed.
End remove.
