(* ===== verification/TcRefine.v ===== *)
(** The topology database of src/olsrv2/olsrv2/olsrv2_tc.c as a set of facts:
    every operation ends without touching freed memory, keeps the database
    consistent and does to the facts it shows what its name says. *)

From Stdlib Require Import ZArith Lia Sorted.
From stdpp Require Import base list numbers option gmap sets.
From S2P Require Import Prelude AvlSpec StateMonad Netaddr MprSelection NhdpDb RoutingSet Timer ValidityTimer TcDatabase TcInvariant TcNets TcFacts TcRemove.

Local Open Scope Z_scope.
Local Open Scope state_scope.

Section refine.
Context (os_core_get_random : nat -> option Z) (random_u32 : forall n r, os_core_get_random n = Some r -> 0 <= r <= UINT32_MAX).
Context (max_interval : Z) (max_interval_range : 0 <= max_interval <= 2 ^ 56).
Context (_validity_info : positive).
(** The allocator hands out addresses that are not in use. *)
Context (malloc : gset ptr -> nat -> option ptr) (malloc_fresh : forall in_use k p, malloc in_use k = Some p -> p ∉ in_use).

#[local] Notation rep := (rep _validity_info max_interval).
#[local] Notation rep_of := (rep_of _validity_info max_interval).
#[local] Notation timers_ok := (timers_ok _validity_info max_interval).
#[local] Notation node_add := (olsrv2_tc_node_add os_core_get_random _validity_info malloc).
#[local] Notation edge_add := (olsrv2_tc_edge_add os_core_get_random _validity_info malloc).
#[local] Notation endpoint_add := (olsrv2_tc_endpoint_add malloc).

(** There was no memory. *)
Definition out_of_memory : Prop := exists in_use k, malloc in_use k = None.

(** The database with other edges: while an edge is added its memory is in use,
    but it is no part of the topology yet. *)
Definition rep_with (em : edge_map) (X Y : gset ptr) (F : facts) (s : tc_db) : Prop :=
  rep_of X Y None F (node_mem s) em (attachment_mem s) (endpoint_mem s) (_tc_tree s) (_tc_endpoint_tree s) (timers s).

(** ** Lookups *)

Lemma node_get_wp em X Y F s a (Q : option ptr -> tc_db -> Prop) : rep_with em X Y F s ->
  (forall p n, node_mem s !! p = Some n -> rk_dst (prefix (n_target n)) = a -> Q (Some p) s) ->
  ((forall q, is_Some (prefixes (node_mem s) !! q) -> node_key (prefixes (node_mem s)) q <> a) -> Q None s) ->
  wp (olsrv2_tc_node_get a) s Q.
Proof.
  intros H HS HN. unfold olsrv2_tc_node_get. wp_steps.
  destruct (tree_find _ _ a (_tc_tree s)) as [p|] eqn:E; apply (nodes_find _ _ a _ (r_nodes H)) in E.
  - destruct E as [Hp Ek]. destruct (rep_node_at _ _ _ _ _ _ _ _ _ _ _ _ _ _ H Hp) as [n Hn].
    apply (HS p n Hn). rewrite (node_key_at _ _ _ (prefixes_at _ _ _ Hn)) in Ek. done.
  - by apply HN.
Qed.

(** A found node is the only one of its originator. *)
Lemma node_known em X Y F s p n : rep_with em X Y F s -> node_mem s !! p = Some n ->
  forall q m, node_mem s !! q = Some m -> rk_dst (prefix (n_target m)) = rk_dst (prefix (n_target n)) -> q = p.
Proof.
  intros H Hn q m Hm E. eapply node_key_inj; [apply (r_nodes H)|eexists; by apply prefixes_at|eexists; by apply prefixes_at|].
  by rewrite (node_key_at _ _ _ (prefixes_at _ _ _ Hn)), (node_key_at _ _ _ (prefixes_at _ _ _ Hm)).
Qed.

(** ** Nodes *)

Definition extend_valid (a : netaddr) (vtime : Z) (F : facts) : facts :=
  with_valid (fun v => if vtime =? 0 then v ∖ {[a]} else {[a]} ∪ v) F.

(** What [olsrv2_tc_node_add] leaves alone. *)
Record node_added (p : ptr) (s s' : tc_db) : Prop := {
  na_edges : edge_mem s' = edge_mem s;
  na_attachments : attachment_mem s' = attachment_mem s;
  na_endpoints : endpoint_mem s' = endpoint_mem s;
  na_others q : q <> p -> node_mem s' !! q = node_mem s !! q;
  na_active q : q <> p -> is_active (timers s') q = is_active (timers s) q;
}.

(** The last step of adding a node: its timer. *)
Lemma set_validity_wp em X Y F s p n vtime (Q : unit -> tc_db -> Prop) : rep_with em X Y F s -> node_mem s !! p = Some n -> 0 <= vtime <= max_interval ->
  (vtime = 0 -> is_active (timers s) p = true -> p ∈ X /\ p ∈ Y) ->
  (forall s', rep_with em X Y (extend_valid (rk_dst (prefix (n_target n))) vtime F) s' -> node_mem s' = node_mem s -> node_added p s s' ->
    is_active (timers s') p = negb (vtime =? 0) -> Q tt s') ->
  wp (timer_set os_core_get_random p vtime) s Q.
Proof.
  intros H Hn Hv Hx HQ. eapply tc_timer_set_wp; [exact random_u32|exact max_interval_range|apply (r_timers H)|eexists; by apply prefixes_at|exact Hv|].
  intros ts' (Hts & Ho & Ha & _). apply HQ; [|done|by split|done].
  pose proof (rep_timer _ _ _ _ _ _ _ _ _ _ _ _ _ ts' p n H Hn Hts Ho) as H3. rewrite Ha in H3.
  unfold extend_valid. destruct (Z.eqb_spec vtime 0) as [E|E]; cbn [negb] in H3; apply H3; [by intros _ ?; apply Hx|done].
Qed.

Lemma node_new_wp em X Y F s a vtime ansn (Q : option ptr -> tc_db -> Prop) : rep_with em X Y F s ->
  (forall q, is_Some (prefixes (node_mem s) !! q) -> node_key (prefixes (node_mem s)) q <> a) -> 0 <= vtime <= max_interval ->
  (forall s', out_of_memory -> rep_with em X Y F s' -> node_mem s' = node_mem s -> edge_mem s' = edge_mem s -> timers s' = timers s -> Q None s') ->
  (forall p s', rep_with em ({[p]} ∪ X) Y (extend_valid a vtime F) s' -> node_mem s !! p = None -> node_mem s' !! p = Some (new_node p a ansn) ->
    node_added p s s' -> is_active (timers s') p = negb (vtime =? 0) -> Q (Some p) s') ->
  wp (node_add a vtime ansn) s Q.
Proof.
  intros H Hnew Hv HN HS. unfold olsrv2_tc_node_add. apply wp_seq. eapply node_get_wp; [exact H|..].
  { intros p n Hn E. exfalso. apply (Hnew p); [eexists; by apply prefixes_at|]. by rewrite (node_key_at _ _ _ (prefixes_at _ _ _ Hn)). }
  intros _. unfold oonf_class_malloc. do 2 apply wp_seq. eapply wp_eq; [reflexivity|].
  destruct (malloc (node_addresses s) (mallocs s)) as [p|] eqn:Em.
  2: { wp_steps. apply HN; [by do 2 eexists|done..]. }
  apply malloc_fresh in Em. unfold node_addresses in Em. rewrite not_elem_of_union, !not_elem_of_dom in Em. destruct Em as [Hp Ht].
  unfold store_node, avl_insert_node, call. wp_steps. set (s1 := add_call _ _).
  assert (rep_with em ({[p]} ∪ X) Y F s1) as H1.
  { apply rep_new_node; [exact H|done| |done|done]. intros t Hto Hnone. destruct (to_class Hto) as (k & Hk & Hper). split.
    - apply (validity_alloc os_core_get_random random_u32 max_interval max_interval_range); [apply (to_wf Hto)|done|by exists k].
    - by exists k.
    - intros q Hq. destruct (to_timer Hto q Hq) as (i & Hi & ?). exists i. simpl. rewrite lookup_insert_ne by congruence. done. }
  assert (node_mem s1 !! p = Some (new_node p a ansn)) as Hp1 by (simpl; by rewrite lookup_insert_eq).
  assert (forall q, q <> p -> is_active (timers s1) q = is_active (timers s) q) as Hact.
  { intros q Hq. simpl. rewrite (is_active_insert (timers s) _ p (cleared_timer _validity_info)) by done. by rewrite decide_False. }
  eapply set_validity_wp; [exact H1|exact Hp1|exact Hv|..].
  - intros _ E. simpl in E. rewrite (is_active_insert (timers s) _ p (cleared_timer _validity_info)) in E by done. by rewrite decide_True in E.
  - intros s' H' Enm [A1 A2 A3 A4 A5] Ha. wp_steps. apply HS; [exact H'|done|by rewrite Enm| |exact Ha]. split; [done..| |].
    + intros q Hq. rewrite A4 by done. simpl. by rewrite lookup_insert_ne.
    + intros q Hq. rewrite A5 by done. by apply Hact.
Qed.

Lemma node_known_wp em X Y F s p n vtime ansn (Q : option ptr -> tc_db -> Prop) : rep_with em X Y F s -> node_mem s !! p = Some n -> 0 <= vtime <= max_interval ->
  (vtime = 0 -> is_active (timers s) p = true -> p ∈ X /\ p ∈ Y) ->
  (forall s', rep_with em X Y (extend_valid (rk_dst (prefix (n_target n))) vtime F) s' ->
    node_mem s' !! p = Some (if is_active (timers s) p then n else with_ansn ansn n) -> node_added p s s' ->
    is_active (timers s') p = negb (vtime =? 0) -> Q (Some p) s') ->
  wp (node_add (rk_dst (prefix (n_target n))) vtime ansn) s Q.
Proof.
  intros H Hn Hv Hx HQ. unfold olsrv2_tc_node_add. apply wp_seq. eapply node_get_wp; [exact H|..].
  2: { intros Hno. exfalso. apply (Hno p); [eexists; by apply prefixes_at|]. by apply node_key_at, prefixes_at. }
  intros q m Hm E. assert (q = p) as -> by (by eapply (node_known em X Y F s p n)). assert (m = n) as -> by congruence. clear E Hm.
  do 2 apply wp_seq. eapply node_virtual_wp; [apply (r_timers H)|eexists; by apply prefixes_at|].
  destruct (is_active (timers s) p) eqn:Ea; cbn [negb].
  - wp_steps. eapply set_validity_wp; [exact H|exact Hn|exact Hv|by intros ? _; apply Hx|]. intros s' H' Enm Had Ha. wp_steps. apply HQ; [done|by rewrite Enm|done|done].
  - unfold store_node, call. wp_steps.
    eapply (set_validity_wp em X Y F _ p (with_ansn ansn n)); [|simpl; by rewrite lookup_insert_eq|exact Hv|simpl; by rewrite Ea|].
    { by eapply rep_node_same. }
    intros s' H' Enm [A1 A2 A3 A4 A5] Ha. wp_steps. apply HQ; [done|rewrite Enm; simpl; by rewrite lookup_insert_eq| |done].
    split; [done..| |done]. intros q Hq. rewrite A4 by done. simpl. by rewrite lookup_insert_ne.
Qed.

(** ** Edges *)

(** The edge that [olsrv2_tc_edge_add] returns: announced by [p], with no metrics. *)
Definition fresh_edge (p : ptr) (b : netaddr) (e : ptr) (s : tc_db) : Prop := exists ed, edge_mem s !! e = Some ed /\
  e_src ed = p /\ node_key (prefixes (node_mem s)) (e_dst ed) = b /\ virtual ed = false /\ e_cost ed = infinite_costs.

(** What adding an edge of [p] leaves alone: everything but this edge and an inverse
    that belongs to another node. *)
Record edge_added (p e : ptr) (s s' : tc_db) : Prop := {
  ea_attachments : attachment_mem s' = attachment_mem s;
  ea_endpoints : endpoint_mem s' = endpoint_mem s;
  ea_node n : node_mem s !! p = Some n -> exists l, node_mem s' !! p = Some (with_edges l n);
  ea_old x d : x <> e -> edge_mem s !! x = Some d -> edge_mem s' !! x = Some d;
  ea_own x d : x <> e -> edge_mem s' !! x = Some d -> e_src d = p -> edge_mem s !! x = Some d;
  ea_prefixes q k : prefixes (node_mem s) !! q = Some k -> prefixes (node_mem s') !! q = Some k;
  ea_dst d : edge_mem s !! e = Some d -> exists d', edge_mem s' !! e = Some d' /\ e_src d' = e_src d /\ e_dst d' = e_dst d;
  ea_new x d : x <> e -> edge_mem s' !! x = Some d -> edge_mem s !! x = Some d \/ virtual d = true /\ e_dst d = p /\ inverse d = e;
}.

Lemma extend_valid_unknown P D em am EP act F a : shows F P D em am EP act -> (forall q, is_Some (P !! q) -> node_key P q <> a) ->
  extend_valid a 0 F = F.
Proof.
  intros H Ha. unfold extend_valid, with_valid. simpl. assert (a ∉ valid F) as Hn.
  { intros (q & Hq & E & _)%(sh_valid H). by apply (Ha q). }
  destruct F as [v d l k]. simpl in *. f_equal. apply set_eq. intros x. set_solver.
Qed.

(** The memory behind a new pair of edges between [p] and [q]. *)
Record linked_pair (p q e i : ptr) (n m : olsrv2_tc_node) (em : edge_map) (s s' : tc_db) : Prop := {
  lp_attachments : attachment_mem s' = attachment_mem s;
  lp_endpoints : endpoint_mem s' = endpoint_mem s;
  lp_edges : edge_mem s' = <[i := new_edge q p e true]> (<[e := new_edge p q i false]> em);
  lp_nodes : exists l l', node_mem s' = <[q := with_edges l' m]> (<[p := with_edges l n]> (node_mem s));
}.

Lemma linked_pair_added p q e i n m em s0 s s' : linked_pair p q e i n m em s s' -> p <> q -> em !! e = None -> em !! i = None ->
  edge_mem s0 = em -> node_mem s0 !! p = Some n -> node_mem s !! q = Some m -> node_mem s0 ⊆ node_mem s ->
  attachment_mem s = attachment_mem s0 -> endpoint_mem s = endpoint_mem s0 -> edge_added p e s0 s'.
Proof.
  intros [L1 L2 L3 (l & l' & L4)] Hpq He Hi Eem Hn Hm Hsub Ea Ep. split; rewrite ?L1, ?L2, ?L3, ?L4, ?Eem; [done|done|..].
  - intros n0 Hn0. assert (n0 = n) as -> by congruence. exists l. rewrite lookup_insert_ne by done. by rewrite lookup_insert_eq.
  - intros x d Hx Hd. rewrite !lookup_insert_ne by congruence. done.
  - intros x d Hx Hd Es. rewrite lookup_insert_Some in Hd. destruct Hd as [[<- <-]|[_ Hd]]; [simpl in Es; congruence|].
    by rewrite lookup_insert_ne in Hd.
  - intros x k Hk. unfold prefixes in *. rewrite lookup_fmap in Hk |- *. destruct (node_mem s0 !! x) as [y|] eqn:Ey; [|done].
    pose proof (lookup_weaken _ _ _ _ Ey Hsub) as Ey'. destruct (decide (x = q)) as [->|Hxq]; [rewrite lookup_insert_eq; by assert (y = m) as -> by congruence|].
    rewrite lookup_insert_ne by done. destruct (decide (x = p)) as [->|Hxp]; [rewrite lookup_insert_eq; by assert (y = n) as -> by congruence|].
    rewrite lookup_insert_ne by done. by rewrite Ey'.
  - intros d Hd. congruence.
  - intros x d Hx Hd. rewrite lookup_insert_Some in Hd. destruct Hd as [[<- <-]|[_ Hd]]; [by right|].
    left. by rewrite lookup_insert_ne in Hd.
Qed.

(** The two new edges are linked to the nodes. *)
Lemma link_wp X Y F s em p q n m e i (Q : option ptr -> tc_db -> Prop) : rep_with em X Y F s ->
  node_mem s !! p = Some n -> node_mem s !! q = Some m -> p <> q -> e <> i -> em !! e = None -> em !! i = None ->
  edge_mem s = <[i := new_edge p p e true]> (<[e := new_edge p p e false]> em) ->
  (forall x, x ∈ _edges n -> edge_key (prefixes (node_mem s)) em x <> node_key (prefixes (node_mem s)) q) -> is_active (timers s) p = true ->
  (forall s', rep (X ∖ {[p; q]}) Y (with_links (fun L => {[(node_key (prefixes (node_mem s)) p, node_key (prefixes (node_mem s)) q)]} ∪ L) F) s' ->
    fresh_edge p (node_key (prefixes (node_mem s)) q) e s' -> timers s' = timers s -> linked_pair p q e i n m em s s' -> Q (Some e) s') ->
  wp (store_edge e (new_edge p q i false) ;;; avl_insert_edge p e ;;; store_edge i (new_edge q p e true) ;;; avl_insert_edge q i ;;;
      call (Edge_event e OONF_OBJECT_ADDED) ;;; ret (Some e)) s Q.
Proof.
  intros H Hn Hm Hpq Hei He Hi Eem Hnew Hact HQ.
  pose proof (rep_link _ _ X Y None F _ _ _ _ _ _ _ p q e i n m H Hn Hm Hpq Hei He Hi Hnew (or_introl Hact)) as Hl. cbv zeta in Hl.
  set (em' := <[i := new_edge q p e true]> (<[e := new_edge p q i false]> em)) in Hl.
  assert (prefixes (<[p := with_edges (inserted (edge_key (prefixes (node_mem s)) em') avl_comp_netaddr e (_edges n)) n]> (node_mem s)) = prefixes (node_mem s)) as EP1.
  { by apply (view_same _ _ _ n). }
  assert (forall x, x ∈ _edges n -> x <> e /\ x <> i) as Hxn.
  { intros x Hx. apply (rep_edges_at _ _ _ _ _ _ _ _ _ _ _ _ _ _ _ H Hn) in Hx as (d & Hd & _). split; intros ->; congruence. }
  assert (inserted (edge_key (prefixes (node_mem s)) (<[e := new_edge p q i false]> (edge_mem s))) avl_comp_netaddr e (_edges n) =
    inserted (edge_key (prefixes (node_mem s)) em') avl_comp_netaddr e (_edges n)) as Eins.
  { apply inserted_ext. intros y Hy. unfold edge_key, em'. rewrite Eem. destruct (decide (y = e)) as [->|Hye].
    - rewrite lookup_insert_eq, lookup_insert_ne by done. by rewrite lookup_insert_eq.
    - apply elem_of_cons in Hy as [?|Hy]; [done|]. destruct (Hxn y Hy). by rewrite !lookup_insert_ne. }
  assert (<[i := new_edge q p e true]> (<[e := new_edge p q i false]> (edge_mem s)) = em') as Eem'.
  { unfold em'. rewrite Eem. apply map_eq. intros x. destruct (decide (x = i)) as [->|]; [by rewrite !lookup_insert_eq|].
    rewrite !(lookup_insert_ne _ i) by done. destruct (decide (x = e)) as [->|]; [by rewrite !lookup_insert_eq|].
    by rewrite !lookup_insert_ne. }
  unfold avl_insert_edge, store_edge, store_node, call. wp_steps. simpl. rewrite Eins.
  eapply wp_read; [simpl; rewrite lookup_insert_ne by done; exact Hm|]. wp_steps. simpl. rewrite EP1, Eem'. apply HQ; [unfold TcFacts.rep; simpl; rewrite Eem'; exact Hl| |done|split; simpl; [done|done|done|eauto]].
  exists (new_edge p q i false). simpl. rewrite lookup_insert_ne by done. rewrite lookup_insert_eq. split; [done|].
  split; [done|]. split; [|done]. simpl. unfold prefixes in *. erewrite view_same; [|rewrite lookup_insert_ne by done; exact Hm|done]. by rewrite EP1.
Qed.

Lemma edge_add_wp F s p n b : rep ∅ ∅ F s -> node_mem s !! p = Some n -> is_active (timers s) p = true ->
  b <> rk_dst (prefix (n_target n)) ->
  wp (edge_add p b) s (fun o s' =>
    match o with
    | None => out_of_memory /\ rep ∅ ∅ F s'
    | Some e => rep ∅ ∅ (with_links (fun L => {[(rk_dst (prefix (n_target n)), b)]} ∪ L) F) s' /\ fresh_edge p b e s' /\ edge_added p e s s'
    end /\ is_active (timers s') p = true).
Proof.
  intros H Hn Hact Hb. set (a := rk_dst (prefix (n_target n))) in *. set (P := prefixes (node_mem s)).
  assert (node_key P p = a) as Ek by (by apply node_key_at, prefixes_at).
  assert (tree_strict (edge_key P (edge_mem s)) avl_comp_netaddr (_edges n)) as Hs by (apply (eo_strict (r_edges H) p); by apply view_at).
  unfold olsrv2_tc_edge_add. wp_steps. fold P.
  destruct (tree_find (edge_key P (edge_mem s)) avl_comp_netaddr b (_edges n)) as [e|] eqn:Ef.
  { apply (tree_find_spec _ _ b _ (Some e) Hs) in Ef as [Hin Ekey%netaddr_cmp_eq].
    apply (rep_edges_at _ _ _ _ _ _ _ _ _ _ _ _ _ _ _ H Hn) in Hin as (ed & He & Es).
    rewrite (edge_key_at _ _ _ _ He) in Ekey. unfold store_edge, call. wp_steps.
    pose proof (rep_edge _ _ _ _ _ _ _ _ _ _ _ _ _ e ed (with_cost infinite_costs (with_virtual false ed)) H He eq_refl eq_refl eq_refl
      infinite_costs_ok (or_introl eq_refl)) as Hr. simpl in Hr. fold P in Hr. rewrite Es, Ek, <- Ekey in Hr.
    split; [|done]. split; [apply Hr; by left|]. split; [eexists; simpl; by rewrite lookup_insert_eq|].
    split; simpl; [done|done|intros n0 Hn0; exists (_edges n0); by rewrite with_edges_same|..|done| |];
      [intros x d Hx; by rewrite lookup_insert_ne..|intros d Hd; assert (d = ed) as -> by congruence; eexists; by rewrite lookup_insert_eq|
       intros x d Hx; rewrite lookup_insert_ne by done; by left]. }
  pose proof (proj1 (tree_find_spec _ _ b _ None Hs) Ef) as Hfree.
  assert (forall q, node_key P q = b -> forall x, x ∈ _edges n -> edge_key P (edge_mem s) x <> node_key P q) as Hnew.
  { intros q Eq x Hx E. apply (Hfree x Hx). apply netaddr_cmp_eq. congruence. }
  unfold oonf_class_malloc, edge_addresses. apply wp_seq. eapply wp_eq; [reflexivity|].
  destruct (malloc _ (mallocs s)) as [e|] eqn:Em1; [|wp_steps; split; [split; [by do 2 eexists|exact H]|exact Hact]]. apply malloc_fresh, not_elem_of_dom in Em1 as He.
  unfold store_edge, free_edge. wp_steps. eapply wp_eq; [reflexivity|]. destruct (malloc _ (mallocs _)) as [i|] eqn:Em2.
  2: { wp_steps. split; [|done]. split; [by do 2 eexists|]. unfold rep. simpl. by rewrite delete_insert_id. }
  pose proof (malloc_fresh _ _ _ Em2) as Hi. simpl in Hi. rewrite not_elem_of_dom in Hi. rewrite lookup_insert_None in Hi. destruct Hi as [Hi Hei].
  wp_steps. set (s1 := set_edge_mem _ _). assert (rep_with (edge_mem s) ∅ ∅ F s1) as H1 by exact H.
  eapply node_get_wp; [exact H1|..].
  - intros q m Hm Eq. apply wp_seq, wp_return. assert (node_key P q = b) as Ekq by (rewrite <- Eq; by apply node_key_at, prefixes_at).
    eapply (link_wp _ _ _ s1 (edge_mem s) p q n m e i); [exact H1|exact Hn|exact Hm|congruence|done|done|done|done|by apply Hnew|done|].
    intros s' H' Hf Et Hlp. change (prefixes (node_mem s1)) with P in *. rewrite Ek, Ekq in *. split; [|by rewrite Et].
    split; [eapply rep_excuse; [exact H'|set_solver|done]|]. split; [done|].
    by eapply (linked_pair_added _ _ _ _ _ _ _ s); [exact Hlp|congruence|..].
  - intros Hno. assert (0 <= 0 <= max_interval) as Hv by lia.
    apply wp_seq. eapply (node_new_wp (edge_mem s)); [exact H1|exact Hno|exact Hv|..].
    + intros s' Hoom H' _ Eem Ets. wp_steps. split; [|simpl; rewrite Ets; exact Hact]. split; [done|]. unfold rep. simpl. rewrite Eem. simpl.
      rewrite delete_insert_ne by done. rewrite delete_insert_eq, delete_insert_id by (by rewrite lookup_delete_eq || done).
      rewrite delete_id by done. exact H'.
    + intros q s' H' Hq0 Hq [A1 A2 A3 A4 A5] _. rewrite (extend_valid_unknown _ _ _ _ _ _ F b (r_shows H1) Hno) in H'.
      assert (q <> p) as Hqp by (intros ->; simpl in Hq0; congruence).
      assert (node_mem s' !! p = Some n) as Hp' by (by rewrite A4).
      assert (node_key (prefixes (node_mem s')) q = b) as Ekq by (by rewrite (node_key_at _ _ _ (prefixes_at _ _ _ Hq))).
      assert (node_key (prefixes (node_mem s')) p = a) as Ekp by (by apply node_key_at, prefixes_at).
      assert (is_active (timers s') p = true) as Hact' by (by rewrite A5).
      eapply (link_wp _ _ _ s' (edge_mem s) p q n _ e i); [exact H'|exact Hp'|exact Hq|done|done|done|done|by rewrite A1| |done|].
      * intros x Hx. rewrite Ekq. intros Ex. apply (rep_edges_at _ _ _ _ _ _ _ _ _ _ _ _ _ _ _ H Hn) in Hx as (d & Hd & _).
        destruct (eo_ends (r_edges H) x d Hd) as (_ & Hdd & _).
        assert (e_dst d <> q). { intros E. rewrite E in Hdd. destruct Hdd as [k Hk]. unfold prefixes in Hk. simpl in Hq0. rewrite lookup_fmap, Hq0 in Hk. done. }
        rewrite (edge_key_at _ _ _ _ Hd) in Ex. apply (Hno (e_dst d)); [exact Hdd|]. rewrite <- Ex. unfold node_key, prefix_at, prefixes.
        by rewrite !lookup_fmap, A4.
      * intros s2 H2 Hf Et Hlp. rewrite Ekp, Ekq in *. split; [|by rewrite Et]. split; [eapply rep_excuse; [exact H2|set_solver|done]|]. split; [done|].
        eapply (linked_pair_added _ _ _ _ _ _ _ s); [exact Hlp|congruence|done..|exact Hn|exact Hq| |by rewrite A2|by rewrite A3].
        apply map_subseteq_spec. intros x y Hy. rewrite A4; [done|]. intros ->. simpl in Hq0. congruence.
Qed.

(** Validity is a fact. *)
Lemma active_valid X Y u F nm em am epm tree etree ts p n : rep_of X Y u F nm em am epm tree etree ts -> nm !! p = Some n ->
  is_active ts p = true <-> rk_dst (prefix (n_target n)) ∈ valid F.
Proof.
  intros H Hn. assert (is_Some (prefixes nm !! p)) as Hp by (eexists; by apply prefixes_at).
  rewrite (sh_valid (r_shows H)). split.
  - intros Ha. exists p. split; [done|]. split; [by apply node_key_at, prefixes_at|done].
  - intros (q & Hq & E & Ha). assert (q = p) as ->; [|done]. eapply node_key_inj; [apply (r_nodes H)|done|done|].
    rewrite E. symmetry. by apply node_key_at, prefixes_at.
Qed.

Lemma edge_remove_wp F s e ed : rep ∅ ∅ F s -> edge_mem s !! e = Some ed ->
  wp (olsrv2_tc_edge_remove e) s (fun _ s' => rep ∅ ∅ (without_link (node_mem s) ed F) s' /\ edge_removed e ed s s').
Proof.
  intros H He. unfold olsrv2_tc_edge_remove, edge_remove, call. wp_steps. destruct (virtual ed) eqn:Ev.
  { unfold _remove_edge, without_link. wp_steps. rewrite Ev. wp_steps. split; [done|]. split; simpl; [|congruence|congruence|done..].
    intros n Hn. exists (_edges n). rewrite with_edges_same. auto. }
  destruct (eo_ends (r_edges H) e ed He) as (HS & _). destruct (rep_node_at _ _ _ _ _ _ _ _ _ _ _ _ _ _ H HS) as [n Hn].
  pose proof (so_edges (r_sources H) e ed He Ev ltac:(set_solver)) as Hact.
  eapply wp_weaken; [eapply (remove_edge_wp os_core_get_random random_u32 max_interval max_interval_range _ 0 true ∅ ∅ F); [exact H|exact He|set_solver]|].
  intros r s' [H' Her]. destruct (er_src _ _ _ _ Her n Hn) as (l & Hl & _). split; [|by destruct Her].
  eapply rep_excuse; [eapply (rep_reason _ _ _ _ _ _ _ _ _ _ _ _ _ _ _ H' Hl)|set_solver|done].
  left. apply (active_valid _ _ _ _ _ _ _ _ _ _ _ _ _ H' Hl). simpl.
  apply (active_valid _ _ _ _ _ _ _ _ _ _ _ _ _ H Hn) in Hact. unfold without_link. by rewrite Ev.
Qed.

(** ** Attached networks *)

Definition fresh_attachment (p q : ptr) : olsrv2_tc_attachment :=
  {| a_src := p; a_dst := q; a_cost := infinite_costs; a_distance := repeat 0 NHDP_MAXIMUM_DOMAINS; a_ansn := 0 |}.

(** The attachment that [olsrv2_tc_endpoint_add] returns: of [p], with prefix [k]. *)
Definition attached (p : ptr) (k : os_route_key) (a : ptr) (s : tc_db) : Prop := exists x,
  attachment_mem s !! a = Some x /\ a_src x = p /\ prefix_at (ep_prefixes (endpoint_mem s)) (a_dst x) = k.

(** What adding a network of [p] leaves alone: everything but this attachment. *)
Record net_added (p a : ptr) (s s' : tc_db) : Prop := {
  nd_edges : edge_mem s' = edge_mem s;
  nd_node n : node_mem s !! p = Some n -> exists l, node_mem s' !! p = Some (with_attached l n);
  nd_others x : x <> a -> attachment_mem s' !! x = attachment_mem s !! x;
  nd_prefixes : prefixes (node_mem s') = prefixes (node_mem s);
  nd_endpoints q k : ep_prefixes (endpoint_mem s) !! q = Some k -> ep_prefixes (endpoint_mem s') !! q = Some k;
  nd_known x : attachment_mem s !! a = Some x -> attachment_mem s' !! a = Some x;
  nd_fresh : attachment_mem s !! a = None -> exists q, attachment_mem s' !! a = Some (fresh_attachment p q);
}.

Lemma net_added_from p a s0 s s' : net_added p a s s' -> edge_mem s = edge_mem s0 -> node_mem s = node_mem s0 -> attachment_mem s = attachment_mem s0 ->
  ep_prefixes (endpoint_mem s0) ⊆ ep_prefixes (endpoint_mem s) -> net_added p a s0 s'.
Proof.
  intros [N1 N2 N3 N4 N5 N6 N7] E1 E2 E3 Hsub. split; rewrite <- ?E1, <- ?E2, <- ?E3; [done..| |done|done].
  intros q k Hk. apply N5. by eapply lookup_weaken.
Qed.

Lemma with_attached_same n : with_attached (_attached_networks n) n = n.
Proof. by destruct n. Qed.

(** The new attachment is linked to its node and its endpoint. *)
Lemma attach_wp F s p n q ep a u (Q : option ptr -> tc_db -> Prop) :
  rep_of ∅ ∅ u F (node_mem s) (edge_mem s) (attachment_mem s) (endpoint_mem s) (_tc_tree s) (_tc_endpoint_tree s) (timers s) ->
  u = None \/ u = Some q -> node_mem s !! p = Some n -> is_active (timers s) p = true -> endpoint_mem s !! q = Some ep ->
  attachment_mem s !! a = None ->
  (forall y, y ∈ _attached_networks n -> src_key (ep_prefixes (endpoint_mem s)) (attachment_mem s) y <> prefix (ep_target ep)) ->
  (forall s', rep ∅ ∅ (with_nets (fun N => {[(rk_dst (prefix (n_target n)), prefix (ep_target ep))]} ∪ N) F) s' ->
    attached p (prefix (ep_target ep)) a s' -> timers s' = timers s -> net_added p a s s' -> Q (Some a) s') ->
  wp (store_attachment a (fresh_attachment p q) ;;; avl_insert_attachment p a ;;; avl_insert_endpoint_node q a ;;;
      e <~ load endpoint_mem q ;; store_endpoint q (with_originator p e) ;;; call (Attached_event a OONF_OBJECT_ADDED) ;;; ret (Some a)) s Q.
Proof.
  intros H Hu Hn Hact Hep Ha Hnew HQ. set (x := fresh_attachment p q).
  assert (node_key (prefixes (node_mem s)) p = rk_dst (prefix (n_target n))) as Ek by (by apply node_key_at, prefixes_at).
  pose proof (rep_net_link _ _ _ _ _ _ _ _ _ _ _ _ _ p n q ep a x H Hn Hep Ha Hu eq_refl eq_refl infinite_costs_ok eq_refl Hnew (or_introl Hact)) as Hl.
  cbv zeta in Hl. rewrite Ek in Hl.
  assert (prefixes (<[p := with_attached (inserted (src_key (ep_prefixes (endpoint_mem s)) (<[a := x]> (attachment_mem s))) rt_cmp a
    (_attached_networks n)) n]> (node_mem s)) = prefixes (node_mem s)) as EP by (by apply (view_same _ _ _ n)).
  unfold store_attachment, avl_insert_attachment, avl_insert_endpoint_node, store_node, store_endpoint, call. wp_steps.
  eapply wp_read; [simpl; by rewrite lookup_insert_eq|]. wp_steps. apply HQ; [| |done|]; simpl; rewrite EP.
  - unfold TcFacts.rep. simpl. eapply rep_endpoint; [exact Hl|by rewrite lookup_insert_eq|done|done].
  - exists x. simpl. rewrite lookup_insert_eq. split; [done|]. split; [done|]. simpl. unfold prefix_at, ep_prefixes.
    by rewrite lookup_fmap, lookup_insert_eq.
  - split; simpl; [done| |intros y Hy; by rewrite lookup_insert_ne|done| |congruence|intros _; exists q; by rewrite lookup_insert_eq].
    + intros n0 Hn0. assert (n0 = n) as -> by congruence. eexists. by rewrite lookup_insert_eq.
    + intros q0 k Hk. unfold ep_prefixes. rewrite insert_insert_eq. by rewrite (ep_view_same _ _ _ ep).
Qed.

Lemma endpoint_add_wp F s p n k mesh : rep ∅ ∅ F s -> node_mem s !! p = Some n -> is_active (timers s) p = true ->
  wp (endpoint_add p k mesh) s (fun o s' =>
    match o with
    | None => out_of_memory /\ rep ∅ ∅ F s'
    | Some a => rep ∅ ∅ (with_nets (fun N => {[(rk_dst (prefix (n_target n)), k)]} ∪ N) F) s' /\ attached p k a s' /\ net_added p a s s'
    end /\ timers s' = timers s).
Proof.
  intros H Hn Hact. set (a0 := rk_dst (prefix (n_target n))).
  assert (tree_strict (src_key (ep_prefixes (endpoint_mem s)) (attachment_mem s)) rt_cmp (_attached_networks n)) as Hs
    by (apply (in_strict (nt_src (r_nets H)) p); by apply view_at).
  assert (node_key (prefixes (node_mem s)) p = a0) as Ek by (by apply node_key_at, prefixes_at).
  unfold olsrv2_tc_endpoint_add. wp_steps.
  destruct (tree_find _ _ k (_attached_networks n)) as [a|] eqn:Ef.
  { apply (tree_find_spec _ _ k _ (Some a) Hs) in Ef as [Hin Ekey%rtkey_cmp_eq]. wp_steps.
    apply (rep_attached_at _ _ _ _ _ _ _ _ _ _ _ _ _ _ _ H Hn) in Hin as (x & Hx & Es). rewrite (src_key_at _ _ _ _ Hx) in Ekey.
    split; [|done]. split; [|split; [by exists x|split; [done|intros n0 Hn0; exists (_attached_networks n0); by rewrite with_attached_same|try done..]]]; [|congruence].
    assert ((a0, k) ∈ nets F) as Hin.
    { apply (sh_nets (r_shows H)). exists a, x. by rewrite Es. }
    assert (with_nets (fun N => {[(a0, k)]} ∪ N) F = F) as ->; [|exact H]. destruct F. unfold with_nets. simpl in *. f_equal. set_solver. }
  assert (forall y, y ∈ _attached_networks n -> src_key (ep_prefixes (endpoint_mem s)) (attachment_mem s) y <> k) as Hfree.
  { intros y Hy E. apply (proj1 (tree_find_spec _ _ k _ None Hs) Ef y Hy). by apply rtkey_cmp_eq. }
  unfold oonf_class_malloc. apply wp_seq. eapply wp_eq; [reflexivity|].
  destruct (malloc _ (mallocs s)) as [a|] eqn:Em1; [|wp_steps; split; [split; [by do 2 eexists|exact H]|done]].
  pose proof (malloc_fresh _ _ _ Em1) as Ha. unfold attachment_addresses in Ha. rewrite not_elem_of_dom in Ha.
  unfold olsrv2_tc_endpoint_get. wp_steps. simpl _tc_endpoint_tree. simpl endpoint_mem.
  destruct (tree_find _ _ k (_tc_endpoint_tree s)) as [q|] eqn:Eq; apply (endpoint_find _ _ _ _ _ _ _ k _ (r_nets H)) in Eq.
  - unfold ep_prefixes in Eq. apply lookup_fmap_Some in Eq as (ep & Ep & Hep). subst k. apply wp_seq, wp_return.
    eapply (attach_wp F _ p n q ep a None); [exact H|by left|exact Hn|exact Hact|exact Hep|exact Ha|exact Hfree|].
    intros s' ? ? -> Hna. split; [|done]. split; [done|]. split; [done|]. by eapply net_added_from.
  - apply wp_seq. eapply wp_eq; [reflexivity|].
    destruct (malloc (endpoint_addresses (count_malloc s)) (mallocs (count_malloc s))) as [q|] eqn:Em2; [|wp_steps; split; [split; [by do 2 eexists|exact H]|done]].
    pose proof (malloc_fresh _ _ _ Em2) as Hq. unfold endpoint_addresses in Hq. simpl in Hq. rewrite not_elem_of_dom in Hq.
    unfold store_endpoint at 1, call at 1. do 8 wp_step.
    eapply (attach_wp F _ p n q (new_endpoint k mesh p) a (Some q)); [|by right|exact Hn|exact Hact|simpl; by rewrite lookup_insert_eq|exact Ha| |].
    + exact (rep_new_endpoint _ _ _ _ _ _ _ _ _ _ _ _ q k mesh p H Hq Eq).
    + intros y Hy. simpl. intros E. apply (Hfree y Hy). rewrite <- E.
      apply (rep_attached_at _ _ _ _ _ _ _ _ _ _ _ _ _ _ _ H Hn) in Hy as (z & Hz & _). rewrite !(src_key_at _ _ _ _ Hz).
      destruct (nt_ends (r_nets H) y z Hz) as [_ [k' Hk']]. unfold ep_prefixes. rewrite fmap_insert, prefix_at_insert_ne; [done|].
      intros E'. unfold ep_prefixes in Hk'. by rewrite E', lookup_fmap, Hq in Hk'.
    + intros s' ? ? -> Hna. split; [|done]. split; [done|]. split; [done|]. eapply net_added_from; [exact Hna|done..|].
      unfold ep_prefixes. simpl. rewrite fmap_insert. apply insert_subseteq. by rewrite lookup_fmap, Hq.
Qed.

(** ** Neighbors *)

(** Nodes that are not valid announce nothing. *)
Lemma forget_not_valid F s p n : rep ∅ ∅ F s -> node_mem s !! p = Some n -> is_active (timers s) p = false ->
  forget (rk_dst (prefix (n_target n))) F = F.
Proof.
  intros H Hn Ha. set (a := rk_dst (prefix (n_target n))).
  assert (forall q, is_Some (prefixes (node_mem s) !! q) -> node_key (prefixes (node_mem s)) q = a -> is_active (timers s) q = false) as Hinj.
  { intros q Hq E. assert (q = p) as ->; [|done]. eapply node_key_inj; [apply (r_nodes H)|done|eexists; by apply prefixes_at|].
    rewrite E. symmetry. by apply node_key_at, prefixes_at. }
  destruct F as [v d l k]. unfold forget. simpl. f_equal; apply set_eq.
  - intros x. rewrite elem_of_difference, elem_of_singleton. split; [tauto|]. intros Hx. split; [done|]. intros ->.
    apply (active_valid _ _ _ _ _ _ _ _ _ _ _ _ _ H Hn) in Hx. congruence.
  - intros [x y]. unfold forget_links. rewrite elem_of_filter. simpl. split; [tauto|]. intros Hx. split; [|done]. intros ->.
    apply (sh_links (r_shows H)) in Hx as (e & ed & He & Hv & Es & _). destruct (eo_ends (r_edges H) e ed He) as (HS & _).
    pose proof (so_edges (r_sources H) e ed He Hv ltac:(set_solver)) as Hact. rewrite (Hinj _ HS Es) in Hact. done.
  - intros [x y]. unfold forget_nets. rewrite elem_of_filter. simpl. split; [tauto|]. intros Hx. split; [|done]. intros ->.
    apply (sh_nets (r_shows H)) in Hx as (e & ed & He & Es & _). destruct (nt_ends (r_nets H) e ed He) as (HS & _).
    pose proof (so_nets (r_sources H) e ed He ltac:(set_solver)) as Hact. rewrite (Hinj _ HS Es) in Hact. done.
Qed.

Lemma not_direct F s a : rep ∅ ∅ F s -> (forall q, is_Some (prefixes (node_mem s) !! q) -> node_key (prefixes (node_mem s)) q <> a) -> a ∉ direct F.
Proof. intros H Hno (p & Hp & E & _)%(sh_direct (r_shows H)). by apply (Hno p). Qed.

Definition not_neighbor (o : netaddr) (F : facts) : facts := if netaddr_is_unspec o then F else with_direct_set (fun d => d ∖ {[o]}) F.

Lemma tc_neighbor_remove_wp F s neigh : rep ∅ ∅ F s ->
  wp (_cb_neighbor_remove neigh) s (fun _ s' => rep ∅ ∅ (not_neighbor (originator neigh) F) s').
Proof.
  intros H. unfold _cb_neighbor_remove, not_neighbor. destruct (netaddr_is_unspec (originator neigh)); [by wp_steps|].
  apply wp_seq. eapply node_get_wp; [exact H|..].
  2: { intros Hno%(not_direct F s); [|done]. wp_steps. assert (with_direct_set (fun d => d ∖ {[originator neigh]}) F = F) as ->; [|exact H].
    destruct F. unfold with_direct_set. simpl in *. f_equal. set_solver. }
  intros p n Hn Ek. rewrite <- Ek. set (a := rk_dst _). unfold store_node. wp_steps.
  assert (rep {[p]} {[p]} F s) as H0 by (eapply rep_excuse; [exact H|set_solver|set_solver]).
  pose proof (rep_node _ _ _ _ _ _ _ _ _ _ _ _ _ p n (TcDatabase.with_direct false n) H0 Hn eq_refl eq_refl eq_refl
    ltac:(intros _ _; set_solver)) as H1. cbv zeta in H1. cbn [direct_neighbor TcDatabase.with_direct] in H1. fold a in H1.
  eapply node_virtual_wp; [apply (r_timers H)|eexists; by apply prefixes_at|]. cbn [timers set_node_mem].
  destruct (is_active (timers s) p) eqn:Ea; cbn [negb].
  - wp_steps. assert (rep {[p]} ∅ F s) as H2 by (eapply rep_excuse; [exact H|set_solver|done]).
    eapply (rep_node _ _ _ _ _ _ _ _ _ _ _ _ _ p n (TcDatabase.with_direct false n)) in H2; [|exact Hn|done..|intros _ _; set_solver].
    eapply rep_excuse; [eapply (rep_reason _ _ _ _ _ _ _ _ _ _ _ _ _ p); [exact H2|simpl; by rewrite lookup_insert_eq|by left]|set_solver|done].
  - eapply wp_weaken; [eapply node_remove_wp; [exact random_u32|exact max_interval_range|exact H1|simpl; by rewrite lookup_insert_eq]|].
    intros [] s' H'. cbn [n_target TcDatabase.with_direct] in H'. fold a in H'.
    pose proof (forget_not_valid F s p n H Hn Ea) as Ef. fold a in Ef.
    assert (forget a (with_direct_set (fun d => d ∖ {[a]}) F) = with_direct_set (fun d => d ∖ {[a]}) F) as E; [|by rewrite E in H'].
    rewrite <- Ef at 2. done.
Qed.

(** A new neighbor: its node is made when it is not there. *)
Definition new_neighbor (o : netaddr) (F : facts) : facts := if netaddr_is_unspec o then F else with_direct_set (fun d => {[o]} ∪ d) F.

Lemma neighbor_new_wp F s o : rep ∅ ∅ F s -> 0 <= max_interval ->
  wp (tc_node <~ olsrv2_tc_node_get o ;;
      tc_node <~ match tc_node with Some tc_node => ret (Some tc_node) | None => node_add o 0 0 end ;;
      match tc_node with
      | None => ret tt
      | Some tc_node => n <~ load node_mem tc_node ;; store_node tc_node (TcDatabase.with_direct true n)
      end) s (fun _ s' => rep ∅ ∅ (with_direct_set (fun d => {[o]} ∪ d) F) s' \/ out_of_memory /\ rep ∅ ∅ F s').
Proof.
  intros H Hm.
  assert (forall F X s p n, rep_with (edge_mem s) X ∅ F s -> X ⊆ {[p]} -> node_mem s !! p = Some n -> rk_dst (prefix (n_target n)) = o ->
    wp (n <~ load node_mem p ;; store_node p (TcDatabase.with_direct true n)) s
      (fun _ s' => rep ∅ ∅ (with_direct_set (fun d => {[o]} ∪ d) F) s' \/ out_of_memory /\ rep ∅ ∅ F s')) as Hset.
  { intros F1 X s1 p n H1 HX Hn E. unfold store_node. wp_steps. left.
    eapply (rep_node _ _ _ _ _ _ _ _ _ _ _ _ _ p n (TcDatabase.with_direct true n)) in H1; [|exact Hn|done..].
    cbn [direct_neighbor TcDatabase.with_direct] in H1. rewrite E in H1.
    eapply rep_excuse; [eapply (rep_reason _ _ _ _ _ _ _ _ _ _ _ _ _ p); [exact H1|simpl; by rewrite lookup_insert_eq|by right; right]|set_solver|done]. }
  apply wp_seq. eapply node_get_wp; [exact H|..].
  - intros p n Hn E. apply wp_seq, wp_return. eapply (Hset F ∅); [exact H|set_solver|exact Hn|exact E].
  - intros Hno. apply wp_seq. eapply node_new_wp; [exact H|exact Hno|lia|..].
    + intros s' Hoom H' Enm Eem Ets. wp_steps. right. split; [done|]. unfold rep. by rewrite Eem.
    + intros p s' H' _ Hp [A1 A2 A3 A4 A5] _. rewrite (extend_valid_unknown _ _ _ _ _ _ F o (r_shows H) Hno) in H'.
      rewrite <- A1 in H'. eapply (Hset F); [exact H'|set_solver|exact Hp|done].
Qed.

(** The callback clears the flag at the node of the new originator, whatever the
    old one was. *)
Lemma neighbor_change_wp F s neigh : rep ∅ ∅ F s ->
  wp (_cb_neighbor_change os_core_get_random _validity_info malloc neigh) s (fun _ s' =>
    rep ∅ ∅ (if bool_decide (originator neigh = _old_originator neigh) then F else new_neighbor (originator neigh) F) s' \/
    out_of_memory /\ rep ∅ ∅ (not_neighbor (originator neigh) F) s').
Proof.
  intros H. unfold _cb_neighbor_change. case_bool_decide as E; [wp_steps; by left|].
  apply wp_seq. eapply wp_weaken; [by apply tc_neighbor_remove_wp|]. intros [] s1 H1. unfold not_neighbor, new_neighbor in *.
  destruct (netaddr_is_unspec (originator neigh)); [wp_steps; by left|].
  eapply wp_weaken; [apply neighbor_new_wp; [exact H1|lia]|]. intros [] s2 [H2|H2]; [left|right; exact H2].
  assert (with_direct_set (fun d => {[originator neigh]} ∪ d) (with_direct_set (fun d => d ∖ {[originator neigh]}) F) =
    with_direct_set (fun d => {[originator neigh]} ∪ d) F) as Ed; [|by rewrite Ed in H2].
  unfold with_direct_set. simpl. f_equal. apply set_eq. intros x. rewrite !elem_of_union, elem_of_difference, elem_of_singleton.
  destruct (decide (x = originator neigh)); tauto.
Qed.

(** ** Timeouts

    The scheduler stops a single-shot timer before its callback. *)

Lemma timeout_wp F s p n : rep ∅ ∅ F s -> node_mem s !! p = Some n ->
  wp (timer_stop p ;;; _cb_tc_node_timeout p) s (fun _ s' => rep ∅ ∅ (forget (rk_dst (prefix (n_target n))) F) s').
Proof.
  intros H Hn. set (a := rk_dst (prefix (n_target n))). apply wp_seq.
  eapply tc_timer_stop_wp; [exact random_u32|exact max_interval_range|apply (r_timers H)|eexists; by apply prefixes_at|]. intros ts' (Hts & Ho & Ha & _).
  assert (rep {[p]} {[p]} F s) as H1 by (eapply rep_excuse; [exact H|set_solver|set_solver]).
  pose proof (rep_timer _ _ _ _ _ _ _ _ _ _ _ _ _ ts' p _ H1 Hn Hts Ho ltac:(intros _ _; set_solver)) as H2.
  cbv zeta in H2. rewrite Ha in H2. fold a in H2. unfold _cb_tc_node_timeout, call, olsrv2_tc_node_remove. apply wp_seq.
  eapply wp_weaken; [eapply node_remove_wp; [exact random_u32|exact max_interval_range|exact H2|exact Hn]|]. fold a.
  intros [] s' H'. wp_steps.
  assert (forget a (with_valid (fun v => v ∖ {[a]}) F) = forget a F) as E; [|by rewrite E in H'].
  unfold forget, with_valid. simpl. f_equal. set_solver.
Qed.
End refine.
