(* ===== verification/TcOperations.v ===== *)
(** The interface of src/olsrv2/olsrv2/olsrv2_tc.c: what other components call,
    what each call does to the facts of the database, and that no sequence of
    calls touches freed memory. *)

From Stdlib Require Import ZArith Lia Sorted.
From stdpp Require Import base list numbers option gmap sets.
From S2P Require Import Prelude AvlSpec StateMonad Netaddr MprSelection NhdpDb RoutingSet Timer ValidityTimer TcDatabase TcInvariant TcNets TcFacts TcRemove TcRefine.

Local Open Scope Z_scope.
Local Open Scope state_scope.

(** The calls: of the reader of TC messages, of the scheduler and of the
    neighborhood database. *)
Inductive tc_op :=
  | Node_add (a : netaddr) (vtime ansn : Z)
  | Node_remove (node : ptr)
  | Edge_add (node : ptr) (addr : netaddr)
  | Edge_remove (edge : ptr)
  | Endpoint_add (node : ptr) (prefix : os_route_key) (mesh : bool)
  | Endpoint_remove (net : ptr)
  | Timeout (node : ptr)
  | Neighbor_change (neigh : neighbor_originators)
  | Neighbor_remove (neigh : neighbor_originators).

Section operations.
Context (os_core_get_random : nat -> option Z) (random_u32 : forall n r, os_core_get_random n = Some r -> 0 <= r <= UINT32_MAX).
Context (max_interval : Z) (max_interval_range : 0 <= max_interval <= 2 ^ 56).
Context (_validity_info : positive).
Context (malloc : gset ptr -> nat -> option ptr) (malloc_fresh : forall in_use k p, malloc in_use k = Some p -> p ∉ in_use).

#[local] Notation rep := (rep _validity_info max_interval).
#[local] Notation timers_ok := (timers_ok _validity_info max_interval).
#[local] Notation out_of_memory := (out_of_memory malloc).

(** A call and the pointer it returns. The scheduler stops the timer of a node
    before it calls [_cb_tc_node_timeout]. *)
Definition run_op (op : tc_op) : tc_M (option ptr) :=
  match op with
  | Node_add a vtime ansn => olsrv2_tc_node_add os_core_get_random _validity_info malloc a vtime ansn
  | Node_remove p => olsrv2_tc_node_remove p ;;; ret None
  | Edge_add p b => olsrv2_tc_edge_add os_core_get_random _validity_info malloc p b
  | Edge_remove e => olsrv2_tc_edge_remove e ;;; ret None
  | Endpoint_add p k mesh => olsrv2_tc_endpoint_add malloc p k mesh
  | Endpoint_remove a => olsrv2_tc_endpoint_remove a ;;; ret None
  | Timeout p => timer_stop p ;;; _cb_tc_node_timeout p ;;; ret None
  | Neighbor_change neigh => _cb_neighbor_change os_core_get_random _validity_info malloc neigh ;;; ret None
  | Neighbor_remove neigh => _cb_neighbor_remove neigh ;;; ret None
  end.

Definition originator_of (s : tc_db) (p : ptr) : netaddr := node_key (prefixes (node_mem s)) p.

(** What a caller has to respect: pointers to objects of the database, a
    validity time that is not zero, information only about valid nodes, and no
    edge from a node to itself. The reader of TC messages does not check the
    validity time and the edge to itself, see [tc_self_edge_crashes] and
    [zero_validity_stays]. *)
Definition op_ok (s : tc_db) (op : tc_op) : Prop :=
  match op with
  | Node_add _ vtime _ => 0 < vtime <= max_interval
  | Node_remove p | Timeout p => is_Some (node_mem s !! p)
  | Edge_add p b => is_Some (node_mem s !! p) /\ is_active (timers s) p = true /\ b <> originator_of s p
  | Edge_remove e => is_Some (edge_mem s !! e)
  | Endpoint_add p _ _ => is_Some (node_mem s !! p) /\ is_active (timers s) p = true
  | Endpoint_remove a => is_Some (attachment_mem s !! a)
  | Neighbor_change _ | Neighbor_remove _ => True
  end.

(** The result of a call: the facts [F'] after it, and what the returned pointer
    points to. A neighbor that changed its originator is a neighbor under the new
    one; under the old one it still is, because the callback looks for the node
    of the new originator to remove it. *)
Definition op_result (op : tc_op) (s : tc_db) (F : facts) (r : option ptr) (s' : tc_db) (F' : facts) : Prop :=
  match op with
  | Node_add a _ _ =>
      match r with
      | Some p => F' = with_valid (fun v => {[a]} ∪ v) F /\ is_Some (node_mem s' !! p) /\ originator_of s' p = a /\ is_active (timers s') p = true
      | None => out_of_memory /\ F' = F
      end
  | Node_remove p | Timeout p => F' = forget (originator_of s p) F
  | Edge_add p b =>
      match r with
      | Some e => F' = with_links (fun L => {[(originator_of s p, b)]} ∪ L) F /\ fresh_edge p b e s'
      | None => out_of_memory /\ F' = F
      end
  | Edge_remove e => exists ed, edge_mem s !! e = Some ed /\
      F' = if virtual ed then F else with_links (fun L => L ∖ {[(originator_of s (e_src ed), originator_of s (e_dst ed))]}) F
  | Endpoint_add p k _ =>
      match r with
      | Some a => F' = with_nets (fun N => {[(originator_of s p, k)]} ∪ N) F /\ attached p k a s'
      | None => out_of_memory /\ F' = F
      end
  | Endpoint_remove a => exists x, attachment_mem s !! a = Some x /\
      F' = with_nets (fun N => N ∖ {[(originator_of s (a_src x), prefix_at (ep_prefixes (endpoint_mem s)) (a_dst x))]}) F
  | Neighbor_change neigh =>
      F' = (if bool_decide (originator neigh = _old_originator neigh) then F else new_neighbor (originator neigh) F) \/
      out_of_memory /\ F' = not_neighbor (originator neigh) F
  | Neighbor_remove neigh => F' = not_neighbor (originator neigh) F
  end.

Lemma originator_at s p n : node_mem s !! p = Some n -> originator_of s p = rk_dst (prefix (n_target n)).
Proof. intros H. by apply node_key_at, prefixes_at. Qed.

(** The side conditions of every rule. *)
#[local] Ltac rule l := eapply l; try first [exact random_u32 | exact max_interval_range | exact malloc_fresh].

(** A result of a call and what the database shows then. *)
Definition done_op (op : tc_op) (s : tc_db) (F : facts) (r : option ptr) (s' : tc_db) : Prop :=
  exists F', op_result op s F r s' F' /\ rep ∅ ∅ F' s'.

Lemma known_or_not F s a : rep ∅ ∅ F s -> (exists p n, node_mem s !! p = Some n /\ rk_dst (prefix (n_target n)) = a) \/
  (forall q, is_Some (prefixes (node_mem s) !! q) -> node_key (prefixes (node_mem s)) q <> a).
Proof.
  intros H. destruct (tree_find (node_key (prefixes (node_mem s))) avl_comp_netaddr a (_tc_tree s)) as [p|] eqn:E; apply (nodes_find _ _ a _ (r_nodes H)) in E.
  - destruct E as [Hp Ek]. destruct (rep_node_at _ _ _ _ _ _ _ _ _ _ _ _ _ _ H Hp) as [n Hn].
    left. exists p, n. split; [done|]. by rewrite (node_key_at _ _ _ (prefixes_at _ _ _ Hn)) in Ek.
  - by right.
Qed.

Lemma node_add_wp F s a vtime ansn : rep ∅ ∅ F s -> 0 < vtime <= max_interval ->
  wp (run_op (Node_add a vtime ansn)) s (done_op (Node_add a vtime ansn) s F).
Proof.
  intros H Hv. assert (0 <= vtime <= max_interval) as Hv' by lia. assert (vtime <> 0) as Hv0 by lia.
  assert (extend_valid a vtime F = with_valid (fun v => {[a]} ∪ v) F) as EF by (unfold extend_valid; by rewrite (proj2 (Z.eqb_neq _ _) Hv0)).
  assert (forall X p n s', TcRefine.rep_with max_interval _validity_info (edge_mem s) X ∅ (extend_valid a vtime F) s' -> X ⊆ {[p]} -> edge_mem s' = edge_mem s ->
    node_mem s' !! p = Some n -> rk_dst (prefix (n_target n)) = a -> is_active (timers s') p = negb (vtime =? 0) ->
    done_op (Node_add a vtime ansn) s F (Some p) s') as Hdone.
  { intros X p n s' H' HX Eem Hp Ek Ha. rewrite (proj2 (Z.eqb_neq _ _) Hv0) in Ha. rewrite EF in H'. eexists. split.
    - split; [reflexivity|]. rewrite Hp, (originator_at _ _ _ Hp). by split_and!.
    - unfold TcFacts.rep. rewrite Eem. eapply rep_excuse; [eapply (rep_reason _ _ _ _ _ _ _ _ _ _ _ _ _ p); [exact H'|exact Hp|by left]|set_solver|done]. }
  cbn [run_op]. destruct (known_or_not F s a H) as [(p & n & Hn & Ea)|Hno].
  - rewrite <- Ea at 1. rule node_known_wp; [exact H|exact Hn|exact Hv'|done|].
    rewrite Ea. intros s' H' Hp [A1 A2 A3 A4 A5] Ha. eapply (Hdone ∅); [exact H'|set_solver|exact A1|exact Hp|by destruct (is_active _ _)|exact Ha].
  - rule node_new_wp; [exact H|exact Hno|exact Hv'|..].
    + intros s' Hoom H' _ Eem _. exists F. split; [done|]. unfold TcFacts.rep. by rewrite Eem.
    + intros p s' H' _ Hp [A1 A2 A3 A4 A5] Ha. eapply (Hdone ({[p]} ∪ ∅)); [exact H'|set_solver|exact A1|exact Hp|done|exact Ha].
Qed.

(** Every allowed call does what its name says. *)
Lemma run_op_wp F s op : rep ∅ ∅ F s -> op_ok s op -> wp (run_op op) s (done_op op s F).
Proof.
  intros H Hok. destruct op as [a v n|p|p b|e|p k mesh|a|p|neigh|neigh]; cbn [op_ok] in Hok; cbn [run_op].
  - by apply node_add_wp.
  - destruct Hok as [n Hn]. apply wp_seq. eapply wp_weaken.
    { rule node_remove_wp; [eapply rep_excuse; [exact H|set_solver|set_solver]|exact Hn]. }
    intros [] s' H'. wp_steps. eexists. split; [reflexivity|]. by rewrite (originator_at _ _ _ Hn).
  - destruct Hok as ([n Hn] & Ha & Hb). rewrite (originator_at _ _ _ Hn) in Hb. eapply wp_weaken.
    { rule edge_add_wp; [exact H|exact Hn|exact Ha|exact Hb]. }
    intros [e|] s' [H1 _].
    + destruct H1 as (H1 & H2 & _). eexists. split; [split; [reflexivity|exact H2]|]. by rewrite (originator_at _ _ _ Hn).
    + destruct H1 as [? H1]. by exists F.
  - destruct Hok as [ed He]. apply wp_seq. eapply wp_weaken; [rule edge_remove_wp; [exact H|exact He]|].
    intros r s' [H' _]. wp_steps. eexists. split; [exists ed; by split|exact H'].
  - destruct Hok as ([n Hn] & Ha). eapply wp_weaken; [rule endpoint_add_wp; [exact H|exact Hn|exact Ha]|].
    intros [e|] s' [H1 _].
    + destruct H1 as (H1 & H2 & _). eexists. split; [split; [reflexivity|exact H2]|]. by rewrite (originator_at _ _ _ Hn).
    + destruct H1 as [? H1]. by exists F.
  - destruct Hok as [x Hx]. destruct (nt_ends (r_nets H) a x Hx) as [HS [k Hk]]. unfold ep_prefixes in Hk. apply lookup_fmap_Some in Hk as (ep & <- & Hep).
    destruct (rep_node_at _ _ _ _ _ _ _ _ _ _ _ _ _ _ H HS) as [n Hn]. apply wp_seq.
    eapply wp_weaken; [eapply endpoint_remove_wp; [exact H|exact Hx|exact Hn|exact Hep]|].
    intros [] s' (H' & _). wp_steps. eexists. split; [exists x; split; [done|reflexivity]|].
    unfold prefix_at at 1, ep_prefixes. by rewrite lookup_fmap, Hep.
  - destruct Hok as [n Hn]. assert (wp (timer_stop p ;;; _cb_tc_node_timeout p) s (fun _ s' => rep ∅ ∅ (forget (rk_dst (prefix (n_target n))) F) s')) as Hw by (by rule timeout_wp).
    apply wp_seq. unfold wp at 1 in Hw. unfold bind in Hw. unfold wp at 1. destruct (timer_stop p s) as [[[] s1]|]; [|done]. apply wp_seq.
    eapply wp_weaken; [exact Hw|]. intros [] s' H'. wp_steps. eexists. split; [reflexivity|]. by rewrite (originator_at _ _ _ Hn).
  - apply wp_seq. eapply wp_weaken; [by rule neighbor_change_wp|]. intros [] s' [H'|[Hoom H']]; wp_steps; eexists; (split; [|exact H']); [by left|by right].
  - apply wp_seq. eapply wp_weaken; [by rule tc_neighbor_remove_wp|]. intros [] s' H'. wp_steps. by eexists.
Qed.

(** The empty database. *)
Lemma rep_init t k : timer_wf max_interval t -> classes t !! _validity_info = Some k -> periodic k = false ->
  rep ∅ ∅ no_facts (olsrv2_tc_init t).
Proof.
  intros Ht Hk Hp. unfold TcFacts.rep. cbn -[repeat]. split; unfold prefixes, ep_prefixes; rewrite ?fmap_empty.
  - split; [|apply SSorted_nil|]; intros p; rewrite lookup_empty; [|done]. split; [by intros ?%elem_of_nil|by intros []].
  - split; intros p; rewrite ?lookup_empty; try done.
  - split; [split; intros p; by rewrite lookup_empty|split; intros p; by rewrite lookup_empty|..].
    + intros p. rewrite !lookup_empty. by split; intros [].
    + intros q. rewrite !lookup_empty. by split; intros [].
    + intros q l _. by rewrite lookup_empty.
    + intros a x. by rewrite lookup_empty.
    + intros q. rewrite lookup_empty. split; [by intros ?%elem_of_nil|by intros []].
    + apply SSorted_nil.
    + intros a x. by rewrite lookup_empty.
  - split; [done|by exists k|]. intros p. rewrite lookup_empty. by intros [].
  - intros p l. by rewrite lookup_empty.
  - split; intros p; by rewrite lookup_empty.
  - split; [intros a|intros a|intros a b|intros a b]; (split; [by intros ?%elem_of_empty|]).
    + intros (p & Hx & _). rewrite lookup_empty in Hx. by destruct Hx.
    + intros (p & Hx & _). rewrite lookup_empty in Hx. by destruct Hx.
    + intros (e & ed & He & _). by rewrite lookup_empty in He.
    + intros (e & ed & He & _). by rewrite lookup_empty in He.
Qed.

(** Time passes and other timers start and end. *)
Lemma rep_elapse F s ts' : rep ∅ ∅ F s -> timers_ok (prefixes (node_mem s)) ts' ->
  (forall p, is_Some (node_mem s !! p) -> is_active ts' p = is_active (timers s) p) -> rep ∅ ∅ F (set_timers ts' s).
Proof.
  intros H Hts Hact. assert (forall p, is_Some (prefixes (node_mem s) !! p) -> is_active ts' p = is_active (timers s) p) as Hact'.
  { intros p Hp. apply Hact. unfold prefixes in Hp. by rewrite lookup_fmap, fmap_is_Some in Hp. }
  unfold TcFacts.rep. simpl. split; try apply H; [done|..].
  - intros p l Hl Hp. rewrite Hact; [by apply (r_reasons H)|]. rewrite lookup_fmap in Hl. by destruct (node_mem s !! p).
  - split.
    + intros e ed He Hv Hs. destruct (eo_ends (r_edges H) e ed He) as (HS & _). rewrite Hact' by done. by apply (so_edges (r_sources H) e ed).
    + intros a x Hx Hs. destruct (nt_ends (r_nets H) a x Hx) as (HS & _). rewrite Hact' by done. by apply (so_nets (r_sources H) a x).
  - split; try apply (r_shows H). intros a. rewrite (sh_valid (r_shows H)). f_equiv. intros p.
    split; intros (Hp & E & Ha); [rewrite Hact' by done|rewrite Hact' in Ha by done]; done.
Qed.

Lemma old_originator_kept neigh s F r s' F' : op_result (Neighbor_change neigh) s F r s' F' -> _old_originator neigh <> originator neigh ->
  _old_originator neigh ∈ direct F -> _old_originator neigh ∈ direct F'.
Proof.
  intros Hr Hne Hold. cbn in Hr. unfold new_neighbor, not_neighbor in Hr. destruct Hr as [->|[_ ->]].
  - destruct (bool_decide _); [done|]. destruct (netaddr_is_unspec _); [done|]. simpl. set_solver.
  - destruct (netaddr_is_unspec _); [done|]. simpl. set_solver.
Qed.

(** C6: Every call into the topology database that respects [op_ok] - pointers to
    objects of the database, a validity time that is not zero, edges and networks
    only of nodes with valid information, no edge from a node to itself - in
    every database that shows a set of facts, ends without touching freed or
    missing memory and without exhausting the depth of the removal. The database
    shows exactly the facts of [op_result]: a node that became valid, a link or
    an attached network that was added or removed, everything that a node
    announced when it is removed or timed out, a neighbor that came or went. Only
    a failed allocation leaves the facts as they were. A neighbor with a new
    originator is added under the new one, but, against the comment of
    [_cb_neighbor_change], it stays a direct neighbor under the old one. The
    returned pointer points to the object that was asked for, and the nodes in
    the tree are exactly those the facts mention, so that no node leaks and none
    is missing. *)
Theorem tc_operation_refines s F op : rep ∅ ∅ F s -> op_ok s op ->
  exists r s' F', run_op op s = Def (r, s') /\ op_result op s F r s' F' /\ rep ∅ ∅ F' s' /\
    (forall neigh, op = Neighbor_change neigh -> _old_originator neigh <> originator neigh -> _old_originator neigh ∈ direct F -> _old_originator neigh ∈ direct F') /\
    forall a, (exists p, p ∈ _tc_tree s' /\ originator_of s' p = a) <-> known F' a.
Proof.
  intros H Hok. destruct (wp_run _ _ _ (run_op_wp F s op H Hok)) as (r & s' & E & F' & Hr & H').
  exists r, s', F'. split; [done|]. split; [done|]. split; [done|]. split; [|intros a; by eapply rep_known].
  intros neigh ->. by eapply old_originator_kept.
Qed.

(** The databases that calls and the passing of time can lead to. *)
Inductive history : tc_db -> Prop :=
  | init_history t k : timer_wf max_interval t -> classes t !! _validity_info = Some k -> periodic k = false -> history (olsrv2_tc_init t)
  | call_history s op r s' : history s -> op_ok s op -> run_op op s = Def (r, s') -> history s'
  | elapse_history s ts' : history s -> timers_ok (prefixes (node_mem s)) ts' ->
      (forall p, is_Some (node_mem s !! p) -> is_active ts' p = is_active (timers s) p) -> history (set_timers ts' s).

Lemma history_rep s : history s -> exists F, rep ∅ ∅ F s.
Proof.
  induction 1 as [t k Ht Hk Hp|s op r s' _ [F H] Hok E|s ts' _ [F H] Hts Ha].
  - exists no_facts. by eapply rep_init.
  - destruct (wp_run _ _ _ (run_op_wp F s op H Hok)) as (r1 & s1 & E1 & F1 & _ & H1). exists F1. congruence.
  - exists F. by apply rep_elapse.
Qed.

(** C24: In every database that calls respecting [op_ok] (no edge of a node to itself,
    no validity time zero) can lead to, the two edges of a pair point to
    each other between the same two nodes, at least one of them was announced,
    and it was announced by a node whose information is still valid; both ends
    of an edge and of an attachment are alive; a node without valid information
    is there only while an edge or a neighbor needs it; an endpoint is there
    only while a node is attached to it. *)
Theorem tc_history_consistent s : history s ->
  (forall e ed, edge_mem s !! e = Some ed -> exists inv src dst, edge_mem s !! inverse ed = Some inv /\ inverse inv = e /\
    node_mem s !! e_src ed = Some src /\ node_mem s !! e_dst ed = Some dst /\ e_src inv = e_dst ed /\ e_dst inv = e_src ed /\
    e_src ed <> e_dst ed /\ e ∈ _edges src /\ (virtual ed = false \/ virtual inv = false) /\
    (virtual ed = false -> is_active (timers s) (e_src ed) = true)) /\
  (forall a x, attachment_mem s !! a = Some x -> exists src dst, node_mem s !! a_src x = Some src /\ endpoint_mem s !! a_dst x = Some dst /\
    a ∈ _attached_networks src /\ a ∈ ep_attached_networks dst /\ is_active (timers s) (a_src x) = true) /\
  (forall p n, node_mem s !! p = Some n -> p ∈ _tc_tree s /\ (is_active (timers s) p = true \/ _edges n <> [] \/ direct_neighbor n = true)) /\
  (forall q ep, endpoint_mem s !! q = Some ep -> q ∈ _tc_endpoint_tree s /\ ep_attached_networks ep <> []).
Proof.
  intros [F H]%history_rep. split; [|split; [|split]].
  - intros e ed He. destruct (eo_ends (r_edges H) e ed He) as (HS & HD & Hne). destruct (eo_pair (r_edges H) e ed He) as [inv Hi].
    destruct (rep_node_at _ _ _ _ _ _ _ _ _ _ _ _ _ _ H HS) as [n Hn]. destruct (rep_node_at _ _ _ _ _ _ _ _ _ _ _ _ _ _ H HD) as [m Hm].
    exists inv, n, m. destruct Hi as [P1 P2 P3 P4 P5]. split_and!; try done.
    + apply (rep_edges_at _ _ _ _ _ _ _ _ _ _ _ _ _ _ _ H Hn). eauto.
    + intros Hv. apply (so_edges (r_sources H) e ed He Hv). set_solver.
  - intros a x Hx. destruct (nt_ends (r_nets H) a x Hx) as [HS [k Hk]]. unfold ep_prefixes in Hk. apply lookup_fmap_Some in Hk as (ep & _ & Hep).
    destruct (rep_node_at _ _ _ _ _ _ _ _ _ _ _ _ _ _ H HS) as [n Hn]. exists n, ep. split_and!; try done.
    + apply (rep_attached_at _ _ _ _ _ _ _ _ _ _ _ _ _ _ _ H Hn). eauto.
    + apply (in_list (nt_dst (r_nets H)) (a_dst x)); [by rewrite lookup_fmap, Hep|]. eauto.
    + apply (so_nets (r_sources H) a x Hx). set_solver.
  - intros p n Hn. split; [apply (r_nodes H); eexists; by apply prefixes_at|].
    destruct (r_reasons H p (_edges n)) as [?|[?|Hd]]; [by apply view_at|set_solver|auto..].
    rewrite (view_at _ _ _ _ Hn) in Hd. injection Hd as Hd. auto.
  - intros q ep Hq. split; [apply (nt_tree (r_nets H)); eexists; by apply ep_prefixes_at|].
    apply (nt_used (r_nets H) q); [done|by rewrite lookup_fmap, Hq].
Qed.

(** ** Self edges *)

Lemma self_edge_wp s F p n e i : rep ∅ ∅ F s -> node_mem s !! p = Some n ->
  malloc (dom (edge_mem s)) (mallocs s) = Some e -> malloc ({[e]} ∪ dom (edge_mem s)) (S (mallocs s)) = Some i ->
  wp (run_op (Edge_add p (rk_dst (prefix (n_target n))))) s (fun r s' => r = Some e /\
    edge_mem s' !! e = Some (new_edge p p i false) /\ edge_mem s' !! i = Some (new_edge p p e true) /\
    exists n', node_mem s' !! p = Some n' /\ e ∈ _edges n' /\ i ∉ _edges n').
Proof.
  intros H Hn Em1 Em2. set (a := rk_dst (prefix (n_target n))). set (P := prefixes (node_mem s)).
  assert (node_key P p = a) as Ek by by apply node_key_at, prefixes_at.
  pose proof (malloc_fresh _ _ _ Em1) as He. rewrite not_elem_of_dom in He.
  pose proof (malloc_fresh _ _ _ Em2) as Hi. rewrite not_elem_of_union, not_elem_of_singleton, not_elem_of_dom in Hi. destruct Hi as [Hie Hi].
  assert (tree_strict (edge_key P (edge_mem s)) avl_comp_netaddr (_edges n)) as Hs by (apply (eo_strict (r_edges H) p); by apply view_at).
  assert (forall x, x ∈ _edges n -> x <> e /\ x <> i /\ edge_key P (edge_mem s) x <> a) as Hx.
  { intros x Hx. apply (rep_edges_at _ _ _ _ _ _ _ _ _ _ _ _ _ _ _ H Hn) in Hx as (d & Hd & Es).
    split; [by intros ->; congruence|]. split; [by intros ->; congruence|]. rewrite (edge_key_at _ _ _ _ Hd), <- Ek. intros E.
    destruct (eo_ends (r_edges H) x d Hd) as (_ & HD & Hne). apply Hne. rewrite Es. symmetry.
    apply (node_key_inj _ _ _ _ (r_nodes H) HD); [eexists; by apply prefixes_at|done]. }
  set (em' := <[i := new_edge p p e true]> (<[e := new_edge p p i false]> (<[i := new_edge p p e true]> (<[e := new_edge p p e false]> (edge_mem s))))).
  assert (edge_key P em' e = a /\ edge_key P em' i = a) as [Ke Ki].
  { split; unfold edge_key, em'; [rewrite lookup_insert_ne by done|]; by rewrite lookup_insert_eq. }
  assert (forall x, x ∈ _edges n -> edge_key P em' x = edge_key P (edge_mem s) x) as Hold.
  { intros x (? & ? & _)%Hx. unfold edge_key, em'. by rewrite !lookup_insert_ne by done. }
  destruct (inserted_spec (edge_key P em') avl_comp_netaddr e (_edges n)) as [Hs' Hin].
  { eapply tree_strict_key_ext; [exact Hold|exact Hs]. }
  { intros y Hy. rewrite Ke, Hold by done. intros E%netaddr_cmp_eq. destruct (Hx y Hy) as (_ & _ & Hne). congruence. }
  cbn [run_op]. unfold olsrv2_tc_edge_add. wp_steps. fold P a.
  rewrite (proj2 (tree_find_spec _ _ a _ None Hs)) by (intros y Hy E%netaddr_cmp_eq; destruct (Hx y Hy) as (_ & _ & Hne); congruence).
  unfold oonf_class_malloc, edge_addresses. apply wp_seq. eapply wp_eq; [reflexivity|]. rewrite Em1.
  unfold store_edge, free_edge. wp_steps. eapply wp_eq; [reflexivity|]. simpl. rewrite dom_insert_L, Em2.
  wp_steps. set (s1 := set_edge_mem _ _). assert (TcRefine.rep_with max_interval _validity_info (edge_mem s) ∅ ∅ F s1) as H1 by exact H.
  rule node_get_wp; [exact H1|..].
  2: { intros Hno. destruct (Hno p); [eexists; by apply prefixes_at|done]. }
  intros q m Hm Eq. assert (q = p) as -> by (eapply node_known; [exact H1|exact Hn|exact Hm|done]). clear m Hm Eq.
  apply wp_seq, wp_return. unfold avl_insert_edge, store_node, call. wp_steps.
  assert (forall x l, inserted (edge_key P (<[e := new_edge p p i false]> (<[i := new_edge p p e true]> (<[e := new_edge p p e false]> (edge_mem s))))) avl_comp_netaddr x l =
    inserted (edge_key P em') avl_comp_netaddr x l) as Eins.
  { intros x l. apply inserted_ext. intros y _. unfold edge_key, em'. destruct (decide (y = i)) as [->|Hyi]; [|by rewrite (lookup_insert_ne _ i y) by done].
    by rewrite lookup_insert_ne, !lookup_insert_eq. }
  simpl. fold P. rewrite Eins. eapply wp_read; [simpl; by rewrite lookup_insert_eq|]. wp_steps.
  simpl. assert (forall l, prefixes (<[p := with_edges l n]> (node_mem s)) = P) as EP by (intros l; by apply (view_same _ _ _ n)).
  rewrite EP. fold em'.
  assert (inserted (edge_key P em') avl_comp_netaddr i (inserted (edge_key P em') avl_comp_netaddr e (_edges n)) =
    inserted (edge_key P em') avl_comp_netaddr e (_edges n)) as E2.
  { unfold inserted at 1. rewrite (tree_insert_known _ _ i e); [done|exact Hs'|by apply Hin; left|]. rewrite Ke, Ki. apply cmp_refl. }
  simpl. rewrite E2, lookup_insert_eq. split; [done|]. unfold em' at 1 2. split; [by rewrite lookup_insert_ne, lookup_insert_eq by done|].
  split; [by rewrite lookup_insert_eq|].
  eexists. split; [done|]. simpl. rewrite !Hin. split; [by left|]. intros [?|Hii]; [done|]. by destruct (Hx i Hii) as (_ & ? & _).
Qed.

(** C40: A node that announces itself as its own neighbor breaks the database: with
    the memory for two edges [olsrv2_tc_edge_add] returns an edge from the node
    to itself whose inverse is not in the tree of the node, because both have the
    same key, and removing this edge later reads the list pointers of the inverse,
    which are NULL. *)
Theorem tc_self_edge_crashes s F p n e i : rep ∅ ∅ F s -> node_mem s !! p = Some n ->
  malloc (dom (edge_mem s)) (mallocs s) = Some e -> malloc ({[e]} ∪ dom (edge_mem s)) (S (mallocs s)) = Some i ->
  exists s', run_op (Edge_add p (rk_dst (prefix (n_target n)))) s = Def (Some e, s') /\
    (exists n', node_mem s' !! p = Some n' /\ e ∈ _edges n' /\ i ∉ _edges n') /\ run_op (Edge_remove e) s' = Undef UB_null.
Proof.
  intros H Hn Em1 Em2. destruct (wp_run _ _ _ (self_edge_wp s F p n e i H Hn Em1 Em2)) as (r & s' & E & -> & He & Hi & n' & Hp & Hin & Hout).
  exists s'. split; [exact E|]. split; [by exists n'|]. cbn [run_op]. unfold olsrv2_tc_edge_remove, edge_remove, _remove_edge, bind, call, modify, load. simpl.
  rewrite He. simpl. rewrite Hi. simpl. unfold avl_remove_edge, bind, load, lift, removed, store_node, modify. simpl. rewrite Hp.
  rewrite decide_True by done. simpl. rewrite lookup_insert_eq. simpl. rewrite decide_False; [done|].
  by intros [_ ?]%list_elem_of_filter.
Qed.
End operations.

(** ** Examples *)

Section example.
Definition demo_malloc (in_use : gset ptr) (_ : nat) : option ptr := Some (base.fresh in_use).

Lemma demo_malloc_fresh in_use k p : demo_malloc in_use k = Some p -> p ∉ in_use.
Proof. intros [= <-]. apply is_fresh. Qed.

#[local] Notation demo_run := (run_op demo_random 2 demo_malloc).

Fixpoint run_all (ops : list tc_op) (s : tc_db) : outcome tc_db :=
  match ops with
  | [] => Def s
  | op :: ops => match demo_run op s with Def (_, s') => run_all ops s' | Undef u => Undef u end
  end.
Definition demo_ops : list tc_op :=
  [Node_add (addr4 10 0 0 1 32) 600 7; Edge_add 1 (addr4 10 0 0 2 32); Endpoint_add 1 (os_routing_init_sourcespec_prefix (addr4 10 1 0 0 16)) false].
Definition demo_db : tc_db := match run_all demo_ops (olsrv2_tc_init demo_init) with Def s => s | Undef _ => olsrv2_tc_init demo_init end.

(** The rules a caller respects, step by step. *)
Fixpoint all_ok (ops : list tc_op) (s : tc_db) : Prop :=
  match ops with
  | [] => True
  | op :: ops => op_ok 1000 s op /\ match demo_run op s with Def (_, s') => all_ok ops s' | Undef _ => True end
  end.

#[local] Notation demo_history := (history demo_random 1000 2 demo_malloc).
#[local] Notation demo_rep := (rep 2 1000 ∅ ∅).

Lemma run_all_history ops s s' : demo_history s -> all_ok ops s -> run_all ops s = Def s' -> demo_history s'.
Proof.
  revert s. induction ops as [|op ops IH]; intros s H; [by intros _ [= <-]|]. simpl. intros [Hok Hrest] E.
  destruct (demo_run op s) as [[r s1]|] eqn:E1; [|done]. apply (IH s1); [|done..]. by eapply call_history.
Qed.

Lemma demo_db_history : demo_history demo_db.
Proof.
  apply (run_all_history demo_ops (olsrv2_tc_init demo_init)); [|by vm_compute; intuition (discriminate || eauto)|by vm_compute].
  eapply init_history; [apply demo_init_wf|by vm_compute|done].
Qed.

Lemma tc_operation_refines_witness : exists F, demo_rep F demo_db /\ op_ok 1000 demo_db (Node_remove 1) /\
  exists r s' F', demo_run (Node_remove 1) demo_db = Def (r, s') /\ op_result demo_malloc (Node_remove 1) demo_db F r s' F' /\ demo_rep F' s' /\
    (forall neigh, Node_remove 1 = Neighbor_change neigh -> _old_originator neigh <> originator neigh ->
      _old_originator neigh ∈ direct F -> _old_originator neigh ∈ direct F') /\
    forall a, (exists p, p ∈ _tc_tree s' /\ originator_of s' p = a) <-> known F' a.
Proof.
  destruct (history_rep demo_random demo_random_u32 1000 ltac:(lia) 2 demo_malloc demo_malloc_fresh _ demo_db_history) as [F H].
  exists F. assert (op_ok 1000 demo_db (Node_remove 1)) as Hok by (vm_compute; eauto). split; [exact H|]. split; [exact Hok|].
  exact (tc_operation_refines demo_random demo_random_u32 1000 ltac:(lia) 2 demo_malloc demo_malloc_fresh demo_db F (Node_remove 1) H Hok).
Defined.

Lemma tc_history_consistent_witness : demo_history demo_db /\
  (forall a x, attachment_mem demo_db !! a = Some x -> is_active (timers demo_db) (a_src x) = true).
Proof.
  split; [exact demo_db_history|]. intros a x Hx.
  destruct (tc_history_consistent demo_random demo_random_u32 1000 ltac:(lia) 2 demo_malloc demo_malloc_fresh demo_db demo_db_history) as (_ & Ha & _).
  by destruct (Ha a x Hx) as (src & dst & _ & _ & _ & _ & ?).
Defined.

Lemma tc_self_edge_crashes_witness : exists s',
  demo_run (Edge_add 1 (addr4 10 0 0 1 32)) demo_db = Def (Some 3%positive, s') /\ demo_run (Edge_remove 3) s' = Undef UB_null.
Proof.
  destruct (history_rep demo_random demo_random_u32 1000 ltac:(lia) 2 demo_malloc demo_malloc_fresh _ demo_db_history) as [F H].
  set (n := with_attached [1%positive] (with_edges [1%positive] (new_node 1 (addr4 10 0 0 1 32) 7))).
  assert (node_mem demo_db !! 1%positive = Some n) as Hn by (vm_compute; reflexivity).
  assert (demo_malloc (dom (edge_mem demo_db)) (mallocs demo_db) = Some 3%positive) as E1 by (vm_compute; reflexivity).
  assert (demo_malloc ({[3%positive]} ∪ dom (edge_mem demo_db)) (S (mallocs demo_db)) = Some 4%positive) as E2 by (vm_compute; reflexivity).
  destruct (tc_self_edge_crashes demo_random 1000 2 demo_malloc demo_malloc_fresh demo_db F 1 n 3 4 H Hn E1 E2) as (s' & Ha & _ & Hr).
  exists s'. split; [exact Ha|exact Hr].
Defined.

(** The timeout of a node that announced itself does not end well either, and the
    cleanup of the program frees everything that is no neighbor. *)
Example self_edge_timeout :
  run_all (demo_ops ++ [Edge_add 1 (addr4 10 0 0 1 32); Timeout 1]) (olsrv2_tc_init demo_init) = Undef UB_null.
Proof. by vm_compute. Qed.

Example cleanup_frees : match olsrv2_tc_cleanup demo_db with
  | Def (_, s) => node_mem s = ∅ /\ edge_mem s = ∅ /\ attachment_mem s = ∅ /\ endpoint_mem s = ∅ /\ _tc_tree s = []
  | Undef _ => False
  end.
Proof. by vm_compute. Qed.

(** A neighbor that changes its originator: the node of the old one is a direct
    neighbor for ever. *)
Example old_originator_stays : match run_all [Neighbor_change {| originator := addr4 10 0 0 1 32; _old_originator := netaddr_invalidate |};
    Neighbor_change {| originator := addr4 10 0 0 2 32; _old_originator := addr4 10 0 0 1 32 |};
    Neighbor_remove {| originator := addr4 10 0 0 2 32; _old_originator := addr4 10 0 0 1 32 |}] (olsrv2_tc_init demo_init) with
  | Def s => exists n, node_mem s !! 1%positive = Some n /\ rk_dst (prefix (n_target n)) = addr4 10 0 0 1 32 /\ direct_neighbor n = true
  | Undef _ => False
  end.
Proof. vm_compute. eauto. Qed.

(** The endpoint of a network with two routers points to the prefix of the one
    that was attached last, also after that router is gone. *)
Example endpoint_originator_dangles :
  match run_all [Node_add (addr4 10 0 0 1 32) 600 7; Node_add (addr4 10 0 0 2 32) 600 7;
    Endpoint_add 1 (os_routing_init_sourcespec_prefix (addr4 10 1 0 0 16)) false;
    Endpoint_add 2 (os_routing_init_sourcespec_prefix (addr4 10 1 0 0 16)) false; Timeout 2] (olsrv2_tc_init demo_init) with
  | Def s => exists e, endpoint_mem s !! 1%positive = Some e /\ node_mem s !! dijkstra_originator (ep_target e) = None
  | Undef _ => False
  end.
Proof. vm_compute. eauto. Qed.

(** Information with the validity time zero has no timer that would end it. *)
Example zero_validity_stays : match run_all [Node_add (addr4 10 0 0 1 32) 0 7; Edge_add 1 (addr4 10 0 0 2 32)] (olsrv2_tc_init demo_init) with
  | Def s => edge_mem s !! 1%positive <> None /\ is_active (timers s) 1 = false /\ is_active (timers s) 2 = false
  | Undef _ => False
  end.
Proof. by vm_compute. Qed.
End example.
