(* ===== verification/TcReader.v ===== *)
(** The reader of TC messages, src/olsrv2/olsrv2/olsrv2_reader.c, with the
    decisions to process and to forward a message of src/olsrv2/olsrv2/olsrv2.c:
    what the callbacks do to the topology database and the duplicate sets. *)

From Stdlib Require Import ZArith Lia Sorted.
From stdpp Require Import base list numbers option gmap sets.
From S2P Require Import Prelude AvlSpec StateMonad Rfc5444Values Netaddr ReaderParse ReaderSchedule ReaderTable MprSelection NhdpDb RoutingSet Timer ValidityTimer DuplicateSet TcDatabase NhdpDomain.

Local Open Scope Z_scope.
Local Open Scope cint_scope.

(** ** The descriptions of the TLVs *)

Definition RFC7181_MSGTYPE_TC : Z := 1.
Definition RFC7181_CONT_SEQ_NUM_COMPLETE : Z := 0.
Definition RFC7181_CONT_SEQ_NUM_INCOMPLETE : Z := 1.
Definition RFC7181_NBR_ADDR_TYPE_ORIGINATOR : Z := 1.
Definition RFC7181_NBR_ADDR_TYPE_ROUTABLE : Z := 2.
Definition RFC7181_LINKMETRIC_INCOMING_NEIGH : Z := 32.
Definition RFC7181_LINKMETRIC_OUTGOING_NEIGH : Z := 16.
Definition RFC7181_DSTSPEC_GATEWAY : Z := 0.
Definition RFC7181_SRCSPEC_GATEWAY : Z := 1.
Definition RFC7181_SRCSPEC_DEF_GATEWAY : Z := 2.

Definition IDX_TLV_ITIME : nat := 0.
Definition IDX_TLV_VTIME : nat := 1.
Definition IDX_TLV_CONT_SEQ_NUM : nat := 2.
Definition IDX_TLV_MPRTYPES : nat := 3.
Definition IDX_TLV_SSR : nat := 4.

Definition IDX_ADDRTLV_LINK_METRIC : nat := 0.
Definition IDX_ADDRTLV_NBR_ADDR_TYPE : nat := 1.
Definition IDX_ADDRTLV_GATEWAY : nat := 2.
Definition IDX_ADDRTLV_SRC_PREFIX : nat := 3.

Definition _olsrv2_message_tlvs : list consumer_entry := [
  (* RFC5497_MSGTLV_INTERVAL_TIME *) tlv_entry false 0 0 true (Some (1, 511));
  (* RFC5497_MSGTLV_VALIDITY_TIME *) tlv_entry true 1 0 true (Some (1, 511));
  (* RFC7181_MSGTLV_CONT_SEQ_NUM *) tlv_entry true 8 0 false (Some (2, 65535));
  (* RFC7722_MSGTLV_MPR_TYPES *) tlv_entry false 7 1 true (Some (1, Z.of_nat NHDP_MAXIMUM_DOMAINS));
  (* DRAFT_SSR_MSGTLV_CAPABILITY *) tlv_entry false 7 2 true None].

Definition _olsrv2_address_tlvs : list consumer_entry := [
  (* RFC7181_ADDRTLV_LINK_METRIC *) tlv_entry false 7 0 false (Some (2, 65535));
  (* RFC7181_ADDRTLV_NBR_ADDR_TYPE *) tlv_entry false 9 0 false (Some (1, 65535));
  (* RFC7181_ADDRTLV_GATEWAY *) tlv_entry false 10 0 false (Some (1, 65535));
  (* SRCSPEC_GW_ADDRTLV_SRC_PREFIX *) tlv_entry false 224 0 false (Some (1, 17))].

(** ** State *)

(** [struct _olsrv2_data]; [mprtypes_size] is the length of [s_mprtypes]. *)
Record _olsrv2_data := {
  s_node : option ptr;
  s_vtime : Z;
  complete_tc : bool;
  s_mprtypes : bytes;
  s_changed : list bool;
}.

Definition cleared_session : _olsrv2_data :=
  {| s_node := None; s_vtime := 0; complete_tc := false; s_mprtypes := []; s_changed := repeat false NHDP_MAXIMUM_DOMAINS |}.

Record reader_state := {
  db : tc_db;
  processed_set : oonf_duplicate_set;
  forwarded_set : oonf_duplicate_set;
  _current : _olsrv2_data;
}.

Notation reader_M := (state_M reader_state).

Definition set_db (d : tc_db) (s : reader_state) : reader_state :=
  {| db := d; processed_set := processed_set s; forwarded_set := forwarded_set s; _current := _current s |}.
Definition set_processed (p : oonf_duplicate_set) (s : reader_state) : reader_state :=
  {| db := db s; processed_set := p; forwarded_set := forwarded_set s; _current := _current s |}.
Definition set_forwarded (p : oonf_duplicate_set) (s : reader_state) : reader_state :=
  {| db := db s; processed_set := processed_set s; forwarded_set := p; _current := _current s |}.
Definition set_current (c : _olsrv2_data) (s : reader_state) : reader_state :=
  {| db := db s; processed_set := processed_set s; forwarded_set := forwarded_set s; _current := c |}.

Definition with_session_node (p : option ptr) (c : _olsrv2_data) : _olsrv2_data :=
  {| s_node := p; s_vtime := s_vtime c; complete_tc := complete_tc c; s_mprtypes := s_mprtypes c; s_changed := s_changed c |}.
Definition with_changed (i : nat) (b : bool) (c : _olsrv2_data) : _olsrv2_data :=
  {| s_node := s_node c; s_vtime := s_vtime c; complete_tc := complete_tc c; s_mprtypes := s_mprtypes c;
     s_changed := alter (fun old => old || b) i (s_changed c) |}.

(** A call into the database. *)
Definition on_db {A} (m : state_M tc_db A) : reader_M A := fun s =>
  match m (db s) with Def (a, d) => Def (a, set_db d s) | Undef u => Undef u end.

Local Open Scope state_scope.

Definition get_current : reader_M _olsrv2_data := s <~ get ;; ret (_current s).
Definition modify_current (f : _olsrv2_data -> _olsrv2_data) : reader_M unit := modify (fun s => set_current (f (_current s)) s).

(** [array[i]] *)
Definition cell {A} (l : list A) (i : nat) : outcome A := match l !! i with Some x => Def x | None => Undef UB_read end.

(** Fields of the objects that the reader writes. *)
Definition with_e_ansn (ansn : Z) (e : olsrv2_tc_edge) : olsrv2_tc_edge :=
  {| e_src := e_src e; e_dst := e_dst e; inverse := inverse e; e_cost := e_cost e; e_ansn := ansn; virtual := virtual e |}.
Definition with_a_ansn (ansn : Z) (a : olsrv2_tc_attachment) : olsrv2_tc_attachment :=
  {| a_src := a_src a; a_dst := a_dst a; a_cost := a_cost a; a_distance := a_distance a; a_ansn := ansn |}.
Definition with_a_cost (c : list Z) (a : olsrv2_tc_attachment) : olsrv2_tc_attachment :=
  {| a_src := a_src a; a_dst := a_dst a; a_cost := c; a_distance := a_distance a; a_ansn := a_ansn a |}.
Definition with_a_distance (d : list Z) (a : olsrv2_tc_attachment) : olsrv2_tc_attachment :=
  {| a_src := a_src a; a_dst := a_dst a; a_cost := a_cost a; a_distance := d; a_ansn := a_ansn a |}.
Definition with_interval (itime : Z) (ssr : bool) (n : olsrv2_tc_node) : olsrv2_tc_node :=
  {| n_target := n_target n; n_ansn := n_ansn n; interval_time := itime; direct_neighbor := direct_neighbor n; source_specific := ssr;
     ss_attached_networks := ss_attached_networks n; _edges := _edges n; _attached_networks := _attached_networks n |}.
Definition with_ss_attached (l : list bool) (n : olsrv2_tc_node) : olsrv2_tc_node :=
  {| n_target := n_target n; n_ansn := n_ansn n; interval_time := interval_time n; direct_neighbor := direct_neighbor n;
     source_specific := source_specific n; ss_attached_networks := l; _edges := _edges n; _attached_networks := _attached_networks n |}.

(** The other end of a packet: what [_protocol->input] says, and the link of NHDP
    with the source address. *)
Record nhdp_source_link := {
  local_is_flooding_mpr_of : bool;
  neigh_symmetric : Z;
  dualstack_symmetric : option Z;
}.
Record rfc5444_input := {
  (* NULL, or whether it is the unicast receiver *)
  input_interface : option bool;
  src_address : option netaddr;
  source_link : option nhdp_source_link;
  (* oonf_rfc5444_is_interface_active for an address family *)
  is_interface_active : Z -> bool;
}.

Section reader.
Context (os_core_get_random : nat -> option Z).
Context (_validity_info _vtime_info : positive).
Context (malloc : gset ptr -> nat -> option ptr).
(** [nhdp_domain_get_list], the originators of this router and
    [_olsrv2_config.f_hold_time]. *)
Context (domains : list nhdp_domain) (env : olsrv2_env) (f_hold_time : Z).
Context (input : rfc5444_input).

(** ** Processing and forwarding *)

(** [oonf_duplicate_entry_add] in one of the two sets: an entry lives, like a node,
    together with its timer. *)
Definition duplicate_add (set_of : reader_state -> oonf_duplicate_set) (put : oonf_duplicate_set -> reader_state -> reader_state)
    (m : message_context) (vtime : Z) : reader_M oonf_duplicate_result :=
  s <~ get ;;
  memory <~ match find_entry {| key_addr := orig_addr m; key_msg_type := msg_type m |} (set_of s) with
    | None => on_db (oonf_class_malloc malloc node_addresses)
    | Some _ => ret None
    end ;;
  s <~ get ;;
  r <~ lift (oonf_duplicate_entry_add os_core_get_random _vtime_info (set_of s) (timers (db s)) (msg_type m) (orig_addr m) (seqno m)
    (u64 (vtime + f_hold_time)) memory) ;;
  let '(result, set, t) := r in
  modify (put set) ;;;
  on_db (modify (set_timers t)) ;;;
  ret result.

Definition olsrv2_mpr_shall_process (m : message_context) (vtime : Z) : reader_M bool :=
  if negb (has_origaddr m) || negb (has_seqno m) then ret false
  else
    dup_result <~ duplicate_add processed_set set_processed m vtime ;;
    ret (oonf_duplicate_is_new dup_result).

Definition olsrv2_mpr_shall_forwarding (m : message_context) (source_address : option netaddr) (vtime : Z) : reader_M bool :=
  if negb (has_origaddr m) || negb (has_seqno m) then ret false
  else match input_interface input, source_address with
  | None, _ | _, None => ret false
  | Some true, Some _ => ret false
  | Some false, Some source_address =>
      dup_result <~ duplicate_add forwarded_set set_forwarded m vtime ;;
      if negb (oonf_duplicate_is_new dup_result) then ret false
      else match source_link input with
      | None => ret false
      | Some laddr =>
          if na_type (orig_addr m) =? na_type source_address
          then ret (local_is_flooding_mpr_of laddr && (0 <? neigh_symmetric laddr))
          else match dualstack_symmetric laddr with
          | None => ret false
          | Some symmetric => ret (local_is_flooding_mpr_of laddr && (0 <? symmetric))
          end
      end
  end.

(** ** The message *)

Definition timetlv (t : tlv_data) (hopcount : Z) : outcome Z :=
  code ← rfc5497_timetlv_get_from_vector (tlv_value t) hopcount; Def (rfc5497_timetlv_decode code).

(** The guards in front: [Some] is the result that drops the message. *)
Definition message_guard (m : message_context) : option Z :=
  if negb (has_origaddr m) || negb (has_hopcount m) || negb (has_hoplimit m) || negb (has_seqno m) then Some RFC5444_DROP_MESSAGE
  else if olsrv2_originator_is_local env (orig_addr m) then Some RFC5444_DROP_MESSAGE
  else
    let af_type := if addr_len m =? 4 then AF_INET else if addr_len m =? 16 then AF_INET6 else 0 in
    if negb (is_interface_active input af_type) then Some RFC5444_DROP_MESSAGE else None.

(** [_cb_messagetlvs]: the result and whether forwarding is prevented. *)
Definition _cb_messagetlvs (m : message_context) (tlv : tlv_table) : reader_M (Z * bool) :=
  modify (set_current cleared_session) ;;;
  match message_guard m with
  | Some result => ret (result, false)
  | None =>
      cont <~ lift (cell _olsrv2_message_tlvs IDX_TLV_CONT_SEQ_NUM) ;;
      let tmp := ce_type_ext cont in
      if negb (tmp =? RFC7181_CONT_SEQ_NUM_COMPLETE) && negb (tmp =? RFC7181_CONT_SEQ_NUM_INCOMPLETE) then ret (RFC5444_DROP_MESSAGE, false)
      else
        let complete := tmp =? RFC7181_CONT_SEQ_NUM_COMPLETE in
        cont_seq_num <~ lift (first_tlv tlv IDX_TLV_CONT_SEQ_NUM) ;;
        b0 <~ lift (rd (tlv_value cont_seq_num) 0) ;;
        b1 <~ lift (rd (tlv_value cont_seq_num) 1) ;;
        let ansn := 256 * b0 + b1 in
        vtime_tlv <~ lift (first_tlv tlv IDX_TLV_VTIME) ;;
        vtime <~ lift (timetlv vtime_tlv (hopcount m)) ;;
        itime <~ match head (tlv IDX_TLV_ITIME) with Some t => lift (timetlv t (hopcount m)) | None => ret 0 end ;;
        mprtypes <~ lift (nhdp_domain_process_mprtypes_tlv domains NHDP_MAXIMUM_DOMAINS (tlv_value <$> head (tlv IDX_TLV_MPRTYPES))) ;;
        modify_current (fun c => {| s_node := s_node c; s_vtime := vtime; complete_tc := complete; s_mprtypes := mprtypes; s_changed := s_changed c |}) ;;;
        forward <~ olsrv2_mpr_shall_forwarding m (src_address input) vtime ;;
        let prevent := negb (forward : bool) in
        process <~ olsrv2_mpr_shall_process m vtime ;;
        if negb (process : bool) then ret (RFC5444_DROP_MSG_BUT_FORWARD, prevent)
        else
          node <~ on_db (olsrv2_tc_node_add os_core_get_random _validity_info malloc (orig_addr m) vtime ansn) ;;
          modify_current (with_session_node node) ;;;
          match node with
          | None => ret (RFC5444_DROP_MSG_BUT_FORWARD, prevent)
          | Some node =>
              n <~ on_db (load node_mem node) ;;
              if (if complete then rfc5444_seqno_is_smaller ansn (n_ansn n) else negb (rfc5444_seqno_is_larger ansn (n_ansn n)))
              then ret (RFC5444_DROP_MSG_BUT_FORWARD, prevent)
              else
                on_db (store_node node (with_ansn ansn n)) ;;;
                on_db (timer_set os_core_get_random node vtime) ;;;
                n <~ on_db (load node_mem node) ;;
                on_db (store_node node (with_interval itime (match tlv IDX_TLV_SSR with [] => false | _ => true end) n)) ;;;
                ret (RFC5444_OKAY, prevent)
          end
  end.

(** ** Addresses *)

(** The metrics of an address for every domain, in and out. *)
Fixpoint metric_loop (tlvs : list tlv_data) (cost_in cost_out : list Z) : outcome (list Z * list Z) :=
  match tlvs with
  | [] => Def (cost_in, cost_out)
  | t :: tlvs =>
      match nhdp_domain_get_by_ext domains (tlv_ext t) with
      | None => metric_loop tlvs cost_in cost_out
      | Some domain =>
          b0 ← rd (tlv_value t) 0;
          b1 ← rd (tlv_value t) 1;
          let metric_value := {| mf_b0 := b0; mf_b1 := b1 |} in
          let put flag costs := if rfc7181_metric_has_flag metric_value flag then <[index domain := rfc7181_metric_decode metric_value]> costs else costs in
          metric_loop tlvs (put RFC7181_LINKMETRIC_INCOMING_NEIGH cost_in) (put RFC7181_LINKMETRIC_OUTGOING_NEIGH cost_out)
      end
  end.

(** Writing a metric and remembering that it changed. *)
Definition put_edge_cost (edge : ptr) (i : nat) (c : Z) : reader_M unit :=
  e <~ on_db (load edge_mem edge) ;;
  old <~ lift (cell (e_cost e) i) ;;
  modify_current (with_changed i (negb (old =? c))) ;;;
  on_db (store_edge edge (with_cost (<[i := c]> (e_cost e)) e)).
Definition put_attached_cost (net : ptr) (i : nat) (c : Z) : reader_M unit :=
  a <~ on_db (load attachment_mem net) ;;
  old <~ lift (cell (a_cost a) i) ;;
  modify_current (with_changed i (negb (old =? c))) ;;;
  on_db (store_attachment net (with_a_cost (<[i := c]> (a_cost a)) a)).

(** One round of the loops over the domains. *)
Definition edge_round (edge : ptr) (cost_in cost_out : list Z) (i : nat) : reader_M unit :=
  c <~ get_current ;;
  c_out <~ lift (cell cost_out i) ;;
  c_in <~ lift (cell cost_in i) ;;
  (if c_out <=? RFC7181_METRIC_MAX then put_edge_cost edge i c_out
   else if complete_tc c then put_edge_cost edge i RFC7181_METRIC_INFINITE else ret tt) ;;;
  e <~ on_db (load edge_mem edge) ;;
  inv <~ on_db (load edge_mem (inverse e)) ;;
  if virtual inv && (c_in <=? RFC7181_METRIC_MAX) then put_edge_cost (inverse e) i c_in
  else if virtual inv && complete_tc c then put_edge_cost (inverse e) i RFC7181_METRIC_INFINITE else ret tt.
Definition attached_round (net : ptr) (cost_out : list Z) (i : nat) : reader_M unit :=
  c <~ get_current ;;
  c_out <~ lift (cell cost_out i) ;;
  if c_out <=? RFC7181_METRIC_MAX then put_attached_cost net i c_out
  else if complete_tc c then put_attached_cost net i RFC7181_METRIC_INFINITE else ret tt.

(** [for (i = 0; i < NHDP_MAXIMUM_DOMAINS; i++)] and the other counting loops. *)
Fixpoint rounds (l : list nat) (body : nat -> reader_M unit) : reader_M unit :=
  match l with [] => ret tt | i :: l => body i ;;; rounds l body end.

(** The prefix of a gateway: [None] is a type the code does not know. *)
Definition gateway_prefix (ext : Z) (ssprefix : os_route_key) (addr : netaddr) (src_prefix : option tlv_data) : outcome (option os_route_key) :=
  key ← (if (ext =? RFC7181_DSTSPEC_GATEWAY) || (ext =? RFC7181_SRCSPEC_GATEWAY) then
           dst ← netaddr_truncate_inplace (rk_dst ssprefix); Def (Some {| rk_dst := dst; rk_src := rk_src ssprefix |})
         else if ext =? RFC7181_SRCSPEC_DEF_GATEWAY then
           let key := os_routing_init_sourcespec_prefix addr in
           src ← netaddr_truncate_inplace (rk_dst key); Def (Some {| rk_dst := rk_src key; rk_src := src |})
         else Def None);
  match key, src_prefix with
  | None, _ => Def None
  | Some key, None => Def (Some key)
  | Some key, Some t =>
      plen ← rd (tlv_value t) 0;
      octets ← wr_n (na_addr (rk_src key)) 0 (tail (tlv_value t));
      Def (Some {| rk_dst := rk_dst key; rk_src := {| na_addr := octets; na_type := na_type (rk_src key); na_prefix_len := plen |} |})
  end.

(** One round of the loop over the types: metric and distance of a domain. *)
Definition gateway_round (net : ptr) (cost_out : list Z) (t : tlv_data) (mprtypes : bytes) (i : nat) : reader_M unit :=
  ext_ <~ lift (cell mprtypes i) ;;
  match nhdp_domain_get_by_ext domains ext_ with
  | None => ret tt
  | Some domain =>
      c_out <~ lift (cell cost_out (index domain)) ;;
      distance <~ lift (rd (tlv_value t) (if blen (tlv_value t) =? 1 then 0 else Z.of_nat i)) ;;
      a <~ on_db (load attachment_mem net) ;;
      on_db (store_attachment net (with_a_distance (<[index domain := distance]> (a_distance a)) (with_a_cost (<[index domain := c_out]> (a_cost a)) a)))
  end.

Definition _handle_gateways (t : tlv_data) (ssprefix : os_route_key) (cost_out : list Z) (addr : netaddr) (src_prefix : option tlv_data) : reader_M unit :=
  c <~ get_current ;;
  if (1 <? blen (tlv_value t)) && (blen (tlv_value t) <? blen (s_mprtypes c)) then ret tt
  else
    key <~ lift (gateway_prefix (tlv_ext t) ssprefix addr src_prefix) ;;
    match key, s_node c with
    | None, _ => ret tt
    | Some _, None => undef UB_null
    | Some key, Some node =>
        net <~ on_db (olsrv2_tc_endpoint_add malloc node key false) ;;
        match net with
        | None => ret tt
        | Some net =>
            n <~ on_db (load node_mem node) ;;
            a <~ on_db (load attachment_mem net) ;;
            on_db (store_attachment net (with_a_ansn (n_ansn n) a)) ;;;
            (if complete_tc c then
               a <~ on_db (load attachment_mem net) ;; on_db (store_attachment net (with_a_cost infinite_costs a))
             else ret tt) ;;;
            rounds (seq 0 (length (s_mprtypes c))) (gateway_round net cost_out t (s_mprtypes c))
        end
    end.

Definition _cb_addresstlvs (addr : netaddr) (tlv : tlv_table) : reader_M Z :=
  c <~ get_current ;;
  match s_node c with
  | None => ret RFC5444_OKAY
  | Some node =>
      let ssprefix := os_routing_init_sourcespec_prefix addr in
      costs <~ lift (metric_loop (tlv IDX_ADDRTLV_LINK_METRIC) infinite_costs infinite_costs) ;;
      let '(cost_in, cost_out) := costs in
      match head (tlv IDX_ADDRTLV_NBR_ADDR_TYPE) with
      | None => ret tt
      | Some t =>
          v <~ lift (rd (tlv_value t) 0) ;;
          if negb (v .& RFC7181_NBR_ADDR_TYPE_ORIGINATOR =? 0) then
            edge <~ on_db (olsrv2_tc_edge_add os_core_get_random _validity_info malloc node addr) ;;
            match edge with
            | None => ret tt
            | Some edge =>
                n <~ on_db (load node_mem node) ;;
                e <~ on_db (load edge_mem edge) ;;
                on_db (store_edge edge (with_e_ansn (n_ansn n) e)) ;;;
                rounds (seq 0 NHDP_MAXIMUM_DOMAINS) (edge_round edge cost_in cost_out)
            end
          else if negb (v .& RFC7181_NBR_ADDR_TYPE_ROUTABLE =? 0) then
            net <~ on_db (olsrv2_tc_endpoint_add malloc node ssprefix true) ;;
            match net with
            | None => ret tt
            | Some net =>
                n <~ on_db (load node_mem node) ;;
                a <~ on_db (load attachment_mem net) ;;
                on_db (store_attachment net (with_a_ansn (n_ansn n) a)) ;;;
                rounds (seq 0 NHDP_MAXIMUM_DOMAINS) (attached_round net cost_out)
            end
          else ret tt
      end ;;;
      match head (tlv IDX_ADDRTLV_GATEWAY) with
      | None => ret tt
      | Some t => _handle_gateways t ssprefix cost_out addr (head (tlv IDX_ADDRTLV_SRC_PREFIX))
      end ;;;
      ret RFC5444_OKAY
  end.

(** ** The end of the message *)

(** The loops over what the node announced before. *)
Definition remove_old_edges (node : ptr) : tc_M unit :=
  for_each_safe (n <~ load node_mem node ;; ret (_edges n)) (fun edge =>
    e <~ load edge_mem edge ;;
    n <~ load node_mem node ;;
    if e_ansn e =? n_ansn n then ret tt else olsrv2_tc_edge_remove edge ;;; ret tt).
Definition remove_old_networks (node : ptr) : tc_M unit :=
  for_each_safe (n <~ load node_mem node ;; ret (_attached_networks n)) (fun end_ =>
    a <~ load attachment_mem end_ ;;
    n <~ load node_mem node ;;
    if a_ansn a =? n_ansn n then ret tt else olsrv2_tc_endpoint_remove end_).

(** A source-specific prefix with a metric in the domain at [i]; the loop ends
    with the first one. *)
Fixpoint find_source_specific (l : list ptr) (i : nat) : tc_M bool :=
  match l with
  | [] => ret false
  | net :: l =>
      a <~ load attachment_mem net ;;
      e <~ load endpoint_mem (a_dst a) ;;
      c <~ lift (cell (a_cost a) i) ;;
      if (c <=? RFC7181_METRIC_MAX) && (0 <? na_prefix_len (rk_src (prefix (ep_target e)))) then ret true
      else find_source_specific l i
  end.

Fixpoint source_specific_loop (l : list nhdp_domain) (node : ptr) : tc_M unit :=
  match l with
  | [] => ret tt
  | d :: l =>
      n <~ load node_mem node ;;
      found <~ find_source_specific (_attached_networks n) (index d) ;;
      store_node node (with_ss_attached (<[index d := found]> (ss_attached_networks n)) n) ;;;
      source_specific_loop l node
  end.

(** [olsrv2_routing_domain_changed] for the domains that changed. *)
Fixpoint changed_loop (l : list nhdp_domain) (changed : list bool) : tc_M unit :=
  match l with
  | [] => ret tt
  | d :: l =>
      b <~ lift (cell changed (index d)) ;;
      (if (b : bool) then call (TcDatabase.Domain_changed (index d)) else ret tt) ;;;
      changed_loop l changed
  end.

Definition _cb_messagetlvs_end (dropped : bool) : reader_M Z :=
  c <~ get_current ;;
  match s_node c with
  | None => ret RFC5444_OKAY
  | Some node =>
      if dropped then ret RFC5444_OKAY
      else
        on_db (remove_old_edges node) ;;;
        on_db (remove_old_networks node) ;;;
        on_db (source_specific_loop domains node) ;;;
        on_db (olsrv2_tc_trigger_change node) ;;;
        modify_current (with_session_node None) ;;;
        on_db (changed_loop domains (s_changed c)) ;;;
        ret RFC5444_OKAY
  end.

(** ** A whole message

    The reader calls the message callback, then that of every address, then the
    end callback. *)
Fixpoint address_loop (addresses : list (netaddr * tlv_table)) : reader_M unit :=
  match addresses with
  | [] => ret tt
  | (addr, tlv) :: addresses => _cb_addresstlvs addr tlv ;;; address_loop addresses
  end.

Definition handle_tc (m : message_context) (tlv : tlv_table) (addresses : list (netaddr * tlv_table)) : reader_M (Z * bool) :=
  r <~ _cb_messagetlvs m tlv ;;
  (if r.1 =? RFC5444_OKAY then address_loop addresses else ret tt) ;;;
  _cb_messagetlvs_end (negb (r.1 =? RFC5444_OKAY)) ;;;
  ret r.
End reader.
