(* ===== verification/TcFrame.v ===== *)
(** What the topology database shows of a router to the outside, and what a
    message of one router leaves as it is: the edges and networks of the others. *)

From Stdlib Require Import ZArith Lia Sorted.
From stdpp Require Import base list numbers option gmap sets.
From S2P Require Import Prelude AvlSpec StateMonad Rfc5444Values Netaddr MprSelection NhdpDb RoutingSet Timer ValidityTimer TcDatabase TcInvariant TcNets TcFacts TcRemove TcRefine.

Local Open Scope Z_scope.

(** Metrics and distances of a network. *)
Definition net_metrics : Type := list Z * list Z.
Definition metrics_of (x : olsrv2_tc_attachment) : net_metrics := (a_cost x, a_distance x).
Definition no_metrics : net_metrics := (infinite_costs, repeat 0 NHDP_MAXIMUM_DOMAINS).

(** The edge from [x] to [y]: whether it is virtual, its ANSN and its metrics. *)
Definition edge_shown (s : tc_db) (x y : netaddr) (v : bool) (N : Z) (c : list Z) : Prop := exists e ed, edge_mem s !! e = Some ed /\
  node_key (prefixes (node_mem s)) (e_src ed) = x /\ node_key (prefixes (node_mem s)) (e_dst ed) = y /\ virtual ed = v /\ e_ansn ed = N /\ e_cost ed = c.

(** The network [k] of [x]: its ANSN, its metrics and distances. *)
Definition net_shown (s : tc_db) (x : netaddr) (k : os_route_key) (N : Z) (m : net_metrics) : Prop := exists a z, attachment_mem s !! a = Some z /\
  node_key (prefixes (node_mem s)) (a_src z) = x /\ prefix_at (ep_prefixes (endpoint_mem s)) (a_dst z) = k /\ a_ansn z = N /\ metrics_of z = m.

(** Neither edges nor networks nor their names have changed. *)
Record objects_same (s s' : tc_db) : Prop := {
  ob_edges : edge_mem s' = edge_mem s;
  ob_nets : attachment_mem s' = attachment_mem s;
  ob_nodes : prefixes (node_mem s') = prefixes (node_mem s);
  ob_endpoints : ep_prefixes (endpoint_mem s') = ep_prefixes (endpoint_mem s);
}.

#[export] Instance objects_same_preorder : PreOrder objects_same.
Proof. split; [by intros s|]. intros s1 s2 s3 [A1 A2 A3 A4] [B1 B2 B3 B4]. split; congruence. Qed.

(** Neither have what is shown of edges and networks. *)
Record shown_same (s s' : tc_db) : Prop := {
  ss_edges x y v N c : edge_shown s' x y v N c <-> edge_shown s x y v N c;
  ss_nets x k N m : net_shown s' x k N m <-> net_shown s x k N m;
}.

Lemma objects_shown s s' : objects_same s s' -> shown_same s s'.
Proof. intros [E1 E2 E3 E4]. split; intros; unfold edge_shown, net_shown; by rewrite ?E1, ?E2, ?E3, ?E4. Qed.

Lemma shown_same_trans s1 s2 s3 : shown_same s1 s2 -> shown_same s2 s3 -> shown_same s1 s3.
Proof. intros [A1 A2] [B1 B2]. split; intros; [by rewrite B1|by rewrite B2]. Qed.

(** ** What is not the business of the node at [p] *)

(** Edges of other nodes; of those to [p] only the announced ones. *)
Definition foreign (p : ptr) (d : olsrv2_tc_edge) : Prop := e_src d <> p /\ (virtual d = false \/ e_dst d <> p).

Definition other_edge (p : ptr) (s : tc_db) (x : ptr) (d : olsrv2_tc_edge) (a b : netaddr) : Prop := foreign p d /\ edge_mem s !! x = Some d /\
  node_key (prefixes (node_mem s)) (e_src d) = a /\ node_key (prefixes (node_mem s)) (e_dst d) = b.

Definition other_net (p : ptr) (s : tc_db) (y : ptr) (z : olsrv2_tc_attachment) (a : netaddr) (k : os_route_key) : Prop := a_src z <> p /\
  attachment_mem s !! y = Some z /\ node_key (prefixes (node_mem s)) (a_src z) = a /\ prefix_at (ep_prefixes (endpoint_mem s)) (a_dst z) = k.

Record others_same (p : ptr) (s s' : tc_db) : Prop := {
  os_edges x d a b : other_edge p s' x d a b <-> other_edge p s x d a b;
  os_nets y z a k : other_net p s' y z a k <-> other_net p s y z a k;
}.

#[export] Instance others_same_preorder p : PreOrder (others_same p).
Proof. split; [by intros s|]. intros s1 s2 s3 [A1 A2] [B1 B2]. split; intros; [by rewrite B1|by rewrite B2]. Qed.

(** A map of names that only grew or only lost entries. *)
Definition names_agree {K V} `{Countable K} (m m' : gmap K V) : Prop :=
  (forall q k, m !! q = Some k -> m' !! q = Some k) \/ (forall q k, m' !! q = Some k -> m !! q = Some k).

Lemma names_agree_refl {K V} `{Countable K} (m : gmap K V) : names_agree m m.
Proof. by left. Qed.
#[export] Hint Resolve names_agree_refl : core.

Lemma node_key_agree P P' q : names_agree P P' -> is_Some (P !! q) -> is_Some (P' !! q) -> node_key P' q = node_key P q.
Proof.
  intros H [k Hk] [k' Hk']. rewrite (node_key_at _ _ _ Hk), (node_key_at _ _ _ Hk'). f_equal.
  destruct H as [H|H]; [apply H in Hk|apply H in Hk']; congruence.
Qed.

Lemma prefix_agree (P P' : gmap ptr os_route_key) q : names_agree P P' -> is_Some (P !! q) -> is_Some (P' !! q) -> prefix_at P' q = prefix_at P q.
Proof. intros H [k Hk] [k' Hk']. unfold prefix_at. rewrite Hk, Hk'. simpl. destruct H as [H|H]; [apply H in Hk|apply H in Hk']; congruence. Qed.

Section frame.
Context (max_interval : Z) (_validity_info : positive).
#[local] Notation rep := (rep _validity_info max_interval).

Lemma others_same_intro F F' p s s' : rep ∅ ∅ F s -> rep ∅ ∅ F' s' ->
  (forall x d, foreign p d -> edge_mem s' !! x = Some d <-> edge_mem s !! x = Some d) ->
  (forall y z, a_src z <> p -> attachment_mem s' !! y = Some z <-> attachment_mem s !! y = Some z) ->
  names_agree (prefixes (node_mem s)) (prefixes (node_mem s')) -> names_agree (ep_prefixes (endpoint_mem s)) (ep_prefixes (endpoint_mem s')) ->
  others_same p s s'.
Proof.
  intros H H' He Hn HP HQ. split.
  - intros x d a b. split; intros (Hf & Hx & Ea & Eb); pose proof Hx as Hx2; apply (He x d Hf) in Hx2; (split; [done|split; [done|]]).
    + destruct (eo_ends (r_edges H') x d Hx) as (? & ? & _), (eo_ends (r_edges H) x d Hx2) as (? & ? & _). by rewrite <- !(node_key_agree _ _ _ HP).
    + destruct (eo_ends (r_edges H) x d Hx) as (? & ? & _), (eo_ends (r_edges H') x d Hx2) as (? & ? & _). by rewrite !(node_key_agree _ _ _ HP).
  - intros y z a k. split; intros (Hf & Hy & Ea & Ek); pose proof Hy as Hy2; apply (Hn y z Hf) in Hy2; (split; [done|split; [done|]]).
    + destruct (nt_ends (r_nets H') y z Hy) as (? & ?), (nt_ends (r_nets H) y z Hy2) as (? & ?). by rewrite <- (node_key_agree _ _ _ HP), <- (prefix_agree _ _ _ HQ).
    + destruct (nt_ends (r_nets H) y z Hy) as (? & ?), (nt_ends (r_nets H') y z Hy2) as (? & ?). by rewrite (node_key_agree _ _ _ HP), (prefix_agree _ _ _ HQ).
Qed.

Lemma objects_others p s s' : objects_same s s' -> others_same p s s'.
Proof. intros [E1 E2 E3 E4]. split; intros; unfold other_edge, other_net; by rewrite ?E1, ?E2, ?E3, ?E4. Qed.

(** More nodes. *)
Lemma nodes_added_shown F s s' : rep ∅ ∅ F s -> edge_mem s' = edge_mem s -> attachment_mem s' = attachment_mem s ->
  ep_prefixes (endpoint_mem s') = ep_prefixes (endpoint_mem s) ->
  (forall q k, prefixes (node_mem s) !! q = Some k -> prefixes (node_mem s') !! q = Some k) -> shown_same s s'.
Proof.
  intros H E1 E2 E3 HP.
  assert (forall q, is_Some (prefixes (node_mem s) !! q) -> node_key (prefixes (node_mem s')) q = node_key (prefixes (node_mem s)) q) as Hkey.
  { intros q [k Hk]. by rewrite (node_key_at _ _ _ Hk), (node_key_at _ _ _ (HP _ _ Hk)). }
  split; intros; unfold edge_shown, net_shown; rewrite ?E1, ?E2, ?E3.
  - split; intros (e & ed & He & Es & Ed & ?); exists e, ed; destruct (eo_ends (r_edges H) e ed He) as (HS & HD & _);
      [rewrite !Hkey in Es, Ed by done|rewrite !Hkey by done]; done.
  - split; intros (a & z & Hz & Es & ?); exists a, z; destruct (nt_ends (r_nets H) a z Hz) as (HS & _); [rewrite Hkey in Es by done|rewrite Hkey by done]; done.
Qed.

Lemma others_edge_added F F' p e s s' : rep ∅ ∅ F s -> rep ∅ ∅ F' s' -> (exists ed, edge_mem s' !! e = Some ed /\ e_src ed = p) -> edge_added p e s s' ->
  others_same p s s'.
Proof.
  intros H H' (ed & He & Es) [A1 A2 A3 A4 A5 A6 A7 A8]. eapply others_same_intro; [exact H|exact H'|..].
  - intros x d [Hs Hv]. split; intros Hx.
    + assert (x <> e) as Hxe by (intros ->; congruence). destruct (A8 x d Hxe Hx) as [?|(Hv' & Hd & _)]; [done|]. destruct Hv; congruence.
    + destruct (decide (x = e)) as [->|Hxe]; [|by apply A4]. exfalso. apply Hs.
      destruct (A7 d Hx) as (d' & Hd' & E & _). congruence.
  - by rewrite A1.
  - by left.
  - by rewrite A2.
Qed.
Lemma others_edge_removed F F' e ed s s' : rep ∅ ∅ F s -> rep ∅ ∅ F' s' -> edge_mem s !! e = Some ed -> edge_removed e ed s s' ->
  others_same (e_src ed) s s'.
Proof.
  intros H H' He [_ _ R2 R3 R4 R5 R6 R7 R8]. eapply others_same_intro; [exact H|exact H'|..].
  - intros x d [Hs Hv]. destruct (decide (x = e)) as [->|Hxe].
    + split; intros Hx; [by apply R2 in Hx|congruence].
    + destruct (decide (x = inverse ed)) as [->|Hxi]; [|by rewrite R4]. split; [apply R8|]. intros Hx. apply R3; [done|].
      destruct Hv as [?|Hd]; [done|]. destruct (eo_pair (r_edges H) e ed He) as [inv Hp]. rewrite (pair_at Hp) in Hx. injection Hx as <-.
      by rewrite (pair_dst Hp) in Hd.
  - by rewrite R5.
  - by right.
  - by rewrite R6.
Qed.

(** Writing an edge of [p] or a virtual one to [p]. *)
Lemma others_edge_written p x d d' s : edge_mem s !! x = Some d -> e_src d' = e_src d -> e_dst d' = e_dst d -> virtual d' = virtual d -> ~ foreign p d ->
  others_same p s (set_edge_mem <[x := d']> s).
Proof.
  intros Hx Es Ed Ev Hp. assert (~ foreign p d') as Hp' by (unfold foreign; by rewrite Es, Ed, Ev). split; [|done]. intros y z a b. unfold other_edge. simpl.
  split; intros (Hf & Hy & Ha & Hb); (split; [done|split; [|done]]).
  - rewrite lookup_insert_ne in Hy; [done|]. intros ->. rewrite lookup_insert_eq in Hy. congruence.
  - rewrite lookup_insert_ne; [done|]. intros ->. congruence.
Qed.

Lemma others_net_added F F' p a s s' : rep ∅ ∅ F s -> rep ∅ ∅ F' s' -> (exists x, attachment_mem s' !! a = Some x /\ a_src x = p) -> net_added p a s s' ->
  others_same p s s'.
Proof.
  intros H H' (x & Hx & Es) [N1 N2 N3 N4 N5 N6 N7]. eapply others_same_intro; [exact H|exact H'|..].
  - by rewrite N1.
  - intros y z Hs. destruct (decide (y = a)) as [->|Hy]; [|by rewrite N3]. split; [congruence|]. intros Hz. pose proof (N6 z Hz). congruence.
  - by rewrite N4.
  - by left.
Qed.

Lemma others_net_written p a x s : (forall x0, attachment_mem s !! a = Some x0 -> a_src x0 = p) -> a_src x = p ->
  others_same p s (set_attachment_mem <[a := x]> s).
Proof.
  intros H0 Hx. split; [done|]. intros y z o k. unfold other_net. simpl. split; intros (Hf & Hy & Ha & Hb); (split; [done|split; [|done]]).
  - rewrite lookup_insert_ne in Hy; [done|]. intros ->. rewrite lookup_insert_eq in Hy. congruence.
  - rewrite lookup_insert_ne; [done|]. intros ->. by apply H0 in Hy.
Qed.

Lemma others_net_removed F F' a x s s' : rep ∅ ∅ F s -> rep ∅ ∅ F' s' -> attachment_mem s !! a = Some x -> edge_mem s' = edge_mem s ->
  attachment_mem s' = delete a (attachment_mem s) -> prefixes (node_mem s') = prefixes (node_mem s) ->
  (forall q k, ep_prefixes (endpoint_mem s') !! q = Some k -> ep_prefixes (endpoint_mem s) !! q = Some k) -> others_same (a_src x) s s'.
Proof.
  intros H H' Hx Ee Ea En Ep. eapply others_same_intro; [exact H|exact H'|by rewrite Ee| |by rewrite En|by right].
  intros y z Hs. rewrite Ea. destruct (decide (y = a)) as [->|Hy]; [|by rewrite lookup_delete_ne]. rewrite lookup_delete_eq. split; congruence.
Qed.

(** What that means for the facts shown about other routers. *)
Lemma others_edge_shown F F' p s s' n n' x y v N c : rep ∅ ∅ F s -> rep ∅ ∅ F' s' -> others_same p s s' ->
  node_mem s !! p = Some n -> node_mem s' !! p = Some n' -> rk_dst (prefix (n_target n')) = rk_dst (prefix (n_target n)) ->
  x <> rk_dst (prefix (n_target n)) -> (v = false \/ y <> rk_dst (prefix (n_target n))) -> edge_shown s' x y v N c <-> edge_shown s x y v N c.
Proof.
  intros H H' [Ho _] Hn Hn' Eo Hx Hv.
  assert (forall s n d, node_mem s !! p = Some n -> rk_dst (prefix (n_target n)) <> node_key (prefixes (node_mem s)) d -> d <> p) as Hne.
  { intros s0 n0 d Hn0 Hd ->. apply Hd. symmetry. apply node_key_at, prefixes_at, Hn0. }
  split; intros (e & ed & He & Es & Ed & Ev & Ea & Ec).
  - assert (foreign p ed) as Hf by (split; [eapply Hne; [exact Hn'|congruence]|destruct Hv; [left; congruence|right; eapply Hne; [exact Hn'|congruence]]]).
    destruct (proj1 (Ho e ed x y)) as (_ & ? & ? & ?); [by split_and!|]. by exists e, ed.
  - assert (foreign p ed) as Hf by (split; [eapply Hne; [exact Hn|congruence]|destruct Hv; [left; congruence|right; eapply Hne; [exact Hn|congruence]]]).
    destruct (proj2 (Ho e ed x y)) as (_ & ? & ? & ?); [by split_and!|]. by exists e, ed.
Qed.

Lemma others_net_shown F F' p s s' n n' x k N m : rep ∅ ∅ F s -> rep ∅ ∅ F' s' -> others_same p s s' ->
  node_mem s !! p = Some n -> node_mem s' !! p = Some n' -> rk_dst (prefix (n_target n')) = rk_dst (prefix (n_target n)) ->
  x <> rk_dst (prefix (n_target n)) -> net_shown s' x k N m <-> net_shown s x k N m.
Proof.
  intros H H' [_ Ho] Hn Hn' Eo Hx. pose proof (node_key_at _ _ _ (prefixes_at _ _ _ Hn)) as K. pose proof (node_key_at _ _ _ (prefixes_at _ _ _ Hn')) as K'.
  split; intros (a & z & Hz & Es & Ed & EN & Em).
  - assert (a_src z <> p) as Hf by congruence. destruct (proj1 (Ho a z x k)) as (_ & ? & ? & ?); [by split_and!|]. by exists a, z.
  - assert (a_src z <> p) as Hf by congruence. destruct (proj2 (Ho a z x k)) as (_ & ? & ? & ?); [by split_and!|]. by exists a, z.
Qed.

(** Edges to the node at [p], by the other end. *)
Definition inward (p : ptr) (s : tc_db) (v : bool) (b : netaddr) (N : Z) (c : list Z) : Prop := exists e ed, edge_mem s !! e = Some ed /\ e_dst ed = p /\
  virtual ed = v /\ node_key (prefixes (node_mem s)) (e_src ed) = b /\ e_ansn ed = N /\ e_cost ed = c.

Lemma inward_shown F p s n v b N c : rep ∅ ∅ F s -> node_mem s !! p = Some n ->
  inward p s v b N c <-> edge_shown s b (rk_dst (prefix (n_target n))) v N c.
Proof.
  intros H Hn. pose proof (node_key_at _ _ _ (prefixes_at _ _ _ Hn)) as Ek. split.
  - intros (e & ed & He & Ed & ?). exists e, ed. rewrite Ed. tauto.
  - intros (e & ed & He & Es & Ed & ?). exists e, ed. split_and!; try tauto.
    destruct (eo_ends (r_edges H) e ed He) as (_ & HD & _). eapply node_key_inj; [apply (r_nodes H)|done|eexists; by apply prefixes_at|congruence].
Qed.

(** Announced edges to [p] are those of others. *)
Lemma inward_told F F' p s s' b N c : rep ∅ ∅ F s -> rep ∅ ∅ F' s' -> others_same p s s' -> inward p s' false b N c <-> inward p s false b N c.
Proof.
  intros H H' [Ho _]. split; intros (e & ed & He & Ed & Ev & Es & Ea & Ec).
  - destruct (eo_ends (r_edges H') e ed He) as (_ & _ & Hne).
    destruct (proj1 (Ho e ed b (node_key (prefixes (node_mem s')) (e_dst ed)))) as (_ & ? & ? & ?); [split_and!; [split; [congruence|by left]|exact He|done|done]|]. exists e, ed. split_and!; congruence.
  - destruct (eo_ends (r_edges H) e ed He) as (_ & _ & Hne).
    destruct (proj2 (Ho e ed b (node_key (prefixes (node_mem s)) (e_dst ed)))) as (_ & ? & ? & ?); [split_and!; [split; [congruence|by left]|exact He|done|done]|]. exists e, ed. split_and!; congruence.
Qed.
End frame.
