(* ===== verification/TcAnnounce.v ===== *)
(** The addresses of a TC message, src/olsrv2/olsrv2/olsrv2_reader.c: the callback
    for an address as a change of the facts that the topology database shows. *)

From Stdlib Require Import ZArith Lia Sorted.
From stdpp Require Import base list numbers option gmap sets.
From S2P Require Import Prelude AvlSpec StateMonad Rfc5444Values Netaddr ReaderParse ReaderSchedule ReaderTable MprSelection NhdpDb RoutingSet Timer ValidityTimer DuplicateSet TcDatabase TcInvariant TcNets TcFacts TcRemove TcRefine TcOperations NhdpDomain NhdpTlv TcReader TcFrame.

Local Open Scope Z_scope.
Local Open Scope cint_scope.
Local Open Scope state_scope.

(** ** Rules *)

Lemma wp_on_db {A} (m : state_M tc_db A) s (Q : A -> reader_state -> Prop) : wp m (db s) (fun a d => Q a (set_db d s)) -> wp (on_db m) s Q.
Proof. unfold wp, on_db. by destruct (m (db s)) as [[a d]|]. Qed.

Lemma cell_at {A} (l : list A) i x : l !! i = Some x -> cell l i = Def x.
Proof. unfold cell. by intros ->. Qed.

(** A loop over the numbers from [i] on. *)
Lemma rounds_wp (I : nat -> reader_state -> Prop) body n i s (Q : unit -> reader_state -> Prop) : I i s ->
  (forall j s1, (i <= j < i + n)%nat -> I j s1 -> wp (body j) s1 (fun _ s2 => I (S j) s2)) ->
  (forall s1, I (i + n)%nat s1 -> Q tt s1) -> wp (rounds (seq i n) body) s Q.
Proof.
  revert i s. induction n as [|n IH]; intros i s HI Hbody HQ; simpl.
  - apply wp_return, HQ. by rewrite Nat.add_0_r.
  - apply wp_seq. eapply wp_weaken; [apply Hbody; [lia|exact HI]|]. intros [] s1 H1. apply IH; [exact H1| |].
    + intros j s2 Hj. apply Hbody. lia.
    + intros s2 H2. apply HQ. by replace (i + S n)%nat with (S i + n)%nat by lia.
Qed.

(** The fields of a node that stand in the message, not in lists. *)
Definition info (n : olsrv2_tc_node) := (n_target n, n_ansn n, interval_time n, direct_neighbor n, source_specific n).

Section message.
Context (os_core_get_random : nat -> option Z) (random_u32 : forall n r, os_core_get_random n = Some r -> 0 <= r <= UINT32_MAX).
Context (max_interval : Z) (max_interval_range : 0 <= max_interval <= 2 ^ 56).
Context (_validity_info : positive).
Context (malloc : gset ptr -> nat -> option ptr) (malloc_fresh : forall in_use k p, malloc in_use k = Some p -> p ∉ in_use).
(** The domains have their places in the arrays. *)
Context (domains : list nhdp_domain) (domains_good : domains_ok domains).
(** There is memory. *)
Context (malloc_total : forall in_use k, malloc in_use k <> None).

#[local] Notation rep := (rep _validity_info max_interval).
#[local] Notation rep_of := (rep_of _validity_info max_interval).
#[local] Notation timers_ok := (timers_ok _validity_info max_interval).
#[local] Ltac rule l := eapply l; try first [exact random_u32 | exact max_interval_range | exact malloc_fresh].

Lemma memory : ~ out_of_memory malloc.
Proof. intros (u & k & E). by apply (malloc_total u k). Qed.

Lemma index_fits e d : nhdp_domain_get_by_ext domains e = Some d -> (index d < NHDP_MAXIMUM_DOMAINS)%nat.
Proof.
  unfold nhdp_domain_get_by_ext. intros ((i & d') & E & ->)%fmap_Some. apply list_find_Some in E as (Hi & _ & _). simpl.
  rewrite (do_index _ domains_good i d' Hi). apply lookup_lt_Some in Hi. pose proof (do_count _ domains_good). lia.
Qed.

(** ** What a node announced

    An edge or an attachment of [p] with its destination, ANSN and metrics. *)
Definition announces (p : ptr) (s : tc_db) (b : netaddr) (N : Z) (c : list Z) : Prop := exists e ed, edge_mem s !! e = Some ed /\ e_src ed = p /\
  virtual ed = false /\ node_key (prefixes (node_mem s)) (e_dst ed) = b /\ e_ansn ed = N /\ e_cost ed = c.

Definition attaches (p : ptr) (s : tc_db) (k : os_route_key) (N : Z) (m : net_metrics) : Prop := exists a x, attachment_mem s !! a = Some x /\ a_src x = p /\
  prefix_at (ep_prefixes (endpoint_mem s)) (a_dst x) = k /\ a_ansn x = N /\ metrics_of x = m.

(** An edge is known by its ends. *)
Lemma edge_by_dst F s e1 d1 e2 d2 : rep ∅ ∅ F s -> edge_mem s !! e1 = Some d1 -> edge_mem s !! e2 = Some d2 -> e_src d1 = e_src d2 ->
  node_key (prefixes (node_mem s)) (e_dst d1) = node_key (prefixes (node_mem s)) (e_dst d2) -> e1 = e2.
Proof.
  intros H H1 H2 Es Ed. eapply (edge_by_keys _ _ (edge_mem s)); [apply (r_nodes H)|apply (r_edges H)|exact H1|exact H2|by rewrite Es|exact Ed].
Qed.

Lemma net_by_dst F s a1 x1 a2 x2 : rep ∅ ∅ F s -> attachment_mem s !! a1 = Some x1 -> attachment_mem s !! a2 = Some x2 -> a_src x1 = a_src x2 ->
  prefix_at (ep_prefixes (endpoint_mem s)) (a_dst x1) = prefix_at (ep_prefixes (endpoint_mem s)) (a_dst x2) -> a1 = a2.
Proof.
  intros H H1 H2 Es Ed. destruct (nt_ends (r_nets H) a1 x1 H1) as [HS _]. destruct (rep_node_at _ _ _ _ _ _ _ _ _ _ _ _ _ _ H HS) as [n Hn].
  apply (tree_strict_inj (src_key (ep_prefixes (endpoint_mem s)) (attachment_mem s)) os_routing_avl_cmp_route_key (_attached_networks n)).
  - apply (in_strict (nt_src (r_nets H)) (a_src x1)). by apply view_at.
  - apply (rep_attached_at _ _ _ _ _ _ _ _ _ _ _ _ _ _ _ H Hn). eauto.
  - apply (rep_attached_at _ _ _ _ _ _ _ _ _ _ _ _ _ _ _ H Hn). eauto.
  - rewrite (src_key_at _ _ _ _ H1), (src_key_at _ _ _ _ H2). by apply rtkey_cmp_eq.
Qed.

(** ** Steps *)

(** What a callback keeps of the session and of the node of the message. *)
Record step (p : ptr) (s s' : reader_state) : Prop := {
  st_node : s_node (_current s') = s_node (_current s);
  st_complete : complete_tc (_current s') = complete_tc (_current s);
  st_types : s_mprtypes (_current s') = s_mprtypes (_current s);
  st_changed : length (s_changed (_current s')) = length (s_changed (_current s));
  st_info n : node_mem (db s) !! p = Some n -> exists n', node_mem (db s') !! p = Some n' /\ info n' = info n;
  st_active : is_active (timers (db s')) p = is_active (timers (db s)) p;
  st_others : others_same p (db s) (db s');
}.

Lemma step_refl p s : step p s s.
Proof. split; eauto. reflexivity. Qed.

Lemma step_trans p s1 s2 s3 : step p s1 s2 -> step p s2 s3 -> step p s1 s3.
Proof.
  intros [A1 A2 A3 A4 A5 A6 A7] [B1 B2 B3 B4 B5 B6 B7]. split; try congruence; [|by etrans].
  intros n Hn. destruct (A5 n Hn) as (n' & Hn' & E). destruct (B5 n' Hn') as (n2 & Hn2 & E2). exists n2. split; [done|congruence].
Qed.

(** Calls into the database that change no more than lists of the node. *)
Lemma step_db p s d : (forall n, node_mem (db s) !! p = Some n -> exists n', node_mem d !! p = Some n' /\ info n' = info n) ->
  is_active (timers d) p = is_active (timers (db s)) p -> others_same p (db s) d -> step p s (set_db d s).
Proof. by split. Qed.

Lemma step_current p s f : s_node (f (_current s)) = s_node (_current s) -> complete_tc (f (_current s)) = complete_tc (_current s) ->
  s_mprtypes (f (_current s)) = s_mprtypes (_current s) -> length (s_changed (f (_current s))) = length (s_changed (_current s)) ->
  step p s (set_current (f (_current s)) s).
Proof. split; simpl; eauto. reflexivity. Qed.

(** *** Metrics of edges *)

Definition effective (c : Z) : Z := if c <=? RFC7181_METRIC_MAX then c else RFC7181_METRIC_INFINITE.

Lemma effective_pos c : 0 <= c -> 0 <= effective c.
Proof. unfold effective, RFC7181_METRIC_INFINITE. destruct (_ <=? _); lia. Qed.

Lemma cost_ok_insert l i c : cost_ok l -> 0 <= c -> cost_ok (<[i := c]> l).
Proof. intros [Hl Hp] Hc. split; [by rewrite length_insert|by apply Forall_insert]. Qed.

Lemma put_edge_cost_wp F p s x d i c : rep ∅ ∅ F (db s) -> edge_mem (db s) !! x = Some d -> (i < NHDP_MAXIMUM_DOMAINS)%nat -> 0 <= c ->
  ~ foreign p d -> wp (put_edge_cost x i c) s (fun _ s' => rep ∅ ∅ F (db s') /\
    db s' = set_edge_mem <[x := with_cost (<[i := c]> (e_cost d)) d]> (db s) /\ step p s s').
Proof.
  intros H Hx Hi Hc Hf. pose proof (eo_cost (r_edges H) x d Hx) as Hok. destruct (lookup_lt_is_Some_2 (e_cost d) i) as [old Hold]; [by rewrite (proj1 Hok)|].
  unfold put_edge_cost, modify_current, store_edge. wp_steps. apply wp_on_db. wp_steps. eapply wp_lift; [by apply cell_at|].
  wp_steps. apply wp_on_db. wp_steps. split; [|split; [done|]].
  - unfold TcFacts.rep. simpl. by eapply rep_edge_same; [exact H|exact Hx|..|apply cost_ok_insert].
  - split; simpl; try done; [by rewrite length_alter|eauto|by eapply others_edge_written].
Qed.

(** Only edges have changed, and of them only the pair of [e]. *)
Record edges_step (e i : ptr) (s s' : tc_db) : Prop := {
  es_only : exists em, s' = set_edge_mem (fun _ => em) s;
  es_others x : x <> e -> x <> i -> edge_mem s' !! x = edge_mem s !! x;
}.

Lemma edges_step_put e i s s' x d : edges_step e i s s' -> x = e \/ x = i -> edges_step e i s (set_edge_mem <[x := d]> s').
Proof.
  intros [[em ->] Ho] Hx. split; [by eexists|]. intros y Hy Hi. simpl. rewrite lookup_insert_ne by naive_solver. by apply Ho.
Qed.

(** The invariant of the rounds for an edge [e] of [p] and its inverse [i]: the
    metrics of an announced inverse are not touched. *)
Record edge_rounds (F : facts) (p e i : ptr) (ed : olsrv2_tc_edge) (cost_in cost_out : list Z) (s0 : reader_state) (j : nat) (s : reader_state) : Prop := {
  er_rep : rep ∅ ∅ F (db s);
  er_step : step p s0 s;
  er_only : edges_step e i (db s0) (db s);
  er_edge : exists d, edge_mem (db s) !! e = Some d /\ e_src d = p /\ e_dst d = e_dst ed /\ inverse d = i /\ virtual d = false /\ e_ansn d = e_ansn ed /\
    forall k c, (k < j)%nat -> cost_out !! k = Some c -> e_cost d !! k = Some (effective c);
  er_inverse : exists d, edge_mem (db s) !! i = Some d /\ e_dst d = p /\
    (virtual d = true -> forall k c, (k < j)%nat -> cost_in !! k = Some c -> e_cost d !! k = Some (effective c));
}.

(** A metric more. *)
Lemma metric_written (l costs m : list Z) j c : (forall k c, (k < j)%nat -> costs !! k = Some c -> m !! k = Some (effective c)) -> l = <[j := effective c]> m ->
  (j < length m)%nat -> costs !! j = Some c -> forall k c, (k < S j)%nat -> costs !! k = Some c -> l !! k = Some (effective c).
Proof.
  intros Hold -> Hj Hc k c' Hk Hkc. destruct (decide (k = j)) as [->|Hkj]; [rewrite list_lookup_insert_eq by done; congruence|].
  rewrite list_lookup_insert_ne by done. apply Hold; [lia|done].
Qed.

Lemma edge_round_wp F p e i ed cost_in cost_out s0 j s : edge_rounds F p e i ed cost_in cost_out s0 j s -> e <> i -> complete_tc (_current s0) = true ->
  cost_ok cost_in -> cost_ok cost_out -> (j < NHDP_MAXIMUM_DOMAINS)%nat ->
  wp (edge_round e cost_in cost_out j) s (fun _ s' => edge_rounds F p e i ed cost_in cost_out s0 (S j) s').
Proof.
  intros [H Hst Ho (d & Hd & Es & Ed & Ei & Ev & Ea & Hcost) (di & Hdi & Edi & Hci0)] Hne Hc Hin Hout Hj.
  destruct (lookup_lt_is_Some_2 cost_out j) as [co Eo]; [by rewrite (proj1 Hout)|].
  destruct (lookup_lt_is_Some_2 cost_in j) as [ci Eci]; [by rewrite (proj1 Hin)|].
  assert (0 <= co) as Hco by (exact (Forall_lookup_1 _ _ _ _ (proj2 Hout) Eo)).
  assert (0 <= ci) as Hci by (exact (Forall_lookup_1 _ _ _ _ (proj2 Hin) Eci)).
  unfold edge_round, get_current. wp_steps. eapply wp_lift; [by apply cell_at|]. wp_steps. eapply wp_lift; [by apply cell_at|]. wp_steps.
  rewrite (st_complete _ _ _ Hst), Hc.
  assert ((if co <=? RFC7181_METRIC_MAX then put_edge_cost e j co else put_edge_cost e j RFC7181_METRIC_INFINITE) = put_edge_cost e j (effective co)) as ->
    by (unfold effective; by destruct (_ <=? _)).
  eapply wp_weaken; [apply (put_edge_cost_wp F p s e d j (effective co)); [exact H|exact Hd|exact Hj|by apply effective_pos|by intros [? _]]|].
  intros [] s1 (H1 & E1 & Hst1). set (d1 := with_cost (<[j := effective co]> (e_cost d)) d) in *.
  assert (edge_mem (db s1) !! e = Some d1) as Hd1 by (rewrite E1; simpl; by rewrite lookup_insert_eq).
  assert (edge_mem (db s1) !! i = Some di) as Hdi1 by (rewrite E1; simpl; by rewrite lookup_insert_ne).
  assert (edges_step e i (db s0) (db s1)) as Ho1 by (rewrite E1; apply edges_step_put; [done|by left]).
  assert (step p s0 s1) as Hst01 by (by eapply step_trans).
  pose proof (metric_written (e_cost d1) cost_out (e_cost d) j co Hcost eq_refl ltac:(by rewrite (proj1 (eo_cost (r_edges H) e d Hd))) Eo) as Hcost1.
  wp_steps. apply wp_on_db. wp_steps. apply wp_on_db. simpl. rewrite Ei. eapply wp_read; [exact Hdi1|].
  assert (forall A B, (if virtual di && (ci <=? RFC7181_METRIC_MAX) then A ci else if virtual di && true then A RFC7181_METRIC_INFINITE else B) =
    if virtual di then A (effective ci) else B :> reader_M unit) as Eif by (intros A B; unfold effective; by destruct (virtual di), (_ <=? _)).
  rewrite (Eif (put_edge_cost i j)). assert (set_db (db s1) s1 = s1) as Esame by (by destruct s1).
  rewrite ?Esame. destruct (virtual di) eqn:Evi.
  - eapply wp_weaken; [apply (put_edge_cost_wp F p s1 i di j (effective ci)); [done..|by apply effective_pos|]|].
    { intros [_ [?|?]]; congruence. }
    intros [] s2 (H2 & E2 & Hst2). split; [done|by eapply step_trans|rewrite E2; apply edges_step_put; [done|by right]|..].
    + exists d1. rewrite E2. simpl. rewrite lookup_insert_ne by done. by split_and!.
    + eexists. rewrite E2. simpl. rewrite lookup_insert_eq. split; [done|]. split; [done|]. intros _.
      eapply metric_written; [by apply Hci0|done|by rewrite (proj1 (eo_cost (r_edges H) i di Hdi))|done].
  - apply wp_return. split; [done..| |]; [by exists d1|]. exists di. split; [done|]. split; [done|]. congruence.
Qed.

(** *** Neighbors *)

(** The part of [_cb_addresstlvs] for an originator. *)
Definition announce_neighbor (node : ptr) (b : netaddr) (cost_in cost_out : list Z) : reader_M unit :=
  edge <~ on_db (olsrv2_tc_edge_add os_core_get_random _validity_info malloc node b) ;;
  match edge with
  | None => ret tt
  | Some edge =>
      n <~ on_db (load node_mem node) ;;
      e <~ on_db (load edge_mem edge) ;;
      on_db (store_edge edge (with_e_ansn (n_ansn n) e)) ;;;
      rounds (seq 0 NHDP_MAXIMUM_DOMAINS) (edge_round edge cost_in cost_out)
  end.

(** What announcements of the neighbors [bs] and the networks [ks] leave alone. *)
Record kept (p : ptr) (bs : list netaddr) (ks : list os_route_key) (s s' : tc_db) : Prop := {
  kp_edges b M c : b ∉ bs -> announces p s' b M c <-> announces p s b M c;
  kp_nets k M m : k ∉ ks -> attaches p s' k M m <-> attaches p s k M m;
  kp_inward b N c : b ∉ bs -> inward p s' true b N c <-> inward p s true b N c;
}.

Lemma unsaid_kept_refl p s : kept p [] [] s s.
Proof. done. Qed.

Lemma unsaid_kept_trans p bs bs' ks ks' s1 s2 s3 : kept p bs ks s1 s2 -> kept p bs' ks' s2 s3 -> kept p (bs ++ bs') (ks ++ ks') s1 s3.
Proof.
  intros [A1 A2 A3] [B1 B2 B3]. split.
  - intros b M c. rewrite elem_of_app. intros Hb. rewrite B1, A1 by tauto. done.
  - intros k M m. rewrite elem_of_app. intros Hk. rewrite B2, A2 by tauto. done.
  - intros b N c. rewrite elem_of_app. intros Hb. rewrite B3, A3 by tauto. done.
Qed.

Lemma prefixes_key P P' q : is_Some (P !! q) -> (forall q k, P !! q = Some k -> P' !! q = Some k) -> node_key P' q = node_key P q.
Proof. intros [k Hk] Hsub. by rewrite (node_key_at _ _ _ Hk), (node_key_at _ _ _ (Hsub _ _ Hk)). Qed.

Lemma attaches_same p s s' k M m : attachment_mem s' = attachment_mem s -> ep_prefixes (endpoint_mem s') = ep_prefixes (endpoint_mem s) ->
  attaches p s' k M m <-> attaches p s k M m.
Proof. intros E1 E2. unfold attaches. by rewrite E1, E2. Qed.

(** Adding an edge of [p] to [b], and changing this edge and its inverse. *)
Lemma edge_added_others F F' p e i b s s1 s2 : rep ∅ ∅ F s -> rep ∅ ∅ F' s1 -> edge_added p e s s1 -> edges_step e i s1 s2 ->
  (exists d, edge_mem s1 !! e = Some d /\ inverse d = i /\ e_src d = p /\ node_key (prefixes (node_mem s1)) (e_dst d) = b) ->
  (exists d, edge_mem s2 !! e = Some d /\ node_key (prefixes (node_mem s2)) (e_dst d) = b /\ virtual d = false) ->
  (forall d, edge_mem s2 !! i = Some d -> e_src d <> p /\ node_key (prefixes (node_mem s2)) (e_src d) = b) -> kept p [b] [] s s2.
Proof.
  intros H H1 [A1 A2 A3 A4 A5 A6 A7 A8] [[em E2] Ho] (d1 & Hd1 & Ei & Es1 & Ek1) (d2 & Hd2 & Ek2 & Ev2) Hi.
  destruct (eo_pair (r_edges H1) e d1 Hd1) as [inv Hp]. destruct (eo_ends (r_edges H1) e d1 Hd1) as (_ & _ & Hne). rewrite Es1 in Hne.
  assert (forall d, edge_mem s1 !! i = Some d -> e_src d <> p /\ node_key (prefixes (node_mem s1)) (e_src d) = b) as Hi1.
  { intros d Hd. rewrite <- Ei, (pair_at Hp) in Hd. injection Hd as <-. by rewrite (pair_src Hp). }
  assert (node_mem s2 = node_mem s1) as Enm by (by rewrite E2). split.
  - intros b' M c Hb%not_elem_of_cons. destruct Hb as [Hb _]. split; intros (x & d & Hx & Es & Hv & Ek & Ea & Ec); exists x, d.
    + assert (x <> e) as Hxe by (intros ->; congruence). assert (x <> i) as Hxi by (intros ->; by apply (Hi d)).
      rewrite Ho in Hx by done. pose proof (A5 x d Hxe Hx Es) as Hx0. split_and!; try done.
      rewrite <- Ek, Enm. symmetry. apply prefixes_key; [|done]. apply (eo_ends (r_edges H) x d Hx0).
    + destruct (eo_ends (r_edges H) x d Hx) as (_ & HD & _). pose proof (prefixes_key _ _ _ HD A6) as Ekey.
      assert (x <> e) as Hxe.
      { intros ->. destruct (A7 d Hx) as (d' & Hd' & _ & E'). assert (d' = d1) as -> by congruence. congruence. }
      pose proof (A4 x d Hxe Hx) as Hx1. assert (x <> i) as Hxi by (intros ->; by apply (Hi1 d)).
      rewrite Ho by done. split_and!; try done. by rewrite Enm, Ekey.
  - intros k M m _. rewrite E2. by apply attaches_same; simpl; rewrite ?A1, ?A2.
  - intros b' M c Hb%not_elem_of_cons. destruct Hb as [Hb _]. split; intros (x & d & Hx & Ed & Hv & Ek & Ea & Ec); exists x, d.
    + assert (x <> i) as Hxi by (intros ->; destruct (Hi d Hx); congruence). assert (x <> e) as Hxe by (intros ->; congruence).
      rewrite Ho in Hx by done. destruct (A8 x d Hxe Hx) as [Hx0|(_ & _ & Einv)].
      * split_and!; try done. rewrite <- Ek, Enm. symmetry. apply prefixes_key; [|done]. apply (eo_ends (r_edges H) x d Hx0).
      * destruct (eo_pair (r_edges H1) x d Hx) as [inv' Hp']. pose proof (pair_at Hp') as Hb'. rewrite Einv in Hb'.
        assert (inv' = d1) as -> by congruence. destruct Hxi. rewrite <- Ei. symmetry. apply (pair_back Hp').
    + destruct (eo_ends (r_edges H) x d Hx) as (HS & _ & _). pose proof (prefixes_key _ _ _ HS A6) as Ekey.
      assert (x <> e) as Hxe. { intros ->. destruct (A7 d Hx) as (d' & Hd' & _ & E'). congruence. }
      pose proof (A4 x d Hxe Hx) as Hx1. assert (x <> i) as Hxi by (intros ->; destruct (Hi1 d Hx1); congruence).
      rewrite Ho by done. split_and!; try done. by rewrite Enm, Ekey.
Qed.

Lemma metrics_complete costs l : cost_ok l -> cost_ok costs ->
  (forall k c, (k < 0 + NHDP_MAXIMUM_DOMAINS)%nat -> costs !! k = Some c -> l !! k = Some (effective c)) -> l = effective <$> costs.
Proof.
  intros [Hl _] [Hc _] H. apply list_eq. intros k. rewrite list_lookup_fmap. destruct (costs !! k) as [c|] eqn:Ek; simpl.
  - apply H; [|done]. apply lookup_lt_Some in Ek. lia.
  - apply lookup_ge_None in Ek. apply lookup_ge_None. lia.
Qed.

Lemma announce_neighbor_wp F p s n b cost_in cost_out : rep ∅ ∅ F (db s) -> node_mem (db s) !! p = Some n -> is_active (timers (db s)) p = true ->
  b <> rk_dst (prefix (n_target n)) -> complete_tc (_current s) = true -> cost_ok cost_in -> cost_ok cost_out ->
  wp (announce_neighbor p b cost_in cost_out) s (fun _ s' =>
    rep ∅ ∅ (with_links (fun L => {[(rk_dst (prefix (n_target n)), b)]} ∪ L) F) (db s') /\ step p s s' /\ kept p [b] [] (db s) (db s') /\
    announces p (db s') b (n_ansn n) (effective <$> cost_out) /\
    ((exists N c, inward p (db s') false b N c) \/ exists N, inward p (db s') true b N (effective <$> cost_in))).
Proof.
  intros H Hn Hact Hb Hc Hin Hout. set (F1 := with_links _ F). unfold announce_neighbor. apply wp_seq, wp_on_db.
  eapply wp_weaken; [rule edge_add_wp; [exact H|exact Hn|exact Hact|exact Hb]|].
  intros [e|] d [Hr Ha1]; [|by destruct (memory (proj1 Hr))]. destruct Hr as (H1 & (ed & He & Es & Ek & Ev & Ecost) & Hadd). fold F1 in H1.
  destruct (ea_node _ _ _ _ Hadd n Hn) as [l Hl]. wp_steps. apply wp_on_db. wp_steps. apply wp_on_db. wp_steps. apply wp_on_db. unfold store_edge. wp_steps.
  set (ed1 := with_e_ansn (n_ansn n) ed). set (s1 := set_db _ _).
  destruct (eo_pair (r_edges H1) e ed He) as [inv Hp]. destruct (eo_ends (r_edges H1) e ed He) as (_ & _ & Hne).
  pose proof (inverse_ne _ _ _ _ _ (r_edges H1) He) as Hie.
  assert (rep ∅ ∅ F1 (db s1)) as H2 by (eapply rep_edge_same; [exact H1|exact He|done..|exact (eo_cost (r_edges H1) e ed He)]).
  assert (step p s s1) as Hst.
  { apply step_trans with (set_db d s); [apply step_db; [|by rewrite Ha1, Hact|by eapply others_edge_added; [exact H|exact H1|eauto|exact Hadd]]|].
    { intros n0 Hn0. assert (n0 = n) as -> by congruence. eauto. }
    apply step_db; [by eauto|done|]. simpl. eapply others_edge_written; [exact He|done..|]. by intros [? _]. }
  eapply (rounds_wp (edge_rounds F1 p e (inverse ed) ed1 cost_in cost_out s1)).
  - split; [exact H2|apply step_refl|split; [exists (edge_mem (db s1)); by destruct d|done]|..].
    + exists ed1. simpl. rewrite lookup_insert_eq. split_and!; try done. lia.
    + exists inv. simpl. rewrite lookup_insert_ne by congruence. split; [apply Hp|]. split; [by rewrite (pair_dst Hp)|lia].
  - intros j s2 Hj HI. eapply edge_round_wp; [exact HI|by apply not_eq_sym|by rewrite (st_complete _ _ _ Hst)|done|done|lia].
  - intros s2 [H3 Hst2 Ho (d2 & Hd2 & E1 & E2 & E3 & E4 & E5 & Ecost2) (di & Hdi & Edi & Hcin)].
    split; [done|]. split; [by eapply step_trans|].
    destruct (eo_pair (r_edges H3) e d2 Hd2) as [inv2 Hp2]. destruct (eo_ends (r_edges H3) e d2 Hd2) as (_ & _ & Hne2).
    assert (node_mem (db s2) = node_mem d) as Enm by (destruct Ho as [[em ->] _]; done).
    split.
    + eapply (edge_added_others F F1 p e (inverse ed) b (db s) d (db s2)); [exact H|exact H1|exact Hadd|..].
      * destruct Ho as [[em Eo] Ho]. split; [exists em; by rewrite Eo|]. intros x Hx Hx'. rewrite Ho by done. simpl. by rewrite lookup_insert_ne.
      * eauto 6.
      * exists d2. split; [done|]. by rewrite Enm, E2.
      * intros d' Hd'. rewrite <- E3, (pair_at Hp2) in Hd'. injection Hd' as <-. rewrite (pair_src Hp2), Enm, E2. split; [congruence|done].
    + split; [exists e, d2; split_and!; try done; [by rewrite Enm, E2|]; apply (metrics_complete cost_out); [apply (eo_cost (r_edges H3) e d2 Hd2)|done|exact Ecost2]|].
      assert (node_key (prefixes (node_mem (db s2))) (e_src di) = b) as Eb.
      { rewrite <- E3, (pair_at Hp2) in Hdi. injection Hdi as <-. by rewrite (pair_src Hp2), Enm, E2. }
      destruct (virtual di) eqn:Ev'; [right|left]; eexists; [|eexists]; exists (inverse ed), di; split_and!; try done.
      apply (metrics_complete cost_in); [apply (eo_cost (r_edges H3) _ di Hdi)|done|exact (Hcin eq_refl)].
Qed.

(** *** Networks *)

(** The invariant of the rounds for the attachment [a] of [p], with metrics and
    distances [m]. *)
Record net_rounds (F : facts) (p a : ptr) (x0 : olsrv2_tc_attachment) (m : net_metrics) (s0 s : reader_state) : Prop := {
  nr_rep : rep ∅ ∅ F (db s);
  nr_step : step p s0 s;
  nr_only : exists am, db s = set_attachment_mem (fun _ => am) (db s0);
  nr_others y : y <> a -> attachment_mem (db s) !! y = attachment_mem (db s0) !! y;
  nr_net : exists x, attachment_mem (db s) !! a = Some x /\ a_src x = p /\ a_dst x = a_dst x0 /\ a_ansn x = a_ansn x0 /\ metrics_of x = m;
}.

Lemma net_rounds_put F p a x0 m s0 s x x' : net_rounds F p a x0 m s0 s -> attachment_mem (db s) !! a = Some x ->
  a_src x' = a_src x -> a_dst x' = a_dst x -> a_ansn x' = a_ansn x -> cost_ok (a_cost x') -> length (a_distance x') = NHDP_MAXIMUM_DOMAINS ->
  net_rounds F p a x0 (metrics_of x') s0 (set_db (set_attachment_mem <[a := x']> (db s)) s).
Proof.
  intros [H Hst [am E] Ho (x1 & Hx1 & E1 & E2 & E3 & _)] Hx Es Ed Ea Hc Hl. assert (x1 = x) as -> by congruence. split.
  - unfold TcFacts.rep. simpl. by eapply rep_net_same; [exact H|exact Hx|..].
  - eapply step_trans; [exact Hst|]. apply step_db; [by eauto|done|]. apply others_net_written; [congruence|congruence].
  - exists (<[a := x']> am). simpl. by rewrite E.
  - intros y Hy. simpl. rewrite lookup_insert_ne by done. by apply Ho.
  - exists x'. simpl. rewrite lookup_insert_eq. split; [done|]. split_and!; congruence.
Qed.

Lemma net_rounds_current F p a x0 m s0 s i b : net_rounds F p a x0 m s0 s ->
  net_rounds F p a x0 m s0 (set_current (with_changed i b (_current s)) s).
Proof.
  intros [H Hst E Ho Hx]. split; try done. eapply step_trans; [exact Hst|]. apply step_current; [done..|]. simpl. by rewrite length_alter.
Qed.

Lemma put_attached_cost_wp F p a x0 m s0 s i c : net_rounds F p a x0 m s0 s -> (i < NHDP_MAXIMUM_DOMAINS)%nat -> 0 <= c ->
  wp (put_attached_cost a i c) s (fun _ s' => net_rounds F p a x0 (<[i := c]> m.1, m.2) s0 s').
Proof.
  intros H Hi Hc. destruct (nr_net _ _ _ _ _ _ _ H) as (x & Hx & _ & _ & _ & <-). destruct (nt_cost (r_nets (nr_rep _ _ _ _ _ _ _ H)) a x Hx) as [Hok Hl].
  destruct (lookup_lt_is_Some_2 (a_cost x) i) as [old Hold]; [by rewrite (proj1 Hok)|].
  unfold put_attached_cost, modify_current, store_attachment. wp_steps. apply wp_on_db. wp_steps.
  eapply wp_lift; [by apply cell_at|]. wp_steps. apply wp_on_db. wp_steps.
  assert (net_rounds F p a x0 (metrics_of x) s0 (set_db (db s) s)) as H' by (by destruct s).
  change (<[i := c]> (metrics_of x).1, (metrics_of x).2) with (metrics_of (with_a_cost (<[i := c]> (a_cost x)) x)).
  eapply (net_rounds_put F p a x0 (metrics_of x) s0 (set_current _ (set_db (db s) s))); [apply net_rounds_current; exact H'|exact Hx|done..|by apply cost_ok_insert|done].
Qed.

(** The rounds for a routable address: every metric is replaced. *)
Lemma attached_rounds_wp F p a x0 m s cost_out : net_rounds F p a x0 m s s -> cost_ok cost_out -> complete_tc (_current s) = true ->
  wp (rounds (seq 0 NHDP_MAXIMUM_DOMAINS) (attached_round a cost_out)) s (fun _ s' => net_rounds F p a x0 (effective <$> cost_out, m.2) s s').
Proof.
  intros H0 Hout Hcomplete.
  assert (forall c s', net_rounds F p a x0 (c, m.2) s s' -> cost_ok c) as Hok.
  { intros c s' H. destruct (nr_net _ _ _ _ _ _ _ H) as (x & Hx & _ & _ & _ & E). injection E as <- _. apply (nt_cost (r_nets (nr_rep _ _ _ _ _ _ _ H)) a x Hx). }
  eapply (rounds_wp (fun j s' => exists c, net_rounds F p a x0 (c, m.2) s s' /\ forall k v, (k < j)%nat -> cost_out !! k = Some v -> c !! k = Some (effective v))).
  - exists m.1. rewrite <- surjective_pairing. split; [done|lia].
  - intros j s1 Hj (c & H & Hc). destruct (lookup_lt_is_Some_2 cost_out j) as [co Eo]; [rewrite (proj1 Hout); lia|].
    assert (0 <= co) as Hco by (exact (Forall_lookup_1 _ _ _ _ (proj2 Hout) Eo)).
    unfold attached_round, get_current. wp_steps. eapply wp_lift; [by apply cell_at|].
    rewrite (st_complete _ _ _ (nr_step _ _ _ _ _ _ _ H)), Hcomplete.
    assert ((if co <=? RFC7181_METRIC_MAX then put_attached_cost a j co else put_attached_cost a j RFC7181_METRIC_INFINITE) = put_attached_cost a j (effective co)) as ->
      by (unfold effective; by destruct (_ <=? _)).
    eapply wp_weaken; [apply put_attached_cost_wp; [exact H|lia|by apply effective_pos]|]. intros [] s2 H2. eexists. split; [exact H2|].
    eapply metric_written; [exact Hc|done|rewrite (proj1 (Hok _ _ H)); lia|done].
  - intros s1 (c & H & Hc). rewrite <- (metrics_complete cost_out c); [done|by eapply Hok|done|exact Hc].
Qed.

(** The parts of [_cb_addresstlvs] and [_handle_gateways] that attach a network. *)
Definition announce_network (node : ptr) (k : os_route_key) (mesh : bool) (costs : ptr -> reader_M unit) : reader_M unit :=
  net <~ on_db (olsrv2_tc_endpoint_add malloc node k mesh) ;;
  match net with
  | None => ret tt
  | Some net =>
      n <~ on_db (load node_mem node) ;;
      a <~ on_db (load attachment_mem net) ;;
      on_db (store_attachment net (with_a_ansn (n_ansn n) a)) ;;;
      costs net
  end.

(** What the database has of the network [k] of [p]: nothing is an attachment
    without metrics. *)
Definition known_net (p : ptr) (s : tc_db) (k : os_route_key) (m : net_metrics) : Prop :=
  (exists M, attaches p s k M m) \/ (forall M m', ~ attaches p s k M m') /\ m = no_metrics.

(** Adding the network [k] of [p], and changing its attachment. *)
Lemma net_added_kept F F' p a k s s1 am : rep ∅ ∅ F s -> rep ∅ ∅ F' s1 -> net_added p a s s1 -> attached p k a s1 ->
  (forall y, y <> a -> am !! y = attachment_mem s1 !! y) ->
  (exists x, am !! a = Some x /\ a_src x = p /\ prefix_at (ep_prefixes (endpoint_mem s1)) (a_dst x) = k) ->
  kept p [] [k] s (set_attachment_mem (fun _ => am) s1).
Proof.
  intros H H1 [N1 N2 N3 N4 N5 N6 _] (x1 & Hx1 & Es1 & Ek1) Ho (x2 & Hx2 & Es2 & Ek2). split.
  - intros b M c _. unfold announces. simpl. by rewrite N1, N4.
  - intros k' M m Hk'%not_elem_of_cons. destruct Hk' as [Hk' _].
    assert (forall y x, attachment_mem s !! y = Some x -> prefix_at (ep_prefixes (endpoint_mem s1)) (a_dst x) =
      prefix_at (ep_prefixes (endpoint_mem s)) (a_dst x)) as Hsame.
    { intros y x Hx. destruct (nt_ends (r_nets H) y x Hx) as [_ [q Hq]]. unfold prefix_at. by rewrite Hq, (N5 _ _ Hq). }
    unfold attaches. simpl. split; intros (y & x & Hx & Es & Ek & Ea & Em).
    + assert (y <> a) as Hy by (intros ->; congruence). rewrite Ho, N3 in Hx by done.
      exists y, x. by rewrite <- (Hsame y x Hx).
    + pose proof (Hsame y x Hx) as Ek'. assert (y <> a) as Hy.
      { intros ->. apply N6 in Hx. congruence. }
      exists y, x. rewrite Ho, N3 by done. by rewrite Ek'.
  - intros b N c _. unfold inward. simpl. by rewrite N1, N4.
Qed.

Lemma net_added_known F F' p a k s s1 x : rep ∅ ∅ F s -> rep ∅ ∅ F' s1 -> net_added p a s s1 -> attachment_mem s1 !! a = Some x -> a_src x = p ->
  prefix_at (ep_prefixes (endpoint_mem s1)) (a_dst x) = k -> known_net p s k (metrics_of x).
Proof.
  intros H H1 [N1 N2 N3 N4 N5 N6 N7] Hx Es Ek.
  assert (forall y z, attachment_mem s !! y = Some z -> prefix_at (ep_prefixes (endpoint_mem s1)) (a_dst z) =
    prefix_at (ep_prefixes (endpoint_mem s)) (a_dst z)) as Hsame.
  { intros y z Hz. destruct (nt_ends (r_nets H) y z Hz) as [_ [q Hq]]. unfold prefix_at. by rewrite Hq, (N5 _ _ Hq). }
  destruct (attachment_mem s !! a) as [z|] eqn:Ez.
  - assert (z = x) as -> by (pose proof (N6 z eq_refl); congruence). left. exists (a_ansn x), a, x. split_and!; try done. by rewrite <- (Hsame a x Ez).
  - right. destruct (N7 eq_refl) as [q Hq]. assert (x = fresh_attachment p q) as -> by congruence. split; [|done].
    intros M m (y & z & Hz & Es' & Ek' & _). assert (y <> a) as Hy by congruence. assert (attachment_mem s1 !! y = Some z) as Hz1 by (by rewrite N3).
    apply Hy. eapply net_by_dst; [exact H1|exact Hz1|exact Hx|congruence|]. rewrite (Hsame y z Hz). congruence.
Qed.

Lemma announce_network_wp F p s n k mesh costs (upd : net_metrics -> net_metrics) : rep ∅ ∅ F (db s) -> node_mem (db s) !! p = Some n ->
  is_active (timers (db s)) p = true ->
  (forall F1 a x0 m s1, step p s s1 -> net_rounds F1 p a x0 m s1 s1 -> wp (costs a) s1 (fun _ s2 => net_rounds F1 p a x0 (upd m) s1 s2)) ->
  wp (announce_network p k mesh costs) s (fun _ s' =>
    rep ∅ ∅ (with_nets (fun N => {[(rk_dst (prefix (n_target n)), k)]} ∪ N) F) (db s') /\ step p s s' /\ kept p [] [k] (db s) (db s') /\
    exists old, known_net p (db s) k old /\ attaches p (db s') k (n_ansn n) (upd old)).
Proof.
  intros H Hn Hact Hcosts. set (F1 := with_nets _ F). unfold announce_network. apply wp_seq, wp_on_db.
  eapply wp_weaken; [rule endpoint_add_wp; [exact H|exact Hn|exact Hact]|].
  intros [a|] d [Hr Ets]; [|by destruct (memory (proj1 Hr))]. destruct Hr as (H1 & Hatt & Hadd). fold F1 in H1.
  pose proof Hatt as (x & Hx & Es & Ek). destruct (nd_node _ _ _ _ Hadd n Hn) as [l Hl].
  destruct (nt_cost (r_nets H1) a x Hx) as [Hc1 Hc2]. pose proof (net_added_known F F1 p a k _ _ x H H1 Hadd Hx Es Ek) as Hold.
  wp_steps. apply wp_on_db. wp_steps. apply wp_on_db. wp_steps. apply wp_on_db. unfold store_attachment. wp_steps.
  set (x1 := with_a_ansn (n_ansn n) x). set (s1 := set_db _ _).
  assert (rep ∅ ∅ F1 (db s1)) as H2 by (by eapply rep_net_same; [exact H1|exact Hx|..]).
  assert (step p s s1) as Hst.
  { apply step_trans with (set_db d s); [apply step_db; [|by rewrite Ets|by eapply others_net_added; [exact H|exact H1|eauto|exact Hadd]]|].
    { intros n0 Hn0. assert (n0 = n) as -> by congruence. eauto. }
    apply step_db; [by eauto|done|]. simpl. apply others_net_written; [congruence|done]. }
  eapply wp_weaken; [apply (Hcosts F1 a x1 (metrics_of x) s1 Hst)|].
  - split; [done|apply step_refl|exists (attachment_mem (db s1)); by destruct d|done|]. exists x1. simpl. by rewrite lookup_insert_eq.
  - intros [] s2 [H3 Hst2 [am E] Ho (x2 & Hx2 & Es2 & Ed2 & Ea2 & Em2)]. split; [done|]. split; [by eapply step_trans|].
    assert (db s2 = set_attachment_mem (fun _ => am) d) as E' by (by rewrite E). rewrite E' in *. simpl in *.
    split; [|exists (metrics_of x); split; [done|]; exists a, x2; split_and!; try done; by rewrite Ed2].
    eapply (net_added_kept F F1 p a); [exact H|exact H1|exact Hadd|exact Hatt| |].
    + intros y Hy. rewrite Ho by done. by rewrite lookup_insert_ne.
    + exists x2. split; [done|]. split; [congruence|]. by rewrite Ed2.
Qed.

(** *** Gateways *)

Lemma any_length a : length (na_addr (rk_src (os_routing_init_sourcespec_prefix a))) = 16%nat.
Proof. unfold os_routing_init_sourcespec_prefix. simpl. by repeat case_match. Qed.

Lemma write_source octets (v : bytes) : length octets = 16%nat -> 1 <= blen v <= 17 -> exists o, wr_n octets 0 (tail v) = Def o.
Proof.
  intros Ho Hv. destruct (wr_n_inside octets 0 (tail v)) as (o & E & _); [done| |by exists o].
  unfold blen in *. rewrite Ho. destruct v; simpl in *; lia.
Qed.

Lemma gateway_prefix_total ext addr src : netaddr_wf addr -> na_prefix_len addr <= 128 -> (forall t, src = Some t -> 1 <= blen (tlv_value t) <= 17) ->
  exists k, gateway_prefix ext (os_routing_init_sourcespec_prefix addr) addr src = Def k.
Proof.
  intros Ha Hp Hsrc. destruct (truncate_bits addr addr Ha Ha Hp) as (a' & _ & Et & Hwf & _). pose proof (any_length addr) as Hany.
  assert (exists key, (if (ext =? RFC7181_DSTSPEC_GATEWAY) || (ext =? RFC7181_SRCSPEC_GATEWAY) then
      dst ← netaddr_truncate_inplace addr; Def (Some {| rk_dst := dst; rk_src := rk_src (os_routing_init_sourcespec_prefix addr) |})
    else if ext =? RFC7181_SRCSPEC_DEF_GATEWAY then
      src ← netaddr_truncate_inplace addr; Def (Some {| rk_dst := rk_src (os_routing_init_sourcespec_prefix addr); rk_src := src |})
    else Def None) = Def key /\ forall k, key = Some k -> length (na_addr (rk_src k)) = 16%nat) as (key & Ek & Hkey).
  { rewrite Et. simpl. destruct (_ || _); [|destruct (_ =? _)]; eexists; (split; [reflexivity|]); [by intros k [= <-]| |done].
    intros k [= <-]. apply Hwf. }
  unfold gateway_prefix. simpl in *. rewrite Ek. simpl. destruct key as [key|]; [|by eexists]. destruct src as [t|]; [|by eexists].
  pose proof (Hsrc t eq_refl) as Ht. destruct (rd_inside (tlv_value t) 0) as (v & -> & _); [lia|]. simpl.
  destruct (write_source (na_addr (rk_src key)) (tlv_value t) (Hkey key eq_refl) Ht) as [o ->]. by eexists.
Qed.

(** What the types say of the metrics and distances of a gateway: the value of the
    TLV has one octet for all domains or one for each. *)
Definition gateway_step (types : bytes) (t : tlv_data) (cost_out : list Z) (m : net_metrics) (i : nat) : net_metrics :=
  match types !! i ≫= nhdp_domain_get_by_ext domains with
  | None => m
  | Some d => (<[index d := nth (index d) cost_out RFC7181_METRIC_INFINITE]> m.1,
               <[index d := nth (if blen (tlv_value t) =? 1 then 0%nat else i) (tlv_value t) 0]> m.2)
  end.
Definition gateway_metrics (types : bytes) (t : tlv_data) (cost_out : list Z) (old : net_metrics) : net_metrics :=
  foldl (gateway_step types t cost_out) (infinite_costs, old.2) (seq 0 (length types)).

Lemma gateway_round_wp F p a x0 m s0 s cost_out t types i : net_rounds F p a x0 m s0 s -> cost_ok cost_out -> (i < length types)%nat ->
  1 <= blen (tlv_value t) -> (1 < blen (tlv_value t) -> blen types <= blen (tlv_value t)) ->
  wp (gateway_round domains a cost_out t types i) s (fun _ s' => net_rounds F p a x0 (gateway_step types t cost_out m i) s0 s').
Proof.
  intros H Hout Hi Ht Hlen. destruct (lookup_lt_is_Some_2 types i Hi) as [e Ee]. unfold gateway_round, store_attachment, gateway_step. wp_steps.
  eapply wp_lift; [by apply cell_at|]. rewrite Ee. cbn [mbind option_bind]. destruct (nhdp_domain_get_by_ext domains e) as [d|] eqn:Ed; [|by wp_steps].
  apply index_fits in Ed. destruct (lookup_lt_is_Some_2 cost_out (index d)) as [co Eo]; [by rewrite (proj1 Hout)|].
  wp_steps. eapply wp_lift; [by apply cell_at|]. wp_steps.
  destruct (rd_inside (tlv_value t) (if blen (tlv_value t) =? 1 then 0 else Z.of_nat i)) as (v & Ev & Ev').
  { unfold blen in *. destruct (Z.eqb_spec (Z.of_nat (length (tlv_value t))) 1); lia. }
  assert (nth (if blen (tlv_value t) =? 1 then 0%nat else i) (tlv_value t) 0 = v) as ->.
  { apply nth_lookup_Some. rewrite <- Ev'. f_equal. destruct (_ =? 1); lia. }
  rewrite (nth_lookup_Some _ _ _ _ Eo).
  eapply wp_lift; [exact Ev|]. destruct (nr_net _ _ _ _ _ _ _ H) as (x & Hx & _ & _ & _ & <-).
  destruct (nt_cost (r_nets (nr_rep _ _ _ _ _ _ _ H)) a x Hx) as [Hok Hl].
  wp_steps. apply wp_on_db. wp_steps. apply wp_on_db. wp_steps.
  assert (net_rounds F p a x0 (metrics_of x) s0 (set_db (db s) s)) as H' by (by destruct s).
  change (<[index d := co]> (metrics_of x).1, <[index d := v]> (metrics_of x).2) with
    (metrics_of (with_a_distance (<[index d := v]> (a_distance x)) (with_a_cost (<[index d := co]> (a_cost x)) x))).
  eapply (net_rounds_put F p a x0 (metrics_of x) s0 (set_db (db s) s)); [exact H'|exact Hx|done..| |simpl; by rewrite length_insert].
  apply cost_ok_insert; [done|]. exact (Forall_lookup_1 _ _ _ _ (proj2 Hout) Eo).
Qed.

(** The networks that gateway and type TLVs of an address announce. *)
Definition gateway_of (types : bytes) (x : netaddr * tlv_table) : option os_route_key :=
  match head (x.2 IDX_ADDRTLV_GATEWAY) with
  | None => None
  | Some t =>
      if (1 <? blen (tlv_value t)) && (blen (tlv_value t) <? blen types) then None
      else match gateway_prefix (tlv_ext t) (os_routing_init_sourcespec_prefix x.1) x.1 (head (x.2 IDX_ADDRTLV_SRC_PREFIX)) with
      | Def k => k
      | Undef _ => None
      end
  end.

(** What the parser promises about an address and its TLVs. *)
Record address_ok (x : netaddr * tlv_table) : Prop := {
  ao_wf : netaddr_wf x.1;
  ao_prefix : na_prefix_len x.1 <= 128;
  ao_lengths i e t : _olsrv2_address_tlvs !! i = Some e -> t ∈ x.2 i -> min_length e <= blen (tlv_value t) <= max_length e;
  ao_octets i t : t ∈ x.2 i -> octets (tlv_value t);
}.

Lemma head_elem {A} (l : list A) x : head l = Some x -> x ∈ l.
Proof. destruct l; [done|]. intros [= ->]. left. Qed.

Definition gateways_of (types : bytes) (x : netaddr * tlv_table) : list os_route_key := match gateway_of types x with Some k => [k] | None => [] end.

(** The metrics in the TLVs of an address, incoming and outgoing. *)
Definition metrics_said (x : netaddr * tlv_table) : list Z * list Z :=
  match metric_loop domains (x.2 IDX_ADDRTLV_LINK_METRIC) infinite_costs infinite_costs with Def c => c | Undef _ => (infinite_costs, infinite_costs) end.

(** What the gateway TLV of an address makes of the metrics of the network [k]. *)
Definition gateway_update (types : bytes) (x : netaddr * tlv_table) (k : os_route_key) (old : net_metrics) : net_metrics :=
  match head (x.2 IDX_ADDRTLV_GATEWAY) with
  | Some t => if bool_decide (k ∈ gateways_of types x) then gateway_metrics types t (metrics_said x).2 old else old
  | None => old
  end.

(** The state [s'] after what changed only networks. *)
Record nets_announced (p : ptr) (n : olsrv2_tc_node) (ks : list os_route_key) (upd : os_route_key -> net_metrics -> net_metrics) (F : facts) (s s' : reader_state) : Prop := {
  na_rep : rep ∅ ∅ (with_nets (fun N => list_to_set ((fun k => (rk_dst (prefix (n_target n)), k)) <$> ks) ∪ N) F) (db s');
  na_step : step p s s';
  na_kept : kept p [] ks (db s) (db s');
  na_nets k : k ∈ ks -> exists old, known_net p (db s) k old /\ attaches p (db s') k (n_ansn n) (upd k old);
  na_upd k m : k ∉ ks -> upd k m = m;
}.

Lemma nets_announced_none p n upd F s : rep ∅ ∅ F (db s) -> (forall k m, upd k m = m) -> nets_announced p n [] upd F s s.
Proof.
  intros H Hupd. split; [|apply step_refl|apply unsaid_kept_refl|by intros k ?%elem_of_nil|by intros k m _].
  destruct F. unfold with_nets. simpl. by rewrite (left_id_L ∅ (∪)).
Qed.

Lemma handle_gateways_wp F p s n x t : rep ∅ ∅ F (db s) -> node_mem (db s) !! p = Some n -> is_active (timers (db s)) p = true ->
  s_node (_current s) = Some p -> complete_tc (_current s) = true -> address_ok x -> cost_ok (metrics_said x).2 -> head (x.2 IDX_ADDRTLV_GATEWAY) = Some t ->
  wp (_handle_gateways malloc domains t (os_routing_init_sourcespec_prefix x.1) (metrics_said x).2 x.1 (head (x.2 IDX_ADDRTLV_SRC_PREFIX))) s
    (fun _ s' => nets_announced p n (gateways_of (s_mprtypes (_current s)) x) (gateway_update (s_mprtypes (_current s)) x) F s s').
Proof.
  intros H Hn Hact Hp Hcomplete [Hwf Hpl Hlen _] Hout Ht. set (types := s_mprtypes (_current s)). set (cost_out := (metrics_said x).2) in *.
  assert (forall k m, k ∉ gateways_of types x -> gateway_update types x k m = m) as Hupd.
  { intros k m Hk. unfold gateway_update. rewrite Ht. by rewrite bool_decide_false. }
  assert (gateways_of types x = [] -> nets_announced p n (gateways_of types x) (gateway_update types x) F s s) as Hnone.
  { intros E. rewrite E. apply nets_announced_none; [done|]. intros k m. apply Hupd. rewrite E. apply not_elem_of_nil. }
  assert (1 <= blen (tlv_value t)) as Hb by (by apply (Hlen IDX_ADDRTLV_GATEWAY _ t eq_refl), head_elem).
  unfold _handle_gateways, get_current. wp_steps. fold types. destruct (_ && _) eqn:Eg.
  { apply wp_return, Hnone. unfold gateways_of, gateway_of. by rewrite Ht, Eg. }
  destruct (gateway_prefix_total (tlv_ext t) x.1 (head (x.2 IDX_ADDRTLV_SRC_PREFIX)) Hwf Hpl) as [key Ek].
  { intros t' Ht'. by apply (Hlen IDX_ADDRTLV_SRC_PREFIX _ t' eq_refl), head_elem. }
  assert (gateways_of types x = match key with Some k => [k] | None => [] end) as Egs by (unfold gateways_of, gateway_of; by rewrite Ht, Eg, Ek).
  wp_steps. eapply wp_lift; [exact Ek|]. destruct key as [k|]; [|by apply wp_return, Hnone]. rewrite Hp.
  eapply wp_weaken; [eapply (announce_network_wp F p s n k false
    (fun net => (if complete_tc (_current s) then a <~ on_db (load attachment_mem net) ;; on_db (store_attachment net (with_a_cost infinite_costs a)) else ret tt) ;;;
      rounds (seq 0 (length types)) (gateway_round domains net cost_out t types)) (gateway_metrics types t cost_out)); [exact H|exact Hn|exact Hact|]|].
  - intros F1 a x0 m s1 _ H1. apply wp_seq. rewrite Hcomplete.
    assert (forall s2, net_rounds F1 p a x0 (infinite_costs, m.2) s1 s2 -> wp (rounds (seq 0 (length types)) (gateway_round domains a cost_out t types)) s2
      (fun _ s3 => net_rounds F1 p a x0 (gateway_metrics types t cost_out m) s1 s3)) as Hr.
    { intros s2 H2. eapply (rounds_wp (fun j s3 => net_rounds F1 p a x0 (foldl (gateway_step types t cost_out) (infinite_costs, m.2) (seq 0 j)) s1 s3)); [exact H2| |done].
      intros j s3 Hj H3. eapply wp_weaken; [apply gateway_round_wp; [exact H3|done|lia|done|]|].
      - intros Hl. apply andb_false_iff in Eg as [E%Z.ltb_ge|E%Z.ltb_ge]; lia.
      - intros [] s4 H4. by rewrite seq_S, foldl_app. }
    destruct (nr_net _ _ _ _ _ _ _ H1) as (y & Hy & _ & _ & _ & <-). wp_steps. apply wp_on_db. wp_steps. apply wp_on_db. unfold store_attachment. wp_steps.
    apply Hr. assert (net_rounds F1 p a x0 (metrics_of y) s1 (set_db (db s1) s1)) as H' by (by destruct s1).
    change (infinite_costs, (metrics_of y).2) with (metrics_of (with_a_cost infinite_costs y)).
    eapply (net_rounds_put F1 p a x0 (metrics_of y) s1 (set_db (db s1) s1)); [exact H'|exact Hy|done|done|done|apply infinite_costs_ok|].
    apply (nt_cost (r_nets (nr_rep _ _ _ _ _ _ _ H1)) a y Hy).
  - intros [] s' (H' & Hst & Hk & old & Hold & Ha). split; rewrite ?Egs; [|done|done| |by rewrite Egs in Hupd].
    + simpl. rewrite (right_id_L ∅ (∪)). exact H'.
    + intros k' ->%list_elem_of_singleton. exists old. split; [done|]. unfold gateway_update. rewrite Ht, Egs, bool_decide_true by (by apply list_elem_of_singleton). done.
Qed.

(** ** Addresses *)

Lemma announces_unique F s p b M c M' c' : rep ∅ ∅ F s -> announces p s b M c -> announces p s b M' c' -> M' = M /\ c' = c.
Proof.
  intros H (e1 & d1 & H1 & E1 & _ & K1 & <- & <-) (e2 & d2 & H2 & E2 & _ & K2 & <- & <-).
  assert (e1 = e2) as -> by (eapply edge_by_dst; [exact H|exact H1|exact H2|congruence|congruence]). by assert (d1 = d2) as -> by congruence.
Qed.

Lemma attaches_unique F s p k M m M' m' : rep ∅ ∅ F s -> attaches p s k M m -> attaches p s k M' m' -> M' = M /\ m' = m.
Proof.
  intros H (e1 & d1 & H1 & E1 & K1 & <- & <-) (e2 & d2 & H2 & E2 & K2 & <- & <-).
  assert (e1 = e2) as -> by (eapply net_by_dst; [exact H|exact H1|exact H2|congruence|congruence]). by assert (d1 = d2) as -> by congruence.
Qed.

Lemma known_net_unique F s p k m m' : rep ∅ ∅ F s -> known_net p s k m -> known_net p s k m' -> m' = m.
Proof.
  intros H [[M Hm]|[Hno ->]] [[M' Hm']|[Hno' ->]]; [|by destruct (Hno' M m)|by destruct (Hno M' m')|done].
  eapply attaches_unique; [exact H|exact Hm|exact Hm'].
Qed.

(** What addresses with the neighbors [bs] and the networks [ks] change, for the
    node [p] with originator [o] and ANSN [N]. A neighbor comes with its metrics
    outgoing and incoming; [upd] is what becomes of the metrics of a network. *)
Record said (p : ptr) (o : netaddr) (N : Z) (bs : gmap netaddr (list Z * list Z)) (ks : gset os_route_key) (upd : os_route_key -> net_metrics -> net_metrics)
    (F F' : facts) (s s' : reader_state) : Prop := {
  sd_rep : rep ∅ ∅ F' (db s');
  sd_step : step p s s';
  sd_valid : valid F' = valid F;
  sd_direct : direct F' = direct F;
  sd_links x y : (x, y) ∈ links F' <-> (x, y) ∈ links F \/ x = o /\ is_Some (bs !! y);
  sd_nets x k : (x, k) ∈ nets F' <-> (x, k) ∈ nets F \/ x = o /\ k ∈ ks;
  sd_edges b M c : announces p (db s') b M c <-> match bs !! b with Some c' => M = N /\ c = c'.1 | None => announces p (db s) b M c end;
  sd_named b c : bs !! b = Some c -> (exists M c', inward p (db s') false b M c') \/ exists M, inward p (db s') true b M c.2;
  sd_unnamed b M c : bs !! b = None -> inward p (db s') true b M c <-> inward p (db s) true b M c;
  sd_attached k M m : attaches p (db s') k M m <-> if decide (k ∈ ks) then M = N /\ exists old, known_net p (db s) k old /\ m = upd k old else attaches p (db s) k M m;
  sd_known k : k ∈ ks -> exists old, known_net p (db s) k old;
  sd_upd k m : k ∉ ks -> upd k m = m;
}.

Lemma said_nothing p o N upd F s : rep ∅ ∅ F (db s) -> (forall k m, upd k m = m) -> said p o N ∅ ∅ upd F F s s.
Proof.
  intros H Hupd. split; try done; [apply step_refl|..].
  - intros x y. rewrite lookup_empty. split; [by left|]. intros [?|[_ []]]; done.
  - intros x k. set_solver.
Qed.

Lemma said_trans p o N bs bs' ks ks' upd upd' F1 F2 F3 s1 s2 s3 : rep ∅ ∅ F1 (db s1) -> said p o N bs ks upd F1 F2 s1 s2 -> said p o N bs' ks' upd' F2 F3 s2 s3 ->
  said p o N (bs' ∪ bs) (ks ∪ ks') (fun k m => upd' k (upd k m)) F1 F3 s1 s3.
Proof.
  intros H1 HA HB. pose proof HA as [A1 A2 A3 A4 A5 A6 A7 A8 A9 A10 A11 A12]. pose proof HB as [B1 B2 B3 B4 B5 B6 B7 B8 B9 B10 B11 B12].
  assert (forall k old, k ∈ ks -> known_net p (db s2) k old <-> exists old1, known_net p (db s1) k old1 /\ old = upd k old1) as K1.
  { intros k old Hk. destruct (A11 k Hk) as [old1 Hold1]. assert (attaches p (db s2) k N (upd k old1)) as Ha by (apply A10; rewrite decide_True by done; eauto).
    split.
    - intros [[M Hm]|[Hno _]]; [|by destruct (Hno N (upd k old1))]. apply A10 in Hm. rewrite decide_True in Hm by done. apply Hm.
    - intros (old2 & Hold2 & ->). left. exists N. apply A10. rewrite decide_True by done. eauto. }
  assert (forall k old, k ∉ ks -> known_net p (db s2) k old <-> known_net p (db s1) k old) as K2.
  { intros k old Hk. unfold known_net. assert (forall M m, attaches p (db s2) k M m <-> attaches p (db s1) k M m) as E by (intros M m; by rewrite A10, decide_False).
    by setoid_rewrite E. }
  split; [done|by eapply step_trans|congruence|congruence|..].
  - intros x y. rewrite B5, A5, lookup_union_is_Some. tauto.
  - intros x k. rewrite B6, A6, elem_of_union. tauto.
  - intros b M c. rewrite B7. destruct (bs' !! b) as [c'|] eqn:E; [by rewrite (lookup_union_Some_l _ _ _ _ E)|].
    by rewrite lookup_union_r, A7.
  - intros b c. rewrite lookup_union_Some_raw. intros [Hb|[Hb' Hb]]; [by apply B8|].
    destruct (A8 b c Hb) as [(M & c' & Hi)|[M Hi]]; [left; exists M, c'|right; exists M].
    + eapply inward_told; [exact A1|exact B1|apply B2|exact Hi].
    + by apply B9.
  - intros b M c [Hb' Hb]%lookup_union_None. by rewrite B9, A9.
  - intros k M m. rewrite B10. destruct (decide (k ∈ ks')) as [Hk'|Hk'].
    + rewrite (decide_True (P := k ∈ ks ∪ ks')) by set_solver. destruct (decide (k ∈ ks)) as [Hk|Hk].
      * setoid_rewrite (fun old => K1 k old Hk). naive_solver.
      * setoid_rewrite (fun old => K2 k old Hk). setoid_rewrite (fun old => A12 k old Hk). done.
    + rewrite A10. destruct (decide (k ∈ ks)) as [Hk|Hk]; [|by rewrite decide_False by set_solver].
      rewrite decide_True by set_solver. setoid_rewrite (fun old => B12 k old Hk'). done.
  - intros k Hk. destruct (decide (k ∈ ks)) as [Hk1|Hk1]; [by apply A11|]. destruct (B11 k) as [old Hold]; [set_solver|]. exists old. by apply K2.
  - intros k m Hk. rewrite A12, B12 by set_solver. done.
Qed.

Lemma said_neighbor p o b N c upd F F' s s' : rep ∅ ∅ F' (db s') -> F' = with_links (fun L => {[(o, b)]} ∪ L) F -> step p s s' -> kept p [b] [] (db s) (db s') ->
  announces p (db s') b N c.1 -> ((exists M c', inward p (db s') false b M c') \/ exists M, inward p (db s') true b M c.2) ->
  (forall k m, upd k m = m) -> said p o N {[b := c]} ∅ upd F F' s s'.
Proof.
  intros H' EF Hst [K1 K2 K3] Ha Hin Hupd. split; [done|done|by rewrite EF|by rewrite EF|..].
  - intros x y. rewrite EF. simpl. rewrite elem_of_union, elem_of_singleton, lookup_singleton_is_Some. naive_solver.
  - intros x k. rewrite EF. simpl. set_solver.
  - intros b' M c'. destruct (decide (b' = b)) as [->|Hb]; [rewrite lookup_singleton_eq|rewrite lookup_singleton_ne by done].
    + split; [intros Ha'; by eapply announces_unique|]. by intros [-> ->].
    + apply K1. by intros ?%list_elem_of_singleton.
  - by intros b' c' [<- <-]%lookup_singleton_Some.
  - intros b' M c' Hb%lookup_singleton_None. apply K3. intros ->%list_elem_of_singleton. done.
  - intros k M m. rewrite decide_False by set_solver. apply K2. by intros ?%elem_of_nil.
  - set_solver.
  - done.
Qed.

Lemma said_networks p n ks upd F s s' : rep ∅ ∅ F (db s) -> nets_announced p n ks upd F s s' ->
  said p (rk_dst (prefix (n_target n))) (n_ansn n) ∅ (list_to_set ks) upd F (with_nets (fun N => list_to_set ((fun k => (rk_dst (prefix (n_target n)), k)) <$> ks) ∪ N) F) s s'.
Proof.
  intros H [H' Hst [K1 K2 K3] Ha Hupd]. split; [done|done|done|done|..].
  - intros x y. simpl. rewrite lookup_empty. split; [by left|]. intros [?|[_ []]]; done.
  - intros x k. simpl. rewrite elem_of_union, !elem_of_list_to_set, list_elem_of_fmap. naive_solver.
  - intros b M c. rewrite lookup_empty. apply K1. by intros ?%elem_of_nil.
  - done.
  - intros b M c _. apply K3. by intros ?%elem_of_nil.
  - intros k M m. case_decide as Hk; rewrite elem_of_list_to_set in Hk; [|by apply K2]. destruct (Ha k Hk) as (old & Hold & Hold').
    split.
    + intros Ha'. edestruct (attaches_unique _ _ _ _ _ _ _ _ H' Hold' Ha') as [-> ->]. eauto.
    + intros (-> & old2 & Hold2 & ->). by rewrite (known_net_unique _ _ _ _ _ _ H Hold Hold2).
  - intros k. rewrite elem_of_list_to_set. intros Hk. destruct (Ha k Hk) as (old & ? & _). eauto.
  - intros k m. rewrite elem_of_list_to_set. apply Hupd.
Qed.

(** What an address says: a neighbor with its metrics, or networks. *)
Definition address_type (x : netaddr * tlv_table) : Z := match head (x.2 IDX_ADDRTLV_NBR_ADDR_TYPE) with Some t => match tlv_value t with v :: _ => v | [] => 0 end | None => 0 end.
Definition is_neighbor (x : netaddr * tlv_table) : bool := negb (address_type x .& RFC7181_NBR_ADDR_TYPE_ORIGINATOR =? 0).
Definition is_routable (x : netaddr * tlv_table) : bool := negb (address_type x .& RFC7181_NBR_ADDR_TYPE_ROUTABLE =? 0).
(** Metrics outgoing and incoming; one that is not a metric is infinite. *)
Definition costs_of (x : netaddr * tlv_table) : list Z * list Z := (effective <$> (metrics_said x).2, effective <$> (metrics_said x).1).
Definition neighbors_of (x : netaddr * tlv_table) : gmap netaddr (list Z * list Z) := if is_neighbor x then {[x.1 := costs_of x]} else ∅.
Definition routables_of (x : netaddr * tlv_table) : list os_route_key :=
  if negb (is_neighbor x) && is_routable x then [os_routing_init_sourcespec_prefix x.1] else [].
Definition networks_of (types : bytes) (x : netaddr * tlv_table) : gset os_route_key :=
  list_to_set (routables_of x) ∪ list_to_set (gateways_of types x).
(** A routable address has the outgoing metrics; distances stay. *)
Definition routable_update (x : netaddr * tlv_table) (k : os_route_key) (old : net_metrics) : net_metrics :=
  if bool_decide (k ∈ routables_of x) then ((costs_of x).1, old.2) else old.
Definition address_update (types : bytes) (x : netaddr * tlv_table) (k : os_route_key) (old : net_metrics) : net_metrics :=
  gateway_update types x k (routable_update x k old).

Lemma metric_loop_total tlvs ci co : (forall t, t ∈ tlvs -> 2 <= blen (tlv_value t)) -> cost_ok ci -> cost_ok co ->
  exists ci' co', metric_loop domains tlvs ci co = Def (ci', co') /\ cost_ok ci' /\ cost_ok co'.
Proof.
  revert ci co. induction tlvs as [|t tlvs IH]; intros ci co Ht Hci Hco; [by eexists _, _|].
  assert (forall t, t ∈ tlvs -> 2 <= blen (tlv_value t)) as Ht' by (intros u Hu; apply Ht; by right).
  specialize (Ht t ltac:(by left)). simpl. destruct (nhdp_domain_get_by_ext domains (tlv_ext t)) as [d|]; [|by apply IH].
  destruct (rd_inside (tlv_value t) 0) as (b0 & -> & _); [lia|]. destruct (rd_inside (tlv_value t) 1) as (b1 & -> & _); [lia|]. simpl.
  apply IH; [done|..]; destruct (rfc7181_metric_has_flag _ _); try done; apply cost_ok_insert; try done; apply u32_range.
Qed.

Lemma node_after_step p s s' n : step p s s' -> node_mem (db s) !! p = Some n -> exists n', node_mem (db s') !! p = Some n' /\
  rk_dst (prefix (n_target n')) = rk_dst (prefix (n_target n)) /\ n_ansn n' = n_ansn n.
Proof. intros Hst Hn. destruct (st_info _ _ _ Hst n Hn) as (n' & Hn' & E). injection E as E1 E2 _ _ _. exists n'. by rewrite E1. Qed.

(** The part of [_cb_addresstlvs] for the address itself, before the gateways. *)
Lemma address_type_wp F p s n x ci co : rep ∅ ∅ F (db s) -> node_mem (db s) !! p = Some n -> is_active (timers (db s)) p = true ->
  complete_tc (_current s) = true -> address_ok x -> neighbors_of x !! rk_dst (prefix (n_target n)) = None -> metrics_said x = (ci, co) -> cost_ok ci -> cost_ok co ->
  wp (match head (x.2 IDX_ADDRTLV_NBR_ADDR_TYPE) with
      | None => ret tt
      | Some t =>
          v <~ lift (rd (tlv_value t) 0) ;;
          if negb (v .& RFC7181_NBR_ADDR_TYPE_ORIGINATOR =? 0) then announce_neighbor p x.1 ci co
          else if negb (v .& RFC7181_NBR_ADDR_TYPE_ROUTABLE =? 0) then
            announce_network p (os_routing_init_sourcespec_prefix x.1) true (fun net => rounds (seq 0 NHDP_MAXIMUM_DOMAINS) (attached_round net co))
          else ret tt
      end) s (fun _ s' => exists F', said p (rk_dst (prefix (n_target n))) (n_ansn n) (neighbors_of x) (list_to_set (routables_of x)) (routable_update x) F F' s s').
Proof.
  intros H Hn Hact Hc Hok Hown Em Hci Hco. unfold neighbors_of, routable_update, routables_of, costs_of, is_neighbor, is_routable, address_type in *. rewrite Em in *.
  destruct (head (x.2 IDX_ADDRTLV_NBR_ADDR_TYPE)) as [t|] eqn:Et; [|apply wp_return; exists F; by apply said_nothing].
  assert (1 <= blen (tlv_value t)) as Hb by (by apply (ao_lengths _ Hok IDX_ADDRTLV_NBR_ADDR_TYPE _ t eq_refl), head_elem).
  destruct (tlv_value t) as [|v value] eqn:Ev; [done|]. wp_steps. eapply wp_lift; [done|]. revert Hown.
  destruct (negb (v .& RFC7181_NBR_ADDR_TYPE_ORIGINATOR =? 0)); cbn [andb negb]; intros Hown.
  - rewrite lookup_singleton_None in Hown. eapply wp_weaken; [apply (announce_neighbor_wp F p s n x.1 ci co); done|].
    intros [] s1 (H1 & Hst & Hk & Ha & Hin). eexists. eapply said_neighbor; [exact H1|done..].
  - destruct (negb (v .& RFC7181_NBR_ADDR_TYPE_ROUTABLE =? 0)); [|apply wp_return; exists F; by apply said_nothing].
    eapply wp_weaken; [apply (announce_network_wp F p s n (os_routing_init_sourcespec_prefix x.1) true
      (fun net => rounds (seq 0 NHDP_MAXIMUM_DOMAINS) (attached_round net co)) (fun old => (effective <$> co, old.2))); [exact H|exact Hn|exact Hact|]|].
    + intros F1 a x0 m s1 Hst H1. apply attached_rounds_wp; [done|done|]. by rewrite (st_complete _ _ _ Hst).
    + intros [] s1 (H1 & Hst & Hk & old & Hold & Ha). eexists. eapply said_networks; [exact H|]. split; [|done|done|..].
      * simpl. rewrite (right_id_L ∅ (∪)). exact H1.
      * intros k ->%list_elem_of_singleton. exists old. split; [done|]. by rewrite bool_decide_true by (by apply list_elem_of_singleton).
      * intros k m Hk'. by rewrite bool_decide_false.
Qed.

Lemma cb_addresstlvs_wp F p s n x : rep ∅ ∅ F (db s) -> node_mem (db s) !! p = Some n -> is_active (timers (db s)) p = true ->
  s_node (_current s) = Some p -> complete_tc (_current s) = true -> address_ok x -> neighbors_of x !! rk_dst (prefix (n_target n)) = None ->
  wp (_cb_addresstlvs os_core_get_random _validity_info malloc domains x.1 x.2) s (fun _ s' => exists F',
    said p (rk_dst (prefix (n_target n))) (n_ansn n) (neighbors_of x) (networks_of (s_mprtypes (_current s)) x) (address_update (s_mprtypes (_current s)) x) F F' s s').
Proof.
  intros H Hn Hact Hp Hc Hok Hown. set (o := rk_dst (prefix (n_target n))) in *. set (N := n_ansn n).
  destruct (metric_loop_total (x.2 IDX_ADDRTLV_LINK_METRIC) infinite_costs infinite_costs) as (ci & co & Em & Hci & Hco);
    [|apply infinite_costs_ok..|].
  { intros t Ht. by apply (ao_lengths _ Hok IDX_ADDRTLV_LINK_METRIC _ t eq_refl). }
  assert (metrics_said x = (ci, co)) as Ecosts by (unfold metrics_said; by rewrite Em).
  unfold _cb_addresstlvs, get_current. wp_steps. rewrite Hp. wp_steps. eapply wp_lift; [exact Em|]. cbv beta iota zeta. apply wp_seq.
  eapply wp_weaken; [by apply (address_type_wp F p s n x ci co)|]. fold o N. intros [] s1 [F1 Hs1].
  destruct (node_after_step p s s1 n) as (n1 & Hn1 & Eo & EN); [apply Hs1|done|]. pose proof (sd_step _ _ _ _ _ _ _ _ _ _ Hs1) as Hst.
  apply wp_seq. unfold networks_of, address_update. destruct (head (x.2 IDX_ADDRTLV_GATEWAY)) as [t|] eqn:Et.
  - pose proof (handle_gateways_wp F1 p s1 n1 x t) as Hgw. rewrite Ecosts in Hgw.
    eapply wp_weaken; [apply Hgw; try done; [apply Hs1|by rewrite (st_active _ _ _ Hst)|by rewrite (st_node _ _ _ Hst)|by rewrite (st_complete _ _ _ Hst)]|].
    intros [] s2 Hs2%said_networks; [|apply Hs1]. wp_steps. rewrite Eo, EN, (st_types _ _ _ Hst) in Hs2. eexists.
    pose proof (said_trans _ _ _ _ _ _ _ _ _ _ _ _ _ _ _ H Hs1 Hs2) as Hs. by rewrite (left_id_L ∅ (∪)) in Hs.
  - wp_steps. unfold gateways_of, gateway_of. rewrite Et. exists F1.
    assert (said p o N ∅ ∅ (gateway_update (s_mprtypes (_current s)) x) F1 F1 s1 s1) as Hs2 by (apply said_nothing; [apply Hs1|intros k m; unfold gateway_update; by rewrite Et]).
    pose proof (said_trans _ _ _ _ _ _ _ _ _ _ _ _ _ _ _ H Hs1 Hs2) as Hs. by rewrite (left_id_L ∅ (∪)) in Hs.
Qed.

(** All addresses of a message; the last one that names a neighbor counts. *)
Fixpoint neighbors_said (l : list (netaddr * tlv_table)) : gmap netaddr (list Z * list Z) :=
  match l with [] => ∅ | x :: l => neighbors_said l ∪ neighbors_of x end.
Fixpoint networks_said (types : bytes) (l : list (netaddr * tlv_table)) : gset os_route_key :=
  match l with [] => ∅ | x :: l => networks_of types x ∪ networks_said types l end.
(** The metrics and distances of a network, from one address to the next. *)
Fixpoint network_metrics (types : bytes) (l : list (netaddr * tlv_table)) (k : os_route_key) (old : net_metrics) : net_metrics :=
  match l with [] => old | x :: l => network_metrics types l k (address_update types x k old) end.

Lemma address_loop_wp F p s n l : rep ∅ ∅ F (db s) -> node_mem (db s) !! p = Some n -> is_active (timers (db s)) p = true ->
  s_node (_current s) = Some p -> complete_tc (_current s) = true -> Forall address_ok l -> neighbors_said l !! rk_dst (prefix (n_target n)) = None ->
  wp (address_loop os_core_get_random _validity_info malloc domains l) s (fun _ s' => exists F',
    said p (rk_dst (prefix (n_target n))) (n_ansn n) (neighbors_said l) (networks_said (s_mprtypes (_current s)) l) (network_metrics (s_mprtypes (_current s)) l) F F' s s').
Proof.
  revert F s n. induction l as [|x l IH]; intros F s n H Hn Hact Hp Hc Hok Hown; cbn [address_loop neighbors_said networks_said].
  { apply wp_return. exists F. by apply said_nothing. }
  apply Forall_cons in Hok as [Hx Hl]. cbn [neighbors_said] in Hown. apply lookup_union_None in Hown as [Hown1 Hown2]. destruct x as [addr tlv].
  apply wp_seq. eapply wp_weaken; [apply (cb_addresstlvs_wp F p s n (addr, tlv)); done|]. intros r s1 [F1 H1].
  pose proof (sd_step _ _ _ _ _ _ _ _ _ _ H1) as Hst. destruct (node_after_step p s s1 n Hst Hn) as (n1 & Hn1 & Eo & EN).
  eapply wp_weaken; [apply (IH F1 s1 n1); [apply H1|exact Hn1|by rewrite (st_active _ _ _ Hst)|by rewrite (st_node _ _ _ Hst)|by rewrite (st_complete _ _ _ Hst)|exact Hl|by rewrite Eo]|].
  intros [] s2 [F2 H2]. exists F2. rewrite Eo, EN, (st_types _ _ _ Hst) in H2. exact (said_trans _ _ _ _ _ _ _ _ _ _ _ _ _ _ _ H H1 H2).
Qed.
End message.
