(* ===== verification/TcMessage.v ===== *)
(** What a TC message does, src/olsrv2/olsrv2/olsrv2_reader.c: a message that is
    processed replaces what its originator said before. *)

From Stdlib Require Import ZArith Lia Sorted.
From stdpp Require Import base list numbers option gmap sets.
From S2P Require Import Prelude AvlSpec StateMonad Rfc5444Values Netaddr NetaddrAcl ReaderParse ReaderSchedule ReaderTable MprSelection NhdpDb RoutingSet Timer ValidityTimer DuplicateSet TcDatabase TcInvariant TcNets TcFacts TcRemove TcRefine TcOperations NhdpDomain NhdpTlv TcReader TcFrame TcAnnounce.

Local Open Scope Z_scope.
Local Open Scope cint_scope.
Local Open Scope state_scope.

Section message.
Context (os_core_get_random : nat -> option Z) (random_u32 : forall n r, os_core_get_random n = Some r -> 0 <= r <= UINT32_MAX).
Context (max_interval : Z) (max_interval_range : 0 <= max_interval <= 2 ^ 56).
Context (_validity_info _vtime_info : positive) (classes_differ : _vtime_info <> _validity_info).
Context (malloc : gset ptr -> nat -> option ptr) (malloc_fresh : forall in_use k p, malloc in_use k = Some p -> p ∉ in_use).
Context (domains : list nhdp_domain) (domains_good : domains_ok domains).
Context (malloc_total : forall in_use k, malloc in_use k <> None).

Context (env : olsrv2_env) (f_hold_time : Z) (input : rfc5444_input).

#[local] Notation rep := (rep _validity_info max_interval).
#[local] Notation said := (said max_interval _validity_info).
#[local] Ltac rule l := eapply l; try first [exact random_u32 | exact max_interval_range | exact malloc_fresh].

(** ** What a node said, as facts *)

Lemma links_announced F s p n y : rep ∅ ∅ F s -> node_mem s !! p = Some n ->
  (rk_dst (prefix (n_target n)), y) ∈ links F <-> exists M c, announces p s y M c.
Proof.
  intros H Hn. pose proof (node_key_at _ _ _ (prefixes_at _ _ _ Hn)) as Ek. rewrite (sh_links (r_shows H)). split.
  - intros (e & ed & He & Hv & Es & Ed). exists (e_ansn ed), (e_cost ed), e, ed. split_and!; try done.
    destruct (eo_ends (r_edges H) e ed He) as (HS & _). eapply node_key_inj; [apply (r_nodes H)|done|eexists; by apply prefixes_at|congruence].
  - intros (M & c & e & ed & He & Es & Hv & Ed & _). exists e, ed. split_and!; try done. congruence.
Qed.

Lemma nets_attached F s p n k : rep ∅ ∅ F s -> node_mem s !! p = Some n ->
  (rk_dst (prefix (n_target n)), k) ∈ nets F <-> exists M m, attaches p s k M m.
Proof.
  intros H Hn. pose proof (node_key_at _ _ _ (prefixes_at _ _ _ Hn)) as Ek. rewrite (sh_nets (r_shows H)). split.
  - intros (a & x & Ha & Es & Ed). exists (a_ansn x), (metrics_of x), a, x. split_and!; try done.
    destruct (nt_ends (r_nets H) a x Ha) as (HS & _). eapply node_key_inj; [apply (r_nodes H)|done|eexists; by apply prefixes_at|congruence].
  - intros (M & m & a & x & Ha & Es & Ed & _). exists a, x. split_and!; try done. congruence.
Qed.

Lemma announces_shown F s p n b M c : rep ∅ ∅ F s -> node_mem s !! p = Some n ->
  announces p s b M c <-> edge_shown s (rk_dst (prefix (n_target n))) b false M c.
Proof.
  intros H Hn. pose proof (node_key_at _ _ _ (prefixes_at _ _ _ Hn)) as Ek. split.
  - intros (e & ed & He & Es & Hv & Ed & ?). exists e, ed. rewrite Es. tauto.
  - intros (e & ed & He & Es & Ed & Hv & ?). exists e, ed. split_and!; try tauto.
    destruct (eo_ends (r_edges H) e ed He) as (HS & _). eapply node_key_inj; [apply (r_nodes H)|done|eexists; by apply prefixes_at|congruence].
Qed.

Lemma attaches_shown F s p n k M m : rep ∅ ∅ F s -> node_mem s !! p = Some n ->
  attaches p s k M m <-> net_shown s (rk_dst (prefix (n_target n))) k M m.
Proof.
  intros H Hn. pose proof (node_key_at _ _ _ (prefixes_at _ _ _ Hn)) as Ek. split.
  - intros (a & x & Ha & Es & Ed & ?). exists a, x. rewrite Es. tauto.
  - intros (a & x & Ha & Es & Ed & ?). exists a, x. split_and!; try tauto.
    destruct (nt_ends (r_nets H) a x Ha) as (HS & _). eapply node_key_inj; [apply (r_nodes H)|done|eexists; by apply prefixes_at|congruence].
Qed.

(** *** Removing old edges *)

Lemma edge_removed_announces F F' p e ed s s' b M c : rep ∅ ∅ F s -> rep ∅ ∅ F' s' -> edge_mem s !! e = Some ed -> e_src ed = p -> edge_removed e ed s s' ->
  announces p s' b M c <-> announces p s b M c /\ (virtual ed = false -> b <> node_key (prefixes (node_mem s)) (e_dst ed)).
Proof.
  intros H H' He Es [_ R2 _ _ R3 _ _ R6 R7]. destruct (eo_pair (r_edges H) e ed He) as [inv Hi]. destruct (eo_ends (r_edges H) e ed He) as (_ & HD & Hne).
  assert (forall x d, edge_mem s !! x = Some d -> e_src d = p -> x <> e -> edge_mem s' !! x = Some d) as Hsame.
  { intros x d Hx Ex Hxe. rewrite R3; [done|done|]. intros ->. rewrite (pair_at Hi) in Hx. injection Hx as <-. rewrite (pair_src Hi) in Ex. congruence. }
  assert (forall x d, edge_mem s' !! x = Some d -> node_key (prefixes (node_mem s')) (e_dst d) = node_key (prefixes (node_mem s)) (e_dst d)) as Hkey.
  { intros x d Hx. destruct (eo_ends (r_edges H') x d Hx) as (_ & [k Hk] & _). by rewrite (node_key_at _ _ _ Hk), (node_key_at _ _ _ (R6 _ _ Hk)). }
  split.
  - intros (x & d & Hx & Ex & Hv & Ek & Ea & Ec). assert (x <> e) as Hxe by (intros ->; by rewrite (R2 d Hx) in Hv).
    assert (edge_mem s !! x = Some d) as Hx0 by (destruct (decide (x = inverse ed)) as [->|Hxi]; [by apply R7|by rewrite <- R3]).
    rewrite (Hkey x d Hx) in Ek. split; [by exists x, d|]. intros _ E. apply Hxe. eapply edge_by_dst; [exact H|exact Hx0|exact He|congruence|congruence].
  - intros [(x & d & Hx & Ex & Hv & Ek & Ea & Ec) Hb]. assert (x <> e) as Hxe by (intros ->; assert (d = ed) as -> by congruence; by apply Hb).
    pose proof (Hsame x d Hx Ex Hxe) as Hx'. exists x, d. by rewrite (Hkey x d Hx').
Qed.

(** The inverse of another edge of [p]. *)
Lemma edge_removed_inward F F' p e ed s s' b N c0 M c : rep ∅ ∅ F s -> rep ∅ ∅ F' s' -> edge_mem s !! e = Some ed -> e_src ed = p -> edge_removed e ed s s' ->
  e_ansn ed <> N -> announces p s b N c0 -> inward p s true b M c -> inward p s' true b M c.
Proof.
  intros H H' He Es [_ _ _ _ R3 _ _ R6 _] HN (y & yd & Hy & Eys & _ & Eyd & EyN & _) (x & d & Hx & Ed & Hv & Ek & Ea & Ec).
  destruct (eo_ends (r_edges H) e ed He) as (_ & _ & Hne). destruct (eo_pair (r_edges H) e ed He) as [inv Hi].
  assert (x <> e) as Hxe by (intros ->; congruence).
  assert (x <> inverse ed) as Hxi.
  { intros ->. rewrite (pair_at Hi) in Hx. injection Hx as <-. rewrite (pair_src Hi) in Ek.
    assert (y = e) as -> by (eapply edge_by_dst; [exact H|exact Hy|exact He|congruence|congruence]). congruence. }
  exists x, d. rewrite R3 by done. assert (edge_mem s' !! x = Some d) as Hx' by (by rewrite R3). split_and!; try done.
  destruct (eo_ends (r_edges H') x d Hx') as ([k Hk] & _). rewrite <- Ek. by rewrite (node_key_at _ _ _ Hk), (node_key_at _ _ _ (R6 _ _ Hk)).
Qed.

(** Of the edges of [p] those with the ANSN [N] are left; networks and other
    nodes are as before. *)
Record only_fresh_edges (p : ptr) (N : Z) (s s' : tc_db) : Prop := {
  fe_edges b M c : announces p s' b M c <-> announces p s b M c /\ M = N;
  fe_nets k M m : attaches p s' k M m <-> attaches p s k M m;
  fe_inward b c0 M c : announces p s b N c0 -> inward p s true b M c -> inward p s' true b M c;
  fe_others : others_same p s s';
}.

Lemma remove_old_edges_wp F s p n : rep ∅ ∅ F s -> node_mem s !! p = Some n ->
  wp (remove_old_edges p) s (fun _ s' => exists F', rep ∅ ∅ F' s' /\ less_links (rk_dst (prefix (n_target n))) F F' /\
    (exists l, node_mem s' !! p = Some (with_edges l n)) /\ only_fresh_edges p (n_ansn n) s s').
Proof.
  intros H Hn. set (o := rk_dst (prefix (n_target n))).
  set (I := fun (rest : list ptr) (s1 : tc_db) => exists F1 pre, rep ∅ ∅ F1 s1 /\ less_links o F F1 /\ node_mem s1 !! p = Some (with_edges (pre ++ rest) n) /\
    (forall e ed, e ∈ pre -> edge_mem s1 !! e = Some ed -> virtual ed = false -> e_ansn ed = n_ansn n) /\
    (forall b M c, announces p s1 b M c -> announces p s b M c) /\ (forall b c, announces p s b (n_ansn n) c -> announces p s1 b (n_ansn n) c) /\
    (forall k M m, attaches p s1 k M m <-> attaches p s k M m) /\
    (forall b c0 M c, announces p s b (n_ansn n) c0 -> inward p s true b M c -> inward p s1 true b M c) /\ others_same p s s1).
  eapply (for_each_safe_wp I _ _ _ _ (_edges n)).
  - unfold bind, load. by rewrite Hn.
  - exists F, []. split; [done|]. split; [by split|]. split; [simpl; by rewrite with_edges_same|]. split; [by intros e ed ?%elem_of_nil|]. by split_and!.
  - intros e rest s1 (F1 & pre & H1 & Hless & Hp & Hpre & Hback & Hfresh & Hnets & Hinw & Hoth).
    assert (NoDup (pre ++ e :: rest)) as Hnd.
    { pose proof (eo_strict (r_edges H1) p (pre ++ e :: rest)) as Hs. eapply (tree_strict_nodup _ avl_comp_netaddr). apply Hs.
      exact (view_at _edges _ _ _ Hp). }
    split; [exists pre; split; [unfold bind, load; by rewrite Hp|done]|].
    assert (e ∈ pre ++ e :: rest) as Hin by (rewrite elem_of_app; right; left).
    pose proof (proj1 (rep_edges_at _ _ _ _ _ _ _ _ _ _ _ _ _ _ _ H1 Hp e) Hin) as (ed & He & Es). wp_steps. simpl.
    destruct (Z.eqb_spec (e_ansn ed) (n_ansn n)) as [Ea|Ea].
    { wp_steps. exists F1, (pre ++ [e]). rewrite <- app_assoc. split_and!; try done.
      intros x xd [Hx| ->%list_elem_of_singleton]%elem_of_app Hxd Hv; [by eapply Hpre|congruence]. }
    apply wp_seq; eapply wp_weaken; [rule edge_remove_wp; [exact H1|exact He]|]. intros r s2 [H2 Her]. wp_steps.
    assert (node_key (prefixes (node_mem s1)) p = o) as Ek by (apply (node_key_at _ _ _ (prefixes_at _ _ _ Hp))).
    destruct (er_src _ _ _ _ Her (with_edges (pre ++ e :: rest) n)) as (l & Hl & Hcase); [by rewrite Es|]. rewrite Es in Hl.
    assert (filter (fun y => y <> e) (pre ++ e :: rest) = pre ++ rest) as Ef.
    { apply NoDup_app in Hnd as (_ & Hd & Hnd'). apply NoDup_cons in Hnd' as [Her' _].
      rewrite filter_app, filter_cons_False by naive_solver. f_equal; apply filter_ne_id; [|done]. intros Hx. apply (Hd e Hx). left. }
    assert (exists pre', l = pre' ++ rest /\ forall x, x ∈ pre' -> x ∈ pre \/ x = e) as (pre' & -> & Hpre').
    { simpl in Hcase. rewrite Ef in Hcase. destruct Hcase as [-> | ->]; [|exists pre; auto].
      exists (pre ++ [e]). rewrite <- app_assoc. split; [done|]. intros x [?| ->%list_elem_of_singleton]%elem_of_app; auto. }
    pose proof (fun b M c => edge_removed_announces F1 _ p e ed s1 s2 b M c H1 H2 He Es Her) as Hann.
    exists (without_link (node_mem s1) ed F1), pre'. split_and!; [exact H2|apply less_links_step; [done|by rewrite Es]|by destruct n|..].
    + intros x xd Hx Hxd Hv. destruct (Hpre' x Hx) as [Hx0| ->]; [|by rewrite (er_gone _ _ _ _ Her xd Hxd) in Hv].
      assert (x <> e) as Hxe. { intros ->. by rewrite (er_gone _ _ _ _ Her xd Hxd) in Hv. }
      apply (Hpre x xd Hx0); [|done]. destruct (decide (x = inverse ed)) as [->|Hxi]; [by apply (TcRemove.er_inverse _ _ _ _ Her)|].
      by rewrite <- (er_others _ _ _ _ Her).
    + intros b M c Hb. apply Hann in Hb as [Hb _]. by apply Hback.
    + intros b c Hb. apply Hfresh in Hb. apply Hann. split; [done|]. intros Hv ->.
      apply Ea. assert (announces p s1 (node_key (prefixes (node_mem s1)) (e_dst ed)) (e_ansn ed) (e_cost ed)) as He' by (by exists e, ed).
      edestruct announces_unique as [E _]; [exact H1|exact He'|exact Hb|congruence].
    + intros k M m. rewrite <- Hnets. apply attaches_same; [apply Her|by rewrite (er_endpoints _ _ _ _ Her)].
    + intros b c0 M c Hb Hi. eapply (edge_removed_inward F1 _ p e ed s1 s2); [exact H1|exact H2|exact He|exact Es|exact Her|exact Ea|by apply Hfresh|by eapply Hinw].
    + etrans; [exact Hoth|]. rewrite <- Es. by eapply others_edge_removed.
  - intros s1 (F1 & pre & H1 & Hless & Hp & Hpre & Hback & Hfresh & Hnets & Hinw & Hoth). rewrite app_nil_r in Hp.
    exists F1. split; [done|]. split; [done|]. split; [eauto|]. split; [|done..]. intros b M c. split; [|intros [Hb ->]; by apply Hfresh].
    intros Hb. split; [by apply Hback|]. destruct Hb as (e & ed & He & Es & Hv & _ & <- & _). apply (Hpre e); [|done..].
    apply (rep_edges_at _ _ _ _ _ _ _ _ _ _ _ _ _ _ _ H1 Hp e). eauto.
Qed.

(** *** Removing old networks *)

Lemma net_removed_attaches F F' p a x s s' k M m : rep ∅ ∅ F s -> rep ∅ ∅ F' s' -> attachment_mem s !! a = Some x -> a_src x = p ->
  attachment_mem s' = delete a (attachment_mem s) ->
  (forall q k, ep_prefixes (endpoint_mem s') !! q = Some k -> ep_prefixes (endpoint_mem s) !! q = Some k) ->
  attaches p s' k M m <-> attaches p s k M m /\ k <> prefix_at (ep_prefixes (endpoint_mem s)) (a_dst x).
Proof.
  intros H H' Ha Es Eam Hep.
  assert (forall y z, attachment_mem s' !! y = Some z -> prefix_at (ep_prefixes (endpoint_mem s')) (a_dst z) = prefix_at (ep_prefixes (endpoint_mem s)) (a_dst z)) as Hkey.
  { intros y z Hy. destruct (nt_ends (r_nets H') y z Hy) as (_ & [k' Hk']). unfold prefix_at. by rewrite Hk', (Hep _ _ Hk'). }
  split.
  - intros (y & z & Hy & Ey & Ek & EM). rewrite (Hkey y z Hy) in Ek. rewrite Eam in Hy. apply lookup_delete_Some in Hy as [Hne Hy].
    split; [by exists y, z|]. intros E. apply Hne. symmetry. eapply net_by_dst; [exact H|exact Hy|exact Ha|congruence|congruence].
  - intros [(y & z & Hy & Ey & Ek & EM) Hk]. assert (y <> a) as Hya by (intros ->; assert (z = x) as -> by congruence; congruence).
    assert (attachment_mem s' !! y = Some z) as Hy' by (by rewrite Eam, lookup_delete_ne). exists y, z. by rewrite (Hkey y z Hy').
Qed.

Record only_fresh_nets (p : ptr) (N : Z) (s s' : tc_db) : Prop := {
  fn_nets k M m : attaches p s' k M m <-> attaches p s k M m /\ M = N;
  fn_edges b M c : announces p s' b M c <-> announces p s b M c;
  fn_inward v b M c : inward p s' v b M c <-> inward p s v b M c;
  fn_others : others_same p s s';
}.

Lemma remove_old_networks_wp F s p n : rep ∅ ∅ F s -> node_mem s !! p = Some n ->
  wp (remove_old_networks p) s (fun _ s' => exists F', rep ∅ ∅ F' s' /\ less_nets (rk_dst (prefix (n_target n))) F F' /\
    (exists l, node_mem s' !! p = Some (with_attached l n)) /\ only_fresh_nets p (n_ansn n) s s').
Proof.
  intros H Hn. set (o := rk_dst (prefix (n_target n))).
  set (I := fun (rest : list ptr) (s1 : tc_db) => exists F1 pre, rep ∅ ∅ F1 s1 /\ less_nets o F F1 /\ node_mem s1 !! p = Some (with_attached (pre ++ rest) n) /\
    (forall a x, a ∈ pre -> attachment_mem s1 !! a = Some x -> a_ansn x = n_ansn n) /\
    (forall k M m, attaches p s1 k M m -> attaches p s k M m) /\ (forall k m, attaches p s k (n_ansn n) m -> attaches p s1 k (n_ansn n) m) /\
    edge_mem s1 = edge_mem s /\ prefixes (node_mem s1) = prefixes (node_mem s) /\ others_same p s s1).
  eapply (for_each_safe_wp I _ _ _ _ (_attached_networks n)).
  - unfold bind, load. by rewrite Hn.
  - exists F, []. split; [done|]. split; [by split|]. split; [by rewrite app_nil_l, with_attached_same|]. split; [by intros a x ?%elem_of_nil|]. by split_and!.
  - intros a rest s1 (F1 & pre & H1 & Hless & Hp & Hpre & Hback & Hfresh & Eem & EP & Hoth).
    assert (NoDup (pre ++ a :: rest)) as Hnd.
    { eapply (tree_strict_nodup _ rt_cmp). apply (in_strict (nt_src (r_nets H1)) p). exact (view_at _attached_networks _ _ _ Hp). }
    split; [exists pre; split; [unfold bind, load; by rewrite Hp|done]|].
    assert (a ∈ pre ++ a :: rest) as Hin by (rewrite elem_of_app; right; left).
    pose proof (proj1 (rep_attached_at _ _ _ _ _ _ _ _ _ _ _ _ _ _ _ H1 Hp a) Hin) as (x & Hx & Es). wp_steps. simpl.
    destruct (Z.eqb_spec (a_ansn x) (n_ansn n)) as [Ea|Ea].
    { wp_steps. exists F1, (pre ++ [a]). rewrite <- app_assoc. split_and!; try done.
      intros y z [Hy| ->%list_elem_of_singleton]%elem_of_app Hz; [by eapply Hpre|congruence]. }
    destruct (nt_ends (r_nets H1) a x Hx) as [_ [k0 Hk0]]. unfold ep_prefixes in Hk0. apply lookup_fmap_Some in Hk0 as (ep & <- & Hep).
    assert (node_key (prefixes (node_mem s1)) (a_src x) = o) as Ek by (rewrite Es; apply (node_key_at _ _ _ (prefixes_at _ _ _ Hp))).
    eapply wp_weaken; [eapply endpoint_remove_wp; [exact H1|exact Hx|by rewrite Es|exact Hep]|].
    intros [] s2 (H2 & Enm & Eem2 & Eam & _ & Hsub). rewrite Ek, Es in *.
    assert (node_mem s2 !! p = Some (with_attached (pre ++ rest) n)) as Hp2.
    { rewrite Enm, lookup_insert_eq. f_equal. destruct n. unfold with_attached. simpl. f_equal.
      apply NoDup_app in Hnd as (_ & Hd & Hnd'). apply NoDup_cons in Hnd' as [Ha _].
      rewrite filter_app, filter_cons_False by naive_solver. f_equal; apply filter_ne_id; [|done]. intros Hy. apply (Hd a Hy). left. }
    pose proof (fun k M m => net_removed_attaches F1 _ p a x s1 s2 k M m H1 H2 Hx Es Eam Hsub) as Hatt.
    assert (prefixes (node_mem s2) = prefixes (node_mem s1)) as EP2 by (rewrite Enm; by apply (view_same _ _ _ (with_attached (pre ++ a :: rest) n))).
    eexists _, pre. split_and!; [exact H2|by apply less_nets_step|exact Hp2|..].
    + intros y z Hy Hz. rewrite Eam in Hz. apply lookup_delete_Some in Hz as [_ Hz]. by apply (Hpre y).
    + intros k M m [Hk _]%Hatt. by apply Hback.
    + intros k m Hk. apply Hfresh in Hk. apply Hatt. split; [done|]. intros ->. apply Ea.
      assert (attaches p s1 (prefix_at (ep_prefixes (endpoint_mem s1)) (a_dst x)) (a_ansn x) (metrics_of x)) as Ha by (by exists a, x).
      symmetry. eapply attaches_unique; [exact H1|exact Ha|exact Hk].
    + by rewrite Eem2.
    + by rewrite EP2.
    + etrans; [exact Hoth|]. rewrite <- Es. by eapply others_net_removed.
  - intros s1 (F1 & pre & H1 & Hless & Hp & Hpre & Hback & Hfresh & Eem & EP & Hoth). rewrite app_nil_r in Hp.
    exists F1. split; [done|]. split; [done|]. split; [eauto|]. split.
    + intros k M m. split; [|intros [Hk ->]; by apply Hfresh]. intros Hk. split; [by apply Hback|]. destruct Hk as (a & x & Ha & Es & _ & <- & _).
      apply (Hpre a); [|done]. apply (rep_attached_at _ _ _ _ _ _ _ _ _ _ _ _ _ _ _ H1 Hp a). eauto.
    + intros b M c. unfold announces. by rewrite Eem, EP.
    + intros v b M c. unfold inward. by rewrite Eem, EP.
    + done.
Qed.

(** *** The end of the message *)

(** Only fields of the node [p] and the trace have changed. *)
Record quiet (F : facts) (p : ptr) (n : olsrv2_tc_node) (s s' : tc_db) : Prop := {
  qt_rep : rep ∅ ∅ F s';
  qt_node : exists n', node_mem s' !! p = Some n' /\ n_target n' = n_target n /\ n_ansn n' = n_ansn n;
  qt_objects : objects_same s s';
}.

Lemma objects_announces s s' p b M c : objects_same s s' -> announces p s' b M c <-> announces p s b M c.
Proof. intros [E1 E2 E3 E4]. unfold announces. by rewrite E1, E3. Qed.

Lemma objects_attaches s s' p k M m : objects_same s s' -> attaches p s' k M m <-> attaches p s k M m.
Proof. intros [E1 E2 E3 E4]. unfold attaches. by rewrite E2, E4. Qed.

Lemma objects_inward s s' p v b M c : objects_same s s' -> inward p s' v b M c <-> inward p s v b M c.
Proof. intros [E1 E2 E3 E4]. unfold inward. by rewrite E1, E3. Qed.

Lemma quiet_node F p n s n1 n' : rep ∅ ∅ F s -> node_mem s !! p = Some n1 -> n_target n' = n_target n1 -> _edges n' = _edges n1 ->
  _attached_networks n' = _attached_networks n1 -> direct_neighbor n' = direct_neighbor n1 -> n_target n1 = n_target n -> n_ansn n' = n_ansn n ->
  quiet F p n s (set_node_mem <[p := n']> s).
Proof.
  intros H Hn E1 E2 E3 E4 E5 E6. assert (prefixes (<[p := n']> (node_mem s)) = prefixes (node_mem s)) as EP by (apply (view_same _ _ _ n1); [done|by rewrite E1]).
  split.
  - unfold TcFacts.rep. simpl. eapply rep_node_same; [exact H|exact Hn|by rewrite E1|done..].
  - exists n'. simpl. rewrite lookup_insert_eq. split; [done|]. split; congruence.
  - by split.
Qed.

Lemma quiet_trans F p n s1 s2 s3 : quiet F p n s1 s2 -> quiet F p n s2 s3 -> quiet F p n s1 s3.
Proof. intros [A1 A2 A3] [B1 B2 B3]. split; [done|done|by etrans]. Qed.

Lemma quiet_later F p n s s1 : quiet F p n s s1 -> quiet F p n s1 s1.
Proof. intros [A1 A2 A3]. split; [done|done|reflexivity]. Qed.

Lemma find_source_specific_wp F s l i : rep ∅ ∅ F s -> (forall a, a ∈ l -> is_Some (attachment_mem s !! a)) -> (i < NHDP_MAXIMUM_DOMAINS)%nat ->
  wp (find_source_specific l i) s (fun _ s' => s' = s).
Proof.
  intros H Hl Hi. induction l as [|a l IH]; [by apply wp_return|]. cbn [find_source_specific].
  destruct (Hl a ltac:(left)) as [x Hx]. destruct (nt_ends (r_nets H) a x Hx) as [_ [k Hk]]. unfold ep_prefixes in Hk.
  apply lookup_fmap_Some in Hk as (ep & _ & Hep). destruct (nt_cost (r_nets H) a x Hx) as [[Hc _] _].
  destruct (lookup_lt_is_Some_2 (a_cost x) i) as [c Ec]; [by rewrite Hc|]. wp_steps. eapply wp_lift; [by apply cell_at|].
  destruct (_ && _); [by apply wp_return|]. apply IH. intros b Hb. apply Hl. by right.
Qed.

Lemma source_specific_wp F s p n l : quiet F p n s s -> (forall d, d ∈ l -> (index d < NHDP_MAXIMUM_DOMAINS)%nat) ->
  wp (source_specific_loop l p) s (fun _ s' => quiet F p n s s').
Proof.
  revert s. induction l as [|d l IH]; intros s H Hl; [by apply wp_return|]. cbn [source_specific_loop].
  pose proof H as [Hrep (n1 & Hn1 & E1 & E2) _]. wp_steps. eapply wp_weaken.
  { apply (find_source_specific_wp F); [exact Hrep| |by apply Hl; left]. intros a Ha.
    apply (rep_attached_at _ _ _ _ _ _ _ _ _ _ _ _ _ _ _ Hrep Hn1) in Ha as (x & Hx & _). by exists x. }
  intros found ? ->. unfold store_node. wp_steps.
  assert (quiet F p n s (set_node_mem <[p := with_ss_attached (<[index d := found]> (ss_attached_networks n1)) n1]> s)) as Hq by (by eapply quiet_node).
  eapply wp_weaken; [apply IH|].
  - by eapply quiet_later.
  - intros d' Hd'. apply Hl. by right.
  - intros [] s' Hs'. by eapply quiet_trans.
Qed.

Lemma changed_loop_wp F s p n l changed : quiet F p n s s -> (forall d, d ∈ l -> (index d < length changed)%nat) ->
  wp (changed_loop l changed) s (fun _ s' => quiet F p n s s').
Proof.
  revert s. induction l as [|d l IH]; intros s H Hl; [by apply wp_return|]. cbn [changed_loop].
  destruct (lookup_lt_is_Some_2 changed (index d)) as [b Hb]; [by apply Hl; left|].
  apply wp_seq. eapply wp_lift; [by apply cell_at|]. apply wp_seq. unfold call.
  destruct b; wp_steps; (eapply wp_weaken; [apply IH; [destruct H; by split|by intros d' Hd'; apply Hl; right]|]; intros [] s' [Q1 Q2 [Q3 Q4 Q5 Q6]]; by split).
Qed.

(** What the end of a message of [p] leaves: of what [p] said only the part with
    its current ANSN. *)
Record ended (p : ptr) (o : netaddr) (N : Z) (F F' : facts) (s s' : tc_db) : Prop := {
  en_rep : rep ∅ ∅ F' s';
  en_valid : valid F' = valid F;
  en_direct : direct F' = direct F;
  en_links x y : (x, y) ∈ links F' <-> if decide (x = o) then exists c, announces p s y N c else (x, y) ∈ links F;
  en_nets x k : (x, k) ∈ nets F' <-> if decide (x = o) then exists m, attaches p s k N m else (x, k) ∈ nets F;
  en_edges b M c : announces p s' b M c <-> announces p s b M c /\ M = N;
  en_attached k M m : attaches p s' k M m <-> attaches p s k M m /\ M = N;
  en_inward b c0 M c : announces p s b N c0 -> inward p s true b M c -> inward p s' true b M c;
  en_others : others_same p s s';
  en_node : exists n, node_mem s' !! p = Some n /\ rk_dst (prefix (n_target n)) = o;
}.

Lemma messagetlvs_end_wp F p s n : rep ∅ ∅ F (db s) -> node_mem (db s) !! p = Some n -> s_node (_current s) = Some p ->
  length (s_changed (_current s)) = NHDP_MAXIMUM_DOMAINS ->
  wp (_cb_messagetlvs_end domains false) s (fun r s' => s_node (_current s') = None /\
    exists F', ended p (rk_dst (prefix (n_target n))) (n_ansn n) F F' (db s) (db s')).
Proof.
  intros H Hn Hp Hc. set (o := rk_dst (prefix (n_target n))). unfold _cb_messagetlvs_end, get_current. wp_steps. rewrite Hp. wp_steps. apply wp_on_db.
  eapply wp_weaken; [apply (remove_old_edges_wp F); [exact H|exact Hn]|]. intros [] d1 (F1 & H1 & Hl1 & [l1 Hn1] & [He1 Ha1 Hi1 Ho1]). wp_steps. apply wp_on_db.
  eapply wp_weaken; [apply (remove_old_networks_wp F1); [exact H1|exact Hn1]|]. cbn [n_target n_ansn with_edges].
  intros [] d2 (F2 & H2 & Hl2 & [l2 Hn2] & [Ha2 He2 Hi2 Ho2]). wp_steps. apply wp_on_db.
  assert (forall d, d ∈ domains -> (index d < NHDP_MAXIMUM_DOMAINS)%nat) as Hidx.
  { intros d [i Hi]%list_elem_of_lookup. rewrite (do_index _ domains_good i d Hi). apply lookup_lt_Some in Hi. pose proof (do_count _ domains_good). lia. }
  assert (quiet F2 p n d2 d2) as Q2 by (split; [done|eauto|reflexivity]).
  eapply wp_weaken; [by apply (source_specific_wp F2 d2 p n)|]. intros [] d3 Q3. unfold olsrv2_tc_trigger_change, call, modify_current.
  wp_steps. apply wp_on_db. wp_steps. apply wp_on_db. simpl. set (d4 := add_call _ d3).
  assert (quiet F2 p n d2 d4) as Q4 by (destruct Q3 as [? ? [? ? ? ?]]; by split).
  eapply wp_weaken; [apply (changed_loop_wp F2 d4 p n); [by eapply quiet_later|by rewrite Hc]|].
  intros [] d5 Q5. wp_steps. split; [done|]. pose proof (quiet_trans _ _ _ _ _ _ Q4 Q5) as [Q6 (n6 & Hn6 & E6 & _) Q7]. exists F2.
  pose proof (fun b M c => objects_announces d2 d5 p b M c Q7) as Q8. pose proof (fun k M m => objects_attaches d2 d5 p k M m Q7) as Q9.
  assert (o = rk_dst (prefix (n_target n6))) as Eo by (unfold o; by rewrite E6). split; simpl.
  - done.
  - rewrite (ln_valid _ _ _ Hl2). apply Hl1.
  - rewrite (ln_direct _ _ _ Hl2). apply Hl1.
  - intros x y. case_decide as Hx; [|by rewrite (ln_links _ _ _ Hl2), (ll_links _ _ _ Hl1)].
    rewrite Hx, Eo, (links_announced F2 d5 p n6 y Q6 Hn6). split.
    + intros (M & c & Hb). rewrite Q8 in Hb. apply He2, He1 in Hb as [Hb ->]. eauto.
    + intros [c Hb]. exists (n_ansn n), c. rewrite Q8. by apply He2, He1.
  - intros x k. case_decide as Hx; [|by rewrite (ln_nets _ _ _ Hl2), (ll_nets _ _ _ Hl1)].
    rewrite Hx, Eo, (nets_attached F2 d5 p n6 k Q6 Hn6). split.
    + intros (M & m & Hb). rewrite Q9 in Hb. apply Ha2 in Hb as [Hb%Ha1 ->]. eauto.
    + intros [m Hb]. exists (n_ansn n), m. rewrite Q9. apply Ha2. split; [by apply Ha1|done].
  - intros b M c. by rewrite Q8, He2, He1.
  - intros k M m. by rewrite Q9, Ha2, Ha1.
  - intros b c0 M c Hb Hi. apply (objects_inward d2 d5); [done|]. apply Hi2. by eapply Hi1.
  - etrans; [exact Ho1|]. etrans; [exact Ho2|]. by apply objects_others.
  - by exists n6.
Qed.

(** ** The duplicate sets *)

(** What the set answers to a message. *)
Definition duplicate_answer (set : oonf_duplicate_set) (m : message_context) : oonf_duplicate_result :=
  match find_entry {| key_addr := orig_addr m; key_msg_type := msg_type m |} set with
  | None => OONF_DUPSET_FIRST
  | Some e => (_test set e (seqno m) true).1
  end.

Notation dupset_wf := (dupset_wf max_interval _vtime_info).

(** Looking into a duplicate set leaves the database alone, but for the timer of
    an entry. *)
Record dup_added (F : facts) (s s' : reader_state) : Prop := {
  da_rep : rep ∅ ∅ F (db s');
  da_nodes : node_mem (db s') = node_mem (db s);
  da_edges : edge_mem (db s') = edge_mem (db s);
  da_attachments : attachment_mem (db s') = attachment_mem (db s);
  da_endpoints : endpoint_mem (db s') = endpoint_mem (db s);
  da_active q : is_Some (node_mem (db s) !! q) -> is_active (timers (db s')) q = is_active (timers (db s)) q;
  da_current : _current s' = _current s;
  da_others set : dupset_wf set (timers (db s)) -> dupset_wf set (timers (db s'));
}.

Lemma dup_added_refl F s : rep ∅ ∅ F (db s) -> dup_added F s s.
Proof. by split. Qed.

(** A timer of another class. *)
Lemma rescheduled_rep F d x i ts' : rep ∅ ∅ F d -> rescheduled max_interval x (timers d) i ts' ->
  (forall n, node_mem d !! x = Some n -> False) -> rep ∅ ∅ F (set_timers ts' d) /\
  forall q, is_Some (node_mem d !! q) -> is_active ts' q = is_active (timers d) q.
Proof.
  intros H [Hwf Hins _ Hcl] Hx.
  assert (forall q, is_Some (node_mem d !! q) -> instances ts' !! q = instances (timers d) !! q) as Hq.
  { intros q [n Hn]. rewrite Hins, lookup_insert_ne; [done|]. intros ->. by eapply Hx. }
  assert (forall q, is_Some (node_mem d !! q) -> is_active ts' q = is_active (timers d) q) as Hact by (intros q Hn; unfold is_active; by rewrite Hq).
  split; [|done]. destruct (to_class (r_timers H)) as (k & Hk & Hp). apply rep_elapse; [done| |done]. split; [done|..].
  - destruct (Hcl _ _ Hk) as (k' & ? & ?). exists k'. split; congruence.
  - intros q Hn. unfold prefixes in Hn. rewrite lookup_fmap, fmap_is_Some in Hn. rewrite Hq by done. apply (to_timer (r_timers H)).
    unfold prefixes. by rewrite lookup_fmap, fmap_is_Some.
Qed.

Lemma duplicate_entry_effect set t m vtime memory : dupset_wf set t -> 0 <= vtime <= max_interval ->
  (find_entry {| key_addr := orig_addr m; key_msg_type := msg_type m |} set = None -> exists a, memory = Some a /\ instances t !! a = None) ->
  exists set' t', oonf_duplicate_entry_add os_core_get_random _vtime_info set t (msg_type m) (orig_addr m) (seqno m) vtime memory =
      Def (duplicate_answer set m, set', t') /\
    (t' = t \/ exists x i, rescheduled max_interval x t i t' /\ class i = _vtime_info /\ jitter_pct i = 0 /\
      (instances t !! x = None \/ exists e, e ∈ dup_tree set /\ entry_at e = x)).
Proof.
  intros Hwf Hv Hmem. set (key := {| key_addr := orig_addr m; key_msg_type := msg_type m |}) in *. unfold duplicate_answer. fold key.
  assert (exists a, oonf_duplicate_entry_add os_core_get_random _vtime_info set t (msg_type m) (orig_addr m) (seqno m) vtime memory =
    oonf_duplicate_entry_add os_core_get_random _vtime_info set t (msg_type m) (orig_addr m) (seqno m) vtime (Some a) /\
    (find_entry key set = None -> instances t !! a = None)) as (a & -> & Ha).
  { destruct (find_entry key set) as [e|] eqn:Ef; [exists 1%positive|destruct (Hmem eq_refl) as (a & -> & Ha); by exists a].
    split; [|done]. unfold oonf_duplicate_entry_add. fold key. by rewrite Ef. }
  edestruct (duplicate_entry_add_effect os_core_get_random random_u32 max_interval max_interval_range) as (r & set' & t' & e' & E & _ & _ & Hr & _ & _ & Ht);
    [exact Hwf|exact Ha|exact Hv|].
  exists set', t'. fold key in Hr. rewrite E. split; [|exact Ht]. destruct (find_entry key set); [by rewrite <- Hr|by destruct Hr as [-> _]].
Qed.

Lemma duplicate_add_wp F s set_of put m vtime : (forall d s, set_of (set_db d s) = set_of s) ->
  (forall x s, db (put x s) = db s /\ _current (put x s) = _current s) -> rep ∅ ∅ F (db s) -> dupset_wf (set_of s) (timers (db s)) ->
  0 <= vtime -> 0 <= f_hold_time -> vtime + f_hold_time <= max_interval ->
  wp (duplicate_add os_core_get_random _vtime_info malloc f_hold_time set_of put m vtime) s (fun r s' => r = duplicate_answer (set_of s) m /\ dup_added F s s' /\
    exists set d, s' = set_db (db s') (put set (set_db d s))).
Proof.
  intros Hset Hput H Hwf Hv0 Hh Hv. unfold duplicate_add. set (key := {| key_addr := orig_addr m; key_msg_type := msg_type m |}). wp_steps.
  eapply (wp_weaken _ _ (fun memory s1 => exists k, s1 = set_db (Nat.iter k count_malloc (db s)) s /\
    (find_entry key (set_of s) = None -> exists a, memory = Some a /\ instances (timers (db s)) !! a = None))).
  { destruct (find_entry key (set_of s)) as [e|] eqn:Ef; [apply wp_return; exists 0%nat; split; [by destruct s|done]|].
    apply wp_on_db. unfold oonf_class_malloc. eapply wp_eq; [reflexivity|]. exists 1%nat. split; [done|]. intros _.
    destruct (malloc (node_addresses (db s)) (mallocs (db s))) as [a|] eqn:Em; [|by destruct (malloc_total _ _ Em)].
    apply malloc_fresh in Em. unfold node_addresses in Em. rewrite not_elem_of_union, !not_elem_of_dom in Em. destruct Em as [_ Em]. by exists a. }
  intros memory s1 (k & -> & Hmem). set (d1 := Nat.iter k count_malloc (db s)).
  assert (node_mem d1 = node_mem (db s) /\ edge_mem d1 = edge_mem (db s) /\ attachment_mem d1 = attachment_mem (db s) /\ endpoint_mem d1 = endpoint_mem (db s) /\
    timers d1 = timers (db s) /\ rep ∅ ∅ F d1) as (E1 & E2 & E3 & E4 & E5 & H1) by (unfold d1; clear Hmem; induction k as [|k IH]; [by split_and!|exact IH]).
  assert (u64 (vtime + f_hold_time) = vtime + f_hold_time) as Eu. { apply u64_small. lia. }
  destruct (duplicate_entry_effect (set_of s) (timers (db s)) m (vtime + f_hold_time) memory Hwf) as (set' & t' & E & Ht); [lia|exact Hmem|].
  wp_steps. cbn [db set_db]. rewrite Hset, E5, Eu. eapply wp_lift; [exact E|]. cbv beta iota. wp_steps. apply wp_on_db. wp_steps.
  rewrite !(proj1 (Hput _ _)). split; [done|]. cbn [db set_db].
  assert (rep ∅ ∅ F (set_timers t' d1) /\ (forall q, is_Some (node_mem d1 !! q) -> is_active t' q = is_active (timers d1) q) /\
    forall set, dupset_wf set (timers (db s)) -> dupset_wf set t') as (H2 & Hact & Hoth).
  { destruct Ht as [->|(x & i & Hr & Hc & Hj & Hx)]; [rewrite <- E5; by destruct d1|]. rewrite <- E5 in Hr, Hx.
    destruct (rescheduled_rep F d1 x i t' H1 Hr) as [H2 Hact].
    - intros n Hn. destruct (to_timer (r_timers H1) x) as (j & Hj1 & Hj2 & _); [eexists; by apply prefixes_at|].
      destruct Hx as [Hx|(e & He & Ex)]; [congruence|]. destruct (ds_alloc _ _ _ _ Hwf e He) as (j' & Hj' & Hc' & _). rewrite E5 in Hj1. congruence.
    - split; [done|]. split; [done|]. intros set2 Hset2. eapply rescheduled_wf; [rewrite <- E5 in Hset2; exact Hset2|exact Hr|done|done]. }
  split; [|by exists set', d1].
  split; cbn [db set_db set_timers node_mem edge_mem attachment_mem endpoint_mem timers _current]; try done.
  - intros q Hq. rewrite Hact by (by rewrite E1). by rewrite E5.
  - exact (proj2 (Hput set' (set_db d1 s))).
Qed.

Lemma shall_process_wp F s m vtime : rep ∅ ∅ F (db s) -> dupset_wf (processed_set s) (timers (db s)) -> has_origaddr m = true -> has_seqno m = true ->
  0 <= vtime -> 0 <= f_hold_time -> vtime + f_hold_time <= max_interval ->
  wp (olsrv2_mpr_shall_process os_core_get_random _vtime_info malloc f_hold_time m vtime) s
    (fun r s' => r = oonf_duplicate_is_new (duplicate_answer (processed_set s) m) /\ dup_added F s s').
Proof.
  intros H Hwf Ho Hs Hv Hh Hvh. unfold olsrv2_mpr_shall_process. rewrite Ho, Hs. simpl. apply wp_seq.
  eapply wp_weaken; [by apply (duplicate_add_wp F s processed_set set_processed)|]. intros r s1 (-> & Hd & _). by wp_steps.
Qed.

Lemma shall_forwarding_wp F s m src vtime : rep ∅ ∅ F (db s) -> dupset_wf (forwarded_set s) (timers (db s)) ->
  0 <= vtime -> 0 <= f_hold_time -> vtime + f_hold_time <= max_interval ->
  wp (olsrv2_mpr_shall_forwarding os_core_get_random _vtime_info malloc f_hold_time input m src vtime) s
    (fun _ s' => dup_added F s s' /\ processed_set s' = processed_set s).
Proof.
  intros H Hwf Hv Hh Hvh. pose proof (dup_added_refl F s H) as Hrefl. unfold olsrv2_mpr_shall_forwarding.
  destruct (_ || _); [by wp_steps|]. destruct (input_interface input) as [[]|]; [by destruct src; wp_steps| |by wp_steps].
  destruct src as [src|]; [|by wp_steps]. apply wp_seq.
  eapply wp_weaken; [by apply (duplicate_add_wp F s forwarded_set set_forwarded)|]. intros r s1 (_ & Hd & set & d & E).
  assert (processed_set s1 = processed_set s) as Ep by (by rewrite E).
  destruct (negb _); [by wp_steps|]. destruct (source_link input) as [l|]; [|by wp_steps].
  destruct (_ =? _); [by wp_steps|]. destruct (dualstack_symmetric l); by wp_steps.
Qed.

(** ** The node of the message *)

(** No valid information of the originator is newer. *)
Definition ansn_accepted (s : tc_db) (o : netaddr) (ansn : Z) : Prop := forall p n, node_mem s !! p = Some n ->
  rk_dst (prefix (n_target n)) = o -> is_active (timers s) p = true -> rfc5444_seqno_is_smaller ansn (n_ansn n) = false.

(** The database behind [olsrv2_tc_node_add]. *)
Record node_there (F : facts) (o : netaddr) (ansn : Z) (s s' : tc_db) (p : ptr) (n : olsrv2_tc_node) : Prop := {
  nt_rep : rep ∅ ∅ F s';
  nt_node : node_mem s' !! p = Some n;
  nt_originator : rk_dst (prefix (n_target n)) = o;
  nt_active : is_active (timers s') p = true;
  nt_ansn : rfc5444_seqno_is_smaller ansn (n_ansn n) = false;
  nt_shown : shown_same s s';
}.

Lemma seqno_not_smaller ansn : rfc5444_seqno_is_smaller ansn ansn = false.
Proof. unfold rfc5444_seqno_is_smaller. by rewrite Z.eqb_refl. Qed.

Lemma node_there_wp F s o vtime ansn : rep ∅ ∅ F s -> 0 < vtime <= max_interval -> ansn_accepted s o ansn ->
  wp (olsrv2_tc_node_add os_core_get_random _validity_info malloc o vtime ansn) s (fun r s' => exists p n, r = Some p /\
    node_there (with_valid (fun v => {[o]} ∪ v) F) o ansn s s' p n).
Proof.
  intros H Hv Hansn. assert (0 <= vtime <= max_interval) as Hv' by lia. assert (vtime <> 0) as Hv0 by lia.
  assert (extend_valid o vtime F = with_valid (fun v => {[o]} ∪ v) F) as EF by (unfold extend_valid; by rewrite (proj2 (Z.eqb_neq _ _) Hv0)).
  destruct (known_or_not max_interval _validity_info F s o H) as [(p & n & Hn & Eo)|Hno].
  - rewrite <- Eo at 1. rule node_known_wp; [exact H|exact Hn|exact Hv'|done|].
    rewrite Eo, EF. intros s' H' Hp [A1 A2 A3 A4 A5] Ha. rewrite (proj2 (Z.eqb_neq _ _) Hv0) in Ha. set (n' := if is_active _ _ then _ else _) in *.
    assert (prefixes (node_mem s') = prefixes (node_mem s)) as EP.
    { apply map_eq. intros q. unfold prefixes. rewrite !lookup_fmap. destruct (decide (q = p)) as [->|Hq]; [|by rewrite A4].
      rewrite Hp, Hn. unfold n'. simpl. by destruct (is_active _ _). }
    exists p, n'. split; [done|]. split.
    + unfold TcFacts.rep. rewrite A1. exact H'.
    + done.
    + unfold n'. by destruct (is_active _ _).
    + done.
    + unfold n'. destruct (is_active (timers s) p) eqn:E; [by apply (Hansn p)|apply seqno_not_smaller].
    + apply objects_shown. split; [done|done|done|by rewrite A3].
  - rule node_new_wp; [exact H|exact Hno|exact Hv'|..].
    + intros s' Hoom. by destruct (TcAnnounce.memory malloc malloc_total Hoom).
    + rewrite EF. intros p s' H' Hp0 Hp [A1 A2 A3 A4 A5] Ha. rewrite (proj2 (Z.eqb_neq _ _) Hv0) in Ha.
      exists p, (new_node p o ansn). split; [done|]. split.
      * unfold TcFacts.rep. rewrite A1. eapply rep_excuse; [eapply (rep_reason _ _ _ _ _ _ _ _ _ _ _ _ _ p); [exact H'|exact Hp|by left]|set_solver|done].
      * done.
      * done.
      * done.
      * apply seqno_not_smaller.
      * eapply nodes_added_shown; [exact H|done|done|by rewrite A3|]. intros q k Hk. unfold prefixes in *. rewrite lookup_fmap in Hk |- *.
        rewrite A4; [done|]. intros ->. by rewrite Hp0 in Hk.
Qed.

(** ** The head of the message *)

(** A message of another router that arrives on an active interface, with the
    mandatory TLVs: validity time, ANSN and the types of its domains. *)
Record message_ok (m : message_context) (tlv : tlv_table) (vtime ansn : Z) (types : bytes) : Prop := {
  mo_guard : message_guard env input m = None;
  mo_ansn : exists t b0 b1 v, head (tlv IDX_TLV_CONT_SEQ_NUM) = Some t /\ tlv_value t = b0 :: b1 :: v /\ ansn = 256 * b0 + b1;
  mo_vtime : exists t, head (tlv IDX_TLV_VTIME) = Some t /\ timetlv t (hopcount m) = Def vtime;
  mo_itime t : head (tlv IDX_TLV_ITIME) = Some t -> exists itime, timetlv t (hopcount m) = Def itime;
  mo_types : nhdp_domain_process_mprtypes_tlv domains NHDP_MAXIMUM_DOMAINS (tlv_value <$> head (tlv IDX_TLV_MPRTYPES)) = Def types;
  mo_positive : 0 < vtime;
  mo_hold : 0 <= f_hold_time;
  mo_range : vtime + f_hold_time <= max_interval;
}.

(** The state when the addresses begin. *)
Record begun (F : facts) (o : netaddr) (ansn : Z) (types : bytes) (s s' : reader_state) (p : ptr) (n : olsrv2_tc_node) : Prop := {
  bg_node : node_mem (db s') !! p = Some n;
  bg_originator : rk_dst (prefix (n_target n)) = o;
  bg_ansn : n_ansn n = ansn;
  bg_rep : rep ∅ ∅ (with_valid (fun v => {[o]} ∪ v) F) (db s');
  bg_active : is_active (timers (db s')) p = true;
  bg_session : s_node (_current s') = Some p;
  bg_complete : complete_tc (_current s') = true;
  bg_types : s_mprtypes (_current s') = types;
  bg_changed : length (s_changed (_current s')) = NHDP_MAXIMUM_DOMAINS;
  bg_shown : shown_same (db s) (db s');
}.

Lemma first_tlv_head tlv i t : head (tlv i) = Some t -> first_tlv tlv i = Def t.
Proof. unfold first_tlv. destruct (tlv i); [done|]. by intros [= ->]. Qed.

Lemma dup_added_shown F s s' : dup_added F s s' -> shown_same (db s) (db s').
Proof. intros [_ A1 A2 A3 A4 _ _ _]. apply objects_shown. split; [done|done|by rewrite A1|by rewrite A4]. Qed.

Lemma dup_added_trans F s1 s2 s3 : dup_added F s1 s2 -> dup_added F s2 s3 -> dup_added F s1 s3.
Proof.
  intros [A1 A2 A3 A4 A5 A6 A7 A8] [B1 B2 B3 B4 B5 B6 B7 B8]. split; try congruence; [|by eauto].
  intros q Hq. rewrite B6 by (by rewrite A2). by apply A6.
Qed.

Lemma wp_unseq {St A B} (m : state_M St A) (f : A -> state_M St B) s Q : wp (bind m f) s Q -> wp m s (fun a s' => wp (f a) s' Q).
Proof. unfold wp, bind. by destruct (m s) as [[a s']|]. Qed.

(** The assignments behind the check of the ANSN. *)
Lemma accept_wp F o ansn s0 s p n vtime itime ssr : node_there F o ansn s0 s p n -> o ∈ valid F -> 0 < vtime <= max_interval ->
  wp (store_node p (with_ansn ansn n) ;;; timer_set os_core_get_random p vtime ;;; m <~ load node_mem p ;; store_node p (with_interval itime ssr m)) s
    (fun _ s' => exists n', node_mem s' !! p = Some n' /\ rk_dst (prefix (n_target n')) = o /\ n_ansn n' = ansn /\ rep ∅ ∅ F s' /\
      is_active (timers s') p = true /\ objects_same s s').
Proof.
  intros [H Hn Eo Ha _ _] Ho Hv. assert (vtime <> 0) as Hv0 by lia. unfold store_node. wp_steps. set (s1 := set_node_mem _ s).
  assert (quiet F p (with_ansn ansn n) s s1) as Q1.
  { assert (rep ∅ ∅ F s1) as H1 by (unfold TcFacts.rep; simpl; by eapply rep_node_same). split; [done|..].
    - exists (with_ansn ansn n). simpl. by rewrite lookup_insert_eq.
    - split; try done. simpl. by apply (view_same _ _ _ n). }
  rule set_validity_wp; [exact (qt_rep _ _ _ _ _ Q1)|simpl; by rewrite lookup_insert_eq|lia|done|].
  cbn [n_target with_ansn]. intros s2 H2 Enm [A1 A2 A3 A4 A5] Ha2. rewrite (proj2 (Z.eqb_neq _ _) Hv0) in Ha2. wp_steps.
  eapply wp_read; [rewrite Enm; simpl; by rewrite lookup_insert_eq|]. wp_steps.
  assert (extend_valid (rk_dst (prefix (n_target n))) vtime F = F) as EF.
  { unfold extend_valid. rewrite (proj2 (Z.eqb_neq _ _) Hv0), Eo. destruct F. unfold with_valid. simpl in *. f_equal. set_solver. }
  rewrite EF in H2. assert (rep ∅ ∅ F s2) as H2' by (unfold TcFacts.rep; by rewrite A1).
  destruct (quiet_node F p (with_ansn ansn n) s2 (with_ansn ansn n) (with_interval itime ssr (with_ansn ansn n))) as [Q2 (n3 & Hn3 & E3 & E3') Q4];
    [done|rewrite Enm; simpl; by rewrite lookup_insert_eq|done..|].
  exists n3. split; [exact Hn3|]. split; [by rewrite E3|]. split; [done|]. split; [exact Q2|]. split; [done|].
  etrans; [apply (qt_objects _ _ _ _ _ Q1)|]. etrans; [|exact Q4]. split; [done|done|by rewrite Enm|by rewrite A3].
Qed.

Lemma messagetlvs_wp F s m tlv vtime ansn types : rep ∅ ∅ F (db s) -> dupset_wf (processed_set s) (timers (db s)) ->
  dupset_wf (forwarded_set s) (timers (db s)) -> message_ok m tlv vtime ansn types ->
  oonf_duplicate_is_new (duplicate_answer (processed_set s) m) = true -> ansn_accepted (db s) (orig_addr m) ansn ->
  wp (_cb_messagetlvs os_core_get_random _validity_info _vtime_info malloc domains env f_hold_time input m tlv) s (fun r s' => r.1 = RFC5444_OKAY /\
    exists p n, begun F (orig_addr m) ansn types s s' p n).
Proof.
  intros H Hp Hf [Hg (ct & b0 & b1 & v & Ec & Ev & ->) (vt & Evt & Etime) Hit Hty Hv0 Hh0 Hvh] Hnew Hansn.
  assert (has_origaddr m = true /\ has_seqno m = true) as [Ho Hs].
  { unfold message_guard in Hg. by destruct (has_origaddr m), (has_hopcount m), (has_hoplimit m), (has_seqno m). }
  unfold _cb_messagetlvs, modify_current. wp_steps. rewrite Hg. wp_steps. eapply wp_lift; [reflexivity|]. cbn [ce_type_ext tlv_entry]. cbv zeta. change (0 =? RFC7181_CONT_SEQ_NUM_COMPLETE) with true. cbn [negb andb].
  wp_steps. eapply wp_lift; [by apply first_tlv_head|]. wp_steps. eapply wp_lift; [by rewrite Ev|]. wp_steps. eapply wp_lift; [by rewrite Ev|].
  wp_steps. eapply wp_lift; [by apply first_tlv_head|]. wp_steps. eapply wp_lift; [exact Etime|]. apply wp_seq.
  eapply (wp_weaken _ _ (fun _ s1 => s1 = set_current cleared_session s)).
  { destruct (head (tlv IDX_TLV_ITIME)) as [t|]; [|by apply wp_return]. destruct (Hit t eq_refl) as [itime Ei]. by eapply wp_lift. }
  intros itime ? ->. wp_steps. eapply wp_lift; [exact Hty|]. wp_steps. set (s1 := set_current _ _).
  eapply wp_weaken; [apply (shall_forwarding_wp F s1); [exact H|exact Hf|lia|done|done]|]. intros forward s2 [Hd2 Ep2]. change (processed_set s1) with (processed_set s) in Ep2. cbv zeta. wp_steps.
  eapply wp_weaken; [apply (shall_process_wp F s2); [apply Hd2|rewrite Ep2; by apply (da_others _ _ _ Hd2)|done|done|lia|done|done]|].
  rewrite Ep2. intros ? s3 [-> Hd3]. rewrite Hnew. cbn [negb]. apply wp_seq, wp_on_db. pose proof (dup_added_trans _ _ _ _ Hd2 Hd3) as Hd.
  assert (ansn_accepted (db s3) (orig_addr m) (256 * b0 + b1)) as Hansn3.
  { intros p n Hn E Ha. rewrite (da_nodes _ _ _ Hd) in Hn. rewrite (da_active _ _ _ Hd) in Ha by by eexists. by apply (Hansn p n). }
  eapply wp_weaken; [apply (node_there_wp F); [apply Hd|lia|exact Hansn3]|]. intros ? d (p & n & -> & Hnode).
  pose proof Hnode as [_ Hn Eo Ha Ea Hshown]. wp_steps. apply wp_on_db. wp_steps. rewrite Ea.
  set (s4 := set_current _ _). assert (_current s4 = with_session_node (Some p) (_current s1)) as Ecur by (unfold s4; simpl; by rewrite (da_current _ _ _ Hd)).
  pose proof (accept_wp _ _ (256 * b0 + b1) _ _ _ _ vtime itime (match tlv IDX_TLV_SSR with [] => false | _ => true end) Hnode ltac:(set_solver) ltac:(lia)) as Hacc.
  apply wp_seq, wp_on_db. eapply wp_weaken; [exact (wp_unseq _ _ _ _ Hacc)|]. intros [] d1 Hacc1. apply wp_seq, wp_on_db.
  eapply wp_weaken; [exact (wp_unseq _ _ _ _ Hacc1)|]. intros [] d2 Hacc2. apply wp_seq, wp_on_db.
  eapply wp_weaken; [exact (wp_unseq _ _ _ _ Hacc2)|]. intros n1 d3 Hacc3. apply wp_seq, wp_on_db.
  eapply wp_weaken; [exact Hacc3|]. intros [] d4 (n' & Hn' & Eo' & Ea' & H' & Hact & Hsame). wp_steps. split; [done|].
  exists p, n'. split; simpl; try done.
  - by rewrite (da_current _ _ _ Hd).
  - by rewrite (da_current _ _ _ Hd).
  - by rewrite (da_current _ _ _ Hd).
  - eapply shown_same_trans; [exact (dup_added_shown F s1 s3 Hd)|]. eapply shown_same_trans; [exact Hshown|by apply objects_shown].
Qed.

(** The metrics of a network of [o] before the message; those of an unknown one are
    infinite. *)
Definition stored_metrics (s : tc_db) (o : netaddr) (k : os_route_key) (m : net_metrics) : Prop :=
  (exists N, net_shown s o k N m) \/ (forall N m', ~ net_shown s o k N m') /\ m = no_metrics.

(** What a message of [o] makes of the edges and networks in the database. *)
Record message_said (o : netaddr) (ansn : Z) (types : bytes) (addresses : list (netaddr * tlv_table)) (s s' : tc_db) : Prop := {
  (* the edges that [o] announces: the named neighbors with the metrics of the
     message, and what it announced with the same ANSN before *)
  ms_edges y N c : edge_shown s' o y false N c <-> N = ansn /\
    match neighbors_said domains addresses !! y with Some m => c = m.1 | None => edge_shown s o y false ansn c end;
  (* a neighbor that does not announce the inverse edge itself has the incoming
     metrics on it *)
  ms_inverse y m : neighbors_said domains addresses !! y = Some m ->
    (exists N c, edge_shown s y o false N c) \/ exists N, edge_shown s' y o true N m.2;
  (* the networks of [o], the metrics and distances of the named ones computed
     from the message *)
  ms_nets k N m : net_shown s' o k N m <-> N = ansn /\
    if decide (k ∈ networks_said types addresses)
    then exists old, stored_metrics s o k old /\ m = network_metrics domains types addresses k old
    else net_shown s o k ansn m;
  (* what other routers announced, and the edges between them *)
  ms_other_edges x y v N c : x <> o -> v = false \/ y <> o -> edge_shown s' x y v N c <-> edge_shown s x y v N c;
  ms_other_nets x k N m : x <> o -> net_shown s' x k N m <-> net_shown s x k N m;
}.

(** From the beginning of the addresses to the end of the message. *)
Lemma message_said_intro F F2 F3 p n n2 n3 types addresses s s1 s2 s3 (o := rk_dst (prefix (n_target n))) :
  rep ∅ ∅ F (db s1) -> node_mem (db s1) !! p = Some n -> node_mem (db s2) !! p = Some n2 -> rk_dst (prefix (n_target n2)) = o ->
  node_mem (db s3) !! p = Some n3 -> rk_dst (prefix (n_target n3)) = o -> shown_same (db s) (db s1) ->
  said p o (n_ansn n) (neighbors_said domains addresses) (networks_said types addresses) (network_metrics domains types addresses) F F2 s1 s2 ->
  ended p o (n_ansn n) F2 F3 (db s2) (db s3) -> message_said o (n_ansn n) types addresses (db s) (db s3).
Proof.
  intros H Hn Hn2 Eo2 Hn3 Eo3 [S1 S2] Hsd Hend. pose proof (sd_step _ _ _ _ _ _ _ _ _ _ _ _ Hsd) as Hst.
  pose proof Hsd as [R2 _ _ _ _ _ B1 B2 B3 B4 _ _]. pose proof Hend as [R3 _ _ _ _ C1 C2 C3 C4 _].
  assert (forall b M c, announces p (db s1) b M c <-> edge_shown (db s) o b false M c) as A1 by (intros b M c; by rewrite (announces_shown F _ _ n), S1).
  assert (forall b M c, announces p (db s3) b M c <-> edge_shown (db s3) o b false M c) as A3 by (intros b M c; by rewrite (announces_shown F3 _ _ n3), Eo3).
  assert (forall k M m, attaches p (db s1) k M m <-> net_shown (db s) o k M m) as N1 by (intros k M m; by rewrite (attaches_shown F _ _ n), S2).
  assert (forall k M m, attaches p (db s3) k M m <-> net_shown (db s3) o k M m) as N3 by (intros k M m; by rewrite (attaches_shown F3 _ _ n3), Eo3).
  assert (others_same p (db s1) (db s3)) as Hoth by (etrans; [apply (st_others _ _ _ Hst)|exact C4]). split.
  - intros y N c. rewrite <- A3, C1, B1. destruct (neighbors_said domains addresses !! y) as [m|]; [naive_solver|]. rewrite A1. naive_solver.
  - intros y m Hy. destruct (B2 y m Hy) as [(M & c & Hi)|[M Hi]]; [left; exists M, c|right; exists M].
    + apply S1. apply (inward_shown max_interval _validity_info F p (db s1) n); [done|done|]. by apply (inward_told max_interval _validity_info F F2 p (db s1) (db s2) y M c H R2 (st_others _ _ _ Hst)).
    + rewrite <- Eo3. apply (inward_shown max_interval _validity_info F3 p (db s3) n3); [done|done|]. apply (C3 y m.1); [|done]. apply B1. by rewrite Hy.
  - intros k N m. rewrite <- N3, C2, B4. assert (forall old, known_net p (db s1) k old <-> stored_metrics (db s) o k old) as K.
    { intros old. unfold known_net, stored_metrics. setoid_rewrite N1. done. }
    case_decide; [setoid_rewrite K; naive_solver|]. rewrite N1. naive_solver.
  - intros x y v N c Hx Hv. rewrite (others_edge_shown max_interval _validity_info F F3 p (db s1) (db s3) n n3); done.
  - intros x k N m Hx. rewrite (others_net_shown max_interval _validity_info F F3 p (db s1) (db s3) n n3); done.
Qed.

End message.

(** ** Example *)

Section example.
Definition demo_env : olsrv2_env := {|
  _originator_v4 := addr4 10 0 0 99 32; _originator_v6 := netaddr_invalidate; _originator_set_tree := []; interface_addresses := [];
  _lan_tree := []; routable_acl := {| accept := []; reject := []; accept_default := true; reject_first := false |}; nhdp_routable := false; rtset_malloc := fun _ => true |}.
Definition demo_input : rfc5444_input := {|
  input_interface := Some false; src_address := Some (addr4 10 0 0 50 32); source_link := None; is_interface_active := fun _ => true |}.

(** Two classes of timers: the validity of nodes and of entries of the sets. *)
Definition two_classes : timer_state :=
  {| instances := ∅; classes := {[2%positive := demo_class false; 3%positive := demo_class false]};
     _timer_info_list := [2%positive; 3%positive]; _timer_tree := []; now_times := 0; start_time := 0; random_calls := 0; gettime_calls := 0 |}.
Definition message_start : reader_state := {|
  db := olsrv2_tc_init two_classes; processed_set := oonf_duplicate_set_add OONF_DUPSET_16BIT; forwarded_set := oonf_duplicate_set_add OONF_DUPSET_16BIT;
  _current := cleared_session |}.

Definition demo_message : message_context := {|
  msg_type := RFC7181_MSGTYPE_TC; msg_flags := 0xf0; addr_len := 4; has_hopcount := true; has_hoplimit := true; has_origaddr := true; has_seqno := true;
  hopcount := 0; hoplimit := 255; orig_addr := addr4 10 0 0 1 32; seqno := 1;
  msg_buffer := None; msg_size := 0; _do_not_forward := false |}.
Definition demo_tlvs : tlv_table := fun i =>
  match i with 1%nat => [{| tlv_ext := 0; tlv_value := [32] |}] | 2%nat => [{| tlv_ext := 0; tlv_value := [0; 7] |}] | _ => [] end.
Definition demo_addresses : list (netaddr * tlv_table) := [
  (addr4 10 0 0 2 32, fun i => match i with 0%nat => [{| tlv_ext := 0; tlv_value := [0x30; 10] |}] | 1%nat => [{| tlv_ext := 0; tlv_value := [1] |}] | _ => [] end);
  (addr4 10 1 0 0 16, fun i => match i with 1%nat => [{| tlv_ext := 0; tlv_value := [2] |}] | _ => [] end);
  (addr4 10 2 0 0 16, fun i => match i with 2%nat => [{| tlv_ext := 0; tlv_value := [5] |}] | _ => [] end)].

Example demo_said : map_to_list (neighbors_said demo_domains demo_addresses) =
    [(addr4 10 0 0 2 32, ([11; RFC7181_METRIC_INFINITE; RFC7181_METRIC_INFINITE; RFC7181_METRIC_INFINITE],
                          [11; RFC7181_METRIC_INFINITE; RFC7181_METRIC_INFINITE; RFC7181_METRIC_INFINITE]))] /\
  size (networks_said [0] demo_addresses) = 2%nat /\
  network_metrics demo_domains [0] demo_addresses (os_routing_init_sourcespec_prefix (addr4 10 2 0 0 16)) no_metrics = (infinite_costs, [5; 0; 0; 0]).
Proof. by vm_compute. Qed.

Lemma two_classes_wf : timer_wf 1000 two_classes.
Proof.
  split; simpl; try done; try lia.
  - constructor.
  - constructor.
  - intros t. split; [by intros ?%elem_of_nil|]. by intros [_ (i & Hi & _)].
  - intros c k. unfold running, in_flight. simpl.
    rewrite lookup_insert_Some, lookup_singleton_Some. by intros [[_ <-]|[_ [_ <-]]].
Qed.

Lemma empty_set_wf : dupset_wf 1000 3 (oonf_duplicate_set_add OONF_DUPSET_16BIT) two_classes.
Proof.
  split; [apply two_classes_wf|by exists (demo_class false)|constructor|constructor|by intros e ?%elem_of_nil].
Qed.

Lemma demo_addresses_ok : Forall address_ok demo_addresses.
Proof.
  assert (forall v, v = [1] \/ v = [2] \/ v = [5] \/ v = [0x30; 10] -> octets v) as Hv.
  { intros v [->|[->|[->| ->]]]; repeat constructor; unfold is_u8; lia. }
  repeat apply Forall_cons_2; [split|split|split|constructor]; try wf_ground; try (simpl; lia);
    intros [|[|[|[|i]]]]; simpl; try (by intros ? ?%elem_of_nil); try (by intros ? ? _ ?%elem_of_nil);
    try (intros ? ? [= <-] ->%list_elem_of_singleton; done); try (intros ? ->%list_elem_of_singleton; apply Hv; auto).
Qed.

Lemma demo_message_ok : message_ok 1000 demo_domains demo_env 300 demo_input demo_message demo_tlvs 15 7 [0].
Proof.
  split; [by vm_compute| | |by intros t [=]|by vm_compute|lia|lia|lia].
  - exists {| tlv_ext := 0; tlv_value := [0; 7] |}, 0, 7, []. by split_and!.
  - exists {| tlv_ext := 0; tlv_value := [32] |}. split; [done|by vm_compute].
Qed.

End example.
