(* ===== verification/TcPacket.v ===== *)
(** The TC reader of src/olsrv2/olsrv2/olsrv2_reader.c behind the RFC 5444 reader
    of src/librfc5444/rfc5444_reader.c: its callbacks as consumers of the packet
    parser, and packets from their octets to the topology database. *)

From Stdlib Require Import ZArith Lia Sorted.
From stdpp Require Import base list numbers option gmap sets.
From S2P Require Import Prelude AvlSpec StateMonad Rfc5444Values Netaddr NetaddrAcl ReaderParse ReaderSchedule Reader ReaderTable MprSelection NhdpDb RoutingSet Timer ValidityTimer DuplicateSet TcDatabase TcInvariant TcFacts TcOperations NhdpDomain NhdpTlv TcReader TcAnnounce TcMessage.

Local Open Scope Z_scope.
Local Open Scope cint_scope.

(** ** Consumers

    The application behind the parser is the state of the TC reader. *)
Notation tc_world := (outcome reader_state).

Section consumers.
Context (os_core_get_random : nat -> option Z) (_validity_info _vtime_info : positive) (malloc : gset ptr -> nat -> option ptr)
  (domains : list nhdp_domain) (env : olsrv2_env) (f_hold_time : Z) (input : rfc5444_input).

Definition _olsrv2_message_consumer (buf : bytes) : consumer tc_world := {|
  order := RFC5444_MAIN_PARSER_PRIORITY; default_msg_consumer := false; msg_id := RFC7181_MSGTYPE_TC; addrblock_consumer := false; _consumer_list := [];
  start_callback := None;
  end_callback := Some (fun dropped _ _ _ => run_callback (Def (without_prevent (_cb_messagetlvs_end domains dropped))));
  tlv_callback := None;
  block_callback := Some (fun ctx entries tlvs => run_callback (
    t ← read_table _olsrv2_message_tlvs buf entries tlvs;
    Def (_cb_messagetlvs os_core_get_random _validity_info _vtime_info malloc domains env f_hold_time input (ctx_message ctx) (table_of t))));
  block_callback_failed_constraints := None;
|}.

Definition _olsrv2_address_consumer (buf : bytes) : consumer tc_world := {|
  order := RFC5444_MAIN_PARSER_PRIORITY; default_msg_consumer := false; msg_id := RFC7181_MSGTYPE_TC; addrblock_consumer := true; _consumer_list := [];
  start_callback := None; end_callback := None; tlv_callback := None;
  block_callback := Some (fun ctx entries tlvs => run_callback (
    t ← read_table _olsrv2_address_tlvs buf entries tlvs;
    Def (without_prevent (_cb_addresstlvs os_core_get_random _validity_info malloc domains (ReaderSchedule.addr (ctx_address ctx)) (table_of t)))));
  block_callback_failed_constraints := None;
|}.

Definition olsrv2_reader_init (buf : bytes) : reader (W := tc_world) := {|
  packet_consumer := [];
  message_consumer := _add_consumer (_olsrv2_address_consumer buf) (_add_consumer (_olsrv2_message_consumer buf) [] _olsrv2_message_tlvs) _olsrv2_address_tlvs;
  forward_message := None;
|}.

(** A packet that the parser accepts: the state behind it. *)
Definition receive (packet : bytes) (s : reader_state) : outcome reader_state :=
  '(_, st) ← rfc5444_reader_handle_packet (fun _ => true) (olsrv2_reader_init packet) packet {| ReaderParse.calls := 0; tlv_live := 0; addr_live := 0 |} (Def s);
  r_world st.
End consumers.

(** ** Packets *)

Section example.
Definition demo_start : reader_state := {|
  db := olsrv2_tc_init demo_init; processed_set := oonf_duplicate_set_add OONF_DUPSET_16BIT; forwarded_set := oonf_duplicate_set_add OONF_DUPSET_16BIT;
  _current := cleared_session |}.
Definition demo_receive : bytes -> reader_state -> outcome reader_state :=
  receive demo_random 2 2 demo_malloc demo_domains demo_env 300 demo_input.

Fixpoint receive_all (l : list bytes) (s : reader_state) : outcome reader_state :=
  match l with [] => Def s | p :: l => s ← demo_receive p s; receive_all l s end.

(** A TC message with originator 10.0.0.[o], sequence number [seq], message TLVs
    and address blocks. *)
Definition tc_packet (o seq : Z) (tlvs blocks : bytes) : bytes :=
  let len := 12 + 2 + blen tlvs + blen blocks in
  [0; 1; 0xf3; 0; len; 10; 0; 0; o; 255; 0; 0; seq; 0; blen tlvs] ++ tlvs ++ blocks.
(** Validity time and ANSN with the given extension. *)
Definition vtime_tlv : bytes := [1; 0x10; 1; 96].
Definition ansn_tlv (ext ansn : Z) : bytes := [8; 0x90; ext; 2; 0; ansn].
(** The address 10.0.0.[a] as originator with a metric in both directions. *)
Definition neighbor_block (a : Z) : bytes := [1; 0; 10; 0; 0; a; 0; 8; 9; 0x10; 1; 1; 7; 0x10; 2; 0x30] ++ [10].

(** Router 10.0.0.[o] announces 10.0.0.[a] as its neighbor, with this metric to it. *)
Definition link_cost (o a : Z) (s : reader_state) : option Z :=
  let P := prefixes (node_mem (db s)) in
  let fits (e : olsrv2_tc_edge) := bool_decide (virtual e = false /\ node_key P (e_src e) = addr4 10 0 0 o 32 /\ node_key P (e_dst e) = addr4 10 0 0 a 32) in
  match filter (fun e => fits e = true) (map_to_list (edge_mem (db s))).*2 with e :: _ => e_cost e !! 0%nat | [] => None end.
Definition after (l : list bytes) (f : reader_state -> Prop) : Prop := match receive_all l demo_start with Def s => f s | Undef _ => False end.

Definition complete (o seq ansn a : Z) : bytes := tc_packet o seq (vtime_tlv ++ ansn_tlv 0 ansn) (neighbor_block a).

(** The octets of a packet arrive in the database, and the next one replaces what
    the first one said. *)
Example packet_to_database :
  after [complete 1 1 7 2] (fun s => link_cost 1 2 s = Some 11 /\ link_cost 2 1 s = None) /\
  after [complete 1 1 7 2; complete 1 2 8 3] (fun s => link_cost 1 2 s = None /\ link_cost 1 3 s = Some 11) /\
  after [complete 1 2 8 3; complete 1 1 7 2] (fun s => link_cost 1 2 s = None /\ link_cost 1 3 s = Some 11).
Proof. by vm_compute. Qed.

(** The kind of a message is read from the description of its TLV, which always
    says COMPLETE: a part of a message with the present ANSN is accepted, and
    so is one of an unknown kind. *)
Example incomplete_taken_for_complete :
  rfc5444_seqno_is_larger 7 7 = false /\
  after [complete 1 1 7 2; tc_packet 1 2 (vtime_tlv ++ ansn_tlv RFC7181_CONT_SEQ_NUM_INCOMPLETE 7) (neighbor_block 3)] (fun s => link_cost 1 3 s = Some 11) /\
  after [tc_packet 1 1 (vtime_tlv ++ ansn_tlv 5 7) (neighbor_block 3)] (fun s => link_cost 1 3 s = Some 11).
Proof. by vm_compute. Qed.

(** A message that is dropped because its ANSN is old leaves the node in the
    session. The next message, of another router and without the mandatory
    TLVs, skips the callback that clears the session, and its addresses are
    taken as neighbors of the first router. *)
Definition stale_session : list bytes := [complete 1 1 7 2; complete 1 2 6 2; tc_packet 20 1 (ansn_tlv 0 1) (neighbor_block 30)].

Example stale_session_used : after stale_session (fun s => link_cost 1 30 s = Some 11 /\ link_cost 20 30 s = None).
Proof. by vm_compute. Qed.

(** When the first router has timed out before, its memory is used after it was
    freed. *)
Example stale_session_dangles :
  (s ← receive_all (take 2 stale_session) demo_start;
   '(_, d) ← run_op demo_random 2 demo_malloc (Timeout 3) (db s);
   receive_all (list.drop 2 stale_session) (set_db d s)) = Undef UB_read.
Proof. by vm_compute. Qed.

(** Two packets of a router that names itself as a neighbor. *)
Example own_neighbor_crashes : receive_all [complete 1 1 7 1; complete 1 2 8 2] demo_start = Undef UB_null.
Proof. by vm_compute. Qed.

(** A message with an old ANSN is dropped, but it has set the validity time of the
    information that it does not replace. *)
Definition validity_of (o : Z) (s : reader_state) : option Z :=
  match filter (fun p => node_key (prefixes (node_mem (db s))) p = addr4 10 0 0 o 32) (_tc_tree (db s)) with
  | p :: _ => _clock <$> instances (timers (db s)) !! p | [] => None end.

Example old_ansn_extends_validity :
  after [complete 1 1 7 2] (fun s => validity_of 1 s = Some 4100) /\
  after [complete 1 1 7 2; tc_packet 1 2 ([1; 0x10; 1; 104] ++ ansn_tlv 0 6) (neighbor_block 3)] (fun s => validity_of 1 s = Some 8100 /\ link_cost 1 3 s = None).
Proof. by vm_compute. Qed.
End example.
