(* ===== verification/Dijkstra.v ===== *)
(** Shortest paths in the topology graph of OLSRv2: the working queue of
    src/olsrv2/olsrv2/olsrv2_routing.c over the records of olsrv2_tc.h. *)

From Stdlib Require Import ZArith Lia Sorted.
From stdpp Require Import base list numbers option gmap sets.
From S2P Require Import Prelude AvlSpec Netaddr MprSelection NhdpDb RoutingSet.

Local Open Scope Z_scope.
Local Open Scope cint_scope.

(** ** Topology

    Targets (nodes and endpoints) are named by their position in one list:
    a pointer to a target is such a number. *)

Inductive olsrv2_target_type := OLSRV2_NODE_TARGET | OLSRV2_ADDRESS_TARGET | OLSRV2_NETWORK_TARGET.

#[export] Instance olsrv2_target_type_eq_dec : EqDecision olsrv2_target_type.
Proof. solve_decision. Defined.

Record olsrv2_tc_edge := { e_dst : nat; e_virtual : bool; e_cost : list Z }.
Record olsrv2_tc_attachment := { at_dst : nat; at_cost : list Z; at_distance : list Z }.

Record olsrv2_tc_node := {
  source_specific : bool;
  ss_attached_networks : list bool;
  _edges : list olsrv2_tc_edge;
  _attached_networks : list olsrv2_tc_attachment;
}.

(** An endpoint counts the nodes that are attached to it. *)
Record olsrv2_tc_endpoint := { ep_attached_count : nat }.

Record olsrv2_tc_target := { prefix : os_route_key; type : olsrv2_target_type; object : olsrv2_tc_node + olsrv2_tc_endpoint }.

Record topology := {
  targets : list olsrv2_tc_target;
  _tc_tree : list nat;
  _tc_endpoint_tree : list nat;
}.

(** The field [_dijkstra] of a target. [originator] points to the destination
    prefix of a node. *)
Record olsrv2_dijkstra_node := {
  path_cost : Z;
  dj_path_hops : Z;
  distance : Z;
  dj_originator : nat;
  first_hop : option nat;
  dj_last_originator : netaddr;
  dj_single_hop : bool;
  local : bool;
  done : bool;
}.

(** The state of a run: the nodes of all targets, the working tree and the
    routing tree of the domain. *)
Record run_state := {
  nodes : list olsrv2_dijkstra_node;
  working_tree : list nat;
  routing_tree : list olsrv2_routing_entry;
}.

Section run.
Context (env : olsrv2_env) (db : nhdp_db) (topo : topology) (dom : nat).

Definition get_target (t : nat) : outcome olsrv2_tc_target :=
  match targets topo !! t with Some x => Def x | None => Undef UB_read end.
Definition get_node (t : nat) (ns : list olsrv2_dijkstra_node) : outcome olsrv2_dijkstra_node :=
  match ns !! t with Some x => Def x | None => Undef UB_read end.
(** [container_of] for a node and for an endpoint *)
Definition tc_node_of (target : olsrv2_tc_target) : outcome olsrv2_tc_node :=
  match object target with inl n => Def n | inr _ => Undef UB_read end.
Definition tc_endpoint_of (target : olsrv2_tc_target) : outcome olsrv2_tc_endpoint :=
  match object target with inr e => Def e | inl _ => Undef UB_read end.
(** [cost[domain->index]] *)
Definition at_domain (l : list Z) : outcome Z := match l !! dom with Some c => Def c | None => Undef UB_read end.

Definition dst_of (t : nat) : netaddr :=
  match targets topo !! t with Some x => rk_dst (prefix x) | None => netaddr_invalidate end.

(** [olsrv2_tc_node_get] *)
Definition olsrv2_tc_node_get (addr : netaddr) : option nat := tree_find dst_of avl_comp_netaddr addr (_tc_tree topo).

(** ** The working tree *)

Definition avl_comp_uint32 (a b : Z) : Z := if b <? a then 1 else if a <? b then -1 else 0.

#[export] Instance uint32_comparator : Comparator avl_comp_uint32.
Proof.
  split; unfold avl_comp_uint32.
  - intros x. by rewrite Z.ltb_irrefl.
  - intros x y. destruct (Z.ltb_spec x y), (Z.ltb_spec y x); lia.
  - intros x y z. destruct (Z.ltb_spec x y), (Z.ltb_spec y x), (Z.ltb_spec y z), (Z.ltb_spec z y), (Z.ltb_spec x z), (Z.ltb_spec z x); lia.
Qed.

(** The key of a target in the tree: the path cost it points to. *)
Definition cost_key (ns : list olsrv2_dijkstra_node) (t : nat) : Z :=
  match ns !! t with Some n => path_cost n | None => 0 end.

Definition set_nodes (ns : list olsrv2_dijkstra_node) (tree : list nat) (st : run_state) : run_state :=
  {| nodes := ns; working_tree := tree; routing_tree := routing_tree st |}.

Definition _insert_into_working_tree (target : nat) (neigh : option nat) (link_cost cost hops dist : Z) (single : bool)
    (last : netaddr) (st : run_state) : outcome run_state :=
  if RFC7181_METRIC_MAX <? link_cost then Def st
  else
    node ← get_node target (nodes st);
    if local node || done node then Def st
    else
      let cost := u32 (cost + link_cost) in
      let hops := u8 (hops + 1) in
      let added := bool_decide (target ∈ working_tree st) in
      if added && (path_cost node <=? cost) then Def st
      else
        let tree := if added then filter (fun t => t <> target) (working_tree st) else working_tree st in
        let ns := <[target := {| path_cost := cost; dj_path_hops := hops; distance := dist; dj_originator := dj_originator node;
                                 first_hop := neigh; dj_last_originator := last; dj_single_hop := single;
                                 local := local node; done := done node |}]> (nodes st) in
        Def (set_nodes ns (tree_insert_dup (cost_key ns) avl_comp_uint32 target tree) st).

(** [_prepare_nodes]: the flag [local] of an endpoint is not written. *)
Definition prepare_node (n : olsrv2_dijkstra_node) (is_local : bool) : olsrv2_dijkstra_node :=
  {| path_cost := RFC7181_METRIC_INFINITE_PATH; dj_path_hops := 255; distance := distance n; dj_originator := dj_originator n;
     first_hop := None; dj_last_originator := dj_last_originator n; dj_single_hop := dj_single_hop n;
     local := is_local; done := false |}.
Definition _prepare_nodes (st : run_state) : run_state :=
  let ns := foldl (fun ns t => alter (fun n => prepare_node n (olsrv2_originator_is_local env (dst_of t))) t ns)
                  (nodes st) (_tc_tree topo) in
  let ns := foldl (fun ns t => alter (fun n => prepare_node n (local n)) t ns) ns (_tc_endpoint_tree topo) in
  set_nodes ns (working_tree st) st.

(** ** One-hop neighbors *)

Fixpoint _add_one_hop_nodes (neighs : list nat) (af_family : Z) (use_non_ss use_ss : bool) (st : run_state) : outcome run_state :=
  match neighs with
  | [] => Def st
  | h :: neighs =>
      neigh ← get_neigh db h;
      if negb (na_type (originator neigh) =? af_family) then _add_one_hop_nodes neighs af_family use_non_ss use_ss st
      else if symmetric neigh =? 0 then _add_one_hop_nodes neighs af_family use_non_ss use_ss st
      else
        match olsrv2_tc_node_get (originator neigh) with
        | None => _add_one_hop_nodes neighs af_family use_non_ss use_ss st
        | Some t =>
            target ← get_target t;
            node ← tc_node_of target;
            if negb use_non_ss && negb (source_specific node && use_ss) then _add_one_hop_nodes neighs af_family use_non_ss use_ss st
            else
              neigh_metric ← nhdp_domain_get_neighbordata dom neigh;
              if (RFC7181_METRIC_MAX <? m_in (nd_metric neigh_metric)) || (RFC7181_METRIC_MAX <? m_out (nd_metric neigh_metric))
              then _add_one_hop_nodes neighs af_family use_non_ss use_ss st
              else
                match olsrv2_originator_get env af_family with
                | None => Undef UB_null
                | Some last =>
                    st ← _insert_into_working_tree t (Some h) (m_out (nd_metric neigh_metric)) 0 0 0 true last st;
                    _add_one_hop_nodes neighs af_family use_non_ss use_ss st
                end
        end
  end.

(** ** Processing the first target of the queue *)

(** The arguments of a routing entry for a target. *)
Definition route_of (key : os_route_key) (orig : netaddr) (hop : option nat) (dist cost hops : Z) (single : bool) (last : netaddr)
    (st : run_state) : outcome run_state :=
  match hop with
  | None => Undef UB_null
  | Some h =>
      rt ← _update_routing_entry env db dom {| dst_prefix := key; dst_originator := orig; o_first_hop := h; o_distance := dist;
        pathcost := cost; RoutingSet.path_hops := hops; single_hop := single; last_originator := last |} (routing_tree st);
      Def {| nodes := nodes st; working_tree := working_tree st; routing_tree := rt |}
  end.

Definition set_done (n : olsrv2_dijkstra_node) : olsrv2_dijkstra_node :=
  {| path_cost := path_cost n; dj_path_hops := dj_path_hops n; distance := distance n; dj_originator := dj_originator n;
     first_hop := first_hop n; dj_last_originator := dj_last_originator n; dj_single_hop := dj_single_hop n;
     local := local n; done := true |}.

(** The loop over the edges of the node [tc_node] that was reached as [n]. *)
Fixpoint edges_loop (es : list olsrv2_tc_edge) (use_non_ss : bool) (tc_node : olsrv2_tc_node) (target : olsrv2_tc_target)
    (n : olsrv2_dijkstra_node) (st : run_state) : outcome run_state :=
  match es with
  | [] => Def st
  | e :: es =>
      cost ← at_domain (e_cost e);
      if negb (e_virtual e) && (cost <=? RFC7181_METRIC_MAX) then
        if negb use_non_ss && negb (source_specific tc_node) then edges_loop es use_non_ss tc_node target n st
        else
          st ← _insert_into_working_tree (e_dst e) (first_hop n) cost (path_cost n) (dj_path_hops n) 0 false (rk_dst (prefix target)) st;
          edges_loop es use_non_ss tc_node target n st
      else edges_loop es use_non_ss tc_node target n st
  end.

(** The loop over the attached networks and addresses. *)
Fixpoint attached_loop (ats : list olsrv2_tc_attachment) (use_non_ss use_ss : bool) (target : olsrv2_tc_target)
    (n : olsrv2_dijkstra_node) (st : run_state) : outcome run_state :=
  match ats with
  | [] => Def st
  | a :: ats =>
      cost ← at_domain (at_cost a);
      if cost <=? RFC7181_METRIC_MAX then
        end_target ← get_target (at_dst a);
        tc_endpoint ← tc_endpoint_of end_target;
        if negb (if 0 <? na_prefix_len (rk_src (prefix end_target)) then use_ss else use_non_ss)
        then attached_loop ats use_non_ss use_ss target n st
        else
          dist ← at_domain (at_distance a);
          if (1 <? ep_attached_count tc_endpoint)%nat then
            st ← _insert_into_working_tree (at_dst a) (first_hop n) cost (path_cost n) (dj_path_hops n) dist false (rk_dst (prefix target)) st;
            attached_loop ats use_non_ss use_ss target n st
          else
            _ ← get_node (at_dst a) (nodes st);
            let st := set_nodes (alter set_done (at_dst a) (nodes st)) (working_tree st) st in
            st ← route_of (prefix end_target) (rk_dst (prefix target)) (first_hop n) dist (u32 (path_cost n + cost))
                   (u8 (dj_path_hops n + 1)) false (rk_dst (prefix target)) st;
            attached_loop ats use_non_ss use_ss target n st
      else attached_loop ats use_non_ss use_ss target n st
  end.

(** [None] for an empty working tree *)
Definition _handle_working_queue (use_non_ss use_ss : bool) (st : run_state) : outcome run_state :=
  match working_tree st with
  | [] => Undef UB_null
  | t :: tree =>
      target ← get_target t;
      n ← get_node t (nodes st);
      let st := set_nodes (alter set_done t (nodes st)) tree st in
      st ← (if use_non_ss : bool then
              orig ← get_target (dj_originator n);
              route_of (prefix target) (rk_dst (prefix orig)) (first_hop n) (distance n) (path_cost n) (dj_path_hops n)
                (dj_single_hop n) (dj_last_originator n) st
            else Def st);
      if bool_decide (type target = OLSRV2_NODE_TARGET) then
        tc_node ← tc_node_of target;
        st ← edges_loop (_edges tc_node) use_non_ss tc_node target n st;
        attached_loop (_attached_networks tc_node) use_non_ss use_ss target n st
      else Def st
  end.

(** Every round finishes one target: their number is fuel enough. *)
Fixpoint queue_loop (fuel : nat) (use_non_ss use_ss : bool) (st : run_state) : outcome run_state :=
  match working_tree st with
  | [] => Def st
  | _ :: _ =>
      match fuel with
      | O => Undef Out_of_fuel
      | S fuel => st ← _handle_working_queue use_non_ss use_ss st; queue_loop fuel use_non_ss use_ss st
      end
  end.

Definition _run_dijkstra (af_family : Z) (use_non_ss use_ss : bool) (st : run_state) : outcome run_state :=
  st ← _add_one_hop_nodes (seq 0 (length (_neigh_list db))) af_family use_non_ss use_ss st;
  queue_loop (length (targets topo)) use_non_ss use_ss st.

(** [_check_ssnode_split]: with the counts of all nodes *)
Fixpoint ssnode_count (ts : list nat) (af_family : Z) (ss full : Z) (pre : bool) : outcome (Z * Z * bool) :=
  match ts with
  | [] => Def (ss, full, pre)
  | t :: ts =>
      target ← get_target t;
      node ← tc_node_of target;
      ssnet ← (match ss_attached_networks node !! dom with Some b => Def b | None => Undef UB_read end);
      let mine := na_type (rk_dst (prefix target)) =? af_family in
      ssnode_count ts af_family (if mine && source_specific node then u32 (ss + 1) else ss)
        (if mine then u32 (full + 1) else full) (pre || ssnet)
  end.

Definition _check_ssnode_split (af_family : Z) : outcome bool :=
  '(ss, full, pre) ← ssnode_count (_tc_tree topo) af_family 0 0 false;
  Def (negb (ss =? 0) && negb (ss =? full) && (pre : bool)).
End run.

(** ** Paths in the graph *)

Section paths.
Context (env : olsrv2_env) (db : nhdp_db) (topo : topology) (dom : nat).
Context (af_family : Z) (use_non_ss use_ss : bool).

(** The local nodes [lc]. Targets that are never entered are the local nodes
    and those that an earlier run has finished. *)
Context (lc loc : nat -> bool).

(** A symmetric neighbor [h] of the address family that is the node [t]. *)
Definition one_hop (t h : nat) (k : Z) : Prop := exists neigh target node d,
  _neigh_list db !! h = Some neigh /\ na_type (originator neigh) = af_family /\ symmetric neigh <> 0 /\
  olsrv2_tc_node_get topo (originator neigh) = Some t /\ targets topo !! t = Some target /\ object target = inl node /\
  use_non_ss || (source_specific node && use_ss) = true /\
  nhdp_domain_get_neighbordata dom neigh = Def d /\ m_in (nd_metric d) <= RFC7181_METRIC_MAX /\
  k = m_out (nd_metric d) /\ k <= RFC7181_METRIC_MAX.

Definition edge_step (node : olsrv2_tc_node) (e : olsrv2_tc_edge) (k : Z) : Prop :=
  e_virtual e = false /\ e_cost e !! dom = Some k /\ k <= RFC7181_METRIC_MAX /\ use_non_ss || source_specific node = true.

Definition attach_step (a : olsrv2_tc_attachment) (k : Z) : Prop := exists target,
  at_cost a !! dom = Some k /\ k <= RFC7181_METRIC_MAX /\ targets topo !! at_dst a = Some target /\
  (if 0 <? na_prefix_len (rk_src (prefix target)) then use_ss else use_non_ss) = true.

(** A usable edge or attachment from the node [t] to the target [m]. *)
Definition step (t m : nat) (k : Z) : Prop := exists target node,
  targets topo !! t = Some target /\ object target = inl node /\
  ((exists e, e ∈ _edges node /\ edge_step node e k /\ m = e_dst e) \/
   (exists a, a ∈ _attached_networks node /\ attach_step a k /\ m = at_dst a)).

(** A path to [t] of cost [c] that starts with the neighbor [h]. *)
Inductive path : nat -> Z -> nat -> Prop :=
  | path_hop t h k : one_hop t h k -> loc t = false -> path t k h
  | path_step t c h m k : path t c h -> step t m k -> loc m = false -> path m (c + k) h.

(** An endpoint with one attachment does not enter the working queue. *)
Definition single (m : nat) : Prop := exists target ep,
  targets topo !! m = Some target /\ object target = inr ep /\ (ep_attached_count ep <= 1)%nat.

(** ** Well formed topologies *)

Record topo_ok : Prop := {
  to_type t x : targets topo !! t = Some x -> type x = OLSRV2_NODE_TARGET <-> exists n, object x = inl n;
  to_edge t x n e : targets topo !! t = Some x -> object x = inl n -> e ∈ _edges n ->
    (exists y n', targets topo !! e_dst e = Some y /\ object y = inl n') /\ exists k, e_cost e !! dom = Some k /\ 0 <= k;
  to_attached t x n a : targets topo !! t = Some x -> object x = inl n -> a ∈ _attached_networks n ->
    (exists y ep, targets topo !! at_dst a = Some y /\ object y = inr ep) /\
    (exists k, at_cost a !! dom = Some k /\ 0 <= k) /\ exists d, at_distance a !! dom = Some d;
  to_tree t : t ∈ _tc_tree topo -> exists x n, targets topo !! t = Some x /\ object x = inl n;
}.

Context (Htopo : topo_ok) (Hdb : db_ok db) (Hdom : (dom < NHDP_MAXIMUM_DOMAINS)%nat).
Context (Haf : is_Some (olsrv2_originator_get env af_family)).
Context (K : Z) (HK1 : forall t h k, one_hop t h k -> k <= K) (HK2 : forall t m k, step t m k -> k <= K).
Notation T := (length (targets topo)).
Context (Hbound : (Z.of_nat T + 1) * K < 2 ^ 32) (HK0 : 0 <= K).

(** Only targets that use the queue are kept out of it. *)
Context (Hlc : forall t, lc t = true -> loc t = true) (Hend : forall m, single m -> loc m = false).

(** What the routing entries need to be written. *)
Context (Hoffer : forall o m target, path m (pathcost o) (o_first_hop o) -> targets topo !! m = Some target ->
  dst_prefix o = prefix target -> offer_ok env db dom o).

Lemma one_hop_node t h k : one_hop t h k -> ~ single t.
Proof. intros (neigh & target & node & d & _ & _ & _ & _ & E & Ho & _) (target' & ep & E' & Ho' & _). congruence. Qed.

Lemma one_hop_pos t h k : one_hop t h k -> 0 <= k.
Proof.
  intros (neigh & target & node & d & En & _ & _ & _ & _ & _ & _ & Ed & _ & -> & _).
  destruct (neighbordata_ok dom Hdom db neigh (db_neighs _ Hdb _ _ En)) as (d' & Ed' & [_ ?]).
  rewrite Ed in Ed'. injection Ed' as <-. lia.
Qed.

Lemma step_pos t m k : step t m k -> 0 <= k.
Proof.
  intros (x & n & E & Eo & [(e & He & (_ & Ek & _) & _)|(a & Ha & (y & Ek & _) & _)]).
  - destruct (to_edge Htopo _ _ _ _ E Eo He) as (_ & k' & Ek' & ?). congruence.
  - destruct (to_attached Htopo _ _ _ _ E Eo Ha) as (_ & (k' & Ek' & ?) & _). congruence.
Qed.

Lemma path_pos t c h : path t c h -> 0 <= c.
Proof. induction 1 as [t h k H _|t c h m k _ IH H _]; [by eapply one_hop_pos|]. apply step_pos in H. lia. Qed.

Lemma path_not_local t c h : path t c h -> loc t = false.
Proof. by destruct 1. Qed.

(** ** The invariant of the run *)

Definition count_done (ns : list olsrv2_dijkstra_node) : Z := Z.of_nat (length (filter (fun n => done n = true) ns)).

(** [t] is in the queue or finished, at a cost of at most [c]. *)
Definition settled (st : run_state) (t : nat) (c : Z) : Prop :=
  exists n, nodes st !! t = Some n /\ (done n = true \/ t ∈ working_tree st) /\ path_cost n <= c.

(** [top] lies between the costs of finished and queued targets. *)
Record inv (top : Z) (st : run_state) : Prop := {
  iv_length : length (nodes st) = T;
  iv_local t n : nodes st !! t = Some n -> local n = lc t;
  iv_loc t n : nodes st !! t = Some n -> loc t = true -> lc t = true \/ done n = true;
  iv_orig t n : nodes st !! t = Some n -> (dj_originator n < T)%nat;
  iv_nodup : NoDup (working_tree st);
  iv_sorted : tree_sorted (cost_key (nodes st)) avl_comp_uint32 (working_tree st);
  iv_tree t : t ∈ working_tree st -> ~ single t /\ exists n h, nodes st !! t = Some n /\ done n = false /\ first_hop n = Some h /\
    path t (path_cost n) h /\ top <= path_cost n <= (count_done (nodes st) + 1) * K;
  iv_done t n : nodes st !! t = Some n -> done n = true -> ~ single t -> loc t = false ->
    exists h, first_hop n = Some h /\ path t (path_cost n) h /\ path_cost n <= top;
}.

(** What a part of the run keeps: costs do not grow, nothing is unfinished. *)
Record keeps (st st' : run_state) : Prop := {
  kp_settled t c : settled st t c -> settled st' t c;
  kp_done t n : nodes st !! t = Some n -> done n = true -> ~ single t -> nodes st' !! t = Some n;
  kp_new t n' : nodes st' !! t = Some n' -> done n' = true -> ~ single t -> nodes st !! t = Some n';
  kp_count : count_done (nodes st) <= count_done (nodes st');
}.

Lemma keeps_refl st : keeps st st.
Proof. split; try done. Qed.

Lemma keeps_trans st1 st2 st3 : keeps st1 st2 -> keeps st2 st3 -> keeps st1 st3.
Proof.
  intros [A1 A2 A3 A4] [B1 B2 B3 B4]. split; [auto|intros; apply B2; auto|auto|lia].
Qed.

(** ** Inserting into the working tree *)

Lemma sorted_ext (k1 k2 : nat -> Z) l : (forall x, x ∈ l -> k1 x = k2 x) -> tree_sorted k1 avl_comp_uint32 l -> tree_sorted k2 avl_comp_uint32 l.
Proof.
  induction l as [|x l IH]; intros Hk Hs; [constructor|]. apply StronglySorted_inv in Hs as [Hs Hx]. constructor.
  - apply IH; [|done]. intros y Hy. apply Hk. by right.
  - rewrite Forall_forall in Hx |- *. intros y Hy. specialize (Hx y Hy). unfold key_le in *. rewrite <- !Hk; [done|by right|by left].
Qed.

Lemma sorted_filter k (P : nat -> Prop) `{!forall x, Decision (P x)} l : tree_sorted k avl_comp_uint32 l -> tree_sorted k avl_comp_uint32 (filter P l).
Proof.
  induction l as [|x l IH]; intros Hs; [constructor|]. apply StronglySorted_inv in Hs as [Hs Hx]. rewrite filter_cons.
  case_decide; [|by apply IH]. constructor; [by apply IH|]. rewrite Forall_forall in Hx |- *. intros y [_ Hy]%list_elem_of_filter. by apply Hx.
Qed.

Lemma count_done_insert ns t n n' : ns !! t = Some n -> done n' = done n -> count_done (<[t := n']> ns) = count_done ns.
Proof.
  intros E Ed. unfold count_done. f_equal. revert t E. induction ns as [|x ns IH]; intros [|t] E; simpl in E; try done.
  - injection E as ->. simpl. rewrite !filter_cons, Ed. by case_decide.
  - simpl. rewrite !filter_cons. case_decide; simpl; by rewrite (IH t E).
Qed.

(** A better or first path to [m]: it is queued with its new cost. *)
Lemma enter_ok top st m n n' h : inv top st -> nodes st !! m = Some n -> done n = false -> ~ single m ->
  local n' = local n -> done n' = false -> dj_originator n' = dj_originator n -> first_hop n' = Some h ->
  path m (path_cost n') h -> top <= path_cost n' <= (count_done (nodes st) + 1) * K ->
  (m ∈ working_tree st -> path_cost n' <= path_cost n) ->
  let ns := <[m := n']> (nodes st) in
  let st' := set_nodes ns (tree_insert_dup (cost_key ns) avl_comp_uint32 m (filter (fun t => t <> m) (working_tree st))) st in
  inv top st' /\ keeps st st' /\ settled st' m (path_cost n') /\ count_done ns = count_done (nodes st).
Proof.
  intros [I1 I2 I2' I3 I4 I5 I6 I7] En Ed Hns El Ed' Eo Eh Hp Hc Hdec ns st'.
  assert (count_done ns = count_done (nodes st)) as Hcd by (apply (count_done_insert _ m n); congruence).
  assert (ns !! m = Some n') as Em by (apply list_lookup_insert_eq; by eapply lookup_lt_Some).
  assert (forall t, t <> m -> ns !! t = nodes st !! t) as Hne by (intros t Ht; by apply list_lookup_insert_ne).
  assert (forall t, t ∈ working_tree st' <-> t = m \/ t ∈ working_tree st) as Hin.
  { intros t. simpl. rewrite tree_insert_dup_perm, elem_of_cons, list_elem_of_filter. destruct (decide (t = m)); naive_solver. }
  split; [|split; [|split; [|done]]].
  - split; simpl.
    + unfold ns. by rewrite length_insert.
    + intros t x Et. destruct (decide (t = m)) as [->|Ht]; [|rewrite Hne in Et by done; by apply I2].
      rewrite Em in Et. injection Et as <-. rewrite El. by apply I2.
    + intros t x Et. destruct (decide (t = m)) as [->|Ht]; [|rewrite Hne in Et by done; by apply I2'].
      rewrite Em in Et. injection Et as <-. rewrite Ed', <- Ed. by apply I2'.
    + intros t x Et. destruct (decide (t = m)) as [->|Ht]; [|rewrite Hne in Et by done; by apply (I3 t)].
      rewrite Em in Et. injection Et as <-. rewrite Eo. by apply (I3 m).
    + rewrite tree_insert_dup_perm. apply NoDup_cons. split; [by intros [? _]%list_elem_of_filter|]. by apply NoDup_filter.
    + apply tree_insert_dup_sorted; [apply _|]. apply (sorted_ext (cost_key (nodes st))); [|by apply sorted_filter].
      intros t [Ht _]%list_elem_of_filter. unfold cost_key. by rewrite Hne.
    + intros t Ht. rewrite Hcd. destruct (decide (t = m)) as [->|Htm].
      * split; [done|]. by exists n', h.
      * apply Hin in Ht as [->|Ht]; [done|]. rewrite Hne by done. by apply I6.
    + intros t x Et Hd Hs Hl. destruct (decide (t = m)) as [->|Ht]; [|rewrite Hne in Et by done; by apply (I7 t)].
      rewrite Em in Et. injection Et as <-. congruence.
  - split; simpl.
    + intros t c (x & Et & Hq & Hx). destruct (decide (t = m)) as [->|Ht].
      * exists n'. split; [done|]. split; [right; apply Hin; by left|]. rewrite En in Et. injection Et as <-.
        destruct Hq as [?|Hq]; [congruence|]. specialize (Hdec Hq). lia.
      * exists x. simpl. rewrite Hne by done. split; [done|]. split; [|done]. destruct Hq; [by left|right; apply Hin; by right].
    + intros t x Et Hd _. rewrite Hne; [done|]. intros ->. congruence.
    + intros t x Et Hd _. rewrite Hne in Et; [done|]. intros ->. congruence.
    + lia.
  - exists n'. split; [done|]. split; [right; apply Hin; by left|lia].
Qed.

Lemma insert_ok top st m h k hops dist sgl last : inv top st -> (m < T)%nat -> ~ single m -> 0 <= k <= K -> k <= RFC7181_METRIC_MAX ->
  0 <= top <= count_done (nodes st) * K -> (loc m = false -> path m (top + k) h) ->
  exists st', _insert_into_working_tree m (Some h) k top hops dist sgl last st = Def st' /\
    inv top st' /\ keeps st st' /\ (loc m = false -> settled st' m (top + k)) /\
    routing_tree st' = routing_tree st /\ count_done (nodes st') = count_done (nodes st).
Proof.
  intros Hi Hm Hns Hk Hkm Ht Hp. pose proof Hi as [I1 I2 I2' I3 I4 I5 I6 I7]. unfold _insert_into_working_tree.
  destruct (Z.ltb_spec RFC7181_METRIC_MAX k) as [|_]; [lia|].
  destruct (lookup_lt_is_Some_2 (nodes st) m) as [n En]; [by rewrite I1|]. unfold get_node. rewrite En. simpl.
  destruct (local n) eqn:El; simpl.
  { exists st. split; [done|]. split; [done|]. split; [apply keeps_refl|]. split; [|done]. intros Hl. rewrite (I2 m n En) in El. apply Hlc in El. congruence. }
  destruct (done n) eqn:Edn.
  { exists st. split; [done|]. split; [done|]. split; [apply keeps_refl|]. split; [|done]. intros Hl. exists n. split; [done|].
    split; [by left|]. destruct (I7 m n En Edn Hns Hl) as (h' & _ & _ & ?). lia. }
  assert (count_done (nodes st) * K <= Z.of_nat T * K).
  { apply Z.mul_le_mono_nonneg_r; [done|]. unfold count_done. rewrite <- I1.
    pose proof (length_filter (fun n => done n = true) (nodes st)). lia. }
  rewrite u32_small by lia. assert (loc m = false) as Hl.
  { destruct (loc m) eqn:E; [|done]. rewrite (I2 m n En) in El. destruct (I2' m n En E); congruence. }
  specialize (Hp Hl).
  set (n' := {| path_cost := top + k; dj_path_hops := u8 (hops + 1); distance := dist; dj_originator := dj_originator n;
    first_hop := Some h; dj_last_originator := last; dj_single_hop := sgl; local := false; done := false |}).
  assert (forall tree, tree = filter (fun t => t <> m) (working_tree st) -> (m ∈ working_tree st -> top + k <= path_cost n) ->
    exists st', Def (set_nodes (<[m := n']> (nodes st)) (tree_insert_dup (cost_key (<[m := n']> (nodes st))) avl_comp_uint32 m tree) st) = Def st' /\
      inv top st' /\ keeps st st' /\ (loc m = false -> settled st' m (top + k)) /\
      routing_tree st' = routing_tree st /\ count_done (nodes st') = count_done (nodes st)) as Henter.
  { intros tree -> Hdec. destruct (enter_ok top st m n n' h) as (E1 & E2 & E3 & E4); simpl; try done; try congruence; [lia|].
    eexists. split; [done|]. done. }
  case_bool_decide as Hin; simpl.
  - destruct (Z.leb_spec (path_cost n) (top + k)).
    + exists st. split; [done|]. split; [done|]. split; [apply keeps_refl|]. split; [|done]. intros _. exists n. split; [done|]. split; [by right|lia].
    + apply Henter; [done|lia].
  - apply Henter; [|done]. symmetry. apply filter_all. apply Forall_forall. intros t Hin' ->. done.
Qed.

(** ** The edges of a finished node *)

Lemma single_dec m : single m \/ ~ single m.
Proof.
  unfold single. destruct (targets topo !! m) as [x|]; [|right; by intros (y & ep & ? & _)].
  destruct (object x) as [n|ep] eqn:E; [right; intros (y & ep & [= <-] & E' & _); congruence|].
  destruct (decide (ep_attached_count ep <= 1)%nat); [left; by exists x, ep|]. right. intros (y & ep' & [= <-] & E' & ?).
  rewrite E in E'. injection E' as <-. done.
Qed.

Lemma node_not_single m x n : targets topo !! m = Some x -> object x = inl n -> ~ single m.
Proof. intros E Eo (y & ep & E' & Eo' & _). congruence. Qed.

(** The target [t] was reached as [n], over the neighbor [h], at cost [top]. *)
Record current (t : nat) (x : olsrv2_tc_target) (node : olsrv2_tc_node) (n : olsrv2_dijkstra_node) (h : nat) (top : Z) : Prop := {
  cu_target : targets topo !! t = Some x;
  cu_object : object x = inl node;
  cu_hop : first_hop n = Some h;
  cu_cost : path_cost n = top;
  cu_path : path t top h;
}.

Lemma edges_loop_ok t x node n h top es st : current t x node n h top -> (forall e, e ∈ es -> e ∈ _edges node) ->
  inv top st -> top <= count_done (nodes st) * K ->
  exists st', edges_loop dom es use_non_ss node x n st = Def st' /\ inv top st' /\ keeps st st' /\
    routing_tree st' = routing_tree st /\ count_done (nodes st') = count_done (nodes st) /\
    forall e k, e ∈ es -> edge_step node e k -> loc (e_dst e) = false -> settled st' (e_dst e) (top + k).
Proof.
  intros Hc. pose proof Hc as [C1 C2 C3 C4 C5]. pose proof (path_pos _ _ _ C5) as Htop. revert st.
  induction es as [|e es IH]; intros st Hes Hi Ht; simpl.
  { exists st. split; [done|]. split; [done|]. split; [apply keeps_refl|]. split; [done|]. split; [done|]. by intros e k ?%elem_of_nil. }
  assert (e ∈ _edges node) as He by (apply Hes; by left).
  destruct (to_edge Htopo _ _ _ _ C1 C2 He) as ((y & n' & Ey & Eoy) & k & Ek & Hk). unfold at_domain. rewrite Ek. simpl.
  assert (forall st1, inv top st1 -> keeps st st1 -> routing_tree st1 = routing_tree st -> count_done (nodes st1) = count_done (nodes st) ->
    (forall k, edge_step node e k -> loc (e_dst e) = false -> settled st1 (e_dst e) (top + k)) ->
    exists st', edges_loop dom es use_non_ss node x n st1 = Def st' /\ inv top st' /\ keeps st st' /\
      routing_tree st' = routing_tree st /\ count_done (nodes st') = count_done (nodes st) /\
      forall e' k, e' ∈ e :: es -> edge_step node e' k -> loc (e_dst e') = false -> settled st' (e_dst e') (top + k)) as Hgo.
  { intros st1 H1 Hkp Hr Hcd Hs. destruct (IH st1) as (st' & E & Hi' & Hk' & Hr' & Hcd' & Hs'); [intros; apply Hes; by right|done|lia|].
    exists st'. split; [done|]. split; [done|]. split; [by eapply keeps_trans|]. split; [congruence|]. split; [congruence|].
    intros e' k' [->|He']%elem_of_cons Hst Hl; [|by apply Hs']. by apply (kp_settled _ _ Hk'), Hs. }
  destruct (negb (e_virtual e) && (k <=? RFC7181_METRIC_MAX)) eqn:Eu.
  - apply andb_true_iff in Eu as [Ev%negb_true_iff Hmax%Z.leb_le].
    destruct (negb use_non_ss && negb (source_specific node)) eqn:Ess.
    + apply Hgo; [done|apply keeps_refl|done|done|]. intros k' (_ & _ & _ & Hf). exfalso. by destruct use_non_ss, (source_specific node).
    + assert (edge_step node e k) as Hst by (repeat split; try done; by destruct use_non_ss, (source_specific node)).
      assert (step t (e_dst e) k) as Hstep by (exists x, node; split; [done|]; split; [done|]; left; by exists e).
      rewrite C3, C4.
      destruct (insert_ok top st (e_dst e) h k (dj_path_hops n) 0 false (rk_dst (prefix x))) as (st1 & E1 & H1 & K1 & S1 & R1 & D1);
        [done|by eapply lookup_lt_Some|by eapply node_not_single|split; [done|by apply HK2 with t (e_dst e)]|done|done|by intros; eapply path_step|].
      rewrite E1. simpl. apply Hgo; try done. intros k' (_ & Ek' & _). rewrite Ek in Ek'. injection Ek' as <-. done.
  - apply Hgo; [done|apply keeps_refl|done|done|]. intros k' (Ev & Ek' & Hmax & _). exfalso. rewrite Ek in Ek'. injection Ek' as <-.
    rewrite Ev in Eu. simpl in Eu. apply Z.leb_gt in Eu. lia.
Qed.

(** ** The attached networks of a finished node *)

(** The destinations for which the run writes routes: a run for
    source-specific destinations only writes those of single endpoints. *)
Definition written (m : nat) : Prop := use_non_ss = true \/ single m.

Definition sound (o : route_offer) : Prop := exists m target,
  path m (pathcost o) (o_first_hop o) /\ written m /\ targets topo !! m = Some target /\ dst_prefix o = prefix target.

(** Some offer for the target [m] at cost [c]. *)
Definition offered (os : list route_offer) (m : nat) (c : Z) : Prop := exists o target,
  o ∈ os /\ targets topo !! m = Some target /\ dst_prefix o = prefix target /\ pathcost o = c.

Lemma route_of_ok rt0 os st m target orig h dist c hops sgl last : prepared rt0 -> routes_follow env db dom rt0 os (routing_tree st) ->
  path m c h -> written m -> targets topo !! m = Some target ->
  exists rt o, route_of env db dom (prefix target) orig (Some h) dist c hops sgl last st =
      Def {| nodes := nodes st; working_tree := working_tree st; routing_tree := rt |} /\
    routes_follow env db dom rt0 (os ++ [o]) rt /\ sound o /\ dst_prefix o = prefix target /\ pathcost o = c.
Proof.
  intros Hp Hf Hpath Hw Et. unfold route_of. set (o := {| dst_prefix := _ |}).
  assert (offer_ok env db dom o) as Hok by (by apply (Hoffer o m target)).
  destruct (update_follow env db dom rt0 os (routing_tree st) o Hp Hf Hok) as (rt & -> & Hf'). exists rt, o. split; [done|].
  split; [done|]. split; [by exists m, target|done].
Qed.

Lemma count_done_alter ns m : count_done ns <= count_done (alter set_done m ns).
Proof.
  unfold count_done. apply inj_le. revert m. induction ns as [|n ns IH]; intros [|m]; simpl; try done; rewrite !filter_cons.
  - repeat case_decide; simpl; first [lia|congruence].
  - case_decide; simpl; [apply le_n_S|]; exact (IH m).
Qed.

Lemma cost_key_done (ns : list olsrv2_dijkstra_node) m t : cost_key (alter set_done m ns) t = cost_key ns t.
Proof.
  unfold cost_key. destruct (decide (t = m)) as [->|]; [|by rewrite list_lookup_alter_ne].
  rewrite list_lookup_alter_eq. by destruct (ns !! m).
Qed.

Lemma lookup_done (ns : list olsrv2_dijkstra_node) m (t : nat) n : alter set_done m ns !! t = Some n ->
  exists n0, ns !! t = Some n0 /\ (n = n0 /\ t <> m \/ n = set_done n0 /\ t = m).
Proof.
  destruct (decide (t = m)) as [->|Ht].
  - rewrite list_lookup_alter_eq. destruct (ns !! m) as [n0|]; [|done]. intros [= <-]. exists n0. split; [done|]. by right.
  - rewrite list_lookup_alter_ne by done. intros ->. exists n. split; [done|]. by left.
Qed.

Lemma settled_done st m tree : (forall t, t ∈ working_tree st -> t = m \/ t ∈ tree) -> forall t c,
  settled st t c -> settled (set_nodes (alter set_done m (nodes st)) tree st) t c.
Proof.
  intros Htree t c (n & E & Hq & Hc). destruct (decide (t = m)) as [->|Ht].
  - exists (set_done n). simpl. rewrite list_lookup_alter_eq, E. split; [done|]. split; [by left|done].
  - exists n. simpl. rewrite list_lookup_alter_ne by done. split; [done|]. split; [|done].
    destruct Hq as [?|Hq]; [by left|]. right. by destruct (Htree t Hq).
Qed.

(** A single endpoint is only marked. *)
Lemma mark_single_ok top st m : inv top st -> single m ->
  inv top (set_nodes (alter set_done m (nodes st)) (working_tree st) st) /\
  keeps st (set_nodes (alter set_done m (nodes st)) (working_tree st) st).
Proof.
  intros [I1 I2 I2' I3 I4 I5 I6 I7] Hm. assert (forall t, ~ single t -> t <> m) as Hne by congruence. split; split; simpl; try done.
  - by rewrite length_alter.
  - intros t n (n0 & E & [[-> _]|[-> _]])%lookup_done; simpl; by apply (I2 t).
  - intros t n (n0 & E & [[-> _]|[-> _]])%lookup_done Hl; simpl; [by apply (I2' t)|by right].
  - intros t n (n0 & E & [[-> _]|[-> _]])%lookup_done; simpl; by apply (I3 t).
  - eapply sorted_ext; [|exact I5]. intros t _. by rewrite cost_key_done.
  - intros t Ht. destruct (I6 t Ht) as (Hns & n & h & E & Hd & Eh & Hp & Hc). split; [done|]. exists n, h.
    rewrite list_lookup_alter_ne by (symmetry; by apply Hne). split_and!; try done; [lia|].
    pose proof (count_done_alter (nodes st) m). assert (count_done (nodes st) * K <= count_done (alter set_done m (nodes st)) * K)
      by (by apply Z.mul_le_mono_nonneg_r). lia.
  - intros t n (n0 & E & [[-> _]|[_ ->]])%lookup_done Hd Hns Hl; [by apply (I7 t)|done].
  - intros t c. by apply settled_done; right.
  - intros t n E _ Hns. rewrite list_lookup_alter_ne; [done|]. symmetry. by apply Hne.
  - intros t n' (n0 & E & [[-> _]|[_ ->]])%lookup_done _ Hns; done.
  - apply count_done_alter.
Qed.

Context (rt0 : list olsrv2_routing_entry) (Hrt0 : prepared rt0) (pre : list route_offer).

(** The routes follow from those of earlier runs and from sound offers. *)
Definition routes_ok (os : list route_offer) (st : run_state) : Prop :=
  routes_follow env db dom rt0 (pre ++ os) (routing_tree st) /\ Forall sound os.

Lemma routes_ok_same os st st' : routes_ok os st -> routing_tree st' = routing_tree st -> routes_ok os st'.
Proof. intros [H1 H2] E. split; [by rewrite E|done]. Qed.

(** What has become of a target [m] that a finished node reaches at [c]. *)
Definition served (os : list route_offer) (st : run_state) (m : nat) (c : Z) : Prop :=
  (single m -> offered os m c) /\ (~ single m -> settled st m c).

Lemma offered_app os os' m c : offered os m c -> offered (os ++ os') m c.
Proof. intros (o & x & Ho & H). exists o, x. split; [|done]. apply elem_of_app. by left. Qed.

Lemma served_keeps os os' st st' m c : keeps st st' -> served os st m c -> served (os ++ os') st' m c.
Proof. intros Hk [H1 H2]. split; [intros Hm; by apply offered_app, H1|intros Hm; by apply (kp_settled _ _ Hk), H2]. Qed.

(** One attachment: queued, or served at once. *)
Definition attach_one (a : olsrv2_tc_attachment) (target end_target : olsrv2_tc_target) (ep : olsrv2_tc_endpoint)
    (n : olsrv2_dijkstra_node) (cost dist : Z) (st : run_state) : outcome run_state :=
  if (1 <? ep_attached_count ep)%nat then
    _insert_into_working_tree (at_dst a) (first_hop n) cost (path_cost n) (dj_path_hops n) dist false (rk_dst (prefix target)) st
  else
    _ ← get_node (at_dst a) (nodes st);
    route_of env db dom (prefix end_target) (rk_dst (prefix target)) (first_hop n) dist (u32 (path_cost n + cost))
      (u8 (dj_path_hops n + 1)) false (rk_dst (prefix target))
      (set_nodes (alter set_done (at_dst a) (nodes st)) (working_tree st) st).

Lemma attach_one_ok t x node n h top a y ep k dist os st : current t x node n h top -> a ∈ _attached_networks node ->
  targets topo !! at_dst a = Some y -> object y = inr ep -> attach_step a k -> inv top st ->
  top <= count_done (nodes st) * K -> routes_ok os st ->
  exists st' os', attach_one a x y ep n k dist st = Def st' /\ inv top st' /\ keeps st st' /\ routes_ok (os ++ os') st' /\
    (loc (at_dst a) = false -> served (os ++ os') st' (at_dst a) (top + k)).
Proof.
  intros [C1 C2 C3 C4 C5] Ha Ey Eo Hat Hi Ht Hr. pose proof (path_pos _ _ _ C5) as Htop.
  assert (step t (at_dst a) k) as Hstep by (exists x, node; split; [done|]; split; [done|]; right; by exists a).
  pose proof (step_pos _ _ _ Hstep) as Hk. pose proof (HK2 _ _ _ Hstep) as HkK.
  assert (loc (at_dst a) = false -> path (at_dst a) (top + k) h) as Hp by (intros; by eapply path_step).
  unfold attach_one. rewrite C3, C4. destruct (Nat.ltb_spec 1 (ep_attached_count ep)) as [Hmany|Hone].
  - assert (~ single (at_dst a)) as Hns.
    { intros (y' & ep' & Ey' & Eo' & Hle). rewrite Ey in Ey'. injection Ey' as <-. rewrite Eo in Eo'. injection Eo' as <-. lia. }
    pose proof Hat as (z & _ & Hmax & _).
    destruct (insert_ok top st (at_dst a) h k (dj_path_hops n) dist false (rk_dst (prefix x))) as (st1 & E1 & H1 & K1 & S1 & R1 & D1);
      [done|by eapply lookup_lt_Some|done|lia|done|lia|done|].
    exists st1, []. rewrite app_nil_r. split; [done|]. split; [done|]. split; [done|]. split; [by eapply routes_ok_same|].
    intros Hl. split; [done|]. intros _. by apply S1.
  - assert (single (at_dst a)) as Hs by (by exists y, ep). specialize (Hp (Hend _ Hs)).
    destruct (lookup_lt_is_Some_2 (nodes st) (at_dst a)) as [m Em].
    { rewrite (iv_length _ _ Hi). by eapply lookup_lt_Some. }
    unfold get_node. rewrite Em. simpl. destruct (mark_single_ok top st (at_dst a) Hi Hs) as [H1 K1].
    assert (count_done (nodes st) * K <= Z.of_nat T * K).
    { apply Z.mul_le_mono_nonneg_r; [done|]. unfold count_done. rewrite <- (iv_length _ _ Hi).
      pose proof (length_filter (fun n => done n = true) (nodes st)). lia. }
    rewrite u32_small by lia. destruct Hr as [Hf Hsnd].
    destruct (route_of_ok rt0 (pre ++ os) (set_nodes (alter set_done (at_dst a) (nodes st)) (working_tree st) st) (at_dst a) y
      (rk_dst (prefix x)) h dist (top + k) (u8 (dj_path_hops n + 1)) false (rk_dst (prefix x)) Hrt0 Hf Hp (or_intror Hs) Ey) as (rt & o & E & Hf' & Hso & Ho1 & Ho2).
    rewrite <- app_assoc in Hf'. eexists _, [o]. split; [exact E|]. split; [destruct H1; by split|]. split; [destruct K1; by split|].
    split; [split; [done|]; apply Forall_app; split; [done|by constructor]|]. intros _. split; [|done]. intros _. exists o, y.
    split; [apply elem_of_app; right; by left|done].
Qed.

Lemma attached_loop_ok t x node n h top ats os st : current t x node n h top -> (forall a, a ∈ ats -> a ∈ _attached_networks node) ->
  inv top st -> top <= count_done (nodes st) * K -> routes_ok os st ->
  exists st' os', attached_loop env db topo dom ats use_non_ss use_ss x n st = Def st' /\ inv top st' /\ keeps st st' /\
    routes_ok (os ++ os') st' /\ forall a k, a ∈ ats -> attach_step a k -> loc (at_dst a) = false -> served (os ++ os') st' (at_dst a) (top + k).
Proof.
  intros Hc. pose proof Hc as [C1 C2 C3 C4 C5]. revert os st. induction ats as [|a ats IH]; intros os st Hats Hi Ht Hr; simpl.
  { exists st, []. rewrite app_nil_r. split; [done|]. split; [done|]. split; [apply keeps_refl|]. split; [done|]. by intros a k ?%elem_of_nil. }
  assert (a ∈ _attached_networks node) as Ha by (apply Hats; by left).
  destruct (to_attached Htopo _ _ _ _ C1 C2 Ha) as ((y & ep & Ey & Eo) & (k & Ek & Hk) & dist & Ed). unfold at_domain. rewrite Ek. simpl.
  assert (forall st1 os1, inv top st1 -> keeps st st1 -> routes_ok (os ++ os1) st1 ->
    (forall k, attach_step a k -> loc (at_dst a) = false -> served (os ++ os1) st1 (at_dst a) (top + k)) ->
    exists st' os', attached_loop env db topo dom ats use_non_ss use_ss x n st1 = Def st' /\ inv top st' /\ keeps st st' /\
      routes_ok (os ++ os') st' /\ forall a' k, a' ∈ a :: ats -> attach_step a' k -> loc (at_dst a') = false -> served (os ++ os') st' (at_dst a') (top + k)) as Hgo.
  { intros st1 os1 H1 Hkp Hr1 Hs1. pose proof (kp_count _ _ Hkp).
    assert (count_done (nodes st) * K <= count_done (nodes st1) * K) by (by apply Z.mul_le_mono_nonneg_r).
    destruct (IH (os ++ os1) st1) as (st' & os' & E & Hi' & Hk' & Hr' & Hs'); [intros; apply Hats; by right|done|lia|done|].
    exists st', (os1 ++ os'). rewrite app_assoc. split; [done|]. split; [done|]. split; [by eapply keeps_trans|]. split; [done|].
    intros a' k' [->|Ha']%elem_of_cons Hst Hl; [|by apply Hs']. eapply served_keeps; [done|by apply Hs1]. }
  destruct (Z.leb_spec k RFC7181_METRIC_MAX) as [Hmax|Hmax].
  2: { apply (Hgo st []); [done|apply keeps_refl|by rewrite app_nil_r|]. intros k' (z & Ek' & Hmax' & _). rewrite Ek in Ek'.
       injection Ek' as <-. lia. }
  unfold get_target at 1. rewrite Ey. simpl. unfold tc_endpoint_of. rewrite Eo. simpl.
  destruct (if 0 <? na_prefix_len (rk_src (prefix y)) then use_ss else use_non_ss) eqn:Ess; simpl.
  2: { apply (Hgo st []); [done|apply keeps_refl|by rewrite app_nil_r|]. intros k' (z & _ & _ & Ez & Hf). rewrite Ey in Ez.
       injection Ez as <-. congruence. }
  rewrite Ed. simpl.
  assert (attach_step a k) as Hat by (by exists y).
  destruct (attach_one_ok t x node n h top a y ep k dist os st Hc Ha Ey Eo Hat Hi Ht Hr) as (st1 & os1 & E1 & H1 & K1 & R1 & S1).
  assert (forall k', attach_step a k' -> loc (at_dst a) = false -> served (os ++ os1) st1 (at_dst a) (top + k')) as S1'.
  { intros k' (z & Ek' & _). rewrite Ek in Ek'. injection Ek' as <-. done. }
  unfold attach_one in E1. destruct (1 <? ep_attached_count ep)%nat.
  - rewrite E1. simpl. by apply (Hgo st1 os1).
  - destruct (get_node (at_dst a) (nodes st)); [|done]. simpl in E1 |- *. rewrite E1. simpl. by apply (Hgo st1 os1).
Qed.

(** ** One round of the queue *)

Record run_ok (top : Z) (os : list route_offer) (st : run_state) : Prop := {
  ro_inv : inv top st;
  ro_top : 0 <= top <= count_done (nodes st) * K;
  ro_routes : routes_ok os st;
  ro_closed t n : nodes st !! t = Some n -> done n = true -> ~ single t -> loc t = false -> forall m k, step t m k -> loc m = false ->
    served os st m (path_cost n + k);
  ro_offered t n : use_non_ss = true -> nodes st !! t = Some n -> done n = true -> ~ single t -> loc t = false -> offered os t (path_cost n);
  ro_sources t h k : one_hop t h k -> loc t = false -> settled st t k;
}.

Lemma count_done_pop (ns : list olsrv2_dijkstra_node) t n : ns !! t = Some n -> done n = false ->
  count_done (alter set_done t ns) = count_done ns + 1.
Proof.
  unfold count_done. revert t. induction ns as [|x ns IH]; intros [|t] E Hd; simpl in E; try done.
  - injection E as ->. simpl. rewrite !filter_cons, Hd. repeat case_decide; simpl; first [lia|congruence].
  - simpl. rewrite !filter_cons. specialize (IH t E Hd). case_decide; simpl; [|exact IH]. unfold alter in IH. lia.
Qed.

(** The first target of the tree, finished. *)
Lemma pop_ok top st t W n : inv top st -> working_tree st = t :: W -> nodes st !! t = Some n ->
  0 <= top <= count_done (nodes st) * K ->
  let st1 := set_nodes (alter set_done t (nodes st)) W st in
  inv (path_cost n) st1 /\ (forall m c, settled st m c -> settled st1 m c) /\ nodes st1 !! t = Some (set_done n) /\
  top <= path_cost n <= count_done (nodes st1) * K /\ count_done (nodes st1) = count_done (nodes st) + 1.
Proof.
  intros [I1 I2 I2' I3 I4 I5 I6 I7] EW En Ht st1. rewrite EW in I4, I5, I6.
  destruct (I6 t) as (Hns & n0 & h & E0 & Hd & Eh & Hp & Hc); [by left|]. rewrite En in E0. injection E0 as <-.
  pose proof (count_done_pop (nodes st) t n En Hd) as Hcd. apply NoDup_cons in I4 as [Htw I4].
  apply StronglySorted_inv in I5 as [I5 Hle]. rewrite Forall_forall in Hle.
  assert (nodes st1 !! t = Some (set_done n)) as Et by (simpl; by rewrite list_lookup_alter_eq, En).
  split; [|split; [|split; [done|split; [simpl; lia|done]]]].
  - split; simpl; try done.
    + by rewrite length_alter.
    + intros t' n' (n0 & E & [[-> _]|[-> _]])%lookup_done; simpl; by apply (I2 t').
    + intros t' n' (n0 & E & [[-> _]|[-> _]])%lookup_done Hl; simpl; [by apply (I2' t')|by right].
    + intros t' n' (n0 & E & [[-> _]|[-> _]])%lookup_done; simpl; by apply (I3 t').
    + eapply sorted_ext; [|exact I5]. intros t' _. by rewrite cost_key_done.
    + intros t' Ht'. destruct (I6 t') as (Hns' & n' & h' & E' & Hd' & Eh' & Hp' & Hc'); [by right|]. split; [done|]. exists n', h'.
      rewrite list_lookup_alter_ne by (intros ->; done). split_and!; try done; [|lia].
      specialize (Hle t' Ht'). unfold key_le, avl_comp_uint32, cost_key in Hle. rewrite En, E' in Hle.
      destruct (Z.ltb_spec (path_cost n') (path_cost n)); lia.
    + intros t' n' (n0 & E & [[-> Hne]|[-> ->]])%lookup_done Hd' Hns' Hl'.
      * destruct (I7 t' n0 E Hd' Hns' Hl') as (h' & ? & ? & ?). exists h'. split_and!; try done. lia.
      * rewrite En in E. injection E as <-. exists h. simpl. split_and!; try done.
  - apply settled_done. intros t'. rewrite EW, elem_of_cons. done.
Qed.

Lemma served_mono os os' st st' m c : (forall m c, settled st m c -> settled st' m c) -> served os st m c -> served (os ++ os') st' m c.
Proof. intros Hs [H1 H2]. split; [intros Hm; by apply offered_app, H1|intros Hm; by apply Hs, H2]. Qed.

(** The edges and attachments of a popped target. *)
Lemma spread_ok t x n h top os st : targets topo !! t = Some x -> first_hop n = Some h -> path_cost n = top -> path t top h ->
  inv top st -> top <= count_done (nodes st) * K -> routes_ok os st ->
  exists st' os', (if bool_decide (type x = OLSRV2_NODE_TARGET) then
      tc_node ← tc_node_of x;
      st ← edges_loop dom (_edges tc_node) use_non_ss tc_node x n st;
      attached_loop env db topo dom (_attached_networks tc_node) use_non_ss use_ss x n st
    else Def st) = Def st' /\ inv top st' /\ keeps st st' /\ routes_ok (os ++ os') st' /\
    forall m k, step t m k -> loc m = false -> served (os ++ os') st' m (top + k).
Proof.
  intros Ex Eh Ec Hp Hi Ht Hr. pose proof (to_type Htopo t x Ex) as Hty. case_bool_decide as Hn.
  - apply Hty in Hn as [node Eo]. unfold tc_node_of. rewrite Eo. simpl.
    assert (current t x node n h top) as Hc by by split.
    destruct (edges_loop_ok t x node n h top (_edges node) st Hc) as (st1 & E1 & H1 & K1 & R1 & D1 & S1); [done|done|done|].
    rewrite E1. simpl.
    destruct (attached_loop_ok t x node n h top (_attached_networks node) os st1 Hc) as (st2 & os2 & E2 & H2 & K2 & R2 & S2);
      [done|done|lia|by eapply routes_ok_same|].
    exists st2, os2. split; [exact E2|]. split; [done|]. split; [by eapply keeps_trans|]. split; [done|].
    intros m k (x' & node' & Ex' & Eo' & [(e & He & Hst & ->)|(a & Ha & Hat & ->)]) Hl;
      rewrite Ex in Ex'; injection Ex' as <-; rewrite Eo in Eo'; injection Eo' as <-.
    + destruct (to_edge Htopo _ _ _ _ Ex Eo He) as ((y & n' & Ey & Eoy) & _).
      split; [intros Hs; by destruct (node_not_single _ _ _ Ey Eoy)|]. intros _. apply (kp_settled _ _ K2). by apply S1.
    + by apply S2.
  - exists st, []. rewrite app_nil_r. split; [done|]. split; [done|]. split; [apply keeps_refl|]. split; [done|].
    intros m k (x' & node' & Ex' & Eo' & _). exfalso. rewrite Ex in Ex'. injection Ex' as <-. apply Hn, Hty. by exists node'.
Qed.

Lemma handle_ok top os st t W : run_ok top os st -> working_tree st = t :: W ->
  exists st' top' os', _handle_working_queue env db topo dom use_non_ss use_ss st = Def st' /\ run_ok top' os' st' /\
    count_done (nodes st) < count_done (nodes st').
Proof.
  intros [Ri Rt Rr Rc Ro Rs] EW. unfold _handle_working_queue. rewrite EW.
  destruct (iv_tree _ _ Ri t) as (Hns & n & h & En & Hd & Eh & Hp & Hc); [rewrite EW; by left|].
  destruct (lookup_lt_is_Some_2 (targets topo) t) as [x Ex]. { rewrite <- (iv_length _ _ Ri). by eapply lookup_lt_Some. }
  assert (get_target topo t = Def x) as -> by (unfold get_target; by rewrite Ex).
  assert (get_node t (nodes st) = Def n) as -> by (unfold get_node; by rewrite En). simpl.
  destruct (pop_ok top st t W n Ri EW En Rt) as (I1 & S1 & Et & B1 & C1). set (st1 := set_nodes _ W st) in *. rewrite Eh.
  assert (exists st2 os2, (if use_non_ss then orig ← get_target topo (dj_originator n);
      route_of env db dom (prefix x) (rk_dst (prefix orig)) (Some h) (distance n) (path_cost n) (dj_path_hops n)
        (dj_single_hop n) (dj_last_originator n) st1 else Def st1) = Def st2 /\
    nodes st2 = nodes st1 /\ working_tree st2 = working_tree st1 /\ routes_ok (os ++ os2) st2 /\
    (use_non_ss = true -> offered (os ++ os2) t (path_cost n))) as (st2 & os2 & E2 & N2 & W2 & R2 & O2).
  { destruct (Bool.bool_dec use_non_ss true) as [Hu|Hu]; [rewrite Hu|].
    2: { exists st1, []. rewrite app_nil_r, (not_true_is_false _ Hu). done. }
    unfold get_target.
    destruct (lookup_lt_is_Some_2 (targets topo) (dj_originator n)) as [orig Eorig]; [by eapply (iv_orig _ _ Ri)|]. rewrite Eorig. simpl.
    destruct Rr as [Hf Hsnd].
    destruct (route_of_ok rt0 (pre ++ os) st1 t x (rk_dst (prefix orig)) h (distance n) (path_cost n) (dj_path_hops n) (dj_single_hop n)
      (dj_last_originator n) Hrt0 Hf Hp (or_introl Hu) Ex) as (rt & o & E & Hf' & Hso & Ho1 & Ho2).
    rewrite <- app_assoc in Hf'. eexists _, [o]. split; [exact E|]. split; [done|]. split; [done|].
    split; [split; [done|]; apply Forall_app; split; [done|by constructor]|]. intros _. exists o, x.
    split; [apply elem_of_app; right; by left|done]. }
  rewrite E2. simpl.
  assert (inv (path_cost n) st2) as I2. { destruct I1. by split; rewrite ?N2, ?W2. }
  destruct (spread_ok t x n h (path_cost n) (os ++ os2) st2 Ex Eh eq_refl Hp I2) as (st3 & os3 & E3 & I3 & K3 & R3 & S3);
    [rewrite N2; lia|done|].
  assert (forall m c, settled st m c -> settled st3 m c) as S13.
  { intros m c Hm. apply (kp_settled _ _ K3). apply S1 in Hm as (z & Ez & Hq & Hz). exists z. by rewrite N2, W2. }
  pose proof (kp_count _ _ K3) as Hcd. rewrite N2, C1 in Hcd.
  exists st3, (path_cost n), ((os ++ os2) ++ os3). split; [exact E3|]. split; [|lia].
  assert (forall t' n', nodes st3 !! t' = Some n' -> done n' = true -> ~ single t' ->
    nodes st !! t' = Some n' \/ t' = t /\ path_cost n' = path_cost n) as Hdone.
  { intros t' n' E' Hd' Hs'. apply (kp_new _ _ K3 _ _ E' Hd') in Hs'. rewrite N2 in Hs'.
    apply lookup_done in Hs' as (n0 & E0 & [[-> _]|[-> ->]]); [by left|]. right. rewrite En in E0. injection E0 as <-. done. }
  split; try done.
  - pose proof (path_pos _ _ _ Hp). split; [done|]. assert ((count_done (nodes st) + 1) * K <= count_done (nodes st3) * K)
      by (apply Z.mul_le_mono_nonneg_r; lia). lia.
  - intros t' n' E' Hd' Hs' Hl' m k Hst Hl. destruct (Hdone t' n' E' Hd' Hs') as [E0|[-> ->]]; [|by apply S3].
    rewrite <- app_assoc. eapply served_mono; [exact S13|]. by eapply Rc.
  - intros t' n' Hu E' Hd' Hs' Hl'. destruct (Hdone t' n' E' Hd' Hs') as [E0|[-> ->]]; [|by apply offered_app, O2].
    rewrite <- app_assoc. apply offered_app. by apply Ro.
  - intros t' h' k Ho Hl. by apply S13, (Rs t' h').
Qed.

(** The queue runs empty. *)
Lemma queue_loop_ok fuel top os st : run_ok top os st -> Z.of_nat T - count_done (nodes st) <= Z.of_nat fuel ->
  exists st' top' os', queue_loop env db topo dom fuel use_non_ss use_ss st = Def st' /\ run_ok top' os' st' /\ working_tree st' = [].
Proof.
  revert top os st. induction fuel as [|fuel IH]; intros top os st Hr Hf; simpl; destruct (working_tree st) as [|t W] eqn:EW;
    try (by exists st, top, os).
  - exfalso. destruct (handle_ok top os st t W Hr EW) as (st' & top' & os' & _ & Hr' & Hlt).
    assert (count_done (nodes st') <= Z.of_nat T); [|lia].
    unfold count_done. rewrite <- (iv_length _ _ (ro_inv _ _ _ Hr')). pose proof (length_filter (fun n => done n = true) (nodes st')). lia.
  - destruct (handle_ok top os st t W Hr EW) as (st' & top' & os' & -> & Hr' & Hlt). simpl. apply (IH top' os'); [done|lia].
Qed.

(** Every path is matched when the queue is empty. *)
Lemma paths_matched top os st t c h : run_ok top os st -> working_tree st = [] -> path t c h ->
  (~ single t -> exists n, nodes st !! t = Some n /\ done n = true /\ path_cost n <= c) /\
  (single t -> exists c', offered os t c' /\ c' <= c).
Proof.
  intros Hr EW Hp. induction Hp as [t h k Ho Hl|t c h m k Hp IH Hs Hl].
  - split; [|intros H; by destruct (one_hop_node _ _ _ Ho)]. intros _.
    destruct (ro_sources _ _ _ Hr _ _ _ Ho Hl) as (n & En & [Hd|Hq] & Hc); [by exists n|]. rewrite EW in Hq. by apply elem_of_nil in Hq.
  - destruct IH as [IH _]. destruct IH as (n & En & Hd & Hc).
    { pose proof Hs as (x & node & Ex & Eo & _). by eapply node_not_single. }
    assert (~ single t) as Hns by (pose proof Hs as (x & node & Ex & Eo & _); by eapply node_not_single).
    destruct (ro_closed _ _ _ Hr t n En Hd Hns (path_not_local _ _ _ Hp) m k Hs Hl) as [H1 H2]. split.
    + intros Hm. destruct (H2 Hm) as (nm & Em & [Hdm|Hq] & Hcm); [exists nm; split_and!; try done; lia|].
      rewrite EW in Hq. by apply elem_of_nil in Hq.
    + intros Hm. exists (path_cost n + k). split; [by apply H1|lia].
Qed.

(** ** The sources of the run *)

Lemma one_hop_tree h neigh t : _neigh_list db !! h = Some neigh -> olsrv2_tc_node_get topo (originator neigh) = Some t ->
  exists x n, targets topo !! t = Some x /\ object x = inl n.
Proof. intros _ [Ht _]%tree_find_sound. by apply (to_tree Htopo). Qed.

(** The neighbor [h] is no usable source, or is entered. *)
Lemma add_one_hop_ok hs st : inv 0 st -> Forall (fun h => (h < length (_neigh_list db))%nat) hs ->
  exists st', _add_one_hop_nodes env db topo dom hs af_family use_non_ss use_ss st = Def st' /\ inv 0 st' /\ keeps st st' /\
    routing_tree st' = routing_tree st /\ forall t h k, h ∈ hs -> one_hop t h k -> loc t = false -> settled st' t k.
Proof.
  revert st. induction hs as [|h hs IH]; intros st Hi Hhs; simpl.
  { exists st. split; [done|]. split; [done|]. split; [apply keeps_refl|]. split; [done|]. by intros t h k ?%elem_of_nil. }
  apply Forall_cons in Hhs as [Hh Hhs].
  assert (forall st1, inv 0 st1 -> keeps st st1 -> routing_tree st1 = routing_tree st ->
    (forall t k, one_hop t h k -> loc t = false -> settled st1 t k) ->
    exists st', _add_one_hop_nodes env db topo dom hs af_family use_non_ss use_ss st1 = Def st' /\ inv 0 st' /\ keeps st st' /\
      routing_tree st' = routing_tree st /\ forall t h' k, h' ∈ h :: hs -> one_hop t h' k -> loc t = false -> settled st' t k) as Hgo.
  { intros st1 H1 K1 R1 S1. destruct (IH st1 H1 Hhs) as (st' & E & Hi' & Hk' & Hr' & Hs'). exists st'. split; [done|]. split; [done|].
    split; [by eapply keeps_trans|]. split; [congruence|]. intros t h' k [->|Hin]%elem_of_cons Ho Hl; [|by eapply Hs'].
    by apply (kp_settled _ _ Hk'), S1. }
  destruct (get_neigh_ok db h Hh) as (neigh & En & ->). simpl.
  assert ((forall t k, one_hop t h k -> False) -> forall t k, one_hop t h k -> loc t = false -> settled st t k) as Hno
    by (intros Hf t k Ho; by apply Hf in Ho).
  destruct (Z.eqb_spec (na_type (originator neigh)) af_family) as [Eaf|Eaf]; simpl.
  2: { apply Hgo; [done|apply keeps_refl|done|]. apply Hno. intros t k (? & ? & ? & ? & En' & Eaf' & _). congruence. }
  destruct (Z.eqb_spec (symmetric neigh) 0) as [Esy|Esy].
  { apply Hgo; [done|apply keeps_refl|done|]. apply Hno. intros t k (? & ? & ? & ? & En' & _ & Esy' & _). congruence. }
  destruct (olsrv2_tc_node_get topo (originator neigh)) as [t|] eqn:Et.
  2: { apply Hgo; [done|apply keeps_refl|done|]. apply Hno. intros t k (? & ? & ? & ? & En' & _ & _ & Et' & _). congruence. }
  destruct (one_hop_tree h neigh t En Et) as (x & node & Ex & Eo). unfold get_target. rewrite Ex. simpl.
  unfold tc_node_of. rewrite Eo. simpl.
  destruct (neighbordata_ok dom Hdom db neigh (db_neighs _ Hdb _ _ En)) as (d & Ed & [Hmi Hmo]).
  assert (forall t' k, one_hop t' h k -> t' = t /\ k = m_out (nd_metric d) /\ m_in (nd_metric d) <= RFC7181_METRIC_MAX /\
    k <= RFC7181_METRIC_MAX /\ use_non_ss || (source_specific node && use_ss) = true) as Hone.
  { intros t' k (neigh' & x' & node' & d' & En' & _ & _ & Et' & Ex' & Eo' & Hu & Ed' & H1 & H2 & H3).
    rewrite En in En'. injection En' as <-. rewrite Et in Et'. injection Et' as <-. rewrite Ex in Ex'. injection Ex' as <-.
    rewrite Eo in Eo'. injection Eo' as <-. rewrite Ed in Ed'. injection Ed' as <-. done. }
  destruct (negb use_non_ss && negb (source_specific node && use_ss)) eqn:Ess.
  { apply Hgo; [done|apply keeps_refl|done|]. apply Hno. intros t' k Ho. apply Hone in Ho as (_ & _ & _ & _ & Hu).
    by destruct use_non_ss, (source_specific node && use_ss). }
  rewrite Ed. simpl.
  destruct (Z.ltb_spec RFC7181_METRIC_MAX (m_in (nd_metric d))) as [H1|H1]; simpl.
  { apply Hgo; [done|apply keeps_refl|done|]. apply Hno. intros t' k Ho. apply Hone in Ho as (_ & -> & ? & ? & _). lia. }
  destruct (Z.ltb_spec RFC7181_METRIC_MAX (m_out (nd_metric d))) as [H2|H2].
  { apply Hgo; [done|apply keeps_refl|done|]. apply Hno. intros t' k Ho. apply Hone in Ho as (_ & -> & ? & ? & _). lia. }
  destruct Haf as [last Elast]. rewrite Elast.
  assert (one_hop t h (m_out (nd_metric d))) as Ho.
  { exists neigh, x, node, d. split_and!; try done. by destruct use_non_ss, (source_specific node && use_ss). }
  pose proof (HK1 _ _ _ Ho).
  destruct (insert_ok 0 st t h (m_out (nd_metric d)) 0 0 true last) as (st1 & E1 & I1 & K1 & S1 & R1 & _);
    [done|by eapply lookup_lt_Some|by eapply one_hop_node|lia|lia| | |].
  - unfold count_done. split; [done|]. apply Z.mul_nonneg_nonneg; [lia|done].
  - intros Hl. rewrite Z.add_0_l. by apply path_hop.
  - rewrite E1. simpl. apply Hgo; try done. intros t' k Ho' Hl. apply Hone in Ho' as (-> & -> & _). by apply S1.
Qed.

(** ** The whole run *)

(** Nothing is queued, and nothing is finished that may be entered. *)
Record fresh (st : run_state) : Prop := {
  fr_length : length (nodes st) = T;
  fr_node t n : nodes st !! t = Some n -> local n = lc t /\ (dj_originator n < T)%nat /\
    (if loc t then lc t = true \/ done n = true else done n = true -> single t);
  fr_tree : working_tree st = [];
  fr_routes : routes_follow env db dom rt0 pre (routing_tree st);
}.

Lemma run_dijkstra_ok st : fresh st ->
  exists st' top os, _run_dijkstra env db topo dom af_family use_non_ss use_ss st = Def st' /\ run_ok top os st' /\ working_tree st' = [].
Proof.
  intros [F1 F2 F3 F4]. unfold _run_dijkstra.
  assert (inv 0 st) as Hi.
  { split; rewrite ?F3; try done.
    - intros t n E. by destruct (F2 t n E) as (-> & _).
    - intros t n E Hl. destruct (F2 t n E) as (_ & _ & HI). by rewrite Hl in HI.
    - intros t n E. by destruct (F2 t n E) as (_ & ? & _).
    - by apply NoDup_nil.
    - constructor.
    - by intros t ?%elem_of_nil.
    - intros t n E Hd Hs Hl. destruct (F2 t n E) as (_ & _ & HI). rewrite Hl in HI. destruct Hs. by apply HI. }
  destruct (add_one_hop_ok (seq 0 (length (_neigh_list db))) st Hi) as (st1 & -> & I1 & K1 & R1 & S1).
  { apply Forall_forall. intros h [_ ?]%elem_of_seq. lia. }
  simpl. apply (queue_loop_ok _ 0 [] st1).
  - assert (forall t n, nodes st1 !! t = Some n -> done n = true -> ~ single t -> loc t = false -> False) as Hno.
    { intros t n E Hd Hs Hl. pose proof (kp_new _ _ K1 _ _ E Hd Hs) as E0. destruct (F2 t n E0) as (_ & _ & HI).
      rewrite Hl in HI. destruct Hs. by apply HI. }
    split.
    + done.
    + unfold count_done. split; [done|]. apply Z.mul_nonneg_nonneg; [lia|done].
    + split; [|by apply Forall_nil]. by rewrite R1, app_nil_r.
    + intros t n E Hd Hs Hl. by destruct (Hno t n E Hd Hs Hl).
    + intros t n _ E Hd Hs Hl. by destruct (Hno t n E Hd Hs Hl).
    + intros t h k Ho Hl. apply (S1 t h); [|done|done]. destruct Ho as (neigh & ? & ? & ? & En & _). apply elem_of_seq.
      apply lookup_lt_Some in En. lia.
  - unfold count_done. lia.
Qed.

(** ** What the run has found *)

Lemma run_shortest top os st t n : run_ok top os st -> working_tree st = [] -> nodes st !! t = Some n -> ~ single t -> loc t = false ->
  (done n = true <-> exists c h, path t c h) /\
  (done n = true -> (exists h, first_hop n = Some h /\ path t (path_cost n) h) /\ forall c h, path t c h -> path_cost n <= c).
Proof.
  intros Hr EW En Hs Hl. split.
  - split.
    + intros Hd. destruct (iv_done _ _ (ro_inv _ _ _ Hr) _ _ En Hd Hs Hl) as (h & _ & Hp & _). by exists (path_cost n), h.
    + intros (c & h & Hp). destruct (paths_matched _ _ _ _ _ _ Hr EW Hp) as [(n' & En' & Hd & _) _]; [done|]. congruence.
  - intros Hd. destruct (iv_done _ _ (ro_inv _ _ _ Hr) _ _ En Hd Hs Hl) as (h & Eh & Hp & _). split; [by exists h|].
    intros c h' Hp'. destruct (paths_matched _ _ _ _ _ _ Hr EW Hp') as [(n' & En' & _ & Hc) _]; [done|]. congruence.
Qed.

(** The run offers exactly the routes it should. *)
Lemma run_covers top os st : run_ok top os st -> working_tree st = [] -> covers sound os.
Proof.
  intros Hr EW. split; [apply (ro_routes _ _ _ Hr)|]. intros o (m & x & Hp & Hw & Ex & Ek).
  assert (exists c, offered os m c /\ c <= pathcost o) as (c & (o' & y & Ho' & Ey & Ek' & <-) & Hc).
  { destruct (paths_matched _ _ _ _ _ _ Hr EW Hp) as [P1 P2]. destruct (single_dec m) as [Hs|Hs]; [by apply P2|].
    destruct Hw as [Hu|?]; [|done]. destruct (P1 Hs) as (n & En & Hd & Hc). exists (path_cost n). split; [|done].
    apply (ro_offered _ _ _ Hr); try done. by eapply path_not_local. }
  rewrite Ex in Ey. injection Ey as <-. exists o'. split; [done|]. split; [congruence|done].
Qed.

Lemma sound_offer_ok o : sound o -> offer_ok env db dom o.
Proof. intros (m & x & Hp & _ & Ex & Ek). by apply (Hoffer o m x). Qed.
End paths.
