(* ===== verification/DijkstraRun.v ===== *)
(** A whole Dijkstra run of src/olsrv2/olsrv2/olsrv2_routing.c, from
    [_prepare_nodes] to the empty working queue: shortest paths, and the
    routes that follow from them. *)

From Stdlib Require Import ZArith Lia Sorted.
From stdpp Require Import base list numbers option gmap sets.
From S2P Require Import Prelude AvlSpec Netaddr NetaddrAcl MprSelection NhdpDb MprFlooding RoutingSet Dijkstra.

Local Open Scope Z_scope.
Local Open Scope cint_scope.

Notation find_entry := (tree_find rt_key os_routing_avl_cmp_route_key).

(** ** The nodes after [_prepare_nodes] *)

Lemma lookup_foldl_alter {A} (f : nat -> A -> A) (ts : list nat) (ns : list A) (t : nat) : (forall t x, f t (f t x) = f t x) ->
  foldl (fun ns t => alter (f t) t ns) ns ts !! t = if decide (t ∈ ts) then f t <$> ns !! t else ns !! t.
Proof.
  intros Hf. revert ns. induction ts as [|u ts IH]; intros ns; simpl; [done|]. rewrite IH. destruct (decide (t = u)) as [->|Ht].
  - rewrite list_lookup_alter_eq. rewrite (decide_True (P := u ∈ u :: ts)) by (by left). case_decide; [|done].
    destruct (ns !! u); simpl; [by rewrite Hf|done].
  - rewrite list_lookup_alter_ne by done. destruct (decide (t ∈ ts)) as [H|H]; destruct (decide (t ∈ u :: ts)) as [H'|H']; try done.
    + destruct H'. by right.
    + apply elem_of_cons in H' as [?|?]; done.
Qed.

Section prepare.
Context (env : olsrv2_env) (topo : topology).

(** The target is a node of the local router. *)
Definition is_local_target (t : nat) : bool :=
  match targets topo !! t with
  | Some x => match object x with inl _ => olsrv2_originator_is_local env (rk_dst (prefix x)) | inr _ => false end
  | None => false
  end.

(** Nodes and endpoints are in their trees. *)
Record trees_ok : Prop := {
  tr_nodes t x : targets topo !! t = Some x -> t ∈ _tc_tree topo <-> exists n, object x = inl n;
  tr_endpoints t x : targets topo !! t = Some x -> t ∈ _tc_endpoint_tree topo <-> exists ep, object x = inr ep;
}.

(** Between two runs: the queue is empty, every target has its originator. *)
Record idle (st : run_state) : Prop := {
  id_length : length (nodes st) = length (targets topo);
  id_orig t n : nodes st !! t = Some n -> (dj_originator n < length (targets topo))%nat;
  id_local t n x ep : nodes st !! t = Some n -> targets topo !! t = Some x -> object x = inr ep -> local n = false;
  id_tree : working_tree st = [];
}.

(** Nothing is queued, and only targets of the families [busy] are finished. *)
Record ready (busy : Z -> Prop) (st : run_state) : Prop := {
  rd_length : length (nodes st) = length (targets topo);
  rd_node t n : nodes st !! t = Some n -> local n = is_local_target t /\ (dj_originator n < length (targets topo))%nat;
  rd_done t n : nodes st !! t = Some n -> done n = true -> single topo t \/ is_local_target t = true \/ busy (na_type (dst_of topo t));
  rd_tree : working_tree st = [];
}.

Lemma ready_idle busy st : ready busy st -> idle st.
Proof.
  intros [R1 R2 R3 R4]. split; try done.
  - intros t n E. by apply (R2 t).
  - intros t n x ep E Ex Eo. destruct (R2 t n E) as [-> _]. unfold is_local_target. by rewrite Ex, Eo.
Qed.

(** What [_prepare_nodes] writes. *)
Lemma prepare_lookup st t n : trees_ok -> idle st -> nodes (_prepare_nodes env topo st) !! t = Some n ->
  local n = is_local_target t /\ (dj_originator n < length (targets topo))%nat /\ done n = false.
Proof.
  intros [T1 T2] [I1 I2 I3 I4] E. unfold _prepare_nodes in E. simpl in E.
  rewrite (lookup_foldl_alter (fun _ n => prepare_node n (local n))) in E by done.
  rewrite (lookup_foldl_alter (fun t n => prepare_node n (olsrv2_originator_is_local env (dst_of topo t)))) in E by done.
  destruct (nodes st !! t) as [n0|] eqn:E0; [|by repeat case_decide].
  destruct (lookup_lt_is_Some_2 (targets topo) t) as [x Ex]; [rewrite <- I1; by eapply lookup_lt_Some|].
  specialize (T1 t x Ex). specialize (T2 t x Ex). unfold is_local_target. rewrite Ex. pose proof (I2 t n0 E0).
  assert (dst_of topo t = rk_dst (prefix x)) as Ed by (unfold dst_of; by rewrite Ex).
  destruct (object x) as [nd|ep] eqn:Eo.
  - rewrite decide_False in E by (rewrite T2; by intros [? ?]). rewrite decide_True in E by (rewrite T1; eauto).
    injection E as <-. simpl. by rewrite Ed.
  - rewrite decide_True in E by (rewrite T2; eauto). rewrite decide_False in E by (rewrite T1; by intros [? ?]).
    injection E as <-. simpl. split; [by eapply I3|done].
Qed.

Lemma length_foldl_alter {A} (f : nat -> A -> A) (ts : list nat) (ns : list A) :
  length (foldl (fun ns t => alter (f t) t ns) ns ts) = length ns.
Proof. revert ns. induction ts as [|u ts IH]; intros ns; simpl; [done|]. by rewrite IH, length_alter. Qed.

Lemma prepare_ready st : trees_ok -> idle st -> ready (fun _ => False) (_prepare_nodes env topo st).
Proof.
  intros HT HI. pose proof (fun t n => prepare_lookup st t n HT HI) as Hn. split.
  - unfold _prepare_nodes. simpl. rewrite (length_foldl_alter (fun _ n => prepare_node n (local n))).
    rewrite (length_foldl_alter (fun t n => prepare_node n (olsrv2_originator_is_local env (dst_of topo t)))). apply HI.
  - intros t n E. by destruct (Hn t n E) as (? & ? & _).
  - intros t n E Hd. destruct (Hn t n E) as (_ & _ & ?). congruence.
  - apply HI.
Qed.
End prepare.

(** ** One run *)

Section run.
Context (env : olsrv2_env) (db : nhdp_db) (topo : topology) (dom : nat).

(** What a route needs from the rest of the program: originators for the
    address families of all targets, a filter that can be evaluated, and for
    every usable neighbor its best link. *)
Record routes_env_ok : Prop := {
  eo_originator : is_Some (olsrv2_originator_get env AF_INET) /\ is_Some (olsrv2_originator_get env AF_INET6);
  eo_target t x : targets topo !! t = Some x ->
    is_Some (olsrv2_originator_get env (na_type (rk_dst (prefix x)))) /\ is_def (olsrv2_is_routable env (rk_dst (prefix x)));
  eo_lan lan : lan ∈ _lan_tree env -> is_Some (lan_domaindata lan !! dom);
  eo_hop h neigh d : _neigh_list db !! h = Some neigh -> nhdp_domain_get_neighbordata dom neigh = Def d ->
    m_out (nd_metric d) <= RFC7181_METRIC_MAX -> exists l, best_out_link d = Some l /\ (l < length (_link_list db))%nat;
}.

(** Messages announce addresses of one family. *)
Record families_ok : Prop := {
  fo_edge t x n e : targets topo !! t = Some x -> object x = inl n -> e ∈ _edges n -> na_type (dst_of topo (e_dst e)) = na_type (dst_of topo t);
  fo_attached t x n a : targets topo !! t = Some x -> object x = inl n -> a ∈ _attached_networks n ->
    na_type (dst_of topo (at_dst a)) = na_type (dst_of topo t);
}.

(** No usable link costs more than [K]. *)
Record metrics_bounded (K : Z) : Prop := {
  mb_pos : 0 <= K;
  mb_hop af ns ss t h k : one_hop db topo dom af ns ss t h k -> k <= K;
  mb_step ns ss t m k : step topo dom ns ss t m k -> k <= K;
  mb_sum : (Z.of_nat (length (targets topo)) + 1) * K < 2 ^ 32;
}.

Context (Htopo : topo_ok topo dom) (Htrees : trees_ok topo) (Hfam : families_ok) (Hdb : db_ok db).
Context (Hdom : (dom < NHDP_MAXIMUM_DOMAINS)%nat) (Henv : routes_env_ok) (K : Z) (HK : metrics_bounded K).

Notation path af ns ss := (path db topo dom af ns ss).
Notation localt := (is_local_target env topo).
Notation sound af ns ss := (sound db topo dom af ns ss).

Lemma path_first_hop af ns ss loc t c h : path af ns ss loc t c h -> exists t' k, one_hop db topo dom af ns ss t' h k.
Proof. induction 1 as [t h k Ho _|]; [by exists t, k|done]. Qed.

Lemma local_destination_def o x t : targets topo !! t = Some x -> dst_prefix o = prefix x ->
  is_def (is_local_destination env dom o).
Proof.
  intros Ex Ek. unfold is_local_destination. rewrite Ek. destruct (eo_target Henv t x Ex) as [[orig ->] _].
  destruct (_ =? 0); [by eexists|]. case_bool_decide; [by eexists|].
  destruct (olsrv2_lan_get env (prefix x)) as [lan|] eqn:El; [|by eexists]. apply tree_find_sound in El as [El _].
  destruct (eo_lan Henv lan El) as [ld Eld]. unfold olsrv2_lan_get_domaindata. rewrite Eld. by eexists.
Qed.

(** The gateway over the usable neighbor [h]. *)
Lemma hop_of_def o neigh d : _neigh_list db !! o_first_hop o = Some neigh -> nhdp_domain_get_neighbordata dom neigh = Def d ->
  m_out (nd_metric d) <= RFC7181_METRIC_MAX -> is_def (hop_of db dom o).
Proof.
  intros En Ed Hmax. destruct (eo_hop Henv _ _ _ En Ed Hmax) as (l & El & Hl). destruct (get_link_ok db l Hl) as (lnk & _ & Elnk).
  unfold hop_of, get_neigh. rewrite En. simpl. rewrite Ed. simpl. rewrite El, Elnk. by eexists.
Qed.

Lemma offers_ok af ns ss loc o m x : path af ns ss loc m (pathcost o) (o_first_hop o) -> targets topo !! m = Some x ->
  dst_prefix o = prefix x -> offer_ok env db dom o.
Proof.
  intros Hp Ex Ek. split; [by eapply local_destination_def|]. split; [rewrite Ek; by apply (eo_target Henv m)|].
  destruct (path_first_hop _ _ _ _ _ _ _ Hp) as (t & k & neigh & y & node & d & En & _ & _ & _ & _ & _ & _ & Ed & _ & -> & Hmax).
  by eapply hop_of_def.
Qed.

(** A path stays in the address family of the run. *)
Lemma path_family af ns ss loc t c h : path af ns ss loc t c h -> na_type (dst_of topo t) = af.
Proof.
  induction 1 as [t h k (neigh & x & node & d & _ & Eaf & _ & Et & _) _|t c h m k _ IH (x & n & Ex & Eo & [(e & He & _ & ->)|(a & Ha & _ & ->)]) _].
  - apply tree_find_sound in Et as [_ Et]. apply netaddr_cmp_eq in Et. congruence.
  - by rewrite (fo_edge Hfam t x n e).
  - by rewrite (fo_attached Hfam t x n a).
Qed.

#[local] Instance single_decision m : Decision (single topo m).
Proof.
  destruct (targets topo !! m) as [x|] eqn:E; [|right; intros (y & ep & Ey & _); congruence].
  destruct (object x) as [n|ep] eqn:Eo; [right; intros (y & ep & Ey & Eo' & _); congruence|].
  destruct (decide (ep_attached_count ep <= 1)%nat); [left; by exists x, ep|]. right. intros (y & ep' & Ey & Eo' & ?).
  rewrite E in Ey. injection Ey as <-. rewrite Eo in Eo'. by injection Eo' as <-.
Defined.

(** Local targets, and those that another run has finished. *)
Definition closed_target (st : run_state) (t : nat) : bool :=
  localt t || match nodes st !! t with Some n => done n && negb (bool_decide (single topo t)) | None => false end.

Lemma closed_local st t : localt t = true -> closed_target st t = true.
Proof. unfold closed_target. by intros ->. Qed.

Lemma closed_single st t : single topo t -> closed_target st t = false.
Proof.
  intros Hs. unfold closed_target. rewrite bool_decide_true by done.
  assert (localt t = false) as ->.
  { destruct Hs as (x & ep & Ex & Eo & _). unfold is_local_target. by rewrite Ex, Eo. }
  destruct (nodes st !! t); simpl; [|done]. by rewrite andb_false_r.
Qed.

(** Other families do not matter. *)
Lemma closed_path busy st af ns ss t c h : ready env topo busy st -> ~ busy af ->
  path af ns ss (closed_target st) t c h <-> path af ns ss localt t c h.
Proof.
  intros Hr Hb. split; intros Hp.
  - assert (forall t, closed_target st t = false -> localt t = false) as Hl by (intros u Hu; by apply orb_false_iff in Hu as [? _]).
    induction Hp as [t h k Ho Hc|t c h m k _ IH Hs Hc]; [apply path_hop|eapply path_step]; eauto.
  - assert (forall t c h, path af ns ss localt t c h -> closed_target st t = false) as Hl.
    { intros u c' h' Hu. apply orb_false_iff. pose proof (path_not_local _ _ _ _ _ _ _ _ _ _ Hu) as Hn. split; [done|].
      destruct (nodes st !! u) as [n|] eqn:En; [|done]. destruct (done n) eqn:Ed; [|done]. case_bool_decide as Hs; [done|]. exfalso.
      destruct (rd_done _ _ _ _ Hr u n En Ed) as [?|[?|Hf]]; [done|congruence|]. apply Hb. by rewrite <- (path_family _ _ _ _ _ _ _ Hu). }
    induction Hp as [t h k Ho Hc|t c h m k Hp IH Hs Hc].
    + apply path_hop; [done|]. apply (Hl t k h). by apply path_hop.
    + eapply path_step; [done..|]. apply (Hl m (c + k) h). by eapply path_step.
Qed.

Lemma closed_sound busy st af ns ss o : ready env topo busy st -> ~ busy af ->
  sound af ns ss (closed_target st) o <-> sound af ns ss localt o.
Proof.
  intros Hr Hb. split; intros (m & x & Hp & H); exists m, x; (split; [|done]); by apply (closed_path busy st).
Qed.

(** One run, from any state in which its family has not been used. *)
Lemma run_ready_ok busy st rt0 pre af ns ss : ready env topo busy st -> ~ busy af -> is_Some (olsrv2_originator_get env af) ->
  prepared rt0 -> routes_follow env db dom rt0 pre (routing_tree st) ->
  exists st' top os, _run_dijkstra env db topo dom af ns ss st = Def st' /\ working_tree st' = [] /\
    run_ok env db topo dom af ns ss localt (closed_target st) K rt0 pre top os st'.
Proof.
  intros Hr Hb Haf Hrt0 Hf. pose proof HK as [K0 K1 K2 K3].
  destruct (run_dijkstra_ok env db topo dom af ns ss localt (closed_target st) Htopo Hdb Hdom Haf K (K1 af ns ss) (K2 ns ss) K3 K0
    (closed_local st) (closed_single st) (offers_ok af ns ss (closed_target st)) rt0 Hrt0 pre st) as (st' & top & os & E & Ho & EW).
  - split; [apply Hr| |apply Hr|done]. intros t n En. destruct (rd_node _ _ _ _ Hr t n En) as [Hl Horig]. split; [done|]. split; [done|].
    unfold closed_target. rewrite En. destruct (localt t); simpl; [by left|]. destruct (done n) eqn:Ed; simpl; [|done].
    case_bool_decide as Hs; simpl; [done|by right].
  - by exists st', top, os.
Qed.

Lemma run_ready_next busy st rt0 pre af ns ss : ready env topo busy st -> ~ busy af -> is_Some (olsrv2_originator_get env af) ->
  prepared rt0 -> routes_follow env db dom rt0 pre (routing_tree st) ->
  exists st' os, _run_dijkstra env db topo dom af ns ss st = Def st' /\ ready env topo (fun f => busy f \/ f = af) st' /\
    routes_follow env db dom rt0 (pre ++ os) (routing_tree st') /\ covers (sound af ns ss localt) os.
Proof.
  intros Hr Hb Haf Hrt0 Hf. destruct (run_ready_ok busy st rt0 pre af ns ss Hr Hb Haf Hrt0 Hf) as (st' & top & os & E & EW & Ho).
  pose proof (ro_inv _ _ _ _ _ _ _ _ _ _ _ _ _ _ _ Ho) as Hi. exists st', os. split; [done|]. split; [|split].
  - split; [apply Hi| | |done].
    + intros t n En. split; [by eapply iv_local|by eapply iv_orig].
    + intros t n En Hd. destruct (decide (single topo t)) as [Hs|Hs]; [by left|]. right.
      destruct (closed_target st t) eqn:Ec.
      * unfold closed_target in Ec. destruct (localt t) eqn:El; [by left|]. simpl in Ec. right. left.
        destruct (nodes st !! t) as [n0|] eqn:E0; [|done]. apply andb_true_iff in Ec as [Hd0 _].
        destruct (rd_done _ _ _ _ Hr t n0 E0 Hd0) as [?|[?|?]]; [done|congruence|done].
      * right. right. edestruct iv_done as (h & _ & Hp & _); [exact Hi|exact En|done..|]. by eapply path_family.
  - apply Ho.
  - eapply covers_ext; [intros o; by apply (closed_sound busy st)|]. by eapply run_covers.
Qed.

Lemma sound_ok af ns ss o : sound af ns ss localt o -> offer_ok env db dom o.
Proof. intros (m & x & Hp & _ & Ex & Ek). by eapply offers_ok. Qed.

(** C9: A Dijkstra run over the prepared nodes ends, with an empty working
    queue and without undefined behaviour, after at most as many rounds as
    there are targets. Every node and every endpoint with several attachments
    is finished if and only if a path of usable links leads to it from some
    symmetric neighbor; its path cost is then the least cost of all paths, and
    its first hop is the neighbor at which such a cheapest path begins. *)
Theorem dijkstra_shortest st af use_non_ss use_ss : idle topo st -> prepared (routing_tree st) ->
  is_Some (olsrv2_originator_get env af) ->
  exists st', _run_dijkstra env db topo dom af use_non_ss use_ss (_prepare_nodes env topo st) = Def st' /\ working_tree st' = [] /\
    forall t n, nodes st' !! t = Some n -> ~ single topo t -> localt t = false ->
      (done n = true <-> exists c h, path af use_non_ss use_ss localt t c h) /\
      (done n = true -> (exists h, first_hop n = Some h /\ path af use_non_ss use_ss localt t (path_cost n) h) /\
        forall c h, path af use_non_ss use_ss localt t c h -> path_cost n <= c).
Proof.
  intros Hi Hrt Haf. pose proof (prepare_ready env topo st Htrees Hi) as Hr.
  destruct (run_ready_ok _ _ (routing_tree st) [] af use_non_ss use_ss Hr) as (st' & top & os & E & EW & Ho); [by intros []|done|done|apply routes_follow_init; apply Hrt|].
  exists st'. split; [done|]. split; [done|]. intros t n En Hs Hl.
  assert (closed_target (_prepare_nodes env topo st) t = false) as Hc.
  { unfold closed_target. rewrite Hl, orb_false_l. destruct (nodes (_prepare_nodes env topo st) !! t) as [n0|] eqn:E0; [|done].
    by destruct (prepare_lookup env topo st t n0 Htrees Hi E0) as (_ & _ & ->). }
  edestruct run_shortest as [R1 R2]; [exact Hdom|exact Ho|exact EW|exact En|exact Hs|exact Hc|].
  assert (forall c h, path af use_non_ss use_ss (closed_target (_prepare_nodes env topo st)) t c h <->
    path af use_non_ss use_ss localt t c h) as Hp by (intros c h; eapply closed_path; [exact Hr|by intros []]).
  split; [rewrite R1; by setoid_rewrite Hp|]. intros Hd. destruct (R2 Hd) as [(h & Eh & Hh) Hmin]. split.
  - exists h. split; [done|]. by apply Hp.
  - intros c h' Hp'. by apply (Hmin c h'), Hp.
Qed.
End run.

(** ** Witnesses *)

(** The neighbors [10.0.0.1] and [10.0.0.2] of the local node [10.0.0.9] both
    reach [10.0.0.3], the second at a lower cost; one network is attached to
    [10.0.0.3] alone, another one to two nodes. *)
Definition ex_key (a : netaddr) : os_route_key := os_routing_init_sourcespec_prefix a.
Definition ex_edge (dst : nat) (c : Z) : olsrv2_tc_edge := {| e_dst := dst; e_virtual := false; e_cost := replicate 4 c |}.
Definition ex_att (dst : nat) (c d : Z) : olsrv2_tc_attachment := {| at_dst := dst; at_cost := replicate 4 c; at_distance := replicate 4 d |}.
Definition ex_node (a : netaddr) (es : list olsrv2_tc_edge) (ats : list olsrv2_tc_attachment) : olsrv2_tc_target :=
  {| prefix := ex_key a; type := OLSRV2_NODE_TARGET;
     object := inl {| source_specific := false; ss_attached_networks := replicate 4 false; _edges := es; _attached_networks := ats |} |}.
Definition ex_end (a : netaddr) (n : nat) : olsrv2_tc_target :=
  {| prefix := ex_key a; type := OLSRV2_NETWORK_TARGET; object := inr {| ep_attached_count := n |} |}.
Definition ex_topo : topology := {|
  targets := [ex_node (ex_addr 1) [ex_edge 2 1000; ex_edge 3 10] [ex_att 5 5000 7]; ex_node (ex_addr 2) [ex_edge 2 100] [];
              ex_node (ex_addr 3) [] [ex_att 4 256 3; ex_att 5 256 2]; ex_node (ex_addr 9) [ex_edge 0 10; ex_edge 1 10] [];
              ex_end (ex_prefix 4 16) 1; ex_end (ex_prefix 5 16) 2];
  _tc_tree := [0; 1; 2; 3]%nat; _tc_endpoint_tree := [4; 5]%nat |}.

Definition ex_env : olsrv2_env := {|
  _originator_v4 := ex_addr 9; _originator_v6 := netaddr_invalidate; _originator_set_tree := []; interface_addresses := [];
  _lan_tree := []; routable_acl := {| accept := []; reject := []; reject_first := false; accept_default := true |};
  nhdp_routable := false; rtset_malloc := fun _ => true |}.

Definition ex_state : run_state := {|
  nodes := map (fun t => {| path_cost := 0; dj_path_hops := 0; distance := 0; dj_originator := t; first_hop := None;
    dj_last_originator := netaddr_invalidate; dj_single_hop := false; local := false; done := false |}) (seq 0 6);
  working_tree := []; routing_tree := [] |}.

(** Looks at every target in turn. *)
Ltac six_targets t E := destruct t as [|[|[|[|[|[|t]]]]]]; simpl in E; [..|by destruct t]; injection E as <-.

Lemma ex_topo_ok : topo_ok ex_topo 0.
Proof.
  split.
  - intros t x E. six_targets t E; simpl; split; intros H; first [done|by eexists|by destruct H].
  - intros t x n e E En He. six_targets t E; simpl in En; try done; injection En as <-; simpl in He; set_unfold in He;
      repeat (destruct He as [->|He]; [split; [by eexists _, _|eexists; split; [reflexivity|lia]]|]); try done;
      subst; (split; [by eexists _, _|eexists; split; [reflexivity|lia]]).
  - intros t x n e E En He. six_targets t E; simpl in En; try done; injection En as <-; simpl in He; set_unfold in He;
      repeat (destruct He as [->|He]; [split; [by eexists _, _|split; [eexists; split; [reflexivity|lia]|by eexists]]|]); try done;
      subst; (split; [by eexists _, _|split; [eexists; split; [reflexivity|lia]|by eexists]]).
  - intros t Ht. simpl in Ht. set_unfold in Ht. destruct Ht as [->|[->|[->|[->|[]]]]]; by eexists _, _.
Qed.

Lemma ex_trees_ok : trees_ok ex_topo.
Proof.
  split; intros t x E; six_targets t E; simpl; set_unfold; split; intros H; try (destruct H; done); try (by eexists); try lia.
Qed.

Lemma ex_families_ok : families_ok ex_topo.
Proof.
  split; intros t x n e E En He; six_targets t E; simpl in En; try done; injection En as <-; simpl in He; set_unfold in He;
    repeat (destruct He as [->|He]; [done|]); by subst.
Qed.

Lemma ex_metrics : metrics_bounded ex_db ex_topo 0 RFC7181_METRIC_MAX.
Proof.
  split; [done| | |vm_compute; done].
  - by intros af ns ss t h k (? & ? & ? & ? & _ & _ & _ & _ & _ & _ & _ & _ & _ & _ & Hk).
  - by intros ns ss t m k (? & ? & _ & _ & [(? & _ & (_ & _ & Hk & _) & _)|(? & _ & (? & _ & Hk & _) & _)]).
Qed.

Lemma ex_env_ok : routes_env_ok ex_env ex_db ex_topo 0.
Proof.
  split.
  - split; by eexists.
  - intros t x E. six_targets t E; (split; eexists; reflexivity).
  - by intros lan ?%elem_of_nil.
  - intros h neigh d E Ed _. destruct h as [|[|h]]; simpl in E; [..|by destruct h]; injection E as <-; vm_compute in Ed;
      injection Ed as <-; eexists; (split; [reflexivity|simpl; lia]).
Qed.

Lemma ex_state_idle : idle ex_topo ex_state.
Proof.
  split; try done.
  - intros t n E. six_targets t E; simpl; lia.
  - intros t n x ep E. six_targets t E; done.
Qed.

Lemma ex_prepared : prepared (routing_tree ex_state).
Proof. split; [constructor|by apply Forall_nil]. Qed.

(** [10.0.0.3] is reached over the second neighbor. *)
Lemma dijkstra_shortest_witness : exists st' n,
  _run_dijkstra ex_env ex_db ex_topo 0 AF_INET true true (_prepare_nodes ex_env ex_topo ex_state) = Def st' /\
  nodes st' !! 2%nat = Some n /\ first_hop n = Some 1%nat /\ path_cost n = 356 /\
  forall c h, path ex_db ex_topo 0 AF_INET true true (is_local_target ex_env ex_topo) 2 c h -> 356 <= c.
Proof.
  destruct (dijkstra_shortest ex_env ex_db ex_topo 0 ex_topo_ok ex_trees_ok ex_families_ok ex_db_ok
    ltac:(unfold NHDP_MAXIMUM_DOMAINS; lia) ex_env_ok RFC7181_METRIC_MAX ex_metrics) with (st := ex_state) (af := AF_INET)
    (use_non_ss := true) (use_ss := true) as (st' & E & _ & H).
  - exact ex_state_idle.
  - exact ex_prepared.
  - by eexists.
  - pose proof E as E'. vm_compute in E'. injection E' as <-. eexists _, _. split; [exact E|]. split; [vm_compute; reflexivity|].
    split; [reflexivity|]. split; [reflexivity|]. destruct (H 2%nat _ eq_refl) as [_ H2]; [by intros (? & ? & [= <-] & ? & _)|done|].
    by destruct (H2 eq_refl) as [_ H3].
Defined.

