(* ===== verification/RoutingUpdate.v ===== *)
(** The update of the kernel routes in src/olsrv2/olsrv2/olsrv2_routing.c: from
    the triggers and their rate limitation over the Dijkstra runs of a domain
    to the kernel queue and the answers of the kernel. *)

From Stdlib Require Import ZArith Lia Sorted.
From stdpp Require Import base list numbers option gmap sets.
From S2P Require Import Prelude AvlSpec Netaddr NetaddrAcl MprSelection NhdpDb MprFlooding RoutingSet OsRouting Dijkstra DijkstraRun.

Local Open Scope Z_scope.
Local Open Scope cint_scope.

(** ** Entries in the kernel queue

    A pointer to an entry is its domain and its key. *)

Notation entry_ptr := (nat * os_route_key)%type.

(** The routing trees, the kernel queue, the routes that wait for an answer of
    the kernel in the order of their sequence numbers, and the messages that
    were handed to the netlink socket. *)
Record kernel_state := {
  _routing_tree : list (list olsrv2_routing_entry);
  _kernel_queue : list entry_ptr;
  _rtnetlink_feedback : list (Z * entry_ptr);
  _seq_used : Z;
  sent : list (Z * route_msg);
}.

Definition get_tree (dom : nat) (k : kernel_state) : outcome (list olsrv2_routing_entry) :=
  match _routing_tree k !! dom with Some t => Def t | None => Undef UB_read end.
Definition get_entry (p : entry_ptr) (k : kernel_state) : outcome olsrv2_routing_entry :=
  t ← get_tree p.1 k; match find_entry p.2 t with Some e => Def e | None => Undef UB_read end.

Definition set_trees (ts : list (list olsrv2_routing_entry)) (k : kernel_state) : kernel_state :=
  {| _routing_tree := ts; _kernel_queue := _kernel_queue k; _rtnetlink_feedback := _rtnetlink_feedback k; _seq_used := _seq_used k; sent := sent k |}.
Definition set_queue (q : list entry_ptr) (k : kernel_state) : kernel_state :=
  {| _routing_tree := _routing_tree k; _kernel_queue := q; _rtnetlink_feedback := _rtnetlink_feedback k; _seq_used := _seq_used k; sent := sent k |}.
Definition set_feedback (f : list (Z * entry_ptr)) (k : kernel_state) : kernel_state :=
  {| _routing_tree := _routing_tree k; _kernel_queue := _kernel_queue k; _rtnetlink_feedback := f; _seq_used := _seq_used k; sent := sent k |}.
Definition put_tree (dom : nat) (t : list olsrv2_routing_entry) (k : kernel_state) : kernel_state :=
  set_trees (<[dom := t]> (_routing_tree k)) k.

(** Assignments to [route.p], [set] and [in_processing] *)
Definition with_route (r : os_route_parameter) (s : bool) (e : olsrv2_routing_entry) : olsrv2_routing_entry :=
  {| route := r; rt_path_cost := rt_path_cost e; rt_path_hops := rt_path_hops e; rt_originator := rt_originator e;
     next_originator := next_originator e; rt_last_originator := rt_last_originator e; rt_set := s;
     in_processing := in_processing e; _old := _old e |}.
Definition with_processing (b : bool) (e : olsrv2_routing_entry) : olsrv2_routing_entry :=
  {| route := route e; rt_path_cost := rt_path_cost e; rt_path_hops := rt_path_hops e; rt_originator := rt_originator e;
     next_originator := next_originator e; rt_last_originator := rt_last_originator e; rt_set := rt_set e;
     in_processing := b; _old := _old e |}.

(** Writing the entry at the pointer [p]. *)
Definition write_entry (p : entry_ptr) (e : olsrv2_routing_entry) (k : kernel_state) : kernel_state :=
  set_trees (alter (put_entry e) p.1 (_routing_tree k)) k.

Definition _add_route_to_kernel_queue (p : entry_ptr) (e : olsrv2_routing_entry) (q : list entry_ptr) : list entry_ptr :=
  if rt_set e then if na_type (gw (route e)) =? AF_UNSPEC then p :: q else q ++ [p]
  else if na_type (gw (route e)) =? AF_UNSPEC then q ++ [p] else p :: q.

(** ** Requests and answers *)

Definition waiting (p : entry_ptr) (k : kernel_state) : bool := bool_decide (p ∈ (_rtnetlink_feedback k).*2).

(** [os_routing_set] for a route with a callback: the state and the result *)
Definition os_routing_set (p : entry_ptr) (r : os_route_parameter) (set del_similar : bool) (k : kernel_state) : outcome (kernel_state * Z) :=
  match os_routing_linux_set r set del_similar with
  | None => Def (k, -1)
  | Some msg =>
      (* os_system_linux_netlink_send *)
      let seq := (_seq_used k + 1) .& 2147483647 in
      if waiting p k then Undef Assert_failed
      else
        let f := _rtnetlink_feedback k in
        Def ({| _routing_tree := _routing_tree k; _kernel_queue := _kernel_queue k;
                _rtnetlink_feedback := default f (tree_insert fst avl_comp_uint32 (seq, p) f);
                _seq_used := seq; sent := sent k ++ [(seq, msg)] |}, 0)
  end.

Definition stop_waiting (p : entry_ptr) (k : kernel_state) : kernel_state :=
  set_feedback (filter (fun x => x.2 <> p) (_rtnetlink_feedback k)) k.

(** [_remove_entry]: without the callback an interrupt only ends the waiting. *)
Definition _remove_entry (p : entry_ptr) (k : kernel_state) : outcome kernel_state :=
  t ← get_tree p.1 k; Def (put_tree p.1 (filter (fun e => rt_key e <> p.2) t) (stop_waiting p k)).

Definition ESRCH : Z := 3.
Definition EEXIST : Z := 17.

Definition _cb_route_finished (p : entry_ptr) (error : Z) (k : kernel_state) : outcome kernel_state :=
  e ← get_entry p k;
  let e := with_processing false e in
  let k := write_entry p e k in
  let success := if rt_set e then Def k else _remove_entry p k in
  if negb (rt_set e) && (error =? ESRCH) then success
  else if negb (error =? 0) then
    if error =? -1 then Def k
    else if (error =? EEXIST) && rt_set e then Def k
    else if rt_set e then _remove_entry p k
    else Def (write_entry p (with_route (route e) true e) k)
  else success.

(** [_routing_finished] of the netlink code *)
Definition _routing_finished (p : entry_ptr) (error : Z) (k : kernel_state) : outcome kernel_state :=
  _cb_route_finished p error (stop_waiting p k).

Definition os_routing_interrupt (p : entry_ptr) (k : kernel_state) : outcome kernel_state :=
  if waiting p k then _routing_finished p (-1) k else Def k.

(** The three answers of the netlink socket. *)
Definition find_request (seq : Z) (k : kernel_state) : option entry_ptr :=
  snd <$> tree_find fst avl_comp_uint32 seq (_rtnetlink_feedback k).
Definition _cb_rtnetlink_error (seq err : Z) (k : kernel_state) : outcome kernel_state :=
  match find_request seq k with Some p => _routing_finished p err k | None => Def k end.
Definition _cb_rtnetlink_done (seq : Z) (k : kernel_state) : outcome kernel_state :=
  match find_request seq k with Some p => _routing_finished p 0 k | None => Def k end.
Fixpoint finish_all (ps : list entry_ptr) (error : Z) (k : kernel_state) : outcome kernel_state :=
  match ps with [] => Def k | p :: ps => k ← _routing_finished p error k; finish_all ps error k end.
Definition _cb_rtnetlink_timeout (k : kernel_state) : outcome kernel_state := finish_all (_rtnetlink_feedback k).*2 (-1) k.

(** [_process_kernel_queue]: the queue is taken from its head. *)
Fixpoint process_queue (q : list entry_ptr) (k : kernel_state) : outcome kernel_state :=
  match q with
  | [] => Def (set_queue [] k)
  | p :: q =>
      e ← get_entry p k;
      if in_processing e then process_queue q k
      else
        let k := write_entry p (with_processing true e) k in
        '(k, _) ← os_routing_set p (route e) (rt_set e) (rt_set e) k;
        process_queue q k
  end.
Definition _process_kernel_queue (k : kernel_state) : outcome kernel_state := process_queue (_kernel_queue k) k.

(** ** The result of a Dijkstra run *)

Record olsrv2_routing_domain := {
  use_srcip_in_routes : bool;
  p_protocol : Z;
  p_table : Z;
  p_distance : Z;
  p_source_specific : bool;
}.

#[export] Instance olsrv2_routing_domain_eq_dec : EqDecision olsrv2_routing_domain.
Proof. solve_decision. Defined.

Section update.
Context (env : olsrv2_env) (db : nhdp_db) (topo : topology).

(** The filters may change all parameters of a route. *)
Context (_routing_filter_list : list (nat -> os_route_parameter -> bool -> os_route_parameter * bool)).

(** What the filters answer is not looked at. *)
Definition run_filters (dom : nat) (r : os_route_parameter) (set : bool) : os_route_parameter :=
  foldl (fun r filter => (filter dom r set).1) r _routing_filter_list.

(** One entry of [_process_dijkstra_result]: the entry and whether it goes to
    the kernel. *)
Definition process_entry (dom : nat) (par : olsrv2_routing_domain) (e : olsrv2_routing_entry) : outcome (olsrv2_routing_entry * bool) :=
  let r := route e in
  let ip := if rt_set e && use_srcip_in_routes par && (na_type (rk_dst (rp_key r)) =? AF_INET) then _originator_v4 env else src_ip r in
  let r := {| family := family r; rp_type := rp_type r; rp_key := rp_key r; gw := gw r; src_ip := ip; rp_metric := p_distance par;
              table := u8 (p_table par); protocol := u8 (p_protocol par); if_index := if_index r |} in
  set ← (match olsrv2_lan_get env (rp_key r) with
         | Some lan_entry =>
             lan_data ← olsrv2_lan_get_domaindata dom lan_entry;
             Def (if lan_active lan_data && (outgoing_metric lan_data <? rt_path_cost e) then false else rt_set e)
         | None => Def (rt_set e)
         end);
  let e := with_route (run_filters dom r set) set e in
  Def (e, negb (set && bool_decide (_old e = route e))).

Fixpoint result_loop (dom : nat) (par : olsrv2_routing_domain) (es : list olsrv2_routing_entry) (q : list entry_ptr)
    : outcome (list olsrv2_routing_entry * list entry_ptr) :=
  match es with
  | [] => Def ([], q)
  | e :: es =>
      '(e, add) ← process_entry dom par e;
      '(es, q) ← result_loop dom par es (if add : bool then _add_route_to_kernel_queue (dom, rt_key e) e q else q);
      Def (e :: es, q)
  end.

Definition _process_dijkstra_result (dom : nat) (par : olsrv2_routing_domain) (k : kernel_state) : outcome kernel_state :=
  t ← get_tree dom k;
  '(t, q) ← result_loop dom par t (_kernel_queue k);
  Def (set_queue q (put_tree dom t k)).

(** ** Routes of NHDP *)

Fixpoint nhdp_addresses (dom h : nat) (neigh : nhdp_neighbor) (neighcost : Z) (addrs : list netaddr) (rt : list olsrv2_routing_entry)
    : outcome (list olsrv2_routing_entry) :=
  match addrs with
  | [] => Def rt
  | naddr :: addrs =>
      routable ← olsrv2_is_nhdp_routable env naddr;
      if negb routable then nhdp_addresses dom h neigh neighcost addrs rt
      else
        let orig := default NETADDR_UNSPEC (olsrv2_originator_get env (na_type (originator neigh))) in
        rt ← _update_routing_entry env db dom {| dst_prefix := os_routing_init_sourcespec_prefix naddr; dst_originator := orig;
               o_first_hop := h; o_distance := 0; pathcost := neighcost; path_hops := 1; single_hop := true; last_originator := orig |} rt;
        nhdp_addresses dom h neigh neighcost addrs rt
  end.

Fixpoint nhdp_twohops (dom h : nat) (neigh : nhdp_neighbor) (neighcost : Z) (l2hops : list nhdp_l2hop) (rt : list olsrv2_routing_entry)
    : outcome (list olsrv2_routing_entry) :=
  match l2hops with
  | [] => Def rt
  | l2hop :: l2hops =>
      if nhdp_db_2hop_is_lost l2hop then nhdp_twohops dom h neigh neighcost l2hops rt
      else
        m ← nhdp_domain_get_l2hopdata dom l2hop;
        if RFC7181_METRIC_MAX <? m_out m then nhdp_twohops dom h neigh neighcost l2hops rt
        else
          rt ← _update_routing_entry env db dom {| dst_prefix := os_routing_init_sourcespec_prefix (twohop_addr l2hop);
                 dst_originator := NETADDR_UNSPEC; o_first_hop := h; o_distance := 0; pathcost := u32 (m_out m + neighcost);
                 path_hops := 2; single_hop := false; last_originator := originator neigh |} rt;
          nhdp_twohops dom h neigh neighcost l2hops rt
  end.

Fixpoint nhdp_links (dom h : nat) (neigh : nhdp_neighbor) (neighcost : Z) (links : list nat) (rt : list olsrv2_routing_entry)
    : outcome (list olsrv2_routing_entry) :=
  match links with
  | [] => Def rt
  | l :: links => lnk ← get_link db l; rt ← nhdp_twohops dom h neigh neighcost (_2hop lnk) rt; nhdp_links dom h neigh neighcost links rt
  end.

Fixpoint nhdp_neighs (dom : nat) (neighs : list nat) (rt : list olsrv2_routing_entry) : outcome (list olsrv2_routing_entry) :=
  match neighs with
  | [] => Def rt
  | h :: neighs =>
      neigh ← get_neigh db h;
      neigh_data ← nhdp_domain_get_neighbordata dom neigh;
      let neighcost := m_out (nd_metric neigh_data) in
      if (symmetric neigh =? 0) || (RFC7181_METRIC_MAX <? neighcost) then nhdp_neighs dom neighs rt
      else
        rt ← nhdp_addresses dom h neigh neighcost (_neigh_addresses neigh) rt;
        rt ← nhdp_links dom h neigh neighcost (_links neigh) rt;
        nhdp_neighs dom neighs rt
  end.

Definition _handle_nhdp_routes (dom : nat) (rt : list olsrv2_routing_entry) : outcome (list olsrv2_routing_entry) :=
  nhdp_neighs dom (seq 0 (length (_neigh_list db))) rt.

(** ** One domain

    The part of [olsrv2_routing_force_update] between the reset of the domain's
    flag and [_process_dijkstra_result]. *)
Definition domain_dijkstra (dom : nat) (st : run_state) : outcome run_state :=
  let st := {| nodes := nodes st; working_tree := working_tree st; routing_tree := _prepare_routes (routing_tree st) |} in
  let st := _prepare_nodes env topo st in
  splitv4 ← _check_ssnode_split topo dom AF_INET;
  st ← _run_dijkstra env db topo dom AF_INET true (negb splitv4) st;
  splitv6 ← _check_ssnode_split topo dom AF_INET6;
  st ← _run_dijkstra env db topo dom AF_INET6 true (negb splitv6) st;
  st ← (if splitv4 || splitv6 then
          let st := _prepare_nodes env topo st in
          st ← (if splitv4 : bool then _run_dijkstra env db topo dom AF_INET false true st else Def st);
          if splitv6 : bool then _run_dijkstra env db topo dom AF_INET6 false true st else Def st
        else Def st);
  rt ← _handle_nhdp_routes dom (routing_tree st);
  Def {| nodes := nodes st; working_tree := working_tree st; routing_tree := rt |}.

(** ** The state of the module *)

Record routing_state := {
  kernel : kernel_state;
  dijkstra_nodes : list olsrv2_dijkstra_node;
  _domain_parameter : list olsrv2_routing_domain;
  _rate_limit_timer : option Z;
  _trigger_dijkstra : bool;
  _ansn : Z;
  _domain_changed : list bool;
  _update_ansn : bool;
  _initiate_shutdown : bool;
  _freeze_routes : bool;
}.

(** The indices of [nhdp_domain_get_list] *)
Context (domain_list : list nat).

Definition OLSRv2_DIJKSTRA_RATE_LIMITATION : Z := 1000.

Definition with_kernel (k : kernel_state) (s : routing_state) : routing_state :=
  {| kernel := k; dijkstra_nodes := dijkstra_nodes s; _domain_parameter := _domain_parameter s; _rate_limit_timer := _rate_limit_timer s;
     _trigger_dijkstra := _trigger_dijkstra s; _ansn := _ansn s; _domain_changed := _domain_changed s; _update_ansn := _update_ansn s;
     _initiate_shutdown := _initiate_shutdown s; _freeze_routes := _freeze_routes s |}.
Definition with_timer (t : option Z) (trigger : bool) (s : routing_state) : routing_state :=
  {| kernel := kernel s; dijkstra_nodes := dijkstra_nodes s; _domain_parameter := _domain_parameter s; _rate_limit_timer := t;
     _trigger_dijkstra := trigger; _ansn := _ansn s; _domain_changed := _domain_changed s; _update_ansn := _update_ansn s;
     _initiate_shutdown := _initiate_shutdown s; _freeze_routes := _freeze_routes s |}.
Definition with_ansn (n : Z) (u : bool) (s : routing_state) : routing_state :=
  {| kernel := kernel s; dijkstra_nodes := dijkstra_nodes s; _domain_parameter := _domain_parameter s; _rate_limit_timer := _rate_limit_timer s;
     _trigger_dijkstra := _trigger_dijkstra s; _ansn := n; _domain_changed := _domain_changed s; _update_ansn := u;
     _initiate_shutdown := _initiate_shutdown s; _freeze_routes := _freeze_routes s |}.
Definition with_changed (l : list bool) (s : routing_state) : routing_state :=
  {| kernel := kernel s; dijkstra_nodes := dijkstra_nodes s; _domain_parameter := _domain_parameter s; _rate_limit_timer := _rate_limit_timer s;
     _trigger_dijkstra := _trigger_dijkstra s; _ansn := _ansn s; _domain_changed := l; _update_ansn := _update_ansn s;
     _initiate_shutdown := _initiate_shutdown s; _freeze_routes := _freeze_routes s |}.
Definition with_freeze (shutdown freeze : bool) (s : routing_state) : routing_state :=
  {| kernel := kernel s; dijkstra_nodes := dijkstra_nodes s; _domain_parameter := _domain_parameter s; _rate_limit_timer := _rate_limit_timer s;
     _trigger_dijkstra := _trigger_dijkstra s; _ansn := _ansn s; _domain_changed := _domain_changed s; _update_ansn := _update_ansn s;
     _initiate_shutdown := shutdown; _freeze_routes := freeze |}.
Definition with_nodes (ns : list olsrv2_dijkstra_node) (s : routing_state) : routing_state :=
  {| kernel := kernel s; dijkstra_nodes := ns; _domain_parameter := _domain_parameter s; _rate_limit_timer := _rate_limit_timer s;
     _trigger_dijkstra := _trigger_dijkstra s; _ansn := _ansn s; _domain_changed := _domain_changed s; _update_ansn := _update_ansn s;
     _initiate_shutdown := _initiate_shutdown s; _freeze_routes := _freeze_routes s |}.
Definition with_parameter (l : list olsrv2_routing_domain) (s : routing_state) : routing_state :=
  {| kernel := kernel s; dijkstra_nodes := dijkstra_nodes s; _domain_parameter := l; _rate_limit_timer := _rate_limit_timer s;
     _trigger_dijkstra := _trigger_dijkstra s; _ansn := _ansn s; _domain_changed := _domain_changed s; _update_ansn := _update_ansn s;
     _initiate_shutdown := _initiate_shutdown s; _freeze_routes := _freeze_routes s |}.

(** ** Triggers *)

Definition olsrv2_routing_force_ansn_increment (increment : Z) (s : routing_state) : routing_state :=
  with_ansn (u16 (_ansn s + increment)) (_update_ansn s) s.

Definition olsrv2_routing_trigger_update (s : routing_state) : routing_state :=
  with_timer (match _rate_limit_timer s with Some t => Some t | None => Some 1 end) true s.

Definition olsrv2_routing_freeze_routes (freeze : bool) (s : routing_state) : routing_state :=
  if Bool.eqb (_freeze_routes s) freeze then s
  else
    let s := with_freeze (_initiate_shutdown s) freeze s in
    if negb freeze then olsrv2_routing_trigger_update s else s.

Definition changed (dom : nat) (s : routing_state) : routing_state :=
  olsrv2_routing_trigger_update (with_changed (<[dom := true]> (_domain_changed s)) s).

(** [None] is the [NULL] pointer. *)
Definition olsrv2_routing_domain_changed (domain : option nat) (autoupdate_ansn : bool) (s : routing_state) : routing_state :=
  let s := with_ansn (_ansn s) (_update_ansn s || autoupdate_ansn) s in
  match domain with
  | Some dom => changed dom s
  | None => foldl (fun s dom => changed dom (with_ansn (_ansn s) (_update_ansn s || false) s)) s domain_list
  end.

Definition domain_update (dom : nat) (s : routing_state) : routing_state :=
  olsrv2_routing_trigger_update (with_changed (<[dom := true]> (_domain_changed s)) (with_ansn (_ansn s) true s)).
Definition _cb_mpr_update (domain : option nat) (s : routing_state) : routing_state :=
  match domain with Some dom => domain_update dom s | None => foldl (fun s dom => domain_update dom s) s domain_list end.
Definition _cb_metric_update (domain : option nat) (s : routing_state) : routing_state :=
  match domain with Some dom => domain_update dom s | None => foldl (fun s dom => domain_update dom s) s domain_list end.

(** ** The update *)

Fixpoint update_domains (doms : list nat) (s : routing_state) : outcome routing_state :=
  match doms with
  | [] => Def s
  | dom :: doms =>
      ch ← (match _domain_changed s !! dom with Some b => Def b | None => Undef UB_read end);
      if negb ch then update_domains doms s
      else
        let s := with_changed (<[dom := false]> (_domain_changed s)) s in
        t ← get_tree dom (kernel s);
        st ← domain_dijkstra dom {| nodes := dijkstra_nodes s; working_tree := []; routing_tree := t |};
        par ← (match _domain_parameter s !! dom with Some p => Def p | None => Undef UB_read end);
        k ← _process_dijkstra_result dom par (put_tree dom (routing_tree st) (kernel s));
        update_domains doms (with_nodes (nodes st) (with_kernel k s))
  end.

Definition olsrv2_routing_force_update (skip_wait : bool) (s : routing_state) : outcome routing_state :=
  if _initiate_shutdown s || _freeze_routes s then Def s
  else
    match _rate_limit_timer s, skip_wait with
    | Some t, false => Def (with_timer (Some t) true s)
    | _, _ =>
        let s := with_timer None (_trigger_dijkstra s) s in
        let s := if _update_ansn s then with_ansn (u16 (_ansn s + 1)) false s else s in
        s ← update_domains domain_list s;
        k ← _process_kernel_queue (kernel s);
        let s := with_kernel k s in
        Def (with_timer (Some OLSRv2_DIJKSTRA_RATE_LIMITATION) (_trigger_dijkstra s) s)
    end.

(** The rate limitation timer fires: it is not active any more. *)
Definition _cb_trigger_dijkstra (s : routing_state) : outcome routing_state :=
  let s := with_timer None (_trigger_dijkstra s) s in
  if _trigger_dijkstra s then olsrv2_routing_force_update false (with_timer None false s) else Def s.

(** ** Parameters and shutdown *)

Fixpoint remove_routes (dom : nat) (keys : list os_route_key) (k : kernel_state) : outcome kernel_state :=
  match keys with
  | [] => Def k
  | key :: keys =>
      e ← get_entry (dom, key) k;
      if rt_set e then
        let k := write_entry (dom, key) (with_route (route e) false e) k in
        k ← (if in_processing e then
               k ← os_routing_interrupt (dom, key) k;
               e ← get_entry (dom, key) k;
               Def (write_entry (dom, key) (with_route (route e) false e) k)
             else Def k);
        e ← get_entry (dom, key) k;
        remove_routes dom keys (set_queue (_add_route_to_kernel_queue (dom, key) e (_kernel_queue k)) k)
      else remove_routes dom keys k
  end.

Definition olsrv2_routing_set_domain_parameter (dom : nat) (parameter : olsrv2_routing_domain) (s : routing_state) : outcome routing_state :=
  match _domain_parameter s !! dom with
  | None => Undef UB_read
  | Some old =>
      if bool_decide (parameter = old) then Def s
      else
        let s := with_parameter (<[dom := parameter]> (_domain_parameter s)) s in
        t ← get_tree dom (kernel s);
        match t with
        | [] => Def s
        | _ =>
            k ← remove_routes dom (map rt_key t) (kernel s);
            k ← _process_kernel_queue k;
            Def (with_timer (Some 100) true (with_kernel k s))
        end
  end.

(** An interrupt without callback leaves [in_processing] alone. *)
Fixpoint shutdown_routes (dom : nat) (keys : list os_route_key) (k : kernel_state) : outcome kernel_state :=
  match keys with
  | [] => Def k
  | key :: keys =>
      let k := stop_waiting (dom, key) k in
      e ← get_entry (dom, key) k;
      if rt_set e then
        let e := with_route (route e) false e in
        shutdown_routes dom keys (set_queue (_add_route_to_kernel_queue (dom, key) e (_kernel_queue k)) (write_entry (dom, key) e k))
      else shutdown_routes dom keys k
  end.
Fixpoint shutdown_domains (doms : list nat) (k : kernel_state) : outcome kernel_state :=
  match doms with
  | [] => Def k
  | dom :: doms => t ← get_tree dom k; k ← shutdown_routes dom (map rt_key t) k; shutdown_domains doms k
  end.
Definition olsrv2_routing_initiate_shutdown (s : routing_state) : outcome routing_state :=
  let s := with_freeze true false s in
  k ← shutdown_domains (seq 0 NHDP_MAXIMUM_DOMAINS) (kernel s);
  k ← _process_kernel_queue k;
  Def (with_kernel k s).
End update.
