(* ===== verification/RoutingCheapest.v ===== *)
(** The routes of a domain after its Dijkstra runs and the routes of NHDP
    (src/olsrv2/olsrv2/olsrv2_routing.c): every entry of the routing set shows
    the cheapest route that the runs and NHDP know. *)

From Stdlib Require Import ZArith Lia Sorted.
From stdpp Require Import base list numbers option gmap sets.
From S2P Require Import Prelude AvlSpec Netaddr NetaddrAcl MprSelection NhdpDb MprFlooding RoutingSet OsRouting Dijkstra DijkstraRun RoutingUpdate.

Local Open Scope Z_scope.
Local Open Scope cint_scope.

Section nhdp.
Context (env : olsrv2_env) (db : nhdp_db) (dom : nat).

(** ** The routes of NHDP *)

(** The neighbor [h] can be used at the cost of its metric. *)
Definition usable_neigh (h : nat) (neigh : nhdp_neighbor) (cost : Z) : Prop := exists d,
  _neigh_list db !! h = Some neigh /\ symmetric neigh <> 0 /\ nhdp_domain_get_neighbordata dom neigh = Def d /\
  cost = m_out (nd_metric d) /\ cost <= RFC7181_METRIC_MAX.

Definition direct_offer (h : nat) (neigh : nhdp_neighbor) (cost : Z) (a : netaddr) : route_offer :=
  let orig := default NETADDR_UNSPEC (olsrv2_originator_get env (na_type (originator neigh))) in
  {| dst_prefix := os_routing_init_sourcespec_prefix a; dst_originator := orig; o_first_hop := h; o_distance := 0;
     pathcost := cost; path_hops := 1; single_hop := true; last_originator := orig |}.
Definition twohop_offer (h : nat) (neigh : nhdp_neighbor) (cost : Z) (a : netaddr) : route_offer :=
  {| dst_prefix := os_routing_init_sourcespec_prefix a; dst_originator := NETADDR_UNSPEC; o_first_hop := h; o_distance := 0;
     pathcost := cost; path_hops := 2; single_hop := false; last_originator := originator neigh |}.

(** The routes that NHDP offers over a neighbor: to its own addresses, and to the
    two-hop neighbors of its links whose validity timer does not run. These are
    the ones for which [nhdp_db_2hop_is_lost] is false, although the comment in
    [_handle_nhdp_routes] means to leave out the lost ones: a two-hop neighbor
    with a running timer gives no route here (finding [valid_twohops_skipped]). *)
Inductive neigh_route (h : nat) (neigh : nhdp_neighbor) (cost : Z) : route_offer -> Prop :=
  | neigh_direct a : a ∈ _neigh_addresses neigh -> olsrv2_is_nhdp_routable env a = Def true ->
      neigh_route h neigh cost (direct_offer h neigh cost a)
  | neigh_expired_twohop l lnk t m : l ∈ _links neigh -> _link_list db !! l = Some lnk -> t ∈ _2hop lnk -> l2_vtime_active t = false ->
      nhdp_domain_get_l2hopdata dom t = Def m -> m_out m <= RFC7181_METRIC_MAX ->
      neigh_route h neigh cost (twohop_offer h neigh (m_out m + cost) (twohop_addr t)).

Definition nhdp_route (o : route_offer) : Prop := exists h neigh cost, usable_neigh h neigh cost /\ neigh_route h neigh cost o.

Record nhdp_env_ok : Prop := {
  ne_lan lan : lan ∈ _lan_tree env -> is_Some (lan_domaindata lan !! dom);
  ne_hop h neigh d : _neigh_list db !! h = Some neigh -> nhdp_domain_get_neighbordata dom neigh = Def d ->
    m_out (nd_metric d) <= RFC7181_METRIC_MAX -> exists l, best_out_link d = Some l /\ (l < length (_link_list db))%nat;
  ne_addr h neigh a : _neigh_list db !! h = Some neigh -> a ∈ _neigh_addresses neigh ->
    is_Some (olsrv2_originator_get env (na_type a)) /\ is_def (olsrv2_is_routable env a);
  ne_twohop l lnk t : _link_list db !! l = Some lnk -> t ∈ _2hop lnk ->
    is_Some (olsrv2_originator_get env (na_type (twohop_addr t))) /\ is_def (olsrv2_is_routable env (twohop_addr t));
}.

Context (Hdb : db_ok db) (Hdom : (dom < NHDP_MAXIMUM_DOMAINS)%nat) (Henv : nhdp_env_ok).

(** A loop offers what the relation [P] says. *)
Definition offers_loop (loop : list olsrv2_routing_entry -> outcome (list olsrv2_routing_entry)) (P : route_offer -> Prop) : Prop :=
  exists os, (forall rt, loop rt = update_all env db dom os rt) /\ forall o, o ∈ os <-> P o.

Lemma offers_loop_nil P : (forall o, ~ P o) -> offers_loop Def P.
Proof. intros HP. exists []. split; [done|]. intros o. split; [by intros ?%elem_of_nil|intros Ho; by destruct (HP o)]. Qed.

Lemma offers_loop_ext l1 l2 (P1 P2 : route_offer -> Prop) : offers_loop l1 P1 -> (forall rt, l2 rt = l1 rt) -> (forall o, P1 o <-> P2 o) ->
  offers_loop l2 P2.
Proof. intros (os & H1 & H2) Hl HP. exists os. split; [intros rt; by rewrite Hl|]. intros o. by rewrite H2. Qed.

Lemma offers_loop_seq l1 l2 P1 P2 : offers_loop l1 P1 -> offers_loop l2 P2 -> offers_loop (fun rt => rt ← l1 rt; l2 rt) (fun o => P1 o \/ P2 o).
Proof.
  intros (os1 & A1 & B1) (os2 & A2 & B2). exists (os1 ++ os2). split.
  - intros rt. rewrite update_all_app, A1. destruct (update_all env db dom os1 rt); simpl; [apply A2|done].
  - intros o. by rewrite elem_of_app, B1, B2.
Qed.

Lemma offers_loop_one o : offers_loop (_update_routing_entry env db dom o) (fun o' => o' = o).
Proof.
  exists [o]. split; [|intros o'; apply list_elem_of_singleton]. intros rt. simpl.
  by destruct (_update_routing_entry env db dom o rt).
Qed.

Lemma addresses_ok h neigh cost addrs : (forall a, a ∈ addrs -> is_def (olsrv2_is_routable env a)) ->
  offers_loop (nhdp_addresses env db dom h neigh cost addrs)
    (fun o => exists a, a ∈ addrs /\ olsrv2_is_nhdp_routable env a = Def true /\ o = direct_offer h neigh cost a).
Proof.
  induction addrs as [|a addrs IH]; intros Ha; simpl; [apply offers_loop_nil; by intros o (a & ?%elem_of_nil & _)|].
  specialize (IH ltac:(intros; apply Ha; by right)).
  assert (is_def (olsrv2_is_nhdp_routable env a)) as [r Er].
  { unfold olsrv2_is_nhdp_routable. destruct (nhdp_routable env); [apply Ha; by left|by eexists]. }
  rewrite Er. simpl. destruct r; simpl.
  - eapply offers_loop_ext; [apply offers_loop_seq; [apply offers_loop_one|exact IH]|done|]. intros o. simpl. split.
    + intros [->|(a' & Ha' & H)]; [exists a|exists a']; set_solver.
    + intros (a' & [->|Ha']%elem_of_cons & H & ->); [by left|right; eauto].
  - eapply offers_loop_ext; [exact IH|done|]. intros o. split; intros (a' & Ha' & H & ->).
    + exists a'. split; [by right|done].
    + apply elem_of_cons in Ha' as [->|Ha']; [congruence|eauto].
Qed.

Lemma twohops_ok h neigh cost ts : 0 <= cost <= RFC7181_METRIC_MAX ->
  Forall (fun t => exists m, nhdp_domain_get_l2hopdata dom t = Def m /\ metric_ok m) ts ->
  offers_loop (nhdp_twohops env db dom h neigh cost ts)
    (fun o => exists t m, t ∈ ts /\ nhdp_db_2hop_is_lost t = false /\ nhdp_domain_get_l2hopdata dom t = Def m /\
      m_out m <= RFC7181_METRIC_MAX /\ o = twohop_offer h neigh (m_out m + cost) (twohop_addr t)).
Proof.
  intros Hcost. induction ts as [|t ts IH]; intros Hts; simpl; [apply offers_loop_nil; by intros o (t & m & ?%elem_of_nil & _)|].
  apply Forall_cons in Hts as [(m & Em & [_ Hm]) Hts]. specialize (IH Hts).
  assert ((nhdp_db_2hop_is_lost t = true \/ RFC7181_METRIC_MAX < m_out m) -> forall o,
    (exists t m, t ∈ ts /\ nhdp_db_2hop_is_lost t = false /\ nhdp_domain_get_l2hopdata dom t = Def m /\
      m_out m <= RFC7181_METRIC_MAX /\ o = twohop_offer h neigh (m_out m + cost) (twohop_addr t)) <->
    (exists t' m, t' ∈ t :: ts /\ nhdp_db_2hop_is_lost t' = false /\ nhdp_domain_get_l2hopdata dom t' = Def m /\
      m_out m <= RFC7181_METRIC_MAX /\ o = twohop_offer h neigh (m_out m + cost) (twohop_addr t'))) as Hskip.
  { intros Hs o. split; intros (t' & m' & Ht & Hl & Em' & Hm' & ->); exists t', m'; split_and!; try done; [by right|].
    apply elem_of_cons in Ht as [->|Ht]; [|done]. exfalso. rewrite Em in Em'. injection Em' as <-. destruct Hs; [congruence|lia]. }
  destruct (nhdp_db_2hop_is_lost t) eqn:El; [eapply offers_loop_ext; [exact IH|done|apply Hskip; by left]|].
  rewrite Em. simpl. destruct (Z.ltb_spec RFC7181_METRIC_MAX (m_out m)) as [Hmax|Hmax].
  { eapply offers_loop_ext; [exact IH|done|apply Hskip; by right]. }
  rewrite u32_small by (unfold RFC7181_METRIC_MAX in *; lia).
  eapply offers_loop_ext; [apply offers_loop_seq; [apply (offers_loop_one (twohop_offer h neigh (m_out m + cost) (twohop_addr t)))|exact IH]|done|].
  intros o. simpl. split.
  - intros [->|(t' & m' & Ht & H)]; [exists t, m|exists t', m']; set_solver.
  - intros (t' & m' & [->|Ht]%elem_of_cons & Hl & Em' & Hm' & ->); [left; congruence|right; exists t', m'; done].
Qed.

Lemma links_ok h neigh cost links : 0 <= cost <= RFC7181_METRIC_MAX -> Forall (fun l => (l < length (_link_list db))%nat) links ->
  offers_loop (nhdp_links env db dom h neigh cost links)
    (fun o => exists l lnk t m, l ∈ links /\ _link_list db !! l = Some lnk /\ t ∈ _2hop lnk /\ nhdp_db_2hop_is_lost t = false /\
      nhdp_domain_get_l2hopdata dom t = Def m /\ m_out m <= RFC7181_METRIC_MAX /\ o = twohop_offer h neigh (m_out m + cost) (twohop_addr t)).
Proof.
  intros Hcost. induction links as [|l links IH]; intros Hls; simpl; [apply offers_loop_nil; by intros o (l & lnk & t & m & ?%elem_of_nil & _)|].
  apply Forall_cons in Hls as [Hl Hls]. destruct (get_link_ok db l Hl) as (lnk & El & ->). simpl.
  eapply offers_loop_ext; [apply offers_loop_seq; [apply (twohops_ok h neigh cost (_2hop lnk) Hcost)|exact (IH Hls)]|done|].
  - pose proof (lo_2hops _ _ _ (db_links _ Hdb _ _ El)) as H2. eapply Forall_impl; [exact H2|]. intros t Ht. by apply (l2hopdata_ok dom Hdom l).
  - intros o. split.
    + intros [(t & m & H)|(l' & lnk' & t & m & Hl' & H)]; [exists l, lnk, t, m; set_solver|exists l', lnk', t, m; set_solver].
    + intros (l' & lnk' & t & m & [->|Hl']%elem_of_cons & El' & H); [|right; by exists l', lnk', t, m].
      left. rewrite El in El'. injection El' as <-. by exists t, m.
Qed.

Lemma neighs_ok hs : Forall (fun h => (h < length (_neigh_list db))%nat) hs ->
  offers_loop (nhdp_neighs env db dom hs) (fun o => exists h neigh cost, h ∈ hs /\ usable_neigh h neigh cost /\ neigh_route h neigh cost o).
Proof.
  induction hs as [|h hs IH]; intros Hhs; simpl; [apply offers_loop_nil; by intros o (h & neigh & cost & ?%elem_of_nil & _)|].
  apply Forall_cons in Hhs as [Hh Hhs]. specialize (IH Hhs). destruct (get_neigh_ok db h Hh) as (neigh & En & ->). simpl.
  pose proof (db_neighs _ Hdb _ _ En) as Hn. destruct (neighbordata_ok dom Hdom db neigh Hn) as (d & Ed & [_ Hm]). rewrite Ed. simpl.
  assert (forall neigh' cost, usable_neigh h neigh' cost ->
    neigh' = neigh /\ cost = m_out (nd_metric d) /\ symmetric neigh <> 0 /\ cost <= RFC7181_METRIC_MAX) as Huse.
  { intros neigh' cost (d' & En' & Hs & Ed' & Hc & Hmax). rewrite En in En'. injection En' as <-. rewrite Ed in Ed'. by injection Ed' as <-. }
  destruct ((symmetric neigh =? 0) || (RFC7181_METRIC_MAX <? m_out (nd_metric d))) eqn:Es.
  { eapply offers_loop_ext; [exact IH|done|]. intros o. split.
    - intros (h' & neigh' & cost & Hh' & H). exists h', neigh', cost. set_solver.
    - intros (h' & neigh' & cost & [->|Hh']%elem_of_cons & Hu & H); [|by exists h', neigh', cost]. exfalso.
      apply Huse in Hu as (-> & -> & Hs & Hmax). apply orb_true_iff in Es as [Es|Es]; [apply Z.eqb_eq in Es|apply Z.ltb_lt in Es]; lia. }
  apply orb_false_iff in Es as [Hs%Z.eqb_neq Hmax%Z.ltb_ge].
  assert (usable_neigh h neigh (m_out (nd_metric d))) as Hu by (by exists d).
  eapply offers_loop_ext; [apply offers_loop_seq; [|apply offers_loop_seq; [|exact IH]]|done|].
  - apply (addresses_ok h neigh (m_out (nd_metric d)) (_neigh_addresses neigh)). intros a Ha. by apply (ne_addr Henv h neigh).
  - apply (links_ok h neigh (m_out (nd_metric d)) (_links neigh)); [lia|apply (no_links _ _ Hn)].
  - intros o. split.
    + intros [(a & Ha & Hr & ->)|[(l & lnk & t & m & Hl & Elk & Ht & Hlost & Em & Hmm & ->)|(h' & neigh' & cost & Hh' & H)]].
      * exists h, neigh, (m_out (nd_metric d)). split; [by left|]. split; [done|]. by apply neigh_direct.
      * exists h, neigh, (m_out (nd_metric d)). split; [by left|]. split; [done|]. by apply (neigh_expired_twohop _ _ _ l lnk).
      * exists h', neigh', cost. set_solver.
    + intros (h' & neigh' & cost & [->|Hh']%elem_of_cons & Hu' & H); [|right; right; by exists h', neigh', cost].
      apply Huse in Hu' as (-> & -> & _). destruct H as [a Ha Hr|l lnk t m Hl Elk Ht Hlost Em Hmm]; [left; by exists a|].
      right. left. by exists l, lnk, t, m.
Qed.

Lemma handle_nhdp_ok : offers_loop (_handle_nhdp_routes env db dom) nhdp_route.
Proof.
  eapply offers_loop_ext; [apply (neighs_ok (seq 0 (length (_neigh_list db))))|done|].
  - apply Forall_forall. intros h [_ ?]%elem_of_seq. lia.
  - intros o. split; [by intros (h & neigh & cost & _ & H); exists h, neigh, cost|].
    intros (h & neigh & cost & Hu & H). exists h, neigh, cost. split; [|done]. destruct Hu as (d & En & _). apply elem_of_seq.
    apply lookup_lt_Some in En. lia.
Qed.

Lemma nhdp_route_ok o : nhdp_route o -> offer_ok env db dom o.
Proof.
  intros (h & neigh & cost & (d & En & _ & Ed & -> & Hmax) & Hr).
  assert (exists a, dst_prefix o = os_routing_init_sourcespec_prefix a /\ o_first_hop o = h /\
    is_Some (olsrv2_originator_get env (na_type a)) /\ is_def (olsrv2_is_routable env a)) as (a & Ek & Eh & [orig Eo] & Ha).
  { destruct Hr as [a Ha _|l lnk t m Hl Elk Ht _ _ _]; [exists a|exists (twohop_addr t)]; (split; [done|]; split; [done|]).
    - by apply (ne_addr Henv h neigh).
    - by apply (ne_twohop Henv l lnk). }
  split; [|split].
  - unfold is_local_destination. rewrite Ek. simpl. rewrite Eo. destruct (_ =? 0); [by eexists|]. case_bool_decide; [by eexists|].
    destruct (olsrv2_lan_get env _) as [lan|] eqn:El; [|by eexists]. apply tree_find_sound in El as [El _].
    destruct (ne_lan Henv lan El) as [ld Eld]. unfold olsrv2_lan_get_domaindata. rewrite Eld. by eexists.
  - by rewrite Ek.
  - destruct (ne_hop Henv _ _ _ En Ed Hmax) as (l & El & Hl). destruct (get_link_ok db l Hl) as (lnk & _ & Elnk).
    unfold hop_of, get_neigh. rewrite Eh, En. simpl. rewrite Ed. simpl. rewrite El, Elnk. by eexists.
Qed.
End nhdp.

(** ** All routes of a domain *)

Section domain.
Context (env : olsrv2_env) (db : nhdp_db) (topo : topology) (dom : nat).

(** The routes of a run over all destinations, over source-specific ones. *)
Definition run_route (af : Z) (use_non_ss use_ss : bool) : route_offer -> Prop :=
  sound db topo dom af use_non_ss use_ss (is_local_target env topo).

(** [s4] and [s6] say which families have a source-specific sub-topology. For
    such a family the first run leaves out the source-specific networks, and the
    second run, which is to add them, writes only those with a single
    attachment ([written], finding [ss_run_single]). *)
Definition domain_route (s4 s6 : bool) (o : route_offer) : Prop :=
  run_route AF_INET true (negb s4) o \/ run_route AF_INET6 true (negb s6) o \/
  (s4 = true /\ run_route AF_INET false true o) \/ (s6 = true /\ run_route AF_INET6 false true o) \/ nhdp_route env db dom o.

(** Every node knows for every domain whether it has source-specific networks. *)
Definition split_ok : Prop := forall t x n, t ∈ _tc_tree topo -> targets topo !! t = Some x -> object x = inl n ->
  is_Some (ss_attached_networks n !! dom).

Context (Htopo : topo_ok topo dom) (Htrees : trees_ok topo) (Hfam : families_ok topo) (Hdb : db_ok db) (Hsplit : split_ok).
Context (Hdom : (dom < NHDP_MAXIMUM_DOMAINS)%nat) (Henv : routes_env_ok env db topo dom) (Hnhdp : nhdp_env_ok env db dom).
Context (K : Z) (HK : metrics_bounded db topo dom K).

Lemma check_split_ok af : is_def (_check_ssnode_split topo dom af).
Proof.
  unfold _check_ssnode_split.
  assert (forall ts ss full pre, Forall (fun t => t ∈ _tc_tree topo) ts -> is_def (ssnode_count topo dom ts af ss full pre)) as Hc.
  { induction ts as [|t ts IH]; intros ss full pre Hts; simpl; [by eexists|]. apply Forall_cons in Hts as [Ht Hts].
    destruct (to_tree _ _ Htopo t Ht) as (x & n & Ex & En). unfold get_target, tc_node_of. rewrite Ex. simpl. rewrite En. simpl.
    destruct (Hsplit t x n Ht Ex En) as [b ->]. simpl. by apply IH. }
  destruct (Hc (_tc_tree topo) 0 0 false) as [[[ss full] pre] ->]; [by apply Forall_forall|]. by eexists.
Qed.

Lemma run_route_ok af ns ss o : run_route af ns ss o -> offer_ok env db dom o.
Proof. by eapply sound_ok. Qed.

Lemma domain_route_ok s4 s6 o : domain_route s4 s6 o -> offer_ok env db dom o.
Proof.
  intros [H|[H|[[_ H]|[[_ H]|H]]]]; [by eapply run_route_ok..|]. by eapply nhdp_route_ok.
Qed.

(** A chain of runs: no undefined behaviour, and the offers [os] so far. *)
Definition chain (busy : Z -> Prop) (rt0 : list olsrv2_routing_entry) (R : route_offer -> Prop) (st : run_state) : Prop :=
  ready env topo busy st /\ exists os, routes_follow env db dom rt0 os (routing_tree st) /\ covers R os.

Lemma chain_run busy rt0 R st af ns ss : chain busy rt0 R st -> ~ busy af -> af = AF_INET \/ af = AF_INET6 -> prepared rt0 ->
  exists st', _run_dijkstra env db topo dom af ns ss st = Def st' /\
    chain (fun f => busy f \/ f = af) rt0 (fun o => R o \/ run_route af ns ss o) st'.
Proof.
  intros (Hr & os & Hf & Hc) Hb Haf Hrt0.
  destruct (run_ready_next env db topo dom Htopo Hfam Hdb Hdom Henv K HK busy st rt0 os af ns ss Hr Hb) as (st' & os' & E & Hr' & Hf' & Hc');
    [destruct Haf as [->| ->]; apply (eo_originator _ _ _ _ Henv)|done|done|].
  exists st'. split; [done|]. split; [done|]. exists (os ++ os'). split; [done|]. by apply covers_app.
Qed.

Lemma chain_prepare busy rt0 R st : chain busy rt0 R st -> chain (fun _ => False) rt0 R (_prepare_nodes env topo st).
Proof. intros (Hr & H). split; [|done]. apply prepare_ready; [done|]. by eapply ready_idle. Qed.

Lemma chain_ext busy rt0 (R1 R2 : route_offer -> Prop) st : (forall o, R1 o <-> R2 o) -> chain busy rt0 R1 st -> chain busy rt0 R2 st.
Proof. intros HR (Hr & os & Hf & Hc). split; [done|]. exists os. split; [done|]. by eapply covers_ext. Qed.

(** A run that is only done when [b] holds. *)
Lemma chain_run_if (b : bool) busy rt0 R st af ns ss : chain busy rt0 R st -> ~ busy af -> af = AF_INET \/ af = AF_INET6 -> prepared rt0 ->
  exists st', (if b then _run_dijkstra env db topo dom af ns ss st else Def st) = Def st' /\
    exists busy', (forall f, busy' f -> busy f \/ f = af) /\ chain busy' rt0 (fun o => R o \/ (b = true /\ run_route af ns ss o)) st'.
Proof.
  intros Hc Hb Haf Hrt0. destruct b.
  - destruct (chain_run busy rt0 R st af ns ss Hc Hb Haf Hrt0) as (st' & E & Hc'). exists st'. split; [done|].
    eexists. split; [|eapply chain_ext; [|exact Hc']]; [done|]. intros o. tauto.
  - exists st. split; [done|]. exists busy. split; [auto|]. eapply chain_ext; [|exact Hc]. intros o. split; [auto|]. intros [|[? _]]; done.
Qed.

(** The runs of a domain and the routes of NHDP, one after the other. *)
Lemma domain_dijkstra_follow st : idle topo st -> tree_strict rt_key os_routing_avl_cmp_route_key (routing_tree st) ->
  exists st' s4 s6 os, domain_dijkstra env db topo dom st = Def st' /\
    _check_ssnode_split topo dom AF_INET = Def s4 /\ _check_ssnode_split topo dom AF_INET6 = Def s6 /\ idle topo st' /\
    routes_follow env db dom (_prepare_routes (routing_tree st)) os (routing_tree st') /\ covers (domain_route s4 s6) os.
Proof.
  intros Hi Hs. set (rt0 := _prepare_routes (routing_tree st)). assert (prepared rt0) as Hrt0 by (by apply prepare_prepared).
  destruct (check_split_ok AF_INET) as [s4 E4], (check_split_ok AF_INET6) as [s6 E6].
  set (st0 := _prepare_nodes env topo {| nodes := nodes st; working_tree := working_tree st; routing_tree := rt0 |}).
  assert (chain (fun _ => False) rt0 (fun _ => False) st0) as C0.
  { split; [apply prepare_ready; [done|]; by destruct Hi|]. exists []. split; [by apply routes_follow_init; apply Hrt0|apply covers_nil]. }
  destruct (chain_run _ rt0 _ st0 AF_INET true (negb s4) C0) as (st1 & R1 & C1); [by intros []|by left|done|].
  destruct (chain_run _ rt0 _ st1 AF_INET6 true (negb s6) C1) as (st2 & R2 & C2); [by intros [[]|]|by right|done|].
  assert (exists st3 busy, (if s4 || s6 then
      st ← (if s4 then _run_dijkstra env db topo dom AF_INET false true (_prepare_nodes env topo st2) else Def (_prepare_nodes env topo st2));
      (if s6 then _run_dijkstra env db topo dom AF_INET6 false true st else Def st) else Def st2) = Def st3 /\
    chain busy rt0 (fun o => run_route AF_INET true (negb s4) o \/ run_route AF_INET6 true (negb s6) o \/
      (s4 = true /\ run_route AF_INET false true o) \/ (s6 = true /\ run_route AF_INET6 false true o)) st3) as (st3 & busy & R3 & C3).
  { destruct (s4 || s6) eqn:Es.
    - destruct (chain_run_if s4 _ rt0 _ _ AF_INET false true (chain_prepare _ _ _ _ C2)) as (st3 & R3 & busy & Hb & C3); [by intros []|by left|done|].
      destruct (chain_run_if s6 _ rt0 _ _ AF_INET6 false true C3) as (st4 & R4 & busy' & _ & C4); [by intros [[]|]%Hb|by right|done|].
      exists st4, busy'. rewrite R3. simpl. split; [done|]. eapply chain_ext; [|exact C4]. intros o. simpl. tauto.
    - apply orb_false_iff in Es as [-> ->]. eexists st2, _. split; [done|]. eapply chain_ext; [|exact C2]. intros o. simpl.
      split; [tauto|]. intros [|[|[[? _]|[? _]]]]; try done; auto. }
  destruct C3 as (Hr3 & os & Hf & Hc). destruct (handle_nhdp_ok env db dom Hdb Hdom Hnhdp) as (osn & Hn & Hos).
  destruct (update_all_follow env db dom rt0 os (routing_tree st3) osn Hrt0 Hf) as (rt & Ert & Hfrt).
  { apply Forall_forall. intros o Ho. eapply nhdp_route_ok; [exact Hnhdp|]. by apply Hos. }
  exists {| nodes := nodes st3; working_tree := working_tree st3; routing_tree := rt |}, s4, s6, (os ++ osn). split.
  { unfold domain_dijkstra. cbv zeta. fold rt0. fold st0. rewrite E4. simpl. rewrite R1. simpl. rewrite E6. simpl. rewrite R2. simpl.
    rewrite R3. simpl. rewrite Hn, Ert. done. }
  split; [done|]. split; [done|]. split; [by destruct (ready_idle _ _ _ _ Hr3)|]. split; [exact Hfrt|].
  eapply covers_ext; [|apply covers_app; [exact Hc|]].
  - intros o. instantiate (1 := nhdp_route env db dom). unfold domain_route. tauto.
  - split; [apply Forall_forall; intros o; apply Hos|]. intros o Ho. exists o. split; [by apply Hos|done].
Qed.

(** C3: The routes of a domain after an update are the cheapest of those that the
    code looks at. The Dijkstra runs of both address families, with the
    additional runs over the source-specific sub-topologies where there are
    some, and the routes of NHDP end without undefined behaviour; for every
    destination [k] (with memory for its entry) that a path of a run or NHDP
    reaches by an acceptable route, the entry of [k] shows such a route with its
    gateway, interface and cost, and no acceptable route to [k] of any run or of
    NHDP is cheaper; its processing flag and old route are kept. For all others
    the entry is left reset. The routes that count ([domain_route]) are less
    than the comments of the code promise in two places, which are findings of
    their own: of the two-hop neighbors of NHDP only those whose validity timer
    does not run give a route, so that a valid two-hop neighbor never makes an
    entry cheaper, and a run for source-specific destinations only writes
    networks with a single attachment. *)
Theorem domain_dijkstra_cheapest st : idle topo st -> tree_strict rt_key os_routing_avl_cmp_route_key (routing_tree st) ->
  exists st' s4 s6, domain_dijkstra env db topo dom st = Def st' /\
    _check_ssnode_split topo dom AF_INET = Def s4 /\ _check_ssnode_split topo dom AF_INET6 = Def s6 /\
    idle topo st' /\ tree_strict rt_key os_routing_avl_cmp_route_key (routing_tree st') /\
    forall k, has_memory env k (_prepare_routes (routing_tree st)) ->
      cheapest env db dom (domain_route s4 s6) (_prepare_routes (routing_tree st)) (routing_tree st') k.
Proof.
  intros Hi Hs. destruct (domain_dijkstra_follow st Hi Hs) as (st' & s4 & s6 & os & E & E4 & E6 & Hi' & Hf & Hc).
  exists st', s4, s6. do 4 (split; [done|]). split; [apply Hf|]. intros k Hm.
  apply (covers_cheapest env db dom _ _ os); [by apply domain_route_ok|done|done|done].
Qed.
End domain.

(** ** Witness *)

Lemma ex_split_ok : split_ok ex_topo 0.
Proof.
  intros t x n _ E En. six_targets t E; simpl in En; try done; injection En as <-; by eexists.
Qed.

Lemma ex_nhdp_env_ok : nhdp_env_ok ex_env ex_db 0.
Proof.
  split.
  - by intros lan ?%elem_of_nil.
  - apply ex_env_ok.
  - intros h neigh a E Ha. destruct h as [|[|h]]; simpl in E; [..|by destruct h]; injection E as <-; simpl in Ha; set_unfold in Ha;
      destruct Ha as [->|[]]; (split; eexists; reflexivity).
  - intros l lnk t E Ht. destruct l as [|[|l]]; simpl in E; [..|by destruct l]; injection E as <-; simpl in Ht; set_unfold in Ht;
      repeat (destruct Ht as [->|Ht]; [split; eexists; reflexivity|]); try done; subst; (split; eexists; reflexivity).
Qed.

(** The network at two nodes gets the route of the cheaper attachment, and an
    entry without route stays reset. *)
Definition ex_old : olsrv2_routing_entry := new_entry (ex_key (ex_prefix 77 24)).
Definition ex_state1 : run_state := {| nodes := nodes ex_state; working_tree := []; routing_tree := [ex_old] |}.

Lemma domain_dijkstra_cheapest_witness : exists st' e,
  domain_dijkstra ex_env ex_db ex_topo 0 ex_state1 = Def st' /\
  find_entry (ex_key (ex_prefix 5 16)) (routing_tree st') = Some e /\
  rt_path_cost e = 612 /\ rp_metric (route e) = 2 /\ gw (route e) = ex_addr 101 /\
  forall o', route_to ex_env 0 (domain_route ex_env ex_db ex_topo 0 false false) (ex_key (ex_prefix 5 16)) o' -> 612 <= pathcost o'.
Proof.
  destruct (domain_dijkstra_cheapest ex_env ex_db ex_topo 0 ex_topo_ok ex_trees_ok ex_families_ok ex_db_ok ex_split_ok
    ltac:(unfold NHDP_MAXIMUM_DOMAINS; lia) ex_env_ok ex_nhdp_env_ok RFC7181_METRIC_MAX ex_metrics) with (st := ex_state1)
    as (st' & s4 & s6 & E & E4 & E6 & _ & _ & H).
  - destruct ex_state_idle. by split.
  - repeat constructor.
  - assert (s4 = false) as -> by (vm_compute in E4; congruence). assert (s6 = false) as -> by (vm_compute in E6; congruence).
    destruct (H (ex_key (ex_prefix 5 16)) ltac:(by right)) as [H1 _].
    pose proof E as E'. vm_compute in E'. injection E' as <-. eexists _, _. split; [exact E|]. split; [vm_compute; reflexivity|].
    split; [reflexivity|]. split; [reflexivity|]. split; [reflexivity|].
    intros o' Ho'. destruct H1 as (e & o & Ee & _ & _ & _ & Hmin); [by exists o'|].
    vm_compute in Ee. injection Ee as <-. by apply (Hmin o').
Defined.
