(* ===== verification/RoutingKernel.v ===== *)
(** The kernel queue of src/olsrv2/olsrv2/olsrv2_routing.c: the order in which
    changed routes are sent, what is sent, and what the answers do. *)

From Stdlib Require Import ZArith Lia Sorted.
From stdpp Require Import base list numbers option gmap sets.
From S2P Require Import Prelude AvlSpec Netaddr NetaddrAcl MprSelection NhdpDb MprFlooding RoutingSet OsRouting Dijkstra DijkstraRun RoutingUpdate.

Local Open Scope Z_scope.
Local Open Scope cint_scope.

Notation rt_strict := (tree_strict rt_key os_routing_avl_cmp_route_key).

(** ** The order of the queue *)

(** Single-hop routes that are set and multi-hop routes that are removed. *)
Definition early (e : olsrv2_routing_entry) : bool := Bool.eqb (rt_set e) (na_type (gw (route e)) =? AF_UNSPEC).

Lemma add_route_early p e q : _add_route_to_kernel_queue p e q = if early e then p :: q else q ++ [p].
Proof. unfold _add_route_to_kernel_queue, early. by destruct (rt_set e), (_ =? _). Qed.

Section result.
Context (env : olsrv2_env) (filters : list (nat -> os_route_parameter -> bool -> os_route_parameter * bool)).
Context (dom : nat) (par : olsrv2_routing_domain).
Context (Hlan : forall lan, lan ∈ _lan_tree env -> is_Some (lan_domaindata lan !! dom)).

Lemma process_entry_def e : is_def (process_entry env filters dom par e).
Proof.
  unfold process_entry. cbv zeta. destruct (olsrv2_lan_get env _) as [lan|] eqn:El; [|by eexists].
  apply tree_find_sound in El as [El _]. destruct (Hlan lan El) as [ld Eld]. unfold olsrv2_lan_get_domaindata. rewrite Eld. by eexists.
Qed.

(** The processed entries, with the flag of those that have changed. *)
Definition processed (es : list olsrv2_routing_entry) (l : list (olsrv2_routing_entry * bool)) : Prop :=
  Forall2 (fun e x => process_entry env filters dom par e = Def x) es l.

Definition changed_entries (l : list (olsrv2_routing_entry * bool)) : list olsrv2_routing_entry :=
  (filter (fun x => x.2 = true) l).*1.

Definition ptr_of (e : olsrv2_routing_entry) : entry_ptr := (dom, rt_key e).

Lemma result_loop_ok es q : exists l, processed es l /\
  result_loop env filters dom par es q = Def (l.*1,
    rev (map ptr_of (filter (fun e => early e = true) (changed_entries l))) ++ q ++
    map ptr_of (filter (fun e => early e = false) (changed_entries l))).
Proof.
  revert q. induction es as [|e es IH]; intros q; simpl.
  { exists []. split; [constructor|]. simpl. by rewrite app_nil_r. }
  destruct (process_entry_def e) as [[e' add] E]. rewrite E. simpl.
  destruct (IH (if add then _add_route_to_kernel_queue (dom, rt_key e') e' q else q)) as (l & Hl & ->). simpl.
  exists ((e', add) :: l). split; [by constructor|]. f_equal. unfold changed_entries. simpl. f_equal.
  destruct add; simpl; [|done]. rewrite !filter_cons, add_route_early. fold (ptr_of e').
  destruct (early e') eqn:Ee; simpl; by rewrite <- ?app_assoc.
Qed.

(** The result of a Dijkstra run is queued in the order that keeps the
    kernel's routes usable: every entry of the tree is processed once, the
    entries with a change are queued, those that set a single-hop route or
    remove a multi-hop route before everything that was in the queue, the
    others behind it; an entry is left out if and only if it is set and its
    parameters are the old ones. *)
Theorem result_queue_order k t : _routing_tree k !! dom = Some t ->
  exists l, processed t l /\
    _process_dijkstra_result env filters dom par k =
      Def (set_queue (rev (map ptr_of (filter (fun e => early e = true) (changed_entries l))) ++ _kernel_queue k ++
                      map ptr_of (filter (fun e => early e = false) (changed_entries l)))
            (put_tree dom l.*1 k)) /\
    forall e add, (e, add) ∈ l -> add = false <-> rt_set e = true /\ _old e = route e.
Proof.
  intros Et. unfold _process_dijkstra_result, get_tree. rewrite Et. simpl.
  destruct (result_loop_ok t (_kernel_queue k)) as (l & Hl & ->). simpl. exists l. split; [done|]. split; [done|].
  intros e add He. apply list_elem_of_lookup in He as [i Hi]. destruct (Forall2_lookup_r _ _ _ _ _ Hl Hi) as (e0 & _ & E).
  unfold process_entry in E. cbv zeta in E.
  destruct (match olsrv2_lan_get env _ with Some _ => _ | None => _ end) as [set|] eqn:Es; simpl in E; [|done].
  injection E as <- <-. simpl. rewrite negb_false_iff, andb_true_iff, bool_decide_eq_true. done.
Qed.
End result.

(** ** Sending the queue *)

Lemma write_entry_trees p e k d : _routing_tree (write_entry p e k) !! d = (if decide (d = p.1) then put_entry e <$> _routing_tree k !! d else _routing_tree k !! d).
Proof.
  simpl. case_decide as Hd; [subst; by rewrite list_lookup_alter_eq|by rewrite list_lookup_alter_ne].
Qed.

(** Trees without two entries of one key. *)
Definition trees_strict (k : kernel_state) : Prop := forall d t, _routing_tree k !! d = Some t -> rt_strict t.

Lemma write_entry_strict p e k : trees_strict k -> trees_strict (write_entry p e k).
Proof.
  intros Hs d t. rewrite write_entry_trees. case_decide; [|by apply Hs]. destruct (_routing_tree k !! d) as [t0|] eqn:E; [|done].
  simpl. intros [= <-]. apply put_entry_strict. by eapply Hs.
Qed.

Lemma get_entry_key p k e : get_entry p k = Def e -> rt_key e = p.2.
Proof.
  unfold get_entry, get_tree. destruct (_ !! _) as [t|]; simpl; [|done]. destruct (find_entry p.2 t) as [e'|] eqn:E; [|done].
  intros [= <-]. by apply find_entry_key in E as [_ ?].
Qed.

(** Reading after writing. *)
Lemma get_write_entry p e0 e k q : trees_strict k -> get_entry p k = Def e0 -> rt_key e = p.2 ->
  get_entry q (write_entry p e k) = if decide (q = p) then Def e else get_entry q k.
Proof.
  intros Hs Hp Hk. unfold get_entry, get_tree in *. rewrite write_entry_trees.
  destruct (_routing_tree k !! p.1) as [t|] eqn:Et; simpl in Hp; [|done].
  destruct (find_entry p.2 t) as [e1|] eqn:Ef; [|done].
  assert (rt_strict t) as Ht by (by apply (Hs p.1)).
  destruct (decide (q.1 = p.1)) as [Hd|Hd].
  - rewrite Hd, Et. simpl. rewrite find_put_entry by (first [done|by rewrite Hk, Ef]). rewrite Hk.
    destruct (decide (q = p)) as [->|Hq]; [by rewrite decide_True|]. rewrite decide_False; [done|]. intros Hk2. apply Hq.
    destruct q, p; simpl in *; by subst.
  - rewrite decide_False by congruence. done.
Qed.

(** The request for an entry, [None] if there is none. *)
Definition request (e : olsrv2_routing_entry) : option route_msg := os_routing_linux_set (route e) (rt_set e) (rt_set e).

(** The messages that the queue [q] causes, numbered from [seq]. *)
Fixpoint requests (q : list entry_ptr) (seq : Z) (k : kernel_state) : list (Z * entry_ptr * route_msg) :=
  match q with
  | [] => []
  | p :: q =>
      match get_entry p k with
      | Def e =>
          if in_processing e then requests q seq k
          else match request e with Some m => (seq + 1, p, m) :: requests q (seq + 1) k | None => requests q seq k end
      | Undef _ => requests q seq k
      end
  end.

Lemma requests_ext q seq k k' : (forall p, p ∈ q -> get_entry p k' = get_entry p k) -> requests q seq k' = requests q seq k.
Proof.
  revert seq. induction q as [|p q IH]; intros seq H; simpl; [done|]. rewrite H by (by left).
  assert (forall s, requests q s k' = requests q s k) as Hq by (intros s; apply IH; intros; apply H; by right).
  destruct (get_entry p k) as [e|]; [|done]. destruct (in_processing e); [done|]. destruct (request e); [|done]. by rewrite Hq.
Qed.

(** Sequence numbers in use are not larger than the last one. *)
Definition seqs_ok (k : kernel_state) : Prop :=
  tree_strict fst avl_comp_uint32 (_rtnetlink_feedback k) /\ Forall (fun x => x.1 <= _seq_used k) (_rtnetlink_feedback k) /\ 0 <= _seq_used k.

Lemma insert_last (x : Z * entry_ptr) l : Forall (fun y => y.1 < x.1) l -> tree_insert fst avl_comp_uint32 x l = Some (l ++ [x]).
Proof.
  induction 1 as [|y l Hy _ IH]; simpl; [done|].
  assert (avl_comp_uint32 x.1 y.1 = 1) as -> by (unfold avl_comp_uint32; destruct (Z.ltb_spec y.1 x.1); [done|lia]).
  simpl. by rewrite IH.
Qed.

Lemma with_processing_true e : in_processing e = true -> with_processing true e = e.
Proof. destruct e; simpl. by intros ->. Qed.

(** Handing over the message for [p]. *)
Lemma os_routing_set_ok p e k : seqs_ok k -> _seq_used k + 1 < 2 ^ 31 -> p ∉ (_rtnetlink_feedback k).*2 ->
  exists k' r, os_routing_set p (route e) (rt_set e) (rt_set e) k = Def (k', r) /\ _routing_tree k' = _routing_tree k /\ seqs_ok k' /\
    match request e with
    | Some m => sent k' = sent k ++ [(_seq_used k + 1, m)] /\ _rtnetlink_feedback k' = _rtnetlink_feedback k ++ [(_seq_used k + 1, p)] /\
        _seq_used k' = _seq_used k + 1
    | None => k' = k
    end.
Proof.
  intros (Hs & Hle & H0) Hlt Hp. unfold os_routing_set, request. destruct (os_routing_linux_set _ _ _) as [m|]; [|by exists k, (-1)].
  unfold waiting. rewrite bool_decide_false by done.
  assert ((_seq_used k + 1) .& 2147483647 = _seq_used k + 1) as ->.
  { change 2147483647 with (Z.ones 31). rewrite Z.land_ones by lia. rewrite Z.mod_small by lia. done. }
  assert (tree_insert fst avl_comp_uint32 (_seq_used k + 1, p) (_rtnetlink_feedback k) = Some (_rtnetlink_feedback k ++ [(_seq_used k + 1, p)])) as Hi.
  { apply insert_last. eapply Forall_impl; [exact Hle|]. simpl. lia. }
  rewrite Hi. simpl. eexists _, _. split; [done|]. split; [done|]. split; [|done]. split; [|split]; simpl.
  - by eapply (tree_insert_strict fst avl_comp_uint32).
  - apply Forall_app. split; [eapply Forall_impl; [exact Hle|]; simpl; lia|]. by repeat constructor.
  - lia.
Qed.

(** What the kernel gets from the queue [q], and what is left of it. *)
Record queue_sent (q : list entry_ptr) (k k' : kernel_state) : Prop := {
  qs_queue : _kernel_queue k' = [];
  qs_strict : trees_strict k';
  qs_seqs : seqs_ok k';
  qs_sent : sent k' = sent k ++ map (fun x => (x.1.1, x.2)) (requests q (_seq_used k) k);
  qs_feedback : _rtnetlink_feedback k' = _rtnetlink_feedback k ++ map fst (requests q (_seq_used k) k);
  qs_entry p : get_entry p k' = if decide (p ∈ q) then e ← get_entry p k; Def (with_processing true e) else get_entry p k;
}.

Lemma process_queue_ok q k : trees_strict k -> NoDup q -> seqs_ok k -> _seq_used k + Z.of_nat (length q) < 2 ^ 31 ->
  (forall p, p ∈ q -> exists e, get_entry p k = Def e /\ (in_processing e = false -> p ∉ (_rtnetlink_feedback k).*2)) ->
  exists k', process_queue q k = Def k' /\ queue_sent q k k'.
Proof.
  revert k. induction q as [|p q IH]; intros k Hs Hnd Hq Hlt Hp; simpl.
  { eexists. split; [done|]. split; simpl; rewrite ?app_nil_r; done. }
  apply NoDup_cons in Hnd as [Hnin Hnd]. destruct (Hp p ltac:(by left)) as (e & Ee & Hw). rewrite Ee. simpl.
  assert (forall k1 : kernel_state, (forall r, r <> p -> get_entry r k1 = get_entry r k) -> get_entry p k1 = Def (with_processing true e) ->
    forall r, (if decide (r ∈ q) then e ← get_entry r k1; Def (with_processing true e) else get_entry r k1) =
      (if decide (r ∈ p :: q) then e ← get_entry r k; Def (with_processing true e) else get_entry r k)) as Hent.
  { intros k1 Hne Hk1 r. destruct (decide (r = p)) as [->|Hr].
    - rewrite decide_False by done. rewrite decide_True by (by left). by rewrite Ee.
    - rewrite Hne by done. destruct (decide (r ∈ q)) as [H|H]; [by rewrite decide_True by (by right)|].
      rewrite decide_False; [done|]. by intros [?|?]%elem_of_cons. }
  destruct (in_processing e) eqn:Eip.
  - destruct (IH k) as (k' & E & [A1 A2 A3 A4 A5 A6]); [done|done|done|simpl in Hlt; lia|intros; apply Hp; by right|].
    exists k'. split; [done|]. split; try done; simpl; rewrite ?Ee, ?Eip; try done. intros r. rewrite A6. apply Hent; [done|].
    by rewrite with_processing_true.
  - set (k1 := write_entry p (with_processing true e) k).
    assert (rt_key (with_processing true e) = p.2) as Hkey by (by apply get_entry_key in Ee).
    assert (forall r, get_entry r k1 = if decide (r = p) then Def (with_processing true e) else get_entry r k) as Hget
      by (intros r; by eapply get_write_entry).
    destruct (os_routing_set_ok p e k1) as (k2 & r & E2 & T2 & Q2 & Hm); [done|simpl in *; lia|by apply Hw|].
    rewrite E2. simpl.
    assert (forall r, get_entry r k2 = get_entry r k1) as Hg2 by (intros r'; unfold get_entry, get_tree; by rewrite T2).
    assert (forall r, r ∈ q -> get_entry r k2 = get_entry r k) as Hq2.
    { intros r' Hr'. rewrite Hg2, Hget, decide_False; [done|]. by intros ->. }
    assert (forall x, x ∈ (_rtnetlink_feedback k2).*2 -> x = p \/ x ∈ (_rtnetlink_feedback k).*2) as Hfb.
    { intros x. destruct (request e); [destruct Hm as (_ & -> & _)|subst k2; by right]. rewrite fmap_app, elem_of_app. simpl.
      intros [?|?%list_elem_of_singleton]; auto. }
    destruct (IH k2) as (k' & E & [A1 A2 A3 A4 A5 A6]); [|done|done| | |].
    + intros d t. rewrite T2. apply (write_entry_strict p _ k Hs).
    + simpl in Hlt. destruct (request e); [destruct Hm as (_ & _ & ->); simpl; lia|]. subst k2. simpl. lia.
    + intros r' Hr'. destruct (Hp r' ltac:(by right)) as (e' & Ee' & Hw'). exists e'. rewrite Hq2 by done. split; [done|].
      intros Hip Hin. apply Hfb in Hin as [->|Hin]; [done|]. by apply Hw'.
    + exists k'. split; [done|]. split; try done.
      * simpl. rewrite Ee, Eip. rewrite A4, (requests_ext q _ k k2) by done. destruct (request e) as [m|].
        -- destruct Hm as (-> & _ & ->). simpl. by rewrite <- app_assoc.
        -- by subst k2.
      * simpl. rewrite Ee, Eip. rewrite A5, (requests_ext q _ k k2) by done. destruct (request e) as [m|].
        -- destruct Hm as (_ & -> & ->). simpl. by rewrite <- app_assoc.
        -- by subst k2.
      * intros r'. rewrite A6. apply Hent; [|by rewrite Hg2, Hget, decide_True]. intros r'' Hr''. by rewrite Hg2, Hget, decide_False.
Qed.

(** C30: Processing the kernel queue sends exactly one request, in the order of
    the queue and with consecutive sequence numbers, for every queued route
    that the kernel is not working on: a request to set it if it is set, to
    remove it otherwise, unless its addresses contradict each other. All of
    these routes are then marked as being processed and those requested wait
    for their answers; no other entry changes, and the queue is empty. *)
Theorem kernel_queue_requests k : trees_strict k -> NoDup (_kernel_queue k) -> seqs_ok k ->
  _seq_used k + Z.of_nat (length (_kernel_queue k)) < 2 ^ 31 ->
  (forall p, p ∈ _kernel_queue k -> exists e, get_entry p k = Def e /\ (in_processing e = false -> p ∉ (_rtnetlink_feedback k).*2)) ->
  exists k', _process_kernel_queue k = Def k' /\ queue_sent (_kernel_queue k) k k'.
Proof. intros Hs Hnd Hq Hlt Hp. by apply process_queue_ok. Qed.

(** ** Witnesses *)

Definition ex_entry (dst g : netaddr) (set : bool) : olsrv2_routing_entry :=
  with_route {| family := AF_INET; rp_type := OS_ROUTE_UNICAST; rp_key := ex_key dst; gw := g; src_ip := netaddr_invalidate; rp_metric := 2;
                table := 254; protocol := 100; if_index := 1 |} set (new_entry (ex_key dst)).
Definition ex_tree : list olsrv2_routing_entry :=
  [ex_entry (ex_addr 1) netaddr_invalidate true; ex_entry (ex_addr 2) (ex_addr 1) true;
   ex_entry (ex_addr 3) (ex_addr 1) false; ex_entry (ex_addr 4) netaddr_invalidate false].
Definition ex_kernel (q : list entry_ptr) : kernel_state :=
  {| _routing_tree := [ex_tree]; _kernel_queue := q; _rtnetlink_feedback := []; _seq_used := 0; sent := [] |}.
Definition ex_par : olsrv2_routing_domain :=
  {| use_srcip_in_routes := false; p_protocol := 100; p_table := 254; p_distance := 2; p_source_specific := true |}.

(** The removal of the multi-hop route and the single-hop route come first. *)
Lemma result_queue_order_witness : exists k', _process_dijkstra_result ex_env [] 0 ex_par (ex_kernel []) = Def k' /\
  _kernel_queue k' = map (fun a => (0%nat, ex_key (ex_addr a))) [3; 1; 2; 4].
Proof.
  destruct (result_queue_order ex_env [] 0 ex_par) with (k := ex_kernel []) (t := ex_tree) as (l & Hl & E & _).
  - by intros lan ?%elem_of_nil.
  - reflexivity.
  - eexists. split; [exact E|]. unfold processed, ex_tree in Hl. repeat (apply Forall2_cons_inv_l in Hl as (? & ? & Hx & Hl & ->); vm_compute in Hx; injection Hx as <-).
    apply Forall2_nil_inv_l in Hl as ->. vm_compute. reflexivity.
Defined.

Lemma kernel_queue_requests_witness :
  let q := map (fun a => (0%nat, ex_key (ex_addr a))) [3; 1; 2; 4] in
  exists k', _process_kernel_queue (ex_kernel q) = Def k' /\
    map (fun x => nlmsg_type x.2) (sent k') = [RTM_DELROUTE; RTM_NEWROUTE; RTM_NEWROUTE; RTM_DELROUTE] /\ map fst (sent k') = [1; 2; 3; 4].
Proof.
  intros q. destruct (kernel_queue_requests (ex_kernel q)) as (k' & E & [_ _ _ Hs _ _]).
  - intros [|d] t Et; simpl in Et; [|by destruct d]. injection Et as <-. repeat constructor; vm_compute; done.
  - unfold q. repeat (apply NoDup_cons; split; [vm_compute; set_solver|]). apply NoDup_nil. done.
  - split; [constructor|]. split; [by apply Forall_nil|done].
  - reflexivity.
  - intros p Hp. unfold q in Hp. simpl in Hp. set_unfold in Hp.
    repeat (destruct Hp as [->|Hp]; [eexists; split; [vm_compute; reflexivity|]; intros _ ?%elem_of_nil; done|]).
    done.
  - exists k'. split; [exact E|]. rewrite Hs. vm_compute. split; reflexivity.
Defined.
