(* ===== verification/RoutingRound.v ===== *)
(** The loop of [olsrv2_routing_force_update] over the changed domains
    (src/olsrv2/olsrv2/olsrv2_routing.c): the Dijkstra runs of every changed
    domain are made, their result is processed and what has changed is queued
    for the kernel; the other domains are left alone. *)

From Stdlib Require Import ZArith Lia Sorted.
From stdpp Require Import base list numbers option gmap sets.
From S2P Require Import Prelude AvlSpec Netaddr NetaddrAcl MprSelection NhdpDb MprFlooding RoutingSet OsRouting Dijkstra DijkstraRun RoutingUpdate RoutingCheapest RoutingKernel.

Local Open Scope Z_scope.
Local Open Scope cint_scope.

(** ** Entries keep their keys and their processing flags *)

Lemma find_prepared k t : find_entry k (_prepare_routes t) =
  (fun e => {| route := route e; rt_path_cost := rt_path_cost e; rt_path_hops := rt_path_hops e; rt_originator := rt_originator e;
     next_originator := next_originator e; rt_last_originator := rt_last_originator e; rt_set := false; in_processing := in_processing e;
     _old := route e |}) <$> find_entry k t.
Proof.
  induction t as [|e t IH]; simpl; [done|]. unfold rt_key at 1 2 4 5. simpl. fold (rt_key e).
  destruct (_ <? 0); [done|]. destruct (_ =? 0); [done|exact IH].
Qed.

Lemma follow_processing env db d t os rt k e : routes_follow env db d (_prepare_routes t) os rt -> find_entry k t = Some e -> in_processing e = true ->
  exists e', find_entry k rt = Some e' /\ in_processing e' = true.
Proof.
  intros [_ Hwon Hnone] He Hp. pose proof (find_prepared k t) as E. rewrite He in E. simpl in E.
  destruct (winner (offers_for env d k os)) as [o|] eqn:Ew.
  - destruct (Hwon k o) as (e' & Ee & _ & Hold); [left; by rewrite E|done|]. exists e'. split; [done|].
    destruct (Hold _ E) as [-> _]. done.
  - eexists. rewrite Hnone, E by (by left). by split.
Qed.

(** Filters may change a route but not its key, which is the key of the entry in
    its tree. *)
Definition keep_keys (filters : list (nat -> os_route_parameter -> bool -> os_route_parameter * bool)) : Prop :=
  Forall (fun f => forall d r set, rp_key (f d r set).1 = rp_key r) filters.

Lemma run_filters_key fs d r set : keep_keys fs -> rp_key (run_filters fs d r set) = rp_key r.
Proof.
  unfold run_filters. intros H. revert r. induction H as [|f fs Hf _ IH]; intros r; simpl; [done|]. rewrite IH. apply Hf.
Qed.

Section round.
Context (env : olsrv2_env) (db : nhdp_db) (topo : topology).
Context (filters : list (nat -> os_route_parameter -> bool -> os_route_parameter * bool)) (Hfilters : keep_keys filters).
#[local] Notation processed := (processed env filters).

Lemma process_entry_keeps d par e x : process_entry env filters d par e = Def x -> rt_key x.1 = rt_key e /\ in_processing x.1 = in_processing e.
Proof.
  unfold process_entry. cbv zeta. destruct (match olsrv2_lan_get env _ with Some _ => _ | None => _ end); simpl; [|done].
  intros [= <-]. split; [|done]. unfold rt_key. simpl. by rewrite run_filters_key.
Qed.

Lemma processed_strict d par t l : processed d par t l -> rt_strict t -> rt_strict l.*1.
Proof.
  unfold RoutingKernel.processed. induction 1 as [|e x t l Hx Ht IH]; intros Hs; [done|]. inversion Hs as [|? ? Hs' Ha]; subst.
  simpl. constructor; [by apply IH|]. apply Forall_forall. intros y (z & -> & Hz)%list_elem_of_fmap.
  apply list_elem_of_lookup in Hz as [j Hj]. destruct (Forall2_lookup_r _ _ _ _ _ Ht Hj) as (e' & He' & Ez).
  rewrite Forall_forall in Ha. specialize (Ha e' ltac:(by eapply list_elem_of_lookup_2)). unfold key_lt in *.
  by rewrite (proj1 (process_entry_keeps _ _ _ _ Hx)), (proj1 (process_entry_keeps _ _ _ _ Ez)).
Qed.

Lemma processed_find d par t l k e : processed d par t l -> rt_strict t -> find_entry k t = Some e ->
  exists e', find_entry k l.*1 = Some e' /\ in_processing e' = in_processing e.
Proof.
  intros Hl Hs He. apply find_entry_key in He as Hk. destruct Hk as [Hin Hk]. apply list_elem_of_lookup in Hin as [j Hj].
  destruct (Forall2_lookup_l _ _ _ _ _ Hl Hj) as (x & Hx & Ex). destruct (process_entry_keeps _ _ _ _ Ex) as [Ek Ep].
  exists x.1. split; [|done]. apply find_entry_in; [by eapply processed_strict| |congruence].
  apply list_elem_of_fmap. exists x. split; [done|]. by eapply list_elem_of_lookup_2.
Qed.

Lemma NoDup_fmap_filter {A B} (f : A -> B) (P : A -> Prop) `{!forall a, Decision (P a)} l : NoDup (f <$> l) -> NoDup (f <$> filter P l).
Proof.
  induction l as [|a l IH]; simpl; [done|]. intros [Hn Hd]%NoDup_cons. rewrite filter_cons. case_decide; simpl; [|by apply IH].
  apply NoDup_cons. split; [|by apply IH]. intros (b & E & [_ Hb]%list_elem_of_filter)%list_elem_of_fmap. apply Hn. apply list_elem_of_fmap. by exists b.
Qed.

Lemma strict_keys_nodup t : rt_strict t -> NoDup (rt_key <$> t).
Proof.
  induction 1 as [|e t _ IH Ha]; simpl; [constructor|]. apply NoDup_cons. split; [|done].
  intros (x & E & Hx)%list_elem_of_fmap. rewrite Forall_forall in Ha. specialize (Ha x Hx). unfold key_lt in Ha. rewrite E in Ha.
  assert (os_routing_avl_cmp_route_key (rt_key x) (rt_key x) = 0) by (by apply rtkey_cmp_eq). lia.
Qed.

(** ** One domain *)

(** What the runs of a domain need. *)
Record domain_ready (d : nat) : Prop := {
  dr_topo : topo_ok topo d;
  dr_split : split_ok topo d;
  dr_max : (d < NHDP_MAXIMUM_DOMAINS)%nat;
  dr_env : routes_env_ok env db topo d;
  dr_nhdp : nhdp_env_ok env db d;
  dr_metrics : exists K, metrics_bounded db topo d K;
}.

(** Entries that wait for an answer of the kernel are there and marked. *)
Definition waits_marked (k : kernel_state) : Prop :=
  forall p, p ∈ (_rtnetlink_feedback k).*2 -> exists e, get_entry p k = Def e /\ in_processing e = true.

Context (Htrees : trees_ok topo) (Hfam : families_ok topo) (Hdb : db_ok db).

(** The result of a domain in the kernel state: its tree and its part of the
    queue. *)
Definition result_of (d : nat) (l : list (olsrv2_routing_entry * bool)) (k k' : kernel_state) : Prop :=
  _routing_tree k' = <[d := l.*1]> (_routing_tree k) /\ _rtnetlink_feedback k' = _rtnetlink_feedback k /\ _seq_used k' = _seq_used k /\
  sent k' = sent k /\ _kernel_queue k' ≡ₚ _kernel_queue k ++ map (ptr_of d) (changed_entries l).

Lemma early_split d l : map (ptr_of d) l ≡ₚ map (ptr_of d) (filter (fun e => early e = true) l) ++ map (ptr_of d) (filter (fun e => early e = false) l).
Proof.
  induction l as [|e l IH]; simpl; [done|]. rewrite !filter_cons. destruct (early e); simpl; rewrite IH; [done|]. apply Permutation_middle.
Qed.

Lemma domain_round d k ns t par : domain_ready d -> (forall t, idle topo {| nodes := ns; working_tree := []; routing_tree := t |}) ->
  _routing_tree k !! d = Some t -> trees_strict k -> waits_marked k ->
  exists st l k', domain_dijkstra env db topo d {| nodes := ns; working_tree := []; routing_tree := t |} = Def st /\
    (forall t, idle topo {| nodes := nodes st; working_tree := []; routing_tree := t |}) /\ processed d par (routing_tree st) l /\
    _process_dijkstra_result env filters d par (put_tree d (routing_tree st) k) = Def k' /\ result_of d l k k' /\ NoDup (map (ptr_of d) (changed_entries l)) /\
    trees_strict k' /\ waits_marked k'.
Proof.
  intros [Ht Hsp Hm He Hn (K & HK)] Hi Et Hs Hw.
  destruct (domain_dijkstra_follow env db topo d Ht Htrees Hfam Hdb Hsp Hm He Hn K HK {| nodes := ns; working_tree := []; routing_tree := t |})
    as (st & s4 & s6 & os & E & _ & _ & [I1 I2 I3 I4] & Hf & _); [apply Hi|by apply (Hs d)|]. simpl in Hf.
  pose proof (rf_strict _ _ _ _ _ _ Hf) as Hst. set (k1 := put_tree d (routing_tree st) k).
  assert (_routing_tree k1 !! d = Some (routing_tree st)) as E1 by (apply list_lookup_insert_eq; by eapply lookup_lt_Some).
  destruct (result_queue_order env filters d par (ne_lan _ _ _ Hn) k1 _ E1) as (l & Hl & E2 & _). exists st, l.
  eexists. split; [exact E|]. split; [intros t'; by split|]. split; [exact Hl|]. split; [exact E2|].
  match goal with |- result_of _ _ _ ?k2 /\ _ => set (k' := k2) end.
  assert (_routing_tree k' = <[d := l.*1]> (_routing_tree k)) as Etr by (simpl; apply list_insert_insert_eq). split.
  { split; [exact Etr|]. do 3 (split; [done|]). simpl. rewrite <- Permutation_rev, (early_split d (changed_entries l)).
    rewrite !app_assoc. f_equiv. apply Permutation_app_comm. }
  assert (forall d0 t0, _routing_tree k' !! d0 = Some t0 -> d0 = d /\ t0 = l.*1 \/ d0 <> d /\ _routing_tree k !! d0 = Some t0) as Hlook.
  { intros d0 t0. rewrite Etr. destruct (decide (d0 = d)) as [->|Hne].
    - rewrite list_lookup_insert_eq by (by eapply lookup_lt_Some). intros [= <-]. by left.
    - rewrite list_lookup_insert_ne by done. by right. }
  split.
  { pose proof (processed_strict _ _ _ _ Hl Hst) as Hstrict. apply strict_keys_nodup in Hstrict. rewrite <- list_fmap_compose in Hstrict.
    unfold changed_entries. rewrite <- list_fmap_compose. apply (NoDup_fmap_filter _ (fun x : olsrv2_routing_entry * bool => x.2 = true)).
    change (NoDup ((fun x => ptr_of d x.1) <$> l)). apply (NoDup_fmap_1 snd). rewrite <- list_fmap_compose. exact Hstrict. }
  split.
  - intros d0 t0 [[-> ->]|[_ ?]]%Hlook; [by eapply processed_strict|by eapply Hs].
  - intros [d0 key] Hp. destruct (Hw _ Hp) as (e & Ee & Hpr). unfold get_entry, get_tree in *. simpl in *. fold k'. rewrite Etr.
    destruct (decide (d0 = d)) as [->|Hne]; [|by rewrite list_lookup_insert_ne; [exists e|]].
    rewrite list_lookup_insert_eq by (by eapply lookup_lt_Some). simpl. rewrite Et in Ee. simpl in Ee.
    destruct (find_entry key t) as [e0|] eqn:Ef; [|done]. injection Ee as ->.
    destruct (follow_processing _ _ _ _ _ _ _ _ Hf Ef Hpr) as (e1 & Ef1 & Hp1). destruct (processed_find _ _ _ _ _ _ Hl Hst Ef1) as (e2 & -> & Hp2).
    exists e2. split; [done|congruence].
Qed.

(** ** All domains *)

Record rounds_ok (s : routing_state) : Prop := {
  ro_idle t : idle topo {| nodes := dijkstra_nodes s; working_tree := []; routing_tree := t |};
  ro_strict : trees_strict (kernel s);
  ro_waits : waits_marked (kernel s);
}.

Definition domain_there (d : nat) (s : routing_state) : Prop :=
  is_Some (_domain_changed s !! d) /\ is_Some (_routing_tree (kernel s) !! d) /\ is_Some (_domain_parameter s !! d).

(** The update of a domain: its Dijkstra runs on its tree, the processing of
    all entries of the result, which are its tree then, and the queueing of those
    that have changed. *)
Definition domain_updated (d : nat) (s s' : routing_state) : Prop := exists ns t st par l,
  _routing_tree (kernel s) !! d = Some t /\ _domain_parameter s !! d = Some par /\
  domain_dijkstra env db topo d {| nodes := ns; working_tree := []; routing_tree := t |} = Def st /\
  processed d par (routing_tree st) l /\ _routing_tree (kernel s') !! d = Some l.*1 /\
  forall key, (d, key) ∈ _kernel_queue (kernel s') <-> (d, key) ∈ _kernel_queue (kernel s) \/ exists e, (e, true) ∈ l /\ rt_key e = key.

Definition domain_kept (d : nat) (s s' : routing_state) : Prop :=
  _routing_tree (kernel s') !! d = _routing_tree (kernel s) !! d /\
  forall key, (d, key) ∈ _kernel_queue (kernel s') <-> (d, key) ∈ _kernel_queue (kernel s).

(** The result of the loop over the domains [ds]. *)
Record rounds_done (ds : list nat) (s s' : routing_state) : Prop := {
  rn_ok : rounds_ok s';
  rn_feedback : _rtnetlink_feedback (kernel s') = _rtnetlink_feedback (kernel s);
  rn_seq : _seq_used (kernel s') = _seq_used (kernel s);
  rn_sent : sent (kernel s') = sent (kernel s);
  rn_queue : NoDup (_kernel_queue (kernel s'));
  rn_updated d : d ∈ ds -> _domain_changed s !! d = Some true -> domain_updated d s s';
  rn_kept d : d ∉ ds \/ _domain_changed s !! d <> Some true -> domain_kept d s s';
}.

Lemma queued_of d l p : p ∈ map (ptr_of d) (changed_entries l) <-> p.1 = d /\ exists e, (e, true) ∈ l /\ rt_key e = p.2.
Proof.
  unfold changed_entries. rewrite list_elem_of_fmap. setoid_rewrite list_elem_of_fmap. setoid_rewrite list_elem_of_filter. split.
  - intros (e & -> & (x & -> & Hb & Hx)). split; [done|]. exists x.1. split; [by destruct x as [? []]|done].
  - intros (E & e & He & Ek). exists e. split; [unfold ptr_of; destruct p; simpl in *; congruence|]. by exists (e, true).
Qed.

Lemma update_domains_runs ds s : NoDup ds -> (forall d, d ∈ ds -> domain_ready d /\ domain_there d s) -> rounds_ok s ->
  NoDup (_kernel_queue (kernel s)) -> (forall d key, d ∈ ds -> (d, key) ∉ _kernel_queue (kernel s)) ->
  exists s', update_domains env db topo filters ds s = Def s' /\ rounds_done ds s s'.
Proof.
  revert s. induction ds as [|d ds IH]; intros s Hnd Hds Hok Hq Hqd; simpl.
  { exists s. split; [done|]. split; try done. by intros d ?%elem_of_nil. }
  apply NoDup_cons in Hnd as [Hnin Hnd]. destruct (Hds d ltac:(by left)) as [Hr (Hc & [t Et] & [par Epar])]. destruct Hc as [ch Ech]. rewrite Ech. simpl.
  assert (forall d0, d0 ∈ ds -> d0 <> d) as Hne by (by intros d0 ? ->). destruct ch; simpl.
  - unfold get_tree. rewrite Et. simpl. destruct (domain_round d (kernel s) (dijkstra_nodes s) t par Hr (ro_idle _ Hok) Et (ro_strict _ Hok) (ro_waits _ Hok))
      as (st & l & k' & E & Hi & Hl & Ek & (Htr & Hfb & Hsq & Hst & Hqp) & Hndl & Hs' & Hw'). rewrite E. simpl. rewrite Epar. simpl. rewrite Ek. simpl.
    set (s1 := with_nodes _ _).
    assert (forall d0 key, (d0, key) ∈ _kernel_queue (kernel s1) <-> (d0, key) ∈ _kernel_queue (kernel s) \/ d0 = d /\ exists e, (e, true) ∈ l /\ rt_key e = key) as Hq1.
    { intros d0 key. simpl. rewrite Hqp, elem_of_app, queued_of. done. }
    assert (NoDup (_kernel_queue (kernel s1))) as Hnq1.
    { simpl. rewrite Hqp. apply NoDup_app. split; [done|]. split; [|done].
      intros [d0 key] Hin [E0 _]%queued_of. simpl in E0. subst d0. by apply (Hqd d key); [left|]. }
    destruct (IH s1) as (s' & E' & [R1 R2 R3 R4 R5 R6 R7]); [done| |by split|done| |].
    + intros d0 Hd0. destruct (Hds d0 ltac:(by right)) as [? (? & ? & ?)]. split; [done|]. specialize (Hne d0 Hd0).
      split; [simpl; by rewrite list_lookup_insert_ne|]. split; [simpl; by rewrite Htr, list_lookup_insert_ne|done].
    + intros d0 key Hd0 [Hin|[-> _]]%Hq1; [by apply (Hqd d0 key); [right|]|by apply Hne in Hd0].
    + exists s'. split; [done|]. split; try done; [by rewrite R2|by rewrite R3|by rewrite R4| |].
      * intros d0 [->|Hd0]%elem_of_cons Hc0.
        -- destruct (R7 d) as [K1 K2]; [by left|]. exists (dijkstra_nodes s), t, st, par, l. do 4 (split; [done|]). split.
           { rewrite K1. simpl. rewrite Htr. apply list_lookup_insert_eq. by eapply lookup_lt_Some. }
           intros key. rewrite K2, Hq1. naive_solver.
        -- specialize (Hne d0 Hd0). destruct (R6 d0 Hd0) as (ns & t0 & st0 & par0 & l0 & A1 & A2 & A3 & A4 & A5 & A6).
           { simpl. by rewrite list_lookup_insert_ne. }
           exists ns, t0, st0, par0, l0. simpl in A1. rewrite Htr, list_lookup_insert_ne in A1 by done. do 5 (split; [done|]).
           intros key. rewrite A6, Hq1. naive_solver.
      * intros d0 Hd0. assert (d0 <> d) as Hd0' by (intros ->; destruct Hd0 as [Hd0|Hd0]; [by apply Hd0; left|done]).
        destruct (R7 d0) as [K1 K2].
        { destruct Hd0 as [Hd0|Hd0]; [left; intros ?; apply Hd0; by right|right]. simpl. by rewrite list_lookup_insert_ne. }
        split; [rewrite K1; simpl; by rewrite Htr, list_lookup_insert_ne|]. intros key. rewrite K2, Hq1. naive_solver.
  - destruct (IH s) as (s' & E' & [R1 R2 R3 R4 R5 R6 R7]); try done; [intros; apply Hds; by right|intros; apply Hqd; by right|].
    exists s'. split; [done|]. split; try done.
    + intros d0 [->|Hd0]%elem_of_cons Hc0; [congruence|by apply R6].
    + intros d0 Hd0. apply R7. destruct Hd0 as [Hd0|Hd0]; [left; intros ?; apply Hd0; by right|by right].
Qed.

(** The queued entries are there and can be handed over. *)
Lemma rounds_queue ds s s' p : rounds_done ds s s' -> _kernel_queue (kernel s) = [] -> p ∈ _kernel_queue (kernel s') ->
  exists e, get_entry p (kernel s') = Def e /\ (in_processing e = false -> p ∉ (_rtnetlink_feedback (kernel s')).*2).
Proof.
  intros [[_ Hs Hw] _ _ _ _ Hup Hkp] Hq Hp. destruct p as [d key].
  destruct (decide (d ∈ ds /\ _domain_changed s !! d = Some true)) as [[Hd Hc]|Hno].
  - destruct (Hup d Hd Hc) as (ns & t & st & par & l & _ & _ & _ & _ & Et & Hqd). apply Hqd in Hp as [Hp|(e & He & Ek)]; [rewrite Hq in Hp; by apply elem_of_nil in Hp|].
    assert (get_entry (d, key) (kernel s') = Def e) as Ee.
    { unfold get_entry, get_tree. simpl. rewrite Et. simpl. rewrite (find_entry_in key l.*1 e); [done|by eapply Hs| |done].
      apply list_elem_of_fmap. by exists (e, true). }
    exists e. split; [done|]. intros Hip Hin. destruct (Hw _ Hin) as (e' & Ee' & Hip'). congruence.
  - destruct (Hkp d) as [_ Hk]; [destruct (decide (d ∈ ds)); [right; tauto|by left]|]. apply Hk in Hp. rewrite Hq in Hp. by apply elem_of_nil in Hp.
Qed.
End round.
