(* ===== verification/RoutingScenarios.v ===== *)
(** Runs of the routing module on a concrete topology that show what becomes of
    routes in situations the code does not handle
    (src/olsrv2/olsrv2/olsrv2_routing.c). *)

From Stdlib Require Import ZArith Lia.
From stdpp Require Import base list numbers option gmap sets.
From S2P Require Import Prelude AvlSpec Netaddr NetaddrAcl MprSelection NhdpDb MprFlooding RoutingSet OsRouting Dijkstra DijkstraRun RoutingUpdate RoutingKernel.

Local Open Scope Z_scope.
Local Open Scope cint_scope.

Notation step_fn := (routing_state -> outcome routing_state).

Fixpoint steps (fs : list step_fn) (s : routing_state) : outcome routing_state :=
  match fs with [] => Def s | f :: fs => s ← f s; steps fs s end.

(** The kernel confirms all requests in their order. *)
Definition confirm_all (s : routing_state) : outcome routing_state :=
  k ← foldl (fun k x => k ← k; _cb_rtnetlink_done x.1 k) (Def (kernel s)) (_rtnetlink_feedback (kernel s)); Def (with_kernel k s).

Definition topology_change : step_fn := fun s => Def (olsrv2_routing_domain_changed [0%nat] (Some 0%nat) true s).
Definition update (topo : topology) : step_fn := olsrv2_routing_force_update ex_env ex_db topo [] [0%nat] true.
Definition timer_fires (topo : topology) : step_fn := _cb_trigger_dijkstra ex_env ex_db topo [] [0%nat].

(** The link from the second neighbor to [10.0.0.3] has become expensive: the
    route over the first one is better now. *)
Definition ex_topo_changed : topology := {|
  targets := [ex_node (ex_addr 1) [ex_edge 2 1000; ex_edge 3 10] [ex_att 5 5000 7]; ex_node (ex_addr 2) [ex_edge 2 3000] [];
              ex_node (ex_addr 3) [] [ex_att 4 256 3; ex_att 5 256 2]; ex_node (ex_addr 9) [ex_edge 0 10; ex_edge 1 10] [];
              ex_end (ex_prefix 4 16) 1; ex_end (ex_prefix 5 16) 2];
  _tc_tree := [0; 1; 2; 3]%nat; _tc_endpoint_tree := [4; 5]%nat |}.

Definition ex_parameter (t : Z) : olsrv2_routing_domain :=
  {| use_srcip_in_routes := false; p_protocol := 100; p_table := t; p_distance := 2; p_source_specific := true |}.

Definition ex_routing : routing_state := {|
  kernel := {| _routing_tree := replicate 4 []; _kernel_queue := []; _rtnetlink_feedback := []; _seq_used := 0; sent := [] |};
  dijkstra_nodes := nodes ex_state; _domain_parameter := replicate 4 (ex_parameter 254); _rate_limit_timer := None;
  _trigger_dijkstra := false; _ansn := 7; _domain_changed := replicate 4 false; _update_ansn := false;
  _initiate_shutdown := false; _freeze_routes := false |}.

(** The requests for one destination. *)
Definition is_for (dst : bytes) (x : Z * route_msg) : Prop := (RTA_DST, dst) ∈ attributes x.2.
Definition over (gateway : bytes) (x : Z * route_msg) : Prop := (RTA_GATEWAY, gateway) ∈ attributes x.2.

#[local] Instance is_for_dec dst x : Decision (is_for dst x).
Proof. unfold is_for. apply _. Defined.
#[local] Instance over_dec g x : Decision (over g x).
Proof. unfold over. apply _. Defined.

(** Evaluates a run. *)
Ltac run_scenario := repeat (first [eexists | split]); [vm_compute; reflexivity..].

(** A better route that is found while the kernel still works on the old one
    is lost: it is not sent, and once the kernel has confirmed the old route
    the next update takes the new one for unchanged. *)
Theorem route_update_lost : exists s1 s2 e,
  steps [topology_change; update ex_topo] ex_routing = Def s1 /\
  steps [topology_change; update ex_topo_changed; confirm_all; topology_change; update ex_topo_changed] s1 = Def s2 /\
  get_entry (0%nat, ex_key (ex_addr 3)) (kernel s2) = Def e /\ rt_set e = true /\ in_processing e = false /\
  gw (route e) = ex_addr 100 /\ rt_path_cost e = 1256 /\
  sent (kernel s2) = sent (kernel s1) /\
  filter (is_for [10; 0; 0; 3]) (sent (kernel s2)) = filter (fun x => is_for [10; 0; 0; 3] x /\ over [10; 0; 0; 101] x) (sent (kernel s2)).
Proof.
  destruct (steps [topology_change; update ex_topo] ex_routing) as [s1|] eqn:E1; [|by vm_compute in E1].
  pose proof E1 as E1'. vm_compute in E1'. injection E1' as <-. eexists _, _, _. split; [reflexivity|].
  split; [vm_compute; reflexivity|]. split; [vm_compute; reflexivity|]. repeat (split; [vm_compute; reflexivity|]). vm_compute. reflexivity.
Qed.

(** New parameters of a domain remove its routes, but the update that they
    trigger skips the domain: no request sets a route again. *)
Theorem domain_parameter_routes_lost : exists s1 s2,
  steps [topology_change; update ex_topo; confirm_all] ex_routing = Def s1 /\
  steps [olsrv2_routing_set_domain_parameter 0 (ex_parameter 100); timer_fires ex_topo; confirm_all] s1 = Def s2 /\
  length (sent (kernel s1)) = 5%nat /\ length (sent (kernel s2)) = 10%nat /\
  Forall (fun x => nlmsg_type x.2 = RTM_DELROUTE) (drop 5 (sent (kernel s2))) /\
  _routing_tree (kernel s2) = replicate 4 [] /\ _trigger_dijkstra s2 = false /\ _domain_changed s2 = replicate 4 false.
Proof.
  destruct (steps [topology_change; update ex_topo; confirm_all] ex_routing) as [s1|] eqn:E1; [|by vm_compute in E1].
  pose proof E1 as E1'. vm_compute in E1'. injection E1' as <-. eexists _, _. split; [reflexivity|].
  split; [vm_compute; reflexivity|]. split; [vm_compute; reflexivity|]. split; [vm_compute; reflexivity|].
  split; [repeat constructor|]. repeat (split; [vm_compute; reflexivity|]). vm_compute. reflexivity.
Qed.

(** Routes that the kernel works on at the shutdown stay in the kernel. *)
Theorem shutdown_keeps_routes : exists s1 s2,
  steps [topology_change; update ex_topo] ex_routing = Def s1 /\ olsrv2_routing_initiate_shutdown s1 = Def s2 /\
  length (sent (kernel s1)) = 5%nat /\ Forall (fun x => nlmsg_type x.2 = RTM_NEWROUTE) (sent (kernel s1)) /\
  sent (kernel s2) = sent (kernel s1) /\ _kernel_queue (kernel s2) = [] /\ _rtnetlink_feedback (kernel s2) = [].
Proof.
  destruct (steps [topology_change; update ex_topo] ex_routing) as [s1|] eqn:E1; [|by vm_compute in E1].
  pose proof E1 as E1'. vm_compute in E1'. injection E1' as <-. eexists _, _. split; [reflexivity|].
  split; [vm_compute; reflexivity|]. split; [vm_compute; reflexivity|]. split; [repeat constructor|].
  repeat (split; [vm_compute; reflexivity|]). vm_compute. reflexivity.
Qed.

(** A request that cannot be built leaves the route marked as being processed,
    although no answer will come: it is never sent again. *)
Theorem failed_request_blocks p e k : trees_strict k -> seqs_ok k -> _seq_used k + 1 < 2 ^ 31 -> get_entry p k = Def e ->
  in_processing e = false -> request e = None -> p ∉ (_rtnetlink_feedback k).*2 ->
  exists k', process_queue [p] k = Def k' /\ get_entry p k' = Def (with_processing true e) /\ waiting p k' = false /\ sent k' = sent k /\
    process_queue [p] k' = Def k'.
Proof.
  intros Hs Hq Hlt Ee Hip Hr Hp. destruct (process_queue_ok [p] k) as (k' & E & [A1 A2 A3 A4 A5 A6]); [done|by apply NoDup_singleton|done|simpl; lia| |].
  { intros q ->%list_elem_of_singleton. by exists e. }
  simpl in A4, A5. rewrite Ee, Hip, Hr in A4, A5. simpl in A4, A5. rewrite app_nil_r in A4, A5.
  assert (get_entry p k' = Def (with_processing true e)) as He by (rewrite A6, decide_True, Ee by (by left); done).
  exists k'. split; [done|]. split; [done|]. split; [unfold waiting; rewrite A5; by apply bool_decide_false|]. split; [done|].
  simpl. rewrite He. simpl. unfold set_queue. destruct k'; simpl in *. by subst.
Qed.

(** [nhdp_db_2hop_is_lost] answers true while the two-hop neighbor is valid:
    no route to a valid two-hop neighbor is offered. *)
Theorem valid_twohops_skipped env db dom h neigh cost ts rt : Forall (fun t => l2_vtime_active t = true) ts ->
  nhdp_twohops env db dom h neigh cost ts rt = Def rt.
Proof. induction 1 as [|t ts Ht _ IH]; simpl; [done|]. unfold nhdp_db_2hop_is_lost. by rewrite Ht. Qed.

(** What a filter answers makes no difference. *)
Theorem filters_never_drop env (fs fs' : list (nat -> os_route_parameter -> bool -> os_route_parameter * bool)) dom par e :
  Forall2 (fun f f' => forall d r s, (f d r s).1 = (f' d r s).1) fs fs' -> process_entry env fs dom par e = process_entry env fs' dom par e.
Proof.
  intros Hf. assert (forall r s, run_filters fs dom r s = run_filters fs' dom r s) as H.
  { unfold run_filters. induction Hf as [|f f' fs fs' Hff _ IH]; intros r s; simpl; [done|]. by rewrite Hff, IH. }
  unfold process_entry. cbv zeta. destruct (match olsrv2_lan_get env _ with Some _ => _ | None => _ end); simpl; [by rewrite H|done].
Qed.

(** A run for source-specific destinations only writes the routes of
    endpoints with a single attachment. *)
Theorem ss_run_single env db topo dom af ss o : sound db topo dom af false ss (is_local_target env topo) o ->
  exists m, single topo m /\ exists x, targets topo !! m = Some x /\ dst_prefix o = prefix x.
Proof. intros (m & x & _ & [?|Hs] & Ex & Ek); [done|]. exists m. eauto. Qed.
