(* ===== verification/RoutingTrigger.v ===== *)
(** When routes are updated: the triggers, the rate limitation and the freezing
    of src/olsrv2/olsrv2/olsrv2_routing.c as a state machine. *)

From Stdlib Require Import ZArith Lia.
From stdpp Require Import base list numbers option gmap sets.
From S2P Require Import Prelude AvlSpec Netaddr MprSelection NhdpDb MprFlooding RoutingSet OsRouting Dijkstra DijkstraRun RoutingUpdate RoutingCheapest RoutingKernel RoutingScenarios RoutingRound.

Local Open Scope Z_scope.
Local Open Scope cint_scope.

Section trigger.
Context (domain_list : list nat).

(** An answer of the kernel. *)
Definition kernel_answer (k k' : kernel_state) : Prop :=
  (exists seq err, _cb_rtnetlink_error seq err k = Def k') \/ (exists seq, _cb_rtnetlink_done seq k = Def k') \/ _cb_rtnetlink_timeout k = Def k'.

(** Everything that may happen to the module; the databases, the topology and
    the filters may be others at every step. *)
Inductive routing_step : routing_state -> routing_state -> Prop :=
  | step_changed d b s : routing_step s (olsrv2_routing_domain_changed domain_list d b s)
  | step_mpr d s : routing_step s (_cb_mpr_update domain_list d s)
  | step_metric d s : routing_step s (_cb_metric_update domain_list d s)
  | step_trigger s : routing_step s (olsrv2_routing_trigger_update s)
  | step_freeze b s : routing_step s (olsrv2_routing_freeze_routes b s)
  | step_ansn n s : routing_step s (olsrv2_routing_force_ansn_increment n s)
  | step_force env db topo fs skip s s' : olsrv2_routing_force_update env db topo fs domain_list skip s = Def s' -> routing_step s s'
  | step_timer env db topo fs s s' : is_Some (_rate_limit_timer s) -> _cb_trigger_dijkstra env db topo fs domain_list s = Def s' ->
      routing_step s s'
  | step_parameter d p s s' : olsrv2_routing_set_domain_parameter d p s = Def s' -> routing_step s s'
  | step_answer s k : kernel_answer (kernel s) k -> routing_step s (with_kernel k s)
  | step_shutdown s s' : olsrv2_routing_initiate_shutdown s = Def s' -> routing_step s s'.

(** A domain is waiting for an update. *)
Definition pending (s : routing_state) : Prop := exists d, d ∈ domain_list /\ _domain_changed s !! d = Some true.

Definition suspended (s : routing_state) : bool := _initiate_shutdown s || _freeze_routes s.

(** Waiting domains are not forgotten. *)
Definition pending_ok (s : routing_state) : Prop :=
  suspended s = false -> pending s -> _trigger_dijkstra s = true /\ is_Some (_rate_limit_timer s).

Definition start (s : routing_state) : Prop := forall d, d ∈ domain_list -> _domain_changed s !! d = Some false.

Inductive reachable : routing_state -> Prop :=
  | reach_start s : start s -> reachable s
  | reach_step s s' : reachable s -> routing_step s s' -> reachable s'.

(** ** Triggers *)

Lemma trigger_ok s : pending_ok (olsrv2_routing_trigger_update s).
Proof. intros _ _. simpl. split; [done|]. by destruct (_rate_limit_timer s); eexists. Qed.

Lemma changed_ok d s : pending_ok (changed d s).
Proof. apply trigger_ok. Qed.

Lemma foldl_changed_ok (f : routing_state -> nat -> routing_state) ds s : (forall s d, pending_ok (f s d)) -> pending_ok s -> pending_ok (foldl f s ds).
Proof. intros Hf. revert s. induction ds as [|d ds IH]; intros s Hs; simpl; [done|]. by apply IH. Qed.

Lemma domain_changed_ok d b s : pending_ok s -> pending_ok (olsrv2_routing_domain_changed domain_list d b s).
Proof.
  intros Hs. destruct d as [d|]; [apply changed_ok|]. apply foldl_changed_ok; [intros; apply changed_ok|]. exact Hs.
Qed.

Lemma update_callback_ok d s : pending_ok s -> pending_ok (_cb_mpr_update domain_list d s).
Proof. intros Hs. destruct d as [d|]; [apply trigger_ok|]. apply foldl_changed_ok; [intros; apply trigger_ok|done]. Qed.

Lemma freeze_ok b s : pending_ok s -> pending_ok (olsrv2_routing_freeze_routes b s).
Proof.
  intros Hs. unfold olsrv2_routing_freeze_routes. destruct (Bool.eqb _ _); [done|]. destruct b; simpl; [|apply trigger_ok].
  intros Hf. unfold suspended in Hf. simpl in Hf. by rewrite orb_true_r in Hf.
Qed.

(** ** The update *)

(** What the loop over the domains leaves alone. *)
Record same_control (s s' : routing_state) : Prop := {
  sc_timer : _rate_limit_timer s' = _rate_limit_timer s;
  sc_trigger : _trigger_dijkstra s' = _trigger_dijkstra s;
  sc_ansn : _ansn s' = _ansn s;
  sc_update : _update_ansn s' = _update_ansn s;
  sc_suspended : suspended s' = suspended s;
}.

Lemma update_domains_ok env db topo fs ds s s' : update_domains env db topo fs ds s = Def s' ->
  same_control s s' /\ (forall d, d ∈ ds -> _domain_changed s' !! d = Some false) /\
  (forall d, _domain_changed s !! d = Some false -> _domain_changed s' !! d = Some false).
Proof.
  revert s. induction ds as [|d ds IH]; intros s; simpl; [intros [= <-]; split; [done|]; split; [by intros d ?%elem_of_nil|done]|].
  destruct (_domain_changed s !! d) as [ch|] eqn:Ed; simpl; [|done]. destruct ch; simpl.
  - destruct (get_tree d _) as [t|]; simpl; [|done]. destruct (domain_dijkstra _ _ _ _ _) as [st|]; simpl; [|done].
    destruct (_domain_parameter s !! d) as [par|]; simpl; [|done]. destruct (_process_dijkstra_result _ _ _ _ _) as [k|]; simpl; [|done].
    intros E. apply IH in E as ([S1 S2 S3 S4 S5] & H1 & H2). simpl in *.
    assert (<[d:=false]> (_domain_changed s) !! d = Some false) as Hd by (apply list_lookup_insert_eq; by eapply lookup_lt_Some).
    split; [by split|]. split.
    + intros d' [->|Hd']%elem_of_cons; [by apply H2|by apply H1].
    + intros d' Hd'. apply H2. destruct (decide (d' = d)) as [->|Hne]; [done|]. by rewrite list_lookup_insert_ne.
  - intros E. apply IH in E as (Hs & H1 & H2). split; [done|]. split; [|done]. intros d' [->|Hd']%elem_of_cons; [by apply H2|by apply H1].
Qed.

(** A run of [olsrv2_routing_force_update] that is not delayed. *)
Record updated (s s' : routing_state) : Prop := {
  up_flags d : d ∈ domain_list -> _domain_changed s' !! d = Some false;
  up_timer : _rate_limit_timer s' = Some OLSRv2_DIJKSTRA_RATE_LIMITATION;
  up_ansn : _ansn s' = if _update_ansn s then u16 (_ansn s + 1) else _ansn s;
  up_update : _update_ansn s' = false;
  up_suspended : suspended s' = suspended s;
}.

Lemma force_update_ok env db topo fs skip s s' : suspended s = false -> skip = true \/ _rate_limit_timer s = None ->
  olsrv2_routing_force_update env db topo fs domain_list skip s = Def s' -> updated s s'.
Proof.
  intros Hs Hskip. unfold olsrv2_routing_force_update. unfold suspended in Hs. rewrite Hs.
  set (s1 := if _update_ansn (with_timer None (_trigger_dijkstra s) s) then _ else _).
  assert (same_control s1 s1 /\ _ansn s1 = (if _update_ansn s then u16 (_ansn s + 1) else _ansn s) /\ _update_ansn s1 = false /\
    suspended s1 = suspended s) as (_ & Ha & Hu & Hsu).
  { unfold s1. simpl. destruct (_update_ansn s) eqn:Eu; simpl; split_and!; try done. }
  assert (forall X : outcome routing_state, (X = (s2 ← update_domains env db topo fs domain_list s1;
      k ← _process_kernel_queue (kernel s2);
      Def (with_timer (Some OLSRv2_DIJKSTRA_RATE_LIMITATION) (_trigger_dijkstra (with_kernel k s2)) (with_kernel k s2)))) ->
    X = Def s' -> updated s s') as Hrun.
  { intros X -> E. destruct (update_domains _ _ _ _ _ s1) as [s2|] eqn:E2; simpl in E; [|done].
    destruct (_process_kernel_queue (kernel s2)) as [k|]; simpl in E; [|done]. injection E as <-.
    apply update_domains_ok in E2 as ([S1 S2 S3 S4 S5] & H1 & _). split; simpl; try done; [congruence..|].
    unfold suspended in *. simpl. congruence. }
  destruct (_rate_limit_timer s) as [t|] eqn:Et.
  - destruct Hskip as [->|]; [|done]. by apply Hrun.
  - by apply Hrun.
Qed.

Lemma updated_ok s s' : updated s s' -> pending_ok s'.
Proof. intros [H1 H2 _ _ _] _ (d & Hd & Ed). rewrite H1 in Ed by done. done. Qed.

Lemma force_pending_ok env db topo fs skip s s' : pending_ok s ->
  olsrv2_routing_force_update env db topo fs domain_list skip s = Def s' -> pending_ok s'.
Proof.
  intros Hp E. destruct (suspended s) eqn:Hs.
  { unfold olsrv2_routing_force_update in E. unfold suspended in Hs. rewrite Hs in E. injection E as <-. exact Hp. }
  destruct skip; [eapply updated_ok, force_update_ok; [exact Hs|by left|exact E]|].
  destruct (_rate_limit_timer s) as [t|] eqn:Et; [|eapply updated_ok, force_update_ok; [exact Hs|by right|exact E]].
  unfold olsrv2_routing_force_update in E. unfold suspended in Hs. rewrite Hs, Et in E. injection E as <-. intros _ _. by split; [|eexists].
Qed.

Lemma timer_pending_ok env db topo fs s s' : pending_ok s -> _cb_trigger_dijkstra env db topo fs domain_list s = Def s' -> pending_ok s'.
Proof.
  intros Hp E. unfold _cb_trigger_dijkstra in E. simpl in E. destruct (_trigger_dijkstra s) eqn:Et.
  - destruct (suspended s) eqn:Hs.
    + unfold olsrv2_routing_force_update in E. simpl in E. unfold suspended in Hs. rewrite Hs in E. injection E as <-.
      intros Hf. unfold suspended in Hf. simpl in Hf. congruence.
    + eapply updated_ok, force_update_ok; [..|exact E]; [exact Hs|by right].
  - injection E as <-. intros Hf Hpd. destruct (Hp Hf Hpd). congruence.
Qed.

Lemma parameter_pending_ok d p s s' : pending_ok s -> olsrv2_routing_set_domain_parameter d p s = Def s' -> pending_ok s'.
Proof.
  intros Hp E. unfold olsrv2_routing_set_domain_parameter in E. destruct (_domain_parameter s !! d) as [old|]; [|done].
  case_bool_decide; [by injection E as <-|]. simpl in E. destruct (get_tree d (kernel s)) as [[|e t]|]; simpl in E; [by injection E as <-| |done].
  match type of E with (mbind _ ?x = _) => destruct x as [k|]; simpl in E; [|done] end.
  destruct (_process_kernel_queue k) as [k'|]; simpl in E; [|done]. injection E as <-. intros _ _. by split; [|eexists].
Qed.

Lemma shutdown_suspended s s' : olsrv2_routing_initiate_shutdown s = Def s' -> suspended s' = true.
Proof.
  unfold olsrv2_routing_initiate_shutdown. destruct (shutdown_domains _ _) as [k|]; simpl; [|done].
  destruct (_process_kernel_queue k) as [k'|]; simpl; [|done]. by intros [= <-].
Qed.

Lemma step_pending_ok s s' : routing_step s s' -> pending_ok s -> pending_ok s'.
Proof.
  destruct 1 as [d b s|d s|d s|s|b s|n s|env db topo fs skip s s' E|env db topo fs s s' _ E|d p s s' E|s k _|s s' E]; intros Hp.
  - by apply domain_changed_ok.
  - by apply update_callback_ok.
  - by apply update_callback_ok.
  - apply trigger_ok.
  - by apply freeze_ok.
  - exact Hp.
  - by eapply force_pending_ok.
  - by eapply timer_pending_ok.
  - by eapply parameter_pending_ok.
  - exact Hp.
  - intros Hf. apply shutdown_suspended in E. congruence.
Qed.

Lemma reachable_pending_ok s : reachable s -> pending_ok s.
Proof.
  induction 1 as [s Hs|s s' _ IH Hst]; [|by eapply step_pending_ok]. intros _ (d & Hd & Ed). rewrite Hs in Ed by done. done.
Qed.

(** What an update needs: valid data for the Dijkstra runs of every domain,
    filters that leave the keys of routes alone, and a kernel interface that has
    nothing queued and whose waiting entries are marked. *)
Record update_ready (env : olsrv2_env) (db : nhdp_db) (topo : topology) (fs : list (nat -> os_route_parameter -> bool -> os_route_parameter * bool))
    (s : routing_state) : Prop := {
  ur_filters : keep_keys fs;
  ur_trees : trees_ok topo;
  ur_families : families_ok topo;
  ur_db : db_ok db;
  ur_domains d : d ∈ domain_list -> domain_ready env db topo d /\ domain_there d s;
  ur_rounds : rounds_ok topo s;
  ur_seqs : seqs_ok (kernel s);
  ur_queue : _kernel_queue (kernel s) = [];
}.

Lemma rounds_done_with env db topo fs ds s0 s s' : kernel s0 = kernel s -> _domain_changed s0 = _domain_changed s -> _domain_parameter s0 = _domain_parameter s ->
  rounds_done env db topo fs ds s0 s' -> rounds_done env db topo fs ds s s'.
Proof.
  intros Ek Ec Ep [R1 R2 R3 R4 R5 R6 R7]. rewrite Ek in *. rewrite Ec in *. split; try done.
  - intros d Hd Hc. destruct (R6 d Hd Hc) as (ns & t & st & par & l & H1 & H2 & H). exists ns, t, st, par, l. rewrite Ek in *. by rewrite <- Ep.
  - intros d Hd. destruct (R7 d Hd). unfold domain_kept in *. by rewrite Ek in *.
Qed.

(** The state with which the loop over the domains starts in the callback of the
    timer: the timer is not active, the trigger is reset, the ANSN increased. *)
Definition loop_start (s : routing_state) : routing_state :=
  let s := with_timer None false s in if _update_ansn s then with_ansn (u16 (_ansn s + 1)) false s else s.

Lemma timer_runs env db topo fs s : NoDup domain_list -> update_ready env db topo fs s -> suspended s = false -> _trigger_dijkstra s = true ->
  exists s1, update_domains env db topo fs domain_list (loop_start s) = Def s1 /\ rounds_done env db topo fs domain_list s s1 /\
    (_seq_used (kernel s) + Z.of_nat (length (_kernel_queue (kernel s1))) < 2 ^ 31 ->
      exists s', _cb_trigger_dijkstra env db topo fs domain_list s = Def s' /\ queue_sent (_kernel_queue (kernel s1)) (kernel s1) (kernel s')).
Proof.
  intros Hnd [Hf Ht Hfam Hdb Hds Hro Hseq Hq] Hsusp Htrig. unfold _cb_trigger_dijkstra. simpl. rewrite Htrig.
  unfold olsrv2_routing_force_update. simpl. unfold suspended in Hsusp. rewrite Hsusp.
  set (s0 := loop_start s).
  assert (kernel s0 = kernel s /\ _domain_changed s0 = _domain_changed s /\ _domain_parameter s0 = _domain_parameter s /\ dijkstra_nodes s0 = dijkstra_nodes s)
    as (Ek & Ec & Ep & En) by (unfold s0, loop_start; simpl; by destruct (_update_ansn s)).
  destruct (update_domains_runs env db topo fs Hf Ht Hfam Hdb domain_list s0 Hnd) as (s1 & E1 & Hdone).
  - intros d Hd. destruct (Hds d Hd) as [? Hth]. split; [done|]. unfold domain_there in *. by rewrite Ek, Ec, Ep.
  - destruct Hro. by split; rewrite ?Ek, ?En.
  - rewrite Ek, Hq. constructor.
  - intros d key _. rewrite Ek, Hq. apply not_elem_of_nil.
  - exists s1. split; [done|]. split; [by eapply rounds_done_with|]. intros Hlt.
    match goal with |- context [update_domains _ _ _ _ _ ?x] => change x with s0 end. rewrite E1. simpl.
    pose proof (rn_ok _ _ _ _ _ _ _ Hdone) as [_ Hs1 _].
    destruct (process_queue_ok (_kernel_queue (kernel s1)) (kernel s1)) as (k' & E & Hsent); [done|by apply Hdone| | | |].
    + unfold seqs_ok in *. by rewrite (rn_feedback _ _ _ _ _ _ _ Hdone), (rn_seq _ _ _ _ _ _ _ Hdone), Ek.
    + by rewrite (rn_seq _ _ _ _ _ _ _ Hdone), Ek.
    + intros p Hp. eapply rounds_queue; [exact Hdone|by rewrite Ek|done].
    + unfold _process_kernel_queue. rewrite E. simpl. eexists. split; [done|]. exact Hsent.
Qed.

(** C26: No change is forgotten. In every state that the module reaches by its
    triggers, callbacks, updates, parameter changes and kernel answers, as long
    as the routes are not frozen or shut down, a domain that is marked as
    changed has the rate limitation timer running with the trigger set. When
    the timer fires, with valid data and an idle kernel queue, the Dijkstra runs
    of every marked domain are made on its routing tree, all entries of the
    result are processed and become its tree, and exactly the changed ones are
    queued; the other domains stay as they are. Unless the sequence numbers of
    netlink run out the callback then finishes, having sent this queue to the
    kernel. Whenever it finishes, no domain is left marked, the ANSN has been
    increased by one exactly if an increase was due, and the next update is
    delayed by a full second. *)
Theorem pending_update_runs s : reachable s -> suspended s = false -> pending s ->
  _trigger_dijkstra s = true /\ is_Some (_rate_limit_timer s) /\
  (forall env db topo fs, NoDup domain_list -> update_ready env db topo fs s ->
    exists s1, update_domains env db topo fs domain_list (loop_start s) = Def s1 /\
      (forall d, d ∈ domain_list -> _domain_changed s !! d = Some true -> domain_updated env db topo fs d s s1) /\
      (forall d, d ∉ domain_list \/ _domain_changed s !! d <> Some true -> domain_kept d s s1) /\
      (_seq_used (kernel s) + Z.of_nat (length (_kernel_queue (kernel s1))) < 2 ^ 31 ->
        exists s', _cb_trigger_dijkstra env db topo fs domain_list s = Def s' /\ queue_sent (_kernel_queue (kernel s1)) (kernel s1) (kernel s'))) /\
  (forall env db topo fs s', _cb_trigger_dijkstra env db topo fs domain_list s = Def s' -> ~ pending s' /\ updated s s').
Proof.
  intros Hr Hs Hp. destruct (reachable_pending_ok s Hr Hs Hp) as [Ht Htm]. split; [done|]. split; [done|]. split.
  { intros env db topo fs Hnd Hu. destruct (timer_runs env db topo fs s Hnd Hu Hs Ht) as (s1 & E1 & Hd & Hrun). exists s1.
    split; [exact E1|]. split; [apply Hd|]. split; [apply Hd|exact Hrun]. }
  intros env db topo fs s' E. unfold _cb_trigger_dijkstra in E. simpl in E. rewrite Ht in E.
  assert (updated s s') as Hu.
  { destruct (force_update_ok env db topo fs false (with_timer None false (with_timer None true s)) s') as [H1 H2 H3 H4 H5]; [done|by right|done|].
    by split. }
  split; [|done]. intros (d & Hd & Ed). rewrite (up_flags _ _ Hu d Hd) in Ed. done.
Qed.
End trigger.

(** A change of the topology, then the timer. *)
Definition ex_pending : routing_state := olsrv2_routing_domain_changed [0%nat] (Some 0%nat) true ex_routing.

Lemma ex_update_ready : update_ready [0%nat] ex_env ex_db ex_topo [] ex_pending.
Proof.
  split; try done.
  - constructor.
  - apply ex_trees_ok.
  - apply ex_families_ok.
  - apply ex_db_ok.
  - intros d ->%list_elem_of_singleton. split; [|split; [|split]; by eexists]. split.
    + apply ex_topo_ok.
    + apply ex_split_ok.
    + unfold NHDP_MAXIMUM_DOMAINS. lia.
    + apply ex_env_ok.
    + apply ex_nhdp_env_ok.
    + exists RFC7181_METRIC_MAX. apply ex_metrics.
  - split.
    + intros t. destruct ex_state_idle. by split.
    + intros d t. simpl. do 4 (destruct d as [|d]; [intros [= <-]; constructor|]). by destruct d.
    + by intros p ?%elem_of_nil.
  - split; [constructor|]. split; [constructor|]. simpl. lia.
Qed.

(** The runs are made, and the requests of their routes are sent. *)
Lemma pending_update_runs_witness : exists s1 s',
  domain_updated ex_env ex_db ex_topo [] 0 ex_pending s1 /\
  _cb_trigger_dijkstra ex_env ex_db ex_topo [] [0%nat] ex_pending = Def s' /\
  queue_sent (_kernel_queue (kernel s1)) (kernel s1) (kernel s') /\ ~ pending [0%nat] s' /\ _ansn s' = 8.
Proof.
  assert (reachable [0%nat] ex_pending) as Hr.
  { eapply reach_step; [|apply step_changed]. apply reach_start. intros d ->%list_elem_of_singleton. done. }
  destruct (pending_update_runs [0%nat] ex_pending Hr) as (_ & _ & H1 & H2); [done|exists 0%nat; split; [by left|done]|].
  destruct (H1 ex_env ex_db ex_topo [] (NoDup_singleton _) ex_update_ready) as (s1 & E1 & Hu & _ & Hrun). exists s1.
  destruct Hrun as (s' & E & Hs); [|exists s'; split; [by apply Hu; [left|]|]; split; [exact E|]; split; [exact Hs|]].
  - vm_compute in E1. injection E1 as <-. vm_compute. reflexivity.
  - destruct (H2 _ _ _ _ _ E) as [H3 H4]. split; [done|]. by rewrite (up_ansn _ _ _ H4).
Defined.
